(* ===== verification/_CoqProject ===== *)
-Q . S2P
Prelude.v
Ieee.v
StdModel.v
IeeeRound.v
Material.v
Bitmaps.v
GridCache.v
NesTypes.v
SmbEvaluator.v
SmbRam.v
SmbAdapter.v
SmbSearchCore.v
SmbDfsSearch.v
SmbDfsTree.v
SmbDfsFacts.v
SmbDfsInvariant.v
SmbDfsSteps.v
SmbDfsTick.v
SmbDfsCorrect.v
SmbDfsDemo.v
SmbPlanExecution.v
SmbPlanReplay.v
SmbDfsFaithful.v
SmbDfsUnfold.v
SmbPlanFaithful.v
SmbResponse.v
SmbResponseFacts.v
SmbResponseRuns.v
SmbResponseCorrect.v
RegionActivity.v
RegionMasks.v
RegionSummaries.v
RegionSleep.v
Maze.v
MazeGraph.v
MazeGeneration.v
MazeSolving.v
MazeCycle.v
Scanner.v
NexmonProtocol.v
ScanPlanner.v
ScanPlannerFacts.v
ScanPlannerRounds.v
NesTiles.v
NesTileFacts.v
NesTileTokens.v
NesTileSenses.v
Uuid.v
Genomes.v
GenomeFacts.v
GenomePrune.v
GenomeCorrect.v
GenomeDemo.v
Training.v
TrainingFacts.v
Mutation.v
MutationFacts.v
EvaluationTypes.v
EvaluationExecutor.v
ExecutorFacts.v
ExecutorRuns.v
ExecutorCorrect.v
ExecutorDemo.v
EvolutionTypes.v
Evolution.v
EvolutionScores.v
EvolutionSurvivors.v
EvolutionBreeding.v
BrainGenomes.v
EvolutionInvariant.v
EvolutionSteps.v
EvolutionGenerations.v
EvolutionResults.v
EvolutionStart.v
EvolutionCorrect.v
EvolutionSystem.v
EvolutionDemo.v
WarmStart.v
EvolutionRequest.v
RequestCorrect.v
