(* ===== verification/Prelude.v ===== *)
(** * DirtSim: a verification library

    This library models and verifies the discrete core of DirtSim, a C++ sandbox
    simulator with learning agents: the world's caches and its region activity,
    the tree search that plays Super Mario Bros through an NES emulator, the probe
    that measures how fast a display answers the pad, the evolutionary training with
    its evaluation threads and its repository of genomes, the maze animation of the
    user interface and the Wi-Fi scanner of the operating-system manager. File names
    are relative to [apps/src/] of the repository.

    ** How the program is modelled

    A C++ call is a function to [res]: [Ok] of its result and of the state it
    changes, or a [fault] that says how the call goes wrong (an index out of
    range, a failing [DIRTSIM_ASSERT], a signed overflow, a dereferenced end
    iterator...). Errors the program handles are values of [Result], as in
    [core/Result.h]. State is a record per class, passed and returned; a
    [std::vector] is a list read and written through [vec_get], [vec_set],
    [vec_at]...; machine integers are integers of [Z] wrapped at their width
    ([u8] to [u64], [s32]) where the code can wrap, and checked ([int_result])
    where a signed overflow would be undefined; [double] and [float] are the
    executable IEEE-754 arithmetic of [Ieee]. A [while] loop has a fuel, and the
    theorems show that it does not run out; a counted [for] has as many
    iterations as its bounds say. [wp m Q] states that [m] does not fault and
    that its result satisfies [Q].

    ** Parts, files and sources

    - Shared: this file (faults, vectors, loops, row-major grids, flags, machine
      integers, bit words, automation), [Ieee] (floating point) and [IeeeRound] (its
      rounding is monotone, bounds of products and quotients, [floor] and [ceil]), [StdModel] (random engines, distributions, [std::sort],
      [std::nth_element], [std::shuffle] and the walk of a hash map, as classes with their
      documented laws, and the strict weak orders that sorting demands), [Material] ([core/Cell.h], [core/MaterialType.h]).
    - World caches. [Bitmaps]: [core/bitmaps/*] (bit-packed blocks, 3x3
      neighbourhoods). [GridCache]: [core/GridOfCells.{h,cpp}], which fills
      bitmaps and neighbourhood words from the world's cells. The bitmaps refine
      sets of cells; the cache agrees with the cells it was built from, by the
      single pass as by the separate passes.
    - Region activity. [RegionActivity]: [core/WorldRegionActivityTracker.{h,cpp}],
      [core/RegionDebugInfo.h], which reads the world and the grid cache.
      [RegionMasks], [RegionSummaries], [RegionSleep]: which regions and cells are
      active, what a frame's summary sees, when a region falls asleep or wakes.
    - NES scenario. [NesTypes]: the shared data. [SmbRam]: the RAM extractor.
      [SmbEvaluator]: rewards and episode progress. [SmbAdapter]: setup policy,
      special senses, tile position and the game adapter, which calls the
      extractor and the evaluator. All under [core/scenarios/nes/].
    - NES tiles. [NesTiles]: [NesTileFrame], [NesTileTokenizer],
      [NesTileTokenFrame], [NesTileVocabularyBuilder],
      [NesPlayerRelativeTileFrame], [NesTileSensoryData] and
      [NesTileSensoryBuilder] of [core/scenarios/nes/], from a snapshot of the
      picture-processing unit to the senses of a brain. [NesTileFacts],
      [NesTileTokens], [NesTileSenses]: frames, tokens, and the whole path.
    - Search. [SmbSearchCore], [SmbDfsSearch], [SmbPlanExecution]: the files of
      those names under [server/search/]. The search expands emulator savestates
      through the class [NesDriver] (the runtime's operations, which may do
      anything) and evaluates them with the adapter's evaluator. [SmbDfsTree],
      [SmbDfsFacts], [SmbDfsInvariant], [SmbDfsSteps], [SmbDfsTick]: the invariant
      and its preservation. [SmbDfsCorrect]: the theorems. [SmbDfsFaithful]
      (with what a restored evaluator keeps), [SmbDfsUnfold]: the tree against the
      emulator, for a runtime that obeys the laws of [NesMachine] (stepping from a
      restored savestate is a function of it). [SmbPlanReplay], [SmbPlanFaithful]:
      the theorems on executions. [SmbDfsDemo]: a corridor, that is a concrete
      runtime to which they are applied.
    - Response probe. [SmbResponse]:
      [core/scenarios/nes/NesSuperMarioBrosResponseProbe.{h,cpp}]: it injects a
      pad input, watches for the frame that answers it and the display that shows
      the frame, and hands the measurements to a telemetry reader. The steady
      clock is an argument of the operations. [SmbResponseFacts],
      [SmbResponseRuns]: its invariant and its runs; [SmbResponseCorrect]: the
      theorems.
    - Genomes. [Uuid]: [core/UUID.{h,cpp}]. [Genomes]: [GenomeMetadata],
      [GenomeMetadataUtils] and [GenomeRepository] of [core/organisms/evolution/].
      The repository caches what its database holds. The database, the JSON of a
      genome's metadata and the order in which a hash map is walked are the
      classes [GenomeDatabase], [MetadataJson], [UnorderedWalk]; [HealthyDatabase]
      and [MetadataJsonLaws] are their documented behaviour: a row with weights is
      inserted, one without is refused (a null blob), and JSON text is made of UTF-8
      texts only. [GenomeFacts] (the
      invariant), [GenomePrune], [GenomeCorrect] (the theorems), [GenomeDemo] (a
      table as the database).
    - Training. All of it under [core/organisms/evolution/] and [server/]. [Training]:
      the settings, the phase tracker and the mutation budgets of a phase
      ([EvolutionConfig.h], [TrainingPhaseTracker], [AdaptiveMutation]); [Mutation]:
      [Mutation.cpp]; [TrainingFacts], [MutationFacts]: their theorems.
      [EvaluationTypes]: requests and results, and what the training and its
      executor promise each other (the classes [EvaluationService],
      [EvaluationCollector], [EvaluationTuning] and their laws).
      [EvaluationExecutor]: [evolution/EvaluationExecutor.{h,cpp}], the threads of
      the executor as a step function on one shared state: a step is what a thread
      does between two points where it takes a lock, sleeps or wakes.
      [ExecutorFacts], [ExecutorRuns]: its invariant, its runs and their measure;
      [ExecutorCorrect]: the theorems and the instances of the interface;
      [ExecutorDemo]: small runs. [EvolutionTypes], [Evolution]:
      [states/Evolution.{h,cpp}], the generations of a training.
      [EvolutionScores], [EvolutionSurvivors], [EvolutionBreeding]: statistics,
      selection and breeding; [EvolutionInvariant], [EvolutionSteps],
      [EvolutionGenerations], [EvolutionResults], [EvolutionStart]: the invariant
      (a generation is evaluated, a candidate is validated, or the training is
      complete) and its preservation by every operation; [EvolutionCorrect]: the
      theorems against the interfaces; [EvolutionSystem]: the genome repository as
      the archive of a training (the class [GenomeArchive] and its laws), and the
      training on the executor; [EvolutionDemo]: a whole training, computed.
      [BrainGenomes]: the sizes, random genomes and layouts of the brains that learn
      ([core/organisms/brains/], [NesTileRecurrentBrain]) and the registry of all
      brains, [TrainingBrainRegistry]. [WarmStart]: the choice of seeds among the
      stored genomes ([states/Idle.cpp], [NesTileBrainMetadata]), its definitions and
      their lemmas. [EvolutionRequest]: the command [Api::EvolutionStart] and its
      handler in [states/Idle.cpp], which checks the populations, injects the seeds
      and makes the state that the server enters; [RequestCorrect]: its theorems,
      which link the handler to [onEnter] and the training.
    - Maze. [Maze]: [ui/rendering/maze/*]. The animator builds a maze, solves it,
      traces the path, holds it and starts again. [MazeGraph] (grid, passages,
      walks, trees), [MazeGeneration], [MazeSolving], [MazeCycle]: the theorems.
      Random numbers come from the class [RandomEngine].
    - Scanner. [Scanner]: [os-manager/ScannerTypes.h]. [NexmonProtocol]:
      [os-manager/network/NexmonChannelProtocol.{h,cpp}]. [ScanPlanner]:
      [os-manager/network/AdaptiveScanPlanner.{h,cpp}] and [ScanPlanner.h].
      [ScanPlannerFacts], [ScanPlannerRounds]: the planner's invariant and
      theorems.

    A definition has the name of the C++ function or type it models, in a Module
    named after its class; the body of a loop or a block of a long function has a
    name of its own.

    ** What the theorems show

    - Safety: no sequence of public operations of the search, of a plan
      execution, of the genome repository, of the maze animator or of the scan
      planner faults ([dfs_total], [execution_total], [genome_requests],
      [maze_animator_view], [planner_total]), nor does a training
      ([training_never_faults]) or a sane command that starts one
      ([evolution_start_accepts]); the repository's scores must be numbers and its
      samples finite, without which [std::sort] and [std::nth_element] are undefined; reads of the bitmaps and the cache
      stay in range; the response probe never reports a pad event twice
      ([response_once]). The one unsafe run that is possible is shown, too: the
      executor's [stop] may hang ([executor_stop_can_hang]).
    - Invariants: every reachable search state has a well-formed tree, a best plan
      that leads to its best leaf, closed nodes that were exhausted or pruned for a
      reason the search states and closed-loss tables whose entries were all
      proven ([dfs_best_plan], [dfs_closed_losses], [dfs_transpositions]); the
      maze generator leaves a perfect maze, that is one simple path between any
      two cells ([maze_generation]); the repository's content index, best genome
      and database agree with its cache after any requests ([genome_requests]);
      the queue of measurements holds the newest ones, in order ([response_queue]);
      between two ticks a training waits for just the tickets its executor holds
      ([training_waits]); the brains of the default registry make genomes they
      accept, with layouts that cover them ([default_brains]).
    - Refinement and equivalence: bitmaps refine sets, the cache agrees with the
      world, the active regions are exactly the ones the rules ask for
      ([region_masks]), the maze solver's path is a shortest one
      ([maze_solver_shortest]), a rebuilt evaluator continues the one it was
      taken from; the tree of a search is an unfolding of the emulator
      ([dfs_unfolds_emulator]) and the plan of its best leaf plays back to that
      leaf ([dfs_plan_plays_back]); a repository opened on a database continues
      the one that wrote it, for genomes with weights and metadata of UTF-8 texts and
      finite numbers ([genome_persistence]); a vocabulary of tiles is the
      ranks of the sampled patterns ([vocabulary_ranks], [frozen_senses]); the
      executor answers every request once, in any interleaving of its threads
      ([executor_answers_once]); the phase tracker's status is a function of the
      history of the best scores ([tracker_history]); a training that is accepted can
      be entered, and is one of those that the theorems on trainings are about
      ([accepted_training_enters]).
    - Round trips: plans replay the run that recorded them ([recording_replays]),
      chanspecs survive encoding, identifiers survive their text
      ([uuid_roundtrip]).
    - Termination and liveness: the search completes within a number of ticks,
      calm regions fall asleep, the maze animation always reaches its next cycle,
      the planner visits every tuning of the band in force ([planner_fair]), the
      executor's threads come to rest with every answer published, and its [stop]
      returns when no thread is about to sleep ([executor_finishes],
      [executor_stops]), a training takes a bounded number of rounds and its next
      round never fails to come ([training_finishes]).
    - Functional and error behaviour, branch by branch: the progress, the end and the
      exact rewards of a frame ([evaluate_frame]), the adapter's frame, a plan execution's tick, a frame of the response probe
      ([response_frame]), the genomes a pruning keeps ([genome_prune]), the weights a
      mutation changes, to what and how many in each segment ([mutation_spread],
      [mutation_budgets]), the merged command signatures of an evaluation
      ([merged_signatures]), the survivors of a generation with the diversity elites
      chosen by distance, its offspring with the survivors each tournament drew, and
      its histogram ([survivors_selected], [offspring_bred], [fitness_histogram]), the decoded RAM, the tile frame of a snapshot ([tile_frame]), manual targets and
      chanspecs with their error messages.

    ** Bounds and fuel

    [SmbDfsSearch.tickLoop] has fuel 2: a tick either expands, or backtracks once
    and then expands or completes. [SmbSearchCore.reconstruct_loop] has the number
    of nodes: a parent precedes its children. [captureRoot] steps the emulator at
    most the 2000 frames the code allows. [MazeSolverSession.rebuild_loop] has the
    number of cells: the path back to the start does not repeat a cell.
    [UUID.parse_loop] has the 36 characters of the text. Random identifiers are
    drawn from a list, which the theorems assume to hold a fresh one. A training is
    entered with [maxGenerations * 2 * population] below [2^31], the code's own
    estimate of its evaluations, with budgets that fit an [int], and with
    finite scores of at most [2^926] ([EvolutionScores.score_ok], in units of the
    smallest double), so that differences of scores are finite. The theorems
    that need a bound on a counter state it: grids whose cell count fits an
    [int], fewer than [2^31] rounds of the planner, node budgets below the width
    of the counters.

    ** Not modelled

    The physics, water, lighting and organisms of the world are floating-point
    simulations without an exact specification. The emulator, the web sockets,
    D-Bus, netlink, the database and LVGL are third-party code or I/O around it;
    where the modelled code relies on them they are interfaces ([NesDriver],
    [GenomeDatabase], [MetadataJson], [RandomEngine], [NormalDistribution],
    [UniformReal], [DiscreteDistribution], [Shuffle], [StdSort], [UnorderedWalk]) or
    arguments. Logging, timers and debug
    drawings are left out of the components. Of the training, the runner of an
    individual and its evaluators drive that physics: what a run scores is an
    argument of the executor's steps; so are the metadata of a scenario and the
    tokenizer that is bootstrapped by running the emulator, for the command that
    starts a training. Of a brain that learns, what it computes from its senses is
    not modelled. The other commands that the server takes while it is idle start a
    simulation or a search, serve the stored plans, or end the server. The playback of the best genome, the progress
    messages and the result that waits to be saved only show what the training
    does, and are left out. The reflected JSON of records, the other NES games and
    the state machines of the server and the user interface are not modelled: they
    translate between messages, or repeat for another game what is modelled here. *)

From Stdlib Require Import ZArith Lia Bool String.
From stdpp Require Import base gmap option numbers list.

Set Default Goal Selector "!".

Open Scope Z_scope.

(** ** Faults: the ways a C++ call can fail to produce a value

    [OutOfBounds] is [operator[]] outside the vector (undefined behaviour),
    [OutOfRange] is the exception [at] throws, [LengthError] the exception a
    container throws for an impossible size, [AssertFailed] a failing
    [DIRTSIM_ASSERT], [BadFront] a [front]/[back] on an empty container,
    [NoMatch] the dereference of an end iterator, [IntOverflow] a signed
    overflow (undefined behaviour), [BadOptional] the exception [value()] throws
    for an empty optional, [Undefined] any other undefined behaviour and
    [OutOfFuel] a [while] loop that is still running when the fuel of its model is
    used up. *)
Inductive fault :=
| OutOfBounds
| OutOfRange
| LengthError
| AssertFailed (msg : string)
| BadFront
| NoMatch
| IntOverflow
| BadOptional
| Undefined (what : string)
| OutOfFuel.

#[export] Instance fault_eq_dec : EqDecision fault.
Proof. solve_decision. Defined.

Inductive res (A : Type) : Type :=
| Ok (a : A)
| Fault (f : fault).
Arguments Ok {A} a.
Arguments Fault {A} f.

(** [Result<A, E>] of [core/Result.h]: an error the callers handle. *)
Inductive Result (A E : Type) : Type :=
| okay (a : A)
| error (e : E).
Arguments okay {A E} a.
Arguments error {A E} e.

Declare Scope res_scope.
Delimit Scope res_scope with res.

Definition rbind {A B} (m : res A) (k : A -> res B) : res B :=
  match m with
  | Ok a => k a
  | Fault f => Fault f
  end.

Notation "'let!' x ':=' m 'in' k" := (rbind m (fun x => k))
  (at level 10, x name, m at level 100, k at level 200) : res_scope.
Notation "'let!' ' p ':=' m 'in' k" := (rbind m (fun x => match x with p => k end))
  (at level 10, p pattern, m at level 100, k at level 200) : res_scope.
Notation "m ';;!' k" := (rbind m (fun _ => k))
  (at level 199, right associativity) : res_scope.
Open Scope res_scope.

Definition dirtsim_assert (b : bool) (msg : string) : res unit :=
  if b then Ok tt else Fault (AssertFailed msg).

(** ** Total correctness of a [res] computation

    [wp m Q]: [m] returns a value (no fault) and the value satisfies [Q]. *)
Definition wp {A} (m : res A) (Q : A -> Prop) : Prop :=
  match m with
  | Ok a => Q a
  | Fault _ => False
  end.

Section Wp.
Context {A B : Type}.
Implicit Types (m : res A) (k : A -> res B).

Lemma wp_ok (a : A) (Q : A -> Prop) : Q a -> wp (Ok a) Q.
Proof. done. Qed.

Lemma wp_bind m k (Q : B -> Prop) :
  wp m (fun a => wp (k a) Q) -> wp (rbind m k) Q.
Proof. by destruct m. Qed.

Lemma wp_mono m (P Q : A -> Prop) : wp m P -> (forall a, P a -> Q a) -> wp m Q.
Proof. destruct m; simpl; auto. Qed.

Lemma wp_conj m (P Q : A -> Prop) : wp m P -> wp m Q -> wp m (fun a => P a /\ Q a).
Proof. destruct m; simpl; auto. Qed.

Lemma wp_elim m (Q : A -> Prop) : wp m Q <-> exists a, m = Ok a /\ Q a.
Proof.
  split.
  - destruct m; simpl; [eauto | done].
  - by intros (a & -> & H).
Qed.

Lemma rbind_ok_inv m k (b : B) :
  rbind m k = Ok b -> exists a, m = Ok a /\ k a = Ok b.
Proof. destruct m; simpl; [eauto | done]. Qed.
End Wp.

Lemma wp_assert (b : bool) msg (Q : unit -> Prop) :
  b = true -> Q tt -> wp (dirtsim_assert b msg) Q.
Proof. by intros ->. Qed.

(** ** Vectors: a list indexed by a C++ integer *)
Section Vectors.
Context {A : Type}.

Definition in_range (l : list A) (i : Z) : bool := (0 <=? i) && (i <? Z.of_nat (length l)).

(** [v[i]] read: undefined behaviour out of range. *)
Definition vec_get (l : list A) (i : Z) : res A :=
  if in_range l i then
    match l !! Z.to_nat i with Some x => Ok x | None => Fault OutOfBounds end
  else Fault OutOfBounds.

(** [v.at(i)] read: throws [std::out_of_range]. *)
Definition vec_at (l : list A) (i : Z) : res A :=
  if in_range l i then
    match l !! Z.to_nat i with Some x => Ok x | None => Fault OutOfRange end
  else Fault OutOfRange.

(** [v[i] = x]. *)
Definition vec_set (l : list A) (i : Z) (x : A) : res (list A) :=
  if in_range l i then Ok (<[Z.to_nat i := x]> l) else Fault OutOfBounds.

(** [v.at(i) = x]. *)
Definition vec_at_set (l : list A) (i : Z) (x : A) : res (list A) :=
  if in_range l i then Ok (<[Z.to_nat i := x]> l) else Fault OutOfRange.

Definition vec_back (l : list A) : res A :=
  match last l with Some x => Ok x | None => Fault BadFront end.

Lemma in_range_iff (l : list A) i :
  in_range l i = true <-> 0 <= i < Z.of_nat (length l).
Proof. unfold in_range. lia. Qed.

Lemma in_range_lookup (l : list A) i :
  0 <= i < Z.of_nat (length l) -> exists x, l !! Z.to_nat i = Some x.
Proof. intros H. apply lookup_lt_is_Some_2. lia. Qed.

Lemma vec_get_ok (l : list A) i x :
  0 <= i -> l !! Z.to_nat i = Some x -> vec_get l i = Ok x.
Proof.
  intros Hi Hx. unfold vec_get. rewrite Hx.
  rewrite (proj2 (in_range_iff l i)); [done |].
  apply lookup_lt_Some in Hx. lia.
Qed.

Lemma vec_at_ok (l : list A) i x :
  0 <= i -> l !! Z.to_nat i = Some x -> vec_at l i = Ok x.
Proof.
  intros Hi Hx. unfold vec_at. rewrite Hx.
  rewrite (proj2 (in_range_iff l i)); [done |].
  apply lookup_lt_Some in Hx. lia.
Qed.

Lemma vec_get_inv (l : list A) i x :
  vec_get l i = Ok x -> 0 <= i < Z.of_nat (length l) /\ l !! Z.to_nat i = Some x.
Proof.
  unfold vec_get. destruct (in_range l i) eqn:E; [| done].
  apply in_range_iff in E. destruct (l !! _); [| done]. intros [= ->]. done.
Qed.

Lemma wp_vec_get (l : list A) i (Q : A -> Prop) :
  0 <= i < Z.of_nat (length l) ->
  (forall x, l !! Z.to_nat i = Some x -> Q x) -> wp (vec_get l i) Q.
Proof.
  intros Hi HQ. destruct (in_range_lookup l i Hi) as [x Hx].
  rewrite (vec_get_ok l i x); [by apply HQ | lia | done].
Qed.

Lemma wp_vec_at (l : list A) i (Q : A -> Prop) :
  0 <= i < Z.of_nat (length l) ->
  (forall x, l !! Z.to_nat i = Some x -> Q x) -> wp (vec_at l i) Q.
Proof.
  intros Hi HQ. destruct (in_range_lookup l i Hi) as [x Hx].
  rewrite (vec_at_ok l i x); [by apply HQ | lia | done].
Qed.

Lemma vec_set_ok (l : list A) i x :
  0 <= i < Z.of_nat (length l) -> vec_set l i x = Ok (<[Z.to_nat i := x]> l).
Proof. intros H. unfold vec_set. by rewrite (proj2 (in_range_iff l i) H). Qed.

Lemma vec_at_set_ok (l : list A) i x :
  0 <= i < Z.of_nat (length l) -> vec_at_set l i x = Ok (<[Z.to_nat i := x]> l).
Proof. intros H. unfold vec_at_set. by rewrite (proj2 (in_range_iff l i) H). Qed.

Lemma wp_vec_set (l : list A) i x (Q : list A -> Prop) :
  0 <= i < Z.of_nat (length l) -> Q (<[Z.to_nat i := x]> l) -> wp (vec_set l i x) Q.
Proof. intros H HQ. by rewrite vec_set_ok. Qed.

Lemma wp_vec_at_set (l : list A) i x (Q : list A -> Prop) :
  0 <= i < Z.of_nat (length l) -> Q (<[Z.to_nat i := x]> l) -> wp (vec_at_set l i x) Q.
Proof. intros H HQ. by rewrite vec_at_set_ok. Qed.

(** Reading back an updated vector, in terms of integer indices. *)
Lemma lookup_insert_Z (l : list A) i j x :
  0 <= i < Z.of_nat (length l) -> 0 <= j ->
  <[Z.to_nat i := x]> l !! Z.to_nat j = if decide (i = j) then Some x else l !! Z.to_nat j.
Proof.
  intros Hi Hj. case_decide as E.
  - subst. apply list_lookup_insert_eq. lia.
  - apply list_lookup_insert_ne. lia.
Qed.

Definition vec_front (l : list A) : res A :=
  match l with x :: _ => Ok x | [] => Fault BadFront end.

Lemma vec_back_snoc (l : list A) x : vec_back (l ++ [x]) = Ok x.
Proof. unfold vec_back. by rewrite last_snoc. Qed.
End Vectors.

(** ** Counted loops: [for (int i = lo; i < hi; ++i) body]

    The fuel of [for_range] is exactly the number of iterations, so it never
    runs out. *)
Fixpoint for_loop {S : Type} (n : nat) (i : Z) (body : Z -> S -> res S) (s : S) : res S :=
  match n with
  | O => Ok s
  | Datatypes.S n' => let! s' := body i s in for_loop n' (i + 1) body s'
  end.

Definition for_range {S : Type} (lo hi : Z) (body : Z -> S -> res S) (s : S) : res S :=
  for_loop (Z.to_nat (hi - lo)) lo body s.

Section Loops.
Context {S : Type}.

Lemma wp_for_loop (I : Z -> S -> Prop) n i body (s : S) :
  I i s ->
  (forall j s', i <= j < i + Z.of_nat n -> I j s' -> wp (body j s') (I (j + 1))) ->
  wp (for_loop n i body s) (I (i + Z.of_nat n)).
Proof.
  revert i s. induction n as [|n IH]; intros i s Hi Hstep.
  - by replace (i + Z.of_nat 0) with i by lia.
  - cbn [for_loop]. apply wp_bind. eapply wp_mono; [apply Hstep; [lia | done] |].
    intros s' Hs'. replace (i + Z.of_nat (Datatypes.S n)) with (i + 1 + Z.of_nat n) by lia.
    apply IH; [done |]. intros j s'' Hj. apply Hstep. lia.
Qed.

(** The invariant rule: [I i] holds before iteration [i]. *)
Lemma wp_for_range (I : Z -> S -> Prop) lo hi body (s : S) :
  lo <= hi -> I lo s ->
  (forall j s', lo <= j < hi -> I j s' -> wp (body j s') (I (j + 1))) ->
  wp (for_range lo hi body s) (I hi).
Proof.
  intros Hle H0 Hstep. unfold for_range.
  replace hi with (lo + Z.of_nat (Z.to_nat (hi - lo))) at 2 by lia.
  apply wp_for_loop; [done |]. intros j s' Hj. apply Hstep. lia.
Qed.
End Loops.

(** ** Row-major scans: [for (y = 0; y < h; ++y) for (x = 0; x < w; ++x) body] *)
Definition scan {S : Type} (w h : Z) (body : Z -> Z -> S -> res S) (s : S) : res S :=
  for_range 0 h (fun y s => for_range 0 w (fun x s => body x y s) s) s.

Section Scan.
Context {S : Type}.

(** The invariant of a scan is indexed by the number of cells visited. *)
Lemma wp_scan (I : Z -> S -> Prop) w h body (s : S) :
  0 <= w -> 0 <= h -> I 0 s ->
  (forall x y s', 0 <= x < w -> 0 <= y < h -> I (y * w + x) s' ->
     wp (body x y s') (I (y * w + x + 1))) ->
  wp (scan w h body s) (I (h * w)).
Proof.
  intros Hw Hh H0 Hstep. unfold scan.
  apply (wp_for_range (fun y s => I (y * w) s)); [done | done |].
  intros y s' Hy Hs'. replace ((y + 1) * w) with (y * w + w) by lia.
  apply (wp_for_range (fun x s => I (y * w + x) s)); [done | by rewrite Z.add_0_r |].
  intros x s'' Hx Hs''. rewrite Z.add_assoc. by apply Hstep.
Qed.
End Scan.

(** Row-major vectors: entry [y * w + x] is [f x y]. *)
Definition row_major {A} (w h : Z) (f : Z -> Z -> A) (k : Z) (v : list A) : Prop :=
  Z.of_nat (length v) = w * h /\ forall x y, 0 <= x < w -> 0 <= y < h -> y * w + x < k -> v !! Z.to_nat (y * w + x) = Some (f x y).

Section RowMajor.
Context {A : Type}.
Implicit Types (v : list A) (f : Z -> Z -> A).

Lemma row_major_index w h x y : 0 <= x < w -> 0 <= y < h -> 0 <= y * w + x < w * h.
Proof. nia. Qed.

Lemma row_major_index_inj w x y x' y' :
  0 <= x < w -> 0 <= x' < w -> y * w + x = y' * w + x' -> x = x' /\ y = y'.
Proof. intros Hx Hx' E. assert (y = y') by nia. subst. lia. Qed.

Lemma row_major_start w h f v : Z.of_nat (length v) = w * h -> row_major w h f 0 v.
Proof. intros Hl. split; [done |]. intros x y Hx Hy Hk. nia. Qed.

Lemma row_major_step w h f v x y :
  0 <= x < w -> 0 <= y < h -> row_major w h f (y * w + x) v ->
  row_major w h f (y * w + x + 1) (<[Z.to_nat (y * w + x) := f x y]> v).
Proof.
  intros Hx Hy [Hl Hv]. split; [by rewrite length_insert |]. intros x' y' Hx' Hy' Hk.
  pose proof (row_major_index w h x y Hx Hy). pose proof (row_major_index w h x' y' Hx' Hy').
  rewrite lookup_insert_Z by lia. case_decide as E.
  - by destruct (row_major_index_inj w x y x' y' Hx Hx' E) as [-> ->].
  - apply Hv; [done | done | lia].
Qed.

(** A complete row-major vector is determined by its entries. *)
Lemma row_major_inj w h f g v v' :
  0 <= w ->
  (forall x y, 0 <= x < w -> 0 <= y < h -> f x y = g x y) ->
  row_major w h f (h * w) v -> row_major w h g (h * w) v' -> v = v'.
Proof.
  intros Hw0 Hfg [Hl Hv] [Hl' Hv']. apply (list_eq_same_length _ _ (length v)); [lia | done |].
  intros k a a' Hk Ha Ha'.
  assert (0 < w) as Hw by (destruct (decide (w = 0)) as [-> |]; lia).
  pose proof (Z.div_mod (Z.of_nat k) w) as Hdm. pose proof (Z.mod_pos_bound (Z.of_nat k) w Hw).
  set (x := Z.of_nat k mod w) in *. set (y := Z.of_nat k / w) in *.
  assert (0 <= y < h) by (unfold y; split; [apply Z.div_pos; lia | apply Z.div_lt_upper_bound; lia]).
  assert (Z.to_nat (y * w + x) = k) as Ek by lia.
  assert (y * w + x < h * w) by nia.
  specialize (Hv x y ltac:(lia) ltac:(lia) ltac:(lia)).
  specialize (Hv' x y ltac:(lia) ltac:(lia) ltac:(lia)).
  rewrite Ek in Hv, Hv'. rewrite <- Hfg in Hv' by lia. congruence.
Qed.
End RowMajor.

(** ** In-place loops over a vector: [for (i = 0; i < n; ++i) v[i] = f(i, v[i])]

    [upto_map k f l] is the vector after the first [k] iterations. *)
Definition upto_map {A} (k : Z) (f : nat -> A -> A) (l : list A) : list A :=
  imap (fun i a => if Z.of_nat i <? k then f i a else a) l.

Section UptoMap.
Context {A : Type}.
Implicit Types (l : list A) (f : nat -> A -> A).

Lemma upto_map_length k f l : length (upto_map k f l) = length l.
Proof. apply length_imap. Qed.

Lemma upto_map_lookup k f l i :
  upto_map k f l !! i = (fun a => if Z.of_nat i <? k then f i a else a) <$> l !! i.
Proof. apply list_lookup_imap. Qed.

Lemma upto_map_0 f l : upto_map 0 f l = l.
Proof.
  apply list_eq. intros i. rewrite upto_map_lookup. destruct (l !! i); simpl; [| done].
  by rewrite (proj2 (Z.ltb_ge (Z.of_nat i) 0)) by lia.
Qed.

Lemma upto_map_all f l : upto_map (Z.of_nat (length l)) f l = imap f l.
Proof.
  apply list_eq. intros i. rewrite upto_map_lookup, list_lookup_imap.
  destruct (l !! i) eqn:E; simpl; [| done]. apply lookup_lt_Some in E.
  by rewrite (proj2 (Z.ltb_lt (Z.of_nat i) (Z.of_nat (length l)))) by lia.
Qed.

(** The entry about to be written is still the original one. *)
Lemma upto_map_get k f l a :
  0 <= k -> l !! Z.to_nat k = Some a -> vec_get (upto_map k f l) k = Ok a.
Proof.
  intros Hk Ha. apply vec_get_ok; [done |]. rewrite upto_map_lookup, Ha. simpl.
  by rewrite (proj2 (Z.ltb_ge (Z.of_nat (Z.to_nat k)) k)) by lia.
Qed.

Lemma upto_map_step k f l a :
  0 <= k -> l !! Z.to_nat k = Some a ->
  vec_set (upto_map k f l) k (f (Z.to_nat k) a) = Ok (upto_map (k + 1) f l).
Proof.
  intros Hk Ha. pose proof (lookup_lt_Some _ _ _ Ha) as Hlt.
  rewrite vec_set_ok by (rewrite upto_map_length; lia). f_equal. apply list_eq. intros i.
  destruct (decide (i = Z.to_nat k)) as [-> | Hne].
  - rewrite list_lookup_insert_eq, upto_map_lookup, Ha by (rewrite upto_map_length; lia). simpl.
    by rewrite (proj2 (Z.ltb_lt (Z.of_nat (Z.to_nat k)) (k + 1))) by lia.
  - rewrite list_lookup_insert_ne, !upto_map_lookup by done. destruct (l !! i); simpl; [| done].
    by replace (Z.of_nat i <? k + 1) with (Z.of_nat i <? k) by
      (destruct (Z.ltb_spec (Z.of_nat i) k), (Z.ltb_spec (Z.of_nat i) (k + 1)); lia).
Qed.

Lemma upto_map_skip k f l a :
  0 <= k -> l !! Z.to_nat k = Some a -> f (Z.to_nat k) a = a ->
  upto_map (k + 1) f l = upto_map k f l.
Proof.
  intros Hk Ha Hf. apply list_eq. intros i. rewrite !upto_map_lookup.
  destruct (decide (i = Z.to_nat k)) as [-> | Hne].
  - rewrite Ha. simpl. rewrite (proj2 (Z.ltb_lt (Z.of_nat (Z.to_nat k)) (k + 1))) by lia.
    by rewrite (proj2 (Z.ltb_ge (Z.of_nat (Z.to_nat k)) k)) by lia; rewrite Hf.
  - destruct (l !! i); simpl; [| done]. by replace (Z.of_nat i <? k + 1) with (Z.of_nat i <? k) by
      (destruct (Z.ltb_spec (Z.of_nat i) k), (Z.ltb_spec (Z.of_nat i) (k + 1)); lia).
Qed.
End UptoMap.

(** ** Flags over a grid: a row-major vector of booleans standing for a predicate *)
Definition marks (w h : Z) (v : list bool) (P : Z -> Z -> Prop) : Prop :=
  Z.of_nat (length v) = w * h /\
  forall x y, 0 <= x < w -> 0 <= y < h -> exists b, v !! Z.to_nat (y * w + x) = Some b /\ (b = true <-> P x y).

Section Marks.
Implicit Types (v : list bool) (P Q : Z -> Z -> Prop).

Lemma marks_ext w h v P Q :
  marks w h v P -> (forall x y, 0 <= x < w -> 0 <= y < h -> P x y <-> Q x y) -> marks w h v Q.
Proof.
  intros [Hl Hv] H. split; [done |]. intros x y Hx Hy. destruct (Hv x y Hx Hy) as (b & Hb & E).
  exists b. split; [done |]. rewrite E. by apply H.
Qed.

Lemma marks_clear w h n : Z.of_nat n = w * h -> marks w h (replicate n false) (fun _ _ => False).
Proof.
  intros Hn. split; [by rewrite length_replicate |]. intros x y Hx Hy.
  pose proof (row_major_index w h x y Hx Hy). exists false. split; [| done].
  apply lookup_replicate. split; [done | lia].
Qed.

Lemma marks_get w h v P x y :
  marks w h v P -> 0 <= x < w -> 0 <= y < h ->
  exists b, vec_get v (y * w + x) = Ok b /\ (b = true <-> P x y).
Proof.
  intros [Hl Hv] Hx Hy. destruct (Hv x y Hx Hy) as (b & Hb & E). exists b. split; [| done].
  pose proof (row_major_index w h x y Hx Hy). by apply vec_get_ok; [lia |].
Qed.

Lemma marks_set w h v P x y (b : bool) :
  marks w h v P -> 0 <= x < w -> 0 <= y < h ->
  exists v', vec_set v (y * w + x) b = Ok v' /\
    marks w h v' (fun x' y' => if decide (x' = x /\ y' = y) then b = true else P x' y').
Proof.
  intros [Hl Hv] Hx Hy. pose proof (row_major_index w h x y Hx Hy).
  eexists. split; [apply vec_set_ok; lia |]. split; [by rewrite length_insert |].
  intros x' y' Hx' Hy'. pose proof (row_major_index w h x' y' Hx' Hy').
  rewrite lookup_insert_Z by lia. destruct (Hv x' y' Hx' Hy') as (b' & Hb' & E).
  destruct (decide (y * w + x = y' * w + x')) as [Ei | Hne].
  - destruct (row_major_index_inj w x y x' y' Hx Hx' Ei) as [-> ->]. exists b. split; [done |].
    by rewrite decide_True.
  - exists b'. split; [done |]. rewrite decide_False; [done |]. intros [-> ->]. done.
Qed.
End Marks.

(** ** Machine integers: values of [Z] kept at their C++ width *)
Definition wrap_u (w z : Z) : Z := z mod 2 ^ w.
Definition wrap_s (w z : Z) : Z := (z + 2 ^ (w - 1)) mod 2 ^ w - 2 ^ (w - 1).

Abbreviation u8 := (wrap_u 8).
Abbreviation u16 := (wrap_u 16).
Abbreviation u32 := (wrap_u 32).
Abbreviation u64 := (wrap_u 64).
Abbreviation s8 := (wrap_s 8).
Abbreviation s16 := (wrap_s 16).
Abbreviation s32 := (wrap_s 32).

Section Widths.
Implicit Types w z : Z.

Lemma wrap_u_range w z : 0 <= w -> 0 <= wrap_u w z < 2 ^ w.
Proof. intros. apply Z.mod_pos_bound. by apply Z.pow_pos_nonneg. Qed.

Lemma wrap_u_small w z : 0 <= z < 2 ^ w -> wrap_u w z = z.
Proof. apply Z.mod_small. Qed.

Lemma wrap_s_range w z : 0 < w -> - 2 ^ (w - 1) <= wrap_s w z < 2 ^ (w - 1).
Proof.
  intros Hw. unfold wrap_s.
  assert (2 ^ w = 2 * 2 ^ (w - 1)) as E by (rewrite <- Z.pow_succ_r; [f_equal; lia | lia]).
  pose proof (Z.mod_pos_bound (z + 2 ^ (w - 1)) (2 ^ w)) as H.
  assert (0 < 2 ^ (w - 1)) by (apply Z.pow_pos_nonneg; lia). lia.
Qed.

Lemma wrap_s_small w z : 0 < w -> - 2 ^ (w - 1) <= z < 2 ^ (w - 1) -> wrap_s w z = z.
Proof.
  intros Hw Hz. unfold wrap_s.
  assert (2 ^ w = 2 * 2 ^ (w - 1)) as E by (rewrite <- Z.pow_succ_r; [f_equal; lia | lia]).
  rewrite Z.mod_small; lia.
Qed.

Lemma wrap_u_testbit w z i :
  0 <= w -> Z.testbit (wrap_u w z) i = if decide (0 <= i < w) then Z.testbit z i else false.
Proof.
  intros Hw. unfold wrap_u. case_decide as E.
  - apply Z.mod_pow2_bits_low; lia.
  - destruct (decide (i < 0)); [by apply Z.testbit_neg_r |].
    apply Z.mod_pow2_bits_high. lia.
Qed.
End Widths.

(** An [int] result, or undefined behaviour. *)
Definition int_result (z : Z) : res Z :=
  if (- 2 ^ 31 <=? z) && (z <? 2 ^ 31) then Ok z else Fault IntOverflow.

Lemma int_result_ok z : - 2 ^ 31 <= z < 2 ^ 31 -> int_result z = Ok z.
Proof.
  intros Hz. unfold int_result. by rewrite (proj2 (Z.leb_le (- 2 ^ 31) z)), (proj2 (Z.ltb_lt z (2 ^ 31))) by lia.
Qed.

(** A property of every byte, checked byte by byte. *)
Lemma all_bytes (P : Z -> bool) :
  forallb P (seqZ 0 256) = true -> forall b, 0 <= b < 256 -> P b = true.
Proof. intros H b Hb. rewrite forallb_forall in H. apply H, list_elem_of_In, elem_of_seqZ. lia. Qed.

(** A C++ integer used as a condition. *)
Definition nonzero (z : Z) : bool := negb (z =? 0).

(** ** Bit manipulation: shifts, masks and single-bit updates *)
Section Bits.
Implicit Types a b i j k x y : Z.

Lemma testbit_outside w x i :
  0 <= x < 2 ^ w -> ~ (0 <= i < w) -> Z.testbit x i = false.
Proof.
  intros Hx Hi. destruct (decide (i < 0)); [by apply Z.testbit_neg_r |].
  destruct (decide (w < 0)); [by rewrite Z.pow_neg_r in Hx by lia; lia |].
  rewrite <- (Z.mod_small x (2 ^ w)) by done. apply Z.mod_pow2_bits_high. lia.
Qed.

Lemma shiftr_3_div x : Z.shiftr x 3 = x / 8.
Proof. by rewrite Z.shiftr_div_pow2. Qed.

Lemma land_7_mod x : Z.land x 7 = x mod 8.
Proof. apply (Z.land_ones x 3). lia. Qed.

(** [(a << 3) | b] with [b < 8] is [8 * a + b]. *)
Lemma shiftl_3_lor a b : 0 <= b < 8 -> Z.lor (Z.shiftl a 3) b = 8 * a + b.
Proof.
  intros Hb. pose proof (Z.add_lor_land (Z.shiftl a 3) b) as E.
  enough (Z.land (Z.shiftl a 3) b = 0) as E0.
  { rewrite E0 in E. pose proof (Z.shiftl_mul_pow2 a 3). lia. }
  apply Z.bits_inj'. intros n Hn. rewrite Z.land_spec, Z.bits_0.
  destruct (decide (n < 3)).
  - by rewrite Z.shiftl_spec_low.
  - rewrite <- (Z.mod_small b (2 ^ 3)) by lia.
    rewrite (Z.mod_pow2_bits_high b 3 n) by lia. apply andb_false_r.
Qed.

(** [(x >> i) & 1] as a condition reads bit [i]. *)
Lemma nonzero_land_1 x i :
  0 <= i -> nonzero (Z.land (Z.shiftr x i) 1) = Z.testbit x i.
Proof.
  intros Hi. unfold nonzero. change 1 with (Z.ones 1).
  rewrite Z.land_ones by lia. change (2 ^ 1) with 2.
  rewrite Zmod_even, <- Z.negb_odd, <- Z.bit0_odd, Z.shiftr_spec by lia.
  rewrite Z.add_0_l. by destruct (Z.testbit x i).
Qed.

Lemma testbit_shiftl_1 i j : 0 <= i -> Z.testbit (Z.shiftl 1 i) j = bool_decide (i = j).
Proof.
  intros Hi. rewrite Z.shiftl_1_l. case_bool_decide as E.
  - subst. by apply Z.pow2_bits_true.
  - by apply Z.pow2_bits_false.
Qed.

(** [x |= 1 << i]. *)
Lemma testbit_set x i j :
  0 <= i -> Z.testbit (Z.lor x (Z.shiftl 1 i)) j = bool_decide (i = j) || Z.testbit x j.
Proof. intros. rewrite Z.lor_spec, testbit_shiftl_1 by done. apply orb_comm. Qed.

(** [x &= ~(1 << i)] on a [w]-bit word. *)
Lemma testbit_clear w x i j :
  0 <= w -> 0 <= i -> 0 <= x < 2 ^ w ->
  Z.testbit (Z.land x (wrap_u w (Z.lnot (Z.shiftl 1 i)))) j
  = negb (bool_decide (i = j)) && Z.testbit x j.
Proof.
  intros Hw Hi Hx. destruct (decide (j < 0)).
  { by rewrite !Z.testbit_neg_r, andb_false_r by lia. }
  rewrite Z.land_spec, wrap_u_testbit by done. case_decide as Hj.
  - rewrite Z.lnot_spec, testbit_shiftl_1 by lia. apply andb_comm.
  - by rewrite (testbit_outside w x j), !andb_false_r by lia.
Qed.

Lemma lor_range w x y : 0 <= w -> 0 <= x < 2 ^ w -> 0 <= y < 2 ^ w -> 0 <= Z.lor x y < 2 ^ w.
Proof.
  intros Hw Hx Hy. replace (Z.lor x y) with (wrap_u w (Z.lor x y)); [by apply wrap_u_range |].
  apply Z.bits_inj'. intros n Hn. rewrite wrap_u_testbit by done. case_decide; [done |].
  by rewrite Z.lor_spec, (testbit_outside w x n), (testbit_outside w y n) by lia.
Qed.

Lemma land_range w x y : 0 <= w -> 0 <= x < 2 ^ w -> 0 <= Z.land x y < 2 ^ w.
Proof.
  intros Hw Hx. replace (Z.land x y) with (wrap_u w (Z.land x y)); [by apply wrap_u_range |].
  apply Z.bits_inj'. intros n Hn. rewrite wrap_u_testbit by done. case_decide; [done |].
  by rewrite Z.land_spec, (testbit_outside w x n) by lia.
Qed.

Lemma shiftl_1_range w i : 0 <= i < w -> 0 <= Z.shiftl 1 i < 2 ^ w.
Proof.
  intros. rewrite Z.shiftl_1_l. split; [by apply Z.pow_nonneg |].
  apply Z.pow_lt_mono_r; lia.
Qed.

(** Two words that agree on every bit of their width are equal. *)
Lemma word_ext w x y :
  0 <= w -> 0 <= x < 2 ^ w -> 0 <= y < 2 ^ w ->
  (forall i, 0 <= i < w -> Z.testbit x i = Z.testbit y i) -> x = y.
Proof.
  intros Hw Hx Hy H. apply Z.bits_inj'. intros n Hn.
  destruct (decide (n < w)); [by apply H |].
  by rewrite (testbit_outside w x n), (testbit_outside w y n) by lia.
Qed.
End Bits.

(** ** Words given by their bits *)
Fixpoint pack (n : nat) (f : Z -> bool) : Z :=
  match n with
  | O => 0
  | Datatypes.S n' =>
      Z.lor (pack n' f) (if f (Z.of_nat n') then Z.shiftl 1 (Z.of_nat n') else 0)
  end.

Section Pack.
Implicit Types f g : Z -> bool.

Lemma testbit_pack n f i :
  Z.testbit (pack n f) i = bool_decide (0 <= i < Z.of_nat n) && f i.
Proof.
  induction n as [|n IH]; [by rewrite Z.bits_0, bool_decide_false by lia |].
  cbn [pack]. rewrite Z.lor_spec, IH.
  destruct (decide (i = Z.of_nat n)) as [-> | Hne].
  - rewrite bool_decide_false, (bool_decide_true (0 <= _ < _)) by lia.
    destruct (f (Z.of_nat n)); simpl; [| apply Z.bits_0].
    rewrite testbit_shiftl_1 by lia. by apply bool_decide_true.
  - replace (Z.testbit (if f (Z.of_nat n) then Z.shiftl 1 (Z.of_nat n) else 0) i) with false.
    + rewrite orb_false_r. f_equal. apply bool_decide_ext. lia.
    + destruct (f (Z.of_nat n)); [| by rewrite Z.bits_0].
      rewrite testbit_shiftl_1 by lia. symmetry. by apply bool_decide_false.
Qed.

Lemma pack_range n f : 0 <= pack n f < 2 ^ Z.of_nat n.
Proof.
  assert (pack n f = wrap_u (Z.of_nat n) (pack n f)) as E; [| rewrite E; apply wrap_u_range; lia].
  apply Z.bits_inj'. intros i Hi. rewrite wrap_u_testbit by lia. case_decide; [done |].
  rewrite testbit_pack. by rewrite bool_decide_false.
Qed.

(** A word is the packing of any function that gives its bits. *)
Lemma pack_unique n f x :
  (forall i, 0 <= i -> Z.testbit x i = bool_decide (0 <= i < Z.of_nat n) && f i) -> x = pack n f.
Proof. intros H. apply Z.bits_inj'. intros i Hi. by rewrite testbit_pack, H. Qed.

Lemma pack_ext n f g : (forall i, 0 <= i < Z.of_nat n -> f i = g i) -> pack n f = pack n g.
Proof.
  intros H. apply pack_unique. intros i Hi. rewrite testbit_pack.
  case_bool_decide as E; [simpl; by apply H | done].
Qed.
End Pack.

(** ** Automation *)
Create HintDb dirtsim.
#[export] Hint Resolve wp_ok wrap_u_range wrap_s_range : dirtsim.

(** Symbolic execution of a [res] computation: one bind, one success. *)
Ltac wp_step :=
  match goal with
  | |- wp (rbind _ _) _ => apply wp_bind
  | |- wp (Ok _) _ => apply wp_ok
  | |- wp (dirtsim_assert _ _) _ => apply wp_assert; [try lia |]
  | |- wp (if ?b then _ else _) _ => destruct b eqn:?
  end.

(** Invert a successful chain of binds. *)
Ltac inv_ok H :=
  match type of H with
  | rbind _ _ = Ok _ =>
      let a := fresh "a" in let Ha := fresh "Ha" in
      apply rbind_ok_inv in H as (a & Ha & H)
  | Ok _ = Ok _ => injection H as H
  | Fault _ = Ok _ => discriminate H
  end.
