(* ===== verification/Ieee.v ===== *)
(** IEEE-754 arithmetic of the C++ types [float] and [double], as the
    executable specification [SpecFloat] of the standard library at precisions
    24/128 and 53/1024 (round to nearest, ties to even), with the comparison
    facts and the [std::min]/[max]/[clamp] facts the components use. *)

From Stdlib Require Import ZArith Lia Bool.
From Stdlib Require Import SpecFloat.
From stdpp Require Import base option.
From S2P Require Import Prelude.

Set Default Goal Selector "!".

Abbreviation f32 := spec_float.
Abbreviation f64 := spec_float.

(** ** [float] *)
Definition f32_of_Z (z : Z) : f32 := binary_normalize 24 128 z 0 false.
Definition f32_add : f32 -> f32 -> f32 := SFadd 24 128.
Definition f32_sub : f32 -> f32 -> f32 := SFsub 24 128.
Definition f32_mul : f32 -> f32 -> f32 := SFmul 24 128.
Definition f32_div : f32 -> f32 -> f32 := SFdiv 24 128.
Definition f32_sqrt : f32 -> f32 := SFsqrt 24 128.

(** A decimal literal [n/d] (both exact in the format): one correctly rounded
    division is the nearest representable value, which is what the literal
    denotes. *)
Definition f32_lit (n d : Z) : f32 := f32_div (f32_of_Z n) (f32_of_Z d).

(** ** [double] *)
Definition f64_of_Z (z : Z) : f64 := binary_normalize 53 1024 z 0 false.
Definition f64_add : f64 -> f64 -> f64 := SFadd 53 1024.
Definition f64_sub : f64 -> f64 -> f64 := SFsub 53 1024.
Definition f64_mul : f64 -> f64 -> f64 := SFmul 53 1024.
Definition f64_div : f64 -> f64 -> f64 := SFdiv 53 1024.
Definition f32_abs (x : f32) : f32 := SFabs x.
Definition f64_abs (x : f64) : f64 := SFabs x.
Definition f64_lit (n d : Z) : f64 := f64_div (f64_of_Z n) (f64_of_Z d).

(** ** Conversions between the two formats *)
Definition f32_to_f64 (x : f32) : f64 :=
  match x with S754_finite s m e => binary_round 53 1024 s m e | _ => x end.
Definition f64_to_f32 (x : f64) : f32 :=
  match x with S754_finite s m e => binary_round 24 128 s m e | _ => x end.

(** ** Comparisons and [<algorithm>] on floating values *)
Definition flt (x y : spec_float) : bool := SFltb x y.
Definition fle (x y : spec_float) : bool := SFleb x y.
Definition fgt (x y : spec_float) : bool := SFltb y x.
Definition fge (x y : spec_float) : bool := SFleb y x.
Definition fzero : spec_float := S754_zero false.

Definition std_max (a b : spec_float) : spec_float := if flt a b then b else a.
Definition std_min (a b : spec_float) : spec_float := if flt b a then b else a.
Definition std_clamp (v lo hi : spec_float) : spec_float :=
  if flt v lo then lo else if flt hi v then hi else v.

(** [std::lround]: nearest integer, halves away from zero; unspecified (here 0)
    on infinities and NaN. *)
Definition std_lround (x : spec_float) : Z :=
  match x with
  | S754_finite s m e =>
      let a := if 0 <=? e then Z.shiftl (Zpos m) e
               else (2 * Zpos m + 2 ^ (- e)) / (2 ^ (1 - e)) in
      if s then - a else a
  | _ => 0
  end.

Definition not_nan (x : spec_float) : Prop := x <> S754_nan.

(** ** Facts *)
Section Compare.
Implicit Types x y z : spec_float.

Lemma SFcompare_swap x y : SFcompare y x = option_map CompOpp (SFcompare x y).
Proof.
  destruct x as [[]|[]| |[] mx ex], y as [[]|[]| |[] my ey]; try reflexivity; simpl; f_equal;
    rewrite (Z.compare_antisym ex ey); destruct (ex ?= ey); try reflexivity; simpl;
    change (Pos.compare_cont Eq) with Pos.compare; rewrite (Pos.compare_antisym mx my);
    by destruct (mx ?= my)%positive.
Qed.

Lemma SFcompare_refl x : not_nan x -> SFcompare x x = Some Eq.
Proof.
  intros Hx. destruct x as [[]|[]| |[] m e]; try reflexivity; [done | |]; simpl;
    rewrite Z.compare_refl; change (Pos.compare_cont Eq) with Pos.compare;
    by rewrite Pos.compare_refl.
Qed.

Lemma SFcompare_Some x y : not_nan x -> not_nan y -> SFcompare x y <> None.
Proof. by destruct x as [[]|[]| |[] mx ex], y as [[]|[]| |[] my ey]. Qed.

Lemma fle_refl x : not_nan x -> fle x x = true.
Proof. intros. unfold fle, SFleb. by rewrite SFcompare_refl. Qed.

Lemma flt_irrefl x : flt x x = false.
Proof.
  destruct (SFcompare x x) as [[]|] eqn:E; unfold flt, SFltb; rewrite E; try done.
  pose proof (SFcompare_swap x x) as H. rewrite E in H. discriminate.
Qed.

(** Away from NaN, [<] is the negation of [>=]. *)
Lemma flt_negb_fle x y : not_nan x -> not_nan y -> flt x y = negb (fle y x).
Proof.
  intros Hx Hy. unfold flt, fle, SFltb, SFleb. rewrite (SFcompare_swap x y).
  pose proof (SFcompare_Some x y Hx Hy).
  destruct (SFcompare x y) as [[]|]; done.
Qed.

Lemma flt_fle x y : flt x y = true -> fle x y = true.
Proof. unfold flt, fle, SFltb, SFleb. by destruct (SFcompare x y) as [[]|]. Qed.

Lemma fle_not_nan_l x y : fle x y = true -> not_nan x.
Proof. by destruct x. Qed.

Lemma fle_not_nan_r x y : fle x y = true -> not_nan y.
Proof. unfold fle, SFleb. by destruct x as [[]|[]| |[] mx ex], y. Qed.

(** [std::clamp] lands in the interval. *)
Lemma std_clamp_range x lo hi :
  not_nan x -> fle lo hi = true ->
  fle lo (std_clamp x lo hi) = true /\ fle (std_clamp x lo hi) hi = true.
Proof.
  intros Hx Hlh.
  pose proof (fle_not_nan_l _ _ Hlh). pose proof (fle_not_nan_r _ _ Hlh).
  unfold std_clamp. destruct (flt x lo) eqn:E1; [split; [by apply fle_refl | done] |].
  destruct (flt hi x) eqn:E2; [split; [done | by apply fle_refl] |].
  rewrite flt_negb_fle in E1, E2 by done.
  by apply negb_false_iff in E1, E2.
Qed.

Lemma std_max_ge_l x y : not_nan x -> fle x (std_max x y) = true.
Proof.
  intros Hx. unfold std_max. destruct (flt x y) eqn:E; [by apply flt_fle | by apply fle_refl].
Qed.

Lemma std_max_not_nan x y : not_nan x -> not_nan (std_max x y).
Proof.
  intros Hx. unfold std_max. destruct (flt x y) eqn:E; [| done].
  apply flt_fle, fle_not_nan_r in E. done.
Qed.
End Compare.

(** ** Operations that never give NaN *)
Section NotNan.
Context (prec emax : Z).
Implicit Types x y : spec_float.

Lemma shr_1_nonneg r : 0 <= shr_m r -> 0 <= shr_m (shr_1 r).
Proof. by destruct r as [[| [] | []] ? ?]. Qed.

Lemma iter_pos_inv {A} (P : A -> Prop) f n (x : A) :
  (forall a, P a -> P (f a)) -> P x -> P (iter_pos f n x).
Proof. intros Hf. revert x. induction n; intros x Hx; cbn; auto. Qed.

Lemma shr_fexp_nonneg m e l : 0 <= m -> 0 <= shr_m (fst (shr_fexp prec emax m e l)).
Proof.
  intros Hm. unfold shr_fexp, shr.
  assert (0 <= shr_m (shr_record_of_loc m l)) as H by (by destruct l as [| []]).
  destruct (_ - e); cbn; try done. by apply (iter_pos_inv (fun r => 0 <= shr_m r)); [apply shr_1_nonneg |].
Qed.

Lemma round_nearest_even_nonneg m l : 0 <= m -> 0 <= round_nearest_even m l.
Proof. intros Hm. destruct l as [| []]; cbn; try lia. destruct (Z.even m); lia. Qed.

Lemma binary_round_aux_not_nan s m e l : 0 <= m -> not_nan (binary_round_aux prec emax s m e l).
Proof.
  intros Hm. unfold binary_round_aux. pose proof (shr_fexp_nonneg m e l Hm) as H1.
  destruct (shr_fexp prec emax m e l) as [r1 e1]. cbn in H1.
  pose proof (shr_fexp_nonneg _ e1 loc_Exact (round_nearest_even_nonneg _ (loc_of_shr_record r1) H1)) as H2.
  destruct (shr_fexp prec emax _ e1 loc_Exact) as [r2 e2]. cbn in H2.
  destruct (shr_m r2); [done | by destruct (e2 <=? emax - prec) | lia].
Qed.

Lemma binary_normalize_not_nan m e s : not_nan (binary_normalize prec emax m e s).
Proof.
  unfold binary_normalize, binary_round. destruct m; [done | |];
    (destruct (shl_align _ _ _); by apply binary_round_aux_not_nan).
Qed.

Definition is_finite x : bool :=
  match x with S754_zero _ | S754_finite _ _ _ => true | _ => false end.
Definition is_nonzero_finite x : bool := match x with S754_finite _ _ _ => true | _ => false end.

Lemma SFdiv_not_nan x y : not_nan x -> is_nonzero_finite y = true -> not_nan (SFdiv prec emax x y).
Proof.
  intros Hx Hy. destruct y as [| | | sy my ey]; try done. destruct x as [| | | sx mx ex]; try done.
  unfold SFdiv, SFdiv_core_binary. cbv zeta.
  match goal with |- context [Z.div_eucl ?a ?b] => set (m := a);
    pose proof (Z_div_mod m (Zpos my) ltac:(lia)) as Hd; destruct (Z.div_eucl m (Zpos my)) as [q r] end.
  apply binary_round_aux_not_nan. destruct Hd as [He Hr].
  assert (0 <= m) as Hm; [| nia].
  unfold m. match goal with |- context [match ?b with _ => _ end] => destruct b end; try done.
  apply Z.shiftl_nonneg. lia.
Qed.

Lemma SFmul_not_nan x y : not_nan x -> is_nonzero_finite y = true -> not_nan (SFmul prec emax x y).
Proof.
  intros Hx Hy. destruct y as [| | | sy my ey]; try done. destruct x as [| | | sx mx ex]; try done.
  by apply binary_round_aux_not_nan.
Qed.

Lemma SFadd_not_nan x y : is_finite x = true -> is_finite y = true -> not_nan (SFadd prec emax x y).
Proof.
  intros Hx Hy. destruct x as [[] | | | sx mx ex], y as [[] | | | sy my ey]; try done.
  apply binary_normalize_not_nan.
Qed.
End NotNan.

Lemma f64_of_Z_not_nan z : not_nan (f64_of_Z z).
Proof. apply binary_normalize_not_nan. Qed.

#[export] Hint Resolve fle_refl flt_fle std_max_not_nan : dirtsim.

(** ** The order of floats as a lexicographic order on integers *)
Definition fkey (x : spec_float) : Z * Z * Z :=
  match x with
  | S754_infinity true => (-2, 0, 0)
  | S754_finite true m e => (-1, - e, Zneg m)
  | S754_zero _ => (0, 0, 0)
  | S754_finite false m e => (1, e, Zpos m)
  | S754_infinity false => (2, 0, 0)
  | S754_nan => (0, 0, 0)
  end.
Definition lex_lt (a b : Z * Z * Z) : Prop :=
  let '(a1, a2, a3) := a in let '(b1, b2, b3) := b in
  a1 < b1 \/ (a1 = b1 /\ (a2 < b2 \/ (a2 = b2 /\ a3 < b3))).

Ltac decide_lex :=
  first [ split; [intros _; lia | done] | split; [done | intros ?; exfalso; lia] ].

Lemma flt_key x y : not_nan x -> not_nan y -> flt x y = true <-> lex_lt (fkey x) (fkey y).
Proof.
  intros Hx Hy. unfold flt, SFltb.
  destruct x as [sx | [] | | [] mx ex], y as [sy | [] | | [] my ey]; try done;
    simpl; try decide_lex;
    (destruct (Z.compare_spec ex ey) as [E | E | E]; simpl; [| decide_lex | decide_lex]);
    change (Pos.compare_cont Eq mx my) with (Pos.compare mx my);
    destruct (Pos.compare_spec mx my) as [E' | E' | E']; simpl; decide_lex.
Qed.

Lemma flt_not_nan_l x y : flt x y = true -> not_nan x.
Proof. by destruct x. Qed.
Lemma flt_not_nan_r x y : flt x y = true -> not_nan y.
Proof. intros H ->. revert H. by destruct x as [? | [] | | [] ? ?]. Qed.

(** The larger of two floats exceeds a bound exactly when one of them does. *)
Lemma fgt_std_max x y e : not_nan x -> fgt (std_max x y) e = fgt x e || fgt y e.
Proof.
  intros Hx. change (flt e (std_max x y) = flt e x || flt e y). unfold std_max.
  destruct (flt x y) eqn:E.
  - pose proof (flt_not_nan_r _ _ E) as Hy. destruct (flt e x) eqn:Ex; [| done]. simpl.
    pose proof (flt_not_nan_l _ _ Ex) as He. rewrite flt_key in E, Ex |- * by done.
    destruct (fkey x) as [[? ?] ?], (fkey y) as [[? ?] ?], (fkey e) as [[? ?] ?]. simpl in *. lia.
  - destruct (flt e y) eqn:Ey; [| by rewrite orb_false_r]. rewrite orb_true_r.
    pose proof (flt_not_nan_l _ _ Ey) as He. pose proof (flt_not_nan_r _ _ Ey) as Hy.
    assert (~ lex_lt (fkey x) (fkey y)) as E' by (rewrite <- flt_key by done; by rewrite E).
    rewrite flt_key in Ey |- * by done.
    destruct (fkey x) as [[? ?] ?], (fkey y) as [[? ?] ?], (fkey e) as [[? ?] ?]. simpl in *. lia.
Qed.

(** Comparisons of numbers are transitive, and equality is their absence. *)
Lemma not_flt_trans x y z : not_nan x -> not_nan y -> not_nan z -> flt x y = false -> flt y z = false -> flt x z = false.
Proof.
  intros Hx Hy Hz H1 H2. apply not_true_iff_false. intros H3. apply not_true_iff_false in H1, H2.
  rewrite flt_key in H1, H2, H3 by done. destruct (fkey x) as [[a b] c], (fkey y) as [[d e] f], (fkey z) as [[g h] i]. simpl in *. lia.
Qed.

Lemma flt_trans x y z : flt x y = true -> flt y z = true -> flt x z = true.
Proof.
  intros H1 H2. pose proof (flt_not_nan_l _ _ H1). pose proof (flt_not_nan_r _ _ H1). pose proof (flt_not_nan_r _ _ H2).
  rewrite flt_key in H1, H2 |- * by done. destruct (fkey x) as [[a b] c], (fkey y) as [[d e] f], (fkey z) as [[g h] i]. simpl in *. lia.
Qed.

Lemma SFeqb_key x y : not_nan x -> not_nan y -> SFeqb x y = negb (flt x y) && negb (flt y x).
Proof.
  intros Hx Hy. unfold SFeqb, flt, SFltb. rewrite (SFcompare_swap x y). pose proof (SFcompare_Some x y Hx Hy).
  by destruct (SFcompare x y) as [[] |].
Qed.
