(* ===== verification/StdModel.v ===== *)
(** What the C++ standard leaves open, as classes: the numbers a random engine
    and its distributions give, the order in which an [unordered_map] is walked, the order in which
    [std::sort] puts equivalent elements, and what [std::shuffle] does. Each class
    has its laws apart. *)

From Stdlib Require Import ZArith Lia Bool String OrdersEx.
From Stdlib Require Import SpecFloat.
From stdpp Require Import base numbers list strings sorting.
From S2P Require Import Prelude Ieee.

Set Default Goal Selector "!".

(** ** Random numbers

    [std::mt19937] seeded with a 32-bit value and [std::uniform_int_distribution]
    over an interval, whose algorithm the C++ standard leaves open: the result
    and the engine's next state. *)
Class RandomEngine (R : Type) := {
  engine_seed : Z -> R;
  uniform_int : Z -> Z -> R -> Z * R
}.

(** What the standard says of the distribution: the result is in the interval. *)
Class RandomLaws (R : Type) `{!RandomEngine R} : Prop := {
  uniform_range : forall lo hi (r : R), lo <= hi -> lo <= fst (uniform_int lo hi r) <= hi
}.

(** [std::normal_distribution<float>]: the distribution has a state of its own
    (it may keep a spare value between two draws). *)
Class NormalDistribution (R D : Type) := {
  normal : f32 -> f32 -> D;
  normal_draw : D -> R -> f32 * (D * R)
}.

(** [std::uniform_real_distribution<float>] over an interval. *)
Class UniformReal (R : Type) := { uniform_real : f32 -> f32 -> R -> f32 * R }.

(** [std::discrete_distribution<int>] over the indices of a vector of weights. *)
Class DiscreteDistribution (R : Type) := { discrete_draw : list f64 -> R -> Z * R }.
(** What the standard says of it: of positive weights, the result is an index. *)
Definition positive_weight (w : f64) : Prop := is_finite w = true /\ fgt w fzero = true.
Class DiscreteLaws (R : Type) `{!DiscreteDistribution R} : Prop := {
  discrete_range : forall weights (r : R), weights <> [] -> Forall positive_weight weights ->
    0 <= fst (discrete_draw weights r) < Z.of_nat (length weights)
}.

(** [std::shuffle] of a vector of indices. *)
Class Shuffle (R : Type) := { shuffle : list Z -> R -> list Z * R }.
Class ShuffleLaws (R : Type) `{!Shuffle R} : Prop := {
  shuffle_perm : forall l (r : R), fst (shuffle l r) ≡ₚ l
}.

(** ** In which order the elements of an unordered container are visited *)
Class UnorderedWalk := { walk : forall A : Type, list A -> list A }.
Class UnorderedWalkLaws `{!UnorderedWalk} : Prop := { walk_perm : forall A (l : list A), walk A l ≡ₚ l }.

(** ** [std::sort] and [std::nth_element] by a comparison

    The result of [std::sort] is a permutation in which no element comes after
    one it is less than; [std::nth_element] puts at an index what would be there
    if the range were sorted, nothing greater before and nothing less after.
    Both are undefined unless the comparison is a strict weak order on the
    elements: the laws say nothing then. *)
Class StdSort := {
  std_sort : forall A : Type, (A -> A -> bool) -> list A -> list A;
  std_nth_element : forall A : Type, (A -> A -> bool) -> nat -> list A -> list A
}.
Arguments std_sort {_ A} lt l.
Arguments std_nth_element {_ A} lt n l.

Record strict_weak_order {A} (lt : A -> A -> bool) (l : list A) : Prop := {
  swo_irrefl : forall a, a ∈ l -> lt a a = false;
  swo_trans : forall a b c, a ∈ l -> b ∈ l -> c ∈ l -> lt a b = true -> lt b c = true -> lt a c = true;
  swo_negtrans : forall a b c, a ∈ l -> b ∈ l -> c ∈ l -> lt a b = false -> lt b c = false -> lt a c = false
}.

Class StdSortLaws `{!StdSort} : Prop := {
  std_sort_perm : forall A (lt : A -> A -> bool) l, strict_weak_order lt l -> std_sort lt l ≡ₚ l;
  std_sort_sorted : forall A (lt : A -> A -> bool) l,
    strict_weak_order lt l -> StronglySorted (fun a b => lt b a = false) (std_sort lt l);
  std_nth_element_perm : forall A (lt : A -> A -> bool) n l, strict_weak_order lt l -> std_nth_element lt n l ≡ₚ l;
  std_nth_element_split : forall A (lt : A -> A -> bool) n l, strict_weak_order lt l -> (n < length l)%nat ->
    exists before x after, std_nth_element lt n l = before ++ x :: after /\ length before = n /\
      Forall (fun a => lt x a = false) before /\ Forall (fun b => lt b x = false) after
}.

(** A comparison of integer keys is a strict weak order. *)
Lemma key_strict_weak_order {A} (key : A -> Z) l : strict_weak_order (fun a b => key b <? key a) l.
Proof. split; intros; lia. Qed.

(** ** Strict weak orders *)
Section LexOrders.
Context {A : Type}.
Implicit Types (lt : A -> A -> bool) (l : list A).

Lemma swo_ext lt lt' l :
  (forall a b, a ∈ l -> b ∈ l -> lt a b = lt' a b) -> strict_weak_order lt l -> strict_weak_order lt' l.
Proof.
  intros E [H1 H2 H3]. split.
  - intros a Ha. rewrite <- E by done. by apply H1.
  - intros a b c Ha Hb Hc. rewrite <- !E by done. by apply H2.
  - intros a b c Ha Hb Hc. rewrite <- !E by done. by apply H3.
Qed.

(** First by one order, then by another. *)
Definition lex_before lt lt' (a b : A) : bool := lt a b || (negb (lt b a) && lt' a b).

Lemma swo_lex lt lt' l : strict_weak_order lt l -> strict_weak_order lt' l -> strict_weak_order (lex_before lt lt') l.
Proof.
  intros [I1 T1 N1] [I2 T2 N2]. unfold lex_before. split.
  - intros a Ha. by rewrite I1, I2.
  - intros a b c Ha Hb Hc. rewrite !orb_true_iff, !andb_true_iff, !negb_true_iff. intros [H1 | [H1 H1']] [H2 | [H2 H2']].
    + left. by apply (T1 a b c).
    + left. destruct (lt a c) eqn:E; [done |]. by rewrite (N1 a c b) in H1.
    + left. destruct (lt a c) eqn:E; [done |]. by rewrite (N1 b a c) in H2.
    + right. split; [by apply (N1 c b a) | by apply (T2 a b c)].
  - intros a b c Ha Hb Hc. rewrite !orb_false_iff, !andb_false_iff, !negb_false_iff. intros [H1 H1'] [H2 H2'].
    split; [by apply (N1 a b c) |]. destruct H1' as [H1' | H1'], H2' as [H2' | H2'].
    + left. by apply (T1 c b a).
    + left. destruct (lt c a) eqn:E; [done |]. by rewrite (N1 b c a) in H1'.
    + left. destruct (lt c a) eqn:E; [done |]. by rewrite (N1 c a b) in H2'.
    + right. by apply (N2 a b c).
Qed.
End LexOrders.

Lemma swo_flt {A} (key : A -> f64) l :
  Forall (fun a => not_nan (key a)) l -> strict_weak_order (fun a b => flt (key a) (key b)) l.
Proof.
  rewrite Forall_forall. intros Hn. split.
  - intros a _. apply flt_irrefl.
  - intros a b c _ _ _. apply flt_trans.
  - intros a b c Ha Hb Hc. apply not_flt_trans; auto.
Qed.

Lemma swo_fgt {A} (key : A -> f64) l :
  Forall (fun a => not_nan (key a)) l -> strict_weak_order (fun a b => fgt (key a) (key b)) l.
Proof.
  intros Hn. destruct (swo_flt key l Hn) as [H1 H2 H3]. split; [done | |].
  - intros a b c Ha Hb Hc Hab Hbc. by apply (H2 c b a).
  - intros a b c Ha Hb Hc Hab Hbc. by apply (H3 c b a).
Qed.

Lemma ltb_iff a b : String.ltb a b = true <-> String_as_OT.lt a b.
Proof. change (String_as_OT.lt a b) with (String.compare a b = Lt). unfold String.ltb. by destruct (String.compare a b). Qed.

Lemma swo_string {A} (key : A -> string) l : strict_weak_order (fun a b => String.ltb (key a) (key b)) l.
Proof.
  split.
  - intros a _. apply not_true_iff_false. rewrite ltb_iff. apply (StrictOrder_Irreflexive (R := String_as_OT.lt)).
  - intros a b c _ _ _. rewrite !ltb_iff. apply (StrictOrder_Transitive (R := String_as_OT.lt)).
  - intros a b c _ _ _. rewrite <- !not_true_iff_false, !ltb_iff. intros H1 H2 H3.
    destruct (String_as_OT.compare_spec (key a) (key b)) as [E | E | E]; [| done |].
    + apply H2. by rewrite <- E.
    + apply H2. by apply (StrictOrder_Transitive (R := String_as_OT.lt) _ (key a)).
Qed.

(** ** A stable insertion sort is a [std::sort] *)
Section InsertionSort.
Context {A : Type}.
Implicit Types (lt : A -> A -> bool) (l : list A).

Fixpoint insert_sorted lt (x : A) l : list A :=
  match l with
  | [] => [x]
  | y :: l' => if lt y x then y :: insert_sorted lt x l' else x :: l
  end.

Definition insertion_sort lt l : list A := foldr (insert_sorted lt) [] l.

Lemma insert_sorted_perm lt x l : insert_sorted lt x l ≡ₚ x :: l.
Proof.
  induction l as [| y l IH]; [done |]. cbn [insert_sorted]. destruct (lt y x); [| done].
  rewrite IH. apply Permutation_swap.
Qed.

Lemma insertion_sort_perm lt l : insertion_sort lt l ≡ₚ l.
Proof. induction l as [| x l IH]; [done |]. cbn. by rewrite insert_sorted_perm, IH. Qed.

Lemma insert_sorted_sorted lt x l all :
  strict_weak_order lt all -> x ∈ all -> (forall y, y ∈ l -> y ∈ all) ->
  StronglySorted (fun a b => lt b a = false) l -> StronglySorted (fun a b => lt b a = false) (insert_sorted lt x l).
Proof.
  intros HS Hx Hin H. induction H as [| y l Hl IH Hy]; cbn [insert_sorted]; [by repeat constructor |].
  assert (y ∈ all) as Hya by (apply Hin; by left).
  assert (forall z, z ∈ l -> z ∈ all) as Hin' by (intros z Hz; apply Hin; by right).
  destruct (lt y x) eqn:E.
  - constructor; [by apply IH |]. rewrite insert_sorted_perm. constructor; [| done].
    apply not_true_iff_false. intros E'. pose proof (swo_trans _ _ HS y x y Hya Hx Hya E E') as H.
    by rewrite (swo_irrefl _ _ HS y Hya) in H.
  - constructor; [by constructor |]. constructor; [done |]. rewrite Forall_forall in *. intros z Hz.
    apply (swo_negtrans _ _ HS z y x); [by apply Hin' | done | done | by apply Hy | done].
Qed.

Lemma insertion_sort_sorted lt l : strict_weak_order lt l -> StronglySorted (fun a b => lt b a = false) (insertion_sort lt l).
Proof.
  intros HS. assert (forall l', (forall y, y ∈ l' -> y ∈ l) -> StronglySorted (fun a b => lt b a = false) (insertion_sort lt l'))
    as H; [| by apply H].
  induction l' as [| x l' IH]; intros Hin; [constructor |]. cbn. apply (insert_sorted_sorted lt x _ l); try done.
  - apply Hin. by left.
  - intros y. fold (insertion_sort lt l'). rewrite insertion_sort_perm. intros Hy. apply Hin. by right.
  - apply IH. intros y Hy. apply Hin. by right.
Qed.

(** A sorted list is split at every index as [std::nth_element] promises. *)
Lemma insertion_sort_split lt n l : strict_weak_order lt l -> (n < length l)%nat ->
  exists before x after, insertion_sort lt l = before ++ x :: after /\ length before = n /\
    Forall (fun a => lt x a = false) before /\ Forall (fun b => lt b x = false) after.
Proof.
  intros HS Hn. pose proof (insertion_sort_sorted lt l HS) as Hs. rewrite <- (Permutation_length (insertion_sort_perm lt l)) in Hn.
  destruct (lookup_lt_is_Some_2 _ _ Hn) as [x Hx]. pose proof (take_drop_middle _ _ _ Hx) as E.
  exists (take n (insertion_sort lt l)), x, (drop (S n) (insertion_sort lt l)). split; [done |].
  split; [rewrite length_take; lia |]. rewrite <- E in Hs. split.
  - apply Forall_forall. intros a Ha. eapply (StronglySorted_app_1_elem_of _ _ _ a x Hs); [done | by left].
  - apply StronglySorted_app_1_r in Hs. by inversion Hs.
Qed.
End InsertionSort.

(** ** A concrete engine *)
Module Dice.
(** A linear congruential engine, constant noise, reversal as a shuffle, lists in
    order, insertion sort. *)
#[export] Instance engine : RandomEngine Z := {
  engine_seed := fun seed => seed;
  uniform_int := fun lo hi r => (lo + (r / 7) mod (hi - lo + 1), (r * 1103515245 + 12345) mod 2 ^ 31)
}.
#[export] Instance laws : RandomLaws Z.
Proof.
  split. intros lo hi r H. cbn. pose proof (Z.mod_pos_bound (r / 7) (hi - lo + 1) ltac:(lia)). lia.
Qed.
#[export] Instance noise : NormalDistribution Z f32 := {
  normal := fun _ sigma => sigma;
  normal_draw := fun sigma r => (sigma, (sigma, r + 1))
}.
#[export] Instance even : UniformReal Z := { uniform_real := fun lo _ r => (lo, r + 1) }.
#[export] Instance loaded : DiscreteDistribution Z := {
  discrete_draw := fun weights r => ((r / 7) mod Z.of_nat (length weights), (r * 1103515245 + 12345) mod 2 ^ 31)
}.
#[export] Instance loaded_laws : DiscreteLaws Z.
Proof. split. intros weights r H _. cbn. apply Z.mod_pos_bound. destruct weights; [done | cbn; lia]. Qed.
#[export] Instance reversal : Shuffle Z := { shuffle := fun l r => (rev l, r) }.
#[export] Instance reversal_laws : ShuffleLaws Z.
Proof. split. intros l r. cbn. symmetry. apply Permutation_rev. Qed.
#[export] Instance in_order : UnorderedWalk := { walk := fun _ l => l }.
#[export] Instance in_order_laws : UnorderedWalkLaws.
Proof. by split. Qed.
#[export] Instance sort : StdSort := {
  std_sort := @insertion_sort;
  std_nth_element := fun A lt _ l => insertion_sort lt l
}.
#[export] Instance sort_laws : StdSortLaws.
Proof.
  split; intros; [apply insertion_sort_perm | by apply insertion_sort_sorted | apply insertion_sort_perm |].
  by apply insertion_sort_split.
Qed.
End Dice.
