(* ===== verification/IeeeRound.v ===== *)
(** Rounding of [double] arithmetic: the exact value of a finite [double] as an
    integer multiple of [2 ^ -1074], the validity of every rounded result, and
    the monotonicity of rounding: a result stays between any two [double]s its
    exact value is between. Hence integers below [2 ^ 53] are computed exactly.
    Quotients, [std::floor], [std::ceil] and the conversion to [int]. *)

From Stdlib Require Import ZArith Lia Bool String.
From Stdlib Require Import SpecFloat.
From stdpp Require Import base option.
From S2P Require Import Prelude Ieee.

Set Default Goal Selector "!".

(** ** Shifting right *)
Lemma iter_pos_iter {A} (f : A -> A) n x : iter_pos f n x = Nat.iter (Pos.to_nat n) f x.
Proof.
  assert (forall k (y : A), Nat.iter k f (f y) = f (Nat.iter k f y)) as Hc by (induction k as [| k IHk]; intros y; [done | change (f (Nat.iter k f (f y)) = f (f (Nat.iter k f y))); by rewrite IHk]).
  assert (forall a b (y : A), Nat.iter (a + b) f y = Nat.iter a f (Nat.iter b f y)) as Hadd
    by (induction a as [| a IHa]; intros b y; [done | change (f (Nat.iter (a + b) f y) = f (Nat.iter a f (Nat.iter b f y))); by rewrite IHa]).
  revert x. induction n as [n IH | n IH |]; intros x; cbn [iter_pos].
  - rewrite !IH, Pos2Nat.inj_xI. replace (S (2 * Pos.to_nat n)) with (Pos.to_nat n + (Pos.to_nat n + 1))%nat by lia.
    by rewrite !Hadd.
  - rewrite !IH, Pos2Nat.inj_xO. replace (2 * Pos.to_nat n)%nat with (Pos.to_nat n + Pos.to_nat n)%nat by lia.
    by rewrite Hadd.
  - done.
Qed.

(** What a right shift by [n] bits leaves, whatever it started from. *)
Lemma shr_1_spec r :
  0 <= shr_m r ->
  shr_m (shr_1 r) = shr_m r / 2 /\
  shr_r (shr_1 r) || shr_s (shr_1 r) = (shr_r r || shr_s r) || Z.odd (shr_m r).
Proof.
  destruct r as [m r s]. cbn. intros Hm.
  destruct m as [| [p | p |] | p]; cbn [shr_1 shr_m shr_r shr_s Z.odd]; try lia; split; try (by destruct r, s); try done.
  - apply (Z.div_unique (Zpos p~1) 2 (Zpos p) 1); lia.
  - apply (Z.div_unique (Zpos p~0) 2 (Zpos p) 0); lia.
Qed.

Lemma shr_iter_spec k r :
  0 <= shr_m r ->
  let r' := Nat.iter k shr_1 r in
  shr_m r' = shr_m r / 2 ^ Z.of_nat k /\
  shr_r r' || shr_s r' = (shr_r r || shr_s r) || negb (shr_m r mod 2 ^ Z.of_nat k =? 0).
Proof.
  intros Hm. induction k as [| k [IHm IHl] ]; cbv zeta.
  - change (Nat.iter 0 shr_1 r) with r. rewrite Z.div_1_r, Z.mod_1_r. by rewrite orb_false_r.
  - change (Nat.iter (S k) shr_1 r) with (shr_1 (Nat.iter k shr_1 r)). cbv zeta in IHm, IHl.
    set (r' := Nat.iter k shr_1 r) in *.
    assert (0 < 2 ^ Z.of_nat k) as Hp by (apply Z.pow_pos_nonneg; lia).
    destruct (shr_1_spec r') as [E1 E2]; [rewrite IHm; by apply Z.div_pos |].
    replace (2 ^ Z.of_nat (S k)) with (2 ^ Z.of_nat k * 2) by (rewrite Nat2Z.inj_succ, Z.pow_succ_r by lia; lia).
    split; [by rewrite E1, IHm, Z.div_div by lia |].
    rewrite E2, IHl, IHm, <- orb_assoc. f_equal.
    rewrite Z.rem_mul_r by lia. rewrite Zmod_odd.
    pose proof (Z.mod_pos_bound (shr_m r) (2 ^ Z.of_nat k) Hp) as Hb.
    destruct (Z.odd (shr_m r / 2 ^ Z.of_nat k)); rewrite ?orb_true_r, ?orb_false_r.
    + symmetry. apply negb_true_iff, Z.eqb_neq. lia.
    + f_equal. f_equal. lia.
Qed.

(** ** Digits *)
Lemma digits2_bounds p : 2 ^ (Zpos (digits2_pos p) - 1) <= Zpos p < 2 ^ Zpos (digits2_pos p).
Proof.
  induction p as [p IH | p IH |]; cbn [digits2_pos]; [| | lia];
    rewrite Pos2Z.inj_succ; replace (Z.succ (Zpos (digits2_pos p)) - 1) with (Z.succ (Zpos (digits2_pos p) - 1)) by lia;
    rewrite !Z.pow_succ_r by lia; lia.
Qed.

Lemma Zdigits2_bounds m : 0 < m -> 2 ^ (Zdigits2 m - 1) <= m < 2 ^ Zdigits2 m /\ 0 < Zdigits2 m.
Proof. destruct m as [| p | p]; try lia. intros _. cbn [Zdigits2]. split; [apply digits2_bounds | lia]. Qed.

Lemma Zdigits2_le m k : 0 <= m < 2 ^ k -> 0 <= k -> Zdigits2 m <= k.
Proof.
  intros Hm Hk. destruct (Z.eq_dec m 0) as [-> | Hn]; [done |].
  destruct (Zdigits2_bounds m ltac:(lia)) as [ [Hl _] Hd].
  assert (Zdigits2 m - 1 < k); [| lia]. apply (Z.pow_lt_mono_r_iff 2); lia.
Qed.

Lemma round_nearest_even_bounds m l :
  m <= round_nearest_even m l <= m + 1 /\ (l = loc_Exact -> round_nearest_even m l = m).
Proof. destruct l as [| []]; cbn; try (split; [lia | done]). destruct (Z.even m); split; (lia || done). Qed.

Lemma loc_exact r : loc_of_shr_record r = loc_Exact <-> shr_r r || shr_s r = false.
Proof. destruct r as [m [] []]; cbn; by split. Qed.

Lemma record_of_loc m l :
  shr_m (shr_record_of_loc m l) = m /\
  shr_r (shr_record_of_loc m l) || shr_s (shr_record_of_loc m l) = match l with loc_Exact => false | _ => true end.
Proof. by destruct l as [| []]. Qed.

(** ** One rounding to 53 bits, step by step *)
Abbreviation fexp64 := (fexp 53 1024).

Lemma fexp64_eq z : fexp64 z = Z.max (z - 53) (-1074).
Proof. done. Qed.

(** The shift that [shr_fexp] makes, and what is left of the mantissa. *)
Lemma shr_fexp_spec m e l :
  0 <= m ->
  let n := Z.max 0 (fexp64 (Zdigits2 m + e) - e) in
  let '(r, e') := shr_fexp 53 1024 m e l in
  e' = e + n /\ shr_m r = m / 2 ^ n /\
  shr_r r || shr_s r = (match l with loc_Exact => false | _ => true end) || negb (m mod 2 ^ n =? 0).
Proof.
  intros Hm. cbv zeta. unfold shr_fexp, shr. set (d := fexp64 (Zdigits2 m + e) - e).
  destruct (record_of_loc m l) as [E1 E2].
  destruct d as [| p | p]; cbn [Z.max Z.compare].
  1,3: rewrite Z.add_0_r, Z.pow_0_r, Z.div_1_r, Z.mod_1_r, E1, E2; rewrite orb_false_r; done.
  rewrite iter_pos_iter. destruct (shr_iter_spec (Pos.to_nat p) (shr_record_of_loc m l)) as [H1 H2]; [by rewrite E1 |].
  cbv zeta in H1, H2. rewrite H1, H2, E1, E2, positive_nat_Z. done.
Qed.

Record rounded (m e : Z) (l : location) (q e1 : Z) : Prop := {
  rounded_exp : e1 = e + Z.max 0 (fexp64 (Zdigits2 m + e) - e);
  rounded_min : -1074 <= e1;
  rounded_floor : m / 2 ^ (e1 - e) <= q <= m / 2 ^ (e1 - e) + 1;
  rounded_exact : l = loc_Exact -> m mod 2 ^ (e1 - e) = 0 -> q = m / 2 ^ (e1 - e);
  rounded_small : m / 2 ^ (e1 - e) < 2 ^ 53
}.

Definition pack_float (s : bool) (q e : Z) : f64 :=
  match q with
  | Z0 => S754_zero s
  | Zpos p => if e <=? 971 then S754_finite s p e else S754_infinity s
  | Zneg _ => S754_nan
  end.

Lemma binary_round_aux_spec s m e l :
  0 <= m ->
  exists q e1, rounded m e l q e1 /\
    binary_round_aux 53 1024 s m e l = if q =? 2 ^ 53 then pack_float s (2 ^ 52) (e1 + 1) else pack_float s q e1.
Proof.
  intros Hm. unfold binary_round_aux. pose proof (shr_fexp_spec m e l Hm) as H1. cbv zeta in H1.
  destruct (shr_fexp 53 1024 m e l) as [r1 e1]. destruct H1 as (He1 & Hr1 & Hl1).
  set (n := Z.max 0 (fexp64 (Zdigits2 m + e) - e)) in *.
  assert (e1 - e = n) as Hn by lia. assert (0 <= n) as Hn0 by lia.
  set (q := round_nearest_even (shr_m r1) (loc_of_shr_record r1)).
  destruct (round_nearest_even_bounds (shr_m r1) (loc_of_shr_record r1)) as [Hq Hqe]. fold q in Hq, Hqe.
  assert (0 <= m / 2 ^ n < 2 ^ 53) as Hf.
  { split; [apply Z.div_pos; [lia | apply Z.pow_pos_nonneg; lia] |].
    destruct (Z.eq_dec m 0) as [-> | Hm0]; [rewrite Z.div_0_l; [lia | pose proof (Z.pow_pos_nonneg 2 n); lia] |].
    destruct (Zdigits2_bounds m ltac:(lia)) as [ [_ Hd] Hd0]. apply Z.div_lt_upper_bound; [apply Z.pow_pos_nonneg; lia |].
    rewrite <- Z.pow_add_r by lia. eapply Z.lt_le_trans; [exact Hd |]. apply Z.pow_le_mono_r; [lia |].
    unfold n. rewrite fexp64_eq. lia. }
  assert (-1074 <= e1) as Hmin by (unfold n in He1; rewrite fexp64_eq in He1; lia).
  exists q, e1. split.
  - split; rewrite ?Hn; [done | done | by rewrite <- Hr1 | | lia].
    intros -> Hmod. rewrite <- Hr1. apply Hqe, loc_exact. by rewrite Hl1, Hmod.
  - rewrite <- Hr1 in Hf. clearbody q n. clear Hl1 Hqe Hr1 He1.
    pose proof (shr_fexp_spec q e1 loc_Exact ltac:(lia)) as H2. cbv zeta in H2.
    destruct (shr_fexp 53 1024 q e1 loc_Exact) as [r2 e2]. destruct H2 as (He2 & Hr2 & _).
    destruct (Z.eqb_spec q (2 ^ 53)) as [-> | Hne].
    + change (Zdigits2 (2 ^ 53)) with 54 in *. rewrite fexp64_eq in *.
      replace (Z.max 0 (Z.max (54 + e1 - 53) (-1074) - e1)) with 1 in * by lia. by rewrite Hr2, He2.
    + pose proof (Zdigits2_le q 53 ltac:(lia) ltac:(lia)) as Hd. rewrite fexp64_eq in *.
      replace (Z.max 0 (Z.max (Zdigits2 q + e1 - 53) (-1074) - e1)) with 0 in * by lia.
      rewrite Z.div_1_r in Hr2. rewrite Hr2, He2, Z.add_0_r. by unfold pack_float.
Qed.

(** ** The exact value of a [double], and when its fields are valid *)
Definition fval (x : f64) : Z :=
  match x with S754_finite s m e => cond_Zopp s (Zpos m * 2 ^ (e + 1074)) | _ => 0 end.

Definition valid (x : f64) : Prop :=
  match x with S754_finite _ m e => Zpos m < 2 ^ 53 /\ -1074 <= e <= 971 | _ => True end.

Lemma pack_float_valid s q e : 0 <= q < 2 ^ 53 -> -1074 <= e -> valid (pack_float s q e).
Proof. intros Hq He. destruct q as [| p | p]; cbn; try done. destruct (Z.leb_spec e 971); cbn; [lia | done]. Qed.

Lemma binary_round_aux_valid s m e l : 0 <= m -> valid (binary_round_aux 53 1024 s m e l).
Proof.
  intros Hm. destruct (binary_round_aux_spec s m e l Hm) as (q & e1 & [] & ->).
  assert (0 <= m / 2 ^ (e1 - e)) by (apply Z.div_pos; [lia | apply Z.pow_pos_nonneg; lia]).
  destruct (Z.eqb_spec q (2 ^ 53)); apply pack_float_valid; lia.
Qed.

(** ** Representable values, and the monotonicity of rounding *)
Definition dbl (v : Z) : Prop := exists h j, v = h * 2 ^ j /\ 0 <= h < 2 ^ 53 /\ 0 <= j <= 2045.

Lemma dbl_int n : 0 <= n < 2 ^ 53 -> dbl (n * 2 ^ 1074).
Proof. intros. by exists n, 1074. Qed.

Lemma dbl_multiple v g :
  dbl v -> 0 <= g -> (exists k, v = k * 2 ^ g) \/ v < 2 ^ (g + 52).
Proof.
  intros (h & j & -> & Hh & Hj) Hg. destruct (Z.le_gt_cases g j).
  - left. exists (h * 2 ^ (j - g)). rewrite <- Z.mul_assoc, <- Z.pow_add_r by lia. f_equal. f_equal. lia.
  - right. assert (h * 2 ^ j < 2 ^ 53 * 2 ^ j) by (apply Z.mul_lt_mono_pos_r; [apply Z.pow_pos_nonneg |]; lia).
    rewrite <- Z.pow_add_r in * by lia. eapply Z.lt_le_trans; [done |]. apply Z.pow_le_mono_r; lia.
Qed.

(** A rounded mantissa [q] at exponent [e1] stays between the representable
    bounds of the exact value [m * 2 ^ e], all at the scale [2 ^ -1074]. *)
Section Rounded.
Context (m e q e1 a b : Z).
Context (Hm : 0 < m) (Ha : 0 <= a) (Hb : 0 <= b) (Hab : b - a = e + 1074).
Context (Hr : rounded m e loc_Exact q e1).

Let n := e1 - e.
Let g := e1 + 1074.

Lemma rounded_powers : 0 <= n /\ 0 <= g /\ 0 < 2 ^ n /\ 0 < 2 ^ a /\ 0 < 2 ^ b /\ 2 ^ a * 2 ^ g = 2 ^ b * 2 ^ n.
Proof.
  destruct Hr as [He Hmin _ _ _]. assert (0 <= n) by (unfold n; lia). assert (0 <= g) by (unfold g; lia).
  split; [done |]. split; [done |]. split; [apply Z.pow_pos_nonneg; lia |]. split; [apply Z.pow_pos_nonneg; lia |].
  split; [apply Z.pow_pos_nonneg; lia |]. rewrite <- !Z.pow_add_r by lia. f_equal. unfold n, g. lia.
Qed.

(** Unless the value is exact or denormal, the mantissa has all its digits. *)
Lemma rounded_normal : n = 0 \/ g = 0 \/ 2 ^ 52 <= m / 2 ^ n.
Proof.
  destruct rounded_powers as (Hn & Hg & Hpn & _). destruct Hr as [He Hmin _ _ _].
  destruct (Z.eq_dec n 0) as [| Hn0]; [by left |]. right. destruct (Z.eq_dec g 0) as [| Hg0]; [by left |]. right.
  rewrite fexp64_eq in He. assert (n = Zdigits2 m - 53) as En by (unfold n, g in *; lia). rewrite En in *.
  destruct (Zdigits2_bounds m Hm) as [ [Hd _] Hd0]. apply Z.div_le_lower_bound; [lia |].
  rewrite <- Z.pow_add_r by lia. by replace (Zdigits2 m - 53 + 52) with (Zdigits2 m - 1) by lia.
Qed.

Lemma rounded_le hi : dbl hi -> m * 2 ^ b <= hi * 2 ^ a -> q * 2 ^ g <= hi.
Proof.
  intros Hd Hle. destruct rounded_powers as (Hn & Hg & Hpn & Hpa & Hpb & Hp). destruct rounded_normal as [Hn0 | Hnorm].
  - assert (q = m) as -> by (destruct Hr as [_ _ _ Hx _]; fold n in Hx; rewrite Hn0 in Hx;
      rewrite Hx by (done || apply Z.mod_1_r); apply Z.div_1_r).
    rewrite Hn0 in Hp. nia.
  - assert ((exists k, hi = k * 2 ^ g) \/ (hi < 2 ^ (g + 52) /\ 2 ^ 52 <= m / 2 ^ n)) as [ [k ->] | [Hlt H52] ].
    { destruct Hnorm as [-> | H52]; [left; exists hi; lia |]. destruct (dbl_multiple hi g Hd Hg); [by left | by right]. }
    + assert (m <= k * 2 ^ n) as Hk by nia. apply Z.mul_le_mono_pos_r; [apply Z.pow_pos_nonneg; lia |].
      destruct Hr as [_ _ Hf Hx _]. fold n in Hf, Hx. pose proof (Z.div_mod m (2 ^ n) ltac:(lia)) as Hdm.
      pose proof (Z.mod_pos_bound m (2 ^ n) Hpn). destruct (Z.eq_dec (m mod 2 ^ n) 0) as [E | E]; [rewrite (Hx eq_refl E) |]; nia.
    + exfalso. rewrite Z.pow_add_r in Hlt by lia. pose proof (Z.mul_div_le m (2 ^ n) Hpn). nia.
Qed.

Lemma rounded_ge lo : dbl lo -> lo * 2 ^ a <= m * 2 ^ b -> lo <= q * 2 ^ g.
Proof.
  intros Hd Hle. destruct rounded_powers as (Hn & Hg & Hpn & Hpa & Hpb & Hp).
  destruct Hr as [_ _ Hf Hx _]. fold n in Hf, Hx. destruct rounded_normal as [Hn0 | Hnorm].
  - assert (q = m) as -> by (rewrite Hn0 in Hx; rewrite Hx by (done || apply Z.mod_1_r); apply Z.div_1_r).
    rewrite Hn0 in Hp. nia.
  - assert ((exists k, lo = k * 2 ^ g) \/ (lo < 2 ^ (g + 52) /\ 2 ^ 52 <= m / 2 ^ n)) as [ [k ->] | [Hlt H52] ].
    { destruct Hnorm as [-> | H52]; [left; exists lo; lia |]. destruct (dbl_multiple lo g Hd Hg); [by left | by right]. }
    + assert (2 ^ n * k <= m) as Hk by nia. pose proof (Z.div_le_lower_bound m (2 ^ n) k Hpn Hk).
      apply Z.mul_le_mono_nonneg_r; [apply Z.pow_nonneg |]; lia.
    + rewrite Z.pow_add_r in Hlt by lia. pose proof (Z.pow_pos_nonneg 2 g). nia.
Qed.
End Rounded.

Lemma binary_round_aux_bounds m e a b lo hi :
  0 < m -> 0 <= a -> 0 <= b -> b - a = e + 1074 -> e <= 971 -> dbl lo -> dbl hi ->
  lo * 2 ^ a <= m * 2 ^ b <= hi * 2 ^ a ->
  let x := binary_round_aux 53 1024 false m e loc_Exact in is_finite x = true /\ lo <= fval x <= hi.
Proof.
  intros Hm Ha Hb Hab He Hlo Hhi [Hl Hh]. cbv zeta.
  destruct (binary_round_aux_spec false m e loc_Exact ltac:(lia)) as (q & e1 & Hr & ->).
  pose proof (rounded_le m e q e1 a b Hm Ha Hb Hab Hr hi Hhi Hh) as Hqh.
  pose proof (rounded_ge m e q e1 a b Hm Ha Hb Hab Hr lo Hlo Hl) as Hql.
  pose proof (rounded_normal m e q e1 a b Hm Ha Hb Hab Hr) as Hnorm.
  destruct (rounded_powers m e q e1 a b Ha Hb Hab Hr) as (Hn & Hg & _). destruct Hr as [_ Hmin Hf _ Hs].
  assert (hi < 2 ^ 2098) as Hmax.
  { destruct Hhi as (h & j & -> & Hh' & Hj). replace 2098 with (53 + 2045) by lia. rewrite Z.pow_add_r by lia.
    assert (2 ^ j <= 2 ^ 2045) by (apply Z.pow_le_mono_r; lia). pose proof (Z.pow_pos_nonneg 2 j). nia. }
  assert (0 <= q) as Hq0 by (pose proof (Z.div_pos m (2 ^ (e1 - e))); pose proof (Z.pow_pos_nonneg 2 (e1 - e)); lia).
  assert (e1 <= 971 /\ (q = 2 ^ 53 -> e1 + 1 <= 971)) as [He1 He1'].
  { assert (forall p, 2 ^ p <= q -> 0 <= p -> p + (e1 + 1074) < 2098) as Hpow.
    { intros p Hp Hp0. apply (Z.pow_lt_mono_r_iff 2); [lia.. |]. rewrite Z.pow_add_r by lia.
      pose proof (Z.pow_pos_nonneg 2 (e1 + 1074)). nia. }
    split; [destruct Hnorm as [H0 | [H0 | H0] ]; [lia.. |]; specialize (Hpow 52); lia | intros Hq; specialize (Hpow 53); lia]. }
  destruct (Z.eqb_spec q (2 ^ 53)) as [-> | Hne].
  - change (2 ^ 52) with (Zpos (2 ^ 52)). cbn [pack_float]. rewrite (proj2 (Z.leb_le _ _)) by (specialize (He1' eq_refl); lia).
    split; [done |]. cbn [fval cond_Zopp]. change (Zpos (2 ^ 52)) with (2 ^ 52).
    replace (2 ^ 52 * 2 ^ (e1 + 1 + 1074)) with (2 ^ 53 * 2 ^ (e1 + 1074)); [done |].
    rewrite <- !Z.pow_add_r by lia. f_equal. lia.
  - destruct q as [| p | p]; [by cbn; lia | | lia]. cbn [pack_float]. rewrite (proj2 (Z.leb_le _ _)) by lia. done.
Qed.

(** ** The operations *)
Definition nonneg (x : f64) : bool :=
  match x with S754_zero _ | S754_finite false _ _ => true | _ => false end.

(** A finite, non-negative, well-formed [double] of a value in [lo, hi]. *)
Definition within (lo hi : Z) (x : f64) : Prop := nonneg x = true /\ valid x /\ lo <= fval x <= hi.

Lemma fval_nonneg x : nonneg x = true -> 0 <= fval x.
Proof. destruct x as [| | | [] m e]; cbn [nonneg fval cond_Zopp]; try done. intros _. pose proof (Z.pow_nonneg 2 (e + 1074)). lia. Qed.

Lemma binary_round_aux_nonneg m e :
  0 <= m -> is_finite (binary_round_aux 53 1024 false m e loc_Exact) = true ->
  nonneg (binary_round_aux 53 1024 false m e loc_Exact) = true.
Proof.
  intros Hm. destruct (binary_round_aux_spec false m e loc_Exact Hm) as (q & e1 & _ & ->). unfold pack_float.
  destruct (q =? 2 ^ 53); [cbn; by destruct (e1 + 1 <=? 971) |]. destruct q; try done. by destruct (e1 <=? 971).
Qed.

Lemma binary_round_aux_within m e a b lo hi :
  0 < m -> 0 <= a -> 0 <= b -> b - a = e + 1074 -> e <= 971 -> dbl lo -> dbl hi ->
  lo * 2 ^ a <= m * 2 ^ b <= hi * 2 ^ a -> within lo hi (binary_round_aux 53 1024 false m e loc_Exact).
Proof.
  intros. destruct (binary_round_aux_bounds m e a b lo hi) as [Hf Hv]; try done.
  split; [by apply binary_round_aux_nonneg; [lia |] |]. split; [apply binary_round_aux_valid; lia | done].
Qed.

Lemma iter_xO p d : Zpos (Pos.iter xO p d) = Zpos p * 2 ^ Zpos d.
Proof.
  revert p. induction d as [| d IH] using Pos.peano_ind; intros p; [cbn; lia |].
  rewrite Pos.iter_succ, Pos2Z.inj_xO, IH, Pos2Z.inj_succ, Z.pow_succ_r by lia. lia.
Qed.

Lemma shl_align_spec p e e' :
  let '(p', e'') := shl_align p e e' in
  e'' = Z.min e e' /\ Zpos p' = Zpos p * 2 ^ (e - Z.min e e').
Proof.
  unfold shl_align. destruct (e' - e) as [| d | d] eqn:E.
  - replace (Z.min e e') with e by lia. rewrite Z.sub_diag, Z.mul_1_r. done.
  - replace (Z.min e e') with e by lia. rewrite Z.sub_diag, Z.mul_1_r. done.
  - replace (Z.min e e') with e' by lia. replace (e - e') with (Zpos d) by lia. split; [done | apply iter_xO].
Qed.

Lemma binary_normalize_within m e s lo hi :
  0 <= m -> -1074 <= e <= 971 -> dbl lo -> dbl hi -> lo <= m * 2 ^ (e + 1074) <= hi ->
  within lo hi (binary_normalize 53 1024 m e s).
Proof.
  intros Hm He Hlo Hhi Hv. destruct m as [| p | p]; [| | lia]; [by split; [| split] |].
  cbn [binary_normalize]. unfold binary_round. rewrite fexp64_eq.
  pose proof (shl_align_spec p e (Z.max (Zpos (digits2_pos p) + e - 53) (-1074))) as H.
  destruct (shl_align p e _) as [p' e'] eqn:E. destruct H as [He' Hp'].
  apply (binary_round_aux_within (Zpos p') e' 0 (e' + 1074)); try lia; try done.
  rewrite Hp', <- Z.mul_assoc, <- Z.pow_add_r by lia. replace (e - Z.min e _ + (e' + 1074)) with (e + 1074) by lia. lia.
Qed.

Lemma f64_of_Z_within n : 0 <= n < 2 ^ 53 -> within (n * 2 ^ 1074) (n * 2 ^ 1074) (f64_of_Z n).
Proof. intros. apply binary_normalize_within; try apply dbl_int; lia. Qed.

(** No value the code computes with comes near the end of the range. *)
Definition moderate (x : f64) : Prop := fval x < 2 ^ 1500.

Lemma moderate_exp m e : valid (S754_finite false m e) -> moderate (S754_finite false m e) -> e < 426.
Proof.
  cbn [valid]. unfold moderate. cbn [fval cond_Zopp]. intros [Hm He] Hv.
  assert (2 ^ (e + 1074) < 2 ^ 1500) as H by (pose proof (Z.pow_pos_nonneg 2 (e + 1074)); nia).
  apply Z.pow_lt_mono_r_iff in H; lia.
Qed.

Lemma f64_mul_within x y lo hi :
  nonneg x = true -> nonneg y = true -> valid x -> valid y -> moderate x -> moderate y -> dbl lo -> dbl hi ->
  lo * 2 ^ 1074 <= fval x * fval y <= hi * 2 ^ 1074 -> within lo hi (f64_mul x y).
Proof.
  unfold f64_mul. intros Hx Hy Vx Vy Bx By Hlo Hhi Hv.
  destruct x as [sx | | | [] mx ex], y as [sy | | | [] my ey]; try done; cbn [fval cond_Zopp SFmul] in *;
    try (split; [done | split; [done | cbn [fval]; lia] ]).
  cbn [xorb]. pose proof (moderate_exp mx ex Vx Bx). pose proof (moderate_exp my ey Vy By). cbn [valid] in Vx, Vy.
  apply (binary_round_aux_within _ _ 1074 (ex + ey + 2148)); try lia; try done.
  replace (ex + ey + 2148) with ((ex + 1074) + (ey + 1074)) by lia. rewrite Z.pow_add_r, Pos2Z.inj_mul by lia. lia.
Qed.

Lemma f64_add_within x y lo hi :
  nonneg x = true -> nonneg y = true -> valid x -> valid y -> dbl lo -> dbl hi ->
  lo <= fval x + fval y <= hi -> within lo hi (f64_add x y).
Proof.
  unfold f64_add. intros Hx Hy Vx Vy Hlo Hhi Hv.
  destruct x as [[] | | | [] mx ex], y as [[] | | | [] my ey]; try done; cbn [fval cond_Zopp SFadd] in *;
    try (split; [done | split; [done | cbn [fval cond_Zopp]; lia] ]).
  cbn [valid] in Vx, Vy. set (ez := Z.min ex ey).
  pose proof (shl_align_spec mx ex ez) as H1. pose proof (shl_align_spec my ey ez) as H2.
  destruct (shl_align mx ex ez) as [px e1], (shl_align my ey ez) as [py e2]. cbn [fst]. destruct H1 as [_ H1], H2 as [_ H2].
  apply binary_normalize_within; try lia; try done. rewrite H1, H2, Z.mul_add_distr_r, <- !Z.mul_assoc, <- !Z.pow_add_r by lia.
  replace (ex - Z.min ex ez + (ez + 1074)) with (ex + 1074) by lia.
  replace (ey - Z.min ey ez + (ez + 1074)) with (ey + 1074) by lia. lia.
Qed.

(** A quotient is a well-formed [double], whatever it is. *)
Lemma f64_div_valid x y : valid (f64_div x y).
Proof.
  unfold f64_div. destruct x as [sx | sx | | sx mx ex], y as [sy | sy | | sy my ey]; try done.
  unfold SFdiv, SFdiv_core_binary. cbv zeta.
  match goal with |- context [Z.div_eucl ?a ?b] => set (m := a);
    pose proof (Z_div_mod m (Zpos my) ltac:(lia)) as Hd; destruct (Z.div_eucl m (Zpos my)) as [q r] end.
  apply binary_round_aux_valid. destruct Hd as [He Hr]. assert (0 <= m) as Hm; [| nia].
  unfold m. match goal with |- context [match ?b with _ => _ end] => destruct b end; try done.
  apply Z.shiftl_nonneg. lia.
Qed.

Lemma valid_opp_le p e : Zpos p < 2 ^ 53 -> -1074 <= e < -52 -> Zpos p * 2 ^ (e + 1074) <= 2 ^ 1074.
Proof.
  intros Hp He. apply Z.le_trans with (2 ^ 53 * 2 ^ (e + 1074)); [pose proof (Z.pow_nonneg 2 (e + 1074)); nia |].
  rewrite <- Z.pow_add_r by lia. apply Z.pow_le_mono_r; lia.
Qed.

(** [std::clamp(x, 0.0, 1.0)] is between 0 and 1, if it is a number. *)
Lemma std_clamp_unit x :
  not_nan x -> valid x -> within 0 (2 ^ 1074) (std_clamp x fzero (f64_of_Z 1)).
Proof.
  intros Hn Hv. change (f64_of_Z 1) with (S754_finite false (2 ^ 52) (-52)).
  assert (within 0 (2 ^ 1074) (S754_finite false (2 ^ 52) (-52))) as H1 by (by vm_compute; intuition discriminate).
  assert (within 0 (2 ^ 1074) fzero) as H0 by (by vm_compute; intuition discriminate).
  unfold std_clamp. destruct x as [s | [] | | [] m e]; try done.
  unfold flt, SFltb, SFcompare. cbn [fzero]. cbn [valid] in Hv.
  destruct (Z.compare_spec (-52) e) as [<- | Hlt | Hgt]; [| done |].
  - destruct (Pos.compare_cont Eq (2 ^ 52) m) eqn:E; [| done |]; (split; [done | split; [done |] ]);
      cbn [fval cond_Zopp]; change (-52 + 1074) with 1022.
    + apply Pos.compare_eq in E as <-. by vm_compute.
    + change (Pos.compare_cont Eq (2 ^ 52) m) with ((2 ^ 52)%positive ?= m)%positive in E. apply Pos.compare_gt_iff in E.
      change (2 ^ 1074) with (2 ^ 52 * 2 ^ 1022). pose proof (Z.pow_pos_nonneg 2 1022). lia.
  - split; [done | split; [done |] ]. cbn [fval cond_Zopp]. split; [| apply valid_opp_le; lia].
    pose proof (Z.pow_nonneg 2 (e + 1074)). lia.
Qed.

(** [std::llround]: the nearest integer, halves up. *)
Lemma std_lround_val x : nonneg x = true -> valid x -> std_lround x = (2 * fval x + 2 ^ 1074) / 2 ^ 1075.
Proof.
  intros Hx Hv. change (2 ^ 1075) with (2 * 2 ^ 1074). destruct x as [s | | | [] m e]; try done.
  cbn [std_lround fval cond_Zopp]. cbn [valid] in Hv. destruct (Z.leb_spec 0 e).
  - rewrite Z.shiftl_mul_pow2, (Z.pow_add_r 2 e 1074) by lia. apply (Z.div_unique _ _ _ (2 ^ 1074)); [left |];
      pose proof (Z.pow_pos_nonneg 2 1074); lia.
  - replace (2 ^ (1 - e)) with (2 * 2 ^ (- e)) by (rewrite <- Z.pow_succ_r by lia; f_equal; lia).
    assert (2 ^ 1074 = 2 ^ (- e) * 2 ^ (e + 1074)) as -> by (rewrite <- Z.pow_add_r by lia; f_equal; lia).
    pose proof (Z.pow_pos_nonneg 2 (- e)). pose proof (Z.pow_pos_nonneg 2 (e + 1074)).
    rewrite <- (Z.div_mul_cancel_r (2 * Zpos m + 2 ^ (- e)) (2 * 2 ^ (- e)) (2 ^ (e + 1074))) by lia. f_equal; lia.
Qed.

Lemma std_lround_within lo hi x : within (lo * 2 ^ 1074) (hi * 2 ^ 1074) x -> lo <= std_lround x <= hi.
Proof.
  intros (Hx & Hv & Hb). rewrite std_lround_val by done. change (2 ^ 1075) with (2 * 2 ^ 1074).
  pose proof (Z.pow_pos_nonneg 2 1074). split.
  - apply Z.div_le_lower_bound; lia.
  - assert ((2 * fval x + 2 ^ 1074) / (2 * 2 ^ 1074) < hi + 1); [| lia]. apply Z.div_lt_upper_bound; lia.
Qed.

(** ** Whole numbers *)
(** The integer part of a magnitude. *)
Definition whole_part (m : positive) (e : Z) : Z := if 0 <=? e then Z.shiftl (Zpos m) e else Z.shiftr (Zpos m) (- e).

(** A whole number of a sign: a negative zero stays one. *)
Definition whole (negative : bool) (z : Z) : f64 := if z =? 0 then S754_zero negative else f64_of_Z z.

(** The least integer that is no less than a magnitude. *)
Definition whole_above (m : positive) (e : Z) : Z := Z.shiftr (Zpos m + 2 ^ (- e) - 1) (- e).

(** [std::floor], [std::ceil]. *)
Definition std_floor (x : f64) : f64 :=
  match x with
  | S754_finite s m e => if 0 <=? e then x else whole s (if s then - whole_above m e else whole_part m e)
  | _ => x
  end.
Definition std_ceil (x : f64) : f64 :=
  match x with
  | S754_finite s m e => if 0 <=? e then x else whole s (if s then - whole_part m e else whole_above m e)
  | _ => x
  end.

(** [static_cast<int>] of a [double]: undefined unless its integer part fits. *)
Definition f64_to_int (x : f64) : res Z :=
  match x with
  | S754_zero _ => Ok 0
  | S754_finite s m e =>
      let z := cond_Zopp s (whole_part m e) in
      if (- 2 ^ 31 <=? z) && (z <? 2 ^ 31) then Ok z else Fault (Undefined "double to int")
  | _ => Fault (Undefined "double to int")
  end.

(** The magnitude [m * 2 ^ e] is at most [n]. *)
Lemma magnitude_bound m e n :
  -1074 <= e < 0 -> Zpos m * 2 ^ (e + 1074) <= n * 2 ^ 1074 -> Zpos m <= n * 2 ^ (- e).
Proof.
  intros He H. assert (2 ^ 1074 = 2 ^ (- e) * 2 ^ (e + 1074)) as E by (rewrite <- Z.pow_add_r by lia; f_equal; lia).
  rewrite E in H. pose proof (Z.pow_pos_nonneg 2 (e + 1074)). nia.
Qed.

Lemma whole_part_bound m e n :
  -1074 <= e -> Zpos m * 2 ^ (e + 1074) <= n * 2 ^ 1074 -> 0 <= whole_part m e <= n.
Proof.
  intros He H. unfold whole_part. destruct (Z.leb_spec 0 e).
  - rewrite Z.shiftl_mul_pow2 by lia. rewrite Z.pow_add_r in H by lia. pose proof (Z.pow_pos_nonneg 2 1074).
    pose proof (Z.pow_nonneg 2 e). nia.
  - apply magnitude_bound in H; [| lia]. rewrite Z.shiftr_div_pow2 by lia. pose proof (Z.pow_pos_nonneg 2 (- e)).
    split; [apply Z.div_pos; lia |]. apply Z.lt_succ_r, Z.div_lt_upper_bound; nia.
Qed.

Lemma whole_above_bound m e n :
  -1074 <= e < 0 -> Zpos m * 2 ^ (e + 1074) <= n * 2 ^ 1074 -> 0 <= whole_above m e <= n.
Proof.
  intros He H. apply magnitude_bound in H; [| lia]. unfold whole_above. rewrite Z.shiftr_div_pow2 by lia.
  pose proof (Z.pow_pos_nonneg 2 (- e)). split; [apply Z.div_pos; lia |]. apply Z.lt_succ_r, Z.div_lt_upper_bound; nia.
Qed.

Lemma whole_within z n : 0 <= z <= n -> n < 2 ^ 53 -> within 0 (n * 2 ^ 1074) (whole false z).
Proof.
  intros Hz Hn. pose proof (Z.pow_pos_nonneg 2 1074). unfold whole. destruct (Z.eqb_spec z 0); [by split; [| split; [| cbn [fval]; lia]] |].
  destruct (f64_of_Z_within z) as (H1 & H2 & H3); [lia |]. split; [done | split; [done | nia]].
Qed.

Lemma std_floor_within n x : n < 2 ^ 53 -> within 0 (n * 2 ^ 1074) x -> within 0 (n * 2 ^ 1074) (std_floor x).
Proof.
  intros Hn (Hx & Hv & Hb). destruct x as [s | | | [] m e]; try done. cbn [std_floor]. cbn [valid fval cond_Zopp] in *.
  destruct (Z.leb_spec 0 e); [done |]. apply whole_within; [| done]. apply whole_part_bound; lia.
Qed.

Lemma std_ceil_within n x : n < 2 ^ 53 -> within 0 (n * 2 ^ 1074) x -> within 0 (n * 2 ^ 1074) (std_ceil x).
Proof.
  intros Hn (Hx & Hv & Hb). destruct x as [s | | | [] m e]; try done. cbn [std_ceil]. cbn [valid fval cond_Zopp] in *.
  destruct (Z.leb_spec 0 e); [done |]. apply whole_within; [| done]. apply whole_above_bound; lia.
Qed.

Lemma to_int_within n x : n < 2 ^ 31 -> within 0 (n * 2 ^ 1074) x -> exists z, f64_to_int x = Ok z /\ 0 <= z <= n.
Proof.
  intros Hn (Hx & Hv & Hb). destruct x as [s | | | [] m e]; try done.
  - exists 0. split; [done |]. pose proof (Z.pow_pos_nonneg 2 1074). cbn [fval] in Hb. nia.
  - cbn [valid fval cond_Zopp f64_to_int] in *. pose proof (whole_part_bound m e n ltac:(lia) ltac:(lia)) as Hw.
    exists (whole_part m e). by rewrite (proj2 (Z.leb_le _ _)), (proj2 (Z.ltb_lt _ _)) by lia.
Qed.

(** ** Quotients *)
(** What the quotient of two mantissas gives the rounding: enough digits, unless
    it is denormal, and the exact remainder as a location. *)
Section Quotient.
Context (m e q e1 : Z) (l : location).
Context (Hm : 0 <= m) (Hr : rounded m e l q e1) (Hfull : -1074 < e -> 2 ^ 52 <= m).

Lemma quotient_digits : 0 <= e1 - e /\ (e1 = -1074 \/ -1074 < e1 /\ 2 ^ 52 <= m / 2 ^ (e1 - e)).
Proof.
  destruct Hr as [He Hmin _ _ _]. rewrite fexp64_eq in He. split; [lia |].
  destruct (Z.eq_dec e1 (-1074)) as [| Hne]; [by left | right]. split; [lia |].
  destruct (Z.eq_dec (e1 - e) 0) as [E | E]; [rewrite E, Z.div_1_r; apply Hfull; lia |].
  assert (e1 - e = Zdigits2 m - 53) as -> by lia.
  destruct (Z.eq_dec m 0) as [-> | Hm0]; [cbn in He; lia |]. destruct (Zdigits2_bounds m ltac:(lia)) as [ [Hd _] Hd0].
  apply Z.div_le_lower_bound; [apply Z.pow_pos_nonneg; lia |].
  rewrite <- Z.pow_add_r by lia. by replace (Zdigits2 m - 53 + 52) with (Zdigits2 m - 1) by lia.
Qed.

(** The mantissa stays below a representable bound of the value, which may lie
    strictly between [m * 2 ^ e] and [(m + 1) * 2 ^ e]. *)
Lemma quotient_below hi :
  dbl hi -> m * 2 ^ (e1 + 1074) <= hi * 2 ^ (e1 - e) ->
  (l <> loc_Exact -> m * 2 ^ (e1 + 1074) < hi * 2 ^ (e1 - e)) -> q * 2 ^ (e1 + 1074) <= hi.
Proof.
  intros Hd Hle Hlt. destruct quotient_digits as [Hn Hdig]. pose proof (rounded_min _ _ _ _ _ Hr) as Hmin.
  pose proof (Z.pow_pos_nonneg 2 (e1 - e) ltac:(lia) Hn) as Hpn. pose proof (Z.pow_pos_nonneg 2 (e1 + 1074) ltac:(lia) ltac:(lia)) as Hpg.
  assert (exists k, hi = k * 2 ^ (e1 + 1074)) as [k ->].
  { destruct Hdig as [-> | [Hne H52]]; [exists hi; lia |]. destruct (dbl_multiple hi (e1 + 1074) Hd ltac:(lia)) as [| Hsmall]; [done |].
    exfalso. rewrite Z.pow_add_r in Hsmall by lia. pose proof (Z.mul_div_le m (2 ^ (e1 - e)) Hpn).
    apply (Z.mul_lt_mono_pos_r (2 ^ (e1 - e))) in Hsmall; [| done].
    assert (2 ^ (e1 - e) * 2 ^ 52 * 2 ^ (e1 + 1074) <= m * 2 ^ (e1 + 1074)); [apply Z.mul_le_mono_nonneg_r |]; nia. }
  apply Z.mul_le_mono_pos_r; [done |]. assert (m <= k * 2 ^ (e1 - e)) as Hk by nia.
  destruct Hr as [_ _ Hf Hx _]. pose proof (Z.div_mod m (2 ^ (e1 - e)) ltac:(lia)) as Hdm.
  pose proof (Z.mod_pos_bound m (2 ^ (e1 - e)) Hpn). destruct (Z.eq_dec (m mod 2 ^ (e1 - e)) 0) as [E | E]; [| nia].
  destruct l as [| c]; [rewrite (Hx eq_refl E); nia |]. specialize (Hlt ltac:(done)).
  assert (m < k * 2 ^ (e1 - e)) by nia. nia.
Qed.
End Quotient.

Lemma quotient_within m e l hi :
  0 <= m -> (-1074 < e -> 2 ^ 52 <= m) -> dbl hi ->
  (forall n, 0 <= n -> 0 <= e + n + 1074 -> m * 2 ^ (e + n + 1074) <= hi * 2 ^ n /\
     (l <> loc_Exact -> m * 2 ^ (e + n + 1074) < hi * 2 ^ n)) ->
  within 0 hi (binary_round_aux 53 1024 false m e l).
Proof.
  intros Hm Hfull Hd Hle. pose proof (binary_round_aux_valid false m e l Hm) as Hv. revert Hv.
  destruct (binary_round_aux_spec false m e l Hm) as (q & e1 & Hr & ->).
  destruct (quotient_digits m e q e1 l Hm Hr Hfull) as [Hn Hdig]. pose proof (rounded_min _ _ _ _ _ Hr) as Hmin.
  destruct (Hle (e1 - e)) as [H1 H2]; [lia | lia |]. replace (e + (e1 - e) + 1074) with (e1 + 1074) in * by lia.
  pose proof (quotient_below m e q e1 l Hm Hr Hfull hi Hd H1 H2) as Hq.
  assert (hi < 2 ^ 2098) as Hmax.
  { destruct Hd as (h & j & -> & Hh' & Hj). replace 2098 with (53 + 2045) by lia. rewrite Z.pow_add_r by lia.
    assert (2 ^ j <= 2 ^ 2045) by (apply Z.pow_le_mono_r; lia). pose proof (Z.pow_pos_nonneg 2 j). nia. }
  destruct Hr as [_ _ Hf _ Hs]. assert (0 <= q) as Hq0 by (pose proof (Z.div_pos m (2 ^ (e1 - e)) Hm); pose proof (Z.pow_pos_nonneg 2 (e1 - e)); lia).
  assert (e1 <= 971 /\ (q = 2 ^ 53 -> e1 + 1 <= 971)) as [He1 He1'].
  { assert (forall p, 2 ^ p <= q -> 0 <= p -> p + (e1 + 1074) < 2098) as Hpow.
    { intros p Hp Hp0. apply (Z.pow_lt_mono_r_iff 2); [lia.. |]. rewrite Z.pow_add_r by lia.
      pose proof (Z.pow_pos_nonneg 2 (e1 + 1074)). nia. }
    destruct Hdig as [-> | [_ H52]]; [lia |]. split; [specialize (Hpow 52); lia | intros Hq53; specialize (Hpow 53); lia]. }
  destruct (Z.eqb_spec q (2 ^ 53)) as [-> | Hne].
  - change (2 ^ 52) with (Zpos (2 ^ 52)). cbn [pack_float]. rewrite (proj2 (Z.leb_le _ _)) by (specialize (He1' eq_refl); lia).
    intros Hv. split; [done |]. split; [done |]. cbn [fval cond_Zopp]. change (Zpos (2 ^ 52)) with (2 ^ 52).
    pose proof (Z.pow_nonneg 2 (e1 + 1 + 1074)). split; [nia |].
    replace (2 ^ 52 * 2 ^ (e1 + 1 + 1074)) with (2 ^ 53 * 2 ^ (e1 + 1074)); [done |]. rewrite <- !Z.pow_add_r by lia. f_equal. lia.
  - destruct q as [| p | p]; [intros _; split; [done | split; [done |]]; cbn; lia | | lia].
    cbn [pack_float]. rewrite (proj2 (Z.leb_le _ _)) by lia. intros Hv. split; [done | split; [done |]]. cbn [fval cond_Zopp].
    pose proof (Z.pow_nonneg 2 (e1 + 1074)). lia.
Qed.

(** A quotient of non-negative doubles is at most [hi] if it is so exactly. *)
Lemma f64_div_within x y hi :
  nonneg x = true -> nonneg y = true -> is_nonzero_finite y = true -> valid x -> valid y -> dbl hi ->
  fval x * 2 ^ 1074 <= hi * fval y -> within 0 hi (f64_div x y).
Proof.
  unfold f64_div. intros Hx Hy Hny Vx Vy Hd Hle. destruct y as [| | | [] my ey]; try done.
  destruct x as [sx | | | [] mx ex]; try done; cbn [SFdiv xorb fval cond_Zopp valid] in *.
  { split; [done | split; [done |]]. cbn [fval]. pose proof (Z.pow_pos_nonneg 2 (ey + 1074)). nia. }
  unfold SFdiv_core_binary. cbv zeta. set (d1 := Zdigits2 (Zpos mx)). set (d2 := Zdigits2 (Zpos my)).
  set (e := Z.min _ _). set (s := ex - ey - e). assert (0 <= s) as Hs by lia.
  assert (match s with Z0 => Zpos mx | Zpos _ => Z.shiftl (Zpos mx) s | Zneg _ => 0 end = Zpos mx * 2 ^ s) as ->
    by (destruct s eqn:Es; [lia | by rewrite Z.shiftl_mul_pow2 | lia]).
  pose proof (Z_div_mod (Zpos mx * 2 ^ s) (Zpos my) ltac:(lia)) as Hdiv.
  destruct (Z.div_eucl (Zpos mx * 2 ^ s) (Zpos my)) as [q r]. destruct Hdiv as [Hq Hr].
  pose proof (Z.pow_pos_nonneg 2 s ltac:(lia) Hs) as Hps. assert (0 <= q) as Hq0 by nia.
  apply quotient_within; try done.
  - intros He. assert (53 <= d1 + s - d2) as Hdig.
    { unfold s. pose proof (Z.le_min_l (fexp 53 1024 (d1 + ex - (d2 + ey))) (ex - ey)) as Hmin. fold e in Hmin.
      change (fexp 53 1024 (d1 + ex - (d2 + ey))) with (Z.max (d1 + ex - (d2 + ey) - 53) (-1074)) in Hmin. lia. }
    destruct (Zdigits2_bounds (Zpos mx) ltac:(lia)) as [ [Hd1 _] Hd10]. destruct (Zdigits2_bounds (Zpos my) ltac:(lia)) as [ [_ Hd2] Hd20].
    fold d1 in Hd1, Hd10. fold d2 in Hd2, Hd20.
    assert (2 ^ (52 + d2) <= Zpos mx * 2 ^ s) as Hbig.
    { apply Z.le_trans with (2 ^ (d1 - 1) * 2 ^ s); [rewrite <- Z.pow_add_r by lia; apply Z.pow_le_mono_r; lia | nia]. }
    rewrite Z.pow_add_r in Hbig by lia. nia.
  - intros n Hn Hg. pose proof (Z.pow_pos_nonneg 2 (e + n + 1074) ltac:(lia) Hg) as Hpg.
    assert (Zpos mx * 2 ^ s * 2 ^ (e + n + 1074) <= hi * 2 ^ n * Zpos my) as Hexact.
    { pose proof (Z.pow_pos_nonneg 2 (ey + 1074) ltac:(lia) ltac:(lia)) as Hpy. apply (Z.mul_le_mono_pos_r _ _ (2 ^ (ey + 1074)) Hpy).
      replace (Zpos mx * 2 ^ s * 2 ^ (e + n + 1074) * 2 ^ (ey + 1074)) with (2 ^ n * (Zpos mx * 2 ^ (ex + 1074) * 2 ^ 1074)).
      - replace (hi * 2 ^ n * Zpos my * 2 ^ (ey + 1074)) with (2 ^ n * (hi * (Zpos my * 2 ^ (ey + 1074)))) by ring.
        apply Z.mul_le_mono_nonneg_l; [apply Z.pow_nonneg; lia | done].
      - rewrite <- !Z.mul_assoc, <- !Z.pow_add_r by lia. rewrite (Z.mul_comm (2 ^ n)), <- !Z.mul_assoc, <- !Z.pow_add_r by lia.
        f_equal. f_equal. unfold s. lia. }
    split; [nia |]. intros Hl. assert (0 < r); [| nia].
    destruct (Z.eq_dec r 0) as [-> |]; [| lia]. exfalso. apply Hl. unfold new_location, new_location_even, new_location_odd. by destruct (Z.even _).
Qed.

(** [std::clamp(x, 0.0, 100.0)] is between 0 and 100, if it is a number. *)
Lemma std_clamp_hundred x :
  not_nan x -> valid x -> within 0 (100 * 2 ^ 1074) (std_clamp x fzero (f64_of_Z 100)).
Proof.
  intros Hn Hv. change (f64_of_Z 100) with (S754_finite false (100 * 2 ^ 46) (-46)).
  assert (within 0 (100 * 2 ^ 1074) (S754_finite false (100 * 2 ^ 46) (-46))) as H1 by (by vm_compute; intuition discriminate).
  assert (within 0 (100 * 2 ^ 1074) fzero) as H0 by (by vm_compute; intuition discriminate).
  unfold std_clamp. destruct x as [s | [] | | [] m e]; try done.
  unfold flt, SFltb, SFcompare. cbn [fzero]. cbn [valid] in Hv.
  destruct (Z.compare_spec (-46) e) as [<- | Hlt | Hgt]; [| done |].
  - destruct (Pos.compare_cont Eq (100 * 2 ^ 46) m) eqn:E; [| done |]; (split; [done | split; [done |] ]);
      cbn [fval cond_Zopp]; change (-46 + 1074) with 1028.
    + apply Pos.compare_eq in E as <-. by vm_compute.
    + change (Pos.compare_cont Eq (100 * 2 ^ 46) m) with ((100 * 2 ^ 46)%positive ?= m)%positive in E. apply Pos.compare_gt_iff in E.
      change (2 ^ 1074) with (2 ^ 46 * 2 ^ 1028). pose proof (Z.pow_pos_nonneg 2 1028). lia.
  - split; [done | split; [done |] ]. cbn [fval cond_Zopp]. pose proof (Z.pow_nonneg 2 (e + 1074)). split; [lia |].
    apply Z.le_trans with (2 ^ 53 * 2 ^ (e + 1074)); [nia |]. rewrite <- Z.pow_add_r by lia.
    apply Z.le_trans with (2 ^ 1080); [apply Z.pow_le_mono_r; lia | by vm_compute].
Qed.

(** ** Full mantissas, square roots, and adding something to a number

    A float computed by rounding has all the digits of its mantissa unless it is
    denormal; then the comparison of the fields is the comparison of the values. *)
Definition canonical (x : f64) : Prop :=
  match x with
  | S754_finite _ m e => Zpos m < 2 ^ 53 /\ -1074 <= e <= 971 /\ (2 ^ 52 <= Zpos m \/ e = -1074)
  | _ => True
  end.

Lemma binary_round_aux_canonical m e l :
  0 < m -> e <= fexp64 (Zdigits2 m + e) -> canonical (binary_round_aux 53 1024 false m e l).
Proof.
  intros Hm He. destruct (binary_round_aux_spec false m e l ltac:(lia)) as (q & e1 & [H1 H2 H3 _ H5] & ->).
  rewrite Z.max_r in H1 by lia. assert (2 ^ 52 <= q \/ e1 = -1074) as Hq.
  { rewrite fexp64_eq in *. destruct (Z.eq_dec e1 (-1074)) as [| Hne]; [by right |]. left.
    destruct (Zdigits2_bounds m Hm) as [ [Hd _] Hd0]. etransitivity; [| apply H3].
    apply Z.div_le_lower_bound; [apply Z.pow_pos_nonneg; lia |]. rewrite <- Z.pow_add_r by lia.
    replace (e1 - e + 52) with (Zdigits2 m - 1) by lia. done. }
  destruct (Z.eqb_spec q (2 ^ 53)) as [-> | Hne].
  - change (2 ^ 52) with (Zpos (2 ^ 52)). cbn [pack_float]. destruct (Z.leb_spec (e1 + 1) 971); cbn [canonical]; [| done].
    split; [done |]. split; [lia |]. by left.
  - assert (0 <= m / 2 ^ (e1 - e)) by (apply Z.div_pos; [lia | apply Z.pow_pos_nonneg; lia]).
    destruct q as [| p | p]; [done | | lia]. cbn [pack_float]. destruct (Z.leb_spec e1 971); cbn [canonical]; [| done].
    split; [lia |]. split; [lia | done].
Qed.

Lemma pack_float_positive q e : 0 <= q -> nonneg (pack_float false q e) = true \/ pack_float false q e = S754_infinity false.
Proof.
  intros Hq. destruct q as [| p | p]; [by left | | lia]. cbn [pack_float]. destruct (e <=? 971); [by left | by right].
Qed.

Lemma binary_round_aux_positive m e l :
  0 <= m -> let x := binary_round_aux 53 1024 false m e l in nonneg x = true \/ x = S754_infinity false.
Proof.
  intros Hm. destruct (binary_round_aux_spec false m e l Hm) as (q & e1 & [_ _ H3 _ _] & ->). cbv zeta.
  assert (0 <= m / 2 ^ (e1 - e)).
  { destruct (Z.le_gt_cases 0 (e1 - e)); [apply Z.div_pos; [lia | apply Z.pow_pos_nonneg; lia] | rewrite Z.pow_neg_r by lia; by rewrite Zdiv_0_r]. }
  destruct (q =? 2 ^ 53); apply pack_float_positive; lia.
Qed.

(** The integer square root has half the digits, rounded up. *)
Lemma sqrt_digits m : 0 < m -> (Zdigits2 m + 1) / 2 <= Zdigits2 (Z.sqrt m) /\ 0 < Z.sqrt m.
Proof.
  intros Hm. destruct (Zdigits2_bounds m Hm) as [ [Hd _] Hd0]. pose proof (proj2 (Z.sqrt_pos m) Hm) as Hs.
  split; [| lia]. destruct (Zdigits2_bounds (Z.sqrt m) ltac:(lia)) as [ [_ Hq] Hq0].
  set (k := (Zdigits2 m - 1) / 2). assert (2 ^ k <= Z.sqrt m) as Hk.
  { assert (0 <= k) as Hk0 by (unfold k; apply Z.div_pos; lia).
    rewrite <- (Z.sqrt_square (2 ^ k)) by (apply Z.pow_nonneg; lia). apply Z.sqrt_le_mono. rewrite <- Z.pow_add_r by lia.
    etransitivity; [| exact Hd]. apply Z.pow_le_mono_r; [lia |]. unfold k. pose proof (Z.mul_div_le (Zdigits2 m - 1) 2). lia. }
  assert (k < Zdigits2 (Z.sqrt m)) as Hlt by (apply (Z.pow_lt_mono_r_iff 2); lia).
  replace ((Zdigits2 m + 1) / 2) with (k + 1); [lia |]. unfold k.
  rewrite <- (Z.div_add (Zdigits2 m - 1) 1 2) by lia. f_equal. lia.
Qed.

(** A square root that is a number is not negative, and has a full mantissa. *)
Definition magnitude (x : f64) : Prop := x = S754_infinity false \/ (nonneg x = true /\ canonical x).

Lemma magnitude_not_nan x : magnitude x -> not_nan x.
Proof. intros [-> | [H _] ] E; [done | by rewrite E in H]. Qed.

Lemma shiftl_digits m s : 0 < m -> 0 <= s -> Zdigits2 (m * 2 ^ s) = Zdigits2 m + s.
Proof.
  intros Hm Hs. pose proof (Z.pow_pos_nonneg 2 s ltac:(lia) Hs) as Hp.
  destruct (Zdigits2_bounds m Hm) as [ [H1 H2] H3]. destruct (Zdigits2_bounds (m * 2 ^ s) ltac:(nia)) as [ [H4 H5] H6].
  apply Z.le_antisymm.
  - assert (Zdigits2 (m * 2 ^ s) - 1 < Zdigits2 m + s); [| lia]. apply (Z.pow_lt_mono_r_iff 2); [lia | lia |].
    rewrite Z.pow_add_r by lia. nia.
  - assert (Zdigits2 m - 1 + s < Zdigits2 (m * 2 ^ s)); [| lia]. apply (Z.pow_lt_mono_r_iff 2); [lia | lia |].
    rewrite Z.pow_add_r by lia. nia.
Qed.

Lemma sqrt_magnitude x : not_nan (SFsqrt 53 1024 x) -> magnitude (SFsqrt 53 1024 x).
Proof.
  intros Hn. destruct x as [s | [] | | [] mx ex]; try done; [by right | by left |]. clear Hn.
  cbn [SFsqrt]. unfold SFsqrt_core_binary. set (d := Zdigits2 (Zpos mx)).
  set (e' := Z.min (fexp64 (Z.div2 (d + ex + 1))) (Z.div2 ex)). set (s := ex - 2 * e').
  assert (0 <= s) as Hs by (unfold s, e'; rewrite !Z.div2_div; pose proof (Z.mul_div_le ex 2); lia).
  assert ((match s with Zpos _ => Z.shiftl (Zpos mx) s | Z0 => Zpos mx | Zneg _ => Z0 end) = Zpos mx * 2 ^ s) as ->.
  { destruct s as [| p | p]; [lia | by rewrite Z.shiftl_mul_pow2 by lia | lia]. }
  set (m' := Zpos mx * 2 ^ s). assert (0 < m') as Hm' by (unfold m'; pose proof (Z.pow_pos_nonneg 2 s); lia).
  pose proof (Z.sqrtrem_sqrt m') as Hq. destruct (Z.sqrtrem m') as [q r]. cbn [fst] in Hq. subst q.
  destruct (sqrt_digits m' Hm') as [Hdig Hpos]. unfold m' in Hdig at 1. rewrite shiftl_digits in Hdig by lia. fold d in Hdig.
  assert (canonical (binary_round_aux 53 1024 false (Z.sqrt m') e'
    (if r =? 0 then loc_Exact else loc_Inexact (if r <=? Z.sqrt m' then Lt else Gt)))) as Hc.
  { apply binary_round_aux_canonical; [done |]. transitivity (fexp64 (Z.div2 (d + ex + 1))); [unfold e'; lia |].
    rewrite !fexp64_eq, Z.div2_div. assert ((d + ex + 1) / 2 = (d + s + 1) / 2 + e'); [| lia].
    rewrite <- Z.div_add by lia. f_equal. unfold s. lia. }
  destruct (binary_round_aux_positive (Z.sqrt m') e'
    (if r =? 0 then loc_Exact else loc_Inexact (if r <=? Z.sqrt m' then Lt else Gt)) ltac:(lia)) as [H | H]; [by right | by left].
Qed.

(** Between a number with a full mantissa and a valid one, less means less. *)
Lemma flt_fval x y : nonneg x = true -> nonneg y = true -> canonical x -> valid y -> flt y x = true -> fval y < fval x.
Proof.
  intros Hx Hy Cx Vy H. apply flt_key in H; [| by intros -> | by intros ->].
  destruct x as [sx | | | [] mx ex], y as [sy | | | [] my ey]; try done; cbn [fkey lex_lt fval cond_Zopp canonical valid] in *; try lia.
  destruct Cx as (_ & [He _] & Hm), Vy as (Hy53 & Hey & _).
  assert (0 < 2 ^ (ex + 1074)) as Px by (apply Z.pow_pos_nonneg; lia).
  assert (0 < 2 ^ (ey + 1074)) as Py by (apply Z.pow_pos_nonneg; lia).
  destruct H as [| [_ [H | [-> H] ] ] ]; [lia | | by apply Z.mul_lt_mono_pos_r].
  destruct Hm as [Hm | ->]; [| lia]. apply Z.lt_le_trans with (2 ^ 53 * 2 ^ (ey + 1074)); [by apply Z.mul_lt_mono_pos_r |].
  apply Z.le_trans with (2 ^ 52 * 2 ^ (ex + 1074)); [| apply Z.mul_le_mono_nonneg_r; lia].
  rewrite <- !Z.pow_add_r by lia. apply Z.pow_le_mono_r; lia.
Qed.

(** A sum of two numbers that are not negative is not less than either, even if
    it is too large. *)
Lemma binary_normalize_above m e s lo :
  0 <= m -> -1074 <= e -> dbl lo -> lo <= m * 2 ^ (e + 1074) ->
  let x := binary_normalize 53 1024 m e s in x = S754_infinity false \/ (nonneg x = true /\ valid x /\ lo <= fval x).
Proof.
  intros Hm He Hlo Hle. cbv zeta. destruct m as [| p | p]; [by right | | lia].
  cbn [binary_normalize]. unfold binary_round. rewrite fexp64_eq.
  pose proof (shl_align_spec p e (Z.max (Zpos (digits2_pos p) + e - 53) (-1074))) as H.
  destruct (shl_align p e _) as [p' e'] eqn:E. destruct H as [He' Hp'].
  assert (lo * 2 ^ 0 <= Zpos p' * 2 ^ (e' + 1074)) as Hle'.
  { rewrite Hp', <- Z.mul_assoc, <- Z.pow_add_r by lia. replace (e - Z.min e _ + (e' + 1074)) with (e + 1074) by lia. lia. }
  pose proof (binary_round_aux_valid false (Zpos p') e' loc_Exact ltac:(lia)) as Hv.
  destruct (binary_round_aux_positive (Zpos p') e' loc_Exact ltac:(lia)) as [Hn | Hn]; [| by left]. right.
  split; [done |]. split; [done |]. revert Hn.
  destruct (binary_round_aux_spec false (Zpos p') e' loc_Exact ltac:(lia)) as (q & e1 & Hr & ->).
  pose proof (rounded_ge (Zpos p') e' q e1 0 (e' + 1074) ltac:(lia) ltac:(lia) ltac:(lia) ltac:(lia) Hr lo Hlo Hle') as Hq.
  pose proof (rounded_min _ _ _ _ _ Hr) as Hmin.
  destruct (Z.eqb_spec q (2 ^ 53)) as [-> | Hne].
  - change (2 ^ 52) with (Zpos (2 ^ 52)). cbn [pack_float]. destruct (e1 + 1 <=? 971); [| done]. intros _. cbn [fval cond_Zopp].
    change (Zpos (2 ^ 52)) with (2 ^ 52). replace (2 ^ 52 * 2 ^ (e1 + 1 + 1074)) with (2 ^ 53 * 2 ^ (e1 + 1074)); [done |].
    rewrite <- !Z.pow_add_r by lia. f_equal. lia.
  - destruct q as [| k | k]; [intros _; cbn; lia | | done]. cbn [pack_float]. by destruct (e1 <=? 971).
Qed.

Lemma canonical_valid x : canonical x -> valid x.
Proof. destruct x; cbn; tauto. Qed.

Lemma valid_dbl x : nonneg x = true -> valid x -> dbl (fval x).
Proof.
  destruct x as [s | | | [] m e]; try done; cbn [fval cond_Zopp valid].
  - intros _ _. exists 0, 0. lia.
  - intros _ [Hm He]. exists (Zpos m), (e + 1074). lia.
Qed.

Lemma add_not_less x y : magnitude x -> nonneg y = true -> valid y -> not_nan (f64_add x y) /\ flt (f64_add x y) x = false.
Proof.
  intros [-> | [Nx Cx]] Ny Vy.
  { destruct y as [sy | | | [] my ey]; try done. }
  assert (f64_add x y = S754_infinity false \/ nonneg (f64_add x y) = true /\ valid (f64_add x y) /\ fval x <= fval (f64_add x y)) as H.
  { pose proof (valid_dbl x Nx (canonical_valid x Cx)) as Dx. unfold f64_add.
    destruct x as [[] | | | [] mx ex], y as [[] | | | [] my ey]; try done; cbn [canonical valid fval cond_Zopp SFadd] in *;
      try (right; split; [done |]; split; [tauto | cbn; lia]).
    set (ez := Z.min ex ey).
    pose proof (shl_align_spec mx ex ez) as H1. pose proof (shl_align_spec my ey ez) as H2.
    destruct (shl_align mx ex ez) as [px e1], (shl_align my ey ez) as [py e2]. cbn [fst]. destruct H1 as [_ H1], H2 as [_ H2].
    apply binary_normalize_above; try lia; try done. rewrite H1, Z.mul_add_distr_r, <- !Z.mul_assoc, <- !Z.pow_add_r by lia.
    replace (ex - Z.min ex ez + (ez + 1074)) with (ex + 1074) by lia. pose proof (Z.pow_nonneg 2 (ez + 1074)). lia. }
  destruct H as [-> | (N & V & Hle)].
  - split; [done |]. by destruct x as [[] | | | [] mx ex].
  - split; [by intros E; rewrite E in N |]. apply not_true_iff_false. intros Hlt. apply flt_fval in Hlt; try done. lia.
Qed.
