(* ===== verification/Material.v ===== *)
(** The pure-material cell of the world grid: [core/MaterialType.h] and the
    state and queries of [core/Cell.{h,cpp}]. *)

From Stdlib Require Import ZArith Lia Bool.
From stdpp Require Import base option numbers list.
From S2P Require Import Prelude Ieee.

Set Default Goal Selector "!".

(** ** [Material::EnumType] (underlying type [uint8_t]) *)
Module Material.
Inductive EnumType := Air | Dirt | Leaf | Metal | Root | Sand | Seed | Wall | Water | Wood.

(** [static_cast] of an enumerator to its underlying value. *)
Definition to_Z (m : EnumType) : Z :=
  match m with
  | Air => 0 | Dirt => 1 | Leaf => 2 | Metal => 3 | Root => 4
  | Sand => 5 | Seed => 6 | Wall => 7 | Water => 8 | Wood => 9
  end.

#[export] Instance EnumType_eq_dec : EqDecision EnumType.
Proof. solve_decision. Defined.

Lemma to_Z_range (m : EnumType) : 0 <= to_Z m < 10.
Proof. destruct m; simpl; lia. Qed.

#[export] Instance to_Z_inj : Inj eq eq to_Z.
Proof. by intros [] []. Qed.
End Material.

(** ** [Vector2f] *)
Record Vector2f := mkVector2f { vx : f32; vy : f32 }.
Definition vec2f_zero : Vector2f := mkVector2f fzero fzero.

(** [mag()]: [std::sqrt(x * x + y * y)] in [float]. *)
Definition Vector2f_mag (v : Vector2f) : f32 :=
  f32_sqrt (f32_add (f32_mul (vx v) (vx v)) (f32_mul (vy v) (vy v))).

(** ** [Cell] *)
Module Cell.
Import Material.

Record t := mk {
  material_type : EnumType;
  fill_ratio : f32;
  com : Vector2f;
  velocity : Vector2f;
  pressure : f32;
  static_load : f32;
  pressure_gradient : Vector2f;
  pending_force : Vector2f;
  render_as : Z;
  color_ : Z
}.

Definition MIN_FILL_THRESHOLD : f32 := f32_lit 1 1000.
Definition MAX_FILL_THRESHOLD : f32 := f32_lit 999 1000.

(** [Cell{}]. *)
Definition default : t :=
  mk Air fzero vec2f_zero vec2f_zero fzero fzero vec2f_zero vec2f_zero (-1) 0x000000FF.

Definition isEmpty (c : t) : bool := flt (fill_ratio c) MIN_FILL_THRESHOLD.
Definition isFull (c : t) : bool := fgt (fill_ratio c) MAX_FILL_THRESHOLD.
Definition isAir (c : t) : bool := bool_decide (material_type c = Air).
Definition isWall (c : t) : bool := bool_decide (material_type c = Wall).
End Cell.
