(* ===== verification/Bitmaps.v ===== *)
(** Bit-packed 8x8 block bitmaps and the 3x3 neighbourhoods cut out of them:
    [apps/src/core/bitmaps/].

    Modules [CellBitmap], [Neighborhood3x3], [EmptyNeighborhood] and
    [MaterialNeighborhood] carry the state and the member functions of the
    classes of the same name.  The words are [Z] values below [2^64], the blocks
    a vector indexed with [vec_get]/[vec_set], so that an access outside the
    vector is the fault [OutOfBounds]. *)

From Stdlib Require Import ZArith Lia Bool String.
From stdpp Require Import base gmap option numbers list.
From S2P Require Import Prelude.

Set Default Goal Selector "!".

(** ** [core/bitmaps/Neighborhood3x3.h] *)
Module Neighborhood3x3.

Record t := mk { data : Z }.

Definition NW : Z := 0.
Definition N : Z := 1.
Definition NE : Z := 2.
Definition W : Z := 3.
Definition C : Z := 4.
Definition E : Z := 5.
Definition SW : Z := 6.
Definition S : Z := 7.
Definition SE : Z := 8.

Definition BIT_TO_OFFSET : list (Z * Z) :=
  [ (-1, -1); (0, -1); (1, -1);
    (-1, 0); (0, 0); (1, 0);
    (-1, 1); (0, 1); (1, 1) ].

Definition bit_pos (dx dy : Z) : Z := (dy + 1) * 3 + (dx + 1).

Definition getValueLayer (n : t) : Z := u16 (Z.land (data n) 0x1FF).
Definition getValidLayer (n : t) : Z := u16 (Z.land (Z.shiftr (data n) 9) 0x1FF).

Definition getAt (n : t) (dx dy : Z) : bool :=
  nonzero (Z.land (Z.shiftr (data n) (bit_pos dx dy)) 1).
Definition isValidAt (n : t) (dx dy : Z) : bool :=
  nonzero (Z.land (Z.shiftr (data n) (9 + bit_pos dx dy)) 1).
Definition hasAt (n : t) (dx dy : Z) : bool := isValidAt n dx dy && getAt n dx dy.

Definition valueBit (n : t) (p : Z) : bool := nonzero (Z.land (Z.shiftr (data n) p) 1).
Definition validBit (n : t) (p : Z) : bool := nonzero (Z.land (Z.shiftr (data n) (9 + p)) 1).

Definition north (n : t) := valueBit n N.
Definition south (n : t) := valueBit n S.
Definition east (n : t) := valueBit n E.
Definition west (n : t) := valueBit n W.
Definition center (n : t) := valueBit n C.
Definition northEast (n : t) := valueBit n NE.
Definition northWest (n : t) := valueBit n NW.
Definition southEast (n : t) := valueBit n SE.
Definition southWest (n : t) := valueBit n SW.

Definition northValid (n : t) := validBit n N.
Definition southValid (n : t) := validBit n S.
Definition eastValid (n : t) := validBit n E.
Definition westValid (n : t) := validBit n W.
Definition centerValid (n : t) := validBit n C.
Definition northEastValid (n : t) := validBit n NE.
Definition northWestValid (n : t) := validBit n NW.
Definition southEastValid (n : t) := validBit n SE.
Definition southWestValid (n : t) := validBit n SW.

(** [__builtin_popcount] of an [unsigned int]. *)
Fixpoint popcount_aux (fuel : nat) (i z : Z) : Z :=
  match fuel with
  | O => 0
  | Datatypes.S fuel' => Z.b2z (Z.testbit z i) + popcount_aux fuel' (i + 1) z
  end.
Definition builtin_popcount (z : Z) : Z := popcount_aux 32 0 z.

Definition countValidNeighbors (n : t) : Z :=
  let valid := getValidLayer n in
  builtin_popcount (u32 (Z.land valid (Z.lnot (Z.shiftl 1 C)))).
Definition countTrueNeighbors (n : t) : Z :=
  let values := getValueLayer n in
  builtin_popcount (u32 (Z.land values (Z.lnot (Z.shiftl 1 C)))).
Definition allValidNeighborsTrue (n : t) : bool :=
  let valid := u16 (Z.land (getValidLayer n) (Z.lnot (Z.shiftl 1 C))) in
  let values := u16 (Z.land (getValueLayer n) (Z.lnot (Z.shiftl 1 C))) in
  Z.land values valid =? valid.

End Neighborhood3x3.

(** ** [core/bitmaps/EmptyNeighborhood.{h,cpp}]: value bit 1 means "empty" *)
Module EmptyNeighborhood.
Import Neighborhood3x3.

Record t := mk { data_ : Neighborhood3x3.t }.

Definition raw (e : t) : Neighborhood3x3.t := data_ e.
Definition exists_ (e : t) (dx dy : Z) : bool := isValidAt (data_ e) dx dy.
Definition isEmpty (e : t) (dx dy : Z) : bool :=
  isValidAt (data_ e) dx dy && getAt (data_ e) dx dy.
Definition hasMaterial (e : t) (dx dy : Z) : bool :=
  isValidAt (data_ e) dx dy && negb (getAt (data_ e) dx dy).

Definition getValidWithMaterialMask (e : t) : Z :=
  let valid := getValidLayer (data_ e) in
  let empty := getValueLayer (data_ e) in
  u16 (Z.land valid (Z.lnot empty)).
Definition centerHasMaterial (e : t) : bool :=
  nonzero (Z.land (getValidWithMaterialMask e) (Z.shiftl 1 4)).
Definition getMaterialNeighborsBitGrid (e : t) : Z :=
  u16 (Z.land (getValidWithMaterialMask e) (Z.lnot (Z.shiftl 1 4))).
Definition countValidNeighbors (e : t) : Z := Neighborhood3x3.countValidNeighbors (data_ e).
Definition countMaterialNeighbors (e : t) : Z :=
  builtin_popcount (getMaterialNeighborsBitGrid e).
Definition countEmptyNeighbors (e : t) : Z := countTrueNeighbors (data_ e).
Definition allNeighborsEmpty (e : t) : bool := allValidNeighborsTrue (data_ e).

Definition northExists (e : t) := northValid (data_ e).
Definition southExists (e : t) := southValid (data_ e).
Definition eastExists (e : t) := eastValid (data_ e).
Definition westExists (e : t) := westValid (data_ e).
Definition northIsEmpty (e : t) := northValid (data_ e) && north (data_ e).
Definition southIsEmpty (e : t) := southValid (data_ e) && south (data_ e).
Definition eastIsEmpty (e : t) := eastValid (data_ e) && east (data_ e).
Definition westIsEmpty (e : t) := westValid (data_ e) && west (data_ e).
Definition northHasMaterial (e : t) := northValid (data_ e) && negb (north (data_ e)).
Definition southHasMaterial (e : t) := southValid (data_ e) && negb (south (data_ e)).
Definition eastHasMaterial (e : t) := eastValid (data_ e) && negb (east (data_ e)).
Definition westHasMaterial (e : t) := westValid (data_ e) && negb (west (data_ e)).

End EmptyNeighborhood.

(** ** [core/bitmaps/MaterialNeighborhood.{h,cpp}]

    A [Material::EnumType] read back from four bits is its underlying value
    ([static_cast] does not check the range), a [Z] below 16. *)
Module MaterialNeighborhood.

Record t := mk { data_ : Z }.
Definition BITS_PER_MATERIAL : Z := 4.
Definition raw (m : t) : Z := data_ m.

Definition getMaterialByBitPos (m : t) (bit_pos : Z) : Z :=
  let shift := bit_pos * BITS_PER_MATERIAL in
  u8 (Z.land (Z.shiftr (data_ m) shift) 0xF).
Definition getMaterial (m : t) (dx dy : Z) : Z :=
  let bit_pos := (dy + 1) * 3 + (dx + 1) in
  getMaterialByBitPos m bit_pos.
Definition getCenterMaterial (m : t) : Z := getMaterialByBitPos m 4.

Definition north (m : t) : Z := getMaterial m 0 (-1).
Definition south (m : t) : Z := getMaterial m 0 1.
Definition east (m : t) : Z := getMaterial m 1 0.
Definition west (m : t) : Z := getMaterial m (-1) 0.
Definition northEast (m : t) : Z := getMaterial m 1 (-1).
Definition northWest (m : t) : Z := getMaterial m (-1) (-1).
Definition southEast (m : t) : Z := getMaterial m 1 1.
Definition southWest (m : t) : Z := getMaterial m (-1) 1.

(** [for (int i = 0; i < 9; ++i) { if (i == 4) continue; ... ++count; }] *)
Definition countMaterial (m : t) (material : Z) : Z :=
  fold_left (fun count i =>
      if i =? 4 then count
      else if u8 (Z.land (Z.shiftr (data_ m) (i * BITS_PER_MATERIAL)) 0xF) =? material
      then count + 1 else count)
    (seqZ 0 9) 0.

(** The loop returns false at the first neighbour that differs. *)
Fixpoint allSame_loop (m : t) (material : Z) (idxs : list Z) : bool :=
  match idxs with
  | [] => true
  | i :: idxs' =>
      if i =? 4 then allSame_loop m material idxs'
      else if negb (u8 (Z.land (Z.shiftr (data_ m) (i * BITS_PER_MATERIAL)) 0xF) =? material)
      then false else allSame_loop m material idxs'
  end.
Definition allNeighborsSameMaterial (m : t) (material : Z) : bool :=
  allSame_loop m material (seqZ 0 9).
Definition isSurroundedBySameMaterial (m : t) : bool :=
  let center_mat := getCenterMaterial m in
  allNeighborsSameMaterial m center_mat.

End MaterialNeighborhood.

(** ** [core/bitmaps/CellBitmap.{h,cpp}] *)
Module CellBitmap.

Record t := mk {
  grid_width_ : Z;
  grid_height_ : Z;
  blocks_x_ : Z;
  blocks_y_ : Z;
  blocks_ : list Z
}.

Definition BLOCK_SIZE : Z := 8.

(** The constructor; [resize] with a negative product converts it to a
    [size_t] no vector can hold. *)
Definition make (width height : Z) : res t :=
  let bx := s16 (Z.quot (width + BLOCK_SIZE - 1) BLOCK_SIZE) in
  let by_ := s16 (Z.quot (height + BLOCK_SIZE - 1) BLOCK_SIZE) in
  if bx * by_ <? 0 then Fault LengthError
  else Ok (mk (s16 width) (s16 height) bx by_ (replicate (Z.to_nat (bx * by_)) 0)).

Definition cellToBlockAndBit (b : t) (x y : Z) : Z * Z :=
  let block_x := Z.shiftr x 3 in
  let block_y := Z.shiftr y 3 in
  let block_idx := block_y * blocks_x_ b + block_x in
  let local_x := Z.land x 7 in
  let local_y := Z.land y 7 in
  let bit_idx := Z.lor (Z.shiftl local_y 3) local_x in
  (block_idx, bit_idx).

Definition with_blocks (b : t) (bs : list Z) : t :=
  mk (grid_width_ b) (grid_height_ b) (blocks_x_ b) (blocks_y_ b) bs.

Definition set (b : t) (x y : Z) : res t :=
  let '(block_idx, bit_idx) := cellToBlockAndBit b x y in
  let! w := vec_get (blocks_ b) block_idx in
  let! bs := vec_set (blocks_ b) block_idx (Z.lor w (Z.shiftl 1 bit_idx)) in
  Ok (with_blocks b bs).

Definition clear (b : t) (x y : Z) : res t :=
  let '(block_idx, bit_idx) := cellToBlockAndBit b x y in
  let! w := vec_get (blocks_ b) block_idx in
  let! bs := vec_set (blocks_ b) block_idx (Z.land w (u64 (Z.lnot (Z.shiftl 1 bit_idx)))) in
  Ok (with_blocks b bs).

Definition isSet (b : t) (x y : Z) : res bool :=
  let '(block_idx, bit_idx) := cellToBlockAndBit b x y in
  let! w := vec_get (blocks_ b) block_idx in
  Ok (nonzero (Z.land (Z.shiftr w bit_idx) 1)).

Definition getBlock (b : t) (block_x block_y : Z) : res Z :=
  let block_idx := block_y * blocks_x_ b + block_x in
  vec_get (blocks_ b) block_idx.

Definition isBlockAllSet (b : t) (block_x block_y : Z) : res bool :=
  let! w := getBlock b block_x block_y in Ok (w =? 0xFFFFFFFFFFFFFFFF).

Definition isBlockAllClear (b : t) (block_x block_y : Z) : res bool :=
  let! w := getBlock b block_x block_y in Ok (w =? 0).

(** The slow path: nine [isSet] probes, each behind the grid bounds. *)
Definition slow_cell (b : t) (x y dx dy result : Z) : res Z :=
  let bit_pos := (dy + 1) * 3 + (dx + 1) in
  let nx := x + dx in
  let ny := y + dy in
  if (0 <=? nx) && (nx <? grid_width_ b) && (0 <=? ny) && (ny <? grid_height_ b) then
    let result := Z.lor result (Z.shiftl 1 (9 + bit_pos)) in
    let! v := isSet b nx ny in
    Ok (if v then Z.lor result (Z.shiftl 1 bit_pos) else result)
  else Ok result.

Definition slow_path (b : t) (x y : Z) : res Z :=
  for_range (-1) 2 (fun dy r => for_range (-1) 2 (fun dx r => slow_cell b x y dx dy r) r) 0.

(** The fast path: three shifts and masks of the one block that holds the
    whole neighbourhood. *)
Definition fast_path (block local_x local_y : Z) : Z :=
  let base_bit := Z.lor (Z.shiftl (local_y - 1) 3) (local_x - 1) in
  let row0 := u16 (Z.land (Z.shiftr block base_bit) 7) in
  let row1 := u16 (Z.land (Z.shiftr block (base_bit + 8)) 7) in
  let row2 := u16 (Z.land (Z.shiftr block (base_bit + 16)) 7) in
  let value_layer := Z.lor (Z.lor row0 (Z.shiftl row1 3)) (Z.shiftl row2 6) in
  let valid_layer := 0x1FF in
  Z.lor value_layer (Z.shiftl valid_layer 9).

Definition fast_path_applies (b : t) (x y : Z) : bool :=
  let local_x := Z.land x 7 in
  let local_y := Z.land y 7 in
  (1 <=? local_x) && (local_x <=? 6) && (1 <=? local_y) && (local_y <=? 6)
  && ((1 <=? x) && (x <? grid_width_ b - 1) && (1 <=? y) && (y <? grid_height_ b - 1)).

Definition getNeighborhood3x3 (b : t) (x y : Z) : res Neighborhood3x3.t :=
  let block_x := Z.shiftr x 3 in
  let block_y := Z.shiftr y 3 in
  if fast_path_applies b x y then
    let! block := getBlock b block_x block_y in
    Ok (Neighborhood3x3.mk (fast_path block (Z.land x 7) (Z.land y 7)))
  else
    let! result := slow_path b x y in
    Ok (Neighborhood3x3.mk result).

Definition getWidth (b : t) : Z := grid_width_ b.
Definition getHeight (b : t) : Z := grid_height_ b.
Definition getBlocksX (b : t) : Z := blocks_x_ b.
Definition getBlocksY (b : t) : Z := blocks_y_ b.

End CellBitmap.

(** ** Specification of the bitmaps

    A bitmap stands for a predicate on the cells of its grid; a 3x3
    neighbourhood word stands for nine validity bits and nine value bits. *)
Definition in_grid (w h x y : Z) : bool := (0 <=? x) && (x <? w) && (0 <=? y) && (y <? h).

(** Point update of a predicate on cells. *)
Definition upd (P : Z -> Z -> bool) (x y : Z) (v : bool) (x' y' : Z) : bool :=
  if (x =? x') && (y =? y') then v else P x' y'.

(** Position [p] of a 3x3 neighbourhood around [(x, y)], row major. *)
Definition nb_x (x p : Z) : Z := x + (p mod 3 - 1).
Definition nb_y (y p : Z) : Z := y + (p / 3 - 1).
Definition nb_valid (w h x y p : Z) : bool := in_grid w h (nb_x x p) (nb_y y p).
Definition nb_value (w h : Z) (P : Z -> Z -> bool) (x y p : Z) : bool :=
  nb_valid w h x y p && P (nb_x x p) (nb_y y p).

(** The reference neighbourhood word: values in bits 0-8, validity in 9-17. *)
Definition nb_bit (w h : Z) (P : Z -> Z -> bool) (x y i : Z) : bool :=
  if i <? 9 then nb_value w h P x y i else nb_valid w h x y (i - 9).
Definition nb_word (w h : Z) (P : Z -> Z -> bool) (x y : Z) : Z :=
  pack 18 (nb_bit w h P x y).

(** The blocks of a well-formed bitmap are exactly the 8x8 tiles of its grid. *)
Definition bitmap_wf (b : CellBitmap.t) : Prop :=
  let w := CellBitmap.grid_width_ b in
  let h := CellBitmap.grid_height_ b in
  0 <= w <= 32767 /\ 0 <= h <= 32767 /\
  CellBitmap.blocks_x_ b = (w + 7) / 8 /\ CellBitmap.blocks_y_ b = (h + 7) / 8 /\
  Z.of_nat (length (CellBitmap.blocks_ b)) = CellBitmap.blocks_x_ b * CellBitmap.blocks_y_ b /\
  Forall (fun word => 0 <= word < 2 ^ 64) (CellBitmap.blocks_ b).

(** The cells the blocks can address: the grid rounded up to whole blocks. *)
Definition in_pad (b : CellBitmap.t) (x y : Z) : bool :=
  in_grid (8 * CellBitmap.blocks_x_ b) (8 * CellBitmap.blocks_y_ b) x y.

(** [models b w h P]: [b] is the bitmap of the cells of a [w] x [h] grid that
    satisfy [P]; the padding cells of the partial blocks are clear. *)
Definition models (b : CellBitmap.t) (w h : Z) (P : Z -> Z -> bool) : Prop :=
  bitmap_wf b /\ CellBitmap.grid_width_ b = w /\ CellBitmap.grid_height_ b = h /\
  forall x y, in_pad b x y = true -> CellBitmap.isSet b x y = Ok (in_grid w h x y && P x y).

Section CellBitmapFacts.
Import CellBitmap.
Implicit Types (b : CellBitmap.t) (x y w h : Z) (P : Z -> Z -> bool).

Lemma in_grid_iff w h x y : in_grid w h x y = true <-> 0 <= x < w /\ 0 <= y < h.
Proof. unfold in_grid. lia. Qed.

(** The shifts and masks are division and remainder by 8. *)
Lemma cellToBlockAndBit_eq b x y :
  cellToBlockAndBit b x y = (y / 8 * blocks_x_ b + x / 8, 8 * (y mod 8) + x mod 8).
Proof.
  unfold cellToBlockAndBit. rewrite !shiftr_3_div, !land_7_mod, shiftl_3_lor; [done |].
  apply Z.mod_pos_bound. lia.
Qed.

Lemma in_grid_in_pad b x y :
  bitmap_wf b -> in_grid (grid_width_ b) (grid_height_ b) x y = true -> in_pad b x y = true.
Proof.
  intros (Hw & Hh & Ex & Ey & _) Hg. apply in_grid_iff in Hg. apply in_grid_iff.
  rewrite Ex, Ey. Z.to_euclidean_division_equations. lia.
Qed.

Lemma block_idx_range b x y :
  bitmap_wf b -> in_pad b x y = true ->
  0 <= y / 8 * blocks_x_ b + x / 8 < Z.of_nat (length (blocks_ b)).
Proof.
  intros (Hw & Hh & Ex & Ey & El & _) Hg. apply in_grid_iff in Hg. rewrite El.
  assert (0 <= x / 8 < blocks_x_ b) by (Z.to_euclidean_division_equations; lia).
  assert (0 <= y / 8 < blocks_y_ b) by (Z.to_euclidean_division_equations; lia).
  nia.
Qed.

(** Distinct cells of the grid have distinct (block, bit) addresses. *)
Lemma address_inj b x y x' y' :
  in_pad b x y = true -> in_pad b x' y' = true ->
  cellToBlockAndBit b x y = cellToBlockAndBit b x' y' -> x = x' /\ y = y'.
Proof.
  intros Hg Hg'. apply in_grid_iff in Hg, Hg'.
  rewrite !cellToBlockAndBit_eq. intros [= E1 E2].
  assert (0 <= x / 8 < blocks_x_ b) by (Z.to_euclidean_division_equations; lia).
  assert (0 <= x' / 8 < blocks_x_ b) by (Z.to_euclidean_division_equations; lia).
  assert (y / 8 = y' / 8) by nia. assert (x / 8 = x' / 8) by nia.
  Z.to_euclidean_division_equations. lia.
Qed.

Lemma bit_idx_range x y : 0 <= 8 * (y mod 8) + x mod 8 < 64.
Proof. Z.to_euclidean_division_equations. lia. Qed.

(** Reading a cell reads one bit of one block. *)
Lemma isSet_block b x y word :
  blocks_ b !! Z.to_nat (y / 8 * blocks_x_ b + x / 8) = Some word ->
  0 <= y / 8 * blocks_x_ b + x / 8 ->
  isSet b x y = Ok (Z.testbit word (8 * (y mod 8) + x mod 8)).
Proof.
  intros Hl Hpos. unfold isSet. rewrite cellToBlockAndBit_eq.
  rewrite (vec_get_ok _ _ word) by done. simpl. rewrite nonzero_land_1; [done |].
  apply bit_idx_range.
Qed.

(** Writing a block keeps the bitmap well formed. *)
Lemma with_blocks_wf b i word :
  bitmap_wf b -> 0 <= word < 2 ^ 64 -> bitmap_wf (with_blocks b (<[i := word]> (blocks_ b))).
Proof.
  intros (Hw & Hh & Ex & Ey & El & Hall) Hword. unfold bitmap_wf, with_blocks. simpl.
  rewrite length_insert. repeat split; try lia.
  by apply Forall_insert.
Qed.

(** The common part of [set] and [clear]: replacing one block by a word that
    agrees with the old one on every bit but one updates one cell. *)
Lemma models_write b w h P x y old word v :
  models b w h P -> in_grid w h x y = true ->
  blocks_ b !! Z.to_nat (y / 8 * blocks_x_ b + x / 8) = Some old ->
  0 <= word < 2 ^ 64 ->
  (forall j, Z.testbit word j
     = if bool_decide (8 * (y mod 8) + x mod 8 = j) then v else Z.testbit old j) ->
  models (with_blocks b (<[Z.to_nat (y / 8 * blocks_x_ b + x / 8) := word]> (blocks_ b)))
    w h (upd P x y v).
Proof.
  intros (Hwf & <- & <- & Hget) Hg0 Hold Hword Hbits.
  pose proof (in_grid_in_pad b x y Hwf Hg0) as Hg.
  pose proof (block_idx_range b x y Hwf Hg) as Hidx.
  split; [by apply with_blocks_wf |]. split; [done |]. split; [done |].
  intros x' y' Hg'. change (in_pad b x' y' = true) in Hg'. simpl.
  pose proof (block_idx_range b x' y' Hwf Hg') as Hidx'.
  destruct (in_range_lookup _ _ Hidx') as [old' Hold'].
  specialize (Hget x' y' Hg'). rewrite (isSet_block b x' y' old') in Hget by (done || lia).
  injection Hget as Hget.
  pose proof (address_inj b x y x' y' Hg Hg') as Hinj.
  rewrite !cellToBlockAndBit_eq in Hinj.
  rewrite (isSet_block _ x' y'
    (if decide (y / 8 * blocks_x_ b + x / 8 = y' / 8 * blocks_x_ b + x' / 8)
     then word else old')); simpl; [| | lia].
  2: { rewrite lookup_insert_Z by lia. by case_decide. }
  f_equal. unfold upd.
  destruct (decide (x = x' /\ y = y')) as [[<- <-] | Hne].
  { rewrite decide_True, Hbits, bool_decide_true, !Z.eqb_refl, Hg0 by done. done. }
  replace ((x =? x') && (y =? y')) with false by lia. rewrite <- Hget.
  case_decide as Eidx; [| done]. rewrite Hbits, bool_decide_false.
  - rewrite Eidx in Hold. congruence.
  - intros Ebit. apply Hne, Hinj. congruence.
Qed.

Lemma pad_lookup b w h P x y :
  models b w h P -> in_pad b x y = true ->
  exists word, blocks_ b !! Z.to_nat (y / 8 * blocks_x_ b + x / 8) = Some word
    /\ 0 <= word < 2 ^ 64 /\ 0 <= y / 8 * blocks_x_ b + x / 8 < Z.of_nat (length (blocks_ b))
    /\ Z.testbit word (8 * (y mod 8) + x mod 8) = in_grid w h x y && P x y.
Proof.
  intros (Hwf & <- & <- & Hget) Hg.
  pose proof (block_idx_range b x y Hwf Hg) as Hidx.
  destruct (in_range_lookup _ _ Hidx) as [word Hword]. exists word.
  split; [done |]. split.
  - destruct Hwf as (_ & _ & _ & _ & _ & Hall).
    rewrite Forall_lookup in Hall. by eapply Hall.
  - split; [done |]. specialize (Hget x y Hg).
    rewrite (isSet_block b x y word) in Hget by (done || lia). congruence.
Qed.

Lemma block_lookup b w h P x y :
  models b w h P -> in_grid w h x y = true ->
  exists word, blocks_ b !! Z.to_nat (y / 8 * blocks_x_ b + x / 8) = Some word
    /\ 0 <= word < 2 ^ 64 /\ 0 <= y / 8 * blocks_x_ b + x / 8 < Z.of_nat (length (blocks_ b))
    /\ Z.testbit word (8 * (y mod 8) + x mod 8) = P x y.
Proof.
  intros Hm Hg. pose proof Hm as (Hwf & <- & <- & _).
  destruct (pad_lookup b _ _ P x y Hm) as (word & Hl & Hr & Hidx & Hbit);
    [by apply in_grid_in_pad |].
  rewrite Hg in Hbit. by exists word.
Qed.

Lemma models_isSet b w h P x y :
  models b w h P -> in_grid w h x y = true -> isSet b x y = Ok (P x y).
Proof.
  intros (Hwf & <- & <- & Hget) Hg. rewrite Hget, Hg by by apply in_grid_in_pad. done.
Qed.

Lemma models_set b w h P x y :
  models b w h P -> in_grid w h x y = true ->
  wp (set b x y) (fun b' => models b' w h (upd P x y true)).
Proof.
  intros Hm Hg. destruct (block_lookup b w h P x y Hm Hg) as (word & Hl & Hr & Hidx & _).
  unfold set. rewrite cellToBlockAndBit_eq, (vec_get_ok _ _ word) by (done || lia). simpl.
  rewrite vec_set_ok by done. simpl.
  eapply models_write; [done | done | done | | ].
  - apply lor_range; [lia | done | apply shiftl_1_range, bit_idx_range].
  - intros j. rewrite testbit_set by apply bit_idx_range. by case_bool_decide.
Qed.

Lemma models_clear b w h P x y :
  models b w h P -> in_grid w h x y = true ->
  wp (clear b x y) (fun b' => models b' w h (upd P x y false)).
Proof.
  intros Hm Hg. destruct (block_lookup b w h P x y Hm Hg) as (word & Hl & Hr & Hidx & _).
  unfold clear. rewrite cellToBlockAndBit_eq, (vec_get_ok _ _ word) by (done || lia). simpl.
  rewrite vec_set_ok by done. simpl.
  eapply models_write; [done | done | done | | ].
  - apply land_range; [lia | done].
  - intros j. rewrite testbit_clear by (done || lia || apply bit_idx_range).
    by case_bool_decide.
Qed.

Lemma models_make w h :
  0 <= w <= 32767 -> 0 <= h <= 32767 ->
  wp (make w h) (fun b => models b w h (fun _ _ => false)).
Proof.
  intros Hw Hh. unfold make, BLOCK_SIZE.
  assert (forall z, 0 <= z <= 32767 -> s16 (Z.quot (z + 8 - 1) 8) = (z + 7) / 8) as Eq.
  { intros z Hz. rewrite Z.quot_div_nonneg by lia.
    replace (z + 8 - 1) with (z + 7) by lia. apply wrap_s_small; [lia |].
    change (2 ^ (16 - 1)) with 32768. Z.to_euclidean_division_equations. lia. }
  rewrite !Eq, !wrap_s_small by (simpl; lia).
  assert (0 <= (w + 7) / 8) by (Z.to_euclidean_division_equations; lia).
  assert (0 <= (h + 7) / 8) by (Z.to_euclidean_division_equations; lia).
  replace (_ <? 0) with false by nia.
  assert (bitmap_wf (mk w h ((w + 7) / 8) ((h + 7) / 8)
    (replicate (Z.to_nat ((w + 7) / 8 * ((h + 7) / 8))) 0))) as Hwf.
  { repeat split; simpl; try lia; [rewrite length_replicate; nia |].
    by apply Forall_replicate. }
  split; [done |]. split; [done |]. split; [done |]. intros x y Hg.
  pose proof (block_idx_range _ x y Hwf Hg) as Hidx.
  rewrite (isSet_block _ x y 0); [by rewrite Z.bits_0, andb_false_r | | lia].
  simpl in *. rewrite length_replicate in Hidx. apply lookup_replicate. split; [done | lia].
Qed.
End CellBitmapFacts.

Section NeighborhoodFacts.
Import CellBitmap.
Implicit Types (b : CellBitmap.t) (x y w h : Z) (P : Z -> Z -> bool).

(** Bits of a neighbourhood word after its first [p] positions. *)
Definition nb_prefix w h P x y (p i : Z) : bool :=
  if i <? 9 then (i <? p) && nb_value w h P x y i
  else (i - 9 <? p) && nb_valid w h x y (i - 9).

Lemma nb_prefix_start w h P x y i : 0 <= i -> nb_prefix w h P x y 0 i = false.
Proof.
  intros Hi. unfold nb_prefix. destruct (i <? 9) eqn:Ei.
  - by replace (i <? 0) with false by lia.
  - by replace (i - 9 <? 0) with false by lia.
Qed.

(** A word with the bits of the full prefix is the reference word. *)
Lemma nb_prefix_full w h P x y r :
  (forall i, 0 <= i -> Z.testbit r i = nb_prefix w h P x y 9 i) -> r = nb_word w h P x y.
Proof.
  intros Hr. apply pack_unique. intros i Hi. rewrite Hr by done. unfold nb_prefix, nb_bit.
  destruct (i <? 9) eqn:Ei; [by rewrite bool_decide_true by lia |].
  case_bool_decide; [by replace (i - 9 <? 9) with true by lia |].
  by replace (i - 9 <? 9) with false by lia.
Qed.

(** Adding position [p] to a word: its validity bit, then its value bit. *)
Lemma nb_prefix_step w h P x y p r (v : bool) :
  0 <= p < 9 ->
  (forall i, 0 <= i -> Z.testbit r i = nb_prefix w h P x y p i) ->
  nb_valid w h x y p = true -> P (nb_x x p) (nb_y y p) = v ->
  forall i, 0 <= i ->
    Z.testbit (if v then Z.lor (Z.lor r (Z.shiftl 1 (9 + p))) (Z.shiftl 1 p)
               else Z.lor r (Z.shiftl 1 (9 + p))) i
    = nb_prefix w h P x y (p + 1) i.
Proof.
  intros Hp Hr Hv <- i Hi.
  replace (Z.testbit (if P (nb_x x p) (nb_y y p) then _ else _) i) with
    (bool_decide (p = i) && P (nb_x x p) (nb_y y p)
     || (bool_decide (9 + p = i) || nb_prefix w h P x y p i)).
  2: { rewrite <- Hr by done. destruct (P (nb_x x p) (nb_y y p)); rewrite ?testbit_set by lia.
       - by rewrite andb_true_r.
       - by rewrite andb_false_r. }
  unfold nb_prefix. destruct (i <? 9) eqn:Ei.
  - rewrite (bool_decide_false (9 + p = i)) by lia. simpl.
    case_bool_decide as E.
    + subst i. replace (p <? p) with false by lia. replace (p <? p + 1) with true by lia.
      unfold nb_value. rewrite Hv. simpl. apply orb_false_r.
    + replace (i <? p + 1) with (i <? p) by lia. done.
  - rewrite (bool_decide_false (p = i)) by lia. simpl. case_bool_decide as E.
    + subst i. replace (9 + p - 9) with p by lia. replace (p <? p + 1) with true by lia.
      by rewrite Hv.
    + replace (i - 9 <? p + 1) with (i - 9 <? p) by lia. done.
Qed.

(** A position outside the grid adds nothing. *)
Lemma nb_prefix_skip w h P x y p i :
  0 <= i -> nb_valid w h x y p = false ->
  nb_prefix w h P x y (p + 1) i = nb_prefix w h P x y p i.
Proof.
  intros Hi Hv. unfold nb_prefix, nb_value. destruct (i <? 9) eqn:Ei.
  - destruct (decide (i = p)) as [-> |]; [by rewrite Hv, !andb_false_r |].
    by replace (i <? p + 1) with (i <? p) by lia.
  - destruct (decide (i - 9 = p)) as [-> |]; [by rewrite Hv, !andb_false_r |].
    by replace (i - 9 <? p + 1) with (i - 9 <? p) by lia.
Qed.

(** Position [(dx, dy)] of the neighbourhood. *)
Lemma bit_pos_range dx dy :
  -1 <= dx <= 1 -> -1 <= dy <= 1 ->
  0 <= Neighborhood3x3.bit_pos dx dy < 9 /\
  (forall x, nb_x x (Neighborhood3x3.bit_pos dx dy) = x + dx) /\
  (forall y, nb_y y (Neighborhood3x3.bit_pos dx dy) = y + dy).
Proof.
  intros Hdx Hdy. unfold Neighborhood3x3.bit_pos, nb_x, nb_y.
  repeat split; try (intros; Z.to_euclidean_division_equations); lia.
Qed.

(** The double loop over [dy] and [dx] visits positions 0 to 8 in order. *)
Lemma wp_nine {S} (I : Z -> S -> Prop) (body : Z -> Z -> S -> res S) (s : S) :
  I 0 s ->
  (forall dx dy s', -1 <= dx <= 1 -> -1 <= dy <= 1 -> I (Neighborhood3x3.bit_pos dx dy) s' ->
     wp (body dx dy s') (I (Neighborhood3x3.bit_pos dx dy + 1))) ->
  wp (for_range (-1) 2 (fun dy s => for_range (-1) 2 (fun dx s => body dx dy s) s) s) (I 9).
Proof.
  intros H0 Hstep.
  apply (wp_for_range (fun dy s => I ((dy + 1) * 3) s)); [lia | done |].
  intros dy s' Hdy Hs'. replace ((dy + 1 + 1) * 3) with ((dy + 1) * 3 + (2 + 1)) by lia.
  apply (wp_for_range (fun dx s => I ((dy + 1) * 3 + (dx + 1)) s)); [lia | |].
  - by replace ((dy + 1) * 3 + (-1 + 1)) with ((dy + 1) * 3) by lia.
  - intros dx s'' Hdx Hs''. rewrite Z.add_assoc. apply Hstep; [lia | lia | done].
Qed.

Lemma slow_cell_step b w h P x y dx dy r :
  models b w h P -> -1 <= dx <= 1 -> -1 <= dy <= 1 ->
  (forall i, 0 <= i -> Z.testbit r i
     = nb_prefix w h P x y (Neighborhood3x3.bit_pos dx dy) i) ->
  wp (slow_cell b x y dx dy r) (fun r' => forall i, 0 <= i ->
    Z.testbit r' i = nb_prefix w h P x y (Neighborhood3x3.bit_pos dx dy + 1) i).
Proof.
  intros Hm Hdx Hdy Hr. pose proof Hm as (Hwf & Ew & Eh & _).
  destruct (bit_pos_range dx dy Hdx Hdy) as (Hp & Ex & Ey).
  unfold slow_cell. fold (Neighborhood3x3.bit_pos dx dy).
  set (p := Neighborhood3x3.bit_pos dx dy) in *.
  rewrite Ew, Eh. fold (in_grid w h (x + dx) (y + dy)).
  assert (nb_valid w h x y p = in_grid w h (x + dx) (y + dy)) as Ev
    by (unfold nb_valid; by rewrite Ex, Ey).
  destruct (in_grid w h (x + dx) (y + dy)) eqn:Hg.
  - rewrite (models_isSet b w h P) by done. cbn [rbind wp].
    apply nb_prefix_step; [done | done | done | by rewrite Ex, Ey].
  - intros i Hi. by rewrite nb_prefix_skip, Hr by done.
Qed.

(** The nine probes assemble the reference word. *)
Lemma slow_path_ok b w h P x y :
  models b w h P -> slow_path b x y = Ok (nb_word w h P x y).
Proof.
  intros Hm.
  assert (wp (slow_path b x y)
    (fun r => forall i, 0 <= i -> Z.testbit r i = nb_prefix w h P x y 9 i)) as H.
  { unfold slow_path.
    apply (wp_nine (fun p r => forall i, 0 <= i -> Z.testbit r i = nb_prefix w h P x y p i)).
    - intros i Hi. by rewrite Z.bits_0, nb_prefix_start.
    - intros dx dy r Hdx Hdy Hr. by apply slow_cell_step. }
  apply wp_elim in H as (r & -> & Hr). f_equal. by apply nb_prefix_full.
Qed.

(** Bits of a three-bit row cut out of a block. *)
Lemma row_testbit word s j :
  0 <= s -> 0 <= j ->
  Z.testbit (u16 (Z.land (Z.shiftr word s) 7)) j = (j <? 3) && Z.testbit word (s + j).
Proof.
  intros Hs Hj. rewrite wrap_u_testbit by lia. change 7 with (Z.ones 3).
  rewrite Z.land_spec, Z.shiftr_spec by done.
  destruct (j <? 3) eqn:E.
  - rewrite decide_True, Z.ones_spec_low, andb_true_r by lia. simpl. f_equal. lia.
  - case_decide; [| done]. rewrite Z.ones_spec_high, andb_false_r by lia. done.
Qed.

(** The nine value bits of the fast path, by position. *)
Lemma fast_path_testbit word lx ly i :
  1 <= lx <= 6 -> 1 <= ly <= 6 -> 0 <= i ->
  Z.testbit (fast_path word lx ly) i
  = if i <? 9 then Z.testbit word (8 * (ly - 1 + i / 3) + (lx - 1 + i mod 3))
    else i <? 18.
Proof.
  intros Hx Hy Hi. unfold fast_path. rewrite shiftl_3_lor by lia.
  rewrite !Z.lor_spec, !Z.shiftl_spec by done.
  assert (forall s j, 0 <= s -> Z.testbit (u16 (Z.land (Z.shiftr word s) 7)) j
    = (0 <=? j) && (j <? 3) && Z.testbit word (s + j)) as Hrow.
  { intros s j Hs. destruct (0 <=? j) eqn:E; [by rewrite row_testbit by lia |].
    apply Z.testbit_neg_r. lia. }
  rewrite !Hrow by lia. change 0x1FF with (Z.ones 9).
  destruct (i <? 9) eqn:E9.
  - rewrite (Z.testbit_neg_r _ (i - 9)), orb_false_r by lia.
    assert (i / 3 = 0 \/ i / 3 = 1 \/ i / 3 = 2) as Hq
      by (Z.to_euclidean_division_equations; lia).
    assert (i = 3 * (i / 3) + i mod 3 /\ 0 <= i mod 3 < 3) as [Hdm Hm]
      by (Z.to_euclidean_division_equations; lia).
    destruct Hq as [Hq | [Hq | Hq]]; rewrite Hq in *;
      repeat match goal with
      | |- context [?a <=? ?c] => first [replace (a <=? c) with true by lia
                                       | replace (a <=? c) with false by lia]
      | |- context [?a <? ?c] => first [replace (a <? c) with true by lia
                                      | replace (a <? c) with false by lia]
      end; cbn [andb]; rewrite ?orb_false_r, ?orb_false_l; f_equal; lia.
  - replace (i <? 3) with false by lia. replace (i - 3 <? 3) with false by lia.
    replace (i - 6 <? 3) with false by lia. rewrite !andb_false_r. simpl.
    destruct (i <? 18) eqn:E18.
    + apply Z.ones_spec_low. lia.
    + apply Z.ones_spec_high. lia.
Qed.

Lemma fast_path_ok b w h P x y :
  models b w h P -> fast_path_applies b x y = true ->
  exists word, getBlock b (Z.shiftr x 3) (Z.shiftr y 3) = Ok word /\
    fast_path word (Z.land x 7) (Z.land y 7) = nb_word w h P x y.
Proof.
  intros Hm Hf. unfold fast_path_applies in Hf.
  pose proof Hm as (Hwf & Ew & Eh & _). rewrite Ew, Eh, !land_7_mod in Hf.
  assert (forall i, 0 <= i < 9 -> in_grid w h (nb_x x i) (nb_y y i) = true
    /\ nb_x x i / 8 = x / 8 /\ nb_y y i / 8 = y / 8
    /\ nb_x x i mod 8 = x mod 8 - 1 + i mod 3 /\ nb_y y i mod 8 = y mod 8 - 1 + i / 3) as Hn.
  { intros i Hi. rewrite in_grid_iff. unfold nb_x, nb_y.
    Z.to_euclidean_division_equations. lia. }
  assert (in_grid w h x y = true) as Hg by (apply in_grid_iff; lia).
  destruct (block_lookup b w h P x y Hm Hg) as (word & Hl & Hr & Hidx & _).
  exists word. split.
  { unfold getBlock. rewrite !shiftr_3_div. apply vec_get_ok; [lia | done]. }
  rewrite !land_7_mod. apply pack_unique. intros i Hi.
  rewrite fast_path_testbit by lia. unfold nb_bit.
  destruct (i <? 9) eqn:E9.
  - destruct (Hn i) as (Hgi & Ex & Ey & Mx & My); [lia |].
    rewrite bool_decide_true by lia. simpl.
    destruct (block_lookup b w h P _ _ Hm Hgi) as (word' & Hl' & _ & _ & Hbit).
    rewrite Ex, Ey in Hl'. rewrite Hl in Hl'. injection Hl' as <-.
    unfold nb_value, nb_valid. rewrite Hgi, <- Hbit, Mx, My. simpl. f_equal; lia.
  - case_bool_decide as E18.
    + replace (i <? 18) with true by lia. destruct (Hn (i - 9)) as (Hgi & _); [lia |].
      unfold nb_valid. by rewrite Hgi.
    + simpl. lia.
Qed.

Lemma getNeighborhood3x3_ok b w h P x y :
  models b w h P ->
  getNeighborhood3x3 b x y = Ok (Neighborhood3x3.mk (nb_word w h P x y)).
Proof.
  intros Hm. unfold getNeighborhood3x3.
  destruct (fast_path_applies b x y) eqn:Hf.
  - destruct (fast_path_ok b w h P x y Hm Hf) as (word & -> & E). simpl. by rewrite E.
  - by rewrite (slow_path_ok b w h P x y Hm).
Qed.
End NeighborhoodFacts.

(** ** Extensionality and the block queries *)
Section BitmapExt.
Import CellBitmap.
Implicit Types (b : CellBitmap.t) (x y w h : Z) (P Q : Z -> Z -> bool).

Lemma models_ext b w h P Q :
  (forall x y, in_grid w h x y = true -> P x y = Q x y) -> models b w h P -> models b w h Q.
Proof.
  intros HPQ (Hwf & Ew & Eh & Hget). do 3 (split; [done |]).
  intros x y Hp. rewrite Hget by done. f_equal.
  destruct (in_grid w h x y) eqn:Hg; [simpl; by apply HPQ | done].
Qed.

(** Every bit of every block is the bit of one padded cell. *)
Lemma block_bit b w h P bx by_ j word :
  models b w h P -> 0 <= bx < blocks_x_ b -> 0 <= by_ < blocks_y_ b -> 0 <= j < 64 ->
  blocks_ b !! Z.to_nat (by_ * blocks_x_ b + bx) = Some word ->
  Z.testbit word j = in_grid w h (8 * bx + j mod 8) (8 * by_ + j / 8)
                     && P (8 * bx + j mod 8) (8 * by_ + j / 8).
Proof.
  intros Hm Hbx Hby Hj Hl.
  assert (in_pad b (8 * bx + j mod 8) (8 * by_ + j / 8) = true) as Hp.
  { apply in_grid_iff. Z.to_euclidean_division_equations. lia. }
  destruct (pad_lookup b w h P _ _ Hm Hp) as (word' & Hl' & _ & _ & Hbit).
  replace ((8 * by_ + j / 8) / 8) with by_ in Hl'
    by (Z.to_euclidean_division_equations; lia).
  replace ((8 * bx + j mod 8) / 8) with bx in Hl'
    by (Z.to_euclidean_division_equations; lia).
  rewrite Hl in Hl'. injection Hl' as <-. rewrite <- Hbit. f_equal.
  Z.to_euclidean_division_equations. lia.
Qed.

Lemma models_inj b b' w h P : models b w h P -> models b' w h P -> b = b'.
Proof.
  intros Hm Hm'.
  pose proof Hm as ((Hw & Hh & Ex & Ey & El & Hall) & Ew & Eh & _).
  pose proof Hm' as ((_ & _ & Ex' & Ey' & El' & Hall') & Ew' & Eh' & _).
  rewrite Ew, Eh in *. rewrite Ew', Eh' in *.
  assert (blocks_ b = blocks_ b') as Eb.
  { apply list_eq_same_length with (n := length (blocks_ b)); [| done |].
    - apply Nat2Z.inj. rewrite El, El', Ex, Ey, Ex', Ey'. done.
    - intros k word word' Hk Hl Hl'.
      rewrite Forall_lookup in Hall, Hall'.
      apply (word_ext 64); [lia | by eapply Hall | by eapply Hall' |]. intros j Hj.
      assert (0 <= blocks_x_ b) by (rewrite Ex; apply Z.div_pos; lia).
      assert (0 <= blocks_y_ b) by (rewrite Ey; apply Z.div_pos; lia).
      assert (0 < blocks_x_ b) as Hpos by nia.
      assert (Z.to_nat (Z.of_nat k / blocks_x_ b * blocks_x_ b + Z.of_nat k mod blocks_x_ b) = k)
        as Ek by (pose proof (Z.div_mod (Z.of_nat k) (blocks_x_ b)); lia).
      pose proof (Z.mod_pos_bound (Z.of_nat k) (blocks_x_ b) Hpos).
      assert (0 <= Z.of_nat k / blocks_x_ b < blocks_y_ b).
      { split; [apply Z.div_pos; lia | apply Z.div_lt_upper_bound; lia]. }
      rewrite (block_bit b w h P (Z.of_nat k mod blocks_x_ b) (Z.of_nat k / blocks_x_ b) j);
        [| done | done | done | done | by rewrite Ek].
      symmetry.
      apply (block_bit b' w h P (Z.of_nat k mod blocks_x_ b) (Z.of_nat k / blocks_x_ b) j);
        [done | lia | lia | done |].
      replace (blocks_x_ b') with (blocks_x_ b) by lia. by rewrite Ek. }
  destruct b, b'; simpl in *; congruence.
Qed.

(** The cells of one block, inside the grid. *)
Definition block_cells (w h bx by_ : Z) (Q : Z -> Z -> bool) : Prop :=
  forall x y, 8 * bx <= x < 8 * bx + 8 -> 8 * by_ <= y < 8 * by_ + 8 ->
    in_grid w h x y = true -> Q x y = true.

Lemma getBlock_lookup b bx by_ :
  bitmap_wf b -> 0 <= bx < blocks_x_ b -> 0 <= by_ < blocks_y_ b ->
  exists word, getBlock b bx by_ = Ok word /\ 0 <= word < 2 ^ 64 /\
    blocks_ b !! Z.to_nat (by_ * blocks_x_ b + bx) = Some word.
Proof.
  intros (_ & _ & _ & _ & El & Hall) Hbx Hby.
  assert (0 <= by_ * blocks_x_ b + bx < Z.of_nat (length (blocks_ b))) as Hi by nia.
  destruct (in_range_lookup _ _ Hi) as [word Hl]. exists word. split; [| split; [| done]].
  - apply vec_get_ok; [lia | done].
  - rewrite Forall_lookup in Hall. by eapply Hall.
Qed.

Lemma isBlockAllClear_ok b w h P bx by_ :
  models b w h P -> 0 <= bx < blocks_x_ b -> 0 <= by_ < blocks_y_ b ->
  exists v, isBlockAllClear b bx by_ = Ok v /\
    (v = true <-> block_cells w h bx by_ (fun x y => negb (P x y))).
Proof.
  intros Hm Hbx Hby. pose proof Hm as (Hwf & _).
  destruct (getBlock_lookup b bx by_ Hwf Hbx Hby) as (word & Hg & Hr & Hl).
  exists (word =? 0). unfold isBlockAllClear. rewrite Hg. split; [done |].
  rewrite Z.eqb_eq. split.
  - intros -> x y Hx Hy Hin.
    pose proof (block_bit b w h P bx by_ (8 * (y - 8 * by_) + (x - 8 * bx)) 0 Hm Hbx Hby) as Hb.
    replace (8 * bx + _ mod 8) with x in Hb by (Z.to_euclidean_division_equations; lia).
    replace (8 * by_ + _ / 8) with y in Hb by (Z.to_euclidean_division_equations; lia).
    rewrite Z.bits_0, Hin in Hb. simpl in Hb. by rewrite <- Hb by (done || lia).
  - intros Hall. apply (word_ext 64); [lia | done | lia |]. intros j Hj.
    rewrite (block_bit b w h P bx by_ j word), Z.bits_0 by done.
    destruct (in_grid w h _ _) eqn:Hin; [| done]. simpl.
    apply negb_true_iff, Hall; [| | done]; Z.to_euclidean_division_equations; lia.
Qed.
End BitmapExt.

(** ** Reading a neighbourhood word *)
Section NeighborhoodReads.
Import Neighborhood3x3.
Implicit Types (w h x y p : Z) (P : Z -> Z -> bool).

Lemma nb_word_bit w h P x y i :
  Z.testbit (nb_word w h P x y) i = bool_decide (0 <= i < 18) && nb_bit w h P x y i.
Proof. apply (testbit_pack 18). Qed.

Lemma nb_word_value w h P x y p :
  0 <= p < 9 -> Z.testbit (nb_word w h P x y) p = nb_value w h P x y p.
Proof.
  intros Hp. rewrite nb_word_bit. unfold nb_bit.
  rewrite bool_decide_true by lia. by replace (p <? 9) with true by lia.
Qed.

Lemma nb_word_valid w h P x y p :
  0 <= p < 9 -> Z.testbit (nb_word w h P x y) (9 + p) = nb_valid w h x y p.
Proof.
  intros Hp. rewrite nb_word_bit. unfold nb_bit.
  rewrite bool_decide_true by lia. replace (9 + p <? 9) with false by lia.
  by replace (9 + p - 9) with p by lia.
Qed.

(** Number of positions of the neighbourhood, the centre apart, that satisfy
    a predicate. *)
Definition count_around (f : Z -> bool) : Z :=
  foldr (fun p n => Z.b2z (f p) + n) 0 [0; 1; 2; 3; 5; 6; 7; 8].

Lemma popcount_around z f :
  (forall i, 0 <= i < 32 ->
     Z.testbit z i = if (i <? 9) && negb (i =? 4) then f i else false) ->
  builtin_popcount z = count_around f.
Proof.
  intros H. unfold builtin_popcount, count_around. cbn [popcount_aux].
  rewrite !H by lia. reflexivity.
Qed.
End NeighborhoodReads.

Section EmptyReads.
Import Neighborhood3x3.
Implicit Types (w h x y p i : Z) (P : Z -> Z -> bool).

Lemma value_layer_bit n i :
  Z.testbit (getValueLayer n) i = bool_decide (0 <= i < 9) && Z.testbit (data n) i.
Proof.
  unfold getValueLayer. rewrite wrap_u_testbit, Z.land_spec by lia. change 0x1FF with (Z.ones 9).
  case_bool_decide as E.
  - rewrite decide_True, Z.ones_spec_low by lia. simpl. apply andb_true_r.
  - case_decide; [| done]. rewrite Z.ones_spec_high by lia. apply andb_false_r.
Qed.

Lemma valid_layer_bit n i :
  Z.testbit (getValidLayer n) i = bool_decide (0 <= i < 9) && Z.testbit (data n) (9 + i).
Proof.
  unfold getValidLayer. rewrite wrap_u_testbit, Z.land_spec by lia. change 0x1FF with (Z.ones 9).
  case_bool_decide as E.
  - rewrite decide_True, Z.ones_spec_low, Z.shiftr_spec by lia. simpl.
    rewrite andb_true_r. f_equal. lia.
  - case_decide; [| done]. rewrite Z.ones_spec_high by lia. apply andb_false_r.
Qed.

(** [mask & ~(1 << 4)] clears the centre, at any width of at least 9 bits. *)
Lemma clear_center_bit width z i :
  9 <= width -> (forall j, 9 <= j -> Z.testbit z j = false) ->
  Z.testbit (wrap_u width (Z.land z (Z.lnot (Z.shiftl 1 4)))) i
  = (0 <=? i) && (i <? 9) && negb (i =? 4) && Z.testbit z i.
Proof.
  intros Hw Hz. rewrite wrap_u_testbit by lia. case_decide as E.
  - rewrite Z.land_spec, Z.lnot_spec, testbit_shiftl_1 by lia.
    destruct (i <? 9) eqn:E9.
    + replace (0 <=? i) with true by lia. simpl. rewrite andb_comm. f_equal. f_equal.
      case_bool_decide; lia.
    + rewrite Hz by lia. by rewrite andb_false_r.
  - destruct ((0 <=? i) && (i <? 9)) eqn:E9; [lia | done].
Qed.

Lemma value_layer_high n j : 9 <= j -> Z.testbit (getValueLayer n) j = false.
Proof. intros. by rewrite value_layer_bit, bool_decide_false by lia. Qed.
Lemma valid_layer_high n j : 9 <= j -> Z.testbit (getValidLayer n) j = false.
Proof. intros. by rewrite valid_layer_bit, bool_decide_false by lia. Qed.

Lemma material_mask_bit e i :
  Z.testbit (EmptyNeighborhood.getValidWithMaterialMask e) i
  = bool_decide (0 <= i < 9) && Z.testbit (data (EmptyNeighborhood.data_ e)) (9 + i)
    && negb (Z.testbit (data (EmptyNeighborhood.data_ e)) i).
Proof.
  unfold EmptyNeighborhood.getValidWithMaterialMask.
  rewrite wrap_u_testbit by lia. case_decide as E.
  - rewrite Z.land_spec, Z.lnot_spec, valid_layer_bit, value_layer_bit by lia.
    case_bool_decide; [done | by rewrite !andb_false_l].
  - by rewrite bool_decide_false by lia.
Qed.

(** The three neighbour counts, for a word with the layout of [nb_word]. *)
Lemma countTrue_ok w h P x y :
  countTrueNeighbors (mk (nb_word w h P x y)) = count_around (nb_value w h P x y).
Proof.
  unfold countTrueNeighbors, countValidNeighbors, C. cbv zeta.
  apply popcount_around. intros i Hi.
  rewrite clear_center_bit by (lia || apply value_layer_high).
  replace (0 <=? i) with true by lia. simpl.
  destruct ((i <? 9) && negb (i =? 4)) eqn:E; [| done]. simpl.
  rewrite value_layer_bit, bool_decide_true by lia. cbn [data andb]. by apply nb_word_value; lia.
Qed.

Lemma countValid_ok w h P x y :
  countValidNeighbors (mk (nb_word w h P x y)) = count_around (nb_valid w h x y).
Proof.
  unfold countTrueNeighbors, countValidNeighbors, C. cbv zeta.
  apply popcount_around. intros i Hi.
  rewrite clear_center_bit by (lia || apply valid_layer_high).
  replace (0 <=? i) with true by lia. simpl.
  destruct ((i <? 9) && negb (i =? 4)) eqn:E; [| done]. simpl.
  rewrite valid_layer_bit, bool_decide_true by lia. cbn [data andb]. by apply nb_word_valid; lia.
Qed.

Lemma countMaterial_ok w h P x y :
  EmptyNeighborhood.countMaterialNeighbors (EmptyNeighborhood.mk (mk (nb_word w h P x y)))
  = count_around (fun p => nb_valid w h x y p && negb (P (nb_x x p) (nb_y y p))).
Proof.
  unfold EmptyNeighborhood.countMaterialNeighbors,
    EmptyNeighborhood.getMaterialNeighborsBitGrid.
  apply popcount_around. intros i Hi.
  rewrite clear_center_bit; [| lia |].
  - replace (0 <=? i) with true by lia. simpl.
    destruct ((i <? 9) && negb (i =? 4)) eqn:E; [| done].
    rewrite material_mask_bit, bool_decide_true by lia.
    cbn [EmptyNeighborhood.data_ data andb].
    rewrite nb_word_valid, nb_word_value by lia. unfold nb_value.
    by destruct (nb_valid w h x y i).
  - intros j Hj. by rewrite material_mask_bit, bool_decide_false by lia.
Qed.

(** [(values & valid) == valid], both without the centre bit. *)
Lemma allValid_bits n :
  allValidNeighborsTrue n = true <->
  forall p, 0 <= p < 9 -> p <> 4 ->
    Z.testbit (data n) (9 + p) = true -> Z.testbit (data n) p = true.
Proof.
  assert (forall i, Z.testbit (u16 (Z.land (getValueLayer n) (Z.lnot (Z.shiftl 1 C)))) i
    = (0 <=? i) && (i <? 9) && negb (i =? 4) && Z.testbit (getValueLayer n) i) as Hval
    by (intros i; apply clear_center_bit; [lia | apply value_layer_high]).
  assert (forall i, Z.testbit (u16 (Z.land (getValidLayer n) (Z.lnot (Z.shiftl 1 C)))) i
    = (0 <=? i) && (i <? 9) && negb (i =? 4) && Z.testbit (getValidLayer n) i) as Hvalid
    by (intros i; apply clear_center_bit; [lia | apply valid_layer_high]).
  unfold allValidNeighborsTrue. rewrite Z.eqb_eq.
  set (values := u16 (Z.land (getValueLayer n) _)) in *.
  set (valid := u16 (Z.land (getValidLayer n) _)) in *.
  clearbody values valid. split.
  - intros E p Hp Hp4 Hv. pose proof (Z.land_spec values valid p) as Hl.
    rewrite E, Hval, Hvalid, value_layer_bit, valid_layer_bit, bool_decide_true, Hv in Hl by lia.
    replace (0 <=? p) with true in Hl by lia. replace (p <? 9) with true in Hl by lia.
    replace (p =? 4) with false in Hl by lia.
    cbn [negb andb] in Hl. by rewrite andb_true_r in Hl.
  - intros H. apply Z.bits_inj'. intros p _.
    rewrite Z.land_spec, Hval, Hvalid, value_layer_bit, valid_layer_bit.
    destruct ((0 <=? p) && (p <? 9) && negb (p =? 4)) eqn:Ep; [| done].
    rewrite bool_decide_true by lia. cbn [andb].
    destruct (Z.testbit (data n) (9 + p)) eqn:Hv; [| apply andb_false_r].
    by rewrite (H p) by (done || lia).
Qed.

Lemma allValid_ok w h P x y :
  allValidNeighborsTrue (mk (nb_word w h P x y)) = true <->
  forall p, 0 <= p < 9 -> p <> 4 -> nb_valid w h x y p = true -> P (nb_x x p) (nb_y y p) = true.
Proof.
  rewrite allValid_bits. cbn [data]. split; intros H p Hp Hp4 Hv; specialize (H p Hp Hp4).
  - rewrite nb_word_valid, nb_word_value in H by done. unfold nb_value in H.
    rewrite Hv in H. by apply H.
  - rewrite nb_word_valid in Hv by done. rewrite nb_word_value by done. unfold nb_value.
    by rewrite Hv, H.
Qed.
End EmptyReads.

(** ** Properties *)

(** A client of a bitmap: a sequence of updates. *)
Inductive bitmap_op := OpSet (x y : Z) | OpClear (x y : Z).

Definition op_ok (w h : Z) (o : bitmap_op) : bool :=
  match o with OpSet x y => in_grid w h x y | OpClear x y => in_grid w h x y end.

Definition run_op (b : CellBitmap.t) (o : bitmap_op) : res CellBitmap.t :=
  match o with OpSet x y => CellBitmap.set b x y | OpClear x y => CellBitmap.clear b x y end.

Fixpoint run_ops (b : CellBitmap.t) (os : list bitmap_op) : res CellBitmap.t :=
  match os with
  | [] => Ok b
  | o :: os' => let! b' := run_op b o in run_ops b' os'
  end.

(** The same sequence on the abstract set of cells. *)
Definition abs_op (P : Z -> Z -> bool) (o : bitmap_op) : Z -> Z -> bool :=
  match o with OpSet x y => upd P x y true | OpClear x y => upd P x y false end.
Definition abs_ops (os : list bitmap_op) : Z -> Z -> bool :=
  fold_left abs_op os (fun _ _ => false).

Definition build (w h : Z) (os : list bitmap_op) : res CellBitmap.t :=
  let! b := CellBitmap.make w h in run_ops b os.

Lemma run_ops_models os b w h P :
  models b w h P -> forallb (op_ok w h) os = true ->
  wp (run_ops b os) (fun b' => models b' w h (fold_left abs_op os P)).
Proof.
  revert b P. induction os as [|o os IH]; intros b P Hm Hok; [done |].
  simpl in Hok. apply andb_true_iff in Hok as [Ho Hos].
  cbn [run_ops fold_left]. apply wp_bind.
  apply (wp_mono _ (fun b' => models b' w h (abs_op P o))); [| intros b' Hb'; by apply IH].
  destruct o; [by apply models_set | by apply models_clear].
Qed.

Lemma build_models w h os :
  0 <= w <= 32767 -> 0 <= h <= 32767 -> forallb (op_ok w h) os = true ->
  exists b, build w h os = Ok b /\ models b w h (abs_ops os).
Proof.
  intros Hw Hh Hos. apply wp_elim. apply wp_bind.
  eapply wp_mono; [by apply models_make |]. intros b Hb. by apply run_ops_models.
Qed.

(** C40. Refinement of [CellBitmap] by a set of cells: a bitmap constructed for
    a grid and updated by any sequence of [set] and [clear] on cells of the
    grid never indexes its block vector out of range, answers [isSet] on every
    cell as the abstract set does, and [isBlockAllClear] on every block exactly
    when the set has no cell of the block. *)
Theorem bitmap_refines_set (w h : Z) (os : list bitmap_op) :
  0 <= w <= 32767 -> 0 <= h <= 32767 -> forallb (op_ok w h) os = true ->
  exists b, build w h os = Ok b /\
    (forall x y, in_grid w h x y = true -> CellBitmap.isSet b x y = Ok (abs_ops os x y)) /\
    (forall bx by_, 0 <= bx < CellBitmap.getBlocksX b -> 0 <= by_ < CellBitmap.getBlocksY b ->
       exists v, CellBitmap.isBlockAllClear b bx by_ = Ok v /\
         (v = true <-> block_cells w h bx by_ (fun x y => negb (abs_ops os x y)))).
Proof.
  intros Hw Hh Hos. destruct (build_models w h os Hw Hh Hos) as (b & Hb & Hm).
  exists b. split; [done |]. split.
  - intros x y Hg. by apply (models_isSet b w h).
  - intros bx by_ Hbx Hby. by apply isBlockAllClear_ok.
Qed.

Definition demo_ops : list bitmap_op :=
  [OpSet 3 3; OpSet 8 2; OpSet 4 4; OpClear 3 3; OpSet 19 9].

Example bitmap_refines_set_witness :
  exists b, build 20 10 demo_ops = Ok b /\ CellBitmap.isSet b 4 4 = Ok true.
Proof.
  destruct (bitmap_refines_set 20 10 demo_ops ltac:(lia) ltac:(lia) eq_refl) as (b & Hb & Hs & _).
  exists b. split; [exact Hb | exact (Hs 4 4 eq_refl)].
Defined.

(** [getNeighborhood3x3] never faults and its word is the reference
    neighbourhood (values in bits 0-8, validity in bits 9-17) of the abstract
    set, whichever path is taken; where the single-block fast path applies, it
    computes the same word as the nine probes of the slow path. *)
Lemma neighborhood_extraction (w h : Z) (os : list bitmap_op) (x y : Z) :
  0 <= w <= 32767 -> 0 <= h <= 32767 -> forallb (op_ok w h) os = true ->
  exists b, build w h os = Ok b /\
    CellBitmap.getNeighborhood3x3 b x y
      = Ok (Neighborhood3x3.mk (nb_word w h (abs_ops os) x y)) /\
    CellBitmap.slow_path b x y = Ok (nb_word w h (abs_ops os) x y) /\
    (CellBitmap.fast_path_applies b x y = true ->
     exists word, CellBitmap.getBlock b (Z.shiftr x 3) (Z.shiftr y 3) = Ok word /\
       CellBitmap.slow_path b x y = Ok (CellBitmap.fast_path word (Z.land x 7) (Z.land y 7))).
Proof.
  intros Hw Hh Hos. destruct (build_models w h os Hw Hh Hos) as (b & Hb & Hm).
  exists b. split; [done |]. split; [by apply getNeighborhood3x3_ok |].
  split; [by apply slow_path_ok |]. intros Hf.
  destruct (fast_path_ok b w h _ x y Hm Hf) as (word & Hg & E).
  exists word. split; [done |]. rewrite E. by apply slow_path_ok.
Qed.

Example neighborhood_extraction_witness :
  exists b, build 20 10 demo_ops = Ok b /\
    CellBitmap.getNeighborhood3x3 b 4 4
      = Ok (Neighborhood3x3.mk (nb_word 20 10 (abs_ops demo_ops) 4 4)).
Proof.
  destruct (neighborhood_extraction 20 10 demo_ops 4 4 ltac:(lia) ltac:(lia) eq_refl)
    as (b & Hb & Hn & _).
  exists b. split; [exact Hb | exact Hn].
Defined.

Example neighborhood_extraction_value :
  nb_word 20 10 (abs_ops demo_ops) 4 4 = 0x3FE10 /\ nb_word 20 10 (abs_ops demo_ops) 19 9 = 0x3610.
Proof. split; vm_compute; reflexivity. Qed.

(** Reading a neighbourhood word: [isValidAt]/[getAt] report whether the
    neighbour is inside the grid and whether the property holds there; the
    empty-cell wrapper's [isEmpty], [hasMaterial] follow, its three counts are
    the numbers of neighbours (centre apart) inside the grid, empty, and inside
    but not empty, and [allNeighborsEmpty] holds exactly when every neighbour
    inside the grid is empty. *)
Lemma neighborhood_reads (w h : Z) (P : Z -> Z -> bool) (x y dx dy : Z) :
  -1 <= dx <= 1 -> -1 <= dy <= 1 ->
  let n := Neighborhood3x3.mk (nb_word w h P x y) in
  let e := EmptyNeighborhood.mk n in
  Neighborhood3x3.isValidAt n dx dy = in_grid w h (x + dx) (y + dy) /\
  Neighborhood3x3.getAt n dx dy = in_grid w h (x + dx) (y + dy) && P (x + dx) (y + dy) /\
  EmptyNeighborhood.isEmpty e dx dy = in_grid w h (x + dx) (y + dy) && P (x + dx) (y + dy) /\
  EmptyNeighborhood.hasMaterial e dx dy
    = in_grid w h (x + dx) (y + dy) && negb (P (x + dx) (y + dy)) /\
  EmptyNeighborhood.countValidNeighbors e = count_around (nb_valid w h x y) /\
  EmptyNeighborhood.countEmptyNeighbors e = count_around (nb_value w h P x y) /\
  EmptyNeighborhood.countMaterialNeighbors e
    = count_around (fun p => nb_valid w h x y p && negb (P (nb_x x p) (nb_y y p))) /\
  (EmptyNeighborhood.allNeighborsEmpty e = true <->
   forall p, 0 <= p < 9 -> p <> 4 -> nb_valid w h x y p = true ->
     P (nb_x x p) (nb_y y p) = true).
Proof.
  intros Hdx Hdy n e. destruct (bit_pos_range dx dy Hdx Hdy) as (Hp & Ex & Ey).
  assert (Neighborhood3x3.isValidAt n dx dy = in_grid w h (x + dx) (y + dy)) as Hv.
  { unfold Neighborhood3x3.isValidAt, n. cbn [Neighborhood3x3.data].
    rewrite nonzero_land_1, nb_word_valid by lia. unfold nb_valid. by rewrite Ex, Ey. }
  assert (Neighborhood3x3.getAt n dx dy
    = in_grid w h (x + dx) (y + dy) && P (x + dx) (y + dy)) as Hg.
  { unfold Neighborhood3x3.getAt, n. cbn [Neighborhood3x3.data].
    rewrite nonzero_land_1, nb_word_value by lia. unfold nb_value, nb_valid.
    by rewrite Ex, Ey. }
  unfold EmptyNeighborhood.isEmpty, EmptyNeighborhood.hasMaterial, e.
  cbn [EmptyNeighborhood.data_]. rewrite Hv, Hg.
  repeat split; try apply allValid_ok.
  - by destruct (in_grid w h _ _).
  - by destruct (in_grid w h _ _).
  - apply countValid_ok.
  - apply countTrue_ok.
  - apply countMaterial_ok.
Qed.

Example neighborhood_reads_witness :
  let e := EmptyNeighborhood.mk (Neighborhood3x3.mk (nb_word 20 10 (abs_ops demo_ops) 0 0)) in
  EmptyNeighborhood.hasMaterial e 1 0 = true /\ EmptyNeighborhood.countValidNeighbors e = 3.
Proof.
  destruct (neighborhood_reads 20 10 (abs_ops demo_ops) 0 0 1 0 ltac:(lia) ltac:(lia))
    as (_ & _ & _ & Hm & Hv & _).
  split; [rewrite Hm; reflexivity | rewrite Hv; reflexivity].
Defined.
