(* ===== verification/GridCache.v ===== *)
(** The cache layer over the world's cells: [core/GridOfCells.{h,cpp}].

    The class holds a reference to the world's cell vector; the model keeps that
    vector in the state and no operation of the class changes it.  The debug
    vector ([debug_info_], visualisation only) is not modelled. *)

From Stdlib Require Import ZArith Lia Bool String.
From stdpp Require Import base gmap option numbers list.
From S2P Require Import Prelude Ieee Material Bitmaps.

Set Default Goal Selector "!".

Module GridOfCells.

Record t := mk {
  cells_ : list Cell.t;
  empty_cells_ : CellBitmap.t;
  wall_cells_ : CellBitmap.t;
  empty_neighborhoods_ : list Z;
  material_neighborhoods_ : list Z;
  width_ : Z;
  height_ : Z
}.

Definition with_empty (g : t) (b : CellBitmap.t) : t :=
  mk (cells_ g) b (wall_cells_ g) (empty_neighborhoods_ g) (material_neighborhoods_ g)
    (width_ g) (height_ g).
Definition with_wall (g : t) (b : CellBitmap.t) : t :=
  mk (cells_ g) (empty_cells_ g) b (empty_neighborhoods_ g) (material_neighborhoods_ g)
    (width_ g) (height_ g).
Definition with_empty_nb (g : t) (v : list Z) : t :=
  mk (cells_ g) (empty_cells_ g) (wall_cells_ g) v (material_neighborhoods_ g)
    (width_ g) (height_ g).
Definition with_material_nb (g : t) (v : list Z) : t :=
  mk (cells_ g) (empty_cells_ g) (wall_cells_ g) (empty_neighborhoods_ g) v
    (width_ g) (height_ g).

(** [if (cell.isEmpty()) empty_cells_.set(x, y);] *)
Definition mark_empty (x y : Z) (cell : Cell.t) (g : t) : res t :=
  if Cell.isEmpty cell then
    let! b := CellBitmap.set (empty_cells_ g) x y in Ok (with_empty g b)
  else Ok g.

(** [if (cell.isWall()) wall_cells_.set(x, y);] *)
Definition mark_wall (x y : Z) (cell : Cell.t) (g : t) : res t :=
  if Cell.isWall cell then
    let! b := CellBitmap.set (wall_cells_ g) x y in Ok (with_wall g b)
  else Ok g.

Definition populateMaps (g : t) : res t :=
  scan (width_ g) (height_ g) (fun x y g =>
    let! cell := vec_get (cells_ g) (y * width_ g + x) in
    let! g := mark_empty x y cell g in
    mark_wall x y cell g) g.

Definition buildEmptyCellMap (g : t) : res t :=
  scan (width_ g) (height_ g) (fun x y g =>
    let! cell := vec_get (cells_ g) (y * width_ g + x) in
    mark_empty x y cell g) g.

Definition buildWallCellMap (g : t) : res t :=
  scan (width_ g) (height_ g) (fun x y g =>
    let! cell := vec_get (cells_ g) (y * width_ g + x) in
    mark_wall x y cell g) g.

Definition precomputeEmptyNeighborhoods (g : t) : res t :=
  scan (width_ g) (height_ g) (fun x y g =>
    let! n := CellBitmap.getNeighborhood3x3 (empty_cells_ g) x y in
    let! v := vec_set (empty_neighborhoods_ g) (y * width_ g + x) (Neighborhood3x3.data n) in
    Ok (with_empty_nb g v)) g.

(** One of the nine positions of [precomputeMaterialNeighborhoods]. *)
Definition pack_material (g : t) (x y dx dy packed : Z) : res Z :=
  let bit_group := (dy + 1) * 3 + (dx + 1) in
  let nx := x + dx in
  let ny := y + dy in
  let! mat :=
    if (0 <=? nx) && (nx <? width_ g) && (0 <=? ny) && (ny <? height_ g) then
      let! cell := vec_get (cells_ g) (ny * width_ g + nx) in
      Ok (Cell.material_type cell)
    else Ok Material.Air in
  let mat_bits := Z.land (Material.to_Z mat) 0xF in
  Ok (Z.lor packed (Z.shiftl mat_bits (bit_group * 4))).

Definition precomputeMaterialNeighborhoods (g : t) : res t :=
  scan (width_ g) (height_ g) (fun x y g =>
    let! packed :=
      for_range (-1) 2 (fun dy p => for_range (-1) 2 (fun dx p => pack_material g x y dx dy p) p) 0 in
    let! v := vec_set (material_neighborhoods_ g) (y * width_ g + x) packed in
    Ok (with_material_nb g v)) g.

(** One of the nine positions of [populateAll]: both packed words at once. *)
Definition pack_both (g : t) (x y dx dy : Z) (packed : Z * Z) : res (Z * Z) :=
  let bit_pos := (dy + 1) * 3 + (dx + 1) in
  let nx := x + dx in
  let ny := y + dy in
  if (0 <=? nx) && (nx <? width_ g) && (0 <=? ny) && (ny <? height_ g) then
    let! neighbor := vec_get (cells_ g) (ny * width_ g + nx) in
    let empty_packed := Z.lor (fst packed) (Z.shiftl 1 (9 + bit_pos)) in
    let empty_packed :=
      if Cell.isEmpty neighbor then Z.lor empty_packed (Z.shiftl 1 bit_pos) else empty_packed in
    let mat_bits := Z.land (Material.to_Z (Cell.material_type neighbor)) 0xF in
    Ok (empty_packed, Z.lor (snd packed) (Z.shiftl mat_bits (bit_pos * 4)))
  else Ok packed.

Definition pack_both_all (g : t) (x y : Z) : res (Z * Z) :=
  for_range (-1) 2 (fun dy p => for_range (-1) 2 (fun dx p => pack_both g x y dx dy p) p) (0, 0).

Definition populate_cell (x y : Z) (g : t) : res t :=
  let idx := y * width_ g + x in
  let! cell := vec_get (cells_ g) idx in
  let! g := mark_empty x y cell g in
  let! g := mark_wall x y cell g in
  let! packed := pack_both_all g x y in
  let! ve := vec_set (empty_neighborhoods_ g) idx (fst packed) in
  let g := with_empty_nb g ve in
  let! vm := vec_set (material_neighborhoods_ g) idx (snd packed) in
  Ok (with_material_nb g vm).

Definition populateAll (g : t) : res t :=
  scan (width_ g) (height_ g) populate_cell g.

(** The constructor. *)
Definition make (cells : list Cell.t) (width height : Z) : res t :=
  let! e := CellBitmap.make width height in
  let! w := CellBitmap.make width height in
  if width * height <? 0 then Fault LengthError
  else
    let n := Z.to_nat (width * height) in
    populateAll (mk cells e w (replicate n 0) (replicate n 0) (s16 width) (s16 height)).

Definition rebuildSeparatePasses (g : t) : res t :=
  let! e := CellBitmap.make (width_ g) (height_ g) in
  let! w := CellBitmap.make (width_ g) (height_ g) in
  let g := with_wall (with_empty g e) w in
  let g := with_empty_nb g ((fun _ => 0) <$> empty_neighborhoods_ g) in
  let g := with_material_nb g ((fun _ => 0) <$> material_neighborhoods_ g) in
  let! g := populateMaps g in
  let! g := precomputeEmptyNeighborhoods g in
  precomputeMaterialNeighborhoods g.

Definition emptyCells (g : t) : CellBitmap.t := empty_cells_ g.
Definition wallCells (g : t) : CellBitmap.t := wall_cells_ g.
Definition getEmptyNeighborhood (g : t) (x y : Z) : res EmptyNeighborhood.t :=
  let! d := vec_get (empty_neighborhoods_ g) (y * width_ g + x) in
  Ok (EmptyNeighborhood.mk (Neighborhood3x3.mk d)).
Definition getMaterialNeighborhood (g : t) (x y : Z) : res MaterialNeighborhood.t :=
  let! d := vec_get (material_neighborhoods_ g) (y * width_ g + x) in
  Ok (MaterialNeighborhood.mk d).
Definition at_ (g : t) (x y : Z) : res Cell.t := vec_get (cells_ g) (y * width_ g + x).
Definition getWidth (g : t) : Z := width_ g.
Definition getHeight (g : t) : Z := height_ g.
Definition getBlocksX (g : t) : Z := CellBitmap.getBlocksX (empty_cells_ g).
Definition getBlocksY (g : t) : Z := CellBitmap.getBlocksY (empty_cells_ g).

End GridOfCells.

(** ** Specification: what the caches hold *)
Section Spec.
Variables (cells : list Cell.t) (w h : Z).

Definition cell_at (x y : Z) : option Cell.t := cells !! Z.to_nat (y * w + x).
Definition emptyAt (x y : Z) : bool :=
  match cell_at x y with Some c => Cell.isEmpty c | None => false end.
Definition wallAt (x y : Z) : bool :=
  match cell_at x y with Some c => Cell.isWall c | None => false end.

(** Underlying value of the material at a position; Air outside the grid. *)
Definition matAt (x y : Z) : Z :=
  if in_grid w h x y then
    match cell_at x y with Some c => Material.to_Z (Cell.material_type c) | None => 0 end
  else 0.

(** Nine 4-bit groups, position [p] in bits [4p, 4p + 4). *)
Definition mat_bit (x y i : Z) : bool :=
  Z.testbit (matAt (nb_x x (i / 4)) (nb_y y (i / 4))) (i mod 4).
Definition mat_word (x y : Z) : Z := pack 36 (mat_bit x y).
End Spec.

(** The first [k] cells of a scan. *)
Definition upto (w k : Z) (P : Z -> Z -> bool) (x y : Z) : bool := (y * w + x <? k) && P x y.

Section UptoFacts.
Context (w h : Z).

Lemma upto_step b P x y (v : bool) :
  0 <= x < w -> 0 <= y < h -> P x y = v ->
  models b w h (upto w (y * w + x) P) ->
  wp (if v then CellBitmap.set b x y else Ok b)
    (fun b' => models b' w h (upto w (y * w + x + 1) P)).
Proof.
  intros Hx Hy Hv Hm.
  assert (in_grid w h x y = true) as Hg by (apply in_grid_iff; lia).
  assert (forall x' y', in_grid w h x' y' = true ->
    (if (x =? x') && (y =? y') then v else upto w (y * w + x) P x' y')
    = upto w (y * w + x + 1) P x' y') as Hext.
  { intros x' y' Hg'. apply in_grid_iff in Hg'. unfold upto.
    destruct ((x =? x') && (y =? y')) eqn:E.
    - apply andb_true_iff in E as [->%Z.eqb_eq ->%Z.eqb_eq].
      replace (_ <? _) with true by lia. by rewrite Hv.
    - f_equal. destruct (decide (y' * w + x' = y * w + x)) as [Ek | ]; [| lia].
      destruct (row_major_index_inj w x' y' x y) as [-> ->]; [lia | lia | done |]. lia. }
  destruct v.
  - eapply wp_mono; [by apply models_set |]. intros b' Hb'.
    exact (models_ext _ _ _ _ _ Hext Hb').
  - cbn [wp]. eapply models_ext; [| done]. intros x' y' Hg'. rewrite <- Hext by done.
    destruct ((x =? x') && (y =? y')) eqn:E; [| done].
    apply andb_true_iff in E as [->%Z.eqb_eq ->%Z.eqb_eq]. unfold upto. by rewrite Z.ltb_irrefl.
Qed.

Lemma upto_all b P : models b w h (upto w (h * w) P) -> models b w h P.
Proof.
  apply models_ext. intros x y Hg. apply in_grid_iff in Hg. unfold upto.
  by replace (_ <? _) with true by nia.
Qed.

Lemma upto_none b P : models b w h (fun _ _ => false) -> models b w h (upto w 0 P).
Proof.
  apply models_ext. intros x y Hg. apply in_grid_iff in Hg. unfold upto.
  by replace (_ <? _) with false by nia.
Qed.

End UptoFacts.

Section GridFacts.
Import GridOfCells.
Context (cells : list Cell.t) (w h : Z).
Context (Hw : 0 <= w <= 32767) (Hh : 0 <= h <= 32767).
Context (Hlen : Z.of_nat (length cells) = w * h).

Local Abbreviation emptyAt := (emptyAt cells w).
Local Abbreviation wallAt := (wallAt cells w).
Local Abbreviation matAt := (matAt cells w h).
Local Abbreviation mat_bit := (mat_bit cells w h).
Local Abbreviation mat_word := (mat_word cells w h).

(** What no operation of the class changes. *)
Definition frame (g : t) : Prop := cells_ g = cells /\ width_ g = w /\ height_ g = h.

Lemma get_cell x y :
  0 <= x < w -> 0 <= y < h ->
  exists c, vec_get cells (y * w + x) = Ok c /\ emptyAt x y = Cell.isEmpty c /\
    wallAt x y = Cell.isWall c /\ matAt x y = Material.to_Z (Cell.material_type c).
Proof.
  intros Hx Hy. pose proof (row_major_index w h x y Hx Hy).
  destruct (in_range_lookup cells (y * w + x)) as [c Hc]; [lia |].
  exists c. split; [by apply vec_get_ok; [lia |] |].
  unfold emptyAt, wallAt, matAt, cell_at. rewrite Hc.
  by rewrite (proj2 (in_grid_iff w h x y)).
Qed.

Lemma matAt_range x y : 0 <= matAt x y < 16.
Proof.
  unfold matAt, cell_at. destruct (in_grid w h x y); [| lia].
  destruct (cells !! _) as [c|]; [| lia].
  pose proof (Material.to_Z_range (Cell.material_type c)). lia.
Qed.

(** *** Bitmaps *)
Lemma mark_empty_ok x y c g :
  0 <= x < w -> 0 <= y < h -> emptyAt x y = Cell.isEmpty c ->
  models (empty_cells_ g) w h (upto w (y * w + x) emptyAt) ->
  wp (mark_empty x y c g) (fun g' => exists b, g' = with_empty g b /\
    models b w h (upto w (y * w + x + 1) emptyAt)).
Proof.
  intros Hx Hy Hc Hm. pose proof (upto_step w h _ emptyAt x y _ Hx Hy Hc Hm) as Hs.
  unfold mark_empty. destruct (Cell.isEmpty c).
  - apply wp_bind. eapply wp_mono; [exact Hs |]. intros b Hb. by exists b.
  - exists (empty_cells_ g). split; [by destruct g | done].
Qed.

Lemma mark_wall_ok x y c g :
  0 <= x < w -> 0 <= y < h -> wallAt x y = Cell.isWall c ->
  models (wall_cells_ g) w h (upto w (y * w + x) wallAt) ->
  wp (mark_wall x y c g) (fun g' => exists b, g' = with_wall g b /\
    models b w h (upto w (y * w + x + 1) wallAt)).
Proof.
  intros Hx Hy Hc Hm. pose proof (upto_step w h _ wallAt x y _ Hx Hy Hc Hm) as Hs.
  unfold mark_wall. destruct (Cell.isWall c).
  - apply wp_bind. eapply wp_mono; [exact Hs |]. intros b Hb. by exists b.
  - exists (wall_cells_ g). split; [by destruct g | done].
Qed.

(** *** Packed neighbourhoods *)
Definition mat_prefix (x y p i : Z) : bool := (i <? 4 * p) && mat_bit x y i.

Lemma mat_prefix_full x y r :
  (forall i, 0 <= i -> Z.testbit r i = mat_prefix x y 9 i) -> r = mat_word x y.
Proof.
  intros Hr. apply pack_unique. intros i Hi. rewrite Hr by done. unfold mat_prefix.
  by rewrite (bool_decide_ext (0 <= i < Z.of_nat 36) (i < 4 * 9)) by lia;
    case_bool_decide; [replace (i <? 4 * 9) with true by lia
                      | replace (i <? 4 * 9) with false by lia].
Qed.

Lemma mat_prefix_step x y p r :
  0 <= p < 9 -> (forall i, 0 <= i -> Z.testbit r i = mat_prefix x y p i) ->
  forall i, 0 <= i ->
    Z.testbit (Z.lor r (Z.shiftl (Z.land (matAt (nb_x x p) (nb_y y p)) 0xF) (p * 4))) i
    = mat_prefix x y (p + 1) i.
Proof.
  intros Hp Hr i Hi. pose proof (matAt_range (nb_x x p) (nb_y y p)) as Hrange.
  assert (Z.land (matAt (nb_x x p) (nb_y y p)) 0xF = matAt (nb_x x p) (nb_y y p)) as ->.
  { change 0xF with (Z.ones 4). rewrite Z.land_ones by lia. by apply Z.mod_small. }
  rewrite Z.lor_spec, Hr, Z.shiftl_spec by done. unfold mat_prefix.
  destruct (i <? 4 * p) eqn:E1.
  - rewrite (Z.testbit_neg_r _ (i - p * 4)), orb_false_r by lia.
    by replace (i <? 4 * (p + 1)) with true by lia.
  - simpl. destruct (i <? 4 * (p + 1)) eqn:E2.
    + unfold mat_bit. replace (i / 4) with p by (Z.to_euclidean_division_equations; lia).
      simpl. f_equal. Z.to_euclidean_division_equations. lia.
    + apply (testbit_outside 4); [simpl; lia | lia].
Qed.

Lemma mat_prefix_skip x y p i :
  0 <= i -> matAt (nb_x x p) (nb_y y p) = 0 -> mat_prefix x y (p + 1) i = mat_prefix x y p i.
Proof.
  intros Hi Hm. unfold mat_prefix. destruct (i <? 4 * p) eqn:E1.
  - by replace (i <? 4 * (p + 1)) with true by lia.
  - destruct (i <? 4 * (p + 1)) eqn:E2; [| done]. simpl. unfold mat_bit.
    replace (i / 4) with p by (Z.to_euclidean_division_equations; lia).
    by rewrite Hm, Z.bits_0.
Qed.

Lemma mat_prefix_start x y i : 0 <= i -> mat_prefix x y 0 i = false.
Proof. intros. unfold mat_prefix. by replace (i <? 4 * 0) with false by lia. Qed.

Definition both_inv (x y p : Z) (packed : Z * Z) : Prop :=
  (forall i, 0 <= i -> Z.testbit (fst packed) i = nb_prefix w h emptyAt x y p i) /\
  (forall i, 0 <= i -> Z.testbit (snd packed) i = mat_prefix x y p i).

Lemma pack_both_step g x y dx dy packed :
  frame g -> -1 <= dx <= 1 -> -1 <= dy <= 1 ->
  both_inv x y (Neighborhood3x3.bit_pos dx dy) packed ->
  wp (pack_both g x y dx dy packed) (both_inv x y (Neighborhood3x3.bit_pos dx dy + 1)).
Proof.
  intros (Ec & Ew & Eh) Hdx Hdy [He Hm].
  destruct (bit_pos_range dx dy Hdx Hdy) as (Hp & Ex & Ey).
  unfold pack_both. fold (Neighborhood3x3.bit_pos dx dy).
  set (p := Neighborhood3x3.bit_pos dx dy) in *.
  rewrite Ec, Ew, Eh. fold (in_grid w h (x + dx) (y + dy)).
  assert (nb_valid w h x y p = in_grid w h (x + dx) (y + dy)) as Ev
    by (unfold nb_valid; by rewrite Ex, Ey).
  destruct (in_grid w h (x + dx) (y + dy)) eqn:Hg.
  - pose proof Hg as Hg'. apply in_grid_iff in Hg' as [Hx' Hy'].
    destruct (get_cell (x + dx) (y + dy) Hx' Hy') as (c & -> & Hce & _ & Hcm).
    cbn [rbind wp]. split; cbn [fst snd].
    + apply nb_prefix_step; [done | done | done | by rewrite Ex, Ey].
    + rewrite <- Hcm. rewrite <- (Ex x), <- (Ey y). by apply mat_prefix_step.
  - split; intros i Hi.
    + by rewrite nb_prefix_skip, He by done.
    + rewrite mat_prefix_skip, Hm; [done | done | done |]. unfold matAt.
      by rewrite Ex, Ey, Hg.
Qed.

Lemma pack_both_all_ok g x y :
  frame g -> pack_both_all g x y = Ok (nb_word w h emptyAt x y, mat_word x y).
Proof.
  intros Hf.
  assert (wp (pack_both_all g x y) (both_inv x y 9)) as H.
  { apply (wp_nine (both_inv x y)).
    - split; intros i Hi; cbn [fst snd]; rewrite Z.bits_0;
        [by rewrite nb_prefix_start | by rewrite mat_prefix_start].
    - intros dx dy packed Hdx Hdy Hp. by apply pack_both_step. }
  apply wp_elim in H as ([e m] & -> & [He Hm]). cbn [fst snd] in *. f_equal. f_equal.
  - by apply nb_prefix_full.
  - by apply mat_prefix_full.
Qed.

Lemma pack_material_all_ok g x y :
  frame g ->
  for_range (-1) 2 (fun dy p => for_range (-1) 2 (fun dx p => pack_material g x y dx dy p) p) 0
  = Ok (mat_word x y).
Proof.
  intros (Ec & Ew & Eh).
  match goal with |- ?m = _ => assert (wp m
    (fun r => forall i, 0 <= i -> Z.testbit r i = mat_prefix x y 9 i)) as H end.
  { apply (wp_nine (fun p r => forall i, 0 <= i -> Z.testbit r i = mat_prefix x y p i)).
    - intros i Hi. by rewrite Z.bits_0, mat_prefix_start.
    - intros dx dy r Hdx Hdy Hr. destruct (bit_pos_range dx dy Hdx Hdy) as (Hp & Ex & Ey).
      unfold pack_material. fold (Neighborhood3x3.bit_pos dx dy).
      set (p := Neighborhood3x3.bit_pos dx dy) in *.
      rewrite Ec, Ew, Eh. fold (in_grid w h (x + dx) (y + dy)).
      pose proof (mat_prefix_step x y p r Hp Hr) as Hstep. rewrite Ex, Ey in Hstep.
      destruct (in_grid w h (x + dx) (y + dy)) eqn:Hg.
      + apply in_grid_iff in Hg as [Hx' Hy'].
        destruct (get_cell (x + dx) (y + dy) Hx' Hy') as (c & -> & _ & _ & Hcm).
        cbn [rbind wp]. by rewrite <- Hcm.
      + cbn [rbind wp]. unfold matAt in Hstep. by rewrite Hg in Hstep. }
  apply wp_elim in H as (r & -> & Hr). f_equal. by apply mat_prefix_full.
Qed.
End GridFacts.

(** ** The passes *)
Section GridPasses.
Import GridOfCells.
Context (cells : list Cell.t) (w h : Z).
Context (Hw : 0 <= w <= 32767) (Hh : 0 <= h <= 32767).
Context (Hlen : Z.of_nat (length cells) = w * h).

Local Abbreviation emptyAt := (emptyAt cells w).
Local Abbreviation wallAt := (wallAt cells w).
Local Abbreviation frame := (frame cells w h).
Local Abbreviation empty_vec := (row_major w h (nb_word w h emptyAt)).
Local Abbreviation mat_vec := (row_major w h (mat_word cells w h)).

(** The caches agree with the cells on the first [k] of them. *)
Definition all_upto (k : Z) (g : t) : Prop :=
  frame g /\ models (empty_cells_ g) w h (upto w k emptyAt) /\
  models (wall_cells_ g) w h (upto w k wallAt) /\
  empty_vec k (empty_neighborhoods_ g) /\ mat_vec k (material_neighborhoods_ g).

(** All four caches are those of the cells. *)
Definition coherent (g : t) : Prop :=
  frame g /\ models (empty_cells_ g) w h emptyAt /\ models (wall_cells_ g) w h wallAt /\
  empty_vec (h * w) (empty_neighborhoods_ g) /\ mat_vec (h * w) (material_neighborhoods_ g).

Lemma populate_cell_ok x y g :
  0 <= x < w -> 0 <= y < h -> all_upto (y * w + x) g ->
  wp (populate_cell x y g) (all_upto (y * w + x + 1)).
Proof.
  intros Hx Hy (Hf & Hem & Hwm & Hev & Hmv). pose proof Hf as (Ec & Ew & Eh).
  destruct (get_cell cells w h Hlen x y Hx Hy) as (c & Hc & Hce & Hcw & _).
  pose proof (row_major_index w h x y Hx Hy).
  unfold populate_cell. rewrite Ec, Ew, Hc. cbn [rbind].
  apply wp_bind. eapply wp_mono; [apply (mark_empty_ok cells w h x y c g); done |].
  intros g1 (be & -> & Hbe). apply wp_bind.
  eapply wp_mono; [apply (mark_wall_ok cells w h x y c); done |].
  intros g2 (bw & -> & Hbw).
  rewrite (pack_both_all_ok cells w h Hlen) by done. cbn [rbind fst snd].
  destruct Hev as [Hel Hev], Hmv as [Hml Hmv].
  apply wp_bind, wp_vec_set; [cbn; lia |]. apply wp_bind, wp_vec_set; [cbn; lia |].
  split; [done |]. split; [done |]. split; [done |].
  split; by apply row_major_step.
Qed.

Lemma all_upto_coherent g : all_upto (h * w) g -> coherent g.
Proof.
  intros (Hf & He & Hwl & Hev & Hmv). split; [done |].
  split; [by apply upto_all |]. by split; [apply upto_all |].
Qed.

Lemma populateAll_ok g : all_upto 0 g -> wp (populateAll g) coherent.
Proof.
  intros H0. pose proof H0 as ((_ & Ew & Eh) & _). unfold populateAll. rewrite Ew, Eh.
  eapply wp_mono; [apply (wp_scan all_upto); [lia | lia | done |] | apply all_upto_coherent].
  intros x y g' Hx Hy Hg'. by apply populate_cell_ok.
Qed.

Lemma zero_vec_start {A} (f : Z -> Z -> A) (v : list A) n a :
  Z.of_nat n = w * h -> v = replicate n a -> row_major w h f 0 v.
Proof. intros Hn ->. apply row_major_start. by rewrite length_replicate. Qed.

Lemma make_ok : wp (make cells w h) coherent.
Proof.
  unfold make. apply wp_bind. eapply wp_mono; [by apply models_make |]. intros be Hbe.
  apply wp_bind. eapply wp_mono; [by apply models_make |]. intros bw Hbw.
  replace (w * h <? 0) with false by nia. cbv zeta. apply populateAll_ok.
  assert (forall z, 0 <= z <= 32767 -> s16 z = z) as Hs16
    by (intros z Hz; apply wrap_s_small; [lia |]; change (2 ^ (16 - 1)) with 32768; lia).
  split; [by repeat split; apply Hs16 |].
  split; [by apply upto_none |]. split; [by apply upto_none |].
  split; (eapply zero_vec_start; [| done]; nia).
Qed.

(** *** The three separate passes *)
Definition maps_upto (enb mnb : list Z) (k : Z) (g : t) : Prop :=
  frame g /\ models (empty_cells_ g) w h (upto w k emptyAt) /\
  models (wall_cells_ g) w h (upto w k wallAt) /\
  empty_neighborhoods_ g = enb /\ material_neighborhoods_ g = mnb.

Lemma populateMaps_ok enb mnb g :
  maps_upto enb mnb 0 g -> wp (populateMaps g) (maps_upto enb mnb (h * w)).
Proof.
  intros H0. pose proof H0 as ((_ & Ew & Eh) & _). unfold populateMaps. rewrite Ew, Eh.
  apply (wp_scan (maps_upto enb mnb)); [lia | lia | done |].
  clear g H0 Ew Eh. intros x y g Hx Hy (Hf & Hem & Hwm & Hev & Hmv).
  pose proof Hf as (Ec & Ew & Eh).
  destruct (get_cell cells w h Hlen x y Hx Hy) as (c & Hc & Hce & Hcw & _).
  rewrite Ec, Ew, Hc. cbn [rbind].
  apply wp_bind. eapply wp_mono; [apply (mark_empty_ok cells w h x y c g); done |].
  intros g1 (be & -> & Hbe).
  eapply wp_mono; [apply (mark_wall_ok cells w h x y c); done |].
  intros g2 (bw & -> & Hbw). do 3 (split; [done |]). done.
Qed.

Lemma precomputeEmpty_ok g be bw mnb :
  frame g -> models be w h emptyAt -> empty_cells_ g = be -> wall_cells_ g = bw ->
  material_neighborhoods_ g = mnb ->
  Z.of_nat (length (empty_neighborhoods_ g)) = w * h ->
  wp (precomputeEmptyNeighborhoods g) (fun g' => frame g' /\ empty_cells_ g' = be /\
    wall_cells_ g' = bw /\ material_neighborhoods_ g' = mnb /\
    empty_vec (h * w) (empty_neighborhoods_ g')).
Proof.
  intros Hf Hm Hbe Hbw Hmnb Hl. pose proof Hf as (_ & Ew & Eh).
  unfold precomputeEmptyNeighborhoods. rewrite Ew, Eh.
  apply (wp_scan (fun k g' => frame g' /\ empty_cells_ g' = be /\
    wall_cells_ g' = bw /\ material_neighborhoods_ g' = mnb /\
    empty_vec k (empty_neighborhoods_ g'))); [lia | lia | |].
  { do 4 (split; [done |]). by apply row_major_start. }
  clear g Hf Hbe Hbw Hmnb Hl Ew Eh.
  intros x y g Hx Hy (Hf & Hbe & Hbw & Hmnb & Hev). pose proof Hf as (Ec & Ew & Eh).
  pose proof (row_major_index w h x y Hx Hy).
  rewrite Hbe, (getNeighborhood3x3_ok be w h emptyAt x y Hm), Ew. cbn [rbind].
  pose proof Hev as [Hel _]. apply wp_bind, wp_vec_set; [lia |]. cbn [Neighborhood3x3.data].
  do 4 (split; [done |]). by apply row_major_step.
Qed.

Lemma precomputeMaterial_ok g be bw enb :
  frame g -> empty_cells_ g = be -> wall_cells_ g = bw -> empty_neighborhoods_ g = enb ->
  Z.of_nat (length (material_neighborhoods_ g)) = w * h ->
  wp (precomputeMaterialNeighborhoods g) (fun g' => frame g' /\ empty_cells_ g' = be /\
    wall_cells_ g' = bw /\ empty_neighborhoods_ g' = enb /\
    mat_vec (h * w) (material_neighborhoods_ g')).
Proof.
  intros Hf Hbe Hbw Henb Hl. pose proof Hf as (_ & Ew & Eh).
  unfold precomputeMaterialNeighborhoods. rewrite Ew, Eh.
  apply (wp_scan (fun k g' => frame g' /\ empty_cells_ g' = be /\
    wall_cells_ g' = bw /\ empty_neighborhoods_ g' = enb /\
    mat_vec k (material_neighborhoods_ g'))); [lia | lia | |].
  { do 4 (split; [done |]). by apply row_major_start. }
  clear g Hf Hbe Hbw Henb Hl Ew Eh.
  intros x y g Hx Hy (Hf & Hbe & Hbw & Henb & Hmv). pose proof Hf as (Ec & Ew & Eh).
  pose proof (row_major_index w h x y Hx Hy).
  rewrite (pack_material_all_ok cells w h Hlen) by done. cbn [rbind]. rewrite Ew.
  pose proof Hmv as [Hml _]. apply wp_bind, wp_vec_set; [lia |].
  do 4 (split; [done |]). by apply row_major_step.
Qed.

Lemma rebuild_ok g : coherent g -> wp (rebuildSeparatePasses g) coherent.
Proof.
  intros (Hf & _ & _ & [Hel _] & [Hml _]). pose proof Hf as (Ec & Ew & Eh).
  unfold rebuildSeparatePasses. rewrite Ew, Eh.
  apply wp_bind. eapply wp_mono; [by apply models_make |]. intros be Hbe.
  apply wp_bind. eapply wp_mono; [by apply models_make |]. intros bw Hbw. cbv zeta.
  set (enb := (fun _ => 0) <$> _). set (mnb := (fun _ => 0) <$> _).
  apply wp_bind. eapply wp_mono; [apply (populateMaps_ok enb mnb) |].
  { split; [done |]. split; [by apply upto_none |]. by split; [apply upto_none |]. }
  intros g1 (Hf1 & He1 & Hw1 & Henb1 & Hmnb1). apply upto_all in He1, Hw1; [| done ..].
  apply wp_bind. eapply wp_mono; [apply (precomputeEmpty_ok g1 _ _ mnb Hf1 He1 eq_refl eq_refl Hmnb1) |].
  { rewrite Henb1. unfold enb. by rewrite length_fmap. }
  intros g2 (Hf2 & He2 & Hw2 & Hmnb2 & Hev2).
  eapply wp_mono; [apply (precomputeMaterial_ok g2 _ _ _ Hf2 He2 Hw2 eq_refl) |].
  { rewrite Hmnb2. unfold mnb. by rewrite length_fmap. }
  intros g3 (Hf3 & He3 & Hw3 & Hev3 & Hmv3).
  split; [done |]. rewrite He3, Hw3, Hev3. done.
Qed.

(** The caches are a function of the cells. *)
Lemma coherent_unique g g' : coherent g -> coherent g' -> g = g'.
Proof.
  intros ((Ec & Ew & Eh) & He & Hwl & Hev & Hmv) ((Ec' & Ew' & Eh') & He' & Hwl' & Hev' & Hmv').
  pose proof (models_inj _ _ _ _ _ He He') as E1.
  pose proof (models_inj _ _ _ _ _ Hwl Hwl') as E2.
  pose proof (row_major_inj w h _ _ _ _ (proj1 Hw) (fun x y _ _ => eq_refl) Hev Hev') as E3.
  pose proof (row_major_inj w h _ _ _ _ (proj1 Hw) (fun x y _ _ => eq_refl) Hmv Hmv') as E4.
  destruct g, g'; simpl in *; congruence.
Qed.

(** *** Reading the caches *)
Lemma mat_group_read x y p :
  0 <= p < 9 ->
  u8 (Z.land (Z.shiftr (mat_word cells w h x y) (p * 4)) 0xF)
  = matAt cells w h (nb_x x p) (nb_y y p).
Proof.
  intros Hp. pose proof (matAt_range cells w h (nb_x x p) (nb_y y p)) as Hr.
  apply (word_ext 8); [lia | by apply wrap_u_range | simpl; lia |]. intros i Hi.
  rewrite wrap_u_testbit, decide_True by lia. change 0xF with (Z.ones 4).
  rewrite Z.land_spec, Z.shiftr_spec by lia. unfold mat_word. rewrite testbit_pack.
  unfold mat_bit. destruct (i <? 4) eqn:E.
  - rewrite Z.ones_spec_low, bool_decide_true, andb_true_r by lia. simpl.
    replace ((i + p * 4) / 4) with p by (Z.to_euclidean_division_equations; lia).
    f_equal. Z.to_euclidean_division_equations. lia.
  - rewrite Z.ones_spec_high, andb_false_r by lia. symmetry.
    apply (testbit_outside 4); [simpl; lia | lia].
Qed.

Lemma read_row_major {A} (f : Z -> Z -> A) v x y :
  row_major w h f (h * w) v -> 0 <= x < w -> 0 <= y < h -> vec_get v (y * w + x) = Ok (f x y).
Proof.
  intros [Hl Hv] Hx Hy. pose proof (row_major_index w h x y Hx Hy).
  apply vec_get_ok; [lia |]. apply Hv; [done | done | lia].
Qed.
End GridPasses.

(** ** Properties *)

(** C22. Building the cache over a [width * height] cell vector never indexes a
    vector out of range, and the caches are those of the cells: the two bitmaps
    answer [isEmpty] and [isWall] of every cell, the empty neighbourhood of a
    cell is the reference word of [isEmpty] around it, and every material of
    its material neighbourhood is that of the neighbour, Air outside the grid. *)
Theorem grid_cache_coherent (cells : list Cell.t) (w h : Z) :
  0 <= w <= 32767 -> 0 <= h <= 32767 -> Z.of_nat (length cells) = w * h ->
  exists g, GridOfCells.make cells w h = Ok g /\
    forall x y, 0 <= x < w -> 0 <= y < h -> exists c m,
      vec_get cells (y * w + x) = Ok c /\
      GridOfCells.at_ g x y = Ok c /\
      CellBitmap.isSet (GridOfCells.emptyCells g) x y = Ok (Cell.isEmpty c) /\
      CellBitmap.isSet (GridOfCells.wallCells g) x y = Ok (Cell.isWall c) /\
      GridOfCells.getEmptyNeighborhood g x y
        = Ok (EmptyNeighborhood.mk (Neighborhood3x3.mk (nb_word w h (emptyAt cells w) x y))) /\
      GridOfCells.getMaterialNeighborhood g x y = Ok m /\
      forall dx dy, -1 <= dx <= 1 -> -1 <= dy <= 1 ->
        MaterialNeighborhood.getMaterial m dx dy = matAt cells w h (x + dx) (y + dy).
Proof.
  intros Hw Hh Hlen.
  destruct (proj1 (wp_elim _ _) (make_ok cells w h Hw Hh Hlen)) as (g & Hg & Hc).
  destruct Hc as ((Ec & Ew & Eh) & He & Hwl & Hev & Hmv).
  exists g. split; [done |]. intros x y Hx Hy.
  destruct (get_cell cells w h Hlen x y Hx Hy) as (c & Hcell & Hce & Hcw & _).
  assert (in_grid w h x y = true) by (apply in_grid_iff; lia).
  exists c, (MaterialNeighborhood.mk (mat_word cells w h x y)).
  unfold GridOfCells.at_, GridOfCells.emptyCells, GridOfCells.wallCells,
    GridOfCells.getEmptyNeighborhood, GridOfCells.getMaterialNeighborhood.
  rewrite Ec, Ew, (read_row_major cells w h _ _ x y Hev Hx Hy),
    (read_row_major cells w h _ _ x y Hmv Hx Hy).
  split; [done |]. split; [done |].
  split; [by rewrite (models_isSet _ w h (emptyAt cells w)), Hce |].
  split; [by rewrite (models_isSet _ w h (wallAt cells w)), Hcw |].
  split; [done |]. split; [done |]. intros dx dy Hdx Hdy.
  destruct (bit_pos_range dx dy Hdx Hdy) as (Hp & Ex & Ey).
  unfold MaterialNeighborhood.getMaterial, MaterialNeighborhood.getMaterialByBitPos.
  fold (Neighborhood3x3.bit_pos dx dy). cbn [MaterialNeighborhood.data_]. cbv zeta.
  rewrite <- (Ex x), <- (Ey y). by apply mat_group_read.
Qed.

Definition demo_cell (m : Material.EnumType) (fill : f32) : Cell.t :=
  Cell.mk m fill vec2f_zero vec2f_zero fzero fzero vec2f_zero vec2f_zero (-1) 255.
Definition demo_cells : list Cell.t :=
  [ Cell.default; demo_cell Material.Wall (f32_of_Z 1); demo_cell Material.Dirt (f32_lit 1 2);
    demo_cell Material.Water (f32_of_Z 1); Cell.default; demo_cell Material.Sand (f32_lit 1 4) ].

Example grid_cache_coherent_witness :
  exists g c, GridOfCells.make demo_cells 3 2 = Ok g /\ vec_get demo_cells 1 = Ok c /\
    CellBitmap.isSet (GridOfCells.wallCells g) 1 0 = Ok (Cell.isWall c).
Proof.
  destruct (grid_cache_coherent demo_cells 3 2 ltac:(lia) ltac:(lia) eq_refl) as (g & Hg & H).
  destruct (H 1 0 ltac:(lia) ltac:(lia)) as (c & m & Hc & _ & _ & Hw & _).
  exists g, c. split; [exact Hg | split; [exact Hc | exact Hw]].
Defined.

(** The single-pass construction and the legacy three-pass rebuild are
    equivalent: [rebuildSeparatePasses] never faults on a built cache and gives
    back exactly the same bitmaps and neighbourhood vectors. *)
Lemma rebuild_equals_single_pass (cells : list Cell.t) (w h : Z) :
  0 <= w <= 32767 -> 0 <= h <= 32767 -> Z.of_nat (length cells) = w * h ->
  exists g, GridOfCells.make cells w h = Ok g /\ GridOfCells.rebuildSeparatePasses g = Ok g.
Proof.
  intros Hw Hh Hlen.
  destruct (proj1 (wp_elim _ _) (make_ok cells w h Hw Hh Hlen)) as (g & Hg & Hc).
  exists g. split; [done |].
  destruct (proj1 (wp_elim _ _) (rebuild_ok cells w h Hw Hh Hlen g Hc)) as (g' & Hg' & Hc').
  rewrite Hg'. f_equal. by apply (coherent_unique cells w h Hw).
Qed.

Example rebuild_equals_single_pass_witness :
  exists g, GridOfCells.make demo_cells 3 2 = Ok g /\ GridOfCells.rebuildSeparatePasses g = Ok g.
Proof.
  apply (rebuild_equals_single_pass demo_cells 3 2); [lia | lia | reflexivity].
Defined.
