(* ===== verification/NesTypes.v ===== *)
(** Data shared by the NES scenario and the search over it: controller frames
    and button masks ([core/input/PlayerControlFrame.h],
    [core/organisms/evolution/NesPolicyLayout.h]), the snapshots of the emulator
    ([core/scenarios/nes/SmolnesRuntime.h]), the decoded game state and the
    fitness snapshot ([NesSuperMarioBrosEvaluator.h], [NesFitnessDetails.h]).

    Integers are [Z] values at the width of the field; a [std::array] is a list
    together with its length ([array n]). *)

From Stdlib Require Import ZArith Lia Bool String.
From stdpp Require Import base gmap option numbers list.
From S2P Require Import Prelude Ieee.

Set Default Goal Selector "!".

(** ** [std::array<T, n>] *)
Record array (A : Type) (n : N) := mkArray {
  elems : list A;
  elems_length : N.of_nat (length elems) = n
}.
Arguments mkArray {A n} elems elems_length.
Arguments elems {A n} a.
Arguments elems_length {A n} a.

Lemma fill_length {A} (n : N) (x : A) : N.of_nat (length (replicate (N.to_nat n) x)) = n.
Proof. rewrite length_replicate. apply N2Nat.id. Qed.

(** [array{}] filled with one value. *)
Definition array_fill {A} (n : N) (x : A) : array A n :=
  mkArray (replicate (N.to_nat n) x) (fill_length n x).

(** [at] never throws inside the array. *)
Lemma wp_array_at {A n} (a : array A n) i (Q : A -> Prop) :
  0 <= i < Z.of_N n -> (forall x, Q x) -> wp (vec_at (elems a) i) Q.
Proof. intros Hi HQ. apply wp_vec_at; [pose proof (elems_length a); lia | auto]. Qed.

(** ** Controller frames *)
Module PlayerControlButtons.
Definition ButtonA : Z := Z.shiftl 1 0.
Definition ButtonB : Z := Z.shiftl 1 1.
Definition ButtonX : Z := Z.shiftl 1 2.
Definition ButtonY : Z := Z.shiftl 1 3.
Definition ButtonSelect : Z := Z.shiftl 1 4.
Definition ButtonStart : Z := Z.shiftl 1 5.
End PlayerControlButtons.

Record PlayerControlFrame := mkPlayerControlFrame {
  xAxis : Z;
  yAxis : Z;
  buttons : Z
}.

#[export] Instance PlayerControlFrame_eq_dec : EqDecision PlayerControlFrame.
Proof. solve_decision. Defined.

Module NesPolicyLayout.
Definition ButtonA : Z := Z.shiftl 1 0.
Definition ButtonB : Z := Z.shiftl 1 1.
Definition ButtonSelect : Z := Z.shiftl 1 2.
Definition ButtonStart : Z := Z.shiftl 1 3.
Definition ButtonUp : Z := Z.shiftl 1 4.
Definition ButtonDown : Z := Z.shiftl 1 5.
Definition ButtonLeft : Z := Z.shiftl 1 6.
Definition ButtonRight : Z := Z.shiftl 1 7.
End NesPolicyLayout.

(** ** [SmolnesRuntime] snapshots *)
Definition SMOLNES_RUNTIME_CPU_RAM_BYTES : N := 8192.
Definition SMOLNES_RUNTIME_PRG_RAM_BYTES : N := 8192.

Record MemorySnapshot := mkMemorySnapshot {
  ms_frameId : Z;
  cpuRam : array Z SMOLNES_RUNTIME_CPU_RAM_BYTES;
  prgRam : array Z SMOLNES_RUNTIME_PRG_RAM_BYTES
}.

Definition MemorySnapshot_default : MemorySnapshot :=
  mkMemorySnapshot 0 (array_fill _ 0) (array_fill _ 0).

Record Savestate := mkSavestate {
  ss_frameId : Z;
  ss_bytes : list Z
}.

Record ScenarioVideoFrame := mkScenarioVideoFrame {
  vf_width : Z;
  vf_height : Z;
  vf_frame_id : Z;
  vf_pixels : list Z
}.

(** ** Decoded game state *)
Module SmbPhase.
Inductive t := NonGameplay | Gameplay.
#[global] Instance eq_dec : EqDecision t.
Proof. solve_decision. Defined.
Definition to_Z (p : t) : Z :=
  match p with NonGameplay => 0 | Gameplay => 1 end.
End SmbPhase.

Module SmbGameMode.
Inductive t := StartDemo | Normal | EndCurrentWorld | EndGame | Unknown.
#[global] Instance eq_dec : EqDecision t.
Proof. solve_decision. Defined.
End SmbGameMode.

Module SmbLifeState.
Inductive t := Alive | Dying | Dead.
#[global] Instance eq_dec : EqDecision t.
Proof. solve_decision. Defined.
Definition to_Z (p : t) : Z :=
  match p with Alive => 0 | Dying => 1 | Dead => 2 end.
End SmbLifeState.

Module SmbPlayerState.
Inductive t := LeftmostOfScreen | ClimbingVine | EnteringReversedLPipe | GoingDownPipe
  | Autowalk | AutowalkAlt | PlayerDies | EnteringArea | Normal | Growing | Shrinking
  | Dying | BecomingFire | Unknown.
#[global] Instance eq_dec : EqDecision t.
Proof. solve_decision. Defined.
End SmbPlayerState.

Module SmbFloatState.
Inductive t := GroundedOrOther | Jumping | WalkedOffLedge | SlidingFlagpole | Unknown.
#[global] Instance eq_dec : EqDecision t.
Proof. solve_decision. Defined.
End SmbFloatState.

Module SmbPowerupState.
Inductive t := Small | Big | Fire.
#[global] Instance eq_dec : EqDecision t.
Proof. solve_decision. Defined.
Definition to_Z (p : t) : Z :=
  match p with Small => 0 | Big => 1 | Fire => 2 end.
End SmbPowerupState.

Module SmbEpisodeEndReason.
Inductive t := None | LifeLost | NoProgressTimeout | FellBelowScreen.
#[global] Instance eq_dec : EqDecision t.
Proof. solve_decision. Defined.
End SmbEpisodeEndReason.

Module NesSuperMarioBrosState.
Record t := mk {
  phase : SmbPhase.t;
  gameMode : SmbGameMode.t;
  lifeState : SmbLifeState.t;
  playerState : SmbPlayerState.t;
  floatState : SmbFloatState.t;
  powerupState : SmbPowerupState.t;
  airborne : bool;
  enemyPresent : bool;
  secondEnemyPresent : bool;
  facingX : f32;
  movementX : f32;
  horizontalSpeedNormalized : f64;
  verticalSpeedNormalized : f64;
  nearestEnemyDx : Z;
  nearestEnemyDy : Z;
  secondNearestEnemyDx : Z;
  secondNearestEnemyDy : Z;
  world : Z;
  level : Z;
  absoluteX : Z;
  playerXScreen : Z;
  playerYScreen : Z;
  lives : Z
}.
End NesSuperMarioBrosState.

(** ** [NesFitnessDetails] *)
Module NesSuperMarioBrosFitnessSnapshot.
Record t := mk {
  totalReward : f64;
  distanceRewardTotal : f64;
  levelClearRewardTotal : f64;
  gameplayFrames : Z;
  framesSinceProgress : Z;
  noProgressTimeoutFrames : Z;
  bestStageIndex : Z;
  bestWorld : Z;
  bestLevel : Z;
  bestAbsoluteX : Z;
  currentWorld : Z;
  currentLevel : Z;
  currentAbsoluteX : Z;
  currentLives : Z;
  endReason : SmbEpisodeEndReason.t;
  done : bool
}.
End NesSuperMarioBrosFitnessSnapshot.

(** [std::variant<std::monostate, NesSuperMarioBrosFitnessSnapshot>]. *)
Inductive NesFitnessDetails :=
| FitnessMonostate
| FitnessSmb (snapshot : NesSuperMarioBrosFitnessSnapshot.t).

(** ** Controller resolution *)
Inductive NesGameAdapterControllerSource := InferredPolicy | ScriptedSetup | LiveInput.
#[export] Instance NesGameAdapterControllerSource_eq_dec : EqDecision NesGameAdapterControllerSource.
Proof. solve_decision. Defined.

Record NesGameAdapterControllerInput := mkControllerInput {
  inferredControllerMask : Z;
  lastGameState : option Z
}.

Record NesGameAdapterControllerOutput := mkControllerOutput {
  resolvedControllerMask : Z;
  source : NesGameAdapterControllerSource;
  sourceFrameIndex : option Z
}.

(** [std::optional::value_or]. *)
Definition value_or {A} (o : option A) (d : A) : A := match o with Some a => a | None => d end.
