(* ===== verification/SmbEvaluator.v ===== *)
(** The progress and reward bookkeeping of an episode:
    [core/scenarios/nes/NesSuperMarioBrosEvaluator.{h,cpp}]. *)

From Stdlib Require Import ZArith Lia Bool String.
From stdpp Require Import base gmap option numbers list.
From S2P Require Import Prelude Ieee IeeeRound NesTypes.

Set Default Goal Selector "!".

Module NesSuperMarioBrosEvaluator.

Definition kLevelsPerWorld : Z := 4.
Definition kSmbNoProgressTimeoutFrames : Z := 1800.
Definition kBelowScreenTerminalPlayerYScreenThreshold : Z := 224.
Definition kDistanceReward : f64 := f64_lit 1 2.
Definition kLevelClearReward : f64 := f64_of_Z 1000.
Definition kNoProgressTimeoutFrames : Z := 1800.

Record t := mk {
  hasBestProgress_ : bool;
  hasLastLives_ : bool;
  gameplayFrameCount_ : Z;
  lastProgressFrame_ : Z;
  bestStageIndex_ : Z;
  bestAbsoluteX_ : Z;
  lastLives_ : Z;
  distanceRewardTotal_ : f64;
  levelClearRewardTotal_ : f64
}.

Record Input := mkInput {
  advancedFrames : Z;
  state : NesSuperMarioBrosState.t
}.

Record Output := mkOutput {
  done : bool;
  rewardDelta : f64;
  distanceRewardDelta : f64;
  levelClearRewardDelta : f64;
  endReason : SmbEpisodeEndReason.t;
  snapshot : NesSuperMarioBrosFitnessSnapshot.t
}.

Definition getStageIndex (s : NesSuperMarioBrosState.t) : Z :=
  u32 (u32 (NesSuperMarioBrosState.world s * kLevelsPerWorld) + NesSuperMarioBrosState.level s).

Definition getStageLevel (stageIndex : Z) : Z := u8 (stageIndex mod kLevelsPerWorld).
Definition getStageWorld (stageIndex : Z) : Z := u8 (stageIndex / kLevelsPerWorld).

Definition makeSnapshot (s : NesSuperMarioBrosState.t) (gameplayFrameCount lastProgressFrame
    bestStageIndex bestAbsoluteX : Z) (distanceRewardTotal levelClearRewardTotal : f64)
    (noProgressTimeoutFrames : Z) (endReason : SmbEpisodeEndReason.t) (done : bool)
    : NesSuperMarioBrosFitnessSnapshot.t :=
  {| NesSuperMarioBrosFitnessSnapshot.totalReward := f64_add distanceRewardTotal levelClearRewardTotal;
     NesSuperMarioBrosFitnessSnapshot.distanceRewardTotal := distanceRewardTotal;
     NesSuperMarioBrosFitnessSnapshot.levelClearRewardTotal := levelClearRewardTotal;
     NesSuperMarioBrosFitnessSnapshot.gameplayFrames := gameplayFrameCount;
     NesSuperMarioBrosFitnessSnapshot.framesSinceProgress :=
       if lastProgressFrame <=? gameplayFrameCount
       then u64 (gameplayFrameCount - lastProgressFrame) else 0;
     NesSuperMarioBrosFitnessSnapshot.noProgressTimeoutFrames := noProgressTimeoutFrames;
     NesSuperMarioBrosFitnessSnapshot.bestStageIndex := bestStageIndex;
     NesSuperMarioBrosFitnessSnapshot.bestWorld := getStageWorld bestStageIndex;
     NesSuperMarioBrosFitnessSnapshot.bestLevel := getStageLevel bestStageIndex;
     NesSuperMarioBrosFitnessSnapshot.bestAbsoluteX := bestAbsoluteX;
     NesSuperMarioBrosFitnessSnapshot.currentWorld := NesSuperMarioBrosState.world s;
     NesSuperMarioBrosFitnessSnapshot.currentLevel := NesSuperMarioBrosState.level s;
     NesSuperMarioBrosFitnessSnapshot.currentAbsoluteX := NesSuperMarioBrosState.absoluteX s;
     NesSuperMarioBrosFitnessSnapshot.currentLives := NesSuperMarioBrosState.lives s;
     NesSuperMarioBrosFitnessSnapshot.endReason := endReason;
     NesSuperMarioBrosFitnessSnapshot.done := done |}.

(** The snapshot of the evaluator's own fields. *)
Definition snapshot_of (e : t) (s : NesSuperMarioBrosState.t) (r : SmbEpisodeEndReason.t)
    (d : bool) : NesSuperMarioBrosFitnessSnapshot.t :=
  makeSnapshot s (gameplayFrameCount_ e) (lastProgressFrame_ e) (bestStageIndex_ e)
    (bestAbsoluteX_ e) (distanceRewardTotal_ e) (levelClearRewardTotal_ e)
    kSmbNoProgressTimeoutFrames r d.

(** A default-constructed evaluator, and what [reset] gives. *)
Definition reset : t := mk false false 0 0 0 0 0 fzero fzero.

Definition restoreProgress (bestStageIndex bestAbsoluteX : Z)
    (distanceRewardTotal levelClearRewardTotal : f64)
    (gameplayFrames gameplayFramesSinceProgress : Z) : t :=
  {| hasBestProgress_ := true;
     hasLastLives_ := hasLastLives_ reset;
     gameplayFrameCount_ := gameplayFrames;
     lastProgressFrame_ :=
       if gameplayFramesSinceProgress <=? gameplayFrames
       then u64 (gameplayFrames - gameplayFramesSinceProgress) else 0;
     bestStageIndex_ := bestStageIndex;
     bestAbsoluteX_ := bestAbsoluteX;
     lastLives_ := lastLives_ reset;
     distanceRewardTotal_ := distanceRewardTotal;
     levelClearRewardTotal_ := levelClearRewardTotal |}.

Definition with_frames (e : t) (n : Z) : t :=
  mk (hasBestProgress_ e) (hasLastLives_ e) n (lastProgressFrame_ e) (bestStageIndex_ e)
    (bestAbsoluteX_ e) (lastLives_ e) (distanceRewardTotal_ e) (levelClearRewardTotal_ e).
Definition with_lives (e : t) (l : Z) : t :=
  mk (hasBestProgress_ e) true (gameplayFrameCount_ e) (lastProgressFrame_ e) (bestStageIndex_ e)
    (bestAbsoluteX_ e) l (distanceRewardTotal_ e) (levelClearRewardTotal_ e).
Definition with_last (e : t) (n : Z) : t :=
  mk (hasBestProgress_ e) (hasLastLives_ e) (gameplayFrameCount_ e) n (bestStageIndex_ e)
    (bestAbsoluteX_ e) (lastLives_ e) (distanceRewardTotal_ e) (levelClearRewardTotal_ e).

(** [if (!hasBestProgress_) { ... }]. *)
Definition start_progress (e : t) (stage x : Z) : t :=
  if hasBestProgress_ e then e
  else mk true (hasLastLives_ e) (gameplayFrameCount_ e) (gameplayFrameCount_ e) stage x
         (lastLives_ e) (distanceRewardTotal_ e) (levelClearRewardTotal_ e).

(** [if (currentStageIndex > bestStageIndex_) { ... }]: evaluator,
    [levelClearRewardDelta], [rewardDelta] and [frontierImproved]. *)
Definition advance_stage (e : t) (stage : Z) : t * f64 * f64 * bool :=
  if bestStageIndex_ e <? stage then
    let delta := f64_mul kLevelClearReward (f64_of_Z (u32 (stage - bestStageIndex_ e))) in
    (mk (hasBestProgress_ e) (hasLastLives_ e) (gameplayFrameCount_ e) (lastProgressFrame_ e)
       stage 0 (lastLives_ e) (distanceRewardTotal_ e) (f64_add (levelClearRewardTotal_ e) delta),
     delta, f64_add fzero delta, true)
  else (e, fzero, fzero, false).

(** [if (currentStageIndex == bestStageIndex_ && absoluteX > bestAbsoluteX_) { ... }]. *)
Definition advance_distance (e : t) (stage x : Z) (reward : f64) (improved : bool)
    : t * f64 * f64 * bool :=
  if (stage =? bestStageIndex_ e) && (bestAbsoluteX_ e <? x) then
    let delta := f64_mul kDistanceReward (f64_of_Z (x - bestAbsoluteX_ e)) in
    (mk (hasBestProgress_ e) (hasLastLives_ e) (gameplayFrameCount_ e) (lastProgressFrame_ e)
       (bestStageIndex_ e) x (lastLives_ e) (f64_add (distanceRewardTotal_ e) delta)
       (levelClearRewardTotal_ e),
     delta, f64_add reward delta, true)
  else (e, fzero, reward, improved).

Definition life_lost (e : t) (s : NesSuperMarioBrosState.t) : t * Output :=
  (e, mkOutput true fzero fzero fzero SmbEpisodeEndReason.LifeLost
        (snapshot_of e s SmbEpisodeEndReason.LifeLost true)).

(** The part of [evaluate] below the life checks: the player is alive. *)
Definition evaluate_alive (e : t) (s : NesSuperMarioBrosState.t) (stage : Z) : t * Output :=
  let '(e, levelDelta, reward, improved) := advance_stage e stage in
  let '(e, distDelta, reward, improved) :=
    advance_distance e stage (NesSuperMarioBrosState.absoluteX s) reward improved in
  let e := if improved then with_last e (gameplayFrameCount_ e) else e in
  let '(done, reason) :=
    if kBelowScreenTerminalPlayerYScreenThreshold <=? NesSuperMarioBrosState.playerYScreen s
    then (true, SmbEpisodeEndReason.FellBelowScreen)
    else if kNoProgressTimeoutFrames <=? u64 (gameplayFrameCount_ e - lastProgressFrame_ e)
    then (true, SmbEpisodeEndReason.NoProgressTimeout)
    else (false, SmbEpisodeEndReason.None) in
  (e, mkOutput done reward distDelta levelDelta reason (snapshot_of e s reason done)).

Definition terminal_state (s : NesSuperMarioBrosState.t) : bool :=
  bool_decide (NesSuperMarioBrosState.gameMode s = SmbGameMode.EndGame)
  || bool_decide (NesSuperMarioBrosState.lifeState s <> SmbLifeState.Alive).

Definition evaluate (e : t) (input : Input) : t * Output :=
  let s := state input in
  let concreteTerminalCandidate := hasBestProgress_ e && terminal_state s in
  if bool_decide (NesSuperMarioBrosState.phase s <> SmbPhase.Gameplay)
     && negb concreteTerminalCandidate
  then (e, mkOutput false fzero fzero fzero SmbEpisodeEndReason.None
             (snapshot_of e s SmbEpisodeEndReason.None false))
  else
    let e := with_frames e (u64 (gameplayFrameCount_ e + advancedFrames input)) in
    let currentStageIndex := getStageIndex s in
    let e := start_progress e currentStageIndex (NesSuperMarioBrosState.absoluteX s) in
    let lives := NesSuperMarioBrosState.lives s in
    if hasLastLives_ e && (lives <? lastLives_ e) then life_lost (with_lives e lives) s
    else
      let e := with_lives e lives in
      if terminal_state s then life_lost e s
      else evaluate_alive e s currentStageIndex.

End NesSuperMarioBrosEvaluator.

(** ** Specification *)
Section EvaluatorFacts.
Import NesSuperMarioBrosEvaluator.
Implicit Types (e : t) (s : NesSuperMarioBrosState.t) (i : Input).

(** Field ranges of a decoded state. *)
Definition state_wf s : Prop :=
  0 <= NesSuperMarioBrosState.world s < 2 ^ 8 /\ 0 <= NesSuperMarioBrosState.level s < 2 ^ 8 /\
  0 <= NesSuperMarioBrosState.absoluteX s < 2 ^ 16.

(** Progress never lies in the future, and the best position fits its fields. *)
Definition evaluator_wf e : Prop :=
  0 <= lastProgressFrame_ e <= gameplayFrameCount_ e /\ gameplayFrameCount_ e < 2 ^ 64 /\
  0 <= bestStageIndex_ e < 2 ^ 32 /\ 0 <= bestAbsoluteX_ e < 2 ^ 16.

(** The frame counter does not wrap. *)
Definition input_wf e i : Prop :=
  state_wf (state i) /\ 0 <= advancedFrames i /\ gameplayFrameCount_ e + advancedFrames i < 2 ^ 64.

(** Position in the game: stage first, then horizontal distance. *)
Definition rank e : Z := bestStageIndex_ e * 2 ^ 16 + bestAbsoluteX_ e.
Definition state_rank s : Z := getStageIndex s * 2 ^ 16 + NesSuperMarioBrosState.absoluteX s.

(** The frame is counted: gameplay, or a death after progress was made. *)
Definition counted e i : bool :=
  bool_decide (NesSuperMarioBrosState.phase (state i) = SmbPhase.Gameplay)
  || (hasBestProgress_ e && terminal_state (state i)).

Definition lives_dropped e i : bool :=
  hasLastLives_ e && (NesSuperMarioBrosState.lives (state i) <? lastLives_ e).
Definition survives e i : bool := negb (lives_dropped e i) && negb (terminal_state (state i)).

(** Best position after a counted frame. *)
Definition next_rank e i : Z :=
  if hasBestProgress_ e then
    if survives e i then Z.max (rank e) (state_rank (state i)) else rank e
  else state_rank (state i).

Definition next_last e i : Z :=
  if hasBestProgress_ e && (next_rank e i =? rank e) then lastProgressFrame_ e
  else gameplayFrameCount_ e + advancedFrames i.

Definition next_reason e i : SmbEpisodeEndReason.t :=
  if negb (counted e i) then SmbEpisodeEndReason.None
  else if negb (survives e i) then SmbEpisodeEndReason.LifeLost
  else if 224 <=? NesSuperMarioBrosState.playerYScreen (state i)
  then SmbEpisodeEndReason.FellBelowScreen
  else if 1800 <=? gameplayFrameCount_ e + advancedFrames i - next_last e i
  then SmbEpisodeEndReason.NoProgressTimeout
  else SmbEpisodeEndReason.None.

Lemma getStageIndex_range s : state_wf s -> 0 <= getStageIndex s < 2 ^ 11.
Proof.
  intros (Hw & Hl & _). unfold getStageIndex, kLevelsPerWorld.
  rewrite (wrap_u_small 32 (_ * 4)) by lia. rewrite wrap_u_small; lia.
Qed.

(** What the two frontier updates do together. *)
Lemma advance_spec e s :
  evaluator_wf e -> state_wf s ->
  let '(e1, _, r, i1) := advance_stage e (getStageIndex s) in
  let '(e2, _, _, i2) := advance_distance e1 (getStageIndex s) (NesSuperMarioBrosState.absoluteX s) r i1 in
  evaluator_wf e2 /\ rank e2 = Z.max (rank e) (state_rank s) /\ i2 = negb (rank e2 =? rank e) /\
  hasBestProgress_ e2 = hasBestProgress_ e /\ hasLastLives_ e2 = hasLastLives_ e /\
  lastLives_ e2 = lastLives_ e /\ gameplayFrameCount_ e2 = gameplayFrameCount_ e /\
  lastProgressFrame_ e2 = lastProgressFrame_ e.
Proof.
  intros (Hl & Hc & Hst & Hx) Hs. pose proof (getStageIndex_range s Hs) as Hg.
  destruct Hs as (_ & _ & Hxs). unfold advance_stage, advance_distance, rank, state_rank, evaluator_wf.
  destruct (bestStageIndex_ e <? getStageIndex s) eqn:E1; simpl.
  - rewrite Z.eqb_refl. destruct (0 <? NesSuperMarioBrosState.absoluteX s) eqn:E2; simpl;
      (split; [lia |]); (split; [lia |]); (split; [symmetry; apply negb_true_iff; lia |]); done.
  - destruct ((getStageIndex s =? bestStageIndex_ e) && _) eqn:E2; simpl;
      (split; [lia |]); (split; [lia |]); (split; [| done]).
    + symmetry. apply negb_true_iff. lia.
    + by rewrite Z.eqb_refl.
Qed.

Lemma makeSnapshot_fields e s r d :
  evaluator_wf e ->
  NesSuperMarioBrosFitnessSnapshot.framesSinceProgress (snapshot_of e s r d)
  = gameplayFrameCount_ e - lastProgressFrame_ e.
Proof.
  intros (Hl & Hc & _). simpl. rewrite (proj2 (Z.leb_le _ _)) by lia. rewrite wrap_u_small; lia.
Qed.

Lemma start_progress_spec e stage x :
  evaluator_wf e -> 0 <= stage < 2 ^ 32 -> 0 <= x < 2 ^ 16 ->
  let e' := start_progress e stage x in
  evaluator_wf e' /\ hasBestProgress_ e' = true /\ hasLastLives_ e' = hasLastLives_ e /\
  lastLives_ e' = lastLives_ e /\ gameplayFrameCount_ e' = gameplayFrameCount_ e /\
  rank e' = (if hasBestProgress_ e then rank e else stage * 2 ^ 16 + x) /\
  lastProgressFrame_ e' =
    (if hasBestProgress_ e then lastProgressFrame_ e else gameplayFrameCount_ e).
Proof.
  intros Hwf Hst Hx. unfold start_progress. destruct (hasBestProgress_ e) eqn:E; [done |].
  unfold evaluator_wf, rank in *; simpl. destruct Hwf as (? & ? & ? & ?).
  repeat split; try lia; done.
Qed.

Lemma with_frames_wf e n :
  evaluator_wf e -> gameplayFrameCount_ e <= n < 2 ^ 64 -> evaluator_wf (with_frames e n).
Proof. unfold evaluator_wf. simpl. lia. Qed.

(** The evaluator and the output after one frame, on every branch. *)
Definition evaluate_spec e i (r : t * Output) : Prop :=
  let '(e', o) := r in
  evaluator_wf e' /\
  endReason o = next_reason e i /\ done o = negb (bool_decide (endReason o = SmbEpisodeEndReason.None)) /\
  snapshot o = snapshot_of e' (state i) (endReason o) (done o) /\
  (if counted e i then
     hasBestProgress_ e' = true /\ hasLastLives_ e' = true /\
     lastLives_ e' = NesSuperMarioBrosState.lives (state i) /\
     gameplayFrameCount_ e' = gameplayFrameCount_ e + advancedFrames i /\
     rank e' = next_rank e i /\ lastProgressFrame_ e' = next_last e i
   else e' = e).

Lemma counted_neg e i :
  bool_decide (NesSuperMarioBrosState.phase (state i) <> SmbPhase.Gameplay)
  && negb (hasBestProgress_ e && terminal_state (state i)) = negb (counted e i).
Proof.
  unfold counted. rewrite bool_decide_not.
  by destruct (bool_decide (_ = SmbPhase.Gameplay)), (hasBestProgress_ e && _).
Qed.

(** The part of [evaluate] that runs while the player is alive. *)
Lemma evaluate_alive_spec e s :
  evaluator_wf e -> state_wf s ->
  let '(e', o) := evaluate_alive e s (getStageIndex s) in
  evaluator_wf e' /\ rank e' = Z.max (rank e) (state_rank s) /\
  hasBestProgress_ e' = hasBestProgress_ e /\ hasLastLives_ e' = hasLastLives_ e /\
  lastLives_ e' = lastLives_ e /\ gameplayFrameCount_ e' = gameplayFrameCount_ e /\
  lastProgressFrame_ e' =
    (if rank e' =? rank e then lastProgressFrame_ e else gameplayFrameCount_ e) /\
  endReason o =
    (if 224 <=? NesSuperMarioBrosState.playerYScreen s then SmbEpisodeEndReason.FellBelowScreen
     else if 1800 <=? gameplayFrameCount_ e - lastProgressFrame_ e'
     then SmbEpisodeEndReason.NoProgressTimeout else SmbEpisodeEndReason.None) /\
  done o = negb (bool_decide (endReason o = SmbEpisodeEndReason.None)) /\
  snapshot o = snapshot_of e' s (endReason o) (done o).
Proof.
  intros He Hs. pose proof (advance_spec e s He Hs) as H. unfold evaluate_alive.
  destruct (advance_stage e (getStageIndex s)) as [[[e1 d1] r1] i1].
  destruct (advance_distance e1 _ _ r1 i1) as [[[e2 d2] r2] i2].
  destruct H as (Hwf & Hr & Hi & Hb & Hl & Hll & Hc & Hp).
  set (e3 := if i2 then with_last e2 (gameplayFrameCount_ e2) else e2).
  assert (evaluator_wf e3 /\ rank e3 = rank e2 /\ hasBestProgress_ e3 = hasBestProgress_ e2 /\
    hasLastLives_ e3 = hasLastLives_ e2 /\ lastLives_ e3 = lastLives_ e2 /\
    gameplayFrameCount_ e3 = gameplayFrameCount_ e2 /\
    lastProgressFrame_ e3 = (if i2 then gameplayFrameCount_ e2 else lastProgressFrame_ e2))
    as (Hwf3 & Hr3 & Hb3 & Hl3 & Hll3 & Hc3 & Hp3).
  { unfold e3. destruct i2; [| done]. unfold evaluator_wf in *. simpl. repeat split; try done; lia. }
  clearbody e3. rewrite Hc3, Hc. unfold kBelowScreenTerminalPlayerYScreenThreshold, kNoProgressTimeoutFrames.
  rewrite (wrap_u_small 64) by (destruct Hwf3; lia).
  assert (lastProgressFrame_ e3 =
    (if rank e3 =? rank e then lastProgressFrame_ e else gameplayFrameCount_ e))
    as Hlast by (rewrite Hp3, Hi, Hr3, Hc, Hp; by destruct (_ =? _)).
  destruct (224 <=? _); [| destruct (1800 <=? _) eqn:E]; cbn [endReason done snapshot];
    (split; [done |]); rewrite ?E;
    repeat (split; [congruence || reflexivity |]); done.
Qed.

Lemma life_lost_spec e s :
  evaluator_wf e ->
  let '(e', o) := life_lost e s in
  e' = e /\ endReason o = SmbEpisodeEndReason.LifeLost /\ done o = true /\
  snapshot o = snapshot_of e s SmbEpisodeEndReason.LifeLost true.
Proof. done. Qed.

Lemma with_lives_wf e l : evaluator_wf e -> evaluator_wf (with_lives e l).
Proof. done. Qed.

Lemma evaluate_meets_spec e i :
  evaluator_wf e -> input_wf e i -> evaluate_spec e i (evaluate e i).
Proof.
  intros He (Hs & Ha & Hn). unfold evaluate. cbv zeta. rewrite counted_neg.
  destruct (counted e i) eqn:Hcnt; cbn [negb].
  2: { unfold evaluate_spec, next_reason. rewrite Hcnt. by cbn. }
  rewrite (wrap_u_small 64) by (destruct He; lia).
  pose proof (getStageIndex_range _ Hs) as Hg. pose proof Hs as (_ & _ & Hx).
  set (e0 := with_frames e _).
  assert (evaluator_wf e0) as He0 by (apply with_frames_wf; [done |]; destruct He; lia).
  destruct (start_progress_spec e0 (getStageIndex (state i)) (NesSuperMarioBrosState.absoluteX (state i))
    He0 ltac:(lia) Hx) as (He1 & Hb1 & Hl1 & Hll1 & Hc1 & Hr1 & Hp1).
  set (e1 := start_progress e0 _ _) in *. clearbody e1.
  assert (hasLastLives_ e1 && (NesSuperMarioBrosState.lives (state i) <? lastLives_ e1)
    = lives_dropped e i) as -> by (rewrite Hl1, Hll1; done).
  unfold evaluate_spec, next_reason, survives, next_last, next_rank, survives.
  rewrite Hcnt. cbn [negb andb].
  destruct (lives_dropped e i) eqn:Hld; cbn [negb andb].
  - cbn -[rank Z.pow Z.eqb]. change (rank (with_lives e1 _)) with (rank e1).
    do 4 (split; [done |]). do 4 (split; [done |]).
    rewrite Hr1, Hp1. change (rank e0) with (rank e). cbn -[rank Z.pow Z.eqb]. destruct (hasBestProgress_ e); [| done]. by rewrite Z.eqb_refl.
  - destruct (terminal_state (state i)) eqn:Hts; cbn [negb andb].
    + cbn -[rank Z.pow Z.eqb]. change (rank (with_lives e1 _)) with (rank e1).
      do 4 (split; [done |]). do 4 (split; [done |]).
      rewrite Hr1, Hp1. change (rank e0) with (rank e). cbn -[rank Z.pow Z.eqb]. destruct (hasBestProgress_ e); [| done]. by rewrite Z.eqb_refl.
    + pose proof (evaluate_alive_spec (with_lives e1 (NesSuperMarioBrosState.lives (state i)))
        (state i) (with_lives_wf _ _ He1) Hs) as H.
      destruct (evaluate_alive _ _ _) as [e' o].
      destruct H as (Hwf & Hr & Hb & Hl & Hll & Hc & Hp & Hrs & Hd & Hsn).
      change (rank (with_lives e1 _)) with (rank e1) in Hr, Hp.
      cbn [with_lives gameplayFrameCount_ lastProgressFrame_ hasBestProgress_ hasLastLives_ lastLives_]
        in Hc, Hp, Hrs, Hl, Hll, Hb.
      change (rank e0) with (rank e) in Hr1. cbn [e0 with_frames hasBestProgress_ gameplayFrameCount_ lastProgressFrame_] in *.
      assert (rank e' = if hasBestProgress_ e then Z.max (rank e) (state_rank (state i))
        else state_rank (state i)) as Hrank.
      { rewrite Hr, Hr1. destruct (hasBestProgress_ e); [done |]. unfold state_rank. lia. }
      assert (lastProgressFrame_ e' = if hasBestProgress_ e && (rank e' =? rank e)
        then lastProgressFrame_ e else gameplayFrameCount_ e + advancedFrames i) as Hlast.
      { rewrite Hp, Hp1, Hr1, Hc1. destruct (hasBestProgress_ e); cbn [andb]; [done |].
        by match goal with |- (if ?b then _ else _) = _ => destruct b end. }
      rewrite <- Hrank. rewrite <- Hlast.
      split; [done |]. split; [rewrite Hrs, Hc1; done |]. do 2 (split; [done |]).
      do 3 (split; [congruence |]). split; [by rewrite Hc, Hc1 |]. done.
Qed.

(** *** Rewards *)

(** Stages cleared and distance covered by a frame: nothing on the frame that
    starts the bookkeeping, nor on one that is not counted or not survived; on a
    new stage the distance is counted from its start. *)
Definition rewarded e i : bool := counted e i && survives e i && hasBestProgress_ e.
Definition levels_gained e i : Z :=
  if rewarded e i then Z.max 0 (getStageIndex (state i) - bestStageIndex_ e) else 0.
Definition distance_gained e i : Z :=
  let stage := getStageIndex (state i) in
  let x := NesSuperMarioBrosState.absoluteX (state i) in
  if negb (rewarded e i) then 0
  else if bestStageIndex_ e <? stage then x
  else if stage =? bestStageIndex_ e then Z.max 0 (x - bestAbsoluteX_ e) else 0.

(** A non-negative finite [double] of exactly [halves / 2]. *)
Definition worth (halves : Z) (x : f64) : Prop := within (halves * 2 ^ 1073) (halves * 2 ^ 1073) x.

(** A thousand points for a stage, half a point for a unit of distance; the
    totals take up what was earned. *)
Definition rewards_spec e i (r : t * Output) : Prop :=
  let '(e', o) := r in
  worth (2000 * levels_gained e i) (levelClearRewardDelta o) /\
  worth (distance_gained e i) (distanceRewardDelta o) /\
  worth (2000 * levels_gained e i + distance_gained e i) (rewardDelta o) /\
  levelClearRewardTotal_ e' =
    (if levels_gained e i =? 0 then levelClearRewardTotal_ e
     else f64_add (levelClearRewardTotal_ e) (levelClearRewardDelta o)) /\
  distanceRewardTotal_ e' =
    (if distance_gained e i =? 0 then distanceRewardTotal_ e
     else f64_add (distanceRewardTotal_ e) (distanceRewardDelta o)).

Lemma dbl_halves n : 0 <= n < 2 ^ 53 -> dbl (n * 2 ^ 1073).
Proof. intros. exists n, 1073. lia. Qed.

Lemma worth_zero : worth 0 fzero.
Proof. by repeat split. Qed.

Lemma worth_add a b x y : 0 <= a -> 0 <= b -> a + b < 2 ^ 53 -> worth a x -> worth b y -> worth (a + b) (f64_add x y).
Proof.
  intros Ha Hb Hab (Nx & Vx & Ex) (Ny & Vy & Ey).
  apply f64_add_within; try done; [apply dbl_halves; lia.. |]. rewrite Z.mul_add_distr_r. lia.
Qed.

(** [c] times an integer, for a factor of [h] halves. *)
Lemma worth_mul h c n : 0 <= h < 2 ^ 12 -> 0 <= n < 2 ^ 32 -> worth h c -> worth (h * n) (f64_mul c (f64_of_Z n)).
Proof.
  intros Hh Hn (Nc & Vc & Ec). destruct (f64_of_Z_within n ltac:(lia)) as (Nn & Vn & En).
  assert (0 <= h * n < 2 ^ 44) by nia.
  assert (fval c = h * 2 ^ 1073) as Fc by lia. assert (fval (f64_of_Z n) = n * 2 ^ 1074) as Fn by lia.
  apply f64_mul_within; try done.
  - unfold moderate. rewrite Fc. change (2 ^ 1500) with (2 ^ 427 * 2 ^ 1073). apply Z.mul_lt_mono_pos_r; lia.
  - unfold moderate. rewrite Fn. change (2 ^ 1500) with (2 ^ 426 * 2 ^ 1074). apply Z.mul_lt_mono_pos_r; lia.
  - apply dbl_halves. lia.
  - apply dbl_halves. lia.
  - rewrite Fc, Fn. split; apply Z.eq_le_incl; ring.
Qed.

Lemma kLevelClearReward_worth : worth 2000 kLevelClearReward.
Proof. vm_compute. intuition discriminate. Qed.
Lemma kDistanceReward_worth : worth 1 kDistanceReward.
Proof. vm_compute. intuition discriminate. Qed.

Lemma advance_stage_rewards e stage :
  0 <= bestStageIndex_ e < 2 ^ 32 -> 0 <= stage < 2 ^ 11 ->
  let l := Z.max 0 (stage - bestStageIndex_ e) in
  let '(e1, d, r, _) := advance_stage e stage in
  worth (2000 * l) d /\ worth (2000 * l) r /\
  levelClearRewardTotal_ e1 = (if l =? 0 then levelClearRewardTotal_ e else f64_add (levelClearRewardTotal_ e) d) /\
  distanceRewardTotal_ e1 = distanceRewardTotal_ e /\
  bestStageIndex_ e1 = Z.max (bestStageIndex_ e) stage /\
  bestAbsoluteX_ e1 = (if bestStageIndex_ e <? stage then 0 else bestAbsoluteX_ e).
Proof.
  intros Hb Hs l. unfold advance_stage. destruct (bestStageIndex_ e <? stage) eqn:E.
  - assert (u32 (stage - bestStageIndex_ e) = l) as -> by (unfold l; rewrite wrap_u_small; lia).
    assert (worth (2000 * l) (f64_mul kLevelClearReward (f64_of_Z l))) as Hd
      by (apply worth_mul; [lia | lia | apply kLevelClearReward_worth]).
    cbv zeta. cbn [levelClearRewardTotal_ distanceRewardTotal_ bestStageIndex_ bestAbsoluteX_]. split; [done |]. split.
    { change (2000 * l) with (0 + 2000 * l). apply worth_add; [lia | lia | lia | apply worth_zero | done]. }
    rewrite (proj2 (Z.eqb_neq l 0)) by lia. repeat split. lia.
  - replace l with 0 by lia. cbv zeta. repeat split; try done; lia.
Qed.

Lemma advance_distance_rewards e stage x r0 improved halves :
  0 <= bestAbsoluteX_ e < 2 ^ 16 -> 0 <= x < 2 ^ 16 -> 0 <= halves < 2 ^ 40 -> worth halves r0 ->
  let g := if stage =? bestStageIndex_ e then Z.max 0 (x - bestAbsoluteX_ e) else 0 in
  let '(e1, d, r, _) := advance_distance e stage x r0 improved in
  worth g d /\ worth (halves + g) r /\
  distanceRewardTotal_ e1 = (if g =? 0 then distanceRewardTotal_ e else f64_add (distanceRewardTotal_ e) d) /\
  levelClearRewardTotal_ e1 = levelClearRewardTotal_ e.
Proof.
  intros Hb Hx Hh Hr g. unfold advance_distance, g. destruct (stage =? bestStageIndex_ e) eqn:E; cbn [andb].
  - destruct (bestAbsoluteX_ e <? x) eqn:E2.
    + rewrite Z.max_r by lia. assert (worth (x - bestAbsoluteX_ e) (f64_mul kDistanceReward (f64_of_Z (x - bestAbsoluteX_ e)))) as Hd.
      { rewrite <- (Z.mul_1_l (x - bestAbsoluteX_ e)) at 1. apply worth_mul; [lia | lia | apply kDistanceReward_worth]. }
      rewrite (proj2 (Z.eqb_neq _ 0)) by lia. cbv zeta.
      split; [done |]. split; [apply worth_add; try done; lia | done].
    + rewrite Z.max_l by lia. cbv zeta. rewrite Z.add_0_r. split; [apply worth_zero | done].
  - cbv zeta. rewrite Z.add_0_r. split; [apply worth_zero | done].
Qed.

(** The part of [evaluate] that runs while the player is alive. *)
Lemma evaluate_alive_rewards e s :
  evaluator_wf e -> state_wf s ->
  let stage := getStageIndex s in
  let x := NesSuperMarioBrosState.absoluteX s in
  let l := Z.max 0 (stage - bestStageIndex_ e) in
  let g := if bestStageIndex_ e <? stage then x
           else if stage =? bestStageIndex_ e then Z.max 0 (x - bestAbsoluteX_ e) else 0 in
  let '(e', o) := evaluate_alive e s stage in
  worth (2000 * l) (levelClearRewardDelta o) /\ worth g (distanceRewardDelta o) /\
  worth (2000 * l + g) (rewardDelta o) /\
  levelClearRewardTotal_ e' =
    (if l =? 0 then levelClearRewardTotal_ e else f64_add (levelClearRewardTotal_ e) (levelClearRewardDelta o)) /\
  distanceRewardTotal_ e' =
    (if g =? 0 then distanceRewardTotal_ e else f64_add (distanceRewardTotal_ e) (distanceRewardDelta o)).
Proof.
  intros (_ & _ & Hb & Hx0) Hs stage x l g. pose proof (getStageIndex_range s Hs) as Hg. destruct Hs as (_ & _ & Hx).
  pose proof (advance_stage_rewards e stage ltac:(lia) ltac:(unfold stage; lia)) as H1. cbv zeta in H1. unfold evaluate_alive.
  destruct (advance_stage e stage) as [[[e1 d1] r1] i1]. destruct H1 as (Hd1 & Hr1 & Hlt & Hdt & Hbs & Hbx). fold l in Hd1, Hr1, Hlt.
  assert (0 <= bestAbsoluteX_ e1 < 2 ^ 16) as Hx1 by (rewrite Hbx; destruct (_ <? _); lia).
  pose proof (advance_distance_rewards e1 stage x r1 i1 (2000 * l) Hx1 Hx ltac:(unfold l, stage; lia) Hr1) as H2.
  cbv zeta in H2. fold x. destruct (advance_distance e1 stage x r1 i1) as [[[e2 d2] r2] i2]. destruct H2 as (Hd2 & Hr2 & Hdt2 & Hlt2).
  assert ((if stage =? bestStageIndex_ e1 then Z.max 0 (x - bestAbsoluteX_ e1) else 0) = g) as Eg.
  { unfold g. rewrite Hbs, Hbx. destruct (bestStageIndex_ e <? stage) eqn:E1.
    - rewrite (proj2 (Z.eqb_eq _ _)) by lia. lia.
    - replace (bestStageIndex_ e `max` stage) with (bestStageIndex_ e) by lia. done. }
  rewrite Eg in *.
  assert (levelClearRewardTotal_ (if i2 then with_last e2 (gameplayFrameCount_ e2) else e2) = levelClearRewardTotal_ e2 /\
    distanceRewardTotal_ (if i2 then with_last e2 (gameplayFrameCount_ e2) else e2) = distanceRewardTotal_ e2) as [E3 E4]
    by by destruct i2.
  destruct (kBelowScreenTerminalPlayerYScreenThreshold <=? _); [| destruct (kNoProgressTimeoutFrames <=? _)];
    cbn [levelClearRewardDelta distanceRewardDelta rewardDelta]; rewrite E3, E4, Hlt2, Hdt2, Hlt, Hdt; done.
Qed.

Lemma unrewarded e i (r : t * Output) :
  rewarded e i = false ->
  levelClearRewardDelta (snd r) = fzero -> distanceRewardDelta (snd r) = fzero -> rewardDelta (snd r) = fzero ->
  levelClearRewardTotal_ (fst r) = levelClearRewardTotal_ e -> distanceRewardTotal_ (fst r) = distanceRewardTotal_ e ->
  rewards_spec e i r.
Proof.
  destruct r as [e' o]. cbn [fst snd]. intros Hr El Ed Ew Elt Edt.
  unfold rewards_spec, levels_gained, distance_gained. rewrite Hr, El, Ed, Ew. cbn [negb].
  do 3 (split; [apply worth_zero |]). done.
Qed.

Lemma start_progress_totals e stage x :
  levelClearRewardTotal_ (start_progress e stage x) = levelClearRewardTotal_ e /\
  distanceRewardTotal_ (start_progress e stage x) = distanceRewardTotal_ e /\
  bestStageIndex_ (start_progress e stage x) = (if hasBestProgress_ e then bestStageIndex_ e else stage) /\
  bestAbsoluteX_ (start_progress e stage x) = (if hasBestProgress_ e then bestAbsoluteX_ e else x).
Proof. unfold start_progress. by destruct (hasBestProgress_ e). Qed.

Lemma evaluate_meets_rewards e i :
  evaluator_wf e -> input_wf e i -> rewards_spec e i (evaluate e i).
Proof.
  intros He (Hs & Ha & Hn). unfold evaluate. cbv zeta. rewrite counted_neg.
  destruct (counted e i) eqn:Hcnt; cbn [negb].
  2: { apply unrewarded; try done. unfold rewarded. by rewrite Hcnt. }
  rewrite (wrap_u_small 64) by (destruct He; lia).
  pose proof (getStageIndex_range _ Hs) as Hg. pose proof Hs as (_ & _ & Hx).
  set (e0 := with_frames e _). set (stage := getStageIndex (state i)) in *.
  set (x := NesSuperMarioBrosState.absoluteX (state i)) in *.
  assert (evaluator_wf e0) as He0 by (apply with_frames_wf; [done |]; destruct He; lia).
  destruct (start_progress_spec e0 stage x He0 ltac:(lia) Hx) as (He1 & _ & Hl1 & Hll1 & _).
  destruct (start_progress_totals e0 stage x) as (Tl & Td & Ts & Tx).
  set (e1 := start_progress e0 _ _) in *. clearbody e1.
  assert (hasLastLives_ e1 && (NesSuperMarioBrosState.lives (state i) <? lastLives_ e1)
    = lives_dropped e i) as -> by (rewrite Hl1, Hll1; done).
  assert (survives e i = negb (lives_dropped e i) && negb (terminal_state (state i))) as Hsv by done.
  assert (rewarded e i = survives e i && hasBestProgress_ e) as Hrw by (unfold rewarded; by rewrite Hcnt).
  destruct (lives_dropped e i); [| destruct (terminal_state (state i))];
    try (rewrite Hsv in Hrw; by apply unrewarded).
  pose proof (evaluate_alive_rewards (with_lives e1 (NesSuperMarioBrosState.lives (state i)))
    (state i) (with_lives_wf _ _ He1) Hs) as H. cbv zeta in H. fold stage x in H.
  cbn [with_lives levelClearRewardTotal_ distanceRewardTotal_ bestStageIndex_ bestAbsoluteX_] in H.
  rewrite Ts, Tx, Tl, Td in H. cbn [e0 with_frames hasBestProgress_ bestStageIndex_ bestAbsoluteX_
    levelClearRewardTotal_ distanceRewardTotal_] in H.
  rewrite Hsv in Hrw. cbn [negb andb] in Hrw.
  destruct (evaluate_alive _ _ _) as [e' o]. unfold rewards_spec, levels_gained, distance_gained.
  fold stage x. rewrite Hrw. destruct (hasBestProgress_ e); cbn [negb]; [exact H |].
  rewrite Z.sub_diag, Z.ltb_irrefl, Z.eqb_refl, Z.sub_diag in H. exact H.
Qed.

(** *** Runs: the frames of an episode in order *)
Fixpoint run e (ins : list Input) : t * list Output :=
  match ins with
  | [] => (e, [])
  | i :: ins' =>
      let '(e1, o) := evaluate e i in
      let '(e2, os) := run e1 ins' in (e2, o :: os)
  end.

Definition frames (ins : list Input) : Z := foldr (fun i n => advancedFrames i + n) 0 ins.

(** Decoded states, nonnegative frame counts, and a total that does not wrap. *)
Definition inputs_wf e (ins : list Input) : Prop :=
  Forall (fun i => state_wf (state i) /\ 0 <= advancedFrames i) ins /\
  gameplayFrameCount_ e + frames ins < 2 ^ 64.

Lemma frames_nonneg ins :
  Forall (fun i => state_wf (state i) /\ 0 <= advancedFrames i) ins -> 0 <= frames ins.
Proof. induction 1 as [| i ins [_ Hi] _ IH]; cbn; unfold frames in *; lia. Qed.

Lemma inputs_wf_cons e i ins :
  evaluator_wf e -> inputs_wf e (i :: ins) ->
  input_wf e i /\ evaluator_wf (fst (evaluate e i)) /\ inputs_wf (fst (evaluate e i)) ins.
Proof.
  intros He [[[Hs Ha] Hf]%Forall_cons Hsum]. cbn [frames foldr] in Hsum. fold (frames ins) in Hsum.
  pose proof (frames_nonneg ins Hf) as Hnn.
  assert (input_wf e i) as Hi by (split; [done |]; split; [done |]; lia).
  pose proof (evaluate_meets_spec e i He Hi) as H. split; [done |].
  destruct (evaluate e i) as [e' o]. destruct H as (He' & _ & _ & _ & H). split; [done |].
  split; [done |]. cbn [fst]. destruct (counted e i); [| subst; destruct He; lia].
  destruct H as (_ & _ & _ & -> & _). lia.
Qed.

Lemma evaluate_rank_mono e i :
  evaluator_wf e -> input_wf e i -> hasBestProgress_ e = true ->
  hasBestProgress_ (fst (evaluate e i)) = true /\ rank e <= rank (fst (evaluate e i)).
Proof.
  intros He Hi Hb. pose proof (evaluate_meets_spec e i He Hi) as H.
  destruct (evaluate e i) as [e' o]. destruct H as (_ & _ & _ & _ & H). cbn [fst].
  destruct (counted e i); [| by subst]. destruct H as (-> & _ & _ & _ & -> & _).
  split; [done |]. unfold next_rank. rewrite Hb. destruct (survives e i); lia.
Qed.

Lemma run_rank_mono e ins :
  evaluator_wf e -> inputs_wf e ins -> hasBestProgress_ e = true ->
  hasBestProgress_ (fst (run e ins)) = true /\ rank e <= rank (fst (run e ins)).
Proof.
  revert e. induction ins as [| i ins IH]; intros e He His Hb; [done |].
  destruct (inputs_wf_cons e i ins He His) as (Hi & He' & His').
  destruct (evaluate_rank_mono e i He Hi Hb) as [Hb' Hr]. cbn [run].
  destruct (evaluate e i) as [e1 o]. cbn [fst] in *.
  destruct (IH e1 He' His' Hb') as [Hb2 Hr2]. destruct (run e1 ins) as [e2 os]. cbn [fst] in *.
  split; [done |]. lia.
Qed.

(** A frame that counts and does not improve the best position leaves the
    progress clock running. *)
Lemma evaluate_stalled e i :
  evaluator_wf e -> input_wf e i -> hasBestProgress_ e = true -> counted e i = true ->
  rank (fst (evaluate e i)) = rank e ->
  lastProgressFrame_ (fst (evaluate e i)) = lastProgressFrame_ e /\
  gameplayFrameCount_ (fst (evaluate e i)) = gameplayFrameCount_ e + advancedFrames i /\
  (1800 <= gameplayFrameCount_ e + advancedFrames i - lastProgressFrame_ e ->
   done (snd (evaluate e i)) = true).
Proof.
  intros He Hi Hb Hc Hr. pose proof (evaluate_meets_spec e i He Hi) as H.
  destruct (evaluate e i) as [e' o]. destruct H as (_ & Hreason & Hd & _ & H). cbn [fst snd] in *.
  rewrite Hc in H. destruct H as (_ & _ & _ & Hn & Hr' & Hl).
  assert (next_last e i = lastProgressFrame_ e) as El.
  { unfold next_last. by rewrite Hb, <- Hr', Hr, Z.eqb_refl. }
  split; [congruence |]. split; [done |]. intros Hto. rewrite Hd, Hreason.
  unfold next_reason. rewrite Hc, El. cbn [negb].
  destruct (survives e i); [| done]. cbn [negb]. destruct (224 <=? _); [done |].
  by rewrite (proj2 (Z.leb_le _ _) Hto).
Qed.

Lemma run_stalled e ins :
  evaluator_wf e -> inputs_wf e ins -> hasBestProgress_ e = true ->
  Forall (fun i => NesSuperMarioBrosState.phase (state i) = SmbPhase.Gameplay) ins ->
  rank (fst (run e ins)) = rank e ->
  1800 <= gameplayFrameCount_ e + frames ins - lastProgressFrame_ e -> ins <> [] ->
  exists o, last (snd (run e ins)) = Some o /\ done o = true.
Proof.
  revert e. induction ins as [| i ins IH]; intros e He His Hb Hph Hr Hto Hne; [done |].
  apply Forall_cons in Hph as [Hp Hph].
  destruct (inputs_wf_cons e i ins He His) as (Hi & He' & His').
  destruct (evaluate_rank_mono e i He Hi Hb) as [Hb' Hm].
  assert (counted e i = true) as Hc by (unfold counted; rewrite Hp; done).
  destruct (run_rank_mono _ ins He' His' Hb') as [_ Hm2].
  cbn [run] in *. pose proof (evaluate_stalled e i He Hi Hb Hc) as Hst.
  destruct (evaluate e i) as [e1 o]. cbn [fst snd] in *.
  destruct (run e1 ins) as [e2 os] eqn:Erun. cbn [fst snd] in *.
  destruct (Hst ltac:(lia)) as (Hl & Hn & Hdone).
  cbn [frames foldr] in Hto. fold (frames ins) in Hto.
  destruct ins as [| i2 ins].
  - injection Erun as <- <-. exists o. split; [done |]. apply Hdone. cbn in Hto. lia.
  - specialize (IH e1 He' His' Hb' Hph). rewrite Erun in IH. cbn [fst snd] in IH.
    destruct IH as (o' & Ho' & Hd'); [lia | lia | done |]. exists o'. split; [| done].
    by destruct os.
Qed.
End EvaluatorFacts.

(** ** Properties *)

(** C32. One frame of [evaluate], on every branch: a frame that does not count
    leaves the evaluator alone; a counted frame adds its frames, moves the best
    (stage, x) position to the maximum of the old one and the player's unless a
    life was lost, restarts the progress clock exactly when the best position
    improved, and ends the episode for the first reason that applies: life
    lost, below the screen, 1800 frames without progress.  The snapshot returned
    is that of the new evaluator, and [done] means a reason is given.  The frame
    is rewarded with exactly a thousand points per stage cleared and half a
    point per unit of distance beyond the best position (from the start of a new
    stage), with nothing on the first counted frame or when a life is lost, and
    the totals take up what was earned. *)
Theorem evaluate_frame (e : NesSuperMarioBrosEvaluator.t) (i : NesSuperMarioBrosEvaluator.Input) :
  evaluator_wf e -> input_wf e i ->
  evaluate_spec e i (NesSuperMarioBrosEvaluator.evaluate e i) /\
  rewards_spec e i (NesSuperMarioBrosEvaluator.evaluate e i).
Proof. intros He Hi. split; [by apply evaluate_meets_spec | by apply evaluate_meets_rewards]. Qed.

Definition demo_state (mode : SmbGameMode.t) (x y : Z) : NesSuperMarioBrosState.t :=
  {| NesSuperMarioBrosState.phase := SmbPhase.Gameplay;
     NesSuperMarioBrosState.gameMode := mode;
     NesSuperMarioBrosState.lifeState := SmbLifeState.Alive;
     NesSuperMarioBrosState.playerState := SmbPlayerState.Normal;
     NesSuperMarioBrosState.floatState := SmbFloatState.GroundedOrOther;
     NesSuperMarioBrosState.powerupState := SmbPowerupState.Small;
     NesSuperMarioBrosState.airborne := false;
     NesSuperMarioBrosState.enemyPresent := false;
     NesSuperMarioBrosState.secondEnemyPresent := false;
     NesSuperMarioBrosState.facingX := f32_of_Z 1;
     NesSuperMarioBrosState.movementX := f32_of_Z 1;
     NesSuperMarioBrosState.horizontalSpeedNormalized := fzero;
     NesSuperMarioBrosState.verticalSpeedNormalized := fzero;
     NesSuperMarioBrosState.nearestEnemyDx := 0;
     NesSuperMarioBrosState.nearestEnemyDy := 0;
     NesSuperMarioBrosState.secondNearestEnemyDx := 0;
     NesSuperMarioBrosState.secondNearestEnemyDy := 0;
     NesSuperMarioBrosState.world := 0;
     NesSuperMarioBrosState.level := 1;
     NesSuperMarioBrosState.absoluteX := x;
     NesSuperMarioBrosState.playerXScreen := 40;
     NesSuperMarioBrosState.playerYScreen := y;
     NesSuperMarioBrosState.lives := 2 |}.

Definition demo_input (x y n : Z) : NesSuperMarioBrosEvaluator.Input :=
  NesSuperMarioBrosEvaluator.mkInput n (demo_state SmbGameMode.Normal x y).

Definition demo_evaluator : NesSuperMarioBrosEvaluator.t :=
  NesSuperMarioBrosEvaluator.restoreProgress 0 200 fzero fzero 50 10.

Example evaluate_frame_witness :
  (evaluate_spec demo_evaluator (demo_input 237 230 1)
    (NesSuperMarioBrosEvaluator.evaluate demo_evaluator (demo_input 237 230 1)) /\
   rewards_spec demo_evaluator (demo_input 237 230 1)
    (NesSuperMarioBrosEvaluator.evaluate demo_evaluator (demo_input 237 230 1))) /\
  NesSuperMarioBrosEvaluator.endReason
    (snd (NesSuperMarioBrosEvaluator.evaluate demo_evaluator (demo_input 237 230 1)))
  = SmbEpisodeEndReason.FellBelowScreen /\
  levels_gained demo_evaluator (demo_input 237 230 1) = 1 /\
  distance_gained demo_evaluator (demo_input 237 230 1) = 237.
Proof.
  split; [| vm_compute; repeat split; reflexivity].
  apply evaluate_frame; [vm_compute; intuition discriminate |].
  split; [vm_compute; intuition discriminate |]. split; [vm_compute; discriminate | vm_compute; reflexivity].
Defined.

(** Progress accounting over an episode: from an evaluator that has a best
    position, feeding any sequence of decoded gameplay frames never lowers the
    best position, and a sequence of frames that together bring the progress
    clock to 1800 without improving it ends the episode. *)
Lemma episode_progress (e : NesSuperMarioBrosEvaluator.t)
    (ins : list NesSuperMarioBrosEvaluator.Input) :
  evaluator_wf e -> inputs_wf e ins -> NesSuperMarioBrosEvaluator.hasBestProgress_ e = true ->
  Forall (fun i => NesSuperMarioBrosState.phase (NesSuperMarioBrosEvaluator.state i)
                   = SmbPhase.Gameplay) ins -> ins <> [] ->
  rank e <= rank (fst (run e ins)) /\
  (rank (fst (run e ins)) = rank e ->
   1800 <= NesSuperMarioBrosEvaluator.gameplayFrameCount_ e + frames ins
           - NesSuperMarioBrosEvaluator.lastProgressFrame_ e ->
   exists o, last (snd (run e ins)) = Some o /\ NesSuperMarioBrosEvaluator.done o = true).
Proof.
  intros He Hi Hb Hp Hne. split; [by apply run_rank_mono |].
  intros Hr Hto. by apply run_stalled.
Qed.

Definition stalled_evaluator : NesSuperMarioBrosEvaluator.t :=
  NesSuperMarioBrosEvaluator.restoreProgress 1 200 fzero fzero 50 10.
Definition stalled_inputs : list NesSuperMarioBrosEvaluator.Input :=
  [demo_input 100 80 1000; demo_input 90 80 800].

Example episode_progress_witness :
  rank stalled_evaluator <= rank (fst (run stalled_evaluator stalled_inputs)) /\
  exists o, last (snd (run stalled_evaluator stalled_inputs)) = Some o /\
    NesSuperMarioBrosEvaluator.done o = true.
Proof.
  destruct (episode_progress stalled_evaluator stalled_inputs) as [Hr H].
  - vm_compute; intuition discriminate.
  - split; [| vm_compute; reflexivity]. repeat constructor; vm_compute; intuition discriminate.
  - reflexivity.
  - repeat constructor.
  - discriminate.
  - split; [exact Hr |]. apply H; [vm_compute; reflexivity | vm_compute; discriminate].
Defined.
