(* ===== verification/SmbRam.v ===== *)
(** Decoding of the emulator's RAM into the game state:
    [core/scenarios/nes/NesSuperMarioBrosRamExtractor.cpp]. *)

From Stdlib Require Import ZArith Lia Bool String.
From Stdlib Require Import SpecFloat.
From stdpp Require Import base gmap option numbers list sorting.
From S2P Require Import Prelude Ieee NesTypes.

Set Default Goal Selector "!".

Module NesSuperMarioBrosRamExtractor.

Definition kGameEngineSubroutineAddr : Z := 0x0770.
Definition kHorizontalSpeedAddr : Z := 0x0057.
Definition kLevelAddr : Z := 0x0760.
Definition kLivesAddr : Z := 0x075A.
Definition kEnemySlotCount : Z := 5.
Definition kFacingDirectionAddr : Z := 0x0033.
Definition kMovementDirectionAddr : Z := 0x0045.
Definition kPlayerFloatStateAddr : Z := 0x001D.
Definition kPlayerStateAddr : Z := 0x000E.
Definition kPlayerXPageAddr : Z := 0x006D.
Definition kPlayerXScreenAddr : Z := 0x0086.
Definition kPlayerYScreenAddr : Z := 0x00CE.
Definition kPowerupStateAddr : Z := 0x0756.
Definition kVerticalSpeedAddr : Z := 0x009F.
Definition kWorldAddr : Z := 0x075F.
Definition kEnemyActiveAddrs : list Z := [0x000F; 0x0010; 0x0011; 0x0012; 0x0013].
Definition kEnemyTypeAddrs : list Z := [0x0016; 0x0017; 0x0018; 0x0019; 0x001A].
Definition kEnemyXPageAddrs : list Z := [0x006E; 0x006F; 0x0070; 0x0071; 0x0072].
Definition kEnemyXScreenAddrs : list Z := [0x0087; 0x0088; 0x0089; 0x008A; 0x008B].
Definition kEnemyYScreenAddrs : list Z := [0x00CF; 0x00D0; 0x00D1; 0x00D2; 0x00D3].

Definition decodeAbsoluteX (playerXPage playerXScreen : Z) : Z :=
  u16 (Z.lor (Z.shiftl playerXPage 8) playerXScreen).

Definition decodeHorizontalSpeedNormalized (horizontalSpeed : Z) : f64 :=
  std_clamp (f64_div (f64_of_Z (s8 horizontalSpeed)) (f64_of_Z 40)) (f64_of_Z (-1)) (f64_of_Z 1).

Definition decodeFacingX (rawFacingDirection : Z) : f32 :=
  if rawFacingDirection =? 1 then f32_of_Z 1
  else if rawFacingDirection =? 2 then f32_of_Z (-1)
  else fzero.

Definition decodeGameMode (gameEngine : Z) : SmbGameMode.t :=
  if gameEngine =? 0x00 then SmbGameMode.StartDemo
  else if gameEngine =? 0x01 then SmbGameMode.Normal
  else if gameEngine =? 0x02 then SmbGameMode.EndCurrentWorld
  else if gameEngine =? 0x03 then SmbGameMode.EndGame
  else SmbGameMode.Unknown.

Definition decodeFloatState (playerFloatState : Z) : SmbFloatState.t :=
  if playerFloatState =? 0x00 then SmbFloatState.GroundedOrOther
  else if playerFloatState =? 0x01 then SmbFloatState.Jumping
  else if playerFloatState =? 0x02 then SmbFloatState.WalkedOffLedge
  else if playerFloatState =? 0x03 then SmbFloatState.SlidingFlagpole
  else SmbFloatState.Unknown.

Definition decodeLifeState (playerState : SmbPlayerState.t) : SmbLifeState.t :=
  match playerState with
  | SmbPlayerState.LeftmostOfScreen => SmbLifeState.Dead
  | SmbPlayerState.PlayerDies | SmbPlayerState.Dying => SmbLifeState.Dying
  | _ => SmbLifeState.Alive
  end.

Definition decodePhase (gameMode : SmbGameMode.t) (setupComplete : bool) : SmbPhase.t :=
  if setupComplete && bool_decide (gameMode = SmbGameMode.Normal)
  then SmbPhase.Gameplay else SmbPhase.NonGameplay.

Definition decodePowerupState (powerupState : Z) : SmbPowerupState.t :=
  if 2 <=? powerupState then SmbPowerupState.Fire
  else if powerupState =? 1 then SmbPowerupState.Big
  else SmbPowerupState.Small.

Definition decodePlayerState (playerState : Z) : SmbPlayerState.t :=
  if playerState =? 0x00 then SmbPlayerState.LeftmostOfScreen
  else if playerState =? 0x01 then SmbPlayerState.ClimbingVine
  else if playerState =? 0x02 then SmbPlayerState.EnteringReversedLPipe
  else if playerState =? 0x03 then SmbPlayerState.GoingDownPipe
  else if playerState =? 0x04 then SmbPlayerState.Autowalk
  else if playerState =? 0x05 then SmbPlayerState.AutowalkAlt
  else if playerState =? 0x06 then SmbPlayerState.PlayerDies
  else if playerState =? 0x07 then SmbPlayerState.EnteringArea
  else if playerState =? 0x08 then SmbPlayerState.Normal
  else if playerState =? 0x09 then SmbPlayerState.Growing
  else if playerState =? 0x0A then SmbPlayerState.Shrinking
  else if playerState =? 0x0B then SmbPlayerState.Dying
  else if playerState =? 0x0C then SmbPlayerState.BecomingFire
  else SmbPlayerState.Unknown.

Definition decodeVerticalSpeedNormalized (verticalSpeed : Z) : f64 :=
  std_clamp (f64_div (f64_of_Z (s8 verticalSpeed)) (f64_of_Z 128)) (f64_of_Z (-1)) (f64_of_Z 1).

Record DecodedEnemy := mkEnemy {
  dx : Z;
  dy : Z;
  distanceSquared : Z
}.

Definition DecodedEnemy_default : DecodedEnemy := mkEnemy 0 0 0.

(** The subtractions are done in [int] and narrowed to [int16_t]. *)
Definition decodeEnemy (enemyXPage enemyXScreen enemyYScreen playerAbsoluteX playerYScreen : Z)
    : DecodedEnemy :=
  let enemyAbsoluteX := decodeAbsoluteX enemyXPage enemyXScreen in
  let dx := s16 (s16 enemyAbsoluteX - s16 playerAbsoluteX) in
  let dy := s16 (s16 enemyYScreen - s16 playerYScreen) in
  mkEnemy dx dy (u32 (s32 (s32 (dx * dx) + s32 (dy * dy)))).

Definition isAirborne (playerFloatState : SmbFloatState.t) : bool :=
  bool_decide (playerFloatState = SmbFloatState.Jumping)
  || bool_decide (playerFloatState = SmbFloatState.WalkedOffLedge).

(** [std::array<DecodedEnemy, 2> nearestEnemies] with its [nearestEnemyCount]. *)
Definition Nearest : Type := DecodedEnemy * DecodedEnemy * Z.

(** The body of the slot loop after the enemy is decoded. *)
Definition noteEnemy (decodedEnemy : DecodedEnemy) (n : Nearest) : Nearest :=
  let '(e0, e1, count) := n in
  if count =? 0 then (decodedEnemy, e1, 1)
  else if count =? 1 then
    if distanceSquared decodedEnemy <? distanceSquared e0 then (decodedEnemy, e0, 2)
    else (e0, decodedEnemy, 2)
  else if distanceSquared e1 <=? distanceSquared decodedEnemy then n
  else if distanceSquared decodedEnemy <? distanceSquared e0 then (decodedEnemy, e0, count)
  else (e0, decodedEnemy, count).

Definition ram_at (snapshot : MemorySnapshot) (addr : Z) : res Z := vec_at (elems (cpuRam snapshot)) addr.

(** One iteration of the slot loop. *)
Definition scanSlot (snapshot : MemorySnapshot) (playerAbsoluteX playerYScreen slot : Z) (n : Nearest)
    : res Nearest :=
  let! activeAddr := vec_get kEnemyActiveAddrs slot in
  let! active := ram_at snapshot activeAddr in
  if active =? 0 then Ok n
  else
    let! typeAddr := vec_get kEnemyTypeAddrs slot in
    let! type := ram_at snapshot typeAddr in
    if type =? 0 then Ok n
    else
      let! pageAddr := vec_get kEnemyXPageAddrs slot in
      let! page := ram_at snapshot pageAddr in
      let! xAddr := vec_get kEnemyXScreenAddrs slot in
      let! x := ram_at snapshot xAddr in
      let! yAddr := vec_get kEnemyYScreenAddrs slot in
      let! y := ram_at snapshot yAddr in
      Ok (noteEnemy (decodeEnemy page x y playerAbsoluteX playerYScreen) n).

Definition scanEnemies (snapshot : MemorySnapshot) (playerAbsoluteX playerYScreen : Z) : res Nearest :=
  for_range 0 kEnemySlotCount
    (fun slot n => scanSlot snapshot playerAbsoluteX playerYScreen slot n)
    (DecodedEnemy_default, DecodedEnemy_default, 0).

Definition extract (snapshot : MemorySnapshot) (setupComplete : bool) : res NesSuperMarioBrosState.t :=
  let! playerStateRaw := ram_at snapshot kPlayerStateAddr in
  let playerState := decodePlayerState playerStateRaw in
  let! floatStateRaw := ram_at snapshot kPlayerFloatStateAddr in
  let playerFloatState := decodeFloatState floatStateRaw in
  let! gameEngine := ram_at snapshot kGameEngineSubroutineAddr in
  let gameMode := decodeGameMode gameEngine in
  let! xPage := ram_at snapshot kPlayerXPageAddr in
  let! xScreen := ram_at snapshot kPlayerXScreenAddr in
  let playerAbsoluteX := decodeAbsoluteX xPage xScreen in
  let! playerYScreen := ram_at snapshot kPlayerYScreenAddr in
  let! powerup := ram_at snapshot kPowerupStateAddr in
  let! facing := ram_at snapshot kFacingDirectionAddr in
  let! movement := ram_at snapshot kMovementDirectionAddr in
  let! hSpeed := ram_at snapshot kHorizontalSpeedAddr in
  let! vSpeed := ram_at snapshot kVerticalSpeedAddr in
  let! world := ram_at snapshot kWorldAddr in
  let! level := ram_at snapshot kLevelAddr in
  let! playerXScreen := ram_at snapshot kPlayerXScreenAddr in
  let! lives := ram_at snapshot kLivesAddr in
  let! nearest := scanEnemies snapshot playerAbsoluteX playerYScreen in
  let '(e0, e1, nearestEnemyCount) := nearest in
  Ok {| NesSuperMarioBrosState.phase := decodePhase gameMode setupComplete;
        NesSuperMarioBrosState.gameMode := gameMode;
        NesSuperMarioBrosState.lifeState := decodeLifeState playerState;
        NesSuperMarioBrosState.playerState := playerState;
        NesSuperMarioBrosState.floatState := playerFloatState;
        NesSuperMarioBrosState.powerupState := decodePowerupState powerup;
        NesSuperMarioBrosState.airborne := isAirborne playerFloatState;
        NesSuperMarioBrosState.enemyPresent := 0 <? nearestEnemyCount;
        NesSuperMarioBrosState.secondEnemyPresent := 1 <? nearestEnemyCount;
        NesSuperMarioBrosState.facingX := decodeFacingX facing;
        NesSuperMarioBrosState.movementX := decodeFacingX movement;
        NesSuperMarioBrosState.horizontalSpeedNormalized := decodeHorizontalSpeedNormalized hSpeed;
        NesSuperMarioBrosState.verticalSpeedNormalized := decodeVerticalSpeedNormalized vSpeed;
        NesSuperMarioBrosState.nearestEnemyDx := if 0 <? nearestEnemyCount then dx e0 else 0;
        NesSuperMarioBrosState.nearestEnemyDy := if 0 <? nearestEnemyCount then dy e0 else 0;
        NesSuperMarioBrosState.secondNearestEnemyDx := if 1 <? nearestEnemyCount then dx e1 else 0;
        NesSuperMarioBrosState.secondNearestEnemyDy := if 1 <? nearestEnemyCount then dy e1 else 0;
        NesSuperMarioBrosState.world := world;
        NesSuperMarioBrosState.level := level;
        NesSuperMarioBrosState.absoluteX := playerAbsoluteX;
        NesSuperMarioBrosState.playerXScreen := playerXScreen;
        NesSuperMarioBrosState.playerYScreen := playerYScreen;
        NesSuperMarioBrosState.lives := lives |}.

End NesSuperMarioBrosRamExtractor.

(** ** Specification *)
Section RamFacts.
Import NesSuperMarioBrosRamExtractor.
Implicit Types (m : MemorySnapshot) (e : DecodedEnemy).

(** The RAM holds bytes ([uint8_t]). *)
Definition ram_wf m : Prop := Forall (fun b => 0 <= b < 256) (elems (cpuRam m)).

Definition byte_at m (addr : Z) : Z := default 0 (elems (cpuRam m) !! Z.to_nat addr).

Lemma ram_at_ok m addr : 0 <= addr < 8192 -> ram_at m addr = Ok (byte_at m addr).
Proof.
  intros Ha. unfold ram_at, byte_at. pose proof (f_equal Z.of_N (elems_length (cpuRam m))) as Hl.
  rewrite nat_N_Z in Hl. change (Z.of_N _) with 8192 in Hl.
  destruct (in_range_lookup (elems (cpuRam m)) addr) as [x Hx]; [lia |].
  rewrite (vec_at_ok _ _ x) by (done || lia). by rewrite Hx.
Qed.

Lemma byte_at_range m addr : ram_wf m -> 0 <= byte_at m addr < 256.
Proof.
  intros Hm. unfold byte_at. destruct (_ !! _) as [x |] eqn:E; [| simpl; lia].
  by apply (Forall_lookup_1 _ _ _ _ Hm E).
Qed.

(** The enemy of one slot, when the slot is active and has a type. *)
Definition slot_enemy m (px py : Z) (slot : Z) : option DecodedEnemy :=
  if (byte_at m (0x000F + slot) =? 0) || (byte_at m (0x0016 + slot) =? 0) then None
  else Some (decodeEnemy (byte_at m (0x006E + slot)) (byte_at m (0x0087 + slot))
               (byte_at m (0x00CF + slot)) px py).

Definition enemies m px py (k : Z) : list DecodedEnemy := omap (slot_enemy m px py) (seqZ 0 k).

(** [n] holds the two nearest of [es] (ties kept in either order). *)
Definition nearest_of (es : list DecodedEnemy) (n : Nearest) : Prop :=
  let '(e0, e1, count) := n in
  (count = 0 /\ es = []) \/ (count = 1 /\ es = [e0]) \/
  (count = 2 /\ distanceSquared e0 <= distanceSquared e1 /\
   exists rest, es ≡ₚ e0 :: e1 :: rest /\
     Forall (fun e => distanceSquared e1 <= distanceSquared e) rest).

Lemma noteEnemy_nearest es e n : nearest_of es n -> nearest_of (es ++ [e]) (noteEnemy e n).
Proof.
  destruct n as [[e0 e1] c]. intros [[-> ->] | [[-> ->] | (-> & Hle & rest & Hp & Hr)]]; cbn.
  - right. left. done.
  - destruct (distanceSquared e <? distanceSquared e0) eqn:E; right; right; (split; [done |]); (split; [lia |]); exists [];
      (split; [| constructor]); [apply Permutation_swap | done].
  - assert (es ++ [e] ≡ₚ e :: e0 :: e1 :: rest) as Hp'.
    { rewrite Hp. symmetry. apply Permutation_cons_append. }
    destruct (distanceSquared e1 <=? distanceSquared e) eqn:E1.
    { right. right. split; [done |]. split; [done |]. exists (e :: rest). split; [| constructor; [lia | done]].
      rewrite Hp'. rewrite (Permutation_swap e0 e). by rewrite (Permutation_swap e1 e). }
    destruct (distanceSquared e <? distanceSquared e0) eqn:E2; right; right;
      (split; [done |]); (split; [lia |]); exists (e1 :: rest);
      (split; [| constructor; [lia |]; eapply Forall_impl; [done |]; cbn; intros; lia]).
    + done.
    + rewrite Hp'. apply Permutation_swap.
Qed.

Lemma scanSlot_ok m px py slot n :
  0 <= slot < 5 ->
  scanSlot m px py slot n =
  Ok (match slot_enemy m px py slot with Some e => noteEnemy e n | None => n end).
Proof.
  intros Hs. unfold scanSlot, slot_enemy.
  assert (forall l a, l = [a; a + 1; a + 2; a + 3; a + 4] -> vec_get l slot = Ok (a + slot)) as Hv.
  { intros l a ->. assert (slot = 0 \/ slot = 1 \/ slot = 2 \/ slot = 3 \/ slot = 4)
      as [-> | [-> | [-> | [-> | ->]]]] by lia; unfold vec_get; cbn; f_equal; lia. }
  rewrite (Hv kEnemyActiveAddrs 0x000F eq_refl), (Hv kEnemyTypeAddrs 0x0016 eq_refl),
    (Hv kEnemyXPageAddrs 0x006E eq_refl), (Hv kEnemyXScreenAddrs 0x0087 eq_refl),
    (Hv kEnemyYScreenAddrs 0x00CF eq_refl). cbn [rbind].
  rewrite !ram_at_ok by lia. cbn [rbind].
  destruct (byte_at m (15 + slot) =? 0); [done |]. cbn [orb].
  by destruct (byte_at m (22 + slot) =? 0).
Qed.

Lemma enemies_step m px py k :
  0 <= k -> enemies m px py (k + 1) =
  enemies m px py k ++ match slot_enemy m px py k with Some e => [e] | None => [] end.
Proof.
  intros Hk. unfold enemies. rewrite seqZ_app by lia. by rewrite omap_app.
Qed.

Lemma scanEnemies_ok m px py : wp (scanEnemies m px py) (nearest_of (enemies m px py 5)).
Proof.
  unfold scanEnemies, kEnemySlotCount.
  apply (wp_for_range (fun k n => nearest_of (enemies m px py k) n)); [lia | by left |].
  intros slot n Hs Hn. rewrite scanSlot_ok by done. cbn. rewrite enemies_step by lia.
  destruct (slot_enemy m px py slot); [by apply noteEnemy_nearest | by rewrite app_nil_r].
Qed.

Lemma decodeAbsoluteX_ok hi lo :
  0 <= hi < 256 -> 0 <= lo < 256 -> decodeAbsoluteX hi lo = hi * 256 + lo.
Proof.
  intros Hh Hl. unfold decodeAbsoluteX.
  assert (Z.lor (Z.shiftl hi 8) lo = hi * 256 + lo) as ->.
  { assert (Z.land (Z.shiftl hi 8) lo = 0) as Hd.
    2: { pose proof (Z.add_lor_land (Z.shiftl hi 8) lo) as H. rewrite Hd in H.
         rewrite Z.shiftl_mul_pow2 in * by lia. change (2 ^ 8) with 256 in *. lia. }
    apply Z.bits_inj'. intros i Hi. rewrite Z.land_spec, Z.shiftl_spec, Z.bits_0 by lia.
    destruct (decide (i < 8)); [rewrite Z.testbit_neg_r by lia; done |].
    rewrite (testbit_outside 8 lo i); [apply andb_false_r | simpl; lia | lia]. }
  apply wrap_u_small. simpl. lia.
Qed.

(** The squared distance of an enemy never overflows. *)
Lemma decodeEnemy_distance page x y px py :
  0 <= y < 256 -> 0 <= py < 256 ->
  let e := decodeEnemy page x y px py in
  distanceSquared e = dx e * dx e + dy e * dy e /\ -2 ^ 15 <= dx e < 2 ^ 15 /\ dy e = y - py.
Proof.
  intros Hy Hp. unfold decodeEnemy. cbv zeta. cbn [dx dy distanceSquared].
  set (X := s16 (s16 (decodeAbsoluteX page x) - s16 px)).
  assert (-2 ^ 15 <= X < 2 ^ 15) as HX by (apply (wrap_s_range 16); lia). clearbody X.
  assert (s16 (s16 y - s16 py) = y - py) as ->.
  { rewrite (wrap_s_small 16 y), (wrap_s_small 16 py) by lia. apply wrap_s_small; lia. }
  split; [| done]. set (D := y - py). assert (-255 <= D <= 255) as HD by lia. clearbody D.
  assert (0 <= X * X <= 2 ^ 30) by nia. assert (0 <= D * D <= 65025) by nia.
  rewrite (wrap_s_small 32 (X * X)), (wrap_s_small 32 (D * D)) by lia.
  rewrite wrap_s_small, wrap_u_small by lia. done.
Qed.

(** The decoded speeds are between -1 and 1 for every byte. *)
Definition unit_speed (v : f64) : bool := fle (f64_of_Z (-1)) v && fle v (f64_of_Z 1).

Lemma horizontal_unit b : 0 <= b < 256 -> unit_speed (decodeHorizontalSpeedNormalized b) = true.
Proof. revert b. apply all_bytes. vm_compute. reflexivity. Qed.

Lemma vertical_unit b : 0 <= b < 256 -> unit_speed (decodeVerticalSpeedNormalized b) = true.
Proof. revert b. apply all_bytes. vm_compute. reflexivity. Qed.

(** Every read of [extract] succeeds; what it returns, field by field. *)
Lemma extract_ok m sc :
  wp (extract m sc) (fun s => exists n,
    nearest_of (enemies m (decodeAbsoluteX (byte_at m 0x6D) (byte_at m 0x86)) (byte_at m 0xCE) 5) n /\
    let '(e0, e1, count) := n in
    NesSuperMarioBrosState.phase s = decodePhase (decodeGameMode (byte_at m 0x770)) sc /\
    NesSuperMarioBrosState.gameMode s = decodeGameMode (byte_at m 0x770) /\
    NesSuperMarioBrosState.lifeState s = decodeLifeState (decodePlayerState (byte_at m 0x0E)) /\
    NesSuperMarioBrosState.airborne s = isAirborne (decodeFloatState (byte_at m 0x1D)) /\
    NesSuperMarioBrosState.horizontalSpeedNormalized s = decodeHorizontalSpeedNormalized (byte_at m 0x57) /\
    NesSuperMarioBrosState.verticalSpeedNormalized s = decodeVerticalSpeedNormalized (byte_at m 0x9F) /\
    NesSuperMarioBrosState.world s = byte_at m 0x75F /\
    NesSuperMarioBrosState.level s = byte_at m 0x760 /\
    NesSuperMarioBrosState.lives s = byte_at m 0x75A /\
    NesSuperMarioBrosState.absoluteX s = decodeAbsoluteX (byte_at m 0x6D) (byte_at m 0x86) /\
    NesSuperMarioBrosState.playerYScreen s = byte_at m 0xCE /\
    NesSuperMarioBrosState.enemyPresent s = (0 <? count) /\
    NesSuperMarioBrosState.secondEnemyPresent s = (1 <? count) /\
    (0 < count -> NesSuperMarioBrosState.nearestEnemyDx s = dx e0 /\
                  NesSuperMarioBrosState.nearestEnemyDy s = dy e0) /\
    (1 < count -> NesSuperMarioBrosState.secondNearestEnemyDx s = dx e1 /\
                  NesSuperMarioBrosState.secondNearestEnemyDy s = dy e1)).
Proof.
  unfold extract. rewrite !ram_at_ok by done. cbn [rbind].
  apply wp_bind. eapply wp_mono; [apply scanEnemies_ok |]. intros [[e0 e1] c] Hn.
  exists (e0, e1, c). split; [exact Hn |].
  do 13 (split; [reflexivity |]).
  split; intros Hc; cbn; by rewrite (proj2 (Z.ltb_lt _ _) Hc).
Qed.
End RamFacts.

(** Case analysis on a chain of comparisons of one register. *)
Ltac byte_cases b :=
  repeat match goal with
  | |- context [Z.eqb b ?k] => destruct (Z.eqb_spec b k) as [-> | ?]
  end.

(** ** Properties *)

(** [extract] never throws on a RAM snapshot, whatever its bytes: the state
    it returns is gameplay exactly when setup is complete and the game engine
    register says normal mode, the player is dead or dying exactly for the
    player-state values 0x00, 0x06 and 0x0B, airborne exactly for the float
    states 1 and 2, the position is page * 256 + offset, the counters are the
    raw bytes and the normalised speeds are within [-1, 1]. *)
Lemma extract_decodes (m : MemorySnapshot) (setupComplete : bool) :
  ram_wf m ->
  exists s, NesSuperMarioBrosRamExtractor.extract m setupComplete = Ok s /\
    (NesSuperMarioBrosState.phase s = SmbPhase.Gameplay <->
       setupComplete = true /\ byte_at m 0x770 = 1) /\
    (NesSuperMarioBrosState.lifeState s <> SmbLifeState.Alive <->
       byte_at m 0x0E = 0 \/ byte_at m 0x0E = 6 \/ byte_at m 0x0E = 11) /\
    (NesSuperMarioBrosState.airborne s = true <-> byte_at m 0x1D = 1 \/ byte_at m 0x1D = 2) /\
    NesSuperMarioBrosState.absoluteX s = byte_at m 0x6D * 256 + byte_at m 0x86 /\
    NesSuperMarioBrosState.world s = byte_at m 0x75F /\
    NesSuperMarioBrosState.level s = byte_at m 0x760 /\
    NesSuperMarioBrosState.lives s = byte_at m 0x75A /\
    NesSuperMarioBrosState.playerYScreen s = byte_at m 0xCE /\
    unit_speed (NesSuperMarioBrosState.horizontalSpeedNormalized s) = true /\
    unit_speed (NesSuperMarioBrosState.verticalSpeedNormalized s) = true.
Proof.
  intros Hm. destruct (proj1 (wp_elim _ _) (extract_ok m setupComplete)) as (s & Hs & [[e0 e1] c] & _ & H).
  destruct H as (Hph & _ & Hlife & Hair & Hhs & Hvs & Hw & Hl & Hli & Hx & Hy & _).
  exists s. split; [done |].
  rewrite Hph, Hlife, Hair, Hhs, Hvs. split.
  { unfold NesSuperMarioBrosRamExtractor.decodePhase, NesSuperMarioBrosRamExtractor.decodeGameMode.
    destruct setupComplete; cbn [andb]; [| intuition congruence].
    byte_cases (byte_at m 0x770); case_bool_decide; intuition congruence. }
  split.
  { unfold NesSuperMarioBrosRamExtractor.decodePlayerState.
    byte_cases (byte_at m 0x0E); cbn; intuition congruence. }
  split.
  { unfold NesSuperMarioBrosRamExtractor.decodeFloatState, NesSuperMarioBrosRamExtractor.isAirborne.
    byte_cases (byte_at m 0x1D); do 2 case_bool_decide; cbn; intuition congruence. }
  rewrite Hx, decodeAbsoluteX_ok by (apply byte_at_range; done).
  do 5 (split; [done |]).
  split; [apply horizontal_unit | apply vertical_unit]; by apply byte_at_range.
Qed.

(** A RAM image: zeros with the given (address, byte) pairs written. *)
Fixpoint poke (l : list Z) (writes : list (Z * Z)) : list Z :=
  match writes with
  | [] => l
  | (a, b) :: ws => poke (<[Z.to_nat a := b]> l) ws
  end.

Lemma poke_length writes : forall l, length (poke l writes) = length l.
Proof. induction writes as [| [a b] ws IH]; intros l; simpl; [done |]. by rewrite IH, length_insert. Qed.

Definition ram_of (writes : list (Z * Z)) : MemorySnapshot :=
  mkMemorySnapshot 0
    (mkArray (poke (replicate (N.to_nat SMOLNES_RUNTIME_CPU_RAM_BYTES) 0) writes)
       (eq_trans (f_equal N.of_nat (poke_length writes _)) (fill_length _ 0)))
    (array_fill _ 0).

Lemma ram_of_wf writes :
  forallb (fun w => (0 <=? snd w) && (snd w <? 256)) writes = true -> ram_wf (ram_of writes).
Proof.
  intros H. unfold ram_wf. cbn [cpuRam ram_of elems].
  assert (Forall (fun b => 0 <= b < 256) (replicate (N.to_nat SMOLNES_RUNTIME_CPU_RAM_BYTES) 0)) as H0
    by (apply Forall_replicate; lia).
  revert H H0. generalize (replicate (N.to_nat SMOLNES_RUNTIME_CPU_RAM_BYTES) 0).
  induction writes as [| [a b] ws IH]; intros l Hw Hl; simpl in *; [done |].
  apply andb_true_iff in Hw as [Hb Hw]. apply IH; [done |].
  apply Forall_insert; [done | lia].
Qed.

(** Mario on the ground of 1-1 with goombas in slots 0, 2 and 3. *)
Definition demo_ram : MemorySnapshot :=
  ram_of [ (0x770, 1); (0x0E, 8); (0x6D, 1); (0x86, 40); (0xCE, 176); (0x57, 0x18); (0x75A, 2);
           (0x33, 1); (0x45, 1);
           (0x0F, 1); (0x16, 6); (0x6E, 1); (0x87, 200); (0xCF, 176);
           (0x11, 1); (0x18, 6); (0x70, 1); (0x89, 60); (0xD1, 176);
           (0x12, 1); (0x19, 6); (0x71, 1); (0x8A, 90); (0xD2, 160) ].

Example extract_decodes_witness :
  exists s, NesSuperMarioBrosRamExtractor.extract demo_ram true = Ok s /\
    (NesSuperMarioBrosState.phase s = SmbPhase.Gameplay <-> true = true /\ byte_at demo_ram 0x770 = 1).
Proof.
  destruct (extract_decodes demo_ram true) as (s & Hs & Hph & _).
  - apply ram_of_wf. vm_compute. reflexivity.
  - exists s. split; [exact Hs | exact Hph].
Defined.

(** The enemy scan of [extract] reports the nearest enemies: with [es] the
    decoded enemies of the active slots, no enemy is reported exactly when [es]
    is empty, the first reported offset is one of least squared distance and the
    second (present exactly when there are two or more) of least distance among
    the rest.  The squared distances are the exact [dx * dx + dy * dy]: the
    32-bit arithmetic does not overflow. *)
Lemma extract_nearest_enemies (m : MemorySnapshot) (setupComplete : bool) :
  ram_wf m ->
  let es := enemies m (byte_at m 0x6D * 256 + byte_at m 0x86) (byte_at m 0xCE) 5 in
  Forall (fun e => NesSuperMarioBrosRamExtractor.distanceSquared e =
    NesSuperMarioBrosRamExtractor.dx e * NesSuperMarioBrosRamExtractor.dx e +
    NesSuperMarioBrosRamExtractor.dy e * NesSuperMarioBrosRamExtractor.dy e) es /\
  exists s, NesSuperMarioBrosRamExtractor.extract m setupComplete = Ok s /\
    (NesSuperMarioBrosState.enemyPresent s = false -> es = []) /\
    (NesSuperMarioBrosState.enemyPresent s = true ->
     exists e0 rest, es ≡ₚ e0 :: rest /\
       Forall (fun e => NesSuperMarioBrosRamExtractor.distanceSquared e0
                        <= NesSuperMarioBrosRamExtractor.distanceSquared e) rest /\
       NesSuperMarioBrosState.nearestEnemyDx s = NesSuperMarioBrosRamExtractor.dx e0 /\
       NesSuperMarioBrosState.nearestEnemyDy s = NesSuperMarioBrosRamExtractor.dy e0 /\
       (NesSuperMarioBrosState.secondEnemyPresent s = false -> rest = []) /\
       (NesSuperMarioBrosState.secondEnemyPresent s = true ->
        exists e1 rest', rest ≡ₚ e1 :: rest' /\
          Forall (fun e => NesSuperMarioBrosRamExtractor.distanceSquared e1
                           <= NesSuperMarioBrosRamExtractor.distanceSquared e) rest' /\
          NesSuperMarioBrosState.secondNearestEnemyDx s = NesSuperMarioBrosRamExtractor.dx e1 /\
          NesSuperMarioBrosState.secondNearestEnemyDy s = NesSuperMarioBrosRamExtractor.dy e1)).
Proof.
  intros Hm es.
  assert (enemies m (NesSuperMarioBrosRamExtractor.decodeAbsoluteX (byte_at m 0x6D) (byte_at m 0x86))
    (byte_at m 0xCE) 5 = es) as Hes by (rewrite decodeAbsoluteX_ok by (by apply byte_at_range); done).
  split.
  { apply Forall_forall. intros e He. apply list_elem_of_omap in He as (slot & _ & He).
    unfold slot_enemy in He. destruct (_ || _); [done |]. injection He as <-.
    apply decodeEnemy_distance; by apply byte_at_range. }
  destruct (proj1 (wp_elim _ _) (extract_ok m setupComplete)) as (s & Hs & [[e0 e1] c] & Hn & H).
  destruct H as (_ & _ & _ & _ & _ & _ & _ & _ & _ & _ & _ & Hp & Hp2 & Hd0 & Hd1).
  exists s. split; [done |]. rewrite Hp, Hp2. rewrite Hes in Hn. clearbody es.
  destruct Hn as [[-> ->] | [[-> ->] | (-> & Hle & rest & Hperm & Hr)]].
  - by split.
  - split; [done |]. intros _. exists e0, [].
    destruct (Hd0 ltac:(lia)). by repeat split.
  - split; [done |]. intros _. exists e0, (e1 :: rest).
    destruct (Hd0 ltac:(lia)), (Hd1 ltac:(lia)).
    split; [done |]. split.
    { constructor; [done |]. eapply Forall_impl; [exact Hr |]. cbn. intros. lia. }
    do 2 (split; [done |]). split; [done |]. intros _. by exists e1, rest.
Qed.

Example extract_nearest_enemies_witness :
  exists s, NesSuperMarioBrosRamExtractor.extract demo_ram true = Ok s /\
    (NesSuperMarioBrosState.enemyPresent s = false ->
     enemies demo_ram (byte_at demo_ram 0x6D * 256 + byte_at demo_ram 0x86) (byte_at demo_ram 0xCE) 5 = []).
Proof.
  destruct (extract_nearest_enemies demo_ram true) as (_ & s & Hs & Hno & _).
  - apply ram_of_wf. vm_compute. reflexivity.
  - exists s. split; [exact Hs | exact Hno].
Defined.

(** Slot 2 is nearest (20 pixels ahead), slot 3 second (50 ahead, 16 up). *)
Example demo_ram_enemies :
  match NesSuperMarioBrosRamExtractor.extract demo_ram true with
  | Ok s => (NesSuperMarioBrosState.nearestEnemyDx s, NesSuperMarioBrosState.nearestEnemyDy s,
             NesSuperMarioBrosState.secondNearestEnemyDx s, NesSuperMarioBrosState.secondNearestEnemyDy s)
  | Fault _ => (0, 0, 0, 0)
  end = (20, 0, 50, -16).
Proof. vm_compute. reflexivity. Qed.
