(* ===== verification/SmbAdapter.v ===== *)
(** The game adapter between the NES runtime and the evaluator: the setup
    policy, the special senses, the tile position and the adapter itself
    ([NesSuperMarioBrosSetupPolicy.cpp], [NesSuperMarioBrosSpecialSenses.cpp],
    [NesSuperMarioBrosTilePosition.cpp], [NesSuperMarioBrosGameAdapter.cpp] under
    [core/scenarios/nes/]).

    The palette clusterer the adapter owns only feeds the duck senses and is not
    modelled; neither is the log line of a failed setup. *)

From Stdlib Require Import ZArith Lia Bool String.
From Stdlib Require Import SpecFloat.
From stdpp Require Import base gmap option numbers list.
From S2P Require Import Prelude Ieee NesTypes SmbEvaluator SmbRam.

Set Default Goal Selector "!".

Module SetupPolicy.

Definition kSetupFailureFrame : Z := 500.
Definition kSetupScriptEndFrame : Z := 300.
Definition kStartPressFirstFrame : Z := 120.

Record NesSuperMarioBrosSetupDecision := mkDecision {
  controllerMask : Z;
  gameplayDetected : bool;
  pressedStart : bool;
  usingSetupScript : bool;
  frameIndex : Z
}.

Definition getNesSuperMarioBrosSetupFailureFrame : Z := kSetupFailureFrame.
Definition getNesSuperMarioBrosSetupScriptEndFrame : Z := kSetupScriptEndFrame.

Definition getNesSuperMarioBrosScriptedSetupMaskForFrame (frameIndex : Z) : Z :=
  if frameIndex =? kStartPressFirstFrame then NesPolicyLayout.ButtonStart else 0.

Definition resolveNesSuperMarioBrosSetupDecision (frameIndex : Z) (lastGameState : option Z)
    (inferredControllerMask : Z) : NesSuperMarioBrosSetupDecision :=
  let gameplayDetected := value_or lastGameState 0 =? 1 in
  if negb gameplayDetected then
    let mask := getNesSuperMarioBrosScriptedSetupMaskForFrame frameIndex in
    mkDecision mask gameplayDetected (mask =? NesPolicyLayout.ButtonStart) true frameIndex
  else mkDecision inferredControllerMask gameplayDetected false false frameIndex.

End SetupPolicy.

Module SpecialSenses.

Definition SPECIAL_SENSE_COUNT : Z := 32.

Definition normalizeSmb (value maxValue : f64) : f64 :=
  std_clamp (f64_div value maxValue) fzero (f64_of_Z 1).
Definition normalizeSmbSigned (value maxMagnitude : f64) : f64 :=
  std_clamp (f64_div value maxMagnitude) (f64_of_Z (-1)) (f64_of_Z 1).
Definition normalizePhase (value period : Z) : f64 :=
  f64_div (f64_of_Z (Z.rem value period)) (f64_of_Z (period - 1)).

Definition bool_sense (b : bool) : f64 := if b then f64_of_Z 1 else fzero.

(** The 22 senses the function writes, in index order, and the unused tail. *)
Definition makeNesSuperMarioBrosSpecialSenses (s : NesSuperMarioBrosState.t) : list f64 :=
  let progress := f64_div (f64_add (f64_mul (f64_of_Z (NesSuperMarioBrosState.world s)) (f64_of_Z 4))
                                   (f64_of_Z (NesSuperMarioBrosState.level s))) (f64_of_Z 32) in
  [ std_clamp progress fzero (f64_of_Z 1);
    normalizeSmb (f64_of_Z (NesSuperMarioBrosState.absoluteX s)) (f64_of_Z 4096);
    NesSuperMarioBrosState.horizontalSpeedNormalized s;
    NesSuperMarioBrosState.verticalSpeedNormalized s;
    match NesSuperMarioBrosState.powerupState s with
    | SmbPowerupState.Fire => f64_of_Z 1
    | SmbPowerupState.Big => f64_lit 1 2
    | SmbPowerupState.Small => fzero
    end;
    bool_sense (NesSuperMarioBrosState.airborne s);
    normalizeSmb (f64_of_Z (NesSuperMarioBrosState.playerYScreen s)) (f64_of_Z 240);
    normalizeSmb (f64_of_Z (NesSuperMarioBrosState.lives s)) (f64_of_Z 9);
    normalizeSmb (f64_of_Z (NesSuperMarioBrosState.playerXScreen s)) (f64_of_Z 255);
    normalizeSmbSigned (f64_of_Z (NesSuperMarioBrosState.nearestEnemyDx s)) (f64_of_Z 255);
    normalizeSmbSigned (f64_of_Z (NesSuperMarioBrosState.nearestEnemyDy s)) (f64_of_Z 240);
    normalizeSmbSigned (f64_of_Z (NesSuperMarioBrosState.secondNearestEnemyDx s)) (f64_of_Z 255);
    normalizeSmbSigned (f64_of_Z (NesSuperMarioBrosState.secondNearestEnemyDy s)) (f64_of_Z 240);
    bool_sense (NesSuperMarioBrosState.enemyPresent s);
    bool_sense (NesSuperMarioBrosState.secondEnemyPresent s);
    normalizeSmb (f64_of_Z (NesSuperMarioBrosState.world s)) (f64_of_Z 7);
    normalizeSmb (f64_of_Z (NesSuperMarioBrosState.level s)) (f64_of_Z 3);
    f32_to_f64 (NesSuperMarioBrosState.movementX s);
    normalizePhase (NesSuperMarioBrosState.absoluteX s) 8;
    normalizePhase (u16 (NesSuperMarioBrosState.playerYScreen s)) 8;
    normalizePhase (NesSuperMarioBrosState.absoluteX s) 16;
    normalizePhase (u16 (NesSuperMarioBrosState.playerYScreen s)) 16 ]
  ++ replicate 10 fzero.

End SpecialSenses.

Module TilePosition.

Definition kSmbNametablePixelPeriod : Z := 512.
Definition TopCropPixels : Z := 8.

Definition wrappedNametableDelta (value origin : Z) : Z :=
  let delta := s16 (s32 (Z.land value 0x01FF) - s32 (Z.land origin 0x01FF)) in
  let delta := if delta <? - Z.quot kSmbNametablePixelPeriod 2
               then s16 (delta + kSmbNametablePixelPeriod) else delta in
  if Z.quot kSmbNametablePixelPeriod 2 - 1 <? delta
  then s16 (delta - kSmbNametablePixelPeriod) else delta.

Definition makeNesSuperMarioBrosPlayerTileScreenX (s : NesSuperMarioBrosState.t)
    (tileFrameScrollX : Z) : Z :=
  wrappedNametableDelta (NesSuperMarioBrosState.absoluteX s) tileFrameScrollX.

Definition makeNesSuperMarioBrosPlayerTileScreenY (s : NesSuperMarioBrosState.t) : Z :=
  s16 (s16 (NesSuperMarioBrosState.playerYScreen s) - s16 TopCropPixels).

End TilePosition.

Module NesSuperMarioBrosGameAdapter.
Import SetupPolicy SpecialSenses TilePosition.

Definition kNesFrameHeight : f64 := f64_of_Z 240.
Definition kNesFrameWidth : f64 := f64_of_Z 256.
Definition kSmbDefaultTilePlayerScreenX : Z := 128.
Definition kSmbDefaultTilePlayerScreenY : Z := 120 - s16 TopCropPixels.

Definition normalizeViewCoordinate (value extent : f64) : f32 :=
  if fle extent fzero then f32_lit 1 2
  else f64_to_f32 (std_clamp (f64_div value extent) fzero (f64_of_Z 1)).

Record t := mk {
  evaluator_ : NesSuperMarioBrosEvaluator.t;
  advancedFrameCount_ : Z;
  cachedSpecialSenses_ : list f64;
  cachedFacingX_ : f32;
  cachedSelfViewX_ : f32;
  cachedSelfViewY_ : f32;
  cachedTileGameplayState_ : option NesSuperMarioBrosState.t;
  cachedTilePlayerScreenX_ : Z;
  cachedTilePlayerScreenY_ : Z;
  setupFailureLogged_ : bool
}.

Definition default : t :=
  mk NesSuperMarioBrosEvaluator.reset 0 (replicate 32 fzero) fzero (f32_lit 1 2) (f32_lit 1 2) None
    kSmbDefaultTilePlayerScreenX kSmbDefaultTilePlayerScreenY false.

(** [reset] keeps the two view coordinates. *)
Definition reset (a : t) : t :=
  mk NesSuperMarioBrosEvaluator.reset 0 (replicate 32 fzero) fzero
    (cachedSelfViewX_ a) (cachedSelfViewY_ a) None
    kSmbDefaultTilePlayerScreenX kSmbDefaultTilePlayerScreenY false.

Definition resolveControllerMask (a : t) (input : NesGameAdapterControllerInput)
    : NesGameAdapterControllerOutput :=
  let decision := resolveNesSuperMarioBrosSetupDecision (advancedFrameCount_ a)
                    (lastGameState input) (inferredControllerMask input) in
  mkControllerOutput (controllerMask decision)
    (if usingSetupScript decision then ScriptedSetup else InferredPolicy)
    (if usingSetupScript decision then Some (frameIndex decision) else None).

Record DebugState := mkDebugState {
  d_advancedFrameCount : Z;
  d_level : Z;
  d_lifeState : Z;
  d_lives : Z;
  d_phase : Z;
  d_playerXScreen : Z;
  d_playerYScreen : Z;
  d_powerupState : Z;
  d_world : Z;
  d_absoluteX : Z;
  d_setupFailure : bool;
  d_setupScriptActive : bool
}.

Record FrameOutput := mkFrameOutput {
  done : bool;
  debugState : option DebugState;
  fitnessDetails : NesFitnessDetails;
  rewardDelta : f64;
  gameState : option Z
}.

Definition frameOutput_default : FrameOutput := mkFrameOutput false None FitnessMonostate fzero None.

(** The caches as [evaluateFrame] clears them. *)
Definition clear_caches (a : t) (advancedFrames : Z) : t :=
  mk (evaluator_ a) (u64 (advancedFrameCount_ a + advancedFrames)) (replicate 32 fzero) fzero
    (f32_lit 1 2) (f32_lit 1 2) None kSmbDefaultTilePlayerScreenX kSmbDefaultTilePlayerScreenY
    (setupFailureLogged_ a).

Definition is_gameplay (s : NesSuperMarioBrosState.t) : bool :=
  bool_decide (NesSuperMarioBrosState.phase s = SmbPhase.Gameplay).

Definition debug_state (a : t) (s : NesSuperMarioBrosState.t) : DebugState :=
  {| d_advancedFrameCount := advancedFrameCount_ a;
     d_level := NesSuperMarioBrosState.level s;
     d_lifeState := SmbLifeState.to_Z (NesSuperMarioBrosState.lifeState s);
     d_lives := NesSuperMarioBrosState.lives s;
     d_phase := SmbPhase.to_Z (NesSuperMarioBrosState.phase s);
     d_playerXScreen := NesSuperMarioBrosState.playerXScreen s;
     d_playerYScreen := NesSuperMarioBrosState.playerYScreen s;
     d_powerupState := SmbPowerupState.to_Z (NesSuperMarioBrosState.powerupState s);
     d_world := NesSuperMarioBrosState.world s;
     d_absoluteX := NesSuperMarioBrosState.absoluteX s;
     d_setupFailure := negb (is_gameplay s)
                       && (getNesSuperMarioBrosSetupFailureFrame <=? advancedFrameCount_ a);
     d_setupScriptActive := negb (is_gameplay s) |}.

(** [if (state.phase == SmbPhase::Gameplay) { ... }]. *)
Definition cache_gameplay (a : t) (s : NesSuperMarioBrosState.t) : t :=
  if is_gameplay s then
    mk (evaluator_ a) (advancedFrameCount_ a) (makeNesSuperMarioBrosSpecialSenses s)
      (NesSuperMarioBrosState.facingX s)
      (normalizeViewCoordinate (f64_of_Z (NesSuperMarioBrosState.playerXScreen s)) kNesFrameWidth)
      (normalizeViewCoordinate (f64_of_Z (NesSuperMarioBrosState.playerYScreen s)) kNesFrameHeight)
      (Some s) (s16 (NesSuperMarioBrosState.playerXScreen s))
      (makeNesSuperMarioBrosPlayerTileScreenY s) (setupFailureLogged_ a)
  else a.

Definition with_evaluator (a : t) (e : NesSuperMarioBrosEvaluator.t) : t :=
  mk e (advancedFrameCount_ a) (cachedSpecialSenses_ a) (cachedFacingX_ a) (cachedSelfViewX_ a)
    (cachedSelfViewY_ a) (cachedTileGameplayState_ a) (cachedTilePlayerScreenX_ a)
    (cachedTilePlayerScreenY_ a) (setupFailureLogged_ a).
Definition with_failure_logged (a : t) : t :=
  mk (evaluator_ a) (advancedFrameCount_ a) (cachedSpecialSenses_ a) (cachedFacingX_ a)
    (cachedSelfViewX_ a) (cachedSelfViewY_ a) (cachedTileGameplayState_ a)
    (cachedTilePlayerScreenX_ a) (cachedTilePlayerScreenY_ a) true.

Definition evaluateFrame (a : t) (advancedFrames : Z) (memorySnapshot : option MemorySnapshot)
    : res (t * FrameOutput) :=
  let a := clear_caches a advancedFrames in
  match memorySnapshot with
  | None => Ok (a, frameOutput_default)
  | Some m =>
      let! state := NesSuperMarioBrosRamExtractor.extract m
                      (getNesSuperMarioBrosSetupScriptEndFrame <=? advancedFrameCount_ a) in
      let gameState := if is_gameplay state then Some 1 else Some 0 in
      let debugState := Some (debug_state a state) in
      if negb (is_gameplay state)
         && (getNesSuperMarioBrosSetupFailureFrame <=? advancedFrameCount_ a)
      then Ok (with_failure_logged a,
               mkFrameOutput true debugState FitnessMonostate fzero gameState)
      else
        let a := cache_gameplay a state in
        let '(e, evaluation) := NesSuperMarioBrosEvaluator.evaluate (evaluator_ a)
              (NesSuperMarioBrosEvaluator.mkInput advancedFrames state) in
        Ok (with_evaluator a e,
            mkFrameOutput (NesSuperMarioBrosEvaluator.done evaluation) debugState
              (FitnessSmb (NesSuperMarioBrosEvaluator.snapshot evaluation))
              (NesSuperMarioBrosEvaluator.rewardDelta evaluation) gameState)
  end.

(** The player position handed to the tile senses. *)
Definition tilePlayerScreen (a : t) (tileFrameScrollX : option Z) : Z * Z :=
  match cachedTileGameplayState_ a with
  | Some s =>
      (match tileFrameScrollX with
       | Some scroll => makeNesSuperMarioBrosPlayerTileScreenX s scroll
       | None => cachedTilePlayerScreenX_ a
       end, makeNesSuperMarioBrosPlayerTileScreenY s)
  | None => (cachedTilePlayerScreenX_ a, cachedTilePlayerScreenY_ a)
  end.

End NesSuperMarioBrosGameAdapter.

(** ** Facts *)
Section AdapterFacts.
Import SetupPolicy SpecialSenses TilePosition NesSuperMarioBrosGameAdapter.

(** A sense in [0, 1], or in [-1, 1] when it carries a sign. *)
Definition sense_range (signed : bool) (v : f64) : bool :=
  fle (if signed then f64_of_Z (-1) else fzero) v && fle v (f64_of_Z 1).

(** Which senses carry a sign: the speeds, the enemy offsets and the direction
    of movement. *)
Definition sense_signs : list bool :=
  [false; false; true; true; false; false; false; false; false; true; true; true; true;
   false; false; false; false; true; false; false; false; false] ++ replicate 10 false.

Lemma clamp_sense signed v :
  not_nan v ->
  sense_range signed (std_clamp v (if signed then f64_of_Z (-1) else fzero) (f64_of_Z 1)) = true.
Proof.
  intros Hv. unfold sense_range. apply andb_true_iff. apply std_clamp_range; [done |].
  by destruct signed; vm_compute.
Qed.

Lemma normalizeSmb_sense z c :
  is_nonzero_finite (f64_of_Z c) = true -> sense_range false (normalizeSmb (f64_of_Z z) (f64_of_Z c)) = true.
Proof. intros Hc. apply (clamp_sense false), SFdiv_not_nan; [apply f64_of_Z_not_nan | done]. Qed.

Lemma normalizeSmbSigned_sense z c :
  is_nonzero_finite (f64_of_Z c) = true -> sense_range true (normalizeSmbSigned (f64_of_Z z) (f64_of_Z c)) = true.
Proof. intros Hc. apply (clamp_sense true), SFdiv_not_nan; [apply f64_of_Z_not_nan | done]. Qed.

Lemma bool_sense_range b : sense_range false (bool_sense b) = true.
Proof. by destruct b; vm_compute. Qed.

Lemma progress_sense w l :
  0 <= w < 256 -> 0 <= l < 256 ->
  sense_range false (std_clamp (f64_div (f64_add (f64_mul (f64_of_Z w) (f64_of_Z 4)) (f64_of_Z l))
    (f64_of_Z 32)) fzero (f64_of_Z 1)) = true.
Proof.
  intros Hw Hl. apply (clamp_sense false), SFdiv_not_nan; [| by vm_compute].
  apply SFadd_not_nan.
  - revert w Hw. apply all_bytes. vm_compute. reflexivity.
  - revert l Hl. apply all_bytes. vm_compute. reflexivity.
Qed.

Lemma phase_sense z n :
  0 <= z -> n = 8 \/ n = 16 -> sense_range false (normalizePhase z n) = true.
Proof.
  intros Hz Hn. unfold normalizePhase.
  assert (forall r, 0 <= r < 256 -> (n <=? r) || sense_range false (f64_div (f64_of_Z r) (f64_of_Z (n - 1))) = true)
    as H by (destruct Hn as [-> | ->]; apply all_bytes; vm_compute; reflexivity).
  assert (0 <= Z.rem z n < n) as Hr by (apply Z.rem_bound_pos; lia).
  specialize (H (Z.rem z n) ltac:(lia)). by rewrite (proj2 (Z.leb_gt _ _)) in H by lia.
Qed.

Lemma facing_sense b : sense_range true (f32_to_f64 (NesSuperMarioBrosRamExtractor.decodeFacingX b)) = true.
Proof.
  unfold NesSuperMarioBrosRamExtractor.decodeFacingX. destruct (b =? 1); [by vm_compute |].
  destruct (b =? 2); by vm_compute.
Qed.

(** The fields of the state the senses need bounds for. *)
Definition sensible (s : NesSuperMarioBrosState.t) : Prop :=
  0 <= NesSuperMarioBrosState.world s < 256 /\ 0 <= NesSuperMarioBrosState.level s < 256 /\
  0 <= NesSuperMarioBrosState.absoluteX s /\
  unit_speed (NesSuperMarioBrosState.horizontalSpeedNormalized s) = true /\
  unit_speed (NesSuperMarioBrosState.verticalSpeedNormalized s) = true /\
  exists b, NesSuperMarioBrosState.movementX s = NesSuperMarioBrosRamExtractor.decodeFacingX b.

Lemma extract_sensible m sc :
  ram_wf m -> wp (NesSuperMarioBrosRamExtractor.extract m sc) sensible.
Proof.
  intros Hm. unfold NesSuperMarioBrosRamExtractor.extract. rewrite !ram_at_ok by done. cbn [rbind].
  apply wp_bind. eapply wp_mono; [apply scanEnemies_ok |]. intros [[e0 e1] c] _. cbn [wp].
  unfold sensible. cbn [NesSuperMarioBrosState.world NesSuperMarioBrosState.level
    NesSuperMarioBrosState.absoluteX NesSuperMarioBrosState.horizontalSpeedNormalized
    NesSuperMarioBrosState.verticalSpeedNormalized NesSuperMarioBrosState.movementX].
  split; [by apply byte_at_range |]. split; [by apply byte_at_range |]. split.
  { unfold NesSuperMarioBrosRamExtractor.decodeAbsoluteX. apply wrap_u_range. lia. }
  split; [by apply horizontal_unit, byte_at_range |]. split; [by apply vertical_unit, byte_at_range |].
  by eexists.
Qed.

Lemma senses_in_range s :
  sensible s -> Forall2 (fun signed v => sense_range signed v = true) sense_signs
                  (makeNesSuperMarioBrosSpecialSenses s).
Proof.
  intros (Hw & Hl & Hx & Hh & Hv & b & Hb).
  unfold makeNesSuperMarioBrosSpecialSenses, sense_signs. rewrite Hb.
  apply Forall2_app; [| repeat constructor; by vm_compute].
  apply List.Forall2_cons; [exact (progress_sense _ _ Hw Hl) |].
  apply List.Forall2_cons; [exact (normalizeSmb_sense (NesSuperMarioBrosState.absoluteX s) 4096 eq_refl) |].
  apply List.Forall2_cons; [exact Hh |].
  apply List.Forall2_cons; [exact Hv |].
  apply List.Forall2_cons; [destruct (NesSuperMarioBrosState.powerupState s); vm_compute; reflexivity |].
  apply List.Forall2_cons; [apply bool_sense_range |].
  apply List.Forall2_cons; [exact (normalizeSmb_sense (NesSuperMarioBrosState.playerYScreen s) 240 eq_refl) |].
  apply List.Forall2_cons; [exact (normalizeSmb_sense (NesSuperMarioBrosState.lives s) 9 eq_refl) |].
  apply List.Forall2_cons; [exact (normalizeSmb_sense (NesSuperMarioBrosState.playerXScreen s) 255 eq_refl) |].
  apply List.Forall2_cons; [exact (normalizeSmbSigned_sense (NesSuperMarioBrosState.nearestEnemyDx s) 255 eq_refl) |].
  apply List.Forall2_cons; [exact (normalizeSmbSigned_sense (NesSuperMarioBrosState.nearestEnemyDy s) 240 eq_refl) |].
  apply List.Forall2_cons; [exact (normalizeSmbSigned_sense (NesSuperMarioBrosState.secondNearestEnemyDx s) 255 eq_refl) |].
  apply List.Forall2_cons; [exact (normalizeSmbSigned_sense (NesSuperMarioBrosState.secondNearestEnemyDy s) 240 eq_refl) |].
  apply List.Forall2_cons; [apply bool_sense_range |].
  apply List.Forall2_cons; [apply bool_sense_range |].
  apply List.Forall2_cons; [exact (normalizeSmb_sense (NesSuperMarioBrosState.world s) 7 eq_refl) |].
  apply List.Forall2_cons; [exact (normalizeSmb_sense (NesSuperMarioBrosState.level s) 3 eq_refl) |].
  apply List.Forall2_cons; [exact (facing_sense b) |].
  apply List.Forall2_cons; [exact (phase_sense _ 8 Hx (or_introl eq_refl)) |].
  apply List.Forall2_cons; [exact (phase_sense _ 8 (proj1 (wrap_u_range 16 _ ltac:(lia))) (or_introl eq_refl)) |].
  apply List.Forall2_cons; [exact (phase_sense _ 16 Hx (or_intror eq_refl)) |].
  apply List.Forall2_cons; [exact (phase_sense _ 16 (proj1 (wrap_u_range 16 _ ltac:(lia))) (or_intror eq_refl)) |].
  constructor.
Qed.

Lemma decodeGameMode_normal b :
  bool_decide (NesSuperMarioBrosRamExtractor.decodeGameMode b = SmbGameMode.Normal) = (b =? 1).
Proof.
  unfold NesSuperMarioBrosRamExtractor.decodeGameMode. destruct (b =? 0) eqn:E0; [by destruct (b =? 1) eqn:E1; [lia |] |].
  destruct (b =? 1); [done |]. destruct (b =? 2); [done |]. by destruct (b =? 3).
Qed.
End AdapterFacts.

(** ** Properties *)

(** The special senses of a decoded frame: whatever the RAM holds, decoding
    succeeds and every one of the 32 senses handed to the brain is a number (not
    NaN) between 0 and 1, or between -1 and 1 for the senses that carry a sign. *)
Lemma special_senses_range (m : MemorySnapshot) (setupComplete : bool) :
  ram_wf m ->
  exists s, NesSuperMarioBrosRamExtractor.extract m setupComplete = Ok s /\
    length (SpecialSenses.makeNesSuperMarioBrosSpecialSenses s) = 32%nat /\
    Forall2 (fun signed v => sense_range signed v = true) sense_signs
      (SpecialSenses.makeNesSuperMarioBrosSpecialSenses s).
Proof.
  intros Hm. pose proof (extract_sensible m setupComplete Hm) as H.
  apply wp_elim in H as (s & Hs & Hw). exists s. split; [done |]. split; [done |]. by apply senses_in_range.
Qed.

Example special_senses_range_witness :
  exists s, NesSuperMarioBrosRamExtractor.extract demo_ram true = Ok s /\
    length (SpecialSenses.makeNesSuperMarioBrosSpecialSenses s) = 32%nat.
Proof.
  destruct (special_senses_range demo_ram true) as (s & Hs & Hl & _).
  - apply ram_of_wf. vm_compute. reflexivity.
  - exists s. split; [exact Hs | exact Hl].
Defined.

(** The player's position in tile space: the horizontal screen position is
    the representative, modulo the 512-pixel nametable period, of the distance
    from the scroll origin that lies in [-256, 255], with no overflow of the
    16-bit arithmetic; the vertical one is the screen row less the cropped
    rows. *)
Lemma tile_position (s : NesSuperMarioBrosState.t) (scroll : Z) :
  let d := TilePosition.makeNesSuperMarioBrosPlayerTileScreenX s scroll in
  -256 <= d <= 255 /\ (d - (NesSuperMarioBrosState.absoluteX s - scroll)) mod 512 = 0 /\
  (0 <= NesSuperMarioBrosState.playerYScreen s < 256 ->
   TilePosition.makeNesSuperMarioBrosPlayerTileScreenY s = NesSuperMarioBrosState.playerYScreen s - 8).
Proof.
  unfold TilePosition.makeNesSuperMarioBrosPlayerTileScreenX, TilePosition.wrappedNametableDelta.
  set (x := NesSuperMarioBrosState.absoluteX s). change 0x01FF with (Z.ones 9).
  rewrite !Z.land_ones by lia. change (2 ^ 9) with 512.
  pose proof (Z.mod_pos_bound x 512 ltac:(lia)) as Hx. pose proof (Z.mod_pos_bound scroll 512 ltac:(lia)) as Ho.
  rewrite (wrap_s_small 32 (x mod 512)), (wrap_s_small 32 (scroll mod 512)) by lia.
  rewrite (wrap_s_small 16 (x mod 512 - scroll mod 512)) by lia.
  change (Z.quot TilePosition.kSmbNametablePixelPeriod 2) with 256.
  change TilePosition.kSmbNametablePixelPeriod with 512. cbv zeta.
  pose proof (Z.div_mod x 512 ltac:(lia)) as Ex. pose proof (Z.div_mod scroll 512 ltac:(lia)) as Eo.
  assert (forall d k, d = x mod 512 - scroll mod 512 + 512 * k -> (d - (x - scroll)) mod 512 = 0) as Hmod.
  { intros d k ->. replace (_ - (x - scroll)) with ((k - x / 512 + scroll / 512) * 512) by lia.
    by apply Z.mod_mul. }
  set (e := x mod 512 - scroll mod 512) in *. split; [| split].
  - destruct (e <? - (256)) eqn:E1.
    + rewrite (wrap_s_small 16 (e + 512)) by lia. destruct (256 - 1 <? e + 512) eqn:E2; lia.
    + destruct (256 - 1 <? e) eqn:E2; [rewrite wrap_s_small by lia |]; lia.
  - destruct (e <? - (256)) eqn:E1.
    + rewrite (wrap_s_small 16 (e + 512)) by lia.
      destruct (256 - 1 <? e + 512) eqn:E2; [lia | apply (Hmod _ 1); lia].
    + destruct (256 - 1 <? e) eqn:E2; [rewrite wrap_s_small by lia; apply (Hmod _ (-1)); lia |].
      apply (Hmod _ 0). lia.
  - intros Hy. unfold TilePosition.makeNesSuperMarioBrosPlayerTileScreenY, TilePosition.TopCropPixels.
    rewrite (wrap_s_small 16 (NesSuperMarioBrosState.playerYScreen s)), (wrap_s_small 16 8) by lia.
    apply wrap_s_small; lia.
Qed.

Example tile_position_witness :
  TilePosition.makeNesSuperMarioBrosPlayerTileScreenY (demo_state SmbGameMode.Normal 300 100) = 92.
Proof. apply (tile_position (demo_state SmbGameMode.Normal 300 100) 0). cbn. lia. Defined.

(** The adapter never throws: decoding is total. *)
Lemma evaluateFrame_ok a n m :
  wp (NesSuperMarioBrosGameAdapter.evaluateFrame a n m) (fun _ => True).
Proof.
  unfold NesSuperMarioBrosGameAdapter.evaluateFrame. destruct m as [m |]; [| done]. cbv zeta.
  apply wp_bind. eapply wp_mono; [apply extract_ok |]. intros state _.
  match goal with |- context [if ?b then Ok _ else _] => destruct b end; [done |].
  by destruct (NesSuperMarioBrosEvaluator.evaluate _ _).
Qed.

(** One frame of the game adapter and the controller decision before the
    next: evaluating a frame never throws, advances the frame count, and reports
    gameplay exactly when 300 frames have passed and the game engine runs in
    normal mode.  Outside gameplay from frame 500 on the episode is over and the
    evaluator is left alone; otherwise the evaluator judges the frame and its
    verdict, reward and snapshot are passed on.  As long as the reported state is
    not gameplay the controller is driven by the setup script, which presses
    START exactly on frame 120 and nothing otherwise, and no frame counts for the
    search; once it is, the policy's own buttons go through and the frame
    counts. *)
Lemma adapter_frame (a : NesSuperMarioBrosGameAdapter.t) (n : Z) (m : MemorySnapshot) (inferred : Z) :
  let count := u64 (NesSuperMarioBrosGameAdapter.advancedFrameCount_ a + n) in
  let gameplay := (300 <=? count) && (byte_at m 0x770 =? 1) in
  exists a' o, NesSuperMarioBrosGameAdapter.evaluateFrame a n (Some m) = Ok (a', o) /\
    NesSuperMarioBrosGameAdapter.advancedFrameCount_ a' = count /\
    NesSuperMarioBrosGameAdapter.gameState o = Some (if gameplay then 1 else 0) /\
    (negb gameplay && (500 <=? count) = true ->
       NesSuperMarioBrosGameAdapter.done o = true /\
       NesSuperMarioBrosGameAdapter.fitnessDetails o = FitnessMonostate /\
       NesSuperMarioBrosGameAdapter.evaluator_ a' = NesSuperMarioBrosGameAdapter.evaluator_ a) /\
    (negb gameplay && (500 <=? count) = false ->
       exists s, NesSuperMarioBrosRamExtractor.extract m (300 <=? count) = Ok s /\
         let '(e, v) := NesSuperMarioBrosEvaluator.evaluate (NesSuperMarioBrosGameAdapter.evaluator_ a)
                          (NesSuperMarioBrosEvaluator.mkInput n s) in
         NesSuperMarioBrosGameAdapter.evaluator_ a' = e /\
         NesSuperMarioBrosGameAdapter.done o = NesSuperMarioBrosEvaluator.done v /\
         NesSuperMarioBrosGameAdapter.fitnessDetails o = FitnessSmb (NesSuperMarioBrosEvaluator.snapshot v) /\
         NesSuperMarioBrosGameAdapter.cachedSpecialSenses_ a' =
           (if gameplay then SpecialSenses.makeNesSuperMarioBrosSpecialSenses s else replicate 32 fzero)) /\
    let c := NesSuperMarioBrosGameAdapter.resolveControllerMask a'
               (mkControllerInput inferred (NesSuperMarioBrosGameAdapter.gameState o)) in
    resolvedControllerMask c =
      (if gameplay then inferred else if count =? 120 then NesPolicyLayout.ButtonStart else 0) /\
    source c = (if gameplay then InferredPolicy else ScriptedSetup).
Proof.
  intros count gameplay.
  pose proof (extract_ok m (300 <=? count)) as H. apply wp_elim in H as (s & Hs & nb & _ & H).
  assert (NesSuperMarioBrosGameAdapter.is_gameplay s = gameplay) as Hg.
  { destruct nb as [[e0 e1] c]. destruct H as (Hph & _). unfold NesSuperMarioBrosGameAdapter.is_gameplay.
    rewrite Hph. unfold NesSuperMarioBrosRamExtractor.decodePhase, gameplay.
    rewrite decodeGameMode_normal. destruct (300 <=? count), (byte_at m 0x770 =? 1); done. }
  unfold NesSuperMarioBrosGameAdapter.evaluateFrame. cbv zeta.
  cbn [NesSuperMarioBrosGameAdapter.clear_caches NesSuperMarioBrosGameAdapter.advancedFrameCount_].
  fold count. unfold SetupPolicy.getNesSuperMarioBrosSetupScriptEndFrame,
    SetupPolicy.kSetupScriptEndFrame, SetupPolicy.getNesSuperMarioBrosSetupFailureFrame,
    SetupPolicy.kSetupFailureFrame.
  rewrite Hs. cbn [rbind]. rewrite Hg.
  destruct (negb gameplay && (500 <=? count)) eqn:Hfail.
  - eexists _, _. split; [reflexivity |]. apply andb_true_iff in Hfail as [Hng _].
    apply negb_true_iff in Hng. rewrite Hng. do 4 (split; [done |]). by split.
  - unfold NesSuperMarioBrosGameAdapter.cache_gameplay. rewrite Hg.
    destruct (NesSuperMarioBrosEvaluator.evaluate _ _) as [e v] eqn:He.
    assert (NesSuperMarioBrosEvaluator.evaluate (NesSuperMarioBrosGameAdapter.evaluator_ a)
      (NesSuperMarioBrosEvaluator.mkInput n s) = (e, v)) as He' by (by destruct gameplay).
    eexists _, _. split; [reflexivity |]. split; [by destruct gameplay |]. split; [by destruct gameplay |].
    split; [done |]. split.
    + intros _. exists s. split; [done |]. rewrite He'. by destruct gameplay.
    + by destruct gameplay.
Qed.

(** The first frame after the setup script, in gameplay. *)
Example adapter_frame_witness :
  exists a' o, NesSuperMarioBrosGameAdapter.evaluateFrame
      (NesSuperMarioBrosGameAdapter.reset NesSuperMarioBrosGameAdapter.default) 300 (Some demo_ram) = Ok (a', o) /\
    NesSuperMarioBrosGameAdapter.gameState o = Some 1.
Proof.
  destruct (adapter_frame (NesSuperMarioBrosGameAdapter.reset NesSuperMarioBrosGameAdapter.default) 300 demo_ram 0)
    as (a' & o & H1 & _ & H2 & _).
  exists a', o. split; [exact H1 | rewrite H2; vm_compute; reflexivity].
Defined.
