(* ===== verification/SmbSearchCore.v ===== *)
(** Actions, frontiers and plans of the search: [server/search/SmbSearchCore.{h,cpp}]. *)

From Stdlib Require Import ZArith Lia Bool String.
From Stdlib Require Import SpecFloat.
From stdpp Require Import base gmap option numbers list.
From S2P Require Import Prelude Ieee NesTypes SmbEvaluator.

Set Default Goal Selector "!".

Module SmbSearchLegalAction.
Inductive t := Neutral | Right | RightRun | RightJump | RightJumpRun | LeftRun | LeftJumpRun
  | Duck | DuckJump | DuckRightJumpRun | DuckLeftJumpRun.
#[global] Instance eq_dec : EqDecision t.
Proof. solve_decision. Defined.
End SmbSearchLegalAction.

Module SmbSearchHorizontalDirection.
Inductive t := None | Left | Right.
#[global] Instance eq_dec : EqDecision t.
Proof. solve_decision. Defined.
End SmbSearchHorizontalDirection.

Definition kSmbSearchLegalActionCount : Z := 11.

(** [actions] is the [std::array] of eleven; [count] of them are meaningful. *)
Module SmbSearchActionOrdering.
Record t := mk {
  actions : list SmbSearchLegalAction.t;
  count : Z;
  groundedVerticalJumpPriorityActionCount : Z;
  groundedVerticalJumpPriorityApplied : bool
}.
End SmbSearchActionOrdering.

Module SmbSearchEvaluatorSummary.
Record t := mk {
  bestFrontier : Z;
  gameplayFrames : Z;
  gameplayFramesSinceProgress : Z;
  distanceRewardTotal : f64;
  endReason : SmbEpisodeEndReason.t;
  evaluationScore : f64;
  levelClearRewardTotal : f64;
  gameState : option Z;
  terminal : bool
}.
End SmbSearchEvaluatorSummary.

Module SmbSearchNode.
Record t := mk {
  savestate : Savestate;
  memorySnapshot : MemorySnapshot;
  scenarioVideoFrame : option ScenarioVideoFrame;
  evaluatorSummary : SmbSearchEvaluatorSummary.t;
  parentIndex : option Z;
  actionFromParent : option SmbSearchLegalAction.t;
  currentFrontier : Z;
  gameplayFrame : Z;
  playerYScreen : Z;
  velocityStuckFrameCount : Z
}.
End SmbSearchNode.

Module SmbSearchCore.

Definition isSmbGameplayFrame (gameState : option Z) (controllerOutput : NesGameAdapterControllerOutput) : bool :=
  (value_or gameState 0 =? 1) && negb (bool_decide (source controllerOutput = ScriptedSetup)).

Definition makeFrame (xAxis yAxis buttons : Z) : PlayerControlFrame :=
  mkPlayerControlFrame xAxis yAxis buttons.

Definition isJumpButtonAction (action : SmbSearchLegalAction.t) : bool :=
  match action with
  | SmbSearchLegalAction.Neutral | SmbSearchLegalAction.Right | SmbSearchLegalAction.RightRun
  | SmbSearchLegalAction.LeftRun | SmbSearchLegalAction.Duck => false
  | SmbSearchLegalAction.RightJump | SmbSearchLegalAction.RightJumpRun
  | SmbSearchLegalAction.LeftJumpRun | SmbSearchLegalAction.DuckJump
  | SmbSearchLegalAction.DuckRightJumpRun | SmbSearchLegalAction.DuckLeftJumpRun => true
  end.

Definition makeDescendingRunJumpRescueAction (horizontalDirection : SmbSearchHorizontalDirection.t)
    : option SmbSearchLegalAction.t :=
  match horizontalDirection with
  | SmbSearchHorizontalDirection.Left => Some SmbSearchLegalAction.LeftJumpRun
  | SmbSearchHorizontalDirection.Right => Some SmbSearchLegalAction.RightJumpRun
  | SmbSearchHorizontalDirection.None => None
  end.

Definition getSmbSearchLegalActions : list SmbSearchLegalAction.t :=
  [ SmbSearchLegalAction.RightRun; SmbSearchLegalAction.RightJumpRun;
    SmbSearchLegalAction.Right; SmbSearchLegalAction.RightJump;
    SmbSearchLegalAction.Neutral; SmbSearchLegalAction.LeftRun;
    SmbSearchLegalAction.LeftJumpRun; SmbSearchLegalAction.Duck;
    SmbSearchLegalAction.DuckJump; SmbSearchLegalAction.DuckRightJumpRun;
    SmbSearchLegalAction.DuckLeftJumpRun ].

(** The state the lambdas of [buildDfsActionOrder] capture: [order] and [writePos]. *)
Definition OrderState : Type := list SmbSearchLegalAction.t * Z.

Definition isPlaced (st : OrderState) (action : SmbSearchLegalAction.t) : res bool :=
  let '(order, writePos) := st in
  for_range 0 writePos (fun i found =>
    if (found : bool) then Ok true
    else let! a := vec_get order i in Ok (bool_decide (a = action))) false.

Definition placeAny (st : OrderState) (action : SmbSearchLegalAction.t) : res OrderState :=
  let! placed := isPlaced st action in
  if (placed : bool) then Ok st
  else
    let '(order, writePos) := st in
    let! order := vec_set order writePos action in
    Ok (order, writePos + 1).

Definition place (descendingAirborne : bool) (st : OrderState) (action : SmbSearchLegalAction.t)
    : res OrderState :=
  if descendingAirborne && isJumpButtonAction action then Ok st
  else placeAny st action.

(** [for (const auto& action : actions) f(action);] *)
Fixpoint for_each (f : OrderState -> SmbSearchLegalAction.t -> res OrderState)
    (actions : list SmbSearchLegalAction.t) (st : OrderState) : res OrderState :=
  match actions with
  | [] => Ok st
  | a :: actions' => let! st := f st a in for_each f actions' st
  end.

(** [buildDfsActionOrder] below its two tests of the vertical speed. *)
Definition orderActions (descendingAirborne groundedMovingVertically : bool)
    (horizontalDirection : SmbSearchHorizontalDirection.t)
    (actionFromParent : option SmbSearchLegalAction.t) : res SmbSearchActionOrdering.t :=
  let defaultOrder := getSmbSearchLegalActions in
  let st := (replicate 11 SmbSearchLegalAction.Neutral, 0) in
  let! st :=
    if groundedMovingVertically then
      for_each (fun st action =>
        if isJumpButtonAction action then place descendingAirborne st action else Ok st)
        defaultOrder st
    else Ok st in
  let priorityCount := if groundedMovingVertically then u8 (snd st) else 0 in
  let priorityApplied := if groundedMovingVertically then 0 <? snd st else false in
  let! st :=
    match actionFromParent with
    | Some action => place descendingAirborne st action
    | None => Ok st
    end in
  let! st := for_each (place descendingAirborne) defaultOrder st in
  let! st :=
    if descendingAirborne then
      match makeDescendingRunJumpRescueAction horizontalDirection with
      | Some rescueAction => placeAny st rescueAction
      | None => Ok st
      end
    else Ok st in
  let count := u8 (snd st) in
  dirtsim_assert (0 <? count) "DFS action ordering unexpectedly produced no actions"%string ;;!
  Ok (SmbSearchActionOrdering.mk (fst st) count priorityCount priorityApplied).

Definition buildDfsActionOrder (airborne : bool) (verticalSpeedNormalized : f64)
    (horizontalDirection : SmbSearchHorizontalDirection.t)
    (actionFromParent : option SmbSearchLegalAction.t)
    (groundedVerticalJumpPrioritizationEnabled : bool) : res SmbSearchActionOrdering.t :=
  let descendingAirborne := airborne && fgt verticalSpeedNormalized fzero in
  let groundedMovingVertically :=
    groundedVerticalJumpPrioritizationEnabled && negb airborne
    && fgt (SFabs verticalSpeedNormalized) fzero in
  orderActions descendingAirborne groundedMovingVertically horizontalDirection actionFromParent.

Definition smbSearchLegalActionToPlayerControlFrame (action : SmbSearchLegalAction.t)
    : PlayerControlFrame :=
  match action with
  | SmbSearchLegalAction.Neutral => makeFrame 0 0 0
  | SmbSearchLegalAction.Right => makeFrame 127 0 0
  | SmbSearchLegalAction.RightRun => makeFrame 127 0 PlayerControlButtons.ButtonB
  | SmbSearchLegalAction.RightJump => makeFrame 127 0 PlayerControlButtons.ButtonA
  | SmbSearchLegalAction.RightJumpRun =>
      makeFrame 127 0 (Z.lor PlayerControlButtons.ButtonA PlayerControlButtons.ButtonB)
  | SmbSearchLegalAction.LeftRun => makeFrame (-127) 0 PlayerControlButtons.ButtonB
  | SmbSearchLegalAction.LeftJumpRun =>
      makeFrame (-127) 0 (Z.lor PlayerControlButtons.ButtonA PlayerControlButtons.ButtonB)
  | SmbSearchLegalAction.Duck => makeFrame 0 127 0
  | SmbSearchLegalAction.DuckJump => makeFrame 0 127 PlayerControlButtons.ButtonA
  | SmbSearchLegalAction.DuckRightJumpRun =>
      makeFrame 127 127 (Z.lor PlayerControlButtons.ButtonA PlayerControlButtons.ButtonB)
  | SmbSearchLegalAction.DuckLeftJumpRun =>
      makeFrame (-127) 127 (Z.lor PlayerControlButtons.ButtonA PlayerControlButtons.ButtonB)
  end.

(** The [while (cursor.has_value())] loop of [reconstructPlanFrames]. *)
Fixpoint reconstruct_loop (fuel : nat) (nodes : list SmbSearchNode.t) (cursor : Z)
    (reversedFrames : list PlayerControlFrame)
    : res (Result (list PlayerControlFrame) string) :=
  match fuel with
  | O => Fault OutOfFuel
  | S fuel' =>
      let! node := vec_get nodes cursor in
      let reversedFrames :=
        match SmbSearchNode.actionFromParent node with
        | Some a => reversedFrames ++ [smbSearchLegalActionToPlayerControlFrame a]
        | None => reversedFrames
        end in
      match SmbSearchNode.parentIndex node with
      | None => Ok (okay (reverse reversedFrames))
      | Some p =>
          if Z.of_nat (length nodes) <=? p
          then Ok (error "Search node parent index out of range"%string)
          else reconstruct_loop fuel' nodes p reversedFrames
      end
  end.

(** Parents precede their children, so one step per node is enough fuel. *)
Definition reconstructPlanFrames (nodes : list SmbSearchNode.t) (nodeIndex : Z)
    : res (Result (list PlayerControlFrame) string) :=
  if Z.of_nat (length nodes) <=? nodeIndex then Ok (error "Search node index out of range"%string)
  else reconstruct_loop (length nodes) nodes nodeIndex [].

Definition decodeSmbAbsoluteX (frontier : Z) : Z := u16 (Z.land frontier 0xFFFF).
Definition decodeSmbStageIndex (frontier : Z) : Z := u32 (Z.shiftr frontier 16).
Definition encodeSmbFrontier (stageIndex absoluteX : Z) : Z :=
  Z.lor (u64 (Z.shiftl stageIndex 16)) absoluteX.

Definition encodeSmbFrontierSnapshot (snapshot : NesSuperMarioBrosFitnessSnapshot.t) : Z :=
  encodeSmbFrontier (NesSuperMarioBrosFitnessSnapshot.bestStageIndex snapshot)
    (NesSuperMarioBrosFitnessSnapshot.bestAbsoluteX snapshot).

Definition buildSmbSearchEvaluatorSummary (fitnessDetails : NesFitnessDetails) (gameState : option Z)
    : SmbSearchEvaluatorSummary.t :=
  match fitnessDetails with
  | FitnessMonostate =>
      SmbSearchEvaluatorSummary.mk 0 0 0 fzero SmbEpisodeEndReason.None fzero fzero gameState false
  | FitnessSmb snapshot =>
      {| SmbSearchEvaluatorSummary.bestFrontier := encodeSmbFrontierSnapshot snapshot;
         SmbSearchEvaluatorSummary.gameplayFrames :=
           NesSuperMarioBrosFitnessSnapshot.gameplayFrames snapshot;
         SmbSearchEvaluatorSummary.gameplayFramesSinceProgress :=
           NesSuperMarioBrosFitnessSnapshot.framesSinceProgress snapshot;
         SmbSearchEvaluatorSummary.distanceRewardTotal :=
           NesSuperMarioBrosFitnessSnapshot.distanceRewardTotal snapshot;
         SmbSearchEvaluatorSummary.endReason := NesSuperMarioBrosFitnessSnapshot.endReason snapshot;
         SmbSearchEvaluatorSummary.evaluationScore :=
           NesSuperMarioBrosFitnessSnapshot.totalReward snapshot;
         SmbSearchEvaluatorSummary.levelClearRewardTotal :=
           NesSuperMarioBrosFitnessSnapshot.levelClearRewardTotal snapshot;
         SmbSearchEvaluatorSummary.gameState := gameState;
         SmbSearchEvaluatorSummary.terminal := NesSuperMarioBrosFitnessSnapshot.done snapshot |}
  end.

Definition toString (action : SmbSearchLegalAction.t) : string :=
  match action with
  | SmbSearchLegalAction.Neutral => "Neutral"%string
  | SmbSearchLegalAction.Right => "Right"%string
  | SmbSearchLegalAction.RightRun => "RightRun"%string
  | SmbSearchLegalAction.RightJump => "RightJump"%string
  | SmbSearchLegalAction.RightJumpRun => "RightJumpRun"%string
  | SmbSearchLegalAction.LeftRun => "LeftRun"%string
  | SmbSearchLegalAction.LeftJumpRun => "LeftJumpRun"%string
  | SmbSearchLegalAction.Duck => "Duck"%string
  | SmbSearchLegalAction.DuckJump => "DuckJump"%string
  | SmbSearchLegalAction.DuckRightJumpRun => "DuckRightJumpRun"%string
  | SmbSearchLegalAction.DuckLeftJumpRun => "DuckLeftJumpRun"%string
  end.

Definition playerControlFrameToNesMask (frame : PlayerControlFrame) : Z :=
  let mask := 0 in
  let mask := if nonzero (Z.land (buttons frame) PlayerControlButtons.ButtonA)
              then Z.lor mask NesPolicyLayout.ButtonA else mask in
  let mask := if nonzero (Z.land (buttons frame) PlayerControlButtons.ButtonB)
              then Z.lor mask NesPolicyLayout.ButtonB else mask in
  let mask := if nonzero (Z.land (buttons frame) PlayerControlButtons.ButtonSelect)
              then Z.lor mask NesPolicyLayout.ButtonSelect else mask in
  let mask := if nonzero (Z.land (buttons frame) PlayerControlButtons.ButtonStart)
              then Z.lor mask NesPolicyLayout.ButtonStart else mask in
  let mask := if xAxis frame <=? -64 then Z.lor mask NesPolicyLayout.ButtonLeft
              else if 64 <=? xAxis frame then Z.lor mask NesPolicyLayout.ButtonRight else mask in
  if yAxis frame <=? -64 then Z.lor mask NesPolicyLayout.ButtonUp
  else if 64 <=? yAxis frame then Z.lor mask NesPolicyLayout.ButtonDown else mask.

End SmbSearchCore.

(** ** Plans: the path from the root to a node *)
Section PlanFacts.
Import SmbSearchCore.
Implicit Types (nodes : list SmbSearchNode.t).

(** The actions on the way from the root to node [i]. *)
Inductive plan_path nodes : Z -> list SmbSearchLegalAction.t -> Prop :=
| path_root i n :
    0 <= i -> nodes !! Z.to_nat i = Some n -> SmbSearchNode.parentIndex n = None ->
    plan_path nodes i (option_list (SmbSearchNode.actionFromParent n))
| path_child i n p acts :
    0 <= i -> nodes !! Z.to_nat i = Some n -> SmbSearchNode.parentIndex n = Some p ->
    plan_path nodes p acts ->
    plan_path nodes i (acts ++ option_list (SmbSearchNode.actionFromParent n)).

(** Every parent is an earlier node. *)
Definition parents_wf nodes : Prop :=
  forall i n p, nodes !! i = Some n -> SmbSearchNode.parentIndex n = Some p -> 0 <= p < Z.of_nat i.

Lemma plan_path_det nodes i a1 a2 : plan_path nodes i a1 -> plan_path nodes i a2 -> a1 = a2.
Proof.
  intros H. revert a2. induction H as [i n Hi Hn Hp | i n p acts Hi Hn Hp _ IH]; intros a2 H2;
    inversion H2; simplify_eq; f_equal; auto.
Qed.

Lemma plan_path_exists nodes i :
  parents_wf nodes -> 0 <= i < Z.of_nat (length nodes) -> exists acts, plan_path nodes i acts.
Proof.
  intros Hwf. revert i. apply (well_founded_induction (Z.lt_wf 0) (fun i => _ -> exists acts, _)).
  intros i IH Hi. destruct (in_range_lookup nodes i Hi) as [n Hn].
  destruct (SmbSearchNode.parentIndex n) as [p |] eqn:Hp.
  - pose proof (Hwf _ _ _ Hn Hp). destruct (IH p) as [acts Ha]; [lia | lia |].
    eexists. by eapply path_child; [lia | ..].
  - eexists. by apply path_root; [lia | ..].
Qed.

(** Later nodes do not change the path to an earlier one. *)
Lemma plan_path_app nodes ns i acts : plan_path nodes i acts -> plan_path (nodes ++ ns) i acts.
Proof.
  induction 1 as [i n Hi Hn Hp | i n p acts Hi Hn Hp _ IH].
  - apply path_root; [done | by apply lookup_app_l_Some | done].
  - eapply path_child; [done | by apply lookup_app_l_Some | done | done].
Qed.

(** Only the links of the nodes matter. *)
Definition same_links (n n' : SmbSearchNode.t) : Prop :=
  SmbSearchNode.parentIndex n = SmbSearchNode.parentIndex n' /\
  SmbSearchNode.actionFromParent n = SmbSearchNode.actionFromParent n'.

Lemma plan_path_links nodes nodes' i acts :
  Forall2 same_links nodes nodes' -> plan_path nodes i acts -> plan_path nodes' i acts.
Proof.
  intros Hf. induction 1 as [i n Hi Hn Hp | i n p acts Hi Hn Hp _ IH];
    destruct (Forall2_lookup_l _ _ _ _ _ Hf Hn) as (n' & Hn' & El & Ea); rewrite Ea.
  - apply path_root; [done | done |]. by rewrite <- El.
  - eapply path_child; [done | done | by rewrite <- El | done].
Qed.

Lemma reconstruct_loop_ok nodes i acts fuel rev_ :
  parents_wf nodes -> plan_path nodes i acts -> (Z.to_nat i < fuel)%nat ->
  reconstruct_loop fuel nodes i rev_ =
  Ok (okay (map smbSearchLegalActionToPlayerControlFrame acts ++ reverse rev_)).
Proof.
  intros Hwf Hp. revert fuel rev_.
  induction Hp as [i n Hi Hn Hp | i n p acts Hi Hn Hp Hpath IH]; intros fuel rev_ Hf;
    (destruct fuel as [| fuel]; [lia |]); cbn [reconstruct_loop];
    rewrite (vec_get_ok _ _ _ Hi Hn); cbn [rbind]; rewrite Hp.
  - destruct (SmbSearchNode.actionFromParent n); simpl; [by rewrite reverse_snoc | done].
  - pose proof (Hwf _ _ _ Hn Hp) as Hlt. pose proof (lookup_lt_Some _ _ _ Hn).
    rewrite (proj2 (Z.leb_gt _ _)) by lia. rewrite IH by lia. do 2 f_equal.
    rewrite map_app, <- app_assoc. f_equal.
    destruct (SmbSearchNode.actionFromParent n); simpl; [by rewrite reverse_snoc | done].
Qed.

Lemma reconstructPlanFrames_ok nodes i acts :
  parents_wf nodes -> plan_path nodes i acts -> i < Z.of_nat (length nodes) ->
  reconstructPlanFrames nodes i = Ok (okay (map smbSearchLegalActionToPlayerControlFrame acts)).
Proof.
  intros Hwf Hp Hi. unfold reconstructPlanFrames. rewrite (proj2 (Z.leb_gt _ _)) by lia.
  assert (0 <= i) by (by destruct Hp).
  rewrite (reconstruct_loop_ok nodes i acts) by (done || lia). by rewrite app_nil_r.
Qed.
End PlanFacts.

(** ** Frontiers *)
Section FrontierFacts.
Import SmbSearchCore.

Lemma encode_value stage x :
  0 <= stage < 2 ^ 32 -> 0 <= x < 2 ^ 16 -> encodeSmbFrontier stage x = stage * 2 ^ 16 + x.
Proof.
  intros Hs Hx. unfold encodeSmbFrontier. rewrite Z.shiftl_mul_pow2 by lia.
  rewrite wrap_u_small by lia.
  assert (Z.land (stage * 2 ^ 16) x = 0) as Hd.
  { apply Z.bits_inj'. intros i Hi. rewrite Z.land_spec, Z.bits_0.
    destruct (decide (i < 16)); [by rewrite Z.mul_pow2_bits_low by lia |].
    rewrite (testbit_outside 16 x i Hx) by lia. apply andb_false_r. }
  pose proof (Z.add_lor_land (stage * 2 ^ 16) x). lia.
Qed.

Lemma decode_stage stage x :
  0 <= stage < 2 ^ 32 -> 0 <= x < 2 ^ 16 -> decodeSmbStageIndex (stage * 2 ^ 16 + x) = stage.
Proof.
  intros Hs Hx. unfold decodeSmbStageIndex. rewrite Z.shiftr_div_pow2 by lia.
  rewrite Z.div_add_l, (Z.div_small x) by lia. rewrite Z.add_0_r. apply wrap_u_small. lia.
Qed.

Lemma decode_x stage x :
  0 <= stage < 2 ^ 32 -> 0 <= x < 2 ^ 16 -> decodeSmbAbsoluteX (stage * 2 ^ 16 + x) = x.
Proof.
  intros Hs Hx. unfold decodeSmbAbsoluteX. change 0xFFFF with (Z.ones 16).
  rewrite Z.land_ones by lia. rewrite Z.add_comm, Z.mod_add, Z.mod_small by lia.
  apply wrap_u_small. lia.
Qed.
End FrontierFacts.

(** ** Action orderings *)
Section OrderFacts.
Import SmbSearchCore.

(** The actions an ordering offers. *)
Definition offered (o : SmbSearchActionOrdering.t) : list SmbSearchLegalAction.t :=
  take (Z.to_nat (SmbSearchActionOrdering.count o)) (SmbSearchActionOrdering.actions o).

Definition jump_actions : list SmbSearchLegalAction.t :=
  filter (fun a => isJumpButtonAction a = true) getSmbSearchLegalActions.

(** An action may be offered: while falling only if it does not press jump, or
    is the rescue action of the direction of travel. *)
Definition allowed (descending : bool) (dir : SmbSearchHorizontalDirection.t)
    (a : SmbSearchLegalAction.t) : bool :=
  negb descending || negb (isJumpButtonAction a)
  || bool_decide (makeDescendingRunJumpRescueAction dir = Some a).

Definition order_checks (descending grounded : bool) (dir : SmbSearchHorizontalDirection.t)
    (parent : option SmbSearchLegalAction.t) (r : res SmbSearchActionOrdering.t) : bool :=
  match r with
  | Ok o =>
      bool_decide (length (SmbSearchActionOrdering.actions o) = 11%nat)
      && bool_decide (1 <= SmbSearchActionOrdering.count o <= 11)
      && bool_decide (NoDup (offered o))
      && forallb (fun a => eqb (bool_decide (a ∈ offered o)) (allowed descending dir a))
           getSmbSearchLegalActions
      && (if grounded then
            bool_decide (take 6 (offered o) = jump_actions)
            && (SmbSearchActionOrdering.groundedVerticalJumpPriorityActionCount o =? 6)
            && SmbSearchActionOrdering.groundedVerticalJumpPriorityApplied o
          else (SmbSearchActionOrdering.groundedVerticalJumpPriorityActionCount o =? 0)
            && negb (SmbSearchActionOrdering.groundedVerticalJumpPriorityApplied o))
      && match parent with
         | Some p =>
             if grounded || (descending && isJumpButtonAction p) then true
             else bool_decide (head (offered o) = Some p)
         | None => true
         end
  | Fault _ => false
  end.

Lemma all_actions a : a ∈ getSmbSearchLegalActions.
Proof. destruct a; compute; set_solver. Qed.

Lemma orderActions_ok descending grounded dir parent :
  negb (descending && grounded) = true ->
  order_checks descending grounded dir parent (orderActions descending grounded dir parent) = true.
Proof.
  destruct descending, grounded; try done; intros _;
    destruct dir, parent as [[] |]; vm_compute; reflexivity.
Qed.
End OrderFacts.

(** ** Properties *)

(** Plan reconstruction: when every parent index is smaller than its node's,
    [reconstructPlanFrames] terminates without indexing out of range, and gives
    the controller frames of exactly the actions on the path from the root to
    the node, in order; an index past the end is reported as an error. *)
Lemma reconstruct_plan (nodes : list SmbSearchNode.t) (i : Z) :
  parents_wf nodes -> 0 <= i ->
  (i < Z.of_nat (length nodes) -> exists acts, plan_path nodes i acts /\
     SmbSearchCore.reconstructPlanFrames nodes i
     = Ok (okay (map SmbSearchCore.smbSearchLegalActionToPlayerControlFrame acts))) /\
  (Z.of_nat (length nodes) <= i ->
     SmbSearchCore.reconstructPlanFrames nodes i = Ok (error "Search node index out of range"%string)).
Proof.
  intros Hwf Hi. split.
  - intros Hlt. destruct (plan_path_exists nodes i Hwf) as [acts Ha]; [done |].
    exists acts. split; [done |]. by apply reconstructPlanFrames_ok.
  - intros Hge. unfold SmbSearchCore.reconstructPlanFrames. by rewrite (proj2 (Z.leb_le _ _) Hge).
Qed.

Definition demo_node (parent : option Z) (action : option SmbSearchLegalAction.t) : SmbSearchNode.t :=
  SmbSearchNode.mk (mkSavestate 0 []) MemorySnapshot_default None
    (SmbSearchCore.buildSmbSearchEvaluatorSummary FitnessMonostate None) parent action 0 0 0 0.
Definition demo_nodes : list SmbSearchNode.t :=
  [ demo_node None None; demo_node (Some 0) (Some SmbSearchLegalAction.RightRun);
    demo_node (Some 0) (Some SmbSearchLegalAction.Duck);
    demo_node (Some 1) (Some SmbSearchLegalAction.RightJumpRun) ].

Example reconstruct_plan_witness :
  exists acts, plan_path demo_nodes 3 acts /\
    SmbSearchCore.reconstructPlanFrames demo_nodes 3
    = Ok (okay (map SmbSearchCore.smbSearchLegalActionToPlayerControlFrame acts)).
Proof.
  apply (reconstruct_plan demo_nodes 3).
  - intros [| [| [| [| i]]]] n p Hn Hp; cbn in Hn; simplify_eq; cbn in Hp; simplify_eq; lia.
  - lia.
  - reflexivity.
Defined.

(** Ordering the actions of a node never overruns the array and never fails
    its assertion: it offers between 1 and 11 actions without repetition,
    offers every legal action unless the player is falling, when it offers
    exactly the actions without the jump button and the run-jump in the
    direction of travel; the six jump actions come first, and are counted, when
    the player is grounded and moving vertically with the option on; otherwise
    the parent's action comes first whenever it may be offered. *)
Lemma action_order (airborne enabled : bool) (v : f64) (dir : SmbSearchHorizontalDirection.t)
    (parent : option SmbSearchLegalAction.t) :
  let descending := airborne && fgt v fzero in
  let grounded := enabled && negb airborne && fgt (SFabs v) fzero in
  exists o, SmbSearchCore.buildDfsActionOrder airborne v dir parent enabled = Ok o /\
    length (SmbSearchActionOrdering.actions o) = 11%nat /\
    1 <= SmbSearchActionOrdering.count o <= 11 /\
    NoDup (offered o) /\
    (forall a, a ∈ offered o <-> allowed descending dir a = true) /\
    (grounded = true -> take 6 (offered o) = jump_actions /\
       SmbSearchActionOrdering.groundedVerticalJumpPriorityActionCount o = 6 /\
       SmbSearchActionOrdering.groundedVerticalJumpPriorityApplied o = true) /\
    (grounded = false -> SmbSearchActionOrdering.groundedVerticalJumpPriorityActionCount o = 0 /\
       SmbSearchActionOrdering.groundedVerticalJumpPriorityApplied o = false /\
       forall p, parent = Some p -> descending && SmbSearchCore.isJumpButtonAction p = false ->
         head (offered o) = Some p).
Proof.
  intros descending grounded.
  assert (negb (descending && grounded) = true) as Hex.
  { unfold descending, grounded. by destruct airborne, enabled, (fgt v fzero). }
  unfold SmbSearchCore.buildDfsActionOrder. fold descending grounded.
  pose proof (orderActions_ok descending grounded dir parent Hex) as H.
  clearbody descending grounded. destruct (SmbSearchCore.orderActions _ _ _ _) as [o | f]; [| done].
  exists o. split; [done |]. cbn [order_checks] in H.
  apply andb_true_iff in H as [H Hpar]. apply andb_true_iff in H as [H Hgr].
  apply andb_true_iff in H as [H Hall]. apply andb_true_iff in H as [H Hnd].
  apply andb_true_iff in H as [Hlen Hcnt].
  split; [by apply bool_decide_eq_true_1 in Hlen |].
  split; [by apply bool_decide_eq_true_1 in Hcnt |].
  split; [by apply bool_decide_eq_true_1 in Hnd |]. split.
  { intros a. rewrite forallb_forall in Hall.
    specialize (Hall a (proj1 (list_elem_of_In _ _) (all_actions a))).
    apply eqb_prop in Hall. rewrite <- Hall. by rewrite bool_decide_eq_true. }
  destruct grounded; (split; intros E; [| ]); try discriminate E.
  - apply andb_true_iff in Hgr as [Hgr Hap]. apply andb_true_iff in Hgr as [Hgr Hc].
    apply bool_decide_eq_true_1 in Hgr. by apply Z.eqb_eq in Hc.
  - apply andb_true_iff in Hgr as [Hc Hap]. apply Z.eqb_eq in Hc. apply negb_true_iff in Hap.
    split; [done |]. split; [done |]. intros p -> Hp. cbn [orb] in Hpar. rewrite Hp in Hpar.
    by apply bool_decide_eq_true_1 in Hpar.
Qed.

(** Frontiers: a (stage, x) position survives being encoded and decoded, the
    encoding is the position's numeric rank, so comparing frontiers compares
    stages first and distances second. *)
Lemma frontier_roundtrip (stage x : Z) :
  0 <= stage < 2 ^ 32 -> 0 <= x < 2 ^ 16 ->
  SmbSearchCore.decodeSmbStageIndex (SmbSearchCore.encodeSmbFrontier stage x) = stage /\
  SmbSearchCore.decodeSmbAbsoluteX (SmbSearchCore.encodeSmbFrontier stage x) = x /\
  forall stage' x', 0 <= stage' < 2 ^ 32 -> 0 <= x' < 2 ^ 16 ->
    (SmbSearchCore.encodeSmbFrontier stage x < SmbSearchCore.encodeSmbFrontier stage' x'
     <-> stage < stage' \/ (stage = stage' /\ x < x')).
Proof.
  intros Hs Hx. rewrite encode_value by done. rewrite decode_stage, decode_x by done.
  split; [done |]. split; [done |]. intros stage' x' Hs' Hx'. rewrite encode_value by done. lia.
Qed.

Example frontier_roundtrip_witness :
  SmbSearchCore.decodeSmbStageIndex (SmbSearchCore.encodeSmbFrontier 5 300) = 5 /\
  SmbSearchCore.encodeSmbFrontier 5 300 < SmbSearchCore.encodeSmbFrontier 6 2.
Proof.
  destruct (frontier_roundtrip 5 300 ltac:(lia) ltac:(lia)) as (H1 & _ & H2).
  split; [exact H1 |]. apply (H2 6 2); lia.
Defined.

(** From legal actions to controller bits: every frame maps to a byte that
    never presses left with right or up with down, and the eleven legal actions
    press pairwise different masks, jump (A) exactly for the jump actions. *)
Lemma action_masks :
  (forall f, 0 <= SmbSearchCore.playerControlFrameToNesMask f < 256 /\
     ~ (Z.testbit (SmbSearchCore.playerControlFrameToNesMask f) 6 = true /\
        Z.testbit (SmbSearchCore.playerControlFrameToNesMask f) 7 = true) /\
     ~ (Z.testbit (SmbSearchCore.playerControlFrameToNesMask f) 4 = true /\
        Z.testbit (SmbSearchCore.playerControlFrameToNesMask f) 5 = true)) /\
  let mask a := SmbSearchCore.playerControlFrameToNesMask
                  (SmbSearchCore.smbSearchLegalActionToPlayerControlFrame a) in
  (forall a b, mask a = mask b -> a = b) /\
  (forall a, Z.testbit (mask a) 0 = SmbSearchCore.isJumpButtonAction a).
Proof.
  split.
  - intros [x y b]. unfold SmbSearchCore.playerControlFrameToNesMask. cbn [xAxis yAxis buttons].
    destruct (nonzero (Z.land b PlayerControlButtons.ButtonA)),
      (nonzero (Z.land b PlayerControlButtons.ButtonB)),
      (nonzero (Z.land b PlayerControlButtons.ButtonSelect)),
      (nonzero (Z.land b PlayerControlButtons.ButtonStart)), (x <=? -64), (64 <=? x),
      (y <=? -64), (64 <=? y); vm_compute; intuition congruence.
  - split; [by intros [] [] | by intros []].
Qed.
