(* ===== verification/SmbDfsSearch.v ===== *)
(** The depth-first search over emulator savestates:
    [server/search/SmbDfsSearch.{h,cpp}].

    The search drives the NES runtime through [NesSmolnesScenarioDriver], which
    owns the emulator: here an interface ([NesDriver]) whose operations may do
    anything.  A [std::unordered_map] is a [gmap] (the code only finds, inserts
    and overwrites); [Timers] and the plan's random id are left out. *)

From Stdlib Require Import ZArith Lia Bool String.
From Stdlib Require Import SpecFloat.
From stdpp Require Import base gmap option numbers list.
From S2P Require Import Prelude Ieee NesTypes SmbEvaluator SmbRam SmbAdapter.
From S2P Require Import SmbSearchCore.

Set Default Goal Selector "!".

(** ** The runtime driver, as the search uses it *)
Module StepResult.
Record t := mk {
  advancedFrames : Z;
  runtimeHealthy : bool;
  runtimeRunning : bool;
  memorySnapshot : option MemorySnapshot;
  scenarioVideoFrame : option ScenarioVideoFrame;
  lastError : string
}.
End StepResult.

(** [make] is the constructor with pacing turned off, [setConfig] is given the
    default configuration of the scenario. *)
Class NesDriver (D : Type) := {
  driver_make : D;
  driver_setConfig : D -> D * Result unit string;
  driver_setup : D -> D * Result unit string;
  driver_step : D -> Z -> D * StepResult.t;
  driver_loadRuntimeSavestate : D -> Savestate -> Z -> D * bool;
  driver_copyRuntimeSavestate : D -> option Savestate;
  driver_copyRuntimeFrameSnapshot : D -> option ScenarioVideoFrame;
  driver_getRuntimeLastError : D -> string
}.

(** ** Transposition keys *)
Definition kClosedLossTranspositionRamByteCount : N := 63.

Definition kClosedLossTranspositionRamByteAddrs : list Z :=
  [ 0x0000; 0x0003; 0x000A; 0x000B; 0x000E; 0x001D; 0x0057; 0x009F; 0x00B5; 0x00CE; 0x03AD;
    0x03B8; 0x0400; 0x0416; 0x0433; 0x0490; 0x04AC; 0x04AD; 0x04AE; 0x04AF; 0x06D5; 0x06FC;
    0x0700; 0x0701; 0x0702; 0x0704; 0x0705; 0x0709; 0x070A; 0x070C; 0x070D; 0x0712; 0x0714;
    0x071A; 0x071B; 0x071C; 0x071D; 0x071E; 0x071F; 0x0722; 0x0723; 0x072C; 0x072F; 0x0739;
    0x0747; 0x074A; 0x0752; 0x0753; 0x0755; 0x0775; 0x077F; 0x0781; 0x0782; 0x0783; 0x0784;
    0x0785; 0x0786; 0x0789; 0x078A; 0x0791; 0x0795; 0x079E; 0x079F ].

Module ClosedLossTranspositionShapeKey.
Record t := mk {
  nearestEnemyDx : Z;
  nearestEnemyDy : Z;
  secondNearestEnemyDx : Z;
  secondNearestEnemyDy : Z;
  verticalSpeed : Z;
  facingX : Z;
  horizontalSpeed : Z;
  movementX : Z;
  absoluteX : Z;
  level : Z;
  playerYScreen : Z;
  powerupState : Z;
  world : Z;
  enemyPresent : bool;
  secondEnemyPresent : bool
}.

(** [operator==]. *)
Definition eqb (a b : t) : bool :=
  (nearestEnemyDx a =? nearestEnemyDx b) && (nearestEnemyDy a =? nearestEnemyDy b)
  && (secondNearestEnemyDx a =? secondNearestEnemyDx b)
  && (secondNearestEnemyDy a =? secondNearestEnemyDy b)
  && (verticalSpeed a =? verticalSpeed b) && (facingX a =? facingX b)
  && (horizontalSpeed a =? horizontalSpeed b) && (movementX a =? movementX b)
  && (absoluteX a =? absoluteX b) && (level a =? level b)
  && (playerYScreen a =? playerYScreen b) && (powerupState a =? powerupState b)
  && (world a =? world b) && Bool.eqb (enemyPresent a) (enemyPresent b)
  && Bool.eqb (secondEnemyPresent a) (secondEnemyPresent b).

#[global] Instance eq_dec : EqDecision t.
Proof. solve_decision. Defined.

Definition to_tuple (k : t) : list Z * list bool :=
  ([nearestEnemyDx k; nearestEnemyDy k; secondNearestEnemyDx k; secondNearestEnemyDy k;
    verticalSpeed k; facingX k; horizontalSpeed k; movementX k; absoluteX k; level k;
    playerYScreen k; powerupState k; world k],
   [enemyPresent k; secondEnemyPresent k]).
Definition of_tuple (p : list Z * list bool) : option t :=
  match p with
  | ([a; b; c; d; e; f; g; h; i; j; k; l; m], [n; o]) => Some (mk a b c d e f g h i j k l m n o)
  | _ => None
  end.

#[global] Instance countable : Countable t.
Proof. refine (inj_countable to_tuple of_tuple _). by intros []. Defined.
End ClosedLossTranspositionShapeKey.

Module ClosedLossTranspositionKey.
Record t := mk {
  nearestEnemyDx : Z;
  nearestEnemyDy : Z;
  secondNearestEnemyDx : Z;
  secondNearestEnemyDy : Z;
  verticalSpeed : Z;
  facingX : Z;
  horizontalSpeed : Z;
  movementX : Z;
  absoluteX : Z;
  level : Z;
  playerYScreen : Z;
  powerupState : Z;
  world : Z;
  ramBytes : list Z;
  enemyPresent : bool;
  secondEnemyPresent : bool
}.

(** [operator==]; the byte arrays compare elementwise. *)
Definition eqb (a b : t) : bool :=
  (nearestEnemyDx a =? nearestEnemyDx b) && (nearestEnemyDy a =? nearestEnemyDy b)
  && (secondNearestEnemyDx a =? secondNearestEnemyDx b)
  && (secondNearestEnemyDy a =? secondNearestEnemyDy b)
  && (verticalSpeed a =? verticalSpeed b) && (facingX a =? facingX b)
  && (horizontalSpeed a =? horizontalSpeed b) && (movementX a =? movementX b)
  && (absoluteX a =? absoluteX b) && (level a =? level b)
  && (playerYScreen a =? playerYScreen b) && (powerupState a =? powerupState b)
  && (world a =? world b) && bool_decide (ramBytes a = ramBytes b)
  && Bool.eqb (enemyPresent a) (enemyPresent b)
  && Bool.eqb (secondEnemyPresent a) (secondEnemyPresent b).

#[global] Instance eq_dec : EqDecision t.
Proof. solve_decision. Defined.

Definition to_tuple (k : t) : list Z * list Z * list bool :=
  ([nearestEnemyDx k; nearestEnemyDy k; secondNearestEnemyDx k; secondNearestEnemyDy k;
    verticalSpeed k; facingX k; horizontalSpeed k; movementX k; absoluteX k; level k;
    playerYScreen k; powerupState k; world k],
   ramBytes k, [enemyPresent k; secondEnemyPresent k]).
Definition of_tuple (p : list Z * list Z * list bool) : option t :=
  match p with
  | ([a; b; c; d; e; f; g; h; i; j; k; l; m], r, [n; o]) =>
      Some (mk a b c d e f g h i j k l m r n o)
  | _ => None
  end.

#[global] Instance countable : Countable t.
Proof. refine (inj_countable to_tuple of_tuple _). by intros []. Defined.
End ClosedLossTranspositionKey.

Module ClosedLossTranspositionEntry.
Record t := mk {
  bestFrontier : Z;
  framesSinceProgress : Z;
  gameplayFrame : Z
}.
End ClosedLossTranspositionEntry.

Module ClosedLossTranspositionShapeEntry.
Record t := mk {
  proof : ClosedLossTranspositionEntry.t;
  ramBytes : list Z
}.
End ClosedLossTranspositionShapeEntry.

Module ShapeProbeResult.
Record t := mk {
  pruned : bool;
  ramDiffCount : Z;
  ramDiffs : list bool
}.
Definition default : t := mk false 0 (replicate 63 false).
End ShapeProbeResult.

(** ** Enumerations *)
Module CompletionReason.
Inductive t := Completed | Stopped | Error.
#[global] Instance eq_dec : EqDecision t.
Proof. solve_decision. Defined.
End CompletionReason.

Module SearchProgressEvent.
Inductive t := Unknown | RootInitialized | ExpandedAlive | Backtracked | PrunedDead | PrunedStalled
  | PrunedVelocityStuck | CompletedBudgetExceeded | CompletedExhausted | CompletedMilestoneReached
  | Stopped | Error | PrunedBelowScreen | PrunedTransposition | PrunedNonGameplay.
#[global] Instance eq_dec : EqDecision t.
Proof. solve_decision. Defined.
End SearchProgressEvent.

Module TraceEventType.
Inductive t := Backtracked | CompletedBudgetExceeded | CompletedExhausted | CompletedMilestoneReached
  | Error | ExpandedAlive | PrunedDead | PrunedStalled | PrunedVelocityStuck | RootInitialized
  | Stopped | PrunedBelowScreen | PrunedTransposition | PrunedNonGameplay.
#[global] Instance eq_dec : EqDecision t.
Proof. solve_decision. Defined.
End TraceEventType.

Module BlockReason.
Inductive t := None | FreshProgress | NonGameplay | ChildNotClosedLoss.
#[global] Instance eq_dec : EqDecision t.
Proof. solve_decision. Defined.
End BlockReason.

Module SmbSearchNodeOutcome.
Inductive t := Open | ClosedLoss | NotClosedLoss.
#[global] Instance eq_dec : EqDecision t.
Proof. solve_decision. Defined.
End SmbSearchNodeOutcome.

(** ** Options, results and the parts of the search state *)
Module SmbDfsSearchOptions.
Record t := mk {
  maxSearchedNodeCount : Z;
  stallFrameLimit : Z;
  velocityPruningEnabled : bool;
  belowScreenPruningEnabled : bool;
  fallingTranspositionPruningEnabled : bool;
  fallingTranspositionPlayerYScreenThreshold : Z;
  groundedVerticalJumpPrioritizationEnabled : bool;
  stopAfterBestFrontier : option Z
}.
Definition default : t := mk 5000 120 true true true 0 true None.
End SmbDfsSearchOptions.

Module TickResult.
Record t := mk {
  completed : bool;
  frameAdvanced : bool;
  renderChanged : bool;
  error : option string
}.
End TickResult.

Module TraceEntry.
Record t := mk {
  eventType : TraceEventType.t;
  nodeIndex : Z;
  parentIndex : option Z;
  action : option SmbSearchLegalAction.t;
  gameplayFrame : Z;
  frontier : Z;
  evaluationScore : f64;
  framesSinceProgress : Z;
  groundedVerticalJumpPriorityAction : bool;
  closedLossCandidate : bool;
  closedLossProven : bool;
  closedLossApproximateTranspositionPruned : bool;
  closedLossApproximateTranspositionRamDiffCount : Z;
  closedLossApproximateTranspositionRamDiffs : list bool;
  closedLossBlockReason : BlockReason.t
}.
End TraceEntry.

Module DfsFrame.
Record t := mk {
  nodeIndex : Z;
  nextActionIndex : Z;
  actionOrdering : SmbSearchActionOrdering.t;
  closedLossCandidate : bool;
  closedLossBlockReason : BlockReason.t
}.
End DfsFrame.

Record PlanSummary := mkPlanSummary {
  ps_bestFrontier : Z;
  ps_elapsedFrames : Z
}.
Record Plan := mkPlan {
  plan_summary : PlanSummary;
  plan_frames : list PlayerControlFrame
}.

Module SearchProgress.
Record t := mk {
  paused : bool;
  bestFrontier : Z;
  currentGameplayFrame : Z;
  lastSearchEvent : SearchProgressEvent.t;
  searchedNodeCount : Z;
  groundedVerticalJumpPriorityActionCount : Z
}.
Definition default : t := mk false 0 0 SearchProgressEvent.Unknown 0 0.

Definition set_paused (b : bool) (p : t) : t :=
  mk b (bestFrontier p) (currentGameplayFrame p) (lastSearchEvent p) (searchedNodeCount p)
    (groundedVerticalJumpPriorityActionCount p).
Definition set_bestFrontier (z : Z) (p : t) : t :=
  mk (paused p) z (currentGameplayFrame p) (lastSearchEvent p) (searchedNodeCount p)
    (groundedVerticalJumpPriorityActionCount p).
Definition set_currentGameplayFrame (z : Z) (p : t) : t :=
  mk (paused p) (bestFrontier p) z (lastSearchEvent p) (searchedNodeCount p)
    (groundedVerticalJumpPriorityActionCount p).
Definition set_lastSearchEvent (e : SearchProgressEvent.t) (p : t) : t :=
  mk (paused p) (bestFrontier p) (currentGameplayFrame p) e (searchedNodeCount p)
    (groundedVerticalJumpPriorityActionCount p).
Definition set_counts (n g : Z) (p : t) : t :=
  mk (paused p) (bestFrontier p) (currentGameplayFrame p) (lastSearchEvent p) n g.
End SearchProgress.

(** The fields of [WorldData] the search writes. *)
Record WorldData := mkWorldData {
  wd_width : Z;
  wd_height : Z;
  wd_timestep : Z
}.

(** ** The search *)
Module SmbDfsSearch.
Section Search.
Context {D : Type} `{HD : NesDriver D}.

(** [dfsStack_] has its back at the head of the list; every other vector is in
    order. *)
Record t := mk {
  options_ : SmbDfsSearchOptions.t;
  driver_ : option D;
  worldData_ : WorldData;
  scenarioVideoFrame_ : option ScenarioVideoFrame;
  plan_ : Plan;
  progress_ : SearchProgress.t;
  rootPrefixFrames_ : list PlayerControlFrame;
  nodes_ : list SmbSearchNode.t;
  dfsStack_ : list DfsFrame.t;
  nodeOutcomes_ : list SmbSearchNodeOutcome.t;
  closedLossBlockReasons_ : list BlockReason.t;
  closedLossTranspositionKeys_ : list (option ClosedLossTranspositionKey.t);
  closedLossTranspositionTable_ : gmap ClosedLossTranspositionKey.t ClosedLossTranspositionEntry.t;
  closedLossTranspositionShapeTable_ : gmap ClosedLossTranspositionShapeKey.t ClosedLossTranspositionShapeEntry.t;
  trace_ : list TraceEntry.t;
  bestLeafIndex_ : option Z;
  bestFrontier_ : Z;
  bestScore_ : f64;
  completed_ : bool;
  paused_ : bool;
  completionReason_ : option CompletionReason.t;
  completionErrorMessage_ : option string
}.

Definition set_driver_ (v : option D) (s : t) : t :=
  mk (options_ s) v (worldData_ s) (scenarioVideoFrame_ s) (plan_ s) (progress_ s)
    (rootPrefixFrames_ s) (nodes_ s) (dfsStack_ s) (nodeOutcomes_ s) (closedLossBlockReasons_ s)
    (closedLossTranspositionKeys_ s) (closedLossTranspositionTable_ s)
    (closedLossTranspositionShapeTable_ s) (trace_ s) (bestLeafIndex_ s) (bestFrontier_ s)
    (bestScore_ s) (completed_ s) (paused_ s) (completionReason_ s) (completionErrorMessage_ s).
Definition set_plan_ (v : Plan) (s : t) : t :=
  mk (options_ s) (driver_ s) (worldData_ s) (scenarioVideoFrame_ s) v (progress_ s)
    (rootPrefixFrames_ s) (nodes_ s) (dfsStack_ s) (nodeOutcomes_ s) (closedLossBlockReasons_ s)
    (closedLossTranspositionKeys_ s) (closedLossTranspositionTable_ s)
    (closedLossTranspositionShapeTable_ s) (trace_ s) (bestLeafIndex_ s) (bestFrontier_ s)
    (bestScore_ s) (completed_ s) (paused_ s) (completionReason_ s) (completionErrorMessage_ s).
Definition set_progress_ (v : SearchProgress.t) (s : t) : t :=
  mk (options_ s) (driver_ s) (worldData_ s) (scenarioVideoFrame_ s) (plan_ s) v
    (rootPrefixFrames_ s) (nodes_ s) (dfsStack_ s) (nodeOutcomes_ s) (closedLossBlockReasons_ s)
    (closedLossTranspositionKeys_ s) (closedLossTranspositionTable_ s)
    (closedLossTranspositionShapeTable_ s) (trace_ s) (bestLeafIndex_ s) (bestFrontier_ s)
    (bestScore_ s) (completed_ s) (paused_ s) (completionReason_ s) (completionErrorMessage_ s).
Definition set_nodes_ (v : list SmbSearchNode.t) (s : t) : t :=
  mk (options_ s) (driver_ s) (worldData_ s) (scenarioVideoFrame_ s) (plan_ s) (progress_ s)
    (rootPrefixFrames_ s) v (dfsStack_ s) (nodeOutcomes_ s) (closedLossBlockReasons_ s)
    (closedLossTranspositionKeys_ s) (closedLossTranspositionTable_ s)
    (closedLossTranspositionShapeTable_ s) (trace_ s) (bestLeafIndex_ s) (bestFrontier_ s)
    (bestScore_ s) (completed_ s) (paused_ s) (completionReason_ s) (completionErrorMessage_ s).
Definition set_dfsStack_ (v : list DfsFrame.t) (s : t) : t :=
  mk (options_ s) (driver_ s) (worldData_ s) (scenarioVideoFrame_ s) (plan_ s) (progress_ s)
    (rootPrefixFrames_ s) (nodes_ s) v (nodeOutcomes_ s) (closedLossBlockReasons_ s)
    (closedLossTranspositionKeys_ s) (closedLossTranspositionTable_ s)
    (closedLossTranspositionShapeTable_ s) (trace_ s) (bestLeafIndex_ s) (bestFrontier_ s)
    (bestScore_ s) (completed_ s) (paused_ s) (completionReason_ s) (completionErrorMessage_ s).
Definition set_nodeOutcomes_ (v : list SmbSearchNodeOutcome.t) (s : t) : t :=
  mk (options_ s) (driver_ s) (worldData_ s) (scenarioVideoFrame_ s) (plan_ s) (progress_ s)
    (rootPrefixFrames_ s) (nodes_ s) (dfsStack_ s) v (closedLossBlockReasons_ s)
    (closedLossTranspositionKeys_ s) (closedLossTranspositionTable_ s)
    (closedLossTranspositionShapeTable_ s) (trace_ s) (bestLeafIndex_ s) (bestFrontier_ s)
    (bestScore_ s) (completed_ s) (paused_ s) (completionReason_ s) (completionErrorMessage_ s).
Definition set_closedLossBlockReasons_ (v : list BlockReason.t) (s : t) : t :=
  mk (options_ s) (driver_ s) (worldData_ s) (scenarioVideoFrame_ s) (plan_ s) (progress_ s)
    (rootPrefixFrames_ s) (nodes_ s) (dfsStack_ s) (nodeOutcomes_ s) v
    (closedLossTranspositionKeys_ s) (closedLossTranspositionTable_ s)
    (closedLossTranspositionShapeTable_ s) (trace_ s) (bestLeafIndex_ s) (bestFrontier_ s)
    (bestScore_ s) (completed_ s) (paused_ s) (completionReason_ s) (completionErrorMessage_ s).
Definition set_closedLossTranspositionKeys_ (v : list (option ClosedLossTranspositionKey.t)) (s : t) : t :=
  mk (options_ s) (driver_ s) (worldData_ s) (scenarioVideoFrame_ s) (plan_ s) (progress_ s)
    (rootPrefixFrames_ s) (nodes_ s) (dfsStack_ s) (nodeOutcomes_ s) (closedLossBlockReasons_ s)
    v (closedLossTranspositionTable_ s) (closedLossTranspositionShapeTable_ s) (trace_ s)
    (bestLeafIndex_ s) (bestFrontier_ s) (bestScore_ s) (completed_ s) (paused_ s)
    (completionReason_ s) (completionErrorMessage_ s).
Definition set_trace_ (v : list TraceEntry.t) (s : t) : t :=
  mk (options_ s) (driver_ s) (worldData_ s) (scenarioVideoFrame_ s) (plan_ s) (progress_ s)
    (rootPrefixFrames_ s) (nodes_ s) (dfsStack_ s) (nodeOutcomes_ s) (closedLossBlockReasons_ s)
    (closedLossTranspositionKeys_ s) (closedLossTranspositionTable_ s)
    (closedLossTranspositionShapeTable_ s) v (bestLeafIndex_ s) (bestFrontier_ s) (bestScore_ s)
    (completed_ s) (paused_ s) (completionReason_ s) (completionErrorMessage_ s).
Definition set_tables (tb : gmap ClosedLossTranspositionKey.t ClosedLossTranspositionEntry.t)
    (sh : gmap ClosedLossTranspositionShapeKey.t ClosedLossTranspositionShapeEntry.t) (s : t) : t :=
  mk (options_ s) (driver_ s) (worldData_ s) (scenarioVideoFrame_ s) (plan_ s) (progress_ s)
    (rootPrefixFrames_ s) (nodes_ s) (dfsStack_ s) (nodeOutcomes_ s) (closedLossBlockReasons_ s)
    (closedLossTranspositionKeys_ s) tb sh (trace_ s) (bestLeafIndex_ s) (bestFrontier_ s)
    (bestScore_ s) (completed_ s) (paused_ s) (completionReason_ s) (completionErrorMessage_ s).
Definition set_render (f : option ScenarioVideoFrame) (w : WorldData) (s : t) : t :=
  mk (options_ s) (driver_ s) w f (plan_ s) (progress_ s) (rootPrefixFrames_ s) (nodes_ s)
    (dfsStack_ s) (nodeOutcomes_ s) (closedLossBlockReasons_ s) (closedLossTranspositionKeys_ s)
    (closedLossTranspositionTable_ s) (closedLossTranspositionShapeTable_ s) (trace_ s)
    (bestLeafIndex_ s) (bestFrontier_ s) (bestScore_ s) (completed_ s) (paused_ s)
    (completionReason_ s) (completionErrorMessage_ s).
Definition set_best (leaf : option Z) (frontier : Z) (score : f64) (s : t) : t :=
  mk (options_ s) (driver_ s) (worldData_ s) (scenarioVideoFrame_ s) (plan_ s) (progress_ s)
    (rootPrefixFrames_ s) (nodes_ s) (dfsStack_ s) (nodeOutcomes_ s) (closedLossBlockReasons_ s)
    (closedLossTranspositionKeys_ s) (closedLossTranspositionTable_ s)
    (closedLossTranspositionShapeTable_ s) (trace_ s) leaf frontier score (completed_ s)
    (paused_ s) (completionReason_ s) (completionErrorMessage_ s).
Definition set_completion (c p : bool) (r : option CompletionReason.t) (e : option string) (s : t) : t :=
  mk (options_ s) (driver_ s) (worldData_ s) (scenarioVideoFrame_ s) (plan_ s) (progress_ s)
    (rootPrefixFrames_ s) (nodes_ s) (dfsStack_ s) (nodeOutcomes_ s) (closedLossBlockReasons_ s)
    (closedLossTranspositionKeys_ s) (closedLossTranspositionTable_ s)
    (closedLossTranspositionShapeTable_ s) (trace_ s) (bestLeafIndex_ s) (bestFrontier_ s)
    (bestScore_ s) c p r e.
Definition set_paused_ (p : bool) (s : t) : t :=
  mk (options_ s) (driver_ s) (worldData_ s) (scenarioVideoFrame_ s) (plan_ s) (progress_ s)
    (rootPrefixFrames_ s) (nodes_ s) (dfsStack_ s) (nodeOutcomes_ s) (closedLossBlockReasons_ s)
    (closedLossTranspositionKeys_ s) (closedLossTranspositionTable_ s)
    (closedLossTranspositionShapeTable_ s) (trace_ s) (bestLeafIndex_ s) (bestFrontier_ s)
    (bestScore_ s) (completed_ s) p (completionReason_ s) (completionErrorMessage_ s).
Definition set_rootPrefixFrames_ (v : list PlayerControlFrame) (s : t) : t :=
  mk (options_ s) (driver_ s) (worldData_ s) (scenarioVideoFrame_ s) (plan_ s) (progress_ s) v
    (nodes_ s) (dfsStack_ s) (nodeOutcomes_ s) (closedLossBlockReasons_ s)
    (closedLossTranspositionKeys_ s) (closedLossTranspositionTable_ s)
    (closedLossTranspositionShapeTable_ s) (trace_ s) (bestLeafIndex_ s) (bestFrontier_ s)
    (bestScore_ s) (completed_ s) (paused_ s) (completionReason_ s) (completionErrorMessage_ s).

(** *** Helpers of the unnamed namespace *)
Definition kLevelsPerWorld : Z := 4.
Definition kVelocityPruneConsecutiveFrameThreshold : Z := 2.
Definition kVelocityPruneHorizontalSpeedEpsilon : f64 := f64_lit 1 20.

Definition encodeAxisSign (value : f32) : Z :=
  if fgt value fzero then 1 else if flt value fzero then -1 else 0.

Definition encodeCurrentFrontier (state : NesSuperMarioBrosState.t) : Z :=
  let stageIndex :=
    u32 (u32 (NesSuperMarioBrosState.world state * kLevelsPerWorld) + NesSuperMarioBrosState.level state) in
  SmbSearchCore.encodeSmbFrontier stageIndex (NesSuperMarioBrosState.absoluteX state).

Definition getHorizontalDirection (state : NesSuperMarioBrosState.t) : SmbSearchHorizontalDirection.t :=
  if fgt (NesSuperMarioBrosState.movementX state) fzero then SmbSearchHorizontalDirection.Right
  else if flt (NesSuperMarioBrosState.movementX state) fzero then SmbSearchHorizontalDirection.Left
  else if fgt (NesSuperMarioBrosState.horizontalSpeedNormalized state) fzero
  then SmbSearchHorizontalDirection.Right
  else if flt (NesSuperMarioBrosState.horizontalSpeedNormalized state) fzero
  then SmbSearchHorizontalDirection.Left
  else if fgt (NesSuperMarioBrosState.facingX state) fzero then SmbSearchHorizontalDirection.Right
  else if flt (NesSuperMarioBrosState.facingX state) fzero then SmbSearchHorizontalDirection.Left
  else SmbSearchHorizontalDirection.None.

(** [std::clamp] on [int]. *)
Definition clamp_Z (v lo hi : Z) : Z := if v <? lo then lo else if hi <? v then hi else v.

Definition quantizeHorizontalSpeed (normalizedSpeed : f64) : Z :=
  let roundedSpeed := s32 (std_lround (f64_mul normalizedSpeed (f64_of_Z 40))) in
  s8 (clamp_Z roundedSpeed (-128) 127).

Definition quantizeVerticalSpeed (normalizedSpeed : f64) : Z :=
  let roundedSpeed := s32 (std_lround (f64_mul normalizedSpeed (f64_of_Z 128))) in
  s16 (clamp_Z roundedSpeed (-128) 128).

Definition isClosedLossTranspositionInputMirrorRamAddr (ramAddr : Z) : bool :=
  (ramAddr =? 0x000A) || (ramAddr =? 0x000B) || (ramAddr =? 0x06FC) || (ramAddr =? 0x074A).

(** [cpuRam.at] throws outside the RAM. *)
Fixpoint collectRamBytes (m : MemorySnapshot) (addrs : list Z) : res (list Z) :=
  match addrs with
  | [] => Ok []
  | ramAddr :: addrs' =>
      let! b := if isClosedLossTranspositionInputMirrorRamAddr ramAddr then Ok 0
                else vec_at (elems (cpuRam m)) ramAddr in
      let! bs := collectRamBytes m addrs' in
      Ok (b :: bs)
  end.

Definition buildClosedLossTranspositionRamBytes (memorySnapshot : MemorySnapshot) : res (list Z) :=
  collectRamBytes memorySnapshot kClosedLossTranspositionRamByteAddrs.

Definition makeRootPrefixFrames (gameplayFrameCount : Z) : list PlayerControlFrame :=
  replicate (Z.to_nat gameplayFrameCount)
    (SmbSearchCore.smbSearchLegalActionToPlayerControlFrame SmbSearchLegalAction.RightRun).

Definition toSearchProgressEvent (eventType : TraceEventType.t) : SearchProgressEvent.t :=
  match eventType with
  | TraceEventType.Backtracked => SearchProgressEvent.Backtracked
  | TraceEventType.CompletedBudgetExceeded => SearchProgressEvent.CompletedBudgetExceeded
  | TraceEventType.CompletedExhausted => SearchProgressEvent.CompletedExhausted
  | TraceEventType.CompletedMilestoneReached => SearchProgressEvent.CompletedMilestoneReached
  | TraceEventType.Error => SearchProgressEvent.Error
  | TraceEventType.ExpandedAlive => SearchProgressEvent.ExpandedAlive
  | TraceEventType.PrunedDead => SearchProgressEvent.PrunedDead
  | TraceEventType.PrunedStalled => SearchProgressEvent.PrunedStalled
  | TraceEventType.PrunedVelocityStuck => SearchProgressEvent.PrunedVelocityStuck
  | TraceEventType.PrunedBelowScreen => SearchProgressEvent.PrunedBelowScreen
  | TraceEventType.PrunedTransposition => SearchProgressEvent.PrunedTransposition
  | TraceEventType.PrunedNonGameplay => SearchProgressEvent.PrunedNonGameplay
  | TraceEventType.RootInitialized => SearchProgressEvent.RootInitialized
  | TraceEventType.Stopped => SearchProgressEvent.Stopped
  end.

(** *** Construction and the small operations *)
Definition make (options : SmbDfsSearchOptions.t) : t :=
  mk options None (mkWorldData 0 0 0) None (mkPlan (mkPlanSummary 0 0) []) SearchProgress.default
    [] [] [] [] [] [] empty empty [] None 0 fzero false false None None.

Definition recordTrace (entry : TraceEntry.t) (s : t) : t := set_trace_ (trace_ s ++ [entry]) s.

Definition nodeCount (s : t) : Z := Z.of_nat (length (nodes_ s)).

Definition isClosedLossCandidate (s : t) (nodeIndex : Z) : bool := nodeIndex <? nodeCount s.

Definition getInitialClosedLossBlockReason (s : t) (nodeIndex : Z) : BlockReason.t :=
  if isClosedLossCandidate s nodeIndex then BlockReason.None else BlockReason.FreshProgress.

Definition set_plan_result (frames : list PlayerControlFrame) (frontier elapsed : Z) (s : t) : t :=
  set_plan_ (mkPlan (mkPlanSummary frontier elapsed) frames) s.

Definition rebuildBestPlan (s : t) : res t :=
  match bestLeafIndex_ s with
  | None => Ok (set_plan_result [] (SearchProgress.bestFrontier (progress_ s)) 0 s)
  | Some leaf =>
      let! planFramesResult := SmbSearchCore.reconstructPlanFrames (nodes_ s) leaf in
      match planFramesResult with
      | error _ => Ok (set_plan_result [] (SearchProgress.bestFrontier (progress_ s)) 0 s)
      | okay frames =>
          let frames := rootPrefixFrames_ s ++ frames in
          Ok (set_plan_result frames (bestFrontier_ s) (Z.of_nat (length frames)) s)
      end
  end.

Definition updateRenderableState (node : SmbSearchNode.t) (s : t) : t :=
  let s := set_progress_
    (SearchProgress.set_currentGameplayFrame (SmbSearchNode.gameplayFrame node) (progress_ s)) s in
  let timestep := s32 (SmbSearchNode.gameplayFrame node) in
  match SmbSearchNode.scenarioVideoFrame node with
  | None => set_render None (mkWorldData (wd_width (worldData_ s)) (wd_height (worldData_ s)) timestep) s
  | Some f => set_render (Some f) (mkWorldData (s16 (vf_width f)) (s16 (vf_height f)) timestep) s
  end.

Definition release (n : SmbSearchNode.t) : SmbSearchNode.t :=
  SmbSearchNode.mk (mkSavestate (ss_frameId (SmbSearchNode.savestate n)) []) MemorySnapshot_default None
    (SmbSearchNode.evaluatorSummary n) (SmbSearchNode.parentIndex n) (SmbSearchNode.actionFromParent n)
    (SmbSearchNode.currentFrontier n) (SmbSearchNode.gameplayFrame n) (SmbSearchNode.playerYScreen n)
    (SmbSearchNode.velocityStuckFrameCount n).

Definition releaseNodeHeavyData (nodeIndex : Z) (s : t) : res t :=
  if nodeCount s <=? nodeIndex then Ok s
  else
    let! node := vec_get (nodes_ s) nodeIndex in
    let! ns := vec_set (nodes_ s) nodeIndex (release node) in
    Ok (set_nodes_ ns s).

Definition updateBestLeaf (nodeIndex : Z) (s : t) : res t :=
  if nodeCount s <=? nodeIndex then Ok s
  else
    let! candidate := vec_get (nodes_ s) nodeIndex in
    let frontier := SmbSearchEvaluatorSummary.bestFrontier (SmbSearchNode.evaluatorSummary candidate) in
    let score := SmbSearchEvaluatorSummary.evaluationScore (SmbSearchNode.evaluatorSummary candidate) in
    if negb (bool_decide (is_Some (bestLeafIndex_ s))) || (bestFrontier_ s <? frontier)
       || ((frontier =? bestFrontier_ s) && fgt score (bestScore_ s))
    then
      let s := set_best (Some nodeIndex) frontier score s in
      let s := set_progress_ (SearchProgress.set_bestFrontier frontier (progress_ s)) s in
      rebuildBestPlan s
    else Ok s.

(** What the completion traces say of the best leaf ([value_or(0)], and defaults
    when there is no such node). *)
Definition bestLeafTrace (eventType : TraceEventType.t) (s : t) : TraceEntry.t :=
  let nodeIndex := value_or (bestLeafIndex_ s) 0 in
  let node := if nodeIndex <? nodeCount s then nodes_ s !! Z.to_nat nodeIndex else None in
  TraceEntry.mk eventType nodeIndex (node ≫= SmbSearchNode.parentIndex)
    (node ≫= SmbSearchNode.actionFromParent)
    (match node with Some n => SmbSearchNode.gameplayFrame n | None => 0 end)
    (bestFrontier_ s) (bestScore_ s)
    (match node with
     | Some n => SmbSearchEvaluatorSummary.gameplayFramesSinceProgress (SmbSearchNode.evaluatorSummary n)
     | None => 0
     end)
    false false false false 0 (replicate 63 false) BlockReason.None.

Definition completeWithError (errorMessage : string) (s : t) : res t :=
  let! s := rebuildBestPlan s in
  let s := set_progress_ (SearchProgress.set_lastSearchEvent SearchProgressEvent.Error
                            (SearchProgress.set_paused false (progress_ s))) s in
  let s := set_completion true false (Some CompletionReason.Error) (Some errorMessage) s in
  Ok (recordTrace (bestLeafTrace TraceEventType.Error s) s).

Definition completeWithTraceEvent (eventType : TraceEventType.t) (s : t) : res t :=
  let! s := rebuildBestPlan s in
  let s := set_progress_ (SearchProgress.set_lastSearchEvent (toSearchProgressEvent eventType)
                            (SearchProgress.set_paused false (progress_ s))) s in
  let s := set_completion true false (Some CompletionReason.Completed) None s in
  Ok (recordTrace (bestLeafTrace eventType s) s).

Definition noteChildOutcome (childOutcome : SmbSearchNodeOutcome.t) (childBlockReason : BlockReason.t)
    (f : DfsFrame.t) : DfsFrame.t :=
  if bool_decide (childOutcome = SmbSearchNodeOutcome.ClosedLoss) then f
  else
    DfsFrame.mk (DfsFrame.nodeIndex f) (DfsFrame.nextActionIndex f) (DfsFrame.actionOrdering f) false
      (if bool_decide (DfsFrame.closedLossBlockReason f <> BlockReason.None)
       then DfsFrame.closedLossBlockReason f
       else if bool_decide (childBlockReason = BlockReason.NonGameplay) then BlockReason.NonGameplay
       else BlockReason.ChildNotClosedLoss).

(** *** Transpositions *)
Definition buildClosedLossTranspositionKey (s : t) (state : NesSuperMarioBrosState.t)
    (memorySnapshot : MemorySnapshot) : res (option ClosedLossTranspositionKey.t) :=
  if negb (SmbDfsSearchOptions.fallingTranspositionPruningEnabled (options_ s)) then Ok None
  else if bool_decide (NesSuperMarioBrosState.gameMode state <> SmbGameMode.Normal)
          || bool_decide (NesSuperMarioBrosState.lifeState state <> SmbLifeState.Alive) then Ok None
  else if NesSuperMarioBrosState.playerYScreen state
          <? SmbDfsSearchOptions.fallingTranspositionPlayerYScreenThreshold (options_ s) then Ok None
  else
    let! ramBytes := buildClosedLossTranspositionRamBytes memorySnapshot in
    Ok (Some
      {| ClosedLossTranspositionKey.nearestEnemyDx := NesSuperMarioBrosState.nearestEnemyDx state;
         ClosedLossTranspositionKey.nearestEnemyDy := NesSuperMarioBrosState.nearestEnemyDy state;
         ClosedLossTranspositionKey.secondNearestEnemyDx :=
           NesSuperMarioBrosState.secondNearestEnemyDx state;
         ClosedLossTranspositionKey.secondNearestEnemyDy :=
           NesSuperMarioBrosState.secondNearestEnemyDy state;
         ClosedLossTranspositionKey.verticalSpeed :=
           quantizeVerticalSpeed (NesSuperMarioBrosState.verticalSpeedNormalized state);
         ClosedLossTranspositionKey.facingX := encodeAxisSign (NesSuperMarioBrosState.facingX state);
         ClosedLossTranspositionKey.horizontalSpeed :=
           quantizeHorizontalSpeed (NesSuperMarioBrosState.horizontalSpeedNormalized state);
         ClosedLossTranspositionKey.movementX := encodeAxisSign (NesSuperMarioBrosState.movementX state);
         ClosedLossTranspositionKey.absoluteX := NesSuperMarioBrosState.absoluteX state;
         ClosedLossTranspositionKey.level := NesSuperMarioBrosState.level state;
         ClosedLossTranspositionKey.playerYScreen := NesSuperMarioBrosState.playerYScreen state;
         ClosedLossTranspositionKey.powerupState :=
           SmbPowerupState.to_Z (NesSuperMarioBrosState.powerupState state);
         ClosedLossTranspositionKey.world := NesSuperMarioBrosState.world state;
         ClosedLossTranspositionKey.ramBytes := ramBytes;
         ClosedLossTranspositionKey.enemyPresent := NesSuperMarioBrosState.enemyPresent state;
         ClosedLossTranspositionKey.secondEnemyPresent :=
           NesSuperMarioBrosState.secondEnemyPresent state |}).

Definition buildClosedLossTranspositionShapeKey (key : ClosedLossTranspositionKey.t)
    : ClosedLossTranspositionShapeKey.t :=
  {| ClosedLossTranspositionShapeKey.nearestEnemyDx := ClosedLossTranspositionKey.nearestEnemyDx key;
     ClosedLossTranspositionShapeKey.nearestEnemyDy := ClosedLossTranspositionKey.nearestEnemyDy key;
     ClosedLossTranspositionShapeKey.secondNearestEnemyDx :=
       ClosedLossTranspositionKey.secondNearestEnemyDx key;
     ClosedLossTranspositionShapeKey.secondNearestEnemyDy :=
       ClosedLossTranspositionKey.secondNearestEnemyDy key;
     ClosedLossTranspositionShapeKey.verticalSpeed := ClosedLossTranspositionKey.verticalSpeed key;
     ClosedLossTranspositionShapeKey.facingX := ClosedLossTranspositionKey.facingX key;
     ClosedLossTranspositionShapeKey.horizontalSpeed := ClosedLossTranspositionKey.horizontalSpeed key;
     ClosedLossTranspositionShapeKey.movementX := ClosedLossTranspositionKey.movementX key;
     ClosedLossTranspositionShapeKey.absoluteX := ClosedLossTranspositionKey.absoluteX key;
     ClosedLossTranspositionShapeKey.level := ClosedLossTranspositionKey.level key;
     ClosedLossTranspositionShapeKey.playerYScreen := ClosedLossTranspositionKey.playerYScreen key;
     ClosedLossTranspositionShapeKey.powerupState := ClosedLossTranspositionKey.powerupState key;
     ClosedLossTranspositionShapeKey.world := ClosedLossTranspositionKey.world key;
     ClosedLossTranspositionShapeKey.enemyPresent := ClosedLossTranspositionKey.enemyPresent key;
     ClosedLossTranspositionShapeKey.secondEnemyPresent :=
       ClosedLossTranspositionKey.secondEnemyPresent key |}.

(** The entry is at least as good, at least as early and at least as fresh. *)
Definition dominates (entry : ClosedLossTranspositionEntry.t)
    (evaluatorSummary : SmbSearchEvaluatorSummary.t) : bool :=
  (SmbSearchEvaluatorSummary.bestFrontier evaluatorSummary
     <=? ClosedLossTranspositionEntry.bestFrontier entry)
  && (ClosedLossTranspositionEntry.gameplayFrame entry
        <=? SmbSearchEvaluatorSummary.gameplayFrames evaluatorSummary)
  && (ClosedLossTranspositionEntry.framesSinceProgress entry
        <=? SmbSearchEvaluatorSummary.gameplayFramesSinceProgress evaluatorSummary).

Definition isClosedLossTranspositionPruned (s : t) (key : ClosedLossTranspositionKey.t)
    (evaluatorSummary : SmbSearchEvaluatorSummary.t) : bool :=
  match closedLossTranspositionTable_ s !! key with
  | None => false
  | Some entry => dominates entry evaluatorSummary
  end.

(** The two byte arrays are compared position by position. *)
Fixpoint ramDiffs (a b : list Z) : list bool :=
  match a, b with
  | x :: a', y :: b' => negb (x =? y) :: ramDiffs a' b'
  | _, _ => []
  end.

Definition probeClosedLossTranspositionShape (s : t) (key : ClosedLossTranspositionShapeKey.t)
    (exactKey : ClosedLossTranspositionKey.t) (evaluatorSummary : SmbSearchEvaluatorSummary.t)
    : ShapeProbeResult.t :=
  match closedLossTranspositionShapeTable_ s !! key with
  | None => ShapeProbeResult.default
  | Some shapeEntry =>
      let proof := ClosedLossTranspositionShapeEntry.proof shapeEntry in
      if (ClosedLossTranspositionEntry.bestFrontier proof
            <? SmbSearchEvaluatorSummary.bestFrontier evaluatorSummary)
         || (SmbSearchEvaluatorSummary.gameplayFrames evaluatorSummary
               <? ClosedLossTranspositionEntry.gameplayFrame proof)
         || (SmbSearchEvaluatorSummary.gameplayFramesSinceProgress evaluatorSummary
               <? ClosedLossTranspositionEntry.framesSinceProgress proof)
      then ShapeProbeResult.default
      else
        let diffs := ramDiffs (ClosedLossTranspositionKey.ramBytes exactKey)
                       (ClosedLossTranspositionShapeEntry.ramBytes shapeEntry) in
        ShapeProbeResult.mk true (u8 (Z.of_nat (length (filter (fun d => d = true) diffs)))) diffs
  end.

(** The published entry replaces an existing one when it is better. *)
Definition better (entry existing : ClosedLossTranspositionEntry.t) : bool :=
  (ClosedLossTranspositionEntry.bestFrontier existing <? ClosedLossTranspositionEntry.bestFrontier entry)
  || ((ClosedLossTranspositionEntry.bestFrontier entry
         =? ClosedLossTranspositionEntry.bestFrontier existing)
      && (ClosedLossTranspositionEntry.gameplayFrame entry
            <? ClosedLossTranspositionEntry.gameplayFrame existing))
  || ((ClosedLossTranspositionEntry.bestFrontier entry
         =? ClosedLossTranspositionEntry.bestFrontier existing)
      && (ClosedLossTranspositionEntry.gameplayFrame entry
            =? ClosedLossTranspositionEntry.gameplayFrame existing)
      && (ClosedLossTranspositionEntry.framesSinceProgress entry
            <? ClosedLossTranspositionEntry.framesSinceProgress existing)).

Definition entryOf (node : SmbSearchNode.t) : ClosedLossTranspositionEntry.t :=
  let summary := SmbSearchNode.evaluatorSummary node in
  ClosedLossTranspositionEntry.mk (SmbSearchEvaluatorSummary.bestFrontier summary)
    (SmbSearchEvaluatorSummary.gameplayFramesSinceProgress summary)
    (SmbSearchEvaluatorSummary.gameplayFrames summary).

(** Both tables after publishing an entry under a key. *)
Definition publishEntry (key : ClosedLossTranspositionKey.t) (entry : ClosedLossTranspositionEntry.t)
    (s : t) : t :=
  let table := closedLossTranspositionTable_ s in
  let table :=
    match table !! key with
    | None => <[key := entry]> table
    | Some existing => if better entry existing then <[key := entry]> table else table
    end in
  let shapeKey := buildClosedLossTranspositionShapeKey key in
  let shapeEntry := ClosedLossTranspositionShapeEntry.mk entry (ClosedLossTranspositionKey.ramBytes key) in
  let shapes := closedLossTranspositionShapeTable_ s in
  let shapes :=
    match shapes !! shapeKey with
    | None => <[shapeKey := shapeEntry]> shapes
    | Some existing =>
        if better entry (ClosedLossTranspositionShapeEntry.proof existing)
        then <[shapeKey := shapeEntry]> shapes else shapes
    end in
  set_tables table shapes s.

Definition publishClosedLossTranspositionEntry (nodeIndex : Z) (s : t) : res t :=
  if (nodeCount s <=? nodeIndex)
     || (Z.of_nat (length (closedLossTranspositionKeys_ s)) <=? nodeIndex)
     || (Z.of_nat (length (nodeOutcomes_ s)) <=? nodeIndex) then Ok s
  else
    let! outcome := vec_get (nodeOutcomes_ s) nodeIndex in
    if bool_decide (outcome <> SmbSearchNodeOutcome.ClosedLoss) then Ok s
    else
      let! key := vec_get (closedLossTranspositionKeys_ s) nodeIndex in
      match key with
      | None => Ok s
      | Some key =>
          let! node := vec_get (nodes_ s) nodeIndex in
          Ok (publishEntry key (entryOf node) s)
      end.

(** *** Starting *)
Definition initializeRuntime (s : t) : t * Result unit string :=
  let '(d, configResult) := driver_setConfig driver_make in
  let s := set_driver_ (Some d) s in
  match configResult with
  | error e => (s, error e)
  | okay _ =>
      let '(d, setupResult) := driver_setup d in
      let s := set_driver_ (Some d) s in
      match setupResult with
      | error e => (s, error e)
      | okay _ =>
          (mk (options_ s) (Some d) (mkWorldData 256 240 0) None (mkPlan (mkPlanSummary 0 0) [])
             SearchProgress.default [] [] [] [] [] [] empty empty [] None 0 fzero false false None None,
           okay tt)
      end
  end.

Definition initializeRootNode (d : D) (savestate : Savestate)
    (evaluatorSummary : SmbSearchEvaluatorSummary.t) (memorySnapshot : option MemorySnapshot)
    (scenarioVideoFrame : option ScenarioVideoFrame) (s : t) : res t :=
  let root := SmbSearchNode.mk savestate (value_or memorySnapshot MemorySnapshot_default)
      (match scenarioVideoFrame with Some f => Some f | None => driver_copyRuntimeFrameSnapshot d end)
      evaluatorSummary None None (SmbSearchEvaluatorSummary.bestFrontier evaluatorSummary)
      (SmbSearchEvaluatorSummary.gameplayFrames evaluatorSummary) 0 0 in
  let s := set_nodes_ (nodes_ s ++ [root]) s in
  let s := set_closedLossTranspositionKeys_ (closedLossTranspositionKeys_ s ++ [None]) s in
  let s := set_nodeOutcomes_ (nodeOutcomes_ s ++ [SmbSearchNodeOutcome.Open]) s in
  let s := set_closedLossBlockReasons_
             (closedLossBlockReasons_ s ++ [getInitialClosedLossBlockReason s 0]) s in
  let! actionOrdering := SmbSearchCore.buildDfsActionOrder false fzero SmbSearchHorizontalDirection.None
      None (SmbDfsSearchOptions.groundedVerticalJumpPrioritizationEnabled (options_ s)) in
  let s := set_dfsStack_ (DfsFrame.mk 0 0 actionOrdering (isClosedLossCandidate s 0)
                            (getInitialClosedLossBlockReason s 0) :: dfsStack_ s) s in
  let s := set_best (Some 0) (SmbSearchEvaluatorSummary.bestFrontier evaluatorSummary)
             (SmbSearchEvaluatorSummary.evaluationScore evaluatorSummary) s in
  let s := set_progress_ (SearchProgress.set_bestFrontier (bestFrontier_ s) (progress_ s)) s in
  let! front := vec_get (nodes_ s) 0 in
  let s := updateRenderableState front s in
  let s := set_progress_ (SearchProgress.set_lastSearchEvent SearchProgressEvent.RootInitialized
                            (progress_ s)) s in
  let! s := rebuildBestPlan s in
  Ok (recordTrace (TraceEntry.mk TraceEventType.RootInitialized 0 None None
        (SmbSearchEvaluatorSummary.gameplayFrames evaluatorSummary)
        (SmbSearchEvaluatorSummary.bestFrontier evaluatorSummary)
        (SmbSearchEvaluatorSummary.evaluationScore evaluatorSummary)
        (SmbSearchEvaluatorSummary.gameplayFramesSinceProgress evaluatorSummary)
        false (isClosedLossCandidate s 0) false false 0 (replicate 63 false)
        (getInitialClosedLossBlockReason s 0)) s).

(** What [SmbSearchRootFixture] carries into the search. *)
Record Fixture := mkFixture {
  fx_evaluatorSummary : SmbSearchEvaluatorSummary.t;
  fx_memorySnapshot : option MemorySnapshot;
  fx_scenarioVideoFrame : option ScenarioVideoFrame;
  fx_savestate : Savestate
}.

Definition startFromFixture (fixture : Fixture) (s : t) : res (t * Result unit string) :=
  let '(s, initResult) := initializeRuntime s in
  match initResult, driver_ s with
  | error e, _ => Ok (s, error e)
  | okay _, None => Fault NoMatch
  | okay _, Some d =>
      let '(d, loaded) := driver_loadRuntimeSavestate d (fx_savestate fixture) 2000 in
      let s := set_driver_ (Some d) s in
      if negb loaded then
        let runtimeLastError := driver_getRuntimeLastError d in
        Ok (s, error (if bool_decide (runtimeLastError = ""%string)
                      then "Failed to load SMB DFS fixture savestate"%string else runtimeLastError))
      else
        let s := set_rootPrefixFrames_ (makeRootPrefixFrames
                   (SmbSearchEvaluatorSummary.gameplayFrames (fx_evaluatorSummary fixture))) s in
        let! s := initializeRootNode d (fx_savestate fixture) (fx_evaluatorSummary fixture)
          (fx_memorySnapshot fixture)
          (match fx_scenarioVideoFrame fixture with
           | Some f => Some f
           | None => driver_copyRuntimeFrameSnapshot d
           end) s in
        Ok (s, okay tt)
  end.

(** The frames [startDfs] plays with a fixed action until gameplay is reached;
    [fuel] is what is left of its 2000 steps. *)
Fixpoint captureRoot (fuel : nat) (d : D) (gameAdapter : NesSuperMarioBrosGameAdapter.t)
    (lastGameState : option Z) (capturedPrefixFrames : list PlayerControlFrame) (s : t)
    : res (t * Result unit string) :=
  match fuel with
  | O => Ok (s, error "Timed out while preparing SMB DFS root"%string)
  | S fuel' =>
      let setupFrame :=
        SmbSearchCore.smbSearchLegalActionToPlayerControlFrame SmbSearchLegalAction.RightRun in
      let controllerOutput := NesSuperMarioBrosGameAdapter.resolveControllerMask gameAdapter
        (mkControllerInput (SmbSearchCore.playerControlFrameToNesMask setupFrame) lastGameState) in
      let '(d, stepResult) := driver_step d (resolvedControllerMask controllerOutput) in
      let s := set_driver_ (Some d) s in
      if negb (StepResult.runtimeHealthy stepResult) || negb (StepResult.runtimeRunning stepResult) then
        Ok (s, error (if bool_decide (StepResult.lastError stepResult = ""%string)
                      then "NES runtime stopped during DFS root capture"%string
                      else StepResult.lastError stepResult))
      else if StepResult.advancedFrames stepResult =? 0 then
        captureRoot fuel' d gameAdapter lastGameState capturedPrefixFrames s
      else
        let! evaluated := NesSuperMarioBrosGameAdapter.evaluateFrame gameAdapter
          (StepResult.advancedFrames stepResult) (StepResult.memorySnapshot stepResult) in
        let '(gameAdapter, evaluation) := evaluated in
        let lastGameState :=
          match NesSuperMarioBrosGameAdapter.gameState evaluation with
          | Some g => Some g
          | None => lastGameState
          end in
        if negb (SmbSearchCore.isSmbGameplayFrame lastGameState controllerOutput) then
          captureRoot fuel' d gameAdapter lastGameState capturedPrefixFrames s
        else
          let capturedPrefixFrames := capturedPrefixFrames ++ [setupFrame] in
          match driver_copyRuntimeSavestate d with
          | None => Ok (s, error "Failed to capture SMB DFS root savestate"%string)
          | Some savestate =>
              let evaluatorSummary := SmbSearchCore.buildSmbSearchEvaluatorSummary
                (NesSuperMarioBrosGameAdapter.fitnessDetails evaluation) lastGameState in
              let s := set_rootPrefixFrames_ capturedPrefixFrames s in
              let! s := initializeRootNode d savestate evaluatorSummary
                (StepResult.memorySnapshot stepResult) (StepResult.scenarioVideoFrame stepResult) s in
              Ok (s, okay tt)
          end
  end.

Definition startDfs (s : t) : res (t * Result unit string) :=
  let '(s, initResult) := initializeRuntime s in
  match initResult, driver_ s with
  | error e, _ => Ok (s, error e)
  | okay _, None => Fault NoMatch
  | okay _, Some d =>
      let gameAdapter := NesSuperMarioBrosGameAdapter.reset NesSuperMarioBrosGameAdapter.default in
      captureRoot 2000 d gameAdapter None [] s
  end.

(** *** One step of the search *)
Definition childEvaluator (summary : SmbSearchEvaluatorSummary.t) : NesSuperMarioBrosEvaluator.t :=
  if value_or (SmbSearchEvaluatorSummary.gameState summary) 0 =? 1 then
    NesSuperMarioBrosEvaluator.restoreProgress
      (SmbSearchCore.decodeSmbStageIndex (SmbSearchEvaluatorSummary.bestFrontier summary))
      (SmbSearchCore.decodeSmbAbsoluteX (SmbSearchEvaluatorSummary.bestFrontier summary))
      (SmbSearchEvaluatorSummary.distanceRewardTotal summary)
      (SmbSearchEvaluatorSummary.levelClearRewardTotal summary)
      (SmbSearchEvaluatorSummary.gameplayFrames summary)
      (SmbSearchEvaluatorSummary.gameplayFramesSinceProgress summary)
  else NesSuperMarioBrosEvaluator.reset.

Definition belowScreen (summary : SmbSearchEvaluatorSummary.t) : bool :=
  bool_decide (SmbSearchEvaluatorSummary.endReason summary = SmbEpisodeEndReason.FellBelowScreen).
Definition terminalLoss (summary : SmbSearchEvaluatorSummary.t) : bool :=
  SmbSearchEvaluatorSummary.terminal summary && negb (belowScreen summary).
Definition nonGameplay (summary : SmbSearchEvaluatorSummary.t) (state : NesSuperMarioBrosState.t) : bool :=
  negb (SmbSearchEvaluatorSummary.terminal summary)
  && bool_decide (NesSuperMarioBrosState.gameMode state <> SmbGameMode.Normal).

Definition velocityStuckCandidate (options : SmbDfsSearchOptions.t)
    (summary : SmbSearchEvaluatorSummary.t) (state : NesSuperMarioBrosState.t)
    (parentCurrentFrontier parentPlayerYScreen : Z) : bool :=
  SmbDfsSearchOptions.velocityPruningEnabled options
  && negb (SmbSearchEvaluatorSummary.terminal summary) && negb (nonGameplay summary state)
  && (NesSuperMarioBrosState.absoluteX state =? SmbSearchCore.decodeSmbAbsoluteX parentCurrentFrontier)
  && negb (NesSuperMarioBrosState.airborne state)
  && (parentPlayerYScreen <=? NesSuperMarioBrosState.playerYScreen state)
  && fle (SFabs (NesSuperMarioBrosState.horizontalSpeedNormalized state))
       kVelocityPruneHorizontalSpeedEpsilon
  && (0 <? SmbSearchEvaluatorSummary.gameplayFramesSinceProgress summary).

Definition nextVelocityStuckFrameCount (candidate : bool) (parentCount : Z) : Z :=
  if candidate then u8 (Z.min (u16 (parentCount + 1)) 255) else 0.

Definition stalled (options : SmbDfsSearchOptions.t) (summary : SmbSearchEvaluatorSummary.t)
    (state : NesSuperMarioBrosState.t) : bool :=
  negb (SmbSearchEvaluatorSummary.terminal summary) && negb (nonGameplay summary state)
  && (SmbDfsSearchOptions.stallFrameLimit options
        <=? SmbSearchEvaluatorSummary.gameplayFramesSinceProgress summary).

(** The chain of conditionals that classifies the child. *)
Definition classify (summary : SmbSearchEvaluatorSummary.t)
    (prunedTransposition nonGameplay velocityStuck stalled : bool) : TraceEventType.t :=
  if belowScreen summary then TraceEventType.PrunedBelowScreen
  else if terminalLoss summary then TraceEventType.PrunedDead
  else if prunedTransposition then TraceEventType.PrunedTransposition
  else if nonGameplay then TraceEventType.PrunedNonGameplay
  else if velocityStuck then TraceEventType.PrunedVelocityStuck
  else if stalled then TraceEventType.PrunedStalled
  else TraceEventType.ExpandedAlive.

(** [completeWithError] and the tick result that follows it. *)
Definition failTick (errorMessage : string) (s : t) : res (t * TickResult.t) :=
  let! s := completeWithError errorMessage s in
  Ok (s, TickResult.mk true false false (completionErrorMessage_ s)).

Definition set_top (f : DfsFrame.t) (s : t) : t :=
  match dfsStack_ s with
  | [] => s
  | _ :: rest => set_dfsStack_ (f :: rest) s
  end.

(** The child has been captured: append it to the parallel vectors. *)
Definition appendChild (node : SmbSearchNode.t) (key : option ClosedLossTranspositionKey.t)
    (priorityAction : bool) (s : t) : t :=
  let s := set_nodes_ (nodes_ s ++ [node]) s in
  let s := set_closedLossTranspositionKeys_ (closedLossTranspositionKeys_ s ++ [key]) s in
  let s := set_nodeOutcomes_ (nodeOutcomes_ s ++ [SmbSearchNodeOutcome.Open]) s in
  let s := set_closedLossBlockReasons_ (closedLossBlockReasons_ s ++ [BlockReason.None]) s in
  let p := progress_ s in
  let s := set_progress_ (SearchProgress.set_counts (u64 (SearchProgress.searchedNodeCount p + 1))
    (if priorityAction then u64 (SearchProgress.groundedVerticalJumpPriorityActionCount p + 1)
     else SearchProgress.groundedVerticalJumpPriorityActionCount p) p) s in
  updateRenderableState node s.

(** The child is alive: it becomes the top of the stack. *)
Definition pushChild (childIndex : Z) (action : SmbSearchLegalAction.t)
    (state : NesSuperMarioBrosState.t) (candidate : bool) (reason : BlockReason.t) (s : t) : res t :=
  let! s := updateBestLeaf childIndex s in
  let! actionOrdering := SmbSearchCore.buildDfsActionOrder (NesSuperMarioBrosState.airborne state)
    (NesSuperMarioBrosState.verticalSpeedNormalized state) (getHorizontalDirection state) (Some action)
    (SmbDfsSearchOptions.groundedVerticalJumpPrioritizationEnabled (options_ s)) in
  Ok (set_dfsStack_ (DfsFrame.mk childIndex 0 actionOrdering candidate reason :: dfsStack_ s) s).

(** The child is pruned: its outcome is final and its parent's frame hears of it. *)
Definition pruneChild (childIndex : Z) (f : DfsFrame.t) (childOutcome : SmbSearchNodeOutcome.t)
    (childBlockReason : BlockReason.t) (s : t) : res t :=
  let! outcomes := vec_set (nodeOutcomes_ s) childIndex childOutcome in
  let s := set_nodeOutcomes_ outcomes s in
  let! reasons := vec_set (closedLossBlockReasons_ s) childIndex childBlockReason in
  let s := set_closedLossBlockReasons_ reasons s in
  let s := set_top (noteChildOutcome childOutcome childBlockReason f) s in
  let! s := if bool_decide (childOutcome = SmbSearchNodeOutcome.ClosedLoss)
            then publishClosedLossTranspositionEntry childIndex s else Ok s in
  releaseNodeHeavyData childIndex s.

(** From the captured child to the end of the tick. *)
Definition finishChild (parentIndex : Z) (parent : SmbSearchNode.t) (f : DfsFrame.t)
    (action : SmbSearchLegalAction.t) (priorityAction : bool) (savestate : Savestate)
    (memorySnapshot : MemorySnapshot) (scenarioVideoFrame : option ScenarioVideoFrame)
    (state : NesSuperMarioBrosState.t) (summary : SmbSearchEvaluatorSummary.t) (s : t)
    : res (t * TickResult.t) :=
  let! key := buildClosedLossTranspositionKey s state memorySnapshot in
  let prunedTransposition :=
    negb (SmbSearchEvaluatorSummary.terminal summary) && negb (nonGameplay summary state)
    && match key with Some k => isClosedLossTranspositionPruned s k summary | None => false end in
  let probe :=
    match key with
    | Some k =>
        if negb (SmbSearchEvaluatorSummary.terminal summary) && negb (nonGameplay summary state)
        then probeClosedLossTranspositionShape s (buildClosedLossTranspositionShapeKey k) k summary
        else ShapeProbeResult.default
    | None => ShapeProbeResult.default
    end in
  let childIndex := nodeCount s in
  let stuckCandidate := velocityStuckCandidate (options_ s) summary state
    (SmbSearchNode.currentFrontier parent) (SmbSearchNode.playerYScreen parent) in
  let stuckCount := nextVelocityStuckFrameCount stuckCandidate
    (SmbSearchNode.velocityStuckFrameCount parent) in
  let node := SmbSearchNode.mk savestate memorySnapshot scenarioVideoFrame summary (Some parentIndex)
    (Some action) (encodeCurrentFrontier state) (SmbSearchEvaluatorSummary.gameplayFrames summary)
    (NesSuperMarioBrosState.playerYScreen state) stuckCount in
  let s := appendChild node key priorityAction s in
  let velocityStuck := kVelocityPruneConsecutiveFrameThreshold <=? stuckCount in
  let isStalled := stalled (options_ s) summary state in
  let isNonGameplay := nonGameplay summary state in
  let traceEvent := classify summary prunedTransposition isNonGameplay velocityStuck isStalled in
  let expandedAlive := bool_decide (traceEvent = TraceEventType.ExpandedAlive) in
  let childClosedLossCandidate := expandedAlive && isClosedLossCandidate s childIndex in
  let childInitialBlockReason :=
    if expandedAlive then getInitialClosedLossBlockReason s childIndex else BlockReason.None in
  let childOutcome :=
    if expandedAlive then SmbSearchNodeOutcome.Open
    else if isNonGameplay then SmbSearchNodeOutcome.NotClosedLoss
    else SmbSearchNodeOutcome.ClosedLoss in
  let childBlockReason :=
    if expandedAlive then childInitialBlockReason
    else if isNonGameplay then BlockReason.NonGameplay else BlockReason.None in
  let proven := bool_decide (childOutcome = SmbSearchNodeOutcome.ClosedLoss) in
  let s := recordTrace (TraceEntry.mk traceEvent childIndex (Some parentIndex) (Some action)
    (SmbSearchEvaluatorSummary.gameplayFrames summary) (SmbSearchEvaluatorSummary.bestFrontier summary)
    (SmbSearchEvaluatorSummary.evaluationScore summary)
    (SmbSearchEvaluatorSummary.gameplayFramesSinceProgress summary) priorityAction
    (if expandedAlive then childClosedLossCandidate else proven) proven
    (ShapeProbeResult.pruned probe) (ShapeProbeResult.ramDiffCount probe)
    (ShapeProbeResult.ramDiffs probe) childBlockReason) s in
  let s := set_progress_
    (SearchProgress.set_lastSearchEvent (toSearchProgressEvent traceEvent) (progress_ s)) s in
  let! s :=
    if negb (SmbSearchEvaluatorSummary.terminal summary) && negb prunedTransposition
       && negb isNonGameplay && negb velocityStuck && negb isStalled
    then pushChild childIndex action state childClosedLossCandidate childInitialBlockReason s
    else pruneChild childIndex f childOutcome childBlockReason s in
  match SmbDfsSearchOptions.stopAfterBestFrontier (options_ s) with
  | Some milestone =>
      if milestone <=? bestFrontier_ s then
        let! s := completeWithTraceEvent TraceEventType.CompletedMilestoneReached s in
        Ok (s, TickResult.mk true true true None)
      else Ok (s, TickResult.mk (completed_ s) true true None)
  | None => Ok (s, TickResult.mk (completed_ s) true true None)
  end.

(** Expanding the next action of the top frame; [d] is the driver. *)
Definition expandTick (d : D) (f : DfsFrame.t) (s : t) : res (t * TickResult.t) :=
  let parentIndex := DfsFrame.nodeIndex f in
  let actionOrderIndex := DfsFrame.nextActionIndex f in
  let! action := vec_get (SmbSearchActionOrdering.actions (DfsFrame.actionOrdering f)) actionOrderIndex in
  let f := DfsFrame.mk parentIndex (u8 (actionOrderIndex + 1)) (DfsFrame.actionOrdering f)
    (DfsFrame.closedLossCandidate f) (DfsFrame.closedLossBlockReason f) in
  let s := set_top f s in
  let priorityAction := actionOrderIndex <?
    SmbSearchActionOrdering.groundedVerticalJumpPriorityActionCount (DfsFrame.actionOrdering f) in
  let! parent := vec_get (nodes_ s) parentIndex in
  let '(d, loaded) := driver_loadRuntimeSavestate d (SmbSearchNode.savestate parent) 2000 in
  let s := set_driver_ (Some d) s in
  if negb loaded then
    let runtimeLastError := driver_getRuntimeLastError d in
    failTick (if bool_decide (runtimeLastError = ""%string)
              then "Failed to load SMB DFS parent savestate"%string else runtimeLastError) s
  else
    let evaluator := childEvaluator (SmbSearchNode.evaluatorSummary parent) in
    let '(d, stepResult) := driver_step d (SmbSearchCore.playerControlFrameToNesMask
      (SmbSearchCore.smbSearchLegalActionToPlayerControlFrame action)) in
    let s := set_driver_ (Some d) s in
    if negb (StepResult.runtimeHealthy stepResult) || negb (StepResult.runtimeRunning stepResult) then
      failTick (if bool_decide (StepResult.lastError stepResult = ""%string)
                then "NES runtime stopped during DFS expansion"%string
                else StepResult.lastError stepResult) s
    else if StepResult.advancedFrames stepResult =? 0 then
      failTick "DFS expansion did not advance the NES runtime"%string s
    else
      match StepResult.memorySnapshot stepResult with
      | None => failTick "DFS expansion did not provide an NES memory snapshot"%string s
      | Some memorySnapshot =>
          let! state := NesSuperMarioBrosRamExtractor.extract memorySnapshot true in
          let gameState :=
            if bool_decide (NesSuperMarioBrosState.phase state = SmbPhase.Gameplay)
            then Some 1 else Some 0 in
          let '(_, evaluation) := NesSuperMarioBrosEvaluator.evaluate evaluator
            (NesSuperMarioBrosEvaluator.mkInput (StepResult.advancedFrames stepResult) state) in
          let summary := SmbSearchCore.buildSmbSearchEvaluatorSummary
            (FitnessSmb (NesSuperMarioBrosEvaluator.snapshot evaluation)) gameState in
          match driver_copyRuntimeSavestate d with
          | None => failTick "Failed to capture SMB DFS child savestate"%string s
          | Some savestate =>
              let scenarioVideoFrame :=
                match StepResult.scenarioVideoFrame stepResult with
                | Some v => Some v
                | None => driver_copyRuntimeFrameSnapshot d
                end in
              finishChild parentIndex parent f action priorityAction savestate memorySnapshot
                scenarioVideoFrame state summary s
          end
      end.

(** The top frame has no action left: [None] means the loop goes on. *)
Definition backtrackTick (f : DfsFrame.t) (s : t) : res (t * option TickResult.t) :=
  let nodeIndex := DfsFrame.nodeIndex f in
  let! exhaustedNode := vec_get (nodes_ s) nodeIndex in
  let exhaustedOutcome :=
    if DfsFrame.closedLossCandidate f then SmbSearchNodeOutcome.ClosedLoss
    else SmbSearchNodeOutcome.NotClosedLoss in
  let exhaustedBlockReason :=
    if DfsFrame.closedLossCandidate f then BlockReason.None else DfsFrame.closedLossBlockReason f in
  let! outcomes := vec_set (nodeOutcomes_ s) nodeIndex exhaustedOutcome in
  let s := set_nodeOutcomes_ outcomes s in
  let! reasons := vec_set (closedLossBlockReasons_ s) nodeIndex exhaustedBlockReason in
  let s := set_closedLossBlockReasons_ reasons s in
  let! s := publishClosedLossTranspositionEntry nodeIndex s in
  let summary := SmbSearchNode.evaluatorSummary exhaustedNode in
  let s := recordTrace (TraceEntry.mk TraceEventType.Backtracked nodeIndex
    (SmbSearchNode.parentIndex exhaustedNode) (SmbSearchNode.actionFromParent exhaustedNode)
    (SmbSearchNode.gameplayFrame exhaustedNode) (SmbSearchEvaluatorSummary.bestFrontier summary)
    (SmbSearchEvaluatorSummary.evaluationScore summary)
    (SmbSearchEvaluatorSummary.gameplayFramesSinceProgress summary) false
    (DfsFrame.closedLossCandidate f)
    (bool_decide (exhaustedOutcome = SmbSearchNodeOutcome.ClosedLoss))
    false 0 (replicate 63 false) exhaustedBlockReason) s in
  let s := set_dfsStack_ (tail (dfsStack_ s)) s in
  let! s := releaseNodeHeavyData nodeIndex s in
  let s := set_progress_
    (SearchProgress.set_lastSearchEvent SearchProgressEvent.Backtracked (progress_ s)) s in
  match dfsStack_ s with
  | [] => Ok (s, None)
  | back :: _ =>
      let s := set_top (noteChildOutcome exhaustedOutcome exhaustedBlockReason back) s in
      let! node := vec_get (nodes_ s) (DfsFrame.nodeIndex back) in
      Ok (updateRenderableState node s, Some (TickResult.mk false false true None))
  end.

(** The [while (true)] loop.  It goes round again only after popping the last
    frame, so two rounds are enough. *)
Fixpoint tickLoop (fuel : nat) (d : D) (s : t) : res (t * TickResult.t) :=
  match fuel with
  | O => Fault OutOfFuel
  | S fuel' =>
      if (0 <? SmbDfsSearchOptions.maxSearchedNodeCount (options_ s))
         && (SmbDfsSearchOptions.maxSearchedNodeCount (options_ s)
               <=? SearchProgress.searchedNodeCount (progress_ s))
      then
        let! s := completeWithTraceEvent TraceEventType.CompletedBudgetExceeded s in
        Ok (s, TickResult.mk true false false None)
      else
        match dfsStack_ s with
        | [] =>
            let! s := completeWithTraceEvent TraceEventType.CompletedExhausted s in
            Ok (s, TickResult.mk true false false None)
        | f :: _ =>
            if SmbSearchActionOrdering.count (DfsFrame.actionOrdering f) <=? DfsFrame.nextActionIndex f
            then
              let! r := backtrackTick f s in
              match r with
              | (s, Some result) => Ok (s, result)
              | (s, None) => tickLoop fuel' d s
              end
            else expandTick d f s
        end
  end.

Definition tick (s : t) : res (t * TickResult.t) :=
  if completed_ s then
    Ok (s, TickResult.mk true false false
             (if bool_decide (completionReason_ s = Some CompletionReason.Error)
              then completionErrorMessage_ s else None))
  else if paused_ s then Ok (s, TickResult.mk false false false None)
  else
    match driver_ s with
    | None =>
        let! s := completeWithError "SMB DFS search not initialized"%string s in
        Ok (s, TickResult.mk true false false (completionErrorMessage_ s))
    | Some d => tickLoop 2 d s
    end.

Definition pauseSet (paused : bool) (s : t) : t :=
  let s := set_paused_ paused s in
  set_progress_ (SearchProgress.set_paused paused (progress_ s)) s.

Definition stop (s : t) : res t :=
  if completed_ s then Ok s
  else
    let! s := rebuildBestPlan s in
    let s := set_completion true false (Some CompletionReason.Stopped) None s in
    let s := set_progress_ (SearchProgress.set_lastSearchEvent SearchProgressEvent.Stopped
                              (SearchProgress.set_paused false (progress_ s))) s in
    match bestLeafIndex_ s with
    | Some leaf =>
        let! bestNode := vec_get (nodes_ s) leaf in
        let summary := SmbSearchNode.evaluatorSummary bestNode in
        Ok (recordTrace (TraceEntry.mk TraceEventType.Stopped leaf (SmbSearchNode.parentIndex bestNode)
              (SmbSearchNode.actionFromParent bestNode) (SmbSearchNode.gameplayFrame bestNode)
              (SmbSearchEvaluatorSummary.bestFrontier summary)
              (SmbSearchEvaluatorSummary.evaluationScore summary)
              (SmbSearchEvaluatorSummary.gameplayFramesSinceProgress summary)
              false false false false 0 (replicate 63 false) BlockReason.None) s)
    | None =>
        Ok (recordTrace (TraceEntry.mk TraceEventType.Stopped 0 None None 0 0 fzero 0
              false false false false 0 (replicate 63 false) BlockReason.None) s)
    end.

Definition hasPersistablePlan (s : t) : bool := negb (bool_decide (plan_frames (plan_ s) = [])).
Definition hasRenderableFrame (s : t) : bool := bool_decide (is_Some (scenarioVideoFrame_ s)).
Definition isCompleted (s : t) : bool := completed_ s.
Definition isPaused (s : t) : bool := paused_ s.
Definition getCompletionReason (s : t) : option CompletionReason.t := completionReason_ s.
Definition getCompletionErrorMessage (s : t) : option string := completionErrorMessage_ s.
Definition getPlan (s : t) : Plan := plan_ s.
Definition getProgress (s : t) : SearchProgress.t := progress_ s.
Definition getScenarioVideoFrame (s : t) : option ScenarioVideoFrame := scenarioVideoFrame_ s.
Definition getTrace (s : t) : list TraceEntry.t := trace_ s.
Definition getWorldData (s : t) : WorldData := worldData_ s.

End Search.
Arguments t D : clear implicits.
End SmbDfsSearch.
