(* ===== verification/SmbDfsTree.v ===== *)
(** The search tree of the depth-first search, apart from the data its nodes
    carry: parent links, the stack of open nodes and the outcomes of the closed
    ones.  The invariant of the tree and its preservation by the three moves of
    the search (push an alive child, record a pruned child, pop an exhausted
    node). *)

From Stdlib Require Import ZArith Lia Bool String.
From stdpp Require Import base gmap option numbers list.
From S2P Require Import Prelude Ieee NesTypes SmbEvaluator SmbSearchCore.
From S2P Require Import SmbDfsSearch.

Set Default Goal Selector "!".

(** What a node keeps when its snapshots are released. *)
Record core := mkCore {
  c_parent : option Z;
  c_action : option SmbSearchLegalAction.t;
  c_summary : SmbSearchEvaluatorSummary.t;
  c_stuck : Z
}.

Definition core_of (n : SmbSearchNode.t) : core :=
  mkCore (SmbSearchNode.parentIndex n) (SmbSearchNode.actionFromParent n)
    (SmbSearchNode.evaluatorSummary n) (SmbSearchNode.velocityStuckFrameCount n).

(** The actions of the children of node [i], in the order they were expanded. *)
Definition children_actions (cs : list core) (i : Z) : list SmbSearchLegalAction.t :=
  omap (fun c => if bool_decide (c_parent c = Some i) then c_action c else None) cs.

Definition child_of (cs : list core) (i : Z) (j : nat) : Prop :=
  exists c, cs !! j = Some c /\ c_parent c = Some i.

(** An ordering the search built for some node. *)
Definition valid_ordering (o : SmbSearchActionOrdering.t) : Prop :=
  exists airborne v dir parent enabled,
    SmbSearchCore.buildDfsActionOrder airborne v dir parent enabled = Ok o.

Definition frame_ok (cs : list core) (f : DfsFrame.t) : Prop :=
  0 <= DfsFrame.nodeIndex f < Z.of_nat (length cs) /\
  0 <= DfsFrame.nextActionIndex f <= SmbSearchActionOrdering.count (DfsFrame.actionOrdering f) /\
  valid_ordering (DfsFrame.actionOrdering f).

(** The stack is the path from the top frame's node to the root. *)
Inductive stack_wf (cs : list core) : list DfsFrame.t -> Prop :=
| stack_nil : stack_wf cs []
| stack_root f : frame_ok cs f -> DfsFrame.nodeIndex f = 0 -> stack_wf cs [f]
| stack_cons f g fs :
    frame_ok cs f ->
    child_of cs (DfsFrame.nodeIndex g) (Z.to_nat (DfsFrame.nodeIndex f)) ->
    stack_wf cs (g :: fs) -> stack_wf cs (f :: g :: fs).

Definition on_stack (stack : list DfsFrame.t) (i : nat) : Prop :=
  exists f, f ∈ stack /\ DfsFrame.nodeIndex f = Z.of_nat i.

(** Some child of node [i] is closed without being a loss. *)
Definition escapes (cs : list core) (outs : list SmbSearchNodeOutcome.t) (i : Z) : Prop :=
  exists j, child_of cs i j /\ outs !! j = Some SmbSearchNodeOutcome.NotClosedLoss.

Record tree_wf (cs : list core) (stack : list DfsFrame.t) (outs : list SmbSearchNodeOutcome.t) : Prop :=
  mkTreeWf {
  tw_len : length outs = length cs;
  tw_root : exists r, cs !! 0%nat = Some r /\ c_parent r = None /\ c_action r = None;
  tw_links : forall j c, cs !! j = Some c -> j <> 0%nat ->
    exists p a, c_parent c = Some p /\ c_action c = Some a /\ 0 <= p < Z.of_nat j;
  tw_stack : stack_wf cs stack;
  tw_open : forall i o, outs !! i = Some o -> (o = SmbSearchNodeOutcome.Open <-> on_stack stack i);
  tw_closed : forall i j, outs !! i = Some SmbSearchNodeOutcome.ClosedLoss ->
    child_of cs (Z.of_nat i) j -> outs !! j = Some SmbSearchNodeOutcome.ClosedLoss;
  tw_notclosed : forall i, outs !! i = Some SmbSearchNodeOutcome.NotClosedLoss ->
    escapes cs outs (Z.of_nat i) \/ children_actions cs (Z.of_nat i) = [];
  tw_frame : forall f, f ∈ stack ->
    (DfsFrame.closedLossCandidate f = false <-> escapes cs outs (DfsFrame.nodeIndex f))
}.

(** Every open node has tried the first [nextActionIndex] actions of its
    ordering; every closed one was pruned as a leaf or has tried them all. *)
Definition explored (cs : list core) (stack : list DfsFrame.t) (outs : list SmbSearchNodeOutcome.t) : Prop :=
  (forall f, f ∈ stack -> children_actions cs (DfsFrame.nodeIndex f) =
     take (Z.to_nat (DfsFrame.nextActionIndex f)) (SmbSearchActionOrdering.actions (DfsFrame.actionOrdering f))) /\
  (forall i o, outs !! i = Some o -> o <> SmbSearchNodeOutcome.Open ->
     children_actions cs (Z.of_nat i) = [] \/
     exists ord, valid_ordering ord /\ children_actions cs (Z.of_nat i) = offered ord).

Section TreeFacts.
Implicit Types (cs : list core) (f g : DfsFrame.t) (outs : list SmbSearchNodeOutcome.t).

Lemma child_of_app_l cs c i j : child_of cs i j -> child_of (cs ++ [c]) i j.
Proof. intros (d & Hd & Hp). exists d. split; [by apply lookup_app_l_Some | done]. Qed.

Lemma child_of_snoc cs c i j :
  child_of (cs ++ [c]) i j <-> child_of cs i j \/ (j = length cs /\ c_parent c = Some i).
Proof.
  split.
  - intros (d & Hd & Hp). apply lookup_app_Some in Hd as [Hd | [Hle Hd]]; [left; by exists d |].
    apply list_lookup_singleton_Some in Hd as [Hj <-]. right. split; [lia | done].
  - intros [H | [-> Hp]]; [by apply child_of_app_l |]. exists c.
    split; [by apply list_lookup_middle | done].
Qed.

Lemma child_of_lt cs i j : child_of cs i j -> (j < length cs)%nat.
Proof. intros (c & Hc & _). by apply lookup_lt_Some in Hc. Qed.

Lemma child_parent_lt cs stack outs i j :
  tree_wf cs stack outs -> child_of cs i j -> 0 <= i < Z.of_nat j.
Proof.
  intros Ht (c & Hc & Hp). destruct (decide (j = 0%nat)) as [-> | Hj].
  - destruct (tw_root _ _ _ Ht) as (r & Hr & Hn & _). congruence.
  - destruct (tw_links _ _ _ Ht j c Hc Hj) as (p & a & Hp' & _ & Hlt). simplify_eq. lia.
Qed.

Lemma children_snoc cs c i :
  children_actions (cs ++ [c]) i =
  children_actions cs i ++ (if bool_decide (c_parent c = Some i) then option_list (c_action c) else []).
Proof.
  unfold children_actions. rewrite omap_app. f_equal. simpl.
  case_bool_decide; [by destruct (c_action c) | done].
Qed.

Lemma children_none cs i : (forall j, ~ child_of cs i j) -> children_actions cs i = [].
Proof.
  unfold children_actions. induction cs as [| c cs IH]; intros H; simpl; [done |].
  rewrite bool_decide_eq_false_2; [| intros Hp; apply (H 0%nat); by exists c].
  apply IH. intros j (d & Hd & Hp). apply (H (S j)). by exists d.
Qed.

Lemma stack_wf_app cs c stack : stack_wf cs stack -> stack_wf (cs ++ [c]) stack.
Proof.
  assert (forall f, frame_ok cs f -> frame_ok (cs ++ [c]) f) as Hf.
  { intros f ([? ?] & ? & ?). split; [rewrite length_app; simpl; lia | done]. }
  induction 1; constructor; auto using child_of_app_l.
Qed.

Lemma stack_wf_frame cs stack f : stack_wf cs stack -> f ∈ stack -> frame_ok cs f.
Proof.
  induction 1 as [| g Hg _ | g h fs Hg _ _ IH].
  - by intros ?%elem_of_nil.
  - by intros ->%list_elem_of_singleton.
  - by intros [-> | Hf]%elem_of_cons; [| apply IH].
Qed.

(** Indices grow towards the top. *)
Lemma stack_wf_below cs stack outs f g fs :
  tree_wf cs stack outs -> stack_wf cs (f :: fs) -> g ∈ fs -> DfsFrame.nodeIndex g < DfsFrame.nodeIndex f.
Proof.
  intros Ht. revert f. induction fs as [| h fs IH]; intros f Hs Hg; [by apply elem_of_nil in Hg |].
  inversion Hs as [| | ? ? ? Hf Hc Hs']; subst.
  pose proof (child_parent_lt _ _ _ _ _ Ht Hc). destruct Hf as ([? ?] & _).
  apply elem_of_cons in Hg as [-> | Hg]; [lia |].
  specialize (IH h Hs' Hg). lia.
Qed.

Lemma stack_wf_tail cs f fs : stack_wf cs (f :: fs) -> stack_wf cs fs.
Proof. inversion 1; subst; [constructor | done]. Qed.

(** Replacing the top frame by one of the same node. *)
Lemma stack_wf_top cs f f' fs :
  stack_wf cs (f :: fs) -> DfsFrame.nodeIndex f' = DfsFrame.nodeIndex f -> frame_ok cs f' ->
  stack_wf cs (f' :: fs).
Proof.
  intros Hs He Hf. inversion Hs; subst; constructor; try done; by rewrite He.
Qed.

(** A node with an open frame is not closed. *)
Lemma on_stack_open cs stack outs f :
  tree_wf cs stack outs -> f ∈ stack ->
  outs !! Z.to_nat (DfsFrame.nodeIndex f) = Some SmbSearchNodeOutcome.Open.
Proof.
  intros Ht Hf. destruct (stack_wf_frame _ _ _ (tw_stack _ _ _ Ht) Hf) as (Hi & _).
  rewrite <- (tw_len _ _ _ Ht) in Hi.
  destruct (in_range_lookup outs _ Hi) as [o Ho]. rewrite Ho. f_equal.
  apply (proj2 (tw_open _ _ _ Ht _ _ Ho)). exists f. split; [done | lia].
Qed.

Lemma escapes_app cs outs c o i :
  length outs = length cs ->
  escapes (cs ++ [c]) (outs ++ [o]) i <->
  escapes cs outs i \/ (c_parent c = Some i /\ o = SmbSearchNodeOutcome.NotClosedLoss).
Proof.
  intros Hl. unfold escapes. split.
  - intros (j & [Hc | [-> Hp]]%child_of_snoc & Ho).
    + left. exists j. split; [done |]. rewrite lookup_app_l in Ho; [done |].
      apply child_of_lt in Hc. lia.
    + right. rewrite <- Hl, list_lookup_middle in Ho by done. by simplify_eq.
  - intros [(j & Hc & Ho) | [Hp ->]].
    + exists j. split; [by apply child_of_app_l | by apply lookup_app_l_Some].
    + exists (length cs). split; [apply child_of_snoc; by right |].
      rewrite <- Hl. by apply list_lookup_middle.
Qed.

Lemma on_stack_top f f' fs i :
  DfsFrame.nodeIndex f' = DfsFrame.nodeIndex f -> on_stack (f' :: fs) i <-> on_stack (f :: fs) i.
Proof.
  intros He. split; intros (g & Hg & Hi); apply elem_of_cons in Hg as [-> | Hg].
  - exists f. split; [by left | congruence].
  - exists g. split; [by right | done].
  - exists f'. split; [by left | congruence].
  - exists g. split; [by right | done].
Qed.

Lemma on_stack_cons f fs i :
  on_stack (f :: fs) i <-> DfsFrame.nodeIndex f = Z.of_nat i \/ on_stack fs i.
Proof.
  split.
  - intros (g & [-> | Hg]%elem_of_cons & Hi); [by left | right; by exists g].
  - intros [Hi | (g & Hg & Hi)]; [exists f | exists g]; (split; [| done]); [by left | by right].
Qed.

(** Replacing the top frame by one that says the same of the tree. *)
Lemma tree_top cs f f' fs outs :
  tree_wf cs (f :: fs) outs ->
  DfsFrame.nodeIndex f' = DfsFrame.nodeIndex f ->
  DfsFrame.closedLossCandidate f' = DfsFrame.closedLossCandidate f ->
  frame_ok cs f' -> tree_wf cs (f' :: fs) outs.
Proof.
  intros [Hlen Hroot Hlinks Hst Hopen Hcl Hnc Hfr] He Hc Hok. split; try done.
  - by eapply stack_wf_top.
  - intros i o Ho. rewrite (on_stack_top f f' fs i He). by apply Hopen.
  - intros g [-> | Hg]%elem_of_cons; [rewrite He, Hc; apply Hfr; by left | apply Hfr; by right].
Qed.

(** The frame of the node an appended child hangs from is the top one. *)
Lemma below_other cs f fs outs g :
  tree_wf cs (f :: fs) outs -> g ∈ fs -> DfsFrame.nodeIndex g <> DfsFrame.nodeIndex f.
Proof. intros Ht Hg. pose proof (stack_wf_below _ _ _ _ _ _ Ht (tw_stack _ _ _ Ht) Hg). lia. Qed.

(** What the two ways of appending a child share. *)
Section Append.
Context (cs : list core) (f : DfsFrame.t) (fs : list DfsFrame.t) (outs : list SmbSearchNodeOutcome.t).
Context (c : core) (a : SmbSearchLegalAction.t) (o : SmbSearchNodeOutcome.t).
Context (Ht : tree_wf cs (f :: fs) outs).
Context (Hp : c_parent c = Some (DfsFrame.nodeIndex f)) (Ha : c_action c = Some a).

Lemma append_top_range : 0 <= DfsFrame.nodeIndex f < Z.of_nat (length cs).
Proof. by destruct (stack_wf_frame _ _ f (tw_stack _ _ _ Ht) ltac:(by left)). Qed.

Lemma append_len : length (outs ++ [o]) = length (cs ++ [c]).
Proof. rewrite !length_app, (tw_len _ _ _ Ht). done. Qed.

Lemma append_root : exists r, (cs ++ [c]) !! 0%nat = Some r /\ c_parent r = None /\ c_action r = None.
Proof.
  destruct (tw_root _ _ _ Ht) as (r & Hr & H). exists r. split; [by apply lookup_app_l_Some | done].
Qed.

Lemma append_links j d :
  (cs ++ [c]) !! j = Some d -> j <> 0%nat ->
  exists p b, c_parent d = Some p /\ c_action d = Some b /\ 0 <= p < Z.of_nat j.
Proof.
  pose proof append_top_range as Hr. intros Hd Hj.
  apply lookup_app_Some in Hd as [Hd | [Hle Hd]]; [by apply (tw_links _ _ _ Ht) |].
  apply list_lookup_singleton_Some in Hd as [Hj' <-]. do 2 eexists.
  split; [done |]. split; [done |]. lia.
Qed.

Lemma append_parent_open i : child_of (cs ++ [c]) (Z.of_nat i) (length cs) -> outs !! i = Some SmbSearchNodeOutcome.Open.
Proof.
  intros [Hc | [_ Hpi]]%child_of_snoc; [by apply child_of_lt in Hc; lia |].
  rewrite Hp in Hpi. simplify_eq.
  replace i with (Z.to_nat (DfsFrame.nodeIndex f)) by lia.
  apply (on_stack_open _ _ _ _ Ht). by left.
Qed.

Lemma append_closed i j :
  (outs ++ [o]) !! i = Some SmbSearchNodeOutcome.ClosedLoss -> child_of (cs ++ [c]) (Z.of_nat i) j ->
  (outs ++ [o]) !! j = Some SmbSearchNodeOutcome.ClosedLoss.
Proof.
  intros Hi Hc. pose proof (tw_len _ _ _ Ht) as Hlen.
  apply lookup_app_Some in Hi as [Hi | [Hle Hi]].
  - destruct (decide (j = length cs)) as [-> | Hj]; [apply append_parent_open in Hc; congruence |].
    apply child_of_snoc in Hc as [Hc | [? _]]; [| done].
    apply lookup_app_l_Some. by eapply (tw_closed _ _ _ Ht).
  - exfalso. destruct Hc as (d & Hd & Hpd). apply list_lookup_singleton_Some in Hi as [Hi _].
    destruct (decide (j = 0%nat)) as [-> | Hj].
    { destruct append_root as (r & Hr & Hn & _). congruence. }
    destruct (append_links j d Hd Hj) as (p & b & Hp' & _ & Hlt). simplify_eq.
    apply lookup_lt_Some in Hd. rewrite length_app in Hd. simpl in Hd. lia.
Qed.

Lemma append_leaf_children : children_actions (cs ++ [c]) (Z.of_nat (length cs)) = [].
Proof.
  apply children_none. intros j (d & Hd & Hpd). destruct (decide (j = 0%nat)) as [-> | Hj].
  { destruct append_root as (r & Hr & Hn & _). congruence. }
  destruct (append_links j d Hd Hj) as (p & b & Hp' & _ & Hlt). simplify_eq.
  apply lookup_lt_Some in Hd. rewrite length_app in Hd. simpl in Hd. lia.
Qed.

Lemma append_children_closed i :
  outs !! i <> Some SmbSearchNodeOutcome.Open ->
  children_actions (cs ++ [c]) (Z.of_nat i) = children_actions cs (Z.of_nat i).
Proof.
  intros Hi. rewrite children_snoc, bool_decide_eq_false_2; [apply app_nil_r |].
  intros Hpi. apply Hi, append_parent_open, child_of_snoc. by right.
Qed.

Lemma append_notclosed i :
  (outs ++ [o]) !! i = Some SmbSearchNodeOutcome.NotClosedLoss ->
  escapes (cs ++ [c]) (outs ++ [o]) (Z.of_nat i) \/ children_actions (cs ++ [c]) (Z.of_nat i) = [].
Proof.
  pose proof (tw_len _ _ _ Ht) as Hlen. intros [Hi | [Hle Hi]]%lookup_app_Some.
  - destruct (tw_notclosed _ _ _ Ht i Hi) as [He | Hn].
    + left. apply escapes_app; [done | by left].
    + right. rewrite append_children_closed; [done | congruence].
  - apply list_lookup_singleton_Some in Hi as [Hi _]. right.
    replace i with (length cs) by lia. apply append_leaf_children.
Qed.

Lemma append_frame_other g :
  g ∈ fs ->
  (DfsFrame.closedLossCandidate g = false <-> escapes (cs ++ [c]) (outs ++ [o]) (DfsFrame.nodeIndex g)).
Proof.
  intros Hg. rewrite (tw_frame _ _ _ Ht g) by (by right).
  rewrite escapes_app by apply (tw_len _ _ _ Ht). rewrite Hp.
  pose proof (below_other _ _ _ _ _ Ht Hg).
  split; [by left | intros [? | [? _]]; [done | congruence]].
Qed.

Lemma append_explored_closed i o' (Hex : explored cs (f :: fs) outs) :
  outs !! i = Some o' -> o' <> SmbSearchNodeOutcome.Open ->
  children_actions (cs ++ [c]) (Z.of_nat i) = [] \/
  exists ord, valid_ordering ord /\ children_actions (cs ++ [c]) (Z.of_nat i) = offered ord.
Proof.
  intros Hi Ho. rewrite append_children_closed by congruence. by eapply (proj2 Hex).
Qed.

Lemma append_explored_other g (Hex : explored cs (f :: fs) outs) :
  g ∈ fs -> children_actions (cs ++ [c]) (DfsFrame.nodeIndex g) =
  take (Z.to_nat (DfsFrame.nextActionIndex g)) (SmbSearchActionOrdering.actions (DfsFrame.actionOrdering g)).
Proof.
  intros Hg. rewrite children_snoc, bool_decide_eq_false_2, app_nil_r.
  - apply (proj1 Hex). by right.
  - rewrite Hp. pose proof (below_other _ _ _ _ _ Ht Hg). congruence.
Qed.
End Append.

(** The frame of a node just pushed. *)
Definition fresh_frame cs (fN : DfsFrame.t) : Prop :=
  DfsFrame.nodeIndex fN = Z.of_nat (length cs) /\ DfsFrame.nextActionIndex fN = 0 /\
  DfsFrame.closedLossCandidate fN = true /\ valid_ordering (DfsFrame.actionOrdering fN).

Lemma valid_ordering_count ord :
  valid_ordering ord -> 1 <= SmbSearchActionOrdering.count ord <= 11 /\
    length (SmbSearchActionOrdering.actions ord) = 11%nat.
Proof.
  intros (airborne & v & dir & parent & enabled & Ho).
  unfold SmbSearchCore.buildDfsActionOrder in Ho.
  pose proof (orderActions_ok (airborne && fgt v fzero)
    (enabled && negb airborne && fgt (SpecFloat.SFabs v) fzero) dir parent) as H.
  rewrite Ho in H. cbn [order_checks] in H.
  assert (negb (airborne && fgt v fzero && (enabled && negb airborne && fgt (SpecFloat.SFabs v) fzero)) = true)
    as Hex by (destruct airborne, enabled, (fgt v fzero); done).
  specialize (H Hex). do 4 apply andb_true_iff in H as [H _].
  apply andb_true_iff in H as [Hlen Hcnt].
  apply bool_decide_eq_true_1 in Hcnt. by apply bool_decide_eq_true_1 in Hlen.
Qed.

(** Pushing an alive child. *)
Lemma tree_push cs f fs outs c a fN :
  tree_wf cs (f :: fs) outs -> c_parent c = Some (DfsFrame.nodeIndex f) -> c_action c = Some a ->
  fresh_frame cs fN ->
  tree_wf (cs ++ [c]) (fN :: f :: fs) (outs ++ [SmbSearchNodeOutcome.Open]).
Proof.
  intros Ht Hp Ha (HiN & HnN & HcN & HvN). pose proof (tw_len _ _ _ Ht) as Hlen.
  split.
  - by eapply append_len.
  - by eapply append_root.
  - by eapply append_links.
  - constructor.
    + split; [rewrite length_app; simpl; lia |]. split; [| done].
      pose proof (proj1 (valid_ordering_count _ HvN)). lia.
    + apply child_of_snoc. right. split; [lia | done].
    + apply stack_wf_app, Ht.
  - intros i o. rewrite on_stack_cons. rewrite HiN.
    intros [Hi | [Hle Hi]]%lookup_app_Some.
    + rewrite (tw_open _ _ _ Ht _ _ Hi). apply lookup_lt_Some in Hi.
      split; [by right | intros [? |]; [lia | done]].
    + apply list_lookup_singleton_Some in Hi as [Hi <-]. split; [left; lia | done].
  - by eapply append_closed.
  - by eapply append_notclosed.
  - intros g [-> | Hg]%elem_of_cons.
    + rewrite HcN, HiN. split; [done |]. intros [[j [Hc _]]| [Hpi _]]%escapes_app; [| | done].
      * pose proof (child_parent_lt _ _ _ _ _ Ht Hc). apply child_of_lt in Hc. lia.
      * destruct (append_top_range _ _ _ _ Ht). rewrite Hp in Hpi. simplify_eq. lia.
    + apply elem_of_cons in Hg as [-> | Hg]; [| by eapply append_frame_other].
      rewrite (tw_frame _ _ _ Ht f) by (by left). rewrite escapes_app by done.
      split; [by left | by intros [? | [_ ?]]].
Qed.

(** Recording a pruned child. *)
Lemma tree_prune cs f fs outs c a o r :
  tree_wf cs (f :: fs) outs -> c_parent c = Some (DfsFrame.nodeIndex f) -> c_action c = Some a ->
  o <> SmbSearchNodeOutcome.Open ->
  tree_wf (cs ++ [c]) (SmbDfsSearch.noteChildOutcome o r f :: fs) (outs ++ [o]).
Proof.
  intros Ht Hp Ha Ho. pose proof (tw_len _ _ _ Ht) as Hlen.
  assert (DfsFrame.nodeIndex (SmbDfsSearch.noteChildOutcome o r f) = DfsFrame.nodeIndex f) as Hi
    by (unfold SmbDfsSearch.noteChildOutcome; by case_bool_decide).
  assert (frame_ok cs (SmbDfsSearch.noteChildOutcome o r f)) as Hok.
  { pose proof (stack_wf_frame _ _ f (tw_stack _ _ _ Ht) ltac:(by left)).
    unfold SmbDfsSearch.noteChildOutcome. by case_bool_decide. }
  split.
  - by eapply append_len.
  - by eapply append_root.
  - by eapply append_links.
  - apply stack_wf_app. by eapply stack_wf_top; [apply Ht | ..].
  - intros i o'. rewrite (on_stack_top f) by done. intros [Hl | [Hle Hl]]%lookup_app_Some.
    + by apply (tw_open _ _ _ Ht).
    + apply list_lookup_singleton_Some in Hl as [Hl <-]. split; [done |].
      intros (g & Hg & Hgi). pose proof (stack_wf_frame _ _ _ (tw_stack _ _ _ Ht) Hg) as ([? ?] & _). lia.
  - by eapply append_closed.
  - by eapply append_notclosed.
  - intros g [-> | Hg]%elem_of_cons; [| by eapply append_frame_other].
    rewrite Hi, escapes_app by done. pose proof (tw_frame _ _ _ Ht f ltac:(by left)) as Hf.
    unfold SmbDfsSearch.noteChildOutcome. case_bool_decide as E.
    + rewrite Hf. split; [by left | intros [? | [_ ?]]; [done | congruence]].
    + cbn. split; [| done]. intros _. right. split; [done |]. by destruct o.
Qed.

Lemma on_stack_below cs f fs outs i :
  tree_wf cs (f :: fs) outs -> on_stack fs i -> Z.of_nat i < DfsFrame.nodeIndex f.
Proof.
  intros Ht (g & Hg & Hi). pose proof (stack_wf_below _ _ _ _ _ _ Ht (tw_stack _ _ _ Ht) Hg). lia.
Qed.

(** The children of the top node are all closed. *)
Lemma top_children_closed cs f fs outs j :
  tree_wf cs (f :: fs) outs -> child_of cs (DfsFrame.nodeIndex f) j ->
  exists o, outs !! j = Some o /\ o <> SmbSearchNodeOutcome.Open.
Proof.
  intros Ht Hc. pose proof (child_parent_lt _ _ _ _ _ Ht Hc). pose proof (child_of_lt _ _ _ Hc) as Hj.
  rewrite <- (tw_len _ _ _ Ht) in Hj. apply lookup_lt_is_Some_2 in Hj as [o Ho].
  exists o. split; [done |]. intros Hopen. apply (tw_open _ _ _ Ht _ _ Ho) in Hopen.
  apply on_stack_cons in Hopen as [? | Hs]; [lia |].
  pose proof (on_stack_below _ _ _ _ _ Ht Hs). lia.
Qed.

(** Expanding the next action of the top frame keeps the record of what was
    tried; [f0] is the frame before the action index moved on. *)
Lemma explored_expand cs f0 f fs outs c a :
  tree_wf cs (f0 :: fs) outs -> explored cs (f0 :: fs) outs ->
  DfsFrame.nodeIndex f = DfsFrame.nodeIndex f0 ->
  DfsFrame.actionOrdering f = DfsFrame.actionOrdering f0 ->
  0 <= DfsFrame.nextActionIndex f0 -> DfsFrame.nextActionIndex f = DfsFrame.nextActionIndex f0 + 1 ->
  SmbSearchActionOrdering.actions (DfsFrame.actionOrdering f0) !! Z.to_nat (DfsFrame.nextActionIndex f0) = Some a ->
  c_parent c = Some (DfsFrame.nodeIndex f0) -> c_action c = Some a ->
  forall g, g ∈ f :: fs -> children_actions (cs ++ [c]) (DfsFrame.nodeIndex g) =
    take (Z.to_nat (DfsFrame.nextActionIndex g)) (SmbSearchActionOrdering.actions (DfsFrame.actionOrdering g)).
Proof.
  intros Ht Hex Hi Ho Hn0 Hn Ha Hp Hc g [-> | Hg]%elem_of_cons.
  - rewrite Hi, Ho, Hn, children_snoc, bool_decide_eq_true_2, Hc by done.
    rewrite (proj1 Hex f0) by (by left). replace (Z.to_nat (_ + 1)) with (S (Z.to_nat (DfsFrame.nextActionIndex f0))) by lia.
    by rewrite (take_S_r _ _ a).
  - by eapply append_explored_other.
Qed.

Lemma explored_prune cs f0 f fs outs c a o r :
  tree_wf cs (f0 :: fs) outs -> explored cs (f0 :: fs) outs ->
  DfsFrame.nodeIndex f = DfsFrame.nodeIndex f0 ->
  DfsFrame.actionOrdering f = DfsFrame.actionOrdering f0 ->
  0 <= DfsFrame.nextActionIndex f0 -> DfsFrame.nextActionIndex f = DfsFrame.nextActionIndex f0 + 1 ->
  SmbSearchActionOrdering.actions (DfsFrame.actionOrdering f0) !! Z.to_nat (DfsFrame.nextActionIndex f0) = Some a ->
  c_parent c = Some (DfsFrame.nodeIndex f0) -> c_action c = Some a ->
  explored (cs ++ [c]) (SmbDfsSearch.noteChildOutcome o r f :: fs) (outs ++ [o]).
Proof.
  intros Ht Hex Hi Ho Hn0 Hn Ha Hp Hc. pose proof (tw_len _ _ _ Ht) as Hlen. split.
  - intros g Hg. assert (exists g', g' ∈ f :: fs /\ DfsFrame.nodeIndex g' = DfsFrame.nodeIndex g /\
      DfsFrame.nextActionIndex g' = DfsFrame.nextActionIndex g /\
      DfsFrame.actionOrdering g' = DfsFrame.actionOrdering g) as (g' & Hg' & <- & <- & <-).
    { apply elem_of_cons in Hg as [-> | Hg]; [exists f | exists g]; [| by repeat split; [right |..]].
      unfold SmbDfsSearch.noteChildOutcome. split; [by left |]. by case_bool_decide. }
    by eapply explored_expand.
  - intros i o' [Hl | [Hle Hl]]%lookup_app_Some Hne.
    + by eapply append_explored_closed.
    + apply list_lookup_singleton_Some in Hl as [Hl _]. left.
      replace i with (length cs) by lia. by eapply append_leaf_children.
Qed.

Lemma explored_push cs f0 f fs outs c a fN :
  tree_wf cs (f0 :: fs) outs -> explored cs (f0 :: fs) outs ->
  DfsFrame.nodeIndex f = DfsFrame.nodeIndex f0 ->
  DfsFrame.actionOrdering f = DfsFrame.actionOrdering f0 ->
  0 <= DfsFrame.nextActionIndex f0 -> DfsFrame.nextActionIndex f = DfsFrame.nextActionIndex f0 + 1 ->
  SmbSearchActionOrdering.actions (DfsFrame.actionOrdering f0) !! Z.to_nat (DfsFrame.nextActionIndex f0) = Some a ->
  c_parent c = Some (DfsFrame.nodeIndex f0) -> c_action c = Some a -> fresh_frame cs fN ->
  explored (cs ++ [c]) (fN :: f :: fs) (outs ++ [SmbSearchNodeOutcome.Open]).
Proof.
  intros Ht Hex Hi Ho Hn0 Hn Ha Hp Hc (HiN & HnN & _). pose proof (tw_len _ _ _ Ht) as Hlen. split.
  - intros g [-> | Hg]%elem_of_cons; [| by eapply explored_expand].
    rewrite HiN, HnN. by eapply append_leaf_children.
  - intros i o' [Hl | [Hle Hl]]%lookup_app_Some Hne.
    + by eapply append_explored_closed.
    + apply list_lookup_singleton_Some in Hl as [Hl <-]. done.
Qed.

(** Popping an exhausted node. *)
Section Pop.
Context (cs : list core) (f : DfsFrame.t) (fs : list DfsFrame.t) (outs : list SmbSearchNodeOutcome.t).
Context (Ht : tree_wf cs (f :: fs) outs).

Definition top_index : nat := Z.to_nat (DfsFrame.nodeIndex f).
Definition top_outcome : SmbSearchNodeOutcome.t :=
  if DfsFrame.closedLossCandidate f then SmbSearchNodeOutcome.ClosedLoss
  else SmbSearchNodeOutcome.NotClosedLoss.
Definition popped_outs : list SmbSearchNodeOutcome.t := <[top_index := top_outcome]> outs.

Lemma top_index_lt : (top_index < length outs)%nat.
Proof.
  destruct (stack_wf_frame _ _ f (tw_stack _ _ _ Ht) ltac:(by left)) as ([? ?] & _).
  rewrite (tw_len _ _ _ Ht). unfold top_index. lia.
Qed.

Lemma top_index_Z : Z.of_nat top_index = DfsFrame.nodeIndex f.
Proof.
  destruct (stack_wf_frame _ _ f (tw_stack _ _ _ Ht) ltac:(by left)) as ([? ?] & _).
  unfold top_index. lia.
Qed.

Lemma popped_lookup i o :
  popped_outs !! i = Some o ->
  (i = top_index /\ o = top_outcome) \/ (i <> top_index /\ outs !! i = Some o).
Proof.
  unfold popped_outs. destruct (decide (i = top_index)) as [-> | Hi].
  - rewrite list_lookup_insert_eq by apply top_index_lt. intros. left. by simplify_eq.
  - rewrite list_lookup_insert_ne by done. by right.
Qed.

Lemma popped_old i o : i <> top_index -> outs !! i = Some o -> popped_outs !! i = Some o.
Proof. intros Hi Ho. unfold popped_outs. by rewrite list_lookup_insert_ne. Qed.

Lemma popped_top : popped_outs !! top_index = Some top_outcome.
Proof. apply list_lookup_insert_eq, top_index_lt. Qed.

Lemma top_open : outs !! top_index = Some SmbSearchNodeOutcome.Open.
Proof. apply (on_stack_open _ _ _ f Ht). by left. Qed.

(** What escapes after the pop: the popped node itself may. *)
Lemma popped_escapes i :
  escapes cs popped_outs i <->
  escapes cs outs i \/ (child_of cs i top_index /\ DfsFrame.closedLossCandidate f = false).
Proof.
  split.
  - intros (j & Hc & [[-> Ho] | [Hj Ho]]%popped_lookup).
    + right. split; [done |]. unfold top_outcome in Ho. by destruct (DfsFrame.closedLossCandidate f).
    + left. by exists j.
  - intros [(j & Hc & Ho) | [Hc Hf]].
    + exists j. split; [done |]. apply popped_old; [| done]. intros ->. rewrite top_open in Ho. done.
    + exists top_index. split; [done |]. rewrite popped_top. unfold top_outcome. by rewrite Hf.
Qed.

Lemma pop_closed i j :
  popped_outs !! i = Some SmbSearchNodeOutcome.ClosedLoss -> child_of cs (Z.of_nat i) j ->
  popped_outs !! j = Some SmbSearchNodeOutcome.ClosedLoss.
Proof.
  intros Hi Hc. pose proof (child_parent_lt _ _ _ _ _ Ht Hc) as Hlt.
  apply popped_lookup in Hi as [[-> Ho] | [Hi Ho]].
  - apply popped_old; [lia |]. rewrite top_index_Z in Hc.
    destruct (top_children_closed _ _ _ _ _ Ht Hc) as (o & Hjo & Hne). rewrite Hjo. f_equal.
    destruct o; [done | done |]. exfalso.
    unfold top_outcome in Ho. destruct (DfsFrame.closedLossCandidate f) eqn:E; [| done].
    pose proof (tw_frame _ _ _ Ht f ltac:(by left)) as [_ Hf].
    rewrite E in Hf. discriminate Hf. by exists j.
  - destruct (decide (j = top_index)) as [-> | Hj].
    + pose proof (tw_closed _ _ _ Ht _ _ Ho Hc). rewrite top_open in *. done.
    + apply popped_old; [done |]. by eapply (tw_closed _ _ _ Ht).
Qed.

Lemma pop_notclosed i :
  popped_outs !! i = Some SmbSearchNodeOutcome.NotClosedLoss ->
  escapes cs popped_outs (Z.of_nat i) \/ children_actions cs (Z.of_nat i) = [].
Proof.
  intros [[-> Ho] | [Hi Ho]]%popped_lookup.
  - left. apply popped_escapes. left. rewrite top_index_Z.
    unfold top_outcome in Ho. destruct (DfsFrame.closedLossCandidate f) eqn:E; [done |].
    by apply (tw_frame _ _ _ Ht f ltac:(by left)).
  - destruct (tw_notclosed _ _ _ Ht i Ho) as [He | Hn]; [left; apply popped_escapes; by left | by right].
Qed.

Lemma pop_open i o :
  popped_outs !! i = Some o -> (o = SmbSearchNodeOutcome.Open <-> on_stack fs i).
Proof.
  intros [[-> ->] | [Hi Ho]]%popped_lookup.
  - split; [unfold top_outcome; by destruct (DfsFrame.closedLossCandidate f) |].
    intros Hs. pose proof (on_stack_below _ _ _ _ _ Ht Hs) as Hlt. rewrite top_index_Z in Hlt. lia.
  - rewrite (tw_open _ _ _ Ht _ _ Ho), on_stack_cons. rewrite <- top_index_Z.
    split; [intros [? | ?]; [lia | done] | by right].
Qed.

Lemma pop_frame g :
  g ∈ fs -> (forall h hs, fs = h :: hs -> g ∈ hs) ->
  (DfsFrame.closedLossCandidate g = false <-> escapes cs popped_outs (DfsFrame.nodeIndex g)).
Proof.
  intros Hg Hother. rewrite (tw_frame _ _ _ Ht g) by (by right). rewrite popped_escapes.
  split; [by left |]. intros [? | [Hc _]]; [done |].
  pose proof (tw_stack _ _ _ Ht) as Hs. inversion Hs as [| | ? h hs Hf Hch Hs']; subst.
  - by apply elem_of_nil in Hg.
  - specialize (Hother h hs eq_refl). destruct Hc as (d & Hd & Hpd), Hch as (d' & Hd' & Hpd').
    fold top_index in Hd'. simplify_eq. pose proof (stack_wf_below _ _ _ _ _ _ Ht Hs' Hother). lia.
Qed.

Lemma tree_pop_empty : fs = [] -> tree_wf cs [] popped_outs.
Proof.
  intros Hfs. split.
  - unfold popped_outs. rewrite length_insert. apply (tw_len _ _ _ Ht).
  - apply (tw_root _ _ _ Ht).
  - apply (tw_links _ _ _ Ht).
  - constructor.
  - rewrite <- Hfs. apply pop_open.
  - apply pop_closed.
  - apply pop_notclosed.
  - by intros g ?%elem_of_nil.
Qed.

Lemma tree_pop g gs r :
  fs = g :: gs -> tree_wf cs (SmbDfsSearch.noteChildOutcome top_outcome r g :: gs) popped_outs.
Proof.
  intros Hfs. set (g' := SmbDfsSearch.noteChildOutcome top_outcome r g).
  pose proof (tw_stack _ _ _ Ht) as Hs. rewrite Hfs in Hs.
  assert (DfsFrame.nodeIndex g' = DfsFrame.nodeIndex g) as Hi
    by (unfold g', SmbDfsSearch.noteChildOutcome; by case_bool_decide).
  assert (child_of cs (DfsFrame.nodeIndex g) top_index) as Hch by (by inversion Hs).
  split.
  - unfold popped_outs. rewrite length_insert. apply (tw_len _ _ _ Ht).
  - apply (tw_root _ _ _ Ht).
  - apply (tw_links _ _ _ Ht).
  - eapply stack_wf_top; [by eapply stack_wf_tail | done |].
    pose proof (stack_wf_frame _ _ g Hs ltac:(right; by left)).
    unfold g', SmbDfsSearch.noteChildOutcome. by case_bool_decide.
  - intros i o Ho. rewrite (on_stack_top g) by done. rewrite <- Hfs. by apply pop_open.
  - apply pop_closed.
  - apply pop_notclosed.
  - intros k [-> | Hk]%elem_of_cons.
    + rewrite Hi, popped_escapes. pose proof (tw_frame _ _ _ Ht g ltac:(rewrite Hfs; right; by left)) as Hg.
      unfold g', SmbDfsSearch.noteChildOutcome, top_outcome. destruct (DfsFrame.closedLossCandidate f).
      * cbn. rewrite Hg. split; [by left | by intros [? | [_ ?]]].
      * cbn. split; [| done]. intros _. by right.
    + apply pop_frame; [rewrite Hfs; by right |]. intros h hs Hh. rewrite Hfs in Hh. by simplify_eq.
Qed.

Lemma explored_pop :
  explored cs (f :: fs) outs ->
  DfsFrame.nextActionIndex f = SmbSearchActionOrdering.count (DfsFrame.actionOrdering f) ->
  explored cs fs popped_outs.
Proof.
  intros [Hst Hcl] Hn. split; [intros g Hg; apply Hst; by right |].
  intros i o [[-> ->] | [Hi Ho]]%popped_lookup Hne; [| by eapply Hcl].
  right. exists (DfsFrame.actionOrdering f). rewrite top_index_Z. split.
  - by destruct (stack_wf_frame _ _ f (tw_stack _ _ _ Ht) ltac:(by left)) as (_ & _ & ?).
  - rewrite (Hst f) by (by left). unfold offered. by rewrite Hn.
Qed.
End Pop.
End TreeFacts.
