(* ===== verification/SmbDfsFacts.v ===== *)
(** The invariant of the depth-first search and its preservation by every
    operation: [tick] (with its expansions, prunings and backtracks), [pauseSet],
    [stop] and the two ways of starting. *)

From Stdlib Require Import ZArith Lia Bool String.
From stdpp Require Import base gmap option numbers list.
From S2P Require Import Prelude Ieee NesTypes SmbEvaluator SmbRam SmbAdapter.
From S2P Require Import SmbSearchCore SmbDfsSearch SmbDfsTree.

Set Default Goal Selector "!".

(** ** The transposition tables *)
Section Tables.
Implicit Types (P : nat -> ClosedLossTranspositionKey.t -> ClosedLossTranspositionEntry.t -> Prop).
Implicit Types (tb : gmap ClosedLossTranspositionKey.t ClosedLossTranspositionEntry.t)
  (sh : gmap ClosedLossTranspositionShapeKey.t ClosedLossTranspositionShapeEntry.t).

(** With [P i k e]: node [i] is a proven loss with key [k] and entry [e].  Every
    entry of the two tables is that of a proven loss, and none with the key (the
    shape) is better. *)
Record tables_wf P tb sh : Prop := mkTablesWf {
  tb_sound : forall k e, tb !! k = Some e -> exists i, P i k e;
  tb_best : forall i k e, P i k e -> exists e', tb !! k = Some e' /\ SmbDfsSearch.better e e' = false;
  sh_sound : forall sk se, sh !! sk = Some se -> exists i k,
    P i k (ClosedLossTranspositionShapeEntry.proof se) /\
    sk = SmbDfsSearch.buildClosedLossTranspositionShapeKey k /\
    ClosedLossTranspositionShapeEntry.ramBytes se = ClosedLossTranspositionKey.ramBytes k;
  sh_best : forall i k e, P i k e -> exists se,
    sh !! SmbDfsSearch.buildClosedLossTranspositionShapeKey k = Some se /\
    SmbDfsSearch.better e (ClosedLossTranspositionShapeEntry.proof se) = false
}.

Lemma tables_wf_equiv P Q tb sh :
  (forall i k e, P i k e <-> Q i k e) -> tables_wf P tb sh -> tables_wf Q tb sh.
Proof.
  intros H [H1 H2 H3 H4]. split.
  - intros k e Hk. destruct (H1 k e Hk) as [i Hi]. exists i. by apply H.
  - intros i k e Hi. by apply (H2 i), H.
  - intros sk se Hk. destruct (H3 sk se Hk) as (i & k & Hi & Hr). exists i, k. split; [by apply H | done].
  - intros i k e Hi. by apply (H4 i), H.
Qed.

(** The order of entries is lexicographic, so it is total and transitive. *)
Ltac entry_order :=
  unfold SmbDfsSearch.better in *;
  repeat match goal with
  | H : _ = true |- _ => rewrite !orb_true_iff, !andb_true_iff, ?Z.ltb_lt, ?Z.eqb_eq in H
  | H : _ = false |- _ => rewrite !orb_false_iff, !andb_false_iff, ?Z.ltb_ge, ?Z.eqb_neq in H
  | |- _ = false => rewrite !orb_false_iff, !andb_false_iff, ?Z.ltb_ge, ?Z.eqb_neq
  end; lia.

Lemma better_irrefl e : SmbDfsSearch.better e e = false.
Proof. entry_order. Qed.

Lemma better_worse e e' x :
  SmbDfsSearch.better e e' = true -> SmbDfsSearch.better x e' = false -> SmbDfsSearch.better x e = false.
Proof. intros. entry_order. Qed.

(** Publishing one more proven loss. *)
Definition published P i0 k0 e0 : nat -> ClosedLossTranspositionKey.t -> ClosedLossTranspositionEntry.t -> Prop :=
  fun i k e => P i k e \/ (i = i0 /\ k = k0 /\ e = e0).

Definition publish_table (k0 : ClosedLossTranspositionKey.t) (e0 : ClosedLossTranspositionEntry.t) tb :=
  match tb !! k0 with
  | None => <[k0 := e0]> tb
  | Some existing => if SmbDfsSearch.better e0 existing then <[k0 := e0]> tb else tb
  end.
Definition publish_shapes (k0 : ClosedLossTranspositionKey.t) (e0 : ClosedLossTranspositionEntry.t) sh :=
  let sk := SmbDfsSearch.buildClosedLossTranspositionShapeKey k0 in
  let se := ClosedLossTranspositionShapeEntry.mk e0 (ClosedLossTranspositionKey.ramBytes k0) in
  match sh !! sk with
  | None => <[sk := se]> sh
  | Some existing =>
      if SmbDfsSearch.better e0 (ClosedLossTranspositionShapeEntry.proof existing)
      then <[sk := se]> sh else sh
  end.

Lemma publish_table_lookup tb k0 e0 k :
  publish_table k0 e0 tb !! k = tb !! k \/ (k = k0 /\ publish_table k0 e0 tb !! k = Some e0).
Proof.
  unfold publish_table. destruct (tb !! k0) as [ex |]; [destruct (SmbDfsSearch.better e0 ex) |];
    try (by left); (destruct (decide (k = k0)) as [-> | Hk];
      [right; by rewrite lookup_insert_eq | left; by rewrite lookup_insert_ne]).
Qed.

Lemma publish_table_best tb k0 e0 k e :
  tb !! k = Some e ->
  exists e', publish_table k0 e0 tb !! k = Some e' /\
    (forall x, SmbDfsSearch.better x e = false -> SmbDfsSearch.better x e' = false).
Proof.
  intros Hk. unfold publish_table. destruct (decide (k = k0)) as [-> | Hne].
  - rewrite Hk. destruct (SmbDfsSearch.better e0 e) eqn:E.
    + exists e0. rewrite lookup_insert_eq. split; [done |]. intros x. by apply better_worse.
    + by exists e.
  - exists e. split; [| done]. destruct (tb !! k0) as [ex |]; [destruct (SmbDfsSearch.better e0 ex) |];
      by rewrite ?lookup_insert_ne.
Qed.

Lemma publish_table_new tb k0 e0 :
  exists e', publish_table k0 e0 tb !! k0 = Some e' /\ SmbDfsSearch.better e0 e' = false.
Proof.
  unfold publish_table. destruct (tb !! k0) as [ex |] eqn:E; [destruct (SmbDfsSearch.better e0 ex) eqn:B |].
  - exists e0. rewrite lookup_insert_eq. split; [done | apply better_irrefl].
  - by exists ex.
  - exists e0. rewrite lookup_insert_eq. split; [done | apply better_irrefl].
Qed.

Lemma publish_shapes_lookup sh k0 e0 sk :
  publish_shapes k0 e0 sh !! sk = sh !! sk \/
  (sk = SmbDfsSearch.buildClosedLossTranspositionShapeKey k0 /\
   publish_shapes k0 e0 sh !! sk =
     Some (ClosedLossTranspositionShapeEntry.mk e0 (ClosedLossTranspositionKey.ramBytes k0))).
Proof.
  unfold publish_shapes. cbv zeta. set (s0 := SmbDfsSearch.buildClosedLossTranspositionShapeKey k0).
  destruct (sh !! s0) as [ex |]; [destruct (SmbDfsSearch.better e0 _) |];
    try (by left); (destruct (decide (sk = s0)) as [-> | Hk];
      [right; by rewrite lookup_insert_eq | left; by rewrite lookup_insert_ne]).
Qed.

Lemma publish_shapes_best sh k0 e0 sk se :
  sh !! sk = Some se ->
  exists se', publish_shapes k0 e0 sh !! sk = Some se' /\
    (forall x, SmbDfsSearch.better x (ClosedLossTranspositionShapeEntry.proof se) = false ->
               SmbDfsSearch.better x (ClosedLossTranspositionShapeEntry.proof se') = false).
Proof.
  intros Hk. unfold publish_shapes. cbv zeta. set (s0 := SmbDfsSearch.buildClosedLossTranspositionShapeKey k0).
  destruct (decide (sk = s0)) as [-> | Hne].
  - rewrite Hk. destruct (SmbDfsSearch.better e0 _) eqn:E.
    + eexists. rewrite lookup_insert_eq. split; [done |]. intros x. by apply better_worse.
    + by exists se.
  - exists se. split; [| done]. destruct (sh !! s0) as [ex |]; [destruct (SmbDfsSearch.better e0 _) |];
      by rewrite ?lookup_insert_ne.
Qed.

Lemma publish_shapes_new sh k0 e0 :
  exists se, publish_shapes k0 e0 sh !! SmbDfsSearch.buildClosedLossTranspositionShapeKey k0 = Some se /\
    SmbDfsSearch.better e0 (ClosedLossTranspositionShapeEntry.proof se) = false.
Proof.
  unfold publish_shapes. cbv zeta. destruct (sh !! _) as [ex |] eqn:E; [destruct (SmbDfsSearch.better e0 _) eqn:B |].
  - eexists. rewrite lookup_insert_eq. split; [done | apply better_irrefl].
  - by exists ex.
  - eexists. rewrite lookup_insert_eq. split; [done | apply better_irrefl].
Qed.

Lemma tables_publish P tb sh i0 k0 e0 :
  tables_wf P tb sh ->
  tables_wf (published P i0 k0 e0) (publish_table k0 e0 tb) (publish_shapes k0 e0 sh).
Proof.
  intros [H1 H2 H3 H4]. split.
  - intros k e Hk. destruct (publish_table_lookup tb k0 e0 k) as [E | [-> E]]; rewrite E in Hk.
    + destruct (H1 k e Hk) as [i Hi]. exists i. by left.
    + simplify_eq. exists i0. by right.
  - intros i k e [Hi | (-> & -> & ->)]; [| apply publish_table_new].
    destruct (H2 i k e Hi) as (e1 & Hk & Hb).
    destruct (publish_table_best tb k0 e0 k e1 Hk) as (e' & He' & Hx). exists e'. split; [done | by apply Hx].
  - intros sk se Hk. destruct (publish_shapes_lookup sh k0 e0 sk) as [E | [-> E]]; rewrite E in Hk.
    + destruct (H3 sk se Hk) as (i & k & Hi & Hr). exists i, k. split; [by left | done].
    + simplify_eq. exists i0, k0. split; [by right | done].
  - intros i k e [Hi | (-> & -> & ->)]; [| apply publish_shapes_new].
    destruct (H4 i k e Hi) as (e1 & Hk & Hb).
    destruct (publish_shapes_best sh k0 e0 _ e1 Hk) as (e' & He' & Hx). exists e'. split; [done | by apply Hx].
Qed.
End Tables.
