(* ===== verification/SmbDfsInvariant.v ===== *)
(** The invariant of the depth-first search over its whole state: the tree, the
    transposition tables, the best plan and the counters; and what each move of
    the search does to it. *)

From Stdlib Require Import ZArith Lia Bool String.
From stdpp Require Import base gmap option numbers list.
From S2P Require Import Prelude Ieee NesTypes SmbEvaluator SmbRam SmbAdapter.
From S2P Require Import SmbSearchCore SmbDfsSearch SmbDfsTree SmbDfsFacts.

Set Default Goal Selector "!".

Section Invariant.
Context {D : Type} `{HD : NesDriver D}.
Import SmbDfsSearch.
Implicit Types (s : t D) (nodes : list SmbSearchNode.t).

Definition cores nodes : list core := map core_of nodes.
Definition frontier_of (c : core) : Z := SmbSearchEvaluatorSummary.bestFrontier (c_summary c).
Definition entry_of (c : core) : ClosedLossTranspositionEntry.t :=
  ClosedLossTranspositionEntry.mk (frontier_of c)
    (SmbSearchEvaluatorSummary.gameplayFramesSinceProgress (c_summary c))
    (SmbSearchEvaluatorSummary.gameplayFrames (c_summary c)).

(** Node [i] is a proven loss with a transposition key. *)
Definition proven (cs : list core) (keys : list (option ClosedLossTranspositionKey.t))
    (outs : list SmbSearchNodeOutcome.t) (i : nat) (k : ClosedLossTranspositionKey.t)
    (e : ClosedLossTranspositionEntry.t) : Prop :=
  exists c, cs !! i = Some c /\ keys !! i = Some (Some k) /\
    outs !! i = Some SmbSearchNodeOutcome.ClosedLoss /\ e = entry_of c.

(** Why node [i] was closed without being expanded.  A leaf that is not a loss
    is one the game left gameplay in without ending the episode; a lost one ended
    the episode, or is in gameplay and either was stuck for two frames in a row,
    or went the stall limit without progress, or has the key of an earlier node
    that is a proven loss and dominates it. *)
Definition pruned_as (options : SmbDfsSearchOptions.t)
    (loss : nat -> ClosedLossTranspositionKey.t -> ClosedLossTranspositionEntry.t -> Prop)
    (i : nat) (key : option ClosedLossTranspositionKey.t) (c : core) (o : SmbSearchNodeOutcome.t) : Prop :=
  let summary := c_summary c in
  match o with
  | SmbSearchNodeOutcome.Open => False
  | SmbSearchNodeOutcome.NotClosedLoss =>
      SmbSearchEvaluatorSummary.terminal summary = false /\
      SmbSearchEvaluatorSummary.gameState summary <> Some 1
  | SmbSearchNodeOutcome.ClosedLoss =>
      SmbSearchEvaluatorSummary.terminal summary = true \/
      SmbSearchEvaluatorSummary.gameState summary = Some 1 /\
      (kVelocityPruneConsecutiveFrameThreshold <= c_stuck c \/
       SmbDfsSearchOptions.stallFrameLimit options
         <= SmbSearchEvaluatorSummary.gameplayFramesSinceProgress summary \/
       exists j k e, (j < i)%nat /\ key = Some k /\ loss j k e /\ dominates e summary = true)
  end.

(** All the actions its ordering offered have been tried on node [i]. *)
Definition exhausted (cs : list core) (i : nat) : Prop :=
  exists ord, valid_ordering ord /\ children_actions cs (Z.of_nat i) = offered ord.

Definition closed_ok (options : SmbDfsSearchOptions.t) (cs : list core)
    (keys : list (option ClosedLossTranspositionKey.t)) (outs : list SmbSearchNodeOutcome.t)
    (i : nat) (o : SmbSearchNodeOutcome.t) : Prop :=
  exhausted cs i \/
  children_actions cs (Z.of_nat i) = [] /\ exists c key, cs !! i = Some c /\ keys !! i = Some key /\
    pruned_as options (proven cs keys outs) i key c o.

(** Node [i] was alive: it is open or has been expanded. *)
Definition was_alive (cs : list core) (stack : list DfsFrame.t) (i : nat) : Prop :=
  on_stack stack i \/ exists j, child_of cs (Z.of_nat i) j.

Definition frames_of (acts : list SmbSearchLegalAction.t) : list PlayerControlFrame :=
  map SmbSearchCore.smbSearchLegalActionToPlayerControlFrame acts.

(** The plan is the prefix followed by the path to the best leaf. *)
Definition plan_good nodes (leaf : option Z) (frontier : Z) (score : f64)
    (rootPrefix : list PlayerControlFrame) (plan : Plan) (progressFrontier : Z) : Prop :=
  exists b c acts, leaf = Some b /\ 0 <= b /\ cores nodes !! Z.to_nat b = Some c /\
    plan_path nodes b acts /\ frontier = frontier_of c /\
    score = SmbSearchEvaluatorSummary.evaluationScore (c_summary c) /\
    progressFrontier = frontier /\
    plan = mkPlan (mkPlanSummary frontier (Z.of_nat (length (rootPrefix ++ frames_of acts))))
             (rootPrefix ++ frames_of acts).

Definition options_wf (o : SmbDfsSearchOptions.t) : Prop :=
  0 <= SmbDfsSearchOptions.maxSearchedNodeCount o < 2 ^ 64.

Record running s : Prop := mkRunning {
  rn_options : options_wf (options_ s);
  rn_tree : tree_wf (cores (nodes_ s)) (dfsStack_ s) (nodeOutcomes_ s);
  rn_reasons : length (closedLossBlockReasons_ s) = length (nodes_ s);
  rn_keys : length (closedLossTranspositionKeys_ s) = length (nodes_ s);
  rn_tables : tables_wf (proven (cores (nodes_ s)) (closedLossTranspositionKeys_ s) (nodeOutcomes_ s))
                (closedLossTranspositionTable_ s) (closedLossTranspositionShapeTable_ s);
  rn_plan : plan_good (nodes_ s) (bestLeafIndex_ s) (bestFrontier_ s) (bestScore_ s)
              (rootPrefixFrames_ s) (plan_ s) (SearchProgress.bestFrontier (progress_ s));
  rn_best : forall i c, cores (nodes_ s) !! i = Some c ->
    was_alive (cores (nodes_ s)) (dfsStack_ s) i -> frontier_of c <= bestFrontier_ s;
  rn_count : SearchProgress.searchedNodeCount (progress_ s) = u64 (nodeCount s - 1);
  rn_budget : 0 < SmbDfsSearchOptions.maxSearchedNodeCount (options_ s) ->
    nodeCount s - 1 <= SmbDfsSearchOptions.maxSearchedNodeCount (options_ s);
  rn_closed : forall i o, nodeOutcomes_ s !! i = Some o -> o <> SmbSearchNodeOutcome.Open ->
    closed_ok (options_ s) (cores (nodes_ s)) (closedLossTranspositionKeys_ s) (nodeOutcomes_ s) i o
}.

(** Nothing has been searched yet. *)
Record idle s : Prop := mkIdle {
  id_options : options_wf (options_ s);
  id_nodes : nodes_ s = [];
  id_stack : dfsStack_ s = [];
  id_outcomes : nodeOutcomes_ s = [];
  id_reasons : closedLossBlockReasons_ s = [];
  id_keys : closedLossTranspositionKeys_ s = [];
  id_table : closedLossTranspositionTable_ s = ∅;
  id_shapes : closedLossTranspositionShapeTable_ s = ∅;
  id_leaf : bestLeafIndex_ s = None;
  id_frontier : bestFrontier_ s = 0
}.

Definition all_explored s : Prop :=
  explored (cores (nodes_ s)) (dfsStack_ s) (nodeOutcomes_ s).

Definition inv s : Prop :=
  (completed_ s = true <-> is_Some (completionReason_ s)) /\
  (idle s \/ (running s /\ (completionReason_ s = Some CompletionReason.Error \/ all_explored s))).

(** The two states agree on everything the invariant speaks of. *)
Record same_search s s' : Prop := mkSame {
  sm_options : options_ s' = options_ s;
  sm_plan : plan_ s' = plan_ s;
  sm_prefix : rootPrefixFrames_ s' = rootPrefixFrames_ s;
  sm_nodes : nodes_ s' = nodes_ s;
  sm_stack : dfsStack_ s' = dfsStack_ s;
  sm_outcomes : nodeOutcomes_ s' = nodeOutcomes_ s;
  sm_reasons : closedLossBlockReasons_ s' = closedLossBlockReasons_ s;
  sm_keys : closedLossTranspositionKeys_ s' = closedLossTranspositionKeys_ s;
  sm_table : closedLossTranspositionTable_ s' = closedLossTranspositionTable_ s;
  sm_shapes : closedLossTranspositionShapeTable_ s' = closedLossTranspositionShapeTable_ s;
  sm_leaf : bestLeafIndex_ s' = bestLeafIndex_ s;
  sm_frontier : bestFrontier_ s' = bestFrontier_ s;
  sm_score : bestScore_ s' = bestScore_ s;
  sm_pfrontier : SearchProgress.bestFrontier (progress_ s') = SearchProgress.bestFrontier (progress_ s);
  sm_count : SearchProgress.searchedNodeCount (progress_ s') = SearchProgress.searchedNodeCount (progress_ s)
}.

Lemma running_same s s' : same_search s s' -> running s -> running s'.
Proof.
  intros [] []. split; unfold nodeCount in *;
    repeat match goal with E : _ = _ |- _ => rewrite E; clear E end; done.
Qed.

Lemma idle_same s s' : same_search s s' -> idle s -> idle s'.
Proof. intros [] []. split; congruence. Qed.

Lemma all_explored_same s s' : same_search s s' -> all_explored s -> all_explored s'.
Proof.
  intros [] ?. unfold all_explored.
  repeat match goal with E : _ = _ |- _ => rewrite E; clear E end; done.
Qed.

Lemma same_trans s1 s2 s3 : same_search s1 s2 -> same_search s2 s3 -> same_search s1 s3.
Proof. intros [] []. split; congruence. Qed.

Lemma same_complete ev c p r e entry s :
  same_search s (recordTrace entry (set_completion c p r e (set_progress_
    (SearchProgress.set_lastSearchEvent ev (SearchProgress.set_paused false (progress_ s))) s))).
Proof. by split. Qed.

Lemma same_render node s : same_search s (updateRenderableState node s).
Proof. unfold updateRenderableState. by destruct (SmbSearchNode.scenarioVideoFrame node). Qed.

Lemma cores_length nodes : length (cores nodes) = length nodes.
Proof. apply length_map. Qed.

Lemma cores_app nodes ns : cores (nodes ++ ns) = cores nodes ++ cores ns.
Proof. apply map_app. Qed.

Lemma cores_lookup nodes i : cores nodes !! i = core_of <$> nodes !! i.
Proof. apply list_lookup_fmap. Qed.

Lemma parents_wf_tree nodes stack outs : tree_wf (cores nodes) stack outs -> parents_wf nodes.
Proof.
  intros Ht i n p Hn Hp. apply (child_parent_lt _ _ _ _ _ Ht).
  exists (core_of n). rewrite cores_lookup, Hn. done.
Qed.

(** Paths only grow with the nodes. *)
Lemma plan_path_cores nodes nodes' i acts :
  cores nodes `prefix_of` cores nodes' -> plan_path nodes i acts -> plan_path nodes' i acts.
Proof.
  intros Hpre Hp.
  assert (forall j n, nodes !! j = Some n -> exists n', nodes' !! j = Some n' /\
    SmbSearchNode.parentIndex n' = SmbSearchNode.parentIndex n /\
    SmbSearchNode.actionFromParent n' = SmbSearchNode.actionFromParent n) as H.
  { intros j n Hn. assert (cores nodes !! j = Some (core_of n)) as Hc by (by rewrite cores_lookup, Hn).
    apply (prefix_lookup_Some _ _ _ _ Hc) in Hpre. rewrite cores_lookup in Hpre.
    destruct (nodes' !! j) as [n' |]; [| done]. exists n'. injection Hpre as ????. done. }
  induction Hp as [i n Hi Hn Hpn | i n p acts Hi Hn Hpn _ IH]; destruct (H _ _ Hn) as (n' & Hn' & El & Ea);
    rewrite <- Ea.
  - apply path_root; [done | done | by rewrite El].
  - eapply path_child; [done | done | by rewrite El | done].
Qed.

Lemma plan_good_extend nodes nodes' leaf fr sc pre plan pf :
  cores nodes `prefix_of` cores nodes' ->
  plan_good nodes leaf fr sc pre plan pf -> plan_good nodes' leaf fr sc pre plan pf.
Proof.
  intros Hpre (b & c & acts & Hl & Hb & Hc & Hp & H). exists b, c, acts.
  split; [done |]. split; [done |]. split; [by eapply prefix_lookup_Some |].
  split; [by eapply plan_path_cores | done].
Qed.

(** Rebuilding the plan of a leaf. *)
Lemma rebuildBestPlan_leaf b acts s :
  bestLeafIndex_ s = Some b -> b < nodeCount s -> parents_wf (nodes_ s) -> plan_path (nodes_ s) b acts ->
  rebuildBestPlan s = Ok (set_plan_ (mkPlan
    (mkPlanSummary (bestFrontier_ s) (Z.of_nat (length (rootPrefixFrames_ s ++ frames_of acts))))
    (rootPrefixFrames_ s ++ frames_of acts)) s).
Proof.
  intros Hb Hlt Hwf Hp. unfold rebuildBestPlan. rewrite Hb.
  by rewrite (reconstructPlanFrames_ok _ _ _ Hwf Hp) by done.
Qed.

Lemma rebuild_running s : running s -> rebuildBestPlan s = Ok s.
Proof.
  intros []. destruct rn_plan0 as (b & c & acts & Hl & Hb & Hc & Hp & Hf & Hs & Hpf & Hplan).
  rewrite (rebuildBestPlan_leaf b acts); [| done | | by eapply parents_wf_tree | done].
  - rewrite <- Hplan. by destruct s.
  - unfold nodeCount. apply lookup_lt_Some in Hc. rewrite cores_length in Hc. lia.
Qed.

Lemma rebuild_idle s : idle s ->
  exists p, rebuildBestPlan s = Ok (set_plan_ p s) /\ plan_frames p = [].
Proof. intros []. unfold rebuildBestPlan. rewrite id_leaf0. eexists. split; [reflexivity | done]. Qed.


(** ** Transpositions and releases *)
Lemma proven_append cs keys outs c ko o i k e :
  length keys = length cs -> length outs = length cs ->
  proven (cs ++ [c]) (keys ++ [ko]) (outs ++ [o]) i k e <->
  proven cs keys outs i k e \/
  (i = length cs /\ ko = Some k /\ o = SmbSearchNodeOutcome.ClosedLoss /\ e = entry_of c).
Proof.
  intros Hk Ho. unfold proven. split.
  - intros (c' & Hc & Hki & Hoi & He). destruct (decide (i < length cs)%nat) as [Hi | Hi].
    + left. exists c'. rewrite lookup_app_l in Hc by done. rewrite lookup_app_l in Hki by lia.
      by rewrite lookup_app_l in Hoi by lia.
    + pose proof (lookup_lt_Some _ _ _ Hc) as Hlt. rewrite length_app in Hlt. simpl in Hlt.
      assert (i = length cs) as -> by lia. rewrite list_lookup_middle in Hc by done.
      rewrite list_lookup_middle in Hki by done. rewrite list_lookup_middle in Hoi by done.
      right. by simplify_eq.
  - intros [(c' & Hc & Hki & Hoi & He) | (-> & -> & -> & ->)].
    + exists c'. split; [by apply lookup_app_l_Some |]. split; [by apply lookup_app_l_Some |].
      split; [by apply lookup_app_l_Some | done].
    + exists c. split; [by apply list_lookup_middle |]. split; [by apply list_lookup_middle |].
      split; [by apply list_lookup_middle | done].
Qed.

Lemma pruned_as_mono options (P Q : nat -> ClosedLossTranspositionKey.t -> ClosedLossTranspositionEntry.t -> Prop)
    i key c o :
  (forall j k e, P j k e -> Q j k e) -> pruned_as options P i key c o -> pruned_as options Q i key c o.
Proof.
  intros H. destruct o; [done | | done]. intros [? | [? [? | [? | (j & k & e & Hj & Hk & He & Hd)]]]];
    [by left | by right; auto | by right; auto |]. right. split; [done |]. right. right.
  exists j, k, e. auto.
Qed.

(** Growing the tree below an open node leaves the closed ones as they are. *)
Lemma closed_ok_append options cs keys outs c ko o' f fs a i o :
  tree_wf cs (f :: fs) outs -> c_parent c = Some (DfsFrame.nodeIndex f) -> c_action c = Some a ->
  length keys = length cs -> outs !! i <> Some SmbSearchNodeOutcome.Open ->
  closed_ok options cs keys outs i o -> closed_ok options (cs ++ [c]) (keys ++ [ko]) (outs ++ [o']) i o.
Proof.
  intros Ht Hp Ha Hk Hi. pose proof (append_children_closed cs f fs outs c Ht Hp i Hi) as Hch.
  unfold closed_ok, exhausted. rewrite Hch. intros [He | (Hn & d & key & Hd & Hkey & Hpr)]; [by left | right].
  split; [done |]. exists d, key. split; [by apply lookup_app_l_Some |]. split; [by apply lookup_app_l_Some |].
  eapply pruned_as_mono; [| exact Hpr]. intros j k e H.
  apply proven_append; [done | by rewrite (tw_len _ _ _ Ht) | by left].
Qed.

Lemma release_ok i s :
  0 <= i < nodeCount s ->
  exists ns, releaseNodeHeavyData i s = Ok (set_nodes_ ns s) /\ cores ns = cores (nodes_ s) /\
    (forall j, j <> Z.to_nat i -> ns !! j = nodes_ s !! j).
Proof.
  intros Hi. unfold releaseNodeHeavyData. rewrite (proj2 (Z.leb_gt _ _)) by lia.
  unfold nodeCount in Hi. destruct (in_range_lookup _ i Hi) as [n Hn].
  rewrite (vec_get_ok _ _ _ (proj1 Hi) Hn). cbn [rbind]. rewrite vec_set_ok by done. cbn [rbind].
  eexists. split; [done |]. split.
  - apply list_eq. intros j. rewrite !cores_lookup. destruct (decide (j = Z.to_nat i)) as [-> | Hj].
    + rewrite list_lookup_insert_eq by lia. rewrite Hn. done.
    + by rewrite list_lookup_insert_ne.
  - intros j Hj. by apply list_lookup_insert_ne.
Qed.

Lemma publish_ok i s :
  0 <= i < nodeCount s ->
  length (closedLossTranspositionKeys_ s) = length (nodes_ s) ->
  length (nodeOutcomes_ s) = length (nodes_ s) ->
  exists tb sh, publishClosedLossTranspositionEntry i s = Ok (set_tables tb sh s) /\
    forall P, tables_wf P (closedLossTranspositionTable_ s) (closedLossTranspositionShapeTable_ s) ->
      tables_wf (fun j k e => P j k e \/ (j = Z.to_nat i /\
        proven (cores (nodes_ s)) (closedLossTranspositionKeys_ s) (nodeOutcomes_ s) j k e)) tb sh.
Proof.
  intros Hi Hk Ho. unfold publishClosedLossTranspositionEntry, nodeCount in *.
  rewrite Hk, Ho, (proj2 (Z.leb_gt _ _)) by lia. cbn [orb].
  destruct (in_range_lookup (nodeOutcomes_ s) i) as [o Hoi]; [lia |].
  destruct (in_range_lookup (closedLossTranspositionKeys_ s) i) as [ko Hki]; [lia |].
  destruct (in_range_lookup (nodes_ s) i) as [n Hn]; [lia |].
  rewrite (vec_get_ok _ _ _ (proj1 Hi) Hoi). cbn [rbind].
  assert (Some s = Some (set_tables (closedLossTranspositionTable_ s)
    (closedLossTranspositionShapeTable_ s) s)) as E by (by destruct s). injection E as E.
  destruct (decide (o = SmbSearchNodeOutcome.ClosedLoss /\ is_Some ko)) as [[-> [k0 ->]] | Hn0].
  - rewrite bool_decide_eq_false_2 by auto. rewrite (vec_get_ok _ _ _ (proj1 Hi) Hki). cbn [rbind].
    rewrite (vec_get_ok _ _ _ (proj1 Hi) Hn). cbn [rbind].
    eexists _, _. split; [reflexivity |]. intros P HP.
    pose proof (tables_publish P _ _ (Z.to_nat i) k0 (entryOf n) HP) as Hpub.
    eapply tables_wf_equiv; [| exact Hpub]. intros j k e. unfold published, proven. split.
    + intros [? | (-> & -> & ->)]; [by left |]. right. split; [done |]. exists (core_of n).
      by rewrite cores_lookup, Hn.
    + intros [? | (-> & c & Hc & Hkk & _ & ->)]; [by left |]. right.
      rewrite cores_lookup, Hn in Hc. rewrite Hki in Hkk.
      injection Hc as <-. injection Hkk as <-. done.
  - eexists _, _. split.
    + case_bool_decide as Hb; [rewrite <- E; reflexivity |].
      rewrite (vec_get_ok _ _ _ (proj1 Hi) Hki). cbn [rbind].
      destruct ko; [| rewrite <- E; reflexivity]. exfalso. apply Hn0. split; [| done].
      destruct (decide (o = SmbSearchNodeOutcome.ClosedLoss)); [done |]. by destruct Hb.
    + intros P HP. eapply tables_wf_equiv; [| exact HP]. intros j k e. split; [by left |].
      intros [? | (-> & c & _ & Hkk & Hoo & _)]; [done |]. exfalso. apply Hn0.
      rewrite Hoi in Hoo. rewrite Hki in Hkk. simplify_eq. done.
Qed.

(** ** The state after appending a child *)
Record appended s (node : SmbSearchNode.t) (key : option ClosedLossTranspositionKey.t) s' : Prop :=
  mkAppended {
  ap_options : options_ s' = options_ s;
  ap_plan : plan_ s' = plan_ s;
  ap_prefix : rootPrefixFrames_ s' = rootPrefixFrames_ s;
  ap_nodes : nodes_ s' = nodes_ s ++ [node];
  ap_stack : dfsStack_ s' = dfsStack_ s;
  ap_outcomes : nodeOutcomes_ s' = nodeOutcomes_ s ++ [SmbSearchNodeOutcome.Open];
  ap_reasons : closedLossBlockReasons_ s' = closedLossBlockReasons_ s ++ [BlockReason.None];
  ap_keys : closedLossTranspositionKeys_ s' = closedLossTranspositionKeys_ s ++ [key];
  ap_table : closedLossTranspositionTable_ s' = closedLossTranspositionTable_ s;
  ap_shapes : closedLossTranspositionShapeTable_ s' = closedLossTranspositionShapeTable_ s;
  ap_leaf : bestLeafIndex_ s' = bestLeafIndex_ s;
  ap_frontier : bestFrontier_ s' = bestFrontier_ s;
  ap_score : bestScore_ s' = bestScore_ s;
  ap_pfrontier : SearchProgress.bestFrontier (progress_ s') = SearchProgress.bestFrontier (progress_ s);
  ap_count : SearchProgress.searchedNodeCount (progress_ s') =
    u64 (SearchProgress.searchedNodeCount (progress_ s) + 1);
  ap_completed : completed_ s' = completed_ s;
  ap_completion : completionReason_ s' = completionReason_ s;
  ap_paused : paused_ s' = paused_ s
}.

Lemma appendChild_appended node key prio s : appended s node key (appendChild node key prio s).
Proof. unfold appendChild, updateRenderableState. by destruct (SmbSearchNode.scenarioVideoFrame node). Qed.

Lemma appended_trace node key s s' entry ev :
  appended s node key s' ->
  appended s node key (let s1 := recordTrace entry s' in
    set_progress_ (SearchProgress.set_lastSearchEvent ev (progress_ s1)) s1).
Proof. intros []. by split. Qed.

Lemma count_step s : running s -> u64 (SearchProgress.searchedNodeCount (progress_ s) + 1) = u64 (nodeCount s).
Proof.
  intros []. rewrite rn_count0. unfold wrap_u. rewrite Zplus_mod_idemp_l. f_equal. lia.
Qed.

Lemma was_alive_append cs c stack stack' i j :
  (i < length cs)%nat -> c_parent c = Some j -> on_stack stack (Z.to_nat j) -> 0 <= j ->
  (on_stack stack' i -> on_stack stack i) ->
  was_alive (cs ++ [c]) stack' i -> was_alive cs stack i.
Proof.
  intros Hi Hp Hs Hj Hst [Ho | [k Hc]]; [left; by apply Hst |].
  apply child_of_snoc in Hc as [Hc | [_ Hc]]; [right; by exists k |].
  left. rewrite Hp in Hc. simplify_eq. by rewrite Nat2Z.id in Hs.
Qed.

End Invariant.
