(* ===== verification/SmbDfsSteps.v ===== *)
(** What one tick of the depth-first search does: expanding an action into a
    child that is pushed or pruned, backtracking from an exhausted node, and
    completing.  Every move keeps the invariant. *)

From Stdlib Require Import ZArith Lia Bool String.
From stdpp Require Import base gmap option numbers list.
From S2P Require Import Prelude Ieee NesTypes SmbEvaluator SmbRam SmbAdapter.
From S2P Require Import SmbSearchCore SmbDfsSearch SmbDfsTree SmbDfsFacts.
From S2P Require Import SmbDfsInvariant.

Set Default Goal Selector "!".

Section Steps.
Context {D : Type} `{HD : NesDriver D}.
Import SmbDfsSearch.
Implicit Types (s : t D) (f : DfsFrame.t).

Lemma buildDfsActionOrder_total airborne v dir parent enabled :
  exists o, SmbSearchCore.buildDfsActionOrder airborne v dir parent enabled = Ok o /\ valid_ordering o.
Proof.
  pose proof (orderActions_ok (airborne && fgt v fzero)
    (enabled && negb airborne && fgt (SpecFloat.SFabs v) fzero) dir parent) as H.
  assert (negb (airborne && fgt v fzero && (enabled && negb airborne && fgt (SpecFloat.SFabs v) fzero)) = true)
    as Hex by (destruct airborne, enabled, (fgt v fzero); done).
  specialize (H Hex). destruct (SmbSearchCore.buildDfsActionOrder airborne v dir parent enabled) as [o |] eqn:E;
    unfold SmbSearchCore.buildDfsActionOrder in E; cbv zeta in E; rewrite E in H; [| done].
  exists o. split; [done |]. exists airborne, v, dir, parent, enabled. exact E.
Qed.

(** ** The best leaf *)
Definition with_best (leaf : option Z) (fr : Z) (sc : f64) (plan : Plan) s : t D :=
  set_plan_ plan (let s := set_best leaf fr sc s in
    set_progress_ (SearchProgress.set_bestFrontier fr (progress_ s)) s).

Lemma updateBestLeaf_ok i s :
  0 <= i < nodeCount s -> parents_wf (nodes_ s) ->
  plan_good (nodes_ s) (bestLeafIndex_ s) (bestFrontier_ s) (bestScore_ s) (rootPrefixFrames_ s)
    (plan_ s) (SearchProgress.bestFrontier (progress_ s)) ->
  exists leaf fr sc plan, updateBestLeaf i s = Ok (with_best leaf fr sc plan s) /\
    plan_good (nodes_ s) leaf fr sc (rootPrefixFrames_ s) plan fr /\
    bestFrontier_ s <= fr /\ (forall c, cores (nodes_ s) !! Z.to_nat i = Some c -> frontier_of c <= fr).
Proof.
  intros Hi Hwf Hgood. unfold updateBestLeaf. rewrite (proj2 (Z.leb_gt _ _)) by lia.
  unfold nodeCount in Hi. destruct (in_range_lookup _ i Hi) as [n Hn].
  rewrite (vec_get_ok _ _ _ (proj1 Hi) Hn). cbn [rbind].
  set (fr := SmbSearchEvaluatorSummary.bestFrontier _). set (sc := SmbSearchEvaluatorSummary.evaluationScore _).
  match goal with |- context [if ?b then _ else _] => destruct b eqn:Hb end.
  - destruct (plan_path_exists _ i Hwf Hi) as [acts Hp].
    rewrite (rebuildBestPlan_leaf i acts); [| done | apply Hi | done | done].
    eexists (Some i), fr, sc, _. split; [reflexivity |]. split; [| split].
    + exists i, (core_of n), acts. rewrite cores_lookup, Hn. repeat split; try done. lia.
    + destruct Hgood as (b & c & acts' & Hl & _). rewrite Hl in Hb. cbn in Hb.
      apply orb_true_iff in Hb as [Hb | Hb]; [lia |]. apply andb_true_iff in Hb as [Hb _]. lia.
    + intros c Hc. rewrite cores_lookup, Hn in Hc. injection Hc as <-. unfold frontier_of. cbn. lia.
  - exists (bestLeafIndex_ s), (bestFrontier_ s), (bestScore_ s), (plan_ s).
    assert (SearchProgress.bestFrontier (progress_ s) = bestFrontier_ s) as Hpf
      by (by destruct Hgood as (b & c & acts & Hl & Hb0 & Hc & Hp & Hf & Hs & Hpf & Hplan)).
    split; [| split; [rewrite Hpf in Hgood; exact Hgood | split; [lia |]]].
    + f_equal. destruct s. cbn in Hpf. subst. destruct progress_0. done.
    + intros c Hc. rewrite cores_lookup, Hn in Hc. injection Hc as <-.
      apply orb_false_iff in Hb as [Hb _]. apply orb_false_iff in Hb as [_ Hb].
      unfold frontier_of. cbn. fold fr. lia.
Qed.

(** ** Appending a child to the top node *)
Section Child.
Context (s : t D) (f : DfsFrame.t) (fs : list DfsFrame.t) (node : SmbSearchNode.t)
  (key : option ClosedLossTranspositionKey.t) (a : SmbSearchLegalAction.t) (s1 : t D).
Context (Hrun : running s) (Hstack : dfsStack_ s = f :: fs) (Happ : appended s node key s1).
Context (Hparent : SmbSearchNode.parentIndex node = Some (DfsFrame.nodeIndex f))
  (Haction : SmbSearchNode.actionFromParent node = Some a).
Context (Hbudget : 0 < SmbDfsSearchOptions.maxSearchedNodeCount (options_ s) ->
  nodeCount s <= SmbDfsSearchOptions.maxSearchedNodeCount (options_ s)).

Lemma child_tree : tree_wf (cores (nodes_ s)) (f :: fs) (nodeOutcomes_ s).
Proof. rewrite <- Hstack. apply rn_tree, Hrun. Qed.

Lemma child_cores : cores (nodes_ s1) = cores (nodes_ s) ++ [core_of node].
Proof. rewrite (ap_nodes _ _ _ _ Happ). apply cores_app. Qed.

Lemma child_prefix : cores (nodes_ s) `prefix_of` cores (nodes_ s1).
Proof. rewrite child_cores. by apply prefix_app_r. Qed.

Lemma child_outs_length : length (nodeOutcomes_ s) = length (nodes_ s).
Proof. rewrite (tw_len _ _ _ child_tree). apply cores_length. Qed.

Lemma child_parents : parents_wf (nodes_ s1).
Proof.
  intros i n p Hn Hp. pose proof child_tree as Ht.
  assert (child_of (cores (nodes_ s1)) p i) as Hc.
  { exists (core_of n). by rewrite cores_lookup, Hn. }
  destruct (decide (i = 0%nat)) as [-> | Hi].
  - destruct (append_root _ _ _ _ (core_of node) Ht) as (r & Hr & Hnone & _).
    destruct Hc as (c & Hc & Hcp). rewrite child_cores in Hc. congruence.
  - destruct Hc as (c & Hc & Hcp). rewrite child_cores in Hc.
    destruct (append_links _ _ _ _ (core_of node) a Ht Hparent Haction _ _ Hc Hi) as (q & b & Hq & _ & Hlt).
    rewrite Hcp in Hq. by simplify_eq.
Qed.

Lemma child_plan : plan_good (nodes_ s1) (bestLeafIndex_ s1) (bestFrontier_ s1) (bestScore_ s1)
  (rootPrefixFrames_ s1) (plan_ s1) (SearchProgress.bestFrontier (progress_ s1)).
Proof.
  destruct Happ. rewrite ap_leaf, ap_frontier, ap_score, ap_prefix, ap_plan, ap_pfrontier.
  eapply plan_good_extend; [apply child_prefix | apply rn_plan, Hrun].
Qed.

Lemma child_nodeCount : nodeCount s1 = nodeCount s + 1.
Proof. unfold nodeCount. rewrite (ap_nodes _ _ _ _ Happ), length_app. simpl. lia. Qed.

Lemma child_top_open stack' : stack' = f :: fs -> on_stack stack' (Z.to_nat (DfsFrame.nodeIndex f)).
Proof.
  intros ->. pose proof (append_top_range _ _ _ _ child_tree) as Hr.
  exists f. split; [by left | lia].
Qed.

Lemma child_best stack' i c' fr :
  bestFrontier_ s <= fr -> (i = length (nodes_ s) -> frontier_of (core_of node) <= fr) ->
  (on_stack stack' i -> i <> length (nodes_ s) -> on_stack (f :: fs) i) ->
  cores (nodes_ s1) !! i = Some c' -> was_alive (cores (nodes_ s1)) stack' i ->
  frontier_of c' <= fr.
Proof.
  intros Hfr Hnew Hst Hc Ha. rewrite child_cores in *.
  destruct (decide (i = length (nodes_ s))) as [-> | Hi].
  - rewrite <- cores_length in Hc. rewrite list_lookup_middle in Hc by done. injection Hc as <-. auto.
  - pose proof (lookup_lt_Some _ _ _ Hc) as Hlt. rewrite length_app, cores_length in Hlt. simpl in Hlt.
    rewrite lookup_app_l in Hc by (rewrite cores_length; lia).
    pose proof (append_top_range _ _ _ _ child_tree) as Hr.
    pose proof (rn_best _ Hrun i c' Hc) as Hbest. rewrite Hstack in Hbest.
    etransitivity; [apply Hbest | done].
    eapply (was_alive_append _ _ (f :: fs) stack' i (DfsFrame.nodeIndex f)); try exact Ha.
    + rewrite cores_length. lia.
    + exact Hparent.
    + by apply child_top_open.
    + lia.
    + intros Ho. by apply Hst.
Qed.

(** The closed nodes are not touched by its arrival. *)
Lemma child_closed o i o' :
  nodeOutcomes_ s !! i = Some o' -> o' <> SmbSearchNodeOutcome.Open ->
  closed_ok (options_ s1) (cores (nodes_ s1)) (closedLossTranspositionKeys_ s1) (nodeOutcomes_ s ++ [o]) i o'.
Proof.
  intros Hi Hne. rewrite child_cores, (ap_keys _ _ _ _ Happ), (ap_options _ _ _ _ Happ).
  eapply closed_ok_append; [apply child_tree | exact Hparent | exact Haction | | congruence | by eapply rn_closed].
  rewrite (rn_keys _ Hrun). by rewrite cores_length.
Qed.

(** Pushing it. *)
Lemma push_running leaf fr sc plan fN :
  plan_good (nodes_ s1) leaf fr sc (rootPrefixFrames_ s1) plan fr ->
  bestFrontier_ s1 <= fr -> frontier_of (core_of node) <= fr ->
  fresh_frame (cores (nodes_ s)) fN ->
  running (set_dfsStack_ (fN :: f :: fs) (with_best leaf fr sc plan s1)).
Proof.
  intros Hplan Hfr Hnode HfN. pose proof child_outs_length as Hol.
  pose proof (rn_keys _ Hrun) as Hkl. split; simpl.
  - rewrite (ap_options _ _ _ _ Happ). apply rn_options, Hrun.
  - rewrite child_cores, (ap_outcomes _ _ _ _ Happ). by eapply tree_push; [apply child_tree | ..].
  - rewrite (ap_reasons _ _ _ _ Happ), (ap_nodes _ _ _ _ Happ), !length_app, (rn_reasons _ Hrun). done.
  - rewrite (ap_keys _ _ _ _ Happ), (ap_nodes _ _ _ _ Happ), !length_app, Hkl. done.
  - rewrite child_cores, (ap_keys _ _ _ _ Happ), (ap_outcomes _ _ _ _ Happ),
      (ap_table _ _ _ _ Happ), (ap_shapes _ _ _ _ Happ).
    eapply tables_wf_equiv; [| apply rn_tables, Hrun]. intros i k e.
    rewrite proven_append by (rewrite cores_length; lia).
    split; [by left | by intros [? | (_ & _ & ? & _)]].
  - done.
  - intros i c' Hc Ha. eapply child_best; [| | | exact Hc | exact Ha].
    + rewrite <- (ap_frontier _ _ _ _ Happ). done.
    + done.
    + intros [Hi | ?]%on_stack_cons Hne; [| done]. destruct HfN as (HiN & _).
      rewrite HiN, cores_length in Hi. lia.
  - unfold nodeCount. simpl. rewrite (ap_count _ _ _ _ Happ), count_step by done.
    f_equal. fold (nodeCount s1). rewrite child_nodeCount. lia.
  - unfold nodeCount. simpl. fold (nodeCount s1). rewrite child_nodeCount, (ap_options _ _ _ _ Happ).
    intros H. specialize (Hbudget H). lia.
  - rewrite (ap_outcomes _ _ _ _ Happ). intros i o [Hi | [_ Hi]]%lookup_app_Some Hne; [by apply child_closed |].
    by apply list_lookup_singleton_Some in Hi as [_ <-].
Qed.

(** Pruning it: its final outcome replaces the provisional one. *)
Lemma prune_outcomes o :
  <[Z.to_nat (nodeCount s) := o]> (nodeOutcomes_ s1) = nodeOutcomes_ s ++ [o].
Proof.
  rewrite (ap_outcomes _ _ _ _ Happ). unfold nodeCount. rewrite Nat2Z.id, <- child_outs_length.
  apply list_eq. intros i. destruct (decide (i = length (nodeOutcomes_ s))) as [-> | Hi].
  - rewrite list_lookup_insert_eq by (rewrite length_app; simpl; lia). by rewrite list_lookup_middle.
  - rewrite list_lookup_insert_ne by done. destruct (decide (i < length (nodeOutcomes_ s))%nat).
    + by rewrite !lookup_app_l.
    + rewrite !lookup_ge_None_2; [done | | ]; rewrite length_app; simpl; lia.
Qed.

Lemma prune_running s2 o r :
  o <> SmbSearchNodeOutcome.Open ->
  options_ s2 = options_ s1 -> cores (nodes_ s2) = cores (nodes_ s1) ->
  dfsStack_ s2 = noteChildOutcome o r f :: fs ->
  nodeOutcomes_ s2 = nodeOutcomes_ s ++ [o] ->
  length (closedLossBlockReasons_ s2) = length (closedLossBlockReasons_ s1) ->
  closedLossTranspositionKeys_ s2 = closedLossTranspositionKeys_ s1 ->
  tables_wf (proven (cores (nodes_ s1)) (closedLossTranspositionKeys_ s1) (nodeOutcomes_ s ++ [o]))
    (closedLossTranspositionTable_ s2) (closedLossTranspositionShapeTable_ s2) ->
  plan_ s2 = plan_ s1 -> rootPrefixFrames_ s2 = rootPrefixFrames_ s1 ->
  bestLeafIndex_ s2 = bestLeafIndex_ s1 -> bestFrontier_ s2 = bestFrontier_ s1 ->
  bestScore_ s2 = bestScore_ s1 -> progress_ s2 = progress_ s1 ->
  pruned_as (options_ s) (proven (cores (nodes_ s)) (closedLossTranspositionKeys_ s) (nodeOutcomes_ s))
    (length (nodes_ s)) key (core_of node) o ->
  running s2.
Proof.
  intros Ho Hopt Hcores Hst Hout Hre Hke Htb Hpl Hpre Hle Hfr Hsc Hpr Hwhy.
  assert (length (nodes_ s2) = length (nodes_ s1)) as Hlen by (by rewrite <- !cores_length, Hcores).
  assert (DfsFrame.nodeIndex (noteChildOutcome o r f) = DfsFrame.nodeIndex f) as Hi
    by (unfold noteChildOutcome; by case_bool_decide).
  split.
  - rewrite Hopt, (ap_options _ _ _ _ Happ). apply rn_options, Hrun.
  - rewrite Hcores, child_cores, Hst, Hout. by eapply tree_prune; [apply child_tree | ..].
  - rewrite Hre, (ap_reasons _ _ _ _ Happ), Hlen, (ap_nodes _ _ _ _ Happ), !length_app, (rn_reasons _ Hrun).
    done.
  - rewrite Hke, Hlen, (ap_keys _ _ _ _ Happ), (ap_nodes _ _ _ _ Happ), !length_app, (rn_keys _ Hrun).
    done.
  - by rewrite Hcores, Hke, Hout.
  - rewrite Hle, Hfr, Hsc, Hpre, Hpl, Hpr. eapply plan_good_extend; [| apply child_plan]. by rewrite Hcores.
  - intros i c' Hc Ha. rewrite Hfr, (ap_frontier _ _ _ _ Happ). rewrite Hcores, Hst in *.
    destruct (decide (i = length (nodes_ s))) as [-> | Hne].
    { exfalso. destruct Ha as [Hon | [j Hc']].
      - rewrite (on_stack_top f) in Hon by done. destruct Hon as (g & Hg & Hgi).
        destruct (stack_wf_frame _ _ _ (tw_stack _ _ _ child_tree) Hg) as ([? ?] & _).
        rewrite cores_length in *. lia.
      - rewrite child_cores in Hc'. rewrite <- cores_length in Hc'.
        pose proof (tree_prune _ _ _ _ (core_of node) a o r child_tree Hparent Haction Ho) as Ht'.
        pose proof (child_parent_lt _ _ _ _ _ Ht' Hc') as Hlt. apply child_of_lt in Hc'.
        rewrite length_app in Hc'. simpl in Hc'. lia. }
    eapply child_best; [reflexivity | done | | exact Hc | exact Ha].
    intros Hon _. by rewrite (on_stack_top f) in Hon.
  - unfold nodeCount. rewrite Hlen, Hpr, (ap_count _ _ _ _ Happ), count_step by done.
    f_equal. fold (nodeCount s1). rewrite child_nodeCount. lia.
  - unfold nodeCount. rewrite Hlen. fold (nodeCount s1). rewrite child_nodeCount, Hopt, (ap_options _ _ _ _ Happ).
    intros H. specialize (Hbudget H). lia.
  - rewrite Hout, Hopt, Hcores, Hke. intros i o' [Hio | [Hle' Hio]]%lookup_app_Some Hne; [by apply child_closed |].
    apply list_lookup_singleton_Some in Hio as [Hio <-]. rewrite child_outs_length in Hio, Hle'.
    assert (i = length (nodes_ s)) as -> by lia. right.
    rewrite child_cores, (ap_keys _ _ _ _ Happ), (ap_options _ _ _ _ Happ). rewrite <- (cores_length (nodes_ s)).
    split; [by eapply append_leaf_children; [apply child_tree | ..] |]. exists (core_of node), key.
    split; [by apply list_lookup_middle |].
    split; [apply list_lookup_middle; by rewrite cores_length, (rn_keys _ Hrun) |].
    rewrite cores_length. eapply pruned_as_mono; [| exact Hwhy]. intros j k e H.
    apply proven_append; [by rewrite cores_length, (rn_keys _ Hrun) | by rewrite cores_length, child_outs_length | by left].
Qed.
End Child.

(** ** Completing *)
Definition completed_with (reason : CompletionReason.t) s s' : Prop :=
  completed_ s' = true /\ completionReason_ s' = Some reason /\ paused_ s' = false /\ options_ s' = options_ s /\
  (idle s -> idle s') /\ (running s -> same_search s s').

Lemma completeWithTraceEvent_ok ev s :
  idle s \/ running s -> wp (completeWithTraceEvent ev s) (completed_with CompletionReason.Completed s).
Proof.
  intros [Hi | Hr]; unfold completeWithTraceEvent.
  - destruct (rebuild_idle s Hi) as (p & -> & _). cbn [rbind wp]. do 4 (split; [done |]).
    split; [intros []; by split |]. intros []. exfalso.
    destruct Hi. destruct rn_plan as (b & c & acts & Hl & _). congruence.
  - rewrite (rebuild_running s Hr). cbn [rbind wp]. do 4 (split; [done |]).
    split; [intros []; by split | intros _; apply same_complete].
Qed.

Lemma completeWithError_ok msg s :
  idle s \/ running s ->
  wp (completeWithError msg s) (fun s' => completed_with CompletionReason.Error s s' /\
    completionErrorMessage_ s' = Some msg).
Proof.
  intros [Hi | Hr]; unfold completeWithError.
  - destruct (rebuild_idle s Hi) as (p & -> & _). cbn [rbind wp]. split; [| done]. do 4 (split; [done |]).
    split; [intros []; by split |]. intros []. exfalso.
    destruct Hi. destruct rn_plan as (b & c & acts & Hl & _). congruence.
  - rewrite (rebuild_running s Hr). cbn [rbind wp]. split; [| done]. do 4 (split; [done |]).
    split; [intros []; by split | intros _; by split].
Qed.

(** ** What a move of the search keeps *)
Record moved s s' : Prop := mkMoved {
  mv_options : options_ s' = options_ s;
  mv_frontier : bestFrontier_ s <= bestFrontier_ s';
  mv_cores : cores (nodes_ s) `prefix_of` cores (nodes_ s');
  mv_kept : forall i, on_stack (dfsStack_ s') i -> (i < length (nodes_ s))%nat ->
    nodes_ s' !! i = nodes_ s !! i;
  mv_closed : forall i o, nodeOutcomes_ s !! i = Some o -> o <> SmbSearchNodeOutcome.Open ->
    nodeOutcomes_ s' !! i = Some o
}.

Lemma moved_same s s1 s2 : moved s s1 -> same_search s1 s2 -> moved s s2.
Proof.
  intros [] []. split; repeat match goal with E : _ = _ |- _ => rewrite E; clear E end; try done.
Qed.

Lemma moved_refl s : moved s s.
Proof. by split. Qed.

(** Each open node has its frame, so this is at most twice the nodes. *)
Definition measure s : Z := 2 * nodeCount s - Z.of_nat (length (dfsStack_ s)).

Lemma measure_same s s' : same_search s s' -> measure s' = measure s.
Proof. intros []. unfold measure, nodeCount. by rewrite sm_nodes, sm_stack. Qed.

(** ** The child is appended, then pushed or pruned *)
Lemma collectRamBytes_ok m addrs :
  Forall (fun a => 0 <= a < 8192) addrs -> exists bs, collectRamBytes m addrs = Ok bs /\ length bs = length addrs.
Proof.
  induction 1 as [| a addrs Ha _ (bs & IH & Hl)]; [by exists [] |]. cbn [collectRamBytes]. rewrite IH.
  pose proof (ram_at_ok m a Ha) as Hr. unfold NesSuperMarioBrosRamExtractor.ram_at in Hr. rewrite Hr.
  destruct (isClosedLossTranspositionInputMirrorRamAddr a); cbn [rbind];
    eexists; (split; [done |]); simpl; by rewrite Hl.
Qed.

Lemma ramBytes_total m : exists bs, buildClosedLossTranspositionRamBytes m = Ok bs /\ length bs = 63%nat.
Proof.
  apply (collectRamBytes_ok m kClosedLossTranspositionRamByteAddrs).
  by apply (bool_decide_eq_true_1 (Forall _ _)).
Qed.

Lemma transpositionKey_total s state m : exists k, buildClosedLossTranspositionKey s state m = Ok k.
Proof.
  unfold buildClosedLossTranspositionKey. destruct (ramBytes_total m) as (bs & Hbs & _).
  repeat match goal with |- context [if ?b then _ else _] => destruct b; [by eexists |] end.
  rewrite Hbs. cbn [rbind]. by eexists.
Qed.

(** The condition for pushing is that of the [ExpandedAlive] event. *)
Lemma classify_alive summary pt ng vs st :
  (SmbSearchEvaluatorSummary.terminal summary = false ->
   SmbSearchEvaluatorSummary.endReason summary = SmbEpisodeEndReason.None) ->
  negb (SmbSearchEvaluatorSummary.terminal summary) && negb pt && negb ng && negb vs && negb st
  = bool_decide (classify summary pt ng vs st = TraceEventType.ExpandedAlive).
Proof.
  intros H. unfold classify, belowScreen, terminalLoss, belowScreen.
  destruct (SmbSearchEvaluatorSummary.terminal summary).
  - by destruct (bool_decide (SmbSearchEvaluatorSummary.endReason summary = _)).
  - rewrite H by done. by destruct pt, ng, vs, st.
Qed.

Lemma release_kept i s s' f fs :
  releaseNodeHeavyData (Z.of_nat i) s = Ok s' -> (i < length (nodes_ s))%nat ->
  ~ on_stack (f :: fs) i -> forall j, on_stack (f :: fs) j -> nodes_ s' !! j = nodes_ s !! j.
Proof.
  intros He Hi Hn j Hj. destruct (release_ok (Z.of_nat i) s) as (ns & Hr & _ & Hns); [unfold nodeCount; lia |].
  rewrite He in Hr. injection Hr as ->. simpl. apply Hns. rewrite Nat2Z.id. by intros ->.
Qed.

Section FinishChild.
Context (s : t D) (f0 f : DfsFrame.t) (fs : list DfsFrame.t) (node : SmbSearchNode.t)
  (key : option ClosedLossTranspositionKey.t) (a : SmbSearchLegalAction.t) (s1 : t D).
Context (Hrun : running s) (Hstack : dfsStack_ s = f :: fs) (Happ : appended s node key s1).
Context (Hparent : SmbSearchNode.parentIndex node = Some (DfsFrame.nodeIndex f))
  (Haction : SmbSearchNode.actionFromParent node = Some a).
Context (Hbudget : 0 < SmbDfsSearchOptions.maxSearchedNodeCount (options_ s) ->
  nodeCount s <= SmbDfsSearchOptions.maxSearchedNodeCount (options_ s)).
Context (Ht0 : tree_wf (cores (nodes_ s)) (f0 :: fs) (nodeOutcomes_ s))
  (Hex : explored (cores (nodes_ s)) (f0 :: fs) (nodeOutcomes_ s))
  (Hi : DfsFrame.nodeIndex f = DfsFrame.nodeIndex f0)
  (Ho : DfsFrame.actionOrdering f = DfsFrame.actionOrdering f0)
  (Hn0 : 0 <= DfsFrame.nextActionIndex f0)
  (Hn : DfsFrame.nextActionIndex f = DfsFrame.nextActionIndex f0 + 1)
  (Ha : SmbSearchActionOrdering.actions (DfsFrame.actionOrdering f0) !! Z.to_nat (DfsFrame.nextActionIndex f0) = Some a).

(** What holds after the child has been dealt with. *)
Definition child_done s2 : Prop :=
  running s2 /\ all_explored s2 /\ moved s s2 /\ measure s < measure s2 /\
  completed_ s2 = completed_ s /\ completionReason_ s2 = completionReason_ s /\ paused_ s2 = paused_ s.

Lemma pushChild_done state reason :
  wp (pushChild (nodeCount s) a state true reason s1) child_done.
Proof.
  pose proof (child_cores s node key s1 Happ) as Hc1.
  pose proof (child_nodeCount s node key s1 Happ) as Hn1.
  unfold pushChild.
  destruct (updateBestLeaf_ok (nodeCount s) s1) as (leaf & fr & sc & plan & -> & Hplan & Hfr & Hnode).
  { rewrite Hn1. unfold nodeCount. lia. }
  { by eapply child_parents. }
  { by eapply child_plan. }
  assert (frontier_of (core_of node) <= fr) as Hnode'.
  { apply Hnode. rewrite Hc1. unfold nodeCount. rewrite Nat2Z.id, <- cores_length.
    by rewrite list_lookup_middle. }
  cbn [rbind].
  destruct (buildDfsActionOrder_total (NesSuperMarioBrosState.airborne state)
    (NesSuperMarioBrosState.verticalSpeedNormalized state) (getHorizontalDirection state) (Some a)
    (SmbDfsSearchOptions.groundedVerticalJumpPrioritizationEnabled
       (options_ (with_best leaf fr sc plan s1)))) as (o & -> & Hvo). cbn [rbind wp].
  set (fN := DfsFrame.mk (nodeCount s) 0 o true reason).
  assert (dfsStack_ (with_best leaf fr sc plan s1) = f :: fs) as Hst
    by (simpl; by rewrite (ap_stack _ _ _ _ Happ)).
  rewrite Hst.
  assert (fresh_frame (cores (nodes_ s)) fN) as HfN.
  { unfold fresh_frame, nodeCount. rewrite cores_length. done. }
  split; [by eapply push_running |]. split.
  { unfold all_explored. simpl. rewrite Hc1, (ap_outcomes _ _ _ _ Happ).
    eapply (explored_push _ f0 f fs _ (core_of node) a); try done. by rewrite <- Hi. }
  split; [split; simpl |].
  - apply (ap_options _ _ _ _ Happ).
  - rewrite <- (ap_frontier _ _ _ _ Happ). done.
  - rewrite Hc1. by apply prefix_app_r.
  - intros i _ Hlt. rewrite (ap_nodes _ _ _ _ Happ). by rewrite lookup_app_l.
  - intros i o' Hio _. rewrite (ap_outcomes _ _ _ _ Happ). by apply lookup_app_l_Some.
  - split; [| split; [apply (ap_completed _ _ _ _ Happ) | split;
      [apply (ap_completion _ _ _ _ Happ) | apply (ap_paused _ _ _ _ Happ)]]].
    unfold measure at 2. unfold nodeCount at 1. simpl. fold (nodeCount s1). rewrite Hn1.
    unfold measure. rewrite Hstack. simpl. lia.
Qed.

Lemma pruneChild_done o r :
  o <> SmbSearchNodeOutcome.Open ->
  pruned_as (options_ s) (proven (cores (nodes_ s)) (closedLossTranspositionKeys_ s) (nodeOutcomes_ s))
    (length (nodes_ s)) key (core_of node) o ->
  wp (pruneChild (nodeCount s) f o r s1) child_done.
Proof.
  intros Hopen Hwhy. pose proof (child_cores s node key s1 Happ) as Hc1.
  pose proof (child_nodeCount s node key s1 Happ) as Hn1.
  pose proof (child_outs_length s f fs Hrun Hstack) as Hol.
  assert (0 <= nodeCount s < nodeCount s1) as Hr1 by (unfold nodeCount in *; lia).
  assert (length (nodeOutcomes_ s1) = length (nodes_ s1)) as Hol1
    by (rewrite (ap_outcomes _ _ _ _ Happ), (ap_nodes _ _ _ _ Happ), !length_app; simpl; lia).
  unfold pruneChild. rewrite vec_set_ok by (rewrite Hol1; exact Hr1). cbn [rbind].
  rewrite (prune_outcomes s f fs node key s1 Hrun Hstack Happ).
  rewrite vec_set_ok.
  2:{ simpl. rewrite (ap_reasons _ _ _ _ Happ), length_app, (rn_reasons _ Hrun). unfold nodeCount. simpl. lia. }
  cbn [rbind].
  set (s2 := set_dfsStack_ (noteChildOutcome o r f :: fs) (set_closedLossBlockReasons_
    (<[Z.to_nat (nodeCount s) := r]> (closedLossBlockReasons_ s1))
    (set_nodeOutcomes_ (nodeOutcomes_ s ++ [o]) s1))).
  assert (set_top (noteChildOutcome o r f) (set_closedLossBlockReasons_
    (<[Z.to_nat (nodeCount s) := r]> (closedLossBlockReasons_ (set_nodeOutcomes_ (nodeOutcomes_ s ++ [o]) s1)))
    (set_nodeOutcomes_ (nodeOutcomes_ s ++ [o]) s1)) = s2) as ->.
  { unfold set_top. simpl. by rewrite (ap_stack _ _ _ _ Happ), Hstack. }
  set (m1 := if bool_decide (o = _) then _ else _).
  assert (exists tb sh, m1 = Ok (set_tables tb sh s2) /\
    tables_wf (proven (cores (nodes_ s1)) (closedLossTranspositionKeys_ s1) (nodeOutcomes_ s ++ [o])) tb sh)
    as (tb & sh & Em & Htb).
  { pose proof (rn_tables _ Hrun) as Htb. pose proof (rn_keys _ Hrun) as Hkl.
    assert (forall i k e, proven (cores (nodes_ s1)) (closedLossTranspositionKeys_ s1) (nodeOutcomes_ s ++ [o]) i k e <->
      proven (cores (nodes_ s)) (closedLossTranspositionKeys_ s) (nodeOutcomes_ s) i k e \/
      (i = length (cores (nodes_ s)) /\ key = Some k /\ o = SmbSearchNodeOutcome.ClosedLoss /\
       e = entry_of (core_of node))) as Hpr.
    { intros i k e. rewrite Hc1, (ap_keys _ _ _ _ Happ). apply proven_append; rewrite cores_length; lia. }
    rewrite <- (ap_table _ _ _ _ Happ), <- (ap_shapes _ _ _ _ Happ) in Htb.
    unfold m1. case_bool_decide as Hcl.
    - destruct (publish_ok (nodeCount s) s2) as (tb & sh & E & Hpub).
      { exact Hr1. }
      { simpl. rewrite (ap_keys _ _ _ _ Happ), (ap_nodes _ _ _ _ Happ), !length_app. simpl. lia. }
      { simpl. rewrite (ap_nodes _ _ _ _ Happ), !length_app. simpl. lia. }
      exists tb, sh. split; [exact E |]. eapply tables_wf_equiv; [| by apply Hpub].
      intros i k e. simpl. rewrite Hpr. split.
      + intros [? | [_ ?]]; [by left | done].
      + intros [? | H]; [by left | right]. split; [| by right].
        destruct H as (-> & _). unfold nodeCount. by rewrite Nat2Z.id, cores_length.
    - exists (closedLossTranspositionTable_ s1), (closedLossTranspositionShapeTable_ s1).
      split; [done |]. eapply tables_wf_equiv; [| exact Htb]. intros i k e. rewrite Hpr.
      split; [by left | by intros [? | (_ & _ & ? & _)]]. }
  clearbody m1. subst m1. cbn [rbind].
  destruct (release_ok (nodeCount s) (set_tables tb sh s2)) as (ns & -> & Hns & Hkept); [exact Hr1 |].
  cbn [wp]. simpl in Hns, Hkept. split; [| split; [| split; [split |]]].
  - eapply (prune_running s f fs node key a s1 Hrun Hstack Happ Hparent Haction Hbudget _ o r); try done.
    simpl. by rewrite length_insert.
  - unfold all_explored. simpl. rewrite Hns, Hc1.
    eapply (explored_prune _ f0 f fs _ (core_of node) a); try done. by rewrite <- Hi.
  - apply (ap_options _ _ _ _ Happ).
  - simpl. by rewrite (ap_frontier _ _ _ _ Happ).
  - simpl. rewrite Hns, Hc1. by apply prefix_app_r.
  - simpl. intros i _ Hlt. rewrite Hkept by (unfold nodeCount; lia).
    rewrite (ap_nodes _ _ _ _ Happ). by rewrite lookup_app_l.
  - simpl. intros i o' Hio _. by apply lookup_app_l_Some.
  - split; [| split; [apply (ap_completed _ _ _ _ Happ) | split;
      [apply (ap_completion _ _ _ _ Happ) | apply (ap_paused _ _ _ _ Happ)]]].
    unfold measure at 2. unfold nodeCount at 1. simpl.
    replace (length ns) with (length (nodes_ s1)) by (by rewrite <- !cores_length, Hns).
    fold (nodeCount s1). rewrite Hn1. unfold measure. rewrite Hstack. simpl. lia.
Qed.
End FinishChild.

End Steps.
