(* ===== verification/SmbDfsTick.v ===== *)
(** A whole tick of the depth-first search, and the operations around it: every
    one of them succeeds and keeps the invariant. *)

From Stdlib Require Import ZArith Lia Bool String.
From stdpp Require Import base gmap option numbers list.
From S2P Require Import Prelude Ieee NesTypes SmbEvaluator SmbRam SmbAdapter.
From S2P Require Import SmbSearchCore SmbDfsSearch SmbDfsTree SmbDfsFacts.
From S2P Require Import SmbDfsInvariant SmbDfsSteps.

Set Default Goal Selector "!".

Section Tick.
Context {D : Type} `{HD : NesDriver D}.
Import SmbDfsSearch.
Implicit Types (s : t D) (f : DfsFrame.t).

(** What a tick that does something guarantees. *)
Definition ticked s (p : t D * TickResult.t) : Prop :=
  let '(s', r) := p in
  inv s' /\ moved s s' /\ TickResult.completed r = completed_ s' /\
  (completed_ s' = true \/ measure s < measure s') /\ (paused_ s' = true -> paused_ s = true).

Lemma completed_inv reason s s' :
  completed_with reason s s' -> (idle s \/ (running s /\ (reason = CompletionReason.Error \/ all_explored s))) ->
  inv s'.
Proof.
  intros (Hc & Hr & _ & _ & Hidle & Hsame) H. split; [by rewrite Hc, Hr |].
  destruct H as [Hi | [Hrun He]]; [left; auto |]. right. specialize (Hsame Hrun).
  split; [by eapply running_same |]. destruct He as [-> | He]; [by left | right].
  by eapply all_explored_same.
Qed.

Lemma failTick_ok msg s0 s :
  running s -> moved s0 s -> wp (failTick msg s) (ticked s0).
Proof.
  intros Hrun Hm. unfold failTick. apply wp_bind. eapply wp_mono; [by apply completeWithError_ok; right |].
  intros s' [Hc Hmsg]. cbn [wp]. split; [eapply completed_inv; [done | right; auto] |].
  destruct Hc as (Hc & _ & Hpa & _ & _ & Hsame). split; [eapply moved_same; [done | auto] |].
  split; [done |]. split; [by left | by rewrite Hpa].
Qed.

Lemma evaluate_done e i :
  let '(_, o) := NesSuperMarioBrosEvaluator.evaluate e i in
  NesSuperMarioBrosFitnessSnapshot.done (NesSuperMarioBrosEvaluator.snapshot o) = false ->
  NesSuperMarioBrosFitnessSnapshot.endReason (NesSuperMarioBrosEvaluator.snapshot o) = SmbEpisodeEndReason.None.
Proof.
  unfold NesSuperMarioBrosEvaluator.evaluate. cbv zeta.
  match goal with |- context [if ?b then _ else _] => destruct b end; [done |].
  match goal with |- context [if ?b then _ else _] => destruct b end; [done |].
  match goal with |- context [if ?b then _ else _] => destruct b end; [done |].
  unfold NesSuperMarioBrosEvaluator.evaluate_alive.
  destruct (NesSuperMarioBrosEvaluator.advance_stage _ _) as [[[? ?] ?] ?].
  destruct (NesSuperMarioBrosEvaluator.advance_distance _ _ _ _ _) as [[[? ?] ?] ?].
  repeat match goal with |- context [if ?b then _ else _] => destruct b end; done.
Qed.

(** The milestone test that ends [tick]. *)
Lemma milestone_ok s0 s :
  running s -> all_explored s -> moved s0 s -> measure s0 < measure s ->
  completed_ s = false -> completionReason_ s = None -> paused_ s = paused_ s0 ->
  wp (match SmbDfsSearchOptions.stopAfterBestFrontier (options_ s) with
      | Some milestone =>
          if milestone <=? bestFrontier_ s then
            let! s := completeWithTraceEvent TraceEventType.CompletedMilestoneReached s in
            Ok (s, TickResult.mk true true true None)
          else Ok (s, TickResult.mk (completed_ s) true true None)
      | None => Ok (s, TickResult.mk (completed_ s) true true None)
      end) (ticked s0).
Proof.
  intros Hrun Hex Hm Hlt Hc Hr Hpa.
  assert (ticked s0 (s, TickResult.mk (completed_ s) true true None)) as Hplain.
  { split; [| split; [done | split; [done | split; [by right | by rewrite Hpa]]]]. split; [| right; auto].
    rewrite Hc, Hr. split; [done |]. by intros [? ?]. }
  destruct (SmbDfsSearchOptions.stopAfterBestFrontier (options_ s)) as [m |]; [| exact Hplain].
  destruct (m <=? bestFrontier_ s); [| exact Hplain].
  apply wp_bind. eapply wp_mono; [by apply completeWithTraceEvent_ok; right |].
  intros s' Hd. cbn [wp]. split; [eapply completed_inv; [done | right; auto] |].
  destruct Hd as (Hc' & _ & Hpa' & _ & _ & Hsame). split; [eapply moved_same; [done | auto] |].
  split; [done |]. split; [by left | by rewrite Hpa'].
Qed.

(** The top frame [f0] has just been told to try its next action: [f]. *)
Record expanding s (f0 f : DfsFrame.t) (fs : list DfsFrame.t) (a : SmbSearchLegalAction.t) : Prop :=
  mkExpanding {
  xp_running : running s;
  xp_stack : dfsStack_ s = f :: fs;
  xp_tree : tree_wf (cores (nodes_ s)) (f0 :: fs) (nodeOutcomes_ s);
  xp_explored : explored (cores (nodes_ s)) (f0 :: fs) (nodeOutcomes_ s);
  xp_index : DfsFrame.nodeIndex f = DfsFrame.nodeIndex f0;
  xp_ordering : DfsFrame.actionOrdering f = DfsFrame.actionOrdering f0;
  xp_next0 : 0 <= DfsFrame.nextActionIndex f0;
  xp_next : DfsFrame.nextActionIndex f = DfsFrame.nextActionIndex f0 + 1;
  xp_action : SmbSearchActionOrdering.actions (DfsFrame.actionOrdering f0)
    !! Z.to_nat (DfsFrame.nextActionIndex f0) = Some a;
  xp_budget : 0 < SmbDfsSearchOptions.maxSearchedNodeCount (options_ s) ->
    nodeCount s <= SmbDfsSearchOptions.maxSearchedNodeCount (options_ s);
  xp_completed : completed_ s = false;
  xp_reason : completionReason_ s = None
}.

(** Why a child that is not kept alive is pruned. *)
Lemma pruned_reason s key summary state stuck n :
  running s ->
  (SmbSearchEvaluatorSummary.terminal summary = false ->
   SmbSearchEvaluatorSummary.endReason summary = SmbEpisodeEndReason.None) ->
  (SmbSearchEvaluatorSummary.gameState summary = Some 1 <->
   NesSuperMarioBrosState.gameMode state = SmbGameMode.Normal) ->
  SmbSearchNode.evaluatorSummary n = summary -> SmbSearchNode.velocityStuckFrameCount n = stuck ->
  classify summary
    (negb (SmbSearchEvaluatorSummary.terminal summary) && negb (nonGameplay summary state)
     && match key with Some k => isClosedLossTranspositionPruned s k summary | None => false end)
    (nonGameplay summary state) (kVelocityPruneConsecutiveFrameThreshold <=? stuck)
    (stalled (options_ s) summary state) <> TraceEventType.ExpandedAlive ->
  pruned_as (options_ s) (proven (cores (nodes_ s)) (closedLossTranspositionKeys_ s) (nodeOutcomes_ s))
    (length (nodes_ s)) key (core_of n)
    (if nonGameplay summary state then SmbSearchNodeOutcome.NotClosedLoss else SmbSearchNodeOutcome.ClosedLoss).
Proof.
  intros Hrun Hterm Hmode <- <-. unfold classify, terminalLoss, belowScreen, stalled, nonGameplay.
  destruct (SmbSearchEvaluatorSummary.terminal _) eqn:Et; cbn [negb andb]; [intros _; by left |].
  rewrite Hterm, (bool_decide_eq_false_2 (SmbEpisodeEndReason.None = _)) by done. cbn. case_bool_decide as Hm; cbn; [intros _; split; [done | by rewrite Hmode] |].
  rewrite <- Hmode in Hm.
  intros Hev. right. split; [exact Hm |].
  destruct key as [k |]; [destruct (isClosedLossTranspositionPruned s k _) eqn:Hp |].
  - right. right. unfold isClosedLossTranspositionPruned in Hp.
    destruct (closedLossTranspositionTable_ s !! k) as [e |] eqn:Hk; [| done].
    destruct (tb_sound _ _ _ (rn_tables _ Hrun) k e Hk) as [j Hj]. exists j, k, e.
    split; [| done]. destruct Hj as (c & Hc & _). apply lookup_lt_Some in Hc. by rewrite cores_length in Hc.
  - destruct (kVelocityPruneConsecutiveFrameThreshold <=? _) eqn:Hv; [left; lia |].
    destruct (_ <=? _) eqn:Hs in Hev; [right; left; lia | done].
  - destruct (kVelocityPruneConsecutiveFrameThreshold <=? _) eqn:Hv; [left; lia |].
    destruct (_ <=? _) eqn:Hs in Hev; [right; left; lia | done].
Qed.

Lemma finishChild_ok s f0 f fs a parent prio savestate mem video state summary :
  expanding s f0 f fs a ->
  (SmbSearchEvaluatorSummary.terminal summary = false ->
   SmbSearchEvaluatorSummary.endReason summary = SmbEpisodeEndReason.None) ->
  (SmbSearchEvaluatorSummary.gameState summary = Some 1 <->
   NesSuperMarioBrosState.gameMode state = SmbGameMode.Normal) ->
  wp (finishChild (DfsFrame.nodeIndex f) parent f a prio savestate mem video state summary s) (ticked s).
Proof.
  intros [] Hterm Hmode. unfold finishChild.
  destruct (transpositionKey_total s state mem) as [key ->]. cbn [rbind]. cbv zeta.
  match goal with |- context [appendChild ?n key prio s] => set (node := n) end.
  rewrite classify_alive by done.
  rewrite (ap_options _ _ _ _ (appendChild_appended node key prio s)).
  match goal with |- context [bool_decide (?c = TraceEventType.ExpandedAlive)] => set (ev := c) end.
  match goal with |- context [recordTrace ?en (appendChild _ _ _ _)] => set (entry := en) end.
  set (s1 := set_progress_ _ _).
  assert (appended s node key s1) as Happ
    by (apply appended_trace, appendChild_appended).
  assert (isClosedLossCandidate (appendChild node key prio s) (nodeCount s) = true) as Hcand.
  { unfold isClosedLossCandidate.
    rewrite (child_nodeCount _ _ _ _ (appendChild_appended node key prio s)). lia. }
  rewrite Hcand. clearbody s1. apply wp_bind.
  apply (wp_mono _ (child_done s)).
  - case_bool_decide as Hev; cbn [andb].
    + eapply pushChild_done; done.
    + eapply pruneChild_done; try done; [by destruct (nonGameplay summary state) |].
      eapply pruned_reason; [exact xp_running0 | exact Hterm | exact Hmode | reflexivity | reflexivity | exact Hev].
  - intros s2 (Hrun & Hex & Hm & Hlt & Hc & Hr & Hpa). apply milestone_ok; try done; congruence.
Qed.

Lemma driver_same d s : same_search s (set_driver_ d s).
Proof. by split. Qed.

Lemma expanding_driver d s f0 f fs a : expanding s f0 f fs a -> expanding (set_driver_ d s) f0 f fs a.
Proof. intros []. split; try done. by eapply running_same; [apply driver_same |]. Qed.

Lemma ticked_driver d s p : ticked (set_driver_ d s) p -> ticked s p.
Proof.
  destruct p as [s' r]. intros (Hi & Hm & Hc & Hlt). split; [done |]. split; [| done].
  destruct Hm. by split.
Qed.

(** Moving the top frame on. *)
Definition advance_frame (f : DfsFrame.t) : DfsFrame.t :=
  DfsFrame.mk (DfsFrame.nodeIndex f) (u8 (DfsFrame.nextActionIndex f + 1)) (DfsFrame.actionOrdering f)
    (DfsFrame.closedLossCandidate f) (DfsFrame.closedLossBlockReason f).

Lemma was_alive_top cs f f' fs i :
  DfsFrame.nodeIndex f' = DfsFrame.nodeIndex f -> was_alive cs (f' :: fs) i -> was_alive cs (f :: fs) i.
Proof. intros He [Ho | Hc]; [left; by apply (on_stack_top f f') | by right]. Qed.

Lemma set_top_expanding s f fs :
  running s -> all_explored s -> completed_ s = false -> completionReason_ s = None ->
  dfsStack_ s = f :: fs ->
  DfsFrame.nextActionIndex f < SmbSearchActionOrdering.count (DfsFrame.actionOrdering f) ->
  (0 < SmbDfsSearchOptions.maxSearchedNodeCount (options_ s) ->
     nodeCount s <= SmbDfsSearchOptions.maxSearchedNodeCount (options_ s)) ->
  exists a, vec_get (SmbSearchActionOrdering.actions (DfsFrame.actionOrdering f)) (DfsFrame.nextActionIndex f) = Ok a /\
    expanding (set_top (advance_frame f) s) f (advance_frame f) fs a.
Proof.
  intros Hrun Hex Hc Hr Hst Hn Hb. pose proof (rn_tree _ Hrun) as Ht. rewrite Hst in Ht.
  destruct (stack_wf_frame _ _ f (tw_stack _ _ _ Ht) ltac:(by left)) as (Hir & [Hn0 _] & Hvo).
  destruct (valid_ordering_count _ Hvo) as [Hcnt Hlen].
  destruct (in_range_lookup (SmbSearchActionOrdering.actions (DfsFrame.actionOrdering f))
    (DfsFrame.nextActionIndex f)) as [a Ha]; [lia |].
  assert (DfsFrame.nextActionIndex (advance_frame f) = DfsFrame.nextActionIndex f + 1) as Hnext.
  { simpl. apply wrap_u_small. lia. }
  exists a. split; [by apply vec_get_ok |].
  assert (set_top (advance_frame f) s = set_dfsStack_ (advance_frame f :: fs) s) as ->
    by (unfold set_top; by rewrite Hst).
  assert (tree_wf (cores (nodes_ s)) (advance_frame f :: fs) (nodeOutcomes_ s)) as Ht'.
  { eapply (tree_top _ f); try done. split; [done |]. split; [| done]. rewrite Hnext. simpl. lia. }
  split; try done.
  - destruct Hrun. rewrite Hst in *. split; try done. simpl. intros i c Hci Ha'.
    apply (rn_best i c Hci). exact (was_alive_top _ f (advance_frame f) fs i eq_refl Ha').
  - simpl. unfold all_explored in Hex. by rewrite Hst in Hex.
Qed.

Lemma moved_top s f f' fs :
  dfsStack_ s = f :: fs -> DfsFrame.nodeIndex f' = DfsFrame.nodeIndex f -> moved s (set_top f' s).
Proof. intros Hst Hi. unfold set_top. rewrite Hst. by split. Qed.

Lemma ticked_top s f f' fs p :
  dfsStack_ s = f :: fs -> ticked (set_top f' s) p -> ticked s p.
Proof.
  intros Hst. destruct p as [s' r]. intros (Hi & Hm & Hc & Hlt). split; [done |].
  unfold set_top in *. rewrite Hst in *. destruct Hm. split; [by split |]. split; [done |].
  destruct Hlt as [[? | Hlt] Hpa]; (split; [| exact Hpa]); [by left | right]. unfold measure in *. rewrite Hst. exact Hlt.
Qed.

Lemma expandTick_ok d s f fs :
  running s -> all_explored s -> completed_ s = false -> completionReason_ s = None ->
  dfsStack_ s = f :: fs ->
  DfsFrame.nextActionIndex f < SmbSearchActionOrdering.count (DfsFrame.actionOrdering f) ->
  (0 < SmbDfsSearchOptions.maxSearchedNodeCount (options_ s) ->
     nodeCount s <= SmbDfsSearchOptions.maxSearchedNodeCount (options_ s)) ->
  wp (expandTick d f s) (ticked s).
Proof.
  intros Hrun Hex Hc Hr Hst Hn Hb.
  destruct (set_top_expanding s f fs Hrun Hex Hc Hr Hst Hn Hb) as (a & Ha & Hexp).
  unfold expandTick. rewrite Ha. cbn [rbind]. fold (advance_frame f).
  eapply wp_mono; [| intros p; by apply (ticked_top s f (advance_frame f) fs)].
  set (s1 := set_top (advance_frame f) s) in *. clearbody s1.
  pose proof (xp_tree _ _ _ _ _ Hexp) as Ht.
  destruct (stack_wf_frame _ _ f (tw_stack _ _ _ Ht) ltac:(by left)) as (Hir & _).
  rewrite cores_length in Hir. apply wp_bind, wp_vec_get; [done |]. intros parent Hparent.
  destruct (driver_loadRuntimeSavestate d (SmbSearchNode.savestate parent) 2000) as [d1 loaded].
  eapply wp_mono; [| intros p; by apply (ticked_driver (Some d1))].
  apply (expanding_driver (Some d1)) in Hexp. set (s2 := set_driver_ (Some d1) s1) in *. clearbody s2.
  destruct (negb loaded).
  { apply failTick_ok; [by destruct Hexp | apply moved_refl]. }
  destruct (driver_step d1 _) as [d2 step].
  eapply wp_mono; [| intros p; by apply (ticked_driver (Some d2))].
  apply (expanding_driver (Some d2)) in Hexp. set (s3 := set_driver_ (Some d2) s2) in *. clearbody s3.
  destruct (negb (StepResult.runtimeHealthy step) || negb (StepResult.runtimeRunning step)).
  { apply failTick_ok; [by destruct Hexp | apply moved_refl]. }
  destruct (StepResult.advancedFrames step =? 0).
  { apply failTick_ok; [by destruct Hexp | apply moved_refl]. }
  destruct (StepResult.memorySnapshot step) as [mem |].
  2:{ apply failTick_ok; [by destruct Hexp | apply moved_refl]. }
  apply wp_bind. eapply wp_mono; [apply extract_ok |]. intros state (near & _ & Hstate).
  assert (NesSuperMarioBrosState.phase state =
    NesSuperMarioBrosRamExtractor.decodePhase (NesSuperMarioBrosState.gameMode state) true) as Hphase
    by (by destruct near as [[e0 e1] c]; destruct Hstate as (-> & -> & _)).
  pose proof (evaluate_done (childEvaluator (SmbSearchNode.evaluatorSummary parent))
    (NesSuperMarioBrosEvaluator.mkInput (StepResult.advancedFrames step) state)) as Hdone.
  destruct (NesSuperMarioBrosEvaluator.evaluate _ _) as [e' o].
  destruct (driver_copyRuntimeSavestate d2) as [savestate |].
  2:{ apply failTick_ok; [by destruct Hexp | apply moved_refl]. }
  eapply (finishChild_ok s3 f (advance_frame f)); [exact Hexp | exact Hdone |].
  cbn. rewrite Hphase. unfold NesSuperMarioBrosRamExtractor.decodePhase. cbn [andb].
  destruct (bool_decide_reflect (NesSuperMarioBrosState.gameMode state = SmbGameMode.Normal)) as [-> | Hm]; done.
Qed.

(** ** Backtracking *)
Section Backtrack.
Context (s : t D) (f : DfsFrame.t) (fs : list DfsFrame.t).
Context (Hrun : running s) (Hex : all_explored s) (Hst : dfsStack_ s = f :: fs).
Context (Hnext : DfsFrame.nextActionIndex f = SmbSearchActionOrdering.count (DfsFrame.actionOrdering f)).

Lemma back_tree : tree_wf (cores (nodes_ s)) (f :: fs) (nodeOutcomes_ s).
Proof. rewrite <- Hst. apply rn_tree, Hrun. Qed.

(** The stack after the pop: the frame below hears of the outcome. *)
Definition popped_stack (r : BlockReason.t) : list DfsFrame.t :=
  match fs with
  | [] => []
  | g :: gs => noteChildOutcome (top_outcome f) r g :: gs
  end.

Lemma popped_on_stack r i : on_stack (popped_stack r) i -> on_stack fs i.
Proof.
  unfold popped_stack. destruct fs as [| g gs]; [done |]. apply on_stack_top.
  unfold noteChildOutcome. by case_bool_decide.
Qed.

Lemma popped_not_top r i : on_stack (popped_stack r) i -> i <> Z.to_nat (DfsFrame.nodeIndex f).
Proof.
  intros Ho%popped_on_stack. pose proof (on_stack_below _ _ _ _ _ back_tree Ho).
  pose proof (top_index_Z _ _ _ _ back_tree) as E. unfold top_index in E. lia.
Qed.

Lemma proven_popped keys j k e :
  proven (cores (nodes_ s)) keys (popped_outs f (nodeOutcomes_ s)) j k e <->
  proven (cores (nodes_ s)) keys (nodeOutcomes_ s) j k e \/
  (j = Z.to_nat (DfsFrame.nodeIndex f) /\
   proven (cores (nodes_ s)) keys (popped_outs f (nodeOutcomes_ s)) j k e).
Proof.
  pose proof (top_open _ _ _ _ back_tree) as Hto. fold (top_index f). split.
  - intros H. destruct (decide (j = top_index f)) as [-> | Hj]; [by right | left].
    destruct H as (c & Hc & Hk & Ho & He). exists c. do 2 (split; [done |]). split; [| done].
    apply (popped_lookup _ _ _ _ back_tree) in Ho as [[-> _] | [_ Ho]]; done.
  - intros [(c & Hc & Hk & Ho & He) | [_ ?]]; [| done]. exists c. do 2 (split; [done |]). split; [| done].
    apply popped_old; [| done]. intros ->. rewrite Hto in Ho. done.
Qed.

(** The state after the pop, up to what the invariant does not speak of. *)
Record popped (r : BlockReason.t) s' : Prop := mkPopped {
  pp_options : options_ s' = options_ s;
  pp_plan : plan_ s' = plan_ s;
  pp_prefix : rootPrefixFrames_ s' = rootPrefixFrames_ s;
  pp_cores : cores (nodes_ s') = cores (nodes_ s);
  pp_kept : forall j, j <> Z.to_nat (DfsFrame.nodeIndex f) -> nodes_ s' !! j = nodes_ s !! j;
  pp_stack : dfsStack_ s' = popped_stack r;
  pp_outcomes : nodeOutcomes_ s' = popped_outs f (nodeOutcomes_ s);
  pp_reasons : length (closedLossBlockReasons_ s') = length (closedLossBlockReasons_ s);
  pp_keys : closedLossTranspositionKeys_ s' = closedLossTranspositionKeys_ s;
  pp_tables : tables_wf (proven (cores (nodes_ s)) (closedLossTranspositionKeys_ s)
    (popped_outs f (nodeOutcomes_ s))) (closedLossTranspositionTable_ s') (closedLossTranspositionShapeTable_ s');
  pp_leaf : bestLeafIndex_ s' = bestLeafIndex_ s;
  pp_frontier : bestFrontier_ s' = bestFrontier_ s;
  pp_score : bestScore_ s' = bestScore_ s;
  pp_pfrontier : SearchProgress.bestFrontier (progress_ s') = SearchProgress.bestFrontier (progress_ s);
  pp_count : SearchProgress.searchedNodeCount (progress_ s') = SearchProgress.searchedNodeCount (progress_ s);
  pp_completed : completed_ s' = completed_ s;
  pp_completion : completionReason_ s' = completionReason_ s;
  pp_paused : paused_ s' = paused_ s
}.

(** The node that is popped has tried every action it was offered. *)
Lemma popped_exhausted : exhausted (cores (nodes_ s)) (top_index f).
Proof.
  exists (DfsFrame.actionOrdering f). split.
  - by destruct (stack_wf_frame _ _ f (tw_stack _ _ _ back_tree) ltac:(by left)) as (_ & _ & ?).
  - rewrite (top_index_Z _ _ _ _ back_tree). destruct Hex as [Hst' _]. rewrite Hst in Hst'.
    rewrite (Hst' f) by (by left). unfold offered. by rewrite Hnext.
Qed.

Lemma popped_nodes r s' : popped r s' -> length (nodes_ s') = length (nodes_ s).
Proof. intros []. by rewrite <- !cores_length, pp_cores0. Qed.

Lemma popped_running r s' : popped r s' -> running s'.
Proof.
  intros Hp. pose proof (popped_nodes _ _ Hp) as Hlen. destruct Hp, Hrun. pose proof back_tree as Ht.
  split.
  - by rewrite pp_options0.
  - rewrite pp_cores0, pp_stack0, pp_outcomes0. unfold popped_stack. destruct fs as [| g gs] eqn:Efs.
    + by apply (tree_pop_empty _ _ []).
    + by apply (tree_pop _ _ (g :: gs)).
  - congruence.
  - congruence.
  - by rewrite pp_cores0, pp_keys0, pp_outcomes0.
  - rewrite pp_leaf0, pp_frontier0, pp_score0, pp_prefix0, pp_plan0, pp_pfrontier0.
    eapply plan_good_extend; [| exact rn_plan]. by rewrite pp_cores0.
  - intros i c Hc Ha. rewrite pp_frontier0. rewrite pp_cores0, pp_stack0 in *. apply (rn_best i c Hc).
    destruct Ha as [Ho | ?]; [left | by right]. rewrite Hst. apply on_stack_cons. right.
    by eapply popped_on_stack.
  - unfold nodeCount in *. by rewrite pp_count0, Hlen.
  - unfold nodeCount in *. by rewrite pp_options0, Hlen.
  - rewrite pp_options0, pp_cores0, pp_keys0, pp_outcomes0.
    intros i o [[-> ->] | [Hi Ho]]%(popped_lookup _ _ _ _ Ht) Hne; [left; apply popped_exhausted |].
    destruct (rn_closed i o Ho Hne) as [? | (Hn & c & key & Hc & Hk & Hpr)]; [by left | right].
    split; [done |]. exists c, key. do 2 (split; [done |]). eapply pruned_as_mono; [| exact Hpr].
    intros j k e ?. apply proven_popped. by left.
Qed.

Lemma popped_explored r s' : popped r s' -> all_explored s'.
Proof.
  intros []. unfold all_explored in *. rewrite pp_cores0, pp_stack0, pp_outcomes0. rewrite Hst in Hex.
  pose proof (explored_pop _ _ _ _ back_tree Hex Hnext) as [H1 H2]. split; [| done].
  unfold popped_stack. destruct fs as [| g gs]; [by intros ? ?%elem_of_nil |].
  intros h [-> | Hh]%elem_of_cons; [| apply H1; by right].
  pose proof (H1 g ltac:(by left)) as Hg. unfold noteChildOutcome. by case_bool_decide.
Qed.

Lemma popped_moved r s' : popped r s' -> moved s s'.
Proof.
  intros []. split.
  - done.
  - by rewrite pp_frontier0.
  - by rewrite pp_cores0.
  - intros i Ho _. apply pp_kept0. rewrite pp_stack0 in Ho. by eapply popped_not_top.
  - intros i o Ho Hne. rewrite pp_outcomes0. apply popped_old; [| done].
    intros ->. rewrite (top_open _ _ _ _ back_tree) in Ho. congruence.
Qed.

Lemma popped_measure r s' : popped r s' -> measure s < measure s'.
Proof.
  intros Hp. pose proof (popped_nodes _ _ Hp) as Hlen. destruct Hp. unfold measure, nodeCount.
  rewrite Hlen, pp_stack0, Hst. unfold popped_stack. destruct fs; simpl; lia.
Qed.

Lemma backtrackTick_ok :
  wp (backtrackTick f s) (fun '(s', ro) => exists r, popped r s' /\
    match ro with Some res => TickResult.completed res = false | None => dfsStack_ s' = [] end).
Proof.
  pose proof back_tree as Ht. pose proof (top_index_Z _ _ _ _ Ht) as HiZ.
  pose proof (top_index_lt _ _ _ _ Ht) as Hlt. unfold top_index in HiZ, Hlt.
  pose proof (tw_len _ _ _ Ht) as Hol. rewrite cores_length in Hol. pose proof (rn_reasons _ Hrun) as Hrl.
  unfold backtrackTick. apply wp_bind, wp_vec_get; [lia |]. intros node Hnode.
  apply wp_bind, wp_vec_set; [lia |]. apply wp_bind, wp_vec_set; [simpl; lia |].
  fold (top_outcome f). fold (top_index f). fold (popped_outs f (nodeOutcomes_ s)).
  set (r := if DfsFrame.closedLossCandidate f then _ else _).
  match goal with |- wp (rbind (publishClosedLossTranspositionEntry _ ?S) _) _ => set (s1 := S) end.
  destruct (publish_ok (DfsFrame.nodeIndex f) s1) as (tb & sh & -> & Htb).
  { unfold nodeCount. simpl. lia. }
  { apply (rn_keys _ Hrun). }
  { simpl. unfold popped_outs. by rewrite length_insert. }
  specialize (Htb _ (rn_tables _ Hrun)). simpl in Htb. cbn [rbind]. simpl dfsStack_. rewrite Hst. cbn [tail].
  match goal with |- wp (rbind (releaseNodeHeavyData _ ?S) _) _ => set (s2 := S) end.
  destruct (release_ok (DfsFrame.nodeIndex f) s2) as (ns & -> & Hns & Hkept).
  { unfold nodeCount. simpl. lia. }
  simpl in Hns, Hkept. cbn [rbind]. simpl dfsStack_.
  assert (tables_wf (proven (cores (nodes_ s)) (closedLossTranspositionKeys_ s) (popped_outs f (nodeOutcomes_ s))) tb sh)
    as Htb'.
  { eapply tables_wf_equiv; [| exact Htb]. intros j k e. symmetry. apply proven_popped. }
  destruct fs as [| g gs] eqn:Efs.
  - exists r. split; [| done]. split; try done; simpl; [by unfold popped_stack; rewrite Efs | by rewrite length_insert].
  - destruct (stack_wf_frame _ (f :: g :: gs) g (tw_stack _ _ _ Ht) ltac:(right; by left)) as (Hig & _).
    unfold set_top. simpl dfsStack_. apply wp_bind, wp_vec_get.
    { simpl. rewrite <- (cores_length ns), Hns. exact Hig. }
    intros gn Hgn. exists r. split; [| done].
    match goal with |- popped r (updateRenderableState gn ?S) => set (s3 := S) end.
    assert (popped r s3) as Hp.
    { split; try done; simpl; [by unfold popped_stack; rewrite Efs | by rewrite length_insert]. }
    clearbody s3. pose proof (same_render gn s3) as Hsame.
    unfold updateRenderableState in *. destruct Hp.
    destruct (SmbSearchNode.scenarioVideoFrame gn); by split.
Qed.
End Backtrack.

(** ** The loop and the whole tick *)
Lemma completed_moved reason s s' :
  completed_with reason s s' -> idle s \/ running s -> moved s s'.
Proof.
  intros (Hc & _ & _ & Ho & Hidle & Hsame) [Hi | Hrun].
  - pose proof (Hidle Hi) as Hi'. split.
    + done.
    + rewrite (id_frontier _ Hi), (id_frontier _ Hi'). lia.
    + rewrite (id_nodes _ Hi). apply prefix_nil.
    + intros i _ Hlt. rewrite (id_nodes _ Hi) in Hlt. simpl in Hlt. lia.
    + intros i o Hio _. by rewrite (id_outcomes _ Hi) in Hio.
  - eapply moved_same; [apply moved_refl | auto].
Qed.

(** A tick that only ends the search. *)
Definition ended s (p : t D * TickResult.t) : Prop :=
  ticked s p /\ (running s -> same_search s (fst p)).

Lemma complete_ticked ev fa s :
  idle s \/ (running s /\ all_explored s) ->
  wp (let! s' := completeWithTraceEvent ev s in Ok (s', TickResult.mk true fa false None)) (ended s).
Proof.
  intros H. assert (idle s \/ running s) as H' by (destruct H as [? | [? _]]; auto).
  apply wp_bind. eapply wp_mono; [by apply completeWithTraceEvent_ok |].
  intros s' Hd. cbn [wp]. split; [| by apply Hd].
  split; [eapply completed_inv; [exact Hd |]; destruct H as [? | [? ?]]; auto |].
  split; [by eapply completed_moved |]. destruct Hd as (Hc & _ & Hpa & _). split; [done |]. split; [by left | by rewrite Hpa].
Qed.

Lemma tickLoop_empty fuel d s :
  idle s \/ (running s /\ all_explored s) -> dfsStack_ s = [] ->
  wp (tickLoop (S fuel) d s) (ended s).
Proof.
  intros H Hst. cbn [tickLoop]. match goal with |- context [if ?b then _ else _] => destruct b end.
  - by apply complete_ticked.
  - rewrite Hst. by apply complete_ticked.
Qed.

Lemma budget_test s :
  running s ->
  (0 <? SmbDfsSearchOptions.maxSearchedNodeCount (options_ s))
    && (SmbDfsSearchOptions.maxSearchedNodeCount (options_ s)
          <=? SearchProgress.searchedNodeCount (progress_ s)) = false ->
  0 < SmbDfsSearchOptions.maxSearchedNodeCount (options_ s) ->
  nodeCount s <= SmbDfsSearchOptions.maxSearchedNodeCount (options_ s).
Proof.
  intros Hrun Hb Hpos. pose proof (rn_count _ Hrun) as Hc. pose proof (rn_budget _ Hrun Hpos) as Hbud.
  pose proof (rn_options _ Hrun) as Ho. unfold options_wf in Ho.
  destruct (tw_root _ _ _ (rn_tree _ Hrun)) as (r & Hr & _). apply lookup_lt_Some in Hr.
  rewrite cores_length in Hr. rewrite Hc, wrap_u_small in Hb by (unfold nodeCount in *; lia).
  apply andb_false_iff in Hb as [Hb | Hb]; lia.
Qed.

Lemma tickLoop_ok d s :
  inv s -> completed_ s = false -> wp (tickLoop 2 d s) (ticked s).
Proof.
  intros [Hcr Hinv] Hc.
  assert (completionReason_ s = None) as Hr.
  { destruct (completionReason_ s); [| done]. destruct Hcr as [_ Hcr]. rewrite Hc in Hcr.
    by discriminate Hcr. }
  destruct Hinv as [Hi | [Hrun [? | Hex]]]; [| congruence |].
  { eapply wp_mono; [apply tickLoop_empty; [by left | apply Hi] |]. by intros p [? _]. }
  destruct (dfsStack_ s) as [| f fs] eqn:Hst.
  { eapply wp_mono; [by apply tickLoop_empty; [right |] |]. by intros p [? _]. }
  assert (exists n, n = 1%nat) as [n En] by eauto. change 2%nat with (S 1%nat). rewrite <- En. cbn [tickLoop]. rewrite Hst.
  match goal with |- context [if ?b then _ else _] => destruct b eqn:Hb end.
  { eapply wp_mono; [apply complete_ticked; auto |]. by intros p [? _]. }
  pose proof (budget_test s Hrun Hb) as Hbud.
  match goal with |- context [if ?b then _ else _] => destruct b eqn:Hn end; [| by eapply expandTick_ok; try done; lia].
  pose proof (rn_tree _ Hrun) as Ht. rewrite Hst in Ht.
  destruct (stack_wf_frame _ (f :: fs) f (tw_stack _ _ _ Ht) ltac:(by left)) as (_ & [_ Hle] & _).
  apply wp_bind. eapply wp_mono; [by eapply backtrackTick_ok |]. intros [s' ro] (r & Hp & Hro).
  assert (DfsFrame.nextActionIndex f = SmbSearchActionOrdering.count (DfsFrame.actionOrdering f)) as Heq
    by (apply Z.leb_le in Hn; lia).
  pose proof (popped_running s f fs Hrun Hex Hst Heq r s' Hp) as Hrun'.
  pose proof (popped_explored s f fs Hrun Hex Hst Heq r s' Hp) as Hex'.
  pose proof (popped_moved s f fs Hrun Hst r s' Hp) as Hm.
  pose proof (popped_measure s f fs Hst r s' Hp) as Hlt.
  destruct ro as [res |].
  - cbn [wp]. split; [split; [| right; auto] | split; [done | split; [| split; [by right | by rewrite (pp_paused _ _ _ _ _ Hp)]]]].
    + rewrite (pp_completed _ _ _ _ _ Hp), (pp_completion _ _ _ _ _ Hp), Hc, Hr. split; [done |]. by intros [? ?].
    + by rewrite Hro, (pp_completed _ _ _ _ _ Hp).
  - subst n. eapply wp_mono; [apply tickLoop_empty; auto |].
    intros [s2 r2] [(Hi2 & _ & Hc2 & Hp2 & Hpa2) Hsame]. specialize (Hsame Hrun'). simpl in Hsame.
    split; [done |]. split; [by eapply moved_same |]. split; [done |].
    split; [destruct Hp2 as [? | ?]; [by left | right; lia] |].
    rewrite <- (pp_paused _ _ _ _ _ Hp). exact Hpa2.
Qed.

End Tick.
