(* ===== verification/SmbDfsCorrect.v ===== *)
(** The correctness of the depth-first search: what holds in every state that
    some sequence of its public operations can reach. *)

From Stdlib Require Import ZArith Lia Bool String.
From stdpp Require Import base gmap option numbers list.
From S2P Require Import Prelude Ieee NesTypes SmbEvaluator SmbRam SmbAdapter.
From S2P Require Import SmbSearchCore SmbDfsSearch SmbDfsTree SmbDfsFacts.
From S2P Require Import SmbDfsInvariant SmbDfsSteps SmbDfsTick.

Set Default Goal Selector "!".

Section Operations.
Context {D : Type} `{HD : NesDriver D}.
Import SmbDfsSearch.
Implicit Types (s : t D).

(** The public operations that change the state. *)
Inductive operation :=
  | StartDfs
  | StartFromFixture (fixture : Fixture)
  | Tick
  | PauseSet (paused : bool)
  | Stop.

Definition apply_op (op : operation) s : res (t D) :=
  match op with
  | StartDfs => let! r := startDfs s in Ok (fst r)
  | StartFromFixture fixture => let! r := startFromFixture fixture s in Ok (fst r)
  | Tick => let! r := tick s in Ok (fst r)
  | PauseSet b => Ok (pauseSet b s)
  | Stop => stop s
  end.

Fixpoint apply_ops (ops : list operation) s : res (t D) :=
  match ops with
  | [] => Ok s
  | op :: ops' => let! s' := apply_op op s in apply_ops ops' s'
  end.

Definition reachable (options : SmbDfsSearchOptions.t) s : Prop :=
  exists ops, apply_ops ops (make options) = Ok s.

Fixpoint ticks (n : nat) s : res (t D) :=
  match n with
  | O => Ok s
  | S n' => let! r := tick s in ticks n' (fst r)
  end.

(** ** [tick], [pauseSet] and [stop] *)
Lemma tick_ok s :
  inv s -> wp (tick s) (fun '(s', r) => inv s' /\ moved s s' /\ TickResult.completed r = completed_ s' /\
    (completed_ s' = true \/ s' = s /\ paused_ s = true \/ measure s < measure s') /\
    (paused_ s' = true -> paused_ s = true)).
Proof.
  intros Hi. unfold tick. destruct (completed_ s) eqn:Hc.
  { cbn [wp]. split; [done |]. split; [apply moved_refl |]. split; [done |]. split; [by left | done]. }
  destruct (paused_ s) eqn:Hp.
  { cbn [wp]. split; [done |]. split; [apply moved_refl |]. split; [done |]. split; [auto | done]. }
  destruct (driver_ s) as [d |].
  - eapply wp_mono; [by apply tickLoop_ok |]. intros [s' r] (H1 & H2 & H3 & H4 & H5).
    do 3 (split; [done |]). split; [destruct H4; auto | by rewrite Hp in H5].
  - destruct Hi as [Hcr Hi]. assert (idle s \/ running s) as Hir by (destruct Hi as [? | [? _]]; auto).
    apply wp_bind. eapply wp_mono; [by apply completeWithError_ok |]. intros s' [Hd Hmsg]. cbn [wp].
    split; [eapply completed_inv; [exact Hd |]; destruct Hi as [? | [? _]]; auto |].
    split; [by eapply completed_moved |]. destruct Hd as (Hc' & _ & Hpa & _). split; [done |]. split; [by left | by rewrite Hpa].
Qed.

Lemma pauseSet_same b s : same_search s (pauseSet b s).
Proof. by split. Qed.

Lemma inv_same s s' :
  same_search s s' -> completed_ s' = completed_ s -> completionReason_ s' = completionReason_ s ->
  inv s -> inv s'.
Proof.
  intros Hs Hc Hr [H1 H2]. split; [by rewrite Hc, Hr |]. rewrite Hr.
  destruct H2 as [Hi | [Hrun H]]; [left; by eapply idle_same | right].
  split; [by eapply running_same |]. destruct H; [by left | right; by eapply all_explored_same].
Qed.

Lemma stop_ok s : inv s -> wp (stop s) (fun s' => inv s' /\ moved s s' /\ completed_ s' = true).
Proof.
  intros [Hcr Hi]. unfold stop. destruct (completed_ s) eqn:Hc.
  { cbn [wp]. split; [| split; [apply moved_refl | done]]. split; [by rewrite Hc | done]. }
  assert (completionReason_ s = None) as Hr.
  { destruct (completionReason_ s); [| done]. destruct Hcr as [_ Hcr]. by discriminate Hcr. }
  destruct Hi as [Hi | [Hrun [? | Hex]]]; [| congruence |].
  - destruct (rebuild_idle s Hi) as (p & -> & _). cbn [rbind]. cbv zeta. simpl bestLeafIndex_.
    rewrite (id_leaf _ Hi). cbn [wp]. destruct Hi.
    split; [split; [done | left; by split] |]. split; [| done]. by split.
  - rewrite (rebuild_running s Hrun). cbn [rbind]. cbv zeta. simpl bestLeafIndex_.
    destruct (rn_plan _ Hrun) as (b & c & acts & -> & Hb & Hc' & _).
    rewrite cores_lookup in Hc'. destruct (nodes_ s !! Z.to_nat b) as [n |] eqn:Hn; [| done].
    simpl nodes_. rewrite (vec_get_ok _ _ _ Hb Hn). cbn [rbind wp].
    match goal with |- inv ?S /\ _ => assert (same_search s S) as Hs by (by split) end.
    split; [| split; [eapply moved_same; [apply moved_refl | exact Hs] | done]].
    split; [done |]. right. split; [by eapply running_same |]. right. by eapply all_explored_same.
Qed.

(** ** Starting *)
Record fresh s : Prop := mkFresh {
  fr_idle : idle s;
  fr_count : SearchProgress.searchedNodeCount (progress_ s) = 0;
  fr_completed : completed_ s = false;
  fr_paused : paused_ s = false;
  fr_reason : completionReason_ s = None;
  fr_driver : is_Some (driver_ s)
}.

Lemma fresh_driver d s : fresh s -> fresh (set_driver_ (Some d) s).
Proof. intros []. split; try done. by eapply idle_same; [apply driver_same |]. Qed.

Lemma fresh_prefix v s : fresh s -> fresh (set_rootPrefixFrames_ v s).
Proof. intros [[] ? ? ? ? ?]. split; [by split | done..]. Qed.

Lemma fresh_inv s : fresh s -> inv s.
Proof.
  intros []. split; [| by left]. rewrite fr_completed0, fr_reason0. split; [done |]. by intros [? ?].
Qed.

Lemma inv_options s : inv s -> options_wf (options_ s).
Proof. intros [_ [[] | [[] _]]]; done. Qed.

Lemma initializeRuntime_ok s :
  inv s -> let '(s', r) := initializeRuntime s in
  inv s' /\ options_ s' = options_ s /\ (r = okay tt -> fresh s').
Proof.
  intros Hi. unfold initializeRuntime.
  assert (forall d, inv (set_driver_ d s)) as Hd
    by (intros d; eapply inv_same; [apply driver_same | done..]).
  destruct (driver_setConfig driver_make) as [d1 [[] | e]]; [| by split; [apply Hd |]].
  destruct (driver_setup d1) as [d2 [[] | e]].
  - match goal with |- inv ?S /\ _ => assert (fresh S) as Hf end.
    { split; try done. split; try done. exact (inv_options s Hi). }
    split; [by apply fresh_inv |]. done.
  - split; [| done]. eapply inv_same; [apply driver_same | done..].
Qed.

(** A started search: the root alone. *)
Definition started s : Prop :=
  running s /\ all_explored s /\ nodeCount s = 1 /\ length (dfsStack_ s) = 1%nat /\
  completed_ s = false /\ paused_ s = false /\ completionReason_ s = None /\ is_Some (driver_ s).

Lemma root_tree c f :
  c_parent c = None -> c_action c = None -> DfsFrame.nodeIndex f = 0 -> DfsFrame.nextActionIndex f = 0 ->
  DfsFrame.closedLossCandidate f = true -> valid_ordering (DfsFrame.actionOrdering f) ->
  tree_wf [c] [f] [SmbSearchNodeOutcome.Open] /\ explored [c] [f] [SmbSearchNodeOutcome.Open].
Proof.
  intros Hp Ha Hi Hn Hc Hv. assert (forall i j, ~ child_of [c] i j) as Hno.
  { intros i [| j] (d & Hd & Hpd); simpl in Hd; [congruence | done]. }
  pose proof (valid_ordering_count _ Hv) as [Hcnt _]. split; [split |].
  - done.
  - by exists c.
  - intros [| j] d Hd Hj; [done | done].
  - apply stack_root; [| done]. split; [rewrite Hi; simpl; lia |]. split; [lia | done].
  - intros [| i] o Ho; simpl in Ho; [| done]. simplify_eq. split; [| done].
    intros _. exists f. split; [by left | done].
  - intros i j _ Hch. by apply Hno in Hch.
  - intros i Hi'. right. apply children_none. apply Hno.
  - intros g ->%list_elem_of_singleton. rewrite Hc. split; [done |]. intros (j & Hch & _). by apply Hno in Hch.
  - split.
    + intros g ->%list_elem_of_singleton. rewrite Hn. change (Z.to_nat 0) with 0%nat. rewrite take_0. apply children_none, Hno.
    + intros i o Hi' Hne. left. apply children_none, Hno.
Qed.

Lemma initializeRootNode_ok d savestate summary mem video s :
  fresh s -> wp (initializeRootNode d savestate summary mem video s)
    (fun s' => started s' /\ options_ s' = options_ s).
Proof.
  intros [Hidle Hcount Hcomp Hpaused Hreason Hdriver]. unfold initializeRootNode.
  destruct (buildDfsActionOrder_total false fzero SmbSearchHorizontalDirection.None None
    (SmbDfsSearchOptions.groundedVerticalJumpPrioritizationEnabled (options_ s))) as (o & Ho & Hvo).
  cbv zeta. simpl options_. rewrite Ho. cbn [rbind].
  set (root := SmbSearchNode.mk _ _ _ _ _ _ _ _ _ _).
  match goal with |- wp (let! _ := vec_get (nodes_ ?S) 0 in _) _ => set (s0 := S) end.
  assert (nodes_ s0 = [root]) as Hn0 by (unfold s0; simpl; by rewrite (id_nodes _ Hidle)).
  rewrite Hn0. change (vec_get [root] 0) with (Ok root). cbn [rbind].
  match goal with |- wp (let! _ := rebuildBestPlan (set_progress_ _ ?S) in _) _ => set (s1 := S) end.
  assert (nodes_ s1 = [root] /\ options_ s1 = options_ s /\ closedLossTranspositionKeys_ s1 = [None] /\
    nodeOutcomes_ s1 = [SmbSearchNodeOutcome.Open] /\ length (closedLossBlockReasons_ s1) = 1%nat /\
    dfsStack_ s1 = [DfsFrame.mk 0 0 o true BlockReason.None] /\
    closedLossTranspositionTable_ s1 = ∅ /\ closedLossTranspositionShapeTable_ s1 = ∅ /\
    bestLeafIndex_ s1 = Some 0 /\ bestFrontier_ s1 = SmbSearchEvaluatorSummary.bestFrontier summary /\
    bestScore_ s1 = SmbSearchEvaluatorSummary.evaluationScore summary /\
    SearchProgress.bestFrontier (progress_ s1) = SmbSearchEvaluatorSummary.bestFrontier summary /\
    SearchProgress.searchedNodeCount (progress_ s1) = 0 /\ completed_ s1 = false /\
    paused_ s1 = false /\ completionReason_ s1 = None /\ driver_ s1 = driver_ s)
    as (Hn & Hopt & Hk & Hout & Hrl & Hst & Htb & Hsh & Hl & Hf & Hsc & Hpf & Hcnt & Hcp & Hpa & Hre & Hdr).
  { destruct s. destruct Hidle. simpl in *. subst.
    unfold s1, updateRenderableState. by destruct (SmbSearchNode.scenarioVideoFrame root). }
  clearbody s1.
  set (s2 := set_progress_ (SearchProgress.set_lastSearchEvent SearchProgressEvent.RootInitialized
    (progress_ s1)) s1).
  destruct (root_tree (core_of root) (DfsFrame.mk 0 0 o true BlockReason.None)) as [Ht Hex]; try done.
  assert (plan_path [root] 0 []) as Hpath by (by apply (path_root _ 0 root)).
  assert (parents_wf [root]) as Hpw.
  { intros [| i] n p Hni Hp; simpl in Hni; [by simplify_eq | done]. }
  rewrite (rebuildBestPlan_leaf 0 []); [| done | by unfold nodeCount; simpl; rewrite Hn
    | by simpl; rewrite Hn | by simpl; rewrite Hn].
  cbn [rbind wp]. simpl. unfold started, all_explored, nodeCount. simpl.
  rewrite Hn, Hout, Hst, Hcp, Hpa, Hre, Hdr. split; [| done]. split; [| done].
  split; simpl.
  - rewrite Hopt. apply Hidle.
  - by rewrite Hn, Hst, Hout.
  - by rewrite Hn, Hrl.
  - by rewrite Hn, Hk.
  - rewrite Hn, Hk, Hout, Htb, Hsh.
    assert (forall i k e, ~ proven (cores [root]) [None] [SmbSearchNodeOutcome.Open] i k e) as Hnp.
    { intros [| i] k e (c & _ & Hki & Hoi & _); simpl in *; [done | done]. }
    split.
    + intros k e Hke. by rewrite lookup_empty in Hke.
    + intros i k e Hp. by apply Hnp in Hp.
    + intros k e Hke. by rewrite lookup_empty in Hke.
    + intros i k e Hp. by apply Hnp in Hp.
  - rewrite Hn. exists 0, (core_of root), []. repeat split; try done; simpl; congruence.
  - rewrite Hn. intros [| i] c Hci _; simpl in Hci; [| done].
    injection Hci as <-. rewrite Hf. done.
  - by rewrite Hcnt; unfold nodeCount; simpl; rewrite Hn.
  - unfold nodeCount. simpl. rewrite Hn. simpl. lia.
  - rewrite Hout. intros [| i] o' Hi Hne; simpl in Hi; [by injection Hi as <- | done].
Qed.

Lemma started_inv s : started s -> inv s.
Proof.
  intros (Hrun & Hex & _ & _ & Hc & _ & Hr & _). split; [| right; auto].
  rewrite Hc, Hr. split; [done |]. by intros [? ?].
Qed.

Definition start_post s (p : t D * Result unit string) : Prop :=
  inv (fst p) /\ options_ (fst p) = options_ s /\ (snd p = okay tt -> started (fst p)).

Lemma captureRoot_ok fuel d a g frames s0 s :
  fresh s -> options_ s = options_ s0 -> wp (captureRoot fuel d a g frames s) (start_post s0).
Proof.
  revert d a g frames s. induction fuel as [| fuel IH]; intros d a g frames s Hf Ho; cbn [captureRoot].
  { cbn [wp]. split; [by apply fresh_inv | done]. }
  cbv zeta. destruct (driver_step d _) as [d1 step].
  assert (fresh (set_driver_ (Some d1) s)) as Hf1 by (by apply fresh_driver).
  destruct (negb (StepResult.runtimeHealthy step) || negb (StepResult.runtimeRunning step)).
  { cbn [wp]. split; [by apply fresh_inv | done]. }
  destruct (StepResult.advancedFrames step =? 0); [by apply IH |].
  apply wp_bind. eapply wp_mono; [apply evaluateFrame_ok |]. intros [a' ev] _.
  match goal with |- wp (if ?b then _ else _) _ => destruct b end; [by apply IH |].
  destruct (driver_copyRuntimeSavestate d1) as [savestate |].
  - apply wp_bind. eapply wp_mono; [apply initializeRootNode_ok, fresh_prefix, Hf1 |].
    intros s' [Hs Ho']. cbn [wp]. split; [by apply started_inv |]. simpl in *. split; [congruence | done].
  - cbn [wp]. split; [by apply fresh_inv | done].
Qed.

Lemma startDfs_ok s : inv s -> wp (startDfs s) (start_post s).
Proof.
  intros Hi. pose proof (initializeRuntime_ok s Hi) as H. unfold startDfs.
  destruct (initializeRuntime s) as [s1 [[] | e]]; destruct H as (Hi1 & Ho & Hf); [| done].
  specialize (Hf eq_refl). destruct (fr_driver _ Hf) as [d ->]. by apply captureRoot_ok.
Qed.

Lemma startFromFixture_ok fx s : inv s -> wp (startFromFixture fx s) (start_post s).
Proof.
  intros Hi. pose proof (initializeRuntime_ok s Hi) as H. unfold startFromFixture.
  destruct (initializeRuntime s) as [s1 [[] | e]]; destruct H as (Hi1 & Ho & Hf); [| done].
  specialize (Hf eq_refl). destruct (fr_driver _ Hf) as [d ->].
  destruct (driver_loadRuntimeSavestate d (fx_savestate fx) 2000) as [d1 loaded]. cbv zeta.
  assert (fresh (set_driver_ (Some d1) s1)) as Hf1 by (by apply fresh_driver).
  destruct (negb loaded).
  { cbn [wp]. split; [by apply fresh_inv | done]. }
  apply wp_bind. eapply wp_mono; [apply initializeRootNode_ok, fresh_prefix, Hf1 |].
  intros s' [Hs Ho']. cbn [wp]. split; [by apply started_inv |]. simpl in *. split; [congruence | done].
Qed.

(** ** Every operation keeps the invariant *)
Lemma make_inv options : options_wf options -> inv (make options : t D).
Proof. intros Ho. split; [split; [done | by intros [? ?]] | by left]. Qed.

Lemma apply_op_ok op s :
  inv s -> wp (apply_op op s) (fun s' => inv s' /\ options_ s' = options_ s).
Proof.
  intros Hi. destruct op; cbn [apply_op].
  - apply wp_bind. eapply wp_mono; [by apply startDfs_ok |]. intros [s' r] (H1 & H2 & _). done.
  - apply wp_bind. eapply wp_mono; [by apply startFromFixture_ok |]. intros [s' r] (H1 & H2 & _). done.
  - apply wp_bind. eapply wp_mono; [by apply tick_ok |]. intros [s' r] (H1 & H2 & _).
    split; [done | apply H2].
  - cbn [wp]. split; [| done]. by eapply inv_same; [apply pauseSet_same | ..].
  - eapply wp_mono; [by apply stop_ok |]. intros s' (H1 & H2 & _). split; [done | apply H2].
Qed.

Lemma apply_ops_ok ops s :
  inv s -> wp (apply_ops ops s) (fun s' => inv s' /\ options_ s' = options_ s).
Proof.
  revert s. induction ops as [| op ops IH]; intros s Hi; cbn [apply_ops]; [done |].
  apply wp_bind. eapply wp_mono; [by apply apply_op_ok |]. intros s1 [Hi1 Ho1].
  eapply wp_mono; [by apply IH |]. intros s2 [Hi2 Ho2]. split; [done | congruence].
Qed.

Lemma reachable_inv options s : options_wf options -> reachable options s -> inv s /\ options_ s = options.
Proof.
  intros Ho [ops Hs]. pose proof (apply_ops_ok ops (make options) (make_inv _ Ho)) as H.
  rewrite Hs in H. exact H.
Qed.

End Operations.

(** ** Specifications used by the properties *)
(** [j] is [i] or one of its descendants. *)
Inductive descends (cs : list core) : nat -> nat -> Prop :=
| descends_refl i : descends cs i i
| descends_child i k j : child_of cs (Z.of_nat i) k -> descends cs k j -> descends cs i j.

Section Derived.
Context {D : Type} `{HD : NesDriver D}.
Import SmbDfsSearch.
Implicit Types (s : t D).

Lemma closed_descends cs stack outs i j :
  tree_wf cs stack outs -> descends cs i j -> outs !! i = Some SmbSearchNodeOutcome.ClosedLoss ->
  outs !! j = Some SmbSearchNodeOutcome.ClosedLoss.
Proof.
  intros Ht. induction 1 as [i | i k j Hc _ IH]; intros Hi; [done |].
  apply IH. by eapply (tw_closed _ _ _ Ht).
Qed.

(** A node that is closed without being a loss leads to a leaf that is not one. *)
Lemma notclosed_leaf cs stack outs i :
  tree_wf cs stack outs -> outs !! i = Some SmbSearchNodeOutcome.NotClosedLoss ->
  exists j, descends cs i j /\ outs !! j = Some SmbSearchNodeOutcome.NotClosedLoss /\
    children_actions cs (Z.of_nat j) = [].
Proof.
  intros Ht. remember (length cs - i)%nat as m eqn:Em. revert i Em.
  induction (lt_wf m) as [m _ IH]. intros i Em Hi.
  destruct (tw_notclosed _ _ _ Ht i Hi) as [(k & Hc & Hk) | Hn].
  - pose proof (child_parent_lt _ _ _ _ _ Ht Hc) as Hlt. pose proof (child_of_lt _ _ _ Hc) as Hl.
    destruct (IH (length cs - k)%nat ltac:(lia) k eq_refl Hk) as (j & Hd & Hj).
    exists j. split; [by eapply descends_child | done].
  - exists i. split; [apply descends_refl | done].
Qed.

(** An expanded node has children: every ordering offers something. *)
Lemma exhausted_children cs i : exhausted cs i -> children_actions cs (Z.of_nat i) <> [].
Proof.
  intros (ord & Hv & ->) E. destruct (valid_ordering_count _ Hv) as [Hc Hl].
  apply (f_equal length) in E. unfold offered in E. rewrite length_take, Hl in E. simpl in E. lia.
Qed.

(** The states the tables speak of. *)
Lemma inv_tables s :
  inv s -> tables_wf (proven (cores (nodes_ s)) (closedLossTranspositionKeys_ s) (nodeOutcomes_ s))
    (closedLossTranspositionTable_ s) (closedLossTranspositionShapeTable_ s).
Proof.
  intros [_ [[] | [Hrun _]]]; [| apply rn_tables, Hrun].
  rewrite id_nodes, id_keys, id_outcomes, id_table, id_shapes.
  assert (forall i k e, ~ proven (cores []) [] [] i k e) as Hno by (intros i k e (c & Hc & _); done).
  split.
  - intros k e Hk. by rewrite lookup_empty in Hk.
  - intros i k e Hp. by apply Hno in Hp.
  - intros k e Hk. by rewrite lookup_empty in Hk.
  - intros i k e Hp. by apply Hno in Hp.
Qed.

(** The measure bounds the number of ticks. *)
Lemma measure_bound s :
  inv s -> 0 < SmbDfsSearchOptions.maxSearchedNodeCount (options_ s) ->
  0 <= measure s <= 2 * (SmbDfsSearchOptions.maxSearchedNodeCount (options_ s) + 1) /\
  nodeCount s <= SmbDfsSearchOptions.maxSearchedNodeCount (options_ s) + 1.
Proof.
  intros [_ [[] | [Hrun _]]] Hpos; unfold measure, nodeCount.
  - rewrite id_nodes, id_stack. simpl. lia.
  - pose proof (rn_budget _ Hrun Hpos) as Hb. unfold nodeCount in Hb.
    assert (length (dfsStack_ s) <= length (nodes_ s))%nat as Hl; [| lia].
    rewrite <- cores_length. pose proof (rn_tree _ Hrun) as Ht.
    pose proof (tw_stack _ _ _ Ht) as Hs. revert Hs. generalize (dfsStack_ s) as st. intros st Hs.
    assert (forall f fs, stack_wf (cores (nodes_ s)) (f :: fs) ->
      Z.of_nat (length (f :: fs)) <= DfsFrame.nodeIndex f + 1) as H.
    { intros f fs. revert f. induction fs as [| g gs IH]; intros f Hf.
      - inversion Hf as [| ? Hok _ |]; subst. destruct Hok as ([? ?] & _). simpl. lia.
      - inversion Hf as [| | ? ? ? Hok Hch Hrest]; subst. specialize (IH g Hrest).
        pose proof (child_parent_lt _ _ _ _ _ Ht Hch) as Hlt. destruct Hok as ([? ?] & _).
        simpl in *. lia. }
    destruct st as [| f fs]; [simpl; lia |]. specialize (H f fs Hs).
    destruct (stack_wf_frame _ _ f Hs ltac:(by left)) as ([? ?] & _). lia.
Qed.

Lemma ticks_completed n s : completed_ s = true -> ticks n s = Ok s.
Proof.
  intros Hc. induction n as [| n IH]; [done |]. cbn [ticks]. unfold tick. by rewrite Hc.
Qed.

Lemma ticks_measure n s :
  inv s -> paused_ s = false ->
  wp (ticks n s) (fun s' => inv s' /\ options_ s' = options_ s /\
    (completed_ s' = true \/ measure s + Z.of_nat n <= measure s')).
Proof.
  revert s. induction n as [| n IH]; intros s Hi Hp; cbn [ticks].
  { cbn [wp]. split; [done |]. split; [done |]. right. lia. }
  apply wp_bind. eapply wp_mono; [by apply tick_ok |]. intros [s1 r] (Hi1 & Hm & _ & Hprog & Hpa).
  cbn [fst]. destruct (completed_ s1) eqn:Hc1.
  { rewrite ticks_completed by done. cbn [wp]. split; [done |]. split; [apply Hm | by left]. }
  assert (paused_ s1 = false) as Hp1.
  { destruct (paused_ s1); [| done]. specialize (Hpa eq_refl). congruence. }
  eapply wp_mono; [by apply IH |]. intros s2 (Hi2 & Ho2 & H2).
  split; [done |]. split; [rewrite Ho2; apply Hm |].
  destruct Hprog as [? | [[-> ?] | Hlt]]; [congruence | congruence |].
  destruct H2; [by left | right; lia].
Qed.

End Derived.

(** ** Properties *)
Section Properties.
Context {D : Type} `{HD : NesDriver D}.
Import SmbDfsSearch.
Implicit Types (s : t D).

(** C1. No sequence of starts, ticks, pauses and stops ever faults, whatever the
    emulator does: no index is out of range, no snapshot read throws, no
    assertion fails and the loop of [tick] ends.  In the state it leaves, the
    parallel vectors have one entry per node, the stack is a path of parents down
    from its top to the root, a node is open exactly when it has a frame, and the
    search is completed exactly when it has a completion reason. *)
Theorem dfs_total (options : SmbDfsSearchOptions.t) (ops : list operation) :
  options_wf options ->
  exists s : t D, apply_ops ops (make options) = Ok s /\ options_ s = options /\
    (completed_ s = true <-> is_Some (completionReason_ s)) /\
    length (nodeOutcomes_ s) = length (nodes_ s) /\
    length (closedLossBlockReasons_ s) = length (nodes_ s) /\
    length (closedLossTranspositionKeys_ s) = length (nodes_ s) /\
    stack_wf (cores (nodes_ s)) (dfsStack_ s) /\
    forall i o, nodeOutcomes_ s !! i = Some o ->
      (o = SmbSearchNodeOutcome.Open <-> on_stack (dfsStack_ s) i).
Proof.
  intros Ho. pose proof (apply_ops_ok ops (make options : t D) (make_inv _ Ho)) as H.
  apply wp_elim in H as (s & Hs & [Hcr Hi] & Hopt). exists s. do 3 (split; [done |]).
  destruct Hi as [[] | [[] _]].
  - rewrite id_nodes, id_stack, id_outcomes, id_reasons, id_keys. do 3 (split; [done |]).
    split; [constructor |]. intros i o Hi. done.
  - split; [rewrite (tw_len _ _ _ rn_tree); apply cores_length |].
    do 2 (split; [done |]). split; [apply rn_tree | apply rn_tree].
Qed.

(** C4. The plan of a search that has nodes is always the frames of its root
    prefix followed by the controller frames of the actions on the path to the
    best leaf, its summary carries that leaf's frontier and the length of the
    plan, and no node that was ever kept alive (open, or with children) is
    further than it. *)
Theorem dfs_best_plan (options : SmbDfsSearchOptions.t) s :
  options_wf options -> reachable options s -> nodes_ s <> [] ->
  exists b c acts, bestLeafIndex_ s = Some b /\ cores (nodes_ s) !! Z.to_nat b = Some c /\
    plan_path (nodes_ s) b acts /\
    plan_frames (getPlan s) = rootPrefixFrames_ s ++ frames_of acts /\
    ps_bestFrontier (plan_summary (getPlan s)) = frontier_of c /\
    ps_elapsedFrames (plan_summary (getPlan s)) = Z.of_nat (length (plan_frames (getPlan s))) /\
    SearchProgress.bestFrontier (getProgress s) = frontier_of c /\
    forall i c', cores (nodes_ s) !! i = Some c' ->
      was_alive (cores (nodes_ s)) (dfsStack_ s) i -> frontier_of c' <= frontier_of c.
Proof.
  intros Ho Hr Hne. destruct (reachable_inv options s Ho Hr) as [[_ [[] | [Hrun _]]] _]; [done |].
  destruct (rn_plan _ Hrun) as (b & c & acts & Hl & Hb & Hc & Hp & Hf & _ & Hpf & Hplan).
  exists b, c, acts. unfold getPlan, getProgress. rewrite Hplan, Hpf. cbn. rewrite <- Hf.
  do 7 (split; [done |]). intros i c' Hc' Ha. by apply (rn_best _ Hrun i).
Qed.

(** C5. Closed losses are what the name says, and no node is closed without a
    reason.  Every closed node has either tried all the actions its ordering
    offered, at least one, in that order, or it is a leaf that was pruned: as not
    a loss exactly when the game left gameplay without ending the episode; as a
    loss when the episode ended, or in gameplay when it was stuck for two frames
    in a row, or had gone the stall limit without progress, or shares its key
    with an earlier proven loss that dominates it.  Every descendant of a node
    closed as a loss is closed as a loss, and a node closed otherwise leads to a
    leaf that left gameplay. *)
Theorem dfs_closed_losses (options : SmbDfsSearchOptions.t) s :
  options_wf options -> reachable options s ->
  let cs := cores (nodes_ s) in
  let outs := nodeOutcomes_ s in
  let loss := proven cs (closedLossTranspositionKeys_ s) outs in
  (forall i o, outs !! i = Some o -> o <> SmbSearchNodeOutcome.Open ->
     exhausted cs i /\ children_actions cs (Z.of_nat i) <> [] \/
     children_actions cs (Z.of_nat i) = [] /\ exists c key, cs !! i = Some c /\
       closedLossTranspositionKeys_ s !! i = Some key /\ pruned_as options loss i key c o) /\
  (forall i j, outs !! i = Some SmbSearchNodeOutcome.ClosedLoss -> descends cs i j ->
     outs !! j = Some SmbSearchNodeOutcome.ClosedLoss) /\
  (forall i, outs !! i = Some SmbSearchNodeOutcome.NotClosedLoss -> exists j c, descends cs i j /\
     outs !! j = Some SmbSearchNodeOutcome.NotClosedLoss /\ children_actions cs (Z.of_nat j) = [] /\
     cs !! j = Some c /\ SmbSearchEvaluatorSummary.terminal (c_summary c) = false /\
     SmbSearchEvaluatorSummary.gameState (c_summary c) <> Some 1).
Proof.
  intros Ho Hr cs outs loss. destruct (reachable_inv options s Ho Hr) as [[_ [[] | [Hrun _]]] Hopt].
  - unfold outs. rewrite id_outcomes. split; [| split]; intros; done.
  - pose proof (rn_tree _ Hrun) as Ht. split; [| split].
    + intros i o Hi Hne. rewrite <- Hopt. destruct (rn_closed _ Hrun i o Hi Hne) as [He | Hp]; [left | by right].
      split; [done | by apply exhausted_children].
    + intros i j Hi Hd. by eapply closed_descends.
    + intros i Hi. destruct (notclosed_leaf _ _ _ i Ht Hi) as (j & Hd & Hj & Hn).
      destruct (rn_closed _ Hrun j _ Hj ltac:(done)) as [He%exhausted_children | (_ & c & key & Hc & _ & Hp)]; [done |].
      exists j, c. by destruct Hp.
Qed.

(** C6. The transposition tables hold exactly the best proven losses: every entry
    of the exact table is that of a proven loss with that key, every entry of
    the shape table is that of a proven loss of that shape and carries its RAM
    bytes, and no proven loss is better than the entry of its key or of its
    shape.  So a position is pruned only when some proven loss has the very same
    key, at least its frontier, at most its frame count and at most its frames
    without progress. *)
Theorem dfs_transpositions (options : SmbDfsSearchOptions.t) s :
  options_wf options -> reachable options s ->
  let loss := proven (cores (nodes_ s)) (closedLossTranspositionKeys_ s) (nodeOutcomes_ s) in
  (forall i k e, loss i k e -> exists e' se,
     closedLossTranspositionTable_ s !! k = Some e' /\ better e e' = false /\
     closedLossTranspositionShapeTable_ s !! buildClosedLossTranspositionShapeKey k = Some se /\
     better e (ClosedLossTranspositionShapeEntry.proof se) = false) /\
  (forall k summary, isClosedLossTranspositionPruned s k summary = true -> exists i e, loss i k e /\
     SmbSearchEvaluatorSummary.bestFrontier summary <= ClosedLossTranspositionEntry.bestFrontier e /\
     ClosedLossTranspositionEntry.gameplayFrame e <= SmbSearchEvaluatorSummary.gameplayFrames summary /\
     ClosedLossTranspositionEntry.framesSinceProgress e
       <= SmbSearchEvaluatorSummary.gameplayFramesSinceProgress summary) /\
  (forall k summary,
     let r := probeClosedLossTranspositionShape s (buildClosedLossTranspositionShapeKey k) k summary in
     ShapeProbeResult.pruned r = true -> exists i k' e, loss i k' e /\ dominates e summary = true /\
       buildClosedLossTranspositionShapeKey k' = buildClosedLossTranspositionShapeKey k /\
       ShapeProbeResult.ramDiffs r =
         ramDiffs (ClosedLossTranspositionKey.ramBytes k) (ClosedLossTranspositionKey.ramBytes k')).
Proof.
  intros Ho Hr loss. destruct (reachable_inv options s Ho Hr) as [Hi _].
  pose proof (inv_tables s Hi) as [H1 H2 H3 H4]. fold loss in H1, H2, H3, H4. split; [| split].
  - intros i k e Hl. destruct (H2 i k e Hl) as (e' & ? & ?), (H4 i k e Hl) as (se & ? & ?).
    by exists e', se.
  - intros k summary. unfold isClosedLossTranspositionPruned, dominates.
    destruct (closedLossTranspositionTable_ s !! k) as [e |] eqn:Hk; [| done].
    destruct (H1 k e Hk) as [i Hl]. intros Hd. exists i, e. split; [done | lia].
  - intros k summary. unfold probeClosedLossTranspositionShape.
    destruct (closedLossTranspositionShapeTable_ s !! _) as [se |] eqn:Hk; [| done].
    destruct (H3 _ se Hk) as (i & k' & Hl & Hsh & Hram). cbv zeta.
    match goal with |- context [if ?b then _ else _] => destruct b eqn:Hb end; [done |].
    cbn. intros _. exists i, k', (ClosedLossTranspositionShapeEntry.proof se).
    split; [done |]. split; [| split; [done | by rewrite Hram]].
    unfold dominates. lia.
Qed.

(** C7. A search with a node budget terminates: whatever state the operations
    have led to, once it is not paused at most 2 * budget + 3 ticks complete it,
    and it never has more than the budget's number of nodes besides the root. *)
Theorem dfs_terminates (options : SmbDfsSearchOptions.t) s (n : nat) :
  options_wf options -> reachable options s -> 0 < SmbDfsSearchOptions.maxSearchedNodeCount options ->
  paused_ s = false -> 2 * SmbDfsSearchOptions.maxSearchedNodeCount options + 3 <= Z.of_nat n ->
  exists s', ticks n s = Ok s' /\ isCompleted s' = true /\
    nodeCount s' - 1 <= SmbDfsSearchOptions.maxSearchedNodeCount options.
Proof.
  intros Ho Hr Hpos Hp Hn. destruct (reachable_inv options s Ho Hr) as [Hi Hopt].
  pose proof (ticks_measure n s Hi Hp) as H. apply wp_elim in H as (s' & Hs & Hi' & Ho' & Hm).
  exists s'. split; [done |]. rewrite Hopt in Ho'.
  pose proof (measure_bound s Hi) as Hb. pose proof (measure_bound s' Hi') as Hb'.
  rewrite Ho' in Hb'. rewrite Hopt in Hb. specialize (Hb Hpos). specialize (Hb' Hpos).
  split; [| lia]. unfold isCompleted. destruct Hm as [? | ?]; [done | lia].
Qed.

(** One tick never loses ground: it always returns, reports completion
    exactly when the search is completed, keeps every node's parent, action and
    evaluation, keeps the outcome of every closed node, keeps the savestate of
    every node that is still open, and never lowers the best frontier; a
    completed search is left untouched, its error reported again, and a paused
    one is left untouched. *)
Lemma dfs_tick_monotone (options : SmbDfsSearchOptions.t) s :
  options_wf options -> reachable options s ->
  exists s' r, tick s = Ok (s', r) /\ TickResult.completed r = isCompleted s' /\
    cores (nodes_ s) `prefix_of` cores (nodes_ s') /\
    (forall i o, nodeOutcomes_ s !! i = Some o -> o <> SmbSearchNodeOutcome.Open ->
       nodeOutcomes_ s' !! i = Some o) /\
    (forall i, on_stack (dfsStack_ s') i -> (i < length (nodes_ s))%nat -> nodes_ s' !! i = nodes_ s !! i) /\
    bestFrontier_ s <= bestFrontier_ s' /\
    (isCompleted s = true -> s' = s /\ (completionReason_ s = Some CompletionReason.Error ->
       TickResult.error r = completionErrorMessage_ s)) /\
    (isCompleted s = false -> isPaused s = true -> s' = s /\ TickResult.completed r = false).
Proof.
  intros Ho Hr. destruct (reachable_inv options s Ho Hr) as [Hi _].
  pose proof (tick_ok s Hi) as H. apply wp_elim in H as ([s' r] & Hs & _ & Hm & Hc & _).
  exists s', r. destruct Hm. do 6 (split; [done |]). unfold isCompleted, isPaused. split.
  - intros Hcs. unfold tick in Hs. rewrite Hcs in Hs. injection Hs as <- <-. split; [done |].
    intros Hre. cbn. by rewrite bool_decide_eq_true_2.
  - intros Hcs Hps. unfold tick in Hs. rewrite Hcs, Hps in Hs. injection Hs as <- <-. done.
Qed.
End Properties.
