(* ===== verification/SmbDfsDemo.v ===== *)
(** A concrete runtime for the searches, a corridor that ends in a pit, and a search
    on it, on which the properties of the depth-first search are applied. *)

From Stdlib Require Import ZArith Lia Bool String.
From stdpp Require Import base gmap option numbers list.
From S2P Require Import Prelude Ieee NesTypes SmbEvaluator SmbRam SmbAdapter.
From S2P Require Import SmbSearchCore SmbDfsSearch SmbDfsTree SmbDfsFacts.
From S2P Require Import SmbDfsInvariant SmbDfsSteps SmbDfsTick SmbDfsCorrect.

Set Default Goal Selector "!".

(** The emulator's whole state is Mario's position: he moves with left and
    right, and has fallen below the screen from 42 on. *)
Definition corridor_step (x : Z) (mask : Z) : Z :=
  if Z.testbit mask 7 then x + 1 else if Z.testbit mask 6 then x - 1 else x.

Definition corridor_ram (x : Z) : MemorySnapshot :=
  ram_of [ (0x770, 1); (0x0E, 8); (0x6D, 0); (0x86, x mod 256);
           (0xCE, if 42 <=? x then 230 else 176); (0x75A, 2); (0x33, 1); (0x45, 1) ].

#[export] Instance corridor : NesDriver Z := {
  driver_make := 40;
  driver_setConfig := fun x => (x, okay tt);
  driver_setup := fun x => (x, okay tt);
  driver_step := fun x mask => let x := corridor_step x mask in
    (x, StepResult.mk 1 true true (Some (corridor_ram x)) None ""%string);
  driver_loadRuntimeSavestate := fun _ ss _ => (ss_frameId ss, true);
  driver_copyRuntimeSavestate := fun x => Some (mkSavestate x []);
  driver_copyRuntimeFrameSnapshot := fun _ => None;
  driver_getRuntimeLastError := fun _ => ""%string
}.

(** The same corridor on a runtime that runs a hundred frames a step. *)
Record strider := mkStrider { at_ : Z }.

#[export] Instance striding_corridor : NesDriver strider := {
  driver_make := mkStrider 40;
  driver_setConfig := fun x => (x, okay tt);
  driver_setup := fun x => (x, okay tt);
  driver_step := fun x mask => let x := corridor_step (at_ x) mask in
    (mkStrider x, StepResult.mk 100 true true (Some (corridor_ram x)) None ""%string);
  driver_loadRuntimeSavestate := fun _ ss _ => (mkStrider (ss_frameId ss), true);
  driver_copyRuntimeSavestate := fun x => Some (mkSavestate (at_ x) []);
  driver_copyRuntimeFrameSnapshot := fun _ => None;
  driver_getRuntimeLastError := fun _ => ""%string
}.

Definition demo_options : SmbDfsSearchOptions.t :=
  SmbDfsSearchOptions.mk 3 120 true true true 0 true None.

(** Mario stands at 40, in gameplay. *)
Definition demo_fixture : SmbDfsSearch.Fixture :=
  SmbDfsSearch.mkFixture
    (SmbSearchEvaluatorSummary.mk 40 1 0 fzero SmbEpisodeEndReason.None fzero fzero (Some 1) false)
    (Some (corridor_ram 40)) None (mkSavestate 40 []).

Definition demo_ops (n : nat) : list operation := StartFromFixture demo_fixture :: replicate n Tick.

Definition state_after (n : nat) : SmbDfsSearch.t Z :=
  match apply_ops (demo_ops n) (SmbDfsSearch.make demo_options) with
  | Ok s => s
  | Fault _ => SmbDfsSearch.make demo_options
  end.

Lemma demo_options_wf : options_wf demo_options.
Proof. unfold options_wf. cbn. lia. Qed.

Lemma demo_reachable n : reachable demo_options (state_after n).
Proof.
  pose proof (apply_ops_ok (demo_ops n) (SmbDfsSearch.make demo_options : SmbDfsSearch.t Z)
    (make_inv _ demo_options_wf)) as H.
  apply wp_elim in H as (s & Hs & _). exists (demo_ops n). unfold state_after. by rewrite Hs.
Qed.

(** Five operations later: the root and its child are open, two grandchildren
    fell into the pit. *)
Example demo_run :
  SmbDfsSearch.nodeCount (state_after 5) = 4 /\
  SmbDfsSearch.nodeOutcomes_ (state_after 5) =
    [SmbSearchNodeOutcome.Open; SmbSearchNodeOutcome.Open;
     SmbSearchNodeOutcome.ClosedLoss; SmbSearchNodeOutcome.ClosedLoss] /\
  map TraceEntry.eventType (SmbDfsSearch.trace_ (state_after 5)) =
    [TraceEventType.RootInitialized; TraceEventType.ExpandedAlive;
     TraceEventType.PrunedBelowScreen; TraceEventType.PrunedBelowScreen;
     TraceEventType.CompletedBudgetExceeded].
Proof. vm_compute. done. Qed.

(** ** Witnesses *)
Example dfs_total_witness :
  exists s : SmbDfsSearch.t Z, apply_ops (demo_ops 5) (SmbDfsSearch.make demo_options) = Ok s /\
    length (SmbDfsSearch.nodeOutcomes_ s) = length (SmbDfsSearch.nodes_ s).
Proof.
  destruct (dfs_total (D := Z) demo_options (demo_ops 5)) as (s & Hs & _ & _ & Hl & _).
  - exact demo_options_wf.
  - exists s. split; [exact Hs | exact Hl].
Defined.

Example dfs_best_plan_witness :
  exists b c acts, SmbDfsSearch.bestLeafIndex_ (state_after 5) = Some b /\
    cores (SmbDfsSearch.nodes_ (state_after 5)) !! Z.to_nat b = Some c /\
    plan_path (SmbDfsSearch.nodes_ (state_after 5)) b acts /\
    plan_frames (SmbDfsSearch.getPlan (state_after 5))
    = SmbDfsSearch.rootPrefixFrames_ (state_after 5) ++ frames_of acts.
Proof.
  destruct (dfs_best_plan demo_options (state_after 5)) as (b & c & acts & H1 & H2 & H3 & H4 & _).
  - exact demo_options_wf.
  - apply demo_reachable.
  - intros E. apply (f_equal (fun l => length l)) in E. vm_compute in E. discriminate E.
  - exists b, c, acts. split; [exact H1 |]. split; [exact H2 |]. split; [exact H3 | exact H4].
Defined.

Example dfs_closed_losses_witness :
  SmbDfsSearch.nodeOutcomes_ (state_after 5) !! 2%nat = Some SmbSearchNodeOutcome.ClosedLoss /\
  forall j, descends (cores (SmbDfsSearch.nodes_ (state_after 5))) 2 j ->
    SmbDfsSearch.nodeOutcomes_ (state_after 5) !! j = Some SmbSearchNodeOutcome.ClosedLoss.
Proof.
  assert (SmbDfsSearch.nodeOutcomes_ (state_after 5) !! 2%nat = Some SmbSearchNodeOutcome.ClosedLoss) as H2
    by (vm_compute; reflexivity).
  split; [exact H2 |]. intros j Hj.
  destruct (dfs_closed_losses demo_options (state_after 5)) as (_ & H & _).
  - exact demo_options_wf.
  - apply demo_reachable.
  - exact (H 2%nat j H2 Hj).
Defined.

(** The key of the first node that fell, and a later position that shares it. *)
Definition fallen_key : ClosedLossTranspositionKey.t :=
  match SmbDfsSearch.closedLossTranspositionKeys_ (state_after 5) !! 2%nat with
  | Some (Some k) => k
  | _ => ClosedLossTranspositionKey.mk 0 0 0 0 0 0 0 0 0 0 0 0 0 [] false false
  end.
Definition later_summary : SmbSearchEvaluatorSummary.t :=
  SmbSearchEvaluatorSummary.mk 41 9 2 fzero SmbEpisodeEndReason.None fzero fzero (Some 1) false.

Example dfs_transpositions_witness :
  SmbDfsSearch.isClosedLossTranspositionPruned (state_after 5) fallen_key later_summary = true /\
  exists i e, proven (cores (SmbDfsSearch.nodes_ (state_after 5)))
    (SmbDfsSearch.closedLossTranspositionKeys_ (state_after 5))
    (SmbDfsSearch.nodeOutcomes_ (state_after 5)) i fallen_key e.
Proof.
  assert (SmbDfsSearch.isClosedLossTranspositionPruned (state_after 5) fallen_key later_summary = true) as Hp
    by (vm_compute; reflexivity).
  split; [exact Hp |]. destruct (dfs_transpositions demo_options (state_after 5)) as (_ & H & _).
  - exact demo_options_wf.
  - apply demo_reachable.
  - destruct (H fallen_key later_summary Hp) as (i & e & Hl & _). exists i, e. exact Hl.
Defined.

Example dfs_terminates_witness :
  exists s', ticks (N.to_nat 9) (state_after 1) = Ok s' /\ SmbDfsSearch.isCompleted s' = true /\
    SmbDfsSearch.nodeCount s' - 1 <= 3.
Proof.
  apply (dfs_terminates demo_options (state_after 1) (N.to_nat 9)).
  - exact demo_options_wf.
  - apply demo_reachable.
  - cbn. lia.
  - vm_compute. reflexivity.
  - cbn. lia.
Defined.

Example dfs_tick_monotone_witness :
  exists s' r, SmbDfsSearch.tick (state_after 2) = Ok (s', r) /\
    SmbDfsSearch.bestFrontier_ (state_after 2) <= SmbDfsSearch.bestFrontier_ s'.
Proof.
  destruct (dfs_tick_monotone demo_options (state_after 2)) as (s' & r & H1 & _ & _ & _ & _ & H6 & _).
  - exact demo_options_wf.
  - apply demo_reachable.
  - exists s', r. split; [exact H1 | exact H6].
Defined.
