(* ===== verification/SmbPlanExecution.v ===== *)
(** Executing a plan, or holding right, on a live runtime:
    [server/search/SmbPlanExecution.{h,cpp}].

    The runtime driver is the interface of the depth-first search ([NesDriver]),
    the game adapter is that of [SmbAdapter]; [Timers] and the plan's random id
    are left out. *)

From Stdlib Require Import ZArith Lia Bool String.
From stdpp Require Import base gmap option numbers list.
From S2P Require Import Prelude Ieee NesTypes SmbEvaluator SmbRam.
From S2P Require Import SmbAdapter SmbSearchCore SmbDfsSearch.

Set Default Goal Selector "!".

Module SmbPlanExecution.

Inductive Mode := HoldRightSearch | PlanPlayback.
#[global] Instance Mode_eq_dec : EqDecision Mode.
Proof. solve_decision. Defined.

Record TickResult := mkTickResult {
  tr_completed : bool;
  tr_frameAdvanced : bool;
  tr_error : option string
}.

Section Execution.
Context {D : Type} `{HD : NesDriver D}.

Record t := mk {
  driver_ : option D;
  gameAdapter_ : option NesSuperMarioBrosGameAdapter.t;
  worldData_ : WorldData;
  scenarioVideoFrame_ : option ScenarioVideoFrame;
  lastGameState_ : option Z;
  plan_ : Plan;
  progress_ : SearchProgress.t;
  playbackFrameIndex_ : Z;
  completed_ : bool;
  paused_ : bool;
  mode_ : Mode;
  completionReason_ : option CompletionReason.t;
  completionErrorMessage_ : option string
}.

(** A default-constructed execution. *)
Definition default : t :=
  mk None None (mkWorldData 0 0 0) None None (mkPlan (mkPlanSummary 0 0) []) SearchProgress.default
    0 false false HoldRightSearch None None.

Definition set_driver_ (v : option D) (s : t) : t :=
  mk v (gameAdapter_ s) (worldData_ s) (scenarioVideoFrame_ s) (lastGameState_ s) (plan_ s) (progress_ s)
    (playbackFrameIndex_ s) (completed_ s) (paused_ s) (mode_ s) (completionReason_ s)
    (completionErrorMessage_ s).
Definition set_gameAdapter_ (v : option NesSuperMarioBrosGameAdapter.t) (s : t) : t :=
  mk (driver_ s) v (worldData_ s) (scenarioVideoFrame_ s) (lastGameState_ s) (plan_ s) (progress_ s)
    (playbackFrameIndex_ s) (completed_ s) (paused_ s) (mode_ s) (completionReason_ s)
    (completionErrorMessage_ s).
Definition set_render (w : WorldData) (f : option ScenarioVideoFrame) (s : t) : t :=
  mk (driver_ s) (gameAdapter_ s) w f (lastGameState_ s) (plan_ s) (progress_ s)
    (playbackFrameIndex_ s) (completed_ s) (paused_ s) (mode_ s) (completionReason_ s)
    (completionErrorMessage_ s).
Definition set_lastGameState_ (v : option Z) (s : t) : t :=
  mk (driver_ s) (gameAdapter_ s) (worldData_ s) (scenarioVideoFrame_ s) v (plan_ s) (progress_ s)
    (playbackFrameIndex_ s) (completed_ s) (paused_ s) (mode_ s) (completionReason_ s)
    (completionErrorMessage_ s).
Definition set_plan_ (v : Plan) (s : t) : t :=
  mk (driver_ s) (gameAdapter_ s) (worldData_ s) (scenarioVideoFrame_ s) (lastGameState_ s) v (progress_ s)
    (playbackFrameIndex_ s) (completed_ s) (paused_ s) (mode_ s) (completionReason_ s)
    (completionErrorMessage_ s).
Definition set_progress_ (v : SearchProgress.t) (s : t) : t :=
  mk (driver_ s) (gameAdapter_ s) (worldData_ s) (scenarioVideoFrame_ s) (lastGameState_ s) (plan_ s) v
    (playbackFrameIndex_ s) (completed_ s) (paused_ s) (mode_ s) (completionReason_ s)
    (completionErrorMessage_ s).
Definition set_playback (m : Mode) (p : Plan) (i : Z) (s : t) : t :=
  mk (driver_ s) (gameAdapter_ s) (worldData_ s) (scenarioVideoFrame_ s) (lastGameState_ s) p (progress_ s)
    i (completed_ s) (paused_ s) m (completionReason_ s) (completionErrorMessage_ s).
Definition set_completion (c : bool) (r : option CompletionReason.t) (e : option string) (s : t) : t :=
  mk (driver_ s) (gameAdapter_ s) (worldData_ s) (scenarioVideoFrame_ s) (lastGameState_ s) (plan_ s)
    (progress_ s) (playbackFrameIndex_ s) c (paused_ s) (mode_ s) r e.
Definition set_paused_ (v : bool) (s : t) : t :=
  mk (driver_ s) (gameAdapter_ s) (worldData_ s) (scenarioVideoFrame_ s) (lastGameState_ s) (plan_ s)
    (progress_ s) (playbackFrameIndex_ s) (completed_ s) v (mode_ s) (completionReason_ s)
    (completionErrorMessage_ s).

Definition isGameplayFrame (gameState : option Z) (controllerOutput : NesGameAdapterControllerOutput) : bool :=
  (value_or gameState 0 =? 1) && negb (bool_decide (source controllerOutput = ScriptedSetup)).

Definition encodeFrontier (snapshot : NesSuperMarioBrosFitnessSnapshot.t) : Z :=
  Z.lor (u64 (Z.shiftl (NesSuperMarioBrosFitnessSnapshot.bestStageIndex snapshot) 16))
    (NesSuperMarioBrosFitnessSnapshot.bestAbsoluteX snapshot).

Definition holdRightFrame : PlayerControlFrame := mkPlayerControlFrame 127 0 0.

Definition playerControlFrameToNesMask (frame : PlayerControlFrame) : Z :=
  let mask := 0 in
  let mask := if nonzero (Z.land (buttons frame) PlayerControlButtons.ButtonA)
              then Z.lor mask NesPolicyLayout.ButtonA else mask in
  let mask := if nonzero (Z.land (buttons frame) PlayerControlButtons.ButtonB)
              then Z.lor mask NesPolicyLayout.ButtonB else mask in
  let mask := if nonzero (Z.land (buttons frame) PlayerControlButtons.ButtonSelect)
              then Z.lor mask NesPolicyLayout.ButtonSelect else mask in
  let mask := if nonzero (Z.land (buttons frame) PlayerControlButtons.ButtonStart)
              then Z.lor mask NesPolicyLayout.ButtonStart else mask in
  let mask := if xAxis frame <=? -64 then Z.lor mask NesPolicyLayout.ButtonLeft
              else if 64 <=? xAxis frame then Z.lor mask NesPolicyLayout.ButtonRight else mask in
  if yAxis frame <=? -64 then Z.lor mask NesPolicyLayout.ButtonUp
  else if 64 <=? yAxis frame then Z.lor mask NesPolicyLayout.ButtonDown else mask.

Definition startCommon (s : t) : t * Result unit string :=
  let '(d, configResult) := driver_setConfig driver_make in
  let s := set_driver_ (Some d) s in
  match configResult with
  | error e => (s, error e)
  | okay _ =>
      let '(d, setupResult) := driver_setup d in
      let s := set_driver_ (Some d) s in
      match setupResult with
      | error e => (s, error e)
      | okay _ =>
          (mk (Some d) (Some (NesSuperMarioBrosGameAdapter.reset NesSuperMarioBrosGameAdapter.default))
             (mkWorldData 256 240 0) None None (plan_ s) SearchProgress.default
             (playbackFrameIndex_ s) false false (mode_ s) None None,
           okay tt)
      end
  end.

Definition startHoldRight (s : t) : t * Result unit string :=
  startCommon (set_playback HoldRightSearch (mkPlan (mkPlanSummary 0 0) []) 0 s).

Definition startPlayback (plan : Plan) (s : t) : t * Result unit string :=
  startCommon (set_playback PlanPlayback plan 0 s).

Definition planLength (s : t) : Z := Z.of_nat (length (plan_frames (plan_ s))).

(** [mode_ == Mode::PlanPlayback && playbackFrameIndex_ >= plan_.frames.size()]. *)
Definition playbackDone (s : t) : bool :=
  bool_decide (mode_ s = PlanPlayback) && (planLength s <=? playbackFrameIndex_ s).

Definition updateProgress (fitnessDetails : NesFitnessDetails) (s : t) : t :=
  let s := set_progress_ (SearchProgress.set_paused (paused_ s) (progress_ s)) s in
  match fitnessDetails with
  | FitnessMonostate => s
  | FitnessSmb snapshot =>
      let s := set_progress_ (SearchProgress.set_lastSearchEvent SearchProgressEvent.ExpandedAlive
                (SearchProgress.set_currentGameplayFrame (NesSuperMarioBrosFitnessSnapshot.gameplayFrames snapshot)
                  (SearchProgress.set_bestFrontier (encodeFrontier snapshot) (progress_ s)))) s in
      if bool_decide (mode_ s = HoldRightSearch) then
        set_plan_ (mkPlan (mkPlanSummary (SearchProgress.bestFrontier (progress_ s))
                             (NesSuperMarioBrosFitnessSnapshot.gameplayFrames snapshot))
                     (plan_frames (plan_ s))) s
      else s
  end.

(** [if (gameplayFrame) { ... }]. *)
Definition recordGameplayFrame (playerFrame : PlayerControlFrame) (s : t) : t :=
  if bool_decide (mode_ s = HoldRightSearch) then
    set_plan_ (mkPlan (plan_summary (plan_ s)) (plan_frames (plan_ s) ++ [playerFrame])) s
  else if playbackFrameIndex_ s <? planLength s then
    set_playback (mode_ s) (plan_ s) (playbackFrameIndex_ s + 1) s
  else s.

(** The frame shown, when the step brought one. *)
Definition showFrame (stepResult : StepResult.t) (s : t) : t :=
  match StepResult.scenarioVideoFrame stepResult with
  | Some f => set_render (mkWorldData (s16 (vf_width f)) (s16 (vf_height f)) (wd_timestep (worldData_ s)))
                (Some f) s
  | None => s
  end.

Definition addTimestep (advancedFrames : Z) (s : t) : t :=
  set_render (mkWorldData (wd_width (worldData_ s)) (wd_height (worldData_ s))
                (s32 (wd_timestep (worldData_ s) + s32 advancedFrames))) (scenarioVideoFrame_ s) s.

(** After the runtime has stepped. *)
Definition finishTick (playerFrame : PlayerControlFrame) (controllerOutput : NesGameAdapterControllerOutput)
    (stepResult : StepResult.t) (adapter : NesSuperMarioBrosGameAdapter.t) (s : t) : res (t * TickResult) :=
  let s := showFrame stepResult s in
  if negb (StepResult.runtimeHealthy stepResult) || negb (StepResult.runtimeRunning stepResult) then
    let s := set_completion true (Some CompletionReason.Error)
      (Some (if bool_decide (StepResult.lastError stepResult = ""%string)
             then "NES runtime stopped"%string else StepResult.lastError stepResult)) s in
    Ok (s, mkTickResult true false (completionErrorMessage_ s))
  else if StepResult.advancedFrames stepResult =? 0 then Ok (s, mkTickResult false false None)
  else
    let s := addTimestep (StepResult.advancedFrames stepResult) s in
    let! evaluated := NesSuperMarioBrosGameAdapter.evaluateFrame adapter
      (StepResult.advancedFrames stepResult) (StepResult.memorySnapshot stepResult) in
    let '(adapter, evaluation) := evaluated in
    let s := set_gameAdapter_ (Some adapter) s in
    let s := match NesSuperMarioBrosGameAdapter.gameState evaluation with
             | Some g => set_lastGameState_ (Some g) s
             | None => s
             end in
    let s := updateProgress (NesSuperMarioBrosGameAdapter.fitnessDetails evaluation) s in
    let s := if isGameplayFrame (lastGameState_ s) controllerOutput
             then recordGameplayFrame playerFrame s else s in
    let s := if NesSuperMarioBrosGameAdapter.done evaluation || playbackDone s
             then set_completion true (Some CompletionReason.Completed) (completionErrorMessage_ s) s
             else s in
    Ok (s, mkTickResult (completed_ s) true None).

Definition tick (s : t) : res (t * TickResult) :=
  if completed_ s then Ok (s, mkTickResult true false None)
  else if paused_ s then Ok (s, mkTickResult false false None)
  else
    match driver_ s, gameAdapter_ s with
    | Some d, Some adapter =>
        if playbackDone s then
          Ok (set_completion true (Some CompletionReason.Completed) (completionErrorMessage_ s) s,
              mkTickResult true false None)
        else
          let! playerFrame :=
            if bool_decide (mode_ s = PlanPlayback)
            then vec_get (plan_frames (plan_ s)) (playbackFrameIndex_ s) else Ok holdRightFrame in
          let inferredControllerMask := playerControlFrameToNesMask playerFrame in
          let controllerOutput := NesSuperMarioBrosGameAdapter.resolveControllerMask adapter
            (mkControllerInput inferredControllerMask (lastGameState_ s)) in
          let '(d, stepResult) := driver_step d (resolvedControllerMask controllerOutput) in
          finishTick playerFrame controllerOutput stepResult adapter (set_driver_ (Some d) s)
    | _, _ =>
        let s := set_completion true (Some CompletionReason.Error)
                   (Some "SMB execution not initialized"%string) s in
        Ok (s, mkTickResult true false (completionErrorMessage_ s))
    end.

Definition pauseSet (paused : bool) (s : t) : t :=
  let s := set_paused_ paused s in
  set_progress_ (SearchProgress.set_paused (paused_ s) (progress_ s)) s.

Definition stop (s : t) : t := set_completion true (Some CompletionReason.Stopped) None s.

Definition hasPersistablePlan (s : t) : bool := negb (bool_decide (plan_frames (plan_ s) = [])).
Definition isCompleted (s : t) : bool := completed_ s.
Definition isPaused (s : t) : bool := paused_ s.
Definition hasRenderableFrame (s : t) : bool := bool_decide (is_Some (scenarioVideoFrame_ s)).
Definition getCompletionReason (s : t) : option CompletionReason.t := completionReason_ s.
Definition getCompletionErrorMessage (s : t) : option string := completionErrorMessage_ s.
Definition getPlan (s : t) : Plan := plan_ s.
Definition getProgress (s : t) : SearchProgress.t := progress_ s.
Definition getScenarioVideoFrame (s : t) : option ScenarioVideoFrame := scenarioVideoFrame_ s.
Definition getWorldData (s : t) : WorldData := worldData_ s.
End Execution.
Arguments t D : clear implicits.
End SmbPlanExecution.

(** ** Facts *)
Section ExecutionFacts.
Context {D : Type} `{HD : NesDriver D}.
Import SmbPlanExecution.
Implicit Types (s : t D).

(** Everything but the picture, the world size, the progress and the driver. *)
Record same_execution s s' : Prop := mkSameExecution {
  se_adapter : gameAdapter_ s' = gameAdapter_ s;
  se_plan : plan_ s' = plan_ s;
  se_index : playbackFrameIndex_ s' = playbackFrameIndex_ s;
  se_mode : mode_ s' = mode_ s;
  se_last : lastGameState_ s' = lastGameState_ s;
  se_completed : completed_ s' = completed_ s;
  se_paused : paused_ s' = paused_ s;
  se_reason : completionReason_ s' = completionReason_ s;
  se_message : completionErrorMessage_ s' = completionErrorMessage_ s
}.

Lemma showFrame_same r s : same_execution s (showFrame r s).
Proof. unfold showFrame. by destruct (StepResult.scenarioVideoFrame r). Qed.

(** What [updateProgress] does to the plan's summary. *)
Lemma updateProgress_fields fd s :
  plan_frames (plan_ (updateProgress fd s)) = plan_frames (plan_ s) /\
  (mode_ s = PlanPlayback -> plan_ (updateProgress fd s) = plan_ s) /\
  playbackFrameIndex_ (updateProgress fd s) = playbackFrameIndex_ s /\
  mode_ (updateProgress fd s) = mode_ s /\ lastGameState_ (updateProgress fd s) = lastGameState_ s /\
  completed_ (updateProgress fd s) = completed_ s /\
  completionReason_ (updateProgress fd s) = completionReason_ s /\
  completionErrorMessage_ (updateProgress fd s) = completionErrorMessage_ s /\
  driver_ (updateProgress fd s) = driver_ s /\ gameAdapter_ (updateProgress fd s) = gameAdapter_ s /\
  paused_ (updateProgress fd s) = paused_ s.
Proof.
  unfold updateProgress. destruct fd as [| snapshot]; [done |]. cbv zeta.
  destruct (mode_ s) eqn:E; simpl; rewrite E; done.
Qed.

(** [lastGameState_] after a frame that reported [g]. *)
Definition noted (g : option Z) s : t D :=
  match g with Some v => set_lastGameState_ (Some v) s | None => s end.

Lemma noted_fields g s :
  plan_ (noted g s) = plan_ s /\ playbackFrameIndex_ (noted g s) = playbackFrameIndex_ s /\
  mode_ (noted g s) = mode_ s /\ completed_ (noted g s) = completed_ s /\
  completionReason_ (noted g s) = completionReason_ s /\
  completionErrorMessage_ (noted g s) = completionErrorMessage_ s /\
  driver_ (noted g s) = driver_ s /\ gameAdapter_ (noted g s) = gameAdapter_ s /\
  paused_ (noted g s) = paused_ s /\
  lastGameState_ (noted g s) = (match g with Some v => Some v | None => lastGameState_ s end).
Proof. by destruct g. Qed.

Lemma recordGameplayFrame_fields f s :
  lastGameState_ (recordGameplayFrame f s) = lastGameState_ s /\
  mode_ (recordGameplayFrame f s) = mode_ s /\ driver_ (recordGameplayFrame f s) = driver_ s /\
  completed_ (recordGameplayFrame f s) = completed_ s /\
  completionReason_ (recordGameplayFrame f s) = completionReason_ s /\
  completionErrorMessage_ (recordGameplayFrame f s) = completionErrorMessage_ s /\
  gameAdapter_ (recordGameplayFrame f s) = gameAdapter_ s /\ paused_ (recordGameplayFrame f s) = paused_ s /\
  (mode_ s = HoldRightSearch ->
     plan_frames (plan_ (recordGameplayFrame f s)) = plan_frames (plan_ s) ++ [f] /\
     playbackFrameIndex_ (recordGameplayFrame f s) = playbackFrameIndex_ s) /\
  (mode_ s = PlanPlayback ->
     plan_ (recordGameplayFrame f s) = plan_ s /\
     playbackFrameIndex_ (recordGameplayFrame f s) =
       playbackFrameIndex_ s + (if playbackFrameIndex_ s <? planLength s then 1 else 0)).
Proof.
  unfold recordGameplayFrame. destruct (mode_ s) eqn:E; simpl; [by rewrite E |].
  destruct (playbackFrameIndex_ s <? planLength s); simpl; rewrite ?E; repeat split; done || lia.
Qed.

(** How the adapter judges a step: its new state, the game state it leaves
    known and whether the episode is done. *)
Definition judge (a : NesSuperMarioBrosGameAdapter.t) (r : StepResult.t) (last : option Z)
    : NesSuperMarioBrosGameAdapter.t * option Z * bool :=
  match NesSuperMarioBrosGameAdapter.evaluateFrame a (StepResult.advancedFrames r)
          (StepResult.memorySnapshot r) with
  | Ok (a', ev) =>
      (a', match NesSuperMarioBrosGameAdapter.gameState ev with Some g => Some g | None => last end,
       NesSuperMarioBrosGameAdapter.done ev)
  | Fault _ => (a, last, false)
  end.

(** The state after the runtime has stepped, in each of its three outcomes. *)
Definition stepped s (frame : PlayerControlFrame) (c : NesGameAdapterControllerOutput)
    (r : StepResult.t) (a : NesSuperMarioBrosGameAdapter.t) (p : t D * TickResult) : Prop :=
  let '(s', tr) := p in
  mode_ s' = mode_ s /\ driver_ s' = driver_ s /\ paused_ s' = paused_ s /\
  if negb (StepResult.runtimeHealthy r) || negb (StepResult.runtimeRunning r) then
    completionReason_ s' = Some CompletionReason.Error /\ is_Some (completionErrorMessage_ s') /\
    completed_ s' = true /\ tr_completed tr = true /\ plan_ s' = plan_ s /\
    playbackFrameIndex_ s' = playbackFrameIndex_ s
  else if StepResult.advancedFrames r =? 0 then same_execution s s' /\ tr_completed tr = false
  else
    let '(a', last', dn) := judge a r (lastGameState_ s) in
    let gp := isGameplayFrame last' c in
    gameAdapter_ s' = Some a' /\ lastGameState_ s' = last' /\
    (mode_ s = HoldRightSearch ->
       plan_frames (plan_ s') = plan_frames (plan_ s) ++ (if gp then [frame] else []) /\
       playbackFrameIndex_ s' = playbackFrameIndex_ s) /\
    (mode_ s = PlanPlayback -> plan_ s' = plan_ s /\
       playbackFrameIndex_ s' =
         playbackFrameIndex_ s + (if gp && (playbackFrameIndex_ s <? planLength s) then 1 else 0)) /\
    completed_ s' = dn || playbackDone s' /\ tr_completed tr = completed_ s' /\
    completionErrorMessage_ s' = completionErrorMessage_ s /\
    completionReason_ s' = (if completed_ s' then Some CompletionReason.Completed else completionReason_ s).

Definition maybe_record (gp : bool) (f : PlayerControlFrame) s : t D :=
  if gp then recordGameplayFrame f s else s.

(** The frame is noted and recorded. *)
Lemma recorded_fields g fd f s (gp : bool) :
  let s' := maybe_record gp f (updateProgress fd (noted g s)) in
  lastGameState_ s' = (match g with Some v => Some v | None => lastGameState_ s end) /\ mode_ s' = mode_ s /\
  driver_ s' = driver_ s /\ completed_ s' = completed_ s /\ completionReason_ s' = completionReason_ s /\
  completionErrorMessage_ s' = completionErrorMessage_ s /\
  gameAdapter_ s' = gameAdapter_ s /\ paused_ s' = paused_ s /\
  (mode_ s = HoldRightSearch ->
     plan_frames (plan_ s') = plan_frames (plan_ s) ++ (if gp then [f] else []) /\
     playbackFrameIndex_ s' = playbackFrameIndex_ s) /\
  (mode_ s = PlanPlayback -> plan_ s' = plan_ s /\
     playbackFrameIndex_ s' =
       playbackFrameIndex_ s + (if gp && (playbackFrameIndex_ s <? planLength s) then 1 else 0)).
Proof.
  pose proof (noted_fields g s) as (Np & Ni & Nm & Nc & Nr & Ne & Nd & Na & Npa & Nl). set (s2 := noted g s) in *. clearbody s2.
  pose proof (updateProgress_fields fd s2) as (Up & Upp & Ui & Um & Ul & Uc & Ur & Ue & Ud & Ua & Upa).
  set (s3 := updateProgress fd s2) in *. clearbody s3. cbv zeta. unfold maybe_record. destruct gp; cbn [andb].
  - pose proof (recordGameplayFrame_fields f s3) as (Rl & Rm & Rd & Rc & Rr & Re & Ra & Rpa & Rh & Rp).
    do 8 (split; [congruence |]). split; intros Hm.
    + destruct (Rh ltac:(congruence)) as [-> ->]. split; congruence.
    + destruct (Rp ltac:(congruence)) as [-> ->]. rewrite (Upp ltac:(congruence)).
      replace (planLength s3) with (planLength s); [by rewrite Ui, Ni, Np |].
      unfold planLength. rewrite Upp; congruence.
  - do 8 (split; [congruence |]). split; intros Hm.
    + rewrite app_nil_r. split; congruence.
    + rewrite (Upp ltac:(congruence)), Ui, Ni. split; [congruence | lia].
Qed.

Lemma finishTick_ok frame c r a s :
  completed_ s = false -> gameAdapter_ s = Some a ->
  wp (finishTick frame c r a s) (stepped s frame c r a).
Proof.
  intros Hc Ha. unfold finishTick. cbv zeta. pose proof (showFrame_same r s) as Hs.
  assert (driver_ (showFrame r s) = driver_ s) as Hd
    by (unfold showFrame; by destruct (StepResult.scenarioVideoFrame r)).
  set (s1 := showFrame r s) in *. clearbody s1. unfold stepped.
  destruct (negb (StepResult.runtimeHealthy r) || negb (StepResult.runtimeRunning r)).
  { destruct Hs. cbn [wp]. by repeat split. }
  destruct (StepResult.advancedFrames r =? 0); [pose proof (se_paused _ _ Hs); destruct Hs; by cbn [wp] |].
  unfold judge. pose proof (evaluateFrame_ok a (StepResult.advancedFrames r) (StepResult.memorySnapshot r)) as Hev.
  apply wp_elim in Hev as ([a' ev] & -> & _). cbn [rbind].
  set (s2 := set_gameAdapter_ (Some a') (addTimestep (StepResult.advancedFrames r) s1)).
  assert (plan_ s2 = plan_ s /\ playbackFrameIndex_ s2 = playbackFrameIndex_ s /\ mode_ s2 = mode_ s /\
    lastGameState_ s2 = lastGameState_ s /\ completed_ s2 = false /\ paused_ s2 = paused_ s /\
    completionReason_ s2 = completionReason_ s /\ completionErrorMessage_ s2 = completionErrorMessage_ s /\
    driver_ s2 = driver_ s /\ gameAdapter_ s2 = Some a')
    as (Ap & Ai & Am & Al & Ac & Apa & Ar & Ae & Ad & Aa)
    by (destruct Hs; unfold s2; simpl; repeat split; congruence).
  clearbody s2. clear Hs Hd s1.
  set (s3 := match NesSuperMarioBrosGameAdapter.gameState ev with Some g => set_lastGameState_ (Some g) s2 | None => s2 end).
  change s3 with (noted (NesSuperMarioBrosGameAdapter.gameState ev) s2). clear s3.
  assert (lastGameState_ (updateProgress (NesSuperMarioBrosGameAdapter.fitnessDetails ev)
    (noted (NesSuperMarioBrosGameAdapter.gameState ev) s2))
    = match NesSuperMarioBrosGameAdapter.gameState ev with Some g => Some g | None => lastGameState_ s end) as Hl.
  { pose proof (updateProgress_fields (NesSuperMarioBrosGameAdapter.fitnessDetails ev)
      (noted (NesSuperMarioBrosGameAdapter.gameState ev) s2)) as (_ & _ & _ & _ & -> & _).
    pose proof (noted_fields (NesSuperMarioBrosGameAdapter.gameState ev) s2) as (_ & _ & _ & _ & _ & _ & _ & _ & _ & ->).
    by rewrite Al. }
  rewrite Hl. set (last' := match NesSuperMarioBrosGameAdapter.gameState ev with Some g => Some g | None => _ end) in *.
  pose proof (recorded_fields (NesSuperMarioBrosGameAdapter.gameState ev)
    (NesSuperMarioBrosGameAdapter.fitnessDetails ev) frame s2 (isGameplayFrame last' c))
    as (Wl & Wm & Wd & Wc & Wr & We & Wa & Wpa & Wh & Wp).
  rewrite Al in Wl. fold last' in Wl.
  set (s5 := maybe_record _ _ _) in *. change (if isGameplayFrame last' c then recordGameplayFrame frame _ else _) with s5.
  assert (planLength s2 = planLength s) as Hpl by (unfold planLength; congruence).
  rewrite Am, Ap, Ai, Hpl in *. clearbody s5 last'.
  destruct (NesSuperMarioBrosGameAdapter.done ev || playbackDone s5) eqn:Hdone; cbn [wp].
  - simpl. split; [done |]. split; [congruence |]. split; [congruence |]. split; [congruence |]. split; [done |].
    split; [exact Wh |]. split; [exact Wp |]. split; [by symmetry |]. split; [done |]. split; [congruence | done].
  - split; [done |]. split; [congruence |]. split; [congruence |]. split; [congruence |]. split; [done |].
    split; [exact Wh |]. split; [exact Wp |]. split; [congruence |]. split; [done |]. split; [congruence |].
    by rewrite Wc, Ac, Wr.
Qed.
End ExecutionFacts.
