(* ===== verification/SmbPlanReplay.v ===== *)
(** Running plans: what an execution guarantees whatever the runtime does, what
    one tick does, and that playing a recorded plan back repeats the run that
    recorded it. *)

From Stdlib Require Import ZArith Lia Bool String.
From stdpp Require Import base gmap option numbers list.
From S2P Require Import Prelude Ieee NesTypes SmbEvaluator SmbRam SmbAdapter.
From S2P Require Import SmbSearchCore SmbDfsSearch SmbDfsDemo SmbPlanExecution.

Set Default Goal Selector "!".

Section Replay.
Context {D : Type} `{HD : NesDriver D}.
Import SmbPlanExecution.
Implicit Types (s h p : t D).

(** The playback position is in the plan, and the completion fields agree. *)
Record execution_wf s : Prop := mkExecutionWf {
  ew_index : 0 <= playbackFrameIndex_ s <= planLength s;
  ew_completed : completed_ s = true <-> is_Some (completionReason_ s);
  ew_error : completionReason_ s = Some CompletionReason.Error <-> is_Some (completionErrorMessage_ s)
}.

Inductive exec_operation :=
  | StartHoldRight
  | StartPlayback (plan : Plan)
  | ExecTick
  | ExecPauseSet (paused : bool)
  | ExecStop.

Definition exec_op (op : exec_operation) s : res (t D) :=
  match op with
  | StartHoldRight => Ok (fst (startHoldRight s))
  | StartPlayback plan => Ok (fst (startPlayback plan s))
  | ExecTick => let! r := tick s in Ok (fst r)
  | ExecPauseSet b => Ok (pauseSet b s)
  | ExecStop => Ok (stop s)
  end.

Fixpoint exec_ops (ops : list exec_operation) s : res (t D) :=
  match ops with
  | [] => Ok s
  | op :: ops' => let! s' := exec_op op s in exec_ops ops' s'
  end.

(** The frame a running execution plays next, and the output it resolves to. *)
Definition next_frame s : PlayerControlFrame :=
  match mode_ s with
  | HoldRightSearch => holdRightFrame
  | PlanPlayback => match plan_frames (plan_ s) !! Z.to_nat (playbackFrameIndex_ s) with
                    | Some f => f
                    | None => holdRightFrame
                    end
  end.

Definition next_output s (a : NesSuperMarioBrosGameAdapter.t) : NesGameAdapterControllerOutput :=
  NesSuperMarioBrosGameAdapter.resolveControllerMask a
    (mkControllerInput (playerControlFrameToNesMask (next_frame s)) (lastGameState_ s)).

(** A tick of a running execution is one step of the runtime. *)
Lemma tick_running s d a :
  execution_wf s -> completed_ s = false -> paused_ s = false ->
  driver_ s = Some d -> gameAdapter_ s = Some a -> playbackDone s = false ->
  let c := next_output s a in
  let '(d', r) := driver_step d (resolvedControllerMask c) in
  wp (tick s) (stepped (set_driver_ (Some d') s) (next_frame s) c r a).
Proof.
  intros Hwf Hc Hp Hd Ha Hdone c. destruct (driver_step d (resolvedControllerMask c)) as [d' r] eqn:Hstep.
  unfold tick. rewrite Hc, Hp, Hd, Ha, Hdone. apply wp_bind.
  assert (wp (if bool_decide (mode_ s = PlanPlayback)
    then vec_get (plan_frames (plan_ s)) (playbackFrameIndex_ s) else Ok holdRightFrame)
    (fun f => f = next_frame s)) as Hf.
  { unfold next_frame. unfold playbackDone in Hdone. destruct (mode_ s); simpl in *; [done |].
    apply wp_vec_get; [| by intros f ->]. destruct (ew_index _ Hwf). unfold planLength in *. lia. }
  eapply wp_mono; [exact Hf |]. intros f ->. cbv zeta. fold c.
  change (NesSuperMarioBrosGameAdapter.resolveControllerMask a _) with c. rewrite Hstep.
  by apply finishTick_ok.
Qed.

(** A running execution has no completion reason and no error. *)
Lemma running_fields s :
  execution_wf s -> completed_ s = false ->
  completionReason_ s = None /\ completionErrorMessage_ s = None.
Proof.
  intros [_ Hc He] Ecomp. rewrite Ecomp in Hc.
  assert (completionReason_ s = None) as Hr.
  { apply eq_None_not_Some. intros H. by apply Hc in H. }
  split; [done |]. rewrite Hr in He. apply eq_None_not_Some. intros H. by apply He in H.
Qed.

Lemma startCommon_wf s :
  execution_wf s -> wp (Ok (startCommon s)) (fun r => execution_wf (fst r)).
Proof.
  intros [Hi Hc He]. unfold startCommon. destruct (driver_setConfig driver_make) as [d [u | e]]; cbn [wp].
  2:{ by split. }
  destruct (driver_setup d) as [d' [u' | e]]; [| by split].
  split; simpl; [done | |]; (split; [done | by intros [? ?]]).
Qed.

Lemma tick_wf s : execution_wf s -> wp (tick s) (fun r => execution_wf (fst r)).
Proof.
  intros Hwf. pose proof Hwf as [Hi Hc He].
  destruct (completed_ s) eqn:Ecomp; [by unfold tick; rewrite Ecomp |].
  destruct (paused_ s) eqn:Ep; [by unfold tick; rewrite Ecomp, Ep |].
  destruct (running_fields s Hwf Ecomp) as [Hr Hm].
  destruct (driver_ s) as [d |] eqn:Ed.
  2:{ unfold tick. rewrite Ecomp, Ep, Ed. split; simpl; done. }
  destruct (gameAdapter_ s) as [a |] eqn:Ea.
  2:{ unfold tick. rewrite Ecomp, Ep, Ed, Ea. split; simpl; done. }
  destruct (playbackDone s) eqn:Edone.
  { unfold tick. rewrite Ecomp, Ep, Ed, Ea, Edone. split; simpl; rewrite ?Hm; [done | done |]. split; [done | by intros []]. }
  pose proof (tick_running s d a Hwf Ecomp Ep Ed Ea Edone) as H. cbv zeta in H.
  destruct (driver_step d _) as [d' r]. eapply wp_mono; [exact H |]. intros [s' tr]. unfold stepped. cbn [fst].
  intros (Smode & _ & _ & S).
  destruct (negb (StepResult.runtimeHealthy r) || negb (StepResult.runtimeRunning r)).
  { destruct S as (S1 & S2 & S3 & _ & S4 & S5). split; [unfold planLength; by rewrite S4, S5 | |]; rewrite S1; done. }
  destruct (StepResult.advancedFrames r =? 0).
  { destruct S as [[] _]. simpl in *. split; [unfold planLength; by rewrite se_plan, se_index | |];
      rewrite ?se_completed, ?se_reason, ?se_message, ?Ecomp; done. }
  destruct (judge a r _) as [[a' last'] dn]. destruct S as (_ & _ & Sh & Sp & Sc & _ & Sm & Sr).
  simpl in Sh, Sp, Sm, Sr. split.
  - destruct (mode_ s) eqn:Em.
    + destruct (Sh eq_refl) as [Hf ->]. unfold planLength in *. rewrite Hf, length_app. lia.
    + destruct (Sp eq_refl) as [Hpl ->]. unfold planLength in *. rewrite Hpl.
      destruct (isGameplayFrame _ _); simpl; [| lia]. destruct (Z.ltb_spec (playbackFrameIndex_ s) (Z.of_nat (length (plan_frames (plan_ s))))); lia.
  - rewrite Sr. destruct (completed_ s'); [done |]. by rewrite Hr.
  - rewrite Sm, Hm, Sr. destruct (completed_ s'); [| rewrite Hr]; (split; [done | by intros []]).
Qed.

Lemma exec_op_wf op s : execution_wf s -> wp (exec_op op s) execution_wf.
Proof.
  intros Hwf. destruct op as [| plan | | b |]; cbn [exec_op].
  - apply (startCommon_wf (set_playback HoldRightSearch _ 0 s)). destruct Hwf. split; simpl; done.
  - apply (startCommon_wf (set_playback PlanPlayback plan 0 s)).
    destruct Hwf. split; simpl; [unfold planLength; lia | done | done].
  - apply wp_bind. eapply wp_mono; [by apply tick_wf |]. done.
  - by destruct Hwf.
  - destruct Hwf. split; simpl; [done | |]; (split; [done | by intros []]).
Qed.

Lemma exec_ops_wf ops s : execution_wf s -> wp (exec_ops ops s) execution_wf.
Proof.
  revert s. induction ops as [| op ops IH]; intros s Hwf; cbn [exec_ops]; [done |].
  apply wp_bind. eapply wp_mono; [by apply exec_op_wf | exact IH].
Qed.

Lemma default_wf : execution_wf default.
Proof. split; simpl; [done | |]; (split; [done | by intros []]). Qed.

(** ** Recording by holding right and playing the recording back *)

(** [n] ticks. *)
Fixpoint exec_ticks (n : nat) s : res (t D) :=
  match n with
  | O => Ok s
  | Datatypes.S n' => let! r := tick s in exec_ticks n' (fst r)
  end.

(** A recording and a playback of it side by side: same runtime, same adapter,
    as many frames recorded as played, and some still to play out of [N]. *)
Record lockstep (N : nat) h p : Prop := mkLockstep {
  ls_h : execution_wf h;
  ls_p : execution_wf p;
  ls_running : completed_ h = false /\ completed_ p = false /\ paused_ h = false /\ paused_ p = false;
  ls_modes : mode_ h = HoldRightSearch /\ mode_ p = PlanPlayback;
  ls_driver : driver_ h = driver_ p;
  ls_adapter : gameAdapter_ h = gameAdapter_ p;
  ls_attached : is_Some (driver_ h) /\ is_Some (gameAdapter_ h);
  ls_last : lastGameState_ h = lastGameState_ p;
  ls_recorded : plan_frames (plan_ h) = replicate (length (plan_frames (plan_ h))) holdRightFrame;
  ls_plan : plan_frames (plan_ p) = replicate N holdRightFrame;
  ls_played : playbackFrameIndex_ p = Z.of_nat (length (plan_frames (plan_ h)));
  ls_more : (length (plan_frames (plan_ h)) < N)%nat
}.

(** One tick of both. *)
Definition both_ticked (N : nat) h p (h' p' : t D) : Prop :=
  driver_ h' = driver_ p' /\
  playbackFrameIndex_ p' = Z.of_nat (length (plan_frames (plan_ h'))) /\
  plan_ p' = plan_ p /\ (length (plan_frames (plan_ h)) <= length (plan_frames (plan_ h')) <= N)%nat /\
  (completed_ h' = true \/ lockstep N h' p' \/
   (length (plan_frames (plan_ h')) = N)) /\
  (length (plan_frames (plan_ h')) = N ->
     completed_ p' = true /\ completionReason_ p' = Some CompletionReason.Completed).

Lemma next_frame_lockstep N h p :
  lockstep N h p -> next_frame h = holdRightFrame /\ next_frame p = holdRightFrame.
Proof.
  intros [_ _ _ [Hh Hp] _ _ _ _ _ Hf Hi Hm]. unfold next_frame. rewrite Hh, Hp, Hf, Hi, Nat2Z.id.
  split; [done |]. by rewrite (proj2 (lookup_replicate N holdRightFrame _ _) (conj eq_refl Hm)).
Qed.

Lemma playbackDone_lockstep N h p : lockstep N h p -> playbackDone h = false /\ playbackDone p = false.
Proof.
  intros [_ _ _ [Hh Hp] _ _ _ _ _ Hf Hi Hm]. unfold playbackDone, planLength. rewrite Hh, Hp, Hf, length_replicate, Hi.
  split; [done |]. simpl. lia.
Qed.

Lemma replicate_snoc_iff (l : list PlayerControlFrame) (b : bool) x :
  l = replicate (length l) x ->
  l ++ (if b then [x] else []) = replicate (length (l ++ (if b then [x] else []))) x.
Proof.
  intros H. destruct b; [| by rewrite app_nil_r].
  rewrite length_app, replicate_add, <- H. done.
Qed.

Lemma tick_lockstep N h p :
  lockstep N h p ->
  exists h' rh p' rp, tick h = Ok (h', rh) /\ tick p = Ok (p', rp) /\ both_ticked N h p h' p'.
Proof.
  intros L. pose proof (next_frame_lockstep _ _ _ L) as [Fh Fp].
  pose proof (playbackDone_lockstep _ _ _ L) as [Dh Dp].
  pose proof L as [Wh Wp (Rh & Rp & Qh & Qp) [Mh Mp] Ed Ea [[d Hd] [a Ha]] El Hrec Hplan Hplayed Hmore].
  assert (next_output p a = next_output h a) as Hout by (unfold next_output; by rewrite Fh, Fp, El).
  pose proof (tick_running h d a Wh Rh Qh Hd Ha Dh) as Th.
  pose proof (tick_running p d a Wp Rp Qp (eq_trans (eq_sym Ed) Hd) (eq_trans (eq_sym Ea) Ha) Dp) as Tp.
  pose proof (tick_wf h Wh) as Vh. pose proof (tick_wf p Wp) as Vp.
  cbv zeta in Th, Tp. rewrite Hout in Tp. set (c := next_output h a) in *.
  destruct (driver_step d (resolvedControllerMask c)) as [d' r]. rewrite Fh in Th. rewrite Fp in Tp.
  apply wp_elim in Th as ([h' rh] & Eh & Sh). apply wp_elim in Tp as ([p' rp] & Ep & Sp).
  rewrite Eh in Vh. rewrite Ep in Vp. cbn [wp fst] in Vh, Vp.
  exists h', rh, p', rp. split; [done |]. split; [done |]. unfold stepped in Sh, Sp.
  destruct Sh as (Mh' & Hdh' & Qh' & Sh). destruct Sp as (Mp' & Hdp' & Qp' & Sp). simpl in Mh', Hdh', Qh', Mp', Hdp', Qp'.
  unfold both_ticked. split; [by rewrite Hdh', Hdp' |].
  destruct (negb (StepResult.runtimeHealthy r) || negb (StepResult.runtimeRunning r)).
  { destruct Sh as (_ & _ & Ch & _ & Ph & _). destruct Sp as (_ & _ & _ & _ & Pp & Ip). simpl in Ph, Pp, Ip.
    rewrite Ph, Pp, Ip. split; [done |]. split; [done |]. split; [lia |]. split; [by left |]. lia. }
  destruct (StepResult.advancedFrames r =? 0).
  { destruct Sh as [[] _]. destruct Sp as [[] _]. simpl in *. rewrite se_plan, se_plan0, se_index0.
    split; [done |]. split; [done |]. split; [lia |]. split; [| lia]. right; left.
    split; rewrite ?se_plan, ?se_plan0, ?se_index0, ?Hdh', ?Hdp', ?se_adapter, ?se_adapter0, ?se_last, ?se_last0;
      try done; try (repeat split; congruence); by eauto. }
  simpl in Sh, Sp. rewrite <- El in Sp. destruct (judge a r (lastGameState_ h)) as [[a' last'] dn].
  set (gp := isGameplayFrame last' c) in *.
  destruct Sh as (Ah & Lh & Fh' & _ & Ch & _ & _ & _). destruct Sp as (Ap & Lp & _ & Fp' & Cp & _ & _ & Rsp).
  destruct (Fh' Mh) as [Fh1 _]. destruct (Fp' Mp) as [Fp1 Fp2]. clear Fh' Fp'.
  assert (length (plan_frames (plan_ h')) = length (plan_frames (plan_ h)) + (if gp then 1 else 0))%nat as Hlen
    by (rewrite Fh1, length_app; by destruct gp).
  assert (planLength p = Z.of_nat N) as HN by (unfold planLength; by rewrite Hplan, length_replicate).
  assert (playbackFrameIndex_ p' = Z.of_nat (length (plan_frames (plan_ h')))) as Hidx.
  { change (planLength (set_driver_ (Some d') p)) with (planLength p) in Fp2. rewrite HN in Fp2.
    rewrite Fp2, Hlen, Hplayed. destruct gp; simpl; [| lia].
    destruct (Z.ltb_spec (Z.of_nat (length (plan_frames (plan_ h)))) (Z.of_nat N)); lia. }
  assert (playbackDone p' = (Z.of_nat N <=? Z.of_nat (length (plan_frames (plan_ h'))))) as Hpd.
  { unfold playbackDone, planLength. rewrite Mp', Mp, Fp1, Hplan, length_replicate, Hidx. done. }
  assert (playbackDone h' = false) as Hph by (unfold playbackDone; by rewrite Mh', Mh).
  split; [done |]. split; [done |]. split; [destruct gp; lia |]. split.
  - destruct (completed_ h') eqn:Ec; [by left |]. right. rewrite Hph, orb_false_r in Ch. subst dn.
    destruct (decide (length (plan_frames (plan_ h')) = N)) as [E | Hne]; [by right |]. left.
    assert (length (plan_frames (plan_ h')) < N)%nat as Hlt by (destruct gp; lia).
    split; rewrite ?Hdh', ?Hdp', ?Fp1; try done; try (repeat split; congruence); try (by eauto).
    + rewrite Cp, Hpd. repeat split; try congruence. simpl. lia.
    + rewrite Fh1. by apply replicate_snoc_iff.
  - intros HN'. rewrite Hpd, HN' in Cp. assert (completed_ p' = true) as Hcp by (rewrite Cp; destruct dn; simpl; lia).
    split; [done |]. by rewrite Rsp, Hcp.
Qed.

Lemma exec_ticks_completed n s : completed_ s = true -> exec_ticks n s = Ok s.
Proof. intros H. induction n as [| n IH]; [done |]. cbn [exec_ticks]. unfold tick. by rewrite H. Qed.

Lemma replay_lockstep N n h p hn :
  lockstep N h p -> exec_ticks n h = Ok hn -> length (plan_frames (plan_ hn)) = N ->
  exists k pk, (k <= n)%nat /\ exec_ticks k p = Ok pk /\ completed_ pk = true /\
    completionReason_ pk = Some CompletionReason.Completed /\ playbackFrameIndex_ pk = Z.of_nat N /\
    plan_ pk = plan_ p /\
    (forall j, (j <= k)%nat -> exists hj pj, exec_ticks j h = Ok hj /\ exec_ticks j p = Ok pj /\
       driver_ pj = driver_ hj).
Proof.
  revert h p. induction n as [| n IH]; intros h p L Hn HN; cbn [exec_ticks] in Hn.
  { injection Hn as <-. destruct L. lia. }
  destruct (tick_lockstep N h p L) as (h' & rh & p' & rp & Eh & Ep & Hd & Hi & Hpl & _ & Hcase & Hend).
  rewrite Eh in Hn. cbn [rbind fst] in Hn.
  assert (forall j hj pj, exec_ticks j h' = Ok hj -> exec_ticks j p' = Ok pj ->
    exec_ticks (Datatypes.S j) h = Ok hj /\ exec_ticks (Datatypes.S j) p = Ok pj) as Hnext
    by (intros; cbn [exec_ticks]; by rewrite Eh, Ep).
  assert (length (plan_frames (plan_ h')) = N \/ lockstep N h' p') as [Hl | L'].
  { destruct Hcase as [Hc | [L' | Hl]]; [left | by right | by left].
    rewrite exec_ticks_completed in Hn by done. by injection Hn as <-. }
  - destruct (Hend Hl) as [C1 C2]. exists 1%nat, p'.
    split; [lia |]. split; [by apply (Hnext O h' p') |]. split; [done |]. split; [done |].
    split; [by rewrite Hi, Hl |]. split; [done |]. intros j Hj. destruct j as [| j].
    { exists h, p. by destruct L. }
    replace j with O by lia. exists h', p'. destruct (Hnext O h' p') as [-> ->]; done.
  - destruct (IH h' p' L' Hn HN) as (k & pk & Hk & Ek & C1 & C2 & C3 & C4 & Hj).
    exists (Datatypes.S k), pk. destruct (Hj k ltac:(lia)) as (hk & pk' & Hhk & Hpk & _).
    split; [lia |]. split; [by apply (Hnext k hk pk) |]. split; [done |]. split; [done |]. split; [done |].
    split; [congruence |]. intros [| j] Hle.
    { exists h, p. by destruct L. }
    destruct (Hj j ltac:(lia)) as (hj & pj & H1 & H2 & H3). exists hj, pj.
    destruct (Hnext j hj pj H1 H2) as [-> ->]. done.
Qed.

(** Holding right records right frames only. *)
Definition recording s : Prop :=
  execution_wf s /\ mode_ s = HoldRightSearch /\
  plan_frames (plan_ s) = replicate (length (plan_frames (plan_ s))) holdRightFrame.

Lemma tick_recording s : recording s -> wp (tick s) (fun r => recording (fst r)).
Proof.
  intros (Hwf & Hm & Hf). pose proof (tick_wf s Hwf) as Hw.
  destruct (completed_ s) eqn:Ec; [by unfold tick; rewrite Ec |].
  destruct (paused_ s) eqn:Ep; [by unfold tick; rewrite Ec, Ep |].
  destruct (driver_ s) as [d |] eqn:Ed; [| revert Hw; by unfold tick; rewrite Ec, Ep, Ed].
  destruct (gameAdapter_ s) as [a |] eqn:Ea; [| revert Hw; by unfold tick; rewrite Ec, Ep, Ed, Ea].
  assert (playbackDone s = false) as Hd by (unfold playbackDone; by rewrite Hm).
  pose proof (tick_running s d a Hwf Ec Ep Ed Ea Hd) as H. cbv zeta in H.
  destruct (driver_step d _) as [d' r]. eapply wp_mono; [exact (wp_conj _ _ _ H Hw) |].
  intros [s' tr]. unfold stepped. cbn [fst]. intros [(Sm & _ & _ & S) Hw'].
  split; [done |]. split; [by rewrite Sm |]. unfold next_frame in S. rewrite Hm in S.
  destruct (negb (StepResult.runtimeHealthy r) || negb (StepResult.runtimeRunning r)).
  { destruct S as (_ & _ & _ & _ & -> & _). done. }
  destruct (StepResult.advancedFrames r =? 0); [destruct S as [[] _]; by rewrite se_plan |].
  destruct (judge a r _) as [[a' last'] dn]. destruct S as (_ & _ & S & _).
  destruct (S Hm) as [-> _]. by apply replicate_snoc_iff.
Qed.

Lemma exec_ticks_recording n s s' : recording s -> exec_ticks n s = Ok s' -> recording s'.
Proof.
  revert s. induction n as [| n IH]; intros s Hr Hs; cbn [exec_ticks] in Hs; [by injection Hs as <- |].
  pose proof (tick_recording s Hr) as H. destruct (tick s) as [r |]; [| done]. by apply (IH (fst r)).
Qed.

(** What a successful start leaves. *)
Lemma startCommon_inv s s' :
  startCommon s = (s', okay tt) ->
  exists d, driver_ s' = Some d /\ driver_setConfig driver_make = (fst (driver_setConfig driver_make), okay tt) /\
    driver_setup (fst (driver_setConfig driver_make)) = (d, okay tt) /\
    s' = mk (Some d) (Some (NesSuperMarioBrosGameAdapter.reset NesSuperMarioBrosGameAdapter.default))
           (mkWorldData 256 240 0) None None (plan_ s) SearchProgress.default
           (playbackFrameIndex_ s) false false (mode_ s) None None.
Proof.
  unfold startCommon. destruct (driver_setConfig driver_make) as [d [[] | e]]; [| done].
  destruct (driver_setup d) as [d' [[] | e]] eqn:E; [| done]. intros [= <-]. exists d'. done.
Qed.

(** ** The claims *)

(** Whatever the runtime answers, no sequence of starts, ticks, pauses and
    stops of a plan execution reads outside the plan or throws; the playback
    position stays inside the plan, an execution is completed exactly when it
    has a completion reason, and it has an error message exactly when that
    reason is an error. *)
Lemma execution_total (ops : list exec_operation) :
  exists s, exec_ops ops default = Ok s /\
    0 <= playbackFrameIndex_ s <= planLength s /\
    (isCompleted s = true <-> is_Some (getCompletionReason s)) /\
    (getCompletionReason s = Some CompletionReason.Error <-> is_Some (getCompletionErrorMessage s)) /\
    (hasPersistablePlan s = true <-> 0 < planLength s).
Proof.
  pose proof (exec_ops_wf ops default default_wf) as H. apply wp_elim in H as (s & Hs & Hwf).
  exists s. destruct Hwf. split; [done |]. split; [done |]. split; [done |]. split; [done |].
  unfold hasPersistablePlan, planLength. destruct (plan_frames (plan_ s)); simpl; split; done || lia.
Qed.

(** One tick of a running execution: it steps the runtime once, with the
    buttons of the next plan frame (of hold-right when recording) if the game was
    last seen in gameplay and with the setup script's otherwise; a runtime failure
    completes it with an error and moves nothing; a step without frames moves
    nothing; otherwise a frame that counts as gameplay is appended when recording
    and passed over in playback, whose plan never changes, and the execution
    completes exactly when the episode is done or the plan is used up. *)
Lemma execution_tick s d a :
  execution_wf s -> completed_ s = false -> paused_ s = false ->
  driver_ s = Some d -> gameAdapter_ s = Some a -> playbackDone s = false ->
  let gameplay := value_or (lastGameState_ s) 0 =? 1 in
  let c := next_output s a in
  let '(d', r) := driver_step d (resolvedControllerMask c) in
  resolvedControllerMask c =
    (if gameplay then playerControlFrameToNesMask (next_frame s)
     else SetupPolicy.getNesSuperMarioBrosScriptedSetupMaskForFrame
            (NesSuperMarioBrosGameAdapter.advancedFrameCount_ a)) /\
  wp (tick s) (fun '(s', tr) => driver_ s' = Some d' /\ mode_ s' = mode_ s /\
    tr_completed tr = completed_ s' /\
    if negb (StepResult.runtimeHealthy r && StepResult.runtimeRunning r) then
      completionReason_ s' = Some CompletionReason.Error /\ completed_ s' = true /\
      plan_ s' = plan_ s /\ playbackFrameIndex_ s' = playbackFrameIndex_ s
    else if StepResult.advancedFrames r =? 0 then
      plan_ s' = plan_ s /\ playbackFrameIndex_ s' = playbackFrameIndex_ s /\ completed_ s' = false
    else
      let '(a', last', done) := judge a r (lastGameState_ s) in
      let counted := isGameplayFrame last' c in
      gameAdapter_ s' = Some a' /\ lastGameState_ s' = last' /\
      (mode_ s = HoldRightSearch -> completed_ s' = done /\
         plan_frames (plan_ s') = plan_frames (plan_ s) ++ (if counted then [holdRightFrame] else [])) /\
      (mode_ s = PlanPlayback -> plan_ s' = plan_ s /\
         playbackFrameIndex_ s' = playbackFrameIndex_ s + Z.b2z counted /\
         completed_ s' = done || (playbackFrameIndex_ s' =? planLength s))).
Proof.
  intros Hwf Hc Hp Hd Ha Hdone gameplay c.
  pose proof (tick_running s d a Hwf Hc Hp Hd Ha Hdone) as T. cbv zeta in T. fold c in T.
  destruct (driver_step d (resolvedControllerMask c)) as [d' r]. split.
  { unfold gameplay, c, next_output, NesSuperMarioBrosGameAdapter.resolveControllerMask,
      SetupPolicy.resolveNesSuperMarioBrosSetupDecision. simpl. by destruct (_ =? 1). }
  eapply wp_mono; [exact T |]. intros [s' tr]. unfold stepped. rewrite negb_andb.
  intros (Sm & Sd & _ & S). simpl in Sm, Sd. split; [done |]. split; [done |].
  destruct (negb (StepResult.runtimeHealthy r) || negb (StepResult.runtimeRunning r)).
  { destruct S as (S1 & _ & S2 & S3 & S4 & S5). by rewrite S2, S3. }
  destruct (StepResult.advancedFrames r =? 0).
  { destruct S as [[] ->]. simpl in *. by rewrite se_completed, se_plan, se_index, Hc. }
  simpl in S. destruct (judge a r (lastGameState_ s)) as [[a' last'] dn].
  destruct S as (S1 & S2 & Sh & Sp & Sc & St & _). split; [done |]. split; [done |]. split; [done |].
  unfold playbackDone in *. split; intros Hm; rewrite Sm, Hm in Sc; simpl in Sc.
  - split; [by rewrite orb_false_r in Sc |]. destruct (Sh Hm) as [-> _]. unfold next_frame. by rewrite Hm.
  - destruct (Sp Hm) as [Hpl Hidx]. rewrite Hm in Hdone. simpl in Hdone.
    change (planLength (set_driver_ (Some d') s)) with (planLength s) in Hidx.
    apply Z.leb_gt in Hdone. rewrite (proj2 (Z.ltb_lt _ _) Hdone), andb_true_r in Hidx.
    split; [done |]. assert (planLength s' = planLength s) as Hl by (unfold planLength; by rewrite Hpl).
    rewrite Hl in Sc. destruct (isGameplayFrame last' c); simpl in *; (split; [lia |]); rewrite Sc; f_equal; lia.
Qed.

(** A plan recorded by holding right plays back: on a runtime that started,
    the playback of the recorded plan started afterwards (on any execution)
    goes through exactly the emulator states of the recording, tick by tick,
    and completes without error after playing each recorded frame, in no more
    ticks than the recording took. *)
Lemma recording_replays (n : nat) s0 h0 h s1 :
  startHoldRight s0 = (h0, okay tt) -> exec_ticks n h0 = Ok h -> hasPersistablePlan h = true ->
  exists p0 k p, startPlayback (getPlan h) s1 = (p0, okay tt) /\ (k <= n)%nat /\
    exec_ticks k p0 = Ok p /\ isCompleted p = true /\
    getCompletionReason p = Some CompletionReason.Completed /\
    playbackFrameIndex_ p = planLength h /\ getPlan p = getPlan h /\
    forall j, (j <= k)%nat -> exists hj pj, exec_ticks j h0 = Ok hj /\ exec_ticks j p0 = Ok pj /\
      driver_ pj = driver_ hj.
Proof.
  intros Hs Hn Hplan. destruct (startCommon_inv _ _ Hs) as (d & _ & Hcfg & Hset & ->).
  assert (exists p0, startPlayback (getPlan h) s1 = (p0, okay tt)) as [p0 Hp0].
  { unfold startPlayback, startCommon. rewrite Hcfg, Hset. by eexists. }
  exists p0. destruct (startCommon_inv _ _ Hp0) as (d1 & _ & _ & Hset1 & ->).
  assert (d1 = d) as -> by congruence. simpl in *.
  match type of Hn with exec_ticks n ?x = _ => set (h0' := x) in *; assert (recording h0') as Hr0 end.
  { split; [| done]. split; simpl; [done | |]; (split; [done | by intros []]). }
  destruct (exec_ticks_recording n _ _ Hr0 Hn) as (_ & _ & Hf). unfold getPlan in *.
  match type of Hp0 with _ = (?x, _) => set (p0' := x) in * end.
  assert (lockstep (length (plan_frames (plan_ h))) h0' p0') as L.
  { split; try done; try (by destruct Hr0); try (by split; eexists).
    - split; simpl; [unfold planLength; simpl; lia | |]; (split; [done | by intros []]).
    - simpl. unfold hasPersistablePlan in Hplan. destruct (plan_frames (plan_ h)); [done | simpl; lia]. }
  destruct (replay_lockstep _ n h0' p0' h L Hn eq_refl) as (k & pk & Hk & Ek & C1 & C2 & C3 & C4 & Hj).
  by exists k, pk.
Qed.

End Replay.

(** ** Witnesses: recording and playing back in the corridor *)
Definition recorded_after (n : nat) : SmbPlanExecution.t strider :=
  match exec_ticks n (fst (SmbPlanExecution.startHoldRight SmbPlanExecution.default)) with
  | Ok s => s
  | Fault _ => SmbPlanExecution.default
  end.

(** The setup script takes 300 frames, three steps here; the frame that ends it is the first to
    find the game in play, and the next is the first to count. *)
Example corridor_recording :
  SmbPlanExecution.planLength (recorded_after 4) = 1 /\
  SmbPlanExecution.driver_ (recorded_after 4) = Some (mkStrider 41).
Proof. vm_compute. done. Qed.

Example execution_total_witness :
  exists s : SmbPlanExecution.t strider,
    exec_ops [StartHoldRight; ExecTick; ExecPauseSet true; ExecTick; ExecStop] SmbPlanExecution.default = Ok s /\
    SmbPlanExecution.isCompleted s = true.
Proof.
  destruct (execution_total (D := strider) [StartHoldRight; ExecTick; ExecPauseSet true; ExecTick; ExecStop])
    as (s & Hs & _ & H & _).
  exists s. split; [exact Hs |]. revert Hs H. vm_compute. intros [= <-] _. reflexivity.
Defined.

(** The execution as [startHoldRight] leaves it. *)
Definition started_demo : SmbPlanExecution.t strider :=
  fst (SmbPlanExecution.startHoldRight SmbPlanExecution.default).

Example execution_tick_witness :
  wp (SmbPlanExecution.tick started_demo) (fun p => SmbPlanExecution.driver_ (fst p) = Some (mkStrider 40)).
Proof.
  pose proof (execution_tick started_demo (mkStrider 40)
    (NesSuperMarioBrosGameAdapter.reset NesSuperMarioBrosGameAdapter.default)) as H.
  destruct H as [_ H].
  - split; [split; apply Z.le_refl | |]; (split; [discriminate | by intros [? ?]]).
  - reflexivity.
  - reflexivity.
  - reflexivity.
  - reflexivity.
  - reflexivity.
  - eapply wp_mono; [exact H |]. intros [s' tr] (Hd & _). exact Hd.
Defined.

Example recording_replays_witness :
  exists p0 k p, SmbPlanExecution.startPlayback (SmbPlanExecution.getPlan (recorded_after 4))
      (SmbPlanExecution.default : SmbPlanExecution.t strider) = (p0, okay tt) /\ (k <= 4)%nat /\
    exec_ticks k p0 = Ok p /\ SmbPlanExecution.isCompleted p = true.
Proof.
  destruct (recording_replays 4 SmbPlanExecution.default started_demo (recorded_after 4)
    SmbPlanExecution.default) as (p0 & k & p & H1 & H2 & H3 & H4 & _).
  - reflexivity.
  - vm_compute. reflexivity.
  - vm_compute. reflexivity.
  - exists p0, k, p. split; [exact H1 |]. split; [exact H2 |]. split; [exact H3 | exact H4].
Defined.
