(* ===== verification/SmbDfsFaithful.v ===== *)
(** The search tree is the unfolding of the emulator: on a deterministic machine
    whose savestates restore it, the summary of every node is the one obtained by
    playing the node's path from the root without stopping.

    Last, two facts about the pieces the search is built from: the evaluator rebuilt
    from a node's summary continues the one the summary was taken from, and the
    transposition keys compare as intended. *)

From Stdlib Require Import ZArith Lia Bool String.
From stdpp Require Import base gmap option numbers list.
From S2P Require Import Prelude Ieee NesTypes SmbEvaluator SmbRam SmbAdapter.
From S2P Require Import SmbSearchCore SmbDfsSearch SmbDfsTree SmbDfsFacts.
From S2P Require Import SmbDfsInvariant SmbDfsSteps SmbDfsTick SmbDfsCorrect.

Set Default Goal Selector "!".

(** ** The emulator as a deterministic machine

    Two drivers hold the same machine when nothing that is asked of them can
    tell them apart: a step answers alike and leads to the same machine, and a
    savestate brings back the machine it was copied from.  The RAM holds bytes,
    and one step advances a bounded number of frames. *)
Class NesMachine (D : Type) `{HD : NesDriver D} := {
  same_machine : D -> D -> Prop;
  #[global] machine_equivalence :: Equivalence same_machine;
  machine_step d1 d2 mask : same_machine d1 d2 ->
    same_machine (fst (driver_step d1 mask)) (fst (driver_step d2 mask)) /\
    snd (driver_step d1 mask) = snd (driver_step d2 mask);
  machine_savestate d ss d1 t d2 :
    driver_copyRuntimeSavestate d = Some ss -> driver_loadRuntimeSavestate d1 ss t = (d2, true) ->
    same_machine d2 d;
  machine_load ss d1 t1 e1 d2 t2 e2 :
    driver_loadRuntimeSavestate d1 ss t1 = (e1, true) -> driver_loadRuntimeSavestate d2 ss t2 = (e2, true) ->
    same_machine e1 e2;
  machine_bytes d mask m : StepResult.memorySnapshot (snd (driver_step d mask)) = Some m -> ram_wf m;
  machine_frames d mask : 0 <= StepResult.advancedFrames (snd (driver_step d mask)) < 2 ^ 32
}.

Infix "≈" := same_machine (at level 70) : stdpp_scope.

#[global] Instance step_proper `{NesMachine D} : Proper (same_machine ==> eq ==> same_machine) (fun d m => fst (driver_step d m)).
Proof. intros d1 d2 H12 m _ <-. by apply machine_step. Qed.

(** ** Playing actions *)
Section Simulate.
Context {D : Type} `{HM : NesMachine D}.
Implicit Types (d : D) (x : D * SmbSearchEvaluatorSummary.t) (acts : list SmbSearchLegalAction.t).

Definition action_mask (a : SmbSearchLegalAction.t) : Z :=
  SmbSearchCore.playerControlFrameToNesMask (SmbSearchCore.smbSearchLegalActionToPlayerControlFrame a).

(** The game state a step of the search reports. *)
Definition game_state (state : NesSuperMarioBrosState.t) : option Z :=
  if bool_decide (NesSuperMarioBrosState.phase state = SmbPhase.Gameplay) then Some 1 else Some 0.

(** One action on a running machine, judged by the evaluator the summary restores. *)
Definition judge_step (σ : SmbSearchEvaluatorSummary.t) (r : StepResult.t) : option SmbSearchEvaluatorSummary.t :=
  if negb (StepResult.runtimeHealthy r) || negb (StepResult.runtimeRunning r)
     || (StepResult.advancedFrames r =? 0) then None
  else
    match StepResult.memorySnapshot r with
    | None => None
    | Some m =>
        match NesSuperMarioBrosRamExtractor.extract m true with
        | Fault _ => None
        | Ok state =>
            Some (SmbSearchCore.buildSmbSearchEvaluatorSummary
              (FitnessSmb (NesSuperMarioBrosEvaluator.snapshot (snd (NesSuperMarioBrosEvaluator.evaluate
                 (SmbDfsSearch.childEvaluator σ)
                 (NesSuperMarioBrosEvaluator.mkInput (StepResult.advancedFrames r) state)))))
              (game_state state))
        end
    end.

Definition simulate_action x (a : SmbSearchLegalAction.t) : option (D * SmbSearchEvaluatorSummary.t) :=
  let '(d, r) := driver_step (fst x) (action_mask a) in
  σ ← judge_step (snd x) r; Some (d, σ).

Definition simulate x acts : option (D * SmbSearchEvaluatorSummary.t) :=
  foldl (fun o a => o ≫= fun x => simulate_action x a) (Some x) acts.

Lemma simulate_snoc x acts a : simulate x (acts ++ [a]) = simulate x acts ≫= fun y => simulate_action y a.
Proof. unfold simulate. by rewrite foldl_snoc. Qed.

(** Playing depends on the machine only. *)
Lemma simulate_action_same d1 d2 σ a e1 σ1 :
  same_machine d1 d2 -> simulate_action (d1, σ) a = Some (e1, σ1) ->
  exists e2, simulate_action (d2, σ) a = Some (e2, σ1) /\ same_machine e1 e2.
Proof.
  intros H12. unfold simulate_action. cbn [fst snd].
  destruct (machine_step d1 d2 (action_mask a) H12) as [Hd Hr].
  destruct (driver_step d1 _) as [d1' r1], (driver_step d2 _) as [d2' r2]. cbn [fst snd] in *. subst r2.
  destruct (judge_step σ r1); [| done]. cbn. intros [= <- <-]. by exists d2'.
Qed.

(** Loading the savestate brings back the machine [d]. *)
Definition restores (ss : Savestate) d : Prop :=
  forall d1 t d2, driver_loadRuntimeSavestate d1 ss t = (d2, true) -> same_machine d2 d.

Lemma restores_same ss d d' : same_machine d d' -> restores ss d -> restores ss d'.
Proof. intros H Hr d1 t d2 Hl. etrans; [by eapply Hr | done]. Qed.
End Simulate.

(** ** What one operation does to the nodes and the stack *)
Section Shape.
Context {D : Type} `{HD : NesDriver D}.
Import SmbDfsSearch.
Implicit Types (s : t D) (f : DfsFrame.t).

(** Same nodes, open nodes, best leaf and prefix. *)
Record same_shape s s' : Prop := mkSameShape {
  ss_nodes : nodes_ s' = nodes_ s;
  ss_stack : dfsStack_ s' = dfsStack_ s;
  ss_leaf : bestLeafIndex_ s' = bestLeafIndex_ s;
  ss_prefix : rootPrefixFrames_ s' = rootPrefixFrames_ s
}.

#[global] Instance same_shape_preorder : PreOrder same_shape.
Proof. split; [by split |]. intros s1 s2 s3 [] []. split; congruence. Qed.

Lemma rebuild_shape s s' : rebuildBestPlan s = Ok s' -> same_shape s s'.
Proof.
  unfold rebuildBestPlan. destruct (bestLeafIndex_ s); [| by intros [= <-]].
  intros ([frames | e] & _ & E)%rbind_ok_inv; by injection E as <-.
Qed.

Lemma complete_shape ev s s' : completeWithTraceEvent ev s = Ok s' -> same_shape s s'.
Proof. intros (s1 & E%rebuild_shape & [= <-])%rbind_ok_inv. by destruct E. Qed.

Lemma failTick_shape msg s p : failTick msg s = Ok p -> same_shape s (fst p).
Proof.
  intros (s1 & (s2 & E%rebuild_shape & [= <-])%rbind_ok_inv & [= <-])%rbind_ok_inv. by destruct E.
Qed.

Lemma render_shape node s : same_shape s (updateRenderableState node s).
Proof. unfold updateRenderableState. by destruct (SmbSearchNode.scenarioVideoFrame node). Qed.

Lemma milestone_shape s p :
  (match SmbDfsSearchOptions.stopAfterBestFrontier (options_ s) with
   | Some milestone =>
       if milestone <=? bestFrontier_ s then
         let! s := completeWithTraceEvent TraceEventType.CompletedMilestoneReached s in
         Ok (s, TickResult.mk true true true None)
       else Ok (s, TickResult.mk (completed_ s) true true None)
   | None => Ok (s, TickResult.mk (completed_ s) true true None)
   end) = Ok p -> same_shape s (fst p).
Proof.
  destruct (SmbDfsSearchOptions.stopAfterBestFrontier _) as [m |]; [| by intros [= <-]].
  destruct (m <=? _); [| by intros [= <-]]. intros (s1 & E%complete_shape & [= <-])%rbind_ok_inv. done.
Qed.

Lemma publish_shape i s s' : publishClosedLossTranspositionEntry i s = Ok s' -> same_shape s s'.
Proof.
  unfold publishClosedLossTranspositionEntry. destruct (_ || _); [by intros [= <-] |].
  intros (o & _ & E)%rbind_ok_inv. case_bool_decide; [by injection E as <- |].
  apply rbind_ok_inv in E as ([k |] & _ & E); [| by injection E as <-].
  apply rbind_ok_inv in E as (n & _ & E). by injection E as <-.
Qed.

(** A release touches one node, whose core stays. *)
Record released (i : Z) s s' : Prop := mkReleased {
  rl_cores : cores (nodes_ s') = cores (nodes_ s);
  rl_kept : forall j, j <> Z.to_nat i -> nodes_ s' !! j = nodes_ s !! j;
  rl_stack : dfsStack_ s' = dfsStack_ s;
  rl_leaf : bestLeafIndex_ s' = bestLeafIndex_ s;
  rl_prefix : rootPrefixFrames_ s' = rootPrefixFrames_ s
}.

Lemma release_shape i s s' : releaseNodeHeavyData i s = Ok s' -> released i s s'.
Proof.
  unfold releaseNodeHeavyData. destruct (nodeCount s <=? i); [by intros [= <-] |].
  intros (n & [Hr Hn]%vec_get_inv & (ns & Hs & [= <-])%rbind_ok_inv)%rbind_ok_inv.
  unfold vec_set in Hs. destruct (in_range _ _); [| done]. injection Hs as <-. split; try done.
  - apply list_eq. intros j. simpl. rewrite !cores_lookup. destruct (decide (j = Z.to_nat i)) as [-> | Hj].
    + rewrite list_lookup_insert_eq by lia. by rewrite Hn.
    + by rewrite list_lookup_insert_ne.
  - intros j Hj. simpl. by rewrite list_lookup_insert_ne.
Qed.

Lemma set_top_shape f s g gs :
  dfsStack_ s = g :: gs -> nodes_ (set_top f s) = nodes_ s /\ dfsStack_ (set_top f s) = f :: gs /\
  bestLeafIndex_ (set_top f s) = bestLeafIndex_ s /\ rootPrefixFrames_ (set_top f s) = rootPrefixFrames_ s.
Proof. intros H. unfold set_top. by rewrite H. Qed.

(** A pruned child: its node keeps its core and is not open. *)
Lemma prune_shape i f o r s s' g gs :
  pruneChild i f o r s = Ok s' -> dfsStack_ s = g :: gs ->
  cores (nodes_ s') = cores (nodes_ s) /\ (forall j, j <> Z.to_nat i -> nodes_ s' !! j = nodes_ s !! j) /\
  dfsStack_ s' = noteChildOutcome o r f :: gs /\ bestLeafIndex_ s' = bestLeafIndex_ s /\
  rootPrefixFrames_ s' = rootPrefixFrames_ s.
Proof.
  intros (outs & _ & E)%rbind_ok_inv Hst. apply rbind_ok_inv in E as (rs & _ & E).
  apply rbind_ok_inv in E as (s1 & E1 & E). apply release_shape in E.
  match type of E1 with context [set_top ?F ?S] => set (s0 := S) in *; set (f1 := F) in * end.
  destruct (set_top_shape f1 s0 g gs Hst) as (T1 & T2 & T3 & T4).
  assert (same_shape (set_top f1 s0) s1) as Hss.
  { case_bool_decide; [by eapply publish_shape | by injection E1 as <-]. }
  change (nodes_ s0) with (nodes_ s) in T1. change (bestLeafIndex_ s0) with (bestLeafIndex_ s) in T3.
  change (rootPrefixFrames_ s0) with (rootPrefixFrames_ s) in T4. destruct E, Hss.
  split; [congruence |]. split; [intros j Hj; rewrite rl_kept0 by done; congruence |]. repeat split; congruence.
Qed.

(** A pushed child: it is the top of the stack. *)
Lemma push_shape i a state c r s s' :
  pushChild i a state c r s = Ok s' ->
  nodes_ s' = nodes_ s /\ rootPrefixFrames_ s' = rootPrefixFrames_ s /\
  (exists f, DfsFrame.nodeIndex f = i /\ dfsStack_ s' = f :: dfsStack_ s) /\
  (bestLeafIndex_ s' = bestLeafIndex_ s \/ bestLeafIndex_ s' = Some i).
Proof.
  intros (s1 & E1 & E)%rbind_ok_inv. apply rbind_ok_inv in E as (o & _ & [= <-]). simpl.
  assert (nodes_ s1 = nodes_ s /\ dfsStack_ s1 = dfsStack_ s /\ rootPrefixFrames_ s1 = rootPrefixFrames_ s /\
    (bestLeafIndex_ s1 = bestLeafIndex_ s \/ bestLeafIndex_ s1 = Some i)) as (Hn & Hst & Hp & Hl).
  { unfold updateBestLeaf in E1. destruct (nodeCount s <=? i); [injection E1 as <-; by auto |].
    apply rbind_ok_inv in E1 as (n & _ & E1).
    match type of E1 with context [if ?b then _ else _] => destruct b end; [| injection E1 as <-; by auto].
    apply rebuild_shape in E1. destruct E1. simpl in *. by auto. }
  split; [done |]. split; [done |]. split; [| done]. rewrite Hst. by eexists; split; [| done].
Qed.
End Shape.

(** ** A tick adds at most one node, which the emulator justifies *)
Section Growth.
Context {D : Type} `{HM : NesMachine D}.
Import SmbDfsSearch.
Implicit Types (s : t D) (f : DfsFrame.t).

(** In gameplay, and the episode goes on. *)
Definition alive (σ : SmbSearchEvaluatorSummary.t) : Prop :=
  SmbSearchEvaluatorSummary.terminal σ = false /\ SmbSearchEvaluatorSummary.gameState σ = Some 1.

Definition unchanged s s' : Prop :=
  length (nodes_ s') = length (nodes_ s) /\ bestLeafIndex_ s' = bestLeafIndex_ s /\
  rootPrefixFrames_ s' = rootPrefixFrames_ s.

(** The new node is a child of an open node [p]: what one step makes of the
    machine its savestate brings back. *)
Definition grown s s' : Prop :=
  exists pi p a d d1 d2 node, on_stack (dfsStack_ s) pi /\ nodes_ s !! pi = Some p /\
    driver_loadRuntimeSavestate d (SmbSearchNode.savestate p) 2000 = (d1, true) /\
    simulate_action (d1, SmbSearchNode.evaluatorSummary p) a = Some (d2, SmbSearchNode.evaluatorSummary node) /\
    SmbSearchNode.parentIndex node = Some (Z.of_nat pi) /\ SmbSearchNode.actionFromParent node = Some a /\
    cores (nodes_ s') = cores (nodes_ s) ++ [core_of node] /\
    rootPrefixFrames_ s' = rootPrefixFrames_ s /\
    ((~ on_stack (dfsStack_ s') (length (nodes_ s)) /\ bestLeafIndex_ s' = bestLeafIndex_ s) \/
     (nodes_ s' !! length (nodes_ s) = Some node /\
      driver_copyRuntimeSavestate d2 = Some (SmbSearchNode.savestate node) /\
      alive (SmbSearchNode.evaluatorSummary node) /\
      (bestLeafIndex_ s' = bestLeafIndex_ s \/ bestLeafIndex_ s' = Some (nodeCount s)))).

Definition evolved s s' : Prop := unchanged s s' \/ grown s s'.

Lemma same_unchanged s s' : same_shape s s' -> unchanged s s'.
Proof. intros []. split; [congruence | done]. Qed.

Lemma extract_phase m b state :
  NesSuperMarioBrosRamExtractor.extract m b = Ok state ->
  NesSuperMarioBrosState.phase state = NesSuperMarioBrosRamExtractor.decodePhase (NesSuperMarioBrosState.gameMode state) b.
Proof.
  intros E. pose proof (extract_ok m b) as H. rewrite E in H. destruct H as ([[e0 e1] c] & _ & -> & -> & _). done.
Qed.

(** The state of the search after [appendChild] and the trace. *)
Lemma append_shape node key prio s ev entry :
  let s1 := recordTrace entry (appendChild node key prio s) in
  let s2 := set_progress_ (SearchProgress.set_lastSearchEvent ev (progress_ s1)) s1 in
  nodes_ s2 = nodes_ s ++ [node] /\ dfsStack_ s2 = dfsStack_ s /\ bestLeafIndex_ s2 = bestLeafIndex_ s /\
  rootPrefixFrames_ s2 = rootPrefixFrames_ s.
Proof. pose proof (appendChild_appended node key prio s) as []. cbv zeta. simpl. done. Qed.

(** The child, pushed exactly when its summary says it may live. *)
Lemma finishChild_grown s f fs parent a prio ss mem video state σ p :
  finishChild (DfsFrame.nodeIndex f) parent f a prio ss mem video state σ s = Ok p ->
  dfsStack_ s = f :: fs -> (forall g, g ∈ f :: fs -> 0 <= DfsFrame.nodeIndex g < nodeCount s) ->
  SmbSearchEvaluatorSummary.gameState σ = game_state state ->
  NesSuperMarioBrosState.phase state = NesSuperMarioBrosRamExtractor.decodePhase (NesSuperMarioBrosState.gameMode state) true ->
  exists node, SmbSearchNode.evaluatorSummary node = σ /\ SmbSearchNode.savestate node = ss /\
    SmbSearchNode.parentIndex node = Some (DfsFrame.nodeIndex f) /\ SmbSearchNode.actionFromParent node = Some a /\
    cores (nodes_ (fst p)) = cores (nodes_ s) ++ [core_of node] /\
    rootPrefixFrames_ (fst p) = rootPrefixFrames_ s /\
    ((~ on_stack (dfsStack_ (fst p)) (length (nodes_ s)) /\ bestLeafIndex_ (fst p) = bestLeafIndex_ s) \/
     (nodes_ (fst p) !! length (nodes_ s) = Some node /\ alive σ /\
      (bestLeafIndex_ (fst p) = bestLeafIndex_ s \/ bestLeafIndex_ (fst p) = Some (nodeCount s)))).
Proof.
  intros E Hst Hidx Hgs Hph. unfold finishChild in E. apply rbind_ok_inv in E as (key & _ & E). cbv zeta in E.
  match type of E with context [appendChild ?n key prio s] => set (node := n) in * end.
  exists node. do 4 (split; [done |]). apply rbind_ok_inv in E as (s3 & E3 & E). apply milestone_shape in E as [].
  match type of E3 with context [set_progress_ (SearchProgress.set_lastSearchEvent ?ev _) (recordTrace ?en _)] =>
    destruct (append_shape node key prio s ev en) as (Hn & Hs & Hl & Hp); cbv zeta in Hn, Hs, Hl, Hp end.
  set (s2 := set_progress_ _ _) in *. clearbody s2. rewrite ss_nodes0, ss_leaf0, ss_prefix0.
  match type of E3 with (if ?b then _ else _) = _ => destruct b eqn:Hb end.
  - apply push_shape in E3 as (E1 & E2 & E3 & E4). rewrite E1, Hn, cores_app, E2, Hp.
    do 2 (split; [done |]). right. split; [by apply list_lookup_middle |]. split; [| by rewrite <- Hl].
    apply andb_true_iff in Hb as [[[[Ht _]%andb_true_iff Hng]%andb_true_iff _]%andb_true_iff _].
    apply negb_true_iff in Ht, Hng. split; [done |]. rewrite Hgs. unfold game_state. rewrite Hph.
    unfold nonGameplay in Hng. rewrite Ht in Hng. cbn [negb andb] in Hng.
    apply bool_decide_eq_false in Hng. destruct (NesSuperMarioBrosState.gameMode state); try done; by exfalso; apply Hng.
  - destruct (prune_shape _ _ _ _ _ _ f fs E3 (eq_trans Hs Hst)) as (E1 & _ & E2 & E4 & E5).
    rewrite E1, Hn, cores_app, E5, E4, Hp, Hl. do 2 (split; [done |]). left. split; [| done].
    rewrite ss_stack0, E2. intros (g & Hg & Hi). unfold nodeCount in Hidx.
    apply elem_of_cons in Hg as [-> | Hg]; [| specialize (Hidx g ltac:(by right)); lia].
    specialize (Hidx f ltac:(by left)). unfold noteChildOutcome in Hi. case_bool_decide; simpl in Hi; lia.
Qed.

Lemma expandTick_evolved d s f fs p :
  expandTick d f s = Ok p -> dfsStack_ s = f :: fs -> (forall g, g ∈ f :: fs -> 0 <= DfsFrame.nodeIndex g < nodeCount s) ->
  evolved s (fst p).
Proof.
  intros E Hst Hidx. apply rbind_ok_inv in E as (a & _ & E). cbv zeta in E.
  set (f' := DfsFrame.mk _ _ _ _ _) in E. destruct (set_top_shape f' s f fs Hst) as (T1 & T2 & T3 & T4).
  set (s1 := set_top f' s) in *. clearbody s1.
  apply rbind_ok_inv in E as (parent & Hp & E). rewrite T1 in Hp. apply vec_get_inv in Hp as [Hr Hp].
  destruct (driver_loadRuntimeSavestate d (SmbSearchNode.savestate parent) 2000) as [d1 loaded] eqn:Hload.
  assert (forall msg s0 q, failTick msg s0 = Ok q -> nodes_ s0 = nodes_ s -> bestLeafIndex_ s0 = bestLeafIndex_ s ->
    rootPrefixFrames_ s0 = rootPrefixFrames_ s -> evolved s (fst q)) as Hfail.
  { intros msg s0 q E0%failTick_shape E1 E2 E3. destruct E0. left. unfold unchanged.
    split; [congruence | split; congruence]. }
  destruct (negb loaded) eqn:Hl; [by eapply Hfail |]. apply negb_false_iff in Hl as ->.
  destruct (driver_step d1 _) as [d2 r] eqn:Hstep.
  destruct (negb (StepResult.runtimeHealthy r) || negb (StepResult.runtimeRunning r)) eqn:Hrun; [by eapply Hfail |].
  destruct (StepResult.advancedFrames r =? 0) eqn:Hadv; [by eapply Hfail |].
  destruct (StepResult.memorySnapshot r) as [m |] eqn:Hm; [| by eapply Hfail].
  apply rbind_ok_inv in E as (state & Hx & E).
  destruct (NesSuperMarioBrosEvaluator.evaluate _ _) as [e' o] eqn:Hev.
  destruct (driver_copyRuntimeSavestate d2) as [ss |] eqn:Hss; [| by eapply Hfail].
  set (σ := SmbSearchCore.buildSmbSearchEvaluatorSummary _ _) in E.
  assert (simulate_action (d1, SmbSearchNode.evaluatorSummary parent) a = Some (d2, σ)) as Hsim.
  { unfold simulate_action, action_mask. cbn [fst snd]. rewrite Hstep. unfold judge_step.
    rewrite Hrun, Hadv, Hm, Hx, Hev. done. }
  set (s2 := set_driver_ (Some d2) (set_driver_ (Some d1) s1)) in *.
  assert (DfsFrame.nodeIndex f = DfsFrame.nodeIndex f') as Hi by done. rewrite Hi in E.
  destruct (finishChild_grown s2 f' fs parent a _ ss m _ state σ p E) as
    (node & Hsum & <- & Hpar & Hact & Hc & Hpre & Hcase); [done | | done | by eapply extract_phase |].
  { intros g Hg. change (nodeCount s2) with (nodeCount s1). unfold nodeCount in *. rewrite T1.
    apply elem_of_cons in Hg as [-> | Hg]; [apply (Hidx f); by left | apply Hidx; by right]. }
  rewrite <- Hsum in Hsim, Hcase.
  change (nodes_ s2) with (nodes_ s1) in *. change (bestLeafIndex_ s2) with (bestLeafIndex_ s1) in *.
  change (rootPrefixFrames_ s2) with (rootPrefixFrames_ s1) in *.
  change (nodeCount s2) with (nodeCount s1) in *. unfold nodeCount in Hcase, Hidx. rewrite T1, T3, T4 in *.
  right. pose proof (Hidx f ltac:(by left)) as Hf. change (DfsFrame.nodeIndex f') with (DfsFrame.nodeIndex f) in Hpar.
  exists (Z.to_nat (DfsFrame.nodeIndex f)), parent, a, d, d1, d2, node.
  split; [exists f; rewrite Hst; split; [by left | lia] |].
  split; [done |]. split; [done |]. split; [done |]. split; [by rewrite Z2Nat.id by lia |].
  do 3 (split; [done |]). destruct Hcase as [? | (? & ? & ?)]; [by left | by right].
Qed.

Lemma wp_use {A} (m : res A) (a : A) (Q : A -> Prop) : m = Ok a -> wp m Q -> Q a.
Proof. by intros ->. Qed.

Lemma tickLoop_empty_shape fuel d s p :
  dfsStack_ s = [] -> tickLoop (S fuel) d s = Ok p -> same_shape s (fst p).
Proof.
  intros Hst E. cbn [tickLoop] in E. rewrite Hst in E.
  match type of E with (if ?b then _ else _) = _ => destruct b end;
    by apply rbind_ok_inv in E as (s1 & E1%complete_shape & [= <-]).
Qed.

Lemma tickLoop_evolved d s p :
  running s -> tickLoop 2 d s = Ok p -> evolved s (fst p).
Proof.
  intros Hrun E. destruct (dfsStack_ s) as [| f fs] eqn:Hst.
  { left. by eapply same_unchanged, tickLoop_empty_shape. }
  assert (exists n, n = 1%nat) as [n En] by eauto. change 2%nat with (S 1%nat) in E. rewrite <- En in E.
  cbn [tickLoop] in E. rewrite Hst in E.
  match type of E with (if ?b then _ else _) = _ => destruct b end.
  { apply rbind_ok_inv in E as (s1 & E1%complete_shape & [= <-]). left. by apply same_unchanged. }
  pose proof (rn_tree _ Hrun) as Ht. rewrite Hst in Ht. pose proof (tw_stack _ _ _ Ht) as Hs.
  match type of E with (if ?b then _ else _) = _ => destruct b end.
  - apply rbind_ok_inv in E as ([s1 ro] & E1 & E).
    pose proof (wp_use _ _ _ E1 (backtrackTick_ok s f fs Hrun Hst)) as (r & Hp & Hro).
    pose proof (popped_nodes _ _ _ _ _ Hp) as Hlen. destruct Hp. left. destruct ro as [res |].
    + by injection E as <-.
    + subst n. apply tickLoop_empty_shape in E as []; [| done]. unfold unchanged. split; [congruence | split; congruence].
  - eapply expandTick_evolved; [done | done |]. intros g Hg.
    destruct (stack_wf_frame _ _ _ Hs Hg) as (Hi & _). by rewrite cores_length in Hi.
Qed.

Lemma tick_evolved s p : running s -> tick s = Ok p -> evolved s (fst p).
Proof.
  intros Hrun E. unfold tick in E. destruct (completed_ s); [injection E as <-; by left |].
  destruct (paused_ s); [injection E as <-; by left |].
  destruct (driver_ s) as [d |]; [by eapply tickLoop_evolved |].
  apply rbind_ok_inv in E as (s1 & (s2 & E%rebuild_shape & [= <-])%rbind_ok_inv & [= <-]).
  left. destruct E. unfold unchanged. simpl. split; [congruence | done].
Qed.

Lemma stop_shape s s' : stop s = Ok s' -> same_shape s s'.
Proof.
  unfold stop. destruct (completed_ s); [by intros [= <-] |].
  intros (s1 & E%rebuild_shape & E1)%rbind_ok_inv. cbv zeta in E1. destruct E.
  match type of E1 with match bestLeafIndex_ ?S with _ => _ end = _ => set (s2 := S) in * end.
  assert (same_shape s s2) as Hs by (by split). clearbody s2.
  destruct (bestLeafIndex_ s2); [apply rbind_ok_inv in E1 as (n & _ & E1) |]; injection E1 as <-;
    destruct Hs; by split.
Qed.
End Growth.

Section Restore.
Import NesSuperMarioBrosEvaluator.
Implicit Types (e : t) (i : Input).

(** The evaluator with its memory of the lives counter erased. *)
Definition forget_lives e : t :=
  mk (hasBestProgress_ e) false (gameplayFrameCount_ e) (lastProgressFrame_ e) (bestStageIndex_ e)
    (bestAbsoluteX_ e) 0 (distanceRewardTotal_ e) (levelClearRewardTotal_ e).

(** The summary the search keeps of a node. *)
Definition summary_of e (s : NesSuperMarioBrosState.t) (r : SmbEpisodeEndReason.t) (d : bool)
    : SmbSearchEvaluatorSummary.t :=
  SmbSearchCore.buildSmbSearchEvaluatorSummary (FitnessSmb (snapshot_of e s r d)) (Some 1).

Lemma restored_fields e s r d :
  evaluator_wf e -> hasBestProgress_ e = true ->
  SmbDfsSearch.childEvaluator (summary_of e s r d) = forget_lives e.
Proof.
  intros Hwf Hb. pose proof (makeSnapshot_fields e s r d Hwf) as Hf.
  destruct Hwf as (Hl & Hc & Hst & Hx). unfold SmbDfsSearch.childEvaluator, summary_of. cbn -[snapshot_of].
  unfold restoreProgress, SmbSearchCore.encodeSmbFrontierSnapshot. rewrite Hf. cbn.
  rewrite encode_value by done. rewrite decode_stage, decode_x by done.
  rewrite (proj2 (Z.leb_le _ _)) by lia. rewrite wrap_u_small by lia.
  unfold forget_lives. rewrite Hb. f_equal. lia.
Qed.

Lemma evaluate_forget e i :
  hasBestProgress_ e = true -> lives_dropped e i = false ->
  snd (evaluate (forget_lives e) i) = snd (evaluate e i) /\
  (counted e i = true -> evaluate (forget_lives e) i = evaluate e i).
Proof.
  intros Hb Hd. unfold lives_dropped in Hd. unfold evaluate. rewrite !counted_neg.
  assert (counted (forget_lives e) i = counted e i) as -> by done.
  destruct (counted e i); cbn [negb]; [| by split; [| discriminate]].
  cbv zeta. unfold start_progress. cbn. rewrite Hb. cbn. rewrite Hd.
  by destruct (terminal_state (state i)).
Qed.
End Restore.

(** Expanding a node does not need the evaluator object that scored it: the
    one rebuilt from the frontier, counters and rewards in the node's summary
    judges the next frame exactly as the original would, unless the lives
    counter dropped in between, which is the one thing the summary does not
    carry; after a counted frame the two evaluators are the same. *)
Lemma restored_evaluator (e : NesSuperMarioBrosEvaluator.t) (s : NesSuperMarioBrosState.t)
    (r : SmbEpisodeEndReason.t) (d : bool) (i : NesSuperMarioBrosEvaluator.Input) :
  evaluator_wf e -> NesSuperMarioBrosEvaluator.hasBestProgress_ e = true ->
  lives_dropped e i = false ->
  let e' := SmbDfsSearch.childEvaluator (summary_of e s r d) in
  snd (NesSuperMarioBrosEvaluator.evaluate e' i) = snd (NesSuperMarioBrosEvaluator.evaluate e i) /\
  (counted e i = true -> NesSuperMarioBrosEvaluator.evaluate e' i = NesSuperMarioBrosEvaluator.evaluate e i).
Proof. intros Hwf Hb Hd. cbv zeta. rewrite restored_fields by done. by apply evaluate_forget. Qed.

Example restored_evaluator_witness :
  NesSuperMarioBrosEvaluator.evaluate
    (SmbDfsSearch.childEvaluator (summary_of demo_evaluator (demo_state SmbGameMode.Normal 300 100)
       SmbEpisodeEndReason.None false)) (demo_input 320 100 1)
  = NesSuperMarioBrosEvaluator.evaluate demo_evaluator (demo_input 320 100 1).
Proof.
  apply (restored_evaluator demo_evaluator (demo_state SmbGameMode.Normal 300 100)
    SmbEpisodeEndReason.None false (demo_input 320 100 1)).
  - unfold evaluator_wf. vm_compute. intuition congruence.
  - vm_compute. reflexivity.
  - vm_compute. reflexivity.
  - vm_compute. reflexivity.
Defined.

(** ** Keys *)
Lemma ramDiffs_none a : forall b, length a = length b -> (true ∉ SmbDfsSearch.ramDiffs a b <-> a = b).
Proof.
  induction a as [| x a IH]; intros [| y b] Hl; try done; cbn.
  - split; [done | intros _; apply not_elem_of_nil].
  - injection Hl as Hl. rewrite not_elem_of_cons, (IH b Hl). split.
    + intros [H ->]. destruct (Z.eqb_spec x y) as [-> |]; [done | by destruct H].
    + intros [= -> ->]. by rewrite Z.eqb_refl.
Qed.

(** Transposition keys: the two [operator==] decide equality of keys and of
    shapes; and two keys are equal exactly when their shapes are equal and the
    byte-by-byte comparison of their RAM samples finds no difference. *)
Lemma transposition_key_equality (a b : ClosedLossTranspositionKey.t) :
  (ClosedLossTranspositionKey.eqb a b = true <-> a = b) /\
  (let sa := SmbDfsSearch.buildClosedLossTranspositionShapeKey a in
   let sb := SmbDfsSearch.buildClosedLossTranspositionShapeKey b in
   (ClosedLossTranspositionShapeKey.eqb sa sb = true <-> sa = sb) /\
   (length (ClosedLossTranspositionKey.ramBytes a) = length (ClosedLossTranspositionKey.ramBytes b) ->
    (a = b <-> sa = sb /\ true ∉ SmbDfsSearch.ramDiffs (ClosedLossTranspositionKey.ramBytes a)
                                   (ClosedLossTranspositionKey.ramBytes b)))).
Proof.
  split; [| split].
  - unfold ClosedLossTranspositionKey.eqb. rewrite !andb_true_iff, !Z.eqb_eq, !eqb_true_iff, bool_decide_eq_true.
    destruct a, b; cbn. split.
    + intros H. repeat match goal with H : _ /\ _ |- _ => destruct H end. by subst.
    + intros [=]. subst. by repeat split.
  - unfold ClosedLossTranspositionShapeKey.eqb. rewrite !andb_true_iff, !Z.eqb_eq, !eqb_true_iff.
    destruct a, b; cbn. split.
    + intros H. repeat match goal with H : _ /\ _ |- _ => destruct H end. by subst.
    + intros [=]. subst. by repeat split.
  - intros Hl. rewrite ramDiffs_none by done. destruct a, b; cbn. split.
    + intros [=]. by subst.
    + intros [H ->]. injection H. intros. by subst.
Qed.

Definition demo_key (ram : list Z) : ClosedLossTranspositionKey.t :=
  ClosedLossTranspositionKey.mk 0 0 0 0 0 1 0 1 42 0 230 0 0 ram false false.

Example transposition_key_equality_witness :
  demo_key [1; 2] = demo_key [1; 2] <->
  SmbDfsSearch.buildClosedLossTranspositionShapeKey (demo_key [1; 2])
  = SmbDfsSearch.buildClosedLossTranspositionShapeKey (demo_key [1; 2]) /\
  true ∉ SmbDfsSearch.ramDiffs [1; 2] [1; 2].
Proof.
  destruct (transposition_key_equality (demo_key [1; 2]) (demo_key [1; 2])) as (_ & _ & H).
  apply H. reflexivity.
Defined.
