(* ===== verification/SmbDfsUnfold.v ===== *)
(** Every reachable search tree unfolds the emulator from its root: the
    invariant, its preservation by the public operations, and the theorem. *)

From Stdlib Require Import ZArith Lia Bool String.
From stdpp Require Import base gmap option numbers list.
From S2P Require Import Prelude Ieee NesTypes SmbEvaluator SmbRam SmbAdapter.
From S2P Require Import SmbSearchCore SmbDfsSearch SmbDfsTree SmbDfsFacts.
From S2P Require Import SmbDfsInvariant SmbDfsSteps SmbDfsTick SmbDfsCorrect SmbDfsFaithful.
From S2P Require Import SmbDfsDemo.

Set Default Goal Selector "!".

Section Unfold.
Context {D : Type} `{HM : NesMachine D}.
Import SmbDfsSearch.
Implicit Types (s : t D) (x : D * SmbSearchEvaluatorSummary.t).

(** Node [i] is where playing its path from [x] leads, and while it is open its
    savestate brings that machine back. *)
Definition unfolded x s (i : nat) (n : SmbSearchNode.t) : Prop :=
  exists acts d, plan_path (nodes_ s) (Z.of_nat i) acts /\
    simulate x acts = Some (d, SmbSearchNode.evaluatorSummary n) /\
    (on_stack (dfsStack_ s) i -> restores (SmbSearchNode.savestate n) d).

Record faithful x s : Prop := mkFaithful {
  fa_nodes : forall i n, nodes_ s !! i = Some n -> unfolded x s i n;
  fa_alive : forall i c, i <> 0%nat -> cores (nodes_ s) !! i = Some c ->
    was_alive (cores (nodes_ s)) (dfsStack_ s) i -> alive (c_summary c);
  fa_leaf : forall b c, bestLeafIndex_ s = Some b -> b <> 0 ->
    cores (nodes_ s) !! Z.to_nat b = Some c -> alive (c_summary c)
}.

(** An old node that is open now was open before. *)
Lemma moved_open s s' i :
  running s -> running s' -> moved s s' -> (i < length (nodes_ s))%nat ->
  on_stack (dfsStack_ s') i -> on_stack (dfsStack_ s) i.
Proof.
  intros Hr Hr' Hm Hi Ho. pose proof (rn_tree _ Hr) as Ht. pose proof (rn_tree _ Hr') as Ht'.
  rewrite <- cores_length, <- (tw_len _ _ _ Ht) in Hi. apply lookup_lt_is_Some_2 in Hi as [o Hoi].
  apply (tw_open _ _ _ Ht _ _ Hoi). destruct (decide (o = SmbSearchNodeOutcome.Open)) as [? | Hne]; [done |].
  pose proof (mv_closed _ _ Hm _ _ Hoi Hne) as Ho'. by apply (tw_open _ _ _ Ht' _ _ Ho').
Qed.

Lemma moved_unfolded x s s' i n' :
  running s -> running s' -> moved s s' -> (forall i n, nodes_ s !! i = Some n -> unfolded x s i n) ->
  (i < length (nodes_ s))%nat -> nodes_ s' !! i = Some n' -> unfolded x s' i n'.
Proof.
  intros Hr Hr' Hm Hf Hi Hn'. destruct (lookup_lt_is_Some_2 _ _ Hi) as [n Hn].
  destruct (Hf i n Hn) as (acts & d & Hp & Hs & Hre). exists acts, d.
  split; [by eapply plan_path_cores; [apply (mv_cores _ _ Hm) |] |].
  assert (cores (nodes_ s) !! i = Some (core_of n)) as Hc by (by rewrite cores_lookup, Hn).
  pose proof (prefix_lookup_Some _ _ _ _ Hc (mv_cores _ _ Hm)) as Hc'.
  rewrite cores_lookup, Hn' in Hc'. injection Hc' as _ _ Hsum. rewrite Hsum. split; [done |].
  intros Ho. pose proof (mv_kept _ _ Hm i Ho Hi) as Hk. rewrite Hn, Hn' in Hk. injection Hk as ->.
  apply Hre. by eapply moved_open.
Qed.

Lemma grown_unfolded x s s' n' :
  running s -> (forall i n, nodes_ s !! i = Some n -> unfolded x s i n) -> moved s s' -> grown s s' ->
  nodes_ s' !! length (nodes_ s) = Some n' -> unfolded x s' (length (nodes_ s)) n'.
Proof.
  intros Hr Hf Hm (pi & p & a & d & d1 & d2 & node & Ho & Hp & Hload & Hsim & Hpar & Hact & Hc & _ & Hcase) Hn'.
  destruct (Hf pi p Hp) as (acts & dp & Hpath & Hrun & Hre). specialize (Hre Ho _ _ _ Hload).
  destruct (simulate_action_same _ _ _ _ _ _ Hre Hsim) as (d2' & Hsim' & H22).
  assert (core_of n' = core_of node) as Hcore.
  { assert (cores (nodes_ s') !! length (nodes_ s) = Some (core_of node)) as E
      by (rewrite Hc; apply list_lookup_middle; by rewrite cores_length).
    rewrite cores_lookup, Hn' in E. by apply Some_inj in E. }
  injection Hcore as Hpar' Hact' Hsum'. rewrite Hpar in Hpar'. rewrite Hact in Hact'.
  exists (acts ++ [a]), d2'. split; [| split].
  - replace [a] with (option_list (SmbSearchNode.actionFromParent n')) by (by rewrite Hact').
    eapply path_child; [lia | by rewrite Nat2Z.id | done |].
    by eapply plan_path_cores; [apply (mv_cores _ _ Hm) |].
  - rewrite simulate_snoc, Hrun. cbn. by rewrite Hsim', Hsum'.
  - intros Hop. destruct Hcase as [[Hno _] | (Hnode & Hcopy & _)]; [done |].
    rewrite Hn' in Hnode. injection Hnode as ->. eapply restores_same; [done |].
    intros e1 t e2 Hl. by eapply machine_savestate.
Qed.

Lemma moved_old s s' i c :
  moved s s' -> cores (nodes_ s') !! i = Some c -> (i < length (nodes_ s))%nat -> cores (nodes_ s) !! i = Some c.
Proof.
  intros Hm Hc Hi. rewrite <- cores_length in Hi. apply lookup_lt_is_Some_2 in Hi as [c0 Hc0].
  pose proof (prefix_lookup_Some _ _ _ _ Hc0 (mv_cores _ _ Hm)). congruence.
Qed.

Lemma faithful_unchanged x s s' :
  running s -> running s' -> moved s s' -> unchanged s s' -> faithful x s -> faithful x s'.
Proof.
  intros Hr Hr' Hm (Hlen & Hleaf & _) [Hf Ha Hl].
  assert (cores (nodes_ s') = cores (nodes_ s)) as Hcs.
  { destruct (mv_cores _ _ Hm) as [tl Htl]. rewrite Htl. apply (f_equal (@length core)) in Htl.
    rewrite length_app, !cores_length, Hlen in Htl. destruct tl; [apply app_nil_r | simpl in Htl; lia]. }
  split.
  - intros i n Hn. apply (moved_unfolded x s s'); try done. apply lookup_lt_Some in Hn. by rewrite <- Hlen.
  - intros i c Hi Hc [Ho | Hch]; rewrite Hcs in *; apply (Ha i c Hi Hc); [left | by right].
    apply (moved_open s s'); try done. apply lookup_lt_Some in Hc. by rewrite cores_length in Hc.
  - intros b c Hb Hb0 Hc. rewrite Hcs in Hc. apply (Hl b c); [congruence | done..].
Qed.

Lemma faithful_grown x s s' :
  running s -> running s' -> moved s s' -> grown s s' -> faithful x s -> faithful x s'.
Proof.
  intros Hr Hr' Hm Hg [Hf Ha Hl].
  pose proof Hg as (pi & p & a & d & d1 & d2 & node & Ho & Hp & _ & _ & Hpar & _ & Hc & _ & Hcase).
  assert (forall i c, cores (nodes_ s') !! i = Some c -> ~ (i < length (nodes_ s))%nat ->
    i = length (nodes_ s) /\ c = core_of node) as Hnew.
  { intros i c Hci Hi. pose proof (lookup_lt_Some _ _ _ Hci) as Hlt. rewrite Hc, length_app, cores_length in Hlt.
    assert (i = length (nodes_ s)) as -> by (simpl in Hlt; lia). rewrite Hc in Hci.
    rewrite list_lookup_middle in Hci by (by rewrite cores_length). by injection Hci as <-. }
  split.
  - intros i n Hn. destruct (decide (i < length (nodes_ s))%nat) as [Hi | Hi].
    { by apply (moved_unfolded x s s'). }
    destruct (Hnew i (core_of n)) as [-> _]; [by rewrite cores_lookup, Hn | done |].
    by eapply grown_unfolded.
  - intros i c Hi Hci Hal. destruct (decide (i < length (nodes_ s))%nat) as [Hlt | Hlt].
    + apply (Ha i c Hi (moved_old _ _ _ _ Hm Hci Hlt)). rewrite Hc in Hal.
      apply (was_alive_append _ (core_of node) _ (dfsStack_ s') _ (Z.of_nat pi));
        [by rewrite cores_length | exact Hpar | by rewrite Nat2Z.id | lia | | exact Hal].
      intros. by apply (moved_open s s').
    + destruct (Hnew _ _ Hci Hlt) as [-> ->]. destruct Hcase as [[Hno _] | (_ & _ & Hali & _)]; [| done].
      exfalso. destruct Hal as [? | [j Hj]]; [done |].
      pose proof (child_parent_lt _ _ _ _ _ (rn_tree _ Hr') Hj). apply child_of_lt in Hj.
      rewrite Hc, length_app, cores_length in Hj. simpl in Hj. lia.
  - intros b c Hb Hb0 Hcb. assert (bestLeafIndex_ s' = bestLeafIndex_ s \/ (bestLeafIndex_ s' = Some (nodeCount s) /\
      alive (SmbSearchNode.evaluatorSummary node))) as [E | [E Hali]].
    { destruct Hcase as [[_ ?] | (_ & _ & ? & [? | ?])]; auto. }
    + rewrite E in Hb. apply (Hl b c Hb Hb0), (moved_old _ _ _ _ Hm); [done |].
      destruct (rn_plan _ Hr) as (b' & c' & acts & Hb' & Hpos & Hc' & _). rewrite Hb in Hb'. injection Hb' as <-.
      apply lookup_lt_Some in Hc'. by rewrite cores_length in Hc'.
    + rewrite Hb in E. injection E as ->. unfold nodeCount in Hcb. rewrite Nat2Z.id in Hcb.
      by destruct (Hnew _ _ Hcb ltac:(lia)) as [_ ->].
Qed.

(** ** Starting and the other operations *)
(** A search with nodes unfolds the emulator from some root. *)
Definition unfolds s : Prop := nodes_ s = [] \/ exists x, faithful x s.

Lemma same_shape_faithful x s s' : same_shape s s' -> faithful x s -> faithful x s'.
Proof.
  intros [Hn Hs Hl _] [Hf Ha Hle]. split; unfold unfolded; rewrite Hn, ?Hs, ?Hl; done.
Qed.

Lemma same_shape_unfolds s s' : same_shape s s' -> unfolds s -> unfolds s'.
Proof.
  intros Hs [He | [x Hx]]; [left; by rewrite (ss_nodes _ _ Hs) | right; exists x].
  by eapply same_shape_faithful.
Qed.

(** A root alone, and the machine its savestate brings back. *)
Definition rooted (d : D) (σ : SmbSearchEvaluatorSummary.t) s : Prop :=
  exists n f, nodes_ s = [n] /\ SmbSearchNode.evaluatorSummary n = σ /\ core_of n = mkCore None None σ 0 /\
    restores (SmbSearchNode.savestate n) d /\ dfsStack_ s = [f] /\ DfsFrame.nodeIndex f = 0 /\ bestLeafIndex_ s = Some 0.

Lemma rooted_faithful d σ s : rooted d σ s -> faithful (d, σ) s.
Proof.
  intros (n & f & Hn & Hσ & Hc & Hre & Hst & Hf & Hl). injection Hc as Hp Ha _ _. split.
  - intros i m Hm. rewrite Hn in Hm. destruct i as [| i]; [| done]. injection Hm as <-.
    exists (option_list (SmbSearchNode.actionFromParent n)), d. split.
    + rewrite Hn. by apply path_root.
    + by rewrite Ha, Hσ.
  - intros i c Hi Hci. rewrite Hn in Hci. by destruct i.
  - intros b c Hb Hb0. rewrite Hl in Hb. by injection Hb as <-.
Qed.

Lemma initializeRootNode_rooted d0 d ss σ mem video s s' :
  initializeRootNode d ss σ mem video s = Ok s' -> nodes_ s = [] -> dfsStack_ s = [] -> restores ss d0 ->
  rooted d0 σ s' /\ rootPrefixFrames_ s' = rootPrefixFrames_ s.
Proof.
  intros E Hn Hst Hre. unfold initializeRootNode in E. apply rbind_ok_inv in E as (o & _ & E).
  apply rbind_ok_inv in E as (front & _ & E). apply rbind_ok_inv in E as (s1 & E1 & [= <-]).
  apply rebuild_shape in E1 as [Ha Hb Hc Hd]. unfold rooted.
  cbn [recordTrace set_trace_ nodes_ dfsStack_ bestLeafIndex_ rootPrefixFrames_]. rewrite Ha, Hb, Hc, Hd.
  clear Ha Hb Hc Hd s1. simpl. unfold updateRenderableState.
  destruct (SmbSearchNode.scenarioVideoFrame front); simpl; rewrite Hn, Hst; (split; [| done]);
    by do 2 eexists.
Qed.

(** Starting leaves an empty search or a root. *)
Definition opened s : Prop := nodes_ s = [] \/ exists d σ, rooted d σ s.

Lemma copied_restores d ss : driver_copyRuntimeSavestate d = Some ss -> restores ss d.
Proof. intros Hc d1 t d2 Hl. by eapply machine_savestate. Qed.

Lemma captureRoot_opened fuel d g last frames s p :
  captureRoot fuel d g last frames s = Ok p -> nodes_ s = [] -> dfsStack_ s = [] -> opened (fst p).
Proof.
  revert d g last frames s. induction fuel as [| fuel IH]; intros d g last frames s E Hn Hst; cbn [captureRoot] in E.
  { injection E as <-. by left. }
  cbv zeta in E. destruct (driver_step d _) as [d1 r].
  destruct (negb (StepResult.runtimeHealthy r) || negb (StepResult.runtimeRunning r)); [injection E as <-; by left |].
  destruct (StepResult.advancedFrames r =? 0); [by eapply IH |].
  apply rbind_ok_inv in E as ([g' ev] & _ & E).
  match type of E with (if ?b then _ else _) = _ => destruct b end; [by eapply IH |].
  destruct (driver_copyRuntimeSavestate d1) as [ss |] eqn:Hss; [| injection E as <-; by left].
  apply rbind_ok_inv in E as (s' & E & [= <-]).
  eapply initializeRootNode_rooted in E as [H _]; [| done | done | by apply copied_restores]. right. by eexists _, _.
Qed.

Lemma initializeRuntime_cases s :
  let '(s', r) := initializeRuntime s in
  (r = okay tt /\ nodes_ s' = [] /\ dfsStack_ s' = []) \/ (same_shape s s' /\ r <> okay tt).
Proof.
  unfold initializeRuntime. destruct (driver_setConfig driver_make) as [d1 [[] | e]]; [| by right].
  destruct (driver_setup d1) as [d2 [[] | e]]; [by left | by right].
Qed.

Lemma opened_unfolds s : opened s -> unfolds s.
Proof. intros [? | (d & σ & H%rooted_faithful)]; [by left | right; by eexists]. Qed.

Lemma startDfs_unfolds s p : startDfs s = Ok p -> unfolds s -> unfolds (fst p).
Proof.
  intros E Hs. unfold startDfs in E. pose proof (initializeRuntime_cases s) as H.
  destruct (initializeRuntime s) as [s1 [[] | e]].
  - destruct H as [(_ & Hn & Hst) | [_ ?]]; [| done]. destruct (driver_ s1); [| done].
    revert E. generalize 2000%nat as fuel. intros fuel E. by eapply opened_unfolds, captureRoot_opened.
  - destruct H as [[? _] | [H _]]; [done |]. injection E as <-. by eapply same_shape_unfolds.
Qed.

Lemma startFromFixture_unfolds fx s p : startFromFixture fx s = Ok p -> unfolds s -> unfolds (fst p).
Proof.
  intros E Hs. unfold startFromFixture in E. pose proof (initializeRuntime_cases s) as H.
  destruct (initializeRuntime s) as [s1 [[] | e]].
  - destruct H as [(_ & Hn & Hst) | [_ ?]]; [| done]. destruct (driver_ s1) as [d |]; [| done].
    destruct (driver_loadRuntimeSavestate d (fx_savestate fx) 2000) as [d1 loaded] eqn:Hl.
    destruct (negb loaded) eqn:Hng; [injection E as <-; by left |]. apply negb_false_iff in Hng as ->.
    apply rbind_ok_inv in E as (s' & E & E'). injection E' as <-.
    eapply (initializeRootNode_rooted d1) in E as [H _]; [| done | done |].
    { apply opened_unfolds. right. by eexists _, _. }
    intros e1 t e2 Hl2. by eapply machine_load.
  - destruct H as [[? _] | [H _]]; [done |]. injection E as <-. by eapply same_shape_unfolds.
Qed.

Lemma nodes_running s : inv s -> nodes_ s <> [] -> running s.
Proof. intros [_ [[] | [? _]]] ?; done. Qed.

Lemma completeWithError_shape msg s s' : completeWithError msg s = Ok s' -> same_shape s s'.
Proof. intros (s1 & E%rebuild_shape & [= <-])%rbind_ok_inv. by destruct E. Qed.

Lemma tick_empty_shape s p : dfsStack_ s = [] -> tick s = Ok p -> same_shape s (fst p).
Proof.
  intros Hst E. unfold tick in E. destruct (completed_ s); [by injection E as <- |].
  destruct (paused_ s); [by injection E as <- |]. destruct (driver_ s) as [d |]; [by eapply tickLoop_empty_shape |].
  by apply rbind_ok_inv in E as (s1 & E1%completeWithError_shape & [= <-]).
Qed.

(** A tick keeps the root. *)
Lemma tick_faithful x s p :
  inv s -> running s -> tick s = Ok p -> faithful x s -> running (fst p) /\ faithful x (fst p).
Proof.
  intros Hi Hr E Hx. pose proof (wp_use _ _ _ E (tick_ok s Hi)) as H.
  pose proof (tick_evolved _ _ Hr E) as He. destruct p as [s' r]. destruct H as (Hi' & Hm & _). simpl in *.
  assert (running s') as Hr'.
  { apply nodes_running; [done |]. intros Hn. pose proof (mv_cores _ _ Hm) as Hp. rewrite Hn in Hp.
    destruct (tw_root _ _ _ (rn_tree _ Hr)) as (c & Hc & _). by apply (prefix_lookup_Some _ _ _ _ Hc) in Hp. }
  split; [done |]. destruct He; [by apply (faithful_unchanged x s) | by apply (faithful_grown x s)].
Qed.

Lemma running_nodes s : running s -> nodes_ s <> [].
Proof. intros Hr Hn. destruct (tw_root _ _ _ (rn_tree _ Hr)) as (c & Hc & _). by rewrite Hn in Hc. Qed.

Lemma apply_op_unfolds op s s' : inv s -> apply_op op s = Ok s' -> unfolds s -> unfolds s'.
Proof.
  intros Hi E Hs. destruct op; cbn [apply_op] in E.
  - apply rbind_ok_inv in E as (p & E & [= <-]). by eapply startDfs_unfolds.
  - apply rbind_ok_inv in E as (p & E & [= <-]). by eapply startFromFixture_unfolds.
  - apply rbind_ok_inv in E as (p & E & [= <-]). pose proof Hi as [_ [Hid | [Hr _]]].
    + eapply same_shape_unfolds; [| done]. by apply tick_empty_shape; [apply Hid |].
    + destruct Hs as [Hn | [x Hx]]; [by apply running_nodes in Hr |]. right. exists x.
      by eapply tick_faithful.
  - injection E as <-. by apply (same_shape_unfolds s); [split |].
  - eapply same_shape_unfolds; [by eapply stop_shape | done].
Qed.

Lemma reachable_unfolds options s : options_wf options -> reachable options s -> unfolds s.
Proof.
  intros Ho [ops Hs]. assert (unfolds (make options : t D)) as Hu by (by left).
  pose proof (make_inv (D := D) options Ho) as Hi. revert Hs Hu Hi. generalize (make options : t D) as s0.
  induction ops as [| op ops IH]; intros s0 E Hu Hi; cbn [apply_ops] in E; [by injection E as <- |].
  apply rbind_ok_inv in E as (s1 & E1 & E). apply (IH s1 E).
  - by eapply apply_op_unfolds.
  - by apply (wp_use _ _ _ E1 (apply_op_ok op s0 Hi)).
Qed.

(** Playing the way to a node passes through living nodes only. *)
Definition lively x acts : Prop :=
  forall acts1 acts2 d σ, acts = acts1 ++ acts2 -> acts1 <> [] -> simulate x acts1 = Some (d, σ) -> alive σ.

Lemma plan_path_unfolded x s b acts n :
  running s -> faithful x s -> plan_path (nodes_ s) b acts -> nodes_ s !! Z.to_nat b = Some n -> 0 <= b ->
  exists d, simulate x acts = Some (d, SmbSearchNode.evaluatorSummary n).
Proof.
  intros Hr Hx Hp Hn Hb. destruct (fa_nodes _ _ Hx _ _ Hn) as (acts' & d & Hp' & Hs & _).
  rewrite Z2Nat.id in Hp' by done. rewrite (plan_path_det _ _ _ _ Hp Hp'). by exists d.
Qed.

Lemma path_lively x s b acts c :
  running s -> faithful x s -> plan_path (nodes_ s) b acts -> cores (nodes_ s) !! Z.to_nat b = Some c ->
  (b <> 0 -> alive (c_summary c)) -> lively x acts.
Proof.
  intros Hr Hx Hp. revert c. pose proof (rn_tree _ Hr) as Ht.
  induction Hp as [i n Hi Hn Hpn | i n p acts Hi Hn Hpn Hp IH]; intros c Hc Hal;
    rewrite cores_lookup, Hn in Hc; injection Hc as <-.
  - destruct (decide (Z.to_nat i = 0%nat)) as [E | E].
    + destruct (tw_root _ _ _ Ht) as (r & Hr0 & _ & Ha). rewrite cores_lookup, <- E, Hn in Hr0.
      injection Hr0 as <-. simpl in Ha. rewrite Ha. intros [| a acts1] acts2 d σ E2 Hne; done.
    + destruct (tw_links _ _ _ Ht (Z.to_nat i) (core_of n)) as (q & a & Hq & _); [by rewrite cores_lookup, Hn | done |].
      simpl in Hq. congruence.
  - assert (child_of (cores (nodes_ s)) p (Z.to_nat i)) as Hch
      by (exists (core_of n); by rewrite cores_lookup, Hn).
    pose proof (child_parent_lt _ _ _ _ _ Ht Hch) as Hlt. pose proof (child_of_lt _ _ _ Hch) as Hil.
    destruct (in_range_lookup (cores (nodes_ s)) p) as [cp Hcp]; [lia |].
    assert (lively x acts) as Hacts.
    { apply (IH cp Hcp). intros Hp0. apply (fa_alive _ _ Hx (Z.to_nat p)); [lia | done |].
      right. exists (Z.to_nat i). by rewrite Z2Nat.id by lia. }
    destruct (tw_links _ _ _ Ht (Z.to_nat i) (core_of n)) as (q & a & _ & Ha & _); [by rewrite cores_lookup, Hn | lia |].
    simpl in Ha. rewrite Ha. simpl. intros acts1 acts2 d σ E Hne Hs.
    destruct (decide (acts2 = [])) as [-> | Hne2].
    + rewrite app_nil_r in E. subst acts1.
      destruct (plan_path_unfolded x s i (acts ++ option_list (SmbSearchNode.actionFromParent n)) n) as [d' Hd'];
        [done | done | by eapply path_child | done | done |]. rewrite Ha in Hd'. simpl in Hd'.
      rewrite Hs in Hd'. injection Hd' as -> ->. apply Hal. lia.
    + destruct (exists_last Hne2) as (l & b & ->). rewrite app_assoc in E.
      apply app_inj_tail in E as [-> _]. by eapply Hacts.
Qed.
End Unfold.

(** ** The theorem *)
Section Properties.
Context {D : Type} `{HM : NesMachine D}.
Import SmbDfsSearch.

(** C3. The search tree is the unfolding of the emulator.  Although the search
    reaches its nodes by loading savestates in depth-first order, in every
    reachable state there is one machine and one evaluation from which playing
    the path of any node without stopping yields that node's evaluation, and the
    savestate of a node that is still open brings back the machine at the end of
    its path.  So playing the actions of the plan from the root reaches the
    frontier the search reports, and every position on the way is in gameplay
    and not terminal. *)
Theorem dfs_unfolds_emulator (options : SmbDfsSearchOptions.t) (s : t D) :
  options_wf options -> reachable options s -> nodes_ s <> [] ->
  exists root : D * SmbSearchEvaluatorSummary.t,
    (forall i n, nodes_ s !! i = Some n -> exists acts d, plan_path (nodes_ s) (Z.of_nat i) acts /\
       simulate root acts = Some (d, SmbSearchNode.evaluatorSummary n) /\
       (on_stack (dfsStack_ s) i -> restores (SmbSearchNode.savestate n) d)) /\
    exists acts d σ, plan_frames (getPlan s) = rootPrefixFrames_ s ++ frames_of acts /\
      simulate root acts = Some (d, σ) /\
      SmbSearchEvaluatorSummary.bestFrontier σ = SearchProgress.bestFrontier (getProgress s) /\
      lively root acts.
Proof.
  intros Ho Hreach Hn. destruct (reachable_inv options s Ho Hreach) as [Hi _].
  destruct (reachable_unfolds options s Ho Hreach) as [? | [x Hx]]; [done |].
  pose proof (nodes_running s Hi Hn) as Hr. exists x. split; [apply (fa_nodes _ _ Hx) |].
  destruct (rn_plan _ Hr) as (b & c & acts & Hl & Hb & Hc & Hp & Hf & _ & Hpf & Hplan).
  rewrite cores_lookup in Hc. destruct (nodes_ s !! Z.to_nat b) as [n |] eqn:Hnb; [| done].
  destruct (plan_path_unfolded x s b acts n Hr Hx Hp Hnb Hb) as [d Hd].
  exists acts, d, (SmbSearchNode.evaluatorSummary n). unfold getPlan, getProgress. rewrite Hplan.
  split; [done |]. split; [done |]. injection Hc as <-. split; [rewrite Hpf, Hf; done |].
  eapply path_lively; [done | done | done | by rewrite cores_lookup, Hnb |].
  intros Hb0. apply (fa_leaf _ _ Hx b); [done | done | by rewrite cores_lookup, Hnb].
Qed.
End Properties.

(** ** The corridor is such a machine *)
Lemma corridor_ram_wf x : ram_wf (corridor_ram x).
Proof.
  apply ram_of_wf. pose proof (Z.mod_pos_bound x 256 eq_refl) as Hx. cbn [forallb snd].
  rewrite (proj2 (Z.leb_le 0 (x mod 256))), (proj2 (Z.ltb_lt (x mod 256) 256)) by lia.
  by destruct (42 <=? x).
Qed.

#[export, refine] Instance corridor_machine : NesMachine Z := {| same_machine := eq |}.
Proof.
  - by intros ? ? mask ->.
  - intros d ss d1 t d2 [= <-] [= <-]. done.
  - intros ss d1 t1 e1 d2 t2 e2 [= <-] [= <-]. done.
  - intros d mask m [= <-]. apply corridor_ram_wf.
  - intros d mask. cbn. lia.
Defined.

Example dfs_unfolds_emulator_witness :
  exists root : Z * SmbSearchEvaluatorSummary.t, exists acts d σ,
    plan_frames (SmbDfsSearch.getPlan (state_after 5))
      = SmbDfsSearch.rootPrefixFrames_ (state_after 5) ++ frames_of acts /\
    simulate root acts = Some (d, σ) /\
    SmbSearchEvaluatorSummary.bestFrontier σ =
      SearchProgress.bestFrontier (SmbDfsSearch.getProgress (state_after 5)).
Proof.
  destruct (dfs_unfolds_emulator demo_options (state_after 5)) as (root & _ & acts & d & σ & H1 & H2 & H3 & _).
  - exact demo_options_wf.
  - apply demo_reachable.
  - intros E. apply (f_equal (fun l => length l)) in E. vm_compute in E. discriminate E.
  - exists root, acts, d, σ. split; [exact H1 |]. split; [exact H2 | exact H3].
Defined.
