(* ===== verification/SmbPlanFaithful.v ===== *)
(** The plan a search finds plays back: the composition of the depth-first
    search with the plan execution, through the game adapter and the evaluator
    they share. *)

From Stdlib Require Import ZArith Lia Bool String.
From stdpp Require Import base gmap option numbers list.
From S2P Require Import Prelude Ieee NesTypes SmbEvaluator SmbRam SmbAdapter.
From S2P Require Import SmbSearchCore SmbDfsSearch SmbDfsTree SmbDfsFacts.
From S2P Require Import SmbDfsInvariant SmbDfsSteps SmbDfsTick SmbDfsCorrect SmbDfsFaithful.
From S2P Require Import SmbDfsDemo SmbDfsUnfold SmbPlanExecution SmbPlanReplay.

Set Default Goal Selector "!".

(** ** The adapter *)
Lemma extract_state_wf m b s :
  ram_wf m -> NesSuperMarioBrosRamExtractor.extract m b = Ok s ->
  state_wf s /\ NesSuperMarioBrosState.lives s = byte_at m 0x75A.
Proof.
  intros Hm E. pose proof (extract_ok m b) as H. rewrite E in H.
  destruct H as ([[e0 e1] c] & _ & _ & _ & _ & _ & _ & _ & Hw & Hl & Hli & Hx & _). split; [| done].
  pose proof (byte_at_range m 0x75F Hm). pose proof (byte_at_range m 0x760 Hm).
  pose proof (byte_at_range m 0x6D Hm). pose proof (byte_at_range m 0x86 Hm).
  unfold state_wf. rewrite Hw, Hl, Hx, decodeAbsoluteX_ok by done. lia.
Qed.

(** A frame the adapter evaluates: the evaluator judges it, or nothing is
    known of it (no snapshot) or setup has failed. *)
Lemma evaluateFrame_cases a n mem a' ev :
  NesSuperMarioBrosGameAdapter.evaluateFrame a n mem = Ok (a', ev) ->
  NesSuperMarioBrosGameAdapter.advancedFrameCount_ a' = u64 (NesSuperMarioBrosGameAdapter.advancedFrameCount_ a + n) /\
  ((NesSuperMarioBrosGameAdapter.evaluator_ a' = NesSuperMarioBrosGameAdapter.evaluator_ a /\
    ((mem = None /\ NesSuperMarioBrosGameAdapter.gameState ev = None) \/ exists m state, mem = Some m /\
       NesSuperMarioBrosRamExtractor.extract m
         (300 <=? u64 (NesSuperMarioBrosGameAdapter.advancedFrameCount_ a + n)) = Ok state /\
       NesSuperMarioBrosGameAdapter.is_gameplay state = false /\
       NesSuperMarioBrosGameAdapter.gameState ev = Some 0)) \/
   exists m state, mem = Some m /\
     NesSuperMarioBrosRamExtractor.extract m
       (300 <=? u64 (NesSuperMarioBrosGameAdapter.advancedFrameCount_ a + n)) = Ok state /\
     NesSuperMarioBrosGameAdapter.gameState ev =
       Some (if NesSuperMarioBrosGameAdapter.is_gameplay state then 1 else 0) /\
     let '(e, o) := NesSuperMarioBrosEvaluator.evaluate (NesSuperMarioBrosGameAdapter.evaluator_ a)
                      (NesSuperMarioBrosEvaluator.mkInput n state) in
     NesSuperMarioBrosGameAdapter.evaluator_ a' = e /\
     NesSuperMarioBrosGameAdapter.fitnessDetails ev = FitnessSmb (NesSuperMarioBrosEvaluator.snapshot o) /\
     NesSuperMarioBrosGameAdapter.done ev = NesSuperMarioBrosEvaluator.done o).
Proof.
  unfold NesSuperMarioBrosGameAdapter.evaluateFrame. cbv zeta.
  destruct mem as [m |]; [| intros [= <- <-]; split; [done |]; left; auto].
  intros (state & Hx & E)%rbind_ok_inv.
  cbn [NesSuperMarioBrosGameAdapter.clear_caches NesSuperMarioBrosGameAdapter.advancedFrameCount_] in Hx, E.
  match type of E with (if ?b then _ else _) = _ => destruct b eqn:Hf end.
  - injection E as <- <-. split; [done |]. left. split; [done |]. right. exists m, state.
    apply andb_true_iff in Hf as [Hf _]. apply negb_true_iff in Hf. simpl. by rewrite Hf.
  - assert (forall x, NesSuperMarioBrosGameAdapter.evaluator_ (NesSuperMarioBrosGameAdapter.cache_gameplay x state)
      = NesSuperMarioBrosGameAdapter.evaluator_ x /\
      NesSuperMarioBrosGameAdapter.advancedFrameCount_ (NesSuperMarioBrosGameAdapter.cache_gameplay x state)
      = NesSuperMarioBrosGameAdapter.advancedFrameCount_ x) as Hc.
    { intros x. unfold NesSuperMarioBrosGameAdapter.cache_gameplay.
      by destruct (NesSuperMarioBrosGameAdapter.is_gameplay state). }
    destruct (Hc (NesSuperMarioBrosGameAdapter.clear_caches a n)) as [H1 H2]. rewrite H1 in E.
    change (NesSuperMarioBrosGameAdapter.evaluator_ (NesSuperMarioBrosGameAdapter.clear_caches a n))
      with (NesSuperMarioBrosGameAdapter.evaluator_ a) in E.
    destruct (NesSuperMarioBrosEvaluator.evaluate _ _) as [e o] eqn:He. injection E as <- <-.
    split; [cbn; exact H2 |]. right. exists m, state. split; [done |]. split; [exact Hx |].
    split; [by destruct (NesSuperMarioBrosGameAdapter.is_gameplay state) |]. by rewrite He.
Qed.

(** After [k] steps of less than 2^32 frames each, no counter has wrapped. *)
Definition bounded (k : Z) (a : NesSuperMarioBrosGameAdapter.t) : Prop :=
  let e := NesSuperMarioBrosGameAdapter.evaluator_ a in
  evaluator_wf e /\ NesSuperMarioBrosEvaluator.gameplayFrameCount_ e <= k * 2 ^ 32 /\
  0 <= NesSuperMarioBrosGameAdapter.advancedFrameCount_ a <= k * 2 ^ 32.

Definition mem_wf (mem : option MemorySnapshot) : Prop := forall m, mem = Some m -> ram_wf m.

Lemma bounded_input k a n m b state :
  bounded k a -> 0 <= k < 2 ^ 31 -> 0 <= n < 2 ^ 32 -> ram_wf m ->
  NesSuperMarioBrosRamExtractor.extract m b = Ok state ->
  input_wf (NesSuperMarioBrosGameAdapter.evaluator_ a) (NesSuperMarioBrosEvaluator.mkInput n state).
Proof.
  intros (He & Hg & _) Hk Hn Hm Hx. destruct (extract_state_wf _ _ _ Hm Hx) as [Hs _].
  unfold input_wf. simpl. split; [done |]. lia.
Qed.

Lemma evaluateFrame_bounded k a n mem a' ev :
  NesSuperMarioBrosGameAdapter.evaluateFrame a n mem = Ok (a', ev) ->
  bounded k a -> 0 <= k < 2 ^ 31 -> 0 <= n < 2 ^ 32 -> mem_wf mem ->
  bounded (k + 1) a' /\
  NesSuperMarioBrosGameAdapter.advancedFrameCount_ a' = NesSuperMarioBrosGameAdapter.advancedFrameCount_ a + n.
Proof.
  intros E Hb Hk Hn Hm. pose proof Hb as (He & Hg & Ha).
  destruct (evaluateFrame_cases _ _ _ _ _ E) as [Hc H]. rewrite wrap_u_small in Hc by lia. split; [| done].
  unfold bounded. rewrite Hc. destruct H as [(-> & _) | (m & state & -> & Hx & _ & H)].
  { split; [done |]. lia. }
  pose proof (bounded_input _ _ _ _ _ _ Hb Hk Hn (Hm m eq_refl) Hx) as Hi.
  pose proof (evaluate_meets_spec _ _ He Hi) as Hs.
  destruct (NesSuperMarioBrosEvaluator.evaluate _ _) as [e o]. destruct H as (-> & _).
  destruct Hs as (Hwf & _ & _ & _ & Hcnt). split; [done |]. split; [| lia].
  destruct (counted _ _); [destruct Hcnt as (_ & _ & _ & -> & _); simpl; lia | subst e; lia].
Qed.

(** The summary [σ] carries the whole of the evaluator but its lives. *)
Definition carries (σ : SmbSearchEvaluatorSummary.t) (e : NesSuperMarioBrosEvaluator.t) : Prop :=
  NesSuperMarioBrosEvaluator.hasBestProgress_ e = true /\ SmbDfsSearch.childEvaluator σ = forget_lives e.

Lemma evaluate_carries e i :
  evaluator_wf e -> input_wf e i -> counted e i = true ->
  let '(e', o) := NesSuperMarioBrosEvaluator.evaluate e i in
  carries (SmbSearchCore.buildSmbSearchEvaluatorSummary (FitnessSmb (NesSuperMarioBrosEvaluator.snapshot o)) (Some 1)) e'.
Proof.
  intros He Hi Hc. pose proof (evaluate_meets_spec e i He Hi) as Hs.
  destruct (NesSuperMarioBrosEvaluator.evaluate e i) as [e' o].
  destruct Hs as (Hwf & _ & _ & Hsn & Hcnt). rewrite Hc in Hcnt. destruct Hcnt as (Hb & _).
  split; [done |]. rewrite Hsn. by apply (restored_fields e' (NesSuperMarioBrosEvaluator.state i)
    (NesSuperMarioBrosEvaluator.endReason o) (NesSuperMarioBrosEvaluator.done o)).
Qed.

Lemma gameplay_counted e n state :
  NesSuperMarioBrosGameAdapter.is_gameplay state = true ->
  counted e (NesSuperMarioBrosEvaluator.mkInput n state) = true.
Proof. unfold NesSuperMarioBrosGameAdapter.is_gameplay, counted. simpl. by intros ->. Qed.

(** The two components encode controller frames and frontiers alike. *)
Lemma same_mask f : SmbPlanExecution.playerControlFrameToNesMask f = SmbSearchCore.playerControlFrameToNesMask f.
Proof. done. Qed.

Lemma same_frontier sn g :
  SmbSearchEvaluatorSummary.bestFrontier (SmbSearchCore.buildSmbSearchEvaluatorSummary (FitnessSmb sn) g)
  = SmbPlanExecution.encodeFrontier sn.
Proof. done. Qed.

(** ** One tick of a playback *)
Section Playback.
Context {D : Type} `{HM : NesMachine D}.
Import SmbPlanExecution.
Implicit Types (s p q : t D) (a : NesSuperMarioBrosGameAdapter.t).

(** A playback that goes on: at frame [i] of its plan. *)
Record playing (d : D) a (last : option Z) (i : Z) s : Prop := mkPlaying {
  pl_wf : execution_wf s;
  pl_mode : mode_ s = PlanPlayback;
  pl_completed : completed_ s = false;
  pl_paused : paused_ s = false;
  pl_driver : driver_ s = Some d;
  pl_adapter : gameAdapter_ s = Some a;
  pl_last : lastGameState_ s = last;
  pl_index : playbackFrameIndex_ s = i;
  pl_more : i < planLength s
}.

Lemma finishTick_frontier frame c r a a' ev sn s (p : t D * TickResult) :
  finishTick frame c r a s = Ok p ->
  negb (StepResult.runtimeHealthy r) || negb (StepResult.runtimeRunning r) = false ->
  (StepResult.advancedFrames r =? 0) = false ->
  NesSuperMarioBrosGameAdapter.evaluateFrame a (StepResult.advancedFrames r) (StepResult.memorySnapshot r) = Ok (a', ev) ->
  NesSuperMarioBrosGameAdapter.fitnessDetails ev = FitnessSmb sn ->
  SearchProgress.bestFrontier (progress_ (fst p)) = encodeFrontier sn.
Proof.
  intros E Hrun Hadv Hev Hfit. unfold finishTick in E. rewrite Hrun, Hadv, Hev in E. cbn [rbind] in E.
  match type of E with context [recordGameplayFrame frame ?S] => set (s4 := S) in * end.
  assert (SearchProgress.bestFrontier (progress_ s4) = encodeFrontier sn) as H4
    by (unfold s4; rewrite Hfit; unfold updateProgress; cbv zeta; by case_bool_decide).
  clearbody s4.
  match type of E with context [if _ || playbackDone ?S then _ else _] => set (s5 := S) in * end.
  assert (progress_ s5 = progress_ s4) as H5.
  { unfold s5. destruct (isGameplayFrame _ _); [| done]. unfold recordGameplayFrame.
    case_bool_decide; [done |]. by destruct (_ <? _). }
  clearbody s5. injection E as <-. cbn [fst]. rewrite <- H4, <- H5. by destruct (_ || playbackDone s5).
Qed.

Lemma tick_playing d a last i s :
  playing d a last i s ->
  let c := next_output s a in
  let '(d', r) := driver_step d (resolvedControllerMask c) in
  tick s = finishTick (next_frame s) c r a (set_driver_ (Some d') s).
Proof.
  intros [Hwf Hm Hc Hp Hd Ha Hl Hi Hmore]. cbv zeta.
  destruct (driver_step d (resolvedControllerMask (next_output s a))) as [d' r] eqn:Hstep.
  unfold tick. rewrite Hc, Hp, Hd, Ha. unfold playbackDone. rewrite Hm, Hi.
  assert ((planLength s <=? i) = false) as -> by lia. cbn [bool_decide andb].
  rewrite bool_decide_eq_true_2 by done. cbn [andb].
  destruct (in_range_lookup (plan_frames (plan_ s)) i) as [f Hf].
  { pose proof (ew_index _ Hwf). unfold planLength in *. lia. }
  rewrite (vec_get_ok _ _ f) by (done || (pose proof (ew_index _ Hwf); lia)). cbn [rbind].
  assert (next_frame s = f) as Hn by (unfold next_frame; by rewrite Hm, Hi, Hf). rewrite <- Hn.
  change (NesSuperMarioBrosGameAdapter.resolveControllerMask a _) with (next_output s a).
  by rewrite Hstep.
Qed.

(** The runtime did not advance: the playback waits. *)
Lemma tick_stalled d a last i s d' r :
  playing d a last i s -> driver_step d (resolvedControllerMask (next_output s a)) = (d', r) ->
  negb (StepResult.runtimeHealthy r) || negb (StepResult.runtimeRunning r) = false ->
  (StepResult.advancedFrames r =? 0) = true ->
  exists s' tr, tick s = Ok (s', tr) /\ playing d' a last i s' /\ plan_ s' = plan_ s.
Proof.
  intros Hpl Hstep Hrun Hadv. pose proof (tick_playing _ _ _ _ _ Hpl) as T. cbv zeta in T. rewrite Hstep in T.
  destruct Hpl as [Hwf Hm Hc Hp Hd Ha Hl Hi Hmore]. pose proof (tick_wf s Hwf) as Hw. rewrite T in Hw.
  pose proof (finishTick_ok (next_frame s) (next_output s a) r a (set_driver_ (Some d') s) Hc Ha) as F.
  apply wp_elim in F as ([s' tr] & E & Sm & Sd & Sp & S). rewrite E in T, Hw. rewrite Hrun, Hadv in S.
  destruct S as [[] _]. simpl in *. exists s', tr. split; [done |]. split; [| done].
  split; try congruence. unfold planLength. by rewrite se_plan.
Qed.

Definition next_last_state (last : option Z) (g : option Z) : option Z :=
  match g with Some v => Some v | None => last end.

(** A frame was judged: the playback goes on from the next state, or ends. *)
Lemma tick_judged d a last i s d' r a' ev :
  playing d a last i s -> driver_step d (resolvedControllerMask (next_output s a)) = (d', r) ->
  negb (StepResult.runtimeHealthy r) || negb (StepResult.runtimeRunning r) = false ->
  (StepResult.advancedFrames r =? 0) = false ->
  NesSuperMarioBrosGameAdapter.evaluateFrame a (StepResult.advancedFrames r) (StepResult.memorySnapshot r) = Ok (a', ev) ->
  let last' := next_last_state last (NesSuperMarioBrosGameAdapter.gameState ev) in
  let i' := i + (if isGameplayFrame last' (next_output s a) then 1 else 0) in
  exists s' tr, tick s = Ok (s', tr) /\ plan_ s' = plan_ s /\ driver_ s' = Some d' /\ playbackFrameIndex_ s' = i' /\
    (forall sn, NesSuperMarioBrosGameAdapter.fitnessDetails ev = FitnessSmb sn ->
       SearchProgress.bestFrontier (progress_ s') = encodeFrontier sn) /\
    if NesSuperMarioBrosGameAdapter.done ev || (planLength s <=? i')
    then completed_ s' = true /\ completionReason_ s' = Some CompletionReason.Completed
    else playing d' a' last' i' s'.
Proof.
  intros Hpl Hstep Hrun Hadv Hev last' i'. pose proof (tick_playing _ _ _ _ _ Hpl) as T. cbv zeta in T.
  rewrite Hstep in T. destruct Hpl as [Hwf Hm Hc Hp Hd Ha Hl Hi Hmore].
  pose proof (tick_wf s Hwf) as Hw. rewrite T in Hw.
  pose proof (finishTick_ok (next_frame s) (next_output s a) r a (set_driver_ (Some d') s) Hc Ha) as F.
  apply wp_elim in F as ([s' tr] & E & Sm & Sd & Sp & S). rewrite E in T, Hw. cbn [wp fst] in Hw.
  rewrite Hrun, Hadv in S. unfold judge in S. rewrite Hev in S. simpl in Sm, Sd, Sp, S.
  rewrite Hl in S. fold (next_last_state last (NesSuperMarioBrosGameAdapter.gameState ev)) in S. fold last' in S.
  destruct S as (S1 & S2 & _ & S3 & S4 & _ & _ & S5). destruct (S3 Hm) as [S6 S7]. clear S3.
  change (planLength (set_driver_ (Some d') s)) with (planLength s) in S7. rewrite Hi in S7.
  rewrite (proj2 (Z.ltb_lt i (planLength s)) Hmore), andb_true_r in S7. fold i' in S7.
  exists s', tr. split; [done |]. split; [done |]. split; [done |]. split; [done |]. split.
  - intros sn Hfit. by apply (finishTick_frontier _ _ _ _ _ _ _ _ _ E Hrun Hadv Hev Hfit).
  - assert (playbackDone s' = (planLength s <=? i')) as Hpd.
    { unfold playbackDone, planLength. rewrite Sm, Hm, S6, S7. by rewrite bool_decide_eq_true_2. }
    rewrite Hpd in S4. rewrite <- S4. destruct (completed_ s') eqn:Ec; [done |].
    symmetry in S4. apply orb_false_iff in S4 as [_ Hle]. apply Z.leb_gt in Hle.
    split; try congruence. unfold planLength in *. by rewrite S6.
Qed.

(** ** How a playback ends *)
(** The adapter judges the next frame to end the episode. *)
Definition declared_over q : Prop :=
  exists d a d' r a' ev, driver_ q = Some d /\ gameAdapter_ q = Some a /\
    driver_step d (resolvedControllerMask (next_output q a)) = (d', r) /\
    NesSuperMarioBrosGameAdapter.evaluateFrame a (StepResult.advancedFrames r) (StepResult.memorySnapshot r) = Ok (a', ev) /\
    NesSuperMarioBrosGameAdapter.done ev = true.

(** The lives counter of the next frame is lower than the one last seen. *)
Definition lives_fell q : Prop :=
  exists d a m, driver_ q = Some d /\ gameAdapter_ q = Some a /\
    StepResult.memorySnapshot (snd (driver_step d (resolvedControllerMask (next_output q a)))) = Some m /\
    byte_at m 0x75A < NesSuperMarioBrosEvaluator.lastLives_ (NesSuperMarioBrosGameAdapter.evaluator_ a).

Definition ended_well p : Prop :=
  completed_ p = true /\ completionReason_ p = Some CompletionReason.Completed.

(** Every frame was played, to machine [d] and [frontier]; or the adapter
    declared the episode over, before the first frame of the plan or because a
    life was lost. *)
Definition outcome (d : D) (frontier : Z) s : Prop :=
  (exists n p, exec_ticks n s = Ok p /\ ended_well p /\ playbackFrameIndex_ p = planLength s /\
     driver_ p = Some d /\ SearchProgress.bestFrontier (progress_ p) = frontier) \/
  (exists n q p tr, exec_ticks n s = Ok q /\ tick q = Ok (p, tr) /\ ended_well p /\ declared_over q /\
     (playbackFrameIndex_ q = 0 \/ lives_fell q)).

Lemma outcome_step d f s s' tr :
  tick s = Ok (s', tr) -> plan_ s' = plan_ s -> outcome d f s' -> outcome d f s.
Proof.
  intros E Hp. unfold outcome, planLength. rewrite Hp. intros [(n & p & En & H) | (n & q & p & tr' & En & H)].
  - left. exists (Datatypes.S n), p. cbn [exec_ticks]. rewrite E. by split.
  - right. exists (Datatypes.S n), q, p, tr'. cbn [exec_ticks]. rewrite E. by split.
Qed.

Lemma simulate_cons x (b : SmbSearchLegalAction.t) acts :
  simulate x (b :: acts) = simulate_action x b ≫= fun y => simulate y acts.
Proof.
  unfold simulate. simpl. destruct (simulate_action x b) as [y |]; [done |]. simpl.
  by induction acts as [| ? acts IH].
Qed.

Lemma lively_cons x y b acts :
  simulate_action x b = Some y -> lively x (b :: acts) -> alive (snd y) /\ lively y acts.
Proof.
  intros E H. split.
  - destruct y as [d σ]. apply (H [b] acts d σ); [done | done |]. rewrite simulate_cons, E. done.
  - intros acts1 acts2 d σ -> Hne Hs. apply (H (b :: acts1) acts2 d σ); [done | done |].
    by rewrite simulate_cons, E.
Qed.

(** A simulated step, seen from the result of the driver. *)
Lemma simulate_action_inv d σ act d' σ' :
  simulate_action (d, σ) act = Some (d', σ') ->
  exists r m state, driver_step d (action_mask act) = (d', r) /\
    negb (StepResult.runtimeHealthy r) || negb (StepResult.runtimeRunning r) = false /\
    (StepResult.advancedFrames r =? 0) = false /\ StepResult.memorySnapshot r = Some m /\
    NesSuperMarioBrosRamExtractor.extract m true = Ok state /\
    σ' = SmbSearchCore.buildSmbSearchEvaluatorSummary (FitnessSmb (NesSuperMarioBrosEvaluator.snapshot
      (snd (NesSuperMarioBrosEvaluator.evaluate (SmbDfsSearch.childEvaluator σ)
        (NesSuperMarioBrosEvaluator.mkInput (StepResult.advancedFrames r) state))))) (game_state state).
Proof.
  unfold simulate_action. cbn [fst snd]. destruct (driver_step d (action_mask act)) as [d1 r].
  unfold judge_step. destruct (negb (StepResult.runtimeHealthy r) || _) eqn:Hrun; [done |].
  destruct (StepResult.advancedFrames r =? 0) eqn:Hadv; [done |]. cbn [orb].
  destruct (StepResult.memorySnapshot r) as [m |] eqn:Hm; [| done].
  destruct (NesSuperMarioBrosRamExtractor.extract m true) as [state |] eqn:Hx; [| done].
  cbn. intros [= <- <-]. by exists r, m, state.
Qed.

Lemma game_state_gameplay state :
  game_state state = Some 1 -> NesSuperMarioBrosGameAdapter.is_gameplay state = true.
Proof. unfold game_state, NesSuperMarioBrosGameAdapter.is_gameplay. by case_bool_decide. Qed.

(** In gameplay the adapter passes the plan's buttons through. *)
Lemma next_output_gameplay d a i s act :
  playing d a (Some 1) i s -> next_frame s = SmbSearchCore.smbSearchLegalActionToPlayerControlFrame act ->
  resolvedControllerMask (next_output s a) = action_mask act /\ source (next_output s a) = InferredPolicy.
Proof.
  intros Hpl Hf. unfold next_output, NesSuperMarioBrosGameAdapter.resolveControllerMask,
    SetupPolicy.resolveNesSuperMarioBrosSetupDecision. rewrite (pl_last _ _ _ _ _ Hpl), Hf. done.
Qed.

(** What the adapter makes of a step the search expanded. *)
Lemma judged_alike k a σ n m state σ1 :
  bounded k a -> 0 <= k < 2 ^ 31 -> 0 <= n < 2 ^ 32 -> ram_wf m ->
  300 <= NesSuperMarioBrosGameAdapter.advancedFrameCount_ a ->
  carries σ (NesSuperMarioBrosGameAdapter.evaluator_ a) ->
  NesSuperMarioBrosRamExtractor.extract m true = Ok state -> alive σ1 ->
  σ1 = SmbSearchCore.buildSmbSearchEvaluatorSummary (FitnessSmb (NesSuperMarioBrosEvaluator.snapshot
    (snd (NesSuperMarioBrosEvaluator.evaluate (SmbDfsSearch.childEvaluator σ)
      (NesSuperMarioBrosEvaluator.mkInput n state))))) (game_state state) ->
  exists a1 ev, NesSuperMarioBrosGameAdapter.evaluateFrame a n (Some m) = Ok (a1, ev) /\
    NesSuperMarioBrosGameAdapter.gameState ev = Some 1 /\ bounded (k + 1) a1 /\
    300 <= NesSuperMarioBrosGameAdapter.advancedFrameCount_ a1 /\
    ((byte_at m 0x75A < NesSuperMarioBrosEvaluator.lastLives_ (NesSuperMarioBrosGameAdapter.evaluator_ a) /\
      NesSuperMarioBrosGameAdapter.done ev = true) \/
     (NesSuperMarioBrosGameAdapter.done ev = false /\
      carries σ1 (NesSuperMarioBrosGameAdapter.evaluator_ a1) /\
      exists sn, NesSuperMarioBrosGameAdapter.fitnessDetails ev = FitnessSmb sn /\
        SmbSearchEvaluatorSummary.bestFrontier σ1 = encodeFrontier sn)).
Proof.
  intros Hb Hk Hn Hm Ha [Hbest Hcarry] Hx [Hterm Hgs] Eσ.
  pose proof (evaluateFrame_ok a n (Some m)) as Hev. apply wp_elim in Hev as ([a1 ev] & Hev & _).
  destruct (evaluateFrame_bounded _ _ _ _ _ _ Hev Hb Hk Hn) as [Hb1 Hcount]; [by intros ? [= <-] |].
  assert (NesSuperMarioBrosGameAdapter.is_gameplay state = true) as Hg
    by (apply game_state_gameplay; rewrite Eσ in Hgs; exact Hgs).
  destruct (evaluateFrame_cases _ _ _ _ _ Hev) as [Hc1 Hcase]. rewrite <- Hc1 in Hcase.
  assert ((300 <=? NesSuperMarioBrosGameAdapter.advancedFrameCount_ a1) = true) as H300 by lia. rewrite H300 in Hcase.
  destruct Hcase as [(_ & [[? _] | (m' & state' & [= <-] & Hx' & Hng & _)]) | (m' & state' & [= <-] & Hx' & Hgs' & Hcase)];
    [done | congruence |].
  rewrite Hx in Hx'. injection Hx' as <-. rewrite Hg in Hgs'. exists a1, ev.
  split; [done |]. split; [done |]. split; [done |]. split; [lia |].
  set (i := NesSuperMarioBrosEvaluator.mkInput n state) in *.
  set (e := NesSuperMarioBrosGameAdapter.evaluator_ a) in *.
  pose proof (bounded_input _ _ _ _ _ _ Hb Hk Hn Hm Hx) as Hi. fold i e in Hi. pose proof (proj1 Hb) as Hwf. fold e in Hwf.
  pose proof (gameplay_counted e n state Hg) as Hcnt. fold i in Hcnt.
  pose proof (evaluate_meets_spec e i Hwf Hi) as Hspec. pose proof (evaluate_carries e i Hwf Hi Hcnt) as Hcar.
  pose proof (evaluate_forget e i Hbest) as Hforget.
  destruct (NesSuperMarioBrosEvaluator.evaluate e i) as [e1 o]. destruct Hcase as (-> & Hfit & Hdone).
  destruct Hspec as (_ & Hend & Hd & Hsn & _). destruct (lives_dropped e i) eqn:Hdrop.
  - left. unfold lives_dropped in Hdrop. apply andb_true_iff in Hdrop as [Hl1 Hl2].
    change (NesSuperMarioBrosEvaluator.state i) with state in Hl2.
    rewrite (proj2 (extract_state_wf _ _ _ Hm Hx)) in Hl2. split; [lia |].
    rewrite Hdone, Hd, Hend. unfold next_reason, survives, lives_dropped.
    change (NesSuperMarioBrosEvaluator.state i) with state. rewrite Hcnt, Hl1.
    rewrite (proj2 (extract_state_wf _ _ _ Hm Hx)), Hl2. done.
  - right. destruct (Hforget eq_refl) as [Hf _]. simpl in Hf. rewrite Hcarry, Hf in Eσ.
    assert (game_state state = Some 1) as Hgs1 by (rewrite Eσ in Hgs; exact Hgs).
    rewrite Hgs1 in Eσ. rewrite Eσ in Hterm. simpl in Hterm. rewrite Hsn in Hterm. simpl in Hterm.
    split; [congruence |]. split; [by rewrite Eσ |]. eexists. split; [done |]. by rewrite Eσ.
Qed.

Lemma next_frame_drop d a last i s act acts :
  playing d a last i s -> drop (Z.to_nat i) (plan_frames (plan_ s)) = frames_of (act :: acts) ->
  next_frame s = SmbSearchCore.smbSearchLegalActionToPlayerControlFrame act /\
  planLength s = i + 1 + Z.of_nat (length acts) /\
  drop (Z.to_nat (i + 1)) (plan_frames (plan_ s)) = frames_of acts.
Proof.
  intros [Hwf Hm _ _ _ _ _ Hi Hmore] Hdrop. pose proof (ew_index _ Hwf) as Hr. rewrite Hi in Hr.
  unfold next_frame. rewrite Hm, Hi.
  assert (plan_frames (plan_ s) !! Z.to_nat i = Some (SmbSearchCore.smbSearchLegalActionToPlayerControlFrame act)) as Hl.
  { replace (Z.to_nat i) with (Z.to_nat i + 0)%nat by lia. rewrite <- lookup_drop, Hdrop. done. }
  rewrite Hl. split; [done |]. split.
  - apply (f_equal (@length _)) in Hdrop. unfold frames_of in Hdrop. rewrite length_drop, length_map in Hdrop.
    unfold planLength in *. simpl in Hdrop. lia.
  - replace (Z.to_nat (i + 1)) with (Z.to_nat i + 1)%nat by lia. rewrite <- drop_drop, Hdrop. done.
Qed.

Lemma play_path acts : forall d a k i σ s d' σ',
  playing d a (Some 1) i s -> 0 <= i -> drop (Z.to_nat i) (plan_frames (plan_ s)) = frames_of acts ->
  bounded k a -> 0 <= k -> k + Z.of_nat (length acts) < 2 ^ 31 ->
  300 <= NesSuperMarioBrosGameAdapter.advancedFrameCount_ a ->
  carries σ (NesSuperMarioBrosGameAdapter.evaluator_ a) ->
  simulate (d, σ) acts = Some (d', σ') -> lively (d, σ) acts ->
  outcome d' (SmbSearchEvaluatorSummary.bestFrontier σ') s.
Proof.
  induction acts as [| act acts IH]; intros d a k i σ s d' σ' Hpl Hi Hdrop Hb Hk Hkl Ha Hc Hsim Hliv.
  { exfalso. apply (f_equal (@length _)) in Hdrop. rewrite length_drop in Hdrop.
    pose proof (pl_more _ _ _ _ _ Hpl). unfold planLength in *. simpl in Hdrop. lia. }
  destruct (next_frame_drop _ _ _ _ _ _ _ Hpl Hdrop) as (Hnf & Hlen & Hdrop').
  rewrite simulate_cons in Hsim. destruct (simulate_action (d, σ) act) as [[d1 σ1] |] eqn:Hact; [| done].
  cbn [option_bind mbind] in Hsim. destruct (lively_cons _ _ _ _ Hact Hliv) as [Hal Hliv1]. cbn [snd] in Hal.
  destruct (simulate_action_inv _ _ _ _ _ Hact) as (r & m & state & Hstep & Hrun & Hadv & Hm & Hx & Eσ).
  destruct (next_output_gameplay _ _ _ _ _ Hpl Hnf) as [Hmask Hsrc]. rewrite <- Hmask in Hstep.
  assert (0 <= StepResult.advancedFrames r < 2 ^ 32) as Hn.
  { pose proof (machine_frames d (resolvedControllerMask (next_output s a))) as H. by rewrite Hstep in H. }
  assert (ram_wf m) as Hmwf.
  { apply (machine_bytes d (resolvedControllerMask (next_output s a))). by rewrite Hstep. }
  simpl in Hkl. destruct (judged_alike k a σ (StepResult.advancedFrames r) m state σ1)
    as (a1 & ev & Hev & Hgs & Hb1 & Ha1 & Hcase); [done | lia | done.. |]. rewrite <- Hm in Hev.
  destruct (tick_judged _ _ _ _ _ _ _ _ _ Hpl Hstep Hrun Hadv Hev) as (s' & tr & E & Hp' & Hd' & Hi' & Hf' & Hend).
  cbv zeta in Hi', Hend. rewrite Hgs in Hi', Hend. cbn [next_last_state] in Hi', Hend.
  assert (isGameplayFrame (Some 1) (next_output s a) = true) as Hgp
    by (unfold isGameplayFrame; rewrite Hsrc; done). rewrite Hgp in Hi', Hend.
  destruct Hcase as [[Hlives Hdone] | (Hdone & Hc1 & sn & Hfit & Hfr)]; rewrite Hdone in Hend; cbn [orb] in Hend.
  - right. exists O, s, s', tr. split; [done |]. split; [done |]. split; [done |].
    pose proof (pl_driver _ _ _ _ _ Hpl). pose proof (pl_adapter _ _ _ _ _ Hpl). split.
    + by exists d, a, d1, r, a1, ev.
    + right. exists d, a, m. rewrite Hstep. done.
  - destruct (planLength s <=? i + 1) eqn:Hle.
    + left. exists 1%nat, s'. cbn [exec_ticks]. rewrite E. cbn [rbind fst]. split; [done |]. split; [done |].
      destruct acts as [| b acts]; [| simpl in Hlen; lia]. injection Hsim as <- <-.
      split; [simpl in Hlen; lia |]. split; [done |]. rewrite Hfr. by apply Hf'.
    + eapply outcome_step; [done | done |].
      apply (IH d1 a1 (k + 1) (i + 1) σ1 s'); try done; [lia | by rewrite Hp' | lia | lia].
Qed.

(** ** The frames before the root *)
Definition setupFrame : PlayerControlFrame :=
  SmbSearchCore.smbSearchLegalActionToPlayerControlFrame SmbSearchLegalAction.RightRun.

(** Gameplay is only ever reported once the setup script is over. *)
Definition scripted (last : option Z) a : Prop :=
  last = Some 1 -> 300 <= NesSuperMarioBrosGameAdapter.advancedFrameCount_ a.

Lemma scripted_next last a n mem a1 ev :
  scripted last a -> 0 <= n ->
  NesSuperMarioBrosGameAdapter.advancedFrameCount_ a1 = NesSuperMarioBrosGameAdapter.advancedFrameCount_ a + n ->
  NesSuperMarioBrosGameAdapter.evaluateFrame a n mem = Ok (a1, ev) ->
  scripted (next_last_state last (NesSuperMarioBrosGameAdapter.gameState ev)) a1.
Proof.
  intros Hs Hn Hc Hev. unfold scripted. destruct (evaluateFrame_cases _ _ _ _ _ Hev) as [Hc1 Hcase].
  rewrite <- Hc1 in Hcase.
  destruct Hcase as [(_ & [[_ ->] | (m & state & _ & _ & _ & ->)]) | (m & state & _ & Hx & -> & _)]; simpl.
  - intros H. specialize (Hs H). lia.
  - done.
  - destruct (NesSuperMarioBrosGameAdapter.is_gameplay state) eqn:Hg; [| done]. intros _.
    destruct (300 <=? NesSuperMarioBrosGameAdapter.advancedFrameCount_ a1) eqn:E; [lia |]. exfalso.
    apply extract_phase in Hx. unfold NesSuperMarioBrosGameAdapter.is_gameplay in Hg.
    rewrite Hx in Hg. unfold NesSuperMarioBrosRamExtractor.decodePhase in Hg. by case_bool_decide.
Qed.

(** The output for a frame depends on the adapter, the state last seen and the frame. *)
Lemma next_output_setup d a last i p :
  playing d a last i p -> next_frame p = setupFrame ->
  next_output p a = NesSuperMarioBrosGameAdapter.resolveControllerMask a
    (mkControllerInput (SmbSearchCore.playerControlFrameToNesMask setupFrame) last).
Proof. intros Hpl Hf. unfold next_output. by rewrite (pl_last _ _ _ _ _ Hpl), Hf. Qed.

Lemma first_frame d a last p rest :
  playing d a last 0 p -> plan_frames (plan_ p) = setupFrame :: rest -> next_frame p = setupFrame.
Proof.
  intros Hpl Hp. unfold next_frame. by rewrite (pl_mode _ _ _ _ _ Hpl), (pl_index _ _ _ _ _ Hpl), Hp.
Qed.

(** Every step that advances brings a snapshot of the RAM. *)
Definition snapshots : Prop :=
  forall d mask, StepResult.advancedFrames (snd (driver_step d mask)) <> 0 ->
    is_Some (StepResult.memorySnapshot (snd (driver_step d mask))).

(** The frame that makes the root: its summary carries the evaluator. *)
Lemma root_frame k a n mem a1 ev last c :
  NesSuperMarioBrosGameAdapter.evaluateFrame a n mem = Ok (a1, ev) ->
  bounded k a -> 0 <= k < 2 ^ 31 -> 0 <= n < 2 ^ 32 -> mem_wf mem -> is_Some mem ->
  let last' := next_last_state last (NesSuperMarioBrosGameAdapter.gameState ev) in
  isGameplayFrame last' c = true ->
  last' = Some 1 /\
  carries (SmbSearchCore.buildSmbSearchEvaluatorSummary (NesSuperMarioBrosGameAdapter.fitnessDetails ev) last')
    (NesSuperMarioBrosGameAdapter.evaluator_ a1) /\
  exists sn, NesSuperMarioBrosGameAdapter.fitnessDetails ev = FitnessSmb sn.
Proof.
  intros Hev Hb Hk Hn Hm [m ->] last' Hgp. unfold isGameplayFrame in Hgp. apply andb_true_iff in Hgp as [Hgp _].
  destruct (evaluateFrame_cases _ _ _ _ _ Hev) as [_ Hcase]. unfold last' in *.
  destruct Hcase as [(_ & [[? _] | (m' & state & _ & _ & _ & Hg)]) | (m' & state & [= <-] & Hx & Hg & Hcase)];
    [done | by rewrite Hg in Hgp |]. rewrite Hg in *. cbn [next_last_state value_or] in Hgp |- *.
  destruct (NesSuperMarioBrosGameAdapter.is_gameplay state) eqn:Hplay; [| done]. split; [done |].
  pose proof (bounded_input _ _ _ _ _ _ Hb Hk Hn (Hm m eq_refl) Hx) as Hi.
  pose proof (evaluate_carries _ _ (proj1 Hb) Hi (gameplay_counted _ n state Hplay)) as Hcar.
  destruct (NesSuperMarioBrosEvaluator.evaluate _ _) as [e o]. destruct Hcase as (-> & -> & _).
  split; [done |]. by eexists.
Qed.

(** Whatever the search does below the root [(d1, σ0)], its plan plays out from [p]. *)
Definition plays_out (d1 : D) (σ0 : SmbSearchEvaluatorSummary.t) p : Prop :=
  forall acts d' σ', plan_frames (plan_ p) = setupFrame :: frames_of acts -> Z.of_nat (length acts) < 2 ^ 30 ->
    simulate (d1, σ0) acts = Some (d', σ') -> lively (d1, σ0) acts ->
    outcome d' (SmbSearchEvaluatorSummary.bestFrontier σ') p.

Lemma plays_out_step d1 σ0 p p' tr :
  tick p = Ok (p', tr) -> plan_ p' = plan_ p -> plays_out d1 σ0 p' -> plays_out d1 σ0 p.
Proof.
  intros E Hp H acts d' σ' Hf Hl Hs Hliv. eapply outcome_step; [done | done |].
  by apply (H acts d' σ'); [rewrite Hp | ..].
Qed.

(** A verdict at the first frame of the plan ends the playback. *)
Lemma over_early d1 σ0 p p' tr d a d' r a' ev :
  tick p = Ok (p', tr) -> ended_well p' -> playing d a (lastGameState_ p) 0 p ->
  driver_step d (resolvedControllerMask (next_output p a)) = (d', r) ->
  NesSuperMarioBrosGameAdapter.evaluateFrame a (StepResult.advancedFrames r) (StepResult.memorySnapshot r) = Ok (a', ev) ->
  NesSuperMarioBrosGameAdapter.done ev = true -> plays_out d1 σ0 p.
Proof.
  intros E Hend Hpl Hstep Hev Hdone acts dn σn _ _ _ _. right. exists O, p, p', tr.
  split; [done |]. split; [done |]. split; [done |]. split.
  - exists d, a, d', r, a', ev. by destruct Hpl.
  - left. by destruct Hpl.
Qed.

(** The playback's first counted frame is the search's root. *)
Lemma root_plays k d a last p d1 r a1 ev :
  playing d a last 0 p -> driver_step d (resolvedControllerMask (next_output p a)) = (d1, r) ->
  negb (StepResult.runtimeHealthy r) || negb (StepResult.runtimeRunning r) = false ->
  (StepResult.advancedFrames r =? 0) = false ->
  NesSuperMarioBrosGameAdapter.evaluateFrame a (StepResult.advancedFrames r) (StepResult.memorySnapshot r) = Ok (a1, ev) ->
  let last' := next_last_state last (NesSuperMarioBrosGameAdapter.gameState ev) in
  isGameplayFrame last' (next_output p a) = true -> last' = Some 1 ->
  carries (SmbSearchCore.buildSmbSearchEvaluatorSummary (NesSuperMarioBrosGameAdapter.fitnessDetails ev) last')
    (NesSuperMarioBrosGameAdapter.evaluator_ a1) ->
  (exists sn, NesSuperMarioBrosGameAdapter.fitnessDetails ev = FitnessSmb sn) ->
  bounded k a1 -> 0 <= k < 2 ^ 30 -> 300 <= NesSuperMarioBrosGameAdapter.advancedFrameCount_ a1 ->
  plays_out d1 (SmbSearchCore.buildSmbSearchEvaluatorSummary (NesSuperMarioBrosGameAdapter.fitnessDetails ev) last') p.
Proof.
  intros Hpl Hstep Hrun Hadv Hev last' Hgp Hl' Hcar [sn Hfit] Hb Hk Hc.
  destruct (tick_judged _ _ _ _ _ _ _ _ _ Hpl Hstep Hrun Hadv Hev) as (p' & tr & E & Hp' & Hd' & Hi' & Hf' & Hend).
  cbv zeta in Hi', Hend. fold last' in Hi', Hend. rewrite Hgp in Hi', Hend.
  destruct (NesSuperMarioBrosGameAdapter.done ev) eqn:Hdone; cbn [orb] in Hend.
  { eapply over_early; try done. by rewrite (pl_last _ _ _ _ _ Hpl). }
  intros acts dn σn Hplan Hlen Hsim Hliv. eapply outcome_step; [done | done |].
  assert (planLength p = 1 + Z.of_nat (length acts)) as Hpl1.
  { unfold planLength. rewrite Hplan. unfold frames_of. simpl. rewrite length_map. lia. }
  destruct (planLength p <=? 0 + 1) eqn:Hle.
  - destruct acts; [| simpl in Hpl1; lia]. injection Hsim as <- <-. left. exists O, p'. split; [done |]. split; [done |].
    assert (planLength p' = planLength p) as -> by (unfold planLength; by rewrite Hp').
    split; [simpl in *; lia |]. split; [done |]. rewrite Hfit. by apply Hf'.
  - rewrite Hl' in Hend. eapply (play_path acts); try done; [by rewrite Hp', Hplan | lia | lia].
Qed.

(** The root capture and a playback of its plan go through the same machines. *)
Lemma capture_plays fuel : forall d g last k (s s1 : SmbDfsSearch.t D),
  snapshots -> SmbDfsSearch.captureRoot fuel d g last [] s = Ok (s1, okay tt) ->
  SmbDfsSearch.nodes_ s = [] -> SmbDfsSearch.dfsStack_ s = [] ->
  bounded k g -> 0 <= k -> k + Z.of_nat fuel < 2 ^ 30 -> scripted last g ->
  exists d1 σ0, rooted d1 σ0 s1 /\ SmbDfsSearch.rootPrefixFrames_ s1 = [setupFrame] /\
    forall p rest, playing d g last 0 p -> plan_frames (plan_ p) = setupFrame :: rest -> plays_out d1 σ0 p.
Proof.
  induction fuel as [| fuel IH]; intros d g last k s s1 Hsnap E Hn Hst Hb Hk Hkf Hscr; [done |].
  cbn [SmbDfsSearch.captureRoot] in E. cbv zeta in E. fold setupFrame in E.
  set (c := NesSuperMarioBrosGameAdapter.resolveControllerMask g _) in E.
  destruct (driver_step d (resolvedControllerMask c)) as [d1 r] eqn:Hstep.
  destruct (negb (StepResult.runtimeHealthy r) || negb (StepResult.runtimeRunning r)) eqn:Hrun; [done |].
  assert (forall p rest, playing d g last 0 p -> plan_frames (plan_ p) = setupFrame :: rest -> next_output p g = c) as Hout.
  { intros p rest Hpl Hp. apply (next_output_setup _ _ _ _ _ Hpl). by eapply first_frame. }
  destruct (StepResult.advancedFrames r =? 0) eqn:Hadv.
  { destruct (IH _ _ _ k _ _ Hsnap E Hn Hst Hb Hk ltac:(lia) Hscr) as (dr & σ0 & Hroot & Hpre & Hp).
    exists dr, σ0. split; [done |]. split; [done |]. intros p rest Hpl Hf. rewrite <- (Hout p rest Hpl Hf) in Hstep.
    destruct (tick_stalled _ _ _ _ _ _ _ Hpl Hstep Hrun Hadv) as (p' & tr & Et & Hpl' & Hp').
    eapply plays_out_step; [done | done |]. apply (Hp p' rest); [done | by rewrite Hp']. }
  apply rbind_ok_inv in E as ([g' ev] & Hev & E).
  pose proof (machine_frames d (resolvedControllerMask c)) as Hfr. rewrite Hstep in Hfr. cbn [snd] in Hfr.
  assert (mem_wf (StepResult.memorySnapshot r)) as Hmwf.
  { intros m Hm. apply (machine_bytes d (resolvedControllerMask c)). by rewrite Hstep. }
  destruct (evaluateFrame_bounded _ _ _ _ _ _ Hev Hb ltac:(lia) Hfr Hmwf) as [Hb' Hcount].
  pose proof (scripted_next _ _ _ _ _ _ Hscr (proj1 Hfr) Hcount Hev) as Hscr'.
  fold (next_last_state last (NesSuperMarioBrosGameAdapter.gameState ev)) in E.
  set (last' := next_last_state last (NesSuperMarioBrosGameAdapter.gameState ev)) in *.
  change (SmbSearchCore.isSmbGameplayFrame last' c) with (isGameplayFrame last' c) in E.
  destruct (isGameplayFrame last' c) eqn:Hgp; cbn [negb] in E.
  - destruct (driver_copyRuntimeSavestate d1) as [ss |] eqn:Hss; [| done].
    apply rbind_ok_inv in E as (s2 & E & E2). injection E2 as <-.
    assert (is_Some (StepResult.memorySnapshot r)) as Hmem.
    { pose proof (Hsnap d (resolvedControllerMask c)) as H. rewrite Hstep in H. apply H. simpl. lia. }
    destruct (root_frame _ _ _ _ _ _ last c Hev Hb ltac:(lia) Hfr Hmwf Hmem Hgp) as (Hl' & Hcar & Hsn). fold last' in Hl', Hcar.
    eapply (initializeRootNode_rooted d1) in E as [Hroot Hpre]; [| done | done | by apply copied_restores].
    eexists _, _. split; [exact Hroot |]. split; [exact Hpre |]. intros p rest Hpl Hf.
    rewrite <- (Hout p rest Hpl Hf) in Hstep, Hgp. apply (root_plays (k + 1) _ _ _ _ _ _ _ _ Hpl Hstep Hrun Hadv Hev Hgp);
      [done | done | done | done | lia | by apply Hscr'].
  - destruct (IH _ _ _ (k + 1) _ _ Hsnap E Hn Hst Hb' ltac:(lia) ltac:(lia) Hscr') as (dr & σ0 & Hroot & Hpre & Hp).
    exists dr, σ0. split; [done |]. split; [done |]. intros p rest Hpl Hf.
    pose proof (Hout p rest Hpl Hf) as Ho. rewrite <- Ho in Hstep, Hgp.
    destruct (tick_judged _ _ _ _ _ _ _ _ _ Hpl Hstep Hrun Hadv Hev) as (p' & tr & Et & Hp' & Hd' & Hi' & _ & Hend).
    cbv zeta in Hi', Hend. fold last' in Hi', Hend. rewrite Hgp in Hi', Hend.
    assert (planLength p <=? 0 + 0 = false) as Hle by (pose proof (pl_more _ _ _ _ _ Hpl); lia).
    rewrite Hle, orb_false_r in Hend. destruct (NesSuperMarioBrosGameAdapter.done ev) eqn:Hdone.
    + eapply over_early; try done. by rewrite (pl_last _ _ _ _ _ Hpl).
    + eapply plays_out_step; [done | done |]. apply (Hp p' rest); [done | by rewrite Hp'].
Qed.
End Playback.

(** ** From the start of a search to the playback of its plan *)
Section Composition.
Context {D : Type} `{HM : NesMachine D}.
Implicit Types (s : SmbDfsSearch.t D).

(** The operations that go on with a started search. *)
Definition continues (op : operation) : Prop :=
  match op with Tick | PauseSet _ | Stop => True | StartDfs | StartFromFixture _ => False end.

(** A search below the root [x]. *)
Record below (x : D * SmbSearchEvaluatorSummary.t) s : Prop := mkBelow {
  bl_inv : inv s;
  bl_running : running s;
  bl_faithful : faithful x s;
  bl_prefix : SmbDfsSearch.rootPrefixFrames_ s = [setupFrame]
}.

Lemma same_shape_below x s s' : same_shape s s' -> inv s' -> below x s -> below x s'.
Proof.
  intros Hs Hi [Hi0 Hr Hf Hp]. split; [done | | by eapply same_shape_faithful |].
  - apply nodes_running; [done |]. rewrite (ss_nodes _ _ Hs). by apply running_nodes.
  - by rewrite (ss_prefix _ _ Hs).
Qed.

Lemma continues_below x op s s' : continues op -> apply_op op s = Ok s' -> below x s -> below x s'.
Proof.
  intros Hc E Hb. pose proof Hb as [Hi Hr Hf Hp].
  assert (inv s') as Hi' by (by apply (wp_use _ _ _ E (apply_op_ok op s Hi))).
  destruct op as [| | | b |]; try done; cbn [apply_op] in E.
  - apply rbind_ok_inv in E as (p & E & [= <-]). destruct (tick_faithful x s p Hi Hr E Hf) as [Hr' Hf'].
    split; [done.. |]. destruct (tick_evolved s p Hr E) as [(_ & _ & ->) | (? & ? & ? & ? & ? & ? & ? & _ & _ & _ & _ & _ & _ & _ & -> & _)]; done.
  - injection E as <-. apply (same_shape_below x s); [by split | done..].
  - apply (same_shape_below x s); [by apply stop_shape | done..].
Qed.

Lemma continue_below x ops s s' :
  Forall continues ops -> apply_ops ops s = Ok s' -> below x s -> below x s'.
Proof.
  intros Hops. revert s. induction Hops as [| op ops Hop _ IH]; intros s E Hb; cbn [apply_ops] in E.
  - by injection E as <-.
  - apply rbind_ok_inv in E as (s1 & E1 & E). apply (IH s1 E). by eapply continues_below.
Qed.

(** The plan of a search below its root. *)
Lemma below_plan d0 σ0 s :
  below (d0, σ0) s -> exists acts dn σn,
    plan_frames (SmbDfsSearch.getPlan s) = setupFrame :: frames_of acts /\
    ps_bestFrontier (plan_summary (SmbDfsSearch.getPlan s)) = SmbSearchEvaluatorSummary.bestFrontier σn /\
    simulate (d0, σ0) acts = Some (dn, σn) /\ lively (d0, σ0) acts.
Proof.
  intros [Hi Hr Hf Hpre]. destruct (rn_plan _ Hr) as (b & c & acts & Hl & Hb & Hc & Hp & Hfr & _ & _ & Hplan).
  rewrite cores_lookup in Hc. destruct (SmbDfsSearch.nodes_ s !! Z.to_nat b) as [n |] eqn:Hn; [| done].
  destruct (plan_path_unfolded _ _ _ _ _ Hr Hf Hp Hn Hb) as [dn Hsim].
  exists acts, dn, (SmbSearchNode.evaluatorSummary n). unfold SmbDfsSearch.getPlan. rewrite Hplan, Hpre.
  split; [done |]. injection Hc as <-. split; [by rewrite Hfr |]. split; [done |].
  eapply path_lively; [done | done | done | by rewrite cores_lookup, Hn |].
  intros Hb0. apply (fa_leaf _ _ Hf b); [done | done | by rewrite cores_lookup, Hn].
Qed.

Lemma initializeRuntime_okay s s2 :
  SmbDfsSearch.initializeRuntime s = (s2, okay tt) ->
  exists dc d, driver_setConfig driver_make = (dc, okay tt) /\ driver_setup dc = (d, okay tt) /\
    SmbDfsSearch.driver_ s2 = Some d /\ SmbDfsSearch.nodes_ s2 = [] /\ SmbDfsSearch.dfsStack_ s2 = [].
Proof.
  unfold SmbDfsSearch.initializeRuntime. destruct (driver_setConfig driver_make) as [dc [[] | e]]; [| done].
  destruct (driver_setup dc) as [d [[] | e]] eqn:E; [| done]. intros [= <-]. by exists dc, d.
Qed.

Lemma startDfs_capture s s1 :
  SmbDfsSearch.startDfs s = Ok (s1, okay tt) ->
  exists fuel dc d s2, Z.of_nat fuel = 2000 /\ driver_setConfig driver_make = (dc, okay tt) /\
    driver_setup dc = (d, okay tt) /\ SmbDfsSearch.nodes_ s2 = [] /\ SmbDfsSearch.dfsStack_ s2 = [] /\
    SmbDfsSearch.captureRoot fuel d (NesSuperMarioBrosGameAdapter.reset NesSuperMarioBrosGameAdapter.default)
      None [] s2 = Ok (s1, okay tt).
Proof.
  intros E. unfold SmbDfsSearch.startDfs in E.
  destruct (SmbDfsSearch.initializeRuntime s) as [s2 [[] | e]] eqn:Hi; [| done].
  destruct (initializeRuntime_okay _ _ Hi) as (dc & d & H1 & H2 & H3 & H4 & H5). rewrite H3 in E.
  exists 2000%nat, dc, d, s2. split; [reflexivity |]. do 4 (split; [done |]). exact E.
Qed.

Lemma startDfs_below s s1 :
  snapshots -> inv s -> SmbDfsSearch.startDfs s = Ok (s1, okay tt) ->
  exists d1 σ0, below (d1, σ0) s1 /\
    forall p0 plan rest e, SmbPlanExecution.startPlayback plan e = (p0, okay tt) ->
      plan_frames plan = setupFrame :: rest -> plays_out d1 σ0 p0.
Proof.
  intros Hsnap Hi E. pose proof (wp_use _ _ _ E (startDfs_ok s Hi)) as (Hi1 & _ & Hst).
  destruct (Hst eq_refl) as (Hr1 & _). cbn [fst] in *.
  destruct (startDfs_capture _ _ E) as (fuel & dc & d & s2 & Hfuel & Hcfg & Hset & Hn & Hstk & Ecap).
  set (g := NesSuperMarioBrosGameAdapter.reset NesSuperMarioBrosGameAdapter.default) in *.
  assert (bounded 0 g) as Hb by (unfold bounded, evaluator_wf; cbn; lia).
  assert (scripted None g) as Hscr by done.
  destruct (capture_plays fuel _ _ _ 0 _ _ Hsnap Ecap Hn Hstk Hb ltac:(lia) ltac:(lia) Hscr)
    as (d1 & σ0 & Hroot & Hpre & Hplay).
  exists d1, σ0. split.
  { split; [done | done | by apply rooted_faithful | done]. }
  intros p0 plan rest e0 Hp0 Hplan. unfold SmbPlanExecution.startPlayback in Hp0.
  destruct (startCommon_inv _ _ Hp0) as (d' & _ & _ & Hset' & ->).
  rewrite Hcfg in Hset'. simpl in Hset'. rewrite Hset in Hset'. injection Hset' as <-.
  apply (Hplay _ rest); [| done].
  assert (forall w f l pr, @execution_wf D (SmbPlanExecution.mk (Some d) (Some g) w f l plan pr 0 false false
    SmbPlanExecution.PlanPlayback None None)) as Hwf.
  { intros. split; simpl; [unfold SmbPlanExecution.planLength; lia | |]; (split; [done | by intros []]). }
  split; try done. unfold SmbPlanExecution.planLength. simpl. rewrite Hplan. simpl. lia.
Qed.
End Composition.

(** C2. The plan of a search can be played back.  Take any search started with
    [startDfs] that was ticked, paused and stopped in any way; a playback of its
    plan, started on the same runtime, completes without error, and either every
    frame of the plan was played, the emulator is where the best leaf's path
    leads from the root, and the progress shows the frontier the plan promises;
    or the game adapter declared the episode over, before the plan's first frame
    had counted or because the lives counter had fallen.  (The search restores a
    node's evaluator without its lives and ignores verdicts while it looks for
    the root; those are the only ways the two can part.) *)
Theorem dfs_plan_plays_back {D : Type} `{HM : NesMachine D} (options : SmbDfsSearchOptions.t)
    (ops : list operation) (s0 s1 s : SmbDfsSearch.t D) (e p0 : SmbPlanExecution.t D) :
  snapshots (D := D) -> options_wf options -> reachable options s0 ->
  SmbDfsSearch.startDfs s0 = Ok (s1, okay tt) -> Forall continues ops -> apply_ops ops s1 = Ok s ->
  Z.of_nat (length (plan_frames (SmbDfsSearch.getPlan s))) < 2 ^ 30 ->
  SmbPlanExecution.startPlayback (SmbDfsSearch.getPlan s) e = (p0, okay tt) ->
  exists root acts dn σn,
    plan_frames (SmbDfsSearch.getPlan s) = setupFrame :: frames_of acts /\
    simulate root acts = Some (dn, σn) /\
    ps_bestFrontier (plan_summary (SmbDfsSearch.getPlan s)) = SmbSearchEvaluatorSummary.bestFrontier σn /\
    outcome dn (ps_bestFrontier (plan_summary (SmbDfsSearch.getPlan s))) p0.
Proof.
  intros Hsnap Ho Hreach Hstart Hops Happ Hlen Hp0.
  destruct (reachable_inv options s0 Ho Hreach) as [Hi _].
  destruct (startDfs_below s0 s1 Hsnap Hi Hstart) as (d1 & σ0 & Hb & Hplay).
  pose proof (continue_below _ _ _ _ Hops Happ Hb) as Hbs.
  destruct (below_plan _ _ _ Hbs) as (acts & dn & σn & Hf & Hfr & Hsim & Hliv).
  exists (d1, σ0), acts, dn, σn. split; [done |]. split; [done |]. split; [done |]. rewrite Hfr.
  apply (Hplay p0 _ (frames_of acts) e Hp0 Hf acts); [| | done | done].
  - unfold SmbPlanExecution.startPlayback in Hp0. by destruct (startCommon_inv _ _ Hp0) as (d' & _ & _ & _ & ->).
  - rewrite Hf in Hlen. unfold frames_of in Hlen. simpl in Hlen. rewrite length_map in Hlen. lia.
Qed.

(** ** A search and the playback of its plan in a longer corridor *)
(** The striding corridor, entered ten steps earlier. *)
Record hall := mkHall { hall_at : Z }.

#[export] Instance hall_corridor : NesDriver hall := {
  driver_make := mkHall 30;
  driver_setConfig := fun x => (x, okay tt);
  driver_setup := fun x => (x, okay tt);
  driver_step := fun x mask => let x := corridor_step (hall_at x) mask in
    (mkHall x, StepResult.mk 100 true true (Some (corridor_ram x)) None EmptyString);
  driver_loadRuntimeSavestate := fun _ ss _ => (mkHall (ss_frameId ss), true);
  driver_copyRuntimeSavestate := fun x => Some (mkSavestate (hall_at x) []);
  driver_copyRuntimeFrameSnapshot := fun _ => None;
  driver_getRuntimeLastError := fun _ => EmptyString
}.

#[export, refine] Instance hall_machine : NesMachine hall := {| same_machine := eq |}.
Proof.
  - by intros ? ? mask ->.
  - intros d ss d1 t d2 [= <-] [= <-]. by destruct d.
  - intros ss d1 t1 e1 d2 t2 e2 [= <-] [= <-]. done.
  - intros d mask m [= <-]. apply corridor_ram_wf.
  - intros d mask. cbn. lia.
Defined.

Lemma hall_snapshots : snapshots (D := hall).
Proof. intros d mask _. by eexists. Qed.

Definition hall_start : SmbDfsSearch.t hall :=
  match SmbDfsSearch.startDfs (SmbDfsSearch.make demo_options) with
  | Ok (s, _) => s
  | Fault _ => SmbDfsSearch.make demo_options
  end.

Definition hall_ops : list operation := [Tick; PauseSet true; Tick; PauseSet false; Tick; Stop].

Definition hall_search : SmbDfsSearch.t hall :=
  match apply_ops hall_ops hall_start with
  | Ok s => s
  | Fault _ => SmbDfsSearch.make demo_options
  end.

Definition hall_playback : SmbPlanExecution.t hall :=
  fst (SmbPlanExecution.startPlayback (SmbDfsSearch.getPlan hall_search) SmbPlanExecution.default).

(** The search kept two steps to the right; its plan of three frames plays in six
    ticks, the first three of them before the plan's first frame counts. *)
Example hall_plays :
  SmbPlanExecution.planLength hall_playback = 3 /\
  exists p, exec_ticks 6 hall_playback = Ok p /\ ended_well p /\
    SmbPlanExecution.driver_ p = Some (mkHall 33) /\
    SearchProgress.bestFrontier (SmbPlanExecution.progress_ p)
      = ps_bestFrontier (plan_summary (SmbDfsSearch.getPlan hall_search)).
Proof. split; [vm_compute; reflexivity |]. eexists. split; [vm_compute; reflexivity |]. repeat split; vm_compute; reflexivity. Qed.

Example dfs_plan_plays_back_witness :
  exists root acts dn σn,
    plan_frames (SmbDfsSearch.getPlan hall_search) = setupFrame :: frames_of acts /\
    simulate root acts = Some (dn, σn) /\
    outcome dn (ps_bestFrontier (plan_summary (SmbDfsSearch.getPlan hall_search))) hall_playback.
Proof.
  destruct (dfs_plan_plays_back demo_options hall_ops (SmbDfsSearch.make demo_options) hall_start hall_search
    SmbPlanExecution.default hall_playback) as (root & acts & dn & σn & H1 & H2 & _ & H3).
  - exact hall_snapshots.
  - exact demo_options_wf.
  - exists []. reflexivity.
  - vm_compute. reflexivity.
  - unfold hall_ops. repeat constructor.
  - vm_compute. reflexivity.
  - vm_compute. reflexivity.
  - vm_compute. reflexivity.
  - exists root, acts, dn, σn. split; [exact H1 |]. split; [exact H2 | exact H3].
Defined.
