(* ===== verification/SmbResponse.v ===== *)
(** Measuring how the game responds to live input:
    [core/scenarios/nes/NesSuperMarioBrosResponseProbe.{h,cpp}], with the
    telemetry records of [NesControllerTelemetry.h] and
    [NesSuperMarioBrosResponseTelemetry.h].

    The steady clock is the parameter [steadyClockNowNs]: its [n]-th reading
    counts from the construction of the probe. *)

From Stdlib Require Import ZArith Lia Bool String.
From Stdlib Require Import SpecFloat.
From stdpp Require Import base gmap option numbers list.
From S2P Require Import Prelude Ieee NesTypes SmbEvaluator SmbRam SmbAdapter.

Set Default Goal Selector "!".

(** ** Telemetry *)
Module NesControllerTelemetry.
Record t := mk {
  aRaw : f32;
  bRaw : f32;
  xRaw : f32;
  yRaw : f32;
  inferredControllerMask : Z;
  resolvedControllerMask : Z;
  controllerSource : NesGameAdapterControllerSource;
  controllerSourceFrameIndex : option Z;
  controllerAppliedFrameId : option Z;
  controllerObservedTimestampNs : option Z;
  controllerLatchTimestampNs : option Z;
  controllerRequestTimestampNs : option Z;
  controllerSequenceId : option Z
}.
End NesControllerTelemetry.

Module ResponseKind.
Inductive t := Jump | MoveLeft | MoveRight | Duck.
#[global] Instance eq_dec : EqDecision t.
Proof. solve_decision. Defined.
Definition toString (kind : t) : string :=
  match kind with
  | Jump => "Jump"%string
  | MoveLeft => "MoveLeft"%string
  | MoveRight => "MoveRight"%string
  | Duck => "Duck"%string
  end.
End ResponseKind.

Module ResponseContext.
Inductive t := StandingJump | RunningJump | GroundedStart | GroundedTurnaround | GroundedDuck.
#[global] Instance eq_dec : EqDecision t.
Proof. solve_decision. Defined.
Definition toString (context : t) : string :=
  match context with
  | StandingJump => "StandingJump"%string
  | RunningJump => "RunningJump"%string
  | GroundedStart => "GroundedStart"%string
  | GroundedTurnaround => "GroundedTurnaround"%string
  | GroundedDuck => "GroundedDuck"%string
  end.
End ResponseContext.

Module ResponseMilestone.
Inductive t := Acknowledge | Commit | Motion.
#[global] Instance eq_dec : EqDecision t.
Proof. solve_decision. Defined.
Definition toString (milestone : t) : string :=
  match milestone with
  | Acknowledge => "Acknowledge"%string
  | Commit => "Commit"%string
  | Motion => "Motion"%string
  end.
End ResponseMilestone.

Module ResponseTelemetry.
Record t := mk {
  kind : ResponseKind.t;
  context : ResponseContext.t;
  milestone : ResponseMilestone.t;
  responseEventId : Z;
  controllerSequenceId : Z;
  controllerAppliedFrameId : Z;
  responseFrameId : Z;
  controllerObservedTimestampNs : Z;
  controllerRequestTimestampNs : Z;
  controllerLatchTimestampNs : Z;
  gameInputCopiedFrameId : Z;
  gameInputCopiedTimestampNs : Z;
  responseDetectedTimestampNs : Z
}.
End ResponseTelemetry.

Module FacingDirection.
Inductive t := Unknown | Right | Left.
#[global] Instance eq_dec : EqDecision t.
Proof. solve_decision. Defined.
End FacingDirection.

Module PendingProbe.
Record t := mk {
  kind : ResponseKind.t;
  context : ResponseContext.t;
  controllerSequenceId : Z;
  controllerAppliedFrameId : Z;
  controllerObservedTimestampNs : Z;
  controllerRequestTimestampNs : Z;
  controllerLatchTimestampNs : Z;
  deadlineFrameId : Z;
  baselineFacingDirection : FacingDirection.t;
  baselineMovementDirection : FacingDirection.t;
  baselineFloatState : Z;
  baselineGameInputMask : Z;
  expectedGameInputMask : Z;
  baselineState : NesSuperMarioBrosState.t;
  baselineDucking : bool;
  acknowledgeEmitted : bool;
  commitEmitted : bool;
  gameInputCopiedFrameId : Z;
  gameInputCopiedTimestampNs : Z;
  gameInputCopied : bool;
  motionEmitted : bool
}.

(** [gameInputCopied = true], with its frame and time. *)
Definition copied (frameId now : Z) (p : t) : t :=
  mk (kind p) (context p) (controllerSequenceId p) (controllerAppliedFrameId p)
    (controllerObservedTimestampNs p) (controllerRequestTimestampNs p) (controllerLatchTimestampNs p)
    (deadlineFrameId p) (baselineFacingDirection p) (baselineMovementDirection p) (baselineFloatState p)
    (baselineGameInputMask p) (expectedGameInputMask p) (baselineState p) (baselineDucking p)
    (acknowledgeEmitted p) (commitEmitted p) frameId now true (motionEmitted p).

(** [acknowledgeEmitted = true], [commitEmitted = true] or [motionEmitted = true]. *)
Definition emitted (m : ResponseMilestone.t) (p : t) : t :=
  mk (kind p) (context p) (controllerSequenceId p) (controllerAppliedFrameId p)
    (controllerObservedTimestampNs p) (controllerRequestTimestampNs p) (controllerLatchTimestampNs p)
    (deadlineFrameId p) (baselineFacingDirection p) (baselineMovementDirection p) (baselineFloatState p)
    (baselineGameInputMask p) (expectedGameInputMask p) (baselineState p) (baselineDucking p)
    (acknowledgeEmitted p || bool_decide (m = ResponseMilestone.Acknowledge))
    (commitEmitted p || bool_decide (m = ResponseMilestone.Commit))
    (gameInputCopiedFrameId p) (gameInputCopiedTimestampNs p) (gameInputCopied p)
    (motionEmitted p || bool_decide (m = ResponseMilestone.Motion)).
End PendingProbe.

Module NesSuperMarioBrosResponseProbe.

Definition kFacingDirectionAddr : Z := 0x0033.
Definition kDuckingStateAddr : Z := 0x0714.
Definition kDuckingStateActive : Z := 0x04.
Definition kFloatStateAddr : Z := 0x001D.
Definition kPlayerOneButtonsPressedAddr : Z := 0x074A.
Definition kMovementDirectionAddr : Z := 0x0045.
Definition kHorizontalSpeedCommittedThreshold : f64 := f64_lit 15 100.
Definition kHorizontalSpeedResponseThreshold : f64 := f64_lit 2 100.
Definition kVerticalSpeedResponseThreshold : f64 := f64_lit 2 100.
Definition kResponseProbeTimeoutFrames : Z := 12.
Definition SMOLNES_RUNTIME_BUTTON_A : Z := Z.shiftl 1 0.
Definition SMOLNES_RUNTIME_BUTTON_B : Z := Z.shiftl 1 1.
Definition SMOLNES_RUNTIME_BUTTON_SELECT : Z := Z.shiftl 1 2.
Definition SMOLNES_RUNTIME_BUTTON_START : Z := Z.shiftl 1 3.
Definition SMOLNES_RUNTIME_BUTTON_UP : Z := Z.shiftl 1 4.
Definition SMOLNES_RUNTIME_BUTTON_DOWN : Z := Z.shiftl 1 5.
Definition SMOLNES_RUNTIME_BUTTON_LEFT : Z := Z.shiftl 1 6.
Definition SMOLNES_RUNTIME_BUTTON_RIGHT : Z := Z.shiftl 1 7.
Definition kSmbButtonRight : Z := Z.shiftl 1 0.
Definition kSmbButtonLeft : Z := Z.shiftl 1 1.
Definition kSmbButtonDown : Z := Z.shiftl 1 2.
Definition kSmbButtonUp : Z := Z.shiftl 1 3.
Definition kSmbButtonStart : Z := Z.shiftl 1 4.
Definition kSmbButtonSelect : Z := Z.shiftl 1 5.
Definition kSmbButtonB : Z := Z.shiftl 1 6.
Definition kSmbButtonA : Z := Z.shiftl 1 7.

Definition decodeDirection (rawValue : Z) : FacingDirection.t :=
  if rawValue =? 1 then FacingDirection.Right
  else if rawValue =? 2 then FacingDirection.Left
  else FacingDirection.Unknown.

Definition decodeFacingDirection (snapshot : MemorySnapshot) : res FacingDirection.t :=
  let! raw := NesSuperMarioBrosRamExtractor.ram_at snapshot kFacingDirectionAddr in
  Ok (decodeDirection raw).

Definition decodeMovementDirection (snapshot : MemorySnapshot) : res FacingDirection.t :=
  let! raw := NesSuperMarioBrosRamExtractor.ram_at snapshot kMovementDirectionAddr in
  Ok (decodeDirection raw).

Definition isAirborneFloatState (playerFloatState : Z) : bool :=
  (playerFloatState =? 0x01) || (playerFloatState =? 0x02).

Definition isGroundedFloatState (playerFloatState : Z) : bool := playerFloatState =? 0x00.

Definition isGameplayStateEligible (state : NesSuperMarioBrosState.t) : bool :=
  bool_decide (NesSuperMarioBrosState.phase state = SmbPhase.Gameplay)
  && bool_decide (NesSuperMarioBrosState.lifeState state = SmbLifeState.Alive).

Definition hasConflictingHorizontalInput (controllerMask : Z) : bool :=
  nonzero (Z.land controllerMask SMOLNES_RUNTIME_BUTTON_LEFT)
  && nonzero (Z.land controllerMask SMOLNES_RUNTIME_BUTTON_RIGHT).

Definition isDucking (snapshot : MemorySnapshot) : res bool :=
  let! raw := NesSuperMarioBrosRamExtractor.ram_at snapshot kDuckingStateAddr in
  Ok (raw =? kDuckingStateActive).

Definition smbButtonsMaskFromRuntimeMask (runtimeMask : Z) : Z :=
  let smbMask := 0 in
  let smbMask := if nonzero (Z.land runtimeMask SMOLNES_RUNTIME_BUTTON_RIGHT)
                 then Z.lor smbMask kSmbButtonRight else smbMask in
  let smbMask := if nonzero (Z.land runtimeMask SMOLNES_RUNTIME_BUTTON_LEFT)
                 then Z.lor smbMask kSmbButtonLeft else smbMask in
  let smbMask := if nonzero (Z.land runtimeMask SMOLNES_RUNTIME_BUTTON_DOWN)
                 then Z.lor smbMask kSmbButtonDown else smbMask in
  let smbMask := if nonzero (Z.land runtimeMask SMOLNES_RUNTIME_BUTTON_UP)
                 then Z.lor smbMask kSmbButtonUp else smbMask in
  let smbMask := if nonzero (Z.land runtimeMask SMOLNES_RUNTIME_BUTTON_START)
                 then Z.lor smbMask kSmbButtonStart else smbMask in
  let smbMask := if nonzero (Z.land runtimeMask SMOLNES_RUNTIME_BUTTON_SELECT)
                 then Z.lor smbMask kSmbButtonSelect else smbMask in
  let smbMask := if nonzero (Z.land runtimeMask SMOLNES_RUNTIME_BUTTON_B)
                 then Z.lor smbMask kSmbButtonB else smbMask in
  if nonzero (Z.land runtimeMask SMOLNES_RUNTIME_BUTTON_A) then Z.lor smbMask kSmbButtonA else smbMask.

Definition isExpectedGameInputCopied (baselineGameInputMask expectedGameInputMask currentGameInputMask : Z) : bool :=
  if expectedGameInputMask =? 0 then false
  else if negb (Z.land currentGameInputMask expectedGameInputMask =? expectedGameInputMask) then false
  else if Z.land baselineGameInputMask expectedGameInputMask =? 0 then true
  else negb (currentGameInputMask =? baselineGameInputMask).

Definition isDuckEligible (baselineState : NesSuperMarioBrosState.t) : bool :=
  negb (NesSuperMarioBrosState.airborne baselineState)
  && negb (bool_decide (NesSuperMarioBrosState.powerupState baselineState = SmbPowerupState.Small)).

Definition classifyJumpContext (baselineState : NesSuperMarioBrosState.t) : ResponseContext.t :=
  if fge (f64_abs (NesSuperMarioBrosState.horizontalSpeedNormalized baselineState))
       kHorizontalSpeedCommittedThreshold
  then ResponseContext.RunningJump else ResponseContext.StandingJump.

Definition classifyMoveLeftContext (baselineState : NesSuperMarioBrosState.t)
    (baselineFacingDirection baselineMovementDirection : FacingDirection.t) : option ResponseContext.t :=
  if NesSuperMarioBrosState.airborne baselineState then None
  else if fle (NesSuperMarioBrosState.horizontalSpeedNormalized baselineState)
            (SFopp kHorizontalSpeedCommittedThreshold) then None
  else if fge (NesSuperMarioBrosState.horizontalSpeedNormalized baselineState)
            kHorizontalSpeedCommittedThreshold
          || bool_decide (baselineFacingDirection = FacingDirection.Right)
          || bool_decide (baselineMovementDirection = FacingDirection.Right)
  then Some ResponseContext.GroundedTurnaround
  else Some ResponseContext.GroundedStart.

Definition classifyMoveRightContext (baselineState : NesSuperMarioBrosState.t)
    (baselineFacingDirection baselineMovementDirection : FacingDirection.t) : option ResponseContext.t :=
  if NesSuperMarioBrosState.airborne baselineState then None
  else if fge (NesSuperMarioBrosState.horizontalSpeedNormalized baselineState)
            kHorizontalSpeedCommittedThreshold then None
  else if fle (NesSuperMarioBrosState.horizontalSpeedNormalized baselineState)
            (SFopp kHorizontalSpeedCommittedThreshold)
          || bool_decide (baselineFacingDirection = FacingDirection.Left)
          || bool_decide (baselineMovementDirection = FacingDirection.Left)
  then Some ResponseContext.GroundedTurnaround
  else Some ResponseContext.GroundedStart.

Definition isJumpResponse (baselineFloatState : Z) (baselineState : NesSuperMarioBrosState.t)
    (currentFloatState : Z) (currentState : NesSuperMarioBrosState.t) : bool :=
  if isGroundedFloatState baselineFloatState && isAirborneFloatState currentFloatState then true
  else if NesSuperMarioBrosState.airborne currentState
          && negb (NesSuperMarioBrosState.airborne baselineState) then true
  else if fgt (f64_sub (NesSuperMarioBrosState.verticalSpeedNormalized baselineState)
                 (NesSuperMarioBrosState.verticalSpeedNormalized currentState))
            kVerticalSpeedResponseThreshold then true
  else NesSuperMarioBrosState.playerYScreen currentState
         <? NesSuperMarioBrosState.playerYScreen baselineState.

Definition isDuckResponse (baselineDucking : bool) (currentSnapshot : MemorySnapshot) : res bool :=
  if baselineDucking then Ok false else isDucking currentSnapshot.

Record MoveMilestones := mkMoveMilestones {
  acknowledge : bool;
  commit : bool;
  motion : bool
}.

Definition detectMoveLeftMilestones (context : ResponseContext.t)
    (baselineFacingDirection baselineMovementDirection : FacingDirection.t)
    (baselineState : NesSuperMarioBrosState.t)
    (currentFacingDirection currentMovementDirection : FacingDirection.t)
    (currentState : NesSuperMarioBrosState.t) : MoveMilestones :=
  let baselineSpeed := NesSuperMarioBrosState.horizontalSpeedNormalized baselineState in
  let currentSpeed := NesSuperMarioBrosState.horizontalSpeedNormalized currentState in
  let acknowledge :=
    bool_decide (context = ResponseContext.GroundedTurnaround)
    && bool_decide (currentFacingDirection = FacingDirection.Left)
    && negb (bool_decide (baselineFacingDirection = FacingDirection.Left)) in
  let commit :=
    bool_decide (currentMovementDirection = FacingDirection.Left)
    && negb (bool_decide (baselineMovementDirection = FacingDirection.Left)) in
  let motion :=
    fgt (f64_sub baselineSpeed currentSpeed) kHorizontalSpeedResponseThreshold
    && flt currentSpeed (SFopp kHorizontalSpeedResponseThreshold) in
  let motion :=
    if (NesSuperMarioBrosState.absoluteX currentState <? NesSuperMarioBrosState.absoluteX baselineState)
       && fge baselineSpeed (SFopp kHorizontalSpeedResponseThreshold) then true else motion in
  let acknowledge :=
    if bool_decide (context = ResponseContext.GroundedStart) && (commit || motion) then false
    else acknowledge in
  mkMoveMilestones acknowledge commit motion.

Definition detectMoveRightMilestones (context : ResponseContext.t)
    (baselineFacingDirection baselineMovementDirection : FacingDirection.t)
    (baselineState : NesSuperMarioBrosState.t)
    (currentFacingDirection currentMovementDirection : FacingDirection.t)
    (currentState : NesSuperMarioBrosState.t) : MoveMilestones :=
  let baselineSpeed := NesSuperMarioBrosState.horizontalSpeedNormalized baselineState in
  let currentSpeed := NesSuperMarioBrosState.horizontalSpeedNormalized currentState in
  let acknowledge :=
    bool_decide (context = ResponseContext.GroundedTurnaround)
    && bool_decide (currentFacingDirection = FacingDirection.Right)
    && negb (bool_decide (baselineFacingDirection = FacingDirection.Right)) in
  let commit :=
    bool_decide (currentMovementDirection = FacingDirection.Right)
    && negb (bool_decide (baselineMovementDirection = FacingDirection.Right)) in
  let motion :=
    fgt (f64_sub currentSpeed baselineSpeed) kHorizontalSpeedResponseThreshold
    && fgt currentSpeed kHorizontalSpeedResponseThreshold in
  let motion :=
    if (NesSuperMarioBrosState.absoluteX baselineState <? NesSuperMarioBrosState.absoluteX currentState)
       && fle baselineSpeed kHorizontalSpeedResponseThreshold then true else motion in
  let acknowledge :=
    if bool_decide (context = ResponseContext.GroundedStart) && (commit || motion) then false
    else acknowledge in
  mkMoveMilestones acknowledge commit motion.

Definition responseKindIndex (kind : ResponseKind.t) : nat :=
  match kind with
  | ResponseKind.Jump => 0
  | ResponseKind.MoveLeft => 1
  | ResponseKind.MoveRight => 2
  | ResponseKind.Duck => 3
  end.

(** [isProbeComplete]. *)
Definition isProbeComplete (p : PendingProbe.t) : bool :=
  match PendingProbe.kind p with
  | ResponseKind.Jump | ResponseKind.Duck => PendingProbe.acknowledgeEmitted p
  | ResponseKind.MoveLeft | ResponseKind.MoveRight =>
      if bool_decide (PendingProbe.context p = ResponseContext.GroundedTurnaround) then
        PendingProbe.acknowledgeEmitted p && PendingProbe.commitEmitted p && PendingProbe.motionEmitted p
      else PendingProbe.commitEmitted p || PendingProbe.motionEmitted p
  end.

(** [clockReads_] counts the readings of the steady clock so far. *)
Record t := mk {
  pendingProbes_ : list (option PendingProbe.t);
  pendingTelemetry_ : list ResponseTelemetry.t;
  lastState_ : option NesSuperMarioBrosState.t;
  lastFacingDirection_ : FacingDirection.t;
  lastFloatState_ : Z;
  lastMovementDirection_ : FacingDirection.t;
  lastGameInputMask_ : Z;
  lastDucking_ : bool;
  lastControllerMask_ : Z;
  lastControllerSequenceId_ : Z;
  nextResponseEventId_ : Z;
  clockReads_ : nat
}.

(** A default-constructed probe. *)
Definition default : t :=
  mk (replicate 4 None) [] None FacingDirection.Unknown 0 FacingDirection.Unknown 0 false 0 0 1 0.

Definition reset (s : t) : t :=
  mk (map (fun _ => None) (pendingProbes_ s)) [] None FacingDirection.Unknown 0 FacingDirection.Unknown
    0 false 0 0 1 (clockReads_ s).

Definition set_pendingProbes_ (v : list (option PendingProbe.t)) (s : t) : t :=
  mk v (pendingTelemetry_ s) (lastState_ s) (lastFacingDirection_ s) (lastFloatState_ s)
    (lastMovementDirection_ s) (lastGameInputMask_ s) (lastDucking_ s) (lastControllerMask_ s)
    (lastControllerSequenceId_ s) (nextResponseEventId_ s) (clockReads_ s).
Definition set_controller (mask sequenceId : Z) (s : t) : t :=
  mk (pendingProbes_ s) (pendingTelemetry_ s) (lastState_ s) (lastFacingDirection_ s) (lastFloatState_ s)
    (lastMovementDirection_ s) (lastGameInputMask_ s) (lastDucking_ s) mask sequenceId
    (nextResponseEventId_ s) (clockReads_ s).
Definition set_pendingTelemetry_ (v : list ResponseTelemetry.t) (s : t) : t :=
  mk (pendingProbes_ s) v (lastState_ s) (lastFacingDirection_ s) (lastFloatState_ s)
    (lastMovementDirection_ s) (lastGameInputMask_ s) (lastDucking_ s) (lastControllerMask_ s)
    (lastControllerSequenceId_ s) (nextResponseEventId_ s) (clockReads_ s).

(** ** One frame *)
(** What the frame shows of the game. *)
Record Current := mkCurrent {
  frameId : Z;
  currentFloatState : Z;
  currentGameInputMask : Z;
  currentState : NesSuperMarioBrosState.t;
  currentFacingDirection : FacingDirection.t;
  currentMovementDirection : FacingDirection.t;
  snapshot : MemorySnapshot
}.

(** A probe whose deadline has passed is dropped. *)
Definition expire (frameId : Z) (probe : option PendingProbe.t) : option PendingProbe.t :=
  match probe with
  | Some p => if PendingProbe.deadlineFrameId p <? frameId then None else Some p
  | None => None
  end.

(** The telemetry of a live input that can be traced to its request. *)
Record LiveButtons := mkLiveButtons {
  li_sequenceId : Z;
  li_requestTimestampNs : Z;
  li_latchTimestampNs : Z;
  li_observedTimestampNs : Z;
  li_appliedFrameId : Z;
  li_mask : Z
}.

Definition liveInput (frameId : Z) (controllerTelemetry : option NesControllerTelemetry.t) : option LiveButtons :=
  match controllerTelemetry with
  | None => None
  | Some c =>
      if negb (bool_decide (NesControllerTelemetry.controllerSource c = LiveInput)) then None
      else
        match NesControllerTelemetry.controllerSequenceId c,
              NesControllerTelemetry.controllerRequestTimestampNs c,
              NesControllerTelemetry.controllerLatchTimestampNs c with
        | Some sequenceId, Some request, Some latch =>
            let applied := value_or (NesControllerTelemetry.controllerAppliedFrameId c) frameId in
            Some (mkLiveButtons sequenceId request latch
              (value_or (NesControllerTelemetry.controllerObservedTimestampNs c) 0)
              (if applied =? 0 then frameId else applied) (NesControllerTelemetry.resolvedControllerMask c))
        | _, _, _ => None
        end
  end.

(** [PendingProbe{...}], armed by a press. *)
Definition armedProbe (s : t) (last : NesSuperMarioBrosState.t) (frameId : Z) (input : LiveButtons)
    (kind : ResponseKind.t) (context : ResponseContext.t) (button : Z) (baselineDucking : bool)
    : PendingProbe.t :=
  PendingProbe.mk kind context (li_sequenceId input) (li_appliedFrameId input) (li_observedTimestampNs input)
    (li_requestTimestampNs input) (li_latchTimestampNs input) (u64 (frameId + kResponseProbeTimeoutFrames))
    (lastFacingDirection_ s) (lastMovementDirection_ s) (lastFloatState_ s) (lastGameInputMask_ s)
    (smbButtonsMaskFromRuntimeMask button) last baselineDucking false false 0 0 false false.

Definition putProbe (p : PendingProbe.t) (s : t) : t :=
  set_pendingProbes_ (<[responseKindIndex (PendingProbe.kind p) := Some p]> (pendingProbes_ s)) s.

(** The newly pressed buttons arm their probes. *)
Definition armProbes (last : NesSuperMarioBrosState.t) (frameId : Z) (input : LiveButtons) (addedMask : Z) (s : t) : t :=
  let arm := armedProbe s last frameId input in
  let conflict := hasConflictingHorizontalInput (li_mask input) in
  let s :=
    if nonzero (Z.land addedMask SMOLNES_RUNTIME_BUTTON_A) && isGroundedFloatState (lastFloatState_ s)
    then putProbe (arm ResponseKind.Jump (classifyJumpContext last) SMOLNES_RUNTIME_BUTTON_A false) s
    else s in
  let s :=
    if nonzero (Z.land addedMask SMOLNES_RUNTIME_BUTTON_DOWN) && isDuckEligible last
    then putProbe (arm ResponseKind.Duck ResponseContext.GroundedDuck SMOLNES_RUNTIME_BUTTON_DOWN (lastDucking_ s)) s
    else s in
  let s :=
    if negb conflict && nonzero (Z.land addedMask SMOLNES_RUNTIME_BUTTON_LEFT) then
      match classifyMoveLeftContext last (lastFacingDirection_ s) (lastMovementDirection_ s) with
      | Some context =>
          putProbe (arm ResponseKind.MoveLeft context SMOLNES_RUNTIME_BUTTON_LEFT (lastDucking_ s)) s
      | None => s
      end
    else s in
  if negb conflict && nonzero (Z.land addedMask SMOLNES_RUNTIME_BUTTON_RIGHT) then
    match classifyMoveRightContext last (lastFacingDirection_ s) (lastMovementDirection_ s) with
    | Some context =>
        putProbe (arm ResponseKind.MoveRight context SMOLNES_RUNTIME_BUTTON_RIGHT (lastDucking_ s)) s
    | None => s
    end
  else s.

(** [if (controllerTelemetry.has_value() && ...) { ... }]. *)
Definition noteController (frameId : Z) (controllerTelemetry : option NesControllerTelemetry.t) (s : t) : t :=
  match liveInput frameId controllerTelemetry with
  | None => s
  | Some input =>
      if li_sequenceId input =? lastControllerSequenceId_ s then
        set_controller (li_mask input) (lastControllerSequenceId_ s) s
      else
        let addedMask := Z.land (li_mask input) (u8 (Z.lnot (lastControllerMask_ s))) in
        let s :=
          match lastState_ s with
          | Some last => if isGameplayStateEligible last then armProbes last frameId input addedMask s else s
          | None => s
          end in
        set_controller (li_mask input) (li_sequenceId input) s
  end.

(** ** Detecting responses *)
Section Detect.
Context (steadyClockNowNs : nat -> Z).

(** The queue, the next event id and the clock, as the loop over the probes
    threads them. *)
Record Emitter := mkEmitter {
  em_queue : list ResponseTelemetry.t;
  em_nextId : Z;
  em_reads : nat
}.

Definition enqueueTelemetry (frameId : Z) (p : PendingProbe.t) (milestone : ResponseMilestone.t) (em : Emitter) : Emitter :=
  mkEmitter
    (em_queue em ++
       [ResponseTelemetry.mk (PendingProbe.kind p) (PendingProbe.context p) milestone (em_nextId em)
          (PendingProbe.controllerSequenceId p) (PendingProbe.controllerAppliedFrameId p) frameId
          (PendingProbe.controllerObservedTimestampNs p) (PendingProbe.controllerRequestTimestampNs p)
          (PendingProbe.controllerLatchTimestampNs p) (PendingProbe.gameInputCopiedFrameId p)
          (PendingProbe.gameInputCopiedTimestampNs p) (steadyClockNowNs (em_reads em))])
    (u64 (em_nextId em + 1)) (S (em_reads em)).

(** [if (condition) { enqueueTelemetry(...); ...Emitted = true; }]. *)
Definition emitIf (condition : bool) (frameId : Z) (milestone : ResponseMilestone.t)
    (st : PendingProbe.t * Emitter) : PendingProbe.t * Emitter :=
  let '(p, em) := st in
  if condition then (PendingProbe.emitted milestone p, enqueueTelemetry frameId p milestone em) else st.

(** The milestones of a move, as both move cases emit them. *)
Definition emitMove (milestones : MoveMilestones) (frameId : Z) (st : PendingProbe.t * Emitter)
    : PendingProbe.t * Emitter :=
  let st := emitIf (negb (PendingProbe.acknowledgeEmitted (fst st)) && acknowledge milestones) frameId
              ResponseMilestone.Acknowledge st in
  let p := fst st in
  if negb (bool_decide (PendingProbe.context p = ResponseContext.GroundedTurnaround)) then
    if negb (PendingProbe.commitEmitted p) && negb (PendingProbe.motionEmitted p) && commit milestones then
      emitIf true frameId ResponseMilestone.Commit st
    else emitIf (negb (PendingProbe.motionEmitted p) && motion milestones) frameId ResponseMilestone.Motion st
  else
    let st := emitIf (negb (PendingProbe.commitEmitted (fst st)) && commit milestones) frameId
                ResponseMilestone.Commit st in
    emitIf (negb (PendingProbe.motionEmitted (fst st)) && motion milestones) frameId
      ResponseMilestone.Motion st.

Definition noteCopied (c : Current) (st : PendingProbe.t * Emitter) : PendingProbe.t * Emitter :=
  let '(p, em) := st in
  if negb (PendingProbe.gameInputCopied p)
     && isExpectedGameInputCopied (PendingProbe.baselineGameInputMask p) (PendingProbe.expectedGameInputMask p)
          (currentGameInputMask c)
  then (PendingProbe.copied (frameId c) (steadyClockNowNs (em_reads em)) p,
        mkEmitter (em_queue em) (em_nextId em) (S (em_reads em)))
  else st.

(** The body of the loop over the pending probes. *)
Definition processProbe (c : Current) (p : PendingProbe.t) (em : Emitter) : res (option PendingProbe.t * Emitter) :=
  let st := noteCopied c (p, em) in
  let p := fst st in
  let! st :=
    match PendingProbe.kind p with
    | ResponseKind.Jump =>
        Ok (emitIf (negb (PendingProbe.acknowledgeEmitted p)
                    && isJumpResponse (PendingProbe.baselineFloatState p) (PendingProbe.baselineState p)
                         (currentFloatState c) (currentState c))
              (frameId c) ResponseMilestone.Acknowledge st)
    | ResponseKind.MoveLeft =>
        Ok (emitMove (detectMoveLeftMilestones (PendingProbe.context p) (PendingProbe.baselineFacingDirection p)
                        (PendingProbe.baselineMovementDirection p) (PendingProbe.baselineState p)
                        (currentFacingDirection c) (currentMovementDirection c) (currentState c))
              (frameId c) st)
    | ResponseKind.MoveRight =>
        Ok (emitMove (detectMoveRightMilestones (PendingProbe.context p) (PendingProbe.baselineFacingDirection p)
                        (PendingProbe.baselineMovementDirection p) (PendingProbe.baselineState p)
                        (currentFacingDirection c) (currentMovementDirection c) (currentState c))
              (frameId c) st)
    | ResponseKind.Duck =>
        if negb (PendingProbe.acknowledgeEmitted p) then
          let! ducked := isDuckResponse (PendingProbe.baselineDucking p) (snapshot c) in
          Ok (emitIf ducked (frameId c) ResponseMilestone.Acknowledge st)
        else Ok st
    end in
  let '(p, em) := st in
  Ok (if isProbeComplete p then None else Some p, em).

(** [for (auto& pendingProbe : pendingProbes_)]. *)
Fixpoint processProbes (c : Current) (probes : list (option PendingProbe.t)) (em : Emitter)
    : res (list (option PendingProbe.t) * Emitter) :=
  match probes with
  | [] => Ok ([], em)
  | None :: probes' =>
      let! r := processProbes c probes' em in
      let '(rest, em) := r in Ok (None :: rest, em)
  | Some p :: probes' =>
      let! r := processProbe c p em in
      let '(slot, em) := r in
      let! r := processProbes c probes' em in
      let '(rest, em) := r in Ok (slot :: rest, em)
  end.

(** [if (isGameplayStateEligible(currentState)) { ... }]. *)
Definition detectResponses (c : Current) (s : t) : res t :=
  if isGameplayStateEligible (currentState c) then
    let! r := processProbes c (pendingProbes_ s)
                (mkEmitter (pendingTelemetry_ s) (nextResponseEventId_ s) (clockReads_ s)) in
    let '(probes, em) := r in
    Ok (mk probes (em_queue em) (lastState_ s) (lastFacingDirection_ s) (lastFloatState_ s)
          (lastMovementDirection_ s) (lastGameInputMask_ s) (lastDucking_ s) (lastControllerMask_ s)
          (lastControllerSequenceId_ s) (em_nextId em) (em_reads em))
  else Ok s.

Definition remember (c : Current) (ducking : bool) (s : t) : t :=
  mk (pendingProbes_ s) (pendingTelemetry_ s) (Some (currentState c)) (currentFacingDirection c)
    (currentFloatState c) (currentMovementDirection c) (currentGameInputMask c) ducking
    (lastControllerMask_ s) (lastControllerSequenceId_ s) (nextResponseEventId_ s) (clockReads_ s).

Definition observeFrame (frameId : Z) (snapshot : MemorySnapshot)
    (controllerTelemetry : option NesControllerTelemetry.t) (s : t) : res (t * option ResponseTelemetry.t) :=
  let setupComplete := SetupPolicy.getNesSuperMarioBrosSetupScriptEndFrame <=? frameId in
  let! currentFloatState := NesSuperMarioBrosRamExtractor.ram_at snapshot kFloatStateAddr in
  let! currentGameInputMask := NesSuperMarioBrosRamExtractor.ram_at snapshot kPlayerOneButtonsPressedAddr in
  let! currentState := NesSuperMarioBrosRamExtractor.extract snapshot setupComplete in
  let! currentFacingDirection := decodeFacingDirection snapshot in
  let! currentMovementDirection := decodeMovementDirection snapshot in
  let c := mkCurrent frameId currentFloatState currentGameInputMask currentState currentFacingDirection
             currentMovementDirection snapshot in
  let s := set_pendingProbes_ (map (expire frameId) (pendingProbes_ s)) s in
  let s := noteController frameId controllerTelemetry s in
  let! s := detectResponses c s in
  let! ducking := isDucking snapshot in
  let s := remember c ducking s in
  match pendingTelemetry_ s with
  | [] => Ok (s, None)
  | telemetry :: rest => Ok (set_pendingTelemetry_ rest s, Some telemetry)
  end.
End Detect.

End NesSuperMarioBrosResponseProbe.
