(* ===== verification/SmbResponseFacts.v ===== *)
(** What the response probe reports: the events it emits, frame by frame, the
    order and the numbering in which it hands them out, and that each press is
    answered at most once per milestone and in time. *)

From Stdlib Require Import ZArith Lia Bool String.
From stdpp Require Import base gmap option numbers list.
From S2P Require Import Prelude Ieee NesTypes SmbEvaluator SmbRam SmbAdapter SmbResponse.

Set Default Goal Selector "!".

(** ** One probe *)
Section Probe.
Context (steadyClockNowNs : nat -> Z).
Import NesSuperMarioBrosResponseProbe.
Implicit Types (p : PendingProbe.t) (em : Emitter) (m : ResponseMilestone.t) (e : ResponseTelemetry.t).
Implicit Types (ms : list ResponseMilestone.t) (evs log : list ResponseTelemetry.t).

Definition flag m p : bool :=
  match m with
  | ResponseMilestone.Acknowledge => PendingProbe.acknowledgeEmitted p
  | ResponseMilestone.Commit => PendingProbe.commitEmitted p
  | ResponseMilestone.Motion => PendingProbe.motionEmitted p
  end.

Definition turnaround p : bool := bool_decide (PendingProbe.context p = ResponseContext.GroundedTurnaround).

(** When the press was applied, observed, requested and latched. *)
Definition times p : Z * Z * Z * Z :=
  (PendingProbe.controllerAppliedFrameId p, PendingProbe.controllerObservedTimestampNs p,
   PendingProbe.controllerRequestTimestampNs p, PendingProbe.controllerLatchTimestampNs p).

Definition event_times e : Z * Z * Z * Z :=
  (ResponseTelemetry.controllerAppliedFrameId e, ResponseTelemetry.controllerObservedTimestampNs e,
   ResponseTelemetry.controllerRequestTimestampNs e, ResponseTelemetry.controllerLatchTimestampNs e).

(** The press a probe measures. *)
Record same_press p p' : Prop := mkSamePress {
  sp_kind : PendingProbe.kind p' = PendingProbe.kind p;
  sp_context : PendingProbe.context p' = PendingProbe.context p;
  sp_seq : PendingProbe.controllerSequenceId p' = PendingProbe.controllerSequenceId p;
  sp_deadline : PendingProbe.deadlineFrameId p' = PendingProbe.deadlineFrameId p;
  sp_times : times p' = times p
}.

#[global] Instance same_press_preorder : PreOrder same_press.
Proof. split; [by split |]. intros p1 p2 p3 [] []. split; congruence. Qed.

(** The event that reports milestone [m] of [p]. *)
Record reports (frameId : Z) p m e : Prop := mkReports {
  rp_kind : ResponseTelemetry.kind e = PendingProbe.kind p;
  rp_context : ResponseTelemetry.context e = PendingProbe.context p;
  rp_milestone : ResponseTelemetry.milestone e = m;
  rp_seq : ResponseTelemetry.controllerSequenceId e = PendingProbe.controllerSequenceId p;
  rp_frame : ResponseTelemetry.responseFrameId e = frameId;
  rp_times : event_times e = times p
}.

(** Events numbered from [n] on, with 64-bit wrap-around, up to [n']. *)
Fixpoint numbered (n : Z) evs (n' : Z) : Prop :=
  match evs with
  | [] => n' = n
  | e :: evs' => ResponseTelemetry.responseEventId e = n /\ numbered (u64 (n + 1)) evs' n'
  end.

Lemma numbered_app n evs1 n1 evs2 n2 : numbered n evs1 n1 -> numbered n1 evs2 n2 -> numbered n (evs1 ++ evs2) n2.
Proof.
  revert n. induction evs1 as [| e evs1 IH]; intros n; simpl; [by intros -> |].
  intros [He H1] H2. split; [done |]. by apply IH.
Qed.

(** From [p] with emitter [em] to [p'] with [em'], emitting the milestones [ms]. *)
Record emits (frameId : Z) p em ms p' em' : Prop := mkEmits {
  ems_press : same_press p p';
  ems_flags : forall m, flag m p' = flag m p || bool_decide (m ∈ ms);
  ems_new : forall m, m ∈ ms -> flag m p = false;
  ems_nodup : NoDup ms;
  ems_queue : exists evs, em_queue em' = em_queue em ++ evs /\ Forall2 (reports frameId p) ms evs /\
    numbered (em_nextId em) evs (em_nextId em')
}.

Lemma reports_press frameId p p' m e : same_press p p' -> reports frameId p' m e -> reports frameId p m e.
Proof. intros [] []. split; congruence. Qed.

Lemma emits_trans f p em ms1 p1 em1 ms2 p2 em2 :
  emits f p em ms1 p1 em1 -> emits f p1 em1 ms2 p2 em2 -> emits f p em (ms1 ++ ms2) p2 em2.
Proof.
  intros [P1 F1 N1 D1 (e1 & Q1 & R1 & I1)] [P2 F2 N2 D2 (e2 & Q2 & R2 & I2)]. split.
  - by etrans.
  - intros m. rewrite F2, F1, <- orb_assoc. f_equal. rewrite <- bool_decide_or.
    apply bool_decide_ext. by rewrite elem_of_app.
  - intros m [Hm | Hm]%elem_of_app; [by apply N1 |]. specialize (N2 m Hm). rewrite F1 in N2.
    by apply orb_false_iff in N2 as [? _].
  - apply NoDup_app. split; [done |]. split; [| done]. intros m H1 H2. specialize (N2 m H2). rewrite F1 in N2.
    apply orb_false_iff in N2 as [_ N2]. by apply bool_decide_eq_false in N2.
  - exists (e1 ++ e2). rewrite Q2, Q1, app_assoc. split; [done |]. split; [| by eapply numbered_app].
    apply Forall2_app; [done |]. eapply Forall2_impl; [exact R2 |]. intros m e. by apply reports_press.
Qed.

Lemma noteCopied_emits c p em :
  let '(p', em') := noteCopied steadyClockNowNs c (p, em) in emits (frameId c) p em [] p' em'.
Proof.
  unfold noteCopied. destruct (_ && _); (split; [by split | | by intros m ?%elem_of_nil | constructor |]).
  1,3: intros m; rewrite bool_decide_eq_false_2 by (apply not_elem_of_nil); by destruct m; rewrite orb_false_r.
  all: exists []; rewrite app_nil_r; by split; [| split; [constructor |]].
Qed.

Lemma emitIf_emits (b : bool) f m p em :
  (b = true -> flag m p = false) ->
  let '(p', em') := emitIf steadyClockNowNs b f m (p, em) in
  emits f p em (if b then [m] else []) p' em'.
Proof.
  intros Hb. unfold emitIf. destruct b.
  - split.
    + by split.
    + intros m'. destruct m, m'; simpl; by rewrite ?orb_true_r, ?orb_false_r.
    + intros m' ->%list_elem_of_singleton. by apply Hb.
    + apply NoDup_singleton.
    + eexists. split; [done |]. split; [| done]. apply Forall2_cons. split; [by split | constructor].
  - split; [by split | | by intros m' ?%elem_of_nil | constructor |].
    + intros m'. rewrite bool_decide_eq_false_2 by (apply not_elem_of_nil). by rewrite orb_false_r.
    + exists []. rewrite app_nil_r. by split; [| split; [constructor |]].
Qed.

(** Contexts that go with a kind of response. *)
Definition fits (k : ResponseKind.t) (c : ResponseContext.t) : Prop :=
  match k with
  | ResponseKind.Jump => c = ResponseContext.StandingJump \/ c = ResponseContext.RunningJump
  | ResponseKind.Duck => c = ResponseContext.GroundedDuck
  | ResponseKind.MoveLeft | ResponseKind.MoveRight =>
      c = ResponseContext.GroundedStart \/ c = ResponseContext.GroundedTurnaround
  end.

(** The milestones a response of kind [k] and context [c] can reach. *)
Definition reachable_milestone (k : ResponseKind.t) (c : ResponseContext.t) m : Prop :=
  match k with
  | ResponseKind.Jump | ResponseKind.Duck => m = ResponseMilestone.Acknowledge
  | ResponseKind.MoveLeft | ResponseKind.MoveRight =>
      c = ResponseContext.GroundedTurnaround \/ m <> ResponseMilestone.Acknowledge
  end.

(** A probe in its slot: only a turnaround outlives its first milestone. *)
Definition pending_ok p : Prop :=
  fits (PendingProbe.kind p) (PendingProbe.context p) /\ (turnaround p = false -> forall m, flag m p = false).

(** ** What a frame answers
    The milestones a frame shows of the press that [p] measures. *)
Definition shown (mil : MoveMilestones) m : bool :=
  match m with
  | ResponseMilestone.Acknowledge => acknowledge mil
  | ResponseMilestone.Commit => commit mil
  | ResponseMilestone.Motion => motion mil
  end.

(** A turnaround reports each milestone once, a start its first commit or motion. *)
Definition move_answers (mil : MoveMilestones) p : list ResponseMilestone.t :=
  if turnaround p then
    List.filter (fun m => negb (flag m p) && shown mil m)
      [ResponseMilestone.Acknowledge; ResponseMilestone.Commit; ResponseMilestone.Motion]
  else if commit mil then [ResponseMilestone.Commit]
  else if motion mil then [ResponseMilestone.Motion]
  else [].

Definition answers (c : Current) p : list ResponseMilestone.t :=
  match PendingProbe.kind p with
  | ResponseKind.Jump =>
      if isJumpResponse (PendingProbe.baselineFloatState p) (PendingProbe.baselineState p) (currentFloatState c)
           (currentState c)
      then [ResponseMilestone.Acknowledge] else []
  | ResponseKind.Duck =>
      if negb (PendingProbe.baselineDucking p) && (byte_at (snapshot c) kDuckingStateAddr =? kDuckingStateActive)
      then [ResponseMilestone.Acknowledge] else []
  | ResponseKind.MoveLeft =>
      move_answers (detectMoveLeftMilestones (PendingProbe.context p) (PendingProbe.baselineFacingDirection p)
        (PendingProbe.baselineMovementDirection p) (PendingProbe.baselineState p) (currentFacingDirection c)
        (currentMovementDirection c) (currentState c)) p
  | ResponseKind.MoveRight =>
      move_answers (detectMoveRightMilestones (PendingProbe.context p) (PendingProbe.baselineFacingDirection p)
        (PendingProbe.baselineMovementDirection p) (PendingProbe.baselineState p) (currentFacingDirection c)
        (currentMovementDirection c) (currentState c)) p
  end.

Definition probe_result (frameId : Z) p em ms (r : option PendingProbe.t * Emitter) : Prop :=
  let '(slot, em') := r in
  exists p', emits frameId p em ms p' em' /\
    (forall m, m ∈ ms -> reachable_milestone (PendingProbe.kind p) (PendingProbe.context p) m) /\
    (turnaround p = false -> (length ms <= 1)%nat) /\
    slot = (if isProbeComplete p' then None else Some p') /\
    (isProbeComplete p' = false -> pending_ok p').

(** What was emitted decides whether the probe stays. *)
Lemma finish_probe f p em ms p' em' :
  pending_ok p -> emits f p em ms p' em' ->
  (forall m, m ∈ ms -> reachable_milestone (PendingProbe.kind p) (PendingProbe.context p) m) ->
  (turnaround p = false -> (length ms <= 1)%nat) ->
  probe_result f p em ms (if isProbeComplete p' then None else Some p', em').
Proof.
  intros [Hfit Hfl] He Hm Hl. exists p'. do 4 (split; [done |]). intros Hc.
  pose proof (ems_press _ _ _ _ _ _ He) as [Hk Hx _ _ _]. split; [by rewrite Hk, Hx |].
  unfold turnaround. rewrite Hx. fold (turnaround p). intros Ht. specialize (Hfl Ht). specialize (Hl Ht).
  destruct ms as [| m0 [| m1 ms]]; [| | simpl in Hl; lia].
  { intros m. rewrite (ems_flags _ _ _ _ _ _ He), Hfl. done. }
  exfalso. pose proof (ems_flags _ _ _ _ _ _ He m0) as Hf0.
  rewrite bool_decide_eq_true_2, orb_true_r in Hf0 by (by left). specialize (Hm m0 ltac:(by left)).
  unfold isProbeComplete in Hc. rewrite Hk, Hx in Hc. unfold turnaround in Ht. rewrite Ht in Hc.
  apply bool_decide_eq_false in Ht. unfold reachable_milestone in Hm.
  destruct (PendingProbe.kind p).
  1,4: subst m0; simpl in Hf0; congruence.
  all: destruct Hm as [? | Hm]; [done |]; destruct m0; simpl in Hf0; [done | |];
    rewrite Hf0, ?orb_true_r in Hc; done.
Qed.

Lemma emits_other (b : bool) f m m' p em p' em' :
  emits f p em (if b then [m] else []) p' em' -> m' <> m -> flag m' p' = flag m' p.
Proof.
  intros He Hm. rewrite (ems_flags _ _ _ _ _ _ He), bool_decide_eq_false_2; [by rewrite orb_false_r |].
  destruct b; [by intros ->%list_elem_of_singleton | apply not_elem_of_nil].
Qed.

Lemma pending_not_turnaround p m : pending_ok p -> turnaround p = false -> flag m p = false.
Proof. intros [_ H] Ht. by apply H. Qed.

(** A move emits what its context allows. *)
Lemma emitMove_emits mil f p em :
  pending_ok p -> (turnaround p = false -> acknowledge mil = false) ->
  (PendingProbe.kind p = ResponseKind.MoveLeft \/ PendingProbe.kind p = ResponseKind.MoveRight) ->
  let '(p', em') := emitMove steadyClockNowNs mil f (p, em) in
  probe_result f p em (move_answers mil p) (if isProbeComplete p' then None else Some p', em').
Proof.
  intros Hok Hack Hk. unfold emitMove. cbn [fst].
  pose proof (emitIf_emits (negb (PendingProbe.acknowledgeEmitted p) && acknowledge mil) f
    ResponseMilestone.Acknowledge p em) as H1.
  destruct (emitIf _ _ _ _ (p, em)) as [p1 em1]. cbn [fst].
  specialize (H1 ltac:(simpl; by destruct (PendingProbe.acknowledgeEmitted p))).
  assert (bool_decide (PendingProbe.context p1 = ResponseContext.GroundedTurnaround) = turnaround p) as ->
    by (unfold turnaround; by rewrite (sp_context _ _ (ems_press _ _ _ _ _ _ H1))).
  assert (forall m, reachable_milestone (PendingProbe.kind p) (PendingProbe.context p) m <->
    turnaround p = true \/ m <> ResponseMilestone.Acknowledge) as Hreach.
  { intros m. unfold turnaround. rewrite bool_decide_eq_true. by destruct Hk as [-> | ->]. }
  destruct (turnaround p) eqn:Ht; cbn [negb].
  - pose proof (emitIf_emits (negb (PendingProbe.commitEmitted p1) && commit mil) f ResponseMilestone.Commit p1 em1) as H2.
    destruct (emitIf _ _ _ _ (p1, em1)) as [p2 em2]. cbn [fst].
    specialize (H2 ltac:(simpl; by destruct (PendingProbe.commitEmitted p1))).
    pose proof (emitIf_emits (negb (PendingProbe.motionEmitted p2) && motion mil) f ResponseMilestone.Motion p2 em2) as H3.
    destruct (emitIf _ _ _ _ (p2, em2)) as [p3 em3].
    specialize (H3 ltac:(simpl; by destruct (PendingProbe.motionEmitted p2))).
    replace (move_answers mil p) with
      ((if negb (PendingProbe.acknowledgeEmitted p) && acknowledge mil then [ResponseMilestone.Acknowledge] else []) ++
       (if negb (PendingProbe.commitEmitted p1) && commit mil then [ResponseMilestone.Commit] else []) ++
       (if negb (PendingProbe.motionEmitted p2) && motion mil then [ResponseMilestone.Motion] else [])).
    + eapply finish_probe; [done | eapply emits_trans; [exact H1 | eapply emits_trans; [exact H2 | exact H3]] | |].
      * intros m _. apply Hreach. by left.
      * by rewrite Ht.
    + change (PendingProbe.motionEmitted p2) with (flag ResponseMilestone.Motion p2).
      change (PendingProbe.commitEmitted p1) with (flag ResponseMilestone.Commit p1).
      rewrite (emits_other _ _ _ _ _ _ _ _ H2), !(emits_other _ _ _ _ _ _ _ _ H1) by done.
      unfold move_answers. rewrite Ht. cbn [flag shown List.filter].
      destruct (negb (PendingProbe.acknowledgeEmitted p) && acknowledge mil),
        (negb (PendingProbe.commitEmitted p) && commit mil), (negb (PendingProbe.motionEmitted p) && motion mil). all: reflexivity.
  - rewrite (Hack eq_refl), andb_false_r in H1. pose proof (fun m => pending_not_turnaround p m Hok Ht) as Hfl.
    assert (forall m, flag m p1 = false) as Hfl1.
    { intros m. rewrite (ems_flags _ _ _ _ _ _ H1), Hfl. by apply bool_decide_eq_false_2, not_elem_of_nil. }
    pose proof (Hfl1 ResponseMilestone.Commit) as HC. pose proof (Hfl1 ResponseMilestone.Motion) as HM. cbn [flag] in HC, HM.
    rewrite HC, HM. unfold move_answers. rewrite Ht. cbn [negb andb].
    destruct (commit mil).
    + pose proof (emitIf_emits true f ResponseMilestone.Commit p1 em1) as H2.
      destruct (emitIf _ _ _ _ (p1, em1)) as [p2 em2].
      specialize (H2 ltac:(done)).
      apply (finish_probe _ _ _ ([] ++ [ResponseMilestone.Commit]));
        [done | eapply emits_trans; [exact H1 | exact H2] | | by simpl; lia].
      intros m ->%list_elem_of_singleton. apply Hreach. by right.
    + pose proof (emitIf_emits (motion mil) f ResponseMilestone.Motion p1 em1) as H2.
      destruct (emitIf _ _ _ _ (p1, em1)) as [p2 em2].
      specialize (H2 ltac:(done)).
      apply (finish_probe _ _ _ ([] ++ (if motion mil then [ResponseMilestone.Motion] else [])));
        [done | eapply emits_trans; [exact H1 | exact H2] | |].
      * intros m. destruct (motion mil); simpl; [intros ->%list_elem_of_singleton | by intros ?%elem_of_nil].
        apply Hreach. by right.
      * intros _. destruct (motion mil); simpl; lia.
Qed.

Lemma left_acknowledge ctx bf bm bs cf cm cs :
  bool_decide (ctx = ResponseContext.GroundedTurnaround) = false ->
  acknowledge (detectMoveLeftMilestones ctx bf bm bs cf cm cs) = false.
Proof. intros H. unfold detectMoveLeftMilestones. cbn [acknowledge]. rewrite H. by destruct (_ && _). Qed.

Lemma right_acknowledge ctx bf bm bs cf cm cs :
  bool_decide (ctx = ResponseContext.GroundedTurnaround) = false ->
  acknowledge (detectMoveRightMilestones ctx bf bm bs cf cm cs) = false.
Proof. intros H. unfold detectMoveRightMilestones. cbn [acknowledge]. rewrite H. by destruct (_ && _). Qed.

Lemma pending_ok_press p p' : same_press p p' -> (forall m, flag m p' = flag m p) -> pending_ok p -> pending_ok p'.
Proof.
  intros [Hk Hx _ _ _] Hf [H1 H2]. split; [by rewrite Hk, Hx |]. unfold turnaround in *. rewrite Hx.
  intros Ht m. rewrite Hf. by apply H2.
Qed.

(** The result of a probe, seen from before its input was noted as copied. *)
Lemma probe_result_copied f p em p1 em1 ms r :
  emits f p em [] p1 em1 -> probe_result f p1 em1 ms r -> probe_result f p em ms r.
Proof.
  intros He. destruct r as [slot em']. intros (p' & He' & H1 & H2 & H3).
  pose proof (ems_press _ _ _ _ _ _ He) as [Hk Hx _ _ _]. exists p'.
  split; [by apply (emits_trans _ _ _ [] _ _ _ _ _ He He') |]. rewrite Hk, Hx in H1.
  unfold turnaround in *. rewrite Hx in H2. done.
Qed.

Lemma noteCopied_kept c p em :
  let p1 := fst (noteCopied steadyClockNowNs c (p, em)) in
  answers c p1 = answers c p /\ (forall m, flag m p1 = flag m p) /\ same_press p p1.
Proof.
  unfold noteCopied. destruct (_ && _); cbn [fst]; [| done].
  split; [done |]. split; [by intros [] | by split].
Qed.

Lemma isDucking_ok (s : MemorySnapshot) : isDucking s = Ok (byte_at s kDuckingStateAddr =? kDuckingStateActive).
Proof. unfold isDucking. by rewrite ram_at_ok. Qed.

Lemma processProbe_ok c p em :
  pending_ok p -> wp (processProbe steadyClockNowNs c p em) (probe_result (frameId c) p em (answers c p)).
Proof.
  intros Hok. unfold processProbe. pose proof (noteCopied_emits c p em) as Hc.
  pose proof (noteCopied_kept c p em) as (Ha & Hf & Hs).
  destruct (noteCopied steadyClockNowNs c (p, em)) as [p1 em1]. cbn [fst] in Ha, Hf, Hs |- *.
  assert (pending_ok p1) as Hok1 by (by eapply pending_ok_press).
  rewrite <- Ha. clear Ha. eapply wp_mono; [| intros r; by apply probe_result_copied]. clear Hc Hf Hs.
  assert (forall b : bool, PendingProbe.kind p1 = ResponseKind.Jump \/ PendingProbe.kind p1 = ResponseKind.Duck ->
    PendingProbe.acknowledgeEmitted p1 = false /\
    probe_result (frameId c) p1 em1 (if b then [ResponseMilestone.Acknowledge] else [])
      (let '(p', em') := emitIf steadyClockNowNs b (frameId c) ResponseMilestone.Acknowledge (p1, em1) in
       (if isProbeComplete p' then None else Some p', em'))) as Hack.
  { intros b Hk. assert (PendingProbe.acknowledgeEmitted p1 = false) as Hn.
    { destruct Hok1 as [Hfit Hfl]. apply (Hfl ltac:(unfold turnaround; apply bool_decide_eq_false;
        destruct Hk as [Hk | Hk]; rewrite Hk in Hfit; cbn in Hfit; intuition congruence) ResponseMilestone.Acknowledge). }
    split; [done |].
    pose proof (emitIf_emits b (frameId c) ResponseMilestone.Acknowledge p1 em1 ltac:(done)) as He.
    destruct (emitIf _ _ _ _ _) as [p' em']. eapply finish_probe; [done | exact He | |].
    - intros m. destruct b; [intros ->%list_elem_of_singleton | by intros ?%elem_of_nil]. by destruct Hk as [-> | ->].
    - destruct b; simpl; lia. }
  unfold answers. destruct (PendingProbe.kind p1) eqn:Hk.
  - destruct (Hack (isJumpResponse (PendingProbe.baselineFloatState p1) (PendingProbe.baselineState p1)
      (currentFloatState c) (currentState c))) as [-> H]; [by left |].
    cbn [rbind negb andb]. by destruct (emitIf _ _ _ _ _) as [p' em'].
  - cbn [rbind]. match goal with |- context [emitMove _ ?mil _ _] => pose proof (emitMove_emits mil (frameId c) p1 em1 Hok1) as H end.
    destruct (emitMove _ _ _ _) as [p' em']. apply H; [apply left_acknowledge | by left].
  - cbn [rbind]. match goal with |- context [emitMove _ ?mil _ _] => pose proof (emitMove_emits mil (frameId c) p1 em1 Hok1) as H end.
    destruct (emitMove _ _ _ _) as [p' em']. apply H; [apply right_acknowledge | by right].
  - destruct (Hack (negb (PendingProbe.baselineDucking p1) &&
      (byte_at (snapshot c) kDuckingStateAddr =? kDuckingStateActive))) as [-> H]; [by right |].
    unfold isDuckResponse. rewrite isDucking_ok. cbn [negb]. revert H.
    destruct (PendingProbe.baselineDucking p1); cbn [rbind negb andb]; by destruct (emitIf _ _ _ _ _) as [p' em'].
Qed.
End Probe.
