(* ===== verification/SmbResponseRuns.v ===== *)
(** The response probe over a run of frames: what each frame reports, the order
    in which the reports are handed out, and that a report answers a press, once
    per milestone and within the twelve frames a press is measured for. *)

From Stdlib Require Import ZArith Lia Bool String.
From stdpp Require Import base gmap option numbers list.
From S2P Require Import Prelude Ieee NesTypes SmbEvaluator SmbRam SmbAdapter SmbResponse SmbResponseFacts.

Set Default Goal Selector "!".

Import NesSuperMarioBrosResponseProbe.

(** ** The loop over the probes *)
Section Frame.
Context (steadyClockNowNs : nat -> Z).
Implicit Types (p : PendingProbe.t) (em : Emitter) (m : ResponseMilestone.t) (e : ResponseTelemetry.t).
Implicit Types (evs log : list ResponseTelemetry.t) (probes : list (option PendingProbe.t)).

(** The slots from [i] on hold probes of their kinds. *)
Definition slotted (i : nat) probes : Prop :=
  forall j p, probes !! j = Some (Some p) -> responseKindIndex (PendingProbe.kind p) = (i + j)%nat /\ pending_ok p.

Lemma slotted_tail i o probes : slotted i (o :: probes) -> slotted (S i) probes.
Proof. intros H j p Hj. destruct (H (S j) p Hj) as [H1 H2]. split; [lia | done]. Qed.

(** What a frame reports of the probes in [probes], slot by slot. *)
Definition frame_answers (c : Current) probes : list (PendingProbe.t * ResponseMilestone.t) :=
  concat (map (fun o => match o with Some p => map (pair p) (answers c p) | None => [] end) probes).

Definition reported (frameId : Z) (x : PendingProbe.t * ResponseMilestone.t) e : Prop :=
  reports frameId (fst x) (snd x) e.

(** What becomes of a slot in a frame. *)
Definition slot_step (c : Current) (o o' : option PendingProbe.t) : Prop :=
  match o with
  | None => o' = None
  | Some p => exists p', same_press p p' /\
      (forall m, flag m p' = flag m p || bool_decide (m ∈ answers c p)) /\
      o' = (if isProbeComplete p' then None else Some p') /\
      (isProbeComplete p' = false -> pending_ok p')
  end.

Lemma reports_pairs f p ms evs :
  Forall2 (reports f p) ms evs -> Forall2 (reported f) (map (pair p) ms) evs.
Proof. induction 1; constructor; done. Qed.

Lemma reports_pairs_inv f p ms evs :
  Forall2 (reported f) (map (pair p) ms) evs -> Forall2 (reports f p) ms evs.
Proof.
  revert evs. induction ms as [| m ms IH]; intros evs H; cbn in H.
  - apply Forall2_nil_inv_l in H as ->. constructor.
  - apply Forall2_cons_inv_l in H as (e & evs' & He & H & ->). constructor; [done | by apply IH].
Qed.

Lemma processProbes_ok c i probes em :
  slotted i probes ->
  wp (processProbes steadyClockNowNs c probes em) (fun '(probes', em') => exists evs,
    em_queue em' = em_queue em ++ evs /\ numbered (em_nextId em) evs (em_nextId em') /\
    Forall2 (reported (frameId c)) (frame_answers c probes) evs /\
    Forall2 (slot_step c) probes probes').
Proof.
  revert i em. induction probes as [| [p |] probes IH]; intros i em Hs; cbn [processProbes].
  - apply wp_ok. exists []. rewrite app_nil_r. repeat split; constructor.
  - apply wp_bind. destruct (Hs 0%nat p eq_refl) as [_ Hp].
    eapply wp_mono; [by apply processProbe_ok |]. intros [slot em1] (p' & He & _ & _ & Hslot & Hok).
    apply wp_bind. eapply wp_mono; [apply (IH (S i)); by eapply slotted_tail |].
    intros [rest em2] (evs2 & Hq2 & Hn2 & Hr2 & Hs2). apply wp_ok.
    destruct (ems_queue _ _ _ _ _ _ He) as (evs1 & Hq1 & Hr1 & Hn1). exists (evs1 ++ evs2).
    split; [by rewrite Hq2, Hq1, app_assoc |]. split; [by eapply numbered_app |]. split.
    + apply Forall2_app; [by apply reports_pairs | done].
    + constructor; [| done]. exists p'. split; [by apply (ems_press _ _ _ _ _ _ He) |].
      split; [by apply (ems_flags _ _ _ _ _ _ He) | done].
  - apply wp_bind. eapply wp_mono; [apply (IH (S i)); by eapply slotted_tail |].
    intros [rest em2] (evs2 & Hq2 & Hn2 & Hr2 & Hs2). apply wp_ok. exists evs2.
    split; [done |]. split; [done |]. split; [done | by constructor].
Qed.

(** The answers of a waiting probe are new, distinct, and of its context. *)
Lemma answers_ok c p :
  pending_ok p ->
  (forall m, m ∈ answers c p -> flag m p = false /\ reachable_milestone (PendingProbe.kind p) (PendingProbe.context p) m) /\
  NoDup (answers c p) /\ (turnaround p = false -> (length (answers c p) <= 1)%nat).
Proof.
  intros Hp. pose proof (processProbe_ok (fun _ => 0) c p (mkEmitter [] 0 0) Hp) as H.
  apply wp_elim in H as ([slot em'] & _ & p' & He & Hr & Hl & _). split; [| split; [| done]].
  - intros m Hm. split; [by apply (ems_new _ _ _ _ _ _ He) | by apply Hr].
  - apply (ems_nodup _ _ _ _ _ _ He).
Qed.

(** ** One frame *)
(** What the probe reads of a frame. *)
Record reads_frame (f : Z) (snap : MemorySnapshot) (c : Current) : Prop := mkReadsFrame {
  rf_frame : frameId c = f;
  rf_snapshot : snapshot c = snap;
  rf_state : NesSuperMarioBrosRamExtractor.extract snap (SetupPolicy.getNesSuperMarioBrosSetupScriptEndFrame <=? f)
             = Ok (currentState c);
  rf_float : currentFloatState c = byte_at snap kFloatStateAddr;
  rf_mask : currentGameInputMask c = byte_at snap kPlayerOneButtonsPressedAddr;
  rf_facing : currentFacingDirection c = decodeDirection (byte_at snap kFacingDirectionAddr);
  rf_movement : currentMovementDirection c = decodeDirection (byte_at snap kMovementDirectionAddr)
}.

Definition expired (f : Z) (s : t) : t := set_pendingProbes_ (map (expire f) (pendingProbes_ s)) s.

(** The events [evs] of a frame, and the slots it leaves. *)
Definition frame_step (c : Current) probes probes' evs : Prop :=
  if isGameplayStateEligible (currentState c) then
    Forall2 (reported (frameId c)) (frame_answers c probes) evs /\ Forall2 (slot_step c) probes probes'
  else probes' = probes /\ evs = [].

Definition handed (out : option ResponseTelemetry.t) : list ResponseTelemetry.t :=
  match out with Some e => [e] | None => [] end.

Definition observed (f : Z) (snap : MemorySnapshot) (ct : option NesControllerTelemetry.t) (s : t)
    (r : t * option ResponseTelemetry.t) : Prop :=
  let '(s', out) := r in
  let s1 := noteController f ct (expired f s) in
  exists c evs, reads_frame f snap c /\
    pendingTelemetry_ s ++ evs = handed out ++ pendingTelemetry_ s' /\
    (out = None -> pendingTelemetry_ s' = []) /\
    numbered (nextResponseEventId_ s) evs (nextResponseEventId_ s') /\
    frame_step c (pendingProbes_ s1) (pendingProbes_ s') evs /\
    lastControllerSequenceId_ s' = lastControllerSequenceId_ s1.

(** Arming touches the slots only. *)
Lemma putProbe_rest p (s : t) :
  pendingTelemetry_ (putProbe p s) = pendingTelemetry_ s /\ nextResponseEventId_ (putProbe p s) = nextResponseEventId_ s.
Proof. done. Qed.

Lemma armProbes_rest last f li added (s : t) :
  pendingTelemetry_ (armProbes last f li added s) = pendingTelemetry_ s /\
  nextResponseEventId_ (armProbes last f li added s) = nextResponseEventId_ s.
Proof.
  unfold armProbes. cbv zeta.
  destruct (_ && isGroundedFloatState _), (_ && isDuckEligible last), (_ && nonzero _), (_ && nonzero _).
  all: repeat case_match; done.
Qed.

Lemma noteController_rest f ct (s : t) :
  pendingTelemetry_ (noteController f ct s) = pendingTelemetry_ s /\
  nextResponseEventId_ (noteController f ct s) = nextResponseEventId_ s.
Proof.
  unfold noteController. destruct (liveInput f ct) as [li |]; [| done]. destruct (_ =? _); [done |]. cbv zeta.
  destruct (lastState_ s) as [last |]; [| done]. destruct (isGameplayStateEligible last); [| done].
  apply armProbes_rest.
Qed.

Lemma detectResponses_ok c (s : t) :
  slotted 0 (pendingProbes_ s) ->
  wp (detectResponses steadyClockNowNs c s) (fun s' => exists evs,
    pendingTelemetry_ s' = pendingTelemetry_ s ++ evs /\
    numbered (nextResponseEventId_ s) evs (nextResponseEventId_ s') /\
    frame_step c (pendingProbes_ s) (pendingProbes_ s') evs /\
    lastControllerSequenceId_ s' = lastControllerSequenceId_ s).
Proof.
  intros Hs. unfold detectResponses, frame_step. destruct (isGameplayStateEligible _).
  - apply wp_bind. eapply wp_mono; [by apply (processProbes_ok c 0) |].
    intros [probes em] (evs & Hq & Hn & Hr & Hst). apply wp_ok. by exists evs.
  - apply wp_ok. exists []. by rewrite app_nil_r.
Qed.

Lemma observeFrame_ok f snap ct (s : t) :
  slotted 0 (pendingProbes_ (noteController f ct (expired f s))) ->
  wp (observeFrame steadyClockNowNs f snap ct s) (observed f snap ct s).
Proof.
  intros Hs. unfold observeFrame, decodeFacingDirection, decodeMovementDirection. cbv zeta.
  pose proof (extract_ok snap (SetupPolicy.getNesSuperMarioBrosSetupScriptEndFrame <=? f)) as Hx.
  apply wp_elim in Hx as (st & Hx & _). rewrite Hx, isDucking_ok, !ram_at_ok by done. cbn [rbind].
  set (c := mkCurrent _ _ _ _ _ _ _). fold (expired f s).
  apply wp_bind. eapply wp_mono; [by apply (detectResponses_ok c) |].
  intros s2 (evs & Hq & Hn & Hst & Hseq).
  destruct (noteController_rest f ct (expired f s)) as [Hr1 Hr2]. rewrite Hr1 in Hq. rewrite Hr2 in Hn.
  cbn in Hq, Hn. cbn [remember pendingTelemetry_]. destruct (pendingTelemetry_ s2) as [| e rest] eqn:Hp; apply wp_ok.
  all: exists c, evs; (split; [done |]); cbn; rewrite ?Hp; by rewrite <- Hq.
Qed.
End Frame.

(** ** Presses *)
Section Presses.
Implicit Types (p : PendingProbe.t) (m : ResponseMilestone.t) (e : ResponseTelemetry.t).
Implicit Types (evs log : list ResponseTelemetry.t) (probes : list (option PendingProbe.t)).

(** The button whose press a kind of response answers. *)
Definition button_of (k : ResponseKind.t) : Z :=
  match k with
  | ResponseKind.Jump => SMOLNES_RUNTIME_BUTTON_A
  | ResponseKind.MoveLeft => SMOLNES_RUNTIME_BUTTON_LEFT
  | ResponseKind.MoveRight => SMOLNES_RUNTIME_BUTTON_RIGHT
  | ResponseKind.Duck => SMOLNES_RUNTIME_BUTTON_DOWN
  end.

Definition input_times (li : LiveButtons) : Z * Z * Z * Z :=
  (li_appliedFrameId li, li_observedTimestampNs li, li_requestTimestampNs li, li_latchTimestampNs li).

(** [p] measures the press of its button by the live input [li] in frame [f]. *)
Record armed_by (f : Z) (li : LiveButtons) p : Prop := mkArmedBy {
  ab_fits : fits (PendingProbe.kind p) (PendingProbe.context p);
  ab_seq : PendingProbe.controllerSequenceId p = li_sequenceId li;
  ab_times : times p = input_times li;
  ab_button : nonzero (Z.land (li_mask li) (button_of (PendingProbe.kind p))) = true;
  ab_deadline : PendingProbe.deadlineFrameId p = u64 (f + kResponseProbeTimeoutFrames)
}.

Definition unanswered p : Prop := forall m, flag m p = false.

(** From [s] to [s'] slots are only filled, with probes armed in frame [f]. *)
Record fills (f : Z) (li : LiveButtons) (s s' : t) : Prop := mkFills {
  fl_length : length (pendingProbes_ s') = length (pendingProbes_ s);
  fl_slots : forall i p, pendingProbes_ s' !! i = Some (Some p) ->
    pendingProbes_ s !! i = Some (Some p) \/
    (i = responseKindIndex (PendingProbe.kind p) /\ armed_by f li p /\ unanswered p)
}.

#[global] Instance fills_preorder f li : PreOrder (fills f li).
Proof.
  split; [split; auto |]. intros s1 s2 s3 [L1 H1] [L2 H2]. split; [congruence |].
  intros i p Hp. destruct (H2 i p Hp) as [Hp' | ?]; [by apply H1 | by right].
Qed.

Lemma fills_put f li p (s : t) : armed_by f li p -> unanswered p -> fills f li s (putProbe p s).
Proof.
  intros Ha Hu. split; cbn; [by rewrite length_insert |]. intros i p' Hp.
  apply list_lookup_insert_Some in Hp as [(<- & [= <-] & _) | [_ Hp]]; [by right | by left].
Qed.

Lemma land_of_land a b c : nonzero (Z.land (Z.land a b) c) = true -> nonzero (Z.land a c) = true.
Proof.
  unfold nonzero. rewrite !negb_true_iff, !Z.eqb_neq. intros H H0. apply H.
  rewrite <- Z.land_assoc, (Z.land_comm b c), Z.land_assoc, H0. done.
Qed.

(** A probe armed by a newly pressed button. *)
Lemma armedProbe_armed (s : t) last f li k ctx prev d :
  nonzero (Z.land (Z.land (li_mask li) prev) (button_of k)) = true -> fits k ctx ->
  armed_by f li (armedProbe s last f li k ctx (button_of k) d) /\
  unanswered (armedProbe s last f li k ctx (button_of k) d).
Proof. intros Hb Hf. split; [| by intros []]. split; try done. cbn. by eapply land_of_land. Qed.

Lemma jump_fits last : fits ResponseKind.Jump (classifyJumpContext last).
Proof. unfold classifyJumpContext. case_match; [by right | by left]. Qed.

Lemma left_fits last fd md ctx : classifyMoveLeftContext last fd md = Some ctx -> fits ResponseKind.MoveLeft ctx.
Proof. unfold classifyMoveLeftContext. repeat case_match; intros; simplify_eq; [by right | by left]. Qed.

Lemma right_fits last fd md ctx : classifyMoveRightContext last fd md = Some ctx -> fits ResponseKind.MoveRight ctx.
Proof. unfold classifyMoveRightContext. repeat case_match; intros; simplify_eq; [by right | by left]. Qed.

Lemma fills_if f li (b : bool) p (s : t) :
  (b = true -> armed_by f li p /\ unanswered p) -> fills f li s (if b then putProbe p s else s).
Proof. intros H. destruct b; [| done]. by apply fills_put; apply H. Qed.

Lemma fills_match f li (b : bool) (o : option ResponseContext.t) (g : ResponseContext.t -> PendingProbe.t) (s : t) :
  (b = true -> forall ctx, o = Some ctx -> armed_by f li (g ctx) /\ unanswered (g ctx)) ->
  fills f li s (if b then match o with Some ctx => putProbe (g ctx) s | None => s end else s).
Proof. intros H. destruct b; [| done]. destruct o as [ctx |]; [| done]. by apply fills_put; apply (H eq_refl ctx). Qed.

Lemma armProbes_fills last f li prev (s : t) :
  fills f li s (armProbes last f li (Z.land (li_mask li) prev) s).
Proof.
  unfold armProbes. cbv zeta.
  match goal with |- fills _ _ _ (if _ then _ else ?s3) => transitivity s3 end.
  2: { apply fills_match. intros [_ Hb]%andb_true_iff ctx Hc.
    apply (armedProbe_armed _ _ _ _ ResponseKind.MoveRight _ prev); [done | by eapply right_fits]. }
  match goal with |- fills _ _ _ (if _ then _ else ?s2) => transitivity s2 end.
  2: { apply fills_match. intros [_ Hb]%andb_true_iff ctx Hc.
    apply (armedProbe_armed _ _ _ _ ResponseKind.MoveLeft _ prev); [done | by eapply left_fits]. }
  match goal with |- fills _ _ _ (if _ then _ else ?s1) => transitivity s1 end.
  2: { apply fills_if. intros [Hb _]%andb_true_iff. by apply (armedProbe_armed _ _ _ _ ResponseKind.Duck _ prev). }
  apply fills_if. intros [Hb _]%andb_true_iff.
  apply (armedProbe_armed _ _ _ _ ResponseKind.Jump _ prev); [done | apply jump_fits].
Qed.

Lemma armProbes_seq last f li added (s : t) :
  lastControllerSequenceId_ (armProbes last f li added s) = lastControllerSequenceId_ s.
Proof.
  unfold armProbes. cbv zeta.
  destruct (_ && isGroundedFloatState _), (_ && isDuckEligible last), (_ && nonzero _), (_ && nonzero _).
  all: repeat case_match; done.
Qed.

(** The sequence id of the last live input. *)
Definition next_seq (f : Z) (ct : option NesControllerTelemetry.t) (seq : Z) : Z :=
  match liveInput f ct with Some li => li_sequenceId li | None => seq end.

Lemma noteController_seq f ct (s : t) :
  lastControllerSequenceId_ (noteController f ct s) = next_seq f ct (lastControllerSequenceId_ s).
Proof.
  unfold noteController, next_seq. destruct (liveInput f ct) as [li |]; [| done]. destruct (_ =? _) eqn:E; [| done].
  apply Z.eqb_eq in E. by rewrite E.
Qed.

(** A slot after the controller was noted: as before, or armed by a new press. *)
Lemma noteController_slots f ct (s : t) :
  length (pendingProbes_ (noteController f ct s)) = length (pendingProbes_ s) /\
  forall i p, pendingProbes_ (noteController f ct s) !! i = Some (Some p) ->
    pendingProbes_ s !! i = Some (Some p) \/
    (i = responseKindIndex (PendingProbe.kind p) /\ unanswered p /\
     exists li, liveInput f ct = Some li /\ armed_by f li p /\ li_sequenceId li <> lastControllerSequenceId_ s).
Proof.
  unfold noteController. destruct (liveInput f ct) as [li |]; [| by auto].
  destruct (_ =? _) eqn:E; [by auto |]. apply Z.eqb_neq in E. cbv zeta. cbn [set_controller pendingProbes_].
  destruct (lastState_ s) as [last |]; [| by auto]. destruct (isGameplayStateEligible last); [| by auto].
  destruct (armProbes_fills last f li (u8 (Z.lnot (lastControllerMask_ s))) s) as [Hl Hs]. split; [done |].
  intros i p Hp. destruct (Hs i p Hp) as [? | (? & ? & ?)]; [by left | right]. eauto 10.
Qed.
End Presses.

(** ** The log of a run *)
Section Log.
Implicit Types (p : PendingProbe.t) (m : ResponseMilestone.t) (e : ResponseTelemetry.t).
Implicit Types (evs log : list ResponseTelemetry.t) (probes : list (option PendingProbe.t)).

(** What an event says of which press. *)
Definition key e : ResponseKind.t * Z * ResponseMilestone.t :=
  (ResponseTelemetry.kind e, ResponseTelemetry.controllerSequenceId e, ResponseTelemetry.milestone e).

(** Each press is reported at most once per milestone, in one context, and only
    a turnaround reports more than one milestone. *)
Record log_ok log : Prop := mkLogOk {
  lo_nodup : NoDup (key <$> log);
  lo_press : forall e e', e ∈ log -> e' ∈ log -> ResponseTelemetry.kind e = ResponseTelemetry.kind e' ->
    ResponseTelemetry.controllerSequenceId e = ResponseTelemetry.controllerSequenceId e' ->
    ResponseTelemetry.context e = ResponseTelemetry.context e' /\
    (ResponseTelemetry.context e <> ResponseContext.GroundedTurnaround -> key e = key e');
  lo_fits : forall e, e ∈ log -> fits (ResponseTelemetry.kind e) (ResponseTelemetry.context e) /\
    reachable_milestone (ResponseTelemetry.kind e) (ResponseTelemetry.context e) (ResponseTelemetry.milestone e)
}.

(** The flags of [p] cover what the log says of its press. *)
Definition tracks log p : Prop :=
  forall e, e ∈ log -> ResponseTelemetry.kind e = PendingProbe.kind p ->
    ResponseTelemetry.controllerSequenceId e = PendingProbe.controllerSequenceId p ->
    ResponseTelemetry.context e = PendingProbe.context p /\ flag (ResponseTelemetry.milestone e) p = true.

Lemma log_ok_nil : log_ok [].
Proof. split; [by apply NoDup_nil_2 | intros e e' He; by apply elem_of_nil in He | intros e He; by apply elem_of_nil in He]. Qed.

Lemma reports_elem f p ms evs e :
  Forall2 (reports f p) ms evs -> e ∈ evs -> exists m, m ∈ ms /\ reports f p m e.
Proof.
  intros H He. apply list_elem_of_lookup in He as [i Hi]. destruct (Forall2_lookup_r _ _ _ _ _ H Hi) as (m & Hm & Hr).
  exists m. split; [by eapply list_elem_of_lookup_2 | done].
Qed.

Lemma reports_key f p m e : reports f p m e -> key e = (PendingProbe.kind p, PendingProbe.controllerSequenceId p, m).
Proof. intros []. unfold key. congruence. Qed.

Lemma reports_keys f p ms evs :
  Forall2 (reports f p) ms evs ->
  key <$> evs = (fun m => (PendingProbe.kind p, PendingProbe.controllerSequenceId p, m)) <$> ms.
Proof. induction 1 as [| m e ms evs H _ IH]; [done |]. cbn. by rewrite (reports_key _ _ _ _ H), IH. Qed.

Lemma probe_log c f p log evs :
  pending_ok p -> log_ok log -> tracks log p -> Forall2 (reports f p) (answers c p) evs -> log_ok (log ++ evs).
Proof.
  intros Hp [L1 L2 L3] Ht Hr. destruct (answers_ok c p Hp) as (A1 & A2 & A3).
  assert (forall e, e ∈ evs -> exists m, m ∈ answers c p /\ reports f p m e) as Hev by (intros e; by apply reports_elem).
  assert (forall e e', e ∈ log -> e' ∈ evs -> ResponseTelemetry.kind e = ResponseTelemetry.kind e' ->
    ResponseTelemetry.controllerSequenceId e = ResponseTelemetry.controllerSequenceId e' ->
    ResponseTelemetry.context e = ResponseTelemetry.context e' /\
    ResponseTelemetry.context e = ResponseContext.GroundedTurnaround /\ key e <> key e') as Hcross.
  { intros e e' He He' Hk Hs. destruct (Hev e' He') as (m & Hm & []). destruct (A1 m Hm) as [Hm1 _].
    destruct (Ht e He) as [Hx Hf]; [congruence.. |]. split; [congruence |]. split.
    - destruct (turnaround p) eqn:Htp; [unfold turnaround in Htp; apply bool_decide_eq_true in Htp; congruence |].
      rewrite (pending_not_turnaround p _ Hp Htp) in Hf. done.
    - intros Hkey. assert (ResponseTelemetry.milestone e = m) as Hme by (unfold key in Hkey; congruence). congruence. }
  split.
  - rewrite fmap_app. apply NoDup_app. split; [done |]. split.
    + intros x (e & -> & He)%list_elem_of_fmap (e' & Hkey & He')%list_elem_of_fmap.
      destruct (Hcross e e' He He') as (_ & _ & H); unfold key in Hkey; [congruence.. |]. by apply H.
    + rewrite (reports_keys _ _ _ _ Hr). apply NoDup_fmap_2; [| done]. intros x y ?. congruence.
  - intros e e' [He | He]%elem_of_app [He' | He']%elem_of_app Hk Hs; [by apply L2 | | |].
    + destruct (Hcross e e') as (H1 & H2 & _); [done.. |]. split; [done |]. intros Hc. by destruct Hc.
    + destruct (Hcross e' e) as (H1 & H2 & _); [done.. |]. split; [done |]. intros Hc. congruence.
    + destruct (Hev e He) as (m & Hm & R), (Hev e' He') as (m' & Hm' & R'). split; [destruct R, R'; congruence |].
      intros Hc. rewrite (reports_key _ _ _ _ R), (reports_key _ _ _ _ R'). f_equal.
      rewrite (rp_context _ _ _ _ R) in Hc. specialize (A3 ltac:(by apply bool_decide_eq_false)).
      destruct (answers c p) as [| x [| ? ?]]; [by apply elem_of_nil in Hm | | simpl in A3; lia].
      apply list_elem_of_singleton in Hm, Hm'. congruence.
  - intros e [He | He]%elem_of_app; [by apply L3 |]. destruct (Hev e He) as (m & Hm & []).
    destruct (A1 m Hm) as [_ ?]. destruct Hp as [? _]. split; congruence.
Qed.

Lemma probe_tracks c f p p' log evs :
  tracks log p -> Forall2 (reports f p) (answers c p) evs -> same_press p p' ->
  (forall m, flag m p' = flag m p || bool_decide (m ∈ answers c p)) -> tracks (log ++ evs) p'.
Proof.
  intros Ht Hr [Hk Hx Hs _ _] Hf e [He | He]%elem_of_app He1 He2.
  - destruct (Ht e He) as [H1 H2]; [congruence.. |]. split; [congruence |]. by rewrite Hf, H2.
  - destruct (reports_elem _ _ _ _ _ Hr He) as (m & Hm & []). split; [congruence |]. subst m.
    rewrite Hf, bool_decide_eq_true_2 by done. by rewrite orb_true_r.
Qed.

Lemma tracks_other p log evs :
  tracks log p -> (forall e, e ∈ evs -> ResponseTelemetry.kind e <> PendingProbe.kind p) -> tracks (log ++ evs) p.
Proof. intros Ht Ho e [He | He]%elem_of_app Hk Hs; [by apply Ht | by destruct (Ho e He)]. Qed.

Lemma responseKindIndex_inj k k' : responseKindIndex k = responseKindIndex k' -> k = k'.
Proof. by destruct k, k'. Qed.

(** The events of a frame, in the log. *)
Lemma frame_log c f i probes probes' evs log :
  slotted i probes -> log_ok log -> (forall p, Some p ∈ probes -> tracks log p) ->
  Forall2 (reported f) (frame_answers c probes) evs -> Forall2 (slot_step c) probes probes' ->
  log_ok (log ++ evs) /\ slotted i probes' /\
  (forall p', Some p' ∈ probes' -> tracks (log ++ evs) p' /\ exists p, Some p ∈ probes /\ same_press p p') /\
  (forall e, e ∈ evs -> exists p m, Some p ∈ probes /\ reports f p m e).
Proof.
  revert i probes' evs log. induction probes as [| o probes IH]; intros i probes' evs log Hsl Hlog Htr Hr Hst.
  { apply Forall2_nil_inv_l in Hr, Hst. subst. rewrite app_nil_r. split; [done |]. split; [done |].
    split; [by intros ? ?%elem_of_nil | by intros ? ?%elem_of_nil]. }
  apply Forall2_cons_inv_l in Hst as (o' & probes'' & Ho & Hst & ->).
  pose proof (slotted_tail _ _ _ Hsl) as Hsl'. destruct o as [p |].
  - unfold frame_answers in Hr. cbn in Hr. apply Forall2_app_inv_l in Hr as (evs1 & evs2 & Hr1 & Hr2 & ->).
    assert (Forall2 (reports f p) (answers c p) evs1) as Hr1' by (by apply reports_pairs_inv).
    destruct (Hsl 0%nat p eq_refl) as [Hi Hp]. destruct Ho as (p' & Hs & Hf & -> & Hok).
    pose proof (probe_log c f p log evs1 Hp Hlog (Htr p ltac:(by left)) Hr1') as Hlog1.
    assert (forall p2, Some p2 ∈ probes -> PendingProbe.kind p2 <> PendingProbe.kind p) as Hdiff.
    { intros p2 [j Hj]%list_elem_of_lookup Hk. destruct (Hsl' j p2 Hj) as [Hi2 _]. rewrite Hk in Hi2. lia. }
    destruct (IH (S i) probes'' evs2 (log ++ evs1) Hsl' Hlog1) as (R1 & R2 & R3 & R4); [| done | done |].
    { intros p2 Hp2. apply tracks_other; [apply Htr; by right |]. intros e He.
      destruct (reports_elem _ _ _ _ _ Hr1' He) as (m & _ & []). specialize (Hdiff p2 Hp2). congruence. }
    rewrite app_assoc. split; [done |]. split; [| split].
    + intros [| j] q Hq; cbn in Hq.
      * destruct (isProbeComplete p'); [done |]. injection Hq as ->. split; [| by apply Hok].
        rewrite (sp_kind _ _ Hs). done.
      * destruct (R2 j q Hq) as [? ?]. split; [lia | done].
    + intros q [Hq | Hq]%elem_of_cons.
      * destruct (isProbeComplete p'); [done |]. injection Hq as ->. split; [| exists p; split; [by left | done]].
        apply tracks_other; [apply (probe_tracks c f p); [apply Htr; by left | done..] |]. intros e He. destruct (R4 e He) as (p2 & m & Hp2 & []).
        specialize (Hdiff p2 Hp2). rewrite (sp_kind _ _ Hs). congruence.
      * destruct (R3 q Hq) as (? & p2 & ? & ?). split; [done |]. exists p2. split; [by right | done].
    + intros e [He | He]%elem_of_app.
      * destruct (reports_elem _ _ _ _ _ Hr1' He) as (m & _ & ?). exists p, m. split; [by left | done].
      * destruct (R4 e He) as (p2 & m & ? & ?). exists p2, m. split; [by right | done].
  - cbn in Ho. subst o'. destruct (IH (S i) probes'' evs log Hsl' Hlog) as (R1 & R2 & R3 & R4); [| done | done |].
    { intros p2 Hp2. apply Htr. by right. }
    split; [done |]. split; [| split].
    + intros [| j] q Hq; [done |]. destruct (R2 j q Hq) as [? ?]. split; [lia | done].
    + intros q [Hq | Hq]%elem_of_cons; [done |]. destruct (R3 q Hq) as (? & p2 & ? & ?). split; [done |].
      exists p2. split; [by right | done].
    + intros e He. destruct (R4 e He) as (p2 & m & ? & ?). exists p2, m. split; [by right | done].
Qed.
End Log.
