(* ===== verification/SmbResponseCorrect.v ===== *)
(** What the response probe promises its reader: reports are numbered and handed
    out in the order they were found, each answers a press, once per milestone,
    within twelve frames; and a frame reports exactly what it shows. *)

From Stdlib Require Import ZArith Lia Bool String.
From stdpp Require Import base gmap option numbers list.
From S2P Require Import Prelude Ieee NesTypes SmbEvaluator SmbRam SmbAdapter SmbResponse SmbResponseFacts SmbResponseRuns.

Set Default Goal Selector "!".

Import NesSuperMarioBrosResponseProbe.

(** ** Runs *)
(** The arguments of [observeFrame]. *)
Definition Observation : Type := Z * MemorySnapshot * option NesControllerTelemetry.t.

Section Runs.
Context (steadyClockNowNs : nat -> Z).
Implicit Types (p : PendingProbe.t) (e : ResponseTelemetry.t) (log : list ResponseTelemetry.t).
Implicit Types (ins past : list Observation) (outs : list (option ResponseTelemetry.t)).

Fixpoint run ins (s : t) : res (t * list (option ResponseTelemetry.t)) :=
  match ins with
  | [] => Ok (s, [])
  | (frameId, snapshot, controllerTelemetry) :: ins' =>
      let! r := observeFrame steadyClockNowNs frameId snapshot controllerTelemetry s in
      let '(s, out) := r in
      let! r := run ins' s in
      let '(s, outs) := r in Ok (s, out :: outs)
  end.

(** The events a run found: handed out, then waiting. *)
Definition events (s : t) outs : list ResponseTelemetry.t := omap id outs ++ pendingTelemetry_ s.

(** *** The slots *)
Record seated (s : t) : Prop := mkSeated {
  sd_length : length (pendingProbes_ s) = 4%nat;
  sd_slotted : slotted 0 (pendingProbes_ s)
}.

Lemma expired_lookup f (s : t) i p :
  pendingProbes_ (expired f s) !! i = Some (Some p) ->
  pendingProbes_ s !! i = Some (Some p) /\ f <= PendingProbe.deadlineFrameId p.
Proof.
  cbn. intros H. rewrite (list_lookup_fmap (expire f)) in H.
  destruct (pendingProbes_ s !! i) as [[q |] |]; cbn in H; [| done | done].
  destruct (Z.ltb_spec (PendingProbe.deadlineFrameId q) f); [done |]. injection H as ->. auto with lia.
Qed.

Lemma armed_pending f li p : armed_by f li p -> unanswered p -> pending_ok p.
Proof. intros [Hf _ _ _ _] Hu. by split. Qed.

Lemma noted_seated f ct (s : t) : seated s -> seated (noteController f ct (expired f s)).
Proof.
  intros [Hl Hs]. destruct (noteController_slots f ct (expired f s)) as [Hl' Hs']. split.
  { rewrite Hl'. cbn. by rewrite length_map. }
  intros i p Hp. destruct (Hs' i p Hp) as [Hp' | (Hi & Hu & li & _ & Ha & _)].
  - apply expired_lookup in Hp' as [Hp' _]. by apply Hs.
  - split; [done | by eapply armed_pending].
Qed.

Lemma frame_step_seated c probes probes' evs :
  slotted 0 probes -> frame_step c probes probes' evs -> slotted 0 probes' /\ length probes' = length probes.
Proof.
  intros Hs H. unfold frame_step in H. destruct (isGameplayStateEligible _); [| by destruct H as [-> _]].
  destruct H as [Hr Hst]. split; [| symmetry; by eapply Forall2_length].
  eapply (frame_log c (frameId c) 0 probes probes' evs []); [done | apply log_ok_nil | | done | done].
  intros p _ e He. by apply elem_of_nil in He.
Qed.

Lemma observe_seated f snap ct (s : t) :
  seated s -> wp (observeFrame steadyClockNowNs f snap ct s) (fun r => observed f snap ct s r /\ seated (fst r)).
Proof.
  intros Hs. pose proof (noted_seated f ct s Hs) as [Hl1 Hs1]. eapply wp_mono; [by apply observeFrame_ok |].
  intros [s' out] Ho. split; [done |]. destruct Ho as (c & evs & _ & _ & _ & _ & Hst & _).
  destruct (frame_step_seated _ _ _ _ Hs1 Hst) as [H1 H2]. split; [| done]. cbn. by rewrite H2.
Qed.

Lemma reset_seated (s : t) : length (pendingProbes_ s) = 4%nat -> seated (reset s).
Proof.
  intros Hl. split; cbn; [by rewrite length_map |]. intros i p H.
  rewrite (list_lookup_fmap (fun _ => None)) in H. by destruct (pendingProbes_ s !! i).
Qed.

(** A property of runs by induction on the frames: [I past events s] holds of
    what was observed so far. *)
Lemma run_ind (I : list Observation -> list ResponseTelemetry.t -> t -> Prop) (ok : list Observation -> Prop) :
  (forall past f snap ct ins, ok (past ++ (f, snap, ct) :: ins) -> forall given s, seated s ->
    I past (given ++ pendingTelemetry_ s) s -> forall s' out, observed f snap ct s (s', out) -> seated s' ->
    I (past ++ [(f, snap, ct)]) (given ++ handed out ++ pendingTelemetry_ s') s') ->
  forall ins past given s, ok (past ++ ins) -> seated s -> I past (given ++ pendingTelemetry_ s) s ->
  wp (run ins s) (fun '(s', outs) => seated s' /\ I (past ++ ins) (given ++ events s' outs) s' /\
    length outs = length ins /\ (last outs = Some None -> pendingTelemetry_ s' = []) /\ (outs = [] -> s' = s)).
Proof.
  intros Hstep ins. induction ins as [| [[f snap] ct] ins IH]; intros past given s Hok Hs HI; cbn [run].
  { apply wp_ok. unfold events. cbn. by rewrite app_nil_r. }
  apply wp_bind. eapply wp_mono; [by apply observe_seated |]. intros [s1 out] [Ho Hs1]. cbn [fst] in Hs1.
  pose proof (Hstep past f snap ct ins Hok given s Hs HI s1 out Ho Hs1) as HI1. rewrite app_assoc in HI1.
  apply wp_bind. eapply wp_mono; [apply (IH (past ++ [(f, snap, ct)]) (given ++ handed out) s1); [| done | done] |].
  { by rewrite <- app_assoc. }
  intros [s' outs] (Hs' & HI' & Hl & Hlast & Hnil). apply wp_ok. rewrite <- app_assoc in HI'. split; [done |].
  split; [| split; [by cbn; rewrite Hl | split; [| done]]].
  - unfold events in *. cbn. rewrite <- app_assoc in HI'. by destruct out.
  - destruct outs as [| o outs]; [| by rewrite last_cons_cons]. intros [= ->].
    rewrite (Hnil eq_refl). destruct Ho as (c & evs & _ & _ & Hn & _). by apply Hn.
Qed.

(** *** Numbering *)
Lemma numbered_lookup n log n' i e :
  0 <= n < 2 ^ 64 -> numbered n log n' -> log !! i = Some e ->
  ResponseTelemetry.responseEventId e = u64 (n + Z.of_nat i).
Proof.
  revert n i. induction log as [| e0 log IH]; intros n i Hn H Hi; [done |]. destruct H as [He H].
  destruct i as [| i]; cbn in Hi.
  - injection Hi as ->. rewrite He, Z.add_0_r. unfold u64. by rewrite Z.mod_small.
  - rewrite (IH _ i ltac:(unfold u64; apply Z.mod_pos_bound; lia) H Hi). unfold u64.
    rewrite Zplus_mod_idemp_l. f_equal. lia.
Qed.

Lemma run_numbered ins (s : t) :
  seated s -> numbered 1 (pendingTelemetry_ s) (nextResponseEventId_ s) ->
  wp (run ins s) (fun '(s', outs) => seated s' /\ numbered 1 (events s' outs) (nextResponseEventId_ s') /\
    length outs = length ins /\ (last outs = Some None -> pendingTelemetry_ s' = [])).
Proof.
  intros Hs Hn. eapply wp_mono.
  - apply (run_ind (fun _ log s => numbered 1 log (nextResponseEventId_ s)) (fun _ => True)) with (past := []) (given := []);
      [| done..].
    clear. intros past f snap ct ins _ given s Hs Hn s' out (c & evs & _ & Hq & _ & Hn' & _) _.
    rewrite <- Hq, app_assoc. by eapply numbered_app.
  - by intros [s' outs] (? & ? & ? & ? & _).
Qed.

(** *** Presses *)
(** The frames come in order, short of the end of the counter, and a live input
    never carries an older sequence id than the one before. *)
Fixpoint orderly (f0 seq0 : Z) ins : bool :=
  match ins with
  | [] => true
  | (f, _, ct) :: ins' =>
      (f0 <=? f) && (f + kResponseProbeTimeoutFrames <? 2 ^ 64) && (seq0 <=? next_seq f ct seq0)
      && orderly f (next_seq f ct seq0) ins'
  end.

(** The frame and the sequence id a run has come to. *)
Fixpoint reached (f0 seq0 : Z) ins : Z * Z :=
  match ins with
  | [] => (f0, seq0)
  | (f, _, ct) :: ins' => reached f (next_seq f ct seq0) ins'
  end.

Lemma reached_app f0 seq0 past f snap ct :
  reached f0 seq0 (past ++ [(f, snap, ct)]) = (f, next_seq f ct (snd (reached f0 seq0 past))).
Proof. revert f0 seq0. induction past as [| [[f1 ?] ct1] past IH]; intros f0 seq0; [done | apply IH]. Qed.

Lemma orderly_app f0 seq0 past f snap ct ins :
  orderly f0 seq0 (past ++ (f, snap, ct) :: ins) = true ->
  fst (reached f0 seq0 past) <= f /\ f + kResponseProbeTimeoutFrames < 2 ^ 64 /\
  snd (reached f0 seq0 past) <= next_seq f ct (snd (reached f0 seq0 past)).
Proof.
  revert f0 seq0. induction past as [| [[f1 s1] ct1] past IH]; intros f0 seq0; cbn [app orderly reached fst snd].
  - rewrite !andb_true_iff, !Z.leb_le, Z.ltb_lt. tauto.
  - rewrite andb_true_iff. intros [_ H]. by apply IH.
Qed.

Lemma orderly_reached f0 seq0 past ins :
  orderly f0 seq0 (past ++ ins) = true -> f0 <= fst (reached f0 seq0 past) /\ seq0 <= snd (reached f0 seq0 past).
Proof.
  revert f0 seq0. induction past as [| [[f1 s1] ct1] past IH]; intros f0 seq0; cbn [app orderly reached fst snd]; [lia |].
  rewrite !andb_true_iff, !Z.leb_le. intros [[[H1 H2] H3] H]. apply IH in H. lia.
Qed.

(** In frame [f] the run brought a live input with sequence id [seq] and times
    [ts] that holds the button of [k]. *)
Definition press_at ins (k : ResponseKind.t) (seq : Z) (ts : Z * Z * Z * Z) (f : Z) : Prop :=
  exists snap ct li, (f, snap, ct) ∈ ins /\ liveInput f ct = Some li /\ li_sequenceId li = seq /\
    input_times li = ts /\ nonzero (Z.land (li_mask li) (button_of k)) = true.

Lemma press_at_app ins ins' k seq ts f : press_at ins k seq ts f -> press_at (ins ++ ins') k seq ts f.
Proof. intros (snap & ct & li & H & ?). exists snap, ct, li. split; [apply elem_of_app; by left | done]. Qed.

(** The event reports a press at most twelve frames old. *)
Definition in_time ins e : Prop :=
  exists f, press_at ins (ResponseTelemetry.kind e) (ResponseTelemetry.controllerSequenceId e) (event_times e) f /\
    f <= ResponseTelemetry.responseFrameId e <= f + kResponseProbeTimeoutFrames.

Record waiting past log p : Prop := mkWaiting {
  wt_tracks : tracks log p;
  wt_seq : PendingProbe.controllerSequenceId p <= snd (reached 0 0 past);
  wt_press : exists f, press_at past (PendingProbe.kind p) (PendingProbe.controllerSequenceId p) (times p) f /\
    f <= fst (reached 0 0 past) /\ PendingProbe.deadlineFrameId p = f + kResponseProbeTimeoutFrames
}.

Record answering past log (s : t) : Prop := mkAnswering {
  an_log : log_ok log;
  an_seq : lastControllerSequenceId_ s = snd (reached 0 0 past);
  an_slots : forall p, Some p ∈ pendingProbes_ s -> waiting past log p;
  an_events : forall e, e ∈ log -> ResponseTelemetry.controllerSequenceId e <= snd (reached 0 0 past) /\ in_time past e
}.

(** The probes of a frame, once its presses are armed. *)
Lemma noted_waiting past log f snap ct ins (s : t) :
  orderly 0 0 (past ++ (f, snap, ct) :: ins) = true -> answering past log s ->
  forall p, Some p ∈ pendingProbes_ (noteController f ct (expired f s)) ->
  waiting (past ++ [(f, snap, ct)]) log p /\ f <= PendingProbe.deadlineFrameId p.
Proof.
  intros Hord [Hlog Hseq Hsl Hev] p [i Hp]%list_elem_of_lookup.
  destruct (orderly_app _ _ _ _ _ _ _ Hord) as (O1 & O2 & O3). destruct (orderly_reached _ _ _ _ Hord) as [O4 O5].
  destruct (noteController_slots f ct (expired f s)) as [_ Hn].
  destruct (Hn i p Hp) as [Hp' | (Hi & Hu & li & Hli & [_ As At Ab Ad] & Hne)].
  - apply expired_lookup in Hp' as [Hp' Hd]. split; [| done].
    destruct (Hsl p ltac:(by eapply list_elem_of_lookup_2)) as [Wt Ws (f1 & Wp & Wf & Wd)].
    split; [done | rewrite reached_app; cbn; lia |]. exists f1. rewrite reached_app. cbn.
    split; [by apply press_at_app | lia].
  - assert (next_seq f ct (snd (reached 0 0 past)) = li_sequenceId li) as Hns by (unfold next_seq; by rewrite Hli).
    change (lastControllerSequenceId_ (expired f s)) with (lastControllerSequenceId_ s) in Hne.
    assert (PendingProbe.deadlineFrameId p = f + kResponseProbeTimeoutFrames) as Hd.
    { rewrite Ad. unfold u64, kResponseProbeTimeoutFrames in *. rewrite Z.mod_small; lia. }
    unfold kResponseProbeTimeoutFrames in *. split; [| lia]. split; [| rewrite reached_app; cbn; lia |].
    + intros e He _ Hes. destruct (Hev e He) as [? _]. lia.
    + exists f. rewrite reached_app. cbn. split; [| split; [lia | done]]. exists snap, ct, li.
      split; [apply elem_of_app; right; by left |]. done.
Qed.

Lemma waiting_step past log log' p p' :
  waiting past log p -> same_press p p' -> tracks log' p' -> waiting past log' p'.
Proof.
  intros [_ Ws (f & Wp & ?)] [Hk _ Hs Hd Ht] Htr. split; [done | congruence |]. exists f. rewrite Hk, Hs, Ht, Hd. done.
Qed.

Lemma answering_step past f snap ct ins given (s s' : t) out :
  orderly 0 0 (past ++ (f, snap, ct) :: ins) = true -> seated s ->
  answering past (given ++ pendingTelemetry_ s) s -> observed f snap ct s (s', out) ->
  answering (past ++ [(f, snap, ct)]) (given ++ handed out ++ pendingTelemetry_ s') s'.
Proof.
  intros Hord Hs HI (c & evs & Hc & Hq & _ & _ & Hst & Hseq').
  pose proof (noted_waiting _ _ _ _ _ _ _ Hord HI) as Hw. destruct (noted_seated f ct s Hs) as [_ Hsl].
  destruct HI as [Hlog Hseq _ Hev]. destruct (orderly_app _ _ _ _ _ _ _ Hord) as (O1 & O2 & O3).
  rewrite <- Hq, app_assoc. set (log := given ++ pendingTelemetry_ s) in *.
  set (probes := pendingProbes_ (noteController f ct (expired f s))) in *.
  assert (forall e, e ∈ log -> ResponseTelemetry.controllerSequenceId e <= snd (reached 0 0 (past ++ [(f, snap, ct)])) /\
    in_time (past ++ [(f, snap, ct)]) e) as Hold.
  { intros e He. destruct (Hev e He) as [H1 (f1 & H2 & H3)]. rewrite reached_app. cbn. split; [lia |].
    exists f1. split; [by apply press_at_app | done]. }
  assert (lastControllerSequenceId_ s' = snd (reached 0 0 (past ++ [(f, snap, ct)]))) as Hseq''.
  { rewrite Hseq', noteController_seq, reached_app. cbn. by rewrite <- Hseq. }
  unfold frame_step in Hst. destruct (isGameplayStateEligible _).
  - destruct Hst as [Hr Hst].
    destruct (frame_log c (frameId c) 0 probes (pendingProbes_ s') evs log) as (R1 & _ & R3 & R4); [done | done | | done | done |].
    { intros p Hp. apply Hw, Hp. }
    split; [done | done | |].
    + intros p' Hp'. destruct (R3 p' Hp') as (Ht & p & Hp & Hsame). eapply waiting_step; [by apply Hw | done | done].
    + intros e [He | He]%elem_of_app; [by apply Hold |]. destruct (R4 e He) as (p & m & Hp & [Rk _ _ Rs Rf Rt]).
      destruct (Hw p Hp) as [[_ Ws (f1 & Wp & Wf & Wd)] Hd]. rewrite Rs. split; [done |]. exists f1. rewrite Rk, Rs, Rt, Rf.
      split; [done |]. rewrite (rf_frame _ _ _ Hc). rewrite reached_app in Wf. cbn in Wf. lia.
  - destruct Hst as [Hp ->]. rewrite app_nil_r. split; [done | done | | done]. rewrite Hp. intros p Hpp. by apply Hw.
Qed.

Lemma run_answering ins (s : t) :
  seated s -> answering [] (pendingTelemetry_ s) s -> orderly 0 0 ins = true ->
  wp (run ins s) (fun '(s', outs) => seated s' /\ answering ins (events s' outs) s').
Proof.
  intros Hs Ha Ho. eapply wp_mono.
  - apply (run_ind answering (fun ins => orderly 0 0 ins = true)) with (past := []) (given := []); [| done..].
    clear. intros past f snap ct ins Ho given s Hs Ha s' out Hob _. by eapply answering_step.
  - intros [s' outs] (? & ? & _). by split.
Qed.

Lemma reset_answering (s : t) : answering [] [] (reset s).
Proof.
  split; [apply log_ok_nil | done | |].
  - intros p Hp. cbn in Hp. apply list_elem_of_fmap in Hp as (? & ? & _). done.
  - intros e He. by apply elem_of_nil in He.
Qed.
End Runs.

(** The response probe is a numbered queue: after a reset, [observeFrame]
    never throws, whatever memory and telemetry the frames bring; the events it
    finds are handed out in the order found, one per frame, and the events handed
    out followed by those still waiting are numbered 1, 2, 3... (with 64-bit
    wrap-around); a frame that hands out nothing leaves nothing waiting. *)
Lemma response_queue (steadyClockNowNs : nat -> Z) (s : t) (ins : list Observation) :
  length (pendingProbes_ s) = 4%nat ->
  wp (run steadyClockNowNs ins (reset s)) (fun '(s', outs) =>
    length outs = length ins /\
    (forall i e, events s' outs !! i = Some e -> ResponseTelemetry.responseEventId e = u64 (1 + Z.of_nat i)) /\
    (last outs = Some None -> pendingTelemetry_ s' = [])).
Proof.
  intros Hl. eapply wp_mono; [apply run_numbered; [by apply reset_seated | done] |].
  intros [s' outs] (_ & Hn & Hlen & Hlast). split; [done |]. split; [| done].
  intros i e. by eapply numbered_lookup.
Qed.

(** C25. A report answers a press, once and in time. Over frames in order, whose
    live inputs never go back to an older sequence id, and after a reset: (1) no
    press is reported twice for the same milestone; (2) the reports of one press
    agree on its context, and only a grounded turnaround reports more than one;
    (3) context and milestone go with the kind of response; (4) the live input of
    a frame at most twelve frames before the report, or of the same frame, carries
    the report's sequence id, holds the button of its kind and has the request,
    latch, observation and application times the report quotes. *)
Theorem response_once (steadyClockNowNs : nat -> Z) (s : t) (ins : list Observation) :
  length (pendingProbes_ s) = 4%nat -> orderly 0 0 ins = true ->
  wp (run steadyClockNowNs ins (reset s)) (fun '(s', outs) =>
    NoDup (key <$> events s' outs) /\
    (forall e e', e ∈ events s' outs -> e' ∈ events s' outs -> ResponseTelemetry.kind e = ResponseTelemetry.kind e' ->
      ResponseTelemetry.controllerSequenceId e = ResponseTelemetry.controllerSequenceId e' ->
      ResponseTelemetry.context e = ResponseTelemetry.context e' /\
      (ResponseTelemetry.context e <> ResponseContext.GroundedTurnaround -> key e = key e')) /\
    (forall e, e ∈ events s' outs ->
      fits (ResponseTelemetry.kind e) (ResponseTelemetry.context e) /\
      reachable_milestone (ResponseTelemetry.kind e) (ResponseTelemetry.context e) (ResponseTelemetry.milestone e) /\
      in_time ins e)).
Proof.
  intros Hl Ho. eapply wp_mono; [apply run_answering; [by apply reset_seated | apply reset_answering | done] |].
  intros [s' outs] (_ & [[N1 N2 N3] _ _ Hev]). split; [done |]. split; [done |].
  intros e He. destruct (N3 e He). split; [done |]. split; [done |]. by apply Hev.
Qed.

(** What a frame reports. After any run, a frame reads the game from its
    memory, drops the probes past their deadline and arms the newly pressed ones;
    then, when the game is in play with Mario alive, it finds exactly the answers
    of the probes it holds, in the order of their slots: the jump or the duck that
    the frame shows, the first commit or motion of a start, each milestone of a
    turnaround that was not found before. A probe that has all its answers leaves
    its slot and no other probe does; out of play nothing is found and all probes
    wait. *)
Lemma response_frame (steadyClockNowNs : nat -> Z) (s0 s : t) (ins : list Observation) outs f snap ct :
  length (pendingProbes_ s0) = 4%nat ->
  run steadyClockNowNs ins (reset s0) = Ok (s, outs) ->
  exists s' out c evs, observeFrame steadyClockNowNs f snap ct s = Ok (s', out) /\
    reads_frame f snap c /\
    pendingTelemetry_ s ++ evs = handed out ++ pendingTelemetry_ s' /\
    frame_step c (pendingProbes_ (noteController f ct (expired f s))) (pendingProbes_ s') evs.
Proof.
  intros Hl Hrun. pose proof (run_numbered steadyClockNowNs ins (reset s0) (reset_seated s0 Hl) eq_refl) as H.
  rewrite Hrun in H. destruct H as [Hs _]. pose proof (observe_seated steadyClockNowNs f snap ct s Hs) as H.
  apply wp_elim in H as ([s' out] & Ho & (c & evs & Hc & Hq & _ & _ & Hst & _) & _). by exists s', out, c, evs.
Qed.

(** ** A turnaround *)
(** Mario runs right, the player presses left: Mario turns his face, then his
    feet, then moves. *)
Definition scene_ram (facing movement x speed : Z) : MemorySnapshot :=
  ram_of [ (0x0E, 0x08); (0x1D, 0); (0x33, facing); (0x45, movement); (0x57, speed); (0x86, x); (0xCE, 120);
           (0x75A, 3); (0x75F, 1); (0x760, 1); (0x770, 1) ].

Definition live_left (seq : Z) : NesControllerTelemetry.t :=
  NesControllerTelemetry.mk (f32_of_Z 0) (f32_of_Z 0) (f32_of_Z 0) (f32_of_Z 0) SMOLNES_RUNTIME_BUTTON_LEFT
    SMOLNES_RUNTIME_BUTTON_LEFT LiveInput (Some 0) None (Some 4900) (Some 6000) (Some 5000) (Some seq).

Definition turnaround_scene : list Observation :=
  [ (300, scene_ram 1 1 0x40 20, None); (301, scene_ram 2 1 0x40 8, Some (live_left 4));
    (302, scene_ram 2 2 0x40 2, None); (303, scene_ram 2 2 0x3F 0xF0, None) ].

Definition scene_reports (ins : list Observation) :=
  match run (fun n => Z.of_nat n) ins (reset default) with
  | Ok (_, outs) =>
      map (option_map (fun e => (ResponseTelemetry.responseEventId e, ResponseTelemetry.milestone e,
        ResponseTelemetry.responseFrameId e, ResponseTelemetry.controllerAppliedFrameId e))) outs
  | _ => []
  end.

Example turnaround_reports :
  scene_reports turnaround_scene =
    [ None; Some (1, ResponseMilestone.Acknowledge, 301, 301); Some (2, ResponseMilestone.Commit, 302, 301);
      Some (3, ResponseMilestone.Motion, 303, 301) ].
Proof. by vm_compute. Qed.

Example response_queue_witness :
  wp (run (fun n => Z.of_nat n) turnaround_scene (reset default)) (fun '(s', outs) =>
    length outs = 4%nat /\
    (forall i e, events s' outs !! i = Some e -> ResponseTelemetry.responseEventId e = u64 (1 + Z.of_nat i)) /\
    (last outs = Some None -> pendingTelemetry_ s' = [])).
Proof. apply (response_queue (fun n => Z.of_nat n) default turnaround_scene). reflexivity. Defined.

Example response_once_witness :
  wp (run (fun n => Z.of_nat n) turnaround_scene (reset default)) (fun '(s', outs) => NoDup (key <$> events s' outs)).
Proof.
  eapply wp_mono; [apply (response_once (fun n => Z.of_nat n) default turnaround_scene); vm_compute; reflexivity |].
  intros [s' outs] [H _]. exact H.
Defined.

Example response_frame_witness :
  exists s outs s' out c evs, run (fun n => Z.of_nat n) [(300, scene_ram 1 1 0x40 20, None)] (reset default) = Ok (s, outs) /\
    observeFrame (fun n => Z.of_nat n) 301 (scene_ram 2 1 0x40 8) (Some (live_left 4)) s = Ok (s', out) /\
    frame_step c (pendingProbes_ (noteController 301 (Some (live_left 4)) (expired 301 s))) (pendingProbes_ s') evs.
Proof.
  destruct (run (fun n => Z.of_nat n) [(300, scene_ram 1 1 0x40 20, None)] (reset default)) as [[s outs] |] eqn:E.
  - destruct (response_frame (fun n => Z.of_nat n) default s [(300, scene_ram 1 1 0x40 20, None)] outs 301
      (scene_ram 2 1 0x40 8) (Some (live_left 4)) eq_refl E) as (s' & out & c & evs & H1 & _ & _ & H2).
    exists s, outs, s', out, c, evs. split; [reflexivity |]. split; [exact H1 | exact H2].
  - vm_compute in E. discriminate E.
Defined.
