(* ===== verification/RegionActivity.v ===== *)
(** Which 8x8 regions of the world are awake: [core/WorldRegionActivityTracker.{h,cpp}]
    and [core/RegionDebugInfo.h].

    The tracker reads the world and the [GridOfCells] cache. Its [uint8_t] flag
    vectors only ever hold 0 and 1 and are vectors of booleans here. *)

From Stdlib Require Import ZArith Lia Bool String SpecFloat.
From stdpp Require Import base gmap option numbers list.
From S2P Require Import Prelude Ieee Material Bitmaps GridCache.

Set Default Goal Selector "!".

Module RegionState.
Inductive t := Awake | LoadedQuiet | Sleeping.
#[global] Instance eq_dec : EqDecision t.
Proof. solve_decision. Defined.
Definition to_Z (s : t) : Z := match s with Awake => 0 | LoadedQuiet => 1 | Sleeping => 2 end.
End RegionState.

Module WakeReason.
Inductive t :=
  | None | ExternalMutation | Move | BlockedTransfer | NeighborTopologyChanged | GravityChanged
  | WaterInterface.
#[global] Instance eq_dec : EqDecision t.
Proof. solve_decision. Defined.
Definition to_Z (r : t) : Z :=
  match r with
  | None => 0 | ExternalMutation => 1 | Move => 2 | BlockedTransfer => 3
  | NeighborTopologyChanged => 4 | GravityChanged => 5 | WaterInterface => 6
  end.
End WakeReason.

Module RegionMeta.
Record t := mk {
  state : RegionState.t;
  quiet_frames : Z;
  last_wake_reason : WakeReason.t;
  last_wake_step : Z
}.
Definition default : t := mk RegionState.Awake 0 WakeReason.None 0.
End RegionMeta.

Module RegionSummary.
Record t := mk {
  max_velocity : f32;
  max_live_pressure_delta : f32;
  max_static_load_delta : f32;
  has_empty_adjacency : bool;
  has_water_adjacency : bool;
  has_mixed_material : bool;
  has_organism : bool;
  touched_this_frame : bool
}.
Definition default : t := mk fzero fzero fzero false false false false false.

Definition set_maxima (v l s : f32) (r : t) : t :=
  mk v l s (has_empty_adjacency r) (has_water_adjacency r) (has_mixed_material r) (has_organism r)
    (touched_this_frame r).
Definition set_has_empty_adjacency (b : bool) (r : t) : t :=
  mk (max_velocity r) (max_live_pressure_delta r) (max_static_load_delta r) b
    (has_water_adjacency r) (has_mixed_material r) (has_organism r) (touched_this_frame r).
Definition set_has_water_adjacency (b : bool) (r : t) : t :=
  mk (max_velocity r) (max_live_pressure_delta r) (max_static_load_delta r)
    (has_empty_adjacency r) b (has_mixed_material r) (has_organism r) (touched_this_frame r).
Definition set_has_mixed_material (b : bool) (r : t) : t :=
  mk (max_velocity r) (max_live_pressure_delta r) (max_static_load_delta r)
    (has_empty_adjacency r) (has_water_adjacency r) b (has_organism r) (touched_this_frame r).
Definition set_has_organism (b : bool) (r : t) : t :=
  mk (max_velocity r) (max_live_pressure_delta r) (max_static_load_delta r)
    (has_empty_adjacency r) (has_water_adjacency r) (has_mixed_material r) b (touched_this_frame r).
Definition set_touched_this_frame (b : bool) (r : t) : t :=
  mk (max_velocity r) (max_live_pressure_delta r) (max_static_load_delta r)
    (has_empty_adjacency r) (has_water_adjacency r) (has_mixed_material r) (has_organism r) b.
End RegionSummary.

(** [core/water/WaterVolumeView.h]: the span is its contents. *)
Record WaterVolumeView := mkWaterVolumeView {
  wv_width : Z;
  wv_height : Z;
  wv_volume : list f32
}.

(** What the tracker reads of the world. An organism id is the integer of its
    [StrongType]; 0 is [INVALID_ORGANISM_ID]. *)
Record World := mkWorld {
  data_width : Z;
  data_height : Z;
  data_cells : list Cell.t;
  gravity : f64;
  organism_grid : list Z;
  water_view : option WaterVolumeView
}.
Definition INVALID_ORGANISM_ID : Z := 0.

(** [WorldData::at]. *)
Definition data_at (world : World) (x y : Z) : res Cell.t :=
  dirtsim_assert ((0 <=? x) && (x <? data_width world) && (0 <=? y) && (y <? data_height world))
    "inBounds(x, y)" ;;!
  vec_get (data_cells world) (y * data_width world + x).

Module RegionDebugInfo.
Record t := mk { state : Z; wake_reason : Z }.
End RegionDebugInfo.

Module WorldRegionActivityTracker.

Definition REGION_SIZE : Z := 8.
Definition MIN_GRAVITY_DELTA : f64 := f64_lit 1 1000.

Record Config := mkConfig {
  quiet_frames_to_sleep : Z;
  live_pressure_delta_epsilon : f32;
  static_load_delta_epsilon : f32;
  velocity_epsilon : f32;
  keep_empty_adjacent_awake : bool;
  keep_mixed_material_awake : bool;
  keep_organism_regions_awake : bool;
  keep_water_adjacent_awake : bool
}.
Definition default_config : Config :=
  mkConfig 12 (f32_lit 2 100) (f32_lit 2 100) (f32_lit 1 100) true true true true.

Record t := mk {
  config_ : Config;
  world_width_ : Z;
  world_height_ : Z;
  blocks_x_ : Z;
  blocks_y_ : Z;
  previous_gravity_ : f64;
  previous_gravity_initialized_ : bool;
  previous_live_pressure_ : list f32;
  previous_static_load_ : list f32;
  region_meta_ : list RegionMeta.t;
  region_summary_ : list RegionSummary.t;
  cell_active_ : list bool;
  region_active_ : list bool;
  region_touched_this_frame_ : list bool;
  region_wake_requested_ : list bool;
  region_pending_wake_reason_ : list WakeReason.t
}.
Definition default : t :=
  mk default_config 0 0 0 0 fzero false [] [] [] [] [] [] [] [] [].

Definition set_config_ (c : Config) (s : t) : t :=
  mk c (world_width_ s) (world_height_ s) (blocks_x_ s) (blocks_y_ s) (previous_gravity_ s)
    (previous_gravity_initialized_ s) (previous_live_pressure_ s) (previous_static_load_ s)
    (region_meta_ s) (region_summary_ s) (cell_active_ s) (region_active_ s)
    (region_touched_this_frame_ s) (region_wake_requested_ s) (region_pending_wake_reason_ s).
Definition set_size (w h bx by_ : Z) (s : t) : t :=
  mk (config_ s) w h bx by_ (previous_gravity_ s)
    (previous_gravity_initialized_ s) (previous_live_pressure_ s) (previous_static_load_ s)
    (region_meta_ s) (region_summary_ s) (cell_active_ s) (region_active_ s)
    (region_touched_this_frame_ s) (region_wake_requested_ s) (region_pending_wake_reason_ s).
Definition set_previous_gravity_ (g : f64) (i : bool) (s : t) : t :=
  mk (config_ s) (world_width_ s) (world_height_ s) (blocks_x_ s) (blocks_y_ s) g i
    (previous_live_pressure_ s) (previous_static_load_ s)
    (region_meta_ s) (region_summary_ s) (cell_active_ s) (region_active_ s)
    (region_touched_this_frame_ s) (region_wake_requested_ s) (region_pending_wake_reason_ s).
Definition set_previous_fields (l s' : list f32) (s : t) : t :=
  mk (config_ s) (world_width_ s) (world_height_ s) (blocks_x_ s) (blocks_y_ s) (previous_gravity_ s)
    (previous_gravity_initialized_ s) l s'
    (region_meta_ s) (region_summary_ s) (cell_active_ s) (region_active_ s)
    (region_touched_this_frame_ s) (region_wake_requested_ s) (region_pending_wake_reason_ s).
Definition set_region_meta_ (m : list RegionMeta.t) (s : t) : t :=
  mk (config_ s) (world_width_ s) (world_height_ s) (blocks_x_ s) (blocks_y_ s) (previous_gravity_ s)
    (previous_gravity_initialized_ s) (previous_live_pressure_ s) (previous_static_load_ s)
    m (region_summary_ s) (cell_active_ s) (region_active_ s)
    (region_touched_this_frame_ s) (region_wake_requested_ s) (region_pending_wake_reason_ s).
Definition set_region_summary_ (v : list RegionSummary.t) (s : t) : t :=
  mk (config_ s) (world_width_ s) (world_height_ s) (blocks_x_ s) (blocks_y_ s) (previous_gravity_ s)
    (previous_gravity_initialized_ s) (previous_live_pressure_ s) (previous_static_load_ s)
    (region_meta_ s) v (cell_active_ s) (region_active_ s)
    (region_touched_this_frame_ s) (region_wake_requested_ s) (region_pending_wake_reason_ s).
Definition set_active (c r : list bool) (s : t) : t :=
  mk (config_ s) (world_width_ s) (world_height_ s) (blocks_x_ s) (blocks_y_ s) (previous_gravity_ s)
    (previous_gravity_initialized_ s) (previous_live_pressure_ s) (previous_static_load_ s)
    (region_meta_ s) (region_summary_ s) c r
    (region_touched_this_frame_ s) (region_wake_requested_ s) (region_pending_wake_reason_ s).
Definition set_wakes (touched requested : list bool) (reasons : list WakeReason.t) (s : t) : t :=
  mk (config_ s) (world_width_ s) (world_height_ s) (blocks_x_ s) (blocks_y_ s) (previous_gravity_ s)
    (previous_gravity_initialized_ s) (previous_live_pressure_ s) (previous_static_load_ s)
    (region_meta_ s) (region_summary_ s) (cell_active_ s) (region_active_ s)
    touched requested reasons.

(** *** File-local helpers *)
Definition isActiveState (state : RegionState.t) : bool :=
  match state with
  | RegionState.Awake | RegionState.LoadedQuiet => true
  | RegionState.Sleeping => false
  end.

Definition isWaterCell (cell : Cell.t) : bool :=
  negb (Cell.isEmpty cell) && (Material.to_Z (Cell.material_type cell) =? Material.to_Z Material.Water).

Definition kWaterVolumeEpsilon : f32 := f32_lit 1 10000.

Definition hasWaterVolumeAt (waterView : WaterVolumeView) (x y : Z) : bool :=
  if (x <? 0) || (y <? 0) || (wv_width waterView <=? x) || (wv_height waterView <=? y) then false
  else
    let idx := y * wv_width waterView + x in
    match wv_volume waterView !! Z.to_nat idx with
    | None => false
    | Some v => fgt v kWaterVolumeEpsilon
    end.

(** The two loops return at the first hit: the first of the nine offsets, in
    order, that holds water. *)
Definition hasWaterVolumeAdjacency (waterView : WaterVolumeView) (x y : Z) : bool :=
  existsb (fun dy => existsb (fun dx => hasWaterVolumeAt waterView (x + dx) (y + dy)) [-1; 0; 1])
    [-1; 0; 1].

Definition shouldForceAwake (summary : RegionSummary.t) (config : Config) : bool :=
  if RegionSummary.touched_this_frame summary then true
  else if fgt (RegionSummary.max_velocity summary) (velocity_epsilon config) then true
  else if fgt (RegionSummary.max_live_pressure_delta summary) (live_pressure_delta_epsilon config)
  then true
  else if fgt (RegionSummary.max_static_load_delta summary) (static_load_delta_epsilon config)
  then true
  else if keep_empty_adjacent_awake config && RegionSummary.has_empty_adjacency summary then true
  else if keep_mixed_material_awake config && RegionSummary.has_mixed_material summary then true
  else if keep_organism_regions_awake config && RegionSummary.has_organism summary then true
  else if keep_water_adjacent_awake config && RegionSummary.has_water_adjacency summary then true
  else false.

Definition saturatingIncrement (value : Z) : Z := if value =? 65535 then value else u16 (value + 1).

(** *** Sizes *)
Definition reset (s : t) : t :=
  let cell_count := Z.to_nat (Z.max (world_width_ s) 0 * Z.max (world_height_ s) 0) in
  let region_count := Z.to_nat (Z.max (blocks_x_ s) 0 * Z.max (blocks_y_ s) 0) in
  mk (config_ s) (world_width_ s) (world_height_ s) (blocks_x_ s) (blocks_y_ s) fzero false
    (replicate cell_count fzero) (replicate cell_count fzero)
    (replicate region_count RegionMeta.default) (replicate region_count RegionSummary.default)
    (replicate cell_count true) (replicate region_count true)
    (replicate region_count false) (replicate region_count false)
    (replicate region_count WakeReason.None).

Definition resize (world_width world_height blocks_x blocks_y : Z) (s : t) : t :=
  reset (set_size world_width world_height blocks_x blocks_y s).

Definition setConfig (config : Config) (s : t) : t := set_config_ config s.

Definition regionIndex (s : t) (block_x block_y : Z) : Z := block_y * blocks_x_ s + block_x.

(** C++ division truncates. *)
Definition cellToRegionIndex (s : t) (x y : Z) : Z :=
  regionIndex s (Z.quot x REGION_SIZE) (Z.quot y REGION_SIZE).

(** *** Wake requests *)
Definition noteWakeAtRegion (block_x block_y : Z) (reason : WakeReason.t) (s : t) : res t :=
  if (block_x <? 0) || (block_y <? 0) || (blocks_x_ s <=? block_x) || (blocks_y_ s <=? block_y)
  then Ok s
  else
    let idx := regionIndex s block_x block_y in
    let! touched := vec_set (region_touched_this_frame_ s) idx true in
    let! requested := vec_set (region_wake_requested_ s) idx true in
    let! pending := vec_get (region_pending_wake_reason_ s) idx in
    let! reasons := if bool_decide (pending = WakeReason.None)
                    then vec_set (region_pending_wake_reason_ s) idx reason
                    else Ok (region_pending_wake_reason_ s) in
    Ok (set_wakes touched requested reasons s).

Definition noteWakeAtCell (x y : Z) (reason : WakeReason.t) (s : t) : res t :=
  if (x <? 0) || (y <? 0) || (world_width_ s <=? x) || (world_height_ s <=? y) then Ok s
  else noteWakeAtRegion (Z.quot x REGION_SIZE) (Z.quot y REGION_SIZE) reason s.

Definition noteBlockedTransfer (x y : Z) (s : t) : res t :=
  noteWakeAtCell x y WakeReason.BlockedTransfer s.

Definition noteMaterialMove (from_x from_y to_x to_y : Z) (s : t) : res t :=
  let! s := noteWakeAtCell from_x from_y WakeReason.Move s in
  noteWakeAtCell to_x to_y WakeReason.Move s.

(** *** Masks *)
Definition apply_wake (timestep region_idx : Z) (s : t) : res t :=
  let! requested := vec_get (region_wake_requested_ s) region_idx in
  if negb requested then Ok s
  else
    let! reason := vec_get (region_pending_wake_reason_ s) region_idx in
    let! metas := vec_set (region_meta_ s) region_idx
                    (RegionMeta.mk RegionState.Awake 0 reason timestep) in
    let! requested := vec_set (region_wake_requested_ s) region_idx false in
    let! reasons := vec_set (region_pending_wake_reason_ s) region_idx WakeReason.None in
    Ok (set_wakes (region_touched_this_frame_ s) requested reasons (set_region_meta_ metas s)).

Definition applyWakeRequests (timestep : Z) (s : t) : res t :=
  for_range 0 (Z.of_nat (length (region_meta_ s))) (apply_wake timestep) s.

(** The halo of one block. *)
Definition mark_halo (block_x block_y : Z) (s : t) : res t :=
  for_range (Z.max 0 (block_y - 1)) (Z.min (blocks_y_ s - 1) (block_y + 1) + 1) (fun halo_y =>
    for_range (Z.max 0 (block_x - 1)) (Z.min (blocks_x_ s - 1) (block_x + 1) + 1) (fun halo_x s =>
      let! active := vec_set (region_active_ s) (regionIndex s halo_x halo_y) true in
      Ok (set_active (cell_active_ s) active s))) s.

Definition mark_block (block_x block_y : Z) (s : t) : res t :=
  let! meta := vec_get (region_meta_ s) (regionIndex s block_x block_y) in
  if negb (isActiveState (RegionMeta.state meta)) then Ok s else mark_halo block_x block_y s.

Definition mark_cell (x y : Z) (s : t) : res t :=
  let region_idx := cellToRegionIndex s x y in
  let cell_idx := y * world_width_ s + x in
  let! active := vec_get (region_active_ s) region_idx in
  let! cells := vec_set (cell_active_ s) cell_idx active in
  Ok (set_active cells (region_active_ s) s).

Definition buildActiveMasks (s : t) : res t :=
  let s := set_active (replicate (length (cell_active_ s)) false)
             (replicate (length (region_active_ s)) false) s in
  let! s := scan (blocks_x_ s) (blocks_y_ s) mark_block s in
  scan (world_width_ s) (world_height_ s) mark_cell s.

(** [if (world_width_ != grid.getWidth() || ...) resize(...)]. *)
Definition fit_to (grid : GridOfCells.t) (s : t) : t :=
  if negb (world_width_ s =? GridOfCells.getWidth grid)
     || negb (world_height_ s =? GridOfCells.getHeight grid)
     || negb (blocks_x_ s =? GridOfCells.getBlocksX grid)
     || negb (blocks_y_ s =? GridOfCells.getBlocksY grid)
  then resize (GridOfCells.getWidth grid) (GridOfCells.getHeight grid)
         (GridOfCells.getBlocksX grid) (GridOfCells.getBlocksY grid) s
  else s.

Definition beginFrame (world : World) (grid : GridOfCells.t) (timestep : Z) (s : t) : res t :=
  let s := fit_to grid s in
  let gravity := gravity world in
  let! s :=
    if negb (previous_gravity_initialized_ s) then Ok (set_previous_gravity_ gravity true s)
    else if fgt (f64_abs (f64_sub (previous_gravity_ s) gravity)) MIN_GRAVITY_DELTA then
      let! s := scan (blocks_x_ s) (blocks_y_ s)
        (fun block_x block_y => noteWakeAtRegion block_x block_y WakeReason.GravityChanged) s in
      Ok (set_previous_gravity_ gravity (previous_gravity_initialized_ s) s)
    else Ok s in
  let! s := applyWakeRequests timestep s in
  buildActiveMasks s.

(** *** Summaries *)

(** The summaries and primary materials while a frame is summarised. *)
Record Pass := mkPass {
  summaries : list RegionSummary.t;
  region_primary_material : list Z
}.

(** One cell, into the summary of its region: the body of the loop after
    [RegionSummary& summary = region_summary_[region_idx]]. *)
Definition summarize_cell (world : World) (grid : GridOfCells.t) (water : option WaterVolumeView)
    (s : t) (x y : Z) (p : Pass) : res Pass :=
  let cell_idx := y * data_width world + x in
  let region_idx := cellToRegionIndex s x y in
  let! cell := data_at world x y in
  let! summary := vec_get (summaries p) region_idx in
  let! previous_live := vec_get (previous_live_pressure_ s) cell_idx in
  let! previous_static := vec_get (previous_static_load_ s) cell_idx in
  let summary := RegionSummary.set_maxima
    (std_max (RegionSummary.max_velocity summary) (Vector2f_mag (Cell.velocity cell)))
    (std_max (RegionSummary.max_live_pressure_delta summary)
       (f32_abs (f32_sub (Cell.pressure cell) previous_live)))
    (std_max (RegionSummary.max_static_load_delta summary)
       (f32_abs (f32_sub (Cell.static_load cell) previous_static))) summary in
  let summary :=
    match organism_grid world !! Z.to_nat cell_idx with
    | Some id => if negb (id =? INVALID_ORGANISM_ID)
                 then RegionSummary.set_has_organism true summary else summary
    | None => summary
    end in
  let summary :=
    match water with
    | Some view => if hasWaterVolumeAdjacency view x y
                   then RegionSummary.set_has_water_adjacency true summary else summary
    | None => summary
    end in
  if Cell.isEmpty cell then
    let! summaries := vec_set (summaries p) region_idx summary in
    Ok (mkPass summaries (region_primary_material p))
  else
    let! empty_neighborhood := GridOfCells.getEmptyNeighborhood grid x y in
    let summary := if 0 <? EmptyNeighborhood.countEmptyNeighbors empty_neighborhood
                   then RegionSummary.set_has_empty_adjacency true summary else summary in
    let! material_neighborhood := GridOfCells.getMaterialNeighborhood grid x y in
    let summary :=
      if RegionSummary.has_water_adjacency summary || isWaterCell cell
         || (0 <? MaterialNeighborhood.countMaterial material_neighborhood
                    (Material.to_Z Material.Water))
      then RegionSummary.set_has_water_adjacency true summary else summary in
    if Cell.isWall cell then
      let! summaries := vec_set (summaries p) region_idx summary in
      Ok (mkPass summaries (region_primary_material p))
    else
      let material_value := Material.to_Z (Cell.material_type cell) in
      let! primary := vec_get (region_primary_material p) region_idx in
      if primary <? 0 then
        let! primaries := vec_set (region_primary_material p) region_idx material_value in
        let! summaries := vec_set (summaries p) region_idx summary in
        Ok (mkPass summaries primaries)
      else
        let summary := if negb (primary =? material_value)
                       then RegionSummary.set_has_mixed_material true summary else summary in
        let! summaries := vec_set (summaries p) region_idx summary in
        Ok (mkPass summaries (region_primary_material p)).

(** The summary a frame starts from. *)
Definition fresh_summary (touched : bool) : RegionSummary.t :=
  RegionSummary.set_touched_this_frame touched RegionSummary.default.

Definition touch_summary (s : t) (region_idx : Z) (summaries : list RegionSummary.t)
    : res (list RegionSummary.t) :=
  let! touched := vec_get (region_touched_this_frame_ s) region_idx in
  let! summary := vec_get summaries region_idx in
  vec_set summaries region_idx (RegionSummary.set_touched_this_frame touched summary).

(** The new meta of a region, from its summary. *)
Definition judge_region (config : Config) (summary : RegionSummary.t) (meta : RegionMeta.t)
    : RegionMeta.t :=
  if shouldForceAwake summary config then
    RegionMeta.mk RegionState.Awake 0 (RegionMeta.last_wake_reason meta)
      (RegionMeta.last_wake_step meta)
  else
    let quiet := saturatingIncrement (RegionMeta.quiet_frames meta) in
    RegionMeta.mk (if quiet_frames_to_sleep config <=? quiet then RegionState.Sleeping
                   else RegionState.LoadedQuiet)
      quiet (RegionMeta.last_wake_reason meta) (RegionMeta.last_wake_step meta).

Definition judge_step (s : t) (region_idx : Z) (metas : list RegionMeta.t)
    : res (list RegionMeta.t) :=
  let! meta := vec_get metas region_idx in
  let! summary := vec_get (region_summary_ s) region_idx in
  vec_set metas region_idx (judge_region (config_ s) summary meta).

(** [std::vector::resize(n, 0.0f)] when the sizes differ. *)
Definition fit_vector (v : list f32) (n : nat) : list f32 :=
  if negb (Nat.eqb (length v) n) then take n v ++ replicate (n - length v) fzero else v.

Definition snapshotPreviousFields (world : World) (s : t) : res t :=
  let n := length (data_cells world) in
  let live := fit_vector (previous_live_pressure_ s) n in
  let static := fit_vector (previous_static_load_ s) n in
  let! r := for_range 0 (Z.of_nat n) (fun idx r =>
      let! cell := vec_get (data_cells world) idx in
      let! live := vec_set (fst r) idx (Cell.pressure cell) in
      let! static := vec_set (snd r) idx (Cell.static_load cell) in
      Ok (live, static)) (live, static) in
  Ok (set_previous_fields (fst r) (snd r) s).

Definition usable_water (world : World) : option WaterVolumeView :=
  match water_view world with
  | Some v => if (wv_width v =? data_width world) && (wv_height v =? data_height world)
              then Some v else None
  | None => None
  end.

Definition summarizeFrame (world : World) (grid : GridOfCells.t) (s : t) : res t :=
  let s := fit_to grid s in
  let water := usable_water world in
  let summaries := replicate (length (region_summary_ s)) RegionSummary.default in
  let primary := replicate (length (region_meta_ s)) (-1) in
  let! summaries := for_range 0 (Z.of_nat (length summaries)) (touch_summary s) summaries in
  let! pass := scan (data_width world) (data_height world)
                 (summarize_cell world grid water s) (mkPass summaries primary) in
  let s := set_region_summary_ (WorldRegionActivityTracker.summaries pass) s in
  let! metas := for_range 0 (Z.of_nat (length (region_meta_ s))) (judge_step s) (region_meta_ s) in
  let s := set_region_meta_ metas s in
  let! s := snapshotPreviousFields world s in
  Ok (set_wakes (replicate (length (region_touched_this_frame_ s)) false)
        (region_wake_requested_ s) (region_pending_wake_reason_ s) s).

(** *** Queries *)
Definition isCellActive (s : t) (x y : Z) : bool :=
  if (x <? 0) || (y <? 0) || (world_width_ s <=? x) || (world_height_ s <=? y) then false
  else if bool_decide (cell_active_ s = []) then true
  else
    let idx := y * world_width_ s + x in
    match cell_active_ s !! Z.to_nat idx with Some b => b | None => false end.

Definition isRegionActive (s : t) (block_x block_y : Z) : res bool :=
  if (block_x <? 0) || (block_y <? 0) || (blocks_x_ s <=? block_x) || (blocks_y_ s <=? block_y)
  then Ok false
  else if bool_decide (region_active_ s = []) then Ok true
  else vec_get (region_active_ s) (regionIndex s block_x block_y).

Definition getRegionMeta (s : t) (block_x block_y : Z) : res RegionMeta.t :=
  if (block_x <? 0) || (block_y <? 0) || (blocks_x_ s <=? block_x) || (blocks_y_ s <=? block_y)
  then Ok RegionMeta.default
  else vec_get (region_meta_ s) (regionIndex s block_x block_y).

Definition getRegionSummary (s : t) (block_x block_y : Z) : res RegionSummary.t :=
  if (block_x <? 0) || (block_y <? 0) || (blocks_x_ s <=? block_x) || (blocks_y_ s <=? block_y)
  then Ok RegionSummary.default
  else vec_get (region_summary_ s) (regionIndex s block_x block_y).

Definition getRegionState (s : t) (block_x block_y : Z) : res RegionState.t :=
  let! meta := getRegionMeta s block_x block_y in Ok (RegionMeta.state meta).
Definition getLastWakeReason (s : t) (block_x block_y : Z) : res WakeReason.t :=
  let! meta := getRegionMeta s block_x block_y in Ok (RegionMeta.last_wake_reason meta).

Definition populateDebugInfo (s : t) : list RegionDebugInfo.t :=
  map (fun meta => RegionDebugInfo.mk (RegionState.to_Z (RegionMeta.state meta))
                     (WakeReason.to_Z (RegionMeta.last_wake_reason meta)))
    (region_meta_ s).

Definition getBlocksX (s : t) : Z := blocks_x_ s.
Definition getBlocksY (s : t) : Z := blocks_y_ s.

End WorldRegionActivityTracker.
