(* ===== verification/RegionMasks.v ===== *)
(** Which regions and cells are active after [beginFrame]. *)

From Stdlib Require Import ZArith Lia Bool String SpecFloat.
From stdpp Require Import base gmap option numbers list.
From S2P Require Import Prelude Ieee Material Bitmaps GridCache RegionActivity.

Set Default Goal Selector "!".

Import WorldRegionActivityTracker.

(** The number of 8-cell blocks that cover [n] cells. *)
Definition blocks (n : Z) : Z := (n + 7) / 8.

(** A tracker sized for a [w] x [h] world. *)
Record tracker_wf (w h : Z) (s : t) : Prop := mkTrackerWf {
  tw_w : world_width_ s = w /\ 0 <= w;
  tw_h : world_height_ s = h /\ 0 <= h;
  tw_bx : blocks_x_ s = blocks w;
  tw_by : blocks_y_ s = blocks h;
  tw_live : Z.of_nat (length (previous_live_pressure_ s)) = w * h;
  tw_static : Z.of_nat (length (previous_static_load_ s)) = w * h;
  tw_meta : Z.of_nat (length (region_meta_ s)) = blocks w * blocks h;
  tw_summary : Z.of_nat (length (region_summary_ s)) = blocks w * blocks h;
  tw_cells : Z.of_nat (length (cell_active_ s)) = w * h;
  tw_regions : Z.of_nat (length (region_active_ s)) = blocks w * blocks h;
  tw_touched : Z.of_nat (length (region_touched_this_frame_ s)) = blocks w * blocks h;
  tw_requested : Z.of_nat (length (region_wake_requested_ s)) = blocks w * blocks h;
  tw_pending : Z.of_nat (length (region_pending_wake_reason_ s)) = blocks w * blocks h
}.

Lemma default_tracker_wf : tracker_wf 0 0 default.
Proof. by split. Qed.

Lemma blocks_nonneg n : 0 <= n -> 0 <= blocks n.
Proof. intros. unfold blocks. apply Z.div_pos; lia. Qed.

Lemma block_of_cell x w : 0 <= x < w -> 0 <= Z.quot x 8 < blocks w /\ Z.quot x 8 = x / 8.
Proof.
  intros H. rewrite Z.quot_div_nonneg by lia. unfold blocks.
  pose proof (Z.div_mod x 8). pose proof (Z.mod_pos_bound x 8).
  pose proof (Z.div_mod (w + 7) 8). pose proof (Z.mod_pos_bound (w + 7) 8). lia.
Qed.

Lemma resize_wf w h s :
  0 <= w -> 0 <= h -> tracker_wf w h (resize w h (blocks w) (blocks h) s).
Proof.
  intros Hw Hh. pose proof (blocks_nonneg w Hw). pose proof (blocks_nonneg h Hh).
  unfold resize, reset. cbn [world_width_ world_height_ blocks_x_ blocks_y_ set_size].
  rewrite !Z.max_l by lia.
  split; simpl; rewrite ?length_replicate; try done; rewrite Z2Nat.id; lia.
Qed.

(** What the tracker needs of the grid cache: its size. *)
Definition grid_sized (w h : Z) (grid : GridOfCells.t) : Prop :=
  GridOfCells.getWidth grid = w /\ GridOfCells.getHeight grid = h /\
  GridOfCells.getBlocksX grid = blocks w /\ GridOfCells.getBlocksY grid = blocks h /\ 0 <= w /\ 0 <= h.

Lemma coherent_sized cells w h grid : coherent cells w h grid -> grid_sized w h grid.
Proof.
  intros ((_ & Ew & Eh) & ((Hw & Hh & Hbx & Hby & _) & Gw & Gh & _) & _).
  unfold grid_sized, GridOfCells.getWidth, GridOfCells.getHeight, GridOfCells.getBlocksX,
    GridOfCells.getBlocksY, CellBitmap.getBlocksX, CellBitmap.getBlocksY.
  rewrite Gw in Hw, Hbx. rewrite Gh in Hh, Hby. by repeat split; try lia.
Qed.

Lemma fit_to_wf w0 h0 w h grid s :
  tracker_wf w0 h0 s -> grid_sized w h grid -> tracker_wf w h (fit_to grid s).
Proof.
  intros Hs (Gw & Gh & Gbx & Gby & Hw & Hh). unfold fit_to. rewrite Gw, Gh, Gbx, Gby.
  destruct (negb (world_width_ s =? w) || _ || _ || _) eqn:E; [by apply resize_wf |].
  assert (w0 = w /\ h0 = h) as [-> ->]; [| done].
  pose proof (tw_w _ _ _ Hs). pose proof (tw_h _ _ _ Hs). lia.
Qed.

Lemma fit_to_id w h grid s : tracker_wf w h s -> grid_sized w h grid -> fit_to grid s = s.
Proof.
  intros Hs (Gw & Gh & Gbx & Gby & _). unfold fit_to. rewrite Gw, Gh, Gbx, Gby.
  destruct Hs as [[-> _] [-> _] -> ->]. by rewrite !Z.eqb_refl.
Qed.

(** ** Wake requests *)

(** The wake fields are all that differs. *)
Definition same_but_wakes (s s' : t) : Prop := exists a b c, s' = set_wakes a b c s.

(** Entry [i] of a vector, with a default for totality. *)
Definition entry {A} (d : A) (l : list A) (i : Z) : A :=
  match l !! Z.to_nat i with Some a => a | None => d end.
Definition requested (s : t) (i : Z) : bool := entry false (region_wake_requested_ s) i.
Definition touched (s : t) (i : Z) : bool := entry false (region_touched_this_frame_ s) i.
Definition pending (s : t) (i : Z) : WakeReason.t := entry WakeReason.None (region_pending_wake_reason_ s) i.
Definition meta (s : t) (i : Z) : RegionMeta.t := entry RegionMeta.default (region_meta_ s) i.

Lemma entry_lookup {A} (d : A) l i :
  0 <= i < Z.of_nat (length l) -> l !! Z.to_nat i = Some (entry d l i).
Proof. intros H. unfold entry. destruct (in_range_lookup l i H) as [x Hx]. by rewrite Hx. Qed.

Lemma entry_insert {A} (d : A) l i j x :
  0 <= i < Z.of_nat (length l) -> 0 <= j ->
  entry d (<[Z.to_nat i := x]> l) j = if decide (i = j) then x else entry d l j.
Proof. intros Hi Hj. unfold entry. rewrite lookup_insert_Z by done. by case_decide. Qed.

Lemma vec_get_entry {A} (d : A) l i :
  0 <= i < Z.of_nat (length l) -> vec_get l i = Ok (entry d l i).
Proof. intros H. apply vec_get_ok; [lia |]. by apply entry_lookup. Qed.

(** The regions of [Q] are woken: each is touched, a wake is requested, and the
    first reason since the last frame is the one kept. *)
Definition woken (s s' : t) (Q : Z -> bool) (reason : WakeReason.t) : Prop :=
  same_but_wakes s s' /\
  forall j, 0 <= j ->
    requested s' j = Q j || requested s j /\
    touched s' j = Q j || touched s j /\
    pending s' j = (if Q j && bool_decide (pending s j = WakeReason.None) then reason else pending s j).

Lemma woken_none s reason : woken s s (fun _ => false) reason.
Proof.
  split; [| done]. exists (region_touched_this_frame_ s), (region_wake_requested_ s), (region_pending_wake_reason_ s).
  by destruct s.
Qed.

Lemma woken_trans s s1 s2 Q R reason :
  woken s s1 Q reason -> woken s1 s2 R reason -> woken s s2 (fun j => Q j || R j) reason.
Proof.
  intros [(a & b & c & ->) H1] [(a' & b' & c' & ->) H2]. split; [by do 3 eexists |]. intros j Hj.
  destruct (H1 j Hj) as (E1 & E2 & E3). destruct (H2 j Hj) as (F1 & F2 & F3).
  rewrite F1, F2, F3, E1, E2, E3. split; [destruct (Q j), (R j); done |].
  split; [destruct (Q j), (R j); done |]. destruct (Q j), (R j); simpl; try done.
  repeat case_bool_decide; congruence.
Qed.

Lemma woken_ext s s' Q R reason :
  woken s s' Q reason -> (forall j, 0 <= j -> Q j = R j) -> woken s s' R reason.
Proof. intros [H1 H2] E. split; [done |]. intros j Hj. rewrite <- E by done. by apply H2. Qed.

Lemma same_but_wakes_wf w h s s' :
  same_but_wakes s s' -> tracker_wf w h s ->
  length (region_touched_this_frame_ s') = length (region_touched_this_frame_ s) ->
  length (region_wake_requested_ s') = length (region_wake_requested_ s) ->
  length (region_pending_wake_reason_ s') = length (region_pending_wake_reason_ s) ->
  tracker_wf w h s'.
Proof. intros (a & b & c & ->) [] H1 H2 H3. split; simpl in *; try done; congruence. Qed.

Lemma noteWakeAtRegion_ok w h s bx by_ reason :
  tracker_wf w h s -> 0 <= bx < blocks w -> 0 <= by_ < blocks h ->
  wp (noteWakeAtRegion bx by_ reason s) (fun s' => tracker_wf w h s' /\
    woken s s' (fun j => by_ * blocks w + bx =? j) reason).
Proof.
  intros Hs Hx Hy. pose proof (row_major_index (blocks w) (blocks h) bx by_ Hx Hy) as Hi.
  pose proof Hs as [_ _ Ex Ey _ _ _ _ _ _ Ht Hr Hp].
  unfold noteWakeAtRegion, regionIndex. rewrite Ex, Ey.
  destruct ((bx <? 0) || (by_ <? 0) || (blocks w <=? bx) || (blocks h <=? by_)) eqn:E; [lia |].
  set (i := by_ * blocks w + bx) in *. cbv zeta.
  rewrite !vec_set_ok, (vec_get_entry WakeReason.None) by lia. cbn [rbind].
  set (rs := if bool_decide (entry WakeReason.None (region_pending_wake_reason_ s) i = WakeReason.None) then <[Z.to_nat i := reason]> (region_pending_wake_reason_ s)
             else region_pending_wake_reason_ s).
  assert ((if bool_decide (entry WakeReason.None (region_pending_wake_reason_ s) i = WakeReason.None)
    then Ok (<[Z.to_nat i := reason]> (region_pending_wake_reason_ s))
    else Ok (region_pending_wake_reason_ s)) = Ok rs) as -> by (unfold rs; by destruct (bool_decide _)).
  cbn [rbind wp]. assert (length rs = length (region_pending_wake_reason_ s)) as Hrs
    by (unfold rs; destruct (bool_decide _); [apply length_insert | done]).
  split.
  - eapply same_but_wakes_wf; [by do 3 eexists | done | | |]; simpl; rewrite ?length_insert; done.
  - split; [by do 3 eexists |]. intros j Hj. unfold requested, touched, pending. simpl.
    rewrite !entry_insert by lia. unfold rs. destruct (decide (i = j)) as [<- | Hne].
    + rewrite Z.eqb_refl. split; [done |]. split; [done |]. simpl. case_bool_decide; [| done].
      by rewrite entry_insert, decide_True by lia.
    + replace (i =? j) with false by lia. split; [done |]. split; [done |]. simpl.
      case_bool_decide; [| done]. by rewrite entry_insert, decide_False by lia.
Qed.

Lemma noteWakeAtCell_ok w h s x y reason :
  tracker_wf w h s -> 0 <= x < w -> 0 <= y < h ->
  wp (noteWakeAtCell x y reason s) (fun s' => tracker_wf w h s' /\
    woken s s' (fun j => y / 8 * blocks w + x / 8 =? j) reason).
Proof.
  intros Hs Hx Hy. pose proof Hs as [[Ew _] [Eh _] _ _ _ _ _ _ _ _ _ _ _].
  unfold noteWakeAtCell. rewrite Ew, Eh.
  destruct ((x <? 0) || (y <? 0) || (w <=? x) || (h <=? y)) eqn:E; [lia |].
  destruct (block_of_cell x w Hx) as [Hbx Qx]. destruct (block_of_cell y h Hy) as [Hby Qy].
  unfold REGION_SIZE. rewrite Qx, Qy in *. by apply noteWakeAtRegion_ok.
Qed.

(** A change of gravity wakes every region. *)
Lemma wake_all_ok w h s :
  tracker_wf w h s ->
  wp (scan (blocks w) (blocks h) (fun bx by_ => noteWakeAtRegion bx by_ WakeReason.GravityChanged) s)
    (fun s' => tracker_wf w h s' /\
       woken s s' (fun j => j <? blocks h * blocks w) WakeReason.GravityChanged).
Proof.
  intros Hs. pose proof Hs as [[_ Hw] [_ Hh] _ _ _ _ _ _ _ _ _ _ _].
  apply (wp_scan (fun k s' => tracker_wf w h s' /\ woken s s' (fun j => j <? k) WakeReason.GravityChanged));
    [by apply blocks_nonneg | by apply blocks_nonneg | |].
  - split; [done |]. eapply woken_ext; [apply woken_none |]. simpl. intros. lia.
  - intros x y s1 Hx Hy [Hs1 W1]. eapply wp_mono; [by apply noteWakeAtRegion_ok |].
    intros s2 [Hs2 W2]. split; [done |]. eapply woken_ext; [by eapply woken_trans |].
    intros j Hj. simpl. lia.
Qed.

(** ** Applying the requests *)
Definition woken_meta (timestep : Z) (s : t) (i : nat) (m : RegionMeta.t) : RegionMeta.t :=
  if requested s (Z.of_nat i)
  then RegionMeta.mk RegionState.Awake 0 (pending s (Z.of_nat i)) timestep else m.
Definition spent_reason (s : t) (i : nat) (r : WakeReason.t) : WakeReason.t :=
  if requested s (Z.of_nat i) then WakeReason.None else r.

(** The state after the first [k] iterations. *)
Definition applied (timestep : Z) (s : t) (k : Z) : t :=
  set_wakes (region_touched_this_frame_ s) (upto_map k (fun _ _ => false) (region_wake_requested_ s))
    (upto_map k (spent_reason s) (region_pending_wake_reason_ s))
    (set_region_meta_ (upto_map k (woken_meta timestep s) (region_meta_ s)) s).

Lemma applyWakeRequests_ok w h timestep s :
  tracker_wf w h s -> applyWakeRequests timestep s = Ok (applied timestep s (blocks w * blocks h)).
Proof.
  intros Hs. pose proof Hs as [[_ Hw] [_ Hh] _ _ _ _ Hm _ _ _ _ Hr Hp].
  assert (wp (applyWakeRequests timestep s) (fun s' => s' = applied timestep s (blocks w * blocks h))) as H.
  2:{ apply wp_elim in H as (s' & -> & ->). done. }
  unfold applyWakeRequests. rewrite Hm.
  apply (wp_for_range (fun k s' => s' = applied timestep s k)).
  - pose proof (blocks_nonneg w Hw). pose proof (blocks_nonneg h Hh). nia.
  - unfold applied. rewrite !upto_map_0. by destruct s.
  - intros j s' Hj ->. unfold apply_wake, applied. simpl.
    pose proof (entry_lookup RegionMeta.default (region_meta_ s) j ltac:(lia)) as Em.
    pose proof (entry_lookup false (region_wake_requested_ s) j ltac:(lia)) as Er.
    pose proof (entry_lookup WakeReason.None (region_pending_wake_reason_ s) j ltac:(lia)) as Ep.
    fold (requested s j) in Er. fold (pending s j) in Ep.
    rewrite (upto_map_get _ _ _ _ (proj1 Hj) Er). cbn [rbind].
    destruct (requested s j) eqn:Ereq; cbn [negb].
    + rewrite (upto_map_get _ _ _ _ (proj1 Hj) Ep). cbn [rbind].
      assert (woken_meta timestep s (Z.to_nat j) (entry RegionMeta.default (region_meta_ s) j)
        = RegionMeta.mk RegionState.Awake 0 (pending s j) timestep) as Ew
        by (unfold woken_meta; by rewrite Z2Nat.id, Ereq by lia).
      assert (spent_reason s (Z.to_nat j) (pending s j) = WakeReason.None) as Es
        by (unfold spent_reason; by rewrite Z2Nat.id, Ereq by lia).
      rewrite <- Ew, (upto_map_step _ _ _ _ (proj1 Hj) Em). cbn [rbind].
      rewrite (upto_map_step _ (fun _ _ => false) _ _ (proj1 Hj) Er). cbn [rbind].
      rewrite <- Es, (upto_map_step _ (spent_reason s) _ _ (proj1 Hj) Ep). done.
    + cbn [wp]. rewrite (upto_map_skip j (woken_meta timestep s) _ _ (proj1 Hj) Em).
      2:{ unfold woken_meta. by rewrite Z2Nat.id, Ereq by lia. }
      rewrite (upto_map_skip j (fun _ _ => false) _ _ (proj1 Hj) Er) by done.
      rewrite (upto_map_skip j (spent_reason s) _ _ (proj1 Hj) Ep); [done |].
      unfold spent_reason. by rewrite Z2Nat.id, Ereq by lia.
Qed.

(** The fields of the result. *)
Lemma applied_fields w h timestep s j :
  tracker_wf w h s -> 0 <= j < blocks w * blocks h ->
  let s' := applied timestep s (blocks w * blocks h) in
  meta s' j = (if requested s j then RegionMeta.mk RegionState.Awake 0 (pending s j) timestep else meta s j) /\
  requested s' j = false /\ touched s' j = touched s j /\
  pending s' j = (if requested s j then WakeReason.None else pending s j).
Proof.
  intros Hs Hj. pose proof Hs as [_ _ _ _ _ _ Hm _ _ _ _ Hr Hp]. simpl.
  unfold meta, requested at 2, pending at 2, touched. simpl. unfold entry at 1 3 6.
  rewrite !upto_map_lookup, !(entry_lookup RegionMeta.default), !(entry_lookup false),
    !(entry_lookup WakeReason.None) by lia. simpl.
  rewrite Z2Nat.id by lia. replace (j <? blocks w * blocks h) with true by lia.
  unfold woken_meta, spent_reason. rewrite Z2Nat.id by lia. done.
Qed.

Lemma applied_wf w h timestep s k : tracker_wf w h s -> tracker_wf w h (applied timestep s k).
Proof. intros []. split; simpl; rewrite ?upto_map_length; done. Qed.

(** ** The masks *)
Definition near (ax ay x y : Z) : Prop := Z.abs (x - ax) <= 1 /\ Z.abs (y - ay) <= 1.

(** A region that is not asleep. *)
Definition awake (s : t) (i : Z) : bool := isActiveState (RegionMeta.state (meta s i)).

(** One of the regions around [(x, y)], itself included, is not asleep. *)
Definition awake_near (w h : Z) (s : t) (x y : Z) : Prop :=
  exists ax ay, 0 <= ax < blocks w /\ 0 <= ay < blocks h /\ near ax ay x y /\
    awake s (ay * blocks w + ax) = true.

Section BuildMasks.
Context (w h : Z) (s0 : t) (Hs0 : tracker_wf w h s0).

(** The region mask marks [P]; everything else is as in [s0]. *)
Definition region_marks (c : list bool) (P : Z -> Z -> Prop) (s : t) : Prop :=
  exists v, s = set_active c v s0 /\ marks (blocks w) (blocks h) v P.

Lemma region_marks_ext c P Q s :
  region_marks c P s -> (forall x y, 0 <= x < blocks w -> 0 <= y < blocks h -> P x y <-> Q x y) ->
  region_marks c Q s.
Proof. intros (v & -> & Hv) H. exists v. split; [done |]. by eapply marks_ext. Qed.

Lemma mark_halo_ok c P bx by_ s :
  0 <= bx < blocks w -> 0 <= by_ < blocks h -> region_marks c P s ->
  wp (mark_halo bx by_ s) (region_marks c (fun x y => P x y \/ near bx by_ x y)).
Proof.
  intros Hx Hy Hm. pose proof (tw_bx _ _ _ Hs0) as Ebx. pose proof (tw_by _ _ _ Hs0) as Eby.
  assert (blocks_x_ s = blocks w /\ blocks_y_ s = blocks h) as [Ex Ey]
    by (destruct Hm as (v & -> & _); done).
  unfold mark_halo. rewrite Ex, Ey.
  set (x1 := Z.max 0 (bx - 1)). set (x2 := Z.min (blocks w - 1) (bx + 1) + 1).
  set (y1 := Z.max 0 (by_ - 1)). set (y2 := Z.min (blocks h - 1) (by_ + 1) + 1).
  eapply wp_mono.
  - apply (wp_for_range (fun hy => region_marks c (fun x y =>
      P x y \/ (x1 <= x < x2 /\ y1 <= y < hy)))); [lia | |].
    + eapply region_marks_ext; [exact Hm |]. intros. simpl. split; [by left | intros [? | ?]; [done | lia]].
    + intros hy s1 Hhy Hm1. eapply wp_mono.
      * apply (wp_for_range (fun hx => region_marks c (fun x y =>
          (P x y \/ (x1 <= x < x2 /\ y1 <= y < hy)) \/ (x1 <= x < hx /\ y = hy)))); [lia | |].
        { eapply region_marks_ext; [exact Hm1 |]. intros. simpl. split; [by left | intros [? | ?]; [done | lia]]. }
        intros hx s2 Hhx (v & -> & Hv). unfold regionIndex. cbn [blocks_x_ set_active region_active_ cell_active_].
        rewrite Ebx. destruct (marks_set _ _ _ _ hx hy true Hv ltac:(lia) ltac:(lia)) as (v' & -> & Hv').
        cbn [rbind wp]. exists v'. split; [done |]. eapply marks_ext; [exact Hv' |].
        intros x y Hx' Hy'. simpl. case_decide as E; [split; [intros _; right; lia | done] |].
        split; [intros [[?|?]|?]; [by left; left | by left; right | right; lia] |].
        intros [[?|?]|?]; [by left; left | by left; right | right].
        destruct (decide (x = hx)); [exfalso; apply E; lia | lia].
      * intros s2 Hm2. eapply region_marks_ext; [exact Hm2 |]. intros x y _ _. simpl.
        split; [intros [[?|?]|?]; [by left | right; lia | right; lia] |].
        intros [?|?]; [by left; left |]. destruct (decide (y = hy)); [right; lia | left; right; lia].
  - intros s1 Hm1. eapply region_marks_ext; [exact Hm1 |]. intros x y Hx' Hy'. simpl.
    unfold near, x1, x2, y1, y2. split; (intros [?|?]; [by left | right; lia]).
Qed.

(** The blocks visited before index [k]. *)
Definition awake_before (k : Z) (x y : Z) : Prop :=
  exists ax ay, 0 <= ax < blocks w /\ 0 <= ay < blocks h /\ ay * blocks w + ax < k /\ near ax ay x y /\
    awake s0 (ay * blocks w + ax) = true.

Lemma mark_block_ok c bx by_ s :
  0 <= bx < blocks w -> 0 <= by_ < blocks h ->
  region_marks c (awake_before (by_ * blocks w + bx)) s ->
  wp (mark_block bx by_ s) (region_marks c (awake_before (by_ * blocks w + bx + 1))).
Proof.
  intros Hx Hy Hm. pose proof (row_major_index (blocks w) (blocks h) bx by_ Hx Hy).
  assert (region_meta_ s = region_meta_ s0 /\ blocks_x_ s = blocks w) as [Em Ex].
  { destruct Hm as (v & -> & _). split; [done |]. apply (tw_bx _ _ _ Hs0). }
  unfold mark_block, regionIndex. rewrite Em, Ex, (vec_get_entry RegionMeta.default)
    by (rewrite (tw_meta _ _ _ Hs0); lia).
  cbn [rbind]. fold (meta s0 (by_ * blocks w + bx)). fold (awake s0 (by_ * blocks w + bx)).
  destruct (awake s0 (by_ * blocks w + bx)) eqn:Ea; cbn [negb].
  - eapply wp_mono; [by apply mark_halo_ok |]. intros s' Hm'. eapply region_marks_ext; [exact Hm' |].
    intros x y _ _. simpl. split.
    + intros [(ax & ay & H1 & H2 & H3 & H4 & H5) | Hn]; [exists ax, ay | exists bx, by_];
        repeat split; try done; try lia; try apply H4; by apply Hn.
    + intros (ax & ay & H1 & H2 & H3 & H4 & H5).
      destruct (decide (ay * blocks w + ax = by_ * blocks w + bx)) as [E |].
      * destruct (row_major_index_inj (blocks w) ax ay bx by_ H1 Hx E) as [-> ->]. by right.
      * left. exists ax, ay. repeat split; try done; try lia; by apply H4.
  - cbn [wp]. eapply region_marks_ext; [exact Hm |]. intros x y _ _.
    split; intros (ax & ay & H1 & H2 & H3 & H4 & H5); exists ax, ay; (repeat split; try done; try lia); try by apply H4.
    destruct (decide (ay * blocks w + ax = by_ * blocks w + bx)) as [E |]; [| lia]. congruence.
Qed.

Lemma mark_cell_ok v P x y s c :
  marks (blocks w) (blocks h) v P -> 0 <= x < w -> 0 <= y < h ->
  s = set_active c v s0 -> marks w h c (fun x' y' => y' * w + x' < y * w + x /\ P (x' / 8) (y' / 8)) ->
  wp (mark_cell x y s) (fun s' => exists c', s' = set_active c' v s0 /\
    marks w h c' (fun x' y' => y' * w + x' < y * w + x + 1 /\ P (x' / 8) (y' / 8))).
Proof.
  intros Hv Hx Hy -> Hc. unfold mark_cell, cellToRegionIndex, regionIndex. simpl.
  pose proof (tw_bx _ _ _ Hs0) as ->. destruct (tw_w _ _ _ Hs0) as [-> _]. unfold REGION_SIZE.
  destruct (block_of_cell x w Hx) as [Hbx Qx]. destruct (block_of_cell y h Hy) as [Hby Qy].
  rewrite Qx, Qy in *. destruct (marks_get _ _ _ _ _ _ Hv Hbx Hby) as (b & -> & Hb). cbn [rbind].
  destruct (marks_set _ _ _ _ x y b Hc Hx Hy) as (c' & -> & Hc'). cbn [rbind wp].
  exists c'. split; [done |]. eapply marks_ext; [exact Hc' |]. intros x' y' Hx' Hy'. simpl.
  case_decide as E.
  - destruct E as [-> ->]. rewrite Hb. split; [intros; split; [lia | done] | by intros []].
  - split; intros [H1 H2]; (split; [| done]); [lia |].
    destruct (decide (y' * w + x' = y * w + x)) as [Ei |]; [| lia].
    destruct (row_major_index_inj w x' y' x y Hx' Hx Ei) as [-> ->]. by destruct E.
Qed.

Lemma buildActiveMasks_ok :
  wp (buildActiveMasks s0) (fun s' => exists c v, s' = set_active c v s0 /\
    marks (blocks w) (blocks h) v (awake_near w h s0) /\
    marks w h c (fun x y => awake_near w h s0 (x / 8) (y / 8))).
Proof.
  destruct (tw_w _ _ _ Hs0) as [Ew Hw]. destruct (tw_h _ _ _ Hs0) as [Eh Hh].
  pose proof (blocks_nonneg w Hw). pose proof (blocks_nonneg h Hh).
  unfold buildActiveMasks. set (c0 := replicate (length (cell_active_ s0)) false).
  set (r0 := replicate (length (region_active_ s0)) false). cbv zeta. cbn [blocks_x_ blocks_y_ set_active].
  rewrite (tw_bx _ _ _ Hs0), (tw_by _ _ _ Hs0). apply wp_bind. eapply wp_mono.
  { apply (wp_scan (fun k => region_marks c0 (awake_before k))); [lia | lia | |].
    - exists r0. split; [done |]. eapply marks_ext; [apply marks_clear; apply (tw_regions _ _ _ Hs0) |].
      intros x y _ _. split; [done |]. intros (ax & ay & H1 & H2 & H3 & _). nia.
    - intros x y s' Hx Hy Hm. by apply mark_block_ok. }
  intros s1 (v & -> & Hv).
  assert (marks (blocks w) (blocks h) v (awake_near w h s0)) as Hv'.
  { eapply marks_ext; [exact Hv |]. intros x y _ _. split.
    - intros (ax & ay & H1 & H2 & H3 & H4 & H5). by exists ax, ay.
    - intros (ax & ay & H1 & H2 & H3 & H4). exists ax, ay. repeat split; try done; try lia; try by apply H3.
      pose proof (row_major_index (blocks w) (blocks h) ax ay H1 H2). lia. }
  clear Hv. cbn [world_width_ world_height_ set_active]. rewrite Ew, Eh. eapply wp_mono.
  { apply (wp_scan (fun k s => exists c, s = set_active c v s0 /\
      marks w h c (fun x y => y * w + x < k /\ awake_near w h s0 (x / 8) (y / 8)))); [lia | lia | |].
    - exists c0. split; [done |]. eapply marks_ext; [apply marks_clear; apply (tw_cells _ _ _ Hs0) |].
      intros x y Hx Hy. simpl. split; [done |]. intros [? _]. nia.
    - intros x y s' Hx Hy (c & -> & Hc). by eapply mark_cell_ok. }
  intros s2 (c & -> & Hc). exists c, v. split; [done |]. split; [done |].
  eapply marks_ext; [exact Hc |]. intros x y Hx Hy. simpl.
  pose proof (row_major_index w h x y Hx Hy). split; [by intros [] |]. intros; split; [lia | done].
Qed.
End BuildMasks.

(** ** A frame begins *)
Definition gravity_changed (world : World) (s : t) : bool :=
  previous_gravity_initialized_ s
  && fgt (f64_abs (f64_sub (previous_gravity_ s) (gravity world))) MIN_GRAVITY_DELTA.

(** What a region's meta becomes. *)
Definition begun_meta (world : World) (timestep : Z) (s : t) (j : Z) : RegionMeta.t :=
  let g := gravity_changed world s in
  if g || requested s j then
    RegionMeta.mk RegionState.Awake 0
      (if g && bool_decide (pending s j = WakeReason.None) then WakeReason.GravityChanged else pending s j)
      timestep
  else meta s j.

(** The masks show which regions of [s'] are awake. *)
Definition masks_ok (w h : Z) (s' : t) : Prop :=
  marks (blocks w) (blocks h) (region_active_ s') (awake_near w h s') /\
  marks w h (cell_active_ s') (fun x y => awake_near w h s' (x / 8) (y / 8)).

Lemma set_active_wf w h s c v P Q :
  tracker_wf w h s -> marks w h c P -> marks (blocks w) (blocks h) v Q -> tracker_wf w h (set_active c v s).
Proof. intros [] [Hc _] [Hv _]. by split. Qed.

Lemma set_gravity_wf w h s g i : tracker_wf w h s -> tracker_wf w h (set_previous_gravity_ g i s).
Proof. intros []. by split. Qed.

(** What a frame keeps from its start to the summaries. *)
Definition same_fields (s s' : t) : Prop :=
  config_ s' = config_ s /\ previous_live_pressure_ s' = previous_live_pressure_ s /\
  previous_static_load_ s' = previous_static_load_ s.

(** The requests a frame starts from: the pending ones and those of gravity. *)
Lemma gravity_ok w h world s :
  tracker_wf w h s ->
  wp (if negb (previous_gravity_initialized_ s) then Ok (set_previous_gravity_ (gravity world) true s)
      else if fgt (f64_abs (f64_sub (previous_gravity_ s) (gravity world))) MIN_GRAVITY_DELTA then
        let! s := scan (blocks_x_ s) (blocks_y_ s)
          (fun block_x block_y => noteWakeAtRegion block_x block_y WakeReason.GravityChanged) s in
        Ok (set_previous_gravity_ (gravity world) (previous_gravity_initialized_ s) s)
      else Ok s)
    (fun s1 => tracker_wf w h s1 /\ same_fields s s1 /\
       previous_gravity_initialized_ s1 = true /\
       (gravity_changed world s = true \/ previous_gravity_initialized_ s = false ->
          previous_gravity_ s1 = gravity world) /\
       (gravity_changed world s = false -> previous_gravity_initialized_ s = true ->
          previous_gravity_ s1 = previous_gravity_ s) /\
       forall j, 0 <= j < blocks w * blocks h ->
       touched s1 j = gravity_changed world s || touched s j /\
       (if requested s1 j then RegionMeta.mk RegionState.Awake 0 (pending s1 j) else fun _ => meta s1 j)
       = (fun timestep => begun_meta world timestep s j)).
Proof.
  intros Hs. unfold begun_meta, gravity_changed. destruct (previous_gravity_initialized_ s) eqn:Ei; cbn [negb andb].
  2:{ cbn [wp]. split; [by apply set_gravity_wf |]. do 4 (split; [done |]). intros j _.
      change (requested (set_previous_gravity_ _ _ s) j) with (requested s j).
      change (pending (set_previous_gravity_ _ _ s) j) with (pending s j).
      change (meta (set_previous_gravity_ _ _ s) j) with (meta s j). split; [done |]. by destruct (requested s j). }
  destruct (fgt _ MIN_GRAVITY_DELTA).
  - rewrite (tw_bx _ _ _ Hs), (tw_by _ _ _ Hs). apply wp_bind. eapply wp_mono; [by apply wake_all_ok |].
    intros s1 [Hs1 [(a & b & c & ->) W]]. cbn [wp]. split; [by apply set_gravity_wf |].
    do 4 (split; [done |]). intros j Hj.
    destruct (W j ltac:(lia)) as (Er & Et & Ep).
    change (requested (set_previous_gravity_ ?g ?i ?x) j) with (requested x j).
    change (touched (set_previous_gravity_ ?g ?i ?x) j) with (touched x j).
    change (pending (set_previous_gravity_ ?g ?i ?x) j) with (pending x j).
    rewrite Er, Ep, Et. replace (j <? blocks h * blocks w) with true by lia. by cbn [orb andb].
  - cbn [wp]. split; [done |]. split; [done |]. split; [done |]. split; [by intros [] |].
    split; [done |]. intros j _. split; [done |]. by destruct (requested s j).
Qed.

(** What [beginFrame] leaves. *)
Record frame_begun (w h : Z) (world : World) (timestep : Z) (s s' : t) : Prop := mkFrameBegun {
  fb_wf : tracker_wf w h s';
  fb_masks : masks_ok w h s';
  fb_same : same_fields s s';
  fb_gravity_init : previous_gravity_initialized_ s' = true;
  fb_gravity_set : gravity_changed world s = true \/ previous_gravity_initialized_ s = false ->
    previous_gravity_ s' = gravity world;
  fb_gravity_kept : gravity_changed world s = false -> previous_gravity_initialized_ s = true ->
    previous_gravity_ s' = previous_gravity_ s;
  fb_regions : forall j, 0 <= j < blocks w * blocks h ->
    requested s' j = false /\ touched s' j = gravity_changed world s || touched s j /\
    meta s' j = begun_meta world timestep s j
}.

Lemma awake_near_ext w h s s' x y :
  (forall j, meta s' j = meta s j) -> awake_near w h s' x y <-> awake_near w h s x y.
Proof.
  intros E. unfold awake_near, awake. split; intros (ax & ay & H); exists ax, ay; [rewrite <- E | rewrite E]; done.
Qed.

Lemma beginFrame_ok w0 h0 w h world grid timestep s :
  tracker_wf w0 h0 s -> grid_sized w h grid ->
  wp (beginFrame world grid timestep s) (frame_begun w h world timestep (fit_to grid s)).
Proof.
  intros Hs Hg. pose proof (fit_to_wf _ _ _ _ _ _ Hs Hg) as Hf. unfold beginFrame.
  set (s1 := fit_to grid s) in *. clearbody s1. cbv zeta. apply wp_bind.
  eapply wp_mono; [by apply gravity_ok |]. intros s2 (H2 & (F1 & F2 & F3) & Gi & Gs & Gk & R).
  rewrite (applyWakeRequests_ok w h) by done. cbn [rbind].
  pose proof (applied_wf w h timestep s2 (blocks w * blocks h) H2) as H3.
  assert (forall j, 0 <= j < blocks w * blocks h -> _) as Happ
    by (intros j Hj; exact (applied_fields w h timestep s2 j H2 Hj)).
  set (s3 := applied timestep s2 _) in *.
  assert (same_fields s2 s3 /\ previous_gravity_initialized_ s3 = previous_gravity_initialized_ s2 /\
    previous_gravity_ s3 = previous_gravity_ s2) as ((E1 & E2 & E3) & Eg & Eg') by done.
  clearbody s3. eapply wp_mono; [by apply buildActiveMasks_ok |]. intros s' (c & v & -> & Hv & Hc).
  split.
  - by eapply set_active_wf.
  - exact (conj Hv Hc).
  - split; [| split]; simpl; congruence.
  - simpl. congruence.
  - intros H. simpl. rewrite Eg'. by apply Gs.
  - intros Hn Hi. simpl. rewrite Eg'. by apply Gk.
  - intros j Hj. destruct (R j Hj) as [Rt Rm]. destruct (Happ j Hj) as (Am & Ar & At & _).
    change (requested (set_active c v s3) j) with (requested s3 j).
    change (touched (set_active c v s3) j) with (touched s3 j).
    change (meta (set_active c v s3) j) with (meta s3 j). split; [done |]. split; [congruence |].
    rewrite Am, <- (f_equal (fun f => f timestep) Rm). by destruct (requested s2 j).
Qed.

Lemma make_sized cells w h grid :
  0 <= w <= 32767 -> 0 <= h <= 32767 -> Z.of_nat (length cells) = w * h ->
  GridOfCells.make cells w h = Ok grid -> coherent cells w h grid /\ grid_sized w h grid.
Proof.
  intros Hw Hh Hl Hg. pose proof (make_ok cells w h Hw Hh Hl) as H. rewrite Hg in H.
  split; [exact H | by eapply coherent_sized].
Qed.

Lemma region_active_query w h s bx by_ :
  tracker_wf w h s -> masks_ok w h s -> 0 <= bx < blocks w -> 0 <= by_ < blocks h ->
  exists b, isRegionActive s bx by_ = Ok b /\ (b = true <-> awake_near w h s bx by_).
Proof.
  intros Hs [Hm _] Hx Hy. pose proof (row_major_index (blocks w) (blocks h) bx by_ Hx Hy).
  unfold isRegionActive, regionIndex. rewrite (tw_bx _ _ _ Hs), (tw_by _ _ _ Hs).
  destruct ((bx <? 0) || (by_ <? 0) || (blocks w <=? bx) || (blocks h <=? by_)) eqn:E; [lia |].
  rewrite bool_decide_false; [by apply (marks_get _ _ _ _ _ _ Hm) |].
  intros En. destruct Hm as [Hl _]. rewrite En in Hl. simpl in Hl. lia.
Qed.

Lemma cell_active_query w h s x y :
  tracker_wf w h s -> masks_ok w h s -> 0 <= x < w -> 0 <= y < h ->
  isCellActive s x y = true <-> awake_near w h s (x / 8) (y / 8).
Proof.
  intros Hs [_ Hm] Hx Hy. pose proof (row_major_index w h x y Hx Hy).
  unfold isCellActive. destruct (tw_w _ _ _ Hs) as [-> _]. destruct (tw_h _ _ _ Hs) as [-> _].
  destruct ((x <? 0) || (y <? 0) || (w <=? x) || (h <=? y)) eqn:E; [lia |].
  rewrite bool_decide_false.
  - destruct Hm as [_ Hm]. destruct (Hm x y Hx Hy) as (b & -> & Hb). exact Hb.
  - intros En. destruct Hm as [Hl _]. rewrite En in Hl. simpl in Hl. lia.
Qed.

Lemma meta_query w h s bx by_ :
  tracker_wf w h s -> 0 <= bx < blocks w -> 0 <= by_ < blocks h ->
  getRegionMeta s bx by_ = Ok (meta s (by_ * blocks w + bx)).
Proof.
  intros Hs Hx Hy. pose proof (row_major_index (blocks w) (blocks h) bx by_ Hx Hy).
  unfold getRegionMeta, regionIndex. rewrite (tw_bx _ _ _ Hs), (tw_by _ _ _ Hs).
  destruct ((bx <? 0) || (by_ <? 0) || (blocks w <=? bx) || (blocks h <=? by_)) eqn:E; [lia |].
  apply vec_get_entry. rewrite (tw_meta _ _ _ Hs). lia.
Qed.

(** C24. Beginning a frame on the grid cache of a world never indexes out of
    range, whatever size the tracker had before. A region with a pending wake
    (or any region, when gravity changed) becomes awake with its first reason
    and the frame's step, every other region keeps its meta, and no request is
    left; a region is active exactly when it or one of its eight neighbours is
    not asleep, and a cell exactly when its region is. *)
Theorem region_masks (w0 h0 w h : Z) (cells : list Cell.t) (grid : GridOfCells.t) (world : World)
    (timestep : Z) (s : t) :
  tracker_wf w0 h0 s -> 0 <= w <= 32767 -> 0 <= h <= 32767 -> Z.of_nat (length cells) = w * h ->
  GridOfCells.make cells w h = Ok grid ->
  exists s', beginFrame world grid timestep s = Ok s' /\ tracker_wf w h s' /\
    (forall bx by_, 0 <= bx < blocks w -> 0 <= by_ < blocks h ->
       getRegionMeta s' bx by_ = Ok (begun_meta world timestep (fit_to grid s) (by_ * blocks w + bx)) /\
       requested s' (by_ * blocks w + bx) = false /\
       exists b, isRegionActive s' bx by_ = Ok b /\
         (b = true <-> exists nx ny, 0 <= nx < blocks w /\ 0 <= ny < blocks h /\ near nx ny bx by_ /\
            getRegionState s' nx ny <> Ok RegionState.Sleeping)) /\
    (forall x y, 0 <= x < w -> 0 <= y < h ->
       Ok (isCellActive s' x y) = isRegionActive s' (x / 8) (y / 8)).
Proof.
  intros Hs Hw Hh Hl Hg. destruct (make_sized _ _ _ _ Hw Hh Hl Hg) as [_ Hsz].
  pose proof (beginFrame_ok w0 h0 w h world grid timestep s Hs Hsz) as H.
  apply wp_elim in H as (s' & Hb & F). exists s'. split; [done |].
  pose proof (fb_wf _ _ _ _ _ _ F) as Hwf. pose proof (fb_masks _ _ _ _ _ _ F) as Hm.
  split; [done |]. split.
  - intros bx by_ Hx Hy. pose proof (row_major_index (blocks w) (blocks h) bx by_ Hx Hy).
    destruct (fb_regions _ _ _ _ _ _ F (by_ * blocks w + bx)) as (R1 & _ & R2); [lia |].
    rewrite (meta_query w h) by done. split; [by rewrite R2 |]. split; [done |].
    destruct (region_active_query w h s' bx by_ Hwf Hm Hx Hy) as (b & Eb & Hb'). exists b. split; [done |].
    rewrite Hb'. unfold awake_near. split; intros (ax & ay & H1 & H2 & H3 & H4); exists ax, ay;
      (split; [done |]); (split; [done |]); (split; [done |]); revert H4; unfold getRegionState;
      rewrite (meta_query w h) by done; cbn [rbind]; unfold awake;
      by destruct (RegionMeta.state (meta s' (ay * blocks w + ax))).
  - intros x y Hx Hy. destruct (block_of_cell x w Hx) as [Bx Qx]. destruct (block_of_cell y h Hy) as [By Qy].
    rewrite Qx in Bx. rewrite Qy in By.
    destruct (region_active_query w h s' (x / 8) (y / 8) Hwf Hm Bx By) as (b & -> & Hb').
    f_equal. apply eq_true_iff_eq. by rewrite Hb', (cell_active_query w h).
Qed.

Lemma cell_near_block x y w : 0 <= x < w -> 0 <= y < w -> Z.abs (x - y) <= 8 -> Z.abs (x / 8 - y / 8) <= 1.
Proof.
  intros Hx Hy H. pose proof (Z.div_mod x 8). pose proof (Z.mod_pos_bound x 8).
  pose proof (Z.div_mod y 8). pose proof (Z.mod_pos_bound y 8). lia.
Qed.

(** Moving material is never missed: after a move between two cells of the
    world is noted, the next frame has every cell within eight cells of either
    end active, and both regions are awake with a quiet count of zero, their wake
    reason being the move unless another was already pending. *)
Lemma move_wakes_neighbours (w h : Z) (cells : list Cell.t) (grid : GridOfCells.t) (world : World)
    (timestep fx fy tx ty : Z) (s : t) :
  tracker_wf w h s -> 0 <= w <= 32767 -> 0 <= h <= 32767 -> Z.of_nat (length cells) = w * h ->
  GridOfCells.make cells w h = Ok grid ->
  0 <= fx < w -> 0 <= fy < h -> 0 <= tx < w -> 0 <= ty < h ->
  exists s1 s', noteMaterialMove fx fy tx ty s = Ok s1 /\ beginFrame world grid timestep s1 = Ok s' /\
    (forall x y, 0 <= x < w -> 0 <= y < h ->
       (Z.abs (x - fx) <= 8 /\ Z.abs (y - fy) <= 8) \/ (Z.abs (x - tx) <= 8 /\ Z.abs (y - ty) <= 8) ->
       isCellActive s' x y = true) /\
    (forall x y, (x, y) = (fx, fy) \/ (x, y) = (tx, ty) ->
       let j := y / 8 * blocks w + x / 8 in
       getRegionMeta s' (x / 8) (y / 8) = Ok (RegionMeta.mk RegionState.Awake 0
         (if bool_decide (pending s j = WakeReason.None) then WakeReason.Move else pending s j) timestep)).
Proof.
  intros Hs Hw Hh Hl Hg Hfx Hfy Htx Hty. destruct (make_sized _ _ _ _ Hw Hh Hl Hg) as [_ Hsz].
  pose proof (noteWakeAtCell_ok w h s fx fy WakeReason.Move Hs Hfx Hfy) as N1.
  apply wp_elim in N1 as (sa & Ea & Hsa & Wa).
  pose proof (noteWakeAtCell_ok w h sa tx ty WakeReason.Move Hsa Htx Hty) as N2.
  apply wp_elim in N2 as (s1 & E1 & Hs1 & W1). pose proof (woken_trans _ _ _ _ _ _ Wa W1) as [Hsame W].
  exists s1. pose proof (beginFrame_ok w h w h world grid timestep s1 Hs1 Hsz) as H.
  rewrite (fit_to_id w h grid s1 Hs1 Hsz) in H. apply wp_elim in H as (s' & Hb & F). exists s'.
  split; [unfold noteMaterialMove; rewrite Ea; cbn [rbind]; exact E1 |]. split; [done |].
  assert (forall x y, (x, y) = (fx, fy) \/ (x, y) = (tx, ty) ->
    (0 <= x < w /\ 0 <= y < h) /\ meta s' (y / 8 * blocks w + x / 8) = RegionMeta.mk RegionState.Awake 0
       (if bool_decide (pending s (y / 8 * blocks w + x / 8) = WakeReason.None) then WakeReason.Move
        else pending s (y / 8 * blocks w + x / 8)) timestep) as Hends.
  { intros x y Hxy. assert (0 <= x < w /\ 0 <= y < h) as [Hx Hy] by (destruct Hxy as [[= -> ->] | [= -> ->]]; done).
    split; [done |]. destruct (block_of_cell x w Hx) as [Bx Qx]. destruct (block_of_cell y h Hy) as [By Qy].
    rewrite Qx in Bx. rewrite Qy in By. pose proof (row_major_index _ _ _ _ Bx By) as Hj.
    set (j := y / 8 * blocks w + x / 8) in *.
    destruct (fb_regions _ _ _ _ _ _ F j) as (_ & _ & ->); [lia |]. destruct (W j ltac:(lia)) as (Er & _ & Ep).
    assert ((fy / 8 * blocks w + fx / 8 =? j) || (ty / 8 * blocks w + tx / 8 =? j) = true) as Hq
      by (unfold j; destruct Hxy as [[= -> ->] | [= -> ->]]; rewrite Z.eqb_refl; rewrite ?orb_true_r; done).
    simpl in Er, Ep. rewrite Hq in Er, Ep. unfold begun_meta. rewrite Er, orb_true_r, Ep. f_equal. simpl.
    destruct (bool_decide (pending s j = WakeReason.None)) eqn:E.
    - by rewrite (bool_decide_false (WakeReason.Move = _)), andb_false_r by done.
    - by rewrite E, andb_false_r. }
  split.
  - intros x y Hx Hy Hnear. apply (cell_active_query w h); [apply F | apply F | done | done |].
    assert (forall ax ay, (ax, ay) = (fx, fy) \/ (ax, ay) = (tx, ty) -> Z.abs (x - ax) <= 8 ->
      Z.abs (y - ay) <= 8 -> awake_near w h s' (x / 8) (y / 8)) as Hgo.
    { intros ax ay Ha Hdx Hdy. destruct (Hends ax ay Ha) as [[Hax Hay] Em].
      destruct (block_of_cell ax w Hax) as [Bx Qx]. destruct (block_of_cell ay h Hay) as [By Qy].
      rewrite Qx in Bx. rewrite Qy in By. exists (ax / 8), (ay / 8). split; [done |]. split; [done |].
      split; [split; [by apply (cell_near_block _ _ w) | by apply (cell_near_block _ _ h)] |].
      unfold awake. by rewrite Em. }
    destruct Hnear as [[? ?] | [? ?]]; [apply (Hgo fx fy) | apply (Hgo tx ty)]; auto.
  - intros x y Hxy. destruct (Hends x y Hxy) as [[Hx Hy] Em].
    destruct (block_of_cell x w Hx) as [Bx Qx]. destruct (block_of_cell y h Hy) as [By Qy].
    rewrite Qx in Bx. rewrite Qy in By. cbv zeta. rewrite (meta_query w h) by (done || apply F). by rewrite Em.
Qed.

(** ** Witnesses *)
Definition demo_world : World := mkWorld 3 2 demo_cells (f64_lit 981 100) [] None.

Definition demo_grid : GridOfCells.t :=
  match GridOfCells.make demo_cells 3 2 with Ok g => g | Fault _ => 
    GridOfCells.mk [] (CellBitmap.mk 0 0 0 0 []) (CellBitmap.mk 0 0 0 0 []) [] [] 0 0 end.

Example region_masks_witness :
  exists s', beginFrame demo_world demo_grid 7 default = Ok s' /\
    Ok (isCellActive s' 2 1) = isRegionActive s' 0 0.
Proof.
  destruct (region_masks 0 0 3 2 demo_cells demo_grid demo_world 7 default) as (s' & H1 & _ & _ & H2).
  - exact default_tracker_wf.
  - lia.
  - lia.
  - reflexivity.
  - vm_compute. reflexivity.
  - exists s'. split; [exact H1 |]. exact (H2 2 1 ltac:(lia) ltac:(lia)).
Defined.

Example move_wakes_neighbours_witness :
  exists s1 s', noteMaterialMove 0 0 1 1 (resize 3 2 1 1 default) = Ok s1 /\
    beginFrame demo_world demo_grid 7 s1 = Ok s' /\ isCellActive s' 2 1 = true.
Proof.
  destruct (move_wakes_neighbours 3 2 demo_cells demo_grid demo_world 7 0 0 1 1 (resize 3 2 1 1 default))
    as (s1 & s' & H1 & H2 & H3 & _); try lia.
  - exact (resize_wf 3 2 default ltac:(lia) ltac:(lia)).
  - reflexivity.
  - vm_compute. reflexivity.
  - exists s1, s'. split; [exact H1 |]. split; [exact H2 |]. apply (H3 2 1); [lia | lia |]. left. lia.
Defined.
