(* ===== verification/RegionSummaries.v ===== *)
(** What [summarizeFrame] sees of each region, and when regions fall asleep. *)

From Stdlib Require Import ZArith Lia Bool String SpecFloat.
From stdpp Require Import base gmap option numbers list.
From S2P Require Import Prelude Ieee Material Bitmaps GridCache RegionActivity RegionMasks.

Set Default Goal Selector "!".

Import WorldRegionActivityTracker.

(** ** What a cell shows *)
Section Observations.
Variables (cells : list Cell.t) (w h : Z) (world : World) (s : t).

Definition the_cell (x y : Z) : Cell.t := entry Cell.default cells (y * w + x).
Definition speed (x y : Z) : f32 := Vector2f_mag (Cell.velocity (the_cell x y)).
Definition live_delta (x y : Z) : f32 :=
  f32_abs (f32_sub (Cell.pressure (the_cell x y)) (entry fzero (previous_live_pressure_ s) (y * w + x))).
Definition static_delta (x y : Z) : f32 :=
  f32_abs (f32_sub (Cell.static_load (the_cell x y)) (entry fzero (previous_static_load_ s) (y * w + x))).
Definition organism_at (x y : Z) : bool :=
  match organism_grid world !! Z.to_nat (y * w + x) with
  | Some id => negb (id =? INVALID_ORGANISM_ID)
  | None => false
  end.

(** One of the eight neighbours in the grid satisfies [P]. *)
Definition around (P : Z -> Z -> bool) (x y : Z) : bool :=
  existsb (fun p => nb_value w h P x y p) [0; 1; 2; 3; 5; 6; 7; 8].

Definition material_at (x y : Z) : bool := negb (Cell.isEmpty (the_cell x y)).
Definition exposed (x y : Z) : bool := material_at x y && around (emptyAt cells w) x y.
Definition water_volume_at (x y : Z) : bool :=
  match usable_water world with Some v => hasWaterVolumeAdjacency v x y | None => false end.
Definition is_water (x y : Z) : bool := matAt cells w h x y =? Material.to_Z Material.Water.
Definition wet (x y : Z) : bool :=
  water_volume_at x y || (material_at x y && (is_water x y || around is_water x y)).

(** The material of a cell that is neither empty nor wall. *)
Definition loose (x y : Z) : option Z :=
  if material_at x y && negb (Cell.isWall (the_cell x y))
  then Some (Material.to_Z (Cell.material_type (the_cell x y))) else None.

(** The summary and primary material of a region, with cell [(x, y)] added. *)
Definition add_cell (x y : Z) (p : RegionSummary.t * Z) : RegionSummary.t * Z :=
  let '(m, primary) := p in
  (RegionSummary.mk
     (std_max (RegionSummary.max_velocity m) (speed x y))
     (std_max (RegionSummary.max_live_pressure_delta m) (live_delta x y))
     (std_max (RegionSummary.max_static_load_delta m) (static_delta x y))
     (RegionSummary.has_empty_adjacency m || exposed x y)
     (RegionSummary.has_water_adjacency m || wet x y)
     (RegionSummary.has_mixed_material m ||
        match loose x y with Some v => negb (primary <? 0) && negb (primary =? v) | None => false end)
     (RegionSummary.has_organism m || organism_at x y)
     (RegionSummary.touched_this_frame m),
   match loose x y with Some v => if primary <? 0 then v else primary | None => primary end).
End Observations.

(** ** One cell of the scan *)
Section CellStep.
Context (cells : list Cell.t) (w h : Z) (grid : GridOfCells.t) (world : World) (s : t).
Context (Hgrid : coherent cells w h grid) (Hlen : Z.of_nat (length cells) = w * h).
Context (Hworld : data_width world = w /\ data_height world = h /\ data_cells world = cells).
Context (Hs : tracker_wf w h s).

Local Abbreviation region x y := (y / 8 * blocks w + x / 8).

Lemma count_around_pos f : (0 <? count_around f) = existsb f [0; 1; 2; 3; 5; 6; 7; 8].
Proof. unfold count_around. simpl. repeat (destruct (f _)); done. Qed.

Lemma empty_neighbours x y :
  0 <= x < w -> 0 <= y < h ->
  exists e, GridOfCells.getEmptyNeighborhood grid x y = Ok e /\
    (0 <? EmptyNeighborhood.countEmptyNeighbors e) = around w h (emptyAt cells w) x y.
Proof.
  intros Hx Hy. destruct Hgrid as ((Ec & Ew & Eh) & _ & _ & Hev & _).
  unfold GridOfCells.getEmptyNeighborhood. rewrite Ew, (read_row_major cells w h _ _ x y Hev Hx Hy).
  eexists. split; [done |]. unfold EmptyNeighborhood.countEmptyNeighbors. cbn [EmptyNeighborhood.data_].
  by rewrite countTrue_ok, count_around_pos.
Qed.

Lemma water_neighbours x y :
  0 <= x < w -> 0 <= y < h ->
  exists m, GridOfCells.getMaterialNeighborhood grid x y = Ok m /\
    (0 <? MaterialNeighborhood.countMaterial m (Material.to_Z Material.Water))
    = around w h (is_water cells w h) x y.
Proof.
  intros Hx Hy. destruct Hgrid as ((Ec & Ew & Eh) & _ & _ & _ & Hmv).
  unfold GridOfCells.getMaterialNeighborhood. rewrite Ew, (read_row_major cells w h _ _ x y Hmv Hx Hy).
  eexists. split; [done |]. unfold MaterialNeighborhood.countMaterial, MaterialNeighborhood.BITS_PER_MATERIAL.
  cbn [MaterialNeighborhood.data_]. change (seqZ 0 9) with [0; 1; 2; 3; 4; 5; 6; 7; 8].
  cbn [fold_left]. simpl (_ =? 4). cbv iota.
  rewrite !(mat_group_read cells w h x y) by lia.
  assert (forall p, nb_value w h (is_water cells w h) x y p
    = (matAt cells w h (nb_x x p) (nb_y y p) =? Material.to_Z Material.Water)) as E.
  { intros p. unfold nb_value, is_water, nb_valid. destruct (in_grid w h (nb_x x p) (nb_y y p)) eqn:G; [done |].
    unfold matAt. by rewrite G. }
  unfold around. cbn [existsb]. rewrite !E.
  repeat match goal with |- context [if ?b then _ else _] => destruct b; simpl end; done.
Qed.

Lemma the_cell_get x y :
  0 <= x < w -> 0 <= y < h -> data_at world x y = Ok (the_cell cells w x y) /\
  emptyAt cells w x y = Cell.isEmpty (the_cell cells w x y) /\
  matAt cells w h x y = Material.to_Z (Cell.material_type (the_cell cells w x y)).
Proof.
  intros Hx Hy. pose proof (row_major_index w h x y Hx Hy). destruct Hworld as (Dw & Dh & Dc).
  pose proof (entry_lookup Cell.default cells (y * w + x) ltac:(lia)) as E. split.
  - unfold data_at. rewrite Dw, Dh, Dc. unfold dirtsim_assert.
    replace ((0 <=? x) && (x <? w) && (0 <=? y) && (y <? h)) with true by lia. cbn [rbind].
    by rewrite (vec_get_entry Cell.default) by lia.
  - unfold emptyAt, matAt, cell_at. rewrite E, (proj2 (in_grid_iff w h x y)) by done. done.
Qed.

(** Adding a cell to the vectors of a pass. *)
Definition add_to (x y : Z) (p : Pass) : Pass :=
  let r := region x y in
  let q := add_cell cells w h world s x y
             (entry RegionSummary.default (summaries p) r, entry (-1) (region_primary_material p) r) in
  mkPass (<[Z.to_nat r := fst q]> (summaries p)) (<[Z.to_nat r := snd q]> (region_primary_material p)).

Definition pass_sized (p : Pass) : Prop :=
  Z.of_nat (length (summaries p)) = blocks w * blocks h /\
  Z.of_nat (length (region_primary_material p)) = blocks w * blocks h.

Lemma entry_insert_id {A} (d : A) l i :
  0 <= i < Z.of_nat (length l) -> <[Z.to_nat i := entry d l i]> l = l.
Proof. intros H. apply list_insert_id. by apply entry_lookup. Qed.

(** The two optional updates of the summary are disjunctions. *)
Lemma organism_case x y (m : RegionSummary.t) :
  match organism_grid world !! Z.to_nat (y * w + x) with
  | Some id => if negb (id =? INVALID_ORGANISM_ID) then RegionSummary.set_has_organism true m else m
  | None => m
  end = RegionSummary.set_has_organism (RegionSummary.has_organism m || organism_at w world x y) m.
Proof.
  unfold organism_at. destruct m, (organism_grid world !! _) as [id |]; simpl.
  - destruct (negb (id =? INVALID_ORGANISM_ID)); by rewrite ?orb_true_r, ?orb_false_r.
  - by rewrite orb_false_r.
Qed.

Lemma water_case x y (m : RegionSummary.t) :
  match usable_water world with
  | Some view => if hasWaterVolumeAdjacency view x y
                 then RegionSummary.set_has_water_adjacency true m else m
  | None => m
  end = RegionSummary.set_has_water_adjacency
          (RegionSummary.has_water_adjacency m || water_volume_at world x y) m.
Proof.
  unfold water_volume_at. destruct m, (usable_water world) as [v |]; simpl.
  - destruct (hasWaterVolumeAdjacency v x y); by rewrite ?orb_true_r, ?orb_false_r.
  - by rewrite orb_false_r.
Qed.

Lemma summarize_cell_ok x y p :
  0 <= x < w -> 0 <= y < h -> pass_sized p ->
  summarize_cell world grid (usable_water world) s x y p = Ok (add_to x y p).
Proof.
  intros Hx Hy [Hps Hpp]. pose proof (row_major_index w h x y Hx Hy) as Hi.
  destruct (block_of_cell x w Hx) as [Bx Qx]. destruct (block_of_cell y h Hy) as [By Qy].
  rewrite Qx in Bx. rewrite Qy in By. pose proof (row_major_index _ _ _ _ Bx By) as Hr.
  destruct (the_cell_get x y Hx Hy) as (Ecell & Eempty & Emat).
  destruct (empty_neighbours x y Hx Hy) as (e & Ee & Eexp).
  destruct (water_neighbours x y Hx Hy) as (m & Em & Ewat).
  destruct Hworld as (Dw & Dh & Dc).
  unfold summarize_cell, cellToRegionIndex, regionIndex, REGION_SIZE.
  rewrite Qx, Qy, (tw_bx _ _ _ Hs), Ecell, Dw. cbn [rbind]. cbv zeta.
  unfold add_to. set (r := y / 8 * blocks w + x / 8) in *.
  rewrite (vec_get_entry RegionSummary.default (summaries p)) by lia. cbn [rbind].
  rewrite !(vec_get_entry fzero) by (rewrite ?(tw_live _ _ _ Hs), ?(tw_static _ _ _ Hs); lia). cbn [rbind].
  rewrite Ee, Em. cbn [rbind]. rewrite Eexp, Ewat.
  rewrite (vec_get_entry (-1)) by lia. cbn [rbind].
  assert (is_water cells w h x y
    = (Material.to_Z (Cell.material_type (the_cell cells w x y)) =? Material.to_Z Material.Water)) as Ewc
    by (unfold is_water; by rewrite Emat).
  unfold add_cell, speed, live_delta, static_delta, exposed, wet, loose, material_at, isWaterCell.
  rewrite Ewc, organism_case, water_case.
  set (c := the_cell cells w x y) in *. set (s0 := entry RegionSummary.default (summaries p) r).
  set (pr := entry (-1) (region_primary_material p) r).
  set (og := organism_at w world x y). set (wv := water_volume_at world x y).
  clearbody og wv c. destruct s0 as [v l st em wa mi or_ to]. simpl.
  assert (<[Z.to_nat r := pr]> (region_primary_material p) = region_primary_material p) as Hid
    by (apply entry_insert_id; lia).
  destruct (Cell.isEmpty c); simpl.
  { rewrite vec_set_ok by lia. cbn [rbind fst snd]. by rewrite Hid, ?orb_false_r. }
  set (a1 := around w h (emptyAt cells w) x y). set (a2 := around w h (is_water cells w h) x y).
  set (wc := Material.to_Z (Cell.material_type c) =? 8). clearbody a1 a2 wc.
  destruct (Cell.isWall c); simpl.
  - destruct a1, wa, wv, wc, a2; simpl; rewrite vec_set_ok by lia; cbn [rbind];
      by rewrite Hid, ?orb_true_r, ?orb_false_r.
  - destruct (pr <? 0) eqn:Epr; cbn [negb andb].
    + rewrite (vec_set_ok (region_primary_material p)) by lia. cbn [rbind].
      destruct a1, wa, wv, wc, a2; simpl; rewrite vec_set_ok by lia; cbn [rbind];
        by rewrite ?orb_true_r, ?orb_false_r.
    + rewrite Hid. destruct (pr =? Material.to_Z (Cell.material_type c)); cbn [negb];
        destruct a1, wa, wv, wc, a2; simpl; rewrite vec_set_ok by lia; cbn [rbind];
        by rewrite ?orb_true_r, ?orb_false_r.
Qed.
End CellStep.

(** ** The whole scan *)
Section Scan.
Context (cells : list Cell.t) (w h : Z) (world : World) (s : t).

(** Some cell of region [r] among the first [k] cells satisfies [Q]. *)
Definition some_cell (k r : Z) (Q : Z -> Z -> Prop) : Prop :=
  exists x y, 0 <= x < w /\ 0 <= y < h /\ y * w + x < k /\ y / 8 * blocks w + x / 8 = r /\ Q x y.

Lemma some_cell_0 r Q : ~ some_cell 0 r Q.
Proof. intros (x & y & Hx & Hy & Hk & _). nia. Qed.

Lemma some_cell_step x y r Q :
  0 <= x < w -> 0 <= y < h ->
  some_cell (y * w + x + 1) r Q <-> some_cell (y * w + x) r Q \/ (y / 8 * blocks w + x / 8 = r /\ Q x y).
Proof.
  intros Hx Hy. split.
  - intros (x' & y' & Hx' & Hy' & Hk & Hr & HQ).
    destruct (decide (y' * w + x' = y * w + x)) as [E |].
    + destruct (row_major_index_inj w x' y' x y Hx' Hx E) as [-> ->]. by right.
    + left. exists x', y'. repeat split; try done; lia.
  - intros [(x' & y' & Hx' & Hy' & Hk & Hr & HQ) | [Hr HQ]].
    + exists x', y'. repeat split; try done; lia.
    + exists x, y. repeat split; try done; lia.
Qed.

(** A float accumulates the maximum of [f] over the cells seen. *)
Definition max_seen (k r : Z) (f : Z -> Z -> f32) (v : f32) : Prop :=
  not_nan v /\ forall e, fgt v e = true <-> fgt fzero e = true \/ some_cell k r (fun x y => fgt (f x y) e = true).

Lemma max_seen_step x y r f v :
  0 <= x < w -> 0 <= y < h -> y / 8 * blocks w + x / 8 = r ->
  max_seen (y * w + x) r f v -> max_seen (y * w + x + 1) r f (std_max v (f x y)).
Proof.
  intros Hx Hy Hr [Hn Hv]. split; [by apply std_max_not_nan |]. intros e.
  rewrite fgt_std_max, orb_true_iff, Hv, some_cell_step by done. tauto.
Qed.

Definition flag_seen (k r : Z) (f : Z -> Z -> bool) (b : bool) : Prop :=
  b = true <-> some_cell k r (fun x y => f x y = true).

Lemma flag_seen_step x y r f b :
  0 <= x < w -> 0 <= y < h -> y / 8 * blocks w + x / 8 = r ->
  flag_seen (y * w + x) r f b -> flag_seen (y * w + x + 1) r f (b || f x y).
Proof.
  intros Hx Hy Hr Hb. unfold flag_seen. rewrite orb_true_iff, some_cell_step by done.
  unfold flag_seen in Hb. tauto.
Qed.

Local Abbreviation loose := (loose cells w).

(** The primary material is that of a loose cell seen, if there is one, and the
    region is mixed when another loose cell seen has a different one. *)
Definition mix_seen (k r : Z) (mixed : bool) (primary : Z) : Prop :=
  (primary < 0 /\ mixed = false /\ ~ some_cell k r (fun x y => is_Some (loose x y))) \/
  (0 <= primary /\ some_cell k r (fun x y => loose x y = Some primary) /\
   (mixed = true <-> some_cell k r (fun x y => exists v, loose x y = Some v /\ v <> primary))).

Lemma loose_nonneg x y v : loose x y = Some v -> 0 <= v.
Proof.
  unfold RegionSummaries.loose. destruct (_ && _); [| done]. intros [= <-].
  pose proof (Material.to_Z_range (Cell.material_type (the_cell cells w x y))). lia.
Qed.

Lemma mix_seen_step x y r mixed primary :
  0 <= x < w -> 0 <= y < h -> y / 8 * blocks w + x / 8 = r ->
  mix_seen (y * w + x) r mixed primary ->
  mix_seen (y * w + x + 1) r
    (mixed || match loose x y with Some v => negb (primary <? 0) && negb (primary =? v) | None => false end)
    (match loose x y with Some v => if primary <? 0 then v else primary | None => primary end).
Proof.
  intros Hx Hy Hr Hm. unfold mix_seen. rewrite !some_cell_step by done.
  destruct (loose x y) as [v |] eqn:El.
  - pose proof (loose_nonneg _ _ _ El). right.
    destruct Hm as [(Hp & -> & Hn) | (Hp & Hs & Hm)].
    + replace (primary <? 0) with true by lia. simpl. split; [lia |]. split; [by right |].
      split; [done |]. intros [Hc | (_ & v' & [= <-] & ?)]; [| done].
      exfalso. apply Hn. destruct Hc as (x' & y' & H1 & H2 & H3 & H4 & v' & H5 & _).
      exists x', y'. do 4 (split; [done |]). by eexists.
    + replace (primary <? 0) with false by lia. simpl. split; [lia |]. split; [by left |].
      rewrite orb_true_iff, Hm. split.
      * intros [? | Hne]; [by left |]. right. split; [done |]. exists v. split; [done |]. lia.
      * intros [? | (_ & v' & [= <-] & ?)]; [by left |]. right. lia.
  - rewrite orb_false_r. destruct Hm as [(Hp & Hm & Hn) | (Hp & Hs & Hm)].
    + left. split; [done |]. split; [done |]. intros [? | [_ [? ?]]]; done.
    + right. split; [done |]. split; [by left |]. rewrite Hm. split; [by left |].
      intros [? | (_ & v' & ? & _)]; done.
Qed.

(** The summary of region [r] after [k] cells. *)
Record region_seen (k r : Z) (m : RegionSummary.t) (primary : Z) : Prop := mkRegionSeen {
  rs_touched : RegionSummary.touched_this_frame m = touched s r;
  rs_velocity : max_seen k r (speed cells w) (RegionSummary.max_velocity m);
  rs_live : max_seen k r (live_delta cells w s) (RegionSummary.max_live_pressure_delta m);
  rs_static : max_seen k r (static_delta cells w s) (RegionSummary.max_static_load_delta m);
  rs_empty : flag_seen k r (exposed cells w h) (RegionSummary.has_empty_adjacency m);
  rs_wet : flag_seen k r (wet cells w h world) (RegionSummary.has_water_adjacency m);
  rs_organism : flag_seen k r (organism_at w world) (RegionSummary.has_organism m);
  rs_mixed : mix_seen k r (RegionSummary.has_mixed_material m) primary
}.

Lemma region_seen_start r : region_seen 0 r (fresh_summary (touched s r)) (-1).
Proof.
  assert (forall Q, some_cell 0 r Q <-> False) as E by (intros Q; split; [apply some_cell_0 | done]).
  assert (forall f, max_seen 0 r f fzero) as Hmax
    by (intros f; split; [done |]; intros e; rewrite E; tauto).
  assert (forall f, flag_seen 0 r f false) as Hflag by (intros f; unfold flag_seen; by rewrite E).
  split; [done | apply Hmax | apply Hmax | apply Hmax | apply Hflag | apply Hflag | apply Hflag |].
  left. split; [lia |]. split; [done | by intros ?%E].
Qed.

Lemma region_seen_step x y r m primary :
  0 <= x < w -> 0 <= y < h -> region_seen (y * w + x) r m primary ->
  let q := if y / 8 * blocks w + x / 8 =? r then add_cell cells w h world s x y (m, primary)
           else (m, primary) in
  region_seen (y * w + x + 1) r (fst q) (snd q).
Proof.
  intros Hx Hy H. cbv zeta. destruct (Z.eqb_spec (y / 8 * blocks w + x / 8) r) as [Er | Hne].
  - destruct H. unfold add_cell. cbn [fst snd]. split; simpl;
      [done | by apply max_seen_step | by apply max_seen_step | by apply max_seen_step
      | by apply flag_seen_step | by apply flag_seen_step | by apply flag_seen_step
      | by apply mix_seen_step].
  - assert (forall Q, some_cell (y * w + x + 1) r Q <-> some_cell (y * w + x) r Q) as E.
    { intros Q. rewrite some_cell_step by done. tauto. }
    cbn [fst snd]. destruct H as [H1 [V1 V2] [L1 L2] [S1 S2] H2 H3 H4 H5]. split; try done.
    + split; [done |]. intros e. by rewrite E.
    + split; [done |]. intros e. by rewrite E.
    + split; [done |]. intros e. by rewrite E.
    + unfold flag_seen. by rewrite E.
    + unfold flag_seen. by rewrite E.
    + unfold flag_seen. by rewrite E.
    + unfold mix_seen. by rewrite !E.
Qed.
End Scan.

(** ** A frame is summarised *)
Section Summarize.
Context (cells : list Cell.t) (w h : Z) (grid : GridOfCells.t) (world : World) (s : t).
Context (Hgrid : coherent cells w h grid) (Hlen : Z.of_nat (length cells) = w * h).
Context (Hworld : data_width world = w /\ data_height world = h /\ data_cells world = cells).
Context (Hs : tracker_wf w h s).

(** All regions after [k] cells. *)
Definition pass_seen (k : Z) (p : Pass) : Prop :=
  pass_sized w h p /\ forall r, 0 <= r < blocks w * blocks h ->
    region_seen cells w h world s k r (entry RegionSummary.default (summaries p) r)
      (entry (-1) (region_primary_material p) r).

Lemma pass_step x y p :
  0 <= x < w -> 0 <= y < h -> pass_seen (y * w + x) p ->
  wp (summarize_cell world grid (usable_water world) s x y p) (pass_seen (y * w + x + 1)).
Proof.
  intros Hx Hy [[Hl1 Hl2] Hp].
  rewrite (summarize_cell_ok cells w h grid world s Hgrid Hlen Hworld Hs) by done. cbn [wp].
  destruct (block_of_cell x w Hx) as [Bx Qx]. destruct (block_of_cell y h Hy) as [By Qy].
  rewrite Qx in Bx. rewrite Qy in By. pose proof (row_major_index _ _ _ _ Bx By) as Hr0.
  unfold add_to. set (r0 := y / 8 * blocks w + x / 8) in *. cbv zeta.
  split; [split; simpl; by rewrite length_insert |]. intros r Hr. simpl.
  rewrite !entry_insert by lia.
  pose proof (region_seen_step cells w h world s x y r _ _ Hx Hy (Hp r Hr)) as H. cbv zeta in H. fold r0 in H.
  destruct (Z.eqb_spec r0 r) as [-> | Hne]; [by rewrite !decide_True | by rewrite !decide_False].
Qed.

(** The summaries a pass starts from. *)
Lemma touch_ok n :
  Z.of_nat n = blocks w * blocks h ->
  wp (for_range 0 (Z.of_nat n) (touch_summary s) (replicate n RegionSummary.default))
    (fun v => Z.of_nat (length v) = blocks w * blocks h /\
       forall r, 0 <= r < blocks w * blocks h -> entry RegionSummary.default v r = fresh_summary (touched s r)).
Proof.
  intros Hn. set (f := fun (i : nat) (_ : RegionSummary.t) => fresh_summary (touched s (Z.of_nat i))).
  eapply wp_mono.
  - apply (wp_for_range (fun k v => v = upto_map k f (replicate n RegionSummary.default))); [lia | by rewrite upto_map_0 |].
    intros j v Hj ->. unfold touch_summary.
    assert (replicate n RegionSummary.default !! Z.to_nat j = Some RegionSummary.default) as E
      by (apply lookup_replicate; split; [done | lia]).
    rewrite (vec_get_entry false) by (rewrite (tw_touched _ _ _ Hs); lia). cbn [rbind].
    rewrite (upto_map_get _ f _ _ (proj1 Hj) E). cbn [rbind].
    change (RegionSummary.set_touched_this_frame _ RegionSummary.default) with (fresh_summary (touched s j)).
    replace (fresh_summary (touched s j)) with (f (Z.to_nat j) RegionSummary.default)
      by (unfold f; by rewrite Z2Nat.id by lia).
    by rewrite (upto_map_step _ f _ _ (proj1 Hj) E).
  - intros v ->. rewrite upto_map_length, length_replicate. split; [done |]. intros r Hr.
    unfold entry. rewrite upto_map_lookup.
    rewrite lookup_replicate_2 by lia. simpl.
    rewrite (proj2 (Z.ltb_lt _ _)) by lia. unfold f. by rewrite Z2Nat.id by lia.
Qed.

Lemma scan_ok v :
  Z.of_nat (length v) = blocks w * blocks h ->
  (forall r, 0 <= r < blocks w * blocks h -> entry RegionSummary.default v r = fresh_summary (touched s r)) ->
  wp (scan (data_width world) (data_height world) (summarize_cell world grid (usable_water world) s)
        (mkPass v (replicate (length (region_meta_ s)) (-1)))) (pass_seen (h * w)).
Proof.
  intros Hv Hf. destruct Hworld as (-> & -> & _). destruct (tw_w _ _ _ Hs) as [_ Hw]. destruct (tw_h _ _ _ Hs) as [_ Hh].
  pose proof (tw_meta _ _ _ Hs) as Hm. apply (wp_scan pass_seen); [done | done | |].
  - split; [split; simpl; [done | by rewrite length_replicate] |]. intros r Hr. simpl. rewrite Hf by done.
    unfold entry. rewrite lookup_replicate_2 by lia.
    apply region_seen_start.
  - intros x y p Hx Hy Hp. by apply pass_step.
Qed.

(** The metas after the judgement. *)
Lemma judge_ok s1 :
  Z.of_nat (length (region_meta_ s1)) = blocks w * blocks h ->
  Z.of_nat (length (region_summary_ s1)) = blocks w * blocks h ->
  wp (for_range 0 (Z.of_nat (length (region_meta_ s1))) (judge_step s1) (region_meta_ s1))
    (fun v => Z.of_nat (length v) = blocks w * blocks h /\
       forall r, 0 <= r < blocks w * blocks h -> entry RegionMeta.default v r
         = judge_region (config_ s1) (entry RegionSummary.default (region_summary_ s1) r) (meta s1 r)).
Proof.
  intros Hm Hsum.
  set (f := fun (i : nat) m => judge_region (config_ s1)
              (entry RegionSummary.default (region_summary_ s1) (Z.of_nat i)) m).
  eapply wp_mono.
  - apply (wp_for_range (fun k v => v = upto_map k f (region_meta_ s1))); [lia | by rewrite upto_map_0 |].
    intros j v Hj ->. unfold judge_step.
    pose proof (entry_lookup RegionMeta.default (region_meta_ s1) j Hj) as E.
    rewrite (upto_map_get _ f _ _ (proj1 Hj) E). cbn [rbind].
    rewrite (vec_get_entry RegionSummary.default) by lia. cbn [rbind].
    replace (judge_region _ _ _) with (f (Z.to_nat j) (entry RegionMeta.default (region_meta_ s1) j))
      by (unfold f; by rewrite Z2Nat.id by lia).
    by rewrite (upto_map_step _ f _ _ (proj1 Hj) E).
  - intros v ->. rewrite upto_map_length. split; [done |]. intros r Hr.
    unfold meta, entry at 1. rewrite upto_map_lookup, (entry_lookup RegionMeta.default) by lia. simpl.
    rewrite (proj2 (Z.ltb_lt _ _)) by lia. unfold f. by rewrite Z2Nat.id by lia.
Qed.

(** The previous fields become those of the world. *)
Lemma snapshot_ok s1 :
  Z.of_nat (length (previous_live_pressure_ s1)) = w * h ->
  Z.of_nat (length (previous_static_load_ s1)) = w * h ->
  wp (snapshotPreviousFields world s1) (fun s2 =>
    s2 = set_previous_fields (map Cell.pressure cells) (map Cell.static_load cells) s1).
Proof.
  intros Hl Hst. destruct Hworld as (_ & _ & Dc). unfold snapshotPreviousFields. rewrite Dc. cbv zeta.
  assert (forall v : list f32, Z.of_nat (length v) = w * h -> fit_vector v (length cells) = v) as Hfit.
  { intros v Hv. unfold fit_vector. by replace (length v) with (length cells) by lia; rewrite Nat.eqb_refl. }
  rewrite !Hfit by done. apply wp_bind.
  set (f := fun (g : Cell.t -> f32) (i : nat) (_ : f32) => g (entry Cell.default cells (Z.of_nat i))).
  assert (forall g v, length v = length cells -> imap (f g) v = map g cells) as Hall.
  { intros g v Hv. apply list_eq. intros i. rewrite list_lookup_imap, list_lookup_fmap.
    destruct (v !! i) as [a |] eqn:E.
    - destruct (lookup_lt_is_Some_2 cells i) as [c Hc]; [apply lookup_lt_Some in E; lia |].
      simpl. unfold f, entry. by rewrite Nat2Z.id, Hc.
    - apply lookup_ge_None in E. by rewrite (lookup_ge_None_2 cells) by lia. }
  eapply wp_mono.
  - apply (wp_for_range (fun k r => r = (upto_map k (f Cell.pressure) (previous_live_pressure_ s1),
                                         upto_map k (f Cell.static_load) (previous_static_load_ s1))));
      [lia | by rewrite !upto_map_0 |].
    intros j r Hj ->. rewrite (vec_get_entry Cell.default) by done. cbn [rbind fst snd].
    pose proof (entry_lookup fzero (previous_live_pressure_ s1) j ltac:(lia)) as E1.
    pose proof (entry_lookup fzero (previous_static_load_ s1) j ltac:(lia)) as E2.
    assert (forall g a, g (entry Cell.default cells j) = f g (Z.to_nat j) a) as Ef
      by (intros g a; unfold f; by rewrite Z2Nat.id by lia).
    rewrite (Ef Cell.pressure (entry fzero (previous_live_pressure_ s1) j)),
      (Ef Cell.static_load (entry fzero (previous_static_load_ s1) j)).
    rewrite (upto_map_step _ _ _ _ (proj1 Hj) E1). cbn [rbind].
    by rewrite (upto_map_step _ _ _ _ (proj1 Hj) E2).
  - intros r ->. cbn [wp fst snd].
    replace (Z.of_nat (length cells)) with (Z.of_nat (length (previous_live_pressure_ s1))) at 1 by lia.
    replace (Z.of_nat (length cells)) with (Z.of_nat (length (previous_static_load_ s1))) by lia.
    rewrite !upto_map_all, !Hall by lia. done.
Qed.
End Summarize.

(** ** What keeps a region awake *)
Definition in_region (w h r x y : Z) : Prop :=
  0 <= x < w /\ 0 <= y < h /\ y / 8 * blocks w + x / 8 = r.

(** Something in the region moves, changes load or pressure, touches what the
    configuration keeps awake, or two of its loose cells differ in material. *)
Definition region_busy (cells : list Cell.t) (w h : Z) (world : World) (s : t) (r : Z) : Prop :=
  let c := config_ s in
  touched s r = true \/
  (exists x y, in_region w h r x y /\
     (fgt (speed cells w x y) (velocity_epsilon c) = true \/
      fgt (live_delta cells w s x y) (live_pressure_delta_epsilon c) = true \/
      fgt (static_delta cells w s x y) (static_load_delta_epsilon c) = true \/
      (keep_empty_adjacent_awake c = true /\ exposed cells w h x y = true) \/
      (keep_organism_regions_awake c = true /\ organism_at w world x y = true) \/
      (keep_water_adjacent_awake c = true /\ wet cells w h world x y = true))) \/
  (keep_mixed_material_awake c = true /\
   exists x y x' y' v v', in_region w h r x y /\ in_region w h r x' y' /\
     loose cells w x y = Some v /\ loose cells w x' y' = Some v' /\ v <> v').

(** The thresholds are not negative. *)
Definition config_ok (c : Config) : Prop :=
  fgt fzero (velocity_epsilon c) = false /\ fgt fzero (live_pressure_delta_epsilon c) = false /\
  fgt fzero (static_load_delta_epsilon c) = false.

Lemma default_config_ok : config_ok default_config.
Proof. split; [| split]; vm_compute; reflexivity. Qed.

Lemma some_cell_all w h r Q :
  some_cell w h (h * w) r Q <-> exists x y, in_region w h r x y /\ Q x y.
Proof.
  unfold some_cell, in_region. split.
  - intros (x & y & H1 & H2 & _ & H3 & H4). by exists x, y.
  - intros (x & y & (H1 & H2 & H3) & H4). exists x, y. pose proof (row_major_index w h x y H1 H2).
    repeat split; try done; lia.
Qed.

Lemma mix_seen_all cells w h r mixed primary :
  mix_seen cells w h (h * w) r mixed primary ->
  mixed = true <-> exists x y x' y' v v', in_region w h r x y /\ in_region w h r x' y' /\
     loose cells w x y = Some v /\ loose cells w x' y' = Some v' /\ v <> v'.
Proof.
  unfold mix_seen. rewrite !some_cell_all. intros [(_ & -> & Hn) | (_ & (x0 & y0 & R0 & L0) & ->)].
  - split; [done |]. intros (x & y & _ & _ & v & _ & R & _ & L & _). exfalso. apply Hn.
    exists x, y. split; [done |]. by exists v.
  - split.
    + intros (x & y & R & v & L & Hne). exists x, y, x0, y0, v, primary. done.
    + intros (x & y & x' & y' & v & v' & R & R' & L & L' & Hne).
      destruct (decide (v = primary)) as [-> |]; [exists x', y' | exists x, y]; (split; [done |]); eexists; split; done.
Qed.

Lemma shouldForceAwake_ok cells w h world s r m primary :
  config_ok (config_ s) -> region_seen cells w h world s (h * w) r m primary ->
  shouldForceAwake m (config_ s) = true <-> region_busy cells w h world s r.
Proof.
  intros (C1 & C2 & C3) [Ht [_ Hv] [_ Hl] [_ Hst] He Hw Ho Hm]. apply mix_seen_all in Hm.
  unfold flag_seen in *. setoid_rewrite some_cell_all in Hv. setoid_rewrite some_cell_all in Hl.
  setoid_rewrite some_cell_all in Hst. rewrite some_cell_all in He, Hw, Ho.
  assert (shouldForceAwake m (config_ s) = true <->
    RegionSummary.touched_this_frame m = true \/
    fgt (RegionSummary.max_velocity m) (velocity_epsilon (config_ s)) = true \/
    fgt (RegionSummary.max_live_pressure_delta m) (live_pressure_delta_epsilon (config_ s)) = true \/
    fgt (RegionSummary.max_static_load_delta m) (static_load_delta_epsilon (config_ s)) = true \/
    (keep_empty_adjacent_awake (config_ s) = true /\ RegionSummary.has_empty_adjacency m = true) \/
    (keep_mixed_material_awake (config_ s) = true /\ RegionSummary.has_mixed_material m = true) \/
    (keep_organism_regions_awake (config_ s) = true /\ RegionSummary.has_organism m = true) \/
    (keep_water_adjacent_awake (config_ s) = true /\ RegionSummary.has_water_adjacency m = true)) as ->.
  { unfold shouldForceAwake.
    repeat match goal with |- context [if ?b then true else _] => destruct b eqn:?; simpl end;
      rewrite ?andb_true_iff, ?andb_false_iff in *; split; intros; try done; try tauto.
    destruct (keep_empty_adjacent_awake _), (keep_mixed_material_awake _),
      (keep_organism_regions_awake _), (keep_water_adjacent_awake _); intuition congruence. }
  rewrite Ht, Hv, Hl, Hst, He, Hm, Ho, Hw, C1, C2, C3. unfold region_busy. cbv zeta.
  set (c := config_ s). split.
  - intros [H | [[H | H] | [[H | H] | [[H | H] | [[K H] | [[K H] | [[K H] | [K H]]]]]]]]; try done;
      try (by left); try (right; right; by split);
      right; left; destruct H as (x & y & R & Q); exists x, y; (split; [done |]); tauto.
  - intros [H | [(x & y & R & Q) | [K H]]]; [by left | | do 5 right; by left].
    destruct Q as [Q | [Q | [Q | [[K Q] | [[K Q] | [K Q]]]]]].
    + right; left; right. by exists x, y.
    + do 2 right; left; right. by exists x, y.
    + do 3 right; left; right. by exists x, y.
    + do 4 right; left. split; [done |]. by exists x, y.
    + do 6 right; left. split; [done |]. by exists x, y.
    + do 7 right. split; [done |]. by exists x, y.
Qed.
