(* ===== verification/RegionSleep.v ===== *)
(** Regions fall asleep: the judgement of a frame, and what a run of quiet frames
    leads to. *)

From Stdlib Require Import ZArith Lia Bool String SpecFloat.
From stdpp Require Import base gmap option numbers list.
From S2P Require Import Prelude Ieee Material Bitmaps GridCache.
From S2P Require Import RegionActivity RegionMasks RegionSummaries.

Set Default Goal Selector "!".

Import WorldRegionActivityTracker.

(** The meta a frame gives a region that is [busy] or not. *)
Definition judged (threshold : Z) (busy : bool) (m : RegionMeta.t) : RegionMeta.t :=
  let q := if busy then 0 else saturatingIncrement (RegionMeta.quiet_frames m) in
  RegionMeta.mk
    (if busy then RegionState.Awake else if threshold <=? q then RegionState.Sleeping else RegionState.LoadedQuiet)
    q (RegionMeta.last_wake_reason m) (RegionMeta.last_wake_step m).

(** What [summarizeFrame] leaves. *)
Record frame_judged (cells : list Cell.t) (w h : Z) (world : World) (s s' : t) : Prop := mkFrameJudged {
  fj_wf : tracker_wf w h s';
  fj_config : config_ s' = config_ s;
  fj_gravity : previous_gravity_ s' = previous_gravity_ s /\
    previous_gravity_initialized_ s' = previous_gravity_initialized_ s;
  fj_previous : previous_live_pressure_ s' = map Cell.pressure cells /\
    previous_static_load_ s' = map Cell.static_load cells;
  fj_masks : region_active_ s' = region_active_ s /\ cell_active_ s' = cell_active_ s;
  fj_regions : forall r, 0 <= r < blocks w * blocks h ->
    requested s' r = requested s r /\ pending s' r = pending s r /\ touched s' r = false /\
    exists busy, (busy = true <-> region_busy cells w h world s r) /\
      meta s' r = judged (quiet_frames_to_sleep (config_ s)) busy (meta s r)
}.

Section Judge.
Context (cells : list Cell.t) (w h : Z) (grid : GridOfCells.t) (world : World).
Context (Hgrid : coherent cells w h grid) (Hlen : Z.of_nat (length cells) = w * h).
Context (Hworld : data_width world = w /\ data_height world = h /\ data_cells world = cells).

Lemma judge_region_judged c m meta :
  judge_region c m meta = judged (quiet_frames_to_sleep c) (shouldForceAwake m c) meta.
Proof. unfold judge_region, judged. by destruct (shouldForceAwake m c). Qed.

Lemma summarizeFrame_ok w0 h0 s :
  tracker_wf w0 h0 s -> config_ok (config_ s) ->
  wp (summarizeFrame world grid s) (frame_judged cells w h world (fit_to grid s)).
Proof.
  intros Hs0 Hc0. pose proof (coherent_sized _ _ _ _ Hgrid) as Hsz.
  pose proof (fit_to_wf _ _ _ _ _ _ Hs0 Hsz) as Hs.
  assert (config_ok (config_ (fit_to grid s))) as Hc by (unfold fit_to; by destruct (negb _ || _ || _ || _)).
  unfold summarizeFrame. set (s1 := fit_to grid s) in *. clearbody s1. clear Hs0 Hc0. cbv zeta.
  apply wp_bind. rewrite length_replicate. eapply wp_mono; [apply (touch_ok cells w h s1 Hs), (tw_summary _ _ _ Hs) |].
  intros v [Hv Hf]. apply wp_bind.
  eapply wp_mono; [by apply (scan_ok cells w h grid world s1 Hgrid Hlen Hworld Hs) |].
  intros p [[Hp1 Hp2] Hp]. apply wp_bind.
  set (s2 := set_region_summary_ (summaries p) s1).
  eapply wp_mono; [apply (judge_ok cells w h s2); [apply (tw_meta _ _ _ Hs) | done] |]. intros metas [Hm1 Hm2].
  apply wp_bind. eapply wp_mono.
  { apply (snapshot_ok cells w h world Hlen Hworld); [apply (tw_live _ _ _ Hs) | apply (tw_static _ _ _ Hs)]. }
  intros s3 ->. cbn [wp]. split; simpl; try done.
  - destruct Hs. split; simpl; rewrite ?length_map, ?length_replicate; try done; lia.
  - intros r Hr. split; [done |]. split; [done |]. split.
    + unfold touched, entry. simpl. pose proof (tw_touched _ _ _ Hs). by rewrite lookup_replicate_2 by lia.
    + exists (shouldForceAwake (entry RegionSummary.default (summaries p) r) (config_ s1)).
      split; [by eapply shouldForceAwake_ok, Hp |].
      change (meta (set_wakes ?a ?b ?c ?x) r) with (meta x r). unfold meta at 1. simpl.
      rewrite Hm2 by done. apply judge_region_judged.
Qed.
End Judge.

(** C23. Summarising a frame never indexes out of range, and judges every region by
    what its cells show: a region in which something was touched or moves, whose
    pressure or load changed, or that touches what the configuration keeps awake,
    becomes awake with a quiet count of zero; any other region counts one more
    quiet frame, without overflow, and sleeps exactly when the count has reached
    the configured number. What keeps a region awake is this list and nothing else:
    neither the material of its cells nor where their centres of mass lie does, so
    a resting region of metal falls asleep ([metal_region_sleeps] below), which the
    design document's eligibility rules do not allow. *)
Theorem region_judgement (w0 h0 w h : Z) (cells : list Cell.t) (grid : GridOfCells.t) (world : World) (s : t) :
  tracker_wf w0 h0 s -> config_ok (config_ s) ->
  0 <= w <= 32767 -> 0 <= h <= 32767 -> Z.of_nat (length cells) = w * h ->
  GridOfCells.make cells w h = Ok grid ->
  data_width world = w -> data_height world = h -> data_cells world = cells ->
  exists s', summarizeFrame world grid s = Ok s' /\ tracker_wf w h s' /\
    forall bx by_, 0 <= bx < blocks w -> 0 <= by_ < blocks h ->
      let r := by_ * blocks w + bx in let old := meta (fit_to grid s) r in
      exists m, getRegionMeta s' bx by_ = Ok m /\ touched s' r = false /\
        RegionMeta.last_wake_reason m = RegionMeta.last_wake_reason old /\
        RegionMeta.last_wake_step m = RegionMeta.last_wake_step old /\
        (region_busy cells w h world (fit_to grid s) r ->
           RegionMeta.state m = RegionState.Awake /\ RegionMeta.quiet_frames m = 0) /\
        (~ region_busy cells w h world (fit_to grid s) r -> 0 <= RegionMeta.quiet_frames old <= 65535 ->
           RegionMeta.quiet_frames m = Z.min 65535 (RegionMeta.quiet_frames old + 1) /\
           RegionMeta.state m =
             (if quiet_frames_to_sleep (config_ s) <=? RegionMeta.quiet_frames m
              then RegionState.Sleeping else RegionState.LoadedQuiet)).
Proof.
  intros Hs Hc Hw Hh Hl Hg D1 D2 D3. destruct (make_sized _ _ _ _ Hw Hh Hl Hg) as [Hcoh Hsz].
  pose proof (summarizeFrame_ok cells w h grid world Hcoh Hl (conj D1 (conj D2 D3)) w0 h0 s Hs Hc) as H.
  apply wp_elim in H as (s' & E & J). exists s'. split; [done |]. split; [apply J |].
  intros bx by_ Hx Hy. cbv zeta. pose proof (row_major_index (blocks w) (blocks h) bx by_ Hx Hy).
  set (r := by_ * blocks w + bx) in *. destruct (fj_regions _ _ _ _ _ _ J r) as (_ & _ & Ht & busy & Hb & Hm); [lia |].
  exists (meta s' r). rewrite (meta_query w h) by (done || apply J). split; [done |]. split; [done |].
  assert (config_ (fit_to grid s) = config_ s) as Ecfg
    by (unfold fit_to; by destruct (negb _ || _ || _ || _)).
  rewrite Ecfg in Hm. rewrite Hm. unfold judged. simpl. split; [done |]. split; [done |]. split.
  - intros Hbusy. by rewrite (proj2 Hb Hbusy).
  - intros Hn Hq. destruct busy; [by destruct Hn; apply Hb |]. split; [| done].
    unfold saturatingIncrement. destruct (Z.eqb_spec (RegionMeta.quiet_frames (meta (fit_to grid s) r)) 65535); [lia |].
    rewrite wrap_u_small; [lia |]. change (2 ^ 16) with 65536. lia.
Qed.

(** The demonstration world is busy: it has water and empty neighbours. *)
Example region_judgement_witness :
  exists s', summarizeFrame demo_world demo_grid default = Ok s' /\
    exists m, getRegionMeta s' 0 0 = Ok m /\ RegionMeta.last_wake_step m = 0.
Proof.
  destruct (region_judgement 0 0 3 2 demo_cells demo_grid demo_world default) as (s' & H1 & _ & H2).
  - exact default_tracker_wf.
  - exact default_config_ok.
  - lia.
  - lia.
  - reflexivity.
  - vm_compute. reflexivity.
  - reflexivity.
  - reflexivity.
  - reflexivity.
  - exists s'. split; [exact H1 |]. assert (0 <= 0 < blocks 3 /\ 0 <= 0 < blocks 2) as [Hx Hy]
      by (change (blocks 3) with 1; change (blocks 2) with 1; lia).
    destruct (H2 0 0 Hx Hy) as (m & Hm & _ & _ & Hst & _).
    exists m. split; [exact Hm |]. rewrite Hst. vm_compute. reflexivity.
Defined.

(** ** A run of frames *)
Definition frame (world : World) (grid : GridOfCells.t) (timestep : Z) (s : t) : res t :=
  let! s := beginFrame world grid timestep s in summarizeFrame world grid s.

(** [n] frames of the same world. *)
Fixpoint frames (world : World) (grid : GridOfCells.t) (timestep : Z) (n : nat) (s : t) : res t :=
  match n with
  | O => Ok s
  | Datatypes.S n' => let! s := frame world grid timestep s in
                      frames world grid (u32 (timestep + 1)) n' s
  end.

(** Nothing of the region is what the configuration keeps awake. *)
Definition calm (cells : list Cell.t) (w h : Z) (world : World) (c : Config) (r : Z) : Prop :=
  (forall x y, in_region w h r x y ->
     fgt (speed cells w x y) (velocity_epsilon c) = false /\
     (keep_empty_adjacent_awake c = true -> exposed cells w h x y = false) /\
     (keep_organism_regions_awake c = true -> organism_at w world x y = false) /\
     (keep_water_adjacent_awake c = true -> wet cells w h world x y = false)) /\
  (keep_mixed_material_awake c = true ->
   forall x y x' y' v v', in_region w h r x y -> in_region w h r x' y' ->
     loose cells w x y = Some v -> loose cells w x' y' = Some v' -> v = v').

(** A float minus itself is zero or not a number. *)
Lemma SFsub_diag prec emax x :
  SFsub prec emax x x = S754_nan \/ exists b, SFsub prec emax x x = S754_zero b.
Proof.
  destruct x as [b | b | | b m e]; simpl; [destruct b; eauto | destruct b; eauto | eauto |].
  right. destruct b; simpl; rewrite ?Z.sub_diag, ?Z.add_diag; unfold SFsub;
    rewrite Z.min_id; match goal with |- context [binary_normalize _ _ ?z _ _] => replace z with 0 by lia end;
    simpl; eauto.
Qed.

Lemma no_delta prec emax x e : fgt fzero e = false -> fgt (SFabs (SFsub prec emax x x)) e = false.
Proof.
  intros H. destruct (SFsub_diag prec emax x) as [-> | [b ->]]; [| exact H].
  by destruct e as [? | [] | | [] ? ?].
Qed.

Section Quiet.
Context (cells : list Cell.t) (w h : Z) (grid : GridOfCells.t) (world : World).
Context (Hgrid : coherent cells w h grid) (Hlen : Z.of_nat (length cells) = w * h).
Context (Hworld : data_width world = w /\ data_height world = h /\ data_cells world = cells).

(** The tracker has seen this world before and nothing is pending. *)
Record settled (c : Config) (s : t) : Prop := mkSettled {
  st_wf : tracker_wf w h s;
  st_config : config_ s = c;
  st_previous : previous_live_pressure_ s = map Cell.pressure cells /\
    previous_static_load_ s = map Cell.static_load cells;
  st_gravity : gravity_changed world s = false;
  st_wakes : forall r, 0 <= r < blocks w * blocks h -> requested s r = false /\ touched s r = false
}.

Lemma calm_not_busy c s r :
  config_ok c -> config_ s = c -> touched s r = false ->
  previous_live_pressure_ s = map Cell.pressure cells ->
  previous_static_load_ s = map Cell.static_load cells ->
  calm cells w h world c r -> ~ region_busy cells w h world s r.
Proof.
  intros (C1 & C2 & C3) Hcfg Ht Hl Hst [Hcalm Hmix]. unfold region_busy. rewrite Hcfg, Ht.
  assert (forall (g : Cell.t -> f32) x y, in_region w h r x y ->
    entry fzero (map g cells) (y * w + x) = g (the_cell cells w x y)) as Hent.
  { intros g x y (Hx & Hy & _). pose proof (row_major_index w h x y Hx Hy). unfold entry, the_cell.
    pose proof (entry_lookup Cell.default cells (y * w + x) ltac:(lia)) as E.
    rewrite list_lookup_fmap, E. done. }
  intros [? | [(x & y & R & Q) | [K (x & y & x' & y' & v & v' & R & R' & L & L' & Hne)]]]; [done | |].
  - destruct (Hcalm x y R) as (Q1 & Q2 & Q3 & Q4).
    destruct Q as [Q | [Q | [Q | [[K Q] | [[K Q] | [K Q]]]]]].
    + congruence.
    + unfold live_delta in Q. rewrite Hl, Hent in Q by done. unfold f32_abs, f32_sub in Q.
      rewrite no_delta in Q; done.
    + unfold static_delta in Q. rewrite Hst, Hent in Q by done. unfold f32_abs, f32_sub in Q.
      rewrite no_delta in Q; done.
    + rewrite Q2 in Q; done.
    + rewrite Q3 in Q; done.
    + rewrite Q4 in Q; done.
  - apply Hne. by eapply (Hmix K x y x' y').
Qed.

(** After any frame of the world the tracker is settled. *)
Lemma frame_settles w0 h0 c timestep s :
  tracker_wf w0 h0 s -> config_ s = c -> config_ok c ->
  wp (frame world grid timestep s) (fun s' => settled c s' /\
    forall r, 0 <= r < blocks w * blocks h -> 0 <= RegionMeta.quiet_frames (meta s' r) <= 65535).
Proof.
  intros Hs Hcfg Hc. pose proof (coherent_sized _ _ _ _ Hgrid) as Hsz. unfold frame. apply wp_bind.
  eapply wp_mono; [by apply (beginFrame_ok w0 h0 w h) |]. intros s1 [F1 _ (Fc & _ & _) Fi Fs Fk Fr].
  assert (config_ s1 = c) as Hc1 by (rewrite Fc, <- Hcfg; unfold fit_to; by destruct (negb _ || _ || _ || _)).
  eapply wp_mono; [apply (summarizeFrame_ok cells w h grid world Hgrid Hlen Hworld w h); [done | by rewrite Hc1] |].
  rewrite (fit_to_id w h) by done. intros s2 [J1 Jc [Jg Ji] Jp _ Jr]. split.
  - split; [done | congruence | done | |].
    + unfold gravity_changed. rewrite Jg, Ji, Fi. simpl. unfold gravity_changed in Fs, Fk.
      destruct (previous_gravity_initialized_ (fit_to grid s)) eqn:Ei; simpl in Fs, Fk.
      * destruct (fgt (f64_abs (f64_sub (previous_gravity_ (fit_to grid s)) (gravity world))) MIN_GRAVITY_DELTA) eqn:Eg.
        -- rewrite Fs by auto. apply no_delta. vm_compute. reflexivity.
        -- by rewrite Fk.
      * rewrite Fs by auto. apply no_delta. vm_compute. reflexivity.
    + intros r Hr. destruct (Jr r Hr) as (-> & _ & -> & _). split; [by apply Fr | done].
  - intros r Hr. destruct (Jr r Hr) as (_ & _ & _ & busy & _ & ->). unfold judged. simpl.
    destruct busy; [done |]. unfold saturatingIncrement. destruct (_ =? 65535) eqn:E; [lia |].
    match goal with |- context [wrap_u 16 ?z] => pose proof (wrap_u_range 16 z) end. lia.
Qed.

(** One more frame of a settled tracker. *)
Lemma settled_frame c timestep s :
  config_ok c -> settled c s ->
  wp (frame world grid timestep s) (fun s' => settled c s' /\
    forall r, 0 <= r < blocks w * blocks h -> calm cells w h world c r ->
      meta s' r = judged (quiet_frames_to_sleep c) false (meta s r)).
Proof.
  intros Hc Hset. pose proof Hset as [Hs Hcfg [Hl Hst] Hg Hw]. pose proof (coherent_sized _ _ _ _ Hgrid) as Hsz.
  pose proof (frame_settles w h c timestep s Hs Hcfg Hc) as Hnext.
  assert (wp (frame world grid timestep s) (fun s' => forall r, 0 <= r < blocks w * blocks h ->
    calm cells w h world c r -> meta s' r = judged (quiet_frames_to_sleep c) false (meta s r))) as H.
  2:{ eapply wp_mono; [exact (wp_conj _ _ _ Hnext H) |]. by intros s' [[? _] ?]. }
  unfold frame. apply wp_bind. eapply wp_mono; [by apply (beginFrame_ok w h w h) |].
  rewrite (fit_to_id w h) by done. intros s1 [F1 _ (Fc & Fl & Fst) _ _ _ Fr].
  eapply wp_mono; [apply (summarizeFrame_ok cells w h grid world Hgrid Hlen Hworld w h); [done | by rewrite Fc, Hcfg] |].
  rewrite (fit_to_id w h) by done. intros s2 [_ _ _ _ _ Jr] r Hr Hcalm.
  destruct (Jr r Hr) as (_ & _ & _ & busy & Hb & ->). destruct (Fr r Hr) as (_ & Ft & Fm).
  destruct (Hw r Hr) as [Wr Wt].
  assert (begun_meta world timestep s r = meta s r) as Ebm by (unfold begun_meta; by rewrite Hg, Wr).
  rewrite Fm, Ebm, Fc, Hcfg. f_equal. destruct busy; [| done]. exfalso.
  apply (calm_not_busy c s1 r Hc); [by rewrite Fc | by rewrite Ft, Hg, Wt | by rewrite Fl | by rewrite Fst | done |].
  by apply Hb.
Qed.

(** The quiet count of a calm region grows by one a frame. *)
Lemma quiet_grows c r n timestep s :
  config_ok c -> 0 <= r < blocks w * blocks h -> calm cells w h world c r ->
  settled c s -> 0 <= RegionMeta.quiet_frames (meta s r) <= 65535 ->
  wp (frames world grid timestep n s) (fun s' =>
    RegionMeta.quiet_frames (meta s' r) = Z.min 65535 (RegionMeta.quiet_frames (meta s r) + Z.of_nat n) /\
    tracker_wf w h s' /\
    ((0 < n)%nat -> RegionMeta.state (meta s' r) =
       if quiet_frames_to_sleep c <=? RegionMeta.quiet_frames (meta s' r)
       then RegionState.Sleeping else RegionState.LoadedQuiet)).
Proof.
  intros Hc Hr Hcalm. revert timestep s. induction n as [| n IH]; intros timestep s Hset Hq.
  - cbn. split; [lia |]. split; [apply Hset | lia].
  - cbn [frames]. apply wp_bind. eapply wp_mono; [by apply settled_frame |]. intros s1 [Hset1 Hm1].
    specialize (Hm1 r Hr Hcalm).
    assert (RegionMeta.quiet_frames (meta s1 r) = Z.min 65535 (RegionMeta.quiet_frames (meta s r) + 1)) as Hq1.
    { rewrite Hm1. simpl. unfold saturatingIncrement.
      destruct (Z.eqb_spec (RegionMeta.quiet_frames (meta s r)) 65535); [lia |].
      rewrite wrap_u_small; [lia |]. change (2 ^ 16) with 65536. lia. }
    destruct n as [| n].
    + cbn. split; [rewrite Hq1; lia |]. split; [apply Hset1 |]. intros _. by rewrite Hm1.
    + eapply wp_mono; [apply IH; [done | lia] |]. intros s2 (E1 & E2 & E3).
      split; [rewrite E1, Hq1; lia |]. split; [done |]. intros _. apply E3. lia.
Qed.
End Quiet.

(** Quiet regions fall asleep and stay asleep: while a world does not change
    and a region holds nothing the configuration keeps awake, then whatever the
    tracker saw before, the region sleeps after [n + 1] frames for every
    [n >= 1] that reaches the configured number of quiet frames. *)
Lemma calm_region_sleeps (w0 h0 w h : Z) (cells : list Cell.t) (grid : GridOfCells.t) (world : World)
    (timestep : Z) (n : nat) (bx by_ : Z) (s : t) :
  tracker_wf w0 h0 s -> config_ok (config_ s) ->
  0 <= w <= 32767 -> 0 <= h <= 32767 -> Z.of_nat (length cells) = w * h ->
  GridOfCells.make cells w h = Ok grid ->
  data_width world = w -> data_height world = h -> data_cells world = cells ->
  0 <= bx < blocks w -> 0 <= by_ < blocks h ->
  calm cells w h world (config_ s) (by_ * blocks w + bx) ->
  (1 <= n)%nat -> quiet_frames_to_sleep (config_ s) <= Z.min 65535 (Z.of_nat n) ->
  exists s', frames world grid timestep (n + 1) s = Ok s' /\
    getRegionState s' bx by_ = Ok RegionState.Sleeping.
Proof.
  intros Hs Hc Hw Hh Hl Hg D1 D2 D3 Hx Hy Hcalm Hn Hq. destruct (make_sized _ _ _ _ Hw Hh Hl Hg) as [Hcoh Hsz].
  pose proof (row_major_index (blocks w) (blocks h) bx by_ Hx Hy) as Hr.
  set (r := by_ * blocks w + bx) in *. set (c := config_ s) in *. apply wp_elim.
  replace (n + 1)%nat with (Datatypes.S n) by lia. cbn [frames]. apply wp_bind.
  eapply wp_mono; [by apply (frame_settles cells w h grid world Hcoh Hl (conj D1 (conj D2 D3)) w0 h0 c) |].
  intros s1 [Hset Hq1].
  assert (0 <= r < blocks w * blocks h) as Hr' by lia.
  eapply wp_mono; [exact (quiet_grows cells w h grid world Hcoh Hl (conj D1 (conj D2 D3)) c r n _ s1 Hc Hr' Hcalm Hset (Hq1 r Hr')) |].
  intros s' (Q & Hwf & Hst). unfold getRegionState. rewrite (meta_query w h) by done. cbn [rbind].
  fold r. rewrite Hst, Q by lia. specialize (Hq1 r ltac:(lia)). f_equal.
  destruct (Z.leb_spec (quiet_frames_to_sleep c)
    (Z.min 65535 (RegionMeta.quiet_frames (meta s1 r) + Z.of_nat n))); [done | lia].
Qed.

(** A world of solid, resting dirt. *)
Definition still_cells : list Cell.t := replicate 9 (demo_cell Material.Dirt (f32_of_Z 1)).
Definition still_world : World := mkWorld 3 3 still_cells (f64_lit 981 100) [] None.
Definition still_grid : GridOfCells.t :=
  match GridOfCells.make still_cells 3 3 with Ok g => g | Fault _ => demo_grid end.

(** Resting metal whose centres of mass lie on the transfer boundary. *)
Definition metal_cell : Cell.t :=
  let c := demo_cell Material.Metal (f32_of_Z 1) in
  Cell.mk (Cell.material_type c) (Cell.fill_ratio c) (mkVector2f (f32_of_Z 1) (f32_of_Z 1)) (Cell.velocity c)
    (Cell.pressure c) (Cell.static_load c) vec2f_zero vec2f_zero (-1) 255.
Definition metal_cells : list Cell.t := replicate 9 metal_cell.
Definition metal_world : World := mkWorld 3 3 metal_cells (f64_lit 981 100) [] None.
Definition metal_grid : GridOfCells.t :=
  match GridOfCells.make metal_cells 3 3 with Ok g => g | Fault _ => demo_grid end.

Example metal_region_sleeps :
  (let! s := frames metal_world metal_grid 1 13 default in getRegionState s 0 0) = Ok RegionState.Sleeping.
Proof. vm_compute. reflexivity. Qed.

(** Its only region is calm. *)
Lemma still_calm : calm still_cells 3 3 still_world default_config 0.
Proof.
  assert (forall x y, in_region 3 3 0 x y -> the_cell still_cells 3 x y = demo_cell Material.Dirt (f32_of_Z 1)) as Hcell.
  { intros x y (Hx & Hy & _). unfold the_cell, entry, still_cells. by rewrite lookup_replicate_2 by lia. }
  split.
  - intros x y R. pose proof (Hcell x y R) as Hxy. destruct R as (Hx & Hy & _).
    assert (x = 0 \/ x = 1 \/ x = 2) as Hxs by lia. assert (y = 0 \/ y = 1 \/ y = 2) as Hys by lia.
    destruct Hxs as [-> | [-> | ->]], Hys as [-> | [-> | ->]]; (split; [vm_compute; reflexivity |]);
      (split; [intros _; vm_compute; reflexivity |]); split; intros _; vm_compute; reflexivity.
  - intros _ x y x' y' v v' R R' L L'. unfold loose, material_at in L, L'.
    rewrite (Hcell x y R) in L. rewrite (Hcell x' y' R') in L'. rewrite L in L'. by injection L'.
Qed.

Example calm_region_sleeps_witness :
  exists s', frames still_world still_grid 1 13 default = Ok s' /\
    getRegionState s' 0 0 = Ok RegionState.Sleeping.
Proof.
  apply (calm_region_sleeps 0 0 3 3 still_cells still_grid still_world 1 12 0 0 default).
  - exact default_tracker_wf.
  - exact default_config_ok.
  - lia.
  - lia.
  - reflexivity.
  - vm_compute. reflexivity.
  - reflexivity.
  - reflexivity.
  - reflexivity.
  - change (blocks 3) with 1. lia.
  - change (blocks 3) with 1. lia.
  - exact still_calm.
  - lia.
  - change (quiet_frames_to_sleep (config_ default)) with 12. lia.
Defined.
