(* ===== verification/Maze.v ===== *)
(** The animated maze: [ui/rendering/maze/{MazeModel,MazeGeneratorSession,
    MazeSolverSession,MazeSearchAnimator}.{h,cpp}].

    A session keeps a reference to the model; here the model is passed to the
    session's operations and, when they change it, returned by them. *)

From Stdlib Require Import ZArith Lia Bool String.
From stdpp Require Import base gmap option numbers list.
From S2P Require Import Prelude StdModel.

Set Default Goal Selector "!".

(** ** [MazeModel] *)
Module MazeDirection.
Inductive t := North | East | South | West.
#[global] Instance eq_dec : EqDecision t.
Proof. solve_decision. Defined.
Definition to_Z (d : t) : Z := match d with North => 0 | East => 1 | South => 2 | West => 3 end.
Definition all : list t := [North; East; South; West].
End MazeDirection.

Record MazeCoord := mkMazeCoord { mc_x : Z; mc_y : Z }.
Record MazeCell := mkMazeCell { openings : Z }.

Definition kDirectionDeltas : list MazeCoord :=
  [mkMazeCoord 0 (-1); mkMazeCoord 1 0; mkMazeCoord 0 1; mkMazeCoord (-1) 0].
Definition kOppositeDirections : list MazeDirection.t :=
  [MazeDirection.South; MazeDirection.West; MazeDirection.North; MazeDirection.East].

Definition mazeDirectionBit (direction : MazeDirection.t) : Z :=
  u8 (Z.shiftl 1 (MazeDirection.to_Z direction)).
Definition mazeDirectionDelta (direction : MazeDirection.t) : res MazeCoord :=
  vec_at kDirectionDeltas (MazeDirection.to_Z direction).
Definition mazeOppositeDirection (direction : MazeDirection.t) : res MazeDirection.t :=
  vec_at kOppositeDirections (MazeDirection.to_Z direction).

Module MazeModel.

Record t := mk {
  cells_ : list MazeCell;
  goalIndex_ : Z;
  height_ : Z;
  startIndex_ : Z;
  width_ : Z
}.

(** [MazeModel{}]. *)
Definition default : t := mk [] 0 0 0 0.

(** The constructor: the vector is built before the checks, and a negative
    product converts to a size no vector can have. *)
Definition make (width height : Z) : res t :=
  let! n := int_result (width * height) in
  if n <? 0 then Fault LengthError
  else
    dirtsim_assert (0 <? width) "MazeModel width must be positive" ;;!
    dirtsim_assert (0 <? height) "MazeModel height must be positive" ;;!
    Ok (mk (replicate (Z.to_nat n) (mkMazeCell 0)) (n - 1) height 0 width).

Definition cellCount (m : t) : Z := Z.of_nat (length (cells_ m)).
Definition startIndex (m : t) : Z := startIndex_ m.
Definition goalIndex (m : t) : Z := goalIndex_ m.

Definition cellAt (m : t) (index : Z) : res MazeCell :=
  dirtsim_assert (0 <=? index) "MazeModel index must be non-negative" ;;!
  dirtsim_assert (index <? cellCount m) "MazeModel index out of range" ;;!
  vec_at (cells_ m) index.

(** A write through the reference [cellAt] returns. *)
Definition cellAt_set (m : t) (index : Z) (cell : MazeCell) : res t :=
  dirtsim_assert (0 <=? index) "MazeModel index must be non-negative" ;;!
  dirtsim_assert (index <? cellCount m) "MazeModel index out of range" ;;!
  let! cells := vec_at_set (cells_ m) index cell in
  Ok (mk cells (goalIndex_ m) (height_ m) (startIndex_ m) (width_ m)).

Definition coordForIndex (m : t) (index : Z) : res MazeCoord :=
  dirtsim_assert (0 <=? index) "MazeModel index must be non-negative" ;;!
  dirtsim_assert (index <? cellCount m) "MazeModel index out of range" ;;!
  Ok (mkMazeCoord (Z.rem index (width_ m)) (Z.quot index (width_ m))).

Definition isValidCoord (m : t) (coord : MazeCoord) : bool :=
  (0 <=? mc_x coord) && (0 <=? mc_y coord) && (mc_x coord <? width_ m) && (mc_y coord <? height_ m).

Definition indexForCoord (m : t) (coord : MazeCoord) : res Z :=
  dirtsim_assert (isValidCoord m coord) "MazeModel coord out of range" ;;!
  Ok (mc_y coord * width_ m + mc_x coord).

Definition setEndpoints (m : t) (startIndex goalIndex : Z) : res t :=
  dirtsim_assert (0 <=? startIndex) "MazeModel start index must be non-negative" ;;!
  dirtsim_assert (startIndex <? cellCount m) "MazeModel start index out of range" ;;!
  dirtsim_assert (0 <=? goalIndex) "MazeModel goal index must be non-negative" ;;!
  dirtsim_assert (goalIndex <? cellCount m) "MazeModel goal index out of range" ;;!
  Ok (mk (cells_ m) goalIndex (height_ m) startIndex (width_ m)).

End MazeModel.

(** ** [MazeGeneratorSession]: a depth-first walk that opens passages *)
Module MazeGeneratorSession.

Record NeighborChoice := mkNeighborChoice { direction : MazeDirection.t; index : Z }.

Section Generator.
Context {R : Type} `{!RandomEngine R}.

Record t := mk {
  activeCellIndex_ : Z;
  complete_ : bool;
  rng_ : R;
  stack_ : list Z;  (* back first *)
  visitedFlags_ : list bool;
  visitedCount_ : Z
}.

Definition make (model : MazeModel.t) (seed : Z) : res t :=
  let rng := engine_seed seed in
  let flags := replicate (Z.to_nat (MazeModel.cellCount model)) false in
  dirtsim_assert (0 <? MazeModel.cellCount model) "MazeGeneratorSession requires a non-empty model" ;;!
  let '(active, rng) := uniform_int 0 (MazeModel.cellCount model - 1) rng in
  let! flags := vec_at_set flags active true in
  Ok (mk active false rng [active] flags 1).

(** The [for] over the four directions; [continue] skips a neighbour. *)
Fixpoint collect_loop (model : MazeModel.t) (flags : list bool) (coord : MazeCoord)
    (directions : list MazeDirection.t) (choices : list NeighborChoice) : res (list NeighborChoice) :=
  match directions with
  | [] => Ok choices
  | direction :: directions' =>
      let! delta := mazeDirectionDelta direction in
      let neighborCoord := mkMazeCoord (mc_x coord + mc_x delta) (mc_y coord + mc_y delta) in
      if negb (MazeModel.isValidCoord model neighborCoord)
      then collect_loop model flags coord directions' choices
      else
        let! neighborIndex := MazeModel.indexForCoord model neighborCoord in
        let! visited := vec_at flags neighborIndex in
        if (visited : bool) then collect_loop model flags coord directions' choices
        else collect_loop model flags coord directions'
               (choices ++ [mkNeighborChoice direction neighborIndex])
  end.

Definition collectUnvisitedNeighbors (model : MazeModel.t) (s : t) (index : Z)
    : res (list NeighborChoice) :=
  let! coord := MazeModel.coordForIndex model index in
  collect_loop model (visitedFlags_ s) coord MazeDirection.all [].

Definition openPassage (model : MazeModel.t) (fromIndex : Z) (direction : MazeDirection.t) (toIndex : Z)
    : res MazeModel.t :=
  let! from := MazeModel.cellAt model fromIndex in
  let! model := MazeModel.cellAt_set model fromIndex
                  (mkMazeCell (Z.lor (openings from) (mazeDirectionBit direction))) in
  let! to := MazeModel.cellAt model toIndex in
  let! opposite := mazeOppositeDirection direction in
  MazeModel.cellAt_set model toIndex (mkMazeCell (Z.lor (openings to) (mazeDirectionBit opposite))).

Definition advanceOneStep (model : MazeModel.t) (s : t) : res (MazeModel.t * t) :=
  match stack_ s with
  | [] => Ok (model, mk (-1) true (rng_ s) [] (visitedFlags_ s) (visitedCount_ s))
  | currentIndex :: below =>
      let s := mk currentIndex (complete_ s) (rng_ s) (stack_ s) (visitedFlags_ s) (visitedCount_ s) in
      let! choices := collectUnvisitedNeighbors model s currentIndex in
      if bool_decide (length choices = O) then
        match below with
        | [] => Ok (model, mk (-1) true (rng_ s) [] (visitedFlags_ s) (visitedCount_ s))
        | back :: _ => Ok (model, mk back (complete_ s) (rng_ s) below (visitedFlags_ s) (visitedCount_ s))
        end
      else
        let '(i, rng) := uniform_int 0 (Z.of_nat (length choices) - 1) (rng_ s) in
        let! choice := vec_at choices i in
        let! model := openPassage model currentIndex (direction choice) (index choice) in
        let! flags := vec_at_set (visitedFlags_ s) (index choice) true in
        Ok (model, mk (index choice) (complete_ s) rng (index choice :: stack_ s) flags
                     (u64 (visitedCount_ s + 1)))
  end.

(** [for (i = 0; i < stepBudget && !complete_; ++i) advanceOneStep();] *)
Fixpoint advance_loop (stepBudget : nat) (model : MazeModel.t) (s : t) : res (MazeModel.t * t) :=
  match stepBudget with
  | O => Ok (model, s)
  | S n => if complete_ s then Ok (model, s)
           else let! r := advanceOneStep model s in advance_loop n (fst r) (snd r)
  end.

Definition advance (stepBudget : nat) (model : MazeModel.t) (s : t) : res (MazeModel.t * t) :=
  if complete_ s then Ok (model, s) else advance_loop stepBudget model s.

Definition isComplete (s : t) : bool := complete_ s.
Definition activeCellIndex (s : t) : Z := activeCellIndex_ s.
Definition visitedFlags (s : t) : list bool := visitedFlags_ s.
End Generator.
Arguments t R : clear implicits.
End MazeGeneratorSession.

(** ** [MazeSolverSession]: breadth-first search *)
Module MazeSolverSession.

Record t := mk {
  complete_ : bool;
  frontier_ : list Z;
  frontierFlags_ : list bool;
  enqueuedFlags_ : list bool;
  parents_ : list Z;
  queueHead_ : Z;
  queue_ : list Z;
  solutionPath_ : list Z;
  visitedFlags_ : list bool
}.

Definition set_frontier (frontier : list Z) (flags : list bool) (s : t) : t :=
  mk (complete_ s) frontier flags (enqueuedFlags_ s) (parents_ s) (queueHead_ s) (queue_ s)
    (solutionPath_ s) (visitedFlags_ s).
Definition set_complete (s : t) : t :=
  mk true (frontier_ s) (frontierFlags_ s) (enqueuedFlags_ s) (parents_ s) (queueHead_ s) (queue_ s)
    (solutionPath_ s) (visitedFlags_ s).
Definition set_enqueued (enqueued : list bool) (parents queue : list Z) (s : t) : t :=
  mk (complete_ s) (frontier_ s) (frontierFlags_ s) enqueued parents (queueHead_ s) queue
    (solutionPath_ s) (visitedFlags_ s).
Definition set_visited (head : Z) (visited : list bool) (s : t) : t :=
  mk (complete_ s) (frontier_ s) (frontierFlags_ s) (enqueuedFlags_ s) (parents_ s) head (queue_ s)
    (solutionPath_ s) visited.
Definition set_solutionPath_ (path : list Z) (s : t) : t :=
  mk (complete_ s) (frontier_ s) (frontierFlags_ s) (enqueuedFlags_ s) (parents_ s) (queueHead_ s)
    (queue_ s) path (visitedFlags_ s).

Definition clearFrontier (s : t) : t :=
  set_frontier [] (replicate (length (frontierFlags_ s)) false) s.

(** The queued cells from the head on, copied and flagged. *)
Definition rebuildFrontier (s : t) : res t :=
  let s := clearFrontier s in
  for_range (queueHead_ s) (Z.of_nat (length (queue_ s))) (fun i s =>
    let! index := vec_at (queue_ s) i in
    let! flags := vec_at_set (frontierFlags_ s) index true in
    Ok (set_frontier (frontier_ s ++ [index]) flags s)) s.

(** [while (currentIndex >= 0)]: the indices from the goal back to the start. *)
Fixpoint rebuild_loop (fuel : nat) (parents : list Z) (currentIndex : Z) (path : list Z) : res (list Z) :=
  if currentIndex <? 0 then Ok path
  else
    match fuel with
    | O => Fault OutOfFuel
    | S fuel' =>
        let! parent := vec_at parents currentIndex in
        rebuild_loop fuel' parents parent (path ++ [currentIndex])
    end.

Definition rebuildSolutionPath (goalIndex : Z) (s : t) : res t :=
  let! path := rebuild_loop (length (parents_ s)) (parents_ s) goalIndex [] in
  Ok (set_solutionPath_ (reverse path) s).

Definition make (model : MazeModel.t) : res t :=
  let flags := replicate (Z.to_nat (MazeModel.cellCount model)) false in
  dirtsim_assert (0 <? MazeModel.cellCount model) "MazeSolverSession requires a non-empty model" ;;!
  let startIndex := MazeModel.startIndex model in
  let! enqueued := vec_at_set flags startIndex true in
  rebuildFrontier (mk false [] flags enqueued
    (replicate (Z.to_nat (MazeModel.cellCount model)) (-1)) 0 [startIndex] [] flags).

(** One direction of the current cell. *)
Definition visit_direction (model : MazeModel.t) (currentIndex : Z) (currentCell : MazeCell)
    (currentCoord : MazeCoord) (direction : MazeDirection.t) (s : t) : res t :=
  if Z.land (openings currentCell) (mazeDirectionBit direction) =? 0 then Ok s
  else
    let! delta := mazeDirectionDelta direction in
    let neighborCoord := mkMazeCoord (mc_x currentCoord + mc_x delta) (mc_y currentCoord + mc_y delta) in
    dirtsim_assert (MazeModel.isValidCoord model neighborCoord)
      "MazeSolverSession neighbor out of range" ;;!
    let! neighborIndex := MazeModel.indexForCoord model neighborCoord in
    let! seen := vec_at (enqueuedFlags_ s) neighborIndex in
    if (seen : bool) then Ok s
    else
      let! enqueued := vec_at_set (enqueuedFlags_ s) neighborIndex true in
      let! parents := vec_at_set (parents_ s) neighborIndex currentIndex in
      Ok (set_enqueued enqueued parents (queue_ s ++ [neighborIndex]) s).

Fixpoint visit_directions (model : MazeModel.t) (currentIndex : Z) (currentCell : MazeCell)
    (currentCoord : MazeCoord) (directions : list MazeDirection.t) (s : t) : res t :=
  match directions with
  | [] => Ok s
  | d :: directions' =>
      let! s := visit_direction model currentIndex currentCell currentCoord d s in
      visit_directions model currentIndex currentCell currentCoord directions' s
  end.

Definition advanceOneStep (model : MazeModel.t) (s : t) : res t :=
  if Z.of_nat (length (queue_ s)) <=? queueHead_ s then Ok (clearFrontier (set_complete s))
  else
    let! currentIndex := vec_at (queue_ s) (queueHead_ s) in
    let! visited := vec_at_set (visitedFlags_ s) currentIndex true in
    let s := set_visited (queueHead_ s + 1) visited s in
    if currentIndex =? MazeModel.goalIndex model then
      let! s := rebuildSolutionPath currentIndex s in
      Ok (set_complete (clearFrontier s))
    else
      let! currentCell := MazeModel.cellAt model currentIndex in
      let! currentCoord := MazeModel.coordForIndex model currentIndex in
      visit_directions model currentIndex currentCell currentCoord MazeDirection.all s.

Fixpoint advance_loop (stepBudget : nat) (model : MazeModel.t) (s : t) : res t :=
  match stepBudget with
  | O => Ok s
  | S n => if complete_ s then Ok s
           else let! s := advanceOneStep model s in advance_loop n model s
  end.

Definition advance (stepBudget : nat) (model : MazeModel.t) (s : t) : res t :=
  if complete_ s then Ok s
  else
    let! s := advance_loop stepBudget model s in
    if complete_ s then Ok s else rebuildFrontier s.

Definition isComplete (s : t) : bool := complete_ s.
Definition frontier (s : t) : list Z := frontier_ s.
Definition frontierFlags (s : t) : list bool := frontierFlags_ s.
Definition solutionPath (s : t) : list Z := solutionPath_ s.
Definition visitedFlags (s : t) : list bool := visitedFlags_ s.
End MazeSolverSession.

(** ** [MazeSearchAnimator]: build, solve, trace, hold, and again *)
Module MazeSearchAnimator.

Inductive Phase := Empty | BuildingMaze | SolvingMaze | TracingSolution | HoldingSolution.
#[global] Instance Phase_eq_dec : EqDecision Phase.
Proof. solve_decision. Defined.

(** The pointers of a snapshot point into the animator, which rebuilds it after
    every operation: they are the vectors they point to. *)
Record Snapshot := mkSnapshot {
  activeCellIndex : Z;
  sn_frontier : option (list Z);
  sn_frontierFlags : option (list bool);
  generationVisited : option (list bool);
  model : option MazeModel.t;
  phase : Phase;
  revealedSolutionLength : Z;
  sn_solutionPath : option (list Z);
  solverVisited : option (list bool)
}.
Definition hasMaze (s : Snapshot) : bool := bool_decide (is_Some (model s)).

Definition kGenerationStepsPerTick : nat := 48.
Definition kHoldTicks : Z := 75.
Definition kPathCellsPerTick : Z := 4.
Definition kSeed : Z := 0x5EA2C123.
Definition kSolveStepsPerTick : nat := 16.

Section Animator.
Context {R : Type} `{!RandomEngine R}.

Record t := mk {
  holdTicksRemaining_ : Z;
  generator_ : option (MazeGeneratorSession.t R);
  height_ : Z;
  model_ : MazeModel.t;
  phase_ : Phase;
  revealedSolutionLength_ : Z;
  snapshot_ : Snapshot;
  solver_ : option MazeSolverSession.t;
  seedRng_ : R;
  width_ : Z
}.

Definition set_snapshot_ (sn : Snapshot) (s : t) : t :=
  mk (holdTicksRemaining_ s) (generator_ s) (height_ s) (model_ s) (phase_ s)
    (revealedSolutionLength_ s) sn (solver_ s) (seedRng_ s) (width_ s).
Definition set_generator (m : MazeModel.t) (g : option (MazeGeneratorSession.t R)) (s : t) : t :=
  mk (holdTicksRemaining_ s) g (height_ s) m (phase_ s)
    (revealedSolutionLength_ s) (snapshot_ s) (solver_ s) (seedRng_ s) (width_ s).
Definition set_solver_ (v : option MazeSolverSession.t) (s : t) : t :=
  mk (holdTicksRemaining_ s) (generator_ s) (height_ s) (model_ s) (phase_ s)
    (revealedSolutionLength_ s) (snapshot_ s) v (seedRng_ s) (width_ s).
Definition set_phase (p : Phase) (revealed hold : Z) (s : t) : t :=
  mk hold (generator_ s) (height_ s) (model_ s) p
    revealed (snapshot_ s) (solver_ s) (seedRng_ s) (width_ s).

Definition rebuildSnapshot (s : t) : t :=
  let empty := mkSnapshot (-1) None None None None (phase_ s) (revealedSolutionLength_ s) None None in
  set_snapshot_
    (if bool_decide (phase_ s = Empty) then empty
     else
       mkSnapshot
         (match generator_ s with Some g => MazeGeneratorSession.activeCellIndex g | None => -1 end)
         (MazeSolverSession.frontier <$> solver_ s) (MazeSolverSession.frontierFlags <$> solver_ s)
         (MazeGeneratorSession.visitedFlags <$> generator_ s) (Some (model_ s)) (phase_ s)
         (revealedSolutionLength_ s) (MazeSolverSession.solutionPath <$> solver_ s)
         (MazeSolverSession.visitedFlags <$> solver_ s)) s.

Definition make (width height : Z) : res t :=
  dirtsim_assert (0 <? width) "MazeSearchAnimator width must be positive" ;;!
  dirtsim_assert (0 <? height) "MazeSearchAnimator height must be positive" ;;!
  Ok (rebuildSnapshot (mk 0 None height MazeModel.default Empty 0
    (mkSnapshot (-1) None None None None Empty 0 None None) None (engine_seed kSeed) width)).

Definition beginNewCycle (s : t) : res t :=
  let! m := MazeModel.make (width_ s) (height_ s) in
  let! m := MazeModel.setEndpoints m 0 (MazeModel.cellCount m - 1) in
  let '(seed, rng) := uniform_int 0 (2 ^ 32 - 1) (seedRng_ s) in
  let! g := MazeGeneratorSession.make m seed in
  Ok (mk (holdTicksRemaining_ s) (Some g) (height_ s) m BuildingMaze 0 (snapshot_ s) None rng (width_ s)).

Definition build_tick (s : t) : res t :=
  match generator_ s with
  | None => Fault (AssertFailed "MazeSearchAnimator generator must exist")
  | Some g =>
      let! r := MazeGeneratorSession.advance kGenerationStepsPerTick (model_ s) g in
      let s := set_generator (fst r) (Some (snd r)) s in
      if MazeGeneratorSession.isComplete (snd r) then
        let! solver := MazeSolverSession.make (model_ s) in
        Ok (set_phase SolvingMaze (revealedSolutionLength_ s) (holdTicksRemaining_ s)
              (set_solver_ (Some solver) s))
      else Ok s
  end.

Definition solve_tick (s : t) : res t :=
  match solver_ s with
  | None => Fault (AssertFailed "MazeSearchAnimator solver must exist")
  | Some v =>
      let! v := MazeSolverSession.advance kSolveStepsPerTick (model_ s) v in
      let s := set_solver_ (Some v) s in
      if MazeSolverSession.isComplete v
      then Ok (set_phase TracingSolution 0 (holdTicksRemaining_ s) s) else Ok s
  end.

Definition trace_tick (s : t) : res t :=
  match solver_ s with
  | None => Fault (AssertFailed "MazeSearchAnimator solver must exist")
  | Some v =>
      let revealed := u64 (revealedSolutionLength_ s + kPathCellsPerTick) in
      let size := Z.of_nat (length (MazeSolverSession.solutionPath v)) in
      if size <=? revealed then Ok (set_phase HoldingSolution size kHoldTicks s)
      else Ok (set_phase TracingSolution revealed (holdTicksRemaining_ s) s)
  end.

Definition hold_tick (s : t) : t :=
  let hold := if 0 <? holdTicksRemaining_ s then holdTicksRemaining_ s - 1 else holdTicksRemaining_ s in
  if hold =? 0
  then set_solver_ None (set_generator (model_ s) None (set_phase Empty (revealedSolutionLength_ s) hold s))
  else set_phase HoldingSolution (revealedSolutionLength_ s) hold s.

Definition advanceTick (s : t) : res t :=
  let! s := if bool_decide (phase_ s = Empty) then beginNewCycle s else Ok s in
  let! s :=
    match phase_ s with
    | Empty => Ok s
    | BuildingMaze => build_tick s
    | SolvingMaze => solve_tick s
    | TracingSolution => trace_tick s
    | HoldingSolution => Ok (hold_tick s)
    end in
  Ok (rebuildSnapshot s).

Definition reset (s : t) : t :=
  rebuildSnapshot (mk 0 None (height_ s) MazeModel.default Empty 0 (snapshot_ s) None (seedRng_ s) (width_ s)).

Definition snapshot (s : t) : Snapshot := snapshot_ s.
End Animator.
Arguments t R : clear implicits.
End MazeSearchAnimator.
