(* ===== verification/MazeGraph.v ===== *)
(** The maze as a graph: the four steps of the grid, the passages of a model,
    walks, trees and perfect mazes. *)

From Stdlib Require Import ZArith Lia Bool String.
From stdpp Require Import base gmap option numbers list.
From S2P Require Import Prelude.
From S2P Require Import StdModel Maze.

Set Default Goal Selector "!".

(** ** Steps of the grid *)
Definition delta_x (d : MazeDirection.t) : Z :=
  match d with MazeDirection.East => 1 | MazeDirection.West => -1 | _ => 0 end.
Definition delta_y (d : MazeDirection.t) : Z :=
  match d with MazeDirection.North => -1 | MazeDirection.South => 1 | _ => 0 end.
Definition opposite (d : MazeDirection.t) : MazeDirection.t :=
  match d with
  | MazeDirection.North => MazeDirection.South
  | MazeDirection.East => MazeDirection.West
  | MazeDirection.South => MazeDirection.North
  | MazeDirection.West => MazeDirection.East
  end.

Definition inside (w h x y : Z) : bool := (0 <=? x) && (0 <=? y) && (x <? w) && (y <? h).

(** The cell next to cell [i] in direction [d]. *)
Definition grid_step (w h i : Z) (d : MazeDirection.t) : option Z :=
  let x := i mod w + delta_x d in
  let y := i / w + delta_y d in
  if inside w h x y then Some (y * w + x) else None.

Lemma inside_iff w h x y : inside w h x y = true <-> 0 <= x < w /\ 0 <= y < h.
Proof. unfold inside. lia. Qed.

(** Cells by coordinates. *)
Lemma cell_coords w h i :
  0 < w -> 0 <= i < w * h -> exists x y, i = y * w + x /\ 0 <= x < w /\ 0 <= y < h.
Proof.
  intros Hw Hi. exists (i mod w), (i / w). pose proof (Z.mod_pos_bound i w Hw).
  pose proof (Z.div_mod i w). split; [lia |]. split; [done |].
  split; [apply Z.div_pos; lia | apply Z.div_lt_upper_bound; lia].
Qed.

Lemma coords_mod w x y : 0 <= x < w -> (y * w + x) mod w = x.
Proof. intros. rewrite Z.add_comm, Z.mod_add by lia. by apply Z.mod_small. Qed.

Lemma coords_div w x y : 0 <= x < w -> (y * w + x) / w = y.
Proof. intros. rewrite Z.div_add_l by lia. rewrite Z.div_small by lia. lia. Qed.

Lemma grid_step_coords w h x y d :
  0 <= x < w ->
  grid_step w h (y * w + x) d =
  if inside w h (x + delta_x d) (y + delta_y d)
  then Some ((y + delta_y d) * w + (x + delta_x d)) else None.
Proof. intros Hx. unfold grid_step. by rewrite coords_mod, coords_div. Qed.

Lemma grid_step_range w h i d j : grid_step w h i d = Some j -> 0 <= j < w * h.
Proof.
  unfold grid_step. destruct (inside _ _ _ _) eqn:E; [| done]. intros [= <-].
  apply inside_iff in E as [Hx Hy]. by apply row_major_index.
Qed.

Lemma grid_step_opposite w h i d j :
  0 < w -> 0 <= i < w * h -> grid_step w h i d = Some j -> grid_step w h j (opposite d) = Some i.
Proof.
  intros Hw Hi Hj. destruct (cell_coords w h i Hw Hi) as (x & y & -> & Hx & Hy).
  rewrite grid_step_coords in Hj by done. destruct (inside _ _ _ _) eqn:E; [| done].
  injection Hj as <-. apply inside_iff in E. rewrite grid_step_coords by lia.
  rewrite (proj2 (inside_iff w h _ _)).
  - f_equal. destruct d; simpl; nia.
  - destruct d; simpl in *; lia.
Qed.

(** Distinct directions lead to distinct cells, and none leads back. *)
Lemma grid_step_inj w h i d d' j :
  0 < w -> 0 <= i < w * h -> grid_step w h i d = Some j -> grid_step w h i d' = Some j -> d = d'.
Proof.
  intros Hw Hi. destruct (cell_coords w h i Hw Hi) as (x & y & -> & Hx & Hy).
  rewrite !grid_step_coords by done.
  destruct (inside _ _ _ _) eqn:E; [| done]. destruct (inside w h (x + delta_x d') _) eqn:E'; [| done].
  intros [= <-] [= Heq]. apply inside_iff in E, E'.
  apply row_major_index_inj in Heq; [| lia | lia]. destruct d, d'; simpl in *; try done; lia.
Qed.

Lemma grid_step_neq w h i d j : 0 < w -> 0 <= i < w * h -> grid_step w h i d = Some j -> i <> j.
Proof.
  intros Hw Hi. destruct (cell_coords w h i Hw Hi) as (x & y & -> & Hx & Hy).
  rewrite grid_step_coords by done. destruct (inside _ _ _ _) eqn:E; [| done].
  intros [= <-] Heq. apply inside_iff in E. apply row_major_index_inj in Heq; [| lia | lia].
  destruct d; simpl in *; lia.
Qed.

(** A predicate on an interval that passes between neighbours holds everywhere. *)
Lemma line_spread n (Q : Z -> Prop) a b :
  (forall x, 0 <= x -> x + 1 < n -> Q x <-> Q (x + 1)) -> 0 <= a < n -> 0 <= b < n -> Q a -> Q b.
Proof.
  intros Hstep.
  assert (forall x, 0 <= x -> x < n -> Q x <-> Q 0) as H0.
  { apply (natlike_ind (fun x => x < n -> Q x <-> Q 0)); [done |].
    intros x Hx IH Hlt. rewrite <- IH by lia. symmetry. by apply (Hstep x); lia. }
  intros Ha Hb HQ. apply H0; [lia | lia |]. apply (H0 a); [lia | lia | done].
Qed.

(** The grid is connected. *)
Lemma grid_connected w h (P : Z -> Prop) r :
  0 < w -> 0 <= r < w * h -> P r ->
  (forall i d j, 0 <= i < w * h -> P i -> grid_step w h i d = Some j -> P j) ->
  forall i, 0 <= i < w * h -> P i.
Proof.
  intros Hw Hr HP Hclosed i Hi.
  assert (forall x y d, 0 <= x < w -> 0 <= y < h -> inside w h (x + delta_x d) (y + delta_y d) = true ->
            P (y * w + x) -> P ((y + delta_y d) * w + (x + delta_x d))) as Hmove.
  { intros x y d Hx Hy Hin HPx. apply (Hclosed (y * w + x) d); [| done |].
    - pose proof (row_major_index w h x y Hx Hy). lia.
    - rewrite grid_step_coords by done. by rewrite Hin. }
  destruct (cell_coords w h r Hw Hr) as (x0 & y0 & -> & Hx0 & Hy0).
  destruct (cell_coords w h i Hw Hi) as (x1 & y1 & -> & Hx1 & Hy1).
  apply (line_spread h (fun y => P (y * w + x1)) y0 y1); [| done | done |].
  - intros y Hy Hy'. split; intros H.
    + assert (P ((y + 1) * w + (x1 + 0))) as H'.
      { apply (Hmove x1 y MazeDirection.South); [lia | lia | apply inside_iff; simpl; lia | done]. }
      by rewrite Z.add_0_r in H'.
    + assert (P ((y + 1 + -1) * w + (x1 + 0))) as H'.
      { apply (Hmove x1 (y + 1) MazeDirection.North); [lia | lia | apply inside_iff; simpl; lia | done]. }
      by replace (y + 1 + -1) with y in H' by lia; rewrite Z.add_0_r in H'.
  - apply (line_spread w (fun x => P (y0 * w + x)) x0 x1); [| done | done | done].
    intros x Hx Hx'. split; intros H.
    + assert (P ((y0 + 0) * w + (x + 1))) as H'.
      { apply (Hmove x y0 MazeDirection.East); [lia | lia | apply inside_iff; simpl; lia | done]. }
      by rewrite Z.add_0_r in H'.
    + assert (P ((y0 + 0) * w + (x + 1 + -1))) as H'.
      { apply (Hmove (x + 1) y0 MazeDirection.West); [lia | lia | apply inside_iff; simpl; lia | done]. }
      by rewrite Z.add_0_r in H'; replace (x + 1 + -1) with x in H' by lia.
Qed.

(** ** Walks: lists whose consecutive elements are related *)
Definition walk (E : Z -> Z -> Prop) (l : list Z) : Prop :=
  forall k x y, l !! k = Some x -> l !! S k = Some y -> E x y.

(** A walk from [a] to [b], and one without repetition. *)
Definition walk_from_to (E : Z -> Z -> Prop) (a : Z) (l : list Z) (b : Z) : Prop :=
  head l = Some a /\ last l = Some b /\ walk E l.
Definition simple_path (E : Z -> Z -> Prop) (a : Z) (l : list Z) (b : Z) : Prop :=
  walk_from_to E a l b /\ NoDup l.

Section Walks.
Implicit Types (E F : Z -> Z -> Prop) (l : list Z) (a b : Z).

Lemma walk_mono E F l :
  (forall x y, x ∈ l -> y ∈ l -> E x y -> F x y) -> walk E l -> walk F l.
Proof.
  intros H Hl k x y Hx Hy. apply H; [by eapply list_elem_of_lookup_2 | by eapply list_elem_of_lookup_2 |].
  by eapply Hl.
Qed.

Lemma walk_singleton E a : walk E [a].
Proof. intros [|k] x y Hx Hy; done. Qed.

Lemma walk_cons E a b l : head l = Some b -> walk E (a :: l) <-> E a b /\ walk E l.
Proof.
  intros Hh. destruct l as [|b' l]; [done |]. injection Hh as ->. split.
  - intros H. split; [by apply (H O) |]. intros k x y Hx Hy. by apply (H (S k)).
  - intros [Hab Hl] [|k] x y Hx Hy; simpl in *; [by simplify_eq |]. by apply (Hl k).
Qed.

Lemma walk_snoc E l a b : last l = Some a -> walk E (l ++ [b]) <-> walk E l /\ E a b.
Proof.
  intros Hl. apply last_Some in Hl as [l' ->]. split.
  - intros H. split.
    + intros k x y Hx Hy. apply (H k); by apply lookup_app_l_Some.
    + apply (H (length l')).
      * rewrite <- app_assoc. by apply list_lookup_middle.
      * rewrite lookup_app_r by (rewrite length_app; simpl; lia).
        rewrite length_app. simpl. by replace (S (length l') - (length l' + 1))%nat with 0%nat by lia.
  - intros [Hw Hab] k x y Hx Hy.
    apply lookup_app_Some in Hy as [Hy | [Hle Hy]].
    { apply (Hw k); [| done]. rewrite lookup_app_l in Hx; [done |]. apply lookup_lt_Some in Hy. lia. }
    apply list_lookup_singleton_Some in Hy as [Hk <-]. rewrite length_app in Hk, Hle. simpl in Hk, Hle.
    assert (k = length l') as -> by lia. rewrite <- app_assoc in Hx. cbn [app] in Hx.
    rewrite list_lookup_middle in Hx by done. by simplify_eq.
Qed.

Lemma walk_reverse E l : (forall x y, E x y -> E y x) -> walk E l -> walk E (reverse l).
Proof.
  intros Hsym. induction l as [|a l IH]; [done |]. intros Hw. rewrite reverse_cons.
  destruct l as [|b l]; [by apply walk_singleton |].
  apply (walk_cons E a b (b :: l)) in Hw as [Hab Hw]; [| done].
  apply (walk_snoc E _ b); [| split; [by apply IH | by apply Hsym]].
  by rewrite last_reverse.
Qed.

Lemma walk_from_to_reverse E a l b :
  (forall x y, E x y -> E y x) -> walk_from_to E a l b -> walk_from_to E b (reverse l) a.
Proof.
  intros Hsym (Hh & Hl & Hw). split; [| split].
  - by rewrite head_reverse.
  - by rewrite last_reverse.
  - by apply walk_reverse.
Qed.

Lemma simple_path_reverse E a l b :
  (forall x y, E x y -> E y x) -> simple_path E a l b -> simple_path E b (reverse l) a.
Proof.
  intros Hsym [Hw Hnd]. split; [by apply walk_from_to_reverse |]. by rewrite reverse_Permutation.
Qed.
End Walks.

(** ** Trees, grown leaf by leaf *)
Definition adjacent (es : list (Z * Z)) (a b : Z) : Prop := (a, b) ∈ es \/ (b, a) ∈ es.

Inductive tree : list Z -> list (Z * Z) -> Prop :=
| tree_root r : tree [r] []
| tree_leaf vs es c p : tree vs es -> p ∈ vs -> c ∉ vs -> tree (c :: vs) ((c, p) :: es).

Section Trees.
Implicit Types (vs l : list Z) (es : list (Z * Z)).

Lemma adjacent_sym es a b : adjacent es a b -> adjacent es b a.
Proof. unfold adjacent. tauto. Qed.

Lemma adjacent_cons es c p a b :
  adjacent ((c, p) :: es) a b <-> (a = c /\ b = p) \/ (a = p /\ b = c) \/ adjacent es a b.
Proof.
  unfold adjacent. rewrite !elem_of_cons. split.
  - intros [[[= -> ->] | H] | [[= -> ->] | H]]; auto.
  - intros [[-> ->] | [[-> ->] | [H | H]]]; auto.
Qed.

Lemma tree_edges_in vs es : tree vs es -> forall a b, adjacent es a b -> a ∈ vs /\ b ∈ vs.
Proof.
  induction 1 as [r | vs es c p Ht IH Hp Hc]; intros a b Hab.
  - destruct Hab as [H | H]; by apply not_elem_of_nil in H.
  - rewrite !elem_of_cons. apply adjacent_cons in Hab as [[-> ->] | [[-> ->] | Hab]]; [auto | auto |].
    apply IH in Hab as [? ?]. auto.
Qed.

Lemma tree_nodup vs es : tree vs es -> NoDup vs.
Proof. induction 1; [apply NoDup_singleton | by constructor]. Qed.

Lemma tree_nonempty vs es : tree vs es -> vs <> [].
Proof. by destruct 1. Qed.

(** The new leaf has one neighbour. *)
Lemma leaf_neighbour vs es c p a :
  tree vs es -> p ∈ vs -> c ∉ vs -> adjacent ((c, p) :: es) c a -> a = p.
Proof.
  intros Ht Hp Hc Ha. apply adjacent_cons in Ha as [[_ ->] | [[-> ->] | Ha]]; [done | done |].
  apply (tree_edges_in vs es Ht) in Ha. tauto.
Qed.

(** A simple path through the new leaf has it at an end. *)
Lemma leaf_at_end vs es c p l :
  tree vs es -> p ∈ vs -> c ∉ vs -> walk (adjacent ((c, p) :: es)) l -> NoDup l -> c ∈ l ->
  head l = Some c \/ last l = Some c.
Proof.
  intros Ht Hp Hc Hw Hnd Hin. apply list_elem_of_lookup_1 in Hin as [k Hk].
  destruct k as [|k]; [left; by destruct l |].
  destruct (l !! S (S k)) as [z |] eqn:Hz.
  - exfalso. destruct (lookup_lt_is_Some_2 l k) as [x Hx]; [apply lookup_lt_Some in Hk; lia |].
    assert (x = p).
    { apply (leaf_neighbour vs es c p); [done | done | done |]. apply adjacent_sym. by apply (Hw k). }
    assert (z = p) by (apply (leaf_neighbour vs es c p); [done | done | done |]; by apply (Hw (S k))).
    subst. assert (k = S (S k)); [| lia]. by eapply NoDup_lookup.
  - right. rewrite last_lookup. pose proof (lookup_lt_Some _ _ _ Hk). apply lookup_ge_None_1 in Hz.
    by replace (Nat.pred (length l)) with (S k) by lia.
Qed.

(** Paths of the smaller tree, and paths that leave or reach the leaf. *)
Lemma simple_path_grow es c p a l b :
  simple_path (adjacent es) a l b -> simple_path (adjacent ((c, p) :: es)) a l b.
Proof.
  intros [(Hh & Hl & Hw) Hnd]. split; [| done]. split; [done |]. split; [done |].
  eapply walk_mono; [| done]. intros x y _ _ H. apply adjacent_cons. by right; right.
Qed.

Lemma simple_path_avoid vs es c p a l b :
  tree vs es -> p ∈ vs -> c ∉ l ->
  simple_path (adjacent ((c, p) :: es)) a l b -> simple_path (adjacent es) a l b.
Proof.
  intros Ht Hp Hc [(Hh & Hl & Hw) Hnd]. split; [| done]. split; [done |]. split; [done |].
  eapply walk_mono; [| done]. intros x y Hx Hy H.
  apply adjacent_cons in H as [[-> ->] | [[-> ->] | H]]; done.
Qed.

(** A path inside a tree stays on its vertices. *)
Lemma simple_path_vertices vs es a l b :
  tree vs es -> a ∈ vs -> simple_path (adjacent es) a l b -> forall x, x ∈ l -> x ∈ vs.
Proof.
  intros Ht Ha [(Hh & _ & Hw) _] x Hx. apply list_elem_of_lookup_1 in Hx as [[|k] Hk].
  - destruct l; [done |]. by simplify_eq/=.
  - destruct (lookup_lt_is_Some_2 l k) as [y Hy]; [apply lookup_lt_Some in Hk; lia |].
    by apply (tree_edges_in vs es Ht y x), (Hw k).
Qed.

Lemma simple_path_from_leaf vs es c p l b :
  tree vs es -> p ∈ vs -> c ∉ vs -> b <> c ->
  simple_path (adjacent ((c, p) :: es)) c l b <->
  exists l', l = c :: l' /\ simple_path (adjacent es) p l' b.
Proof.
  intros Ht Hp Hc Hb. split.
  - intros [(Hh & Hl & Hw) Hnd]. destruct l as [|c' l]; [done |]. injection Hh as ->.
    exists l. split; [done |]. apply NoDup_cons in Hnd as [Hcl Hnd].
    destruct l as [|p' l]; [by injection Hl as <- |].
    apply (walk_cons _ c p' (p' :: l)) in Hw as [Hcp Hw]; [| done].
    assert (p' = p) as -> by by apply (leaf_neighbour vs es c p).
    apply (simple_path_avoid vs es c p); [done | done | done |].
    split; [| done]. split; [done |]. split; [| done]. by rewrite <- Hl.
  - intros (l' & -> & Hsp). pose proof (simple_path_vertices vs es p l' b Ht Hp Hsp) as Hvs.
    apply (simple_path_grow es c p) in Hsp as [(Hh & Hl & Hw) Hnd]. split.
    + split; [done |]. split.
      * destruct l'; [done |]. by rewrite <- Hl.
      * apply (walk_cons _ c p l' Hh). split; [| done]. apply adjacent_cons. by left.
    + apply NoDup_cons. split; [| done]. intros Hin. by apply Hc, Hvs.
Qed.

Lemma simple_path_trivial E a l : simple_path E a l a -> l = [a].
Proof.
  intros [(Hh & Hl & _) Hnd]. destruct l as [|a' l]; [done |]. injection Hh as ->.
  destruct l as [|b l]; [done |]. exfalso. apply NoDup_cons in Hnd as [Hin _]. apply Hin.
  rewrite last_cons_cons in Hl. by apply last_Some_elem_of in Hl.
Qed.

Lemma simple_path_singleton E a : simple_path E a [a] a.
Proof. split; [split; [done |]; split; [done |]; apply walk_singleton | apply NoDup_singleton]. Qed.

(** Between two vertices of a tree there is exactly one simple path. *)
Lemma tree_paths vs es :
  tree vs es -> forall a b, a ∈ vs -> b ∈ vs -> exists! l, simple_path (adjacent es) a l b.
Proof.
  induction 1 as [r | vs es c p Ht IH Hp Hc]; intros a b Ha Hb.
  - apply list_elem_of_singleton in Ha as ->. apply list_elem_of_singleton in Hb as ->.
    exists [r]. split; [apply simple_path_singleton |]. intros l Hl. by apply simple_path_trivial in Hl.
  - assert (forall b, b ∈ vs -> exists! l, simple_path (adjacent ((c, p) :: es)) c l b) as Hleaf.
    { intros b' Hb'. destruct (IH p b' Hp Hb') as (l & Hl & Hu). exists (c :: l).
      assert (b' <> c) by (intros ->; done). split.
      - apply (simple_path_from_leaf vs); eauto.
      - intros l' Hl'. apply (simple_path_from_leaf vs) in Hl' as (l'' & -> & Hl''); [| done ..].
        f_equal. by apply Hu. }
    destruct (decide (a = c)) as [-> | Hac], (decide (b = c)) as [-> | Hbc].
    + exists [c]. split; [apply simple_path_singleton |]. intros l Hl. by apply simple_path_trivial in Hl.
    + apply Hleaf. by apply elem_of_cons in Hb as [? | Hb].
    + destruct (Hleaf a) as (l & Hl & Hu); [by apply elem_of_cons in Ha as [? | Ha] |].
      exists (reverse l). split; [by apply simple_path_reverse; [apply adjacent_sym |] |].
      intros l' Hl'. rewrite <- (reverse_involutive l'). f_equal. apply Hu.
      by apply simple_path_reverse; [apply adjacent_sym |].
    + apply elem_of_cons in Ha as [? | Ha]; [done |]. apply elem_of_cons in Hb as [? | Hb]; [done |].
      destruct (IH a b Ha Hb) as (l & Hl & Hu). exists l. split; [by apply simple_path_grow |].
      intros l' Hl'. apply Hu. apply (simple_path_avoid vs es c p); [done | done | | done].
      intros Hin. destruct Hl' as [(Hh & Hla & Hw) Hnd].
      destruct (leaf_at_end vs es c p l' Ht Hp Hc Hw Hnd Hin); congruence.
Qed.
End Trees.

(** ** Sets of cells, as lists without repetition *)
Lemma cells_at_most (l : list Z) n :
  0 <= n -> NoDup l -> (forall i, i ∈ l -> 0 <= i < n) -> Z.of_nat (length l) <= n.
Proof.
  intros Hn Hnd Hr. assert (l ⊆+ seqZ 0 n) as H.
  { apply NoDup_submseteq; [done |]. intros i Hi. apply elem_of_seqZ. apply Hr in Hi. lia. }
  apply submseteq_length in H. rewrite length_seqZ in H. lia.
Qed.

Lemma cells_at_least (l : list Z) n :
  0 <= n -> (forall i, 0 <= i < n -> i ∈ l) -> n <= Z.of_nat (length l).
Proof.
  intros Hn Hr. assert (seqZ 0 n ⊆+ l) as H.
  { apply NoDup_submseteq; [apply NoDup_seqZ |]. intros i Hi. apply elem_of_seqZ in Hi. apply Hr. lia. }
  apply submseteq_length in H. rewrite length_seqZ in H. lia.
Qed.

(** ** Passages of a model *)
Section Passages.
Implicit Types (m : MazeModel.t).

Definition cells_of m : Z := MazeModel.width_ m * MazeModel.height_ m.

(** The grid of the model is not empty and its vector has a cell for each place. *)
Definition grid_ok m : Prop :=
  0 < MazeModel.width_ m /\ 0 < MazeModel.height_ m /\ MazeModel.cellCount m = cells_of m /\
  cells_of m < 2 ^ 31.

(** Cell [i] is open in direction [d]. *)
Definition cell_open m (i : Z) (d : MazeDirection.t) : bool :=
  match MazeModel.cells_ m !! Z.to_nat i with
  | Some c => Z.testbit (openings c) (MazeDirection.to_Z d)
  | None => false
  end.

Definition step m (i : Z) (d : MazeDirection.t) : option Z :=
  grid_step (MazeModel.width_ m) (MazeModel.height_ m) i d.

(** One can go from cell [i] to cell [j]. *)
Definition passage m (i j : Z) : Prop := exists d, cell_open m i d = true /\ step m i d = Some j.

(** No opening leads out of the grid, and every opening has two sides. *)
Definition passages_ok m : Prop :=
  (forall i d, 0 <= i < cells_of m -> cell_open m i d = true -> is_Some (step m i d)) /\
  (forall i j, 0 <= i < cells_of m -> passage m i j -> passage m j i).

(** A perfect maze: exactly one simple path between any two cells. *)
Definition perfect_maze m : Prop :=
  passages_ok m /\
  forall a b, 0 <= a < cells_of m -> 0 <= b < cells_of m -> exists! l, simple_path (passage m) a l b.
End Passages.

(** ** The model's operations, in terms of cells and steps *)
Lemma mazeDirectionDelta_ok d : mazeDirectionDelta d = Ok (mkMazeCoord (delta_x d) (delta_y d)).
Proof. by destruct d. Qed.

Lemma mazeOppositeDirection_ok d : mazeOppositeDirection d = Ok (opposite d).
Proof. by destruct d. Qed.

Lemma mazeDirectionBit_shift d : mazeDirectionBit d = Z.shiftl 1 (MazeDirection.to_Z d).
Proof. by destruct d. Qed.

Lemma direction_to_Z_range d : 0 <= MazeDirection.to_Z d < 4.
Proof. destruct d; simpl; lia. Qed.

Lemma direction_to_Z_inj d e : MazeDirection.to_Z d = MazeDirection.to_Z e -> d = e.
Proof. by destruct d, e. Qed.

Lemma elem_of_directions d : d ∈ MazeDirection.all.
Proof. destruct d; set_solver. Qed.

Section ModelFacts.
Context (m : MazeModel.t) (Hm : grid_ok m).

Lemma coordForIndex_ok i :
  0 <= i < cells_of m ->
  MazeModel.coordForIndex m i = Ok (mkMazeCoord (i mod MazeModel.width_ m) (i / MazeModel.width_ m)).
Proof.
  intros Hi. destruct Hm as (Hw & Hh & Hc & _). unfold MazeModel.coordForIndex.
  rewrite Hc, (proj2 (Z.leb_le 0 i)), (proj2 (Z.ltb_lt i (cells_of m))) by lia. simpl.
  by rewrite Z.rem_mod_nonneg, Z.quot_div_nonneg by lia.
Qed.

(** The neighbour in a direction: the validity test and the index the code computes. *)
Lemma neighbour_cases i d :
  let c := mkMazeCoord (i mod MazeModel.width_ m + delta_x d) (i / MazeModel.width_ m + delta_y d) in
  MazeModel.isValidCoord m c = false /\ step m i d = None \/
  exists j, MazeModel.isValidCoord m c = true /\ MazeModel.indexForCoord m c = Ok j /\ step m i d = Some j.
Proof.
  intros c. unfold step, grid_step, MazeModel.indexForCoord.
  change (MazeModel.isValidCoord m c) with
    (inside (MazeModel.width_ m) (MazeModel.height_ m) (i mod MazeModel.width_ m + delta_x d)
       (i / MazeModel.width_ m + delta_y d)).
  destruct (inside _ _ _ _); [right | by left]. eexists. split; [done |]. by split.
Qed.

Lemma wp_cellAt i (Q : MazeCell -> Prop) :
  0 <= i < cells_of m -> (forall c, MazeModel.cells_ m !! Z.to_nat i = Some c -> Q c) ->
  wp (MazeModel.cellAt m i) Q.
Proof.
  intros Hi HQ. destruct Hm as (Hw & Hh & Hc & _). unfold MazeModel.cellAt.
  repeat (wp_step; wp_step). apply wp_vec_at; [| done]. unfold MazeModel.cellCount in Hc. lia.
Qed.

Definition with_cell (i : Z) (c : MazeCell) : MazeModel.t :=
  MazeModel.mk (<[Z.to_nat i := c]> (MazeModel.cells_ m)) (MazeModel.goalIndex_ m) (MazeModel.height_ m)
    (MazeModel.startIndex_ m) (MazeModel.width_ m).

Lemma cellAt_set_ok i c : 0 <= i < cells_of m -> MazeModel.cellAt_set m i c = Ok (with_cell i c).
Proof.
  intros Hi. destruct Hm as (Hw & Hh & Hc & _). unfold MazeModel.cellAt_set.
  rewrite Hc, (proj2 (Z.leb_le 0 i)), (proj2 (Z.ltb_lt i (cells_of m))) by lia. simpl.
  rewrite vec_at_set_ok; [done |]. unfold MazeModel.cellCount in Hc. lia.
Qed.

Lemma with_cell_grid_ok i c : grid_ok (with_cell i c).
Proof.
  destruct Hm as (Hw & Hh & Hc & Hn). repeat (split; [done |]). split; [| done].
  unfold MazeModel.cellCount in *. simpl. by rewrite length_insert.
Qed.

Lemma cell_open_with_cell i c k d :
  0 <= i < cells_of m -> 0 <= k ->
  cell_open (with_cell i c) k d =
  if decide (i = k) then Z.testbit (openings c) (MazeDirection.to_Z d) else cell_open m k d.
Proof.
  intros Hi Hk. destruct Hm as (Hw & Hh & Hc & _). unfold MazeModel.cellCount in Hc.
  unfold cell_open, with_cell. simpl. rewrite lookup_insert_Z by lia. by case_decide.
Qed.
End ModelFacts.

(** [dims m m']: the same grid, endpoints included. *)
Definition dims (m m' : MazeModel.t) : Prop :=
  MazeModel.width_ m' = MazeModel.width_ m /\ MazeModel.height_ m' = MazeModel.height_ m /\
  MazeModel.startIndex_ m' = MazeModel.startIndex_ m /\ MazeModel.goalIndex_ m' = MazeModel.goalIndex_ m.

#[global] Instance dims_preorder : PreOrder dims.
Proof.
  split; [by intros m |]. intros m1 m2 m3 (? & ? & ? & ?) (? & ? & ? & ?). unfold dims.
  repeat split; congruence.
Qed.

Lemma dims_step m m' : dims m m' -> step m' = step m.
Proof. intros (Hw & Hh & _). unfold step. by rewrite Hw, Hh. Qed.

Lemma dims_cells m m' : dims m m' -> cells_of m' = cells_of m.
Proof. intros (Hw & Hh & _). unfold cells_of. by rewrite Hw, Hh. Qed.

(** The maze as built: no openings. *)
Lemma model_make_ok w h :
  0 < w -> 0 < h -> w * h < 2 ^ 31 ->
  exists m, MazeModel.make w h = Ok m /\ grid_ok m /\ cells_of m = w * h /\
    MazeModel.startIndex_ m = 0 /\ MazeModel.goalIndex_ m = w * h - 1 /\
    MazeModel.width_ m = w /\ MazeModel.height_ m = h /\
    forall i d, cell_open m i d = false.
Proof.
  intros Hw Hh Hn. unfold MazeModel.make. rewrite int_result_ok by nia. cbn [rbind]. rewrite (proj2 (Z.ltb_ge (w * h) 0)), (proj2 (Z.ltb_lt 0 w)), (proj2 (Z.ltb_lt 0 h)) by nia.
  eexists. split; [done |]. split; [split; [done |]; split; [done |]; split; [| done] |].
  - unfold MazeModel.cellCount, cells_of. simpl. rewrite length_replicate. nia.
  - repeat (split; [done |]). intros i d. unfold cell_open. simpl.
    destruct (replicate _ _ !! _) eqn:E; [| done]. apply lookup_replicate in E as [-> _].
    apply Z.bits_0.
Qed.
