(* ===== verification/MazeGeneration.v ===== *)
(** The maze generator builds a perfect maze: the invariant of the depth-first
    walk, with the tree grown so far as ghost state, and its number of steps. *)

From Stdlib Require Import ZArith Lia Bool String.
From stdpp Require Import base gmap option numbers list.
From S2P Require Import Prelude.
From S2P Require Import StdModel Maze.
From S2P Require Import MazeGraph.

Set Default Goal Selector "!".

Module G := MazeGeneratorSession.

(** ** The unvisited neighbours *)
Definition choice_at (m : MazeModel.t) (flags : list bool) (i : Z) (d : MazeDirection.t)
    : option G.NeighborChoice :=
  match step m i d with
  | Some j => match flags !! Z.to_nat j with Some false => Some (G.mkNeighborChoice d j) | _ => None end
  | None => None
  end.

Section Choices.
Context {R : Type} `{!RandomEngine R}.
Context (m : MazeModel.t) (Hm : grid_ok m).

Lemma collect_loop_ok flags i ds acc :
  0 <= i < cells_of m -> Z.of_nat (length flags) = cells_of m ->
  G.collect_loop m flags (mkMazeCoord (i mod MazeModel.width_ m) (i / MazeModel.width_ m)) ds acc =
  Ok (acc ++ omap (choice_at m flags i) ds).
Proof.
  intros Hi Hl. revert acc. induction ds as [|d ds IH]; intros acc; [by rewrite app_nil_r |].
  cbn [G.collect_loop omap list_omap]. rewrite mazeDirectionDelta_ok. cbn [rbind mc_x mc_y].
  unfold choice_at at 1. destruct (neighbour_cases m i d) as [[Hv ->] | (j & Hv & Hj & Hs)].
  { by rewrite Hv, IH. }
  rewrite Hv, Hj, Hs. cbn [negb rbind].
  assert (0 <= j < cells_of m) by by apply (grid_step_range _ _ i d).
  destruct (in_range_lookup flags j) as [b Hb]; [lia |].
  rewrite (vec_at_ok flags j b), Hb by (lia || done). destruct b; cbn [rbind]; rewrite IH; [done |].
  by rewrite <- app_assoc.
Qed.

Lemma collect_ok (s : G.t R) i :
  0 <= i < cells_of m -> Z.of_nat (length (G.visitedFlags_ s)) = cells_of m ->
  G.collectUnvisitedNeighbors m s i = Ok (omap (choice_at m (G.visitedFlags_ s) i) MazeDirection.all).
Proof.
  intros Hi Hl. unfold G.collectUnvisitedNeighbors. rewrite coordForIndex_ok by done. cbn [rbind].
  by rewrite collect_loop_ok.
Qed.

Lemma choice_at_Some flags i d c :
  choice_at m flags i d = Some c ->
  G.direction c = d /\ step m i d = Some (G.index c) /\ flags !! Z.to_nat (G.index c) = Some false.
Proof.
  unfold choice_at. destruct (step m i d) as [j |]; [| done].
  destruct (flags !! Z.to_nat j) as [[|] |] eqn:E; [done | | done]. by intros [= <-].
Qed.

(** A passage opened between a cell and its neighbour: both sides. *)
Lemma openPassage_ok i d j :
  0 <= i < cells_of m -> step m i d = Some j ->
  exists m', G.openPassage m i d j = Ok m' /\ grid_ok m' /\ dims m m' /\
    forall k e, 0 <= k -> cell_open m' k e =
      cell_open m k e || bool_decide (k = i /\ e = d) || bool_decide (k = j /\ e = opposite d).
Proof.
  intros Hi Hs. destruct Hm as (Hw & Hh & Hc & Hn).
  assert (0 <= j < cells_of m) as Hj by by apply (grid_step_range _ _ i d).
  assert (i <> j) as Hne by by apply (grid_step_neq _ _ i d j Hw Hi).
  assert (forall k, 0 <= k < cells_of m -> exists c, MazeModel.cells_ m !! Z.to_nat k = Some c) as Hcell.
  { intros k Hk. apply in_range_lookup. unfold MazeModel.cellCount in Hc. lia. }
  destruct (Hcell i Hi) as [ci Hci], (Hcell j Hj) as [cj Hcj].
  pose proof (with_cell_grid_ok m Hm i) as Hm1.
  set (c1 := mkMazeCell (Z.lor (openings ci) (mazeDirectionBit d))).
  set (c2 := mkMazeCell (Z.lor (openings cj) (mazeDirectionBit (opposite d)))).
  exists (with_cell (with_cell m i c1) j c2). split; [| split; [| split]].
  - unfold G.openPassage, MazeModel.cellAt.
    rewrite Hc, (proj2 (Z.leb_le 0 i)), (proj2 (Z.ltb_lt i (cells_of m))) by lia. cbn [dirtsim_assert rbind].
    rewrite (vec_at_ok _ i ci) by (lia || done). cbn [rbind].
    rewrite (cellAt_set_ok m Hm) by done. cbn [rbind]. fold c1.
    destruct (Hm1 c1) as (_ & _ & Hc1 & _). rewrite Hc1. change (cells_of (with_cell m i c1)) with (cells_of m).
    rewrite (proj2 (Z.leb_le 0 j)), (proj2 (Z.ltb_lt j (cells_of m))) by lia. cbn [dirtsim_assert rbind].
    rewrite (vec_at_ok _ j cj).
    + cbn [rbind]. rewrite mazeOppositeDirection_ok. cbn [rbind]. by rewrite (cellAt_set_ok _ (Hm1 c1)).
    + lia.
    + simpl. by rewrite list_lookup_insert_ne by lia.
  - apply with_cell_grid_ok. apply Hm1.
  - done.
  - intros k e Hk. rewrite (cell_open_with_cell _ (Hm1 c1)) by done.
    pose proof (direction_to_Z_range d). pose proof (direction_to_Z_range (opposite d)).
    assert (forall a b : MazeDirection.t,
      bool_decide (MazeDirection.to_Z a = MazeDirection.to_Z b) = bool_decide (b = a)) as Hbd.
    { intros a b. apply bool_decide_ext. split; [| by intros ->]. intros. symmetry. by apply direction_to_Z_inj. }
    case_decide as E.
    + subst k. unfold c2. cbn [openings]. rewrite mazeDirectionBit_shift, testbit_set, Hbd by lia.
      rewrite (bool_decide_false (j = i /\ _)) by naive_solver. rewrite orb_false_r.
      unfold cell_open. rewrite Hcj. rewrite orb_comm. f_equal. apply bool_decide_ext. naive_solver.
    + rewrite (cell_open_with_cell m Hm) by done. rewrite (bool_decide_false (k = j /\ _)) by naive_solver.
      rewrite orb_false_r. case_decide as E'.
      * subst k. unfold c1. cbn [openings]. rewrite mazeDirectionBit_shift, testbit_set, Hbd by lia.
        unfold cell_open. rewrite Hci. rewrite orb_comm. f_equal. apply bool_decide_ext. naive_solver.
      * rewrite (bool_decide_false (k = i /\ _)) by naive_solver. by rewrite orb_false_r.
Qed.
End Choices.

(** ** The invariant

    [vs] are the visited cells, latest first, and [es] the passages, as the
    edges from each cell to the one it was reached from. *)
Section Invariant.
Context {R : Type} `{!RandomEngine R}.

Record gen_inv (m0 m : MazeModel.t) (s : G.t R) (vs : list Z) (es : list (Z * Z)) : Prop := {
  gi_grid : grid_ok m;
  gi_dims : dims m0 m;
  gi_tree : tree vs es;
  gi_range : forall i, i ∈ vs -> 0 <= i < cells_of m;
  gi_length : Z.of_nat (length (G.visitedFlags_ s)) = cells_of m;
  gi_flags : forall i, 0 <= i < cells_of m -> G.visitedFlags_ s !! Z.to_nat i = Some true <-> i ∈ vs;
  gi_edges : forall a b, adjacent es a b -> exists d, step m a d = Some b;
  gi_open : forall i d, 0 <= i < cells_of m ->
    cell_open m i d = true <-> exists j, step m i d = Some j /\ adjacent es i j;
  gi_stack : forall i, i ∈ G.stack_ s -> i ∈ vs;
  gi_closed : forall i d j, i ∈ vs -> i ∉ G.stack_ s -> step m i d = Some j -> j ∈ vs;
  gi_count : G.visitedCount_ s = Z.of_nat (length vs);
  gi_complete : G.complete_ s = true <-> G.stack_ s = [];
  gi_active : G.activeCellIndex_ s = default (-1) (head (G.stack_ s))
}.

(** Every cell is entered once and left once. *)
Definition steps_left (m : MazeModel.t) (s : G.t R) : Z :=
  2 * (cells_of m - G.visitedCount_ s) + Z.of_nat (length (G.stack_ s)).

Lemma gen_visited_bound m0 m s vs es : gen_inv m0 m s vs es -> Z.of_nat (length vs) <= cells_of m.
Proof.
  intros H. pose proof (gi_grid _ _ _ _ _ H) as (Hw & Hh & _). apply cells_at_most.
  - unfold cells_of. nia.
  - by eapply tree_nodup, gi_tree.
  - by eapply gi_range.
Qed.

Lemma gen_complete_all m0 m s vs es :
  gen_inv m0 m s vs es -> G.complete_ s = true -> forall i, 0 <= i < cells_of m -> i ∈ vs.
Proof.
  intros H Hc. pose proof (gi_grid _ _ _ _ _ H) as (Hw & Hh & _).
  apply (gi_complete _ _ _ _ _ H) in Hc.
  assert (exists r, r ∈ vs) as [r Hr].
  { pose proof (tree_nonempty _ _ (gi_tree _ _ _ _ _ H)). destruct vs as [|r vs]; [done |]. exists r. by left. }
  unfold cells_of. apply (grid_connected _ _ (.∈ vs) r); [done | | done |].
  - by apply (gi_range _ _ _ _ _ H).
  - intros i d j _ Hi Hs. apply (gi_closed _ _ _ _ _ H i d j Hi); [| done]. rewrite Hc.
    apply not_elem_of_nil.
Qed.

Lemma gen_complete_left m0 m s vs es :
  gen_inv m0 m s vs es -> G.complete_ s = bool_decide (steps_left m s = 0).
Proof.
  intros H. pose proof (gi_grid _ _ _ _ _ H) as (Hw & Hh & _). pose proof (gi_count _ _ _ _ _ H) as Hn.
  pose proof (gen_visited_bound _ _ _ _ _ H) as Hb. unfold steps_left.
  destruct (G.complete_ s) eqn:Hc; symmetry.
  - pose proof (gen_complete_all _ _ _ _ _ H Hc) as Hall.
    apply (gi_complete _ _ _ _ _ H) in Hc. rewrite Hc. apply bool_decide_true. cbn [length].
    assert (cells_of m <= Z.of_nat (length vs)) by (apply cells_at_least; [unfold cells_of; nia | done]).
    lia.
  - apply bool_decide_false. destruct (G.stack_ s) as [|a st] eqn:Es; [| simpl; lia].
    by rewrite (proj2 (gi_complete _ _ _ _ _ H) Es) in Hc.
Qed.

(** Passages are the edges of the tree. *)
Lemma gen_passage m0 m s vs es a b :
  gen_inv m0 m s vs es -> 0 <= a < cells_of m -> passage m a b <-> adjacent es a b.
Proof.
  intros H Ha. split.
  - intros (d & Hd & Hs). apply (gi_open _ _ _ _ _ H a d Ha) in Hd as (j & Hj & Hadj). congruence.
  - intros Hadj. destruct (gi_edges _ _ _ _ _ H a b Hadj) as [d Hd]. exists d. split; [| done].
    apply (gi_open _ _ _ _ _ H a d Ha). eauto.
Qed.

Lemma gen_passages_ok m0 m s vs es : gen_inv m0 m s vs es -> passages_ok m.
Proof.
  intros H. split.
  - intros i d Hi Ho. apply (gi_open _ _ _ _ _ H i d Hi) in Ho as (j & -> & _). eauto.
  - intros i j Hi Hp. assert (0 <= j < cells_of m) as Hj.
    { destruct Hp as (d & _ & Hs). by apply (grid_step_range _ _ i d). }
    apply (gen_passage m0 m s vs es j i H Hj), adjacent_sym.
    by apply (gen_passage m0 m s vs es i j H Hi).
Qed.

Lemma passage_walk_range m a l b :
  0 <= a < cells_of m -> walk_from_to (passage m) a l b -> forall x, x ∈ l -> 0 <= x < cells_of m.
Proof.
  intros Ha (Hh & _ & Hw) x Hx. apply list_elem_of_lookup_1 in Hx as [[|k] Hk].
  - destruct l; [done |]. by simplify_eq/=.
  - destruct (lookup_lt_is_Some_2 l k) as [y Hy]; [apply lookup_lt_Some in Hk; lia |].
    destruct (Hw k y x Hy Hk) as (d & _ & Hs). by apply (grid_step_range _ _ y d).
Qed.

Lemma gen_complete_perfect m0 m s vs es :
  gen_inv m0 m s vs es -> G.complete_ s = true -> perfect_maze m.
Proof.
  intros H Hc. split; [by apply (gen_passages_ok m0 m s vs es) |]. intros a b Ha Hb.
  pose proof (gen_complete_all _ _ _ _ _ H Hc) as Hall.
  destruct (tree_paths vs es (gi_tree _ _ _ _ _ H) a b (Hall a Ha) (Hall b Hb)) as (l & Hl & Hu).
  assert (forall l', simple_path (passage m) a l' b <-> simple_path (adjacent es) a l' b) as Heq.
  { intros l'. split; intros [Hwf Hnd]; (split; [| done]).
    - pose proof (passage_walk_range m a l' b Ha Hwf) as Hr. destruct Hwf as (Hh & Hla & Hw).
      split; [done |]. split; [done |]. eapply walk_mono; [| done]. intros x y Hx _.
      apply (gen_passage m0 m s vs es x y H). by apply Hr.
    - assert (forall x, x ∈ l' -> x ∈ vs) as Hvs.
      { by apply (simple_path_vertices vs es a l' b (gi_tree _ _ _ _ _ H) (Hall a Ha)). }
      destruct Hwf as (Hh & Hla & Hw). split; [done |]. split; [done |].
      eapply walk_mono; [| done]. intros x y Hx _.
      apply (gen_passage m0 m s vs es x y H). by apply (gi_range _ _ _ _ _ H), Hvs. }
  exists l. split; [by apply Heq |]. intros l' Hl'. by apply Hu, Heq.
Qed.
End Invariant.

(** ** The operations *)
Section Operations.
Context {R : Type} `{!RandomEngine R, !RandomLaws R}.

Lemma wp_vec_flag_get (s : G.t R) m0 m vs es i :
  gen_inv m0 m s vs es -> 0 <= i < cells_of m -> i ∉ vs -> G.visitedFlags_ s !! Z.to_nat i = Some false.
Proof.
  intros H Hi Hn. destruct (in_range_lookup (G.visitedFlags_ s) i) as [b Hb].
  { by rewrite (gi_length _ _ _ _ _ H). }
  destruct b; [| done]. by apply (gi_flags _ _ _ _ _ H i Hi) in Hb.
Qed.

(** Construction: the start cell alone. *)
Lemma gen_make m seed :
  grid_ok m -> (forall i d, cell_open m i d = false) ->
  exists s r, G.make m seed = Ok s /\ gen_inv m m s [r] [] /\ steps_left m s = 2 * cells_of m - 1.
Proof.
  intros Hm Ho. pose proof Hm as (Hw & Hh & Hc & Hn). assert (0 < cells_of m) by (unfold cells_of; nia).
  unfold G.make. rewrite Hc, (proj2 (Z.ltb_lt 0 (cells_of m))) by done. cbn [dirtsim_assert rbind].
  pose proof (uniform_range 0 (cells_of m - 1) (engine_seed seed)) as Hr.
  destruct (uniform_int _ _ _) as [r rng]. cbn [fst] in Hr.
  rewrite vec_at_set_ok by (rewrite length_replicate; lia). cbn [rbind].
  eexists _, r. split; [done |]. split; [| unfold steps_left; simpl; lia]. split; simpl.
  - done.
  - done.
  - constructor.
  - intros i Hi. apply list_elem_of_singleton in Hi as ->. lia.
  - rewrite length_insert, length_replicate. lia.
  - intros i Hi. rewrite list_elem_of_singleton, lookup_insert_Z by (rewrite ?length_replicate; lia).
    case_decide as E; [by rewrite E |]. rewrite lookup_replicate. naive_solver.
  - intros a b [Hab | Hab]; by apply not_elem_of_nil in Hab.
  - intros i d Hi. rewrite Ho. split; [done |].
    intros (j & _ & [Hab | Hab]); by apply not_elem_of_nil in Hab.
  - done.
  - done.
  - done.
  - done.
  - done.
Qed.

(** No unvisited neighbour: the cell is left. *)
Lemma gen_pop m0 m (s : G.t R) vs es cur below :
  gen_inv m0 m s vs es -> G.stack_ s = cur :: below ->
  omap (choice_at m (G.visitedFlags_ s) cur) MazeDirection.all = [] ->
  gen_inv m0 m (G.mk (default (-1) (head below)) (bool_decide (below = [])) (G.rng_ s) below
    (G.visitedFlags_ s) (G.visitedCount_ s)) vs es.
Proof.
  intros H Hs Hch. split; simpl; try (by destruct H).
  - intros i Hi. apply (gi_stack _ _ _ _ _ H). rewrite Hs. by right.
  - intros i d j Hi Hni Hst. destruct (decide (i = cur)) as [-> |].
    + assert (0 <= j < cells_of m) as Hj by by apply (grid_step_range _ _ cur d).
      destruct (decide (j ∈ vs)) as [| Hn]; [done |]. exfalso.
      assert (G.mkNeighborChoice d j ∈ omap (choice_at m (G.visitedFlags_ s) cur) MazeDirection.all) as Hin.
      { apply list_elem_of_omap. exists d. split; [apply elem_of_directions |].
        unfold choice_at. by rewrite Hst, (wp_vec_flag_get s m0 m vs es j H Hj Hn). }
      rewrite Hch in Hin. by apply not_elem_of_nil in Hin.
    + apply (gi_closed _ _ _ _ _ H i d j Hi); [| done]. rewrite Hs. intros Hin.
      apply elem_of_cons in Hin as [|]; done.
  - by rewrite bool_decide_eq_true.
Qed.

(** A neighbour chosen: the passage is opened and the walk goes on from there. *)
Lemma gen_push m0 m m' (s : G.t R) vs es cur below d j (rng : R) :
  gen_inv m0 m s vs es -> G.stack_ s = cur :: below ->
  step m cur d = Some j -> G.visitedFlags_ s !! Z.to_nat j = Some false ->
  grid_ok m' -> dims m m' ->
  (forall k e, 0 <= k -> cell_open m' k e =
     cell_open m k e || bool_decide (k = cur /\ e = d) || bool_decide (k = j /\ e = opposite d)) ->
  gen_inv m0 m' (G.mk j (G.complete_ s) rng (j :: G.stack_ s) (<[Z.to_nat j := true]> (G.visitedFlags_ s))
    (u64 (G.visitedCount_ s + 1))) (j :: vs) ((j, cur) :: es).
Proof.
  intros H Hs Hst Hf Hm' Hd Ho. pose proof (gi_grid _ _ _ _ _ H) as (Hw & Hh & _ & Hn).
  assert (0 <= j < cells_of m) as Hj by by apply (grid_step_range _ _ cur d).
  assert (cur ∈ vs) as Hcur by (apply (gi_stack _ _ _ _ _ H); rewrite Hs; by left).
  pose proof (gi_range _ _ _ _ _ H cur Hcur) as Hci.
  assert (j ∉ vs) as Hjn by (intros Hin; apply (gi_flags _ _ _ _ _ H j Hj) in Hin; congruence).
  assert (step m j (opposite d) = Some cur) as Hback by by apply (grid_step_opposite _ _ cur d j Hw Hci).
  split; simpl; rewrite ?(dims_cells m m' Hd), ?(dims_step m m' Hd); try done.
  - etrans; [apply H | done].
  - constructor; [apply H | done | done].
  - intros i Hi. apply elem_of_cons in Hi as [-> | Hi]; [done | by apply H].
  - rewrite length_insert. apply H.
  - intros i Hi. rewrite elem_of_cons, lookup_insert_Z by (rewrite ?(gi_length _ _ _ _ _ H); lia).
    case_decide as E; [naive_solver |]. rewrite (gi_flags _ _ _ _ _ H i Hi). naive_solver.
  - intros a b Hab. apply adjacent_cons in Hab as [[-> ->] | [[-> ->] | Hab]]; [eauto | eauto |].
    by apply (gi_edges _ _ _ _ _ H).
  - intros k e Hk. rewrite Ho, !orb_true_iff, !bool_decide_eq_true by lia.
    rewrite (gi_open _ _ _ _ _ H k e Hk). split.
    + intros [[(j' & Hj' & Ha) | [-> ->]] | [-> ->]]; [exists j' | exists j | exists cur];
        (split; [done |]); apply adjacent_cons; auto.
    + intros (j' & Hj' & Ha). apply adjacent_cons in Ha as [[-> ->] | [[-> ->] | Ha]].
      * right. split; [done |]. by apply (grid_step_inj _ _ j e (opposite d) cur Hw Hj).
      * left; right. split; [done |]. by apply (grid_step_inj _ _ cur e d j Hw Hci).
      * left; left. eauto.
  - intros i Hi. apply elem_of_cons in Hi as [-> | Hi]; [by left | right]. by apply (gi_stack _ _ _ _ _ H).
  - intros i e j' Hi Hni Hs'. apply elem_of_cons in Hi as [-> | Hi]; [set_solver |]. right.
    apply (gi_closed _ _ _ _ _ H i e j' Hi); [set_solver | done].
  - pose proof (gen_visited_bound _ _ _ _ _ H). pose proof (gi_count _ _ _ _ _ H).
    rewrite wrap_u_small by lia. lia.
  - rewrite (gi_complete _ _ _ _ _ H), Hs. done.
Qed.

(** One step: no fault, and one step fewer left. *)
Lemma gen_step m0 m (s : G.t R) vs es :
  gen_inv m0 m s vs es -> G.complete_ s = false ->
  exists m' s' vs' es', G.advanceOneStep m s = Ok (m', s') /\ gen_inv m0 m' s' vs' es' /\
    steps_left m' s' = steps_left m s - 1.
Proof.
  intros H Hc. pose proof (gi_grid _ _ _ _ _ H) as Hm.
  unfold G.advanceOneStep. destruct (G.stack_ s) as [|cur below] eqn:Hs.
  { by rewrite (proj2 (gi_complete _ _ _ _ _ H) Hs) in Hc. }
  assert (cur ∈ vs) as Hcur by (apply (gi_stack _ _ _ _ _ H); rewrite Hs; by left).
  pose proof (gi_range _ _ _ _ _ H cur Hcur) as Hci.
  rewrite (collect_ok m Hm) by (done || apply H). cbn [rbind G.visitedFlags_].
  set (choices := omap _ _). case_bool_decide as Hlen.
  - apply nil_length_inv in Hlen. pose proof (gen_pop m0 m s vs es cur below H Hs Hlen) as Hpop.
    assert (steps_left m (G.mk (default (-1) (head below)) (bool_decide (below = [])) (G.rng_ s) below
      (G.visitedFlags_ s) (G.visitedCount_ s)) = steps_left m s - 1) as Hl.
    { unfold steps_left. rewrite Hs. simpl. lia. }
    destruct below as [|back below]; simpl in *; rewrite ?Hc; eauto 10.
  - pose proof (uniform_range 0 (Z.of_nat (length choices) - 1) (G.rng_ s) ltac:(lia)) as Hr.
    cbn [G.rng_]. destruct (uniform_int _ _ _) as [k rng]. cbn [fst] in Hr.
    destruct (in_range_lookup choices k) as [[d j] Hch]; [lia |].
    rewrite (vec_at_ok choices k _ (proj1 Hr) Hch). cbn [rbind G.direction G.index].
    apply list_elem_of_lookup_2, list_elem_of_omap in Hch as (d' & _ & Hch).
    apply choice_at_Some in Hch as (Hd & Hst & Hf). cbn [G.direction G.index] in *. subst d'.
    destruct (openPassage_ok m Hm cur d j Hci Hst) as (m' & -> & Hm' & Hdims & Ho). cbn [rbind].
    assert (0 <= j < cells_of m) by by apply (grid_step_range _ _ cur d).
    rewrite vec_at_set_ok by (rewrite (gi_length _ _ _ _ _ H); lia). cbn [rbind G.stack_ G.complete_ G.visitedCount_].
    pose proof (gen_push m0 m m' s vs es cur below d j rng H Hs Hst Hf Hm' Hdims Ho) as Hpush.
    rewrite Hs in Hpush. eexists _, _, _, _. split; [done |]. split; [exact Hpush |].
    pose proof (gi_count _ _ _ _ _ Hpush) as Hn. pose proof (gi_count _ _ _ _ _ H) as Hn'.
    unfold steps_left. rewrite Hn, (dims_cells m m' Hdims), Hs. simpl. lia.
Qed.

(** [k] steps at a time, from any state. *)
Lemma gen_advance k m0 m (s : G.t R) vs es :
  gen_inv m0 m s vs es ->
  exists m' s' vs' es', G.advance k m s = Ok (m', s') /\ gen_inv m0 m' s' vs' es' /\
    steps_left m' s' = Z.max 0 (steps_left m s - Z.of_nat k).
Proof.
  intros H. assert (forall k m s vs es, gen_inv m0 m s vs es ->
    exists m' s' vs' es', G.advance_loop k m s = Ok (m', s') /\ gen_inv m0 m' s' vs' es' /\
      steps_left m' s' = Z.max 0 (steps_left m s - Z.of_nat k)) as Hloop.
  { clear k m s vs es H. induction k as [|k IH]; intros m s vs es H.
    - exists m, s, vs, es. split; [done |]. split; [done |]. unfold steps_left.
      pose proof (gi_count _ _ _ _ _ H). pose proof (gen_visited_bound _ _ _ _ _ H). lia.
    - cbn [G.advance_loop]. pose proof (gen_complete_left _ _ _ _ _ H) as Hl. destruct (G.complete_ s) eqn:Hc.
      + symmetry in Hl. apply bool_decide_eq_true in Hl.
        exists m, s, vs, es. split; [done |]. split; [done |]. lia.
      + symmetry in Hl. apply bool_decide_eq_false in Hl.
        destruct (gen_step m0 m s vs es H Hc) as (m1 & s1 & vs1 & es1 & -> & H1 & Hs1). cbn [rbind fst snd].
        destruct (IH m1 s1 vs1 es1 H1) as (m2 & s2 & vs2 & es2 & -> & H2 & Hs2).
        exists m2, s2, vs2, es2. split; [done |]. split; [done |].
        enough (0 <= steps_left m s) by lia. unfold steps_left.
        pose proof (gi_count _ _ _ _ _ H). pose proof (gen_visited_bound _ _ _ _ _ H). lia. }
  unfold G.advance. destruct (G.complete_ s) eqn:Hc; [| by eapply Hloop].
  pose proof (gen_complete_left _ _ _ _ _ H) as Hl. rewrite Hc in Hl. symmetry in Hl.
  apply bool_decide_eq_true in Hl. exists m, s, vs, es. split; [done |]. split; [done |]. lia.
Qed.
End Operations.

(** ** The theorem *)
Section Generate.
Context {R : Type} `{!RandomEngine R, !RandomLaws R}.

(** [new MazeGeneratorSession(model, seed)] on a new model, then [k] steps. *)
Definition generate (width height seed : Z) (k : nat) : res (MazeModel.t * G.t R) :=
  let! m := MazeModel.make width height in
  let! s := G.make m seed in
  G.advance k m s.

(** C33. On a grid of [width * height] cells whose count fits an [int], whatever
    the seed and the random engine, any number of generator steps runs without
    an exception or a failing assertion; the generator is complete after exactly
    [2 * width * height - 1] steps and not before; and the maze is then perfect:
    every opening has its other side, none leads out of the grid, and there is
    exactly one simple path between any two cells. *)
Theorem maze_generation width height seed k :
  0 < width -> 0 < height -> width * height < 2 ^ 31 ->
  wp (generate width height seed k) (fun '(m, s) =>
    G.isComplete s = (2 * (width * height) - 1 <=? Z.of_nat k) /\
    cells_of m = width * height /\ passages_ok m /\
    (G.isComplete s = true ->
      perfect_maze m /\ G.activeCellIndex s = -1 /\
      forall i, 0 <= i < cells_of m -> G.visitedFlags s !! Z.to_nat i = Some true)).
Proof.
  intros Hw Hh Hn. unfold generate.
  destruct (model_make_ok width height Hw Hh Hn) as (m & -> & Hm & Hcells & _ & _ & _ & _ & Ho). cbn [rbind].
  destruct (gen_make m seed Hm Ho) as (s & r & -> & Hi & Hl). cbn [rbind].
  destruct (gen_advance k m m s [r] [] Hi) as (m' & s' & vs & es & -> & Hi' & Hl'). simpl.
  pose proof (gen_complete_left _ _ _ _ _ Hi') as Hc. pose proof (gi_dims _ _ _ _ _ Hi') as Hd.
  split; [| split; [| split]].
  - unfold G.isComplete. rewrite Hc, Hl', Hl, Hcells.
    destruct (Z.leb_spec (2 * (width * height) - 1) (Z.of_nat k)); [apply bool_decide_true; lia | apply bool_decide_false; lia].
  - by rewrite (dims_cells _ _ Hd).
  - by apply (gen_passages_ok m m' s' vs es).
  - intros Hcomp. split; [by eapply gen_complete_perfect |]. split.
    + unfold G.activeCellIndex. rewrite (gi_active _ _ _ _ _ Hi').
      by rewrite (proj1 (gi_complete _ _ _ _ _ Hi') Hcomp).
    + intros i Hr. apply (gi_flags _ _ _ _ _ Hi' i Hr). by apply (gen_complete_all m m' s' vs es Hi' Hcomp).
Qed.
End Generate.

(** ** A concrete engine: a linear congruential generator *)
Module Lcg.
Definition next (s : Z) : Z := (s * 1103515245 + 12345) mod 2 ^ 31.
#[export] Instance engine : RandomEngine Z := {
  engine_seed s := next (s mod 2 ^ 31);
  uniform_int lo hi s := (lo + s mod (hi - lo + 1), next s)
}.
#[export] Instance laws : RandomLaws Z.
Proof.
  split. intros lo hi s Hle. simpl. pose proof (Z.mod_pos_bound s (hi - lo + 1)). lia.
Qed.
End Lcg.
Import Lcg.

Lemma maze_generation_witness :
  wp (generate (R := Z) 3 2 7 11) (fun '(m, s) =>
    G.isComplete s = true /\ cells_of m = 6 /\ passages_ok m /\
    (G.isComplete s = true ->
      perfect_maze m /\ G.activeCellIndex s = -1 /\
      forall i, 0 <= i < cells_of m -> G.visitedFlags s !! Z.to_nat i = Some true)).
Proof. exact (maze_generation (R := Z) 3 2 7 11 eq_refl eq_refl eq_refl). Defined.
