(* ===== verification/MazeSolving.v ===== *)
(** The maze solver finds a shortest path: the invariant of the breadth-first
    search, with the distances of the queued cells as ghost state. *)

From Stdlib Require Import ZArith Lia Bool String.
From stdpp Require Import base gmap option numbers list.
From S2P Require Import Prelude.
From S2P Require Import StdModel Maze.
From S2P Require Import MazeGraph.

Set Default Goal Selector "!".

Module V := MazeSolverSession.

(** What the solver promises: the path is empty when the goal cannot be reached,
    and otherwise it is a simple path of passages with as few cells as any. *)
Definition solution_of (m : MazeModel.t) (path : list Z) : Prop :=
  (simple_path (passage m) (MazeModel.startIndex_ m) path (MazeModel.goalIndex_ m) /\
   forall l, walk_from_to (passage m) (MazeModel.startIndex_ m) l (MazeModel.goalIndex_ m) ->
     (length path <= length l)%nat) \/
  (path = [] /\ forall l, ~ walk_from_to (passage m) (MazeModel.startIndex_ m) l (MazeModel.goalIndex_ m)).

(** A vector of flags that marks the members of a list. *)
Definition flag_list (n : Z) (flags : list bool) (l : list Z) : Prop :=
  Z.of_nat (length flags) = n /\
  forall i, 0 <= i < n -> flags !! Z.to_nat i = Some true <-> i ∈ l.

Section FlagList.
Implicit Types (flags : list bool) (l : list Z) (i n : Z).

Lemma flag_list_clear n k : Z.of_nat k = n -> flag_list n (replicate k false) [].
Proof.
  intros Hk. split; [by rewrite length_replicate |]. intros i Hi. rewrite lookup_replicate.
  split; [by intros [? _] | intros H; by apply not_elem_of_nil in H].
Qed.

Lemma flag_list_add n flags l i :
  0 <= i < n -> flag_list n flags l -> flag_list n (<[Z.to_nat i := true]> flags) (l ++ [i]).
Proof.
  intros Hi [Hl Hf]. split; [by rewrite length_insert |]. intros j Hj.
  rewrite lookup_insert_Z, elem_of_app, list_elem_of_singleton by lia. case_decide as E.
  - subst. split; auto.
  - rewrite Hf by done. naive_solver.
Qed.

Lemma flag_list_get n flags l i :
  0 <= i < n -> flag_list n flags l ->
  exists b, vec_at flags i = Ok b /\ (b = true <-> i ∈ l).
Proof.
  intros Hi [Hl Hf]. destruct (in_range_lookup flags i) as [b Hb]; [lia |]. exists b.
  split; [by apply vec_at_ok; [lia |] |]. rewrite <- Hf, Hb by done. split; congruence.
Qed.

Lemma flag_list_set_ok n flags l i :
  0 <= i < n -> flag_list n flags l -> vec_at_set flags i true = Ok (<[Z.to_nat i := true]> flags).
Proof. intros Hi [Hl _]. apply vec_at_set_ok. lia. Qed.
End FlagList.

(** ** The queue and its distances *)
Record sol_core (m : MazeModel.t) (s : V.t) (ds : list Z) : Prop := {
  sc_nodup : NoDup (V.queue_ s);
  sc_range : forall i, i ∈ V.queue_ s -> 0 <= i < cells_of m;
  sc_enqueued : flag_list (cells_of m) (V.enqueuedFlags_ s) (V.queue_ s);
  sc_parents_len : Z.of_nat (length (V.parents_ s)) = cells_of m;
  sc_ds_len : length ds = length (V.queue_ s);
  sc_sorted : forall a b x y, (a <= b)%nat -> ds !! a = Some x -> ds !! b = Some y -> x <= y;
  sc_start : V.queue_ s !! 0%nat = Some (MazeModel.startIndex_ m) /\ ds !! 0%nat = Some 0 /\
    V.parents_ s !! Z.to_nat (MazeModel.startIndex_ m) = Some (-1);
  sc_parent : forall k c d, V.queue_ s !! S k = Some c -> ds !! S k = Some d ->
    exists k' p, (k' <= k)%nat /\ V.queue_ s !! k' = Some p /\ ds !! k' = Some (d - 1) /\
      V.parents_ s !! Z.to_nat c = Some p /\ passage m p c
}.

(** All the neighbours of position [k] are queued, at most one step further. *)
Definition processed (m : MazeModel.t) (s : V.t) (ds : list Z) (k : nat) : Prop :=
  forall c d j, V.queue_ s !! k = Some c -> ds !! k = Some d -> passage m c j ->
    exists k2 d2, V.queue_ s !! k2 = Some j /\ ds !! k2 = Some d2 /\ d2 <= d + 1.

Record sol_inv (m : MazeModel.t) (s : V.t) (ds : list Z) : Prop := {
  si_core : sol_core m s ds;
  si_head : 0 <= V.queueHead_ s <= Z.of_nat (length (V.queue_ s));
  si_visited : flag_list (cells_of m) (V.visitedFlags_ s) (take (Z.to_nat (V.queueHead_ s)) (V.queue_ s));
  si_near : forall x y b, ds !! Z.to_nat (V.queueHead_ s) = Some x -> ds !! b = Some y -> y <= x + 1;
  si_processed : forall k, (k < Z.to_nat (V.queueHead_ s))%nat -> processed m s ds k;
  si_goal : forall k, (k < Z.to_nat (V.queueHead_ s))%nat -> V.queue_ s !! k <> Some (MazeModel.goalIndex_ m);
  si_frontier_len : Z.of_nat (length (V.frontierFlags_ s)) = cells_of m;
  si_path : V.solutionPath_ s = []
}.

Section Facts.
Context (m : MazeModel.t) (Hm : grid_ok m) (Hp : passages_ok m).

Lemma cells_pos : 0 < cells_of m.
Proof. destruct Hm as (Hw & Hh & _). unfold cells_of. nia. Qed.

Lemma queue_bound s ds : sol_core m s ds -> Z.of_nat (length (V.queue_ s)) <= cells_of m.
Proof.
  intros H. pose proof cells_pos. apply cells_at_most; [lia | by eapply sc_nodup | by eapply sc_range].
Qed.

Lemma ds_lookup s ds k c :
  sol_core m s ds -> V.queue_ s !! k = Some c -> exists d, ds !! k = Some d.
Proof.
  intros H Hk. apply lookup_lt_is_Some_2. rewrite (sc_ds_len _ _ _ H). by eapply lookup_lt_Some.
Qed.

(** The parents of a queued cell, followed back to the start. *)
Lemma rebuild_loop_ok s ds :
  sol_core m s ds -> forall k c d fuel acc,
  V.queue_ s !! k = Some c -> ds !! k = Some d -> (k < fuel)%nat ->
  exists p, V.rebuild_loop fuel (V.parents_ s) c acc = Ok (acc ++ p) /\ Z.of_nat (length p) = d + 1 /\
    walk_from_to (passage m) (MazeModel.startIndex_ m) (reverse p) c /\ NoDup p /\
    forall x, x ∈ p -> exists k', (k' <= k)%nat /\ V.queue_ s !! k' = Some x.
Proof.
  intros H k. induction (lt_wf k) as [k _ IH]. intros c d fuel acc Hc Hd Hf.
  pose proof (sc_range _ _ _ H c (list_elem_of_lookup_2 _ _ _ Hc)) as Hr.
  destruct fuel as [|fuel]; [lia |]. cbn [V.rebuild_loop].
  rewrite (proj2 (Z.ltb_ge c 0)) by lia.
  destruct (sc_start _ _ _ H) as (Hq0 & Hd0 & Hp0). destruct k as [|k].
  - simplify_eq. rewrite (vec_at_ok _ _ (-1)) by (lia || done). cbn [rbind].
    exists [MazeModel.startIndex_ m]. split; [by destruct fuel |]. split; [done |]. split; [| split].
    + split; [done |]. split; [done |]. apply walk_singleton.
    + apply NoDup_singleton.
    + intros x Hx. apply list_elem_of_singleton in Hx as ->. by exists 0%nat.
  - destruct (sc_parent _ _ _ H k c d Hc Hd) as (k' & p & Hk' & Hqp & Hdp & Hpar & Hpass).
    rewrite (vec_at_ok _ _ p) by (lia || done). cbn [rbind].
    destruct (IH k' ltac:(lia) p (d - 1) fuel (acc ++ [c]) Hqp Hdp ltac:(lia)) as (l & -> & Hl & Hw & Hnd & Hin).
    exists (c :: l). split; [by rewrite <- app_assoc |]. split; [simpl; lia |]. split; [| split].
    + rewrite reverse_cons. destruct Hw as (Hh & Hla & Hw). split; [| split].
      * destruct (reverse l); [done | by rewrite <- Hh].
      * by rewrite last_snoc.
      * by apply (walk_snoc _ _ p).
    + apply NoDup_cons. split; [| done]. intros Hcl. destruct (Hin c Hcl) as (k2 & Hk2 & Hq2).
      assert (k2 = S k) by (by eapply NoDup_lookup; [by eapply sc_nodup | |]). lia.
    + intros x Hx. apply elem_of_cons in Hx as [-> | Hx]; [by exists (S k) |].
      destruct (Hin x Hx) as (k2 & Hk2 & Hq2). exists k2. split; [lia | done].
Qed.

(** A walk from the start meets the cells of the queue no sooner than their
    distances, as long as the nearer positions are processed. *)
Lemma walk_distance s ds D l :
  sol_core m s ds ->
  (forall k d, ds !! k = Some d -> d < D -> processed m s ds k) ->
  head l = Some (MazeModel.startIndex_ m) -> walk (passage m) l ->
  forall t x, l !! t = Some x -> Z.of_nat t <= D ->
  exists k2 d2, V.queue_ s !! k2 = Some x /\ ds !! k2 = Some d2 /\ d2 <= Z.of_nat t.
Proof.
  intros H Hpr Hh Hw t. induction t as [|t IH]; intros x Hx Ht.
  - destruct l; [done |]. simplify_eq/=. destruct (sc_start _ _ _ H) as (Hq & Hd & _). by exists 0%nat, 0.
  - destruct (lookup_lt_is_Some_2 l t) as [y Hy]; [apply lookup_lt_Some in Hx; lia |].
    destruct (IH y Hy ltac:(lia)) as (k & d & Hk & Hd & Hdt).
    destruct (Hpr k d Hd ltac:(lia) y d x Hk Hd (Hw t y x Hy Hx)) as (k2 & d2 & Hk2 & Hd2 & Hle).
    exists k2, d2. split; [done |]. split; [done | lia].
Qed.

(** When the goal is at the head, the way back from it is a shortest path. *)
Lemma goal_found s ds :
  sol_inv m s ds -> V.queue_ s !! Z.to_nat (V.queueHead_ s) = Some (MazeModel.goalIndex_ m) ->
  exists path, V.rebuild_loop (length (V.parents_ s)) (V.parents_ s) (MazeModel.goalIndex_ m) [] = Ok path /\
    solution_of m (reverse path).
Proof.
  intros H Hg. pose proof (si_core _ _ _ H) as Hc. destruct (ds_lookup s ds _ _ Hc Hg) as [D HD].
  pose proof (queue_bound s ds Hc) as Hq. pose proof (sc_parents_len _ _ _ Hc) as Hl.
  pose proof (lookup_lt_Some _ _ _ Hg) as Hlt.
  destruct (rebuild_loop_ok s ds Hc _ _ D (length (V.parents_ s)) [] Hg HD ltac:(lia))
    as (p & -> & Hlen & Hw & Hnd & _).
  exists p. split; [done |]. left. split; [split; [done |]; by rewrite reverse_Permutation |].
  intros l (Hh & Hla & Hwl). rewrite length_reverse. apply last_Some in Hla as [l' El].
  assert (l !! length l' = Some (MazeModel.goalIndex_ m)) as Hlook.
  { rewrite El. by apply list_lookup_middle. }
  assert (length l = S (length l')) as Hll by (rewrite El, length_app; simpl; lia).
  destruct (decide (Z.of_nat (length l') < D)) as [Hlt' |]; [exfalso | lia].
  assert (forall k d, ds !! k = Some d -> d < D -> processed m s ds k) as Hpr.
  { intros k d Hk Hd. apply (si_processed _ _ _ H).
    destruct (decide (k < Z.to_nat (V.queueHead_ s))%nat) as [| Hge]; [done |].
    pose proof (sc_sorted _ _ _ Hc (Z.to_nat (V.queueHead_ s)) k D d ltac:(lia) HD Hk). lia. }
  destruct (walk_distance s ds D l Hc Hpr Hh Hwl _ _ Hlook ltac:(lia)) as (k2 & d2 & Hk2 & Hd2 & Hle).
  assert (k2 = Z.to_nat (V.queueHead_ s)) as -> by (by eapply NoDup_lookup; [by eapply sc_nodup | |]).
  rewrite HD in Hd2. injection Hd2 as <-. lia.
Qed.

(** When the queue is exhausted, the goal cannot be reached. *)
Lemma goal_unreachable s ds :
  sol_inv m s ds -> Z.of_nat (length (V.queue_ s)) <= V.queueHead_ s -> solution_of m [].
Proof.
  intros H Hh. right. split; [done |]. intros l (Hhd & Hla & Hwl). pose proof (si_core _ _ _ H) as Hc.
  apply last_Some in Hla as [l' El].
  assert (l !! length l' = Some (MazeModel.goalIndex_ m)) as Hlook.
  { rewrite El. by apply list_lookup_middle. }
  assert (forall k d, ds !! k = Some d -> d < Z.of_nat (length l') -> processed m s ds k) as Hpr.
  { intros k d Hk _. apply (si_processed _ _ _ H). apply lookup_lt_Some in Hk.
    rewrite (sc_ds_len _ _ _ Hc) in Hk. lia. }
  destruct (walk_distance s ds _ l Hc Hpr Hhd Hwl _ _ Hlook ltac:(lia)) as (k2 & d2 & Hk2 & _).
  apply (si_goal _ _ _ H k2); [| done]. apply lookup_lt_Some in Hk2. lia.
Qed.
End Facts.

(** ** One cell: its open directions *)
Lemma land_bit_zero c d :
  (Z.land (openings c) (mazeDirectionBit d) =? 0) = negb (Z.testbit (openings c) (MazeDirection.to_Z d)).
Proof.
  rewrite mazeDirectionBit_shift. pose proof (direction_to_Z_range d).
  destruct (Z.testbit (openings c) (MazeDirection.to_Z d)) eqn:E; cbn [negb].
  - apply Z.eqb_neq. intros H0. apply (f_equal (fun z => Z.testbit z (MazeDirection.to_Z d))) in H0.
    by rewrite Z.land_spec, E, testbit_shiftl_1, bool_decide_true, Z.bits_0 in H0 by lia.
  - apply Z.eqb_eq, Z.bits_inj'. intros n Hn. rewrite Z.land_spec, Z.bits_0.
    rewrite testbit_shiftl_1 by lia. case_bool_decide as En; [by rewrite <- En, E | apply andb_false_r].
Qed.

(** The queue grows at its back and nothing else of the session changes. *)
Definition enqueues (s s' : V.t) : Prop :=
  exists enqueued parents new, s' = V.set_enqueued enqueued parents (V.queue_ s ++ new) s.

Lemma enqueues_refl s : enqueues s s.
Proof. exists (V.enqueuedFlags_ s), (V.parents_ s), []. rewrite app_nil_r. by destruct s. Qed.

Lemma enqueues_trans s1 s2 s3 : enqueues s1 s2 -> enqueues s2 s3 -> enqueues s1 s3.
Proof.
  intros (e & p & n & ->) (e' & p' & n' & ->). exists e', p', (n ++ n'). simpl. by rewrite app_assoc.
Qed.

Section Visit.
Context (m : MazeModel.t) (Hm : grid_ok m) (Hp : passages_ok m).

(** A new cell at the back of the queue, one step beyond its parent. *)
Lemma core_enqueue s ds k0 cur D j :
  sol_core m s ds -> V.queue_ s !! k0 = Some cur -> ds !! k0 = Some D ->
  (forall b y, ds !! b = Some y -> y <= D + 1) -> passage m cur j -> 0 <= j < cells_of m ->
  j ∉ V.queue_ s ->
  sol_core m (V.set_enqueued (<[Z.to_nat j := true]> (V.enqueuedFlags_ s))
    (<[Z.to_nat j := cur]> (V.parents_ s)) (V.queue_ s ++ [j]) s) (ds ++ [D + 1]).
Proof.
  intros H Hk0 HD Hnear Hpass Hj Hjn. pose proof (sc_ds_len _ _ _ H) as Hlen.
  destruct (sc_start _ _ _ H) as (Hq0 & Hd0 & Hp0).
  assert (forall i p, i ∈ V.queue_ s -> V.parents_ s !! Z.to_nat i = Some p ->
    <[Z.to_nat j := cur]> (V.parents_ s) !! Z.to_nat i = Some p) as Hpar.
  { intros i p Hi Hpi. pose proof (sc_range _ _ _ H i Hi).
    rewrite lookup_insert_Z by (rewrite ?(sc_parents_len _ _ _ H); lia). case_decide; [by subst | done]. }
  split; cbn [V.set_enqueued V.queue_ V.enqueuedFlags_ V.parents_].
  - apply NoDup_app. split; [apply H |]. split; [| apply NoDup_singleton].
    intros x Hx Hx'. by apply list_elem_of_singleton in Hx' as ->.
  - intros i Hi. apply elem_of_app in Hi as [Hi | Hi]; [by apply (sc_range _ _ _ H) |].
    by apply list_elem_of_singleton in Hi as ->.
  - apply flag_list_add; [done | apply H].
  - rewrite length_insert. apply H.
  - rewrite !length_app. simpl. lia.
  - intros a b x y Hab Hx Hy. apply lookup_app_Some in Hy as [Hy | [Hb Hy]].
    + apply (sc_sorted _ _ _ H a b); [done | | done]. apply lookup_lt_Some in Hy.
      by rewrite lookup_app_l in Hx by lia.
    + apply list_lookup_singleton_Some in Hy as [_ <-]. apply lookup_app_Some in Hx as [Hx | [_ Hx]].
      * by apply (Hnear a).
      * by apply list_lookup_singleton_Some in Hx as [_ <-].
  - split; [| split].
    + by apply lookup_app_l_Some.
    + by apply lookup_app_l_Some.
    + apply Hpar; [| done]. by eapply list_elem_of_lookup_2.
  - intros k c d Hc Hd. apply lookup_app_Some in Hc as [Hc | [Hge Hc]].
    + rewrite lookup_app_l in Hd by (rewrite Hlen; by eapply lookup_lt_Some).
      destruct (sc_parent _ _ _ H k c d Hc Hd) as (k' & p & Hk' & Hqp & Hdp & Hpc & Hpas).
      exists k', p. split; [done |]. split; [by apply lookup_app_l_Some |].
      split; [by apply lookup_app_l_Some |]. split; [| done].
      apply Hpar; [by eapply list_elem_of_lookup_2 | done].
    + apply list_lookup_singleton_Some in Hc as [Hk <-].
      assert (d = D + 1) as ->.
      { rewrite lookup_app_r in Hd by lia. apply list_lookup_singleton_Some in Hd. by destruct Hd. }
      apply lookup_lt_Some in Hk0 as Hlt. exists k0, cur. split; [lia |]. split; [by apply lookup_app_l_Some |].
      split; [rewrite Z.add_simpl_r; by apply lookup_app_l_Some |]. split; [| done].
      apply list_lookup_insert_eq. pose proof (sc_parents_len _ _ _ H). lia.
Qed.

Lemma visit_direction_ok s ds k0 cur D c d :
  sol_core m s ds -> V.queue_ s !! k0 = Some cur -> ds !! k0 = Some D ->
  (forall b y, ds !! b = Some y -> y <= D + 1) -> MazeModel.cells_ m !! Z.to_nat cur = Some c ->
  exists s' ds',
    V.visit_direction m cur c (mkMazeCoord (cur mod MazeModel.width_ m) (cur / MazeModel.width_ m)) d s = Ok s' /\
    sol_core m s' ds' /\ enqueues s s' /\ ds `prefix_of` ds' /\
    (forall b y, ds' !! b = Some y -> y <= D + 1) /\
    (forall j, cell_open m cur d = true -> step m cur d = Some j -> j ∈ V.queue_ s').
Proof.
  intros H Hk0 HD Hnear Hc. pose proof (sc_range _ _ _ H cur (list_elem_of_lookup_2 _ _ _ Hk0)) as Hcur.
  unfold V.visit_direction. rewrite land_bit_zero. assert (cell_open m cur d = Z.testbit (openings c) (MazeDirection.to_Z d)) as Hopen.
  { unfold cell_open. by rewrite Hc. }
  rewrite <- Hopen. destruct (cell_open m cur d) eqn:Ho; cbn [negb].
  2: { exists s, ds. repeat (split; [by (done || apply enqueues_refl) |]). done. }
  rewrite mazeDirectionDelta_ok. cbn [rbind mc_x mc_y].
  destruct (neighbour_cases m cur d) as [[_ Hn] | (j & -> & -> & Hs)].
  { destruct (proj1 Hp cur d Hcur Ho) as [j Hj]. congruence. }
  cbn [dirtsim_assert rbind]. assert (0 <= j < cells_of m) as Hj by by apply (grid_step_range _ _ cur d).
  destruct (flag_list_get _ _ _ j Hj (sc_enqueued _ _ _ H)) as (b & -> & Hb). cbn [rbind]. destruct b.
  { exists s, ds. repeat (split; [by (done || apply enqueues_refl) |]).
    intros j' _ Hs'. rewrite Hs in Hs'. injection Hs' as <-. by apply Hb. }
  assert (j ∉ V.queue_ s) as Hjn by (intros Hin; apply Hb in Hin; done).
  rewrite (flag_list_set_ok (cells_of m) _ (V.queue_ s)) by (done || apply H). cbn [rbind].
  rewrite vec_at_set_ok by (rewrite (sc_parents_len _ _ _ H); lia). cbn [rbind].
  eexists _, (ds ++ [D + 1]). split; [done |]. split; [| split; [| split; [| split]]].
  - apply (core_enqueue s ds k0 cur D j); try done. by exists d.
  - by eexists _, _, [j].
  - by apply prefix_app_r.
  - intros b y Hy. apply lookup_app_Some in Hy as [Hy | [_ Hy]]; [by apply (Hnear b) |].
    by apply list_lookup_singleton_Some in Hy as [_ <-].
  - intros j' _ Hs'. rewrite Hs in Hs'. injection Hs' as <-. simpl. apply elem_of_app. right.
    by apply list_elem_of_singleton.
Qed.

Lemma visit_directions_ok cur c D k0 dirs : forall s ds,
  sol_core m s ds -> V.queue_ s !! k0 = Some cur -> ds !! k0 = Some D ->
  (forall b y, ds !! b = Some y -> y <= D + 1) -> MazeModel.cells_ m !! Z.to_nat cur = Some c ->
  exists s' ds',
    V.visit_directions m cur c (mkMazeCoord (cur mod MazeModel.width_ m) (cur / MazeModel.width_ m)) dirs s = Ok s' /\
    sol_core m s' ds' /\ enqueues s s' /\ ds `prefix_of` ds' /\
    (forall b y, ds' !! b = Some y -> y <= D + 1) /\
    (forall d j, d ∈ dirs -> cell_open m cur d = true -> step m cur d = Some j -> j ∈ V.queue_ s').
Proof.
  induction dirs as [|d dirs IH]; intros s ds H Hk0 HD Hnear Hc.
  - exists s, ds. repeat (split; [by (done || apply enqueues_refl) |]).
    intros d j Hd. by apply not_elem_of_nil in Hd.
  - cbn [V.visit_directions].
    destruct (visit_direction_ok s ds k0 cur D c d H Hk0 HD Hnear Hc)
      as (s1 & ds1 & -> & H1 & He1 & Hpre1 & Hnear1 & Hin1). cbn [rbind].
    assert (V.queue_ s1 !! k0 = Some cur) as Hk1.
    { destruct He1 as (e & p & n & ->). by apply lookup_app_l_Some. }
    assert (ds1 !! k0 = Some D) as HD1 by by eapply prefix_lookup_Some.
    destruct (IH s1 ds1 H1 Hk1 HD1 Hnear1 Hc) as (s2 & ds2 & -> & H2 & He2 & Hpre2 & Hnear2 & Hin2).
    exists s2, ds2. split; [done |]. split; [done |]. split; [by eapply enqueues_trans |].
    split; [by etrans |]. split; [done |]. intros d' j Hd Ho Hs.
    apply elem_of_cons in Hd as [-> | Hd]; [| by apply (Hin2 d')].
    destruct He2 as (e & p & n & ->). simpl. apply elem_of_app. left. by apply Hin1.
Qed.
End Visit.

(** ** One step of the search *)

(** A session that has finished. *)
Definition finished (m : MazeModel.t) (s : V.t) : Prop :=
  V.complete_ s = true /\ solution_of m (V.solutionPath_ s) /\ V.frontier_ s = [] /\
  flag_list (cells_of m) (V.frontierFlags_ s) [].

Section Search.
Context (m : MazeModel.t) (Hm : grid_ok m) (Hp : passages_ok m).

(** The cell at the head is taken off the queue. *)
Lemma head_visited s ds cur :
  sol_inv m s ds -> V.queue_ s !! Z.to_nat (V.queueHead_ s) = Some cur ->
  0 <= cur < cells_of m /\
  vec_at_set (V.visitedFlags_ s) cur true = Ok (<[Z.to_nat cur := true]> (V.visitedFlags_ s)) /\
  flag_list (cells_of m) (<[Z.to_nat cur := true]> (V.visitedFlags_ s))
    (take (Z.to_nat (V.queueHead_ s + 1)) (V.queue_ s)).
Proof.
  intros H Hcur. pose proof (sc_range _ _ _ (si_core _ _ _ H) cur (list_elem_of_lookup_2 _ _ _ Hcur)) as Hr.
  pose proof (si_head _ _ _ H) as Hh. split; [done |].
  pose proof (si_visited _ _ _ H) as Hv. split; [by eapply flag_list_set_ok |].
  replace (Z.to_nat (V.queueHead_ s + 1)) with (S (Z.to_nat (V.queueHead_ s))) by lia.
  rewrite (take_S_r _ _ cur) by done. by apply flag_list_add.
Qed.

(** The directions of the cell at the head, visited: the invariant one position on. *)
Lemma advance_inv s ds cur D s' ds' visited :
  sol_inv m s ds -> V.queue_ s !! Z.to_nat (V.queueHead_ s) = Some cur ->
  ds !! Z.to_nat (V.queueHead_ s) = Some D -> cur <> MazeModel.goalIndex_ m ->
  flag_list (cells_of m) visited (take (Z.to_nat (V.queueHead_ s + 1)) (V.queue_ s)) ->
  sol_core m s' ds' -> enqueues (V.set_visited (V.queueHead_ s + 1) visited s) s' ->
  ds `prefix_of` ds' -> (forall b y, ds' !! b = Some y -> y <= D + 1) ->
  (forall d j, d ∈ MazeDirection.all -> cell_open m cur d = true -> step m cur d = Some j -> j ∈ V.queue_ s') ->
  sol_inv m s' ds'.
Proof.
  intros H Hcur HD Hgoal Hvis Hc (e & p & new & ->) Hpre Hnear Hin.
  pose proof (lookup_lt_Some _ _ _ Hcur) as Hlt. pose proof (si_head _ _ _ H) as Hh.
  assert (Z.to_nat (V.queueHead_ s + 1) = S (Z.to_nat (V.queueHead_ s))) as Ehd by lia.
  split; simpl in *; [done | | | | | | apply H | apply H].
  - rewrite length_app. lia.
  - rewrite take_app_le by lia. done.
  - intros x y b Hx Hy. assert (D <= x).
    { apply (sc_sorted _ _ _ Hc (Z.to_nat (V.queueHead_ s)) (Z.to_nat (V.queueHead_ s + 1))); [lia | | done].
      by eapply prefix_lookup_Some. }
    pose proof (Hnear b y Hy). lia.
  - intros k Hk c d j Hqc Hd Hpass. simpl in Hqc. rewrite lookup_app_l in Hqc by lia.
    destruct (ds_lookup m s ds k c (si_core _ _ _ H) Hqc) as [d' Hd'].
    assert (ds' !! k = Some d') as Hd'' by by eapply prefix_lookup_Some.
    rewrite Hd in Hd''. injection Hd'' as <-.
    destruct (decide (k = Z.to_nat (V.queueHead_ s))) as [-> | Hne].
    + rewrite Hcur in Hqc. injection Hqc as <-. rewrite HD in Hd'. injection Hd' as <-.
      destruct Hpass as (dir & Ho & Hs).
      specialize (Hin dir j (elem_of_directions dir) Ho Hs). apply list_elem_of_lookup_1 in Hin as [k2 Hk2].
      destruct (ds_lookup m _ ds' k2 j Hc Hk2) as [d2 Hd2]. exists k2, d2. eauto.
    + destruct (si_processed _ _ _ H k ltac:(lia) c d j Hqc Hd' Hpass) as (k2 & d2 & Hk2 & Hd2 & Hle).
      exists k2, d2. split; [by apply lookup_app_l_Some |]. split; [| done]. by eapply prefix_lookup_Some.
  - intros k Hk. rewrite lookup_app_l by lia. destruct (decide (k = Z.to_nat (V.queueHead_ s))) as [-> | Hne].
    + rewrite Hcur. congruence.
    + apply (si_goal _ _ _ H). lia.
Qed.

Lemma clear_finished s :
  Z.of_nat (length (V.frontierFlags_ s)) = cells_of m -> solution_of m (V.solutionPath_ s) ->
  V.complete_ s = true -> finished m (V.clearFrontier s).
Proof.
  intros Hl Hs Hc. split; [done |]. split; [done |]. split; [done |]. by apply flag_list_clear.
Qed.

(** A step finishes the search or moves the head on by one. *)
Lemma sol_step s ds :
  sol_inv m s ds -> V.complete_ s = false ->
  exists s', V.advanceOneStep m s = Ok s' /\
    (finished m s' \/ V.complete_ s' = false /\ V.queueHead_ s' = V.queueHead_ s + 1 /\ exists ds', sol_inv m s' ds').
Proof.
  intros H Hcomp. unfold V.advanceOneStep. pose proof (si_core _ _ _ H) as Hc. pose proof (si_head _ _ _ H) as Hh.
  destruct (Z.leb_spec (Z.of_nat (length (V.queue_ s))) (V.queueHead_ s)) as [Hend | Hlt].
  { eexists. split; [done |]. left. apply clear_finished; [by apply (si_frontier_len _ _ _ H) | | done].
    simpl. rewrite (si_path _ _ _ H). by apply (goal_unreachable m s ds). }
  destruct (in_range_lookup (V.queue_ s) (V.queueHead_ s)) as [cur Hcur]; [lia |].
  rewrite (vec_at_ok _ _ cur) by (lia || done). cbn [rbind].
  destruct (head_visited s ds cur H Hcur) as (Hr & -> & Hvis). cbn [rbind].
  destruct (Z.eqb_spec cur (MazeModel.goalIndex m)) as [-> | Hgoal].
  - destruct (goal_found m Hm s ds H Hcur) as (path & Hpath & Hsol).
    unfold V.rebuildSolutionPath, MazeModel.goalIndex. cbn [V.set_visited V.parents_]. rewrite Hpath. cbn [rbind].
    eexists. split; [done |]. left. destruct (clear_finished (V.set_complete (V.set_solutionPath_ (reverse path) s)))
      as (_ & ? & _ & ?); [by apply (si_frontier_len _ _ _ H) | done | done |]. done.
  - destruct (ds_lookup m s ds _ cur Hc Hcur) as [D HD].
    destruct (in_range_lookup (MazeModel.cells_ m) cur) as [c Hcell].
    { destruct Hm as (_ & _ & Hn & _). unfold MazeModel.cellCount in Hn. lia. }
    assert (MazeModel.cellAt m cur = Ok c) as ->.
    { destruct Hm as (_ & _ & Hn & _). unfold MazeModel.cellAt.
      rewrite Hn, (proj2 (Z.leb_le 0 cur)), (proj2 (Z.ltb_lt cur (cells_of m))) by lia. simpl.
      by apply vec_at_ok; [lia |]. }
    rewrite (coordForIndex_ok m Hm) by done. cbn [rbind].
    set (s1 := V.set_visited _ _ s).
    assert (sol_core m s1 ds) as Hc1 by by destruct Hc.
    assert (forall b y, ds !! b = Some y -> y <= D + 1) as Hnear.
    { intros b y. by apply (si_near _ _ _ H). }
    destruct (visit_directions_ok m Hp cur c D (Z.to_nat (V.queueHead_ s)) MazeDirection.all s1 ds Hc1 Hcur HD Hnear Hcell)
      as (s' & ds' & -> & Hc' & He & Hpre & Hnear' & Hin).
    exists s'. split; [done |]. right. pose proof He as (e & p & new & Es').
    split; [by rewrite Es' |]. split; [by rewrite Es' |]. exists ds'.
    by apply (advance_inv s ds cur D s' ds' _ H Hcur HD Hgoal Hvis).
Qed.

(** ** The frontier shown: the queued cells not yet visited *)
Definition frontier_ok (s : V.t) : Prop :=
  V.frontier_ s = drop (Z.to_nat (V.queueHead_ s)) (V.queue_ s) /\
  flag_list (cells_of m) (V.frontierFlags_ s) (V.frontier_ s).

Lemma rebuildFrontier_ok s ds :
  sol_inv m s ds ->
  exists frontier flags, V.rebuildFrontier s = Ok (V.set_frontier frontier flags s) /\
    frontier_ok (V.set_frontier frontier flags s).
Proof.
  intros H. pose proof (si_head _ _ _ H) as Hh. set (h := V.queueHead_ s) in *.
  assert (wp (V.rebuildFrontier s) (fun s' => exists frontier flags, s' = V.set_frontier frontier flags s /\
    frontier = take (Z.to_nat (Z.of_nat (length (V.queue_ s)) - h)) (drop (Z.to_nat h) (V.queue_ s)) /\
    flag_list (cells_of m) flags frontier)) as Hwp.
  { unfold V.rebuildFrontier. cbn [V.clearFrontier V.set_frontier V.queueHead_ V.queue_].
    apply (wp_for_range (fun i s' => exists frontier flags, s' = V.set_frontier frontier flags s /\
      frontier = take (Z.to_nat (i - h)) (drop (Z.to_nat h) (V.queue_ s)) /\
      flag_list (cells_of m) flags frontier)); [lia | |].
    - exists [], (replicate (length (V.frontierFlags_ s)) false). split; [done |].
      fold h. rewrite Z.sub_diag. split; [done |]. apply flag_list_clear. apply (si_frontier_len _ _ _ H).
    - intros i s' Hi (frontier & flags & -> & Hf & Hfl). cbn [V.set_frontier V.queue_ V.frontierFlags_ V.frontier_].
      wp_step. apply wp_vec_at; [fold h in Hi; lia |]. intros c Hc.
      pose proof (sc_range _ _ _ (si_core _ _ _ H) c (list_elem_of_lookup_2 _ _ _ Hc)) as Hr.
      rewrite (flag_list_set_ok (cells_of m) _ frontier) by done. cbn [rbind].
      apply wp_ok. eexists _, _. split; [done |]. split; [| by apply flag_list_add].
      fold h in Hi. replace (Z.to_nat (i + 1 - h)) with (S (Z.to_nat (i - h))) by lia.
      rewrite (take_S_r _ _ c); [by rewrite Hf |].
      rewrite lookup_drop. by replace (Z.to_nat h + Z.to_nat (i - h))%nat with (Z.to_nat i) by lia. }
  apply wp_elim in Hwp as (s' & -> & frontier & flags & -> & Hf & Hfl).
  exists frontier, flags. split; [done |]. split; [| done]. simpl. fold h. rewrite Hf. apply take_ge.
  rewrite length_drop. lia.
Qed.

Lemma sol_inv_frontier s ds frontier flags :
  sol_inv m s ds -> Z.of_nat (length flags) = cells_of m -> sol_inv m (V.set_frontier frontier flags s) ds.
Proof. intros H Hl. pose proof (si_core _ _ _ H) as Hc. destruct H. split; try done. by destruct Hc. Qed.

(** A session between calls: finished, or under way with the frontier up to date. *)
Definition under_way (s : V.t) (steps : Z) : Prop :=
  V.complete_ s = false /\ V.queueHead_ s = steps /\ frontier_ok s /\ exists ds, sol_inv m s ds.

Lemma under_way_bound s steps : under_way s steps -> 0 <= steps <= cells_of m.
Proof.
  intros (_ & <- & _ & ds & H). pose proof (si_head _ _ _ H).
  pose proof (queue_bound m Hm s ds (si_core _ _ _ H)). lia.
Qed.

Lemma sol_make :
  0 <= MazeModel.startIndex_ m < cells_of m ->
  exists s, V.make m = Ok s /\ under_way s 0.
Proof.
  intros Hs. pose proof (cells_pos m Hm) as Hpos. destruct Hm as (_ & _ & Hn & _).
  unfold V.make. rewrite Hn, (proj2 (Z.ltb_lt 0 (cells_of m))) by done. cbn [dirtsim_assert rbind].
  unfold MazeModel.startIndex.
  assert (forall n, Z.of_nat n = cells_of m -> n = Z.to_nat (cells_of m)) as Hnat by lia.
  assert (Z.of_nat (Z.to_nat (cells_of m)) = cells_of m) as Ecells by lia.
  pose proof (flag_list_clear _ _ Ecells) as Hclear.
  rewrite (flag_list_set_ok (cells_of m) _ []) by done. cbn [rbind].
  set (s0 := V.mk _ _ _ _ _ _ _ _ _).
  assert (sol_inv m s0 [0]) as H0.
  { split; try done.
    - split; simpl.
      + apply NoDup_singleton.
      + intros i Hi. by apply list_elem_of_singleton in Hi as ->.
      + by apply (flag_list_add _ _ []).
      + by rewrite length_replicate.
      + done.
      + intros a b x y _ Hx Hy. apply list_lookup_singleton_Some in Hx as [_ <-].
        by apply list_lookup_singleton_Some in Hy as [_ <-].
      + split; [done |]. split; [done |]. apply lookup_replicate. split; [done | lia].
      + intros k c d Hk. by destruct k.
    - intros x y b Hx Hy. injection Hx as <-. apply list_lookup_singleton_Some in Hy as [_ <-]. lia.
    - intros k Hk. simpl in Hk. lia.
    - intros k Hk. simpl in Hk. lia.
    - simpl. by rewrite length_replicate. }
  destruct (rebuildFrontier_ok s0 [0] H0) as (fr & fl & -> & Hf). eexists. split; [done |].
  split; [done |]. split; [done |]. split; [done |]. exists [0]. apply sol_inv_frontier; [done |].
  apply Hf.
Qed.

(** [k] steps: the head moves on by [k], or the search has finished. *)
Lemma sol_advance k s steps :
  finished m s \/ under_way s steps ->
  exists s', V.advance k m s = Ok s' /\ (finished m s' \/ under_way s' (steps + Z.of_nat k)).
Proof.
  assert (forall k s ds, sol_inv m s ds -> V.complete_ s = false -> exists s', V.advance_loop k m s = Ok s' /\
    (finished m s' \/ V.complete_ s' = false /\ V.queueHead_ s' = V.queueHead_ s + Z.of_nat k /\
       exists ds', sol_inv m s' ds')) as Hloop.
  { clear k s steps. induction k as [|k IH]; intros s ds H Hc.
    - exists s. split; [done |]. right. split; [done |]. split; [lia | eauto].
    - cbn [V.advance_loop]. rewrite Hc.
      destruct (sol_step s ds H Hc) as (s1 & -> & [Hf | (Hc1 & Hh1 & ds1 & H1)]); cbn [rbind].
      + exists s1. split; [| by left]. destruct k; simpl; [done |]. by destruct Hf as [-> _].
      + destruct (IH s1 ds1 H1 Hc1) as (s2 & -> & [Hf | (Hc2 & Hh2 & H2)]); exists s2; split; try done; [by left |].
        right. split; [done |]. split; [lia | done]. }
  unfold V.advance. intros [Hf | (Hc & Hh & _ & ds & H)].
  { exists s. split; [by destruct Hf as [-> _] | by left]. }
  rewrite Hc. destruct (Hloop k s ds H Hc) as (s' & -> & [Hf | (Hc' & Hh' & ds' & H')]); cbn [rbind].
  - exists s'. split; [by destruct Hf as [-> _] | by left].
  - rewrite Hc'. destruct (rebuildFrontier_ok s' ds' H') as (fr & fl & -> & Hfr).
    eexists. split; [done |]. right. split; [done |]. split; [simpl; lia |]. split; [done |].
    exists ds'. apply sol_inv_frontier; [done | apply Hfr].
Qed.
End Search.

(** ** The theorem *)

(** [new MazeSolverSession(model)], then [k] steps. *)
Definition solve (m : MazeModel.t) (k : nat) : res V.t :=
  let! s := V.make m in
  V.advance k m s.

(** C34. On any maze whose openings stay in the grid and have two sides, any
    number of solver steps runs without an exception or a failing assertion; one
    step more than the number of cells always completes the search; a completed
    search has no frontier, and its solution path is a shortest path of passages
    from the start to the goal, without repetition, or empty if there is none;
    and at any time the frontier flags mark exactly the cells of the frontier. *)
Theorem maze_solver_shortest m k :
  grid_ok m -> passages_ok m -> 0 <= MazeModel.startIndex_ m < cells_of m ->
  wp (solve m k) (fun s =>
    flag_list (cells_of m) (V.frontierFlags s) (V.frontier s) /\
    (cells_of m < Z.of_nat k -> V.isComplete s = true) /\
    if V.isComplete s then V.frontier s = [] /\ solution_of m (V.solutionPath s)
    else V.solutionPath s = []).
Proof.
  intros Hm Hp Hs. unfold solve. destruct (sol_make m Hm Hs) as (s & -> & Hu). cbn [rbind].
  destruct (sol_advance m Hm Hp k s 0) as (s' & -> & [Hf | Hw]); [by right | |]; simpl.
  - destruct Hf as (Hc & Hsol & Hfr & Hfl). unfold V.isComplete, V.frontier, V.frontierFlags. by rewrite Hc, Hfr.
  - pose proof (under_way_bound m Hm s' _ Hw). destruct Hw as (Hc & _ & [_ Hfl] & ds & H').
    split; [done |]. split; [lia |]. unfold V.isComplete. rewrite Hc. apply (si_path _ _ _ H').
Qed.

(** A 2x2 maze with three passages, solved from corner to corner. *)
Definition demo_maze : MazeModel.t :=
  MazeModel.mk [mkMazeCell 2; mkMazeCell 12; mkMazeCell 2; mkMazeCell 9] 3 2 0 2.

Lemma demo_passages : passages_ok demo_maze.
Proof.
  assert (forall i, 0 <= i < 4 -> i = 0 \/ i = 1 \/ i = 2 \/ i = 3) as Hcases by lia. split.
  - intros i d Hi Ho. destruct (Hcases i Hi) as [-> | [-> | [-> | ->]]], d; vm_compute in Ho; try discriminate;
      vm_compute; eauto.
  - intros i j Hi (d & Ho & Hs).
    destruct (Hcases i Hi) as [-> | [-> | [-> | ->]]], d; vm_compute in Ho; try discriminate;
      vm_compute in Hs; injection Hs as <-; [exists MazeDirection.West | exists MazeDirection.North |
        exists MazeDirection.East | exists MazeDirection.West | exists MazeDirection.South | exists MazeDirection.East]; done.
Qed.

Lemma maze_solver_shortest_witness :
  wp (solve demo_maze 5) (fun s =>
    flag_list (cells_of demo_maze) (V.frontierFlags s) (V.frontier s) /\
    (cells_of demo_maze < Z.of_nat 5 -> V.isComplete s = true) /\
    if V.isComplete s then V.frontier s = [] /\ solution_of demo_maze (V.solutionPath s)
    else V.solutionPath s = []) /\
  wp (solve demo_maze 5) (fun s => V.isComplete s = true /\ V.solutionPath s = [0; 1; 3]).
Proof.
  split.
  - apply (maze_solver_shortest demo_maze 5); [by repeat split | apply demo_passages | by split].
  - by split.
Defined.
