(* ===== verification/MazeCycle.v ===== *)
(** The animator's cycle: the state invariant of its phases, what a snapshot
    shows, and that every cycle ends. *)

From Stdlib Require Import ZArith Lia Bool String.
From stdpp Require Import base gmap option numbers list.
From S2P Require Import Prelude.
From S2P Require Import StdModel Maze.
From S2P Require Import MazeGraph.
From S2P Require Import MazeGeneration.
From S2P Require Import MazeSolving.

Set Default Goal Selector "!".

Module A := MazeSearchAnimator.

(** The two public operations, and a sequence of them. *)
Inductive operation := Tick | Reset.

Section Cycle.
Context {R : Type} `{!RandomEngine R, !RandomLaws R}.
Context (w h : Z) (Hw : 0 < w) (Hh : 0 < h) (Hn : w * h < 2 ^ 31).

Definition operate (op : operation) (s : A.t R) : res (A.t R) :=
  match op with Tick => A.advanceTick s | Reset => Ok (A.reset s) end.

Fixpoint operations (ops : list operation) (s : A.t R) : res (A.t R) :=
  match ops with
  | [] => Ok s
  | op :: ops' => let! s := operate op s in operations ops' s
  end.

(** ** The invariant, phase by phase *)
Definition model_ok (m : MazeModel.t) : Prop :=
  grid_ok m /\ cells_of m = w * h /\ MazeModel.startIndex_ m = 0 /\ MazeModel.goalIndex_ m = w * h - 1.

Lemma model_ok_dims m m' : model_ok m -> grid_ok m' -> dims m m' -> model_ok m'.
Proof.
  intros (_ & Hc & Hs & Hg) Hm Hd. split; [done |]. rewrite (dims_cells m m' Hd).
  destruct Hd as (_ & _ & -> & ->). done.
Qed.

Definition building (m : MazeModel.t) (g : G.t R) (left : Z) : Prop :=
  exists m0 vs es, gen_inv m0 m g vs es /\ steps_left m g = left.

Inductive phase_ok (m : MazeModel.t) (revealed hold : Z) :
    A.Phase -> option (G.t R) -> option V.t -> Z -> Prop :=
| ok_empty : phase_ok m revealed hold A.Empty None None 0
| ok_building g left :
    model_ok m -> building m g left -> 0 < left ->
    phase_ok m revealed hold A.BuildingMaze (Some g) None
      ((left + 47) / 48 + (w * h / 16 + 1) + (w * h + 3) / 4 + 75)
| ok_solving g v steps :
    model_ok m -> building m g 0 -> under_way m v steps ->
    phase_ok m revealed hold A.SolvingMaze (Some g) (Some v)
      ((w * h - steps) / 16 + 1 + (w * h + 3) / 4 + 75)
| ok_tracing g v :
    model_ok m -> building m g 0 -> finished m v ->
    0 <= revealed < Z.of_nat (length (V.solutionPath_ v)) ->
    phase_ok m revealed hold A.TracingSolution (Some g) (Some v)
      ((Z.of_nat (length (V.solutionPath_ v)) - revealed + 3) / 4 + 75)
| ok_holding g v :
    model_ok m -> building m g 0 -> finished m v ->
    revealed = Z.of_nat (length (V.solutionPath_ v)) -> 1 <= hold <= 75 ->
    phase_ok m revealed hold A.HoldingSolution (Some g) (Some v) hold.

(** [anim_ok s ticks]: a state between operations, at most [ticks] ticks before
    the end of its cycle. *)
Definition anim_ok (s : A.t R) (ticks : Z) : Prop :=
  A.width_ s = w /\ A.height_ s = h /\ A.rebuildSnapshot s = s /\
  phase_ok (A.model_ s) (A.revealedSolutionLength_ s) (A.holdTicksRemaining_ s) (A.phase_ s)
    (A.generator_ s) (A.solver_ s) ticks.

Lemma rebuild_anim_ok s ticks :
  A.width_ s = w -> A.height_ s = h ->
  phase_ok (A.model_ s) (A.revealedSolutionLength_ s) (A.holdTicksRemaining_ s) (A.phase_ s)
    (A.generator_ s) (A.solver_ s) ticks ->
  anim_ok (A.rebuildSnapshot s) ticks.
Proof. intros Ew Eh Hp. by destruct s. Qed.

Lemma building_perfect m g : building m g 0 -> perfect_maze m /\ G.isComplete g = true.
Proof.
  intros (m0 & vs & es & H & Hl). pose proof (gen_complete_left _ _ _ _ _ H) as Hc.
  rewrite Hl, bool_decide_true in Hc by done. split; [| done]. by eapply gen_complete_perfect.
Qed.

Lemma cells_at_least_one : 1 <= w * h.
Proof. nia. Qed.

(** In a perfect maze the solver's path is the simple path to the goal. *)
Lemma finished_path m v :
  model_ok m -> perfect_maze m -> finished m v ->
  simple_path (passage m) 0 (V.solutionPath_ v) (w * h - 1) /\
  1 <= Z.of_nat (length (V.solutionPath_ v)) <= w * h.
Proof.
  intros (Hm & Hc & Hs & Hg) [_ Hp] (_ & Hsol & _). pose proof cells_at_least_one.
  destruct Hsol as [[Hsp _] | [_ Hno]].
  - rewrite Hs, Hg in Hsp. split; [done |]. destruct Hsp as [Hwf Hnd]. split.
    + destruct (V.solutionPath_ v); [by destruct Hwf | simpl; lia].
    + apply cells_at_most; [lia | done |]. rewrite <- Hc. apply (passage_walk_range m 0 _ _ ltac:(lia) Hwf).
  - exfalso. destruct (Hp 0 (w * h - 1)) as (l & [Hl _] & _); [lia | lia |].
    apply (Hno l). by rewrite Hs, Hg.
Qed.

(** ** Ticks *)
Lemma begin_ok s :
  A.width_ s = w -> A.height_ s = h ->
  exists m g rng, A.beginNewCycle s =
      Ok (A.mk (A.holdTicksRemaining_ s) (Some g) (A.height_ s) m A.BuildingMaze 0 (A.snapshot_ s) None rng
            (A.width_ s)) /\
    model_ok m /\ building m g (2 * (w * h) - 1).
Proof.
  intros Ew Eh. pose proof cells_at_least_one. unfold A.beginNewCycle. rewrite Ew, Eh.
  destruct (model_make_ok w h Hw Hh Hn) as (m & -> & Hm & Hc & Hs & Hg & Hmw & Hmh & Ho). cbn [rbind].
  pose proof Hm as (_ & _ & Hcc & _). unfold MazeModel.setEndpoints. rewrite Hcc, Hc.
  rewrite (proj2 (Z.ltb_lt 0 (w * h))), (proj2 (Z.leb_le 0 (w * h - 1))), (proj2 (Z.ltb_lt (w * h - 1) (w * h))) by lia.
  cbn [dirtsim_assert Z.leb Z.compare rbind].
  replace (MazeModel.mk _ _ _ _ _) with m by (destruct m; simpl in *; congruence).
  destruct (uniform_int _ _ _) as [seed rng].
  destruct (gen_make (R := R) m seed Hm Ho) as (g & r & -> & Hi & Hl). cbn [rbind].
  exists m, g, rng. split; [done |]. split; [done |]. exists m, [r], []. by rewrite <- Hc.
Qed.

Lemma build_tick_ok s g left :
  A.width_ s = w -> A.height_ s = h -> A.phase_ s = A.BuildingMaze ->
  A.generator_ s = Some g -> A.solver_ s = None -> model_ok (A.model_ s) -> building (A.model_ s) g left -> 0 < left ->
  exists s' ticks, A.build_tick s = Ok s' /\ A.width_ s' = w /\ A.height_ s' = h /\
    phase_ok (A.model_ s') (A.revealedSolutionLength_ s') (A.holdTicksRemaining_ s') (A.phase_ s')
      (A.generator_ s') (A.solver_ s') ticks /\
    ticks < (left + 47) / 48 + (w * h / 16 + 1) + (w * h + 3) / 4 + 75.
Proof.
  intros Ew Eh Ep Eg Es Hm (m0 & vs & es & H & Hleft) Hpos. unfold A.build_tick. rewrite Eg.
  destruct (gen_advance 48 m0 _ g vs es H) as (m' & g' & vs' & es' & Ha & H' & Hl').
  change A.kGenerationStepsPerTick with 48%nat. rewrite Ha. cbn [rbind fst snd]. unfold G.isComplete.
  rewrite (gen_complete_left _ _ _ _ _ H'), Hl', Hleft.
  assert (model_ok m') as Hm'.
  { destruct Hm as (Hgr & Hc & Hs & Hg). split; [apply H' |].
    pose proof (gi_dims _ _ _ _ _ H') as (Ew' & Eh' & Es' & Eg').
    pose proof (gi_dims _ _ _ _ _ H) as (Ew0 & Eh0 & Es0 & Eg0). unfold cells_of in *.
    rewrite Ew', Eh', Es', Eg'. rewrite Ew0, Eh0 in Hc. by rewrite <- Es0, <- Eg0. }
  case_bool_decide as Hz.
  - cbn [A.set_generator A.model_].
    destruct Hm' as (Hgr' & Hc' & Hs' & Hg'). pose proof cells_at_least_one.
    destruct (sol_make m' Hgr') as (v & -> & Hu); [lia |]. cbn [rbind].
    eexists _, _. split; [done |]. split; [done |]. split; [done |]. split.
    + apply ok_solving; [done | | done]. exists m0, vs', es'. split; [done |].
      change (steps_left m' g' = 0). lia.
    + rewrite Z.sub_0_r. pose proof (Z.div_le_mono 48 (left + 47) 48). change (48 / 48) with 1 in *. lia.
  - eexists _, _. split; [done |]. split; [done |]. split; [done |]. split.
    + cbn. rewrite Es, Ep. apply (ok_building _ _ _ g' (left - 48)); [done | | lia].
      exists m0, vs', es'. split; [done |]. change (steps_left m' g' = left - 48). lia.
    + replace (left - 48 + 47) with (left + 47 + -1 * 48) by lia. rewrite Z.div_add by lia. lia.
Qed.

Lemma solve_tick_ok s g v steps :
  A.width_ s = w -> A.height_ s = h -> A.phase_ s = A.SolvingMaze ->
  A.generator_ s = Some g -> A.solver_ s = Some v -> model_ok (A.model_ s) -> building (A.model_ s) g 0 ->
  under_way (A.model_ s) v steps ->
  exists s' ticks, A.solve_tick s = Ok s' /\ A.width_ s' = w /\ A.height_ s' = h /\
    phase_ok (A.model_ s') (A.revealedSolutionLength_ s') (A.holdTicksRemaining_ s') (A.phase_ s')
      (A.generator_ s') (A.solver_ s') ticks /\
    ticks < (w * h - steps) / 16 + 1 + (w * h + 3) / 4 + 75.
Proof.
  intros Ew Eh Ep Eg Es Hm Hb Hu. unfold A.solve_tick. rewrite Es. change A.kSolveStepsPerTick with 16%nat.
  destruct (building_perfect _ g Hb) as [Hperf _]. pose proof Hm as (Hgr & Hc & _).
  destruct (sol_advance _ Hgr (proj1 Hperf) 16 v steps) as (v' & -> & Hv'); [by right |]. cbn [rbind].
  pose proof (under_way_bound _ Hgr v steps Hu) as Hb1. unfold V.isComplete.
  destruct Hv' as [Hf | Hu'].
  - destruct (finished_path _ v' Hm Hperf Hf) as [_ Hlen]. pose proof Hf as [-> _].
    eexists _, _. split; [done |]. split; [done |]. split; [done |]. split.
    + cbn. rewrite Eg. apply ok_tracing; [done | done | done | lia].
    + rewrite Z.sub_0_r. pose proof (Z.div_le_mono (Z.of_nat (length (V.solutionPath_ v')) + 3) (w * h + 3) 4).
      pose proof (Z.div_pos (w * h - steps) 16). lia.
  - pose proof Hu' as [-> _]. eexists _, _. split; [done |]. split; [done |]. split; [done |]. split.
    + cbn. rewrite Eg, Ep. by apply (ok_solving _ _ _ g v' (steps + 16)).
    + replace (w * h - (steps + 16)) with (w * h - steps + -1 * 16) by lia. rewrite Z.div_add by lia. lia.
Qed.

Lemma trace_tick_ok s g v :
  A.width_ s = w -> A.height_ s = h -> A.phase_ s = A.TracingSolution ->
  A.generator_ s = Some g -> A.solver_ s = Some v -> model_ok (A.model_ s) -> building (A.model_ s) g 0 ->
  finished (A.model_ s) v ->
  0 <= A.revealedSolutionLength_ s < Z.of_nat (length (V.solutionPath_ v)) ->
  exists s' ticks, A.trace_tick s = Ok s' /\ A.width_ s' = w /\ A.height_ s' = h /\
    phase_ok (A.model_ s') (A.revealedSolutionLength_ s') (A.holdTicksRemaining_ s') (A.phase_ s')
      (A.generator_ s') (A.solver_ s') ticks /\
    ticks < (Z.of_nat (length (V.solutionPath_ v)) - A.revealedSolutionLength_ s + 3) / 4 + 75.
Proof.
  intros Ew Eh Ep Eg Es Hm Hb Hf Hr. unfold A.trace_tick. rewrite Es.
  destruct (building_perfect _ g Hb) as [Hperf _]. destruct (finished_path _ v Hm Hperf Hf) as [_ Hlen].
  change A.kPathCellsPerTick with 4. rewrite wrap_u_small by lia. unfold V.solutionPath.
  destruct (Z.leb_spec (Z.of_nat (length (V.solutionPath_ v))) (A.revealedSolutionLength_ s + 4)) as [Hle | Hlt].
  - eexists _, _. split; [done |]. split; [done |]. split; [done |]. split.
    + cbn. rewrite Eg, Es. by apply ok_holding.
    + change A.kHoldTicks with 75. pose proof (Z.div_le_mono 4 (Z.of_nat (length (V.solutionPath_ v)) - A.revealedSolutionLength_ s + 3) 4).
      change (4 / 4) with 1 in *. lia.
  - eexists _, _. split; [done |]. split; [done |]. split; [done |]. split.
    + cbn. rewrite Eg, Es. apply ok_tracing; [done | done | done | lia].
    + set (n := Z.of_nat (length (V.solutionPath_ v))) in *.
      replace (n - (A.revealedSolutionLength_ s + 4) + 3) with (n - A.revealedSolutionLength_ s + 3 + -1 * 4) by lia.
      rewrite Z.div_add by lia. lia.
Qed.

(** The ticks of a whole cycle. *)
Definition cycle_ticks : Z := (2 * (w * h) + 46) / 48 + (w * h / 16 + 1) + (w * h + 3) / 4 + 75.

(** A tick never fails; during a cycle it brings its end nearer. *)
Lemma animator_tick_ok s ticks :
  anim_ok s ticks ->
  exists s' ticks', A.advanceTick s = Ok s' /\ anim_ok s' ticks' /\
    ticks' < (if bool_decide (A.phase_ s = A.Empty) then cycle_ticks else ticks).
Proof.
  intros (Ew & Eh & _ & Hp). unfold A.advanceTick. pose proof cells_at_least_one.
  inversion Hp as [Eph Eg Ev Et | g left Hm Hb Hl Eph Eg Ev Et | g v steps Hm Hb Hu Eph Eg Ev Et
    | g v Hm Hb Hf Hr Eph Eg Ev Et | g v Hm Hb Hf Hr Hd Eph Eg Ev Et]; subst ticks; symmetry in Eph, Eg, Ev;
    [rewrite bool_decide_true by done | rewrite bool_decide_false by done ..]; cbn [rbind].
  - destruct (begin_ok s Ew Eh) as (m & g & rng & -> & Hm & Hb). cbn [rbind A.phase_].
    set (s1 := A.mk _ _ _ _ _ _ _ _ _ _).
    destruct (build_tick_ok s1 g (2 * (w * h) - 1)) as (s' & t' & -> & Ew' & Eh' & Hp' & Hlt); try done; [lia |].
    cbn [rbind]. exists (A.rebuildSnapshot s'), t'. split; [done |]. split; [by apply rebuild_anim_ok |].
    assert (2 * (w * h) - 1 + 47 = 2 * (w * h) + 46) as E by lia. rewrite E in Hlt. exact Hlt.
  - rewrite Eph. destruct (build_tick_ok s g left) as (s' & t' & -> & Ew' & Eh' & Hp' & Hlt); try done.
    cbn [rbind]. exists (A.rebuildSnapshot s'), t'. split; [done |]. split; [by apply rebuild_anim_ok |]. done.
  - rewrite Eph. destruct (solve_tick_ok s g v steps) as (s' & t' & -> & Ew' & Eh' & Hp' & Hlt); try done.
    cbn [rbind]. exists (A.rebuildSnapshot s'), t'. split; [done |]. split; [by apply rebuild_anim_ok |]. done.
  - rewrite Eph. destruct (trace_tick_ok s g v) as (s' & t' & -> & Ew' & Eh' & Hp' & Hlt); try done.
    cbn [rbind]. exists (A.rebuildSnapshot s'), t'. split; [done |]. split; [by apply rebuild_anim_ok |]. done.
  - rewrite Eph. unfold A.hold_tick. rewrite (proj2 (Z.ltb_lt 0 _)) by lia.
    destruct (Z.eqb_spec (A.holdTicksRemaining_ s - 1) 0) as [Hz | Hnz]; cbn [rbind].
    + eexists _, 0. split; [done |]. split; [apply rebuild_anim_ok; [done | done | constructor] | lia].
    + eexists _, (A.holdTicksRemaining_ s - 1). split; [done |]. split; [| lia].
      apply rebuild_anim_ok; [done | done |]. cbn. rewrite Eg, Ev. apply ok_holding; try done. lia.
Qed.

Lemma animator_reset_ok s ticks : anim_ok s ticks -> anim_ok (A.reset s) 0.
Proof. intros (Ew & Eh & _). apply rebuild_anim_ok; [done | done | constructor]. Qed.

Lemma animator_make_ok : exists s, A.make w h = Ok s /\ anim_ok s 0.
Proof.
  unfold A.make. rewrite (proj2 (Z.ltb_lt 0 w)), (proj2 (Z.ltb_lt 0 h)) by done. simpl.
  eexists. split; [done |]. apply rebuild_anim_ok; [done | done | constructor].
Qed.

(** ** What a snapshot shows *)
Definition shows_path (sn : A.Snapshot) (m : MazeModel.t) (path : list Z) : Prop :=
  A.model sn = Some m /\ A.sn_solutionPath sn = Some path /\ A.sn_frontier sn = Some [] /\
  perfect_maze m /\ simple_path (passage m) 0 path (w * h - 1).

Definition view_ok (sn : A.Snapshot) : Prop :=
  match A.phase sn with
  | A.Empty => A.hasMaze sn = false /\ A.activeCellIndex sn = -1 /\ A.sn_frontier sn = None /\ A.sn_solutionPath sn = None
  | A.BuildingMaze =>
      exists m visited, A.model sn = Some m /\ passages_ok m /\ A.generationVisited sn = Some visited /\
        Z.of_nat (length visited) = w * h /\ 0 <= A.activeCellIndex sn < w * h /\
        visited !! Z.to_nat (A.activeCellIndex sn) = Some true /\ A.sn_frontier sn = None
  | A.SolvingMaze =>
      exists m frontier flags, A.model sn = Some m /\ perfect_maze m /\ A.sn_frontier sn = Some frontier /\
        A.sn_frontierFlags sn = Some flags /\ flag_list (w * h) flags frontier
  | A.TracingSolution =>
      exists m path, shows_path sn m path /\ 0 <= A.revealedSolutionLength sn < Z.of_nat (length path)
  | A.HoldingSolution =>
      exists m path, shows_path sn m path /\ A.revealedSolutionLength sn = Z.of_nat (length path)
  end.

Lemma anim_view s ticks : anim_ok s ticks -> A.phase (A.snapshot s) = A.phase_ s /\ view_ok (A.snapshot s).
Proof.
  intros (Ew & Eh & Es & Hp). pose proof cells_at_least_one. unfold A.snapshot. rewrite <- Es.
  unfold A.rebuildSnapshot, view_ok. cbn [A.set_snapshot_ A.snapshot_ A.phase_].
  inversion Hp as [Eph Eg Ev Et | g left Hm Hb Hl Eph Eg Ev Et | g v steps Hm Hb Hu Eph Eg Ev Et
    | g v Hm Hb Hf Hr Eph Eg Ev Et | g v Hm Hb Hf Hr Hd Eph Eg Ev Et]; subst ticks; symmetry in Eph, Eg, Ev;
    rewrite ?Eg; [by rewrite bool_decide_true by done | rewrite bool_decide_false by done ..];
    (split; [done |]); cbn; (destruct Hm as (Hgr & Hc & Hs & Hgo) eqn:Em; clear Em).
  - destruct Hb as (m0 & vs & es & Hg & Hleft).
    exists (A.model_ s), (G.visitedFlags_ g). split; [done |]. split; [by eapply gen_passages_ok |].
    split; [done |]. rewrite <- Hc. split; [by apply (gi_length _ _ _ _ _ Hg) |]. unfold G.activeCellIndex.
    rewrite (gi_active _ _ _ _ _ Hg). pose proof (gen_complete_left _ _ _ _ _ Hg) as Hcl.
    rewrite Hleft, bool_decide_false in Hcl by lia. destruct (G.stack_ g) as [|a st] eqn:Est.
    { by rewrite (proj2 (gi_complete _ _ _ _ _ Hg) Est) in Hcl. }
    assert (a ∈ vs) as Ha by (apply (gi_stack _ _ _ _ _ Hg); rewrite Est; by left). simpl.
    pose proof (gi_range _ _ _ _ _ Hg a Ha). split; [done |]. split; [| done].
    by apply (gi_flags _ _ _ _ _ Hg a).
  - destruct (building_perfect _ g Hb) as [Hperf _]. destruct Hu as (_ & _ & [_ Hfl] & _).
    exists (A.model_ s), (V.frontier_ v), (V.frontierFlags_ v). rewrite <- Hc. done.
  - destruct (building_perfect _ g Hb) as [Hperf _].
    destruct (finished_path _ v (conj Hgr (conj Hc (conj Hs Hgo))) Hperf Hf) as [Hsp _].
    exists (A.model_ s), (V.solutionPath_ v). split; [| done]. destruct Hf as (_ & _ & Hfr & _).
    unfold shows_path. cbn. unfold V.frontier. by rewrite Hfr.
  - destruct (building_perfect _ g Hb) as [Hperf _].
    destruct (finished_path _ v (conj Hgr (conj Hc (conj Hs Hgo))) Hperf Hf) as [Hsp _].
    exists (A.model_ s), (V.solutionPath_ v). split; [| done]. destruct Hf as (_ & _ & Hfr & _).
    unfold shows_path. cbn. unfold V.frontier. by rewrite Hfr.
Qed.

Lemma ticks_nonneg s ticks : anim_ok s ticks -> 0 <= ticks.
Proof.
  intros (_ & _ & _ & Hp). pose proof cells_at_least_one.
  pose proof (Z.div_pos (w * h + 3) 4). pose proof (Z.div_pos (w * h) 16).
  inversion Hp as [| g left Hm Hb Hl | g v steps Hm Hb Hu | g v Hm Hb Hf Hr | g v Hm Hb Hf Hr Hd]; subst; try lia.
  - pose proof (Z.div_pos (left + 47) 48). lia.
  - destruct Hm as (Hgr & Hc & _). pose proof (under_way_bound _ Hgr v steps Hu).
    pose proof (Z.div_pos (w * h - steps) 16). lia.
  - pose proof (Z.div_pos (Z.of_nat (length (V.solutionPath_ v)) - A.revealedSolutionLength_ s + 3) 4). lia.
Qed.

(** Ticks alone reach the end of the cycle. *)
Lemma cycle_ends n : forall s ticks,
  anim_ok s ticks -> ticks <= Z.of_nat n ->
  exists k s', (k <= n)%nat /\ operations (replicate k Tick) s = Ok s' /\ A.phase_ s' = A.Empty.
Proof.
  induction n as [|n IH]; intros s ticks H Hn'; (destruct (decide (A.phase_ s = A.Empty)) as [He | Hne];
    [by exists 0%nat, s; split; [lia |] |]);
    destruct (animator_tick_ok s ticks H) as (s' & t' & Hs' & H' & Hlt); rewrite bool_decide_false in Hlt by done.
  - pose proof (ticks_nonneg s' t' H'). lia.
  - destruct (IH s' t' H' ltac:(lia)) as (k & s2 & Hk & Hrun & He). exists (S k), s2.
    split; [lia |]. split; [| done]. cbn. by rewrite Hs'.
Qed.

(** From any state, within a cycle's ticks and after one at least. *)
Lemma next_cycle s ticks :
  anim_ok s ticks ->
  exists k s', (1 <= k)%nat /\ Z.of_nat k <= Z.max ticks (cycle_ticks) /\
    operations (replicate k Tick) s = Ok s' /\ A.phase_ s' = A.Empty.
Proof.
  intros H. destruct (animator_tick_ok s ticks H) as (s' & t' & Hs' & H' & Hlt). pose proof (ticks_nonneg s' t' H').
  destruct (cycle_ends (Z.to_nat t') s' t' H' ltac:(lia)) as (k & s2 & Hk & Hrun & He).
  exists (S k), s2. split; [lia |]. split; [case_bool_decide; lia |]. split; [| done]. cbn. by rewrite Hs'.
Qed.

Lemma cycle_ticks_nonneg : 0 <= cycle_ticks.
Proof.
  pose proof cells_at_least_one. unfold cycle_ticks. pose proof (Z.div_pos (w * h) 16).
  pose proof (Z.div_pos (w * h + 3) 4). pose proof (Z.div_pos (2 * (w * h) + 46) 48). lia.
Qed.

(** No state of a cycle is further from its end than the cycle is long. *)
Lemma operations_bound ops s ticks :
  anim_ok s ticks -> ticks <= cycle_ticks ->
  exists s' ticks', operations ops s = Ok s' /\ anim_ok s' ticks' /\ ticks' <= cycle_ticks.
Proof.
  revert s ticks. induction ops as [|op ops IH]; intros s ticks H Hle; cbn [operations]; [eauto |].
  pose proof (ticks_nonneg s ticks H). destruct op; cbn [operate].
  - destruct (animator_tick_ok s ticks H) as (s' & t' & -> & H' & Hlt). apply (IH s' t' H').
    case_bool_decide; lia.
  - apply (IH (A.reset s) 0); [by eapply animator_reset_ok | lia].
Qed.
End Cycle.

(** ** The theorems *)
Section Animator.
Context {R : Type} `{!RandomEngine R, !RandomLaws R}.

(** A new animator, and a sequence of ticks and resets. *)
Definition animate (width height : Z) (ops : list operation) : res (A.t R) :=
  let! s := A.make width height in
  operations ops s.

(** Whatever the sequence of ticks and resets and the random engine, no
    operation of the animator fails (no assertion, no exception), and the
    snapshot after it is well formed: no maze when the phase is [Empty]; while
    building, passages with two sides and an active cell that is visited; while
    solving, a perfect maze and frontier flags that mark the frontier; while
    tracing or holding, a perfect maze and its simple path from the first cell
    to the last, of which no more is revealed than there is. *)
Lemma maze_animator_view width height ops :
  0 < width -> 0 < height -> width * height < 2 ^ 31 ->
  wp (animate width height ops) (fun s =>
    A.phase (A.snapshot s) = A.phase_ s /\ view_ok width height (A.snapshot s)).
Proof.
  intros Hw Hh Hn. unfold animate. destruct (animator_make_ok (R := R) width height Hw Hh) as (s & -> & H). cbn [rbind].
  destruct (operations_bound width height Hw Hh Hn ops s 0 H) as (s' & t' & -> & H' & _);
    [by apply cycle_ticks_nonneg | by eapply anim_view].
Qed.

(** The animation never stalls: whatever the sequence of ticks and resets so
    far, some number of further ticks, at least one and at most
    [(2n + 46) / 48 + n / 16 + 1 + (n + 3) / 4 + 75] for a grid of [n] cells,
    ends the current cycle (or the next one, between cycles) and leaves the
    animator empty, ready to build another maze. *)
Lemma maze_animator_cycles width height ops :
  0 < width -> 0 < height -> width * height < 2 ^ 31 ->
  exists k, (1 <= k)%nat /\ Z.of_nat k <= cycle_ticks width height /\
    wp (animate width height (ops ++ replicate k Tick)) (fun s => A.phase_ s = A.Empty).
Proof.
  intros Hw Hh Hn. unfold animate. destruct (animator_make_ok (R := R) width height Hw Hh) as (s & -> & H). cbn [rbind].
  assert (forall ops1 ops2 (s1 : A.t R),
    operations (ops1 ++ ops2) s1 = let! s2 := operations ops1 s1 in operations ops2 s2) as Happ.
  { induction ops1 as [|op ops1 IH]; intros ops2 s1; [done |]. cbn [app operations].
    destruct (operate op s1); cbn [rbind]; [apply IH | done]. }
  destruct (operations_bound width height Hw Hh Hn ops s 0 H) as (s' & t' & Hs' & H' & Hle);
    [by apply cycle_ticks_nonneg |].
  destruct (next_cycle width height Hw Hh Hn s' t' H') as (k & s2 & Hk & Hkt & Hrun & He).
  exists k. split; [done |]. split; [lia |]. rewrite Happ, Hs'. cbn [rbind]. by rewrite Hrun.
Qed.
End Animator.

Import Lcg.

Lemma maze_animator_view_witness :
  wp (animate (R := Z) 3 2 [Tick; Tick; Tick]) (fun s =>
    A.phase (A.snapshot s) = A.phase_ s /\ view_ok 3 2 (A.snapshot s)) /\
  wp (animate (R := Z) 3 2 [Tick; Tick; Tick]) (fun s => A.phase_ s = A.HoldingSolution).
Proof. split; [exact (maze_animator_view (R := Z) 3 2 [Tick; Tick; Tick] eq_refl eq_refl eq_refl) | by vm_compute]. Defined.

Lemma maze_animator_cycles_witness :
  exists k, (1 <= k)%nat /\ Z.of_nat k <= cycle_ticks 3 2 /\
    wp (animate (R := Z) 3 2 ([Tick; Reset] ++ replicate k Tick)) (fun s => A.phase_ s = A.Empty).
Proof. exact (maze_animator_cycles (R := Z) 3 2 [Tick; Reset] eq_refl eq_refl eq_refl). Defined.
