(* ===== verification/Scanner.v ===== *)
(** The Wi-Fi scanner's vocabulary: bands, channels, tunings and configurations
    of [os-manager/ScannerTypes.h].

    Arithmetic on channels is on [int]: an overflow is a fault. A function that
    cannot overflow is a plain function. *)

From Stdlib Require Import ZArith Lia Bool String.
From stdpp Require Import base gmap option numbers list strings pretty.
From S2P Require Import Prelude.

Set Default Goal Selector "!".

(** [std::to_string] of an [int]. *)
Definition to_string (z : Z) : string := pretty z.

Module ScannerBand.
Inductive t := Band24Ghz | Band5Ghz.
#[global] Instance eq_dec : EqDecision t.
Proof. solve_decision. Defined.

Definition to_json (band : t) : string :=
  match band with Band24Ghz => "2.4GHz" | Band5Ghz => "5GHz" end.

(** From the string of the JSON value; an error is the exception's message. *)
Definition from_json (text : string) : Result t string :=
  if bool_decide (text = "2.4GHz"%string) then okay Band24Ghz
  else if bool_decide (text = "5GHz"%string) then okay Band5Ghz
  else error ("Invalid ScannerBand: " +:+ text).
End ScannerBand.

Module ScannerConfigMode.
Inductive t := Auto | Manual.
#[global] Instance eq_dec : EqDecision t.
Proof. solve_decision. Defined.

Definition to_json (mode : t) : string :=
  match mode with Auto => "Auto" | Manual => "Manual" end.

Definition from_json (text : string) : Result t string :=
  if bool_decide (text = "Auto"%string) then okay Auto
  else if bool_decide (text = "Manual"%string) then okay Manual
  else error ("Invalid ScannerConfigMode: " +:+ text).
End ScannerConfigMode.

Module ScannerObservationKind.
Inductive t := Direct | Incidental.
#[global] Instance eq_dec : EqDecision t.
Proof. solve_decision. Defined.

Definition to_json (kind : t) : string :=
  match kind with Direct => "Direct" | Incidental => "Incidental" end.

Definition from_json (text : string) : Result t string :=
  if bool_decide (text = "Direct"%string) then okay Direct
  else if bool_decide (text = "Incidental"%string) then okay Incidental
  else error ("Invalid ScannerObservationKind: " +:+ text).
End ScannerObservationKind.

Import ScannerBand.

Definition kScannerBand24PrimaryChannels : list Z := [1; 2; 3; 4; 5; 6; 7; 8; 9; 10; 11].
Definition kScannerBand5PrimaryChannels : list Z :=
  [36; 40; 44; 48; 52; 56; 60; 64; 100; 104; 108; 112; 116;
   120; 124; 128; 132; 136; 140; 144; 149; 153; 157; 161; 165].
Definition kScannerBand5_40MhzCenterChannels : list Z :=
  [38; 46; 54; 62; 102; 110; 118; 126; 134; 142; 151; 159].
Definition kScannerBand5_80MhzCenterChannels : list Z := [42; 58; 106; 122; 138; 155].

(** [std::find(...) != end()]. *)
Definition scannerChannelListContains (channels : list Z) (channel : Z) : bool :=
  bool_decide (channel ∈ channels).

Definition scannerChannelSpanLabel (channels : list Z) (widthMhz : Z) : string :=
  match channels with
  | [] => EmptyString
  | [channel] => to_string channel
  | front :: _ =>
      let back := default front (last channels) in
      if (widthMhz =? 40) && bool_decide (length channels = 2%nat)
      then to_string front +:+ "+" +:+ to_string back
      else to_string front +:+ "-" +:+ to_string back
  end.

Definition scannerDefaultWidthMhz (_ : ScannerBand.t) : Z := 20.

Definition scannerWidthSupported (band : ScannerBand.t) (widthMhz : Z) : bool :=
  match band with
  | Band24Ghz => widthMhz =? 20
  | Band5Ghz => (widthMhz =? 20) || (widthMhz =? 40) || (widthMhz =? 80)
  end.

Record ScannerTuning := mkScannerTuning {
  band : ScannerBand.t;
  primaryChannel : Z;
  widthMhz : Z;
  centerChannel : option Z
}.
#[global] Instance ScannerTuning_eq_dec : EqDecision ScannerTuning.
Proof. solve_decision. Defined.

Definition ScannerTuning_eqb (lhs rhs : ScannerTuning) : bool :=
  bool_decide (band lhs = band rhs) && (primaryChannel lhs =? primaryChannel rhs)
  && (widthMhz lhs =? widthMhz rhs) && bool_decide (centerChannel lhs = centerChannel rhs).

Definition scannerBandPrimaryChannels (band : ScannerBand.t) : list Z :=
  match band with
  | Band24Ghz => kScannerBand24PrimaryChannels
  | Band5Ghz => kScannerBand5PrimaryChannels
  end.

(** The channels at the given offsets from the center. *)
Fixpoint channels_around (center : Z) (offsets : list Z) : res (list Z) :=
  match offsets with
  | [] => Ok []
  | o :: offsets' =>
      let! channel := int_result (center + o) in
      let! rest := channels_around center offsets' in
      Ok (channel :: rest)
  end.

Definition scannerTuningCoveredPrimaryChannels (tuning : ScannerTuning) : res (list Z) :=
  if widthMhz tuning <=? 20 then Ok [primaryChannel tuning]
  else
    match band tuning, centerChannel tuning with
    | Band5Ghz, Some center =>
        if widthMhz tuning =? 40 then channels_around center [-2; 2]
        else if widthMhz tuning =? 80 then channels_around center [-6; -2; 2; 6]
        else Ok [primaryChannel tuning]
    | _, _ => Ok [primaryChannel tuning]
    end.

Definition scannerTuningIncludesPrimaryChannel (tuning : ScannerTuning) (channel : Z) : res bool :=
  let! coveredChannels := scannerTuningCoveredPrimaryChannels tuning in
  Ok (scannerChannelListContains coveredChannels channel).

Definition scannerObservationKindForPrimaryChannel (tuning : ScannerTuning) (channel : Z)
    : res ScannerObservationKind.t :=
  let! includes := scannerTuningIncludesPrimaryChannel tuning channel in
  Ok (if (includes : bool) then ScannerObservationKind.Direct else ScannerObservationKind.Incidental).

Definition scannerTuningIncludesObservedChannel (tuning : ScannerTuning) (channel : Z) : res bool :=
  let! includes := scannerTuningIncludesPrimaryChannel tuning channel in
  if (includes : bool) then Ok true
  else Ok (match centerChannel tuning with Some center => center =? channel | None => false end).

Definition scannerObservationKindForObservedChannel (tuning : ScannerTuning) (channel : Z)
    : res ScannerObservationKind.t :=
  let! includes := scannerTuningIncludesObservedChannel tuning channel in
  Ok (if (includes : bool) then ScannerObservationKind.Direct else ScannerObservationKind.Incidental).

Module ScannerAutoConfig.
Record t := mk { band : ScannerBand.t; widthMhz : Z }.
Definition eqb (lhs rhs : t) : bool :=
  bool_decide (band lhs = band rhs) && (widthMhz lhs =? widthMhz rhs).
End ScannerAutoConfig.

Module ScannerManualConfig.
Record t := mk { band : ScannerBand.t; widthMhz : Z; targetChannel : Z }.
Definition eqb (lhs rhs : t) : bool :=
  bool_decide (band lhs = band rhs) && (widthMhz lhs =? widthMhz rhs)
  && (targetChannel lhs =? targetChannel rhs).
End ScannerManualConfig.

Module ScannerConfig.
Record t := mk {
  mode : ScannerConfigMode.t;
  autoConfig : ScannerAutoConfig.t;
  manualConfig : ScannerManualConfig.t
}.
Definition eqb (lhs rhs : t) : bool :=
  bool_decide (mode lhs = mode rhs) && ScannerAutoConfig.eqb (autoConfig lhs) (autoConfig rhs)
  && ScannerManualConfig.eqb (manualConfig lhs) (manualConfig rhs).
End ScannerConfig.

Definition scannerBandFromChannel (channel : Z) : option ScannerBand.t :=
  if (1 <=? channel) && (channel <=? 14) then Some Band24Ghz
  else if 32 <=? channel then Some Band5Ghz
  else None.

Definition scannerBandLabel (band : ScannerBand.t) : string :=
  match band with Band24Ghz => "2.4 GHz" | Band5Ghz => "5 GHz" end.

Definition scannerManualTargetChannels (band : ScannerBand.t) (widthMhz : Z) : list Z :=
  match band with
  | Band24Ghz => if negb (widthMhz =? 20) then [] else kScannerBand24PrimaryChannels
  | Band5Ghz =>
      if widthMhz =? 20 then kScannerBand5PrimaryChannels
      else if widthMhz =? 40 then kScannerBand5_40MhzCenterChannels
      else if widthMhz =? 80 then kScannerBand5_80MhzCenterChannels
      else []
  end.

Definition scannerManualTargetShortLabel (band : ScannerBand.t) (widthMhz targetChannel : Z) : string :=
  if widthMhz =? 20 then "Ch " +:+ to_string targetChannel
  else match band with Band24Ghz | Band5Ghz => "Center " +:+ to_string targetChannel end.

Definition scannerManualTargetLabel (band : ScannerBand.t) (widthMhz targetChannel : Z) : res string :=
  if widthMhz =? 20 then Ok (scannerManualTargetShortLabel band widthMhz targetChannel)
  else if negb (bool_decide (band = Band5Ghz))
  then Ok (scannerManualTargetShortLabel band widthMhz targetChannel)
  else
    let! coveredChannels := scannerTuningCoveredPrimaryChannels
      (mkScannerTuning band targetChannel widthMhz (Some targetChannel)) in
    if negb (bool_decide (coveredChannels = []))
    then Ok ("Center " +:+ to_string targetChannel +:+ " ("
               +:+ scannerChannelSpanLabel coveredChannels widthMhz +:+ ")")
    else Ok (scannerManualTargetShortLabel band widthMhz targetChannel).

Definition scannerManualTargetToTuning (config : ScannerManualConfig.t)
    : res (Result ScannerTuning string) :=
  let band := ScannerManualConfig.band config in
  let widthMhz := ScannerManualConfig.widthMhz config in
  let targetChannel := ScannerManualConfig.targetChannel config in
  if negb (scannerWidthSupported band widthMhz) then
    Ok (error ("Unsupported " +:+ scannerBandLabel band +:+ " scanner width "
                 +:+ to_string widthMhz +:+ " MHz"))
  else if negb (scannerChannelListContains (scannerManualTargetChannels band widthMhz) targetChannel) then
    Ok (error ("Unsupported " +:+ scannerBandLabel band +:+ " manual target "
                 +:+ to_string targetChannel +:+ " @ " +:+ to_string widthMhz +:+ " MHz"))
  else if widthMhz =? 20 then Ok (okay (mkScannerTuning band targetChannel 20 None))
  else
    let unsupported := "Unsupported manual tuning target " +:+ to_string targetChannel in
    if negb (bool_decide (band = Band5Ghz)) then Ok (error unsupported)
    else
      let! coveredChannels := scannerTuningCoveredPrimaryChannels
        (mkScannerTuning band targetChannel widthMhz (Some targetChannel)) in
      if bool_decide (coveredChannels = []) then Ok (error unsupported)
      else if negb (forallb (scannerChannelListContains (scannerBandPrimaryChannels band)) coveredChannels)
      then Ok (error unsupported)
      else
        let! front := vec_front coveredChannels in
        Ok (okay (mkScannerTuning band front widthMhz (Some targetChannel))).

(** The loop over the supported targets; [continue] skips a target. *)
Fixpoint target_loop (band : ScannerBand.t) (widthMhz primaryChannel : Z) (targets : list Z)
    : res (option Z) :=
  match targets with
  | [] => Ok None
  | targetChannel :: targets' =>
      let! tuningResult :=
        scannerManualTargetToTuning (ScannerManualConfig.mk band widthMhz targetChannel) in
      match tuningResult with
      | error _ => target_loop band widthMhz primaryChannel targets'
      | okay tuning =>
          let! includes := scannerTuningIncludesPrimaryChannel tuning primaryChannel in
          if (includes : bool) then Ok (Some targetChannel)
          else target_loop band widthMhz primaryChannel targets'
      end
  end.

Definition scannerManualTargetForPrimaryChannel (band : ScannerBand.t) (widthMhz primaryChannel : Z)
    : res (option Z) :=
  let supportedTargets := scannerManualTargetChannels band widthMhz in
  if bool_decide (supportedTargets = []) then Ok None
  else if widthMhz =? 20 then
    if scannerChannelListContains supportedTargets primaryChannel then Ok (Some primaryChannel) else Ok None
  else target_loop band widthMhz primaryChannel supportedTargets.

Definition scannerDefaultConfig : ScannerConfig.t :=
  ScannerConfig.mk ScannerConfigMode.Auto (ScannerAutoConfig.mk Band5Ghz 20)
    (ScannerManualConfig.mk Band5Ghz 20 36).

Definition scannerConfigBand (config : ScannerConfig.t) : ScannerBand.t :=
  if bool_decide (ScannerConfig.mode config = ScannerConfigMode.Manual)
  then ScannerManualConfig.band (ScannerConfig.manualConfig config)
  else ScannerAutoConfig.band (ScannerConfig.autoConfig config).

Definition scannerConfigWidthMhz (config : ScannerConfig.t) : Z :=
  if bool_decide (ScannerConfig.mode config = ScannerConfigMode.Manual)
  then ScannerManualConfig.widthMhz (ScannerConfig.manualConfig config)
  else ScannerAutoConfig.widthMhz (ScannerConfig.autoConfig config).

Definition scannerConfigSummaryLabel (config : ScannerConfig.t) : string :=
  let prefix := scannerBandLabel (scannerConfigBand config) +:+ " / "
    +:+ to_string (scannerConfigWidthMhz config) +:+ " MHz / " in
  if bool_decide (ScannerConfig.mode config = ScannerConfigMode.Manual)
  then
    let manual := ScannerConfig.manualConfig config in
    prefix +:+ scannerManualTargetShortLabel (ScannerManualConfig.band manual)
                 (ScannerManualConfig.widthMhz manual) (ScannerManualConfig.targetChannel manual)
  else prefix +:+ "Auto".

(** ** Manual targets *)

(** The supported targets: one for each channel of a 20 MHz band and one for each
    wider center. *)
Definition manual_targets : list (ScannerBand.t * Z * Z) :=
  b ← [Band24Ghz; Band5Ghz]; w ← [20; 40; 80]; c ← scannerManualTargetChannels b w; [(b, w, c)].

Lemma elem_of_manual_targets b w c :
  (b, w, c) ∈ manual_targets <-> scannerWidthSupported b w = true /\ c ∈ scannerManualTargetChannels b w.
Proof.
  unfold manual_targets. rewrite list_elem_of_bind. setoid_rewrite list_elem_of_bind.
  setoid_rewrite list_elem_of_bind. setoid_rewrite list_elem_of_singleton. split.
  - intros (b' & (w' & (c' & [= -> -> ->] & Hc) & Hw) & _). split; [| done].
    assert (w' = 20 \/ w' = 40 \/ w' = 80) as [-> | [-> | ->]] by set_solver; destruct b'; try done;
      by apply not_elem_of_nil in Hc.
  - intros [Hw Hc]. exists b. split; [| destruct b; set_solver].
    exists w. split; [by exists c |].
    assert (w = 20 \/ w = 40 \/ w = 80) as [-> | [-> | ->]]; [| set_solver ..].
    destruct b; simpl in Hw; lia.
Qed.

(** What holds of a tuning made for a manual target, as a decidable check. *)
Definition target_ok (b : ScannerBand.t) (w c : Z) (t : ScannerTuning) (covered : list Z) : Prop :=
  band t = b /\ widthMhz t = w /\ centerChannel t = (if w =? 20 then None else Some c) /\
  head covered = Some (primaryChannel t) /\ Z.of_nat (length covered) * 20 = w /\
  Forall (fun p => p ∈ scannerBandPrimaryChannels b /\
    scannerManualTargetForPrimaryChannel b w p = Ok (Some c)) covered.

#[global] Instance res_eq_dec {A} `{EqDecision A} : EqDecision (res A).
Proof. solve_decision. Defined.
#[global] Instance target_ok_dec b w c t covered : Decision (target_ok b w c t covered).
Proof. unfold target_ok. apply _. Defined.

Definition check_target (x : ScannerBand.t * Z * Z) : bool :=
  match x with
  | (b, w, c) =>
      match scannerManualTargetToTuning (ScannerManualConfig.mk b w c) with
      | Ok (okay t) =>
          match scannerTuningCoveredPrimaryChannels t with
          | Ok covered => bool_decide (target_ok b w c t covered)
          | Fault _ => false
          end
      | _ => false
      end
  end.

Lemma check_targets : forallb check_target manual_targets = true.
Proof. vm_compute. reflexivity. Qed.

Lemma target_tuning b w c :
  (b, w, c) ∈ manual_targets ->
  exists t covered, scannerManualTargetToTuning (ScannerManualConfig.mk b w c) = Ok (okay t) /\
    scannerTuningCoveredPrimaryChannels t = Ok covered /\ target_ok b w c t covered.
Proof.
  intros Hin. pose proof check_targets as H. rewrite forallb_forall in H.
  specialize (H _ (proj1 (list_elem_of_In _ _) Hin)). unfold check_target in H. revert H.
  destruct (scannerManualTargetToTuning _) as [[t |] |]; [| done | done].
  destruct (scannerTuningCoveredPrimaryChannels t) as [covered |] eqn:Hc; [| done].
  intros H%bool_decide_eq_true. by exists t, covered.
Qed.

(** [scannerManualTargetToTuning] never faults. It fails exactly when the
    target is not a supported one, with the message of the check that fails: the
    width first, then the target; the later checks never fail. When it succeeds,
    the tuning has the requested band and width, the target as its center when
    wider than 20 MHz, and covers [width / 20] channels, the first of which is its
    primary one; they are all primary channels of the band, and
    [scannerManualTargetForPrimaryChannel] maps each of them back to the target. *)
Lemma scanner_manual_target (b : ScannerBand.t) (w c : Z) :
  match scannerManualTargetToTuning (ScannerManualConfig.mk b w c) with
  | Fault _ => False
  | Ok (error message) =>
      ~ (scannerWidthSupported b w = true /\ c ∈ scannerManualTargetChannels b w) /\
      message =
        if scannerWidthSupported b w
        then "Unsupported " +:+ scannerBandLabel b +:+ " manual target " +:+ to_string c
               +:+ " @ " +:+ to_string w +:+ " MHz"
        else "Unsupported " +:+ scannerBandLabel b +:+ " scanner width " +:+ to_string w +:+ " MHz"
  | Ok (okay t) =>
      scannerWidthSupported b w = true /\ c ∈ scannerManualTargetChannels b w /\
      exists covered, scannerTuningCoveredPrimaryChannels t = Ok covered /\ target_ok b w c t covered
  end.
Proof.
  destruct (decide ((b, w, c) ∈ manual_targets)) as [Hin | Hnin].
  - destruct (target_tuning b w c Hin) as (t & covered & -> & Hcov & Hok).
    apply elem_of_manual_targets in Hin as [Hw Hc]. split; [done |]. split; [done |]. by exists covered.
  - rewrite elem_of_manual_targets in Hnin. unfold scannerManualTargetToTuning.
    cbn [ScannerManualConfig.band ScannerManualConfig.widthMhz ScannerManualConfig.targetChannel].
    destruct (scannerWidthSupported b w) eqn:Hw; cbn [negb]; [| by split].
    unfold scannerChannelListContains at 1. rewrite bool_decide_false; [| tauto]. cbn [negb]. by split.
Qed.
