(* ===== verification/NexmonProtocol.v ===== *)
(** The chanspec codec and the payloads of the Nexmon control channel:
    [os-manager/network/NexmonChannelProtocol.{h,cpp}]. *)

From Stdlib Require Import ZArith Lia Bool String Ascii.
From stdpp Require Import base gmap option numbers list strings pretty.
From S2P Require Import Prelude.
From S2P Require Import Scanner.

Set Default Goal Selector "!".

Import ScannerBand.

Module NexmonChannelProtocol.

(** Bytes are [uint8_t]; ['N'], ['E'], ['X'] and so on are their ASCII codes. *)
Definition kMagicPrefix : list Z := [78; 69; 88; 0; 0; 0; 0; 0].
Definition kChanspecName : list Z := [99; 104; 97; 110; 115; 112; 101; 99; 0].
Definition kGetChanspecCommandId : Z := 0x106.
Definition kSetChanspecCommandId : Z := 0x107.
Definition kBand24Ghz : Z := 0x0.
Definition kBand5Ghz : Z := 0xc000.
Definition kControlSidebandLower : Z := 0x0.
Definition kControlSidebandLowerUpper : Z := 0x100.
Definition kControlSidebandUpperLower : Z := 0x200.
Definition kControlSidebandUpperUpper : Z := 0x300.
Definition kWidth20Mhz : Z := 0x1000.
Definition kWidth40Mhz : Z := 0x1800.
Definition kWidth80Mhz : Z := 0x2000.
Definition kGetPayloadSize : nat := 28.
Definition kSetPayloadSize : nat := 32.
Definition kChanspecValueOffset : Z := 16.

(** ** Bytes *)
Definition writeLe32 (payload : list Z) (offset value : Z) : res (list Z) :=
  let! payload := vec_set payload (offset + 0) (u8 (Z.land value 0xff)) in
  let! payload := vec_set payload (offset + 1) (u8 (Z.land (Z.shiftr value 8) 0xff)) in
  let! payload := vec_set payload (offset + 2) (u8 (Z.land (Z.shiftr value 16) 0xff)) in
  vec_set payload (offset + 3) (u8 (Z.land (Z.shiftr value 24) 0xff)).

Definition readLe32 (payload : list Z) (offset : Z) : res Z :=
  let! b0 := vec_get payload (offset + 0) in
  let! b1 := vec_get payload (offset + 1) in
  let! b2 := vec_get payload (offset + 2) in
  let! b3 := vec_get payload (offset + 3) in
  Ok (Z.lor (Z.lor (Z.lor b0 (Z.shiftl b1 8)) (Z.shiftl b2 16)) (Z.shiftl b3 24)).

(** [std::copy(bytes.begin(), bytes.end(), payload.begin() + offset)]. *)
Fixpoint copy_to (payload : list Z) (offset : Z) (bytes : list Z) : res (list Z) :=
  match bytes with
  | [] => Ok payload
  | b :: bytes' => let! payload := vec_set payload offset b in copy_to payload (offset + 1) bytes'
  end.

Definition writeCommonPayloadPrefix (payload : list Z) (commandId flag : Z) : res (list Z) :=
  let! payload := copy_to payload 0 kMagicPrefix in
  let! payload := writeLe32 payload 8 commandId in
  writeLe32 payload 12 flag.

(** [snprintf("%04x")] of a value below [2^16]. *)
Definition hex_digit (v : Z) : string :=
  String (ascii_of_nat (Z.to_nat (if v <? 10 then 48 + v else 87 + v))) EmptyString.
Definition hex04 (v : Z) : string :=
  hex_digit (Z.land (Z.shiftr v 12) 15) +:+ hex_digit (Z.land (Z.shiftr v 8) 15)
  +:+ hex_digit (Z.land (Z.shiftr v 4) 15) +:+ hex_digit (Z.land v 15).

(** ** Encoding *)
Definition isSupported5GHzScannerChannel (channel : Z) : bool :=
  scannerChannelListContains (scannerBandPrimaryChannels Band5Ghz) channel.

Fixpoint covered_by_any (centers : list Z) (widthMhz channel : Z) : res bool :=
  match centers with
  | [] => Ok false
  | centerChannel :: centers' =>
      let! coveredChannels := scannerTuningCoveredPrimaryChannels
        (mkScannerTuning Band5Ghz centerChannel widthMhz (Some centerChannel)) in
      if scannerChannelListContains coveredChannels channel then Ok true
      else covered_by_any centers' widthMhz channel
  end.

Definition isSupported5GHzScannerChannelForWidth (widthMhz channel : Z) : res bool :=
  if widthMhz =? 20 then Ok (isSupported5GHzScannerChannel channel)
  else covered_by_any (scannerManualTargetChannels Band5Ghz widthMhz) widthMhz channel.

Definition encode5GHz40MHzChanspec (tuning : ScannerTuning) : res (Result Z string) :=
  let primary := primaryChannel tuning in
  let! supported := isSupported5GHzScannerChannelForWidth 40 primary in
  if negb supported then Ok (error ("Unsupported 40 MHz scanner channel " +:+ to_string primary))
  else
    match centerChannel tuning with
    | None => Ok (error ("Missing 40 MHz center channel for primary channel " +:+ to_string primary))
    | Some centerChannel =>
        let invalid := "Invalid 40 MHz center channel " +:+ to_string centerChannel
          +:+ " for primary channel " +:+ to_string primary in
        if negb (scannerChannelListContains (scannerManualTargetChannels Band5Ghz 40) centerChannel)
        then Ok (error ("Unsupported 40 MHz center channel " +:+ to_string centerChannel))
        else
          let! coveredChannels := scannerTuningCoveredPrimaryChannels
            (mkScannerTuning Band5Ghz primary 40 (Some centerChannel)) in
          if negb (scannerChannelListContains coveredChannels primary) then Ok (error invalid)
          else
            let! diff := int_result (primary - centerChannel) in
            let code sideband :=
              okay (Z.lor (Z.lor (Z.lor kBand5Ghz kWidth40Mhz) sideband) (u32 centerChannel)) in
            if diff =? -2 then Ok (code kControlSidebandLower)
            else if diff =? 2 then Ok (code kControlSidebandLowerUpper)
            else Ok (error invalid)
    end.

Definition encode5GHz80MHzChanspec (tuning : ScannerTuning) : res (Result Z string) :=
  let primary := primaryChannel tuning in
  let! supported := isSupported5GHzScannerChannelForWidth 80 primary in
  if negb supported then Ok (error ("Unsupported 80 MHz scanner channel " +:+ to_string primary))
  else
    match centerChannel tuning with
    | None => Ok (error ("Missing 80 MHz center channel for primary channel " +:+ to_string primary))
    | Some centerChannel =>
        let invalid := "Invalid 80 MHz center channel " +:+ to_string centerChannel
          +:+ " for primary channel " +:+ to_string primary in
        if negb (scannerChannelListContains (scannerManualTargetChannels Band5Ghz 80) centerChannel)
        then Ok (error ("Unsupported 80 MHz center channel " +:+ to_string centerChannel))
        else
          let! coveredChannels := scannerTuningCoveredPrimaryChannels
            (mkScannerTuning Band5Ghz primary 80 (Some centerChannel)) in
          if negb (scannerChannelListContains coveredChannels primary) then Ok (error invalid)
          else
            let! diff := int_result (primary - centerChannel) in
            let code sideband :=
              okay (Z.lor (Z.lor (Z.lor kBand5Ghz kWidth80Mhz) sideband) (u32 centerChannel)) in
            if diff =? -6 then Ok (code kControlSidebandLower)
            else if diff =? -2 then Ok (code kControlSidebandLowerUpper)
            else if diff =? 2 then Ok (code kControlSidebandUpperLower)
            else if diff =? 6 then Ok (code kControlSidebandUpperUpper)
            else Ok (error invalid)
    end.

Definition encodeChanspec20MHz (channel : Z) : Result Z string :=
  if (1 <=? channel) && (channel <=? 11)
  then okay (Z.lor (Z.lor kBand24Ghz kWidth20Mhz) (u32 channel))
  else if isSupported5GHzScannerChannel channel
  then okay (Z.lor (Z.lor kBand5Ghz kWidth20Mhz) (u32 channel))
  else error ("Unsupported 20 MHz scanner channel " +:+ to_string channel).

Definition encodeChanspec (tuning : ScannerTuning) : res (Result Z string) :=
  let width := to_string (widthMhz tuning) in
  let unsupported := error ("Unsupported scanner tuning width " +:+ width +:+ " MHz") in
  if negb (scannerWidthSupported (band tuning) (widthMhz tuning))
  then Ok (error ("Unsupported " +:+ scannerBandLabel (band tuning) +:+ " scanner width "
                    +:+ width +:+ " MHz"))
  else if widthMhz tuning =? 20 then Ok (encodeChanspec20MHz (primaryChannel tuning))
  else if widthMhz tuning =? 40 then
    if negb (bool_decide (band tuning = Band5Ghz)) then Ok unsupported
    else encode5GHz40MHzChanspec tuning
  else if widthMhz tuning =? 80 then
    if negb (bool_decide (band tuning = Band5Ghz)) then Ok unsupported
    else encode5GHz80MHzChanspec tuning
  else Ok unsupported.

(** ** Decoding *)

(** The checks after the [switch] on the width. *)
Definition check_decoded (width : Z) (tuning : ScannerTuning) : res (Result ScannerTuning string) :=
  if negb (scannerWidthSupported (band tuning) (widthMhz tuning))
  then Ok (error ("Unsupported chanspec width 0x" +:+ hex04 width))
  else
    let! coveredChannels := scannerTuningCoveredPrimaryChannels tuning in
    if negb (scannerChannelListContains coveredChannels (primaryChannel tuning))
    then Ok (error "Decoded primary channel is outside chanspec span")
    else if negb (scannerChannelListContains (scannerBandPrimaryChannels (band tuning)) (primaryChannel tuning))
    then Ok (error ("Unsupported decoded primary channel " +:+ to_string (primaryChannel tuning)))
    else
      match centerChannel tuning with
      | Some center =>
          if negb (scannerChannelListContains
                     (scannerManualTargetChannels (band tuning) (widthMhz tuning)) center)
          then Ok (error ("Unsupported decoded center channel " +:+ to_string center))
          else Ok (okay tuning)
      | None => Ok (okay tuning)
      end.

Definition decodeChanspec (chanspec : Z) : res (Result ScannerTuning string) :=
  let bandBits := Z.land chanspec 0xc000 in
  let width := Z.land chanspec 0x3800 in
  let channel := Z.land chanspec 0x00ff in
  let controlSideband := Z.land chanspec 0x0300 in
  let band := if bandBits =? kBand5Ghz then Band5Ghz else Band24Ghz in
  let tuning := mkScannerTuning band channel 20 None in
  if width =? kWidth20Mhz then
    if negb (scannerChannelListContains (scannerBandPrimaryChannels band) channel)
    then Ok (error ("Unsupported 20 MHz chanspec primary channel " +:+ to_string channel))
    else Ok (okay tuning)
  else if width =? kWidth40Mhz then
    if negb (bool_decide (band = Band5Ghz)) then check_decoded width tuning
    else
      let at_ primary := check_decoded width (mkScannerTuning band primary 40 (Some channel)) in
      if controlSideband =? kControlSidebandLower then at_ (channel - 2)
      else if controlSideband =? kControlSidebandLowerUpper then at_ (channel + 2)
      else Ok (error ("Unsupported 40 MHz control sideband 0x" +:+ hex04 controlSideband))
  else if width =? kWidth80Mhz then
    if negb (bool_decide (band = Band5Ghz)) then check_decoded width tuning
    else
      let at_ primary := check_decoded width (mkScannerTuning band primary 80 (Some channel)) in
      if controlSideband =? kControlSidebandLower then at_ (channel - 6)
      else if controlSideband =? kControlSidebandLowerUpper then at_ (channel - 2)
      else if controlSideband =? kControlSidebandUpperLower then at_ (channel + 2)
      else if controlSideband =? kControlSidebandUpperUpper then at_ (channel + 6)
      else Ok (error ("Unsupported 80 MHz control sideband 0x" +:+ hex04 controlSideband))
  else check_decoded width tuning.

Definition describeChanspec (chanspec : Z) : res string :=
  let rawLabel := "0x" +:+ hex04 (Z.land chanspec 0xffff) in
  let! tuningResult := decodeChanspec chanspec in
  match tuningResult with
  | error e => Ok (rawLabel +:+ " (" +:+ e +:+ ")")
  | okay tuning =>
      if widthMhz tuning =? 20
      then Ok (rawLabel +:+ " (" +:+ scannerBandLabel (band tuning) +:+ " ch "
                 +:+ to_string (primaryChannel tuning) +:+ " @ 20 MHz)")
      else
        let! coveredChannels := scannerTuningCoveredPrimaryChannels tuning in
        match centerChannel tuning with
        | None => Fault BadOptional
        | Some center =>
            Ok (rawLabel +:+ " (" +:+ scannerBandLabel (band tuning) +:+ " center "
                  +:+ to_string center +:+ " @ " +:+ to_string (widthMhz tuning)
                  +:+ " MHz span " +:+ scannerChannelSpanLabel coveredChannels (widthMhz tuning) +:+ ")")
        end
  end.

(** ** Payloads *)
Definition buildGetChanspecPayload : res (list Z) :=
  let! payload := writeCommonPayloadPrefix (replicate kGetPayloadSize 0) kGetChanspecCommandId 0 in
  copy_to payload 16 kChanspecName.

Definition buildSetChanspecPayload (tuning : ScannerTuning) : res (Result (list Z) string) :=
  let! chanspecResult := encodeChanspec tuning in
  match chanspecResult with
  | error e => Ok (error e)
  | okay chanspec =>
      let! payload := writeCommonPayloadPrefix (replicate kSetPayloadSize 0) kSetChanspecCommandId 1 in
      let! payload := copy_to payload 16 kChanspecName in
      let! payload := writeLe32 payload 25 chanspec in
      Ok (okay payload)
  end.

Definition parseGetChanspecPayload (payload : list Z) : res (Result Z string) :=
  if bool_decide (length payload < kGetPayloadSize)%nat
  then Ok (error "Nexmon get-chanspec reply is too short")
  else if negb (bool_decide (take (length kMagicPrefix) payload = kMagicPrefix))
  then Ok (error "Nexmon get-chanspec reply prefix mismatch")
  else
    let! commandId := readLe32 payload 8 in
    if negb (commandId =? kGetChanspecCommandId)
    then Ok (error "Nexmon get-chanspec reply command mismatch")
    else
      let! chanspec := readLe32 payload kChanspecValueOffset in
      Ok (okay chanspec).

End NexmonChannelProtocol.

Import NexmonChannelProtocol.

(** ** The tunings the codec supports *)
Definition covered_or_none (t : ScannerTuning) : list Z :=
  match scannerTuningCoveredPrimaryChannels t with Ok l => l | Fault _ => [] end.

Definition supported_tunings : list ScannerTuning :=
  (b ← [Band24Ghz; Band5Ghz]; p ← scannerBandPrimaryChannels b; [mkScannerTuning b p 20 None]) ++
  (w ← [40; 80]; c ← scannerManualTargetChannels Band5Ghz w;
   p ← covered_or_none (mkScannerTuning Band5Ghz c w (Some c)); [mkScannerTuning Band5Ghz p w (Some c)]).

Lemma supported_20 b p :
  p ∈ scannerBandPrimaryChannels b -> mkScannerTuning b p 20 None ∈ supported_tunings.
Proof.
  intros Hp. unfold supported_tunings. apply elem_of_app. left. apply list_elem_of_bind.
  exists b. split; [| destruct b; set_solver]. apply list_elem_of_bind. exists p.
  split; [by apply list_elem_of_singleton | done].
Qed.

Lemma supported_wide w c p covered :
  w ∈ [40; 80] -> c ∈ scannerManualTargetChannels Band5Ghz w ->
  scannerTuningCoveredPrimaryChannels (mkScannerTuning Band5Ghz c w (Some c)) = Ok covered -> p ∈ covered ->
  mkScannerTuning Band5Ghz p w (Some c) ∈ supported_tunings.
Proof.
  intros Hw Hc Hcov Hp. unfold supported_tunings. apply elem_of_app. right. apply list_elem_of_bind.
  exists w. split; [| done]. apply list_elem_of_bind. exists c. split; [| done]. apply list_elem_of_bind.
  exists p. split; [by apply list_elem_of_singleton |]. unfold covered_or_none. by rewrite Hcov.
Qed.

(** The bits of a chanspec: band, width, sideband and channel. *)
Definition band_bits (b : ScannerBand.t) : Z :=
  match b with Band24Ghz => kBand24Ghz | Band5Ghz => kBand5Ghz end.
Definition width_bits (w : Z) : Z :=
  if w =? 20 then kWidth20Mhz else if w =? 40 then kWidth40Mhz else kWidth80Mhz.
Definition sideband_bits (t : ScannerTuning) : Z :=
  match centerChannel t with
  | None => 0
  | Some c =>
      if widthMhz t =? 40 then if primaryChannel t <? c then kControlSidebandLower else kControlSidebandLowerUpper
      else Z.shiftl ((primaryChannel t - c + 6) / 4) 8
  end.
Definition chanspec_of (t : ScannerTuning) : Z :=
  Z.lor (Z.lor (Z.lor (band_bits (band t)) (width_bits (widthMhz t))) (sideband_bits t))
    (default (primaryChannel t) (centerChannel t)).

(** What holds of every supported tuning, as a decidable check. *)
Definition roundtrip_ok (t : ScannerTuning) (s : Z) (payload request reply : list Z) : Prop :=
  encodeChanspec t = Ok (okay s) /\ s = chanspec_of t /\ 0 <= s < 2 ^ 16 /\ decodeChanspec s = Ok (okay t) /\
  buildSetChanspecPayload t = Ok (okay payload) /\ length payload = kSetPayloadSize /\
  take 8 payload = kMagicPrefix /\ readLe32 payload 8 = Ok kSetChanspecCommandId /\
  take 9 (drop 16 payload) = kChanspecName /\ readLe32 payload 25 = Ok s /\
  buildGetChanspecPayload = Ok request /\ length request = kGetPayloadSize /\
  writeLe32 request kChanspecValueOffset s = Ok reply /\ parseGetChanspecPayload reply = Ok (okay s).

#[global] Instance Result_eq_dec {A E} `{EqDecision A, EqDecision E} : EqDecision (Result A E).
Proof. solve_decision. Defined.
#[global] Instance roundtrip_ok_dec t s payload request reply :
  Decision (roundtrip_ok t s payload request reply).
Proof. unfold roundtrip_ok. apply _. Defined.

Definition check_roundtrip (t : ScannerTuning) : bool :=
  match encodeChanspec t, buildSetChanspecPayload t, buildGetChanspecPayload with
  | Ok (okay s), Ok (okay payload), Ok request =>
      match writeLe32 request kChanspecValueOffset s with
      | Ok reply => bool_decide (roundtrip_ok t s payload request reply)
      | Fault _ => false
      end
  | _, _, _ => false
  end.

Lemma check_roundtrips : forallb check_roundtrip supported_tunings = true.
Proof. vm_compute. reflexivity. Qed.

Lemma roundtrip t :
  t ∈ supported_tunings -> exists s payload request reply, roundtrip_ok t s payload request reply.
Proof.
  intros Hin. pose proof check_roundtrips as H. rewrite forallb_forall in H.
  specialize (H t (proj1 (list_elem_of_In _ _) Hin)). unfold check_roundtrip in H.
  destruct (encodeChanspec t) as [[s |] |]; [| done | done].
  destruct (buildSetChanspecPayload t) as [[payload |] |]; [| done | done].
  destruct buildGetChanspecPayload as [request |]; [| done].
  destruct (writeLe32 request _ s) as [reply |]; [| done].
  exists s, payload, request, reply. by apply bool_decide_eq_true in H.
Qed.

(** C36. Every supported tuning survives the wire: [encodeChanspec] gives a 16-bit
    chanspec made of the tuning's band, width, sideband and channel bits, which
    [decodeChanspec] turns back into the tuning; the set-chanspec payload has the
    magic prefix, the command, the name and the chanspec at offset 25; and a reply
    to the get-chanspec request that carries a chanspec at its offset is parsed to
    that chanspec. *)
Theorem chanspec_roundtrip t :
  t ∈ supported_tunings ->
  exists s payload request reply, roundtrip_ok t s payload request reply.
Proof. apply roundtrip. Qed.

Lemma chanspec_roundtrip_witness :
  mkScannerTuning Band5Ghz 149 80 (Some 155) ∈ supported_tunings /\
  exists s payload request reply,
    roundtrip_ok (mkScannerTuning Band5Ghz 149 80 (Some 155)) s payload request reply.
Proof.
  assert (mkScannerTuning Band5Ghz 149 80 (Some 155) ∈ supported_tunings) as H.
  { by apply (supported_wide 80 155 149 [149; 153; 157; 161]); [set_solver.. | | set_solver]. }
  split; [exact H | exact (chanspec_roundtrip _ H)].
Defined.

(** ** Decoding any value *)
Section Decode.
Context (s : Z).

Lemma channel_range : 0 <= Z.land s 0xff < 256.
Proof. change 0xff with (Z.ones 8). rewrite Z.land_ones by lia. apply Z.mod_pos_bound. lia. Qed.

Lemma covered_at p w o :
  w ∈ [40; 80] ->
  exists covered,
    scannerTuningCoveredPrimaryChannels (mkScannerTuning Band5Ghz p w (Some (Z.land s 0xff))) = Ok covered /\
    scannerTuningCoveredPrimaryChannels (mkScannerTuning Band5Ghz o w (Some (Z.land s 0xff))) = Ok covered.
Proof.
  intros Hw. pose proof channel_range. assert (w = 40 \/ w = 80) as [-> | ->] by set_solver; cbn -[Z.land];
    rewrite !int_result_ok by lia; cbn -[Z.land]; eauto.
Qed.

(** The final checks of a decoded tuning: only supported tunings pass. *)
Lemma check_decoded_wide width w p :
  w ∈ [40; 80] ->
  match check_decoded width (mkScannerTuning Band5Ghz p w (Some (Z.land s 0xff))) with
  | Fault _ => False
  | Ok (okay t) => t = mkScannerTuning Band5Ghz p w (Some (Z.land s 0xff)) /\ t ∈ supported_tunings
  | Ok (error e) => e <> "Unsupported chanspec width 0x" +:+ hex04 width
  end.
Proof.
  intros Hw. destruct (covered_at p w (Z.land s 0xff) Hw) as (covered & Hc & Hc').
  unfold check_decoded. cbn [band widthMhz primaryChannel centerChannel].
  assert (scannerWidthSupported Band5Ghz w = true) as -> by (assert (w = 40 \/ w = 80) as [-> | ->] by set_solver; done).
  cbn [negb]. rewrite Hc. cbn [rbind]. unfold scannerChannelListContains.
  destruct (bool_decide (p ∈ covered)) eqn:Hp; cbn [negb]; [| by cbn].
  destruct (bool_decide (p ∈ scannerBandPrimaryChannels Band5Ghz)); cbn [negb]; [| by cbn].
  destruct (bool_decide (Z.land s 0xff ∈ scannerManualTargetChannels Band5Ghz w)) eqn:Ht; cbn [negb]; [| by cbn].
  apply bool_decide_eq_true in Hp, Ht. split; [done |]. by apply (supported_wide w _ p covered).
Qed.

Lemma check_decoded_20 width b :
  match check_decoded width (mkScannerTuning b (Z.land s 0xff) 20 None) with
  | Fault _ => False
  | Ok (okay t) => t = mkScannerTuning b (Z.land s 0xff) 20 None /\ t ∈ supported_tunings
  | Ok (error e) => e <> "Unsupported chanspec width 0x" +:+ hex04 width
  end.
Proof.
  unfold check_decoded. cbn [band widthMhz primaryChannel centerChannel].
  assert (scannerWidthSupported b 20 = true) as -> by by destruct b.
  unfold scannerTuningCoveredPrimaryChannels. cbn [band widthMhz primaryChannel centerChannel].
  change (20 <=? 20) with true. cbn [negb rbind]. unfold scannerChannelListContains.
  rewrite (bool_decide_true (Z.land s 0xff ∈ [Z.land s 0xff])) by by left. cbn [negb].
  destruct (bool_decide (Z.land s 0xff ∈ scannerBandPrimaryChannels b)) eqn:Hp; cbn [negb]; [| by cbn].
  apply bool_decide_eq_true in Hp. split; [done | by apply supported_20].
Qed.

Definition decoded_band : ScannerBand.t := if Z.land s 0xc000 =? kBand5Ghz then Band5Ghz else Band24Ghz.

(** The width a chanspec is read with: 40 and 80 MHz in the 5 GHz band, and
    20 MHz for every other value of the width bits. *)
Definition decoded_width : Z :=
  if bool_decide (decoded_band = Band5Ghz) then
    if Z.land s 0x3800 =? kWidth40Mhz then 40 else if Z.land s 0x3800 =? kWidth80Mhz then 80 else 20
  else 20.

(** The checks of [Hc] decide the decoded tuning. *)
Ltac decode_as Hc :=
  revert Hc; match goal with |- context [check_decoded ?width ?t] =>
    destruct (check_decoded width t) as [[? | ?] |] end; [intros [-> Hin] | exact id | exact id]; done.

(** One of the sidebands, or none of them. *)
Ltac decode_wide w :=
  repeat match goal with |- context [if Z.land s 0x300 =? ?k then _ else _] =>
    destruct (Z.land s 0x300 =? k) end;
  try (match goal with |- context [check_decoded ?width (mkScannerTuning _ ?p _ _)] =>
         let Hc := fresh in pose proof (check_decoded_wide width w p ltac:(set_solver)) as Hc; decode_as Hc end);
  by cbn.

Lemma decode_cases :
  match decodeChanspec s with
  | Fault _ => False
  | Ok (okay t) => t ∈ supported_tunings /\ band t = decoded_band /\ widthMhz t = decoded_width /\
      default (primaryChannel t) (centerChannel t) = Z.land s 0xff
  | Ok (error e) => e <> "Unsupported chanspec width 0x" +:+ hex04 (Z.land s 0x3800)
  end.
Proof.
  unfold decodeChanspec, decoded_width. fold decoded_band. pose proof channel_range.
  destruct (Z.eqb_spec (Z.land s 0x3800) kWidth20Mhz) as [Hw | Hw].
  - unfold scannerChannelListContains.
    destruct (bool_decide (Z.land s 0xff ∈ scannerBandPrimaryChannels decoded_band)) eqn:Hp; cbn [negb]; [| by cbn].
    apply bool_decide_eq_true in Hp. split; [by apply supported_20 |]. split; [done |]. rewrite Hw.
    split; [by case_bool_decide | done].
  - pose proof (check_decoded_20 (Z.land s 0x3800) decoded_band) as H20.
    destruct (Z.eqb_spec (Z.land s 0x3800) kWidth40Mhz) as [Hw40 | Hw40];
      [| destruct (Z.eqb_spec (Z.land s 0x3800) kWidth80Mhz) as [Hw80 | Hw80]].
    + case_bool_decide as Hb; cbn [negb]; [rewrite Hb; decode_wide 40 | decode_as H20].
    + case_bool_decide as Hb; cbn [negb]; [rewrite Hb; decode_wide 80 | decode_as H20].
    + case_bool_decide as Hb; decode_as H20.
Qed.
End Decode.

(** [decodeChanspec] never faults, whatever the value. A tuning it returns is
    a supported one, of the value's band and channel byte, that encodes to a
    chanspec with the same channel byte which decodes to it again. Its width is
    40 or 80 MHz for those width bits in the 5 GHz band and 20 MHz for any other
    width bits: the error for an unsupported width is never returned. A value
    it rejects is not the encoding of any supported tuning. *)
Lemma chanspec_decode s :
  match decodeChanspec s with
  | Fault _ => False
  | Ok (okay t) =>
      t ∈ supported_tunings /\ band t = decoded_band s /\ widthMhz t = decoded_width s /\
      default (primaryChannel t) (centerChannel t) = Z.land s 0xff /\
      exists s', encodeChanspec t = Ok (okay s') /\ decodeChanspec s' = Ok (okay t) /\
        Z.land s' 0xff = Z.land s 0xff
  | Ok (error e) =>
      e <> "Unsupported chanspec width 0x" +:+ hex04 (Z.land s 0x3800) /\
      forall t, t ∈ supported_tunings -> encodeChanspec t <> Ok (okay s)
  end.
Proof.
  pose proof (decode_cases s) as H. destruct (decodeChanspec s) as [[t | e] |] eqn:Hd; [| | done].
  - destruct H as (Hin & Hb & Hw & Hc). repeat (split; [done |]).
    destruct (roundtrip t Hin) as (s' & payload & request & reply & He & _ & _ & Hd' & _).
    exists s'. split; [done |]. split; [done |]. pose proof (decode_cases s') as H'. rewrite Hd' in H'.
    destruct H' as (_ & _ & _ & Hc'). congruence.
  - split; [done |]. intros t Hin He.
    destruct (roundtrip t Hin) as (s' & payload & request & reply & He' & _ & _ & Hd' & _).
    rewrite He in He'. injection He' as <-. congruence.
Qed.

(** 160 MHz width bits, in the 5 GHz band: read as 20 MHz. *)
Example unsupported_width_decodes :
  decodeChanspec 0xe824 = Ok (okay (mkScannerTuning Band5Ghz 36 20 None)).
Proof. reflexivity. Qed.
