(* ===== verification/ScanPlanner.v ===== *)
(** The adaptive scan planner: [os-manager/network/ScanPlanner.h] and
    [os-manager/network/AdaptiveScanPlanner.{h,cpp}].

    A [steady_clock] time point is a count of nanoseconds. The pointers
    [focusCandidates] collects are positions in [tuningStates]. The constructor's
    copy of the configuration, [Impl::config], and [config_] are one field. *)

From Stdlib Require Import ZArith Lia Bool String.
From stdpp Require Import base gmap option numbers list strings.
From S2P Require Import Prelude.
From S2P Require Import Scanner.

Set Default Goal Selector "!".

Import ScannerBand.

Record ScanStep := mkScanStep { ss_tuning : ScannerTuning; dwellMs : Z }.

Record StepObservation := mkStepObservation {
  step : ScanStep;
  sawTraffic : bool;
  radiosSeen : Z;
  newRadiosSeen : Z;
  strongestSignalDbm : option Z;
  observedChannels : list Z
}.

Module AdaptiveScanPlannerConfig.
Record t := mk {
  trackingDwellMs : Z;
  discoveryDwellMs : Z;
  minDwellMs : Z;
  maxDwellMs : Z;
  trackingStepsPerDiscovery : Z;
  trackingJitterMs : Z;
  discoveryJitterMs : Z;
  maxRevisitAgeMs : Z;
  rngSeed : Z
}.
Definition default : t := mk 150 250 100 300 3 10 20 3000 0x6d2b79f5.
End AdaptiveScanPlannerConfig.

Module AdaptiveScanPlanner.

Definition kWidth20Mhz : Z := 20.
Definition kWidth40Mhz : Z := 40.
Definition kWidth80Mhz : Z := 80.

Definition scannerTuningMatchesConfig (tuning : ScannerTuning) (config : ScannerAutoConfig.t) : bool :=
  bool_decide (band tuning = ScannerAutoConfig.band config)
  && (widthMhz tuning =? ScannerAutoConfig.widthMhz config).

Definition makeScannerTuning (band : ScannerBand.t) (primaryChannel widthMhz : Z) (centerChannel : option Z)
    : ScannerTuning := mkScannerTuning band primaryChannel widthMhz centerChannel.

(** One loop over the center channels of a width. *)
Fixpoint center_tunings (width : Z) (centers : list Z) : res (list ScannerTuning) :=
  match centers with
  | [] => Ok []
  | centerChannel :: centers' =>
      let! coveredChannels := scannerTuningCoveredPrimaryChannels
        (mkScannerTuning Band5Ghz centerChannel width (Some centerChannel)) in
      let! rest := center_tunings width centers' in
      match coveredChannels with
      | [] => Ok rest
      | front :: _ => Ok (makeScannerTuning Band5Ghz front width (Some centerChannel) :: rest)
      end
  end.

Definition supportedScannerTunings : res (list ScannerTuning) :=
  let band24Channels := scannerBandPrimaryChannels Band24Ghz in
  let band5Channels := scannerBandPrimaryChannels Band5Ghz in
  let band5Centers40 := scannerManualTargetChannels Band5Ghz kWidth40Mhz in
  let band5Centers80 := scannerManualTargetChannels Band5Ghz kWidth80Mhz in
  let! tunings40 := center_tunings kWidth40Mhz band5Centers40 in
  let! tunings80 := center_tunings kWidth80Mhz band5Centers80 in
  Ok (map (fun channel => makeScannerTuning Band24Ghz channel kWidth20Mhz None) band24Channels
      ++ map (fun channel => makeScannerTuning Band5Ghz channel kWidth20Mhz None) band5Channels
      ++ tunings40 ++ tunings80).

(** [duration_cast<milliseconds>] truncates. *)
Definition age_ms (timePoint now : Z) : Z := Z.quot (now - timePoint) 1000000.

Definition ageMsOrMax (timePoint : option Z) (now : Z) : Z :=
  match timePoint with None => 2 ^ 63 - 1 | Some t => age_ms t now end.

Record TuningState := mkTuningState {
  tuning : ScannerTuning;
  consecutiveEmptyVisits : Z;
  lastNewRadiosSeen : Z;
  lastObservedAt : option Z;
  lastVisitedAt : option Z;
  ts_strongestSignalDbm : option Z
}.

Record t := mk {
  config : AdaptiveScanPlannerConfig.t;
  autoConfig : ScannerAutoConfig.t;
  nextTrackingIndex : Z;
  tuningStates : list TuningState;
  stepsSinceDiscovery : Z;
  jitterState : Z
}.

Definition set_cursor (next steps : Z) (s : t) : t :=
  mk (config s) (autoConfig s) next (tuningStates s) steps (jitterState s).
Definition set_jitterState (j : Z) (s : t) : t :=
  mk (config s) (autoConfig s) (nextTrackingIndex s) (tuningStates s) (stepsSinceDiscovery s) j.
Definition set_tuningStates (states : list TuningState) (s : t) : t :=
  mk (config s) (autoConfig s) (nextTrackingIndex s) states (stepsSinceDiscovery s) (jitterState s).

Definition default_auto_config : ScannerAutoConfig.t := ScannerAutoConfig.mk Band5Ghz kWidth20Mhz.

(** [reset]: every state forgotten, its tuning kept. *)
Definition reset (s : t) : t :=
  mk (config s) default_auto_config 0
    (map (fun state => mkTuningState (tuning state) 0 0 None None None) (tuningStates s))
    (AdaptiveScanPlannerConfig.trackingStepsPerDiscovery (config s))
    (AdaptiveScanPlannerConfig.rngSeed (config s)).

Definition make (config : AdaptiveScanPlannerConfig.t) : res t :=
  let! tunings := supportedScannerTunings in
  Ok (reset (mk config default_auto_config 0
               (map (fun tuning => mkTuningState tuning 0 0 None None None) tunings) 0 0)).

Definition setAutoConfig (config : ScannerAutoConfig.t) (s : t) : t :=
  let band := ScannerAutoConfig.band config in
  let effectiveWidthMhz :=
    if scannerWidthSupported band (ScannerAutoConfig.widthMhz config)
    then ScannerAutoConfig.widthMhz config else scannerDefaultWidthMhz band in
  if bool_decide (ScannerAutoConfig.band (autoConfig s) = band)
     && (ScannerAutoConfig.widthMhz (autoConfig s) =? effectiveWidthMhz)
  then s
  else mk (AdaptiveScanPlanner.config s) (ScannerAutoConfig.mk band effectiveWidthMhz) 0 (tuningStates s)
         (AdaptiveScanPlannerConfig.trackingStepsPerDiscovery (AdaptiveScanPlanner.config s)) (jitterState s).

(** The position of the state of a tuning. *)
Definition tuningStateFor (s : t) (tuning : ScannerTuning) : res nat :=
  match list_find (fun state => ScannerTuning_eqb (AdaptiveScanPlanner.tuning state) tuning = true) (tuningStates s) with
  | Some (i, _) => Ok i
  | None => Fault NoMatch
  end.

(** A state that matches the configuration, and the positions of all of them. *)
Definition is_focus (s : t) (i : nat) : bool :=
  match tuningStates s !! i with
  | Some state => scannerTuningMatchesConfig (tuning state) (autoConfig s)
  | None => false
  end.

Definition focusCandidates (s : t) : list nat :=
  filter (fun i => is_focus s i = true) (seq 0 (length (tuningStates s))).

(** Whether the state a position points to has a tuning. *)
Definition has_tuning (s : t) (tuning : ScannerTuning) (i : nat) : bool :=
  match tuningStates s !! i with
  | Some state => ScannerTuning_eqb (AdaptiveScanPlanner.tuning state) tuning
  | None => false
  end.

Definition candidatePreferredForDiscovery (candidate currentBest : TuningState) (now : Z) : bool :=
  let candidateVisitedAgeMs := ageMsOrMax (lastVisitedAt candidate) now in
  let currentVisitedAgeMs := ageMsOrMax (lastVisitedAt currentBest) now in
  if negb (candidateVisitedAgeMs =? currentVisitedAgeMs)
  then currentVisitedAgeMs <? candidateVisitedAgeMs
  else if xorb (bool_decide (is_Some (lastObservedAt candidate))) (bool_decide (is_Some (lastObservedAt currentBest)))
  then negb (bool_decide (is_Some (lastObservedAt candidate)))
  else
    let candidateObservedAgeMs := ageMsOrMax (lastObservedAt candidate) now in
    let currentObservedAgeMs := ageMsOrMax (lastObservedAt currentBest) now in
    if negb (candidateObservedAgeMs =? currentObservedAgeMs)
    then currentObservedAgeMs <? candidateObservedAgeMs
    else if negb (consecutiveEmptyVisits candidate =? consecutiveEmptyVisits currentBest)
    then consecutiveEmptyVisits candidate <? consecutiveEmptyVisits currentBest
    else primaryChannel (tuning candidate) <? primaryChannel (tuning currentBest).

Definition overdue (maxRevisitAgeMs now : Z) (state : TuningState) : bool :=
  match lastVisitedAt state with None => false | Some visited => maxRevisitAgeMs <? age_ms visited now end.

Definition hasOverdueCandidate (now : Z) (s : t) : bool :=
  existsb (fun i => match tuningStates s !! i with
                    | Some state => overdue (AdaptiveScanPlannerConfig.maxRevisitAgeMs (config s)) now state
                    | None => false
                    end) (focusCandidates s).

(** [std::clamp], undefined for an empty interval. *)
Definition clamp (v lo hi : Z) : res Z :=
  if hi <? lo then Fault (Undefined "std::clamp of an empty interval")
  else Ok (if v <? lo then lo else if hi <? v then hi else v).

Definition jitteredDwellMs (baseDwellMs maxJitterMs : Z) (s : t) : res (Z * t) :=
  let state := u32 (u32 (jitterState s * 1664525) + 1013904223) in
  let! twice := int_result (maxJitterMs * 2) in
  let! span := int_result (twice + 1) in
  let! jitter := int_result (s32 (state mod u32 span) - maxJitterMs) in
  let! dwell := int_result (baseDwellMs + jitter) in
  let! dwell := clamp dwell (AdaptiveScanPlannerConfig.minDwellMs (config s))
                  (AdaptiveScanPlannerConfig.maxDwellMs (config s)) in
  Ok (dwell, set_jitterState state s).

(** The loop of [selectDiscoveryTuning] over the candidates. *)
Fixpoint best_loop (states : list TuningState) (now : Z) (candidates : list nat) (best : nat) : res nat :=
  match candidates with
  | [] => Ok best
  | candidate :: candidates' =>
      if bool_decide (candidate = best) then best_loop states now candidates' best
      else
        let! c := vec_get states (Z.of_nat candidate) in
        let! b := vec_get states (Z.of_nat best) in
        if candidatePreferredForDiscovery c b now then best_loop states now candidates' candidate
        else best_loop states now candidates' best
  end.

Definition selectDiscoveryTuning (now : Z) (s : t) : res ScannerTuning :=
  let candidates := focusCandidates s in
  let! first := vec_front candidates in
  let! best := best_loop (tuningStates s) now candidates first in
  let! state := vec_get (tuningStates s) (Z.of_nat best) in
  Ok (tuning state).

(** The remainder by an empty candidate list is undefined. *)
Definition size_rem (a n : Z) : res Z :=
  if n =? 0 then Fault (Undefined "division by zero") else Ok (a mod n).

Definition selectTrackingTuning (s : t) : res (ScannerTuning * t) :=
  let candidates := focusCandidates s in
  let size := Z.of_nat (length candidates) in
  let! index := size_rem (nextTrackingIndex s) size in
  let! candidate := vec_get candidates index in
  let! state := vec_get (tuningStates s) (Z.of_nat candidate) in
  let! next := size_rem (u64 (nextTrackingIndex s + 1)) size in
  Ok (tuning state, set_cursor next (stepsSinceDiscovery s) s).

Definition syncTrackingCursorAfterTuning (tuning : ScannerTuning) (s : t) : res t :=
  let candidates := focusCandidates s in
  match list_find (fun i => has_tuning s tuning i = true) candidates with
  | None => Ok (set_cursor 0 (stepsSinceDiscovery s) s)
  | Some (position, _) =>
      let! next := size_rem (Z.of_nat position + 1) (Z.of_nat (length candidates)) in
      Ok (set_cursor next (stepsSinceDiscovery s) s)
  end.

Definition nextStep (now : Z) (s : t) : res (ScanStep * t) :=
  let shouldForceDiscovery := hasOverdueCandidate now s in
  let shouldUseDiscovery :=
    shouldForceDiscovery
    || (AdaptiveScanPlannerConfig.trackingStepsPerDiscovery (config s) <=? stepsSinceDiscovery s) in
  let! '(tuning, s) :=
    if shouldUseDiscovery then let! tuning := selectDiscoveryTuning now s in Ok (tuning, s)
    else selectTrackingTuning s in
  let! s :=
    if shouldUseDiscovery
    then syncTrackingCursorAfterTuning tuning (set_cursor (nextTrackingIndex s) 0 s)
    else let! steps := int_result (stepsSinceDiscovery s + 1) in
         Ok (set_cursor (nextTrackingIndex s) steps s) in
  let! '(dwell, s) :=
    if shouldUseDiscovery
    then jitteredDwellMs (AdaptiveScanPlannerConfig.discoveryDwellMs (config s))
           (AdaptiveScanPlannerConfig.discoveryJitterMs (config s)) s
    else jitteredDwellMs (AdaptiveScanPlannerConfig.trackingDwellMs (config s))
           (AdaptiveScanPlannerConfig.trackingJitterMs (config s)) s in
  Ok (mkScanStep tuning dwell, s).

Definition recordObservation (observation : StepObservation) (now : Z) (s : t) : res t :=
  let! i := tuningStateFor s (ss_tuning (step observation)) in
  let! state := vec_get (tuningStates s) (Z.of_nat i) in
  let! state :=
    if sawTraffic observation then
      Ok (mkTuningState (tuning state) 0 (newRadiosSeen observation) (Some now) (Some now)
            (strongestSignalDbm observation))
    else
      let! visits := int_result (consecutiveEmptyVisits state + 1) in
      Ok (mkTuningState (tuning state) visits 0 (lastObservedAt state) (Some now)
            (ts_strongestSignalDbm state)) in
  let! states := vec_set (tuningStates s) (Z.of_nat i) state in
  Ok (set_tuningStates states s).

End AdaptiveScanPlanner.
