(* ===== verification/ScanPlannerFacts.v ===== *)
(** The scan planner never fails, stays on the configured band and width, keeps
    its dwell times in range, and visits every tuning it has to. *)

From Stdlib Require Import ZArith Lia Bool String.
From stdpp Require Import base gmap option numbers list strings.
From S2P Require Import Prelude.
From S2P Require Import Scanner.
From S2P Require Import ScanPlanner.

Set Default Goal Selector "!".

Import ScannerBand.
Import AdaptiveScanPlanner.

(** ** The supported tunings *)
Definition all_tunings : list ScannerTuning :=
  match supportedScannerTunings with Ok l => l | Fault _ => [] end.

Lemma supported_ok : supportedScannerTunings = Ok all_tunings.
Proof. reflexivity. Qed.

Lemma all_tunings_nodup : NoDup all_tunings.
Proof. apply (bool_decide_unpack _). vm_compute. exact I. Qed.

Lemma ScannerTuning_eqb_eq a b : ScannerTuning_eqb a b = true <-> a = b.
Proof.
  unfold ScannerTuning_eqb. rewrite !andb_true_iff, !bool_decide_eq_true, !Z.eqb_eq.
  destruct a, b; simpl. split; [by intros [[[-> ->] ->] ->] | by intros [= -> -> -> ->]].
Qed.

Definition config_supported (ac : ScannerAutoConfig.t) : Prop :=
  scannerWidthSupported (ScannerAutoConfig.band ac) (ScannerAutoConfig.widthMhz ac) = true.

(** The tunings of a configuration, and their positions. *)
Definition focus_tunings (ac : ScannerAutoConfig.t) : list ScannerTuning :=
  filter (fun t => scannerTuningMatchesConfig t ac = true) all_tunings.

Definition focus_positions (ac : ScannerAutoConfig.t) : list nat :=
  filter (fun i => match all_tunings !! i with Some t => scannerTuningMatchesConfig t ac | None => false end = true)
    (seq 0 (length all_tunings)).

Lemma focus_positions_pos ac : config_supported ac -> (0 < length (focus_positions ac) < 64)%nat.
Proof.
  destruct ac as [[] w]; unfold config_supported; cbn [ScannerAutoConfig.band ScannerAutoConfig.widthMhz scannerWidthSupported].
  - intros ->%Z.eqb_eq. vm_compute. lia.
  - rewrite !orb_true_iff, !Z.eqb_eq. intros [[-> | ->] | ->]; vm_compute; lia.
Qed.

Lemma focus_positions_length ac :
  config_supported ac -> length (focus_positions ac) = length (focus_tunings ac).
Proof.
  destruct ac as [[] w]; unfold config_supported; cbn [ScannerAutoConfig.band ScannerAutoConfig.widthMhz scannerWidthSupported].
  - intros ->%Z.eqb_eq. reflexivity.
  - rewrite !orb_true_iff, !Z.eqb_eq. intros [[-> | ->] | ->]; reflexivity.
Qed.

Lemma elem_of_focus_positions ac i :
  i ∈ focus_positions ac <-> exists t, all_tunings !! i = Some t /\ scannerTuningMatchesConfig t ac = true.
Proof.
  unfold focus_positions. rewrite list_elem_of_filter, elem_of_seq. split.
  - intros [H _]. destruct (all_tunings !! i); [eauto | done].
  - intros (t & Ht & Hm). rewrite Ht. split; [done |]. apply lookup_lt_Some in Ht. lia.
Qed.

Lemma focus_positions_nodup ac : NoDup (focus_positions ac).
Proof. apply NoDup_filter, NoDup_seq. Qed.

(** ** The invariant *)
Record config_ok (cfg : AdaptiveScanPlannerConfig.t) : Prop := {
  co_tracking : - 2 ^ 30 <= AdaptiveScanPlannerConfig.trackingDwellMs cfg < 2 ^ 30;
  co_discovery : - 2 ^ 30 <= AdaptiveScanPlannerConfig.discoveryDwellMs cfg < 2 ^ 30;
  co_interval : AdaptiveScanPlannerConfig.minDwellMs cfg <= AdaptiveScanPlannerConfig.maxDwellMs cfg;
  co_steps : - 2 ^ 31 <= AdaptiveScanPlannerConfig.trackingStepsPerDiscovery cfg < 2 ^ 31;
  co_tracking_jitter : 0 <= AdaptiveScanPlannerConfig.trackingJitterMs cfg < 2 ^ 30;
  co_discovery_jitter : 0 <= AdaptiveScanPlannerConfig.discoveryJitterMs cfg < 2 ^ 30
}.

Section Planner.
Context (cfg : AdaptiveScanPlannerConfig.t) (Hcfg : config_ok cfg).

Abbreviation T := (AdaptiveScanPlannerConfig.trackingStepsPerDiscovery cfg).

(** [rounds] bounds the observations recorded so far. *)
Record planner_inv (rounds : Z) (s : t) : Prop := {
  pi_config : config s = cfg;
  pi_tunings : map tuning (tuningStates s) = all_tunings;
  pi_auto : config_supported (autoConfig s);
  pi_cursor : 0 <= nextTrackingIndex s < Z.of_nat (length (focus_positions (autoConfig s)));
  pi_steps : Z.min 0 T <= stepsSinceDiscovery s <= Z.max 0 T;
  pi_empty : Forall (fun state => 0 <= consecutiveEmptyVisits state <= rounds) (tuningStates s)
}.

Lemma state_tuning s rounds i state :
  planner_inv rounds s -> tuningStates s !! i = Some state -> all_tunings !! i = Some (tuning state).
Proof. intros H Hi. rewrite <- (pi_tunings _ _ H), list_lookup_fmap. by rewrite Hi. Qed.

Lemma tuning_state s rounds i x :
  planner_inv rounds s -> all_tunings !! i = Some x ->
  exists state, tuningStates s !! i = Some state /\ tuning state = x.
Proof.
  intros H Hi. rewrite <- (pi_tunings _ _ H), list_lookup_fmap in Hi.
  destruct (tuningStates s !! i) as [state |]; [| done]. injection Hi as <-. eauto.
Qed.

Lemma focusCandidates_ok s rounds : planner_inv rounds s -> focusCandidates s = focus_positions (autoConfig s).
Proof.
  intros H. unfold focusCandidates, focus_positions.
  assert (length (tuningStates s) = length all_tunings) as -> by (rewrite <- (pi_tunings _ _ H); by rewrite length_map).
  apply list_filter_iff. intros i. unfold is_focus. rewrite <- (pi_tunings _ _ H), list_lookup_fmap.
  by destruct (tuningStates s !! i).
Qed.

(** ** Jitter *)
Lemma jitteredDwellMs_ok base jitter s :
  config s = cfg -> - 2 ^ 30 <= base < 2 ^ 30 -> 0 <= jitter < 2 ^ 30 ->
  exists dwell j, jitteredDwellMs base jitter s = Ok (dwell, set_jitterState j s) /\
    AdaptiveScanPlannerConfig.minDwellMs cfg <= dwell <= AdaptiveScanPlannerConfig.maxDwellMs cfg.
Proof.
  intros Ec Hb Hj. unfold jitteredDwellMs. set (j := u32 (_ + _)). rewrite Ec.
  rewrite int_result_ok by lia. cbn [rbind]. rewrite int_result_ok by lia. cbn [rbind].
  rewrite (wrap_u_small 32 (jitter * 2 + 1)) by lia.
  pose proof (Z.mod_pos_bound j (jitter * 2 + 1)) as Hm.
  rewrite wrap_s_small by lia. rewrite int_result_ok by lia. cbn [rbind].
  rewrite int_result_ok by lia. cbn [rbind]. pose proof (co_interval _ Hcfg). unfold clamp.
  rewrite (proj2 (Z.ltb_ge _ _)) by lia. cbn [rbind]. eexists _, j. split; [done |].
  repeat case_match; lia.
Qed.

(** ** Discovery *)
Definition visit_age (s : t) (now : Z) (i : nat) : Z :=
  match tuningStates s !! i with Some state => ageMsOrMax (lastVisitedAt state) now | None => 0 end.

Lemma preferred_age c b now :
  candidatePreferredForDiscovery c b now = true ->
  ageMsOrMax (lastVisitedAt b) now <= ageMsOrMax (lastVisitedAt c) now.
Proof.
  unfold candidatePreferredForDiscovery.
  destruct (Z.eqb_spec (ageMsOrMax (lastVisitedAt c) now) (ageMsOrMax (lastVisitedAt b) now)); cbn [negb]; lia.
Qed.

Lemma not_preferred_age c b now :
  candidatePreferredForDiscovery c b now = false ->
  ageMsOrMax (lastVisitedAt c) now <= ageMsOrMax (lastVisitedAt b) now.
Proof.
  unfold candidatePreferredForDiscovery.
  destruct (Z.eqb_spec (ageMsOrMax (lastVisitedAt c) now) (ageMsOrMax (lastVisitedAt b) now)); cbn [negb]; lia.
Qed.

Lemma best_loop_ok s now candidates best :
  (forall i, i ∈ best :: candidates -> is_Some (tuningStates s !! i)) ->
  exists i, best_loop (tuningStates s) now candidates best = Ok i /\ i ∈ best :: candidates /\
    forall j, j ∈ best :: candidates -> visit_age s now j <= visit_age s now i.
Proof.
  revert best. induction candidates as [|c candidates IH]; intros best Hin; cbn [best_loop].
  - exists best. split; [done |]. split; [by left |]. intros j Hj.
    apply list_elem_of_singleton in Hj as ->. lia.
  - case_bool_decide as Hc.
    + subst c. destruct (IH best) as (i & -> & Hi & Hmax); [set_solver |].
      exists i. split; [done |]. split; [set_solver |]. intros j Hj. apply Hmax. set_solver.
    + destruct (Hin c) as [sc Hsc]; [set_solver |]. destruct (Hin best) as [sb Hsb]; [set_solver |].
      rewrite (vec_get_ok _ (Z.of_nat c) sc), (vec_get_ok _ (Z.of_nat best) sb) by (rewrite ?Nat2Z.id; lia || done).
      cbn [rbind]. destruct (candidatePreferredForDiscovery sc sb now) eqn:Hp.
      * apply preferred_age in Hp. destruct (IH c) as (i & -> & Hi & Hmax); [set_solver |].
        exists i. split; [done |]. split; [set_solver |]. intros j Hj.
        apply elem_of_cons in Hj as [-> | Hj]; [| by apply Hmax].
        pose proof (Hmax c ltac:(by left)) as Hc'. unfold visit_age in *. rewrite Hsb. rewrite Hsc in Hc'. lia.
      * apply not_preferred_age in Hp. destruct (IH best) as (i & -> & Hi & Hmax); [set_solver |].
        exists i. split; [done |]. split; [set_solver |]. intros j Hj.
        pose proof (Hmax best ltac:(by left)) as Hb'.
        apply elem_of_cons in Hj as [-> | Hj]; [done |]. apply elem_of_cons in Hj as [-> | Hj].
        -- unfold visit_age in *. rewrite Hsc. rewrite Hsb in Hb'. lia.
        -- apply Hmax. by right.
Qed.

Lemma selectDiscoveryTuning_ok s rounds now :
  planner_inv rounds s ->
  exists i x, selectDiscoveryTuning now s = Ok x /\ i ∈ focus_positions (autoConfig s) /\
    all_tunings !! i = Some x /\
    forall j, j ∈ focus_positions (autoConfig s) -> visit_age s now j <= visit_age s now i.
Proof.
  intros H. unfold selectDiscoveryTuning. rewrite (focusCandidates_ok s rounds H).
  destruct (focus_positions (autoConfig s)) as [|first rest] eqn:Ef.
  { pose proof (focus_positions_pos _ (pi_auto _ _ H)) as Hpos. rewrite Ef in Hpos. simpl in Hpos. lia. }
  cbn [vec_front rbind].
  assert (forall i, i ∈ first :: rest -> is_Some (tuningStates s !! i)) as Hin.
  { intros i Hi. rewrite <- Ef in Hi. apply elem_of_focus_positions in Hi as (x & Hx & _).
    destruct (tuning_state s rounds i x H Hx) as (state & -> & _). eauto. }
  destruct (best_loop_ok s now (first :: rest) first) as (i & -> & Hi & Hmax).
  { intros i Hi. apply Hin. apply elem_of_cons in Hi as [-> | Hi]; [by left | done]. }
  cbn [rbind]. assert (i ∈ first :: rest) as Hi' by (apply elem_of_cons in Hi as [-> | Hi]; [by left | done]).
  destruct (Hin i Hi') as [state Hs]. rewrite (vec_get_ok _ _ state) by (rewrite ?Nat2Z.id; lia || done).
  cbn [rbind]. exists i, (tuning state). split; [done |]. split; [done |].
  split; [by apply (state_tuning s rounds) |]. intros j Hj. apply Hmax. by right.
Qed.

(** ** Tracking *)
Lemma selectTrackingTuning_ok s rounds :
  planner_inv rounds s ->
  exists i x next, selectTrackingTuning s = Ok (x, set_cursor next (stepsSinceDiscovery s) s) /\
    i ∈ focus_positions (autoConfig s) /\ all_tunings !! i = Some x /\
    0 <= next < Z.of_nat (length (focus_positions (autoConfig s))).
Proof.
  intros H. unfold selectTrackingTuning. rewrite (focusCandidates_ok s rounds H).
  pose proof (focus_positions_pos _ (pi_auto _ _ H)) as Hpos. pose proof (pi_cursor _ _ H) as Hc.
  unfold size_rem. rewrite (proj2 (Z.eqb_neq _ 0)) by lia. cbn [rbind]. rewrite Z.mod_small by lia.
  destruct (in_range_lookup (focus_positions (autoConfig s)) (nextTrackingIndex s)) as [i Hi]; [lia |].
  rewrite (vec_get_ok _ _ i) by (lia || done). cbn [rbind].
  pose proof (list_elem_of_lookup_2 _ _ _ Hi) as Hin. pose proof Hin as Hin'.
  apply elem_of_focus_positions in Hin' as (x & Hx & _).
  destruct (tuning_state s rounds i x H Hx) as (state & Hs & Ht).
  rewrite (vec_get_ok _ _ state) by (rewrite ?Nat2Z.id; lia || done). cbn [rbind].
  eexists i, x, _. rewrite Ht. split; [done |]. split; [done |]. split; [done |].
  apply Z.mod_pos_bound. lia.
Qed.

Lemma sync_ok s rounds x :
  planner_inv rounds s ->
  exists next, syncTrackingCursorAfterTuning x s = Ok (set_cursor next (stepsSinceDiscovery s) s) /\
    0 <= next < Z.of_nat (length (focus_positions (autoConfig s))).
Proof.
  intros H. unfold syncTrackingCursorAfterTuning. rewrite (focusCandidates_ok s rounds H).
  pose proof (focus_positions_pos _ (pi_auto _ _ H)) as Hpos.
  destruct (list_find _ _) as [[position i] |].
  - unfold size_rem. rewrite (proj2 (Z.eqb_neq _ 0)) by lia. cbn [rbind]. eexists. split; [done |].
    apply Z.mod_pos_bound. lia.
  - exists 0. split; [done | lia].
Qed.

(** ** One step *)

(** What a step does: the tuning at position [i] of the candidates, chosen by
    discovery as the least recently visited one, or by tracking. *)
Definition step_of (s s' : t) (now : Z) (i : nat) : Prop :=
  i ∈ focus_positions (autoConfig s) /\
  ((stepsSinceDiscovery s' = 0 /\
    forall j, j ∈ focus_positions (autoConfig s) -> visit_age s now j <= visit_age s now i) \/
   (stepsSinceDiscovery s < T /\ stepsSinceDiscovery s' = stepsSinceDiscovery s + 1)).

Lemma planner_inv_cursor rounds s next steps j :
  planner_inv rounds s -> 0 <= next < Z.of_nat (length (focus_positions (autoConfig s))) ->
  Z.min 0 T <= steps <= Z.max 0 T ->
  planner_inv rounds (set_jitterState j (set_cursor next steps s)).
Proof. intros H Hn Hs. by destruct H. Qed.

Lemma nextStep_ok s rounds now :
  planner_inv rounds s ->
  exists st s' i, nextStep now s = Ok (st, s') /\ planner_inv rounds s' /\
    tuningStates s' = tuningStates s /\ autoConfig s' = autoConfig s /\
    all_tunings !! i = Some (ss_tuning st) /\ step_of s s' now i /\
    AdaptiveScanPlannerConfig.minDwellMs cfg <= dwellMs st <= AdaptiveScanPlannerConfig.maxDwellMs cfg.
Proof.
  intros H. pose proof (pi_config _ _ H) as Ec. pose proof (pi_steps _ _ H) as Hst. unfold nextStep. rewrite Ec.
  destruct (hasOverdueCandidate now s || (T <=? stepsSinceDiscovery s)) eqn:Hd.
  - destruct (selectDiscoveryTuning_ok s rounds now H) as (i & x & -> & Hi & Hx & Hmax). cbn [rbind].
    assert (planner_inv rounds (set_cursor (nextTrackingIndex s) 0 s)) as H0.
    { destruct H. split; try done. simpl. lia. }
    destruct (sync_ok _ rounds x H0) as (next & -> & Hn). cbn [rbind].
    match goal with |- context [jitteredDwellMs (_ (config ?x))] => change (config x) with (config s) end.
    rewrite Ec. edestruct (jitteredDwellMs_ok (AdaptiveScanPlannerConfig.discoveryDwellMs cfg)
      (AdaptiveScanPlannerConfig.discoveryJitterMs cfg)) as (dwell & j & -> & Hdw); [done | apply Hcfg | apply Hcfg |].
    cbn [rbind]. eexists _, _, i. split; [done |]. split.
    { apply planner_inv_cursor; [done | done | simpl; lia]. }
    repeat (split; [done |]). split; [split; [done | by left] | done].
  - apply orb_false_iff in Hd as [_ Hd]. apply Z.leb_gt in Hd.
    destruct (selectTrackingTuning_ok s rounds H) as (i & x & next & -> & Hi & Hx & Hn). cbn [rbind].
    cbn [set_cursor stepsSinceDiscovery]. pose proof (co_steps _ Hcfg).
    rewrite int_result_ok by lia. cbn [rbind].
    match goal with |- context [jitteredDwellMs (_ (config ?x))] => change (config x) with (config s) end.
    rewrite Ec. edestruct (jitteredDwellMs_ok (AdaptiveScanPlannerConfig.trackingDwellMs cfg)
      (AdaptiveScanPlannerConfig.trackingJitterMs cfg)) as (dwell & j & -> & Hdw); [done | apply Hcfg | apply Hcfg |].
    cbn [rbind]. eexists _, _, i. split; [done |]. split.
    { apply (planner_inv_cursor rounds s); [done | done | lia]. }
    repeat (split; [done |]). split; [split; [done | by right] | done].
Qed.

(** ** One observation *)
Lemma recordObservation_ok s rounds now observation i :
  planner_inv rounds s -> rounds < 2 ^ 31 - 1 -> all_tunings !! i = Some (ss_tuning (step observation)) ->
  exists state, recordObservation observation now s = Ok (set_tuningStates (<[i := state]> (tuningStates s)) s) /\
    planner_inv (rounds + 1) (set_tuningStates (<[i := state]> (tuningStates s)) s) /\
    lastVisitedAt state = Some now /\ (i < length (tuningStates s))%nat.
Proof.
  intros H Hr Hi. destruct (tuning_state s rounds i _ H Hi) as (st & Hs & Ht).
  pose proof (lookup_lt_Some _ _ _ Hs) as Hlt. unfold recordObservation, tuningStateFor.
  destruct (list_find _ (tuningStates s)) as [[k sk] |] eqn:Hf.
  2: { apply list_find_None in Hf. rewrite Forall_lookup in Hf. exfalso. apply (Hf i st Hs).
       by apply ScannerTuning_eqb_eq. }
  apply list_find_Some in Hf as (Hk & Hek & _). apply ScannerTuning_eqb_eq in Hek.
  assert (k = i) as ->.
  { pose proof (state_tuning s rounds k sk H Hk) as Hk'. rewrite Hek in Hk'.
    by eapply NoDup_lookup; [apply all_tunings_nodup | |]. }
  cbn [rbind]. rewrite (vec_get_ok _ _ st) by (rewrite ?Nat2Z.id; lia || done). cbn [rbind].
  pose proof (pi_empty _ _ H) as He. rewrite Forall_lookup in He. specialize (He i st Hs) as Hei.
  assert (forall state, tuning state = tuning st -> 0 <= consecutiveEmptyVisits state <= rounds + 1 ->
    planner_inv (rounds + 1) (set_tuningStates (<[i := state]> (tuningStates s)) s)) as Hinv.
  { intros state Est Hc. destruct H as [Ec Em Ha Hcu Hst _]. split; try done; simpl.
    - rewrite list_fmap_insert, Est. rewrite <- Em. apply list_insert_id. by rewrite list_lookup_fmap, Hs.
    - apply Forall_insert; [| done]. apply Forall_lookup. intros j sj Hj. specialize (He j sj Hj). simpl in *. lia. }
  destruct (sawTraffic observation).
  - cbn [rbind]. rewrite vec_set_ok by lia. rewrite Nat2Z.id. cbn [rbind]. eexists. split; [done |].
    split; [| by split]. apply Hinv; [done | simpl; lia].
  - rewrite int_result_ok by (simpl in Hei; lia). cbn [rbind]. rewrite vec_set_ok by lia. rewrite Nat2Z.id. cbn [rbind].
    eexists. split; [done |]. split; [| by split]. apply Hinv; [done | simpl in *; lia].
Qed.

(** ** Configuration and restart *)
Definition effective (c : ScannerAutoConfig.t) : ScannerAutoConfig.t :=
  ScannerAutoConfig.mk (ScannerAutoConfig.band c)
    (if scannerWidthSupported (ScannerAutoConfig.band c) (ScannerAutoConfig.widthMhz c)
     then ScannerAutoConfig.widthMhz c else 20).

Lemma setAutoConfig_ok s rounds c :
  planner_inv rounds s ->
  planner_inv rounds (setAutoConfig c s) /\ autoConfig (setAutoConfig c s) = effective c /\
  tuningStates (setAutoConfig c s) = tuningStates s.
Proof.
  intros H. unfold setAutoConfig.
  change (if scannerWidthSupported (ScannerAutoConfig.band c) (ScannerAutoConfig.widthMhz c)
          then ScannerAutoConfig.widthMhz c else scannerDefaultWidthMhz (ScannerAutoConfig.band c))
    with (ScannerAutoConfig.widthMhz (effective c)).
  destruct (bool_decide _ && _) eqn:E.
  - apply andb_true_iff in E as [Eb%bool_decide_eq_true Ew%Z.eqb_eq]. split; [done |]. split; [| done].
    destruct (autoConfig s) as [b w]. simpl in *. by subst.
  - split; [| done]. rewrite (pi_config _ _ H).
    assert (config_supported (effective c)) as Hsup.
    { unfold config_supported. simpl. destruct (scannerWidthSupported (ScannerAutoConfig.band c) (ScannerAutoConfig.widthMhz c)) eqn:Ew;
        [done | by destruct (ScannerAutoConfig.band c)]. }
    pose proof (focus_positions_pos _ Hsup) as [Hpos _]. destruct H as [Ec Em Ha Hcu Hst He].
    split; try done; [split; [done | exact (inj_lt 0 _ Hpos)] | cbn [stepsSinceDiscovery]; lia].
Qed.

Lemma reset_inv s rounds : 0 <= rounds -> planner_inv rounds s -> planner_inv rounds (reset s).
Proof.
  intros Hr [Ec Em Ha Hcu Hst He]. split; simpl; try done.
  - by rewrite map_map.
  - rewrite Ec. lia.
  - apply Forall_map, Forall_true. intros x. simpl. lia.
Qed.

Lemma planner_make_ok : exists s, make cfg = Ok s /\ planner_inv 0 s /\ autoConfig s = default_auto_config /\
  Forall (fun state => lastVisitedAt state = None) (tuningStates s).
Proof.
  unfold make. rewrite supported_ok. cbn [rbind]. eexists. split; [done |].
  split; [| split; [done |]; cbn [reset tuningStates]; by apply Forall_map, Forall_true].
  split; cbn [reset tuningStates stepsSinceDiscovery config]; try done; [lia |].
  apply Forall_map, Forall_true. intros x. simpl. lia.
Qed.
End Planner.
