(* ===== verification/ScanPlannerRounds.v ===== *)
(** Runs of the scan planner: it never fails, and it visits every tuning. *)

From Stdlib Require Import ZArith Lia Bool String.
From stdpp Require Import base gmap option numbers list strings.
From S2P Require Import Prelude.
From S2P Require Import Scanner.
From S2P Require Import ScanPlanner.
From S2P Require Import ScanPlannerFacts.

Set Default Goal Selector "!".

Import ScannerBand.
Import AdaptiveScanPlanner.

(** ** Runs

    What the scanner service does with a planner: it configures or resets it, or
    asks for a step and, when the dwell time is over, records what it saw. *)
Inductive event :=
| Configure (c : ScannerAutoConfig.t)
| Restart
| Round (asked recorded : Z) (seen : StepObservation).

Definition with_step (st : ScanStep) (seen : StepObservation) : StepObservation :=
  mkStepObservation st (sawTraffic seen) (radiosSeen seen) (newRadiosSeen seen)
    (strongestSignalDbm seen) (observedChannels seen).

Definition run_round (asked recorded : Z) (seen : StepObservation) (s : t) : res (ScanStep * t) :=
  let! '(st, s) := nextStep asked s in
  let! s := recordObservation (with_step st seen) recorded s in
  Ok (st, s).

(** The steps of a run and the final state. *)
Fixpoint run (events : list event) (s : t) : res (list ScanStep * t) :=
  match events with
  | [] => Ok ([], s)
  | Configure c :: events' => run events' (setAutoConfig c s)
  | Restart :: events' => run events' (reset s)
  | Round asked recorded seen :: events' =>
      let! '(st, s) := run_round asked recorded seen s in
      let! '(steps, s) := run events' s in
      Ok (st :: steps, s)
  end.

Definition is_round (e : event) : bool := match e with Round _ _ _ => true | _ => false end.
Definition rounds_of (events : list event) : Z := Z.of_nat (length (List.filter is_round events)).

(** The configuration in force after an event, and at each round of a run. *)
Definition config_after (ac : ScannerAutoConfig.t) (e : event) : ScannerAutoConfig.t :=
  match e with
  | Configure c => effective c
  | Restart => default_auto_config
  | Round _ _ _ => ac
  end.

Fixpoint round_configs (ac : ScannerAutoConfig.t) (events : list event) : list ScannerAutoConfig.t :=
  match events with
  | [] => []
  | e :: events' =>
      let rest := round_configs (config_after ac e) events' in
      if is_round e then ac :: rest else rest
  end.

Section Runs.
Context (cfg : AdaptiveScanPlannerConfig.t) (Hcfg : config_ok cfg).

Abbreviation T := (AdaptiveScanPlannerConfig.trackingStepsPerDiscovery cfg).

Lemma planner_reset_ok s rounds :
  0 <= rounds -> planner_inv cfg rounds s ->
  planner_inv cfg rounds (reset s) /\ Forall (fun state => lastVisitedAt state = None) (tuningStates (reset s)).
Proof.
  intros Hr H. split; [by apply reset_inv |]. cbn [reset tuningStates]. by apply Forall_map, Forall_true.
Qed.

(** A round: a step of the candidates, whose visit is then recorded. *)
Lemma run_round_ok s rounds asked recorded seen :
  planner_inv cfg rounds s -> rounds < 2 ^ 31 - 1 ->
  exists st s' i state, run_round asked recorded seen s = Ok (st, s') /\ planner_inv cfg (rounds + 1) s' /\
    autoConfig s' = autoConfig s /\ all_tunings !! i = Some (ss_tuning st) /\
    tuningStates s' = <[i := state]> (tuningStates s) /\ lastVisitedAt state = Some recorded /\
    (i < length (tuningStates s))%nat /\ step_of cfg s s' asked i /\
    AdaptiveScanPlannerConfig.minDwellMs cfg <= dwellMs st <= AdaptiveScanPlannerConfig.maxDwellMs cfg.
Proof.
  intros H Hr. unfold run_round.
  destruct (nextStep_ok cfg Hcfg s rounds asked H) as (st & s1 & i & -> & H1 & Et & Ea & Hi & Hstep & Hd).
  cbn [rbind]. destruct (recordObservation_ok cfg s1 rounds recorded (with_step st seen) i H1 Hr Hi)
    as (state & -> & H2 & Hv & Hlt). cbn [rbind].
  eexists st, _, i, state. split; [done |]. split; [done |]. split; [done |]. split; [done |].
  cbn [set_tuningStates tuningStates]. rewrite Et in *. by repeat (split; [done |]).
Qed.

(** The step of a round, against the configuration in force. *)
Definition step_ok (ac : ScannerAutoConfig.t) (st : ScanStep) : Prop :=
  ss_tuning st ∈ all_tunings /\ scannerTuningMatchesConfig (ss_tuning st) ac = true /\
  AdaptiveScanPlannerConfig.minDwellMs cfg <= dwellMs st <= AdaptiveScanPlannerConfig.maxDwellMs cfg.

Lemma run_ok events : forall s rounds,
  planner_inv cfg rounds s -> 0 <= rounds -> rounds + rounds_of events < 2 ^ 31 ->
  exists steps s', run events s = Ok (steps, s') /\ planner_inv cfg (rounds + rounds_of events) s' /\
    autoConfig s' = fold_left config_after events (autoConfig s) /\
    Forall2 step_ok (round_configs (autoConfig s) events) steps.
Proof.
  induction events as [|e events IH]; intros s rounds H Hr Hn; cbn [run].
  - exists [], s. split; [done |]. split; [by rewrite Z.add_0_r | by split; [| constructor]].
  - unfold rounds_of in *. destruct e as [c | | asked recorded seen]; cbn [List.filter is_round] in *.
    + destruct (setAutoConfig_ok cfg s rounds c H) as (H1 & Ea & _).
      destruct (IH _ rounds H1 Hr Hn) as (steps & s' & -> & H' & Ec & Hs). exists steps, s'.
      rewrite Ea in Ec, Hs. done.
    + destruct (planner_reset_ok s rounds Hr H) as [H1 _].
      destruct (IH _ rounds H1 Hr Hn) as (steps & s' & -> & H' & Ec & Hs). by exists steps, s'.
    + destruct (run_round_ok s rounds asked recorded seen H) as (st & s1 & i & state & -> & H1 & Ea & Hi & _ & _ & _ & Hst & Hd);
        [cbn [length] in Hn; lia |]. cbn [rbind].
      destruct (IH s1 (rounds + 1) H1) as (steps & s' & -> & H' & Ec & Hs); [lia | cbn [length] in Hn; lia |].
      cbn [rbind]. exists (st :: steps), s'. split; [done |]. split.
      { by replace (rounds + Z.of_nat (length (Round asked recorded seen :: List.filter is_round events)))
          with (rounds + 1 + Z.of_nat (length (List.filter is_round events))) by (cbn [length]; lia). }
      rewrite Ea in Ec, Hs. split; [done |]. cbn [round_configs is_round]. constructor; [| done].
      split; [by eapply list_elem_of_lookup_2 |]. split; [| done].
      destruct Hst as [Hin _]. apply elem_of_focus_positions in Hin as (x & Hx & Hm). congruence.
Qed.
End Runs.

(** With non-negative jitter, dwell times an [int] holds and a non-empty dwell
    interval, no sequence of configurations, resets and rounds (fewer than [2^31]
    of them, since each may count one more empty visit) makes the planner fault:
    no empty candidate list, no unknown tuning, no overflow. Every step it gives
    is a supported tuning of exactly the band and width in force, a width that is
    not supported being replaced by 20 MHz, and its dwell time is within the
    configured bounds. *)
Lemma planner_total cfg events :
  config_ok cfg -> rounds_of events < 2 ^ 31 ->
  wp (let! s := make cfg in run events s) (fun '(steps, s) =>
    autoConfig s = fold_left config_after events default_auto_config /\
    Forall2 (step_ok cfg) (round_configs default_auto_config events) steps).
Proof.
  intros Hcfg Hn. destruct (planner_make_ok cfg) as (s & -> & H & Ea & _). cbn [rbind].
  destruct (run_ok cfg Hcfg events s 0 H) as (steps & s' & -> & _ & Ec & Hs); [lia | lia |].
  simpl. by rewrite <- Ea.
Qed.

Lemma planner_default_ok : config_ok AdaptiveScanPlannerConfig.default.
Proof. by split. Qed.

Definition quiet : StepObservation :=
  mkStepObservation (mkScanStep (mkScannerTuning Band5Ghz 36 20 None) 0) false 0 0 None [].

Lemma planner_total_witness :
  wp (let! s := make AdaptiveScanPlannerConfig.default in
      run [Configure (ScannerAutoConfig.mk Band5Ghz 80); Round 0 200000000 quiet; Round 200000000 400000000 quiet] s)
    (fun '(steps, s) =>
      autoConfig s = ScannerAutoConfig.mk Band5Ghz 80 /\
      Forall2 (step_ok AdaptiveScanPlannerConfig.default)
        [ScannerAutoConfig.mk Band5Ghz 80; ScannerAutoConfig.mk Band5Ghz 80] steps).
Proof.
  apply (planner_total AdaptiveScanPlannerConfig.default
    [Configure (ScannerAutoConfig.mk Band5Ghz 80); Round 0 200000000 quiet; Round 200000000 400000000 quiet]).
  - exact planner_default_ok.
  - reflexivity.
Defined.

(** ** Fairness *)

(** Times of a run: a steady clock, and rounds that last a millisecond at least. *)
Fixpoint timed (last : Z) (events : list event) : Prop :=
  match events with
  | [] => True
  | Round asked recorded _ :: events' =>
      last <= asked <= recorded /\ last + 1000000 <= recorded < 2 ^ 63 /\ timed recorded events'
  | _ :: events' => timed last events'
  end.

Definition visited (s : t) (i : nat) : option Z := tuningStates s !! i ≫= lastVisitedAt.

(** Position [j] was visited at least a millisecond after position [c]. *)
Definition newer (s : t) (c j : nat) : bool :=
  match visited s j, visited s c with
  | Some v, Some u => u + 1000000 <=? v
  | Some _, None => true
  | None, _ => false
  end.

(** The candidates discovery may still prefer to [c]. *)
Definition pending (s : t) (c : nat) : list nat :=
  List.filter (fun j => negb (bool_decide (j = c)) && negb (newer s c j)) (focus_positions (autoConfig s)).

(** All visits so far happened by [last]. *)
Definition visits_by (last : Z) (s : t) : Prop :=
  forall i v, visited s i = Some v -> 0 <= v <= last.

Lemma filter_length_le {A} (p q : A -> bool) l :
  (forall x, x ∈ l -> q x = true -> p x = true) ->
  (length (List.filter q l) <= length (List.filter p l))%nat.
Proof.
  induction l as [|x l IH]; intros H; [done |]. simpl.
  assert (length (List.filter q l) <= length (List.filter p l))%nat as Hl by (apply IH; intros y Hy; apply H; by right).
  destruct (q x) eqn:Eq; [rewrite (H x ltac:(by left) Eq); simpl; lia |]. destruct (p x); simpl; lia.
Qed.

Lemma filter_length_lt {A} (p q : A -> bool) l x :
  (forall y, y ∈ l -> q y = true -> p y = true) -> x ∈ l -> p x = true -> q x = false ->
  (length (List.filter q l) < length (List.filter p l))%nat.
Proof.
  intros H Hx Hp Hq. induction l as [|y l IH]; [by apply not_elem_of_nil in Hx |]. simpl.
  assert (forall y, y ∈ l -> q y = true -> p y = true) as Hl by (intros z Hz; apply H; by right).
  apply elem_of_cons in Hx as [-> | Hx].
  - rewrite Hp, Hq. pose proof (filter_length_le p q l Hl). simpl. lia.
  - specialize (IH Hl Hx). destruct (q y) eqn:Eq; [rewrite (H y ltac:(by left) Eq); simpl; lia |].
    destruct (p y); simpl; lia.
Qed.

(** Ages in milliseconds tell newer visits apart. *)
Lemma newer_age s now last c j :
  visits_by last s -> last <= now < 2 ^ 63 -> newer s c j = true ->
  is_Some (tuningStates s !! c) -> visit_age s now j < visit_age s now c.
Proof.
  intros Hv Hnow Hn [sc Hsc]. unfold newer, visit_age in *. pose proof (Hv j) as Hj. pose proof (Hv c) as Hc.
  unfold visited in *. rewrite Hsc in *. cbn [mbind option_bind] in *.
  destruct (tuningStates s !! j) as [sj |]; [| done]. cbn [mbind option_bind] in *.
  destruct (lastVisitedAt sj) as [v |]; [| done]. specialize (Hj v eq_refl). unfold ageMsOrMax, age_ms.
  rewrite Z.quot_div_nonneg by lia. destruct (lastVisitedAt sc) as [u |].
  - specialize (Hc u eq_refl). apply Z.leb_le in Hn. rewrite Z.quot_div_nonneg by lia.
    pose proof (Z.div_le_mono (now - v + 1 * 1000000) (now - u) 1000000) as Hm.
    rewrite Z.div_add in Hm by lia. lia.
  - apply Z.div_lt_upper_bound; lia.
Qed.

Section Fairness.
Context (cfg : AdaptiveScanPlannerConfig.t) (Hcfg : config_ok cfg).

Abbreviation T := (AdaptiveScanPlannerConfig.trackingStepsPerDiscovery cfg).
Context (HT : 0 <= T).

(** The rounds left before position [c] must have been visited. *)
Definition rounds_left (s : t) (c : nat) : Z :=
  Z.of_nat (length (pending s c)) * (T + 1) + (T - stepsSinceDiscovery s).

Lemma visited_insert s s' i state c :
  tuningStates s' = <[i := state]> (tuningStates s) -> (i < length (tuningStates s))%nat ->
  visited s' c = if decide (i = c) then lastVisitedAt state else visited s c.
Proof.
  intros E Hi. unfold visited. rewrite E. case_decide as Ec.
  - subst. by rewrite list_lookup_insert_eq.
  - by rewrite list_lookup_insert_ne.
Qed.

Lemma visits_by_round s s' i state last recorded :
  visits_by last s -> 0 <= last -> last + 1000000 <= recorded ->
  tuningStates s' = <[i := state]> (tuningStates s) -> (i < length (tuningStates s))%nat ->
  lastVisitedAt state = Some recorded -> visits_by recorded s'.
Proof.
  intros Hv Hl Hr E Hi Hs j v. rewrite (visited_insert s s' i state j E Hi). case_decide.
  - rewrite Hs. intros [= <-]. lia.
  - intros Hj. apply Hv in Hj. lia.
Qed.

(** A round that does not visit [c] brings it nearer. *)
Lemma round_progress s s' i state last asked recorded rounds c :
  planner_inv cfg rounds s -> planner_inv cfg (rounds + 1) s' -> visits_by last s ->
  0 <= last <= asked -> asked <= recorded < 2 ^ 63 -> last + 1000000 <= recorded ->
  autoConfig s' = autoConfig s -> tuningStates s' = <[i := state]> (tuningStates s) ->
  (i < length (tuningStates s))%nat -> lastVisitedAt state = Some recorded ->
  step_of cfg s s' asked i -> c ∈ focus_positions (autoConfig s) -> i <> c ->
  rounds_left s' c <= rounds_left s c - 1.
Proof.
  intros H H' Hv Hl Ha Hr Ea E Hi Hs [Hin Hstep] Hc Hne.
  assert (is_Some (tuningStates s !! c)) as Hsc.
  { apply elem_of_focus_positions in Hc as (x & Hx & _).
    destruct (tuning_state cfg s rounds c x H Hx) as (sc & -> & _). eauto. }
  assert (forall j, newer s' c j = if decide (i = j) then true else newer s c j) as Hnew.
  { intros j. unfold newer. rewrite !(visited_insert s s' i state _ E Hi), (decide_False (P := i = c)) by done.
    case_decide as Ej; [| done]. rewrite Hs. destruct (visited s c) as [u |] eqn:Eu; [| done].
    apply Hv in Eu. apply Z.leb_le. lia. }
  pose proof (pi_steps _ _ _ H) as Hst. unfold rounds_left, pending. rewrite Ea.
  set (p := fun j => negb (bool_decide (j = c)) && negb (newer s c j)).
  set (q := fun j => negb (bool_decide (j = c)) && negb (newer s' c j)).
  assert (forall j, j ∈ focus_positions (autoConfig s) -> q j = true -> p j = true) as Hqp.
  { intros j _. unfold p, q. rewrite Hnew. case_decide; [by rewrite andb_false_r | done]. }
  destruct Hstep as [[Hz Hmax] | [Hlt Hinc]].
  - assert (newer s c i = false) as Hni.
    { destruct (newer s c i) eqn:En; [| done]. exfalso.
      pose proof (newer_age s asked last c i Hv ltac:(lia) En Hsc). pose proof (Hmax c Hc). lia. }
    pose proof (filter_length_lt p q (focus_positions (autoConfig s)) i Hqp Hin) as Hlen.
    assert (p i = true) as Hpi by (unfold p; by rewrite Hni, bool_decide_false by done).
    assert (q i = false) as Hqi by (unfold q; rewrite Hnew, decide_True by done; apply andb_false_r).
    specialize (Hlen Hpi Hqi). nia.
  - pose proof (filter_length_le p q (focus_positions (autoConfig s)) Hqp). nia.
Qed.

Definition rounds_events (rounds : list (Z * Z * StepObservation)) : list event :=
  map (fun '(asked, recorded, seen) => Round asked recorded seen) rounds.

(** Rounds enough: the position is visited. *)
Lemma rounds_visit c x rounds : forall s last count,
  planner_inv cfg count s -> 0 <= count -> count + Z.of_nat (length rounds) < 2 ^ 31 -> visits_by last s -> 0 <= last ->
  timed last (rounds_events rounds) -> c ∈ focus_positions (autoConfig s) -> all_tunings !! c = Some x ->
  rounds_left s c < Z.of_nat (length rounds) ->
  exists steps s', run (rounds_events rounds) s = Ok (steps, s') /\ x ∈ map ss_tuning steps.
Proof.
  induction rounds as [|[[asked recorded] seen] rounds IH]; intros s last count H Hcount Hn Hv Hl Ht Hc Hx Hleft.
  - exfalso. pose proof (pi_steps _ _ _ H). unfold rounds_left in Hleft. cbn [length] in Hleft. nia.
  - cbn [rounds_events map run]. fold (rounds_events rounds). cbn [length] in *.
    destruct Ht as (Ht1 & Ht2 & Ht).
    destruct (run_round_ok cfg Hcfg s count asked recorded seen H)
      as (st & s1 & i & state & -> & H1 & Ea & Hi & E & Hs & Hlt & Hst & _); [lia |]. cbn [rbind].
    assert (visits_by recorded s1) as Hv1 by (eapply (visits_by_round s s1 i state last); eauto; lia).
    destruct (decide (i = c)) as [-> | Hne].
    + assert (ss_tuning st = x) as Ex by congruence.
      assert (rounds_of (rounds_events rounds) = Z.of_nat (length rounds)) as Ern.
      { unfold rounds_of, rounds_events. clear. induction rounds as [|[[]] rounds IH]; [done |]. simpl in *. lia. }
      destruct (run_ok cfg Hcfg (rounds_events rounds) s1 (count + 1) H1) as (steps & s' & -> & _); [lia | lia |].
      cbn [rbind]. exists (st :: steps), s'. split; [done |]. rewrite <- Ex. by left.
    + pose proof (round_progress s s1 i state last asked recorded count c H H1 Hv ltac:(lia) ltac:(lia) ltac:(lia)
        Ea E Hlt Hs Hst Hc Hne) as Hprog.
      destruct (IH s1 recorded (count + 1) H1) as (steps & s' & -> & Hin); try done; [lia | lia | lia | by rewrite Ea | lia |].
      cbn [rbind]. exists (st :: steps), s'. split; [done |]. by right.
Qed.

(** The visits of any run happened in the past. *)
Lemma run_visits events : forall s last count,
  planner_inv cfg count s -> 0 <= count -> count + rounds_of events < 2 ^ 31 -> visits_by last s -> 0 <= last ->
  timed last events ->
  exists steps s' last', run events s = Ok (steps, s') /\ visits_by last' s' /\ 0 <= last' /\
    forall later, timed last (events ++ later) -> timed last' later.
Proof.
  induction events as [|e events IH]; intros s last count H Hcount Hn Hv Hl Ht; cbn [run].
  - exists [], s, last. done.
  - unfold rounds_of in *. destruct e as [ac | | asked recorded seen]; cbn [List.filter is_round] in *.
    + destruct (setAutoConfig_ok cfg s count ac H) as (H1 & _ & Es). apply (IH _ last count H1); try done.
      intros i v. unfold visited. rewrite Es. apply Hv.
    + destruct (planner_reset_ok cfg s count Hcount H) as [H1 Hnone]. apply (IH _ last count H1); try done.
      intros i v. unfold visited. destruct (tuningStates (reset s) !! i) as [state |] eqn:Ei; [| done].
      rewrite Forall_lookup in Hnone. cbn. by rewrite (Hnone i state Ei).
    + cbn [length] in Hn. destruct Ht as (Ht1 & Ht2 & Ht).
      destruct (run_round_ok cfg Hcfg s count asked recorded seen H)
        as (st & s1 & i & state & -> & H1 & Ea & Hi & E & Hs & Hlt & Hst & _); [lia |]. cbn [rbind].
      assert (visits_by recorded s1) as Hv1 by (eapply (visits_by_round s s1 i state last); eauto; lia).
      destruct (IH s1 recorded (count + 1) H1) as (steps & s' & last' & -> & Hv' & Hl' & Hlater); try done; [lia | lia | lia |].
      cbn [rbind]. exists (st :: steps), s', last'. split; [done |]. split; [done |]. split; [done |].
      intros later (_ & _ & Hta). by apply Hlater.
Qed.

Lemma pending_bound s count c :
  planner_inv cfg count s -> c ∈ focus_positions (autoConfig s) ->
  rounds_left s c < Z.of_nat (length (focus_tunings (autoConfig s))) * (T + 1).
Proof.
  intros H Hc. pose proof (pi_steps _ _ _ H). rewrite <- focus_positions_length by apply H.
  unfold rounds_left, pending.
  pose proof (filter_length_lt (fun _ => true) (fun j => negb (bool_decide (j = c)) && negb (newer s c j))
    (focus_positions (autoConfig s)) c (fun _ _ _ => eq_refl) Hc eq_refl) as Hlen.
  cbv beta in Hlen. rewrite bool_decide_true in Hlen by done. specialize (Hlen eq_refl).
  assert (forall l : list nat, List.filter (fun _ => true) l = l) as Hall.
  { induction l as [|y l IH]; [done |]. simpl. by rewrite IH. }
  rewrite Hall in Hlen. nia.
Qed.
End Fairness.

(** C35. The planner is fair. After any history of configurations, resets and
    rounds on a steady clock, with rounds a millisecond apart at least, every
    supported tuning of the band and width in force is visited within the next
    [n * (trackingStepsPerDiscovery + 1)] rounds, [n] being the number of these
    tunings, whatever the rounds see and whenever they are. *)
Theorem planner_fair cfg history rounds target :
  config_ok cfg -> 0 <= AdaptiveScanPlannerConfig.trackingStepsPerDiscovery cfg ->
  rounds_of (history ++ rounds_events rounds) < 2 ^ 31 ->
  timed 0 (history ++ rounds_events rounds) ->
  target ∈ focus_tunings (fold_left config_after history default_auto_config) ->
  Z.of_nat (length (focus_tunings (fold_left config_after history default_auto_config)))
    * (AdaptiveScanPlannerConfig.trackingStepsPerDiscovery cfg + 1) <= Z.of_nat (length rounds) ->
  wp (let! s := make cfg in
      let! '(_, s) := run history s in
      run (rounds_events rounds) s) (fun '(steps, _) => target ∈ map ss_tuning steps).
Proof.
  intros Hcfg HT Hn Ht Htarget Hlen.
  assert (rounds_of (history ++ rounds_events rounds) = rounds_of history + Z.of_nat (length rounds)) as Ern.
  { unfold rounds_of. rewrite List.filter_app, length_app, Nat2Z.inj_add. f_equal. clear.
    unfold rounds_events. induction rounds as [|[[]] rounds IH]; [done |]. simpl in *. lia. }
  assert (forall last events later, timed last (events ++ later) -> timed last events) as Hprefix.
  { intros last events later. revert last. induction events as [|[| | asked recorded seen] events IH]; intros last; simpl;
      [done | apply IH | apply IH |]. intros (? & ? & ?%IH). done. }
  destruct (planner_make_ok cfg) as (s & -> & H & Ea & Hnone). cbn [rbind].
  assert (visits_by 0 s) as Hv0.
  { intros i v. unfold visited. destruct (tuningStates s !! i) as [state |] eqn:Ei; [| done].
    rewrite Forall_lookup in Hnone. cbn. by rewrite (Hnone i state Ei). }
  destruct (run_ok cfg Hcfg history s 0 H) as (steps & s1 & Hrun & H1 & Ec & _); [lia | lia |].
  destruct (run_visits cfg Hcfg history s 0 0 H) as (steps' & s1' & last & Hrun' & Hv & Hl & Hlater);
    [lia | lia | done | lia | by eapply Hprefix |].
  rewrite Hrun in Hrun'. injection Hrun' as <- <-. rewrite Hrun. cbn [rbind].
  rewrite Ea in Ec. rewrite <- Ec in Htarget, Hlen.
  assert (target ∈ all_tunings /\ scannerTuningMatchesConfig target (autoConfig s1) = true) as [Hall Hmatch].
  { apply list_elem_of_filter in Htarget as [Hm Hall]. done. }
  apply list_elem_of_lookup_1 in Hall as [c Hx].
  assert (c ∈ focus_positions (autoConfig s1)) as Hc by (apply elem_of_focus_positions; eauto).
  pose proof (pending_bound cfg HT s1 _ c H1 Hc) as Hb.
  destruct (rounds_visit cfg Hcfg HT c target rounds s1 last (0 + rounds_of history) H1)
    as (steps2 & s2 & -> & Hin); try done; [unfold rounds_of; lia | lia | by apply Hlater | lia].
Qed.

(** Six 80 MHz tunings and a discovery every fourth round: 24 rounds, 200 ms each. *)
Definition demo_rounds : list (Z * Z * StepObservation) :=
  map (fun k => (k * 200000000, (k + 1) * 200000000, quiet)) (seqZ 0 24).

Lemma planner_fair_witness :
  wp (let! s := make AdaptiveScanPlannerConfig.default in
      let! '(_, s) := run [Configure (ScannerAutoConfig.mk Band5Ghz 80)] s in
      run (rounds_events demo_rounds) s)
    (fun '(steps, _) => mkScannerTuning Band5Ghz 149 80 (Some 155) ∈ map ss_tuning steps).
Proof.
  apply (planner_fair AdaptiveScanPlannerConfig.default [Configure (ScannerAutoConfig.mk Band5Ghz 80)] demo_rounds
    (mkScannerTuning Band5Ghz 149 80 (Some 155))).
  - exact planner_default_ok.
  - done.
  - reflexivity.
  - vm_compute. by repeat split.
  - apply (bool_decide_unpack _). by vm_compute.
  - by vm_compute.
Defined.
