(* ===== verification/NesTiles.v ===== *)
(** From the picture-processing unit of the NES to tokens: [NesPpuSnapshot.h],
    [NesTileFrame.{h,cpp}], [NesTileTokenizer.{h,cpp}], [NesTileTokenFrame.{h,cpp}],
    [NesTileVocabularyBuilder.{h,cpp}], [NesPlayerRelativeTileFrame.{h,cpp}],
    [NesTileSensoryData.{h,cpp}] and [NesTileSensoryBuilder.{h,cpp}] of
    [core/scenarios/nes/].

    A [std::array] is a list; the sizes and widths the C++ types give a snapshot
    are [snapshot_wf]. Timers are left out. *)

From Stdlib Require Import ZArith Lia Bool String.
From stdpp Require Import base gmap option numbers list strings pretty sorting.
From S2P Require Import Prelude.
From S2P Require Import Ieee.
From S2P Require Import NesTypes.

Set Default Goal Selector "!".

Record NesPpuSnapshot := mkNesPpuSnapshot {
  ppu_frameId : Z;
  v : Z;
  fineX : Z;
  mirror : Z;
  ppuCtrl : Z;
  ppuMask : Z;
  chr : list Z;
  oam : list Z;
  vram : list Z
}.

(** The C++ types of the fields. *)
Definition snapshot_wf (s : NesPpuSnapshot) : Prop :=
  0 <= v s < 2 ^ 16 /\ 0 <= fineX s < 2 ^ 8 /\ 0 <= mirror s < 2 ^ 8 /\ 0 <= ppuCtrl s < 2 ^ 8 /\
  Z.of_nat (length (chr s)) = 8192 /\ Z.of_nat (length (vram s)) = 2048 /\
  Forall (fun b => 0 <= b < 2 ^ 8) (chr s) /\ Forall (fun b => 0 <= b < 2 ^ 8) (vram s).

(** ** [NesTileFrame] *)
Module NesTileFrame.

Definition TopCropPixels : Z := 8.
Definition VisibleHeightPixels : Z := 224.
Definition VisibleTileColumns : Z := 32.
Definition VisibleTileRows : Z := 28.
Definition VisibleWidthPixels : Z := 256.

Definition kFullFrameHeightPixels : Z := 240.
Definition kFullFrameWidthPixels : Z := 256.
Definition kPatternBytesPerTile : Z := 16.
Definition kTileSizePixels : Z := 8.

Record t := mk {
  frameId : Z;
  scrollX : Z;
  scrollY : Z;
  patternPixels : list Z;
  tilePatternHashes : list Z;
  tileIds : list Z
}.

Definition mirroredNametableOffset (logicalOffset mirror : Z) : Z :=
  if mirror =? 0 then logicalOffset mod 1024
  else if mirror =? 1 then logicalOffset mod 1024 + 1024
  else if mirror =? 2 then Z.land logicalOffset 2047
  else if mirror =? 3 then Z.lor (Z.land (logicalOffset / 2) 1024) (logicalOffset mod 1024)
  else Z.land logicalOffset 2047.

Definition readNametableTileIdAtWorldPixel (snapshot : NesPpuSnapshot) (scrollX scrollY x y : Z) : res Z :=
  let worldX := u16 ((scrollX + x) mod 512) in
  let worldY := u16 ((scrollY + y) mod 480) in
  let tileX := u16 (worldX / kTileSizePixels) in
  let tileY := u16 (worldY / kTileSizePixels) in
  let nametableX := u16 (Z.land (tileX / 32) 1) in
  let nametableY := u16 (Z.land (tileY / 30) 1) in
  let localTileX := u16 (tileX mod 32) in
  let localTileY := u16 (tileY mod 30) in
  let logicalOffset := u16 (nametableY * 0x800 + nametableX * 0x400 + localTileY * 32 + localTileX) in
  vec_get (vram snapshot) (mirroredNametableOffset logicalOffset (mirror snapshot)).

Definition tilePatternBaseOffset (snapshot : NesPpuSnapshot) (tileId : Z) : Z :=
  let patternBase := if negb (Z.land (ppuCtrl snapshot) 0x10 =? 0) then 0x1000 else 0 in
  patternBase + tileId * kPatternBytesPerTile.

Definition kFnvOffsetBasis : Z := 14695981039346656037.
Definition kFnvPrime : Z := 1099511628211.

Definition tilePatternHash (snapshot : NesPpuSnapshot) (tileId : Z) : res Z :=
  let base := tilePatternBaseOffset snapshot tileId in
  for_range 0 kPatternBytesPerTile (fun i hash =>
    let! byte := vec_get (chr snapshot) (base + i) in
    Ok (u64 (Z.lxor hash byte * kFnvPrime))) kFnvOffsetBasis.

Definition tilePatternPixel (snapshot : NesPpuSnapshot) (tileId patternX patternY : Z) : res Z :=
  let base := tilePatternBaseOffset snapshot tileId in
  let! lo := vec_get (chr snapshot) (base + patternY) in
  let! hi := vec_get (chr snapshot) (base + 8 + patternY) in
  let bit := u8 (7 - patternX) in
  Ok (u8 (Z.lor (Z.land (Z.shiftr lo bit) 1) (Z.shiftl (Z.land (Z.shiftr hi bit) 1) 1))).

Definition scrollXFromV (snapshot : NesPpuSnapshot) : Z :=
  u16 (Z.land (Z.shiftr (v snapshot) 10) 1 * kFullFrameWidthPixels
       + Z.land (v snapshot) 0x1f * kTileSizePixels + Z.land (fineX snapshot) 7).

Definition scrollYFromV (snapshot : NesPpuSnapshot) : Z :=
  u16 (Z.land (Z.shiftr (v snapshot) 11) 1 * kFullFrameHeightPixels
       + Z.land (Z.shiftr (v snapshot) 5) 0x1f * kTileSizePixels + Z.land (Z.shiftr (v snapshot) 12) 7).

Definition makeNesTileIdPatternHashes (snapshot : NesPpuSnapshot) : res (list Z) :=
  for_range 0 256 (fun tileId hashes =>
    let! hash := tilePatternHash snapshot (u8 tileId) in
    vec_set hashes tileId hash) (replicate 256 0).

(** The three loops of [makeNesTileFrame]. *)
Definition pattern_pixels (snapshot : NesPpuSnapshot) (scrollX scrollY : Z) (pixels : list Z) : res (list Z) :=
  scan VisibleWidthPixels VisibleHeightPixels (fun x y pixels =>
    let fullY := u16 (y + TopCropPixels) in
    let! tileId := readNametableTileIdAtWorldPixel snapshot scrollX scrollY x fullY in
    let worldX := u16 ((scrollX + x) mod 512) in
    let worldY := u16 ((scrollY + fullY) mod 480) in
    let patternX := u8 (worldX mod kTileSizePixels) in
    let patternY := u8 (worldY mod kTileSizePixels) in
    let! pixel := tilePatternPixel snapshot tileId patternX patternY in
    vec_set pixels (y * VisibleWidthPixels + x) pixel) pixels.

Definition tile_ids (snapshot : NesPpuSnapshot) (scrollX scrollY : Z) (ids : list Z) : res (list Z) :=
  scan VisibleTileColumns VisibleTileRows (fun gx gy ids =>
    let sampleX := u16 (gx * kTileSizePixels + 4) in
    let sampleY := u16 (gy * kTileSizePixels + 4 + TopCropPixels) in
    let! tileId := readNametableTileIdAtWorldPixel snapshot scrollX scrollY sampleX sampleY in
    vec_set ids (gy * VisibleTileColumns + gx) tileId) ids.

Definition tile_hashes (snapshot : NesPpuSnapshot) (ids hashes : list Z) : res (list Z) :=
  for_range 0 (Z.of_nat (length ids)) (fun cellIndex hashes =>
    let! id := vec_get ids cellIndex in
    let! hash := tilePatternHash snapshot id in
    vec_set hashes cellIndex hash) hashes.

Definition makeNesTileFrame (snapshot : NesPpuSnapshot) (includePatternPixels : bool) : res t :=
  let scrollX := scrollXFromV snapshot in
  let scrollY := scrollYFromV snapshot in
  let pixels := replicate (Z.to_nat (VisibleWidthPixels * VisibleHeightPixels)) 0 in
  let zeros := replicate (Z.to_nat (VisibleTileColumns * VisibleTileRows)) 0 in
  let! pixels := if includePatternPixels then pattern_pixels snapshot scrollX scrollY pixels else Ok pixels in
  let! ids := tile_ids snapshot scrollX scrollY zeros in
  let! hashes := tile_hashes snapshot ids zeros in
  Ok (mk (ppu_frameId snapshot) scrollX scrollY pixels hashes ids).

End NesTileFrame.

(** ** [NesTileTokenizer] *)
Module NesTileTokenizer.

Inductive Mode := Learning | Frozen.
#[global] Instance Mode_eq_dec : EqDecision Mode.
Proof. solve_decision. Defined.
Definition Mode_to_Z (mode : Mode) : Z := match mode with Learning => 0 | Frozen => 1 end.

Definition DefaultVocabSize : Z := 512.
Definition VoidToken : Z := 0.

Record t := mk {
  hashToToken_ : gmap Z Z;
  mode_ : Mode;
  nextToken_ : Z;
  vocabSize_ : Z
}.

Definition make (vocabSize : Z) : res t :=
  dirtsim_assert (VoidToken + 1 <? vocabSize) "NesTileTokenizer: vocabSize must be at least 2" ;;!
  Ok (mk ∅ Learning (VoidToken + 1) vocabSize).

(** [std::unique] on a sorted vector. *)
Fixpoint unique (l : list Z) : list Z :=
  match l with
  | x :: (y :: _) as l' => if x =? y then unique l' else x :: unique l'
  | _ => l
  end.

Fixpoint assign_tokens (hashes : list Z) (map : gmap Z Z) (nextToken : Z) : gmap Z Z * Z :=
  match hashes with
  | [] => (map, nextToken)
  | hash :: hashes' =>
      assign_tokens hashes' (match map !! hash with Some _ => map | None => <[hash := nextToken]> map end)
        (u16 (nextToken + 1))
  end.

Definition buildVocabulary (tilePatternHashes : list Z) (s : t) : Result Z string * t :=
  let hashes := unique (merge_sort Z.le tilePatternHashes) in
  let count := Z.of_nat (length hashes) in
  if vocabSize_ s <=? count then
    (error ("NesTileTokenizer: Tile token vocabulary exhausted while building " +:+ pretty count
              +:+ " unique patterns with vocab size " +:+ pretty (vocabSize_ s)), s)
  else
    let '(map, nextToken) := assign_tokens hashes ∅ (VoidToken + 1) in
    (okay (Z.of_nat (size map)), mk map Learning nextToken (vocabSize_ s)).

Definition freeze (s : t) : t := mk (hashToToken_ s) Frozen (nextToken_ s) (vocabSize_ s).

Definition tokenForHash (patternHash : option Z) (s : t) : Result Z string * t :=
  match patternHash with
  | None => (okay VoidToken, s)
  | Some hash =>
      match hashToToken_ s !! hash with
      | Some token => (okay token, s)
      | None =>
          if bool_decide (mode_ s = Frozen) then
            (error ("NesTileTokenizer: Frozen vocabulary missing tile pattern hash " +:+ pretty hash), s)
          else if vocabSize_ s <=? nextToken_ s then
            (error ("NesTileTokenizer: Tile token vocabulary exhausted after "
                      +:+ pretty (Z.of_nat (size (hashToToken_ s)))
                      +:+ " unique patterns with vocab size " +:+ pretty (vocabSize_ s)), s)
          else
            (okay (nextToken_ s),
             mk (<[hash := nextToken_ s]> (hashToToken_ s)) (mode_ s) (u16 (nextToken_ s + 1)) (vocabSize_ s))
      end
  end.

(** A loop that maps hashes to tokens in order and stops at the first error;
    [context] words the error of position [i]. *)
Fixpoint tokens_loop (context : Z -> string) (i : Z) (hashes : list Z) (s : t)
    : Result (list Z) string * t :=
  match hashes with
  | [] => (okay [], s)
  | hash :: hashes' =>
      match tokenForHash (Some hash) s with
      | (error e, s) => (error (context i +:+ e), s)
      | (okay token, s) =>
          match tokens_loop context (i + 1) hashes' s with
          | (error e, s) => (error e, s)
          | (okay tokens, s) => (okay (token :: tokens), s)
          end
      end
  end.

Definition tileIdTokenRemapBuild (tilePatternHashes : list Z) (s : t) : Result (list Z) string * t :=
  tokens_loop (fun tileId => "NesTileTokenizer: Failed to map tile id " +:+ pretty tileId +:+ ": ")
    0 tilePatternHashes s.

Definition getMode (s : t) : Mode := mode_ s.
Definition getVocabSize (s : t) : Z := vocabSize_ s.
Definition getMappedHashCount (s : t) : Z := Z.of_nat (size (hashToToken_ s)).
Definition reset (s : t) : t := mk ∅ Learning (VoidToken + 1) (vocabSize_ s).

(** The bytes of a value in memory, on a little-endian machine. *)
Fixpoint le_bytes (n : nat) (value : Z) : list Z :=
  match n with O => [] | S n' => u8 value :: le_bytes n' (Z.shiftr value 8) end.

Definition hashBytes (hash : Z) (bytes : list Z) : Z :=
  fold_left (fun hash byte => u64 (Z.lxor hash byte * 1099511628211)) bytes hash.
Definition hashValue (size : nat) (hash value : Z) : Z := hashBytes hash (le_bytes size value).

(** [operator<=] of pairs. *)
Definition pair_le (a b : Z * Z) : Prop := fst a < fst b \/ fst a = fst b /\ snd a <= snd b.
#[global] Instance pair_le_dec a b : Decision (pair_le a b).
Proof. unfold pair_le. apply _. Defined.

(** Sixteen hexadecimal digits. *)
Definition hex_digit (d : Z) : string :=
  String (Ascii.ascii_of_nat (Z.to_nat (if d <? 10 then 48 + d else 87 + d))) EmptyString.
Fixpoint hex_digits (n : nat) (value : Z) : string :=
  match n with O => EmptyString | S n' => hex_digits n' (Z.shiftr value 4) +:+ hex_digit (Z.land value 15) end.
Definition toHexString (value : Z) : string := hex_digits 16 value.

Definition getVocabularyHash (s : t) : string :=
  let hash := hashValue 2 1469598103934665603 (vocabSize_ s) in
  let hash := hashValue 2 hash VoidToken in
  let hash := hashValue 1 hash (Mode_to_Z (mode_ s)) in
  let tokenToHash := merge_sort pair_le (map (fun '(hash, token) => (token, hash)) (map_to_list (hashToToken_ s))) in
  let hash := hashValue 8 hash (Z.of_nat (length tokenToHash)) in
  toHexString (fold_left (fun hash '(token, patternHash) => hashValue 8 (hashValue 2 hash token) patternHash)
                 tokenToHash hash).

End NesTileTokenizer.

(** ** [NesTileTokenFrame] *)
Module NesTileTokenFrame.
Record t := mk { frameId : Z; scrollX : Z; scrollY : Z; tokens : list Z }.

Definition makeNesTileTokenFrame (tileFrame : NesTileFrame.t) (tokenizer : NesTileTokenizer.t)
    : Result t string * NesTileTokenizer.t :=
  match NesTileTokenizer.tokens_loop
          (fun cellIndex => "NesTileTokenFrame: Failed to tokenize cell " +:+ pretty cellIndex +:+ ": ")
          0 (NesTileFrame.tilePatternHashes tileFrame) tokenizer with
  | (error e, tokenizer) => (error e, tokenizer)
  | (okay tokens, tokenizer) =>
      (okay (mk (NesTileFrame.frameId tileFrame) (NesTileFrame.scrollX tileFrame)
               (NesTileFrame.scrollY tileFrame) tokens), tokenizer)
  end.
End NesTileTokenFrame.

(** ** [NesTileVocabularyBuilder] *)
Module NesTileVocabularyBuilder.
Record t := mk { tilePatternHashes_ : list Z }.
Record NesTileVocabularyBuildResult := mkResult { sampledTileCount : Z; uniquePatternCount : Z }.

Definition empty : t := mk [].

Definition addFrame (frame : NesTileFrame.t) (s : t) : t :=
  mk (tilePatternHashes_ s ++ NesTileFrame.tilePatternHashes frame).

Definition addSnapshot (snapshot : NesPpuSnapshot) (s : t) : res t :=
  let! tileIdPatternHashes := NesTileFrame.makeNesTileIdPatternHashes snapshot in
  let! frame := NesTileFrame.makeNesTileFrame snapshot true in
  Ok (addFrame frame (mk (tilePatternHashes_ s ++ tileIdPatternHashes))).

Definition buildFrozenTokenizer (tokenizer : NesTileTokenizer.t) (s : t)
    : Result NesTileVocabularyBuildResult string * NesTileTokenizer.t :=
  if bool_decide (tilePatternHashes_ s = []) then
    (error "NesTileVocabularyBuilder: Cannot build vocabulary without tile samples", tokenizer)
  else
    match NesTileTokenizer.buildVocabulary (tilePatternHashes_ s) tokenizer with
    | (error e, tokenizer) =>
        (error ("NesTileVocabularyBuilder: Failed to build vocabulary: " +:+ e), tokenizer)
    | (okay count, tokenizer) =>
        (okay (mkResult (Z.of_nat (length (tilePatternHashes_ s))) count), NesTileTokenizer.freeze tokenizer)
    end.

Definition buildFrozenTokenizer_new (vocabSize : Z) (s : t) : res (Result NesTileTokenizer.t string) :=
  let! tokenizer := NesTileTokenizer.make vocabSize in
  Ok (match buildFrozenTokenizer tokenizer s with
      | (error e, _) => error e
      | (okay _, tokenizer) => okay tokenizer
      end).

Definition getSampledTileCount (s : t) : Z := Z.of_nat (length (tilePatternHashes_ s)).
Definition reset (_ : t) : t := mk [].
End NesTileVocabularyBuilder.

(** ** [NesPlayerRelativeTileFrame] *)
Module NesPlayerRelativeTileFrame.
Definition ScreenTileColumns : Z := NesTileFrame.VisibleTileColumns.
Definition ScreenTileRows : Z := NesTileFrame.VisibleTileRows.
Definition AnchorTileColumn : Z := ScreenTileColumns - 1.
Definition AnchorTileRow : Z := ScreenTileRows - 1.
Definition RelativeTileColumns : Z := ScreenTileColumns * 2 - 1.
Definition RelativeTileRows : Z := ScreenTileRows * 2 - 1.
Definition TileSizePixels : Z := 8.

Record t := mk {
  frameId : Z;
  scrollX : Z;
  scrollY : Z;
  playerScreenX : Z;
  playerScreenY : Z;
  playerTileColumn : Z;
  playerTileRow : Z;
  tokens : list Z
}.

(** Division truncates. *)
Definition tileCoordinateForPixel (pixel : Z) : Z :=
  if 0 <=? pixel then s16 (Z.quot pixel TileSizePixels)
  else s16 (- Z.quot (- pixel + s16 TileSizePixels - 1) TileSizePixels).

Definition relativeTileIndex (column row : Z) : Z := u64 (u64 row * RelativeTileColumns + u64 column).
Definition screenTileIndex (column row : Z) : Z := u64 (u64 row * ScreenTileColumns + u64 column).

Definition makeNesPlayerRelativeTileFrame (tokenFrame : NesTileTokenFrame.t) (playerScreenX playerScreenY : Z)
    : res t :=
  let playerTileColumn := tileCoordinateForPixel playerScreenX in
  let playerTileRow := tileCoordinateForPixel playerScreenY in
  let! tokens :=
    scan ScreenTileColumns ScreenTileRows (fun screenColumn screenRow tokens =>
      let relativeColumn := s16 (AnchorTileColumn + screenColumn - playerTileColumn) in
      let relativeRow := s16 (AnchorTileRow + screenRow - playerTileRow) in
      if (relativeColumn <? 0) || (RelativeTileColumns <=? relativeColumn)
         || (relativeRow <? 0) || (RelativeTileRows <=? relativeRow)
      then Ok tokens
      else
        let! token := vec_get (NesTileTokenFrame.tokens tokenFrame) (screenTileIndex screenColumn screenRow) in
        vec_set tokens (relativeTileIndex relativeColumn relativeRow) token)
      (replicate (Z.to_nat (RelativeTileColumns * RelativeTileRows)) NesTileTokenizer.VoidToken) in
  Ok (mk (NesTileTokenFrame.frameId tokenFrame) (NesTileTokenFrame.scrollX tokenFrame)
        (NesTileTokenFrame.scrollY tokenFrame) playerScreenX playerScreenY playerTileColumn playerTileRow tokens).
End NesPlayerRelativeTileFrame.

(** ** [NesTileSensoryData] *)
Module NesTileSensoryData.
Record t := mk {
  tileFrame : NesPlayerRelativeTileFrame.t;
  facingX : f32;
  selfViewX : f32;
  selfViewY : f32;
  previousControlX : f32;
  previousControlY : f32;
  previousA : bool;
  previousB : bool;
  specialSenses : list f64;
  energy : f32;
  health : f32;
  deltaTimeSeconds : f64
}.

Definition held (controllerMask button : Z) : bool := negb (Z.land controllerMask button =? 0).

(** The direction of two opposed buttons: none when both or neither are held. *)
Definition axis (negative positive : bool) : f32 :=
  if Bool.eqb negative positive then f32_of_Z 0 else if negative then f32_of_Z (-1) else f32_of_Z 1.

Definition setNesTilePreviousControlFromControllerMask (s : t) (controllerMask : Z) : t :=
  mk (tileFrame s) (facingX s) (selfViewX s) (selfViewY s)
    (axis (held controllerMask NesPolicyLayout.ButtonLeft) (held controllerMask NesPolicyLayout.ButtonRight))
    (axis (held controllerMask NesPolicyLayout.ButtonUp) (held controllerMask NesPolicyLayout.ButtonDown))
    (held controllerMask NesPolicyLayout.ButtonA) (held controllerMask NesPolicyLayout.ButtonB)
    (specialSenses s) (energy s) (health s) (deltaTimeSeconds s).
End NesTileSensoryData.

(** ** [NesTileSensoryBuilder] *)
Module NesTileSensoryBuilder.
Record Input := mkInput {
  playerScreenX : Z;
  playerScreenY : Z;
  facingX : f32;
  selfViewX : f32;
  selfViewY : f32;
  controllerMask : Z;
  specialSenses : list f64;
  energy : f32;
  health : f32;
  deltaTimeSeconds : f64
}.

(** The fields it does not copy are those of a default [NesTileSensoryData]. *)
Definition applyBuilderInput (tileFrame : NesPlayerRelativeTileFrame.t) (input : Input) : NesTileSensoryData.t :=
  NesTileSensoryData.setNesTilePreviousControlFromControllerMask
    (NesTileSensoryData.mk tileFrame (facingX input) (selfViewX input) (selfViewY input)
       (f32_of_Z 0) (f32_of_Z 0) false false
       (specialSenses input) (energy input) (health input) (deltaTimeSeconds input))
    (controllerMask input).

Definition makeNesTileSensoryDataFromTileFrame (tileFrame : NesTileFrame.t) (tokenizer : NesTileTokenizer.t)
    (input : Input) : res (Result NesTileSensoryData.t string * NesTileTokenizer.t) :=
  match NesTileTokenFrame.makeNesTileTokenFrame tileFrame tokenizer with
  | (error e, tokenizer) =>
      Ok (error ("NesTileSensoryBuilder: Failed to tokenize tile frame: " +:+ e), tokenizer)
  | (okay tokenFrame, tokenizer) =>
      let! relative :=
        NesPlayerRelativeTileFrame.makeNesPlayerRelativeTileFrame tokenFrame (playerScreenX input)
          (playerScreenY input) in
      Ok (okay (applyBuilderInput relative input), tokenizer)
  end.

Definition makeNesTileSensoryDataFromPpuSnapshot (ppuSnapshot : NesPpuSnapshot) (tokenizer : NesTileTokenizer.t)
    (input : Input) : res (Result NesTileSensoryData.t string * NesTileTokenizer.t) :=
  let! tileFrame := NesTileFrame.makeNesTileFrame ppuSnapshot true in
  makeNesTileSensoryDataFromTileFrame tileFrame tokenizer input.
End NesTileSensoryBuilder.
