(* ===== verification/NesTileFacts.v ===== *)
(** The tile frame shows the nametables: every read is in range, and the tiles,
    their hashes and the pixels are those of the world the picture-processing
    unit scrolls over. *)

From Stdlib Require Import ZArith Lia Bool String.
From stdpp Require Import base gmap option numbers list strings.
From S2P Require Import Prelude.
From S2P Require Import NesTiles.

Set Default Goal Selector "!".

Module F := NesTileFrame.

(** ** Words *)
Lemma lor_low k a b : 0 <= k -> 0 <= b < 2 ^ k -> Z.lor (a * 2 ^ k) b = a * 2 ^ k + b.
Proof.
  intros Hk Hb. pose proof (Z.add_lor_land (a * 2 ^ k) b) as E.
  enough (Z.land (a * 2 ^ k) b = 0) as E0 by lia.
  apply Z.bits_inj'. intros n Hn. rewrite Z.land_spec, Z.bits_0.
  destruct (decide (n < k)).
  - by rewrite Z.mul_pow2_bits_low.
  - by rewrite (testbit_outside k b n), andb_false_r by lia.
Qed.

Lemma land_pow2_div k x : 0 <= k -> Z.land x (2 ^ k) = (x / 2 ^ k) mod 2 * 2 ^ k.
Proof.
  intros Hk. rewrite <- Z.testbit_spec' by done. apply Z.bits_inj'. intros n Hn.
  rewrite Z.land_spec, (Z.pow2_bits_eqb k n) by done.
  destruct (Z.eqb_spec k n) as [<- | Hne].
  - rewrite Z.mul_pow2_bits by lia. rewrite Z.sub_diag, andb_true_r. by destruct (Z.testbit x k).
  - rewrite andb_false_r. destruct (Z.testbit x k); cbn [Z.b2z]; [| by rewrite Z.mul_0_l, Z.testbit_0_l].
    rewrite Z.mul_1_l, Z.pow2_bits_eqb by done. by apply Z.eqb_neq in Hne.
Qed.

Lemma land_1_mod x : Z.land x 1 = x mod 2.
Proof. apply (Z.land_ones x 1). lia. Qed.

(** ** Vectors filled by a loop *)
Lemma fill_ok (n : nat) (f : Z -> Z) body (v0 : list Z) :
  length v0 = n -> (forall i v, 0 <= i < Z.of_nat n -> length v = n -> body i v = vec_set v i (f i)) ->
  for_range 0 (Z.of_nat n) body v0 = Ok (map f (seqZ 0 (Z.of_nat n))).
Proof.
  intros Hl Hbody.
  assert (wp (for_range 0 (Z.of_nat n) body v0) (fun v => length v = n /\
    forall j, 0 <= j < Z.of_nat n -> v !! Z.to_nat j = Some (f j))) as H.
  { apply (wp_for_range (fun i v => length v = n /\ forall j, 0 <= j < i -> v !! Z.to_nat j = Some (f j))).
    - lia.
    - split; [done | lia].
    - intros i v Hi [Hv Hf]. rewrite Hbody by done. rewrite vec_set_ok by lia. apply wp_ok.
      split; [by rewrite length_insert |]. intros j Hj. rewrite lookup_insert_Z by lia.
      case_decide; [by subst | apply Hf; lia]. }
  apply wp_elim in H as (v & -> & Hv & Hf). f_equal. apply list_eq. intros i.
  rewrite list_lookup_fmap. destruct (decide (i < n)%nat) as [Hi | Hi].
  - rewrite lookup_seqZ_lt by lia. replace i with (Z.to_nat (Z.of_nat i)) by lia. rewrite Hf by lia. simpl.
    f_equal. f_equal. lia.
  - rewrite lookup_seqZ_ge by lia. by apply lookup_ge_None_2; lia.
Qed.

Lemma fold_left_map {A B C} (f : A -> B -> A) (g : C -> B) l a :
  fold_left f (map g l) a = fold_left (fun a c => f a (g c)) l a.
Proof. revert a. induction l as [| c l IH]; intros a; [done |]. apply IH. Qed.

Lemma for_range_fold {S} (n : nat) (g : S -> Z -> S) body (x : S) :
  (forall i x, 0 <= i < Z.of_nat n -> body i x = Ok (g x i)) ->
  for_range 0 (Z.of_nat n) body x = Ok (fold_left g (seqZ 0 (Z.of_nat n)) x).
Proof.
  unfold for_range, seqZ. replace (Z.to_nat (Z.of_nat n - 0)) with n by lia. rewrite Nat2Z.id.
  intros H. assert (forall k i x, 0 <= i -> i + Z.of_nat k <= Z.of_nat n ->
    for_loop k i body x = Ok (fold_left g (map (fun j => Z.of_nat j + i) (seq 0 k)) x)) as Hk.
  { clear x. induction k as [| k IH]; intros i x Hi Hle; [done |]. cbn [for_loop seq map fold_left].
    rewrite H by lia. cbn [rbind]. rewrite IH by lia. do 2 f_equal. rewrite <- seq_shift, map_map.
    apply map_ext. intros j. lia. }
  apply Hk; lia.
Qed.

Lemma scan_fill_ok w h (f : Z -> Z -> Z) body (v0 : list Z) :
  0 <= w -> 0 <= h -> Z.of_nat (length v0) = w * h ->
  (forall x y v, 0 <= x < w -> 0 <= y < h -> Z.of_nat (length v) = w * h ->
    body x y v = vec_set v (y * w + x) (f x y)) ->
  exists v, scan w h body v0 = Ok v /\ row_major w h f (h * w) v.
Proof.
  intros Hw Hh Hl Hbody. apply wp_elim.
  apply (wp_scan (fun k v => row_major w h f k v)); [done | done | by apply row_major_start |].
  intros x y v Hx Hy Hv. rewrite Hbody by first [done | apply Hv].
  pose proof (row_major_index w h x y Hx Hy). rewrite vec_set_ok by (destruct Hv; lia).
  by apply wp_ok, row_major_step.
Qed.

Lemma row_major_Forall w h (f : Z -> Z -> Z) (P : Z -> Prop) v :
  0 <= w -> row_major w h f (h * w) v -> (forall x y, 0 <= x < w -> 0 <= y < h -> P (f x y)) -> Forall P v.
Proof.
  intros Hw0 [Hl Hv] HP. apply Forall_lookup_2. intros i a Ha. pose proof (lookup_lt_Some _ _ _ Ha) as Hi.
  assert (0 < w) as Hw by (destruct (decide (w = 0)) as [-> |]; lia).
  pose proof (Z.div_mod (Z.of_nat i) w ltac:(lia)). pose proof (Z.mod_pos_bound (Z.of_nat i) w Hw).
  assert (0 <= Z.of_nat i / w < h) by (split; [apply Z.div_pos; lia | apply Z.div_lt_upper_bound; lia]).
  specialize (Hv (Z.of_nat i mod w) (Z.of_nat i / w) ltac:(lia) ltac:(lia) ltac:(nia)).
  replace (Z.to_nat (Z.of_nat i / w * w + Z.of_nat i mod w)) with i in Hv by lia.
  rewrite Ha in Hv. injection Hv as ->. by apply HP.
Qed.

(** ** The world the picture scrolls over

    Four nametables of 32x30 tiles, two by two, that mirroring maps to the two
    pages of video memory. *)
Definition byte_at (l : list Z) (i : Z) : Z := default 0 (l !! Z.to_nat i).

Definition page (mirror nametable : Z) : Z :=
  if mirror =? 0 then 0 else if mirror =? 1 then 1 else if mirror =? 3 then nametable / 2 else nametable mod 2.

Definition world_tile (s : NesPpuSnapshot) (X Y : Z) : Z :=
  byte_at (vram s) (page (mirror s) (2 * (Y / 240) + X / 256) * 1024 + (Y mod 240) / 8 * 32 + (X mod 256) / 8).

(** The bytes of a tile's pattern, their FNV-1a hash and the two-bit colours. *)
Definition pattern_base (s : NesPpuSnapshot) (id : Z) : Z :=
  (if Z.testbit (ppuCtrl s) 4 then 4096 else 0) + id * 16.
Definition fnv1a (bytes : list Z) : Z :=
  fold_left (fun hash byte => u64 (Z.lxor hash byte * F.kFnvPrime)) bytes F.kFnvOffsetBasis.
Definition tile_hash (s : NesPpuSnapshot) (id : Z) : Z :=
  fnv1a (map (fun i => byte_at (chr s) (pattern_base s id + i)) (seqZ 0 16)).
Definition tile_pixel (s : NesPpuSnapshot) (id px py : Z) : Z :=
  Z.b2z (Z.testbit (byte_at (chr s) (pattern_base s id + py)) (7 - px))
  + 2 * Z.b2z (Z.testbit (byte_at (chr s) (pattern_base s id + 8 + py)) (7 - px)).

Section Snapshot.
Context (s : NesPpuSnapshot) (Hs : snapshot_wf s).

Lemma vec_get_byte (l : list Z) i :
  0 <= i < Z.of_nat (length l) -> vec_get l i = Ok (byte_at l i).
Proof.
  intros Hi. destruct (in_range_lookup l i Hi) as [x Hx]. unfold byte_at. rewrite Hx. by apply vec_get_ok; [lia |].
Qed.

Lemma byte_range (l : list Z) i : Forall (fun b => 0 <= b < 2 ^ 8) l -> 0 <= byte_at l i < 256.
Proof.
  intros H. unfold byte_at. destruct (l !! Z.to_nat i) as [b |] eqn:E; simpl; [| lia].
  by apply (Forall_lookup_1 _ _ _ _ H E).
Qed.

Lemma mirrored_ok nx ny local m :
  0 <= nx < 2 -> 0 <= ny < 2 -> 0 <= local < 1024 ->
  F.mirroredNametableOffset (ny * 0x800 + nx * 0x400 + local) m = page m (2 * ny + nx) * 1024 + local.
Proof.
  intros Hnx Hny Hl. unfold F.mirroredNametableOffset, page.
  assert ((ny * 0x800 + nx * 0x400 + local) mod 1024 = local) as E1.
  { replace (ny * 0x800 + nx * 0x400 + local) with (local + (2 * ny + nx) * 1024) by lia.
    rewrite Z.mod_add by lia. by apply Z.mod_small. }
  assert (Z.land (ny * 0x800 + nx * 0x400 + local) 2047 = nx * 1024 + local) as E2.
  { change 2047 with (Z.ones 11). rewrite Z.land_ones by lia. change (2 ^ 11) with 2048.
    replace (ny * 0x800 + nx * 0x400 + local) with (nx * 1024 + local + ny * 2048) by lia.
    rewrite Z.mod_add by lia. apply Z.mod_small. lia. }
  rewrite E1, E2. assert ((2 * ny + nx) mod 2 = nx) as -> by (rewrite Z.add_comm, Z.mul_comm, Z.mod_add by lia; apply Z.mod_small; lia).
  destruct (m =? 0); [lia |]. destruct (m =? 1); [lia |].
  destruct (Z.eqb_spec m 2) as [-> |]; [done |]. destruct (m =? 3); [| done].
  pose proof (fun x => land_pow2_div 10 x ltac:(lia)) as Hland. change (2 ^ 10) with 1024 in Hland. rewrite Hland.
  assert ((ny * 2048 + nx * 1024 + local) / 2 / 1024 = ny) as ->.
  { rewrite Z.div_div by lia. change (2 * 1024) with 2048. symmetry.
    apply (Z.div_unique_pos _ _ _ (nx * 1024 + local)); lia. }
  assert ((2 * ny + nx) / 2 = ny) as -> by (rewrite Z.add_comm, Z.mul_comm, Z.div_add by lia; rewrite Z.div_small; lia).
  rewrite (Z.mod_small ny 2) by lia. apply (lor_low 10); [lia |]. simpl. lia.
Qed.

Lemma page_range m nt : 0 <= nt < 4 -> 0 <= page m nt < 2.
Proof.
  intros H. unfold page. repeat case_match; try lia.
  - split; [apply Z.div_pos; lia | apply Z.div_lt_upper_bound; lia].
  - apply Z.mod_pos_bound. lia.
Qed.

(** The tile under a world pixel. *)
Lemma readNametable_ok scrollX scrollY x y :
  0 <= scrollX + x -> 0 <= scrollY + y ->
  F.readNametableTileIdAtWorldPixel s scrollX scrollY x y =
  Ok (world_tile s ((scrollX + x) mod 512) ((scrollY + y) mod 480)).
Proof.
  intros Hx Hy. unfold F.readNametableTileIdAtWorldPixel, world_tile.
  pose proof (Z.mod_pos_bound (scrollX + x) 512 ltac:(lia)) as HX.
  pose proof (Z.mod_pos_bound (scrollY + y) 480 ltac:(lia)) as HY.
  set (X := (scrollX + x) mod 512) in *. set (Y := (scrollY + y) mod 480) in *.
  change F.kTileSizePixels with 8. rewrite (wrap_u_small 16 X), (wrap_u_small 16 Y) by lia.
  assert (0 <= X / 8 < 64) by (split; [apply Z.div_pos; lia | apply Z.div_lt_upper_bound; lia]).
  assert (0 <= Y / 8 < 60) by (split; [apply Z.div_pos; lia | apply Z.div_lt_upper_bound; lia]).
  rewrite (wrap_u_small 16 (X / 8)), (wrap_u_small 16 (Y / 8)), !land_1_mod by lia.
  assert (X / 8 / 32 = X / 256) as -> by (rewrite Z.div_div by lia; done).
  assert (Y / 8 / 30 = Y / 240) as -> by (rewrite Z.div_div by lia; done).
  assert (0 <= X / 256 < 2) by (split; [apply Z.div_pos; lia | apply Z.div_lt_upper_bound; lia]).
  assert (0 <= Y / 240 < 2) by (split; [apply Z.div_pos; lia | apply Z.div_lt_upper_bound; lia]).
  rewrite (Z.mod_small (X / 256) 2), (Z.mod_small (Y / 240) 2) by lia.
  assert ((X / 8) mod 32 = (X mod 256) / 8) as -> by (Z.div_mod_to_equations; lia).
  assert ((Y / 8) mod 30 = (Y mod 240) / 8) as -> by (Z.div_mod_to_equations; lia).
  assert (0 <= (X mod 256) / 8 < 32) by (Z.div_mod_to_equations; lia).
  assert (0 <= (Y mod 240) / 8 < 30) by (Z.div_mod_to_equations; lia).
  rewrite (wrap_u_small 16 (X / 256)), (wrap_u_small 16 (Y / 240)), (wrap_u_small 16 ((X mod 256) / 8)),
    (wrap_u_small 16 ((Y mod 240) / 8)) by lia.
  rewrite <- Z.add_assoc, wrap_u_small by lia. rewrite mirrored_ok by lia.
  pose proof (page_range (mirror s) (2 * (Y / 240) + X / 256) ltac:(lia)).
  rewrite vec_get_byte; [by rewrite Z.add_assoc |]. destruct Hs as (_ & _ & _ & _ & _ & -> & _). lia.
Qed.

Lemma world_tile_range X Y : 0 <= world_tile s X Y < 256.
Proof. apply byte_range. by destruct Hs as (_ & _ & _ & _ & _ & _ & _ & H). Qed.

(** ** Patterns *)
Lemma base_ok id : 0 <= id < 256 -> F.tilePatternBaseOffset s id = pattern_base s id /\ 0 <= pattern_base s id <= 8192 - 16.
Proof.
  intros Hid. unfold F.tilePatternBaseOffset, pattern_base. change F.kPatternBytesPerTile with 16.
  pose proof (land_pow2_div 4 (ppuCtrl s) ltac:(lia)) as E. change (2 ^ 4) with 16 in E. rewrite E.
  assert (negb ((ppuCtrl s / 16) mod 2 * 16 =? 0) = Z.testbit (ppuCtrl s) 4) as ->.
  { change 16 with (2 ^ 4) at 1. rewrite <- Z.testbit_spec' by lia. by destruct (Z.testbit (ppuCtrl s) 4). }
  split; [done |]. destruct (Z.testbit _ _); lia.
Qed.

Lemma chr_byte i : 0 <= i < 8192 -> vec_get (chr s) i = Ok (byte_at (chr s) i).
Proof. intros Hi. apply vec_get_byte. destruct Hs as (_ & _ & _ & _ & -> & _). lia. Qed.

Lemma tilePatternHash_ok id : 0 <= id < 256 -> F.tilePatternHash s id = Ok (tile_hash s id).
Proof.
  intros Hid. unfold F.tilePatternHash, tile_hash, fnv1a. destruct (base_ok id Hid) as [-> Hb].
  rewrite fold_left_map.
  apply (for_range_fold 16 (fun hash i => u64 (Z.lxor hash (byte_at (chr s) (pattern_base s id + i)) * F.kFnvPrime))).
  intros i x Hi. by rewrite chr_byte by lia.
Qed.

Lemma tilePatternPixel_ok id px py :
  0 <= id < 256 -> 0 <= px < 8 -> 0 <= py < 8 -> F.tilePatternPixel s id px py = Ok (tile_pixel s id px py).
Proof.
  intros Hid Hx Hy. unfold F.tilePatternPixel, tile_pixel. destruct (base_ok id Hid) as [-> Hb].
  rewrite !chr_byte by lia. cbn [rbind]. f_equal. rewrite (wrap_u_small 8 (7 - px)) by lia.
  rewrite !land_1_mod, !Z.shiftr_div_pow2, <- !Z.testbit_spec' by lia.
  by destruct (Z.testbit _ _), (Z.testbit (byte_at _ (_ + 8 + _)) _).
Qed.

(** ** The scroll position, the sampled tiles and the pixels *)
Definition scroll_x : Z := Z.b2z (Z.testbit (v s) 10) * 256 + v s mod 32 * 8 + fineX s mod 8.
Definition scroll_y : Z := Z.b2z (Z.testbit (v s) 11) * 240 + (v s / 32) mod 32 * 8 + (v s / 4096) mod 8.

Lemma scroll_ranges : 0 <= scroll_x < 512 /\ 0 <= scroll_y < 496.
Proof.
  unfold scroll_x, scroll_y. pose proof (Z.mod_pos_bound (v s) 32 ltac:(lia)).
  pose proof (Z.mod_pos_bound (fineX s) 8 ltac:(lia)). pose proof (Z.mod_pos_bound (v s / 32) 32 ltac:(lia)).
  pose proof (Z.mod_pos_bound (v s / 4096) 8 ltac:(lia)).
  destruct (Z.testbit (v s) 10), (Z.testbit (v s) 11); cbn [Z.b2z]; lia.
Qed.

Lemma scrollX_ok : F.scrollXFromV s = scroll_x.
Proof.
  unfold F.scrollXFromV. rewrite land_1_mod, Z.shiftr_div_pow2, <- Z.testbit_spec' by lia.
  rewrite (Z.land_ones (v s) 5 : _ -> Z.land (v s) 0x1f = _), (Z.land_ones (fineX s) 3 : _ -> Z.land (fineX s) 7 = _) by lia.
  apply (wrap_u_small 16). pose proof scroll_ranges. unfold scroll_x in *. change (2 ^ 5) with 32. change (2 ^ 3) with 8.
  change F.kFullFrameWidthPixels with 256. change F.kTileSizePixels with 8. lia.
Qed.

Lemma scrollY_ok : F.scrollYFromV s = scroll_y.
Proof.
  unfold F.scrollYFromV. rewrite land_1_mod, !Z.shiftr_div_pow2, <- Z.testbit_spec' by lia.
  rewrite (Z.land_ones (v s / 2 ^ 5) 5 : _ -> Z.land (v s / 2 ^ 5) 0x1f = _),
    (Z.land_ones (v s / 2 ^ 12) 3 : _ -> Z.land (v s / 2 ^ 12) 7 = _) by lia.
  apply (wrap_u_small 16). pose proof scroll_ranges. unfold scroll_y in *. change (2 ^ 5) with 32. change (2 ^ 3) with 8.
  change (2 ^ 12) with 4096. change F.kFullFrameHeightPixels with 240. change F.kTileSizePixels with 8. lia.
Qed.

(** The tile at the centre of a cell, and a pixel of the cropped screen. *)
Definition cell_tile (gx gy : Z) : Z :=
  world_tile s ((scroll_x + (gx * 8 + 4)) mod 512) ((scroll_y + (gy * 8 + 12)) mod 480).
Definition screen_pixel (x y : Z) : Z :=
  let X := (scroll_x + x) mod 512 in
  let Y := (scroll_y + (y + 8)) mod 480 in
  tile_pixel s (world_tile s X Y) (X mod 8) (Y mod 8).

Lemma tile_ids_ok v0 :
  Z.of_nat (length v0) = 32 * 28 ->
  exists ids, F.tile_ids s scroll_x scroll_y v0 = Ok ids /\ row_major 32 28 cell_tile (28 * 32) ids.
Proof.
  intros Hl. pose proof scroll_ranges. apply scan_fill_ok; [lia | lia | done |]. intros x y v Hx Hy Hv. cbv beta zeta.
  change F.kTileSizePixels with 8. change F.TopCropPixels with 8.
  rewrite (wrap_u_small 16 (x * 8 + 4)), (wrap_u_small 16 (y * 8 + 4 + 8)) by lia.
  rewrite readNametable_ok by lia. unfold cell_tile. by replace (y * 8 + 12) with (y * 8 + 4 + 8) by lia.
Qed.

Lemma pattern_pixels_ok v0 :
  Z.of_nat (length v0) = 256 * 224 ->
  exists pixels, F.pattern_pixels s scroll_x scroll_y v0 = Ok pixels /\ row_major 256 224 screen_pixel (224 * 256) pixels.
Proof.
  intros Hl. pose proof scroll_ranges. apply scan_fill_ok; [lia | lia | done |]. intros x y v Hx Hy Hv. cbv beta zeta.
  change F.kTileSizePixels with 8. change F.TopCropPixels with 8. rewrite (wrap_u_small 16 (y + 8)) by lia.
  rewrite readNametable_ok by lia. cbn [rbind]. unfold screen_pixel.
  pose proof (Z.mod_pos_bound (scroll_x + x) 512 ltac:(lia)). pose proof (Z.mod_pos_bound (scroll_y + (y + 8)) 480 ltac:(lia)).
  set (X := (scroll_x + x) mod 512) in *. set (Y := (scroll_y + (y + 8)) mod 480) in *.
  pose proof (Z.mod_pos_bound X 8 ltac:(lia)). pose proof (Z.mod_pos_bound Y 8 ltac:(lia)).
  rewrite (wrap_u_small 16 X), (wrap_u_small 16 Y), (wrap_u_small 8 (X mod 8)), (wrap_u_small 8 (Y mod 8)) by lia.
  rewrite tilePatternPixel_ok; [done | apply world_tile_range | done | done].
Qed.

Lemma tile_hashes_ok ids v0 :
  length v0 = length ids -> Forall (fun id => 0 <= id < 256) ids ->
  F.tile_hashes s ids v0 = Ok (map (tile_hash s) ids).
Proof.
  intros Hl Hids. unfold F.tile_hashes.
  rewrite (fill_ok (length ids) (fun i => tile_hash s (byte_at ids i))); [| done |].
  - f_equal. apply list_eq. intros i. rewrite !list_lookup_fmap. destruct (decide (i < length ids)%nat) as [Hi | Hi].
    + rewrite lookup_seqZ_lt by lia. unfold byte_at. cbn [fmap option_fmap option_map].
      replace (Z.to_nat (0 + Z.of_nat i)) with i by lia. by destruct (lookup_lt_is_Some_2 ids i Hi) as [x ->].
    + rewrite lookup_seqZ_ge by lia. by rewrite (lookup_ge_None_2 ids i) by lia.
  - intros i v Hi Hv. rewrite vec_get_byte by done. cbn [rbind]. rewrite tilePatternHash_ok; [done |].
    unfold byte_at. destruct (ids !! Z.to_nat i) as [x |] eqn:E; cbn; [| lia]. by apply (Forall_lookup_1 _ _ _ _ Hids E).
Qed.

(** With the scroll on a tile boundary, a cell shows one tile. *)
Lemma aligned_pixels x y :
  scroll_x mod 8 = 0 -> scroll_y mod 8 = 0 -> 0 <= x -> 0 <= y ->
  screen_pixel x y = tile_pixel s (cell_tile (x / 8) (y / 8)) (x mod 8) (y mod 8).
Proof.
  intros Hsx Hsy Hx Hy. unfold screen_pixel, cell_tile, world_tile.
  replace (((scroll_x + x) mod 512) mod 8) with (x mod 8) by (Z.div_mod_to_equations; lia).
  replace (((scroll_y + (y + 8)) mod 480) mod 8) with (y mod 8) by (Z.div_mod_to_equations; lia).
  do 3 f_equal; [f_equal |]; [do 3 f_equal |..]; Z.div_mod_to_equations; lia.
Qed.
End Snapshot.

(** ** The frame *)
Lemma makeNesTileFrame_ok (s : NesPpuSnapshot) (includePatternPixels : bool) :
  snapshot_wf s ->
  exists frame, F.makeNesTileFrame s includePatternPixels = Ok frame /\
    F.frameId frame = ppu_frameId s /\ F.scrollX frame = scroll_x s /\ F.scrollY frame = scroll_y s /\
    row_major 32 28 (cell_tile s) (28 * 32) (F.tileIds frame) /\
    F.tilePatternHashes frame = map (tile_hash s) (F.tileIds frame) /\
    (if includePatternPixels then row_major 256 224 (screen_pixel s) (224 * 256) (F.patternPixels frame)
     else F.patternPixels frame = replicate (Z.to_nat (256 * 224)) 0).
Proof.
  intros Hs. unfold F.makeNesTileFrame. rewrite scrollX_ok, scrollY_ok.
  change (F.VisibleWidthPixels * F.VisibleHeightPixels) with (256 * 224).
  change (F.VisibleTileColumns * F.VisibleTileRows) with (32 * 28).
  destruct (pattern_pixels_ok s Hs (replicate (Z.to_nat (256 * 224)) 0)) as (pixels & Hp & Hpix);
    [rewrite length_replicate; lia |].
  destruct (tile_ids_ok s Hs (replicate (Z.to_nat (32 * 28)) 0)) as (ids & Hi & Hids);
    [rewrite length_replicate; lia |].
  assert (F.tile_hashes s ids (replicate (Z.to_nat (32 * 28)) 0) = Ok (map (tile_hash s) ids)) as Hh.
  { apply tile_hashes_ok; [done | rewrite length_replicate; destruct Hids; lia |].
    by apply (row_major_Forall 32 28 _ _ _ ltac:(lia) Hids); intros; apply world_tile_range. }
  exists (F.mk (ppu_frameId s) (scroll_x s) (scroll_y s)
    (if includePatternPixels then pixels else replicate (Z.to_nat (256 * 224)) 0) (map (tile_hash s) ids) ids).
  split.
  { destruct includePatternPixels; cbn [rbind]; rewrite ?Hp; cbn [rbind]; rewrite Hi; cbn [rbind]; by rewrite Hh. }
  do 5 (split; [done |]). by destruct includePatternPixels.
Qed.

(** ** Main theorem *)


(** C39. For every snapshot of the right sizes the tile frame is built without
    reading out of range: its scroll position is decoded from the loopy [v]
    register, every cell holds the nametable tile under its centre (with the
    cartridge's mirroring), every hash is the FNV-1a hash of that tile's pattern,
    and the pixels are the patterns of the world the screen scrolls over; when the
    scroll is on a tile boundary, cells and pixels show the same tiles. *)
Theorem tile_frame (s : NesPpuSnapshot) (includePatternPixels : bool) :
  snapshot_wf s ->
  exists frame, F.makeNesTileFrame s includePatternPixels = Ok frame /\
    F.frameId frame = ppu_frameId s /\ F.scrollX frame = scroll_x s /\ F.scrollY frame = scroll_y s /\
    row_major 32 28 (cell_tile s) (28 * 32) (F.tileIds frame) /\
    F.tilePatternHashes frame = map (tile_hash s) (F.tileIds frame) /\
    (if includePatternPixels then row_major 256 224 (screen_pixel s) (224 * 256) (F.patternPixels frame)
     else F.patternPixels frame = replicate (Z.to_nat (256 * 224)) 0) /\
    (scroll_x s mod 8 = 0 -> scroll_y s mod 8 = 0 -> forall x y, 0 <= x < 256 -> 0 <= y < 224 ->
       exists id, F.tileIds frame !! Z.to_nat (y / 8 * 32 + x / 8) = Some id /\
         screen_pixel s x y = tile_pixel s id (x mod 8) (y mod 8)).
Proof.
  intros Hs. destruct (makeNesTileFrame_ok s includePatternPixels Hs) as (frame & E & ? & ? & ? & Hids & ? & ?).
  exists frame. do 7 (split; [done |]). intros Hsx Hsy x y Hx Hy. exists (cell_tile s (x / 8) (y / 8)).
  split; [| apply aligned_pixels; lia]. apply (proj2 Hids); Z.div_mod_to_equations; lia.
Qed.

(** ** A concrete snapshot: scrolled to (264, 243), with a pattern per tile *)
Definition demo_snapshot : NesPpuSnapshot :=
  mkNesPpuSnapshot 7 0x3C01 0 1 0x10 0
    (map (fun i => i mod 251) (seqZ 0 8192)) [] (map (fun i => (i * 7) mod 256) (seqZ 0 2048)).

Lemma demo_snapshot_wf : snapshot_wf demo_snapshot.
Proof.
  unfold snapshot_wf, demo_snapshot. cbn [v fineX mirror ppuCtrl chr vram]. do 4 (split; [lia |]).
  rewrite !length_map, !length_seqZ, !Z2Nat.id by lia. do 2 (split; [done |]).
  split; apply Forall_map, Forall_forall; intros i _; pose proof (Z.mod_pos_bound i 251 ltac:(lia));
    pose proof (Z.mod_pos_bound (i * 7) 256 ltac:(lia)); cbn; lia.
Qed.

Lemma tile_frame_witness :
  (scroll_x demo_snapshot, scroll_y demo_snapshot) = (264, 243) /\
  exists frame, F.makeNesTileFrame demo_snapshot false = Ok frame /\
    row_major 32 28 (cell_tile demo_snapshot) (28 * 32) (F.tileIds frame) /\
    F.tilePatternHashes frame = map (tile_hash demo_snapshot) (F.tileIds frame).
Proof.
  split; [by vm_compute |].
  destruct (tile_frame demo_snapshot false demo_snapshot_wf) as (frame & E & _ & _ & _ & Hids & Hh & _).
  exists frame. split; [exact E | by split].
Defined.
