(* ===== verification/NesTileTokens.v ===== *)
(** Tokens for tile patterns: the tokenizer's invariant and what each of its
    operations does, the vocabulary as the ranks of the sampled hashes, and the
    path from snapshots to token frames around the player. *)

From Stdlib Require Import ZArith Lia Bool String.
From stdpp Require Import base gmap option numbers list strings pretty sorting.
From S2P Require Import Prelude.
From S2P Require Import NesTiles.
From S2P Require Import NesTileFacts.

Set Default Goal Selector "!".

Module T := NesTileTokenizer.

(** ** The invariant

    The tokens in use are exactly [1 .. nextToken_ - 1], one hash each. *)
Record tok_wf (s : T.t) : Prop := mk_tok_wf {
  wf_vocab : 2 <= T.vocabSize_ s < 2 ^ 16;
  wf_next : 1 <= T.nextToken_ s <= T.vocabSize_ s;
  wf_range : forall h k, T.hashToToken_ s !! h = Some k -> 1 <= k < T.nextToken_ s;
  wf_inj : forall h h' k, T.hashToToken_ s !! h = Some k -> T.hashToToken_ s !! h' = Some k -> h = h';
  wf_count : Z.of_nat (size (T.hashToToken_ s)) = T.nextToken_ s - 1
}.

Lemma empty_tok_wf mode vocab : 2 <= vocab < 2 ^ 16 -> tok_wf (T.mk ∅ mode 1 vocab).
Proof.
  intros Hv. split; simpl; [done | lia | | | by rewrite map_size_empty]; intros *; by rewrite lookup_empty.
Qed.

(** A hash the vocabulary does not have takes the next token. *)
Lemma insert_tok_wf s h mode :
  tok_wf s -> T.hashToToken_ s !! h = None -> T.nextToken_ s < T.vocabSize_ s ->
  tok_wf (T.mk (<[h := T.nextToken_ s]> (T.hashToToken_ s)) mode (T.nextToken_ s + 1) (T.vocabSize_ s)).
Proof.
  intros [Hv Hn Hr Hi Hc] Hh Hlt. split; cbn.
  - done.
  - lia.
  - intros h' k [[<- <-] | [_ Hk]]%lookup_insert_Some; [lia |]. apply Hr in Hk. lia.
  - intros h1 h2 k [[<- <-] | [_ H1]]%lookup_insert_Some [[<- E] | [_ H2]]%lookup_insert_Some.
    + done.
    + apply Hr in H2. lia.
    + subst. apply Hr in H1. lia.
    + by apply (Hi _ _ _ H1).
  - rewrite map_size_insert_None by done. lia.
Qed.

(** The error and the fresh token of [tokenForHash], as one function of the state. *)
Definition can_learn (s : T.t) : Prop := T.getMode s = T.Learning /\ T.nextToken_ s < T.vocabSize_ s.
#[global] Instance can_learn_dec s : Decision (can_learn s).
Proof. unfold can_learn. apply _. Defined.

Definition learn (h : Z) (s : T.t) : T.t :=
  T.mk (<[h := T.nextToken_ s]> (T.hashToToken_ s)) (T.mode_ s) (T.nextToken_ s + 1) (T.vocabSize_ s).

Lemma tokenForHash_known h k s : T.hashToToken_ s !! h = Some k -> T.tokenForHash (Some h) s = (okay k, s).
Proof. intros H. unfold T.tokenForHash. by rewrite H. Qed.

Lemma tokenForHash_learn h s :
  tok_wf s -> T.hashToToken_ s !! h = None -> can_learn s ->
  T.tokenForHash (Some h) s = (okay (T.nextToken_ s), learn h s).
Proof.
  intros Hs H [Hm Hlt]. unfold T.tokenForHash. rewrite H. unfold T.getMode in Hm. rewrite bool_decide_eq_false_2 by congruence.
  rewrite (proj2 (Z.leb_gt _ _)) by lia. unfold learn. destruct Hs. rewrite (wrap_u_small 16) by lia. done.
Qed.

Lemma tokenForHash_error h s :
  T.hashToToken_ s !! h = None -> ~ can_learn s -> exists e, T.tokenForHash (Some h) s = (error e, s).
Proof.
  intros H Hc. unfold T.tokenForHash. rewrite H. case_bool_decide as Hm; [eauto |].
  destruct (Z.leb_spec (T.vocabSize_ s) (T.nextToken_ s)); [eauto |].
  destruct Hc. split; [| done]. unfold T.getMode. by destruct (T.mode_ s).
Qed.

(** [s'] extends [s]: every token given stays given. *)
Definition extends (s s' : T.t) : Prop :=
  T.hashToToken_ s ⊆ T.hashToToken_ s' /\ T.mode_ s' = T.mode_ s /\ T.vocabSize_ s' = T.vocabSize_ s.

#[global] Instance extends_preorder : PreOrder extends.
Proof.
  split.
  - done.
  - intros s1 s2 s3 (H & Hm & Hv) (H' & Hm' & Hv'). split; [by etrans | split; congruence].
Qed.

Lemma learn_extends h s : T.hashToToken_ s !! h = None -> extends s (learn h s).
Proof. intros H. split; [by apply insert_subseteq | done]. Qed.

Lemma extends_lookup s s' h k : extends s s' -> T.hashToToken_ s !! h = Some k -> T.hashToToken_ s' !! h = Some k.
Proof. intros [H _] Hk. by apply (lookup_weaken _ _ _ _ Hk). Qed.

(** A call preserves the invariant and extends the vocabulary; a token it
    returns is the token of that hash from then on. *)
Lemma tokenForHash_spec h s r s' :
  tok_wf s -> T.tokenForHash (Some h) s = (r, s') ->
  tok_wf s' /\ extends s s' /\
  match r with okay k => T.hashToToken_ s' !! h = Some k | error _ => s' = s /\ T.hashToToken_ s !! h = None /\ ~ can_learn s end.
Proof.
  intros Hs E. destruct (T.hashToToken_ s !! h) as [k |] eqn:Hh.
  - rewrite (tokenForHash_known h k s Hh) in E. injection E as <- <-. done.
  - destruct (decide (can_learn s)) as [Hc | Hc].
    + rewrite tokenForHash_learn in E by done. injection E as <- <-. split; [by apply insert_tok_wf; [| | apply Hc] |].
      split; [by apply learn_extends |]. apply lookup_insert_eq.
    + destruct (tokenForHash_error h s Hh Hc) as [e He]. rewrite He in E. by injection E as <- <-.
Qed.

(** ** The loops over a table of hashes *)
Lemma tokens_loop_spec context i hashes s r s' :
  tok_wf s -> T.tokens_loop context i hashes s = (r, s') ->
  tok_wf s' /\ extends s s' /\
  match r with
  | okay tokens => Forall2 (fun h k => T.hashToToken_ s' !! h = Some k) hashes tokens
  | error _ => exists h, h ∈ hashes /\ T.hashToToken_ s' !! h = None
  end.
Proof.
  revert i s r s'. induction hashes as [| h hashes IH]; intros i s r s' Hs E; cbn [T.tokens_loop] in E.
  - injection E as <- <-. done.
  - revert E. destruct (T.tokenForHash (Some h) s) as [r1 s1] eqn:E1.
    apply tokenForHash_spec in E1 as (Hs1 & He1 & Hr1); [| done]. destruct r1 as [k | e].
    + destruct (T.tokens_loop context (i + 1) hashes s1) as [r2 s2] eqn:E2.
      apply IH in E2 as (Hs2 & He2 & Hr2); [| done]. destruct r2 as [ks | e]; intros [= <- <-].
      * split; [done |]. split; [by etrans |]. constructor; [by apply (extends_lookup s1) | done].
      * split; [done |]. split; [by etrans |]. destruct Hr2 as (h' & Hin & Hh'). exists h'. split; [by right | done].
    + intros [= <- <-]. split; [done |]. split; [done |]. destruct Hr1 as (-> & Hh & _). exists h. split; [left | done].
Qed.

(** Every hash known: the tokens are those of the vocabulary, which is unchanged. *)
Lemma tokens_loop_known context i hashes s :
  Forall (fun h => is_Some (T.hashToToken_ s !! h)) hashes ->
  T.tokens_loop context i hashes s = (okay (map (fun h => default 0 (T.hashToToken_ s !! h)) hashes), s).
Proof.
  revert i. induction hashes as [| h hashes IH]; intros i H; [done |].
  apply Forall_cons in H as [[k Hk] H]. cbn [T.tokens_loop]. rewrite (tokenForHash_known h k s Hk), IH by done.
  cbn [map]. by rewrite Hk.
Qed.

(** A vocabulary that cannot learn: an unknown hash is an error, at the first
    position that holds one. *)
Lemma tokens_loop_unknown context i hashes s :
  ~ can_learn s -> Exists (fun h => T.hashToToken_ s !! h = None) hashes ->
  exists k h e, hashes !! k = Some h /\ T.hashToToken_ s !! h = None /\
    Forall (fun h => is_Some (T.hashToToken_ s !! h)) (take k hashes) /\
    T.tokens_loop context i hashes s = (error (context (i + Z.of_nat k) +:+ e), s).
Proof.
  intros Hc. revert i. induction hashes as [| h hashes IH]; intros i H; [by inversion H |].
  destruct (T.hashToToken_ s !! h) as [t |] eqn:Hh.
  - apply Exists_cons in H as [H | H]; [congruence |]. destruct (IH (i + 1) H) as (k & h' & e & Hk & Hn & Hall & E).
    exists (S k), h', e. split; [done |]. split; [done |]. split; [cbn [take]; constructor; [by eexists | done] |].
    cbn [T.tokens_loop]. rewrite (tokenForHash_known h t s Hh), E. do 4 f_equal. lia.
  - destruct (tokenForHash_error h s Hh Hc) as [e He]. exists 0%nat, h, e. split; [done |]. split; [done |].
    split; [constructor |]. cbn [T.tokens_loop]. rewrite He. by rewrite Z.add_0_r.
Qed.

(** ** The vocabulary: a token is one more than the rank of its hash *)
Lemma unique_cons a b l : T.unique (a :: b :: l) = if a =? b then T.unique (b :: l) else a :: T.unique (b :: l).
Proof. done. Qed.

Lemma unique_elem l x : x ∈ T.unique l <-> x ∈ l.
Proof.
  induction l as [| a [| b l] IH]; [done | done |]. rewrite unique_cons. destruct (Z.eqb_spec a b) as [-> | Hne].
  - rewrite IH. set_solver.
  - rewrite !(elem_of_cons _ x a). by rewrite IH.
Qed.

Lemma unique_sorted l : StronglySorted Z.le l -> StronglySorted Z.lt (T.unique l).
Proof.
  induction l as [| a [| b l] IH]; intros H; [constructor | by repeat constructor |].
  apply StronglySorted_cons in H as [Ha Hs]. rewrite unique_cons. destruct (Z.eqb_spec a b) as [-> | Hne]; [by apply IH |].
  constructor; [by apply IH |]. apply Forall_forall. intros x Hx. rewrite unique_elem in Hx.
  apply StronglySorted_cons in Hs as [Hb _]. apply Forall_cons in Ha as [Hab Ha].
  apply elem_of_cons in Hx as [-> | Hx]; [lia |]. rewrite Forall_forall in Hb. specialize (Hb x Hx). lia.
Qed.

Lemma sorted_lt_NoDup l : StronglySorted Z.lt l -> NoDup l.
Proof.
  induction 1 as [| a l Hl IH Ha]; constructor; [| done]. intros Hin. rewrite Forall_forall in Ha.
  specialize (Ha a Hin). lia.
Qed.

Lemma sorted_lt_le l : StronglySorted Z.lt l -> StronglySorted Z.le l.
Proof. induction 1 as [| a l Hl IH Ha]; constructor; [done |]. eapply Forall_impl; [done |]. intros x Hx. simpl in *. lia. Qed.

Lemma sorted_lt_unique l l' : StronglySorted Z.lt l -> StronglySorted Z.lt l' -> (forall x, x ∈ l <-> x ∈ l') -> l = l'.
Proof.
  intros Hl Hl' H. apply (StronglySorted_unique Z.le).
  - by apply sorted_lt_le.
  - by apply sorted_lt_le.
  - apply NoDup_Permutation; [by apply sorted_lt_NoDup | by apply sorted_lt_NoDup | done].
Qed.

(** The distinct hashes, in increasing order. *)
Definition distinct (hashes : list Z) : list Z := T.unique (merge_sort Z.le hashes).

Lemma distinct_spec hashes : StronglySorted Z.lt (distinct hashes) /\ forall x, x ∈ distinct hashes <-> x ∈ hashes.
Proof.
  split.
  - apply unique_sorted. apply (StronglySorted_merge_sort _ hashes).
  - intros x. unfold distinct. rewrite unique_elem. by rewrite merge_sort_Permutation.
Qed.

Definition rank (U : gset Z) (h : Z) : Z := Z.of_nat (size (filter (fun u => u < h) U)).

Lemma rank_index l i h : StronglySorted Z.lt l -> l !! i = Some h -> rank (list_to_set l) h = Z.of_nat i.
Proof.
  intros Hl Hi. pose proof (lookup_lt_Some _ _ _ Hi) as Hlt. apply list_elem_of_split_length in Hi as (l1 & l2 & -> & ->).
  unfold rank. f_equal.
  enough (filter (fun u => u < h) (list_to_set (l1 ++ h :: l2) : gset Z) = list_to_set l1) as ->.
  { apply size_list_to_set, sorted_lt_NoDup. by apply StronglySorted_app_1_l in Hl. }
  apply set_eq. intros x. rewrite elem_of_filter, !elem_of_list_to_set, elem_of_app, elem_of_cons.
  split; [intros [Hx [H1 | [-> | H2]]]; [done | lia |] | intros H1; split; [| by left]].
  - apply StronglySorted_app_1_r in Hl. apply StronglySorted_cons in Hl as [Hf _]. rewrite Forall_forall in Hf.
    specialize (Hf x H2). lia.
  - by apply (StronglySorted_app_1_elem_of Z.lt l1 (h :: l2) x h Hl H1); left.
Qed.

Lemma assign_tokens_spec l m k :
  NoDup l -> (forall h, h ∈ l -> m !! h = None) -> 0 <= k -> k + Z.of_nat (length l) < 2 ^ 16 ->
  exists m', T.assign_tokens l m k = (m', k + Z.of_nat (length l)) /\
    Z.of_nat (size m') = Z.of_nat (size m) + Z.of_nat (length l) /\
    (forall i h, l !! i = Some h -> m' !! h = Some (k + Z.of_nat i)) /\
    (forall h, h ∉ l -> m' !! h = m !! h).
Proof.
  revert m k. induction l as [| a l IH]; intros m k Hnd Hm Hk Hlt.
  - exists m. cbn. rewrite !Z.add_0_r. by repeat split.
  - apply NoDup_cons in Hnd as [Ha Hnd]. cbn [T.assign_tokens length] in *. rewrite (Hm a) by left.
    rewrite (wrap_u_small 16) by lia.
    destruct (IH (<[a := k]> m) (k + 1)) as (m' & E & Hsz & Hi & Ho).
    + done.
    + intros h Hh. rewrite lookup_insert_ne; [by apply Hm; right | by intros ->].
    + lia.
    + lia.
    + exists m'. rewrite E. split; [f_equal; lia |]. split; [|split].
      * rewrite Hsz, map_size_insert_None by (apply Hm; left). lia.
      * intros [| i] h Hl; cbn in Hl; [| rewrite (Hi i h Hl); f_equal; lia].
        injection Hl as ->. rewrite Ho, lookup_insert_eq by done. f_equal. lia.
      * intros h Hh. apply not_elem_of_cons in Hh as [Hne Hh]. by rewrite Ho, lookup_insert_ne by done.
Qed.

(** The token a vocabulary built from the set [U] of hashes gives. *)
Definition vocab_token (U : gset Z) (h : Z) : option Z := if decide (h ∈ U) then Some (1 + rank U h) else None.

Lemma distinct_set hashes : list_to_set (distinct hashes) = (list_to_set hashes : gset Z).
Proof. apply set_eq. intros x. rewrite !elem_of_list_to_set. apply distinct_spec. Qed.

Lemma distinct_size hashes : length (distinct hashes) = size (list_to_set hashes : gset Z).
Proof. rewrite <- distinct_set. rewrite size_list_to_set; [done |]. apply sorted_lt_NoDup, distinct_spec. Qed.

Lemma distinct_token hashes h k :
  vocab_token (list_to_set hashes) h = Some k <-> exists i, distinct hashes !! i = Some h /\ k = 1 + Z.of_nat i.
Proof.
  destruct (distinct_spec hashes) as [Hs He]. unfold vocab_token. rewrite <- distinct_set. split.
  - case_decide as Hh; [| done]. intros [= <-]. apply elem_of_list_to_set, list_elem_of_lookup in Hh as [i Hi].
    exists i. split; [done |]. by rewrite (rank_index _ _ _ Hs Hi).
  - intros (i & Hi & ->). rewrite decide_True; [by rewrite (rank_index _ _ _ Hs Hi) |].
    apply elem_of_list_to_set, list_elem_of_lookup. by exists i.
Qed.

Lemma buildVocabulary_ok hashes s :
  2 <= T.vocabSize_ s < 2 ^ 16 -> Z.of_nat (size (list_to_set hashes : gset Z)) < T.vocabSize_ s ->
  exists s', T.buildVocabulary hashes s = (okay (Z.of_nat (size (list_to_set hashes : gset Z))), s') /\
    tok_wf s' /\ T.mode_ s' = T.Learning /\ T.vocabSize_ s' = T.vocabSize_ s /\
    forall h, T.hashToToken_ s' !! h = vocab_token (list_to_set hashes) h.
Proof.
  intros Hv Hsz. pose proof (distinct_spec hashes) as [Hs He]. rewrite <- distinct_size in *.
  destruct (assign_tokens_spec (distinct hashes) ∅ 1) as (m & E & Hm & Hi & Ho);
    [by apply sorted_lt_NoDup | intros; apply lookup_empty | lia | lia |].
  assert (forall h, m !! h = vocab_token (list_to_set hashes) h) as Hlook.
  { intros h. unfold vocab_token. case_decide as Hh.
    - destruct (proj1 (distinct_token hashes h (1 + rank (list_to_set hashes) h))) as (i & Hd & Hr).
      { unfold vocab_token. by rewrite decide_True. }
      by rewrite (Hi i h Hd), Hr.
    - rewrite Ho; [apply lookup_empty |]. rewrite He. by rewrite elem_of_list_to_set in Hh. }
  rewrite map_size_empty in Hm.
  exists (T.mk m T.Learning (1 + Z.of_nat (length (distinct hashes))) (T.vocabSize_ s)).
  split; [| split; [| done]].
  - unfold T.buildVocabulary. fold (distinct hashes). rewrite (proj2 (Z.leb_gt _ _)) by lia.
    change (T.VoidToken + 1) with 1. rewrite E. do 2 f_equal. lia.
  - split; cbn [T.vocabSize_ T.nextToken_ T.hashToToken_]; [done | lia | | | lia].
    + intros h k Hk. rewrite Hlook in Hk. apply distinct_token in Hk as (i & Hd & ->).
      apply lookup_lt_Some in Hd. lia.
    + intros h h' k Hk Hk'. rewrite Hlook in Hk, Hk'. apply distinct_token in Hk as (i & Hd & ->).
      apply distinct_token in Hk' as (i' & Hd' & Ek). assert (i = i') as -> by lia. congruence.
Qed.

Lemma buildVocabulary_full hashes s :
  T.vocabSize_ s <= Z.of_nat (size (list_to_set hashes : gset Z)) ->
  exists e, T.buildVocabulary hashes s = (error e, s).
Proof.
  intros H. unfold T.buildVocabulary. fold (distinct hashes). rewrite distinct_size.
  rewrite (proj2 (Z.leb_le _ _)) by done. eauto.
Qed.

Lemma buildVocabulary_spec hashes s r s' :
  tok_wf s -> T.buildVocabulary hashes s = (r, s') -> tok_wf s' /\ T.vocabSize_ s' = T.vocabSize_ s.
Proof.
  intros Hs E. pose proof (wf_vocab s Hs) as Hv.
  destruct (decide (Z.of_nat (size (list_to_set hashes : gset Z)) < T.vocabSize_ s)) as [Hlt | Hge].
  - destruct (buildVocabulary_ok hashes s Hv Hlt) as (s1 & E1 & Hw & _ & Hvs & _). rewrite E1 in E. by injection E as <- <-.
  - destruct (buildVocabulary_full hashes s) as [e E1]; [lia |]. rewrite E1 in E. by injection E as <- <-.
Qed.

(** ** The tokenizer as a transition system *)
Inductive tok_step : T.t -> T.t -> Prop :=
| step_build hashes r s s' : T.buildVocabulary hashes s = (r, s') -> tok_step s s'
| step_freeze s : tok_step s (T.freeze s)
| step_token hash r s s' : T.tokenForHash hash s = (r, s') -> tok_step s s'
| step_remap table r s s' : T.tileIdTokenRemapBuild table s = (r, s') -> tok_step s s'
| step_reset s : tok_step s (T.reset s).

Definition tok_reachable (vocabSize : Z) (s : T.t) : Prop :=
  exists s0, T.make vocabSize = Ok s0 /\ rtc tok_step s0 s.

Lemma tok_step_wf s s' : tok_step s s' -> tok_wf s -> tok_wf s' /\ T.vocabSize_ s' = T.vocabSize_ s.
Proof.
  intros [hashes r s1 s2 E | s1 | [h |] r s1 s2 E | table r s1 s2 E | s1] Hs.
  - by apply (buildVocabulary_spec hashes s1 r).
  - by destruct Hs.
  - by apply tokenForHash_spec in E as (? & (_ & _ & ?) & _).
  - by injection E as _ <-.
  - by apply tokens_loop_spec in E as (? & (_ & _ & ?) & _).
  - split; [| done]. apply empty_tok_wf, Hs.
Qed.

Lemma tok_reachable_wf vocab s : 0 <= vocab < 2 ^ 16 -> tok_reachable vocab s -> tok_wf s /\ T.vocabSize_ s = vocab.
Proof.
  intros Hv (s0 & E & Hr). unfold T.make in E. apply rbind_ok_inv in E as ([] & Ha & [= <-]).
  unfold dirtsim_assert in Ha. destruct (Z.ltb_spec (T.VoidToken + 1) vocab) as [Hlt |]; [| done].
  change (T.VoidToken + 1) with 1 in *. remember (T.mk ∅ T.Learning 1 vocab) as s0 eqn:E0.
  assert (tok_wf s0 /\ T.vocabSize_ s0 = vocab) as H0 by (subst; split; [apply empty_tok_wf; lia | done]).
  clear E0 Ha. induction Hr as [| s0 s1 s2 Hstep _ IH]; [done |]. apply IH.
  destruct (tok_step_wf _ _ Hstep (proj1 H0)) as [Hw E]. rewrite E. by split; [| apply H0].
Qed.

(** ** Main theorems *)

(** In every state a tokenizer reaches - whatever vocabularies are built,
    hashes looked up, tables mapped, freezes and resets made - the tokens in use
    are [1 .. nextToken_ - 1], each of one hash, below the vocabulary's size. A
    lookup returns the void token for no hash and, for a hash, a token the hash
    keeps from then on; it fails, without a change, only when the hash is unknown
    and the tokenizer is frozen or full. *)
Lemma tokenizer_states (vocabSize : Z) (s : T.t) :
  0 <= vocabSize < 2 ^ 16 -> tok_reachable vocabSize s ->
  tok_wf s /\ T.vocabSize_ s = vocabSize /\ T.tokenForHash None s = (okay 0, s) /\
  forall h r s', T.tokenForHash (Some h) s = (r, s') ->
    extends s s' /\
    match r with
    | okay k => 1 <= k < vocabSize /\ T.hashToToken_ s' !! h = Some k
    | error _ => s' = s /\ T.hashToToken_ s !! h = None /\
                 (T.getMode s = T.Frozen \/ T.getMappedHashCount s = vocabSize - 1)
    end.
Proof.
  intros Hv Hr. destruct (tok_reachable_wf vocabSize s Hv Hr) as [Hs Hvs]. do 3 (split; [done |]).
  intros h r s' E. apply tokenForHash_spec in E as (Hs' & He & Hm); [| done]. split; [done |]. destruct r as [k | e].
  - split; [| done]. pose proof (wf_range s' Hs' h k Hm). pose proof (wf_next s' Hs'). destruct He as (_ & _ & E). lia.
  - destruct Hm as (-> & Hh & Hc). split; [done |]. split; [done |]. unfold can_learn in Hc.
    destruct (T.getMode s) eqn:Em; [right | by left]. pose proof (wf_count s Hs). pose proof (wf_next s Hs).
    unfold T.getMappedHashCount. destruct (decide (T.nextToken_ s < T.vocabSize_ s)); [by destruct Hc | lia].
Qed.

(** Building a vocabulary depends only on the set of hashes, neither on
    their order nor on repetitions: it fits when there are fewer hashes than the
    vocabulary has tokens, and then the token of a hash is one more than the
    number of smaller hashes; otherwise it fails and the tokenizer is unchanged. *)
Lemma vocabulary_ranks (hashes : list Z) (s : T.t) :
  2 <= T.vocabSize_ s < 2 ^ 16 ->
  let U := list_to_set hashes : gset Z in
  (forall hashes', list_to_set hashes' = U -> T.buildVocabulary hashes' s = T.buildVocabulary hashes s) /\
  if decide (Z.of_nat (size U) < T.vocabSize_ s) then
    exists s', T.buildVocabulary hashes s = (okay (Z.of_nat (size U)), s') /\
      T.getMode s' = T.Learning /\ T.getMappedHashCount s' = Z.of_nat (size U) /\
      forall h, fst (T.tokenForHash (Some h) (T.freeze s')) =
        if decide (h ∈ U) then okay (1 + rank U h)
        else error ("NesTileTokenizer: Frozen vocabulary missing tile pattern hash " +:+ pretty h)
  else exists e, T.buildVocabulary hashes s = (error e, s).
Proof.
  intros Hv. cbv zeta. split.
  { intros hashes' E. unfold T.buildVocabulary. fold (distinct hashes') (distinct hashes).
    enough (distinct hashes' = distinct hashes) as -> by done.
    apply sorted_lt_unique; [apply distinct_spec.. |]. intros x.
    rewrite (proj2 (distinct_spec hashes')), (proj2 (distinct_spec hashes)).
    by rewrite <- !(elem_of_list_to_set (C := gset Z)), E. }
  case_decide as Hlt; [| by apply buildVocabulary_full; lia].
  destruct (buildVocabulary_ok hashes s Hv Hlt) as (s' & E & Hw & Hm & Hvs & Hlook). exists s'. split; [done |].
  split; [done |]. split.
  - unfold T.getMappedHashCount. rewrite (wf_count s' Hw). rewrite <- distinct_size in *.
    unfold T.buildVocabulary in E. fold (distinct hashes) in E. rewrite (proj2 (Z.leb_gt _ _)) in E by lia.
    destruct (T.assign_tokens _ _ _) as [m k]. injection E as E <-. rewrite <- E. symmetry. apply (wf_count _ Hw).
  - intros h. unfold T.tokenForHash. cbn [T.freeze T.hashToToken_ T.mode_]. rewrite Hlook. unfold vocab_token.
    by case_decide.
Qed.

(** ** Concrete instances *)
Definition demo_learned : T.t := snd (T.tokenForHash (Some 90) (T.mk ∅ T.Learning 1 3)).

Lemma demo_tok_reachable : tok_reachable 3 (T.freeze demo_learned).
Proof.
  exists (T.mk ∅ T.Learning 1 3). split; [done |]. eapply rtc_l.
  - eapply (step_token (Some 90)). unfold demo_learned. apply surjective_pairing.
  - eapply rtc_l; [apply step_freeze | apply rtc_refl].
Qed.

Lemma tokenizer_states_witness :
  let s := T.freeze demo_learned in
  fst (T.tokenForHash (Some 90) s) = okay 1 /\
  (exists e, fst (T.tokenForHash (Some 91) s) = error e) /\ tok_wf s /\
  T.getMode s = T.Frozen /\
  forall h r s', T.tokenForHash (Some h) s = (r, s') -> extends s s'.
Proof.
  split; [by vm_compute |]. split; [by eexists; vm_compute |].
  destruct (tokenizer_states 3 (T.freeze demo_learned) ltac:(lia) demo_tok_reachable) as (Hw & _ & _ & H).
  split; [exact Hw |]. split; [done |]. intros h r s' E. apply (H h r s' E).
Defined.

Lemma vocabulary_ranks_witness :
  T.vocabSize_ (T.mk ∅ T.Learning 1 4) = 4 /\
  fst (T.buildVocabulary [70; 50; 70] (T.mk ∅ T.Learning 1 4)) = okay 2 /\
  (forall hashes', list_to_set hashes' = (list_to_set [70; 50; 70] : gset Z) ->
     T.buildVocabulary hashes' (T.mk ∅ T.Learning 1 4) = T.buildVocabulary [70; 50; 70] (T.mk ∅ T.Learning 1 4)) /\
  (exists e, T.buildVocabulary [70; 50; 60; 80] (T.mk ∅ T.Learning 1 4) = (error e, T.mk ∅ T.Learning 1 4)).
Proof.
  split; [done |]. split; [by vm_compute |]. split.
  - exact (proj1 (vocabulary_ranks [70; 50; 70] (T.mk ∅ T.Learning 1 4) ltac:(simpl; lia))).
  - exact (proj2 (vocabulary_ranks [70; 50; 60; 80] (T.mk ∅ T.Learning 1 4) ltac:(simpl; lia))).
Defined.
