(* ===== verification/NesTileSenses.v ===== *)
(** From snapshots to the senses of a player: the grid of tokens around the
    player, and the whole path from the sampled snapshots of a vocabulary to
    sensory data. *)

From Stdlib Require Import ZArith Lia Bool String.
From stdpp Require Import base gmap option numbers list strings pretty sorting.
From S2P Require Import Prelude.
From S2P Require Import Ieee.
From S2P Require Import NesTypes.
From S2P Require Import NesTiles.
From S2P Require Import NesTileFacts.
From S2P Require Import NesTileTokens.

Set Default Goal Selector "!".

Module R := NesPlayerRelativeTileFrame.

(** ** The tile of a pixel: the floor of an eighth of it *)
Lemma tileCoordinate_ok pixel : - 2 ^ 15 <= pixel < 2 ^ 15 -> R.tileCoordinateForPixel pixel = pixel / 8.
Proof.
  intros H. unfold R.tileCoordinateForPixel. change R.TileSizePixels with 8. change (s16 8) with 8.
  destruct (Z.leb_spec 0 pixel).
  - rewrite Z.quot_div_nonneg by lia. apply (wrap_s_small 16); [lia |].
    split; [pose proof (Z.div_pos pixel 8); lia | apply Z.div_lt_upper_bound; lia].
  - rewrite Z.quot_div_nonneg by lia. rewrite (wrap_s_small 16); Z.div_mod_to_equations; lia.
Qed.

(** ** The grid around the player *)
Section Relative.
Context (tokens : list Z) (px py : Z).
Context (Hlen : Z.of_nat (length tokens) = 32 * 28) (Hpx : - 2 ^ 15 <= px < 2 ^ 15) (Hpy : - 2 ^ 15 <= py < 2 ^ 15).

Definition on_screen (c r : Z) : bool := (0 <=? c) && (c <? 32) && (0 <=? r) && (r <? 28).

(** The player stands at column 31, row 27 of a 63x55 grid; what is off screen is void. *)
Definition relative_token (c r : Z) : Z :=
  let sc := c - 31 + px / 8 in
  let sr := r - 27 + py / 8 in
  if on_screen sc sr then byte_at tokens (sr * 32 + sc) else 0.

(** After [k] screen cells. *)
Definition relative_upto (k : Z) (v : list Z) : Prop :=
  Z.of_nat (length v) = 63 * 55 /\
  forall c r, 0 <= c < 63 -> 0 <= r < 55 ->
    v !! Z.to_nat (r * 63 + c) =
    Some (if (r - 27 + py / 8) * 32 + (c - 31 + px / 8) <? k then relative_token c r else 0).

Lemma relative_step x y v :
  0 <= x < 32 -> 0 <= y < 28 -> relative_upto (y * 32 + x) v ->
  let c := 31 + x - px / 8 in
  let r := 27 + y - py / 8 in
  0 <= c < 63 -> 0 <= r < 55 ->
  relative_upto (y * 32 + x + 1) (<[Z.to_nat (r * 63 + c) := byte_at tokens (y * 32 + x)]> v).
Proof.
  intros Hx Hy [Hl Hv] c r Hc Hr. split; [by rewrite length_insert |]. intros c' r' Hc' Hr'.
  rewrite lookup_insert_Z by nia. case_decide as E.
  - destruct (row_major_index_inj 63 c r c' r' Hc Hc' E) as [<- <-]. unfold relative_token, on_screen, c, r.
    replace (27 + y - py / 8 - 27 + py / 8) with y by lia. replace (31 + x - px / 8 - 31 + px / 8) with x by lia.
    rewrite (proj2 (Z.ltb_lt (y * 32 + x) _)) by lia.
    by assert ((0 <=? x) && (x <? 32) && (0 <=? y) && (y <? 28) = true) as -> by lia.
  - rewrite Hv by done. f_equal. unfold relative_token, on_screen.
    set (sc := c' - 31 + px / 8). set (sr := r' - 27 + py / 8).
    destruct (Z.ltb_spec (sr * 32 + sc) (y * 32 + x)), (Z.ltb_spec (sr * 32 + sc) (y * 32 + x + 1)); [done | lia | | done].
    case_match eqn:Es; [| done]. exfalso. apply E. assert (sc = x /\ sr = y) as [] by lia. unfold sc, sr, c, r in *. nia.
Qed.

Lemma relative_skip x y v :
  0 <= x < 32 -> 0 <= y < 28 -> relative_upto (y * 32 + x) v ->
  ~ (0 <= 31 + x - px / 8 < 63 /\ 0 <= 27 + y - py / 8 < 55) -> relative_upto (y * 32 + x + 1) v.
Proof.
  intros Hx Hy [Hl Hv] Hout. split; [done |]. intros c' r' Hc' Hr'. rewrite Hv by done. f_equal.
  unfold relative_token, on_screen. set (sc := c' - 31 + px / 8). set (sr := r' - 27 + py / 8).
  destruct (Z.ltb_spec (sr * 32 + sc) (y * 32 + x)), (Z.ltb_spec (sr * 32 + sc) (y * 32 + x + 1)); [done | lia | | done].
  case_match eqn:Es; [| done]. exfalso. apply Hout. assert (sc = x /\ sr = y) as [] by lia. unfold sc, sr in *. lia.
Qed.

Lemma relative_start : relative_upto 0 (replicate (Z.to_nat (63 * 55)) 0).
Proof.
  split; [rewrite length_replicate; lia |]. intros c r Hc Hr. rewrite lookup_replicate_2 by nia. f_equal.
  unfold relative_token, on_screen. case_match; [| done]. symmetry. case_match eqn:Es; [lia | done].
Qed.
End Relative.

Lemma relative_tokens_ok tokens px py :
  Z.of_nat (length tokens) = 32 * 28 -> - 2 ^ 15 <= px < 2 ^ 15 -> - 2 ^ 15 <= py < 2 ^ 15 ->
  wp (scan R.ScreenTileColumns R.ScreenTileRows (fun screenColumn screenRow v =>
      let relativeColumn := s16 (R.AnchorTileColumn + screenColumn - px / 8) in
      let relativeRow := s16 (R.AnchorTileRow + screenRow - py / 8) in
      if (relativeColumn <? 0) || (R.RelativeTileColumns <=? relativeColumn)
         || (relativeRow <? 0) || (R.RelativeTileRows <=? relativeRow)
      then Ok v
      else
        let! token := vec_get tokens (R.screenTileIndex screenColumn screenRow) in
        vec_set v (R.relativeTileIndex relativeColumn relativeRow) token)
    (replicate (Z.to_nat (63 * 55)) 0))
    (relative_upto tokens px py (28 * 32)).
Proof.
  intros Hl Hpx Hpy. change R.ScreenTileColumns with 32. change R.ScreenTileRows with 28.
  apply (wp_scan (relative_upto tokens px py)); [lia | lia | apply relative_start |].
  intros x y v Hx Hy Hv. cbv zeta. change R.AnchorTileColumn with 31. change R.AnchorTileRow with 27.
  change R.RelativeTileColumns with 63. change R.RelativeTileRows with 55.
  assert (- 4096 <= px / 8 < 4096 /\ - 4096 <= py / 8 < 4096) as [] by (Z.div_mod_to_equations; lia).
  rewrite (wrap_s_small 16 (31 + x - px / 8)), (wrap_s_small 16 (27 + y - py / 8)) by lia.
  match goal with |- context [if ?b then _ else _] => destruct b eqn:Hout end.
  - apply wp_ok. apply relative_skip; [done | done | done | lia].
  - assert (0 <= 31 + x - px / 8 < 63 /\ 0 <= 27 + y - py / 8 < 55) as [Hc Hr] by lia.
    unfold R.screenTileIndex, R.relativeTileIndex. change R.RelativeTileColumns with 63. change R.ScreenTileColumns with 32.
    rewrite (wrap_u_small 64 x), (wrap_u_small 64 y), (wrap_u_small 64 (31 + _ - _)), (wrap_u_small 64 (27 + _ - _)) by lia.
    rewrite !(wrap_u_small 64) by lia. rewrite vec_get_byte by lia. cbn [rbind].
    apply wp_vec_set; [destruct Hv; lia |]. by apply relative_step.
Qed.

Lemma makeRelative_ok tf px py :
  Z.of_nat (length (NesTileTokenFrame.tokens tf)) = 32 * 28 -> - 2 ^ 15 <= px < 2 ^ 15 -> - 2 ^ 15 <= py < 2 ^ 15 ->
  exists f, R.makeNesPlayerRelativeTileFrame tf px py = Ok f /\
    R.frameId f = NesTileTokenFrame.frameId tf /\ R.scrollX f = NesTileTokenFrame.scrollX tf /\
    R.scrollY f = NesTileTokenFrame.scrollY tf /\ R.playerScreenX f = px /\ R.playerScreenY f = py /\
    R.playerTileColumn f = px / 8 /\ R.playerTileRow f = py / 8 /\
    row_major 63 55 (relative_token (NesTileTokenFrame.tokens tf) px py) (55 * 63) (R.tokens f).
Proof.
  intros Hl Hpx Hpy. pose proof (relative_tokens_ok _ px py Hl Hpx Hpy) as H.
  apply wp_elim in H as (v & E & Hlv & Hv). unfold R.makeNesPlayerRelativeTileFrame.
  rewrite !tileCoordinate_ok by done. change (R.RelativeTileColumns * R.RelativeTileRows) with (63 * 55).
  change NesTileTokenizer.VoidToken with 0. cbv zeta in E |- *. rewrite E. cbn [rbind]. eexists. split; [done |].
  do 7 (split; [done |]). split; [done |]. intros c r Hc Hr _. cbn [R.tokens]. rewrite Hv by done. f_equal.
  destruct (Z.ltb_spec ((r - 27 + py / 8) * 32 + (c - 31 + px / 8)) (28 * 32)); [done |].
  unfold relative_token, on_screen. set (sc := c - 31 + px / 8) in *. set (sr := r - 27 + py / 8) in *.
  case_match eqn:Es; [lia | done].
Qed.

(** ** Sampled patterns *)
Module B := NesTileVocabularyBuilder.
Module S := NesTileSensoryBuilder.

Fixpoint addSnapshots (snapshots : list NesPpuSnapshot) (b : B.t) : res B.t :=
  match snapshots with
  | [] => Ok b
  | s :: snapshots => let! b := B.addSnapshot s b in addSnapshots snapshots b
  end.

(** The patterns of the 256 tiles of a snapshot's pattern table. *)
Definition patterns (s : NesPpuSnapshot) : list Z := map (tile_hash s) (seqZ 0 256).
Definition sampled (snapshots : list NesPpuSnapshot) : gset Z := list_to_set (concat (map patterns snapshots)).

Lemma idHashes_ok s : snapshot_wf s -> F.makeNesTileIdPatternHashes s = Ok (patterns s).
Proof.
  intros Hs. apply (fill_ok 256 (tile_hash s)); [by rewrite length_replicate |]. intros i v Hi Hv.
  rewrite (wrap_u_small 8 i) by lia. by rewrite (tilePatternHash_ok s Hs) by lia.
Qed.

Lemma patterns_elem s id : 0 <= id < 256 -> tile_hash s id ∈ patterns s.
Proof.
  intros H. unfold patterns. apply list_elem_of_fmap. exists id. split; [done |]. apply elem_of_seqZ. lia.
Qed.

(** A snapshot adds its pattern table and then its frame, whose patterns are
    among those of the table. *)
Lemma addSnapshot_ok s b :
  snapshot_wf s -> exists ids, Forall (fun id => 0 <= id < 256) ids /\
    B.addSnapshot s b = Ok (B.mk ((B.tilePatternHashes_ b ++ patterns s) ++ map (tile_hash s) ids)).
Proof.
  intros Hs. destruct (makeNesTileFrame_ok s true Hs) as (frame & E & _ & _ & _ & Hids & Hh & _).
  exists (F.tileIds frame). split.
  - apply (row_major_Forall 32 28 (cell_tile s) _ _ ltac:(lia) Hids). intros x y _ _. by apply world_tile_range.
  - unfold B.addSnapshot. rewrite idHashes_ok by done. cbn [rbind]. rewrite E. cbn [rbind]. unfold B.addFrame. by rewrite Hh.
Qed.

Lemma union_absorb (A P I C : gset Z) : I ⊆ P -> A ∪ P ∪ I ∪ C = A ∪ (P ∪ C).
Proof. set_solver. Qed.

Lemma addSnapshots_ok snapshots b :
  Forall snapshot_wf snapshots -> exists b', addSnapshots snapshots b = Ok b' /\
    list_to_set (B.tilePatternHashes_ b') = list_to_set (B.tilePatternHashes_ b) ∪ sampled snapshots /\
    (snapshots <> [] -> B.tilePatternHashes_ b' <> []).
Proof.
  revert b. induction snapshots as [| s snapshots IH]; intros b H.
  - exists b. split; [done |]. split; [| done]. unfold sampled. cbn. by rewrite (right_id_L ∅ (∪)).
  - apply Forall_cons in H as [Hs H]. destruct (addSnapshot_ok s b Hs) as (ids & Hids & E).
    destruct (IH (B.mk ((B.tilePatternHashes_ b ++ patterns s) ++ map (tile_hash s) ids)) H) as (b' & E' & Hset & _). exists b'. cbn [addSnapshots]. rewrite E. cbn [rbind]. split; [exact E' |].
    assert (list_to_set (B.tilePatternHashes_ b') = list_to_set (B.tilePatternHashes_ b) ∪ sampled (s :: snapshots)) as Hset'.
    { rewrite Hset. cbn [B.tilePatternHashes_]. unfold sampled. cbn [map concat]. rewrite !list_to_set_app_L.
      assert (list_to_set (map (tile_hash s) ids) ⊆ (list_to_set (patterns s) : gset Z)) as Hsub.
      { intros h. rewrite !elem_of_list_to_set, list_elem_of_fmap. intros (id & -> & Hid). apply patterns_elem.
        rewrite Forall_forall in Hids. by apply Hids. }
      by apply union_absorb. }
    split; [exact Hset' |]. intros _ Hnil. rewrite Hnil in Hset'. cbn in Hset'.
    assert (tile_hash s 0 ∈ (∅ : gset Z)) as Habs; [| by apply not_elem_of_empty in Habs].
    rewrite Hset'. apply elem_of_union_r. unfold sampled. cbn [map concat]. rewrite list_to_set_app_L.
    apply elem_of_union_l, elem_of_list_to_set. apply patterns_elem. lia.
Qed.

(** ** The frozen vocabulary of the samples *)
Lemma buildFrozen_ok b vocab :
  2 <= vocab < 2 ^ 16 -> B.tilePatternHashes_ b <> [] ->
  let U := list_to_set (B.tilePatternHashes_ b) : gset Z in
  if decide (Z.of_nat (size U) < vocab) then
    exists tok, B.buildFrozenTokenizer_new vocab b = Ok (okay tok) /\
      T.getMode tok = T.Frozen /\ forall h, T.hashToToken_ tok !! h = vocab_token U h
  else exists e, B.buildFrozenTokenizer_new vocab b = Ok (error e).
Proof.
  intros Hv Hne U. unfold B.buildFrozenTokenizer_new, T.make, dirtsim_assert. change (T.VoidToken + 1) with 1.
  rewrite (proj2 (Z.ltb_lt _ _)) by lia. cbn [rbind]. unfold B.buildFrozenTokenizer.
  rewrite bool_decide_eq_false_2 by done. case_decide as Hlt.
  - destruct (buildVocabulary_ok (B.tilePatternHashes_ b) (T.mk ∅ T.Learning 1 vocab) Hv Hlt) as (s' & E & _ & _ & _ & Hlook).
    rewrite E. exists (T.freeze s'). done.
  - destruct (buildVocabulary_full (B.tilePatternHashes_ b) (T.mk ∅ T.Learning 1 vocab)) as [e E]; [cbn; unfold U in *; lia |].
    rewrite E. by eexists.
Qed.

(** ** Token frames of a frozen vocabulary *)
Section FrozenVocabulary.
Context (tok : T.t) (U : gset Z).
Context (Hfrozen : T.getMode tok = T.Frozen) (Hlook : forall h, T.hashToToken_ tok !! h = vocab_token U h).

Lemma frozen_cannot_learn : ~ can_learn tok.
Proof. intros [Hm _]. congruence. Qed.

Lemma tokenFrame_known frame :
  Forall (fun h => h ∈ U) (F.tilePatternHashes frame) ->
  NesTileTokenFrame.makeNesTileTokenFrame frame tok =
  (okay (NesTileTokenFrame.mk (F.frameId frame) (F.scrollX frame) (F.scrollY frame)
           (map (fun h => 1 + rank U h) (F.tilePatternHashes frame))), tok).
Proof.
  intros H. unfold NesTileTokenFrame.makeNesTileTokenFrame. rewrite tokens_loop_known.
  - do 3 f_equal. apply map_ext_Forall. eapply Forall_impl; [exact H |]. intros h Hh. cbn.
    rewrite Hlook. unfold vocab_token. by rewrite decide_True.
  - eapply Forall_impl; [exact H |]. intros h Hh. cbn. rewrite Hlook. unfold vocab_token. rewrite decide_True by done. by eexists.
Qed.

Lemma tokenFrame_unknown frame :
  Exists (fun h => h ∉ U) (F.tilePatternHashes frame) ->
  exists e, NesTileTokenFrame.makeNesTileTokenFrame frame tok = (error e, tok).
Proof.
  intros H. unfold NesTileTokenFrame.makeNesTileTokenFrame.
  edestruct tokens_loop_unknown as (k & h & e & _ & _ & _ & E); [exact frozen_cannot_learn | |].
  - eapply Exists_impl; [exact H |]. intros h Hh. cbn. rewrite Hlook. unfold vocab_token. by rewrite decide_False.
  - rewrite E. by eexists.
Qed.

(** The token at a grid cell of the player's view. *)
Definition sense_token (s : NesPpuSnapshot) (px py c r : Z) : Z :=
  let sc := c - 31 + px / 8 in
  let sr := r - 27 + py / 8 in
  if on_screen sc sr then 1 + rank U (tile_hash s (cell_tile s sc sr)) else 0.

Lemma relative_sense ids s px py c r :
  row_major 32 28 (cell_tile s) (28 * 32) ids ->
  relative_token (map (fun h => 1 + rank U h) (map (tile_hash s) ids)) px py c r = sense_token s px py c r.
Proof.
  intros [_ Hids]. unfold relative_token, sense_token. case_match eqn:E; [| done]. unfold on_screen in E.
  unfold byte_at. rewrite !list_lookup_fmap, Hids by lia. done.
Qed.

Lemma senses_known s (input : S.Input) :
  snapshot_wf s -> (- 2 ^ 15 <= S.playerScreenX input < 2 ^ 15) -> (- 2 ^ 15 <= S.playerScreenY input < 2 ^ 15) ->
  (forall gx gy, 0 <= gx < 32 -> 0 <= gy < 28 -> tile_hash s (cell_tile s gx gy) ∈ U) ->
  exists senses, S.makeNesTileSensoryDataFromPpuSnapshot s tok input = Ok (okay senses, tok) /\
    row_major 63 55 (sense_token s (S.playerScreenX input) (S.playerScreenY input)) (55 * 63)
      (R.tokens (NesTileSensoryData.tileFrame senses)).
Proof.
  intros Hs Hx Hy Hall. destruct (makeNesTileFrame_ok s true Hs) as (frame & E & _ & _ & _ & Hids & Hh & _).
  unfold S.makeNesTileSensoryDataFromPpuSnapshot. rewrite E. cbn [rbind].
  unfold S.makeNesTileSensoryDataFromTileFrame. rewrite tokenFrame_known.
  - destruct (makeRelative_ok (NesTileTokenFrame.mk (F.frameId frame) (F.scrollX frame) (F.scrollY frame)
           (map (fun h => 1 + rank U h) (F.tilePatternHashes frame))) (S.playerScreenX input) (S.playerScreenY input))
      as (f & Ef & _ & _ & _ & _ & _ & _ & _ & Hrow); [| done | done |].
    + cbn [NesTileTokenFrame.tokens]. rewrite Hh, !length_map. apply Hids.
    + rewrite Ef. cbn [rbind]. eexists. split; [done |]. destruct Hrow as [Hl Hrow]. split; [exact Hl |].
      intros c r Hc Hr Hk. cbn. rewrite (Hrow c r Hc Hr Hk). cbn [NesTileTokenFrame.tokens]. f_equal. rewrite Hh.
      by apply relative_sense.
  - rewrite Hh. apply Forall_map. by apply (row_major_Forall 32 28 (cell_tile s) _ _ ltac:(lia) Hids).
Qed.

Lemma senses_unknown s input gx gy :
  snapshot_wf s -> 0 <= gx < 32 -> 0 <= gy < 28 -> tile_hash s (cell_tile s gx gy) ∉ U ->
  exists e, S.makeNesTileSensoryDataFromPpuSnapshot s tok input = Ok (error e, tok).
Proof.
  intros Hs Hx Hy Hun. destruct (makeNesTileFrame_ok s true Hs) as (frame & E & _ & _ & _ & Hids & Hh & _).
  unfold S.makeNesTileSensoryDataFromPpuSnapshot. rewrite E. cbn [rbind].
  unfold S.makeNesTileSensoryDataFromTileFrame. destruct (tokenFrame_unknown frame) as [e Ee].
  - rewrite Hh. apply Exists_exists. exists (tile_hash s (cell_tile s gx gy)). split; [| done].
    apply list_elem_of_fmap. eexists. split; [done |]. apply list_elem_of_lookup. eexists. apply (proj2 Hids gx gy); lia.
  - rewrite Ee. by eexists.
Qed.
End FrozenVocabulary.

Lemma sampled_tile s snapshots id : s ∈ snapshots -> 0 <= id < 256 -> tile_hash s id ∈ sampled snapshots.
Proof.
  intros Hin Hid. unfold sampled. apply elem_of_list_to_set, list_elem_of_In, in_concat. exists (patterns s).
  split; [by apply in_map, list_elem_of_In | by apply list_elem_of_In, patterns_elem].
Qed.

(** ** Main theorems *)

(** The player's view is a 63x55 grid with the player's tile (the floor of
    an eighth of the pixel, also for negative pixels) at column 31, row 27: every
    grid cell holds the token of the screen tile at that offset, or the void
    token off screen, with no index out of range and no wrap of the 16-bit
    coordinates; while the player is on screen, every screen tile is in view. *)
Lemma relative_frame (tf : NesTileTokenFrame.t) (px py : Z) :
  Z.of_nat (length (NesTileTokenFrame.tokens tf)) = 32 * 28 -> - 2 ^ 15 <= px < 2 ^ 15 -> - 2 ^ 15 <= py < 2 ^ 15 ->
  exists f, R.makeNesPlayerRelativeTileFrame tf px py = Ok f /\
    R.playerTileColumn f = px / 8 /\ R.playerTileRow f = py / 8 /\
    row_major 63 55 (relative_token (NesTileTokenFrame.tokens tf) px py) (55 * 63) (R.tokens f) /\
    (0 <= px < 256 -> 0 <= py < 224 -> forall column row, 0 <= column < 32 -> 0 <= row < 28 ->
       R.tokens f !! Z.to_nat ((27 + row - py / 8) * 63 + (31 + column - px / 8)) =
       NesTileTokenFrame.tokens tf !! Z.to_nat (row * 32 + column)).
Proof.
  intros Hl Hpx Hpy. destruct (makeRelative_ok tf px py Hl Hpx Hpy) as (f & E & _ & _ & _ & _ & _ & Hc & Hr & Hrow).
  exists f. do 4 (split; [done |]). intros Hx Hy column row Hcol Hr'.
  assert (0 <= px / 8 < 32 /\ 0 <= py / 8 < 28) as [] by (Z.div_mod_to_equations; lia).
  rewrite (proj2 Hrow) by lia. unfold relative_token, on_screen.
  replace (27 + row - py / 8 - 27 + py / 8) with row by lia. replace (31 + column - px / 8 - 31 + px / 8) with column by lia.
  assert ((0 <=? column) && (column <? 32) && (0 <=? row) && (row <? 28) = true) as -> by lia. unfold byte_at.
  destruct (in_range_lookup (NesTileTokenFrame.tokens tf) (row * 32 + column)) as [x ->]; [lia | done].
Qed.

(** C38. From snapshots to senses: a builder fed with snapshots yields a frozen
    tokenizer exactly when their distinct tile patterns are fewer than the
    vocabulary size. With it, a snapshot all of whose visible tiles have sampled
    patterns - in particular every sampled snapshot - gives sensory data whose grid
    holds one more than the rank of the pattern of the tile at each offset from
    the player; a snapshot showing an unknown pattern gives an error; the
    tokenizer never changes. *)
Theorem frozen_senses (snapshots : list NesPpuSnapshot) (vocabSize : Z) :
  Forall snapshot_wf snapshots -> snapshots <> [] -> 2 <= vocabSize < 2 ^ 16 ->
  let U := sampled snapshots in
  exists b, addSnapshots snapshots B.empty = Ok b /\
  if decide (Z.of_nat (size U) < vocabSize) then
    exists tok, B.buildFrozenTokenizer_new vocabSize b = Ok (okay tok) /\
    forall s input, snapshot_wf s ->
      - 2 ^ 15 <= S.playerScreenX input < 2 ^ 15 -> - 2 ^ 15 <= S.playerScreenY input < 2 ^ 15 ->
      ((s ∈ snapshots \/ forall gx gy, 0 <= gx < 32 -> 0 <= gy < 28 -> tile_hash s (cell_tile s gx gy) ∈ U) ->
         exists senses, S.makeNesTileSensoryDataFromPpuSnapshot s tok input = Ok (okay senses, tok) /\
           row_major 63 55 (sense_token U s (S.playerScreenX input) (S.playerScreenY input)) (55 * 63)
             (R.tokens (NesTileSensoryData.tileFrame senses))) /\
      (forall gx gy, 0 <= gx < 32 -> 0 <= gy < 28 -> tile_hash s (cell_tile s gx gy) ∉ U ->
         exists e, S.makeNesTileSensoryDataFromPpuSnapshot s tok input = Ok (error e, tok))
  else exists e, B.buildFrozenTokenizer_new vocabSize b = Ok (error e).
Proof.
  intros Hall Hne Hv U. destruct (addSnapshots_ok snapshots B.empty Hall) as (b & E & Hset & Hb). exists b.
  split; [exact E |]. assert (list_to_set (B.tilePatternHashes_ b) = U) as HU.
  { rewrite Hset. apply (left_id_L ∅ (∪)). }
  pose proof (buildFrozen_ok b vocabSize Hv (Hb Hne)) as Hbuild. cbv zeta in Hbuild. rewrite HU in Hbuild.
  destruct (decide _) as [Hlt | Hge]; [| exact Hbuild]. destruct Hbuild as (tok & Etok & Hf & Hlook).
  exists tok. split; [exact Etok |]. intros s input Hs Hx Hy. split.
  - intros Hvis. apply (senses_known tok U Hlook s input Hs Hx Hy). intros gx gy Hgx Hgy.
    destruct Hvis as [Hin | Hvis]; [| by apply Hvis]. apply sampled_tile; [exact Hin | by apply world_tile_range].
  - intros gx gy Hgx Hgy Hun. by apply (senses_unknown tok U Hf Hlook s input gx gy).
Qed.

(** ** Concrete instances *)
Definition demo_input : S.Input :=
  S.mkInput 40 (-3) (f32_of_Z 1) (f32_of_Z 0) (f32_of_Z 0) 0x41 [] (f32_of_Z 1) (f32_of_Z 1) (f64_of_Z 0).

Lemma relative_frame_witness :
  let tf := NesTileTokenFrame.mk 1 0 0 (seqZ 0 896) in
  exists f, R.makeNesPlayerRelativeTileFrame tf 40 100 = Ok f /\ R.playerTileColumn f = 5 /\ R.playerTileRow f = 12 /\
    R.tokens f !! Z.to_nat (27 * 63 + 31) = Some (12 * 32 + 5).
Proof.
  destruct (relative_frame (NesTileTokenFrame.mk 1 0 0 (seqZ 0 896)) 40 100) as (f & E & Hc & Hr & _ & Hall).
  - cbn [NesTileTokenFrame.tokens]. rewrite length_seqZ. lia.
  - lia.
  - lia.
  - exists f. split; [exact E |]. split; [exact Hc |]. split; [exact Hr |].
    refine (eq_trans (Hall ltac:(lia) ltac:(lia) 5 12 ltac:(lia) ltac:(lia)) _). cbn [NesTileTokenFrame.tokens].
    by apply lookup_seqZ_lt.
Defined.

Lemma frozen_senses_witness :
  Z.of_nat (size (sampled [demo_snapshot])) = 251 /\
  exists b, addSnapshots [demo_snapshot] B.empty = Ok b /\
  exists tok, B.buildFrozenTokenizer_new 512 b = Ok (okay tok) /\
  exists senses, S.makeNesTileSensoryDataFromPpuSnapshot demo_snapshot tok demo_input = Ok (okay senses, tok).
Proof.
  assert (Z.of_nat (size (sampled [demo_snapshot])) = 251) as Hsz by (by vm_compute).
  split; [exact Hsz |].
  destruct (frozen_senses [demo_snapshot] 512) as (b & E & H);
    [apply Forall_singleton; exact demo_snapshot_wf | discriminate | lia |].
  exists b. split; [exact E |]. rewrite decide_True in H by (rewrite Hsz; lia). destruct H as (tok & Etok & Hs).
  exists tok. split; [exact Etok |].
  destruct (Hs demo_snapshot demo_input demo_snapshot_wf ltac:(cbn; lia) ltac:(cbn; lia)) as [Hk _].
  destruct (Hk (or_introl (list_elem_of_here _ _))) as (senses & Es & _). exists senses. exact Es.
Defined.
