(* ===== verification/Uuid.v ===== *)
(** Identifiers: [core/UUID.{h,cpp}].

    A UUID is its sixteen bytes. [generate] takes the two words it draws from the
    random engine. An exception is an error with the message it carries. *)

From Stdlib Require Import ZArith Lia Bool String Ascii.
From stdpp Require Import base option numbers list countable strings.
From S2P Require Import Prelude.

Set Default Goal Selector "!".

Module UUID.

Record t := mk { bytes_ : list Z }.

#[global] Instance eq_dec : EqDecision t.
Proof. solve_decision. Defined.
#[global] Instance countable : Countable t.
Proof. apply (inj_countable' bytes_ mk). by intros []. Defined.

Definition nil : t := mk (replicate 16 0).

Definition isNil (u : t) : bool := forallb (fun byte => byte =? 0) (bytes_ u).

(** [std::hex] digits. *)
Definition digit (d : Z) : ascii := ascii_of_nat (Z.to_nat (if d <? 10 then 48 + d else 87 + d)).

Definition hexCharToNibble (c : ascii) : Result Z string :=
  let n := Z.of_nat (nat_of_ascii c) in
  if (48 <=? n) && (n <=? 57) then okay (n - 48)
  else if (97 <=? n) && (n <=? 102) then okay (n - 97 + 10)
  else if (65 <=? n) && (n <=? 70) then okay (n - 65 + 10)
  else error "Invalid hex character in UUID string"%string.

(** [setw(2)] of a byte. *)
Definition hex2 (byte : Z) : string :=
  String (digit (Z.shiftr byte 4)) (String (digit (Z.land byte 15)) EmptyString).

(** The bytes from [i] on, with the dashes before the 4th, 6th, 8th and 10th. *)
Fixpoint digits_from (i : Z) (bytes : list Z) : string :=
  match bytes with
  | [] => EmptyString
  | byte :: bytes' =>
      (if (i =? 4) || (i =? 6) || (i =? 8) || (i =? 10) then "-"%string else EmptyString)
        +:+ hex2 byte +:+ digits_from (i + 1) bytes'
  end.

Definition toString (u : t) : string := digits_from 0 (bytes_ u).

Definition toShortString (u : t) : string := String.concat EmptyString (map hex2 (take 4 (bytes_ u))).

(** [str[i]], a zero character at the end. *)
Definition char_at (str : string) (i : Z) : ascii :=
  match String.get (Z.to_nat i) str with Some c => c | None => zero end.

Definition dash : ascii := "-"%char.

(** The loop over [i]; every turn advances it, so 36 turns are enough. *)
Fixpoint parse_loop (fuel : nat) (str : string) (i byteIndex : Z) (bytes : list Z) : res (Result t string) :=
  if negb (i <? Z.of_nat (String.length str)) then Ok (okay (mk bytes))
  else
    match fuel with
    | O => Fault OutOfFuel
    | S fuel =>
        if Ascii.eqb (char_at str i) dash then parse_loop fuel str (u64 (u64 (i - 1) + 2)) byteIndex bytes
        else
          match hexCharToNibble (char_at str i) with
          | error e => Ok (error e)
          | okay high =>
              match hexCharToNibble (char_at str (i + 1)) with
              | error e => Ok (error e)
              | okay low =>
                  let! bytes := vec_set bytes byteIndex (u8 (Z.lor (Z.shiftl high 4) low)) in
                  parse_loop fuel str (u64 (i + 2)) (byteIndex + 1) bytes
              end
          end
    end.

Definition fromString (str : string) : res (Result t string) :=
  if negb (Z.of_nat (String.length str) =? 36) then Ok (error "UUID string must be 36 characters"%string)
  else if negb (Ascii.eqb (char_at str 8) dash) || negb (Ascii.eqb (char_at str 13) dash)
          || negb (Ascii.eqb (char_at str 18) dash) || negb (Ascii.eqb (char_at str 23) dash)
  then Ok (error "UUID string must have dashes at positions 8, 13, 18, 23"%string)
  else parse_loop 36 str 0 0 (replicate 16 0).

(** [UUID::generate] from the words the engine draws. *)
Definition word_byte (word : Z) (i : nat) : Z := u8 (Z.land (Z.shiftr word (56 - Z.of_nat i * 8)) 0xFF).
Definition generate (high low : Z) : t :=
  let bytes := map (word_byte high) (seq 0 8) ++ map (word_byte low) (seq 0 8) in
  let bytes := alter (fun byte => Z.lor (Z.land byte 0x0F) 0x40) 6%nat bytes in
  mk (alter (fun byte => Z.lor (Z.land byte 0x3F) 0x80) 8%nat bytes).

End UUID.

(** ** Facts *)
Definition uuid_wf (u : UUID.t) : Prop :=
  length (UUID.bytes_ u) = 16%nat /\ Forall (fun byte => 0 <= byte < 256) (UUID.bytes_ u).

Lemma nibble_digit d : 0 <= d < 16 -> UUID.hexCharToNibble (UUID.digit d) = okay d.
Proof.
  intros Hd. assert (exists n, d = Z.of_nat n /\ (n < 16)%nat) as (n & -> & Hn) by (exists (Z.to_nat d); lia).
  do 16 (destruct n as [| n]; [reflexivity |]). lia.
Qed.

Lemma digit_not_dash d : 0 <= d < 16 -> Ascii.eqb (UUID.digit d) UUID.dash = false.
Proof.
  intros Hd. assert (exists n, d = Z.of_nat n /\ (n < 16)%nat) as (n & -> & Hn) by (exists (Z.to_nat d); lia).
  do 16 (destruct n as [| n]; [reflexivity |]). lia.
Qed.

Lemma byte_nibbles b : 0 <= b < 256 ->
  0 <= Z.shiftr b 4 < 16 /\ 0 <= Z.land b 15 < 16 /\ u8 (Z.lor (Z.shiftl (Z.shiftr b 4) 4) (Z.land b 15)) = b.
Proof.
  intros Hb. rewrite Z.shiftr_div_pow2 by lia. change 15 with (Z.ones 4). rewrite Z.land_ones by lia.
  split; [split; [apply Z.div_pos; lia | apply Z.div_lt_upper_bound; lia] |].
  split; [apply Z.mod_pos_bound; lia |].
  assert (Z.lor (Z.shiftl (b / 2 ^ 4) 4) (b mod 2 ^ 4) = b) as ->.
  { rewrite <- Z.land_ones, <- Z.shiftr_div_pow2 by lia. apply Z.bits_inj'. intros n Hn.
    rewrite Z.lor_spec, Z.land_spec. destruct (Z.ltb_spec n 4).
    - rewrite Z.shiftl_spec_low, Z.ones_spec_low by lia. by rewrite andb_true_r.
    - rewrite Z.shiftl_spec_high, Z.shiftr_spec, Z.ones_spec_high by lia. replace (n - 4 + 4) with n by lia.
      by rewrite andb_false_r, orb_false_r. }
  unfold u8. apply Z.mod_small. lia.
Qed.

(** *** One turn of the parser *)
Section Turn.
Context (str : string).
Implicit Types (i k : Z) (bytes : list Z).

Lemma turn_dash fuel i k bytes :
  0 <= i < Z.of_nat (String.length str) -> Z.of_nat (String.length str) < 2 ^ 63 -> UUID.char_at str i = UUID.dash ->
  UUID.parse_loop (S fuel) str i k bytes = UUID.parse_loop fuel str (i + 1) k bytes.
Proof.
  intros Hi Hl Hc. cbn [UUID.parse_loop]. rewrite (proj2 (Z.ltb_lt _ _)) by lia. cbn [negb].
  rewrite Hc, Ascii.eqb_refl. f_equal. unfold u64, wrap_u. rewrite Zplus_mod_idemp_l. rewrite Z.mod_small; lia.
Qed.

Lemma turn_byte fuel i k bytes b :
  0 <= i < Z.of_nat (String.length str) -> Z.of_nat (String.length str) < 2 ^ 63 -> 0 <= b < 256 ->
  0 <= k < Z.of_nat (length bytes) ->
  UUID.char_at str i = UUID.digit (Z.shiftr b 4) -> UUID.char_at str (i + 1) = UUID.digit (Z.land b 15) ->
  UUID.parse_loop (S fuel) str i k bytes = UUID.parse_loop fuel str (i + 2) (k + 1) (<[Z.to_nat k := b]> bytes).
Proof.
  intros Hi Hl Hb Hk H1 H2. destruct (byte_nibbles b Hb) as (Hh & Hlo & Hv). cbn [UUID.parse_loop].
  rewrite (proj2 (Z.ltb_lt _ _)) by lia. cbn [negb].
  rewrite H1, digit_not_dash, nibble_digit, H2, nibble_digit, Hv by done.
  unfold vec_set, in_range. rewrite (proj2 (Z.leb_le _ _)), (proj2 (Z.ltb_lt _ _)) by lia. cbn [andb rbind]. f_equal.
  unfold u64, wrap_u. rewrite Z.mod_small; lia.
Qed.
End Turn.

(** *** A printed identifier *)
Lemma char_at_append s s' : UUID.char_at (s +:+ s') (Z.of_nat (String.length s)) = UUID.char_at s' 0.
Proof. unfold UUID.char_at. rewrite Nat2Z.id. induction s as [| c s IH]; [done | apply IH]. Qed.

Lemma char_at_next s s' i : 0 <= i ->
  UUID.char_at (s +:+ s') (Z.of_nat (String.length s) + i) = UUID.char_at s' i.
Proof.
  intros Hi. unfold UUID.char_at. rewrite Z2Nat.inj_add, Nat2Z.id by lia. induction s as [| c s IH]; [done | apply IH].
Qed.

Lemma length_append s s' : String.length (s +:+ s') = (String.length s + String.length s')%nat.
Proof. induction s as [| c s IH]; [done |]. exact (f_equal S IH). Qed.

Lemma append_assoc (s1 s2 s3 : string) : (s1 +:+ s2) +:+ s3 = s1 +:+ (s2 +:+ s3).
Proof. induction s1 as [| c s1 IH]; [done |]. exact (f_equal (String c) IH). Qed.

Definition dashed (k : Z) : bool := (k =? 4) || (k =? 6) || (k =? 8) || (k =? 10).

(** The parser on the rest of a printed identifier, [k] bytes read. *)
Lemma parse_printed bytes pre k acc fuel :
  Forall (fun b => 0 <= b < 256) bytes -> (2 * length bytes <= fuel)%nat -> 0 <= k ->
  Z.of_nat (length acc) = k + Z.of_nat (length bytes) ->
  Z.of_nat (String.length (pre +:+ UUID.digits_from k bytes)) < 2 ^ 63 ->
  UUID.parse_loop fuel (pre +:+ UUID.digits_from k bytes) (Z.of_nat (String.length pre)) k acc
  = Ok (okay (UUID.mk (take (Z.to_nat k) acc ++ bytes))).
Proof.
  revert pre k acc fuel. induction bytes as [| b bytes IH]; intros pre k acc fuel Hb Hf Hk Ha Hlen.
  { cbn [UUID.digits_from] in *. rewrite length_append in *. cbn in Ha, Hlen. destruct fuel; cbn [UUID.parse_loop].
    all: rewrite length_append; cbn [String.length]; rewrite (proj2 (Z.ltb_ge _ _)) by lia; cbn [negb].
    all: by rewrite app_nil_r, take_ge by lia. }
  apply Forall_cons in Hb as [Hb0 Hb]. cbn [UUID.digits_from] in *. fold (dashed k) in *.
  assert (forall p f, (length bytes + length bytes + 1 <= f)%nat ->
    pre +:+ (if dashed k then "-"%string else EmptyString) +:+ UUID.hex2 b +:+ UUID.digits_from (k + 1) bytes
      = p +:+ UUID.hex2 b +:+ UUID.digits_from (k + 1) bytes ->
    UUID.parse_loop f (p +:+ UUID.hex2 b +:+ UUID.digits_from (k + 1) bytes) (Z.of_nat (String.length p)) k acc
      = Ok (okay (UUID.mk (take (Z.to_nat k) acc ++ b :: bytes)))) as Hbyte.
  { intros p f Hf' Hp. rewrite Hp in Hlen. destruct f as [| f]; [lia |]. cbn [length] in Ha.
    rewrite (turn_byte _ f _ _ _ b);
      [| rewrite !length_append; cbn; lia | done | done | lia | by rewrite char_at_append | by rewrite char_at_next by lia].
    rewrite <- append_assoc in Hlen |- *. replace (Z.of_nat (String.length p) + 2) with (Z.of_nat (String.length (p +:+ UUID.hex2 b)))
      by (rewrite length_append; cbn; lia).
    rewrite IH; [| done | lia | lia | rewrite length_insert; lia | done]. do 3 f_equal.
    rewrite Z2Nat.inj_add by lia. change (Z.to_nat 1) with 1%nat. rewrite Nat.add_1_r.
    rewrite (take_S_r _ _ b) by (apply list_lookup_insert_eq; lia). rewrite take_insert_ge by lia.
    by rewrite <- app_assoc. }
  destruct (dashed k) eqn:Hd; cbn [append] in *.
  - destruct fuel as [| fuel]; [simpl in Hf; lia |]. rewrite turn_dash; [| rewrite !length_append; cbn [String.length]; lia | done | by rewrite char_at_append].
    specialize (Hbyte (pre +:+ "-") fuel). rewrite append_assoc, length_append in Hbyte. cbn in Hbyte.
    replace (Z.of_nat (String.length pre) + 1) with (Z.of_nat (String.length pre + 1)) by lia.
    apply Hbyte; [simpl in Hf; lia | done].
  - apply Hbyte; [simpl in Hf; lia | done].
Qed.

Lemma sixteen (l : list Z) : length l = 16%nat ->
  exists b0 b1 b2 b3 b4 b5 b6 b7 b8 b9 b10 b11 b12 b13 b14 b15,
    l = [b0; b1; b2; b3; b4; b5; b6; b7; b8; b9; b10; b11; b12; b13; b14; b15].
Proof. intros H. do 16 (destruct l as [| ? l]; [done |]). destruct l; [| done]. by repeat eexists. Qed.

Lemma printed_shape u : length (UUID.bytes_ u) = 16%nat ->
  String.length (UUID.toString u) = 36%nat /\
  Forall (fun i => UUID.char_at (UUID.toString u) i = UUID.dash) [8; 13; 18; 23].
Proof.
  intros Hl. destruct u as [l]. cbn [UUID.bytes_] in Hl.
  destruct (sixteen l Hl) as (b0 & b1 & b2 & b3 & b4 & b5 & b6 & b7 & b8 & b9 & b10 & b11 & b12 & b13 & b14 & b15 & ->).
  split; [reflexivity |]. repeat constructor.
Qed.

(** Parsing undoes printing. *)
Lemma fromString_toString u : uuid_wf u -> UUID.fromString (UUID.toString u) = Ok (okay u).
Proof.
  intros [Hl Hb]. destruct (printed_shape u Hl) as [Hlen Hdash]. unfold UUID.fromString. rewrite Hlen.
  apply Forall_cons in Hdash as [-> Hdash]. apply Forall_cons in Hdash as [-> Hdash].
  apply Forall_cons in Hdash as [-> Hdash]. apply Forall_cons in Hdash as [-> _].
  change (Z.of_nat 36 =? 36) with true. cbn [negb].
  rewrite Ascii.eqb_refl. cbn [negb orb].
  etransitivity; [apply (parse_printed (UUID.bytes_ u) EmptyString 0 (replicate 16 0) 36 Hb) | by destruct u].
  - lia.
  - lia.
  - rewrite length_replicate, Hl. lia.
  - change (EmptyString +:+ UUID.digits_from 0 (UUID.bytes_ u)) with (UUID.toString u). rewrite Hlen. lia.
Qed.

Lemma toString_inj u v : uuid_wf u -> uuid_wf v -> UUID.toString u = UUID.toString v -> u = v.
Proof.
  intros Hu Hv He. apply fromString_toString in Hu, Hv. rewrite He in Hu. rewrite Hu in Hv. by injection Hv.
Qed.

(** *** Parsing never leaves the identifier *)
(** Dashes at the four fixed positions before [i]. *)
Definition dashes_before (i : Z) : Z := Z.b2z (8 <? i) + Z.b2z (13 <? i) + Z.b2z (18 <? i) + Z.b2z (23 <? i).

Lemma nibble_range c d : UUID.hexCharToNibble c = okay d -> 0 <= d < 16 /\ c <> UUID.dash.
Proof.
  unfold UUID.hexCharToNibble. set (n := Z.of_nat (nat_of_ascii c)). intros H. split.
  - destruct ((48 <=? n) && (n <=? 57)) eqn:E1; [apply andb_true_iff in E1; rewrite !Z.leb_le in E1; injection H as <-; lia |].
    destruct ((97 <=? n) && (n <=? 102)) eqn:E2; [apply andb_true_iff in E2; rewrite !Z.leb_le in E2; injection H as <-; lia |].
    destruct ((65 <=? n) && (n <=? 70)) eqn:E3; [apply andb_true_iff in E3; rewrite !Z.leb_le in E3; injection H as <-; lia | done].
  - intros ->. by vm_compute in H.
Qed.

Lemma u8_range z : 0 <= u8 z < 256.
Proof. unfold wrap_u. apply Z.mod_pos_bound. lia. Qed.

Lemma dashes_step i : dashes_before (i + 1) <= dashes_before i + 1.
Proof.
  unfold dashes_before. destruct (Z.ltb_spec 8 i), (Z.ltb_spec 13 i), (Z.ltb_spec 18 i), (Z.ltb_spec 23 i); try lia.
  all: destruct (Z.ltb_spec 8 (i + 1)), (Z.ltb_spec 13 (i + 1)), (Z.ltb_spec 18 (i + 1)), (Z.ltb_spec 23 (i + 1)).
  all: simpl; lia.
Qed.

Lemma dashes_pair i : (forall j, j = i \/ j = i + 1 -> ~ j ∈ [8; 13; 18; 23]) ->
  dashes_before (i + 2) = dashes_before i.
Proof.
  intros H. assert (forall j, j ∈ [8; 13; 18; 23] -> (j <? i + 2) = (j <? i)) as Hj.
  { intros j Hj. destruct (Z.ltb_spec j (i + 2)), (Z.ltb_spec j i); try lia.
    exfalso. apply (H j); [lia | done]. }
  unfold dashes_before. by rewrite !Hj by (repeat constructor).
Qed.

Lemma dashes_room i : i <= 36 -> i - dashes_before i <= 32.
Proof.
  intros Hi. unfold dashes_before.
  destruct (Z.ltb_spec 8 i), (Z.ltb_spec 13 i), (Z.ltb_spec 18 i), (Z.ltb_spec 23 i); simpl; lia.
Qed.

Lemma char_at_end str : UUID.char_at str (Z.of_nat (String.length str)) = zero.
Proof.
  unfold UUID.char_at. rewrite Nat2Z.id. assert (String.get (String.length str) str = None) as ->; [| done].
  induction str as [| c str IH]; [done | exact IH].
Qed.

Lemma parse_loop_total str fuel i k bytes :
  String.length str = 36%nat -> (forall j, j ∈ [8; 13; 18; 23] -> UUID.char_at str j = UUID.dash) ->
  length bytes = 16%nat -> Forall (fun b => 0 <= b < 256) bytes ->
  0 <= i <= 36 -> 0 <= k -> 2 * k <= i - dashes_before i -> 36 - i <= Z.of_nat fuel ->
  wp (UUID.parse_loop fuel str i k bytes) (fun r => match r with okay u => uuid_wf u | error _ => True end).
Proof.
  intros Hlen Hd. revert i k bytes. induction fuel as [| fuel IH]; intros i k bytes Hl Hb Hi Hk Hc Hf.
  all: cbn [UUID.parse_loop]; rewrite Hlen; destruct (Z.ltb_spec i (Z.of_nat 36)); cbn [negb].
  2,4: apply wp_ok; by split.
  1: lia.
  destruct (Ascii.eqb_spec (UUID.char_at str i) UUID.dash) as [He | He].
  { replace (u64 (u64 (i - 1) + 2)) with (i + 1)
      by (unfold wrap_u; rewrite Zplus_mod_idemp_l, Z.mod_small; lia).
    pose proof (dashes_step i). apply IH; [done | done | lia | done | lia | lia]. }
  destruct (UUID.hexCharToNibble _) as [hi |] eqn:E1; [| by apply wp_ok].
  destruct (UUID.hexCharToNibble (UUID.char_at str (i + 1))) as [lo |] eqn:E2; [| by apply wp_ok].
  apply nibble_range in E1 as [E1 N1]. pose proof (nibble_range _ _ E2) as [_ N2].
  assert (i <> 35) as Hi35.
  { intros ->. change (35 + 1) with (Z.of_nat 36) in E2. rewrite <- Hlen, char_at_end in E2. by vm_compute in E2. }
  assert (dashes_before (i + 2) = dashes_before i) as Hp
    by (apply dashes_pair; intros j [-> | ->] Hj; [by apply N1, Hd | by apply N2, Hd]).
  pose proof (dashes_room (i + 2) ltac:(lia)) as Hroom.
  apply wp_bind, wp_vec_set; [lia |]. replace (u64 (i + 2)) with (i + 2) by (unfold wrap_u; rewrite Z.mod_small; lia).
  apply IH; [by rewrite length_insert | | lia | lia | lia | lia].
  apply Forall_insert; [done | apply u8_range].
Qed.

(** Parsing always ends, inside the identifier's bytes. *)
Lemma fromString_total str :
  wp (UUID.fromString str) (fun r => match r with okay u => uuid_wf u | error _ => True end).
Proof.
  unfold UUID.fromString. destruct (Z.eqb_spec (Z.of_nat (String.length str)) 36) as [Hlen |]; cbn [negb]; [| by apply wp_ok].
  destruct (_ || _) eqn:Hd; [by apply wp_ok |]. rewrite !orb_false_iff, !negb_false_iff, !Ascii.eqb_eq in Hd.
  destruct Hd as [[[H8 H13] H18] H23]. apply parse_loop_total; try done; try lia.
  - intros j Hj. rewrite !elem_of_cons in Hj. destruct Hj as [-> | [-> | [-> | [-> | Hj]]]]; try done. by apply elem_of_nil in Hj.
  - by repeat constructor.
Qed.

(** *** Generated identifiers *)
Lemma version_byte b : 0 <= b < 256 -> 0 <= Z.lor (Z.land b 0x0F) 0x40 < 256.
Proof.
  intros Hb. assert ((0 <=? Z.lor (Z.land b 0x0F) 0x40) && (Z.lor (Z.land b 0x0F) 0x40 <? 256) = true) as H; [| lia].
  revert b Hb. apply all_bytes. by vm_compute.
Qed.

Lemma variant_byte b : 0 <= b < 256 -> 0 <= Z.lor (Z.land b 0x3F) 0x80 < 256.
Proof.
  intros Hb. assert ((0 <=? Z.lor (Z.land b 0x3F) 0x80) && (Z.lor (Z.land b 0x3F) 0x80 <? 256) = true) as H; [| lia].
  revert b Hb. apply all_bytes. by vm_compute.
Qed.

Lemma generate_wf high low : uuid_wf (UUID.generate high low).
Proof.
  split; [done |]. unfold UUID.generate. cbn [UUID.bytes_]. apply Forall_alter.
  - apply Forall_alter; [| intros; by apply version_byte]. apply Forall_app. split; apply Forall_forall.
    all: intros b (i & -> & _)%list_elem_of_fmap; apply u8_range.
  - intros. by apply variant_byte.
Qed.

Lemma generate_not_nil high low : UUID.generate high low <> UUID.nil.
Proof.
  intros H. apply (f_equal (fun u => nth 6 (UUID.bytes_ u) 0)) in H. cbn in H. by apply Z.lor_eq_0_iff in H as [_ H].
Qed.

(** [fromString] accepts strings that are not of the form it documents: a dash
    in place of a digit shifts the digits after it, and the last byte stays zero. *)
Example fromString_lenient :
  UUID.fromString "-012345--6789-abcd-ef01-23456789abcd"%string =
  Ok (okay (UUID.mk [0x01; 0x23; 0x45; 0x67; 0x89; 0xab; 0xcd; 0xef; 0x01; 0x23; 0x45; 0x67; 0x89; 0xab; 0xcd; 0])).
Proof. by vm_compute. Qed.

(** C37. An identifier survives its text: what [toString] prints, [fromString]
    reads back. And [fromString] is total: on any string whatsoever it ends
    without touching memory outside the sixteen bytes, with an identifier or with
    the message of an exception. *)
Theorem uuid_roundtrip :
  (forall u, uuid_wf u -> UUID.fromString (UUID.toString u) = Ok (okay u)) /\
  (forall str, wp (UUID.fromString str) (fun r => match r with okay u => uuid_wf u | error _ => True end)) /\
  (forall high low, uuid_wf (UUID.generate high low) /\ UUID.isNil (UUID.generate high low) = false).
Proof.
  split; [apply fromString_toString |]. split; [apply fromString_total |]. intros high low. split; [apply generate_wf |].
  unfold UUID.isNil. apply not_true_iff_false. intros H. rewrite forallb_forall in H.
  apply (generate_not_nil high low). unfold UUID.generate, UUID.nil. f_equal.
  specialize (H (nth 6 (UUID.bytes_ (UUID.generate high low)) 0)). cbn in H.
  assert (Z.lor (Z.land (UUID.word_byte high 6) 15) 64 =? 0 = true) as H0 by (apply H; tauto).
  apply Z.eqb_eq, Z.lor_eq_0_iff in H0 as [_ ?]. done.
Qed.

Example uuid_roundtrip_witness :
  uuid_wf (UUID.generate 0x0123456789abcdef 0xfedcba9876543210) /\
  UUID.fromString (UUID.toString (UUID.generate 0x0123456789abcdef 0xfedcba9876543210)) =
    Ok (okay (UUID.generate 0x0123456789abcdef 0xfedcba9876543210)) /\
  UUID.toString (UUID.generate 0x0123456789abcdef 0xfedcba9876543210) = "01234567-89ab-4def-bedc-ba9876543210"%string.
Proof.
  assert (uuid_wf (UUID.generate 0x0123456789abcdef 0xfedcba9876543210)) as Hwf by apply (proj1 (proj2 (proj2 uuid_roundtrip) _ _)).
  split; [exact Hwf |]. split; [exact (proj1 uuid_roundtrip _ Hwf) | reflexivity].
Defined.
