(* ===== verification/Genomes.v ===== *)
(** The store of evolved genomes: [core/organisms/evolution/GenomeRepository.{h,cpp}]
    with its metadata ([GenomeMetadata.h], [GenomeMetadataUtils.h]).

    The SQLite database is the class [GenomeDatabase]: one operation per SQL
    statement the code executes, with whether it succeeded. The text of the
    metadata is the class [MetadataJson]. A weight is the 32-bit pattern of its
    [float], as the content hash reads it on a little-endian machine. The order
    in which an [unordered_map] is walked is the class [UnorderedWalk]; [std::sort]
    and [std::nth_element] are the class [StdSort]. The lock
    that serializes the public methods makes each of them one step. *)

From Stdlib Require Import ZArith Lia Bool String Ascii.
From Stdlib Require Import SpecFloat.
From stdpp Require Import base gmap option numbers list strings sorting.
From S2P Require Import Prelude Ieee StdModel Uuid.

Set Default Goal Selector "!".

(** ** Data *)
Definition GenomeId : Type := UUID.t.
Definition INVALID_GENOME_ID : GenomeId := UUID.nil.

Module Genome.
Record t := mk { weights : list Z }.
End Genome.

Inductive OrganismType := DUCK | GOOSE | TREE | NES_DUCK.
#[global] Instance OrganismType_eq_dec : EqDecision OrganismType.
Proof. solve_decision. Defined.
Definition OrganismType_to_Z (o : OrganismType) : Z :=
  match o with DUCK => 0 | GOOSE => 1 | TREE => 2 | NES_DUCK => 3 end.

Inductive GenomePoolId := PoolDirtSim | PoolFlappyParatroopa | PoolSmb | PoolSuperTiltBro.
#[global] Instance GenomePoolId_eq_dec : EqDecision GenomePoolId.
Proof. solve_decision. Defined.

Inductive ScenarioId :=
| Benchmark | Clock | DamBreak | EmptyScenario | GooseTest | Lights | Raining | Sandbox | TreeGermination
| NesFlappyParatroopa | NesSuperMarioBros | NesSuperTiltBro | WaterEqualization.
Definition ScenarioId_to_Z (s : ScenarioId) : Z :=
  match s with
  | Benchmark => 0 | Clock => 1 | DamBreak => 2 | EmptyScenario => 3 | GooseTest => 4 | Lights => 5 | Raining => 6
  | Sandbox => 7 | TreeGermination => 8 | NesFlappyParatroopa => 9 | NesSuperMarioBros => 10
  | NesSuperTiltBro => 11 | WaterEqualization => 12
  end.

Module NesTileBrainCompatibilityMetadata.
Record t := mk {
  schemaVersion : Z;
  tileVocabularySize : Z;
  tileEmbeddingDim : Z;
  relativeTileColumns : Z;
  relativeTileRows : Z;
  scalarInputSize : Z;
  h1Size : Z;
  h2Size : Z;
  outputSize : Z;
  voidTokenId : Z;
  tokenizerVocabularyHash : string
}.
End NesTileBrainCompatibilityMetadata.

Module GenomeMetadata.
Record t := mk {
  name : string;
  fitness : f64;
  robustFitness : f64;
  robustEvalCount : Z;
  robustFitnessSamples : list f64;
  generation : Z;
  createdTimestamp : Z;
  scenarioId : ScenarioId;
  notes : string;
  organismType : option OrganismType;
  brainKind : option string;
  brainVariant : option string;
  trainingSessionId : option UUID.t;
  genomePoolId : GenomePoolId;
  nesTileBrainCompatibility : option NesTileBrainCompatibilityMetadata.t
}.

(** The robust estimate: its value, the number of evaluations and the samples. *)
Definition set_robust (value : f64) (count : Z) (samples : list f64) (m : t) : t :=
  mk (name m) (fitness m) value count samples (generation m) (createdTimestamp m) (scenarioId m) (notes m)
    (organismType m) (brainKind m) (brainVariant m) (trainingSessionId m) (genomePoolId m)
    (nesTileBrainCompatibility m).
End GenomeMetadata.

(** ** [GenomeMetadataUtils.h] *)
Module GenomeMetadataUtils.
Import GenomeMetadata.

(** Each [nth_element] leaves at its index what sorting would put there; the second
    one works on the lower half that the first one has left. *)
Definition computeMedian `{SS : !StdSort} (samples : list f64) : f64 :=
  match samples with
  | [] => fzero
  | _ =>
      let mid := (length samples / 2)%nat in
      let samples' := std_nth_element flt mid samples in
      let upper := nth mid samples' fzero in
      if Nat.odd (length samples) then upper
      else
        let lower := std_nth_element flt (mid - 1) (take mid samples') in
        f64_mul (f64_add (nth (mid - 1) lower fzero) upper) (f64_lit 5 10)
  end.

Definition effectiveRobustEvalCount (metadata : t) : Z :=
  if 0 <? robustEvalCount metadata then robustEvalCount metadata
  else match robustFitnessSamples metadata with
       | [] => 0
       | samples => Z.of_nat (length samples)
       end.

Definition effectiveRobustFitness (metadata : t) : f64 :=
  if (0 <? robustEvalCount metadata) || negb (bool_decide (length (robustFitnessSamples metadata) = 0%nat))
  then robustFitness metadata else fitness metadata.
End GenomeMetadataUtils.

(** ** What the repository relies on *)
(** A row of the table [genomes], an absent content hash read as an empty string. *)
Module GenomeRow.
Record t := mk { id : string; weights : list Z; metadata_json : string; content_hash : string }.
End GenomeRow.

(** The SQL statements; the boolean tells whether the statement succeeded. *)
Class GenomeDatabase (Db : Type) := {
  select_genomes : Db -> list GenomeRow.t;
  select_best_id : Db -> option string;
  insert_or_replace_genome : GenomeRow.t -> Db -> Db * bool;
  update_content_hash : string -> string -> Db -> Db * bool;
  delete_genome : string -> Db -> Db * bool;
  insert_or_replace_best_id : string -> Db -> Db * bool;
  delete_everything : Db -> Db * bool
}.

(** Metadata to JSON text and back; [None] is an exception: of [dump], on text that
    is not UTF-8, and of the parser. *)
Class MetadataJson := {
  metadata_dump : GenomeMetadata.t -> option string;
  metadata_parse : string -> option GenomeMetadata.t
}.

(** ** [GenomeRepository] *)
Module GenomeRepository.
Import GenomeMetadata GenomeMetadataUtils.

Definition kRobustFitnessSampleWindow : nat := 7.

(** *** The content hash *)
Definition kFnvPrime : Z := 1099511628211.
Definition kFnvOffsetBasis : Z := 1469598103934665603.

Definition hashBytes (hash : Z) (bytes : list Z) : Z :=
  fold_left (fun hash byte => u64 (Z.lxor hash byte * kFnvPrime)) bytes hash.

(** The [n] bytes of an integer, the lowest first. *)
Definition bytes_of (n : nat) (value : Z) : list Z :=
  map (fun i => Z.land (Z.shiftr value (8 * Z.of_nat i)) 255) (seq 0 n).
Definition hashValue (n : nat) (hash value : Z) : Z := hashBytes hash (bytes_of n value).

Definition hashString (hash : Z) (value : string) : Z :=
  hashBytes (hashValue 8 hash (Z.of_nat (String.length value)))
    (map (fun c => Z.of_nat (nat_of_ascii c)) (list_ascii_of_string value)).

Fixpoint hex_digits (n : nat) (value : Z) : string :=
  match n with
  | O => EmptyString
  | S n' => hex_digits n' (Z.shiftr value 4) +:+ String (UUID.digit (Z.land value 15)) EmptyString
  end.
Definition toHexString (value : Z) : string := hex_digits 16 value.

Definition hashCompatibility (hash : Z) (c : NesTileBrainCompatibilityMetadata.t) : Z :=
  let hash := hashValue 4 hash (NesTileBrainCompatibilityMetadata.schemaVersion c) in
  let hash := hashValue 4 hash (NesTileBrainCompatibilityMetadata.tileVocabularySize c) in
  let hash := hashValue 4 hash (NesTileBrainCompatibilityMetadata.tileEmbeddingDim c) in
  let hash := hashValue 4 hash (NesTileBrainCompatibilityMetadata.relativeTileColumns c) in
  let hash := hashValue 4 hash (NesTileBrainCompatibilityMetadata.relativeTileRows c) in
  let hash := hashValue 4 hash (NesTileBrainCompatibilityMetadata.scalarInputSize c) in
  let hash := hashValue 4 hash (NesTileBrainCompatibilityMetadata.h1Size c) in
  let hash := hashValue 4 hash (NesTileBrainCompatibilityMetadata.h2Size c) in
  let hash := hashValue 4 hash (NesTileBrainCompatibilityMetadata.outputSize c) in
  let hash := hashValue 2 hash (NesTileBrainCompatibilityMetadata.voidTokenId c) in
  hashString hash (NesTileBrainCompatibilityMetadata.tokenizerVocabularyHash c).

Definition organismNumber (o : option OrganismType) : Z :=
  match o with Some o => OrganismType_to_Z o | None => -1 end.

Definition computeContentHash (genome : Genome.t) (meta : GenomeMetadata.t) : string :=
  let hash := kFnvOffsetBasis in
  let hash := hashValue 4 hash (ScenarioId_to_Z (scenarioId meta)) in
  let hash := hashValue 4 hash (organismNumber (organismType meta)) in
  let hash := hashString hash (default EmptyString (brainKind meta)) in
  let hash := hashString hash (default EmptyString (brainVariant meta)) in
  let hash :=
    match nesTileBrainCompatibility meta with
    | Some compatibility => hashCompatibility (hashValue 1 hash 1) compatibility
    | None => hashValue 1 hash 0
    end in
  let hash := hashValue 8 hash (Z.of_nat (length (Genome.weights genome))) in
  toHexString (hashBytes hash (concat (map (bytes_of 4) (Genome.weights genome)))).

(** *** Robust fitness *)
Section Robust.
Context `{SS : !StdSort}.

Definition normalizeRobustMetadata (input : GenomeMetadata.t) : GenomeMetadata.t :=
  let count := if robustEvalCount input <? 0 then 0 else robustEvalCount input in
  match robustFitnessSamples input with
  | [] =>
      let value := if (0 <? count) && negb (is_finite (robustFitness input)) then fitness input
                   else robustFitness input in
      set_robust value count [] input
  | all =>
      let samples := drop (length all - kRobustFitnessSampleWindow) all in
      set_robust (computeMedian samples) (Z.max count (Z.of_nat (length samples))) samples input
  end.

Definition appendRobustSample (fitnessSample : f64) (metadata : GenomeMetadata.t) : res GenomeMetadata.t :=
  if negb (is_finite fitnessSample) then Ok metadata
  else
    let! count := int_result (Z.max 0 (robustEvalCount metadata) + 1) in
    let samples := robustFitnessSamples metadata ++ [fitnessSample] in
    let samples := if (kRobustFitnessSampleWindow <? length samples)%nat then drop 1 samples else samples in
    Ok (set_robust (computeMedian samples) count samples metadata).

Fixpoint appendRobustSamples (samples : list f64) (metadata : GenomeMetadata.t) : res GenomeMetadata.t :=
  match samples with
  | [] => Ok metadata
  | sample :: samples' =>
      let! metadata := appendRobustSample sample metadata in appendRobustSamples samples' metadata
  end.

Definition or_else {A} (new old : option A) : option A := match new with Some _ => new | None => old end.

(** The fields of [incoming], completed by those of [existing]. *)
Definition mergeFields (existing incoming : GenomeMetadata.t) : GenomeMetadata.t :=
  GenomeMetadata.mk
    (if String.eqb (name incoming) EmptyString then name existing else name incoming)
    (std_max (fitness existing) (fitness incoming)) (robustFitness incoming) (robustEvalCount incoming)
    (robustFitnessSamples incoming) (generation incoming)
    (if createdTimestamp incoming =? 0 then createdTimestamp existing else createdTimestamp incoming)
    (scenarioId incoming)
    (if String.eqb (notes incoming) EmptyString then notes existing else notes incoming)
    (or_else (organismType incoming) (organismType existing)) (or_else (brainKind incoming) (brainKind existing))
    (or_else (brainVariant incoming) (brainVariant existing))
    (or_else (trainingSessionId incoming) (trainingSessionId existing)) (genomePoolId incoming)
    (or_else (nesTileBrainCompatibility incoming) (nesTileBrainCompatibility existing)).

Definition mergeMetadata (existingRaw incomingRaw : GenomeMetadata.t) : res GenomeMetadata.t :=
  let existing := normalizeRobustMetadata existingRaw in
  let incoming := normalizeRobustMetadata incomingRaw in
  let merged := mergeFields existing incoming in
  let samples := robustFitnessSamples existing in
  let value := match samples with [] => robustFitness merged | _ => computeMedian samples end in
  let merged := set_robust value (effectiveRobustEvalCount existing) samples merged in
  let! merged := appendRobustSamples (robustFitnessSamples incoming) merged in
  let incomingEvalCount := effectiveRobustEvalCount incoming in
  let! missing := int_result (incomingEvalCount - Z.of_nat (length (robustFitnessSamples incoming))) in
  let! count := int_result (robustEvalCount merged + Z.max 0 missing) in
  let merged := set_robust (robustFitness merged) count (robustFitnessSamples merged) merged in
  if count <=? 0 then Ok (normalizeRobustMetadata merged)
  else
    match robustFitnessSamples merged with
    | [] =>
        Ok (set_robust (std_max (effectiveRobustFitness existing) (effectiveRobustFitness incoming)) count [] merged)
    | _ => Ok merged
    end.
End Robust.

(** *** State *)
Section Repository.
Context {Db : Type} `{GD : !GenomeDatabase Db, MJ : !MetadataJson, UW : !UnorderedWalk, SS : !StdSort}.

Record t := mk {
  genomes_ : gmap GenomeId Genome.t;
  hashToId_ : gmap string GenomeId;
  idToHash_ : gmap GenomeId string;
  metadata_ : gmap GenomeId GenomeMetadata.t;
  bestId_ : option GenomeId;
  db_ : option Db
}.

(** [GenomeRepository()]: in memory only. *)
Definition inMemory : t := mk ∅ ∅ ∅ ∅ None None.

Definition set_genomes_ (v : gmap GenomeId Genome.t) (s : t) : t :=
  mk v (hashToId_ s) (idToHash_ s) (metadata_ s) (bestId_ s) (db_ s).
Definition set_hashToId_ (v : gmap string GenomeId) (s : t) : t :=
  mk (genomes_ s) v (idToHash_ s) (metadata_ s) (bestId_ s) (db_ s).
Definition set_idToHash_ (v : gmap GenomeId string) (s : t) : t :=
  mk (genomes_ s) (hashToId_ s) v (metadata_ s) (bestId_ s) (db_ s).
Definition set_metadata_ (v : gmap GenomeId GenomeMetadata.t) (s : t) : t :=
  mk (genomes_ s) (hashToId_ s) (idToHash_ s) v (bestId_ s) (db_ s).
Definition set_bestId_ (v : option GenomeId) (s : t) : t :=
  mk (genomes_ s) (hashToId_ s) (idToHash_ s) (metadata_ s) v (db_ s).

(** [if (db_) { execDb(...); }]: a statement that fails is logged. *)
Definition execDb (statement : Db -> Db * bool) (s : t) : t :=
  mk (genomes_ s) (hashToId_ s) (idToHash_ s) (metadata_ s) (bestId_ s)
    (option_map (fun db => fst (statement db)) (db_ s)).

Definition genome_row (id : GenomeId) (genome : Genome.t) (metaJson : string) (contentHash : string) : GenomeRow.t :=
  GenomeRow.mk (UUID.toString id) (Genome.weights genome) metaJson contentHash.

(** An exception of [dump] is logged, and nothing is inserted. *)
Definition persistGenome (id : GenomeId) (genome : Genome.t) (meta : GenomeMetadata.t) (contentHash : string)
    (s : t) : t :=
  match metadata_dump meta with
  | None => s
  | Some metaJson => execDb (insert_or_replace_genome (genome_row id genome metaJson contentHash)) s
  end.
Definition persistGenomeHash (id : GenomeId) (contentHash : string) (s : t) : t :=
  execDb (update_content_hash contentHash (UUID.toString id)) s.
Definition deleteGenome (id : GenomeId) (s : t) : t := execDb (delete_genome (UUID.toString id)) s.
Definition persistBestId (s : t) : t :=
  execDb (insert_or_replace_best_id
            (match bestId_ s with Some id => UUID.toString id | None => EmptyString end)) s.
Definition clearDb (s : t) : t := execDb delete_everything s.

(** *** Storing *)
(** The next identifier the random engine gives, out of the words it draws. *)
Definition generateId (draws : list (Z * Z)) : res (GenomeId * list (Z * Z)) :=
  match draws with
  | [] => Fault OutOfFuel
  | (high, low) :: draws => Ok (UUID.generate high low, draws)
  end.

(** [genomes_[id] = ...; metadata_[id] = ...; hashToId_[contentHash] = id;
    idToHash_[id] = contentHash; if (db_) { persistGenome(...); }] *)
Definition putGenome (id : GenomeId) (genome : Genome.t) (meta : GenomeMetadata.t) (contentHash : string) (s : t) : t :=
  persistGenome id genome meta contentHash
    (mk (<[id := genome]> (genomes_ s)) (<[contentHash := id]> (hashToId_ s)) (<[id := contentHash]> (idToHash_ s))
       (<[id := meta]> (metadata_ s)) (bestId_ s) (db_ s)).

Definition store (draws : list (Z * Z)) (id : GenomeId) (genome : Genome.t) (meta : GenomeMetadata.t) (s : t) : res t :=
  let! p := (if bool_decide (id = INVALID_GENOME_ID) then generateId draws else Ok (id, draws)) in
  let '(id, _) := p in
  let normalizedMeta := normalizeRobustMetadata meta in
  let contentHash := computeContentHash genome normalizedMeta in
  let s :=
    match idToHash_ s !! id with
    | Some oldHash =>
        if negb (String.eqb oldHash contentHash) then
          match hashToId_ s !! oldHash with
          | Some mapped => if bool_decide (mapped = id) then set_hashToId_ (delete oldHash (hashToId_ s)) s else s
          | None => s
          end
        else s
    | None => s
    end in
  Ok (putGenome id genome normalizedMeta contentHash s).

Record StoreByHashResult := mkStoreByHashResult {
  result_id : GenomeId;
  inserted : bool;
  deduplicated : bool
}.

(** [while (genomes_.find(id) != genomes_.end()) { id = UUID::generate(); }] *)
Fixpoint freshId (genomes : gmap GenomeId Genome.t) (id : GenomeId) (draws : list (Z * Z)) : res GenomeId :=
  match genomes !! id with
  | None => Ok id
  | Some _ =>
      match draws with
      | [] => Fault OutOfFuel
      | (high, low) :: draws => freshId genomes (UUID.generate high low) draws
      end
  end.

Definition storeOrUpdateByHash (draws : list (Z * Z)) (genome : Genome.t) (meta : GenomeMetadata.t)
    (preferredId : option GenomeId) (s : t) : res (t * StoreByHashResult) :=
  let normalizedMeta := normalizeRobustMetadata meta in
  let contentHash := computeContentHash genome normalizedMeta in
  match hashToId_ s !! contentHash with
  | Some existingId =>
      let! mergedMeta :=
        match metadata_ s !! existingId with
        | Some existingMeta => mergeMetadata existingMeta normalizedMeta
        | None => Ok normalizedMeta
        end in
      let s := mk (<[existingId := genome]> (genomes_ s)) (hashToId_ s) (<[existingId := contentHash]> (idToHash_ s))
                 (<[existingId := mergedMeta]> (metadata_ s)) (bestId_ s) (db_ s) in
      Ok (persistGenome existingId genome mergedMeta contentHash s, mkStoreByHashResult existingId false true)
  | None =>
      let! p := (match preferredId with Some id => Ok (id, draws) | None => generateId draws end) in
      let '(id, draws) := p in
      let! p := (if bool_decide (id = INVALID_GENOME_ID) || negb (bool_decide (genomes_ s !! id = None))
                 then generateId draws else Ok (id, draws)) in
      let '(id, draws) := p in
      let! id := freshId (genomes_ s) id draws in
      Ok (putGenome id genome normalizedMeta contentHash s, mkStoreByHashResult id true false)
  end.

(** *** Removing *)
Definition removeNoLock (id : GenomeId) (s : t) : t :=
  let s := set_metadata_ (delete id (metadata_ s)) (set_genomes_ (delete id (genomes_ s)) s) in
  let s :=
    match idToHash_ s !! id with
    | Some hash =>
        let s :=
          match hashToId_ s !! hash with
          | Some mapped => if bool_decide (mapped = id) then set_hashToId_ (delete hash (hashToId_ s)) s else s
          | None => s
          end in
        set_idToHash_ (delete id (idToHash_ s)) s
    | None => s
    end in
  let s := if bool_decide (bestId_ s = Some id) then persistBestId (set_bestId_ None s) else s in
  deleteGenome id s.

Definition remove (id : GenomeId) (s : t) : t := removeNoLock id s.

Definition clear (s : t) : t := clearDb (mk ∅ ∅ ∅ ∅ None (db_ s)).

Definition markAsBest (id : GenomeId) (s : t) : t :=
  match genomes_ s !! id with
  | Some _ => persistBestId (set_bestId_ (Some id) s)
  | None => s
  end.

(** *** Pruning *)
Record ManagedGenomeBucketKey := mkBucketKey {
  bk_organismType : Z;
  bk_brainKind : string;
  bk_genomePoolId : GenomePoolId
}.
#[global] Instance ManagedGenomeBucketKey_eq_dec : EqDecision ManagedGenomeBucketKey.
Proof. solve_decision. Defined.

Definition bucketKey (meta : GenomeMetadata.t) : ManagedGenomeBucketKey :=
  mkBucketKey (organismNumber (organismType meta)) (default EmptyString (brainKind meta)) (genomePoolId meta).

(** [managedBucketToIds[key].push_back(id)], the buckets as they first appear. *)
Fixpoint pushToBucket (key : ManagedGenomeBucketKey) (id : GenomeId)
    (buckets : list (ManagedGenomeBucketKey * list GenomeId)) : list (ManagedGenomeBucketKey * list GenomeId) :=
  match buckets with
  | [] => [(key, [id])]
  | (key', ids) :: buckets' =>
      if bool_decide (key = key') then (key', ids ++ [id]) :: buckets'
      else (key', ids) :: pushToBucket key id buckets'
  end.

Definition managedBuckets (entries : list (GenomeId * GenomeMetadata.t))
    : list (ManagedGenomeBucketKey * list GenomeId) :=
  fold_left (fun buckets '(id, meta) =>
               match trainingSessionId meta with
               | Some _ => pushToBucket (bucketKey meta) id buckets
               | None => buckets
               end) entries [].

(** Lowest robust fitness first, then the oldest, then by identifier. *)
Definition prunedBefore (left right : GenomeId * GenomeMetadata.t) : bool :=
  let leftScore := effectiveRobustFitness (snd left) in
  let rightScore := effectiveRobustFitness (snd right) in
  if negb (SFeqb leftScore rightScore) then flt leftScore rightScore
  else if negb (createdTimestamp (snd left) =? createdTimestamp (snd right)) then
    createdTimestamp (snd left) <? createdTimestamp (snd right)
  else String.ltb (UUID.toString (fst left)) (UUID.toString (fst right)).

(** What the comparisons look up; a missing entry fails their assertion. *)
Fixpoint withMetadata (metadata : gmap GenomeId GenomeMetadata.t) (ids : list GenomeId)
    : res (list (GenomeId * GenomeMetadata.t)) :=
  match ids with
  | [] => Ok []
  | id :: ids' =>
      match metadata !! id with
      | None => Fault (AssertFailed "GenomeRepository: Missing left metadata"%string)
      | Some meta => let! rest := withMetadata metadata ids' in Ok ((id, meta) :: rest)
      end
  end.

(** [for (GenomeId id : managedIds)] with [quota] genomes still to remove. *)
Fixpoint removeWorst (quota : nat) (managedIds : list GenomeId) (s : t) : t * nat :=
  match managedIds with
  | [] => (s, 0%nat)
  | id :: ids =>
      match quota with
      | O => (s, 0%nat)
      | S quota' =>
          if bool_decide (bestId_ s = Some id) then removeWorst quota ids s
          else let '(s, removed) := removeWorst quota' ids (removeNoLock id s) in (s, S removed)
      end
  end.

Definition pruneBucket (maxManagedGenomes : nat) (managedIds : list GenomeId) (s : t) : res (t * nat) :=
  if (length managedIds <=? maxManagedGenomes)%nat then Ok (s, 0%nat)
  else
    let! entries := withMetadata (metadata_ s) managedIds in
    Ok (removeWorst (length managedIds - maxManagedGenomes) (map fst (std_sort prunedBefore entries)) s).

Fixpoint pruneBuckets (maxManagedGenomes : nat) (buckets : list (ManagedGenomeBucketKey * list GenomeId)) (s : t)
    : res (t * nat) :=
  match buckets with
  | [] => Ok (s, 0%nat)
  | (_, managedIds) :: buckets' =>
      let! r := pruneBucket maxManagedGenomes managedIds s in
      let '(s, removed) := r in
      let! r := pruneBuckets maxManagedGenomes buckets' s in
      let '(s, removed') := r in Ok (s, (removed + removed')%nat)
  end.

Definition pruneManagedByFitness (maxManagedGenomes : nat) (s : t) : res (t * nat) :=
  if (maxManagedGenomes =? 0)%nat then Ok (s, 0%nat)
  else
    pruneBuckets maxManagedGenomes
      (walk _ (managedBuckets (walk _ (map_to_list (metadata_ s))))) s.

(** *** Queries *)
Definition countManagedByBucket (organism : OrganismType) (kind : string) (pool : GenomePoolId) (s : t) : nat :=
  length (List.filter (fun '(_, meta) =>
    bool_decide (trainingSessionId meta <> None) && bool_decide (organismType meta = Some organism)
    && bool_decide (brainKind meta = Some kind) && bool_decide (genomePoolId meta = pool))
    (map_to_list (metadata_ s))).

Definition exists_ (id : GenomeId) (s : t) : bool := bool_decide (genomes_ s !! id <> None).
Definition get (id : GenomeId) (s : t) : option Genome.t := genomes_ s !! id.
Definition getMetadata (id : GenomeId) (s : t) : option GenomeMetadata.t := metadata_ s !! id.
Definition list_ (s : t) : list (GenomeId * GenomeMetadata.t) := walk _ (map_to_list (metadata_ s)).
Definition getBestId (s : t) : option GenomeId := bestId_ s.
Definition getBest (s : t) : option Genome.t :=
  match bestId_ s with Some id => genomes_ s !! id | None => None end.
Definition count (s : t) : nat := size (genomes_ s).
Definition empty (s : t) : bool := (count s =? 0)%nat.
Definition isPersistent (s : t) : bool := match db_ s with Some _ => true | None => false end.

(** *** Opening a database *)
(** A row read from the database; [error] is an exception that leaves the
    constructor, [parse]'s exceptions are logged and the row is skipped. *)
Definition loadRow (row : GenomeRow.t) (s : t) : res (Result t string) :=
  let! parsed := UUID.fromString (GenomeRow.id row) in
  match parsed with
  | error e => Ok (error e)
  | okay id =>
      if bool_decide (id = INVALID_GENOME_ID) then Ok (okay s)
      else
        match metadata_parse (GenomeRow.metadata_json row) with
        | None => Ok (okay s)
        | Some json =>
            let genome := Genome.mk (GenomeRow.weights row) in
            let meta := normalizeRobustMetadata json in
            let '(contentHash, s) :=
              if String.eqb (GenomeRow.content_hash row) EmptyString then
                let contentHash := computeContentHash genome meta in
                (contentHash, persistGenomeHash id contentHash s)
              else (GenomeRow.content_hash row, s) in
            let s := set_metadata_ (<[id := meta]> (metadata_ s)) (set_genomes_ (<[id := genome]> (genomes_ s)) s) in
            match hashToId_ s !! contentHash with
            | None =>
                Ok (okay (set_idToHash_ (<[id := contentHash]> (idToHash_ s))
                            (set_hashToId_ (<[contentHash := id]> (hashToId_ s)) s)))
            | Some existingId =>
                if match metadata_ s !! existingId with
                   | None => true
                   | Some existingMeta => fgt (effectiveRobustFitness meta) (effectiveRobustFitness existingMeta)
                   end
                then Ok (okay (set_idToHash_ (<[id := contentHash]> (delete existingId (idToHash_ s)))
                                 (set_hashToId_ (<[contentHash := id]> (hashToId_ s)) s)))
                else Ok (okay s)
            end
        end
  end.

Fixpoint loadRows (rows : list GenomeRow.t) (s : t) : res (Result t string) :=
  match rows with
  | [] => Ok (okay s)
  | row :: rows' =>
      let! r := loadRow row s in
      match r with
      | error e => Ok (error e)
      | okay s => loadRows rows' s
      end
  end.

Definition loadBestId (best : option string) (s : t) : res (Result t string) :=
  match best with
  | None => Ok (okay s)
  | Some bestIdStr =>
      if String.eqb bestIdStr EmptyString then Ok (okay s)
      else
        let! parsed := UUID.fromString bestIdStr in
        match parsed with
        | error e => Ok (error e)
        | okay bestId =>
            if negb (bool_decide (bestId = INVALID_GENOME_ID)) && exists_ bestId s
            then Ok (okay (set_bestId_ (Some bestId) s)) else Ok (okay s)
        end
  end.

Definition loadFromDb (db : Db) (s : t) : res (Result t string) :=
  let! r := loadRows (select_genomes db) s in
  match r with
  | error e => Ok (error e)
  | okay s => loadBestId (select_best_id db) s
  end.

(** [GenomeRepository(dbPath)], on a database whose schema is there. *)
Definition openDb (db : Db) : res (Result t string) := loadFromDb db (mk ∅ ∅ ∅ ∅ None (Some db)).

End Repository.
#[global] Arguments t : clear implicits.
End GenomeRepository.
