(* ===== verification/GenomeFacts.v ===== *)
(** The invariant of the genome repository: which tables agree with which, and
    that no sequence of operations faults. *)

From Stdlib Require Import ZArith Lia Bool String.
From Stdlib Require Import SpecFloat.
From stdpp Require Import base gmap option numbers list strings sorting fin_map_dom.
From S2P Require Import Prelude Ieee StdModel Uuid Genomes.

Set Default Goal Selector "!".

Import GenomeMetadata GenomeMetadataUtils GenomeRepository.

(** ** Robust fitness *)
(** *** The median *)
Definition finite_samples (samples : list f64) : Prop := Forall (fun x => is_finite x = true) samples.

Lemma finite_not_nan x : is_finite x = true -> not_nan x.
Proof. by destruct x. Qed.

Lemma samples_order l : finite_samples l -> strict_weak_order flt l.
Proof. intros H. apply (swo_flt id). eapply Forall_impl; [exact H |]. intros x. apply finite_not_nan. Qed.

Section Median.
Context `{SS : !StdSort, SL : !StdSortLaws}.

(** [value] is the middle of [samples] in order, or half the sum of the two middle ones. *)
Definition middle_of (samples : list f64) (value : f64) : Prop :=
  exists sorted, sorted ≡ₚ samples /\ StronglySorted (fun a b => flt b a = false) sorted /\
    let mid := (length samples / 2)%nat in
    let upper := nth mid sorted fzero in
    value = if Nat.odd (length samples) then upper
            else f64_mul (f64_add (nth (mid - 1) sorted fzero) upper) (f64_lit 5 10).

(** A sorted lower half, the middle, and the rest. *)
Lemma sorted_around lower x after :
  finite_samples (lower ++ x :: after) -> StronglySorted (fun a b => flt b a = false) lower ->
  Forall (fun a => flt x a = false) lower -> Forall (fun b => flt b x = false) after ->
  StronglySorted (fun a b => flt b a = false) (lower ++ x :: std_sort flt after).
Proof.
  intros Hf Hl Hb Ha. apply Forall_app in Hf as [Hfl Hf]. apply Forall_cons in Hf as [Hfx Hfa].
  pose proof (std_sort_perm _ _ _ (samples_order _ Hfa)) as Hp. rewrite Forall_forall in Hfl, Hfa, Hb, Ha.
  apply StronglySorted_app. split; [| split; [done |]].
  - intros a b Hal Hbr. apply elem_of_cons in Hbr as [-> | Hbr]; [by apply Hb |]. rewrite Hp in Hbr.
    apply (not_flt_trans b x a); [apply finite_not_nan; auto.. | by apply Ha | by apply Hb].
  - constructor; [by apply std_sort_sorted, samples_order, Forall_forall |]. rewrite Hp. by apply Forall_forall.
Qed.

Lemma nth_at (lower after : list f64) x n : length lower = n -> nth n (lower ++ x :: after) fzero = x.
Proof. intros <-. apply nth_middle. Qed.

(** What [std::nth_element] leaves, with its lower part sorted. *)
Lemma nth_element_sorted n l : finite_samples l -> (n < length l)%nat ->
  exists before x after, std_nth_element flt n l = before ++ x :: after /\ length before = n /\
    finite_samples before /\ is_finite x = true /\ forall lower, lower ≡ₚ before -> StronglySorted (fun a b => flt b a = false) lower ->
      lower ++ x :: std_sort flt after ≡ₚ l /\
      StronglySorted (fun a b => flt b a = false) (lower ++ x :: std_sort flt after).
Proof.
  intros Hf Hn. pose proof (samples_order l Hf) as Ho.
  destruct (std_nth_element_split _ flt n l Ho Hn) as (before & x & after & Es & Hl & Hb & Ha).
  exists before, x, after. split; [done |]. split; [done |].
  pose proof (std_nth_element_perm _ flt n l Ho) as Hperm. rewrite Es in Hperm.
  assert (finite_samples (before ++ x :: after)) as Hf' by (unfold finite_samples; by rewrite Hperm).
  pose proof Hf' as [Hfb [Hfx Hfa]%Forall_cons]%Forall_app. split; [done |]. split; [done |]. intros lower Hp Hs.
  split; [by rewrite (std_sort_perm _ _ _ (samples_order _ Hfa)), Hp |].
  apply sorted_around; [unfold finite_samples; by rewrite Hp | done | by rewrite Hp | done].
Qed.

(** The two calls of [nth_element]: what they leave at the middle, or around it. *)
Lemma median_parts samples : samples <> [] -> finite_samples samples ->
  let mid := (length samples / 2)%nat in
  let upper := nth mid (std_nth_element flt mid samples) fzero in
  let lower := nth (mid - 1) (std_nth_element flt (mid - 1) (take mid (std_nth_element flt mid samples))) fzero in
  is_finite upper = true /\ (Nat.odd (length samples) = false -> is_finite lower = true) /\
  exists sorted, sorted ≡ₚ samples /\ StronglySorted (fun a b => flt b a = false) sorted /\
    nth mid sorted fzero = upper /\ (Nat.odd (length samples) = false -> nth (mid - 1) sorted fzero = lower).
Proof.
  intros Hne Hf. assert (0 < length samples)%nat as H0 by (destruct samples; [done | simpl; lia]).
  cbv zeta. set (mid := (length samples / 2)%nat). assert (mid < length samples)%nat as Hmid by (apply Nat.div_lt; lia).
  destruct (nth_element_sorted mid samples Hf Hmid) as (before & x & after & -> & Hl & Hfb & Hfx & Hsort).
  rewrite nth_at by done. split; [done |]. rewrite take_app_length' by done.
  pose proof (std_sort_perm _ flt before (samples_order _ Hfb)) as Hpb.
  pose proof (std_sort_sorted _ flt before (samples_order _ Hfb)) as Hsb.
  destruct (Nat.odd (length samples)) eqn:Eodd.
  { split; [done |]. destruct (Hsort _ Hpb Hsb) as [Hp Hs]. exists (std_sort flt before ++ x :: std_sort flt after).
    split; [done |]. split; [done |]. split; [| done]. apply nth_at. by rewrite Hpb. }
  assert (0 < mid)%nat as Hmid0.
  { destruct (decide (length samples = 1%nat)) as [E1 |]; [by rewrite E1 in Eodd |]. apply Nat.div_str_pos. lia. }
  destruct (nth_element_sorted (mid - 1) before Hfb ltac:(lia)) as (b1 & y & b2 & -> & Hl1 & Hfb1 & Hfy & Hsort1).
  rewrite nth_at by done. split; [done |].
  pose proof (std_sort_perm _ flt b1 (samples_order _ Hfb1)) as Hp1.
  destruct (Hsort1 _ Hp1 (std_sort_sorted _ flt b1 (samples_order _ Hfb1))) as [Hp2 Hs2].
  destruct (Hsort _ Hp2 Hs2) as [Hp Hs]. eexists. split; [exact Hp |]. split; [exact Hs |]. split.
  - intros. apply nth_at. by rewrite Hp2.
  - intros _. rewrite <- app_assoc. apply nth_at. by rewrite Hp1.
Qed.

Lemma computeMedian_middle samples : samples <> [] -> finite_samples samples -> middle_of samples (computeMedian samples).
Proof.
  intros Hne Hf. destruct (median_parts samples Hne Hf) as (_ & _ & sorted & Hp & Hs & Hu & Hl).
  exists sorted. split; [done |]. split; [done |]. cbv zeta in *. rewrite Hu. unfold computeMedian.
  destruct samples as [| s0 rest] eqn:E; [done |]. rewrite <- E in *. destruct (Nat.odd (length samples)); [done |].
  by rewrite Hl.
Qed.

Lemma computeMedian_not_nan samples : finite_samples samples -> not_nan (computeMedian samples).
Proof.
  intros Hf. unfold computeMedian. destruct samples as [| s0 rest] eqn:E; [done |]. rewrite <- E in *.
  assert (samples <> []) as Hne by (by rewrite E). clear E. destruct (median_parts samples Hne Hf) as (Hu & Hl & _).
  cbv zeta in *. destruct (Nat.odd (length samples)); [by apply finite_not_nan |].
  apply SFmul_not_nan; [| by vm_compute]. apply SFadd_not_nan; [by apply Hl | done].
Qed.
End Median.

Section Robust.
Context `{SS : !StdSort, SL : !StdSortLaws}.
Implicit Types (m : GenomeMetadata.t).

(** Metadata as [normalizeRobustMetadata] leaves them, but for an infinite
    estimate without samples. *)
Record robust_ok m : Prop := mkRobustOk {
  ro_count : 0 <= robustEvalCount m;
  ro_window : (length (robustFitnessSamples m) <= kRobustFitnessSampleWindow)%nat;
  ro_samples : robustFitnessSamples m <> [] ->
    robustFitness m = computeMedian (robustFitnessSamples m) /\
    Z.of_nat (length (robustFitnessSamples m)) <= robustEvalCount m
}.

(** Numbers: no score is a NaN, and every sample is finite. *)
Record numeric m : Prop := mkNumeric {
  nu_fitness : not_nan (fitness m);
  nu_robust : not_nan (robustFitness m);
  nu_samples : finite_samples (robustFitnessSamples m)
}.

(** The evaluations that metadata stand for. *)
Definition evaluations m : Z :=
  Z.max (Z.max 0 (robustEvalCount m)) (Z.of_nat (Nat.min kRobustFitnessSampleWindow (length (robustFitnessSamples m)))).

Lemma normalize_evaluations m : robustEvalCount (normalizeRobustMetadata m) = evaluations m.
Proof.
  unfold normalizeRobustMetadata, evaluations, kRobustFitnessSampleWindow. destruct (robustFitnessSamples m) as [| x l].
  - cbn [set_robust robustEvalCount length]. destruct (Z.ltb_spec (robustEvalCount m) 0); simpl; lia.
  - cbv zeta. set (all := x :: l). cbn [set_robust robustEvalCount]. rewrite length_drop.
    destruct (Z.ltb_spec (robustEvalCount m) 0); lia.
Qed.

Lemma normalize_ok m : robust_ok (normalizeRobustMetadata m).
Proof.
  unfold normalizeRobustMetadata. destruct (robustFitnessSamples m) as [| x l] eqn:E.
  - split; cbn; [destruct (Z.ltb_spec (robustEvalCount m) 0); lia | lia | done].
  - cbv zeta. set (all := x :: l). split; cbn [set_robust robustEvalCount robustFitness robustFitnessSamples].
    + lia.
    + rewrite length_drop. unfold kRobustFitnessSampleWindow. lia.
    + intros _. split; [done | lia].
Qed.

Lemma set_robust_same m : set_robust (robustFitness m) (robustEvalCount m) (robustFitnessSamples m) m = m.
Proof. by destruct m. Qed.

(** Normalizing twice is normalizing once, for a finite estimate. *)
Lemma normalize_robust m : robust_ok m -> is_finite (robustFitness m) = true -> normalizeRobustMetadata m = m.
Proof.
  intros [Hc Hw Hs] Hf. etrans; [| apply set_robust_same]. unfold normalizeRobustMetadata.
  rewrite (proj2 (Z.ltb_ge (robustEvalCount m) 0)) by lia. destruct (robustFitnessSamples m) as [| x l] eqn:E.
  - rewrite Hf. cbn [negb]. by rewrite andb_false_r.
  - destruct (Hs ltac:(done)) as [Hm Hle]. cbv zeta.
    replace (length (x :: l) - kRobustFitnessSampleWindow)%nat with 0%nat by lia. cbn [drop].
    by rewrite Hm, Z.max_l by done.
Qed.

Lemma effective_count m : robust_ok m -> effectiveRobustEvalCount m = robustEvalCount m.
Proof.
  intros [Hc _ Hs]. unfold effectiveRobustEvalCount. destruct (Z.ltb_spec 0 (robustEvalCount m)); [done |].
  destruct (robustFitnessSamples m) as [| x l]; [lia |]. destruct (Hs ltac:(done)) as [_ Hle]. simpl in Hle. lia.
Qed.

Lemma wp_int_result z (Q : Z -> Prop) : - 2 ^ 31 <= z < 2 ^ 31 -> Q z -> wp (int_result z) Q.
Proof. intros Hz HQ. unfold int_result. repeat case_match; try done; exfalso; lia. Qed.

Lemma evaluations_ok m : robust_ok m -> evaluations m = robustEvalCount m.
Proof.
  rewrite <- normalize_evaluations.
  intros [Hc Hw Hs]. unfold normalizeRobustMetadata.
  rewrite (proj2 (Z.ltb_ge (robustEvalCount m) 0)) by lia. destruct (robustFitnessSamples m) as [| x l]; [done |].
  destruct (Hs ltac:(done)) as [_ Hle]. cbv zeta.
  replace (length (x :: l) - kRobustFitnessSampleWindow)%nat with 0%nat by lia. cbn [set_robust robustEvalCount drop]. lia.
Qed.

Lemma evaluations_nonneg m : 0 <= evaluations m.
Proof. unfold evaluations. lia. Qed.

(** What appending samples to [m] may leave. *)
Record appended (k : Z) m m' : Prop := mkAppended {
  ap_count : robustEvalCount m <= robustEvalCount m' <= robustEvalCount m + k;
  ap_window : (length (robustFitnessSamples m') <= kRobustFitnessSampleWindow)%nat;
  ap_median : robustFitnessSamples m' <> [] ->
    robustFitness m' = computeMedian (robustFitnessSamples m');
  ap_length : Z.of_nat (length (robustFitnessSamples m')) - Z.of_nat (length (robustFitnessSamples m))
    <= robustEvalCount m' - robustEvalCount m;
  ap_numeric : numeric m -> numeric m'
}.

(** A median of finite samples is a number. *)
Lemma median_numeric m count samples : numeric m -> finite_samples samples ->
  numeric (set_robust (computeMedian samples) count samples m).
Proof. intros [H1 _ _] Hf. split; [done | by apply computeMedian_not_nan | done]. Qed.

Lemma finite_drop n samples : finite_samples samples -> finite_samples (drop n samples).
Proof. apply Forall_drop. Qed.

Lemma append_one x m :
  0 <= robustEvalCount m < 2 ^ 31 - 1 -> (length (robustFitnessSamples m) <= kRobustFitnessSampleWindow)%nat ->
  (robustFitnessSamples m <> [] -> robustFitness m = computeMedian (robustFitnessSamples m)) ->
  wp (appendRobustSample x m) (appended 1 m).
Proof.
  intros Hc Hw Hm. unfold appendRobustSample. destruct (is_finite x) eqn:Ex; cbn [negb].
  2: { apply wp_ok. split; [lia | done | done | lia | done]. }
  apply wp_bind, wp_int_result; [lia |]. apply wp_ok. rewrite Z.max_r by lia. unfold kRobustFitnessSampleWindow in *.
  destruct (Nat.ltb_spec 7 (length (robustFitnessSamples m ++ [x]))) as [H | H]; rewrite length_app in H; simpl in H.
  all: split; cbn [set_robust robustEvalCount robustFitness robustFitnessSamples]; [lia | | done | |].
  3, 6: intros Hnu; apply median_numeric; [done |]; pose proof (nu_samples _ Hnu).
  3, 4: try apply finite_drop; apply Forall_app; by repeat constructor.
  all: unfold kRobustFitnessSampleWindow; rewrite ?length_drop, length_app; simpl; lia.
Qed.

Lemma append_many l m :
  0 <= robustEvalCount m -> robustEvalCount m + Z.of_nat (length l) < 2 ^ 31 ->
  (length (robustFitnessSamples m) <= kRobustFitnessSampleWindow)%nat ->
  (robustFitnessSamples m <> [] -> robustFitness m = computeMedian (robustFitnessSamples m)) ->
  wp (appendRobustSamples l m) (appended (Z.of_nat (length l)) m).
Proof.
  revert m. induction l as [| x l IH]; intros m Hc Hk Hw Hm; cbn [appendRobustSamples].
  { apply wp_ok. split; [simpl; lia | done | done | lia | done]. }
  cbn [length] in Hk. apply wp_bind. eapply wp_mono; [apply append_one; [lia | done | done] |].
  intros m1 [C1 W1 M1 L1 N1]. eapply wp_mono; [apply IH; [lia | lia | done | done] |].
  intros m2 [C2 W2 M2 L2 N2]. split; [cbn [length]; lia | done | done | lia | auto].
Qed.

Lemma normalize_numeric m : numeric m -> numeric (normalizeRobustMetadata m).
Proof.
  intros Hm. pose proof Hm as [H1 H2 H3]. unfold normalizeRobustMetadata. destruct (robustFitnessSamples m) as [| x l].
  - split; cbn [set_robust fitness robustFitness robustFitnessSamples]; [done | by case_match | constructor].
  - cbv zeta. apply median_numeric; [done | by apply finite_drop].
Qed.

Lemma effective_not_nan m : numeric m -> not_nan (effectiveRobustFitness m).
Proof. intros [? ? _]. unfold effectiveRobustFitness. by case_match. Qed.

(** Merging neither overflows nor leaves the robust estimate inconsistent; it makes
    numbers out of numbers. *)
Lemma merge_ok existing incoming :
  evaluations existing + evaluations incoming < 2 ^ 31 ->
  wp (mergeMetadata existing incoming) (fun m => robust_ok m /\
    robustEvalCount m <= evaluations existing + evaluations incoming /\
    (numeric existing -> numeric incoming -> numeric m)).
Proof.
  intros Hn. unfold mergeMetadata. pose proof (normalize_ok existing) as He. pose proof (normalize_ok incoming) as Hi.
  pose proof (normalize_numeric existing) as HNe. pose proof (normalize_numeric incoming) as HNi.
  rewrite <- !normalize_evaluations in *. set (e := normalizeRobustMetadata existing) in *. set (i := normalizeRobustMetadata incoming) in *.
  cbv zeta. rewrite !effective_count by done. set (m0 := set_robust _ _ _ _).
  assert (robustFitnessSamples m0 <> [] -> robustFitness m0 = computeMedian (robustFitnessSamples m0)) as Hm0.
  { unfold m0. cbn [set_robust robustFitness robustFitnessSamples]. by destruct (robustFitnessSamples e). }
  assert (Z.of_nat (length (robustFitnessSamples i)) <= robustEvalCount i) as Hli.
  { destruct Hi as [? _ Hs]. destruct (robustFitnessSamples i); [simpl; lia | by apply Hs]. }
  assert (numeric e -> numeric i -> numeric m0) as HN0.
  { intros Ne [I1 I2 I3]. pose proof Ne as [E1 E2 E3]. unfold m0. split;
      cbn [set_robust mergeFields fitness robustFitness robustFitnessSamples]; [by apply std_max_not_nan | | done].
    destruct (robustFitnessSamples e) eqn:Es; [done | rewrite <- Es in *; by apply computeMedian_not_nan]. }
  pose proof He as [He1 He2 He3]. pose proof (ro_count _ Hi). apply wp_bind.
  eapply wp_mono; [apply append_many; cbn [m0 set_robust robustEvalCount robustFitnessSamples]; [lia | lia | done | done] |].
  intros m1 [C1 W1 M1 L1 N1]. cbn [m0 set_robust robustEvalCount robustFitnessSamples] in C1, L1.
  apply wp_bind, wp_int_result; [lia |]. apply wp_bind, wp_int_result; [lia |]. rewrite Z.max_r by lia.
  set (count := robustEvalCount m1 + _).
  assert (Z.of_nat (length (robustFitnessSamples e)) <= robustEvalCount e) as Hle.
  { destruct (robustFitnessSamples e); [simpl; lia | by apply He3]. }
  destruct (Z.leb_spec count 0) as [Hz | Hz].
  - apply wp_ok. split; [apply normalize_ok |]. split.
    + rewrite normalize_evaluations. unfold evaluations. cbn [set_robust robustFitnessSamples robustEvalCount].
      assert (robustFitnessSamples m1 = []) as ->.
      { destruct (robustFitnessSamples m1); [done |]. simpl in L1. lia. }
      cbn [length]. lia.
    + intros Ne Ni. apply normalize_numeric. destruct (N1 (HN0 (HNe Ne) (HNi Ni))). by split.
  - cbn [set_robust robustFitnessSamples]. destruct (robustFitnessSamples m1) as [| x l] eqn:E; apply wp_ok.
    + split; [split; cbn; [lia | lia | done] |]. split; [cbn; lia |]. intros Ne Ni.
      specialize (N1 (HN0 (HNe Ne) (HNi Ni))). split; cbn; [apply N1 | | constructor].
      by apply std_max_not_nan, effective_not_nan, HNe.
    + split; [| split; [cbn; lia |]].
      * split; cbn [set_robust robustEvalCount robustFitnessSamples robustFitness]; [lia | done |].
        intros _. split; [by apply M1 | lia].
      * intros Ne Ni. destruct (N1 (HN0 (HNe Ne) (HNi Ni))) as [F1 F2 F3]. split; [done | done |].
        cbn. by rewrite <- E.
Qed.
End Robust.

(** ** Identifiers *)
Definition valid_id (id : GenomeId) : Prop := uuid_wf id /\ id <> INVALID_GENOME_ID.

Lemma generate_valid high low : valid_id (UUID.generate high low).
Proof. split; [apply generate_wf | apply generate_not_nil]. Qed.

(** ** The repository *)
Section Repository.
Context {Db : Type} `{GD : !GenomeDatabase Db, MJ : !MetadataJson, UW : !UnorderedWalk, SS : !StdSort,
    SL : !StdSortLaws}.
Implicit Types (s : GenomeRepository.t Db) (id : GenomeId) (m : GenomeMetadata.t).

(** [n] bounds the evaluations merged so far. *)
Record repo_wf (n : Z) s : Prop := mkRepoWf {
  rw_dom : forall id, genomes_ s !! id = None <-> metadata_ s !! id = None;
  rw_hash : forall h id, hashToId_ s !! h = Some id -> idToHash_ s !! id = Some h;
  rw_id : forall id h, idToHash_ s !! id = Some h -> is_Some (genomes_ s !! id);
  rw_best : forall id, bestId_ s = Some id -> is_Some (genomes_ s !! id);
  rw_valid : forall id, is_Some (genomes_ s !! id) -> valid_id id;
  rw_meta : forall id m, metadata_ s !! id = Some m ->
    robust_ok m /\ robustEvalCount m <= n /\ numeric m
}.

Lemma inMemory_wf : repo_wf 0 inMemory.
Proof. split; cbn; try done; by intros ? []. Qed.

Lemma repo_wf_mono n n' s : n <= n' -> repo_wf n s -> repo_wf n' s.
Proof.
  intros Hn [? ? ? ? ? Hm]. split; try done. intros id m Hid. destruct (Hm id m Hid) as (? & ? & ?). split; [done | split; [lia | done]].
Qed.

(** The database is not part of the invariant. *)
Lemma repo_wf_db n s db : repo_wf n s ->
  repo_wf n (GenomeRepository.mk (genomes_ s) (hashToId_ s) (idToHash_ s) (metadata_ s) (bestId_ s) db).
Proof. by intros []. Qed.

Lemma execDb_wf n s st : repo_wf n s -> repo_wf n (execDb st s).
Proof. apply repo_wf_db. Qed.

Lemma persistGenome_wf n id genome m h s : repo_wf n s -> repo_wf n (persistGenome id genome m h s).
Proof. unfold persistGenome. destruct (metadata_dump m); [apply execDb_wf | done]. Qed.

(** Of a state, [persistGenome] changes the database only. *)
Lemma persistGenome_tables id genome m h s :
  genomes_ (persistGenome id genome m h s) = genomes_ s /\ metadata_ (persistGenome id genome m h s) = metadata_ s /\
  hashToId_ (persistGenome id genome m h s) = hashToId_ s.
Proof. unfold persistGenome. by destruct (metadata_dump m). Qed.

(** A genome put under a hash that no other genome is filed under. *)
Lemma tables_wf n id genome m h s :
  repo_wf n s -> valid_id id -> robust_ok m -> robustEvalCount m <= n -> numeric m ->
  (forall old, idToHash_ s !! id = Some old -> old <> h -> hashToId_ s !! old <> Some id) ->
  repo_wf n (GenomeRepository.mk (<[id := genome]> (genomes_ s)) (<[h := id]> (hashToId_ s))
    (<[id := h]> (idToHash_ s)) (<[id := m]> (metadata_ s)) (bestId_ s) (db_ s)).
Proof.
  intros [Wd Wh Wi Wb Wv Wm] Hid Hm Hc Hnu Hold.
  split; cbn [genomes_ hashToId_ idToHash_ metadata_ bestId_].
  - intros id'. destruct (decide (id = id')) as [<- |].
    + by rewrite !lookup_insert_eq.
    + by rewrite !lookup_insert_ne.
  - intros h' id'. destruct (decide (h = h')) as [<- | Hh].
    + rewrite lookup_insert_eq. intros [= <-]. by rewrite lookup_insert_eq.
    + rewrite lookup_insert_ne by done. intros H. pose proof (Wh _ _ H) as H'.
      destruct (decide (id = id')) as [<- |]; [| by rewrite lookup_insert_ne].
      exfalso. by apply (Hold h').
  - intros id' h'. destruct (decide (id = id')) as [<- |]; [rewrite !lookup_insert_eq; by eexists |].
    rewrite !lookup_insert_ne by done. apply Wi.
  - intros id' H. destruct (decide (id = id')) as [<- |]; [rewrite lookup_insert_eq; by eexists |].
    rewrite lookup_insert_ne by done. by apply Wb.
  - intros id'. destruct (decide (id = id')) as [<- |]; [done |]. rewrite lookup_insert_ne by done. apply Wv.
  - intros id' m'. destruct (decide (id = id')) as [<- |].
    + rewrite lookup_insert_eq. by intros [= <-].
    + rewrite lookup_insert_ne by done. apply Wm.
Qed.

Lemma put_wf n id genome m h s :
  repo_wf n s -> valid_id id -> robust_ok m -> robustEvalCount m <= n -> numeric m ->
  (forall old, idToHash_ s !! id = Some old -> old <> h -> hashToId_ s !! old <> Some id) ->
  repo_wf n (putGenome id genome m h s).
Proof. intros. by apply persistGenome_wf, tables_wf. Qed.

(** Dropping the entry of an outdated hash. *)
Definition unfile (h : string) id s : GenomeRepository.t Db :=
  match hashToId_ s !! h with
  | Some mapped => if bool_decide (mapped = id) then set_hashToId_ (delete h (hashToId_ s)) s else s
  | None => s
  end.

Lemma unfile_lookup h id s h' id' :
  hashToId_ (unfile h id s) !! h' = Some id' <-> hashToId_ s !! h' = Some id' /\ ~ (h' = h /\ id' = id).
Proof.
  unfold unfile. destruct (hashToId_ s !! h) as [mapped |] eqn:E.
  - destruct (bool_decide_reflect (mapped = id)) as [-> | Hne]; cbn [hashToId_ set_hashToId_].
    + destruct (decide (h = h')) as [<- | Hh].
      * rewrite lookup_delete_eq, E. split; [done |]. intros [[= <-] []]. done.
      * rewrite lookup_delete_ne by done. split; [| tauto]. intros ?. split; [done |]. intros [-> _]. done.
    + split; [| tauto]. intros H. split; [done |]. intros [-> ->]. congruence.
  - split; [| tauto]. intros H. split; [done |]. intros [-> ->]. congruence.
Qed.

Lemma unfile_wf n h id s : repo_wf n s -> repo_wf n (unfile h id s).
Proof.
  intros Hw. pose proof (unfile_lookup h id s) as Hl. unfold unfile in *.
  destruct (hashToId_ s !! h) as [mapped |]; [| done]. destruct (bool_decide (mapped = id)); [| done].
  destruct Hw as [Wd Wh Wi Wb Wv Wm]. split; try done. intros h' id' H. apply Wh. by apply Hl in H as [? _].
Qed.

Lemma store_wf n draws id genome m s :
  repo_wf n s -> numeric m -> uuid_wf id -> (id = INVALID_GENOME_ID -> draws <> []) ->
  wp (store draws id genome m s) (repo_wf (Z.max n (evaluations m))).
Proof.
  intros Hw Hnu Hid Hd. apply normalize_numeric in Hnu. unfold store. apply wp_bind.
  apply wp_mono with (P := fun p => valid_id (fst p)).
  { destruct (bool_decide_reflect (id = INVALID_GENOME_ID)) as [E | E].
    - destruct draws as [| [high low] draws]; [by destruct (Hd E) |]. apply wp_ok, generate_valid.
    - by apply wp_ok. }
  intros [id' rest] Hid'. cbn [fst] in Hid'. apply wp_ok.
  apply (repo_wf_mono _ (Z.max n (evaluations m))) in Hw; [| lia].
  set (h := computeContentHash _ _). pose proof (normalize_ok m) as Hm.
  assert (robustEvalCount (normalizeRobustMetadata m) <= Z.max n (evaluations m)) as Hc by (rewrite normalize_evaluations; lia).
  destruct (idToHash_ s !! id') as [old |] eqn:E; [| apply put_wf; try done; congruence].
  destruct (String.eqb_spec old h) as [-> | Hne]; cbn [negb].
  - apply put_wf; try done. intros old Ho Hne. congruence.
  - fold (unfile old id' s). apply put_wf; try done; [by apply unfile_wf |].
    intros old' Ho _ H. apply unfile_lookup in H as [H Hn]. apply (rw_hash _ _ Hw) in H.
    assert (old' = old) as -> by congruence. tauto.
Qed.

(** *** Fresh identifiers *)
Definition drawn (d : Z * Z) : GenomeId := UUID.generate (fst d) (snd d).

Lemma draws_fresh (genomes : gmap GenomeId Genome.t) (draws : list (Z * Z)) :
  NoDup (drawn <$> draws) -> (size genomes < length draws)%nat ->
  Exists (fun d => genomes !! drawn d = None) draws.
Proof.
  intros Hn Hl. destruct (decide (Exists (fun d => genomes !! drawn d = None) draws)) as [| Hno]; [done |].
  exfalso.
  assert ((drawn <$> draws) ⊆+ elements (dom genomes)) as Hs.
  { apply NoDup_submseteq; [done |]. intros id (d & -> & Hd)%list_elem_of_fmap. apply elem_of_elements, elem_of_dom.
    destruct (genomes !! drawn d) eqn:E; [done |]. destruct Hno. apply Exists_exists. by exists d. }
  apply submseteq_length in Hs. rewrite length_fmap in Hs. change (length (elements (dom genomes))) with (size (dom genomes)) in Hs.
  rewrite size_dom in Hs. lia.
Qed.

Lemma freshId_ok (genomes : gmap GenomeId Genome.t) id draws :
  valid_id id -> Exists (fun d => genomes !! drawn d = None) draws ->
  wp (freshId genomes id draws) (fun id' => genomes !! id' = None /\ valid_id id').
Proof.
  intros Hid He. revert id Hid. induction draws as [| [high low] draws IH]; intros id Hid; [by apply Exists_nil in He |].
  cbn [freshId]. destruct (genomes !! id) eqn:E; [| by apply wp_ok].
  apply Exists_cons in He as [He | He]; [| apply IH; [done | apply generate_valid]].
  unfold drawn in He. cbn [fst snd] in He. destruct draws as [| [] ]; cbn [freshId]; rewrite He; apply wp_ok; split;
    try done; apply generate_valid.
Qed.

(** Enough identifiers are drawn for a store. *)
Definition enough_draws (draws : list (Z * Z)) (stored : nat) : Prop :=
  NoDup (drawn <$> draws) /\ (stored + 2 < length draws)%nat.

Lemma storeOrUpdateByHash_wf n draws genome m pref s :
  repo_wf n s -> numeric m -> 0 <= n -> n + evaluations m < 2 ^ 31 -> (forall id, pref = Some id -> uuid_wf id) ->
  enough_draws draws (size (genomes_ s)) ->
  wp (storeOrUpdateByHash draws genome m pref s) (fun r => repo_wf (n + evaluations m) (fst r) /\
    (size (genomes_ (fst r)) <= S (size (genomes_ s)))%nat).
Proof.
  intros Hw Hnu Hn Hb Hp [Hdup Hlen]. apply normalize_numeric in Hnu. unfold storeOrUpdateByHash. cbv zeta. set (h := computeContentHash _ _). clearbody h.
  pose proof (normalize_ok m) as Hm. pose proof (evaluations_nonneg m) as He0.
  destruct (hashToId_ s !! h) as [eid |] eqn:Eh.
  - pose proof (rw_hash _ _ Hw _ _ Eh) as Ei. destruct (rw_id _ _ Hw _ _ Ei) as [g0 Eg].
    destruct (metadata_ s !! eid) as [em |] eqn:Em; [| apply (rw_dom _ _ Hw) in Em; congruence].
    destruct (rw_meta _ _ Hw _ _ Em) as (Hok & Hle & Hnu0). apply wp_bind.
    eapply wp_mono; [apply merge_ok; rewrite !evaluations_ok by done; rewrite normalize_evaluations; lia |].
    rewrite !evaluations_ok by done. rewrite normalize_evaluations. intros mm (Hmm & Hcc & Hnm). apply wp_ok. cbn [fst]. split.
    + apply persistGenome_wf. apply (repo_wf_mono _ (n + evaluations m)) in Hw; [| lia].
      rewrite <- (insert_id (hashToId_ s) h eid) by exact Eh.
      apply tables_wf; [done | apply (rw_valid _ _ Hw); by exists g0 | done | lia | auto | congruence].
    + rewrite (proj1 (persistGenome_tables eid genome mm h _)). cbn. rewrite map_size_insert_Some by (exists g0; exact Eg). lia.
  - apply wp_bind. apply wp_mono with (P := fun p => uuid_wf (fst p) /\ NoDup (drawn <$> snd p) /\
      (S (size (genomes_ s)) < length (snd p))%nat).
    { destruct pref as [id |]; [apply wp_ok; cbn; split; [by apply Hp | split; [done | lia]] |].
      destruct draws as [| [high low] draws]; [simpl in Hlen; lia |]. apply wp_ok. cbn in *.
      apply NoDup_cons_1_2 in Hdup. split; [apply generate_wf | split; [done | lia]]. }
    intros [id ds] (Hid & Hdup' & Hlen'). cbn [fst snd] in *. apply wp_bind.
    apply wp_mono with (P := fun p => valid_id (fst p) /\ NoDup (drawn <$> snd p) /\ (size (genomes_ s) < length (snd p))%nat).
    { case_bool_decide as E; cbn [orb].
      2: destruct (negb _); [| apply wp_ok; cbn; split; [done | split; [done | lia]]].
      all: destruct ds as [| [high low] ds]; [simpl in Hlen'; lia |]; apply wp_ok; cbn in *.
      all: apply NoDup_cons_1_2 in Hdup'; split; [apply generate_valid | split; [done | lia]]. }
    intros [id2 ds2] (Hid2 & Hdup2 & Hlen2). cbn [fst snd] in *. apply wp_bind.
    eapply wp_mono; [apply freshId_ok; [done | by apply draws_fresh] |]. intros id3 [Hf Hv]. apply wp_ok. cbn [fst]. split.
    + apply put_wf; [by apply (repo_wf_mono n); [lia |] | done | done | rewrite normalize_evaluations; lia | done |].
      intros old Ho. destruct (rw_id _ _ Hw _ _ Ho) as [? ?]. congruence.
    + unfold putGenome. rewrite (proj1 (persistGenome_tables _ _ _ _ _)). cbn. rewrite map_size_insert_None by done. lia.
Qed.

(** *** Removing *)
Lemma removeNoLock_tables id s :
  genomes_ (removeNoLock id s) = delete id (genomes_ s) /\
  metadata_ (removeNoLock id s) = delete id (metadata_ s) /\
  idToHash_ (removeNoLock id s) = delete id (idToHash_ s) /\
  bestId_ (removeNoLock id s) = (if bool_decide (bestId_ s = Some id) then None else bestId_ s) /\
  hashToId_ (removeNoLock id s) =
    (match idToHash_ s !! id with Some h => hashToId_ (unfile h id s) | None => hashToId_ s end).
Proof.
  unfold removeNoLock, deleteGenome, persistBestId, execDb, unfile. cbn.
  destruct (idToHash_ s !! id) as [h |] eqn:E.
  - destruct (hashToId_ s !! h) as [mapped |]; [destruct (bool_decide (mapped = id)) |]; cbn.
    all: by destruct (bool_decide (bestId_ s = Some id)).
  - rewrite (delete_id (idToHash_ s)) by done. cbn. by destruct (bool_decide (bestId_ s = Some id)).
Qed.

Lemma removeNoLock_wf n id s : repo_wf n s -> repo_wf n (removeNoLock id s).
Proof.
  intros Hw. destruct (removeNoLock_tables id s) as (Eg & Em & Ei & Eb & Eh). pose proof Hw as [Wd Wh Wi Wb Wv Wm].
  split; rewrite ?Eg, ?Em, ?Ei, ?Eb, ?Eh.
  - intros id'. destruct (decide (id = id')) as [<- |]; [by rewrite !lookup_delete_eq | by rewrite !lookup_delete_ne].
  - intros h id' Hl.
    assert (hashToId_ s !! h = Some id' /\ id' <> id) as [Hl' Hne].
    { destruct (idToHash_ s !! id) as [h0 |] eqn:E.
      - apply unfile_lookup in Hl as [Hl Hn]. split; [done |]. intros ->. apply Hn. split; [| done].
        apply Wh in Hl. congruence.
      - split; [done |]. intros ->. apply Wh in Hl. congruence. }
    rewrite lookup_delete_ne by done. by apply Wh.
  - intros id' h. destruct (decide (id = id')) as [<- |]; [by rewrite lookup_delete_eq |].
    rewrite !lookup_delete_ne by done. apply Wi.
  - intros id'. destruct (bool_decide_reflect (bestId_ s = Some id)) as [E | E]; [done |]. intros Hb.
    rewrite lookup_delete_ne by congruence. by apply Wb.
  - intros id'. destruct (decide (id = id')) as [<- |]; [rewrite lookup_delete_eq; by intros [] |].
    rewrite lookup_delete_ne by done. apply Wv.
  - intros id' m. destruct (decide (id = id')) as [<- |]; [by rewrite lookup_delete_eq |].
    rewrite lookup_delete_ne by done. apply Wm.
Qed.

Lemma removeWorst_wf n quota ids s : repo_wf n s -> repo_wf n (fst (removeWorst quota ids s)).
Proof.
  revert quota s. induction ids as [| id ids IH]; intros [| quota] s Hw; cbn [removeWorst]; [done | done | done |].
  destruct (bool_decide _); [by apply IH |]. specialize (IH quota (removeNoLock id s) (removeNoLock_wf _ _ _ Hw)).
  by destruct (removeWorst quota ids (removeNoLock id s)).
Qed.

Lemma clear_wf n s : 0 <= n -> repo_wf n (clear s).
Proof. intros Hn. apply execDb_wf. split; cbn; try done; by intros ? []. Qed.

Lemma markAsBest_wf n id s : repo_wf n s -> repo_wf n (markAsBest id s).
Proof.
  intros Hw. unfold markAsBest. destruct (genomes_ s !! id) eqn:E; [| done]. apply execDb_wf.
  destruct Hw as [Wd Wh Wi Wb Wv Wm]. split; try done. cbn. intros id' [= <-]. by eexists.
Qed.
End Repository.
