(* ===== verification/GenomePrune.v ===== *)
(** Pruning the genome repository: what is removed from each bucket, and what
    is kept. *)

From Stdlib Require Import ZArith Lia Bool String.
From Stdlib Require Import SpecFloat.
From stdpp Require Import base gmap option numbers list strings sorting fin_map_dom.
From S2P Require Import Prelude Ieee StdModel Uuid Genomes GenomeFacts.

Set Default Goal Selector "!".

Import GenomeMetadata GenomeMetadataUtils GenomeRepository.

(** ** The order of pruning *)
Section Order.
Implicit Types (a b c : GenomeId * GenomeMetadata.t).

(** [a] scores no more than [b]. *)
Definition no_better a b : Prop := flt (effectiveRobustFitness (snd b)) (effectiveRobustFitness (snd a)) = false.

Definition scored a : Prop := not_nan (effectiveRobustFitness (snd a)).

Lemma prunedBefore_lex a b : scored a -> scored b ->
  prunedBefore a b =
  lex_before (fun a b => flt (effectiveRobustFitness (snd a)) (effectiveRobustFitness (snd b)))
    (lex_before (fun a b => createdTimestamp (snd a) <? createdTimestamp (snd b))
       (fun a b => String.ltb (UUID.toString (fst a)) (UUID.toString (fst b)))) a b.
Proof.
  intros Ha Hb. unfold prunedBefore, lex_before. rewrite SFeqb_key by done.
  destruct (flt (effectiveRobustFitness (snd a)) _) eqn:E1; [done |].
  destruct (flt (effectiveRobustFitness (snd b)) _) eqn:E2; cbn [negb orb andb]; [done |].
  destruct (Z.eqb_spec (createdTimestamp (snd a)) (createdTimestamp (snd b))) as [-> | Hne]; cbn [negb].
  - by rewrite Z.ltb_irrefl.
  - destruct (Z.ltb_spec (createdTimestamp (snd a)) (createdTimestamp (snd b))); [done |].
    by rewrite (proj2 (Z.ltb_lt _ _)) by lia.
Qed.

(** Of scores that are numbers, [prunedBefore] is an order that [std::sort] may be given. *)
Lemma prunedBefore_swo l : Forall scored l -> strict_weak_order prunedBefore l.
Proof.
  intros Hl. eapply swo_ext; [intros a b Ha Hb; symmetry; apply prunedBefore_lex; rewrite Forall_forall in Hl; auto |].
  apply swo_lex; [by apply (swo_flt (fun a => effectiveRobustFitness (snd a))) |].
  apply swo_lex; [| apply (swo_string (fun a => UUID.toString (fst a)))].
  split; intros; lia.
Qed.

Lemma pruned_later a b : prunedBefore b a = false -> no_better a b.
Proof.
  unfold prunedBefore, no_better. cbv zeta. destruct (SFeqb _ _) eqn:E; cbn [negb]; [| done]. intros _.
  unfold SFeqb, flt, SFltb in *. by destruct (SFcompare _ _) as [[] |].
Qed.

(** Sorting puts no better genomes first. *)
Lemma sorted_no_better `{SS : !StdSort, SL : !StdSortLaws} l :
  Forall scored l -> StronglySorted no_better (std_sort prunedBefore l).
Proof.
  intros Hl. pose proof (std_sort_sorted _ _ _ (prunedBefore_swo l Hl)) as H.
  induction H as [| a l' H IH Ha]; constructor; [done |]. eapply Forall_impl; [exact Ha |]. intros b. apply pruned_later.
Qed.
End Order.

(** ** One bucket *)
Section Bucket.
Context {Db : Type} `{GD : !GenomeDatabase Db, MJ : !MetadataJson, UW : !UnorderedWalk, SS : !StdSort,
    SL : !StdSortLaws}.
Implicit Types (s : GenomeRepository.t Db) (id : GenomeId) (m : GenomeMetadata.t) (ids removed : list GenomeId).

(** The genomes in [removed] leave the repository, nothing else does. *)
Record removes removed s s' : Prop := mkRemoves {
  rs_genomes : forall id, genomes_ s' !! id = if bool_decide (id ∈ removed) then None else genomes_ s !! id;
  rs_metadata : forall id, metadata_ s' !! id = if bool_decide (id ∈ removed) then None else metadata_ s !! id;
  rs_best : bestId_ s' = bestId_ s
}.

Lemma removes_nil s : removes [] s s.
Proof. split; try done; intros id; by rewrite bool_decide_eq_false_2 by (apply not_elem_of_nil). Qed.

Lemma removes_trans r1 r2 s1 s2 s3 : removes r1 s1 s2 -> removes r2 s2 s3 -> removes (r1 ++ r2) s1 s3.
Proof.
  intros [G1 M1 B1] [G2 M2 B2]. split; [| | congruence]; intros id.
  - rewrite G2, G1, !bool_decide_decide. repeat case_decide; set_solver.
  - rewrite M2, M1, !bool_decide_decide. repeat case_decide; set_solver.
Qed.

Lemma removes_one id s : bestId_ s <> Some id -> removes [id] s (removeNoLock id s).
Proof.
  intros Hb. destruct (removeNoLock_tables id s) as (Eg & Em & _ & Eb & _). split; rewrite ?Eg, ?Em, ?Eb.
  1,2: intros id'; destruct (decide (id = id')) as [<- |].
  1,3: rewrite lookup_delete_eq, bool_decide_eq_true_2 by (by left); done.
  1,2: rewrite lookup_delete_ne, bool_decide_eq_false_2 by (try done; by rewrite list_elem_of_singleton); done.
  by rewrite bool_decide_eq_false_2.
Qed.

(** The worst [quota] genomes go, the best one excepted. *)
Definition doomed (best : option GenomeId) (quota : nat) ids : list GenomeId :=
  take quota (filter (fun id => best <> Some id) ids).

Lemma removeWorst_removes quota ids s :
  let '(s', n) := removeWorst quota ids s in
  removes (doomed (bestId_ s) quota ids) s s' /\ n = length (doomed (bestId_ s) quota ids).
Proof.
  revert quota s. induction ids as [| id ids IH]; intros [| quota] s; cbn [removeWorst].
  1-3: unfold doomed; rewrite ?filter_nil, ?take_nil, ?take_0; split; [apply removes_nil | done].
  unfold doomed. rewrite filter_cons. case_bool_decide as Hb.
  - rewrite decide_False by tauto. apply (IH (S quota)).
  - rewrite decide_True by done. cbn [take]. specialize (IH quota (removeNoLock id s)).
    pose proof (removes_one id s Hb) as H1. pose proof (rs_best _ _ _ H1) as Hbest. rewrite Hbest in IH.
    destruct (removeWorst quota ids (removeNoLock id s)) as [s' n]. destruct IH as [H2 ->].
    split; [| done]. apply (removes_trans [id]) with (s2 := removeNoLock id s); done.
Qed.

(** Bucket [ids] loses [removed]: the excess, the worst first, never the best. *)
Record prunes (n : nat) ids (best : option GenomeId) (metadata : gmap GenomeId GenomeMetadata.t) removed : Prop := mkPrunes {
  pr_sub : forall id, id ∈ removed -> id ∈ ids;
  pr_nodup : NoDup removed;
  pr_count : length removed = (length ids - n)%nat;
  pr_best : forall id, id ∈ removed -> best <> Some id;
  pr_worst : forall x y mx my, x ∈ removed -> y ∈ ids -> y ∉ removed -> best <> Some y ->
    metadata !! x = Some mx -> metadata !! y = Some my -> no_better (x, mx) (y, my)
}.

Lemma withMetadata_ok (metadata : gmap GenomeId GenomeMetadata.t) ids :
  (forall id, id ∈ ids -> is_Some (metadata !! id)) ->
  wp (withMetadata metadata ids) (fun entries => map fst entries = ids /\
    forall id m, (id, m) ∈ entries <-> id ∈ ids /\ metadata !! id = Some m).
Proof.
  induction ids as [| id ids IH]; intros H; cbn [withMetadata].
  { apply wp_ok. split; [done |]. intros id m. rewrite !elem_of_nil. tauto. }
  destruct (H id ltac:(by left)) as [m E]. rewrite E. apply wp_bind.
  eapply wp_mono; [apply IH; intros id' Hid'; apply H; by right |].
  intros entries [Hm He]. apply wp_ok. split; [cbn; by rewrite Hm |].
  intros id' m'. rewrite !elem_of_cons, He. split.
  - intros [[= -> ->] | [? ?]]; [split; [by left | done] | split; [by right | done]].
  - intros [[-> | ?] Hl]; [left; congruence | right; done].
Qed.

Lemma filter_everything (P : GenomeId -> Prop) `{PD : forall x, Decision (P x)} ids :
  (forall id, id ∈ ids -> P id) -> filter P ids = ids.
Proof.
  induction ids as [| id ids IH]; intros H; [done |]. rewrite filter_cons, decide_True by (apply H; by left).
  f_equal. apply IH. intros id' Hid'. apply H. by right.
Qed.

Lemma best_once ids (best : option GenomeId) :
  NoDup ids -> (length ids <= S (length (filter (fun id => best <> Some id) ids)))%nat.
Proof.
  induction ids as [| id ids IH]; intros Hn; [simpl; lia |]. apply NoDup_cons in Hn as [Hid Hn].
  rewrite filter_cons. case_decide as Hb; [cbn [length]; specialize (IH Hn); lia |].
  assert (best = Some id) as -> by (destruct (decide (best = Some id)); tauto).
  rewrite filter_everything; [cbn; lia |]. intros id' Hid' [= ->]. done.
Qed.

Lemma take_filter_elem (P : GenomeId -> Prop) `{PD : forall x, Decision (P x)} q ids id :
  id ∈ take q (filter P ids) -> P id /\ id ∈ ids.
Proof. intros H. apply elem_of_take in H as (i & H & _). apply list_elem_of_lookup_2, list_elem_of_filter in H. done. Qed.

(** Before an element that stays, all that could go have gone. *)
Lemma take_filter_before (P : GenomeId -> Prop) `{PD : forall x, Decision (P x)} q ids x y :
  x ∈ take q (filter P ids) -> y ∈ ids -> P y -> y ∉ take q (filter P ids) ->
  exists l1 l2, ids = l1 ++ l2 /\ x ∈ l1 /\ y ∈ l2.
Proof.
  revert q. induction ids as [| id ids IH]; intros q Hx Hy HP Hn; [by apply elem_of_nil in Hy |].
  rewrite filter_cons in Hx, Hn. apply elem_of_cons in Hy as [-> | Hy].
  { rewrite decide_True in Hx, Hn by done. destruct q as [| q]; cbn [take] in Hx, Hn; [by apply elem_of_nil in Hx |].
    destruct Hn. by left. }
  case_decide as Hid.
  - destruct q as [| q]; cbn [take] in Hx, Hn; [by apply elem_of_nil in Hx |].
    apply not_elem_of_cons in Hn as [Hne Hn]. apply elem_of_cons in Hx as [-> | Hx].
    + exists [id], ids. split; [done |]. split; [by left | done].
    + destruct (IH q Hx Hy HP Hn) as (l1 & l2 & -> & ? & ?). exists (id :: l1), l2. split; [done |]. split; [by right | done].
  - destruct (IH q Hx Hy HP Hn) as (l1 & l2 & -> & ? & ?). exists (id :: l1), l2. split; [done |]. split; [by right | done].
Qed.

Lemma pruneBucket_ok n ids s :
  (1 <= n)%nat -> NoDup ids -> (forall id, id ∈ ids -> is_Some (metadata_ s !! id)) ->
  (forall id m, id ∈ ids -> metadata_ s !! id = Some m -> scored (id, m)) ->
  wp (pruneBucket n ids s) (fun '(s', k) => exists removed,
    removes removed s s' /\ k = length removed /\ prunes n ids (bestId_ s) (metadata_ s) removed).
Proof.
  intros Hn Hd Hm Hnum. unfold pruneBucket. destruct (Nat.leb_spec (length ids) n) as [Hle | Hlt].
  { apply wp_ok. exists []. split; [apply removes_nil |]. split; [done |].
    split; [by intros ? ?%elem_of_nil | constructor | simpl; lia | by intros ? ?%elem_of_nil | by intros ? ? ? ? ?%elem_of_nil]. }
  apply wp_bind. eapply wp_mono; [by apply withMetadata_ok |]. intros entries [He Hin].
  assert (Forall scored entries) as Hsc by (apply Forall_forall; intros [z mz] [Hz1 Hz2]%Hin; by apply Hnum).
  pose proof (std_sort_perm _ _ _ (prunedBefore_swo entries Hsc)) as Hperm.
  pose proof (sorted_no_better entries Hsc) as Hss. set (sorted := std_sort prunedBefore entries) in *.
  assert (map fst sorted ≡ₚ ids) as Hp by (by rewrite <- He, Hperm).
  pose proof (removeWorst_removes (length ids - n) (map fst sorted) s) as Hr.
  apply wp_ok. destruct (removeWorst _ _ s) as [s' k]. destruct Hr as [Hr ->].
  exists (doomed (bestId_ s) (length ids - n) (map fst sorted)). split; [done |]. split; [done |]. unfold doomed. split.
  - intros id [_ Hid]%take_filter_elem. by rewrite Hp in Hid.
  - eapply sublist_NoDup; [| apply sublist_take]. eapply sublist_NoDup; [| apply sublist_filter]. by rewrite Hp.
  - rewrite length_take. pose proof (best_once (map fst sorted) (bestId_ s) ltac:(by rewrite Hp)) as Hb.
    rewrite (Permutation_length Hp) in Hb. lia.
  - intros id [Hb _]%take_filter_elem. done.
  - intros x y mx my Hx Hy Hny Hby Emx Emy. rewrite <- Hp in Hy.
    destruct (take_filter_before _ _ _ x y Hx Hy Hby Hny) as (l1 & l2 & Hl & H1 & H2).
    destruct (map_eq_app _ _ _ _ Hl) as (e1 & e2 & Hs & He1 & He2).
    rewrite Hs in Hss.
    assert (forall z mz l, (forall e, e ∈ l -> e ∈ sorted) -> z ∈ map fst l -> metadata_ s !! z = Some mz -> (z, mz) ∈ l) as Hpair.
    { intros z mz l Hsub Hz Emz. apply list_elem_of_fmap in Hz as ([z' mz'] & -> & Hz). cbn in *.
      pose proof (Hsub _ Hz) as Hz'. rewrite Hperm in Hz'. apply Hin in Hz' as [_ Ez].
      congruence. }
    apply (StronglySorted_app_1_elem_of _ e1 e2); [done | |]; apply Hpair; try done.
    + intros e Hee. rewrite Hs. apply elem_of_app. by left.
    + by rewrite He1.
    + intros e Hee. rewrite Hs. apply elem_of_app. by right.
    + by rewrite He2.
Qed.
End Bucket.

(** ** The buckets *)
Section Buckets.
Implicit Types (id : GenomeId) (m : GenomeMetadata.t) (key : ManagedGenomeBucketKey).
Implicit Types (entries : list (GenomeId * GenomeMetadata.t)) (buckets : list (ManagedGenomeBucketKey * list GenomeId)).

(** A managed genome of the bucket [key]. *)
Definition in_bucket key (entry : GenomeId * GenomeMetadata.t) : Prop :=
  trainingSessionId (snd entry) <> None /\ bucketKey (snd entry) = key.
#[global] Instance in_bucket_dec key entry : Decision (in_bucket key entry).
Proof. unfold in_bucket. apply _. Defined.

Definition bucket_ids key entries : list GenomeId := map fst (filter (in_bucket key) entries).

Lemma key_elem key ids buckets : (key, ids) ∈ buckets -> key ∈ map fst buckets.
Proof. intros H. apply list_elem_of_fmap. by exists (key, ids). Qed.

Lemma push_spec key id buckets :
  NoDup (map fst buckets) ->
  NoDup (map fst (pushToBucket key id buckets)) /\
  (forall k, k ∈ map fst (pushToBucket key id buckets) <-> k = key \/ k ∈ map fst buckets) /\
  (forall k ids, (k, ids) ∈ pushToBucket key id buckets ->
    (k <> key /\ (k, ids) ∈ buckets) \/
    (k = key /\ ((exists old, (key, old) ∈ buckets /\ ids = old ++ [id]) \/ (key ∉ map fst buckets /\ ids = [id])))).
Proof.
  induction buckets as [| [key' ids'] buckets IH]; intros Hn; cbn [pushToBucket map fst].
  - split; [apply NoDup_singleton |]. split.
    + intros k. rewrite list_elem_of_singleton, elem_of_nil. tauto.
    + intros k ids [= -> ->]%list_elem_of_singleton. right. split; [done |]. right. split; [apply not_elem_of_nil | done].
  - cbn [map fst] in Hn. apply NoDup_cons in Hn as [Hk Hn]. case_bool_decide as E; cbn [map fst].
    + subst key'. split; [by apply NoDup_cons |]. split; [intros k; rewrite elem_of_cons; tauto |].
      intros k ids [[= -> ->] | Hin]%elem_of_cons.
      * right. split; [done |]. left. exists ids'. split; [by left | done].
      * left. split; [| by right]. intros ->. apply Hk. by eapply key_elem.
    + destruct (IH Hn) as (H1 & H2 & H3). split; [| split].
      * apply NoDup_cons. split; [| done]. rewrite H2. intros [-> | ?]; done.
      * intros k. rewrite !elem_of_cons, H2. tauto.
      * intros k ids [[= -> ->] | Hin]%elem_of_cons; [left; split; [congruence | by left] |].
        destruct (H3 k ids Hin) as [[? ?] | [-> [(old & ? & ->) | [Hno ->]]]].
        -- left. split; [done | by right].
        -- right. split; [done |]. left. exists old. split; [by right | done].
        -- right. split; [done |]. right. split; [| done]. by apply not_elem_of_cons.
Qed.

Lemma managedBuckets_ok entries :
  NoDup (map fst (managedBuckets entries)) /\
  (forall key ids, (key, ids) ∈ managedBuckets entries -> ids = bucket_ids key entries) /\
  (forall key, bucket_ids key entries <> [] <-> key ∈ map fst (managedBuckets entries)).
Proof.
  induction entries as [| [id m] entries IH] using rev_ind.
  { cbn. split; [constructor |]. split; [by intros ? ? ?%elem_of_nil |]. intros key. rewrite elem_of_nil. done. }
  destruct IH as (H1 & H2 & H3). unfold managedBuckets in *. rewrite fold_left_app. cbn [fold_left].
  assert (forall key, bucket_ids key (entries ++ [(id, m)]) =
    bucket_ids key entries ++ (if decide (in_bucket key (id, m)) then [id] else [])) as Hb.
  { intros key. unfold bucket_ids. rewrite filter_app, map_app. f_equal. rewrite filter_cons. by case_decide. }
  destruct (trainingSessionId m) as [sid |] eqn:Es.
  - destruct (push_spec (bucketKey m) id _ H1) as (P1 & P2 & P3). split; [done |]. split.
    + intros key ids Hin. rewrite Hb. destruct (P3 key ids Hin) as [[Hne Hin'] | [-> Hor]].
      * rewrite decide_False by (intros [_ Hk]; by apply Hne). by rewrite app_nil_r; apply H2.
      * rewrite decide_True by (split; [cbn; by rewrite Es | done]). destruct Hor as [(old & Ho & ->) | [Hno ->]].
        -- by rewrite (H2 _ _ Ho).
        -- destruct (bucket_ids (bucketKey m) entries) as [| x l] eqn:E; [done |].
           destruct Hno. apply H3. by rewrite E.
    + intros key. rewrite P2, Hb, <- H3. case_decide as Hk.
      * split; [intros _; left; symmetry; apply Hk |]. intros _ Hnil. by apply app_eq_nil in Hnil as [_ ?].
      * rewrite app_nil_r. split; [by right |]. intros [-> | ?]; [| done]. destruct Hk. split; [cbn; by rewrite Es | done].
  - split; [done |]. split.
    + intros key ids Hin. rewrite Hb, decide_False by (intros [Hk _]; by apply Hk). rewrite app_nil_r. by apply H2.
    + intros key. rewrite Hb, decide_False by (intros [Hk _]; by apply Hk). by rewrite app_nil_r, H3.
Qed.
End Buckets.

(** ** The whole repository *)
Section Prune.
Context {Db : Type} `{GD : !GenomeDatabase Db, MJ : !MetadataJson, UW : !UnorderedWalk, SS : !StdSort,
    SL : !StdSortLaws}.
Implicit Types (s : GenomeRepository.t Db) (id : GenomeId) (m : GenomeMetadata.t) (ids removed : list GenomeId).
Implicit Types (buckets : list (ManagedGenomeBucketKey * list GenomeId)).

(** The buckets list genomes of [s] under their keys. *)
Record bucketed buckets s : Prop := mkBucketed {
  bk_keys : NoDup (map fst buckets);
  bk_nodup : forall key ids, (key, ids) ∈ buckets -> NoDup ids;
  bk_members : forall key ids id, (key, ids) ∈ buckets -> id ∈ ids ->
    exists m, metadata_ s !! id = Some m /\ in_bucket key (id, m)
}.

(** The scores of the managed genomes are numbers. *)
Definition numbered s : Prop :=
  forall id m, metadata_ s !! id = Some m -> trainingSessionId m <> None -> scored (id, m).

Lemma repo_wf_numbered n s : repo_wf n s -> numbered s.
Proof. intros Hw id m Hm _. apply effective_not_nan. by destruct (rw_meta _ _ Hw id m Hm) as (_ & _ & ?). Qed.

Lemma removes_numbered removed s s' : removes removed s s' -> numbered s -> numbered s'.
Proof. intros Hr Hs id m Hm. rewrite (rs_metadata _ _ _ Hr) in Hm. case_bool_decide; [done |]. by apply Hs. Qed.

Lemma bucketed_scored buckets s key ids id m :
  bucketed buckets s -> numbered s -> (key, ids) ∈ buckets -> id ∈ ids -> metadata_ s !! id = Some m -> scored (id, m).
Proof.
  intros Hb Hs Hk Hid Hm. destruct (bk_members _ _ Hb key ids id Hk Hid) as (m' & Hm' & [Ht _]).
  apply Hs; [done |]. by replace m with m' by congruence.
Qed.

Lemma bucketed_disjoint buckets s key1 ids1 key2 ids2 id :
  bucketed buckets s -> (key1, ids1) ∈ buckets -> (key2, ids2) ∈ buckets -> id ∈ ids1 -> id ∈ ids2 -> key1 = key2.
Proof.
  intros [_ _ Hm] H1 H2 I1 I2. destruct (Hm _ _ _ H1 I1) as (m1 & E1 & [_ K1]), (Hm _ _ _ H2 I2) as (m2 & E2 & [_ K2]).
  cbn in K1, K2. congruence.
Qed.

Lemma filter_none ids (P : GenomeId -> Prop) `{PD : forall x, Decision (P x)} :
  (forall id, id ∈ ids -> ~ P id) -> filter P ids = [].
Proof.
  induction ids as [| id ids IH]; intros H; [done |]. rewrite filter_cons, decide_False by (apply H; by left).
  apply IH. intros id' Hid'. apply H. by right.
Qed.

Lemma prunes_ext n ids best metadata metadata' removed :
  (forall id, id ∈ ids -> metadata' !! id = metadata !! id) ->
  prunes n ids best metadata' removed -> prunes n ids best metadata removed.
Proof.
  intros He [P1 P2 P3 P4 P5]. split; [done.. |]. intros x y mx my Hx Hy Hny Hb Ex Ey.
  apply P5; try done; [by rewrite He by (by apply P1) | by rewrite He].
Qed.

Lemma pruneBuckets_ok n buckets s :
  (1 <= n)%nat -> numbered s -> bucketed buckets s ->
  wp (pruneBuckets n buckets s) (fun '(s', k) => exists removed,
    NoDup removed /\ removes removed s s' /\ k = length removed /\
    (forall id, id ∈ removed -> exists key ids, (key, ids) ∈ buckets /\ id ∈ ids) /\
    (forall key ids, (key, ids) ∈ buckets ->
      prunes n ids (bestId_ s) (metadata_ s) (filter (fun id => id ∈ ids) removed))).
Proof.
  intros Hn. revert s. induction buckets as [| [key ids] buckets IH]; intros s Hnum Hb; cbn [pruneBuckets].
  { apply wp_ok. exists []. split; [constructor |]. split; [apply removes_nil |]. split; [done |].
    split; [by intros ? ?%elem_of_nil | by intros ? ? ?%elem_of_nil]. }
  pose proof Hb as [Hk Hd Hm]. cbn [map fst] in Hk. apply NoDup_cons in Hk as [Hkey Hk]. apply wp_bind.
  assert ((key, ids) ∈ (key, ids) :: buckets) as Hhd by (by left).
  eapply wp_mono; [apply (pruneBucket_ok n ids s Hn); [by apply (Hd key) | |] |].
  { intros id Hid. destruct (Hm key ids id Hhd Hid) as (m & E & _). by exists m. }
  { intros id m. by apply (bucketed_scored ((key, ids) :: buckets) s key ids). }
  intros [s1 k1] (r1 & R1 & -> & Hp1). apply wp_bind.
  assert (forall key' ids', (key', ids') ∈ buckets -> forall id, id ∈ ids' -> id ∉ ids) as Hdis.
  { intros key' ids' Hin id Hid Hid'.
    pose proof (bucketed_disjoint _ _ _ _ _ _ id Hb Hhd (list_elem_of_further _ _ _ Hin) Hid' Hid) as <-.
    apply Hkey. by eapply key_elem. }
  assert (forall key' ids', (key', ids') ∈ buckets -> forall id, id ∈ ids' -> metadata_ s1 !! id = metadata_ s !! id) as Hsame.
  { intros key' ids' Hin id Hid. rewrite (rs_metadata _ _ _ R1), bool_decide_eq_false_2; [done |].
    intros Hr. apply (pr_sub _ _ _ _ _ Hp1) in Hr. by apply (Hdis key' ids' Hin id). }
  eapply wp_mono; [apply (IH s1); [by eapply removes_numbered | split; [done | intros; by eapply Hd; right |]] |].
  { intros key' ids' id Hin Hid. rewrite (Hsame key' ids') by done. apply (Hm key' ids'); [by right | done]. }
  intros [s2 k2] (r2 & N2 & R2 & -> & S2 & P2). apply wp_ok. exists (r1 ++ r2).
  assert (forall id, id ∈ r2 -> id ∉ ids) as Hr2.
  { intros id Hid. destruct (S2 id Hid) as (key' & ids' & Hin & Hid'). by apply (Hdis key' ids'). }
  pose proof (pr_sub _ _ _ _ _ Hp1) as Hr1. rewrite length_app. split; [| split; [| split; [done | split]]].
  - apply NoDup_app. split; [apply (pr_nodup _ _ _ _ _ Hp1) |]. split; [| done].
    intros id Hid Hid2. by apply (Hr2 id), Hr1.
  - by eapply removes_trans.
  - intros id [Hid | Hid]%elem_of_app; [exists key, ids; split; [done | by apply Hr1] |].
    destruct (S2 id Hid) as (key' & ids' & ? & ?). exists key', ids'. split; [by right | done].
  - intros key' ids' [[= -> ->] | Hin]%elem_of_cons; rewrite filter_app.
    + rewrite (filter_everything _ r1) by done. rewrite (filter_none r2) by done. by rewrite app_nil_r.
    + rewrite (filter_none r1) by (intros id Hid Hid'; by apply (Hdis key' ids' Hin id Hid'), Hr1). cbn [app].
      rewrite <- (rs_best _ _ _ R1). eapply prunes_ext; [by apply (Hsame key' ids') | by apply (P2 key')].
Qed.

Lemma pruneBuckets_wf N n buckets s :
  repo_wf N s -> forall s' k, pruneBuckets n buckets s = Ok (s', k) -> repo_wf N s'.
Proof.
  revert s. induction buckets as [| [key ids] buckets IH]; intros s Hw s' k; cbn [pruneBuckets]; [by intros [= <- <-] |].
  destruct (pruneBucket n ids s) as [[s1 k1] |] eqn:E; cbn [rbind]; [| done].
  assert (repo_wf N s1) as Hw1.
  { unfold pruneBucket in E. destruct (_ <=? _)%nat; [by injection E as <- <- |].
    destruct (withMetadata (metadata_ s) ids) as [entries |]; cbn [rbind] in E; [| done]. injection E as E.
    pose proof (removeWorst_wf N (length ids - n) (map fst (std_sort prunedBefore entries)) s Hw) as H. by rewrite E in H. }
  destruct (pruneBuckets n buckets s1) as [[s2 k2] |] eqn:E2; cbn [rbind]; [| done]. intros [= <- <-]. by eapply IH.
Qed.

(** The managed genomes of one bucket. *)
Definition members (key : ManagedGenomeBucketKey) s : gmap GenomeId GenomeMetadata.t :=
  filter (in_bucket key) (metadata_ s).

Lemma size_of_list {A} (M : gmap GenomeId A) ids :
  NoDup ids -> (forall id, id ∈ ids <-> is_Some (M !! id)) -> size M = length ids.
Proof.
  intros Hn H. rewrite <- size_dom. assert (dom M = list_to_set ids) as ->.
  { apply set_eq. intros id. by rewrite elem_of_dom, elem_of_list_to_set, H. }
  by apply size_list_to_set.
Qed.

Lemma members_lookup key s id m : members key s !! id = Some m <-> metadata_ s !! id = Some m /\ in_bucket key (id, m).
Proof. apply map_lookup_filter_Some. Qed.

Lemma bucket_ids_elem `{UL : !UnorderedWalkLaws} key s id :
  id ∈ bucket_ids key (walk _ (map_to_list (metadata_ s))) <-> is_Some (members key s !! id).
Proof.
  unfold bucket_ids. rewrite list_elem_of_fmap. split.
  - intros ([id' m] & -> & [Hb Hin]%list_elem_of_filter). rewrite walk_perm in Hin. apply elem_of_map_to_list in Hin.
    exists m. by apply members_lookup.
  - intros [m [Hm Hb]%members_lookup]. exists (id, m). split; [done |]. apply list_elem_of_filter. split; [done |].
    rewrite walk_perm. by apply elem_of_map_to_list.
Qed.

Lemma filter_keys_NoDup (P : GenomeId * GenomeMetadata.t -> Prop) `{PD : forall x, Decision (P x)} l :
  NoDup (map fst l) -> NoDup (map fst (filter P l)).
Proof.
  induction l as [| [id m] l IH]; intros Hn; [constructor |]. cbn [map fst] in Hn. apply NoDup_cons in Hn as [Hid Hn].
  rewrite filter_cons. case_decide; [| by apply IH]. cbn [map fst]. apply NoDup_cons. split; [| by apply IH].
  intros ([id' m'] & -> & [_ Hin]%list_elem_of_filter)%list_elem_of_fmap. apply Hid, list_elem_of_fmap. by exists (id', m').
Qed.

Lemma bucket_ids_NoDup `{UL : !UnorderedWalkLaws} key s :
  NoDup (bucket_ids key (walk _ (map_to_list (metadata_ s)))).
Proof.
  unfold bucket_ids. apply filter_keys_NoDup. rewrite walk_perm. apply NoDup_fst_map_to_list.
Qed.

Lemma walked_bucketed `{UL : !UnorderedWalkLaws} s :
  bucketed (walk _ (managedBuckets (walk _ (map_to_list (metadata_ s))))) s.
Proof.
  destruct (managedBuckets_ok (walk _ (map_to_list (metadata_ s)))) as (H1 & H2 & _). split.
  - by rewrite walk_perm.
  - intros key ids Hin. rewrite walk_perm in Hin. rewrite (H2 _ _ Hin). apply bucket_ids_NoDup.
  - intros key ids id Hin Hid. rewrite walk_perm in Hin. rewrite (H2 _ _ Hin) in Hid.
    apply bucket_ids_elem in Hid as [m Hm]. exists m. by apply members_lookup.
Qed.

(** What is left of a bucket. *)
Lemma pruned_bucket n key ids removed s s' :
  NoDup ids -> (forall id, id ∈ ids <-> is_Some (members key s !! id)) -> removes removed s s' ->
  prunes n ids (bestId_ s) (metadata_ s) (filter (fun id => id ∈ ids) removed) ->
  size (members key s') = Nat.min n (size (members key s)).
Proof.
  intros Hd Hids Hr [P1 P2 P3 _ _]. rewrite (size_of_list _ ids Hd Hids).
  set (gone := filter (fun id => id ∈ ids) removed) in *. set (left := filter (fun id => id ∉ removed) ids).
  rewrite (size_of_list (members key s') left).
  - assert (length ids = length gone + length left)%nat as Hl; [| lia].
    rewrite <- length_app. apply Permutation_length. apply NoDup_Permutation; [done | |].
    + apply NoDup_app. split; [done |]. split; [| by apply NoDup_filter].
      unfold gone, left. intros id [_ Hi]%list_elem_of_filter [Hn _]%list_elem_of_filter. done.
    + intros id. unfold gone, left. rewrite elem_of_app, !list_elem_of_filter. destruct (decide (id ∈ removed)); tauto.
  - by apply NoDup_filter.
  - intros id. unfold left. rewrite list_elem_of_filter, Hids. split.
    + intros [Hn [m Hm]]. exists m. apply members_lookup in Hm as [Hm Hb]. apply members_lookup. split; [| done].
      by rewrite (rs_metadata _ _ _ Hr), bool_decide_eq_false_2.
    + intros [m [Hm Hb]%members_lookup]. rewrite (rs_metadata _ _ _ Hr) in Hm. case_bool_decide as Hin; [done |].
      split; [done |]. exists m. by apply members_lookup.
Qed.

Lemma prune_ok `{UL : !UnorderedWalkLaws} n s :
  (1 <= n)%nat -> numbered s ->
  wp (pruneManagedByFitness n s) (fun '(s', k) => exists removed,
    NoDup removed /\ removes removed s s' /\ k = length removed /\
    (forall id, id ∈ removed -> bestId_ s <> Some id /\ exists key, is_Some (members key s !! id)) /\
    (forall key, size (members key s') = Nat.min n (size (members key s))) /\
    (forall key x y mx my, x ∈ removed -> y ∉ removed -> bestId_ s <> Some y ->
      members key s !! x = Some mx -> members key s !! y = Some my ->
      flt (effectiveRobustFitness my) (effectiveRobustFitness mx) = false)).
Proof.
  intros Hn Hnum. unfold pruneManagedByFitness. rewrite (proj2 (Nat.eqb_neq n 0)) by lia.
  set (entries := walk _ (map_to_list (metadata_ s))). pose proof (walked_bucketed s) as Hb. fold entries in Hb.
  destruct (managedBuckets_ok entries) as (_ & B2 & B3).
  assert (forall key ids, (key, ids) ∈ walk _ (managedBuckets entries) -> ids = bucket_ids key entries) as Hids
    by (intros key ids Hin; rewrite walk_perm in Hin; by apply B2).
  assert (forall key, bucket_ids key entries <> [] -> (key, bucket_ids key entries) ∈ walk _ (managedBuckets entries)) as Hin.
  { intros key Hne. apply B3 in Hne. apply list_elem_of_fmap in Hne as ([key' ids] & -> & Hin). cbn.
    rewrite walk_perm. by rewrite <- (B2 _ _ Hin). }
  eapply wp_mono; [by apply pruneBuckets_ok |]. intros [s' k] (removed & Hd & Hr & -> & Hsub & Hp).
  exists removed. split; [done |]. split; [done |]. split; [done |]. split; [| split].
  - intros id Hid. destruct (Hsub id Hid) as (key & ids & Hk & Hi). destruct (Hp key ids Hk) as [_ _ _ P4 _]. split.
    + apply P4, list_elem_of_filter. done.
    + exists key. apply bucket_ids_elem. rewrite (Hids _ _ Hk) in Hi. exact Hi.
  - intros key. destruct (bucket_ids key entries) as [| x l] eqn:E.
    + assert (forall s0, (forall id m, members key s0 !! id = Some m -> is_Some (members key s !! id)) -> size (members key s0) = 0%nat) as H0.
      { intros s0 H0. apply map_size_empty_iff, map_empty. intros id. apply eq_None_not_Some. intros [m Hm].
        apply H0, bucket_ids_elem in Hm. fold entries in Hm. rewrite E in Hm. by apply elem_of_nil in Hm. }
      rewrite (H0 s') by (intros id m [Hm Hk]%members_lookup; rewrite (rs_metadata _ _ _ Hr) in Hm; case_bool_decide; [done |];
        exists m; by apply members_lookup).
      rewrite (H0 s) by (intros id m ?; by exists m). lia.
    + assert (bucket_ids key entries <> []) as Hne by (by rewrite E). clear E.
      eapply pruned_bucket; [apply bucket_ids_NoDup | apply bucket_ids_elem | done |]. by apply (Hp key), Hin.
  - intros key x y mx my Hx Hy Hby Ex Ey.
    assert (forall z, is_Some (members key s !! z) -> z ∈ bucket_ids key entries) as Hz by (intros z; by apply bucket_ids_elem).
    assert ((key, bucket_ids key entries) ∈ walk _ (managedBuckets entries)) as Hk.
    { apply Hin. intros E. specialize (Hz x ltac:(by exists mx)). rewrite E in Hz. by apply elem_of_nil in Hz. }
    destruct (Hp _ _ Hk) as [_ _ _ _ P5].
    apply (P5 x y); [| apply Hz; by exists my | | done | by apply members_lookup in Ex as [? _] | by apply members_lookup in Ey as [? _]].
    + apply list_elem_of_filter. split; [apply Hz; by exists mx | done].
    + intros [_ ?]%list_elem_of_filter. done.
Qed.
End Prune.
