(* ===== verification/GenomeCorrect.v ===== *)
(** The genome repository in use: any sequence of requests is served without a
    fault, and a database that is opened again gives back what was stored. *)

From Stdlib Require Import ZArith Lia Bool String Ascii.
From Stdlib Require Import SpecFloat.
From stdpp Require Import base gmap option numbers list strings sorting fin_map_dom.
From S2P Require Import Prelude Ieee StdModel Uuid Genomes GenomeFacts GenomePrune.

Set Default Goal Selector "!".

Import GenomeMetadata GenomeMetadataUtils GenomeRepository.

(** ** What is asked of SQLite and of the JSON text *)
(** Each statement does what its SQL says and succeeds, but for an insertion of a
    genome without weights: their blob is bound as NULL, which the column refuses. *)
Class HealthyDatabase (Db : Type) `{GD : !GenomeDatabase Db} : Prop := {
  insert_rows : forall row db r, GenomeRow.weights row <> [] -> r ∈ select_genomes (fst (insert_or_replace_genome row db)) <->
    r = row \/ (r ∈ select_genomes db /\ GenomeRow.id r <> GenomeRow.id row);
  insert_best : forall row db, select_best_id (fst (insert_or_replace_genome row db)) = select_best_id db;
  delete_rows : forall id db r, r ∈ select_genomes (fst (delete_genome id db)) <->
    r ∈ select_genomes db /\ GenomeRow.id r <> id;
  delete_best : forall id db, select_best_id (fst (delete_genome id db)) = select_best_id db;
  best_rows : forall v db r, r ∈ select_genomes (fst (insert_or_replace_best_id v db)) <-> r ∈ select_genomes db;
  best_best : forall v db, select_best_id (fst (insert_or_replace_best_id v db)) = Some v;
  clear_rows : forall db, select_genomes (fst (delete_everything db)) = [];
  clear_best : forall db, select_best_id (fst (delete_everything db)) = None
}.

(** JSON has no infinities and no NaN. *)
Definition json_safe (m : GenomeMetadata.t) : bool :=
  is_finite (fitness m) && is_finite (robustFitness m) && forallb is_finite (robustFitnessSamples m).

(** *** Text that JSON can carry *)
Definition byte_in (lo hi byte : Z) : bool := (lo <=? byte) && (byte <=? hi).

(** The second byte that may follow the first one of a longer sequence: no
    overlong forms, no surrogates, nothing above [10FFFF]. *)
Definition utf8_second (first second : Z) : bool :=
  if first =? 224 then byte_in 160 191 second
  else if first =? 237 then byte_in 128 159 second
  else if first =? 240 then byte_in 144 191 second
  else if first =? 244 then byte_in 128 143 second
  else byte_in 128 191 second.

Fixpoint utf8_bytes (bytes : list Z) : bool :=
  match bytes with
  | [] => true
  | a :: rest =>
      if a <? 128 then utf8_bytes rest
      else
        match rest with
        | [] => false
        | b :: rest =>
            if byte_in 194 223 a then byte_in 128 191 b && utf8_bytes rest
            else
              match rest with
              | [] => false
              | c :: rest =>
                  if byte_in 224 239 a then utf8_second a b && byte_in 128 191 c && utf8_bytes rest
                  else
                    match rest with
                    | [] => false
                    | d :: rest =>
                        byte_in 240 244 a && utf8_second a b && byte_in 128 191 c && byte_in 128 191 d
                        && utf8_bytes rest
                    end
              end
        end
  end.

Definition utf8 (text : string) : bool :=
  utf8_bytes (map (fun c => Z.of_nat (nat_of_ascii c)) (list_ascii_of_string text)).

(** The texts of the metadata are UTF-8. *)
Definition texts_utf8 (m : GenomeMetadata.t) : bool :=
  utf8 (name m) && utf8 (notes m) && utf8 (default EmptyString (brainKind m))
  && utf8 (default EmptyString (brainVariant m))
  && match nesTileBrainCompatibility m with
     | Some c => utf8 (NesTileBrainCompatibilityMetadata.tokenizerVocabularyHash c)
     | None => true
     end.

Class MetadataJsonLaws `{MJ : !MetadataJson} : Prop := {
  dump_text : forall m, texts_utf8 m = true -> is_Some (metadata_dump m);
  parse_dump : forall m json, metadata_dump m = Some json -> json_safe m = true -> metadata_parse json = Some m
}.

Section Texts.
Context `{SS : !StdSort}.

Lemma texts_appended samples m m' : appendRobustSamples samples m = Ok m' -> texts_utf8 m' = texts_utf8 m.
Proof.
  revert m. induction samples as [| x samples IH]; intros m; cbn [appendRobustSamples]; [by intros [= <-] |].
  destruct (appendRobustSample x m) as [m1 |] eqn:E; cbn [rbind]; [| done]. intros H. rewrite (IH _ H).
  unfold appendRobustSample in E. destruct (negb (is_finite x)); [by injection E as <- |].
  destruct (int_result _); cbn [rbind] in E; [| done]. by injection E as <-.
Qed.

Lemma texts_normalized m : texts_utf8 (normalizeRobustMetadata m) = texts_utf8 m.
Proof. unfold normalizeRobustMetadata. by destruct (robustFitnessSamples m). Qed.

Lemma texts_fields existing incoming :
  texts_utf8 existing = true -> texts_utf8 incoming = true -> texts_utf8 (mergeFields existing incoming) = true.
Proof.
  unfold texts_utf8. rewrite !andb_true_iff. intros ((((A1 & A2) & A3) & A4) & A5) ((((B1 & B2) & B3) & B4) & B5).
  unfold mergeFields, or_else. cbn. repeat split; by repeat case_match.
Qed.

Lemma texts_merged existing incoming m :
  mergeMetadata existing incoming = Ok m -> texts_utf8 existing = true -> texts_utf8 incoming = true -> texts_utf8 m = true.
Proof.
  unfold mergeMetadata. cbv zeta. rewrite <- (texts_normalized existing), <- (texts_normalized incoming).
  set (e := normalizeRobustMetadata existing). set (i := normalizeRobustMetadata incoming). intros H He Hi.
  pose proof (texts_fields e i He Hi) as Hf. destruct (appendRobustSamples _ _) as [m1 |] eqn:E; cbn [rbind] in H; [| done].
  apply texts_appended in E. change (texts_utf8 m1 = texts_utf8 (mergeFields e i)) in E. rewrite Hf in E.
  destruct (int_result _); cbn [rbind] in H; [| done]. destruct (int_result _); cbn [rbind] in H; [| done].
  destruct (_ <=? _); [injection H as <-; by rewrite texts_normalized |].
  destruct (robustFitnessSamples _); by injection H as <-.
Qed.
End Texts.

(** ** Requests *)
Section Requests.
Context {Db : Type} `{GD : !GenomeDatabase Db, MJ : !MetadataJson, UW : !UnorderedWalk, UL : !UnorderedWalkLaws,
    SS : !StdSort, SL : !StdSortLaws}.
Implicit Types (s : GenomeRepository.t Db) (id : GenomeId) (m : GenomeMetadata.t).

Inductive request :=
| Store (draws : list (Z * Z)) (id : GenomeId) (genome : Genome.t) (meta : GenomeMetadata.t)
| StoreByHash (draws : list (Z * Z)) (genome : Genome.t) (meta : GenomeMetadata.t) (preferredId : option GenomeId)
| Remove (id : GenomeId)
| Clear
| MarkAsBest (id : GenomeId)
| Prune (maxManagedGenomes : nat).

Definition serve (r : request) s : res (GenomeRepository.t Db) :=
  match r with
  | Store draws id genome meta => store draws id genome meta s
  | StoreByHash draws genome meta preferredId =>
      let! r := storeOrUpdateByHash draws genome meta preferredId s in Ok (fst r)
  | Remove id => Ok (remove id s)
  | Clear => Ok (clear s)
  | MarkAsBest id => Ok (markAsBest id s)
  | Prune n => let! r := pruneManagedByFitness n s in Ok (fst r)
  end.

Fixpoint serve_all (rs : list request) s : res (GenomeRepository.t Db) :=
  match rs with
  | [] => Ok s
  | r :: rs' => let! s := serve r s in serve_all rs' s
  end.

(** Scores are numbers and samples finite, identifiers have sixteen bytes, and the
    random engine gives enough new ones. *)
Definition request_ok (k : nat) (r : request) : Prop :=
  match r with
  | Store draws id _ m => numeric m /\ uuid_wf id /\ (id = INVALID_GENOME_ID -> draws <> [])
  | StoreByHash draws _ m preferredId =>
      numeric m /\ (forall id, preferredId = Some id -> uuid_wf id) /\ enough_draws draws k
  | Remove id => uuid_wf id
  | _ => True
  end.

(** What a row can hold: a genome with weights, and metadata whose text is UTF-8. *)
Definition storable (r : request) : Prop :=
  match r with
  | Store _ _ genome m | StoreByHash _ genome m _ => Genome.weights genome <> [] /\ texts_utf8 m = true
  | _ => True
  end.

Definition request_evaluations (r : request) : Z :=
  match r with Store _ _ _ m | StoreByHash _ _ m _ => evaluations m | _ => 0 end.
Definition total_evaluations (rs : list request) : Z := fold_right (fun r n => request_evaluations r + n) 0 rs.

Lemma request_evaluations_nonneg r : 0 <= request_evaluations r.
Proof. destruct r; cbn; try lia; apply evaluations_nonneg. Qed.

Lemma total_evaluations_nonneg rs : 0 <= total_evaluations rs.
Proof.
  induction rs as [| r rs IH]; [done |]. pose proof (request_evaluations_nonneg r).
  change (total_evaluations (r :: rs)) with (request_evaluations r + total_evaluations rs). lia.
Qed.

(** ** Serving *)
Lemma toHexString_nonempty v : toHexString v <> EmptyString.
Proof.
  unfold toHexString. intros H. apply (f_equal String.length) in H. change 16%nat with (S 15) in H.
  cbn [hex_digits] in H. rewrite length_append in H. cbn [String.length] in H. lia.
Qed.

Lemma hash_nonempty genome m : computeContentHash genome m <> EmptyString.
Proof. apply toHexString_nonempty. Qed.

(** *** Storing *)
(** One genome is written under a valid identifier; its metadata are text if those
    that were given and those that were there are. *)
Definition writes genome m0 s s' : Prop :=
  exists id m h hs ih, valid_id id /\ h <> EmptyString /\
    (texts_utf8 m0 = true -> (forall id m, metadata_ s !! id = Some m -> texts_utf8 m = true) -> texts_utf8 m = true) /\
    s' = persistGenome id genome m h
      (GenomeRepository.mk (<[id := genome]> (genomes_ s)) hs ih (<[id := m]> (metadata_ s)) (bestId_ s) (db_ s)).

Lemma store_writes draws id genome m s s' :
  uuid_wf id -> store draws id genome m s = Ok s' -> writes genome m s s'.
Proof.
  intros Hid. unfold store.
  destruct (if bool_decide (id = INVALID_GENOME_ID) then generateId draws else Ok (id, draws)) as [[id' rest] |] eqn:E;
    cbn [rbind]; [| done].
  assert (valid_id id') as Hv.
  { case_bool_decide as E0; [| by injection E as <- <-]. destruct draws as [| [high low] draws]; [done |].
    injection E as <- <-. apply generate_valid. }
  pose proof (texts_normalized m) as Ht. set (h := computeContentHash genome (normalizeRobustMetadata m)).
  assert (h <> EmptyString) as Hh by apply hash_nonempty. clearbody h. intros [= <-].
  assert (texts_utf8 m = true -> (forall id m, metadata_ s !! id = Some m -> texts_utf8 m = true) ->
    texts_utf8 (normalizeRobustMetadata m) = true) as Ht' by (by rewrite Ht).
  destruct (idToHash_ s !! id') as [old |]; [destruct (negb (String.eqb old h)); [| by eexists _, _, _, _, _] |
    by eexists _, _, _, _, _].
  destruct (hashToId_ s !! old) as [mapped |]; [destruct (bool_decide (mapped = id')) |]; by eexists _, _, _, _, _.
Qed.

Lemma storeOrUpdateByHash_writes n draws genome m pref s r :
  repo_wf n s -> (forall id, pref = Some id -> uuid_wf id) ->
  storeOrUpdateByHash draws genome m pref s = Ok r -> writes genome m s (fst r).
Proof.
  intros Hw Hp. unfold storeOrUpdateByHash. cbv zeta.
  pose proof (texts_normalized m) as Ht. set (h := computeContentHash genome (normalizeRobustMetadata m)).
  assert (h <> EmptyString) as Hh by apply hash_nonempty. clearbody h.
  destruct (hashToId_ s !! h) as [eid |] eqn:Eh.
  - destruct (match metadata_ s !! eid with Some _ => _ | None => _ end) as [mm |] eqn:Emm; cbn [rbind]; [| done]. intros [= <-].
    assert (valid_id eid) as Hv by (apply (rw_valid _ _ Hw); eapply (rw_id _ _ Hw), (rw_hash _ _ Hw), Eh).
    eexists _, _, _, _, _. split; [done |]. split; [done |]. split; [| done]. intros Hm0 Hall.
    destruct (metadata_ s !! eid) as [em |] eqn:Em; [| injection Emm as <-; by rewrite Ht].
    apply (texts_merged _ _ _ Emm); [by apply (Hall eid) | by rewrite Ht].
  - destruct (match pref with Some id => _ | None => _ end) as [[id1 d1] |] eqn:E1; cbn [rbind]; [| done].
    assert (uuid_wf id1) as H1.
    { destruct pref as [id |]; [injection E1 as <- <-; by apply Hp |].
      destruct draws as [| [high low] draws]; [done |]. injection E1 as <- <-. apply generate_wf. }
    destruct (if _ || _ then generateId d1 else Ok (id1, d1)) as [[id2 d2] |] eqn:E2; cbn [rbind]; [| done].
    assert (valid_id id2) as H2.
    { destruct (bool_decide (id1 = INVALID_GENOME_ID)) eqn:E0; cbn [orb] in E2;
        [| apply bool_decide_eq_false in E0; destruct (negb _); [| by injection E2 as <- <-]].
      all: destruct d1 as [| [high low] d1]; [done |]; injection E2 as <- <-; apply generate_valid. }
    destruct (freshId (genomes_ s) id2 d2) as [id3 |] eqn:E3; cbn [rbind]; [| done]. intros [= <-].
    assert (valid_id id3) as H3.
    { clear - E3 H2. revert id2 H2 E3. induction d2 as [| [high low] d2 IH]; intros id2 H2; cbn [freshId];
        destruct (genomes_ s !! id2); [done | by intros [= <-] | | by intros [= <-]].
      intros E3. by apply (IH _ (generate_valid high low)). }
    eexists _, _, _, _, _. split; [done |]. split; [done |]. split; [| done]. by rewrite Ht.
Qed.

Lemma writes_size genome m s s' : writes genome m s s' -> (size (genomes_ s') <= S (size (genomes_ s)))%nat.
Proof.
  intros (id & m' & h & hs & ih & _ & _ & _ & ->). rewrite (proj1 (persistGenome_tables _ _ _ _ _)).
  cbn. rewrite map_size_insert. destruct (genomes_ s !! id); cbn; lia.
Qed.

(** [n] evaluations merged and at most [k] genomes stored so far. *)
Record serving (n : Z) (k : nat) s : Prop := mkServing {
  sv_wf : repo_wf n s;
  sv_size : (size (genomes_ s) <= k)%nat
}.

Lemma enough_draws_mono draws k k' : (k' <= k)%nat -> enough_draws draws k -> enough_draws draws k'.
Proof. intros Hk [? ?]. split; [done | lia]. Qed.

Lemma size_delete (M : gmap GenomeId Genome.t) id : (size (delete id M) <= size M)%nat.
Proof. rewrite map_size_delete. destruct (M !! id); cbn; lia. Qed.

Lemma serve_writes n n' k genome m s (ms : res (GenomeRepository.t Db)) :
  serving n k s -> wp ms (repo_wf n') -> (forall s', ms = Ok s' -> writes genome m s s') -> wp ms (serving n' (S k)).
Proof.
  intros [Hw Hk] Hms Hwr. apply wp_elim in Hms as (s' & E & Hw'). rewrite E. apply wp_ok.
  pose proof (writes_size _ _ _ _ (Hwr s' E)). split; [done | lia].
Qed.

Lemma serve_prune n k s j : serving n k s ->
  wp (let! r := pruneManagedByFitness j s in Ok (fst r)) (serving n k).
Proof.
  intros [Hw Hk]. destruct (decide (j = 0%nat)) as [-> |]; [by apply wp_ok |].
  apply wp_bind. pose proof (prune_ok j s ltac:(lia) (repo_wf_numbered n s Hw)) as H.
  apply wp_elim in H as ([s' c] & E & removed & _ & Hr & _).
  rewrite E. apply wp_ok, wp_ok. unfold pruneManagedByFitness in E. rewrite (proj2 (Nat.eqb_neq j 0)) in E by lia. split.
  - by eapply pruneBuckets_wf.
  - cbn [fst]. assert (genomes_ s' ⊆ genomes_ s) as Hsub.
    { apply map_subseteq_spec. intros id g Hg. rewrite (rs_genomes _ _ _ Hr) in Hg. by case_bool_decide. }
    apply map_subseteq_size in Hsub. lia.
Qed.

Lemma stored_by_hash draws genome m pref s s' n :
  repo_wf n s -> (forall id, pref = Some id -> uuid_wf id) ->
  (let! r := storeOrUpdateByHash draws genome m pref s in Ok (fst r)) = Ok s' -> writes genome m s s'.
Proof.
  intros Hw Hp. destruct (storeOrUpdateByHash draws genome m pref s) as [r |] eqn:E; cbn [rbind]; [| done]. intros [= <-].
  by eapply storeOrUpdateByHash_writes.
Qed.

Lemma serve_ok n k r s :
  serving n k s -> 0 <= n -> n + request_evaluations r < 2 ^ 31 -> request_ok k r ->
  wp (serve r s) (serving (n + request_evaluations r) (S k)).
Proof.
  intros Hs Hn Hb Hr. pose proof Hs as [Hw Hk]. destruct r as [draws id g m | draws g m pref | id | | id | j];
    cbn [serve request_evaluations request_ok] in *.
  - destruct Hr as (Hnu & Hid & Hd). eapply serve_writes; [done | | intros s' E; by eapply store_writes].
    eapply wp_mono; [by apply store_wf |]. intros s' Hw'. eapply repo_wf_mono; [| done].
    pose proof (evaluations_nonneg m). lia.
  - destruct Hr as (Hnu & Hp & Hd). eapply serve_writes; [done | | intros s'; by eapply stored_by_hash].
    apply wp_bind. eapply wp_mono; [apply (storeOrUpdateByHash_wf n); try done; by eapply enough_draws_mono |].
    intros r [Hw' _]. by apply wp_ok.
  - rewrite Z.add_0_r. apply wp_ok. unfold remove. split; [by apply removeNoLock_wf |].
    destruct (removeNoLock_tables id s) as (-> & _). pose proof (size_delete (genomes_ s) id). lia.
  - rewrite Z.add_0_r. apply wp_ok. split; [by apply clear_wf | cbn; rewrite map_size_empty; lia].
  - rewrite Z.add_0_r. apply wp_ok. split; [by apply markAsBest_wf |]. unfold markAsBest. destruct (genomes_ s !! id); cbn; lia.
  - rewrite Z.add_0_r. eapply wp_mono; [by apply serve_prune |]. intros s' []. split; [done | lia].
Qed.

Lemma request_ok_mono k k' r : (k' <= k)%nat -> request_ok k r -> request_ok k' r.
Proof.
  intros Hk. destruct r; try done; cbn [request_ok]. intros (? & ? & ?). split; [done |]. split; [done |].
  by eapply enough_draws_mono.
Qed.

Lemma serve_all_ok n k rs s :
  serving n k s -> 0 <= n -> n + total_evaluations rs < 2 ^ 31 -> Forall (request_ok (k + length rs)) rs ->
  wp (serve_all rs s) (serving (n + total_evaluations rs) (k + length rs)).
Proof.
  revert n k s. induction rs as [| r rs IH]; intros n k s Hs Hn Hb Hr; cbn [serve_all].
  { apply wp_ok. cbn. by rewrite Z.add_0_r, Nat.add_0_r. }
  change (total_evaluations (r :: rs)) with (request_evaluations r + total_evaluations rs) in *.
  pose proof (request_evaluations_nonneg r). pose proof (total_evaluations_nonneg rs).
  apply Forall_cons in Hr as [Hr Hrs]. cbn [length] in *. apply wp_bind.
  eapply wp_mono; [apply serve_ok; [done | done | lia | eapply request_ok_mono; [| exact Hr]; lia] |].
  intros s1 Hs1. eapply wp_mono; [apply (IH (n + request_evaluations r) (S k) s1); [done | lia | lia |] |].
  - eapply Forall_impl; [exact Hrs |]. intros r'. by replace (S k + length rs)%nat with (k + S (length rs))%nat by lia.
  - intros s2. replace (S k + length rs)%nat with (k + S (length rs))%nat by lia. by rewrite Z.add_assoc.
Qed.

(** ** The database mirrors the memory *)
(** [r] is a row of the genome [id]. *)
Definition row_of (genomes : gmap GenomeId Genome.t) (metadata : gmap GenomeId GenomeMetadata.t) (r : GenomeRow.t) id : Prop :=
  exists g m json h, r = genome_row id g json h /\ metadata_dump m = Some json /\ h <> EmptyString /\
    genomes !! id = Some g /\ metadata !! id = Some m.

(** A stored genome has a row, and a row has a stored genome. *)
Record mirrors (db : Db) s : Prop := mkMirrors {
  mi_rows : forall r, r ∈ select_genomes db -> exists id, row_of (genomes_ s) (metadata_ s) r id;
  mi_memory : forall id g m, genomes_ s !! id = Some g -> metadata_ s !! id = Some m ->
    exists json h, metadata_dump m = Some json /\ genome_row id g json h ∈ select_genomes db;
  mi_texts : forall id m, metadata_ s !! id = Some m -> texts_utf8 m = true;
  mi_best : match bestId_ s with
            | Some id => select_best_id db = Some (UUID.toString id)
            | None => select_best_id db = None \/ select_best_id db = Some EmptyString
            end
}.

Definition mirrored s : Prop := exists db, db_ s = Some db /\ mirrors db s.

Lemma execDb_mirrored st s :
  (exists db, db_ s = Some db /\ mirrors (fst (st db)) s) -> mirrored (execDb st s).
Proof.
  intros (db & Hdb & [M1 M2 MT M3]). exists (fst (st db)). unfold execDb. cbn. rewrite Hdb. split; [done |]. by split.
Qed.


(** *** Every operation keeps the mirror *)
Context `{HD : !HealthyDatabase Db, ML : !MetadataJsonLaws}.

Definition valid_ids s : Prop := forall id, is_Some (genomes_ s !! id) -> valid_id id.

Lemma mirrored_ext s s' :
  db_ s' = db_ s -> genomes_ s' = genomes_ s -> metadata_ s' = metadata_ s -> bestId_ s' = bestId_ s ->
  mirrored s -> mirrored s'.
Proof.
  intros Hd Hg Hm Hb (db & Hdb & [M1 M2 MT M3]). exists db. split; [congruence |]. split; rewrite ?Hg, ?Hm, ?Hb; done.
Qed.

Lemma row_id_inj id id' : valid_id id -> valid_id id' -> UUID.toString id = UUID.toString id' -> id = id'.
Proof. intros [? _] [? _]. by apply toString_inj. Qed.

(** Writing a row of the genome [id]. *)
Lemma write_mirrored id genome m h hs ih s :
  valid_ids s -> valid_id id -> h <> EmptyString -> Genome.weights genome <> [] -> texts_utf8 m = true -> mirrored s ->
  mirrored (persistGenome id genome m h
    (GenomeRepository.mk (<[id := genome]> (genomes_ s)) hs ih (<[id := m]> (metadata_ s)) (bestId_ s) (db_ s))).
Proof.
  intros Hv Hid Hh Hg0 Ht (db & Hdb & [M1 M2 MT M3]). destruct (dump_text m Ht) as [json Ej]. unfold persistGenome. rewrite Ej.
  apply execDb_mirrored. exists db. split; [done |].
  split; cbn [genomes_ metadata_ bestId_].
  - intros r Hr. apply insert_rows in Hr as [-> | [Hr Hne]]; [| | done].
    + exists id, genome, m, json, h. split; [done |]. split; [done |]. split; [done |]. split; apply lookup_insert_eq.
    + destruct (M1 r Hr) as (id' & g & m' & j' & h' & -> & Hj' & Hh' & Hg & Hm). exists id', g, m', j', h'.
      assert (id <> id') by (intros ->; by apply Hne). by rewrite !lookup_insert_ne.
  - intros id' g m' Hg Hm. destruct (decide (id = id')) as [<- | Hne].
    + rewrite lookup_insert_eq in Hg. rewrite lookup_insert_eq in Hm. injection Hg as <-. injection Hm as <-.
      exists json, h. split; [done |]. apply insert_rows; [done |]. by left.
    + rewrite lookup_insert_ne in Hg by done. rewrite lookup_insert_ne in Hm by done.
      destruct (M2 id' g m' Hg Hm) as (j' & h' & Hj' & Hr). exists j', h'. split; [done |].
      apply insert_rows; [done |]. right. split; [done |]. intros He. apply Hne, row_id_inj; [done | apply Hv; by eexists | done].
  - intros id' m'. destruct (decide (id = id')) as [<- | Hne].
    + rewrite lookup_insert_eq. by intros [= <-].
    + rewrite lookup_insert_ne by done. apply MT.
  - rewrite insert_best. exact M3.
Qed.

Lemma persistBest_mirrored best s :
  mirrored s -> mirrored (persistBestId (set_bestId_ best s)).
Proof.
  intros (db & Hdb & [M1 M2 MT M3]). apply execDb_mirrored. exists db. split; [done |].
  split; cbn [genomes_ metadata_ bestId_ set_bestId_].
  - intros r Hr. apply best_rows in Hr. by apply M1.
  - intros id g m Hg Hm. destruct (M2 id g m Hg Hm) as (json & h & Hj & Hr). exists json, h. split; [done |]. by apply best_rows.
  - exact MT.
  - rewrite best_best. destruct best; [done | by right].
Qed.

(** A genome that is gone from memory leaves the database. *)
Lemma delete_mirrored id s : valid_ids s -> valid_id id -> mirrored s -> bestId_ s <> Some id ->
  mirrored (deleteGenome id (set_metadata_ (delete id (metadata_ s)) (set_genomes_ (delete id (genomes_ s)) s))).
Proof.
  intros Hv Hid (db & Hdb & [M1 M2 MT M3]) Hb. apply execDb_mirrored. exists db. split; [done |].
  split; cbn [genomes_ metadata_ bestId_ set_genomes_ set_metadata_].
  - intros r Hr. apply delete_rows in Hr as [Hr Hne]. destruct (M1 r Hr) as (id' & g & m & json & h & -> & Hj & Hh & Hg & Hm).
    assert (id <> id') by (intros ->; by apply Hne). exists id', g, m, json, h. by rewrite !lookup_delete_ne.
  - intros id' g m Hg Hm. destruct (decide (id = id')) as [<- | Hne]; [by rewrite lookup_delete_eq in Hg |].
    rewrite lookup_delete_ne in Hg by done. rewrite lookup_delete_ne in Hm by done. destruct (M2 id' g m Hg Hm) as (json & h & Hj & Hr).
    exists json, h. split; [done |].
    apply delete_rows. split; [done |]. intros He. apply Hne, row_id_inj; [done | apply Hv; by eexists | done].
  - intros id' m Hm. destruct (decide (id = id')) as [<- | Hne]; [by rewrite lookup_delete_eq in Hm |].
    rewrite lookup_delete_ne in Hm by done. by eapply MT.
  - by rewrite delete_best.
Qed.

(** A genome that was not stored has no row to delete. *)
Lemma delete_absent_mirrored id s : genomes_ s !! id = None -> metadata_ s !! id = None -> valid_ids s ->
  uuid_wf id -> mirrored s -> mirrored (deleteGenome id s).
Proof.
  intros Hg0 Hm0 Hv Hid (db & Hdb & [M1 M2 MT M3]). apply execDb_mirrored. exists db. split; [done |]. split.
  - intros r Hr. apply delete_rows in Hr as [Hr _]. by apply M1.
  - intros id' g m Hg Hm. destruct (M2 id' g m Hg Hm) as (json & h & Hj & Hr). exists json, h. split; [done |].
    apply delete_rows. split; [done |].
    intros He. cbn in He. assert (valid_id id') as [Hw' _] by (apply Hv; by eexists).
    apply (toString_inj id' id Hw' Hid) in He as ->. congruence.
  - exact MT.
  - by rewrite delete_best.
Qed.

Lemma remove_mirrored n id s : repo_wf n s -> uuid_wf id -> mirrored s -> mirrored (removeNoLock id s).
Proof.
  intros Hw Hid Hm. pose proof (rw_valid _ _ Hw) as Hv. destruct (removeNoLock_tables id s) as (Eg & Em & _ & Eb & _).
  set (s1 := if bool_decide (bestId_ s = Some id) then persistBestId (set_bestId_ None s) else s).
  assert (mirrored s1 /\ genomes_ s1 = genomes_ s /\ metadata_ s1 = metadata_ s /\
    bestId_ s1 = (if bool_decide (bestId_ s = Some id) then None else bestId_ s)) as (Hm1 & Eg1 & Em1 & Eb1).
  { unfold s1. destruct (bool_decide (bestId_ s = Some id)); [| done]. split; [by apply persistBest_mirrored | done]. }
  assert (db_ (removeNoLock id s) = db_ (deleteGenome id s1)) as Ed.
  { unfold removeNoLock, s1, deleteGenome, persistBestId, execDb. cbn.
    destruct (idToHash_ s !! id) as [h |];
      [destruct (hashToId_ s !! h) as [mapped |]; [destruct (bool_decide (mapped = id)) |] |]; cbn.
    all: by destruct (bool_decide (bestId_ s = Some id)). }
  assert (valid_ids s1) as Hv1 by (unfold valid_ids; rewrite Eg1; exact Hv).
  destruct (genomes_ s !! id) as [g |] eqn:E.
  - apply (mirrored_ext (deleteGenome id (set_metadata_ (delete id (metadata_ s1)) (set_genomes_ (delete id (genomes_ s1)) s1)))).
    + by rewrite Ed.
    + rewrite Eg. cbn. by rewrite Eg1.
    + rewrite Em. cbn. by rewrite Em1.
    + rewrite Eb. cbn. by rewrite Eb1.
    + apply delete_mirrored; [done | apply Hv; by exists g | done |]. rewrite Eb1. by case_bool_decide.
  - apply (mirrored_ext (deleteGenome id s1)).
    + done.
    + rewrite Eg. cbn. rewrite Eg1. by apply delete_id.
    + rewrite Em. cbn. rewrite Em1. apply delete_id. by apply (rw_dom _ _ Hw).
    + rewrite Eb. cbn. by rewrite Eb1.
    + apply delete_absent_mirrored; [by rewrite Eg1 | rewrite Em1; by apply (rw_dom _ _ Hw) | done | done | done].
Qed.

Lemma clear_mirrored s : mirrored s -> mirrored (clear s).
Proof.
  intros (db & Hdb & _). apply execDb_mirrored. exists db. split; [done |]. split; cbn.
  - intros r Hr. rewrite clear_rows in Hr. by apply elem_of_nil in Hr.
  - intros id g m Hg. done.
  - intros id m Hm. done.
  - left. apply clear_best.
Qed.

Lemma writes_mirrored genome m s s' :
  valid_ids s -> Genome.weights genome <> [] -> texts_utf8 m = true -> mirrored s -> writes genome m s s' -> mirrored s'.
Proof.
  intros Hv Hg Ht Hm (id & m' & h & hs & ih & Hid & Hh & Htm & ->). apply write_mirrored; try done.
  apply Htm; [done |]. destruct Hm as (db & _ & [_ _ MT _]). exact MT.
Qed.

Lemma removeWorst_mirrored n quota ids s : repo_wf n s -> Forall uuid_wf ids -> mirrored s ->
  mirrored (fst (removeWorst quota ids s)).
Proof.
  revert quota s. induction ids as [| id ids IH]; intros [| quota] s Hw Hids Hm; cbn [removeWorst]; [done.. |].
  apply Forall_cons in Hids as [Hid Hids]. destruct (bool_decide _); [by apply IH |].
  specialize (IH quota (removeNoLock id s) (removeNoLock_wf _ _ _ Hw) Hids ltac:(by eapply remove_mirrored)).
  by destruct (removeWorst quota ids (removeNoLock id s)).
Qed.

Lemma pruneBuckets_mirrored N n buckets s :
  repo_wf N s -> (forall key ids, (key, ids) ∈ buckets -> Forall uuid_wf ids) -> mirrored s ->
  forall s' k, pruneBuckets n buckets s = Ok (s', k) -> mirrored s'.
Proof.
  revert s. induction buckets as [| [key ids] buckets IH]; intros s Hw Hb Hm s' k; cbn [pruneBuckets]; [by intros [= <- <-] |].
  destruct (pruneBucket n ids s) as [[s1 k1] |] eqn:E; cbn [rbind]; [| done].
  assert (repo_wf N s1 /\ mirrored s1) as [Hw1 Hm1].
  { unfold pruneBucket in E. destruct (_ <=? _)%nat; [by injection E as <- <- |].
    destruct (withMetadata (metadata_ s) ids) as [entries |] eqn:Ee; cbn [rbind] in E; [| done]. injection E as E.
    set (order := map fst (std_sort prunedBefore entries)) in *. assert (Forall uuid_wf order) as Ho.
    { assert (Forall scored entries) as Hsc.
      { clear -Ee Hw. revert entries Ee. induction ids as [| id ids IH]; intros entries; cbn [withMetadata]; [by intros [= <-] |].
        destruct (metadata_ s !! id) as [m |] eqn:Em; [| done].
        destruct (withMetadata (metadata_ s) ids) as [rest |]; cbn [rbind]; [| done]. intros [= <-].
        constructor; [| by apply IH]. apply effective_not_nan. by destruct (rw_meta _ _ Hw id m Em) as (_ & _ & ?). }
      assert (map fst entries = ids) as He.
      { clear -Ee. revert entries Ee. induction ids as [| id ids IH]; intros entries; cbn [withMetadata]; [by intros [= <-] |].
        destruct (metadata_ s !! id); [| done]. destruct (withMetadata (metadata_ s) ids) as [rest |]; cbn [rbind]; [| done].
        intros [= <-]. cbn. by rewrite (IH rest). }
      apply Forall_forall. intros id Hid. unfold order in Hid. rewrite (std_sort_perm _ _ _ (prunedBefore_swo entries Hsc)), He in Hid.
      pose proof (Hb key ids ltac:(by left)) as Hi. rewrite Forall_forall in Hi. by apply Hi. }
    pose proof (removeWorst_wf N (length ids - n) order s Hw) as H1.
    pose proof (removeWorst_mirrored N (length ids - n) order s Hw Ho Hm) as H2. by rewrite E in H1, H2. }
  destruct (pruneBuckets n buckets s1) as [[s2 k2] |] eqn:E2; cbn [rbind]; [| done]. intros [= <- <-].
  eapply (IH s1); [done | | done | done]. intros key' ids' Hin. apply (Hb key'). by right.
Qed.

(** Every request that can be stored keeps the mirror. *)
Lemma serve_mirrored n k r s s' :
  serving n k s -> request_ok k r -> storable r -> mirrored s -> serve r s = Ok s' -> mirrored s'.
Proof.
  intros [Hw _] Hr Hst Hm E. pose proof (rw_valid _ _ Hw) as Hv. destruct r as [draws id g m | draws g m pref | id | | id | j];
    cbn [serve request_ok storable] in *.
  - destruct Hr as (_ & Hid & _), Hst as [Hg Ht]. eapply writes_mirrored; [exact Hv | exact Hg | exact Ht | exact Hm |].
    by eapply store_writes.
  - destruct Hr as (_ & Hp & _), Hst as [Hg Ht]. eapply writes_mirrored; [exact Hv | exact Hg | exact Ht | exact Hm |].
    by eapply stored_by_hash.
  - injection E as <-. by eapply remove_mirrored.
  - injection E as <-. by apply clear_mirrored.
  - injection E as <-. unfold markAsBest. destruct (genomes_ s !! id); [by apply persistBest_mirrored | done].
  - destruct (pruneManagedByFitness j s) as [[s1 c] |] eqn:Ep; cbn [rbind] in E; [| done]. injection E as <-. cbn [fst].
    unfold pruneManagedByFitness in Ep. destruct (j =? 0)%nat; [by injection Ep as <- <- |].
    eapply pruneBuckets_mirrored; [done | | done | done]. intros key ids Hin. apply Forall_forall. intros id Hid.
    destruct (bk_members _ _ (walked_bucketed s) key ids id Hin Hid) as (m & Em & _).
    apply (rw_valid _ _ Hw id). destruct (genomes_ s !! id) as [g |] eqn:Eg; [by exists g |].
    apply (rw_dom _ _ Hw) in Eg. congruence.
Qed.

Lemma serve_all_mirrored n k rs s s' :
  serving n k s -> 0 <= n -> n + total_evaluations rs < 2 ^ 31 -> Forall (request_ok (k + length rs)) rs ->
  Forall storable rs -> mirrored s -> serve_all rs s = Ok s' -> mirrored s'.
Proof.
  revert n k s. induction rs as [| r rs IH]; intros n k s Hs Hn Hb Hr Hst Hm; cbn [serve_all]; [by intros [= <-] |].
  change (total_evaluations (r :: rs)) with (request_evaluations r + total_evaluations rs) in *.
  pose proof (request_evaluations_nonneg r). pose proof (total_evaluations_nonneg rs).
  apply Forall_cons in Hr as [Hr Hrs]. apply Forall_cons in Hst as [Hst Hsts]. cbn [length] in *.
  apply (request_ok_mono _ k) in Hr; [| lia]. pose proof (serve_ok n k r s Hs Hn ltac:(lia) Hr) as Hok.
  apply wp_elim in Hok as (s1 & E & Hs1). rewrite E. cbn [rbind].
  apply (IH (n + request_evaluations r) (S k) s1); [done | lia | lia | | exact Hsts | by apply (serve_mirrored n k r s)].
  eapply Forall_impl; [exact Hrs |]. intros r'. by replace (S k + length rs)%nat with (k + S (length rs))%nat by lia.
Qed.

(** ** Opening the database again *)
Section Reopen.
Context (G : gmap GenomeId Genome.t) (M : gmap GenomeId GenomeMetadata.t).
Context (Hvalid : forall id, is_Some (G !! id) -> valid_id id).
Context (Hsafe : forall id m, M !! id = Some m -> robust_ok m /\ json_safe m = true).

Abbreviation describes := (row_of G M).

Lemma describes_inj r id id' : describes r id -> describes r id' -> id = id'.
Proof.
  intros (g & m & j & h & -> & _ & _ & Hg & _) (g' & m' & j' & h' & [= He _ _ _] & _ & _ & Hg' & _).
  apply row_id_inj; [apply Hvalid; by exists g | apply Hvalid; by exists g' | done].
Qed.

Lemma loadRow_ok r id s : describes r id ->
  wp (loadRow r s) (fun x => exists s', x = okay s' /\ db_ s' = db_ s /\ bestId_ s' = bestId_ s /\
    forall id', genomes_ s' !! id' = (if decide (id = id') then G !! id' else genomes_ s !! id') /\
      metadata_ s' !! id' = (if decide (id = id') then M !! id' else metadata_ s !! id')).
Proof.
  intros (g & m & json & h & -> & Hj & Hh & Hg & Hm). destruct (Hvalid id ltac:(by exists g)) as [Hw Hnil].
  destruct (Hsafe id m Hm) as [Hok Hjs]. unfold loadRow, genome_row. cbn [GenomeRow.id GenomeRow.weights GenomeRow.metadata_json
    GenomeRow.content_hash].
  rewrite fromString_toString by done. cbn [rbind]. rewrite bool_decide_eq_false_2 by done. rewrite (parse_dump m json Hj Hjs).
  assert (is_finite (robustFitness m) = true) as Hf by (unfold json_safe in Hjs; rewrite !andb_true_iff in Hjs; tauto).
  rewrite (normalize_robust m Hok Hf). destruct (String.eqb_spec h EmptyString) as [| _]; [done |].
  assert (forall id', (<[id:=Genome.mk (Genome.weights g)]> (genomes_ s)) !! id' = (if decide (id = id') then G !! id' else genomes_ s !! id') /\
    (<[id:=m]> (metadata_ s)) !! id' = (if decide (id = id') then M !! id' else metadata_ s !! id')) as Hl.
  { intros id'. destruct (decide (id = id')) as [<- |].
    - rewrite Hg, Hm. split; [| apply lookup_insert_eq]. destruct g. apply lookup_insert_eq.
    - split; by apply lookup_insert_ne. }
  cbn [hashToId_ set_metadata_ set_genomes_]. destruct (hashToId_ s !! h) as [eid |].
  - destruct (match _ !! eid with Some _ => _ | None => _ end); apply wp_ok; by eexists.
  - apply wp_ok. by eexists.
Qed.

Lemma loadRows_ok rows s :
  (forall r, r ∈ rows -> exists id, describes r id) ->
  wp (loadRows rows s) (fun x => exists s', x = okay s' /\ db_ s' = db_ s /\ bestId_ s' = bestId_ s /\
    forall id,
      ((exists r, r ∈ rows /\ describes r id) -> genomes_ s' !! id = G !! id /\ metadata_ s' !! id = M !! id) /\
      (~ (exists r, r ∈ rows /\ describes r id) ->
        genomes_ s' !! id = genomes_ s !! id /\ metadata_ s' !! id = metadata_ s !! id)).
Proof.
  revert s. induction rows as [| r rows IH]; intros s Hr; cbn [loadRows].
  { apply wp_ok. exists s. split; [done |]. split; [done |]. split; [done |]. intros id. split; [| done].
    intros (r & Hin & _). by apply elem_of_nil in Hin. }
  destruct (Hr r ltac:(by left)) as [id0 Hd0]. apply wp_bind. eapply wp_mono; [by apply (loadRow_ok r id0) |].
  intros x (s1 & -> & Hdb1 & Hb1 & Hl1). eapply wp_mono; [apply IH; intros r' Hr'; apply Hr; by right |].
  intros x (s2 & -> & Hdb2 & Hb2 & Hl2). exists s2. split; [done |]. split; [congruence |]. split; [congruence |].
  intros id. destruct (Hl2 id) as [HA HB]. destruct (Hl1 id) as [HG HM].
  assert ((exists r0, r0 ∈ rows /\ describes r0 id) \/ ~ (exists r0, r0 ∈ rows /\ describes r0 id)) as [Hlater | Hnot].
  { destruct (G !! id) as [g |] eqn:Eg; [| right; intros (r0 & _ & g & m & j & h & _ & _ & _ & Hg & _); congruence].
    destruct (M !! id) as [m |] eqn:Em; [| right; intros (r0 & _ & g' & m & j & h & _ & _ & _ & _ & Hm); congruence].
    destruct (decide (Exists (fun r0 => GenomeRow.id r0 = UUID.toString id) rows)) as [He | He].
    - left. apply Exists_exists in He as (r0 & Hin & Hid). exists r0. split; [done |].
      destruct (Hr r0 ltac:(by right)) as [id1 (g1 & m1 & j1 & h1 & -> & Hj1 & Hh1 & Hg1 & Hm1)]. cbn in Hid.
      assert (id1 = id) as -> by (apply row_id_inj; [apply Hvalid; by exists g1 | apply Hvalid; by exists g | done]).
      by exists g1, m1, j1, h1.
    - right. intros (r0 & Hin & g1 & m1 & j1 & h1 & -> & _). apply He, Exists_exists. by eexists. }
  - split; [intros _; by apply HA |]. intros Hno. destruct Hno. destruct Hlater as (r0 & ? & ?). exists r0. split; [by right | done].
  - destruct (HB Hnot) as [-> ->]. rewrite HG, HM. split.
    + intros (r0 & [-> | Hin]%elem_of_cons & Hd); [| destruct Hnot; by exists r0].
      rewrite (describes_inj _ _ _ Hd0 Hd). by rewrite !decide_True.
    + intros Hno. rewrite !decide_False; [done | |]; intros ->; apply Hno; exists r; (split; [by left | done]).
Qed.
End Reopen.

Lemma reopen_ok n k s :
  serving n k s -> mirrored s -> (forall id m, metadata_ s !! id = Some m -> json_safe m = true) ->
  exists db, db_ s = Some db /\ wp (openDb db) (fun x => exists s', x = okay s' /\
    genomes_ s' = genomes_ s /\ metadata_ s' = metadata_ s /\ bestId_ s' = bestId_ s).
Proof.
  intros [Hw _] (db & Hdb & [M1 M2 _ M3]) Hjs. exists db. split; [done |]. unfold openDb, loadFromDb. apply wp_bind.
  eapply wp_mono; [apply (loadRows_ok (genomes_ s) (metadata_ s)) |].
  - apply (rw_valid _ _ Hw).
  - intros id m Hm. destruct (rw_meta _ _ Hw id m Hm) as [? _]. split; [done | by apply (Hjs id)].
  - exact M1.
  - intros x (s1 & -> & Hdb1 & Hb1 & Hl). cbn [genomes_ metadata_ bestId_] in *.
    assert (forall id, genomes_ s1 !! id = genomes_ s !! id /\ metadata_ s1 !! id = metadata_ s !! id) as Heq.
    { intros id. destruct (Hl id) as [HA HB]. destruct (genomes_ s !! id) as [g |] eqn:Eg.
      - destruct (metadata_ s !! id) as [m |] eqn:Em; [| apply (rw_dom _ _ Hw) in Em; congruence].
        apply HA. destruct (M2 id g m Eg Em) as (j & h & Hj & Hin). exists (genome_row id g j h). split; [done |].
        destruct (M1 _ Hin) as (id' & Hd). pose proof Hd as (g' & m' & j' & h' & He & Hj' & Hh & Hg' & Hm'). injection He as He _ _ _.
        assert (id = id') as <- by (apply row_id_inj; [apply (rw_valid _ _ Hw); by exists g | apply (rw_valid _ _ Hw); by exists g' | done]).
        exact Hd.
      - pose proof (proj1 (rw_dom _ _ Hw id) Eg) as Em. rewrite Em. apply HB. intros (r & _ & g & m & j & h & _ & _ & _ & ? & _). congruence. }
    assert (genomes_ s1 = genomes_ s) as Eg by (apply map_eq; apply Heq).
    assert (metadata_ s1 = metadata_ s) as Em by (apply map_eq; apply Heq).
    unfold loadBestId. destruct (bestId_ s) as [best |] eqn:Eb.
    + rewrite M3. destruct (rw_best _ _ Hw best Eb) as [g Hg]. destruct (rw_valid _ _ Hw best ltac:(by exists g)) as [Hwb Hnb].
      destruct (String.eqb_spec (UUID.toString best) EmptyString) as [E |].
      { destruct (printed_shape best (proj1 Hwb)) as [Hlen _]. rewrite E in Hlen. done. }
      rewrite fromString_toString by done. cbn [rbind]. rewrite (bool_decide_eq_false_2 (best = INVALID_GENOME_ID)) by done.
      unfold exists_. rewrite Eg, Hg, bool_decide_eq_true_2 by done. cbn [negb andb]. apply wp_ok. by eexists.
    + destruct M3 as [-> | ->]; cbn [String.eqb]; apply wp_ok; by exists s1.
Qed.
End Requests.

(** A fresh repository on [db]. *)
Definition fresh_on {Db : Type} (db : Db) : GenomeRepository.t Db := GenomeRepository.mk ∅ ∅ ∅ ∅ None (Some db).

Lemma fresh_serving `{SS : !StdSort} {Db : Type} (db : Db) : serving 0 0 (fresh_on db).
Proof. split; [apply (repo_wf_db 0 inMemory), inMemory_wf | done]. Qed.

Lemma open_fresh {Db : Type} `{GD : !GenomeDatabase Db, MJ : !MetadataJson, SS : !StdSort} (db : Db) :
  select_genomes db = [] -> select_best_id db = None -> openDb db = Ok (okay (fresh_on db)).
Proof. intros Hr Hb. unfold openDb, loadFromDb. by rewrite Hr, Hb. Qed.

(** C28. The genome repository's tables never drift apart. On a fresh database,
    any sequence of requests (store, store by content, remove, clear, mark as
    best, prune) is served without a fault, provided that the scores in the metadata
    to store are numbers and their samples finite, identifiers have sixteen
    bytes, the random engine gives enough distinct ones and fewer than [2^31]
    evaluations are merged. Afterwards: a genome is stored exactly when its
    metadata are; a content hash leads to a stored genome that is filed under
    that hash, so no two hashes lead to the same genome; the best genome is
    stored; no stored identifier is nil; every stored score is a number and every
    sample finite, so that [std::sort] and [std::nth_element] are given what they can
    order; and a robust fitness is the middle of at
    most seven samples in order, or half the sum of the two middle ones, of which
    there are no more than evaluations. *)
Theorem genome_requests {Db : Type} `{GD : !GenomeDatabase Db, MJ : !MetadataJson, UW : !UnorderedWalk,
    UL : !UnorderedWalkLaws, SS : !StdSort, SL : !StdSortLaws} (db0 : Db) (rs : list request) :
  select_genomes db0 = [] -> select_best_id db0 = None ->
  Forall (request_ok (length rs)) rs -> total_evaluations rs < 2 ^ 31 ->
  exists s0, openDb db0 = Ok (okay s0) /\ wp (serve_all rs s0) (fun s =>
    dom (genomes_ s) = dom (metadata_ s) /\
    (forall h id, hashToId_ s !! h = Some id -> idToHash_ s !! id = Some h /\ is_Some (genomes_ s !! id)) /\
    (forall id, bestId_ s = Some id -> is_Some (genomes_ s !! id)) /\
    genomes_ s !! INVALID_GENOME_ID = None /\
    (forall id m, metadata_ s !! id = Some m -> numeric m /\
      (robustFitnessSamples m <> [] ->
        middle_of (robustFitnessSamples m) (robustFitness m) /\
        Z.of_nat (length (robustFitnessSamples m)) <= Z.min 7 (robustEvalCount m)))).
Proof.
  intros Hr Hb Hok Hev. exists (fresh_on db0). split; [by apply open_fresh |].
  eapply wp_mono; [apply (serve_all_ok 0 0); [apply fresh_serving | lia | lia | done] |].
  intros s [[Wd Wh Wi Wb Wv Wm] _]. split; [| split; [| split; [done | split]]].
  - apply set_eq. intros id. rewrite !elem_of_dom, <- !not_eq_None_Some, Wd. done.
  - intros h id H. split; [by apply Wh |]. by eapply Wi, Wh.
  - destruct (genomes_ s !! INVALID_GENOME_ID) as [g |] eqn:E; [| done]. by destruct (Wv _ ltac:(by exists g)) as [_ []].
  - intros id m Hm. destruct (Wm id m Hm) as ([_ Hw Hsm] & _ & Hnu). split; [done |]. intros Hs.
    destruct (Hsm Hs) as [-> Hle]. split; [apply computeMedian_middle; [done | apply Hnu] |].
    unfold kRobustFitnessSampleWindow in Hw. lia.
Qed.

(** C26. What was stored is there again when the database is opened anew. A
    repository on a fresh database serves any sequence of requests that meet C28's
    conditions, their genomes having weights and the texts of their metadata being UTF-8. Opening the
    database it wrote gives a repository with the same genomes under the same
    identifiers, the same metadata and the same best genome, as long as the
    stored metadata hold no infinity and no NaN, which their JSON text cannot carry. (A
    genome without weights, or with text that is not UTF-8, is kept in memory but its row
    is refused, which is only logged.) *)
Theorem genome_persistence {Db : Type} `{GD : !GenomeDatabase Db, MJ : !MetadataJson, UW : !UnorderedWalk,
    UL : !UnorderedWalkLaws, SS : !StdSort, SL : !StdSortLaws, HD : !HealthyDatabase Db, ML : !MetadataJsonLaws}
    (db0 : Db) (rs : list request) :
  select_genomes db0 = [] -> select_best_id db0 = None ->
  Forall (request_ok (length rs)) rs -> Forall storable rs -> total_evaluations rs < 2 ^ 31 ->
  exists s0, openDb db0 = Ok (okay s0) /\ wp (serve_all rs s0) (fun s =>
    (forall id m, metadata_ s !! id = Some m -> json_safe m = true) ->
    exists db, db_ s = Some db /\ wp (openDb db) (fun x => exists s', x = okay s' /\
      genomes_ s' = genomes_ s /\ metadata_ s' = metadata_ s /\ bestId_ s' = bestId_ s)).
Proof.
  intros Hr Hb Hok Hst Hev. exists (fresh_on db0). split; [by apply open_fresh |].
  assert (mirrored (fresh_on db0)) as Hm.
  { exists db0. split; [done |]. split; [rewrite Hr; by intros ? ?%elem_of_nil | done | done | by left]. }
  pose proof (serve_all_ok 0 0 rs (fresh_on db0) (fresh_serving db0) ltac:(lia) ltac:(lia) Hok) as H.
  apply wp_elim in H as (s & E & Hs). rewrite E. apply wp_ok. eapply reopen_ok; [exact Hs |].
  by apply (serve_all_mirrored 0 0 rs (fresh_on db0)); [apply fresh_serving | | | | | |].
Qed.

(** C27. Pruning keeps the best of every bucket. With room for at least one genome
    per bucket, and the scores of the managed genomes being numbers, a prune of a
    repository removes managed genomes only,
    never the best genome; it reports how many it removed; every bucket (organism,
    brain and pool) is left with as many genomes as it had, or as many as there is
    room for; and of a bucket's removed genomes none is fitter than one it keeps, the
    repository's best genome excepted, which is kept whatever its score. Everything
    else stays as it was. (The comments at [pruneManagedByFitness] and
    [genomeArchiveMaxSize] name the organism and the brain only; the code's buckets are
    told apart by the pool too: a reported finding.) *)
Theorem genome_prune {Db : Type} `{GD : !GenomeDatabase Db, MJ : !MetadataJson, UW : !UnorderedWalk,
    UL : !UnorderedWalkLaws, SS : !StdSort, SL : !StdSortLaws} (n : nat) (s : GenomeRepository.t Db) :
  (1 <= n)%nat -> numbered s ->
  wp (pruneManagedByFitness n s) (fun '(s', k) => exists removed,
    NoDup removed /\ removes removed s s' /\ k = length removed /\
    (forall id, id ∈ removed -> bestId_ s <> Some id /\ exists key, is_Some (members key s !! id)) /\
    (forall key, size (members key s') = Nat.min n (size (members key s))) /\
    (forall key x y mx my, x ∈ removed -> y ∉ removed -> bestId_ s <> Some y ->
      members key s !! x = Some mx -> members key s !! y = Some my ->
      flt (effectiveRobustFitness my) (effectiveRobustFitness mx) = false)).
Proof. apply prune_ok. Qed.
