(* ===== verification/GenomeDemo.v ===== *)
(** The genome repository on a concrete database, which the theorems of
    [GenomeCorrect] apply to: a table is a list of rows, metadata are written as
    the bits of an enumeration, and maps are walked in the order of their keys. *)

From Stdlib Require Import ZArith Lia Bool String Ascii.
From Stdlib Require Import SpecFloat.
From stdpp Require Import base gmap option numbers list strings sorting countable.
From S2P Require Import Prelude Ieee StdModel Uuid Genomes GenomeFacts GenomePrune GenomeCorrect.

Set Default Goal Selector "!".

Import GenomeMetadata GenomeMetadataUtils GenomeRepository.

(** ** Tables *)
Record TableDb := mkTableDb { tb_rows : list GenomeRow.t; tb_best : option string }.

Definition other_rows (id : string) (rows : list GenomeRow.t) : list GenomeRow.t :=
  filter (fun r => GenomeRow.id r <> id) rows.

#[export] Instance table_database : GenomeDatabase TableDb := {
  select_genomes := tb_rows;
  select_best_id := tb_best;
  insert_or_replace_genome := fun row db =>
    match GenomeRow.weights row with
    | [] => (db, false)
    | _ => (mkTableDb (row :: other_rows (GenomeRow.id row) (tb_rows db)) (tb_best db), true)
    end;
  update_content_hash := fun hash id db =>
    (mkTableDb (map (fun r => if String.eqb (GenomeRow.id r) id
                              then GenomeRow.mk (GenomeRow.id r) (GenomeRow.weights r) (GenomeRow.metadata_json r) hash
                              else r) (tb_rows db)) (tb_best db), true);
  delete_genome := fun id db => (mkTableDb (other_rows id (tb_rows db)) (tb_best db), true);
  insert_or_replace_best_id := fun v db => (mkTableDb (tb_rows db) (Some v), true);
  delete_everything := fun _ => (mkTableDb [] None, true)
}.

#[export] Instance table_healthy : HealthyDatabase TableDb.
Proof.
  split; cbn; try done.
  2: by intros [? [] ? ?].
  - intros [i weights j h] db r Hw. cbn in Hw |- *. destruct weights; [done |]. cbn. rewrite elem_of_cons. unfold other_rows. rewrite list_elem_of_filter. tauto.
  - intros id db r. unfold other_rows. rewrite list_elem_of_filter. tauto.
Qed.

#[local] Existing Instances Dice.sort Dice.sort_laws.
#[export] Instance key_walk : UnorderedWalk := { walk := fun _ l => l }.
#[export] Instance key_walk_laws : UnorderedWalkLaws.
Proof. split. done. Qed.

(** ** Metadata as text *)
#[export] Instance float_dec : EqDecision spec_float.
Proof. solve_decision. Defined.
#[export] Instance float_countable : Countable spec_float.
Proof.
  apply (inj_countable'
    (fun x => match x with
              | S754_zero s => inl (inl s) | S754_infinity s => inl (inr s)
              | S754_nan => inr (inl tt) | S754_finite s m e => inr (inr (s, m, e))
              end)
    (fun y => match y with
              | inl (inl s) => S754_zero s | inl (inr s) => S754_infinity s
              | inr (inl _) => S754_nan | inr (inr (s, m, e)) => S754_finite s m e
              end)).
  by intros [].
Defined.

#[export] Instance scenario_countable_dec : EqDecision ScenarioId.
Proof. solve_decision. Defined.
#[export] Instance scenario_countable : Countable ScenarioId.
Proof.
  apply (inj_countable ScenarioId_to_Z
    (fun z => List.find (fun s => ScenarioId_to_Z s =? z)
      [Benchmark; Clock; DamBreak; EmptyScenario; GooseTest; Lights; Raining; Sandbox; TreeGermination;
       NesFlappyParatroopa; NesSuperMarioBros; NesSuperTiltBro; WaterEqualization])).
  by intros [].
Defined.

#[export] Instance organism_countable : Countable OrganismType.
Proof.
  apply (inj_countable OrganismType_to_Z
    (fun z => List.find (fun o => OrganismType_to_Z o =? z) [DUCK; GOOSE; TREE; NES_DUCK])).
  by intros [].
Defined.

#[export] Instance pool_countable : Countable GenomePoolId.
Proof.
  apply (inj_countable (fun p => match p with PoolDirtSim => 0 | PoolFlappyParatroopa => 1 | PoolSmb => 2 | PoolSuperTiltBro => 3 end)
    (fun z => if z =? 0 then Some PoolDirtSim else if z =? 1 then Some PoolFlappyParatroopa
              else if z =? 2 then Some PoolSmb else Some PoolSuperTiltBro)).
  by intros [].
Defined.

#[export] Instance compatibility_dec : EqDecision NesTileBrainCompatibilityMetadata.t.
Proof. solve_decision. Defined.
#[export] Instance compatibility_countable : Countable NesTileBrainCompatibilityMetadata.t.
Proof.
  apply (inj_countable'
    (fun '(NesTileBrainCompatibilityMetadata.mk a b c d e f g h i j k) => (a, b, c, d, e, f, g, h, i, j, k))
    (fun '(a, b, c, d, e, f, g, h, i, j, k) => NesTileBrainCompatibilityMetadata.mk a b c d e f g h i j k)).
  by intros [].
Defined.

#[export] Instance metadata_dec : EqDecision GenomeMetadata.t.
Proof. solve_decision. Defined.
#[export] Instance metadata_countable : Countable GenomeMetadata.t.
Proof.
  apply (inj_countable'
    (fun '(GenomeMetadata.mk a b c d e f g h i j k l m n o) => (a, b, c, d, e, f, g, h, i, j, k, l, m, n, o))
    (fun '(a, b, c, d, e, f, g, h, i, j, k, l, m, n, o) => GenomeMetadata.mk a b c d e f g h i j k l m n o)).
  by intros [].
Defined.

Fixpoint bits (p : positive) : string :=
  match p with
  | xH => EmptyString
  | xO p => String "0"%char (bits p)
  | xI p => String "1"%char (bits p)
  end.
Fixpoint unbits (text : string) : positive :=
  match text with
  | EmptyString => xH
  | String c text => if Ascii.eqb c "0"%char then xO (unbits text) else xI (unbits text)
  end.
Lemma unbits_bits p : unbits (bits p) = p.
Proof. induction p as [p IH | p IH |]; cbn; [by rewrite IH | by rewrite IH | done]. Qed.

#[export] Instance bits_json : MetadataJson := {
  metadata_dump := fun m => if texts_utf8 m then Some (bits (encode m)) else None;
  metadata_parse := fun text => decode (unbits text)
}.
#[export] Instance bits_json_laws : MetadataJsonLaws.
Proof.
  split.
  - intros m H. cbn. rewrite H. by eexists.
  - intros m json. cbn. set (text := bits (encode m)).
    assert (decode (unbits text) = Some m) as Ht by (unfold text; rewrite unbits_bits; apply decode_encode).
    clearbody text. destruct (texts_utf8 m); [| done]. by intros [= <-] _.
Qed.

(** ** A training session *)
Definition duck (fit : Z) (managed : bool) : GenomeMetadata.t :=
  GenomeMetadata.mk EmptyString (f64_of_Z fit) fzero 0 [] 1 fit Clock EmptyString (Some DUCK) (Some "net"%string) None
    (if managed then Some (UUID.generate 1 1) else None) PoolDirtSim None.

Definition some_draws : list (Z * Z) := map (fun i => (Z.of_nat i, 7)) (seq 1 12).

Definition id_of (i : Z) : GenomeId := UUID.generate i 9.

Definition session : list request :=
  [ Store [] (id_of 1) (Genome.mk [10; 20]) (duck 5 true);
    Store [] (id_of 2) (Genome.mk [11; 21]) (duck 9 true);
    StoreByHash some_draws (Genome.mk [10; 20]) (duck 7 true) None;
    StoreByHash some_draws (Genome.mk [12; 22]) (duck 6 true) (Some (id_of 1));
    MarkAsBest (id_of 1);
    Prune 1;
    Remove (id_of 3) ].

Lemma duck_numeric z : numeric (duck z true).
Proof. split; [apply f64_of_Z_not_nan | discriminate | constructor]. Qed.

Lemma session_ok : Forall (request_ok (length session)) session.
Proof.
  assert (forall i, uuid_wf (id_of i)) as Hid by (intros i; exact (generate_wf i 9)).
  assert (enough_draws some_draws 7) as Hd.
  { split; [| change (length some_draws) with 12%nat; lia]. apply (NoDup_fmap_1 (fun u => nth 7 (UUID.bytes_ u) 0)).
    assert ((fun u => nth 7 (UUID.bytes_ u) 0) <$> (drawn <$> some_draws) = [1; 2; 3; 4; 5; 6; 7; 8; 9; 10; 11; 12]) as -> by (vm_compute; reflexivity).
    repeat constructor; rewrite ?elem_of_cons, ?elem_of_nil; lia. }
  assert (forall i, id_of i = INVALID_GENOME_ID -> ([] : list (Z * Z)) <> []) as Hn by (intros i E; destruct (generate_not_nil i 9 E)).
  change (length session) with 7%nat. unfold session.
  constructor; [split; [apply duck_numeric | split; [apply Hid | apply Hn]] |].
  constructor; [split; [apply duck_numeric | split; [apply Hid | apply Hn]] |].
  constructor; [split; [apply duck_numeric | split; [intros id E; discriminate E | exact Hd]] |].
  constructor; [split; [apply duck_numeric | split; [intros id E; injection E as <-; apply Hid | exact Hd]] |].
  constructor; [exact I |]. constructor; [exact I |].
  constructor; [apply Hid | constructor].
Qed.

Lemma session_storable : Forall storable session.
Proof. repeat constructor; discriminate. Qed.

Lemma session_evaluations : total_evaluations session < 2 ^ 31.
Proof. vm_compute. reflexivity. Qed.

Definition empty_table : TableDb := mkTableDb [] None.

Example genome_requests_witness :
  exists s0, openDb empty_table = Ok (okay s0) /\ wp (serve_all session s0) (fun s =>
    forall h id, hashToId_ s !! h = Some id -> idToHash_ s !! id = Some h /\ is_Some (genomes_ s !! id)).
Proof.
  destruct (genome_requests (GD := table_database) empty_table session) as (s0 & H0 & H);
    [reflexivity | reflexivity | exact session_ok | exact session_evaluations |].
  exists s0. split; [exact H0 |]. eapply wp_mono; [exact H |]. intros s (_ & H1 & _). exact H1.
Defined.

Example genome_persistence_witness :
  exists s0, openDb empty_table = Ok (okay s0) /\ wp (serve_all session s0) (fun s =>
    (forall id m, metadata_ s !! id = Some m -> json_safe m = true) ->
    exists db, db_ s = Some db /\ wp (openDb db) (fun x => exists s', x = okay s' /\
      genomes_ s' = genomes_ s /\ metadata_ s' = metadata_ s /\ bestId_ s' = bestId_ s)).
Proof.
  apply (genome_persistence (GD := table_database) empty_table session);
    [reflexivity | reflexivity | exact session_ok | exact session_storable | exact session_evaluations].
Defined.

(** What the session leaves: the best genome, the fittest other one is pruned. *)
Definition session_summary : option (list (Z * nat) * option GenomeId) :=
  match openDb empty_table with
  | Ok (okay s0) =>
      match serve_all session s0 with
      | Ok s => Some (map (fun '(_, m) => (createdTimestamp m, length (robustFitnessSamples m))) (map_to_list (metadata_ s)), bestId_ s)
      | _ => None
      end
  | _ => None
  end.
Example session_leaves : session_summary = Some ([(7, 0%nat)], Some (id_of 1)).
Proof. vm_compute. reflexivity. Qed.

Definition two_ducks : list request :=
  [Store [] (id_of 1) (Genome.mk [10; 20]) (duck 5 true); Store [] (id_of 2) (Genome.mk [11; 21]) (duck 9 true)].
Definition managed_pair : GenomeRepository.t TableDb :=
  match serve_all (Db := TableDb) two_ducks inMemory with Ok s => s | _ => inMemory end.

Lemma managed_pair_wf : repo_wf 0 managed_pair.
Proof.
  assert (Forall (request_ok 7) two_ducks) as Hr by exact (Forall_take _ 2 _ session_ok).
  assert (Forall (request_ok (0 + length two_ducks)) two_ducks) as Hr'.
  { eapply List.Forall_impl; [| exact Hr]. intros r. apply request_ok_mono. cbn. lia. }
  pose proof (serve_all_ok (Db := TableDb) 0 0 two_ducks inMemory) as H.
  unfold managed_pair. apply wp_elim in H as (s & -> & [Hw _]); [exact Hw | | lia | by vm_compute | exact Hr'].
  split; [apply inMemory_wf | done].
Qed.

Example genome_prune_witness :
  wp (pruneManagedByFitness 1 managed_pair) (fun '(s', k) =>
    forall key, size (members key s') = Nat.min 1 (size (members key managed_pair))).
Proof.
  eapply wp_mono; [apply (genome_prune 1 managed_pair); [apply le_n |] |].
  { apply (repo_wf_numbered 0), managed_pair_wf. }
  intros [s' k] (removed & _ & _ & _ & _ & H & _). exact H.
Defined.

(** A genome whose content another one shared is no longer found by its content
    once that one is gone: the next store of the same content is inserted anew,
    although a genome with that content is still stored. *)
Definition shared_then_removed : res (GenomeRepository.t TableDb) :=
  serve_all (Db := TableDb)
    [ Store [] (id_of 1) (Genome.mk [10; 20]) (duck 5 true); Store [] (id_of 2) (Genome.mk [10; 20]) (duck 5 true);
      Remove (id_of 2) ] inMemory.

Example forgotten_content :
  match shared_then_removed with
  | Ok s =>
      get (id_of 1) s = Some (Genome.mk [10; 20]) /\
      match storeOrUpdateByHash some_draws (Genome.mk [10; 20]) (duck 5 true) None s with
      | Ok (_, r) => inserted r = true /\ result_id r <> id_of 1
      | _ => False
      end
  | _ => False
  end.
Proof. vm_compute. split; [reflexivity |]. split; [reflexivity | discriminate]. Qed.

(** A genome without weights, and a name that is not UTF-8: both are stored in memory,
    and neither has a row. *)
Definition latin1 : string := String (ascii_of_nat 233) EmptyString.
Definition named (text : string) (m : GenomeMetadata.t) : GenomeMetadata.t :=
  GenomeMetadata.mk text (fitness m) (robustFitness m) (robustEvalCount m) (robustFitnessSamples m) (generation m)
    (createdTimestamp m) (scenarioId m) (notes m) (organismType m) (brainKind m) (brainVariant m) (trainingSessionId m)
    (genomePoolId m) (nesTileBrainCompatibility m).
Definition written_rows (r : request) : option (nat * option nat) :=
  match serve_all [r] (fresh_on empty_table) with
  | Ok s => Some (size (genomes_ s), option_map (fun db => length (tb_rows db)) (db_ s))
  | _ => None
  end.
Example kept_without_row :
  map written_rows [Store [] (id_of 1) (Genome.mk [10; 20]) (duck 5 true);
                    Store [] (id_of 1) (Genome.mk [10; 20]) (named latin1 (duck 5 true));
                    Store [] (id_of 1) (Genome.mk []) (duck 5 true)]
  = [Some (1%nat, Some 1%nat); Some (1%nat, Some 0%nat); Some (1%nat, Some 0%nat)].
Proof. vm_compute. reflexivity. Qed.
