(* ===== verification/Training.v ===== *)
(** The training's settings and how hard it mutates: [EvolutionConfig.h],
    [TrainingPhase.h], [TrainingPhaseTracker.{h,cpp}], [AdaptiveMutation.{h,cpp}]
    of [core/organisms/evolution/].

    The tracker watches the best fitness of each generation and tells whether the
    training improves, stagnates or recovers; [adaptiveMutationResolve] turns the
    phase into the number of weights an offspring has mutated. *)

From Stdlib Require Import ZArith Lia Bool String.
From Stdlib Require Import SpecFloat.
From stdpp Require Import base option numbers list.
From S2P Require Import Prelude Ieee.

Set Default Goal Selector "!".

(** ** [EvolutionConfig.h] *)
Module EvolutionConfig.
Record t := mk {
  populationSize : Z;
  tournamentSize : Z;
  maxGenerations : Z;
  maxParallelEvaluations : Z;
  targetCpuPercent : Z;
  genomeArchiveMaxSize : Z;
  diversityEliteCount : Z;
  diversityEliteFitnessEpsilon : f64;
  robustFitnessEvaluationCount : Z;
  warmStartSeedCount : Z;
  warmStartSeedPercent : f64;
  warmStartMinRobustEvalCount : Z;
  warmStartAlwaysIncludeBest : bool;
  warmStartNoveltyWeight : f64;
  warmStartFitnessFloorPercentile : f64;
  stagnationImprovementEpsilon : f64;
  stagnationWindowGenerations : Z;
  recoveryWindowGenerations : Z;
  maxSimulationTime : f64;
  energyReference : f64;
  waterReference : f64
}.

(** The values of a default-constructed [EvolutionConfig]. *)
Definition default : t :=
  mk 50 3 1 0 0 1000 1 fzero 3 3 (f64_of_Z 20) 2 true (f64_lit 3 10) (f64_of_Z 60) (f64_lit 1 1000) 5 3
    (f64_of_Z 1000) (f64_of_Z 100) (f64_of_Z 100).
End EvolutionConfig.

Module MutationConfig.
Record t := mk {
  perturbationsPerOffspring : Z;
  resetsPerOffspring : Z;
  sigma : f64
}.
Definition default : t := mk 200 1 (f64_lit 5 100).
End MutationConfig.

(** ** [TrainingPhase.h] *)
Inductive TrainingPhase := Normal | Plateau | Stuck | Recovery.
#[global] Instance TrainingPhase_eq_dec : EqDecision TrainingPhase.
Proof. solve_decision. Defined.

(** ** [TrainingPhaseTracker] *)
Module TrainingPhaseStatus.
Record t := mk {
  generationsSinceImprovement : Z;
  lastImprovementGeneration : Z;
  stagnationLevel : Z;
  recoveryLevel : Z;
  phase : TrainingPhase
}.
Definition default : t := mk 0 (-1) 0 0 Normal.
End TrainingPhaseStatus.

Module TrainingPhaseUpdate.
Record t := mk {
  improved : bool;
  phaseChanged : bool;
  previousPhase : TrainingPhase;
  phase : TrainingPhase
}.
End TrainingPhaseUpdate.

(** [std::numeric_limits<double>::lowest()]. *)
Definition f64_lowest : f64 := S754_finite true (2 ^ 53 - 1) 971.

Module TrainingPhaseTracker.
Import TrainingPhaseStatus.

Record t := mk {
  lastMeaningfulBestFitness_ : f64;
  status_ : TrainingPhaseStatus.t
}.

Definition reset : t := mk f64_lowest TrainingPhaseStatus.default.

Definition normalizeRecoveryWindow (value : Z) : Z := Z.max value 0.
Definition normalizeStagnationWindow (value : Z) : Z := Z.max value 1.
Definition recoveryLevelNext (recoveryLevel : Z) : res Z :=
  let! next := int_result (recoveryLevel - 1) in Ok (Z.max next 0).

Definition stagnationLevelCompute (generationsSinceImprovement stagnationWindowGenerations : Z) : res Z :=
  let! twice := int_result (stagnationWindowGenerations * 2) in
  if twice <=? generationsSinceImprovement then Ok 2
  else if stagnationWindowGenerations <=? generationsSinceImprovement then Ok 1
  else Ok 0.

Definition phaseResolve (stagnationLevel recoveryLevel : Z) : TrainingPhase :=
  if 2 <=? stagnationLevel then Stuck
  else if 1 <=? stagnationLevel then Plateau
  else if 0 <? recoveryLevel then Recovery
  else Normal.

(** The test of [updateCompletedGeneration]: the first finite fitness improves on
    [lowest()], later ones by more than epsilon. *)
Definition improves (last completedBestFitness : f64) (config : EvolutionConfig.t) : bool :=
  let improvementEpsilon := std_max fzero (EvolutionConfig.stagnationImprovementEpsilon config) in
  negb (is_finite last) || fgt completedBestFitness (f64_add last improvementEpsilon).

Definition updateCompletedGeneration (generation : Z) (completedBestFitness : f64) (config : EvolutionConfig.t) (s : t)
    : res (t * TrainingPhaseUpdate.t) :=
  let st := status_ s in
  let previousPhase := phase st in
  let recoveryWindowGenerations := normalizeRecoveryWindow (EvolutionConfig.recoveryWindowGenerations config) in
  let stagnationWindowGenerations := normalizeStagnationWindow (EvolutionConfig.stagnationWindowGenerations config) in
  let improved := improves (lastMeaningfulBestFitness_ s) completedBestFitness config in
  let wasRecovery := bool_decide (phase st = Recovery) in
  let wasStagnated := 0 <? stagnationLevel st in
  let! '(best, since, lastImprovement, level, recovery) :=
    if improved then
      let! recovery :=
        if wasStagnated then Ok recoveryWindowGenerations
        else if wasRecovery then recoveryLevelNext (recoveryLevel st)
        else Ok 0 in
      Ok (completedBestFitness, 0, generation, 0, recovery)
    else
      let! since := int_result (generationsSinceImprovement st + 1) in
      let! level := stagnationLevelCompute since stagnationWindowGenerations in
      let! recovery := recoveryLevelNext (recoveryLevel st) in
      Ok (lastMeaningfulBestFitness_ s, since, lastImprovementGeneration st, level, recovery) in
  let newPhase := phaseResolve level recovery in
  Ok (mk best (TrainingPhaseStatus.mk since lastImprovement level recovery newPhase),
      TrainingPhaseUpdate.mk improved (negb (bool_decide (newPhase = previousPhase))) previousPhase newPhase).
End TrainingPhaseTracker.

(** ** [AdaptiveMutation] *)
Inductive AdaptiveMutationMode := Baseline | Explore | Rescue | Recover.
Inductive AdaptiveMutationControlMode := ControlAuto | ControlBaseline | ControlExplore | ControlRescue.
#[global] Instance AdaptiveMutationMode_eq_dec : EqDecision AdaptiveMutationMode.
Proof. solve_decision. Defined.

Module EffectiveAdaptiveMutation.
Record t := mk {
  mode : AdaptiveMutationMode;
  mutationConfig : MutationConfig.t
}.
End EffectiveAdaptiveMutation.

Module AdaptiveMutation.
Import MutationConfig.

Definition kExplorePerturbationsScale : f64 := f64_lit 15 10.
Definition kExplorePerturbationsMinIncrease : Z := 50.
Definition kExploreResetsScale : f64 := f64_of_Z 2.
Definition kExploreResetsMinIncrease : Z := 1.
Definition kExploreSigmaScale : f64 := f64_lit 125 100.
Definition kExploreSigmaMinIncrease : f64 := f64_lit 1 100.

Definition kRescuePerturbationsScale : f64 := f64_lit 25 10.
Definition kRescuePerturbationsMinIncrease : Z := 150.
Definition kRescueResetsScale : f64 := f64_of_Z 4.
Definition kRescueResetsMinIncrease : Z := 2.
Definition kRescueSigmaScale : f64 := f64_lit 16 10.
Definition kRescueSigmaMinIncrease : f64 := f64_lit 2 100.

Definition clampToInt (value : Z) : Z :=
  if value <=? 0 then 0 else if 2 ^ 31 - 1 <=? value then 2 ^ 31 - 1 else value.

(** [std::llround] gives an unspecified value when the integer does not fit. *)
Definition llround (x : f64) : res Z :=
  if is_finite x && (- 2 ^ 63 <=? std_lround x) && (std_lround x <? 2 ^ 63) then Ok (std_lround x)
  else Fault (Undefined "llround"%string).

(** [int64_t] sums of two [int]s do not overflow. *)
Definition scaledBudgetResolve (baseline : Z) (scale : f64) (minIncrease : Z) : res Z :=
  let! scaled := llround (f64_mul (f64_of_Z baseline) scale) in
  let increased := baseline + minIncrease in
  Ok (clampToInt (Z.max (Z.max baseline scaled) increased)).

Definition scaledSigmaResolve (baseline scale minIncrease : f64) : f64 :=
  std_max (std_max baseline (f64_mul baseline scale)) (f64_add baseline minIncrease).

Definition recoveryFactor (remainingSteps recoveryWindowGenerations : Z) : f64 :=
  std_clamp (f64_div (f64_of_Z remainingSteps) (f64_of_Z recoveryWindowGenerations)) fzero (f64_of_Z 1).

Definition recoveryBudgetResolve (baseline previous recoveryLevel recoveryWindowGenerations : Z) : res Z :=
  if (recoveryLevel <=? 0) || (recoveryWindowGenerations <=? 0) || (previous <=? baseline) then Ok baseline
  else
    let! level := int_result (recoveryLevel - 1) in
    let remainingSteps := Z.max level 0 in
    let! gap := int_result (previous - baseline) in
    let resolved := f64_add (f64_of_Z baseline)
                      (f64_mul (f64_of_Z gap) (recoveryFactor remainingSteps recoveryWindowGenerations)) in
    let! rounded := llround resolved in
    Ok (clampToInt rounded).

Definition recoverySigmaResolve (baseline previous : f64) (recoveryLevel recoveryWindowGenerations : Z) : res f64 :=
  if (recoveryLevel <=? 0) || (recoveryWindowGenerations <=? 0) || fle previous baseline then Ok baseline
  else
    let! level := int_result (recoveryLevel - 1) in
    let remainingSteps := Z.max level 0 in
    Ok (f64_add baseline (f64_mul (f64_sub previous baseline) (recoveryFactor remainingSteps recoveryWindowGenerations))).

Definition adaptiveMutationPhaseResolve (phase : TrainingPhase) (controlMode : AdaptiveMutationControlMode) : TrainingPhase :=
  match controlMode with
  | ControlAuto => phase
  | ControlBaseline => Normal
  | ControlExplore => Plateau
  | ControlRescue => Stuck
  end.

Definition adaptiveMutationResolve (baselineConfig : MutationConfig.t) (trainingPhaseStatus : TrainingPhaseStatus.t)
    (previousEffective : EffectiveAdaptiveMutation.t) (evolutionConfig : EvolutionConfig.t)
    (controlMode : AdaptiveMutationControlMode) : res EffectiveAdaptiveMutation.t :=
  let previous := EffectiveAdaptiveMutation.mutationConfig previousEffective in
  let level := TrainingPhaseStatus.recoveryLevel trainingPhaseStatus in
  let window := EvolutionConfig.recoveryWindowGenerations evolutionConfig in
  match adaptiveMutationPhaseResolve (TrainingPhaseStatus.phase trainingPhaseStatus) controlMode with
  | Normal => Ok (EffectiveAdaptiveMutation.mk Baseline baselineConfig)
  | Plateau =>
      let! perturbations := scaledBudgetResolve (perturbationsPerOffspring baselineConfig)
                              kExplorePerturbationsScale kExplorePerturbationsMinIncrease in
      let! resets := scaledBudgetResolve (resetsPerOffspring baselineConfig) kExploreResetsScale kExploreResetsMinIncrease in
      Ok (EffectiveAdaptiveMutation.mk Explore (MutationConfig.mk perturbations resets
            (scaledSigmaResolve (sigma baselineConfig) kExploreSigmaScale kExploreSigmaMinIncrease)))
  | Stuck =>
      let! perturbations := scaledBudgetResolve (perturbationsPerOffspring baselineConfig)
                              kRescuePerturbationsScale kRescuePerturbationsMinIncrease in
      let! resets := scaledBudgetResolve (resetsPerOffspring baselineConfig) kRescueResetsScale kRescueResetsMinIncrease in
      Ok (EffectiveAdaptiveMutation.mk Rescue (MutationConfig.mk perturbations resets
            (scaledSigmaResolve (sigma baselineConfig) kRescueSigmaScale kRescueSigmaMinIncrease)))
  | Recovery =>
      let! perturbations := recoveryBudgetResolve (perturbationsPerOffspring baselineConfig)
                              (perturbationsPerOffspring previous) level window in
      let! resets := recoveryBudgetResolve (resetsPerOffspring baselineConfig) (resetsPerOffspring previous) level window in
      let! sg := recoverySigmaResolve (sigma baselineConfig) (sigma previous) level window in
      Ok (EffectiveAdaptiveMutation.mk Recover (MutationConfig.mk perturbations resets sg))
  end.
End AdaptiveMutation.
