(* ===== verification/TrainingFacts.v ===== *)
(** What the phase of the training and the mutation budgets are: the tracker's
    status as a function of which generations improved, and the effective budgets
    as integer arithmetic. *)

From Stdlib Require Import ZArith Lia Bool.
From Stdlib Require Import SpecFloat.
From stdpp Require Import base option numbers list.
From S2P Require Import Prelude Ieee.
From S2P Require Import IeeeRound Training.

Set Default Goal Selector "!".

(** ** The tracker as a function of its history

    A history lists, newest first, whether each completed generation improved. *)
Section History.
Context (stagnationWindow recoveryWindow : Z).

(** Generations since the last improvement (all of them if there was none). *)
Fixpoint sinceImprovement (history : list bool) : Z :=
  match history with
  | false :: older => 1 + sinceImprovement older
  | _ => 0
  end.

Definition stagnation (history : list bool) : Z :=
  if 2 * stagnationWindow <=? sinceImprovement history then 2
  else if stagnationWindow <=? sinceImprovement history then 1
  else 0.

(** Generations since the last improvement that ended a stagnation, if any. *)
Fixpoint sinceRecovery (history : list bool) : option Z :=
  match history with
  | [] => None
  | improved :: older =>
      if improved && (0 <? stagnation older) then Some 0
      else match sinceRecovery older with Some n => Some (n + 1) | None => None end
  end.

Definition recovery (history : list bool) : Z :=
  match sinceRecovery history with Some n => Z.max 0 (recoveryWindow - n) | None => 0 end.

Definition phaseOf (history : list bool) : TrainingPhase :=
  if 2 * stagnationWindow <=? sinceImprovement history then Stuck
  else if stagnationWindow <=? sinceImprovement history then Plateau
  else if 0 <? recovery history then Recovery
  else Normal.
End History.

(** The same history with the numbers: the generations completed so far, newest
    first, and the best meaningful fitness after them. *)
Section Fitness.
Context (config : EvolutionConfig.t).

Fixpoint bestOf (fitness : list (Z * f64)) : f64 :=
  match fitness with
  | [] => f64_lowest
  | (_, f) :: older => if TrainingPhaseTracker.improves (bestOf older) f config then f else bestOf older
  end.

Fixpoint improvements (fitness : list (Z * f64)) : list bool :=
  match fitness with
  | [] => []
  | (_, f) :: older => TrainingPhaseTracker.improves (bestOf older) f config :: improvements older
  end.

Fixpoint lastImprovement (fitness : list (Z * f64)) : Z :=
  match fitness with
  | [] => -1
  | (g, f) :: older => if TrainingPhaseTracker.improves (bestOf older) f config then g else lastImprovement older
  end.

(** The tracker after these generations. *)
Definition trackerOf (fitness : list (Z * f64)) : TrainingPhaseTracker.t :=
  let w := TrainingPhaseTracker.normalizeStagnationWindow (EvolutionConfig.stagnationWindowGenerations config) in
  let r := TrainingPhaseTracker.normalizeRecoveryWindow (EvolutionConfig.recoveryWindowGenerations config) in
  let history := improvements fitness in
  TrainingPhaseTracker.mk (bestOf fitness)
    (TrainingPhaseStatus.mk (sinceImprovement history) (lastImprovement fitness) (stagnation w history)
       (recovery w r history) (phaseOf w r history)).

Fixpoint updates (fitness : list (Z * f64)) (s : TrainingPhaseTracker.t) : res TrainingPhaseTracker.t :=
  match fitness with
  | [] => Ok s
  | (g, f) :: newer =>
      let! r := TrainingPhaseTracker.updateCompletedGeneration g f config s in updates newer (fst r)
  end.

Lemma updates_app l new s s' : updates l s = Ok s' -> updates (l ++ new) s = updates new s'.
Proof.
  revert s. induction l as [| [g f] l IH]; intros s; cbn [updates app]; [by intros [= ->] |].
  destruct (TrainingPhaseTracker.updateCompletedGeneration g f config s); cbn [rbind]; [apply IH | done].
Qed.

Lemma sinceImprovement_bounds history : 0 <= sinceImprovement history <= Z.of_nat (length history).
Proof. induction history as [| [] history IH]; cbn [sinceImprovement length]; lia. Qed.

Lemma sinceRecovery_bounds w history n :
  sinceRecovery w history = Some n -> 0 <= n < Z.of_nat (length history).
Proof.
  revert n. induction history as [| i history IH]; intros n; cbn [sinceRecovery length]; [done |].
  destruct (i && _); [intros [= <-]; lia |]. destruct (sinceRecovery w history) as [k |]; [| done].
  intros [= <-]. specialize (IH k eq_refl). lia.
Qed.
End Fitness.

Section Tracker.
Context (config : EvolutionConfig.t).
Let w := TrainingPhaseTracker.normalizeStagnationWindow (EvolutionConfig.stagnationWindowGenerations config).
Let r := TrainingPhaseTracker.normalizeRecoveryWindow (EvolutionConfig.recoveryWindowGenerations config).
Context (Hw : w < 2 ^ 30) (Hr : r < 2 ^ 31).

Lemma window_bounds : 1 <= w /\ 0 <= r.
Proof. unfold w, r, TrainingPhaseTracker.normalizeStagnationWindow, TrainingPhaseTracker.normalizeRecoveryWindow. lia. Qed.

Lemma phaseResolve_phaseOf history :
  TrainingPhaseTracker.phaseResolve (stagnation w history) (recovery w r history) = phaseOf w r history.
Proof.
  unfold TrainingPhaseTracker.phaseResolve, stagnation, phaseOf. pose proof window_bounds.
  destruct (Z.leb_spec (2 * w) (sinceImprovement history)), (Z.leb_spec w (sinceImprovement history)); try lia; done.
Qed.

Lemma recovery_bounds history : 0 <= recovery w r history <= r.
Proof.
  unfold recovery. pose proof window_bounds. destruct (sinceRecovery w history) as [n |] eqn:E; [| lia].
  apply sinceRecovery_bounds in E. lia.
Qed.

Lemma recoveryLevelNext_ok level :
  0 <= level < 2 ^ 31 -> TrainingPhaseTracker.recoveryLevelNext level = Ok (Z.max 0 (level - 1)).
Proof.
  intros. unfold TrainingPhaseTracker.recoveryLevelNext. rewrite int_result_ok by lia. cbn. f_equal. lia.
Qed.

Lemma stagnationLevelCompute_ok history :
  TrainingPhaseTracker.stagnationLevelCompute (sinceImprovement history) w = Ok (stagnation w history).
Proof.
  unfold TrainingPhaseTracker.stagnationLevelCompute, stagnation. pose proof window_bounds.
  rewrite int_result_ok by lia. cbn. rewrite (Z.mul_comm w 2). by repeat case_match.
Qed.

(** The recovery level after one more generation. *)
Lemma recovery_after improved history :
  recovery w r (improved :: history) =
  if improved && (0 <? stagnation w history) then r else Z.max 0 (recovery w r history - 1).
Proof.
  unfold recovery. cbn [sinceRecovery]. pose proof window_bounds.
  destruct (improved && (0 <? stagnation w history)); [lia |].
  destruct (sinceRecovery w history); lia.
Qed.

Lemma not_recovering history :
  (0 <? stagnation w history) = false -> phaseOf w r history <> Recovery -> recovery w r history = 0.
Proof.
  unfold stagnation, phaseOf. pose proof (recovery_bounds history).
  destruct (Z.leb_spec (2 * w) (sinceImprovement history)); [done |].
  destruct (Z.leb_spec w (sinceImprovement history)); [done |].
  destruct (Z.ltb_spec 0 (recovery w r history)); [done | lia].
Qed.

Lemma improving_recovery history :
  (if 0 <? stagnation w history then Ok r
   else if bool_decide (phaseOf w r history = Recovery)
        then TrainingPhaseTracker.recoveryLevelNext (recovery w r history) else Ok 0)
  = Ok (recovery w r (true :: history)).
Proof.
  rewrite recovery_after. pose proof (recovery_bounds history). cbn [andb].
  destruct (0 <? stagnation w history) eqn:E; [done |]. case_bool_decide as Hp.
  - by rewrite recoveryLevelNext_ok by lia.
  - rewrite not_recovering by done. done.
Qed.

Lemma tracker_start : trackerOf config [] = TrainingPhaseTracker.reset.
Proof.
  unfold trackerOf. fold w r. cbn [bestOf improvements lastImprovement sinceImprovement]. pose proof window_bounds.
  unfold stagnation, phaseOf, recovery. cbn [sinceRecovery sinceImprovement].
  by rewrite !(proj2 (Z.leb_gt _ _)) by lia.
Qed.

Lemma tracker_step g f fitness :
  Z.of_nat (length fitness) < 2 ^ 31 - 1 ->
  exists u, TrainingPhaseTracker.updateCompletedGeneration g f config (trackerOf config fitness)
            = Ok (trackerOf config ((g, f) :: fitness), u).
Proof.
  intros Hl. unfold TrainingPhaseTracker.updateCompletedGeneration, trackerOf. fold w r.
  set (h := improvements config fitness).
  assert (length h = length fitness) as Hh by (unfold h; clear; induction fitness as [| [] ? IH]; cbn; congruence).
  cbn [TrainingPhaseTracker.status_ TrainingPhaseTracker.lastMeaningfulBestFitness_ bestOf improvements lastImprovement
       TrainingPhaseStatus.phase TrainingPhaseStatus.stagnationLevel TrainingPhaseStatus.recoveryLevel
       TrainingPhaseStatus.generationsSinceImprovement TrainingPhaseStatus.lastImprovementGeneration].
  fold h. pose proof window_bounds. pose proof (recovery_bounds h). pose proof (sinceImprovement_bounds h).
  destruct (TrainingPhaseTracker.improves (bestOf config fitness) f config) eqn:E.
  - rewrite improving_recovery. cbn [rbind]. eexists. f_equal. f_equal. f_equal. rewrite <- phaseResolve_phaseOf.
    assert (stagnation w (true :: h) = 0) as -> by (unfold stagnation; cbn [sinceImprovement]; repeat case_match; lia).
    done.
  - rewrite int_result_ok by lia. cbn [rbind]. replace (sinceImprovement h + 1) with (sinceImprovement (false :: h)) by (cbn; lia).
    rewrite stagnationLevelCompute_ok. cbn [rbind]. rewrite recoveryLevelNext_ok by lia. cbn [rbind].
    replace (Z.max 0 (recovery w r h - 1)) with (recovery w r (false :: h)) by (by rewrite recovery_after).
    rewrite phaseResolve_phaseOf. by eexists.
Qed.
End Tracker.

(** ** The effective budgets *)
Section Budgets.
Import AdaptiveMutation.

Lemma llround_ok lo hi x : within (lo * 2 ^ 1074) (hi * 2 ^ 1074) x -> - 2 ^ 63 <= lo -> hi < 2 ^ 63 -> llround x = Ok (std_lround x).
Proof.
  intros H Hlo Hhi. pose proof (std_lround_within lo hi x H) as Hb. destruct H as (Hn & _). unfold llround.
  assert (is_finite x = true) as -> by (by destruct x as [| | | [] ]).
  by rewrite (proj2 (Z.leb_le _ _)), (proj2 (Z.ltb_lt _ _)) by lia.
Qed.

Lemma moderate_int n : 0 <= n < 2 ^ 53 -> moderate (f64_of_Z n).
Proof.
  intros Hn. destruct (f64_of_Z_within n Hn) as (_ & _ & _ & H). unfold moderate. eapply Z.le_lt_trans; [exact H |].
  change (2 ^ 1500) with (2 ^ 426 * 2 ^ 1074). apply Z.mul_lt_mono_pos_r; [by apply Z.pow_pos_nonneg |].
  eapply Z.lt_le_trans; [apply Hn |]. by apply Z.pow_le_mono_r.
Qed.

(** A scale that is [k/2]: the products with an [int] are exact. *)
Record half_scale (k : Z) (c : f64) : Prop := {
  half_nonneg : nonneg c = true;
  half_valid : valid c;
  half_val : fval c = k * 2 ^ 1073;
  half_small : 0 <= k <= 8
}.

Lemma scaled_exact k c b :
  half_scale k c -> 0 <= b < 2 ^ 31 ->
  within (k * b * 2 ^ 1073) (k * b * 2 ^ 1073) (f64_mul (f64_of_Z b) c).
Proof.
  intros [Hn Hv Hf Hk] Hb. destruct (f64_of_Z_within b ltac:(lia)) as (Hbn & Hbv & Hbf).
  assert (fval (f64_of_Z b) = b * 2 ^ 1074) as Hbe by lia.
  assert (dbl (k * b * 2 ^ 1073)) as Hd by (exists (k * b), 1073; split; [done | nia]).
  apply f64_mul_within; try done.
  - apply moderate_int. lia.
  - unfold moderate. rewrite Hf. change (2 ^ 1500) with (2 ^ 427 * 2 ^ 1073).
    apply Z.mul_lt_mono_pos_r; [by apply Z.pow_pos_nonneg |]. apply Z.le_lt_trans with 8; [lia | done].
  - rewrite Hbe, Hf. lia.
Qed.

Lemma scaledBudgetResolve_ok k c b inc :
  half_scale k c -> 0 <= b < 2 ^ 31 ->
  scaledBudgetResolve b c inc = Ok (clampToInt (Z.max (Z.max b ((k * b + 1) / 2)) (b + inc))).
Proof.
  intros Hc Hb. pose proof (scaled_exact k c b Hc Hb) as Hw. unfold scaledBudgetResolve.
  destruct Hc as [_ _ _ Hk]. rewrite (llround_ok 0 (8 * 2 ^ 31)); [| | done | done].
  - cbn [rbind]. rewrite std_lround_val by apply Hw. destruct Hw as (_ & _ & Hw).
    assert (fval (f64_mul (f64_of_Z b) c) = k * b * 2 ^ 1073) as -> by lia.
    change (2 ^ 1075) with (2 * 2 ^ 1074). change (2 ^ 1074) with (2 * 2 ^ 1073).
    replace (2 * (k * b * 2 ^ 1073) + 2 * 2 ^ 1073) with ((k * b + 1) * (2 * 2 ^ 1073)) by lia.
    by rewrite Z.div_mul_cancel_r by (pose proof (Z.pow_pos_nonneg 2 1073); lia).
  - destruct Hw as (H1 & H2 & H3). split; [done |]. split; [done |]. change (2 ^ 1074) with (2 * 2 ^ 1073).
    pose proof (Z.pow_pos_nonneg 2 1073 ltac:(lia) ltac:(lia)). assert (0 <= k * b <= 8 * 2 ^ 31) by nia. nia.
Qed.

Lemma recoveryFactor_within remaining window :
  0 <= remaining < 2 ^ 31 -> 0 < window < 2 ^ 31 ->
  within 0 (if remaining =? 0 then 0 else 2 ^ 1074) (recoveryFactor remaining window).
Proof.
  intros Hr Hw. unfold recoveryFactor. destruct (Z.eqb_spec remaining 0) as [-> | Hn].
  - assert (f64_div (f64_of_Z 0) (f64_of_Z window) = fzero) as ->; [| by vm_compute; intuition discriminate].
    destruct (f64_of_Z_within window ltac:(lia)) as (Hf & Hv & Hx). unfold f64_div, f64_of_Z at 1. cbn [binary_normalize].
    destruct (f64_of_Z window) as [s | | | [] m e]; try done. cbn [fval] in Hx. pose proof (Z.pow_pos_nonneg 2 1074). lia.
  - apply std_clamp_unit; [| apply f64_div_valid]. apply SFdiv_not_nan; [apply f64_of_Z_not_nan |].
    destruct (f64_of_Z_within window ltac:(lia)) as (Hf & Hv & Hx).
    destruct (f64_of_Z window) as [s | | | [] m e]; try done. cbn [fval] in Hx. pose proof (Z.pow_pos_nonneg 2 1074). lia.
Qed.

(** A recovering budget lies between the baseline and the previous one. *)
Lemma recoveryBudgetResolve_ok b p level window :
  0 <= b < 2 ^ 31 -> 0 <= p < 2 ^ 31 -> 0 <= level < 2 ^ 31 -> window < 2 ^ 31 ->
  wp (recoveryBudgetResolve b p level window)
     (fun v => b <= v <= Z.max b p /\ (level <= 1 -> v = b)).
Proof.
  intros Hb Hp Hl Hw. unfold recoveryBudgetResolve.
  destruct (Z.leb_spec level 0), (Z.leb_spec window 0), (Z.leb_spec p b); cbn [orb]; try (by apply wp_ok; lia).
  rewrite !int_result_ok by lia. cbn [rbind]. set (remaining := Z.max (level - 1) 0).
  pose proof (recoveryFactor_within remaining window ltac:(lia) ltac:(lia)) as Hf.
  set (factor := recoveryFactor remaining window) in *. set (top := if remaining =? 0 then 0 else p - b).
  destruct (f64_of_Z_within b ltac:(lia)) as (Hbn & Hbv & Hbf).
  destruct (f64_of_Z_within (p - b) ltac:(lia)) as (Hgn & Hgv & Hgf). destruct Hf as (Hfn & Hfv & Hff).
  assert (0 <= top <= p - b) as Htop by (unfold top; case_match; lia).
  pose proof (Z.pow_pos_nonneg 2 1074 ltac:(lia) ltac:(lia)) as H2.
  assert (within (0 * 2 ^ 1074) (top * 2 ^ 1074) (f64_mul (f64_of_Z (p - b)) factor)) as (Hmn & Hmv & Hmf).
  { apply f64_mul_within; try done; try (by apply dbl_int; lia); [apply moderate_int; lia | |].
    - unfold moderate. eapply Z.le_lt_trans; [apply Hff |]. by destruct (remaining =? 0).
    - unfold top in *. destruct (remaining =? 0); nia. }
  assert (within (b * 2 ^ 1074) ((b + top) * 2 ^ 1074)
            (f64_add (f64_of_Z b) (f64_mul (f64_of_Z (p - b)) factor))) as Hs.
  { apply f64_add_within; try done; try (by apply dbl_int; lia). nia. }
  rewrite (llround_ok _ _ _ Hs) by lia. cbn [rbind]. pose proof (std_lround_within _ _ _ Hs) as Hv.
  apply wp_ok. unfold clampToInt. split; [repeat case_match; lia |]. intros Hl1.
  assert (top = 0) by (unfold top; replace remaining with 0 by lia; done). repeat case_match; lia.
Qed.
End Budgets.

(** ** Theorems *)
Definition int_range (z : Z) : Prop := 0 <= z < 2 ^ 31.

(** The budget that a stagnating phase gives: [k/2] times the baseline (halves
    rounded up), at least [inc] more than it, within an [int]. *)
Definition raised (k inc baseline : Z) : Z :=
  Z.min (2 ^ 31 - 1) (Z.max ((k * baseline + 1) / 2) (baseline + inc)).

Lemma clamp_raised k inc b :
  2 <= k -> 0 <= inc -> int_range b ->
  AdaptiveMutation.clampToInt (Z.max (Z.max b ((k * b + 1) / 2)) (b + inc)) = raised k inc b.
Proof.
  unfold int_range, AdaptiveMutation.clampToInt, raised. intros Hk Hi Hb.
  assert (0 <= (k * b + 1) / 2) by (apply Z.div_pos; nia). repeat case_match; lia.
Qed.

Lemma scales :
  half_scale 3 AdaptiveMutation.kExplorePerturbationsScale /\ half_scale 4 AdaptiveMutation.kExploreResetsScale /\
  half_scale 5 AdaptiveMutation.kRescuePerturbationsScale /\ half_scale 8 AdaptiveMutation.kRescueResetsScale.
Proof. repeat split; try (by vm_compute); vm_compute; intuition discriminate. Qed.

Lemma sigma_raised baseline scale inc :
  not_nan baseline -> fle baseline (AdaptiveMutation.scaledSigmaResolve baseline scale inc) = true.
Proof.
  intros Hn. unfold AdaptiveMutation.scaledSigmaResolve.
  set (x := f64_mul baseline scale). set (y := f64_add baseline inc).
  pose proof (std_max_ge_l baseline x Hn) as H. unfold std_max at 1. destruct (flt (std_max baseline x) y) eqn:E; [| done].
  rewrite <- (negb_involutive (fle _ _)), <- flt_negb_fle; [| by eapply flt_not_nan_r | done].
  apply negb_true_iff, not_true_iff_false. intros Hc.
  assert (flt y baseline = true -> flt (std_max baseline x) y = true -> False) as Ht; [| by apply Ht].
  intros H1 H2. apply flt_key in H1; [| by eapply flt_not_nan_r | done].
  apply flt_key in H2; [| by apply std_max_not_nan | by eapply flt_not_nan_r].
  unfold std_max in *. destruct (flt baseline x) eqn:Ex.
  - apply flt_key in Ex; [| done | by eapply flt_not_nan_r]. unfold lex_lt in *.
    destruct (fkey baseline) as [ [] ], (fkey x) as [ [] ], (fkey y) as [ [] ]. cbn in *. lia.
  - unfold lex_lt in *. destruct (fkey baseline) as [ [] ], (fkey y) as [ [] ]. cbn in *. lia.
Qed.

(** C30. The tracker is a function of the generations' fitness: after any
    generations (newest first in [fitness]), the stagnation level counts the
    windows since the last improvement, the recovery level what is left of the
    recovery window since the last improvement that ended a stagnation, and the
    phase follows from them; no counter overflows. *)
Theorem tracker_history (config : EvolutionConfig.t) (fitness : list (Z * f64)) :
  EvolutionConfig.stagnationWindowGenerations config < 2 ^ 30 ->
  EvolutionConfig.recoveryWindowGenerations config < 2 ^ 31 ->
  Z.of_nat (length fitness) < 2 ^ 31 ->
  updates config (rev fitness) TrainingPhaseTracker.reset = Ok (trackerOf config fitness).
Proof.
  intros Hw Hr. induction fitness as [| [g f] fitness IH]; intros Hl; [by rewrite tracker_start |].
  cbn [rev length] in *. specialize (IH ltac:(lia)).
  rewrite (updates_app _ _ _ _ _ IH). cbn [updates].
  destruct (tracker_step config ltac:(unfold TrainingPhaseTracker.normalizeStagnationWindow; lia)
              ltac:(unfold TrainingPhaseTracker.normalizeRecoveryWindow; lia) g f fitness ltac:(lia)) as [u Hu].
  by rewrite Hu.
Qed.

Example tracker_history_witness :
  let config := EvolutionConfig.default in
  let fitness := [(8, f64_of_Z 9); (7, f64_of_Z 5); (6, f64_of_Z 4); (5, f64_of_Z 4); (4, f64_of_Z 3);
                  (3, f64_of_Z 2); (2, f64_of_Z 5); (1, f64_of_Z 1); (0, f64_of_Z 5)] in
  updates config (rev fitness) TrainingPhaseTracker.reset = Ok (trackerOf config fitness) /\
  TrainingPhaseTracker.status_ (trackerOf config fitness) = TrainingPhaseStatus.mk 0 8 0 3 Recovery.
Proof.
  intros config fitness. split; [| by vm_compute]. apply (tracker_history config fitness); by vm_compute.
Defined.

(** C31. The effective budgets of a phase, for settings that are non-negative
    [int]s: the baseline when the training is normal; one and a half times the
    perturbations (at least 50 more) and twice the resets on a plateau; two and a
    half times (at least 150 more) and four times when stuck, up to the largest
    [int]; and while it recovers, budgets between the baseline and the previous
    ones, the baseline itself in the last generation of the recovery. *)
Theorem mutation_budgets (b : MutationConfig.t) (status : TrainingPhaseStatus.t) (previous : EffectiveAdaptiveMutation.t)
    (config : EvolutionConfig.t) (control : AdaptiveMutationControlMode) :
  let before := EffectiveAdaptiveMutation.mutationConfig previous in
  let phase := AdaptiveMutation.adaptiveMutationPhaseResolve (TrainingPhaseStatus.phase status) control in
  let perturbations := MutationConfig.perturbationsPerOffspring in
  let resets := MutationConfig.resetsPerOffspring in
  int_range (perturbations b) -> int_range (resets b) -> int_range (perturbations before) -> int_range (resets before) ->
  int_range (TrainingPhaseStatus.recoveryLevel status) -> EvolutionConfig.recoveryWindowGenerations config < 2 ^ 31 ->
  not_nan (MutationConfig.sigma b) ->
  wp (AdaptiveMutation.adaptiveMutationResolve b status previous config control) (fun effective =>
    let after := EffectiveAdaptiveMutation.mutationConfig effective in
    int_range (perturbations after) /\ int_range (resets after) /\
    match phase with
    | Normal => effective = EffectiveAdaptiveMutation.mk Baseline b
    | Plateau =>
        EffectiveAdaptiveMutation.mode effective = Explore /\
        perturbations after = raised 3 50 (perturbations b) /\ resets after = raised 4 1 (resets b) /\
        fle (MutationConfig.sigma b) (MutationConfig.sigma after) = true
    | Stuck =>
        EffectiveAdaptiveMutation.mode effective = Rescue /\
        perturbations after = raised 5 150 (perturbations b) /\ resets after = raised 8 2 (resets b) /\
        fle (MutationConfig.sigma b) (MutationConfig.sigma after) = true
    | Recovery =>
        EffectiveAdaptiveMutation.mode effective = Recover /\
        perturbations b <= perturbations after <= Z.max (perturbations b) (perturbations before) /\
        resets b <= resets after <= Z.max (resets b) (resets before) /\
        (TrainingPhaseStatus.recoveryLevel status <= 1 ->
         perturbations after = perturbations b /\ resets after = resets b)
    end).
Proof.
  intros before phase perturbations resets Hp Hr Hp' Hr' Hl Hw Hs. destruct scales as (S3 & S4 & S5 & S8).
  assert (forall k inc v, 0 <= inc -> int_range v -> int_range (raised k inc v)) as Hraised
    by (unfold int_range, raised; intros; lia).
  unfold AdaptiveMutation.adaptiveMutationResolve. fold phase before. destruct phase.
  - by apply wp_ok.
  - unfold perturbations, resets in *.
    rewrite (scaledBudgetResolve_ok 3), (scaledBudgetResolve_ok 4) by done. cbn [rbind].
    apply wp_ok. cbn. rewrite !clamp_raised by done.
    split; [by apply Hraised |]. split; [by apply Hraised |]. by auto using sigma_raised.
  - unfold perturbations, resets in *.
    rewrite (scaledBudgetResolve_ok 5), (scaledBudgetResolve_ok 8) by done. cbn [rbind].
    apply wp_ok. cbn. rewrite !clamp_raised by done.
    split; [by apply Hraised |]. split; [by apply Hraised |]. by auto using sigma_raised.
  - apply wp_bind. eapply wp_mono; [apply recoveryBudgetResolve_ok; done |]. intros p [Hpb Hp1].
    apply wp_bind. eapply wp_mono; [apply recoveryBudgetResolve_ok; done |]. intros r [Hrb Hr1].
    unfold AdaptiveMutation.recoverySigmaResolve. rewrite int_result_ok by (unfold int_range in Hl; lia). cbn [rbind].
    unfold int_range, perturbations, resets in *.
    destruct (_ || _); cbn [rbind]; apply wp_ok; cbn; intuition lia.
Qed.

Example mutation_budgets_witness :
  wp (AdaptiveMutation.adaptiveMutationResolve MutationConfig.default (TrainingPhaseStatus.mk 7 3 1 0 Plateau)
        (EffectiveAdaptiveMutation.mk Baseline MutationConfig.default) EvolutionConfig.default ControlAuto)
     (fun effective =>
        let after := EffectiveAdaptiveMutation.mutationConfig effective in
        int_range (MutationConfig.perturbationsPerOffspring after) /\ int_range (MutationConfig.resetsPerOffspring after) /\
        EffectiveAdaptiveMutation.mode effective = Explore /\
        MutationConfig.perturbationsPerOffspring after = 300 /\ MutationConfig.resetsPerOffspring after = 2 /\
        fle (MutationConfig.sigma MutationConfig.default) (MutationConfig.sigma after) = true).
Proof.
  refine (mutation_budgets MutationConfig.default (TrainingPhaseStatus.mk 7 3 1 0 Plateau)
           (EffectiveAdaptiveMutation.mk Baseline MutationConfig.default) EvolutionConfig.default ControlAuto
           _ _ _ _ _ _ _); by vm_compute.
Defined.
