(* ===== verification/Mutation.v ===== *)
(** How an offspring's genome is mutated: [core/organisms/evolution/Mutation.{h,cpp}],
    [GenomeLayout.h].

    A fixed number of weights is reset and a fixed number perturbed; the
    perturbations are spread over the segments of the genome (the layers of the
    network). As in [Genomes], a weight is the 32-bit pattern of its [float]. The
    random engine, the distributions and [std::shuffle] are the classes of
    [StdModel]. *)

From Stdlib Require Import ZArith Lia Bool String.
From Stdlib Require Import SpecFloat.
From stdpp Require Import base option numbers list.
From S2P Require Import Prelude Ieee Genomes.
From S2P Require Import StdModel Training.

Set Default Goal Selector "!".

(** ** [float] and its bit pattern (every NaN is the default quiet one) *)
Definition f32_of_bits (w : Z) : f32 :=
  let s := Z.testbit w 31 in
  let e := Z.land (Z.shiftr w 23) 255 in
  let m := Z.land w (2 ^ 23 - 1) in
  if e =? 255 then (if m =? 0 then S754_infinity s else S754_nan)
  else
    match (if e =? 0 then m else m + 2 ^ 23) with
    | Zpos p => S754_finite s p (if e =? 0 then -149 else e - 150)
    | _ => S754_zero s
    end.

Definition bits_of_f32 (x : f32) : Z :=
  let sign (s : bool) := if s then 2 ^ 31 else 0 in
  match x with
  | S754_zero s => sign s
  | S754_infinity s => sign s + 255 * 2 ^ 23
  | S754_nan => 255 * 2 ^ 23 + 2 ^ 22
  | S754_finite s m e =>
      sign s + (if Zpos m <? 2 ^ 23 then Zpos m else (e + 150) * 2 ^ 23 + (Zpos m - 2 ^ 23))
  end.

(** ** [GenomeLayout.h] *)
Module GenomeSegment.
Record t := mk { name : string; size : Z }.
End GenomeSegment.

Module GenomeLayout.
Record t := mk { segments : list GenomeSegment.t }.

Definition totalSize (layout : t) : res Z :=
  foldl (fun total seg => let! total := total in int_result (total + GenomeSegment.size seg)) (Ok 0) (segments layout).
End GenomeLayout.

Module MutationStats.
Record t := mk { perturbations : Z; resets : Z }.
Definition totalChanges (s : t) : res Z := int_result (perturbations s + resets s).
End MutationStats.

Module Mutation.
Section Mutation.
Context {R D : Type} `{RE : !RandomEngine R, ND : !NormalDistribution R D, SH : !Shuffle R, UW : !UnorderedWalk,
         SS : !StdSort}.

Definition clampMutationCount (value maxValue : Z) : Z :=
  if (value <=? 0) || (maxValue =? 0) then 0
  else if maxValue <=? value then maxValue
  else value.

(** One turn of the loop of [sampleUniqueIndices]: draw in [0, j], and take [j]
    itself when the number drawn has been selected before. *)
Definition sample_turn (j : Z) (selected : list Z) (rng : R) : list Z * R :=
  let '(t, rng) := uniform_int 0 j rng in
  if decide (t ∈ selected) then ((if decide (j ∈ selected) then selected else j :: selected), rng)
  else (t :: selected, rng).

Fixpoint sample_loop (n : nat) (j : Z) (selected : list Z) (rng : R) : list Z * R :=
  match n with
  | O => (selected, rng)
  | S n => let '(selected, rng) := sample_turn j selected rng in sample_loop n (j + 1) selected rng
  end.

Definition sampleUniqueIndices (domainSize count : Z) (rng : R) : list Z * R :=
  let count := Z.min count domainSize in
  if (count =? 0) || (domainSize =? 0) then ([], rng)
  else
    let start := domainSize - count in
    let '(selected, rng) := sample_loop (Z.to_nat (domainSize - start)) start [] rng in
    shuffle (walk _ selected) rng.

(** *** [distributeBudget] *)

(** [for (int i = 0; i < floorTotal; ++i) alloc[i] = 1]. *)
Definition floor_loop (floorTotal : Z) (alloc : list Z) : res (list Z) :=
  for_range 0 floorTotal (fun i alloc => vec_set alloc i 1) alloc.

(** The share of each segment, in proportion to its size, and their sum. *)
Definition share_loop (layout : GenomeLayout.t) (remaining totalSize : Z) (alloc : list Z) : res (list Z * Z) :=
  for_range 0 (Z.of_nat (length alloc)) (fun i '(alloc, distributed) =>
    let! seg := vec_get (GenomeLayout.segments layout) i in
    let share := s32 (Z.quot (remaining * GenomeSegment.size seg) totalSize) in
    let! a := vec_get alloc i in
    let! a := int_result (a + share) in
    let! alloc := vec_set alloc i a in
    let! distributed := int_result (distributed + share) in
    Ok (alloc, distributed)) (alloc, 0).

(** [leftover] times one more, along [order]. *)
Fixpoint leftover_loop (order : list Z) (leftover : Z) (alloc : list Z) : res (list Z) :=
  match order with
  | [] => Ok alloc
  | i :: order =>
      if 0 <? leftover then
        let! a := vec_get alloc i in
        let! a := int_result (a + 1) in
        let! alloc := vec_set alloc i a in
        leftover_loop order (leftover - 1) alloc
      else Ok alloc
  end.

(** Segment indices, the largest segments first. *)
Definition size_order (layout : GenomeLayout.t) : list Z :=
  let size (i : Z) := GenomeSegment.size (nth (Z.to_nat i) (GenomeLayout.segments layout) (GenomeSegment.mk EmptyString 0)) in
  std_sort (fun a b => size b <? size a) (seqZ 0 (Z.of_nat (length (GenomeLayout.segments layout)))).

Definition distributeBudget (layout : GenomeLayout.t) (budget : Z) : res (list Z) :=
  let segmentCount := Z.of_nat (length (GenomeLayout.segments layout)) in
  let alloc := replicate (length (GenomeLayout.segments layout)) 0 in
  if (budget <=? 0) || (segmentCount =? 0) then Ok alloc
  else
    let floorTotal := Z.min budget segmentCount in
    let! alloc := floor_loop floorTotal alloc in
    let remaining := budget - floorTotal in
    if remaining <=? 0 then Ok alloc
    else
      let! totalSize := GenomeLayout.totalSize layout in
      if totalSize <=? 0 then Ok alloc
      else
        let! '(alloc, distributed) := share_loop layout remaining totalSize alloc in
        let leftover := remaining - distributed in
        if 0 <? leftover then leftover_loop (size_order layout) leftover alloc else Ok alloc.

(** *** [mutate] *)

(** The weights in [indices] are replaced by twice a draw of the noise. *)
Fixpoint reset_loop (indices : list Z) (weights : list Z) (noise : D) (rng : R) (resets : Z)
    : res (list Z * D * R * Z) :=
  match indices with
  | [] => Ok (weights, noise, rng, resets)
  | idx :: indices =>
      let '(x, (noise, rng)) := normal_draw noise rng in
      let! weights := vec_set weights idx (bits_of_f32 (f32_mul x (f32_of_Z 2))) in
      let! resets := int_result (resets + 1) in
      reset_loop indices weights noise rng resets
  end.

(** A draw of the noise is added to the weights in [indices] of a segment. *)
Fixpoint perturb_loop (indices : list Z) (segOffset : Z) (weights : list Z) (noise : D) (rng : R) (perturbations : Z)
    : res (list Z * D * R * Z) :=
  match indices with
  | [] => Ok (weights, noise, rng, perturbations)
  | localIdx :: indices =>
      let globalIdx := u64 (u64 segOffset + localIdx) in
      let '(x, (noise, rng)) := normal_draw noise rng in
      let! w := vec_get weights globalIdx in
      let! weights := vec_set weights globalIdx (bits_of_f32 (f32_add (f32_of_bits w) x)) in
      let! perturbations := int_result (perturbations + 1) in
      perturb_loop indices segOffset weights noise rng perturbations
  end.

(** The loop over the segments. *)
Fixpoint segment_loop (segments : list GenomeSegment.t) (budgets : list Z) (segOffset : Z) (weights : list Z)
    (noise : D) (rng : R) (perturbations : Z) : res (list Z * D * R * Z) :=
  match segments with
  | [] => Ok (weights, noise, rng, perturbations)
  | seg :: segments =>
      let segSize := GenomeSegment.size seg in
      let! segBudget := vec_front budgets in
      let! '(weights, noise, rng, perturbations) :=
        if (0 <? segBudget) && (0 <? segSize) then
          let '(indices, rng) := sampleUniqueIndices segSize segBudget rng in
          perturb_loop indices segOffset weights noise rng perturbations
        else Ok (weights, noise, rng, perturbations) in
      let! segOffset := int_result (segOffset + segSize) in
      segment_loop segments (tail budgets) segOffset weights noise rng perturbations
  end.

Definition mutate (parent : Genome.t) (config : MutationConfig.t) (layout : GenomeLayout.t) (rng : R)
    : res (Genome.t * R * MutationStats.t) :=
  let weights := Genome.weights parent in
  let noise := normal fzero (f64_to_f32 (MutationConfig.sigma config)) in
  let weightCount := Z.of_nat (length weights) in
  let resetCount := clampMutationCount (MutationConfig.resetsPerOffspring config) weightCount in
  let perturbCount := clampMutationCount (MutationConfig.perturbationsPerOffspring config) (weightCount - resetCount) in
  dirtsim_assert (negb (bool_decide (length (GenomeLayout.segments layout) = 0%nat)))
    "Mutation: layout must have segments" ;;!
  let! totalSize := GenomeLayout.totalSize layout in
  dirtsim_assert (totalSize =? s32 weightCount) "Mutation: layout totalSize must match genome weight count" ;;!
  let! '(weights, noise, rng, resets) :=
    if 0 <? resetCount then
      let '(resetIndices, rng) := sampleUniqueIndices weightCount resetCount rng in
      reset_loop resetIndices weights noise rng 0
    else Ok (weights, noise, rng, 0) in
  let! segBudgets := distributeBudget layout (s32 perturbCount) in
  let! '(weights, noise, rng, perturbations) :=
    segment_loop (GenomeLayout.segments layout) segBudgets 0 weights noise rng 0 in
  Ok (Genome.mk weights, rng, MutationStats.mk perturbations resets).
End Mutation.
End Mutation.
