(* ===== verification/MutationFacts.v ===== *)
(** What a mutation changes: as many distinct weights as the settings ask for,
    spread over the segments, and nothing else. *)

From Stdlib Require Import ZArith Lia Bool String.
From Stdlib Require Import SpecFloat.
From stdpp Require Import base option numbers list sorting.
From S2P Require Import Prelude Ieee Genomes.
From S2P Require Import StdModel Training Mutation.

Set Default Goal Selector "!".

(** ** Sums of integers *)
Definition zsum (l : list Z) : Z := foldr Z.add 0 l.

Lemma zsum_app l1 l2 : zsum (l1 ++ l2) = zsum l1 + zsum l2.
Proof. induction l1 as [| x l1 IH]; [done |]. cbn [app zsum foldr] in *. unfold zsum in *. cbn. lia. Qed.

Lemma zsum_replicate n : zsum (replicate n 0) = 0.
Proof. induction n as [| n IH]; [done |]. cbn. unfold zsum in IH. lia. Qed.

Lemma zsum_insert l i x y : l !! i = Some y -> zsum (<[i := x]> l) = zsum l + x - y.
Proof.
  intros H. rewrite (insert_take_drop l i x) by (by apply lookup_lt_Some in H).
  rewrite <- (take_drop_middle l i y H) at 3. rewrite !zsum_app. cbn. unfold zsum. lia.
Qed.

Lemma zsum_take_S l i x : l !! i = Some x -> zsum (take (S i) l) = zsum (take i l) + x.
Proof. intros H. rewrite (take_S_r _ _ _ H), zsum_app. cbn. lia. Qed.

Lemma zsum_nonneg l : Forall (Z.le 0) l -> 0 <= zsum l.
Proof. induction 1; cbn; [done |]. unfold zsum in *. lia. Qed.

Lemma zsum_take_le l i : Forall (Z.le 0) l -> 0 <= zsum (take i l) <= zsum l.
Proof.
  intros H. rewrite <- (take_drop i l) at 3. rewrite zsum_app.
  pose proof (zsum_nonneg (take i l) ltac:(by apply Forall_take)).
  pose proof (zsum_nonneg (drop i l) ltac:(by apply Forall_drop)). lia.
Qed.

Lemma zsum_elem_le l i x : Forall (Z.le 0) l -> l !! i = Some x -> 0 <= x <= zsum l.
Proof.
  intros H Hx. pose proof (zsum_take_le l (S i) H) as H1. rewrite (zsum_take_S l i x Hx) in H1.
  pose proof (zsum_take_le l i H). rewrite Forall_lookup in H. specialize (H i x Hx). lia.
Qed.

(** ** Distinct random indices *)
Section Sampling.
Context {R D : Type} `{RE : !RandomEngine R, RL : !RandomLaws R, ND : !NormalDistribution R D,
         SH : !Shuffle R, HL : !ShuffleLaws R, UW : !UnorderedWalk, UL : !UnorderedWalkLaws}.

(** Distinct indices below [n]. *)
Definition distinct_below (n : Z) (l : list Z) : Prop := NoDup l /\ forall i, i ∈ l -> 0 <= i < n.

Lemma sample_turn_distinct j selected (rng : R) :
  0 <= j -> distinct_below j selected ->
  let '(selected', _) := Mutation.sample_turn j selected rng in
  distinct_below (j + 1) selected' /\ length selected' = S (length selected).
Proof.
  intros Hj [Hnd Hin]. unfold Mutation.sample_turn. pose proof (uniform_range 0 j rng Hj) as Hu.
  destruct (uniform_int 0 j rng) as [t rng']. cbn [fst] in Hu.
  assert (j ∉ selected) as Hjs by (intros H; apply Hin in H; lia).
  destruct (decide (t ∈ selected)); [rewrite decide_False by done |].
  all: split; [split; [by constructor |] | done]; intros i; rewrite elem_of_cons; intros [-> | Hi]; [lia |];
    apply Hin in Hi; lia.
Qed.

Lemma sample_loop_distinct n j selected (rng : R) :
  0 <= j -> distinct_below j selected ->
  let '(selected', _) := Mutation.sample_loop n j selected rng in
  distinct_below (j + Z.of_nat n) selected' /\ length selected' = (length selected + n)%nat.
Proof.
  revert j selected rng. induction n as [| n IH]; intros j selected rng Hj Hs; cbn [Mutation.sample_loop].
  - rewrite Z.add_0_r, Nat.add_0_r. done.
  - pose proof (sample_turn_distinct j selected rng Hj Hs) as H.
    destruct (Mutation.sample_turn j selected rng) as [sel rng']. destruct H as [Hd Hl].
    specialize (IH (j + 1) sel rng' ltac:(lia) Hd). destruct (Mutation.sample_loop n (j + 1) sel rng') as [sel' rng''].
    destruct IH as [Hd' Hl']. replace (j + Z.of_nat (S n)) with (j + 1 + Z.of_nat n) by lia. split; [done | lia].
Qed.

(** Floyd's sampling: as many distinct indices as asked, if there are as many. *)
Lemma sampleUniqueIndices_distinct domain count (rng : R) :
  0 <= domain -> 0 <= count ->
  let '(indices, _) := Mutation.sampleUniqueIndices domain count rng in
  distinct_below domain indices /\ Z.of_nat (length indices) = Z.min count domain.
Proof.
  intros Hd Hc. unfold Mutation.sampleUniqueIndices.
  destruct (Z.eqb_spec (Z.min count domain) 0), (Z.eqb_spec domain 0); cbn [orb];
    try (split; [split; [constructor | by intros i Hi%elem_of_nil] | cbn; lia]).
  set (start := domain - Z.min count domain).
  pose proof (sample_loop_distinct (Z.to_nat (domain - start)) start [] rng ltac:(lia)) as H.
  assert (distinct_below start []) as H0 by (split; [constructor | by intros i Hi%elem_of_nil]).
  specialize (H H0). destruct (Mutation.sample_loop _ start [] rng) as [sel rng']. destruct H as [ [Hnd Hin] Hl].
  pose proof (shuffle_perm (walk _ sel) rng') as Hp.
  destruct (shuffle (walk _ sel) rng') as [indices rng'']. cbn [fst] in Hp. rewrite walk_perm in Hp. split; [split |].
  - by rewrite Hp.
  - intros i. rewrite Hp. intros Hi. apply Hin in Hi. lia.
  - rewrite Hp, Hl. cbn. lia.
Qed.
End Sampling.

(** ** The budgets of the segments *)
Section Budget.
Context `{SS : !StdSort, SL : !StdSortLaws}.
Implicit Types (layout : GenomeLayout.t) (alloc : list Z).

Definition sizes layout : list Z := map GenomeSegment.size (GenomeLayout.segments layout).

(** Segments of non-negative sizes whose sum is an [int]. *)
Record layout_wf layout : Prop := {
  layout_sizes : Forall (Z.le 0) (sizes layout);
  layout_total : zsum (sizes layout) < 2 ^ 31
}.

Lemma totalSize_from segs acc :
  Forall (Z.le 0) (map GenomeSegment.size segs) -> 0 <= acc -> acc + zsum (map GenomeSegment.size segs) < 2 ^ 31 ->
  foldl (fun total seg => let! total := total in int_result (total + GenomeSegment.size seg)) (Ok acc) segs
  = Ok (acc + zsum (map GenomeSegment.size segs)).
Proof.
  revert acc. induction segs as [| seg segs IH]; intros acc Hs Hacc Ht; cbn [map foldl zsum foldr] in *.
  - by rewrite Z.add_0_r.
  - apply Forall_cons in Hs as [Hseg Hs]. pose proof (zsum_nonneg _ Hs) as Hn. unfold zsum in Ht, Hn.
    cbn [rbind]. rewrite int_result_ok by lia. rewrite IH; [unfold zsum; f_equal; lia | done | lia | unfold zsum; lia].
Qed.

Lemma totalSize_ok layout : layout_wf layout -> GenomeLayout.totalSize layout = Ok (zsum (sizes layout)).
Proof. intros [Hs Ht]. by apply totalSize_from. Qed.

(** *** What the budgets are *)
Definition size_at layout (k : nat) : Z := nth k (sizes layout) 0.
(** One for each of the first [budget] segments ... *)
Definition floor_part (budget : Z) (k : nat) : Z := if Z.of_nat k <? budget then 1 else 0.
Lemma floor_part_cases budget k :
  Z.of_nat k < budget /\ floor_part budget k = 1 \/ budget <= Z.of_nat k /\ floor_part budget k = 0.
Proof. unfold floor_part. destruct (Z.ltb_spec (Z.of_nat k) budget); auto. Qed.

(** ... and of what is left the proportion of the segment's size, rounded down. *)
Definition share_part layout (remaining : Z) (k : nat) : Z := remaining * size_at layout k / zsum (sizes layout).

(** The whole budget is given out: the two parts, and one more to the largest
    segments, as many as makes the sum right. *)
Record apportioned layout (budget : Z) alloc : Prop := mkApportioned {
  ap_sum : zsum alloc = Z.max 0 budget;
  ap_parts : let remaining := Z.max 0 (budget - Z.of_nat (length (sizes layout))) in
    exists extra : nat -> bool,
      (forall k a, alloc !! k = Some a ->
         a = floor_part budget k + share_part layout remaining k + (if extra k then 1 else 0)) /\
      (forall i j, (i < length (sizes layout))%nat -> (j < length (sizes layout))%nat ->
         extra i = true -> extra j = false -> size_at layout j <= size_at layout i)
}.

(** Allocations: non-negative, at least one in each of the first [n] segments. *)
Definition alloc_ok (count : nat) (n : Z) alloc : Prop :=
  length alloc = count /\ forall k a, alloc !! k = Some a -> 0 <= a /\ (Z.of_nat k < n -> 1 <= a).

Lemma alloc_ok_insert count n alloc k a b :
  alloc_ok count n alloc -> alloc !! k = Some a -> a <= b -> alloc_ok count n (<[k := b]> alloc).
Proof.
  intros [Hl Ha] Hk Hb. split; [by rewrite length_insert |]. intros k' a' H. destruct (decide (k = k')) as [<- | Hne].
  - rewrite list_lookup_insert_eq in H by (by apply lookup_lt_Some in Hk). injection H as <-.
    specialize (Ha k a Hk). lia.
  - rewrite list_lookup_insert_ne in H by done. by apply Ha.
Qed.

Lemma floor_loop_ok count floorTotal :
  0 <= floorTotal <= Z.of_nat count ->
  wp (Mutation.floor_loop floorTotal (replicate count 0))
     (fun alloc => alloc_ok count floorTotal alloc /\ zsum alloc = floorTotal /\
        forall k a, alloc !! k = Some a -> a = floor_part floorTotal k).
Proof.
  intros Hf. unfold Mutation.floor_loop.
  set (I := fun (i : Z) alloc => alloc_ok count i alloc /\ zsum alloc = i /\
         forall k a, alloc !! k = Some a -> a = floor_part i k).
  eapply wp_mono; [apply (wp_for_range I) | done]; [lia | |].
  - split; [split; [apply length_replicate |] | split; [apply zsum_replicate |] ];
      intros k a [-> _]%lookup_replicate; [lia | destruct (floor_part_cases 0 k); lia].
  - intros i alloc Hi (Hok & Hsum & Hrest). pose proof (proj1 Hok) as Hl.
    destruct (in_range_lookup alloc i ltac:(lia)) as [a Ha].
    assert (a = 0) as -> by (rewrite (Hrest _ _ Ha); destruct (floor_part_cases i (Z.to_nat i)); lia).
    apply wp_vec_set; [lia |]. split; [| split].
    + destruct Hok as [_ Hok]. split; [by rewrite length_insert |]. intros k b Hb. destruct (decide (Z.to_nat i = k)) as [<- | Hne].
      * rewrite list_lookup_insert_eq in Hb by lia. injection Hb as <-. lia.
      * rewrite list_lookup_insert_ne in Hb by done. specialize (Hok k b Hb). lia.
    + rewrite (zsum_insert _ _ _ _ Ha). lia.
    + intros k b Hb. destruct (floor_part_cases (i + 1) k), (floor_part_cases i k), (decide (Z.to_nat i = k)) as [<- | Hne].
      all: try (rewrite list_lookup_insert_eq in Hb by lia; injection Hb as <-; lia).
      all: rewrite list_lookup_insert_ne in Hb by done; specialize (Hrest k b Hb); lia.
Qed.

(** The shares add up to no more than the remainder, and to less than one per
    segment below it. *)
Lemma share_loop_ok layout remaining n alloc :
  layout_wf layout -> 0 < zsum (sizes layout) -> 0 < remaining -> alloc_ok (length (sizes layout)) n alloc ->
  zsum alloc + remaining < 2 ^ 31 ->
  wp (Mutation.share_loop layout remaining (zsum (sizes layout)) alloc)
     (fun '(alloc', distributed) => alloc_ok (length (sizes layout)) n alloc' /\ zsum alloc' = zsum alloc + distributed /\
        0 <= remaining - distributed <= Z.of_nat (length (sizes layout)) /\
        forall k a, alloc !! k = Some a -> alloc' !! k = Some (a + share_part layout remaining k)).
Proof.
  intros [Hs Ht] Htot Hrem Hok Hlt. unfold Mutation.share_loop. rewrite (proj1 Hok).
  assert (0 <= zsum alloc) as H0 by (apply zsum_nonneg, Forall_lookup; intros k y Hk; by apply (proj2 Hok) in Hk as [? _]).
  set (total := zsum (sizes layout)) in *.
  eapply wp_mono; [apply (wp_for_range (fun i (st : list Z * Z) => alloc_ok (length (sizes layout)) n (fst st) /\
    zsum (fst st) = zsum alloc + snd st /\ 0 <= snd st /\
    snd st * total <= remaining * zsum (take (Z.to_nat i) (sizes layout)) <= snd st * total + i * total /\
    forall k a, alloc !! k = Some a ->
      fst st !! k = Some (a + if Z.of_nat k <? i then share_part layout remaining k else 0))) |]; [lia | | |].
  - cbn [fst snd]. change (Z.to_nat 0) with 0%nat. rewrite take_0. cbn [zsum foldr]. split; [done |].
    split; [lia |]. split; [lia |]. split; [lia |]. intros k a ->. f_equal. destruct (Z.ltb_spec (Z.of_nat k) 0); lia.
  - intros i [a d] Hi (Ha & Hsum & Hd & Hb & Hv). cbn [fst snd] in *. pose proof (proj1 Ha) as Hla.
    assert (length (GenomeLayout.segments layout) = length (sizes layout)) as Hseg by (by unfold sizes; rewrite length_map).
    apply wp_bind, wp_vec_get; [lia |]. intros seg Hseg'.
    assert (sizes layout !! Z.to_nat i = Some (GenomeSegment.size seg)) as Hsz by (unfold sizes; by rewrite list_lookup_fmap, Hseg').
    pose proof (zsum_elem_le _ _ _ Hs Hsz) as Hsb. pose proof (zsum_take_le (sizes layout) (S (Z.to_nat i)) Hs) as Htk.
    rewrite (zsum_take_S _ _ _ Hsz) in Htk. fold total in Hsb, Htk.
    pose proof (Z.quot_div_nonneg (remaining * GenomeSegment.size seg) total ltac:(nia) ltac:(lia)) as ->.
    set (share := remaining * GenomeSegment.size seg / total).
    pose proof (Z.mul_div_le (remaining * GenomeSegment.size seg) total ltac:(lia)) as Hs1.
    pose proof (Z.mul_succ_div_gt (remaining * GenomeSegment.size seg) total ltac:(lia)) as Hs2. fold share in Hs1, Hs2.
    assert (0 <= share) as Hs0 by (apply Z.div_pos; nia).
    assert (d + share <= remaining) as Hdr by nia.
    rewrite wrap_s_small by lia.
    apply wp_bind, wp_vec_get; [lia |]. intros x Hx.
    assert (Forall (Z.le 0) a) as Hnn by (apply Forall_lookup; intros k y Hk; by apply (proj2 Ha) in Hk as [? _]).
    pose proof (zsum_elem_le a _ _ Hnn Hx) as Hxb. rewrite int_result_ok by lia. cbn [rbind]. apply wp_bind, wp_vec_set; [lia |].
    rewrite int_result_ok by lia. cbn [rbind]. apply wp_ok. split; [eapply alloc_ok_insert; [done.. | lia] |]. cbn [fst snd].
    rewrite (zsum_insert _ _ _ _ Hx). split; [lia |]. split; [lia |].
    replace (Z.to_nat (i + 1)) with (S (Z.to_nat i)) by lia. rewrite (zsum_take_S _ _ _ Hsz). split; [nia |].
    intros k y Hy. pose proof (Hv k y Hy) as Hk. destruct (decide (Z.to_nat i = k)) as [<- | Hki].
    + rewrite list_lookup_insert_eq by lia. rewrite Hx in Hk. injection Hk as ->.
      assert (share_part layout remaining (Z.to_nat i) = share) as -> by (unfold share_part, size_at; by rewrite (nth_lookup_Some _ _ _ _ Hsz)).
      rewrite (proj2 (Z.ltb_ge _ _)), (proj2 (Z.ltb_lt _ _)) by lia. f_equal. lia.
    + rewrite list_lookup_insert_ne by done. rewrite Hk. do 2 f_equal. destruct (Z.ltb_spec (Z.of_nat k) i), (Z.ltb_spec (Z.of_nat k) (i + 1)); lia.
  - intros [a d] (Ha & Hsum & Hd & Hb & Hv). cbn [fst snd] in *. rewrite Nat2Z.id, firstn_all in Hb. fold total in Hb.
    split; [done |]. split; [done |]. split; [nia |]. intros k y Hy. rewrite (Hv k y Hy).
    apply lookup_lt_Some in Hy. rewrite (proj1 Hok) in Hy. by rewrite (proj2 (Z.ltb_lt _ _)) by lia.
Qed.

Lemma leftover_loop_ok count n order leftover alloc :
  alloc_ok count n alloc -> zsum alloc + leftover < 2 ^ 31 -> 0 <= leftover <= Z.of_nat (length order) ->
  NoDup order -> (forall i, i ∈ order -> 0 <= i < Z.of_nat count) ->
  wp (Mutation.leftover_loop order leftover alloc) (fun alloc' => alloc_ok count n alloc' /\ zsum alloc' = zsum alloc + leftover /\
    forall k a, alloc !! k = Some a ->
      alloc' !! k = Some (a + if bool_decide (Z.of_nat k ∈ take (Z.to_nat leftover) order) then 1 else 0)).
Proof.
  revert leftover alloc. induction order as [| i order IH]; intros leftover alloc Hok Hlt Hle Hnd Hin; cbn [Mutation.leftover_loop].
  - apply wp_ok. cbn in Hle. split; [done |]. split; [lia |]. intros k a ->. by rewrite take_nil, Z.add_0_r.
  - destruct (Z.ltb_spec 0 leftover).
    2:{ apply wp_ok. split; [done |]. split; [lia |]. intros k a ->. replace leftover with 0 by lia. by rewrite Z.add_0_r. }
    cbn [length] in Hle. apply NoDup_cons in Hnd as [Hni Hnd].
    specialize (Hin i ltac:(left)) as Hi. apply wp_bind, wp_vec_get; [rewrite (proj1 Hok); lia |]. intros x Hx.
    assert (Forall (Z.le 0) alloc) as Hnn by (apply Forall_lookup; intros k y Hk; by apply (proj2 Hok) in Hk as [? _]).
    pose proof (zsum_elem_le alloc _ _ Hnn Hx). rewrite int_result_ok by lia. cbn [rbind].
    apply wp_bind, wp_vec_set; [rewrite (proj1 Hok); lia |].
    eapply wp_mono; [apply IH; [| | lia | done |] |].
    + eapply alloc_ok_insert; [done.. | lia].
    + rewrite (zsum_insert _ _ _ _ Hx). lia.
    + intros j Hj. apply Hin. by right.
    + cbn. intros alloc' (H1 & H2 & H3). rewrite (zsum_insert _ _ _ _ Hx) in H2. split; [done |]. split; [lia |]. intros k a Hk.
      replace (Z.to_nat leftover) with (S (Z.to_nat (leftover - 1))) by lia. cbn [take].
      destruct (decide (Z.to_nat i = k)) as [<- | Hne].
      * rewrite Hx in Hk. injection Hk as <-. rewrite (H3 _ (x + 1)) by (rewrite list_lookup_insert_eq; [done | rewrite (proj1 Hok); lia]).
        rewrite Z2Nat.id by lia. rewrite bool_decide_false by (intros Hk%elem_of_take; destruct Hk as (j & Hj & _); by apply Hni, list_elem_of_lookup_2 with j).
        rewrite bool_decide_true by (by left). f_equal. lia.
      * rewrite (H3 k a) by (by rewrite list_lookup_insert_ne).
        assert (Z.of_nat k <> i) as Hki by lia.
        by rewrite (bool_decide_ext (Z.of_nat k ∈ i :: take (Z.to_nat (leftover - 1)) order) (Z.of_nat k ∈ take (Z.to_nat (leftover - 1)) order))
          by (rewrite elem_of_cons; naive_solver).
Qed.

Lemma size_order_perm layout : Mutation.size_order layout ≡ₚ seqZ 0 (Z.of_nat (length (GenomeLayout.segments layout))).
Proof. unfold Mutation.size_order. apply std_sort_perm, key_strict_weak_order. Qed.

(** The leftovers go to the largest segments. *)
Lemma size_order_largest layout n (i j : nat) :
  (j < length (sizes layout))%nat ->
  Z.of_nat i ∈ take n (Mutation.size_order layout) -> Z.of_nat j ∉ take n (Mutation.size_order layout) ->
  size_at layout j <= size_at layout i.
Proof.
  intros Hj Hi Hnj. pose proof (size_order_perm layout) as Hp.
  assert (Z.of_nat j ∈ Mutation.size_order layout) as Hjo
    by (rewrite Hp, elem_of_seqZ; unfold sizes in Hj; rewrite length_map in Hj; lia).
  rewrite <- (take_drop n (Mutation.size_order layout)), elem_of_app in Hjo. destruct Hjo as [| Hjo]; [done |].
  assert (forall k, GenomeSegment.size (nth k (GenomeLayout.segments layout) (GenomeSegment.mk EmptyString 0)) = size_at layout k) as Hsz.
  { intros k. unfold size_at, sizes. change 0 with (GenomeSegment.size (GenomeSegment.mk EmptyString 0)). by rewrite map_nth. }
  assert (StronglySorted (fun a b : Z => (size_at layout (Z.to_nat a) <? size_at layout (Z.to_nat b)) = false) (Mutation.size_order layout)) as Hso.
  { set (size := fun i => GenomeSegment.size (nth (Z.to_nat i) (GenomeLayout.segments layout) (GenomeSegment.mk EmptyString 0))).
    assert (StronglySorted (fun a b : Z => (size a <? size b) = false) (Mutation.size_order layout)) as H
      by exact (std_sort_sorted _ _ _ (key_strict_weak_order size _)).
    clear -H Hsz. induction H as [| a l _ IH HF]; [constructor |]. constructor; [done |].
    eapply Forall_impl; [exact HF |]. cbn. intros b. unfold size. by rewrite !Hsz. }
  rewrite <- (take_drop n (Mutation.size_order layout)) in Hso.
  pose proof (StronglySorted_app_1_elem_of _ _ _ _ _ Hso Hi Hjo) as H. cbn in H. rewrite !Nat2Z.id in H. lia.
Qed.

(** The budget is spent in full, as it should be, and every segment gets one when
    it suffices. *)
Lemma distributeBudget_ok layout budget :
  layout_wf layout -> budget <= zsum (sizes layout) ->
  wp (Mutation.distributeBudget layout budget)
     (fun alloc => alloc_ok (length (sizes layout)) budget alloc /\ apportioned layout budget alloc).
Proof.
  intros Hwf Hb. pose proof Hwf as [Hs Ht]. unfold Mutation.distributeBudget.
  assert (length (GenomeLayout.segments layout) = length (sizes layout)) as Hseg by (by unfold sizes; rewrite length_map).
  rewrite Hseg. set (count := length (sizes layout)) in *.
  destruct (Z.leb_spec budget 0); cbn [orb].
  { apply wp_ok. split; [split; [apply length_replicate |]; intros k a [-> _]%lookup_replicate; lia |].
    split; [rewrite zsum_replicate; lia |]. rewrite Z.max_l by lia. exists (fun _ => false). split; [| done].
    intros k a [-> _]%lookup_replicate. unfold share_part. rewrite Zdiv_0_l. destruct (floor_part_cases budget k); lia. }
  destruct (Z.eqb_spec (Z.of_nat count) 0) as [Hc |].
  { exfalso. unfold count in Hc. destruct (sizes layout); cbn in *; lia. }
  set (floorTotal := Z.min budget (Z.of_nat count)).
  apply wp_bind. eapply wp_mono; [apply floor_loop_ok; lia |]. intros alloc (Hok & Hsum & Hfl).
  assert (forall k a, alloc !! k = Some a -> a = floor_part budget k) as Hfloor.
  { intros k a Hk. rewrite (Hfl k a Hk). apply lookup_lt_Some in Hk. rewrite (proj1 Hok) in Hk. destruct (floor_part_cases budget k), (floor_part_cases floorTotal k); lia. }
  assert (alloc_ok count budget alloc) as Hok'.
  { split; [apply Hok |]. intros k a Hk. pose proof (Hfloor k a Hk). apply (proj2 Hok) in Hk. split; [lia |]. destruct (floor_part_cases budget k); lia. }
  destruct (Z.leb_spec (budget - floorTotal) 0).
  { apply wp_ok. split; [done |]. split; [lia |]. fold count. rewrite Z.max_l by lia. exists (fun _ => false). split; [| done].
    intros k a Hk. rewrite (Hfloor k a Hk). unfold share_part. rewrite Zdiv_0_l. cbn. lia. }
  rewrite totalSize_ok by done. cbn [rbind]. destruct (Z.leb_spec (zsum (sizes layout)) 0); [lia |].
  apply wp_bind. eapply wp_mono; [apply share_loop_ok; try done; lia |]. intros [a d] (Ha & Hsa & Hd & Hv). fold count in Ha, Hd.
  replace (budget - floorTotal) with (Z.max 0 (budget - Z.of_nat count)) in * by lia. set (remaining := Z.max 0 _) in *.
  assert (forall k x, a !! k = Some x -> x = floor_part budget k + share_part layout remaining k) as Hpart.
  { intros k x Hx. destruct (lookup_lt_is_Some_2 alloc k) as [y Hy].
    { rewrite (proj1 Hok). apply lookup_lt_Some in Hx. by rewrite (proj1 Ha) in Hx. }
    rewrite (Hv k y Hy) in Hx. injection Hx as <-. by rewrite (Hfloor k y Hy). }
  destruct (Z.ltb_spec 0 (remaining - d)).
  2:{ apply wp_ok. split; [done |]. split; [lia |]. exists (fun _ => false). split; [| done].
      intros k x Hx. rewrite (Hpart k x Hx). by rewrite Z.add_0_r. }
  pose proof (size_order_perm layout) as Hp. rewrite Hseg in Hp. fold count in Hp.
  eapply wp_mono; [apply (leftover_loop_ok count budget); [done | lia | | |] |].
  - rewrite Hp, length_seqZ. lia.
  - rewrite Hp. apply NoDup_seqZ.
  - intros i. rewrite Hp, elem_of_seqZ. lia.
  - intros a' (Ha' & Hs' & Hl'). split; [done |]. split; [lia |]. fold count remaining.
    exists (fun k => bool_decide (Z.of_nat k ∈ take (Z.to_nat (remaining - d)) (Mutation.size_order layout))). split.
    + intros k x Hx. destruct (lookup_lt_is_Some_2 a k) as [y Hy].
      { rewrite (proj1 Ha). apply lookup_lt_Some in Hx. by rewrite (proj1 Ha') in Hx. }
      rewrite (Hl' k y Hy) in Hx. injection Hx as <-. by rewrite (Hpart k y Hy).
    + intros i j _ Hj Hi%bool_decide_eq_true Hnj%bool_decide_eq_false. by eapply size_order_largest.
Qed.
End Budget.

(** ** Touching weights *)
Section Touch.
Context {R D : Type} `{RE : !RandomEngine R, RL : !RandomLaws R, ND : !NormalDistribution R D,
         SH : !Shuffle R, HL : !ShuffleLaws R, UW : !UnorderedWalk, UL : !UnorderedWalkLaws}.

(** *** Noise *)

(** The states the normal distribution goes through from its construction, and
    what it can give. *)
Inductive noise_state (sigma : f32) : D -> Prop :=
  | noise_start : noise_state sigma (normal fzero sigma)
  | noise_next d (rng : R) : noise_state sigma d -> noise_state sigma (fst (snd (normal_draw d rng))).

Definition noise_of (sigma x : f32) : Prop := exists d (rng : R), noise_state sigma d /\ x = fst (normal_draw d rng).

(** A reset weight is twice a draw of the noise; a perturbed one has it added. *)
Definition is_reset (sigma : f32) (_ w' : Z) : Prop :=
  exists x, noise_of sigma x /\ w' = bits_of_f32 (f32_mul x (f32_of_Z 2)).
Definition is_perturbed (sigma : f32) (w w' : Z) : Prop :=
  exists x, noise_of sigma x /\ w' = bits_of_f32 (f32_add (f32_of_bits w) x).

Lemma normal_draw_noise sigma d (rng : R) x d' rng' :
  noise_state sigma d -> normal_draw d rng = (x, (d', rng')) -> noise_of sigma x /\ noise_state sigma d'.
Proof.
  intros Hd E. split; [exists d, rng; by rewrite E |]. pose proof (noise_next sigma d rng Hd) as H. by rewrite E in H.
Qed.

(** *** What a loop does to the weights *)

(** Each touched weight is changed as [f] says, and no other. *)
Definition rewritten (f : Z -> Z -> Prop) (touched : list Z) (weights weights' : list Z) : Prop :=
  length weights' = length weights /\
  forall k w, weights !! k = Some w ->
    exists w', weights' !! k = Some w' /\ if decide (Z.of_nat k ∈ touched) then f w w' else w' = w.

Lemma rewritten_refl f weights : rewritten f [] weights weights.
Proof.
  split; [done |]. intros k w Hw. exists w. split; [done |]. by rewrite decide_False by apply not_elem_of_nil.
Qed.

Lemma rewritten_app f t1 t2 w1 w2 w3 :
  (forall x, x ∈ t1 -> x ∉ t2) -> rewritten f t1 w1 w2 -> rewritten f t2 w2 w3 -> rewritten f (t1 ++ t2) w1 w3.
Proof.
  intros Hd [L1 H1] [L2 H2]. split; [congruence |]. intros k w Hw.
  destruct (H1 k w Hw) as (v & Hv & F1). destruct (H2 k v Hv) as (w' & Hw' & F2). exists w'. split; [done |].
  destruct (decide (Z.of_nat k ∈ t1)) as [Ht |].
  - rewrite decide_True by (rewrite elem_of_app; by left). rewrite decide_False in F2 by by apply Hd. by subst.
  - subst v. destruct (decide (Z.of_nat k ∈ t2)).
    + by rewrite decide_True by (rewrite elem_of_app; by right).
    + by rewrite decide_False by (rewrite elem_of_app; tauto).
Qed.

Lemma rewritten_set (f : Z -> Z -> Prop) i weights w w' :
  0 <= i -> weights !! Z.to_nat i = Some w -> f w w' -> rewritten f [i] weights (<[Z.to_nat i := w']> weights).
Proof.
  intros Hi Hw Hf. split; [apply length_insert |]. intros k v Hv. destruct (decide (Z.to_nat i = k)) as [<- | Hne].
  - exists w'. rewrite list_lookup_insert_eq by (by apply lookup_lt_Some in Hw). split; [done |].
    rewrite decide_True by (rewrite Z2Nat.id by done; by left). congruence.
  - exists v. rewrite list_lookup_insert_ne by done. split; [done |].
    rewrite decide_False; [done |]. rewrite list_elem_of_singleton. lia.
Qed.

Lemma reset_loop_ok sigma indices weights (noise : D) (rng : R) resets :
  NoDup indices -> (forall i, i ∈ indices -> 0 <= i < Z.of_nat (length weights)) -> noise_state sigma noise ->
  0 <= resets -> resets + Z.of_nat (length indices) < 2 ^ 31 ->
  wp (Mutation.reset_loop indices weights noise rng resets)
     (fun '(weights', noise', _, resets') => noise_state sigma noise' /\
        rewritten (is_reset sigma) indices weights weights' /\ resets' = resets + Z.of_nat (length indices)).
Proof.
  intros Hnd. revert weights noise rng resets.
  induction Hnd as [| i indices Hi' Hnd IH]; intros weights noise rng resets Hin Hns Hr Hlt; cbn [Mutation.reset_loop].
  - apply wp_ok. split; [done |]. split; [apply rewritten_refl | cbn; lia].
  - destruct (normal_draw noise rng) as [x [noise' rng'] ] eqn:E. cbn [length] in Hlt.
    destruct (normal_draw_noise sigma noise rng x noise' rng' Hns E) as [Hx Hns'].
    specialize (Hin i ltac:(left)) as Hi. apply wp_bind, wp_vec_set; [done |].
    rewrite int_result_ok by lia. cbn [rbind]. destruct (in_range_lookup weights i Hi) as [w Hw].
    eapply wp_mono; [apply IH; [intros j Hj; rewrite length_insert; apply Hin; by right | done | lia | lia] |].
    intros [ [ [w' n] r] k] (Hn & Hw' & ->). split; [done |]. split; [| cbn [length]; lia].
    apply (rewritten_app _ [i] _ _ (<[Z.to_nat i := bits_of_f32 (f32_mul x (f32_of_Z 2))]> weights)); [| | done].
    + by intros j ->%list_elem_of_singleton.
    + apply (rewritten_set _ i weights w); [lia | done |]. by exists x.
Qed.

Lemma perturb_loop_ok sigma indices off weights (noise : D) (rng : R) perturbations :
  NoDup indices -> (forall i, i ∈ indices -> 0 <= i /\ off + i < Z.of_nat (length weights)) -> noise_state sigma noise ->
  0 <= off -> Z.of_nat (length weights) < 2 ^ 31 ->
  0 <= perturbations -> perturbations + Z.of_nat (length indices) < 2 ^ 31 ->
  wp (Mutation.perturb_loop indices off weights noise rng perturbations)
     (fun '(weights', noise', _, perturbations') => noise_state sigma noise' /\
        rewritten (is_perturbed sigma) (map (Z.add off) indices) weights weights' /\
        perturbations' = perturbations + Z.of_nat (length indices)).
Proof.
  intros Hnd. revert weights noise rng perturbations.
  induction Hnd as [| i indices Hi' Hnd IH]; intros weights noise rng perturbations Hin Hns Hoff Hw Hp Hlt; cbn [Mutation.perturb_loop].
  - apply wp_ok. split; [done |]. split; [apply rewritten_refl | cbn; lia].
  - specialize (Hin i ltac:(left)) as Hi. cbn [length] in Hlt. rewrite !wrap_u_small by (rewrite ?wrap_u_small; lia).
    destruct (normal_draw noise rng) as [x [noise' rng'] ] eqn:E.
    destruct (normal_draw_noise sigma noise rng x noise' rng' Hns E) as [Hx Hns'].
    apply wp_bind, wp_vec_get; [lia |]. intros y Hy.
    apply wp_bind, wp_vec_set; [lia |]. rewrite int_result_ok by lia. cbn [rbind].
    eapply wp_mono; [apply IH; try (rewrite length_insert; done); try lia; try done; intros j Hj; rewrite length_insert; apply Hin; by right |].
    intros [ [ [w n] r] k] (Hn & Hs & ->). split; [done |]. split; [| cbn [length]; lia].
    apply (rewritten_app _ [off + i] _ _ (<[Z.to_nat (off + i) := bits_of_f32 (f32_add (f32_of_bits y) x)]> weights)); [| | done].
    + intros j' ->%list_elem_of_singleton (j & ? & Hj)%list_elem_of_fmap. assert (i = j) as <- by lia. done.
    + apply (rewritten_set _ (off + i) weights y); [lia | done |]. by exists x.
Qed.

(** *** How many weights of each segment *)
Definition count_in (lo hi : Z) (l : list Z) : Z := Z.of_nat (length (filter (fun x => lo <= x < hi) l)).

Lemma count_in_app lo hi l1 l2 : count_in lo hi (l1 ++ l2) = count_in lo hi l1 + count_in lo hi l2.
Proof. unfold count_in. rewrite filter_app, length_app. lia. Qed.

Lemma count_in_all lo hi l : (forall x, x ∈ l -> lo <= x < hi) -> count_in lo hi l = Z.of_nat (length l).
Proof.
  intros H. unfold count_in. f_equal. induction l as [| x l IH]; [done |].
  rewrite filter_cons_True by (apply H; by left). cbn [length]. rewrite IH; [done |]. intros y Hy. apply H. by right.
Qed.

Lemma count_in_none lo hi l : (forall x, x ∈ l -> ~ (lo <= x < hi)) -> count_in lo hi l = 0.
Proof.
  intros H. unfold count_in. induction l as [| x l IH]; [done |].
  rewrite filter_cons_False by (apply H; by left). apply IH. intros y Hy. apply H. by right.
Qed.

(** Every segment has as many weights touched as its budget says, up to its size. *)
Definition spread (segments : list GenomeSegment.t) (budgets : list Z) (off : Z) (touched : list Z) : Prop :=
  forall i seg b, segments !! i = Some seg -> budgets !! i = Some b ->
    let start := off + zsum (take i (map GenomeSegment.size segments)) in
    count_in start (start + GenomeSegment.size seg) touched = Z.min b (GenomeSegment.size seg).

Lemma spread_cons seg segments b budgets off t1 t2 :
  Forall (Z.le 0) (map GenomeSegment.size (seg :: segments)) ->
  (forall x, x ∈ t1 -> off <= x < off + GenomeSegment.size seg) -> Z.of_nat (length t1) = Z.min b (GenomeSegment.size seg) ->
  (forall x, x ∈ t2 -> off + GenomeSegment.size seg <= x) ->
  spread segments budgets (off + GenomeSegment.size seg) t2 -> spread (seg :: segments) (b :: budgets) off (t1 ++ t2).
Proof.
  cbn [map]. intros [Hs0 Hs]%Forall_cons H1 Hl H2 H [| i] seg' b' Hseg Hb; cbn in Hseg, Hb; cbv zeta; rewrite count_in_app.
  - injection Hseg as <-. injection Hb as <-. cbn [map take zsum foldr]. rewrite Z.add_0_r, count_in_all, count_in_none by (try done; intros x Hx%H2; lia). lia.
  - specialize (H i seg' b' Hseg Hb). cbv zeta in H. cbn [map take zsum foldr]. fold (zsum (take i (map GenomeSegment.size segments))).
    rewrite Z.add_assoc, H, count_in_none; [done |]. intros x Hx%H1. pose proof (zsum_take_le _ i Hs). lia.
Qed.

Lemma segment_loop_ok sigma segments budgets off weights (noise : D) (rng : R) perturbations :
  length budgets = length segments -> Forall (Z.le 0) budgets -> Forall (Z.le 0) (map GenomeSegment.size segments) ->
  noise_state sigma noise ->
  0 <= off -> off + zsum (map GenomeSegment.size segments) <= Z.of_nat (length weights) -> Z.of_nat (length weights) < 2 ^ 31 ->
  0 <= perturbations -> perturbations + zsum budgets < 2 ^ 31 ->
  wp (Mutation.segment_loop segments budgets off weights noise rng perturbations)
     (fun '(weights', _, _, perturbations') => exists touched,
        NoDup touched /\ (forall x, x ∈ touched -> off <= x < off + zsum (map GenomeSegment.size segments)) /\
        rewritten (is_perturbed sigma) touched weights weights' /\
        Z.of_nat (length touched) = zsum (zip_with Z.min budgets (map GenomeSegment.size segments)) /\
        perturbations' = perturbations + Z.of_nat (length touched) /\ spread segments budgets off touched).
Proof.
  revert budgets off weights noise rng perturbations.
  induction segments as [| seg segments IH]; intros [| b budgets] off weights noise rng perturbations Hlen Hb Hs Hns Hoff Hw Hmax Hp Hlt;
    try done; cbn [Mutation.segment_loop].
  - apply wp_ok. exists []. split; [constructor |]. split; [by intros x Hx%elem_of_nil |].
    split; [apply rewritten_refl |]. split; [done |]. split; [cbn; lia | done].
  - pose proof Hs as Hsegs. cbn [map] in *. apply Forall_cons in Hb as [Hb0 Hb], Hs as [Hs0 Hs]. cbn [zsum foldr] in Hw, Hlt. fold (zsum budgets) in Hlt.
    fold (zsum (map GenomeSegment.size segments)) in Hw. pose proof (zsum_nonneg _ Hb). pose proof (zsum_nonneg _ Hs).
    cbn [vec_front rbind tail]. set (size := GenomeSegment.size seg) in *.
    apply wp_bind. apply wp_mono with (P := fun '(weights', noise', _, perturbations') => noise_state sigma noise' /\ exists touched,
      NoDup touched /\ (forall x, x ∈ touched -> off <= x < off + size) /\ rewritten (is_perturbed sigma) touched weights weights' /\
      perturbations' = perturbations + Z.of_nat (length touched) /\ Z.of_nat (length touched) = Z.min b size).
    { destruct (Z.ltb_spec 0 b), (Z.ltb_spec 0 size); cbn [andb];
        try (apply wp_ok; split; [done |]; exists []; split; [constructor |]; split; [by intros x Hx%elem_of_nil |];
             split; [apply rewritten_refl |]; cbn [length]; lia).
      pose proof (sampleUniqueIndices_distinct (R := R) size b rng ltac:(lia) ltac:(lia)) as Hsm.
      destruct (Mutation.sampleUniqueIndices size b rng) as [indices rng']. destruct Hsm as [ [Hnd Hin] Hl].
      eapply wp_mono; [apply (perturb_loop_ok sigma); try done; try lia; intros i Hi; apply Hin in Hi; lia |].
      intros [ [ [w n] r] k] (Hn & Hsame & ->). split; [done |]. exists (map (Z.add off) indices). rewrite length_map.
      split; [apply NoDup_fmap_2; [intros x y; lia | done] |].
      split; [intros x (y & -> & Hy%Hin)%list_elem_of_fmap; lia |]. done. }
    intros [ [ [w n] r] k] (Hn & t1 & Hnd & Hin & Hsame & -> & Hl). pose proof (proj1 Hsame) as Hlw.
    rewrite int_result_ok by lia. cbn [rbind].
    eapply wp_mono; [apply (IH budgets (off + size) w n r (perturbations + Z.of_nat (length t1))); try done;
      rewrite ?Hlw; try lia; by injection Hlen |].
    intros [ [ [w' n'] r'] k'] (t2 & Hnd' & Hin' & Hsame' & Hl' & -> & Hsp). exists (t1 ++ t2). rewrite length_app.
    assert (forall x, x ∈ t1 -> x ∉ t2) as Hdis by (intros x H1%Hin H2%Hin'; lia).
    split; [by apply NoDup_app |].
    split; [intros x; rewrite elem_of_app; cbn [zsum foldr]; fold (zsum (map GenomeSegment.size segments)) size;
      intros [Hx%Hin | Hx%Hin']; lia |].
    split; [by eapply rewritten_app |]. split.
    { cbn [zip_with zsum foldr]. fold (zsum (zip_with Z.min budgets (map GenomeSegment.size segments))). fold size. lia. }
    split; [lia |]. apply spread_cons; try done. intros x Hx%Hin'. fold size. lia.
Qed.
End Touch.

(** ** The whole mutation *)

(** What a mutation is to do to a genome: [resetCount] distinct weights are reset,
    and then [perturbCount] perturbations shared out over the segments are
    applied to distinct weights of each, as far as it has them. *)
Record mutation `{RE : !RandomEngine R, ND : !NormalDistribution R D} (layout : GenomeLayout.t) (sigma : f32)
    (resetCount perturbCount : Z) (weights weights' : list Z) (stats : MutationStats.t)
    (reset perturbed budgets : list Z) : Prop := mkMutation {
  mu_reset : distinct_below (Z.of_nat (length weights)) reset /\ Z.of_nat (length reset) = resetCount /\
    MutationStats.resets stats = resetCount;
  mu_perturbed : distinct_below (Z.of_nat (length weights)) perturbed /\
    Z.of_nat (length perturbed) = MutationStats.perturbations stats;
  mu_budgets : length budgets = length (sizes layout) /\ apportioned layout perturbCount budgets;
  mu_total : MutationStats.perturbations stats = zsum (zip_with Z.min budgets (sizes layout));
  mu_spread : forall i b, budgets !! i = Some b ->
    let start := zsum (take i (sizes layout)) in
    count_in start (start + size_at layout i) perturbed = Z.min b (size_at layout i);
  mu_length : length weights' = length weights;
  mu_weights : forall k w, weights !! k = Some w -> exists v w', weights' !! k = Some w' /\
    (if decide (Z.of_nat k ∈ reset) then is_reset (R := R) (D := D) sigma w v else v = w) /\
    (if decide (Z.of_nat k ∈ perturbed) then is_perturbed (R := R) (D := D) sigma v w' else w' = v)
}.

Lemma mutate_mutates {R D : Type} `{RE : !RandomEngine R, RL : !RandomLaws R, ND : !NormalDistribution R D,
    SH : !Shuffle R, HL : !ShuffleLaws R, UW : !UnorderedWalk, UL : !UnorderedWalkLaws, SS : !StdSort, SL : !StdSortLaws}
    (parent : Genome.t) (config : MutationConfig.t) (layout : GenomeLayout.t) (rng : R) :
  let weights := Genome.weights parent in
  let n := Z.of_nat (length weights) in
  let resetCount := Z.min (Z.max 0 (MutationConfig.resetsPerOffspring config)) n in
  let perturbCount := Z.min (Z.max 0 (MutationConfig.perturbationsPerOffspring config)) (n - resetCount) in
  layout_wf layout -> GenomeLayout.segments layout <> [] -> zsum (sizes layout) = n ->
  wp (Mutation.mutate parent config layout rng) (fun '(child, _, stats) => exists reset perturbed budgets,
    mutation (R := R) (D := D) layout (f64_to_f32 (MutationConfig.sigma config)) resetCount perturbCount
      weights (Genome.weights child) stats reset perturbed budgets).
Proof.
  intros weights n resetCount perturbCount Hwf Hne Hsum. pose proof Hwf as [Hs Ht]. rewrite Hsum in Ht.
  unfold Mutation.mutate. fold weights n.
  assert (Mutation.clampMutationCount (MutationConfig.resetsPerOffspring config) n = resetCount) as ->
    by (unfold Mutation.clampMutationCount, resetCount; repeat case_match; lia).
  assert (Mutation.clampMutationCount (MutationConfig.perturbationsPerOffspring config) (n - resetCount) = perturbCount) as ->
    by (unfold Mutation.clampMutationCount, perturbCount, resetCount; repeat case_match; lia).
  set (sigma := f64_to_f32 (MutationConfig.sigma config)).
  apply wp_bind, wp_assert; [by rewrite bool_decide_false by (intros H%nil_length_inv; done) |].
  rewrite totalSize_ok by done. cbn [rbind]. rewrite Hsum. apply wp_bind, wp_assert; [rewrite wrap_s_small by lia; lia |].
  apply wp_bind. apply wp_mono with (P := fun '(weights', noise, _, resets) => noise_state sigma noise /\ exists reset,
    distinct_below n reset /\ Z.of_nat (length reset) = resetCount /\ resets = resetCount /\ rewritten (is_reset (R := R) (D := D) sigma) reset weights weights').
  { destruct (Z.ltb_spec 0 resetCount).
    - pose proof (sampleUniqueIndices_distinct n resetCount rng ltac:(lia) ltac:(lia)) as Hsm.
      destruct (Mutation.sampleUniqueIndices n resetCount rng) as [indices rng']. destruct Hsm as [Hd Hl].
      eapply wp_mono; [apply (reset_loop_ok sigma); [apply Hd | apply Hd | constructor | done | lia] |]. intros [ [ [w d] r] k] (Hn & Hw & ->).
      split; [done |]. exists indices. split; [done |]. split; [lia |]. split; [lia | done].
    - apply wp_ok. split; [constructor |]. exists []. split; [split; [constructor | by intros i Hi%elem_of_nil] |].
      split; [cbn; lia |]. split; [lia | apply rewritten_refl]. }
  intros [ [ [w d] r] resets] (Hn & reset & Hd & Hl & -> & Hw). rewrite wrap_s_small by lia.
  apply wp_bind. eapply wp_mono; [apply distributeBudget_ok; [done | lia] |]. intros alloc [ [Hla Ha] Hap].
  assert (Forall (Z.le 0) alloc) as Hnn by (apply Forall_lookup; intros k y Hk; by apply Ha in Hk as [? _]).
  pose proof (ap_sum _ _ _ Hap) as Hsa. apply wp_bind. pose proof (proj1 Hw) as Hlw. fold sizes in Hs.
  eapply wp_mono; [apply (segment_loop_ok sigma); try done; unfold n, sizes in *; rewrite ?length_map in *; lia |].
  intros [ [ [w' d'] r'] k] (touched & Hnd & Hin & Hsame & Hlt & -> & Hsp). apply wp_ok. exists reset, touched, alloc. fold (sizes layout) in *.
  split; cbn [MutationStats.resets MutationStats.perturbations Genome.weights]; try done.
  - split; [| lia]. split; [done |]. intros x Hx%Hin. lia.
  - intros i b Hb. destruct (lookup_lt_is_Some_2 (GenomeLayout.segments layout) i) as [seg Hseg].
    { apply lookup_lt_Some in Hb. rewrite Hla in Hb. unfold sizes in Hb. by rewrite length_map in Hb. }
    specialize (Hsp i seg b Hseg Hb). cbv zeta in Hsp |- *. rewrite Z.add_0_l in Hsp.
    assert (size_at layout i = GenomeSegment.size seg) as ->; [| done].
    unfold size_at, sizes. apply nth_lookup_Some. by rewrite list_lookup_fmap, Hseg.
  - rewrite (proj1 Hsame). done.
  - intros i x Hx. destruct (proj2 Hw i x Hx) as (v & Hv & F1). destruct (proj2 Hsame i v Hv) as (y & Hy & F2). by exists v, y.
Qed.

Lemma zip_min_le l l' : Forall (Z.le 0) l -> zsum (zip_with Z.min l l') <= zsum l.
Proof.
  intros H. revert l'. induction H as [| b l Hb H IH]; intros [| x l']; cbn [zip_with]; [done.. | |].
  - cbn [zsum foldr]. fold (zsum l). pose proof (zsum_nonneg l H). cbn. lia.
  - cbn [zsum foldr]. fold (zsum l) (zsum (zip_with Z.min l l')). specialize (IH l'). lia.
Qed.

Lemma apportioned_nonneg layout budget alloc :
  layout_wf layout -> length alloc = length (sizes layout) -> apportioned layout budget alloc -> Forall (Z.le 0) alloc.
Proof.
  intros [Hs Ht] Hl [_ (extra & Hp & _)]. apply Forall_lookup. intros k a Hk. rewrite (Hp k a Hk).
  destruct (lookup_lt_is_Some_2 (sizes layout) k) as [x Hx]; [rewrite <- Hl; by apply lookup_lt_Some in Hk |].
  pose proof (zsum_elem_le _ _ _ Hs Hx) as Hb.
  assert (0 <= share_part layout (Z.max 0 (budget - Z.of_nat (length (sizes layout)))) k) as Hsh.
  { unfold share_part, size_at. rewrite (nth_lookup_Some _ _ _ _ Hx). destruct (decide (zsum (sizes layout) = 0)) as [-> | ]; [by rewrite Zdiv_0_r |].
    apply Z.div_pos; [apply Z.mul_nonneg_nonneg |]; lia. }
  destruct (floor_part_cases budget k), (extra k); lia.
Qed.

(** No more perturbations than asked, and nothing changes without any. *)
Lemma mutation_few {R D : Type} `{RE : !RandomEngine R, ND : !NormalDistribution R D} layout sigma resetCount perturbCount weights weights' stats reset perturbed budgets :
  layout_wf layout ->
  mutation (R := R) (D := D) layout sigma resetCount perturbCount weights weights' stats reset perturbed budgets ->
  0 <= MutationStats.perturbations stats <= Z.max 0 perturbCount /\
  (MutationStats.perturbations stats + MutationStats.resets stats <= 0 -> weights' = weights).
Proof.
  intros Hwf [(_ & Hr & Hrs) (_ & Hp) [Hlb Hap] Ht _ Hl Hw]. split.
  - split; [lia |]. rewrite <- (ap_sum _ _ _ Hap), Ht. apply zip_min_le. by eapply apportioned_nonneg.
  - intros H0. destruct reset; [| cbn in Hr; lia]. destruct perturbed; [| cbn in Hp; lia].
    apply list_eq_same_length with (n := length weights); [done.. |]. intros k x y _ Hx Hy.
    destruct (Hw k y Hy) as (v & w' & Hk & F1 & F2). rewrite decide_False in F1, F2 by apply not_elem_of_nil. congruence.
Qed.

(** ** Theorem *)

(** C29. A mutation resets as many distinct weights as the settings ask for, as far
    as there are weights, and then shares the perturbations out over the segments:
    the whole budget is given out, one to each of the first segments it reaches,
    the rest in proportion to the sizes, what rounding leaves to the largest
    segments; and in each segment exactly its share of distinct weights is
    perturbed, or all of them when the segment has fewer - the surplus is lost,
    so a mutation may perturb fewer weights than asked ([demo_mutation]), and it
    perturbs exactly the sum of what fits. A reset weight is twice a draw of the
    noise, a perturbed one has a draw added, every other weight is as it was,
    and the report counts what was done. The layout's sizes only have to add
    up to the number of weights. *)
Theorem mutation_spread {R D : Type} `{RE : !RandomEngine R, RL : !RandomLaws R, ND : !NormalDistribution R D,
    SH : !Shuffle R, HL : !ShuffleLaws R, UW : !UnorderedWalk, UL : !UnorderedWalkLaws, SS : !StdSort, SL : !StdSortLaws}
    (parent : Genome.t) (config : MutationConfig.t) (layout : GenomeLayout.t) (rng : R) :
  let weights := Genome.weights parent in
  let n := Z.of_nat (length weights) in
  let resetCount := Z.min (Z.max 0 (MutationConfig.resetsPerOffspring config)) n in
  let perturbCount := Z.min (Z.max 0 (MutationConfig.perturbationsPerOffspring config)) (n - resetCount) in
  layout_wf layout -> GenomeLayout.segments layout <> [] -> zsum (sizes layout) = n ->
  wp (Mutation.mutate parent config layout rng) (fun '(child, _, stats) => exists reset perturbed budgets,
    mutation (R := R) (D := D) layout (f64_to_f32 (MutationConfig.sigma config)) resetCount perturbCount
      weights (Genome.weights child) stats reset perturbed budgets).
Proof. exact (mutate_mutates parent config layout rng). Qed.

(** ** A genome of four segments, one of them empty *)
Section Demo.
Import Dice.

Definition demo_layout : GenomeLayout.t :=
  GenomeLayout.mk [GenomeSegment.mk "input" 3; GenomeSegment.mk "bias" 0; GenomeSegment.mk "hidden" 5; GenomeSegment.mk "output" 2].
Definition demo_parent : Genome.t := Genome.mk (replicate 10 (bits_of_f32 (f32_of_Z 1))).
Definition demo_config : MutationConfig.t := MutationConfig.mk 5 1 (f64_lit 5 100).

(** The perturbation given to the empty segment is lost. *)
Example demo_mutation :
  Mutation.mutate demo_parent demo_config demo_layout 12345 =
  Ok (Genome.mk [1065353216; 1065353216; 1065772646; 1036831949; 1065772646;
                 1065353216; 1065772646; 1065353216; 1065772646; 1065353216], 875558187, MutationStats.mk 4 1).
Proof. by vm_compute. Qed.

Example mutation_spread_witness :
  wp (Mutation.mutate demo_parent demo_config demo_layout 12345) (fun '(child, _, stats) => exists reset perturbed budgets,
    mutation demo_layout (f64_to_f32 (MutationConfig.sigma demo_config)) 1 5
      (Genome.weights demo_parent) (Genome.weights child) stats reset perturbed budgets /\
    zsum budgets = 5 /\ count_in 8 10 perturbed = Z.min (nth 3 budgets 0) 2).
Proof.
  eapply wp_mono; [apply (mutation_spread demo_parent demo_config demo_layout 12345) |].
  - split; [repeat constructor; by vm_compute | by vm_compute].
  - done.
  - by vm_compute.
  - intros [ [child rng] stats] (reset & perturbed & budgets & H). exists reset, perturbed, budgets.
    split; [exact H |]. destruct H as [_ _ [Hl Hap] _ Hs _ _]. split; [exact (ap_sum _ _ _ Hap) |].
    destruct (lookup_lt_is_Some_2 budgets 3) as [b Hb]; [rewrite Hl; cbn; lia |].
    rewrite (nth_lookup_Some _ _ _ _ Hb). exact (Hs 3%nat b Hb).
Defined.
End Demo.
