(* ===== verification/EvaluationTypes.v ===== *)
(** What a training asks of its evaluation executor: the data of
    [server/evolution/EvaluationExecutor.h], [server/evolution/FitnessEvaluation.h]
    and [core/organisms/evolution/TrainingSpec.h], and the interface between the
    two.

    A request is known by its ticket (what its answer repeats): an executor holds
    the tickets it has been given and has not answered. *)

From Stdlib Require Import ZArith Lia Bool String.
From stdpp Require Import base option numbers list.
From S2P Require Import Prelude Ieee Genomes Training.

Set Default Goal Selector "!".

#[global] Instance ScenarioId_eq_dec : EqDecision ScenarioId.
Proof. solve_decision. Defined.

(** ** [TrainingSpec.h] *)
Module PopulationSpec.
Record t := mk {
  brainKind : string;
  brainVariant : option string;
  count : Z;
  seedGenomes : list GenomeId;
  randomCount : Z
}.
End PopulationSpec.

Module TrainingSpec.
Record t := mk {
  scenarioId : ScenarioId;
  organismType : OrganismType;
  population : list PopulationSpec.t
}.
End TrainingSpec.

(** ** [FitnessEvaluation.h]: the duck breakdown's [wingUpSeconds], when there is one *)
Module FitnessEvaluation.
Record t := mk { totalFitness : f64; wingUpSeconds : option f64 }.
End FitnessEvaluation.

(** ** [EvaluationExecutor.h] *)
Inductive EvaluationTaskType := GenerationEval | RobustnessEval.
#[global] Instance EvaluationTaskType_eq_dec : EqDecision EvaluationTaskType.
Proof. solve_decision. Defined.

Module EvaluationIndividual.
Record t := mk {
  brainKind : string;
  brainVariant : option string;
  scenarioId : ScenarioId;
  genome : option Genome.t
}.
End EvaluationIndividual.

(** What an answer repeats of its request. *)
Record Ticket := mkTicket {
  ticket_task : EvaluationTaskType;
  ticket_index : Z;
  ticket_generation : Z;
  ticket_ordinal : Z
}.
#[global] Instance Ticket_eq_dec : EqDecision Ticket.
Proof. solve_decision. Defined.

Module EvaluationRequest.
Record t := mk {
  taskType : EvaluationTaskType;
  index : Z;
  robustGeneration : Z;
  robustSampleOrdinal : Z;
  individual : EvaluationIndividual.t
}.
Definition ticket (r : t) : Ticket := mkTicket (taskType r) (index r) (robustGeneration r) (robustSampleOrdinal r).
Definition with_ordinal (ordinal : Z) (r : t) : t :=
  mk (taskType r) (index r) (robustGeneration r) ordinal (individual r).
End EvaluationRequest.

Module CompletedEvaluation.
Record t (Snapshot : Type) := mk {
  taskType : EvaluationTaskType;
  index : Z;
  robustGeneration : Z;
  robustSampleOrdinal : Z;
  fitnessEvaluation : FitnessEvaluation.t;
  simTime : f64;
  commandsAccepted : Z;
  commandsRejected : Z;
  topCommandSignatures : list (string * Z);
  topCommandOutcomeSignatures : list (string * Z);
  snapshot : option Snapshot
}.
Arguments mk {Snapshot}.
Arguments taskType {Snapshot}.
Arguments index {Snapshot}.
Arguments robustGeneration {Snapshot}.
Arguments robustSampleOrdinal {Snapshot}.
Arguments fitnessEvaluation {Snapshot}.
Arguments simTime {Snapshot}.
Arguments commandsAccepted {Snapshot}.
Arguments commandsRejected {Snapshot}.
Arguments topCommandSignatures {Snapshot}.
Arguments topCommandOutcomeSignatures {Snapshot}.
Arguments snapshot {Snapshot}.
Definition ticket {Snapshot} (c : t Snapshot) : Ticket :=
  mkTicket (taskType c) (index c) (robustGeneration c) (robustSampleOrdinal c).
Definition totalFitness {Snapshot} (c : t Snapshot) : f64 := FitnessEvaluation.totalFitness (fitnessEvaluation c).
End CompletedEvaluation.

(** ** The interface

    [generationBatchSubmit] and [robustnessPassSubmit] as the training calls them:
    with the requests, the configuration and the scenario's override. *)
Class EvaluationService (E SC : Type) := {
  generationBatchSubmit : list EvaluationRequest.t -> EvolutionConfig.t -> option SC -> E -> res E;
  robustnessPassSubmit : EvaluationRequest.t -> Z -> EvolutionConfig.t -> option SC -> E -> res E
}.

(** How the training collects the results: of the evaluations in the background,
    and of the visible ones. *)
Class EvaluationCollector (E Snapshot : Type) := {
  completedDrain : E -> E * list (CompletedEvaluation.t Snapshot);
  visibleTick : E -> E * list (CompletedEvaluation.t Snapshot)
}.

(** The tickets of the samples of a robust pass. *)
Definition sampleTickets (request : EvaluationRequest.t) (n : Z) : list Ticket :=
  map (fun ordinal => EvaluationRequest.ticket (EvaluationRequest.with_ordinal ordinal request)) (seqZ 1 n).

Definition generation_request (r : EvaluationRequest.t) : Prop := EvaluationRequest.taskType r = GenerationEval.

(** What the training relies on: an executor that holds no request accepts every
    request it can resolve ([acceptable]), and then holds just the tickets it was
    given. *)
Class EvaluationServiceLaws (E SC : Type) `{!EvaluationService E SC} := {
  outstanding : E -> list Ticket;
  service_ready : E -> Prop;
  acceptable : EvaluationRequest.t -> option SC -> E -> Prop;
  batch_submitted : forall requests config override e,
    service_ready e -> outstanding e = [] -> Forall generation_request requests ->
    Forall (fun r => acceptable r override e) requests ->
    wp (generationBatchSubmit requests config override e) (fun e' =>
      service_ready e' /\ outstanding e' ≡ₚ map EvaluationRequest.ticket requests /\
      forall r o, acceptable r o e -> acceptable r o e');
  robust_submitted : forall request n config override e,
    service_ready e -> outstanding e = [] -> 0 < n -> acceptable request override e ->
    wp (robustnessPassSubmit request n config override e) (fun e' =>
      service_ready e' /\ outstanding e' ≡ₚ sampleTickets request n /\
      forall r o, acceptable r o e -> acceptable r o e')
}.

(** Collecting hands out tickets, and changes nothing else. *)
Class EvaluationCollectorLaws (E SC Snapshot : Type) `{!EvaluationService E SC, !EvaluationServiceLaws E SC,
    !EvaluationCollector E Snapshot} := {
  drained : forall e, service_ready e -> service_ready (fst (completedDrain e)) /\
    map CompletedEvaluation.ticket (snd (completedDrain e)) ++ outstanding (fst (completedDrain e)) ≡ₚ outstanding e /\
    forall r o, acceptable r o e -> acceptable r o (fst (completedDrain e));
  shown : forall e, service_ready e -> service_ready (fst (visibleTick e)) /\
    map CompletedEvaluation.ticket (snd (visibleTick e)) ++ outstanding (fst (visibleTick e)) ≡ₚ outstanding e /\
    forall r o, acceptable r o e -> acceptable r o (fst (visibleTick e))
}.

(** The pause, and how many evaluations may run at once. *)
Class EvaluationTuning (E : Type) := {
  executorPauseSet : bool -> E -> E;
  backgroundWorkerCountGet : E -> Z;
  allowedConcurrencyGet : E -> Z;
  allowedConcurrencySet : Z -> E -> E
}.

(** The executor still holds what it held, and takes what it took. *)
Definition held_on {E SC} `{EL : EvaluationServiceLaws E SC} (e e' : E) : Prop :=
  service_ready e' /\ outstanding e' ≡ₚ outstanding e /\ forall r o, acceptable r o e -> acceptable r o e'.

Class EvaluationTuningLaws (E SC : Type) `{!EvaluationService E SC, !EvaluationServiceLaws E SC, !EvaluationTuning E} := {
  paused_on : forall b e, service_ready e -> held_on e (executorPauseSet b e);
  allowed_some : forall e, service_ready e -> 1 <= allowedConcurrencyGet e;
  allowed_on : forall n e, service_ready e -> 1 <= n -> held_on e (allowedConcurrencySet n e)
}.
