(* ===== verification/EvaluationExecutor.v ===== *)
(** The evaluation executor: [server/evolution/EvaluationExecutor.{h,cpp}].

    Worker threads take evaluations from a queue, run them and put their results
    where the server collects them. The threads interleave: a state is the shared
    data and what each worker is about to do, [worker_step] is one atomic step of
    a worker (a stretch of code under one lock, or one access of an atomic), and
    the functions of the server's thread are steps of their own.

    An evaluation itself is the environment's: a simulation step either leaves the
    run running or ends it, with any results. One of the running evaluations is
    the visible one, whose result goes to a queue of its own. Of the rendering of
    the visible evaluation (frames, timers, progress counters) only the handle is
    modelled. *)

From Stdlib Require Import ZArith Lia Bool String.
From stdpp Require Import base gmap option numbers list strings.
From S2P Require Import Prelude Ieee StdModel Genomes Training.
From S2P Require Import EvaluationTypes.

Set Default Goal Selector "!".

(** ** The results of a pass, and what four passes make together *)
Module Passes.
Section Passes.
Context {Snapshot : Type}.
Context `{UW : !UnorderedWalk, SS : !StdSort}.
Context (mergePasses : list FitnessEvaluation.t -> FitnessEvaluation.t).

Definition kTopCommandSignatureLimit : nat := 20.

Record EvaluationPassResult := mkPass {
  pass_commandsAccepted : Z;
  pass_commandsRejected : Z;
  pass_fitnessEvaluation : FitnessEvaluation.t;
  pass_simTime : f64;
  pass_topCommandSignatures : list (string * Z);
  pass_topCommandOutcomeSignatures : list (string * Z);
  pass_snapshot : option Snapshot
}.

Definition isDuckClockScenario (organismType : OrganismType) (scenarioId : ScenarioId) : bool :=
  bool_decide (organismType = DUCK) && bool_decide (scenarioId = Clock).

Definition requiresNesTileTokenizer (individual : EvaluationIndividual.t) : bool :=
  String.eqb (EvaluationIndividual.brainKind individual) "NesTileRecurrent".

(** Which side the clock's duck enters from. *)
Definition resolveDuckClockSpawnSideOverride (taskType : EvaluationTaskType) (organismType : OrganismType)
    (scenarioId : ScenarioId) (robustSampleOrdinal : Z) : res (option bool) :=
  if negb (bool_decide (taskType = RobustnessEval)) then Ok None
  else if negb (isDuckClockScenario organismType scenarioId) then Ok None
  else
    dirtsim_assert (0 <? robustSampleOrdinal)
      "EvaluationExecutor: robust sample ordinal must be positive for duck clock alternation" ;;!
    Ok (Some (negb (Z.rem robustSampleOrdinal 2 =? 0))).

Definition resolvePrimaryDuckClockSpawnSide (taskType : EvaluationTaskType) (organismType : OrganismType)
    (scenarioId : ScenarioId) (robustSampleOrdinal : Z) : res (option bool) :=
  let! side := resolveDuckClockSpawnSideOverride taskType organismType scenarioId robustSampleOrdinal in
  Ok (match side with
      | None => if isDuckClockScenario organismType scenarioId then Some true else None
      | Some _ => side
      end).

Definition duckClockPassCountForTask : nat := 4.

Definition resolveDuckClockSpawnSideForPass (primarySpawnSide : option bool) (passOrdinal : Z) : res (option bool) :=
  dirtsim_assert (0 <=? passOrdinal) "EvaluationExecutor: duck clock pass ordinal must be non-negative" ;;!
  dirtsim_assert (bool_decide (primarySpawnSide <> None))
    "EvaluationExecutor: duck clock pass requires an explicit primary spawn side" ;;!
  match primarySpawnSide with
  | None => Fault BadOptional
  | Some primary => Ok (Some (if Z.rem passOrdinal 2 =? 0 then primary else negb primary))
  end.

Definition buildCompletedEvaluationFromPass (request : EvaluationRequest.t) (pass : EvaluationPassResult)
    (includeGenerationDetails : bool) : CompletedEvaluation.t Snapshot :=
  CompletedEvaluation.mk (EvaluationRequest.taskType request) (EvaluationRequest.index request)
    (EvaluationRequest.robustGeneration request) (EvaluationRequest.robustSampleOrdinal request)
    (pass_fitnessEvaluation pass) (pass_simTime pass) (pass_commandsAccepted pass) (pass_commandsRejected pass)
    (if includeGenerationDetails then pass_topCommandSignatures pass else [])
    (if includeGenerationDetails then pass_topCommandOutcomeSignatures pass else [])
    (if includeGenerationDetails then pass_snapshot pass else None).

(** *** Merging the signatures of two passes *)
Fixpoint accumulate (entries : list (string * Z)) (counts : gmap string Z) : res (gmap string Z) :=
  match entries with
  | [] => Ok counts
  | (signature, count) :: entries =>
      if count <=? 0 then accumulate entries counts
      else
        let! total := int_result (default 0 (counts !! signature) + count) in
        accumulate entries (<[signature := total]> counts)
  end.

(** More often first, then by name. *)
Definition signatureBefore (lhs rhs : string * Z) : bool :=
  if negb (snd lhs =? snd rhs) then snd rhs <? snd lhs
  else match String.compare (fst lhs) (fst rhs) with Lt => true | _ => false end.

Definition mergeCommandSignatures (first second : list (string * Z)) : res (list (string * Z)) :=
  let! counts := accumulate first ∅ in
  let! counts := accumulate second counts in
  let merged := std_sort signatureBefore (walk _ (map_to_list counts)) in
  Ok (if (kTopCommandSignatureLimit <? length merged)%nat then take kTopCommandSignatureLimit merged else merged).

(** *** Merging the four passes of the clock's duck *)
Definition selectRepresentativeDuckClockPass (first second : CompletedEvaluation.t Snapshot) (targetFitness : f64)
    : CompletedEvaluation.t Snapshot :=
  let firstDistance := f64_abs (f64_sub (CompletedEvaluation.totalFitness first) targetFitness) in
  let secondDistance := f64_abs (f64_sub (CompletedEvaluation.totalFitness second) targetFitness) in
  if flt firstDistance secondDistance then first
  else if flt secondDistance firstDistance then second
  else if fle (CompletedEvaluation.totalFitness first) (CompletedEvaluation.totalFitness second) then first else second.

Definition mergeDuckClockGenerationPasses (primaryPassOne oppositePassOne primaryPassTwo oppositePassTwo
    : CompletedEvaluation.t Snapshot) : res (CompletedEvaluation.t Snapshot) :=
  let mergedEvaluation := mergePasses [CompletedEvaluation.fitnessEvaluation primaryPassOne;
                                       CompletedEvaluation.fitnessEvaluation oppositePassOne;
                                       CompletedEvaluation.fitnessEvaluation primaryPassTwo;
                                       CompletedEvaluation.fitnessEvaluation oppositePassTwo] in
  let finalFitness := FitnessEvaluation.totalFitness mergedEvaluation in
  let average one two :=
    f64_mul (f64_lit 5 10) (f64_add (CompletedEvaluation.totalFitness one) (CompletedEvaluation.totalFitness two)) in
  let usePrimarySide := fle (average primaryPassOne primaryPassTwo) (average oppositePassOne oppositePassTwo) in
  let chosenFirst := if usePrimarySide then primaryPassOne else oppositePassOne in
  let chosenSecond := if usePrimarySide then primaryPassTwo else oppositePassTwo in
  let representative := selectRepresentativeDuckClockPass chosenFirst chosenSecond finalFitness in
  let! accepted := int_result (CompletedEvaluation.commandsAccepted chosenFirst + CompletedEvaluation.commandsAccepted chosenSecond) in
  let! rejected := int_result (CompletedEvaluation.commandsRejected chosenFirst + CompletedEvaluation.commandsRejected chosenSecond) in
  let! signatures := mergeCommandSignatures (CompletedEvaluation.topCommandSignatures chosenFirst)
                       (CompletedEvaluation.topCommandSignatures chosenSecond) in
  let! outcomes := mergeCommandSignatures (CompletedEvaluation.topCommandOutcomeSignatures chosenFirst)
                     (CompletedEvaluation.topCommandOutcomeSignatures chosenSecond) in
  Ok (CompletedEvaluation.mk (CompletedEvaluation.taskType primaryPassOne) (CompletedEvaluation.index primaryPassOne)
        (CompletedEvaluation.robustGeneration primaryPassOne) (CompletedEvaluation.robustSampleOrdinal primaryPassOne)
        mergedEvaluation
        (f64_add (f64_add (f64_add (CompletedEvaluation.simTime primaryPassOne) (CompletedEvaluation.simTime oppositePassOne))
                    (CompletedEvaluation.simTime primaryPassTwo)) (CompletedEvaluation.simTime oppositePassTwo))
        accepted rejected signatures outcomes (CompletedEvaluation.snapshot representative)).
End Passes.
Arguments EvaluationPassResult Snapshot : clear implicits.
End Passes.

Module EvaluationExecutor.
Export Passes.
Section Executor.
Context {Tok SC Snapshot : Type}.
Context `{UW : !UnorderedWalk, SS : !StdSort}.
Context (mergePasses : list FitnessEvaluation.t -> FitnessEvaluation.t).
Context (bootstrap : ScenarioId -> option SC -> Result Tok string).   (* [NesTileTokenizerBootstrapper::build] *)

Abbreviation Completed := (CompletedEvaluation.t Snapshot).
Abbreviation Pass := (EvaluationPassResult Snapshot).

Record QueuedEvaluation := mkQueued {
  request : EvaluationRequest.t;
  evolutionConfig : EvolutionConfig.t;
  nesTileTokenizer : option Tok;
  scenarioConfigOverride : option SC
}.

(** The visible evaluation: whose it is, what it evaluates (the server may change
    its scenario), and whether its runner is registered. *)
Record VisibleEvaluationHandle := mkHandle {
  owner : nat;
  queued : QueuedEvaluation;
  runner : bool
}.

(** A task under evaluation: the passes it has behind it. *)
Record Run := mkRun {
  task : QueuedEvaluation;
  visible : bool;
  primarySpawnSide : option bool;
  passResults : list Completed
}.

(** Where a worker is in [runEvaluationPass]: before a pass, with the pass's
    configuration read, at the head of the loop of steps, in a step, after it. *)
Inductive Stage :=
| Between
| Prepared (passQueued : QueuedEvaluation)
| AtTop (passQueued : QueuedEvaluation)
| Stepping (passQueued : QueuedEvaluation)
| Ended (passQueued : QueuedEvaluation) (pass : Pass).

(** What a worker is about to do. [Blocking] has seen the condition false and
    holds the task mutex until it sleeps ([Blocked]). *)
Inductive WorkerState :=
| Waiting
| Blocking
| Blocked
| Claiming (task : QueuedEvaluation)
| Evaluating (run : Run) (stage : Stage)
| Finishing (run : Run) (result : Completed)
| Publishing (result : Completed)
| Finished (result : option Completed)
| Retired (result : option Completed)
| Notified (result : option Completed)
| Exited.

Record t := mk {
  trainingSpec : TrainingSpec.t;
  nesTileTokenizer_ : option Tok;
  backgroundWorkerCount : Z;
  maxParallelEvaluations : Z;
  workers : list WorkerState;
  taskQueue : list QueuedEvaluation;
  resultQueue : list Completed;
  paused : bool;
  stopRequested : bool;
  allowedConcurrency : Z;
  activeEvaluations : Z;
  activeHandle : option VisibleEvaluationHandle;
  completed : list Completed
}.

Definition set_nesTileTokenizer_ v s : t :=
  mk (trainingSpec s) v (backgroundWorkerCount s) (maxParallelEvaluations s) (workers s) (taskQueue s) (resultQueue s)
    (paused s) (stopRequested s) (allowedConcurrency s) (activeEvaluations s) (activeHandle s) (completed s).
Definition set_backgroundWorkerCount v s : t :=
  mk (trainingSpec s) (nesTileTokenizer_ s) v (maxParallelEvaluations s) (workers s) (taskQueue s) (resultQueue s)
    (paused s) (stopRequested s) (allowedConcurrency s) (activeEvaluations s) (activeHandle s) (completed s).
Definition set_maxParallelEvaluations v s : t :=
  mk (trainingSpec s) (nesTileTokenizer_ s) (backgroundWorkerCount s) v (workers s) (taskQueue s) (resultQueue s)
    (paused s) (stopRequested s) (allowedConcurrency s) (activeEvaluations s) (activeHandle s) (completed s).
Definition set_workers v s : t :=
  mk (trainingSpec s) (nesTileTokenizer_ s) (backgroundWorkerCount s) (maxParallelEvaluations s) v (taskQueue s) (resultQueue s)
    (paused s) (stopRequested s) (allowedConcurrency s) (activeEvaluations s) (activeHandle s) (completed s).
Definition set_taskQueue v s : t :=
  mk (trainingSpec s) (nesTileTokenizer_ s) (backgroundWorkerCount s) (maxParallelEvaluations s) (workers s) v (resultQueue s)
    (paused s) (stopRequested s) (allowedConcurrency s) (activeEvaluations s) (activeHandle s) (completed s).
Definition set_resultQueue v s : t :=
  mk (trainingSpec s) (nesTileTokenizer_ s) (backgroundWorkerCount s) (maxParallelEvaluations s) (workers s) (taskQueue s) v
    (paused s) (stopRequested s) (allowedConcurrency s) (activeEvaluations s) (activeHandle s) (completed s).
Definition set_paused v s : t :=
  mk (trainingSpec s) (nesTileTokenizer_ s) (backgroundWorkerCount s) (maxParallelEvaluations s) (workers s) (taskQueue s) (resultQueue s)
    v (stopRequested s) (allowedConcurrency s) (activeEvaluations s) (activeHandle s) (completed s).
Definition set_stopRequested v s : t :=
  mk (trainingSpec s) (nesTileTokenizer_ s) (backgroundWorkerCount s) (maxParallelEvaluations s) (workers s) (taskQueue s) (resultQueue s)
    (paused s) v (allowedConcurrency s) (activeEvaluations s) (activeHandle s) (completed s).
Definition set_allowedConcurrency v s : t :=
  mk (trainingSpec s) (nesTileTokenizer_ s) (backgroundWorkerCount s) (maxParallelEvaluations s) (workers s) (taskQueue s) (resultQueue s)
    (paused s) (stopRequested s) v (activeEvaluations s) (activeHandle s) (completed s).
Definition set_activeEvaluations v s : t :=
  mk (trainingSpec s) (nesTileTokenizer_ s) (backgroundWorkerCount s) (maxParallelEvaluations s) (workers s) (taskQueue s) (resultQueue s)
    (paused s) (stopRequested s) (allowedConcurrency s) v (activeHandle s) (completed s).
Definition set_activeHandle v s : t :=
  mk (trainingSpec s) (nesTileTokenizer_ s) (backgroundWorkerCount s) (maxParallelEvaluations s) (workers s) (taskQueue s) (resultQueue s)
    (paused s) (stopRequested s) (allowedConcurrency s) (activeEvaluations s) v (completed s).
Definition set_completed v s : t :=
  mk (trainingSpec s) (nesTileTokenizer_ s) (backgroundWorkerCount s) (maxParallelEvaluations s) (workers s) (taskQueue s) (resultQueue s)
    (paused s) (stopRequested s) (allowedConcurrency s) (activeEvaluations s) (activeHandle s) v.

Definition goto (w : nat) (state : WorkerState) (s : t) : t := set_workers (<[w := state]> (workers s)) s.

(** The constructor, and the threads that [start] creates. *)
Definition make (spec : TrainingSpec.t) (tokenizer : option Tok) : t :=
  mk spec tokenizer 0 1 [] [] [] false false 0 0 None [].

(** *** The worker threads *)
Definition lockFree (s : t) : bool :=
  forallb (fun state => match state with Blocking => false | _ => true end) (workers s).

(** The condition of [taskCv.wait], under the task mutex. *)
Definition wake (w : nat) (s : t) : t :=
  if stopRequested s then goto w Exited s
  else
    match taskQueue s with
    | task :: queue =>
        if activeEvaluations s <? allowedConcurrency s then
          set_activeEvaluations (s32 (activeEvaluations s + 1)) (set_taskQueue queue (goto w (Claiming task) s))
        else goto w Blocking s
    | [] => goto w Blocking s
    end.

Definition organism (s : t) : OrganismType := TrainingSpec.organismType (trainingSpec s).
Definition requestScenario (r : EvaluationRequest.t) : ScenarioId := EvaluationIndividual.scenarioId (EvaluationRequest.individual r).

(** [visibleEvaluationTryClaim], and the side of the first pass. *)
Definition claim (w : nat) (task : QueuedEvaluation) (s : t) : res t :=
  let r := request task in
  dirtsim_assert (0 <=? EvaluationRequest.index r) "EvaluationExecutor: Invalid evaluation index" ;;!
  let '(visible, s) :=
    match activeHandle s with
    | None => (true, set_activeHandle (Some (mkHandle w task false)) s)
    | Some _ => (false, s)
    end in
  let! side := resolvePrimaryDuckClockSpawnSide (EvaluationRequest.taskType r) (organism s) (requestScenario r)
                 (EvaluationRequest.robustSampleOrdinal r) in
  Ok (goto w (Evaluating (mkRun task visible side []) Between) s).

(** The worker's own handle. *)
Definition ownHandle (w : nat) (s : t) : option VisibleEvaluationHandle :=
  match activeHandle s with
  | Some h => if (owner h =? w)%nat then Some h else None
  | None => None
  end.

Definition visibleQueuedSnapshot (w : nat) (run : Run) (s : t) : QueuedEvaluation :=
  if visible run then match ownHandle w s with Some h => queued h | None => task run end else task run.

Definition set_runner (w : nat) (run : Run) (b : bool) (s : t) : t :=
  if visible run then
    match ownHandle w s with
    | Some h => set_activeHandle (Some (mkHandle w (queued h) b)) s
    | None => s
    end
  else s.

(** [visibleEvaluationRelease] and the reset of [visibleEvaluationComplete]. *)
Definition visibleEvaluationRelease (w : nat) (visible : bool) (s : t) : t :=
  if visible then match ownHandle w s with Some _ => set_activeHandle None s | None => s end else s.

Definition abandon (w : nat) (run : Run) (s : t) : t :=
  goto w (Finished None) (visibleEvaluationRelease w (visible run) s).

(** The next pass: its side, and the evaluation as it is queued now. *)
Definition beginPass (w : nat) (run : Run) (s : t) : res t :=
  let n := length (passResults run) in
  let! _ :=
    if (n =? 0)%nat then Ok (primarySpawnSide run)
    else resolveDuckClockSpawnSideForPass (primarySpawnSide run) (Z.of_nat n) in
  Ok (goto w (Evaluating run (Prepared (visibleQueuedSnapshot w run s))) s).

(** The head of the loop: stopping, pausing. *)
Definition check (w : nat) (run : Run) (passQueued : QueuedEvaluation) (s : t) : option t :=
  if stopRequested s then Some (abandon w run (set_runner w run false s))
  else if paused s then None
  else Some (goto w (Evaluating run (Stepping passQueued)) s).

Definition isGenerationTask (r : EvaluationRequest.t) : bool := bool_decide (EvaluationRequest.taskType r = GenerationEval).

(** After a pass: the next one, or the result of the task. *)
Definition afterPass (w : nat) (run : Run) (passes : list Completed) (s : t) : res t :=
  let r := request (task run) in
  let run := mkRun (task run) (visible run) (primarySpawnSide run) passes in
  if negb (isDuckClockScenario (organism s) (requestScenario r)) then
    let! result := vec_front passes in Ok (goto w (Finishing run result) s)
  else if (length passes <? duckClockPassCountForTask)%nat then Ok (goto w (Evaluating run Between) s)
  else
    match passes with
    | [one; two; three; four] =>
        let! merged := mergeDuckClockGenerationPasses mergePasses one two three four in
        Ok (goto w (Finishing run merged) s)
    | _ => Fault OutOfBounds
    end.

Definition endPass (w : nat) (run : Run) (passQueued : QueuedEvaluation) (pass : Pass) (s : t) : res t :=
  let s := set_runner w run false s in
  if stopRequested s then Ok (abandon w run s)
  else
    afterPass w run (passResults run ++ [buildCompletedEvaluationFromPass (request passQueued) pass
                                           (isGenerationTask (request (task run)))]) s.

Definition finishResult (w : nat) (run : Run) (result : Completed) (s : t) : t :=
  if negb (visible run) then goto w (Finished (Some result)) s
  else if stopRequested s then abandon w run s
  else goto w (Publishing result) s.

Definition visibleEvaluationComplete (w : nat) (result : Completed) (s : t) : t :=
  goto w (Finished None) (set_completed (completed s ++ [result]) (visibleEvaluationRelease w true s)).

(** [taskCv.notify_one]: one of the sleeping workers, if there is one. *)
Definition isBlocked (state : WorkerState) : bool := match state with Blocked => true | _ => false end.
Definition notify_one (woken : option nat) (s : t) : option t :=
  match woken with
  | Some v => match workers s !! v with Some Blocked => Some (goto v Waiting s) | _ => None end
  | None => if existsb isBlocked (workers s) then None else Some s
  end.
Definition notify_all (s : t) : t :=
  set_workers (map (fun state => if isBlocked state then Waiting else state) (workers s)) s.

Definition deliver (w : nat) (result : option Completed) (s : t) : t :=
  if stopRequested s then goto w Exited s
  else
    let s := match result with Some c => set_resultQueue (resultQueue s ++ [c]) s | None => s end in
    goto w Waiting s.

(** The steps of the workers, and what the environment chooses in them: how a
    simulation step ends, which sleeper a notification wakes, spurious wake-ups. *)
Inductive WorkerEvent :=
| Wake (w : nat)
| Sleep (w : nat)
| SpuriousWakeup (w : nat)
| Claim (w : nat)
| BeginPass (w : nat)
| Register (w : nat)
| CheckPause (w : nat)
| StepRunner (w : nat) (outcome : option Pass)
| EndPass (w : nat)
| Finish (w : nat)
| Publish (w : nat)
| Retire (w : nat)
| Notify (w : nat) (woken : option nat)
| Deliver (w : nat).

(** [None] when the step cannot be taken. *)
Definition worker_step (event : WorkerEvent) (s : t) : option (res t) :=
  match event with
  | Wake w => match workers s !! w with Some Waiting => if lockFree s then Some (Ok (wake w s)) else None | _ => None end
  | Sleep w => match workers s !! w with Some Blocking => Some (Ok (goto w Blocked s)) | _ => None end
  | SpuriousWakeup w => match workers s !! w with Some Blocked => Some (Ok (goto w Waiting s)) | _ => None end
  | Claim w => match workers s !! w with Some (Claiming task) => Some (claim w task s) | _ => None end
  | BeginPass w => match workers s !! w with Some (Evaluating run Between) => Some (beginPass w run s) | _ => None end
  | Register w =>
      match workers s !! w with
      | Some (Evaluating run (Prepared q)) => Some (Ok (goto w (Evaluating run (AtTop q)) (set_runner w run true s)))
      | _ => None
      end
  | CheckPause w =>
      match workers s !! w with Some (Evaluating run (AtTop q)) => Ok <$> check w run q s | _ => None end
  | StepRunner w outcome =>
      match workers s !! w with
      | Some (Evaluating run (Stepping q)) =>
          Some (Ok (goto w (Evaluating run (match outcome with None => AtTop q | Some pass => Ended q pass end)) s))
      | _ => None
      end
  | EndPass w => match workers s !! w with Some (Evaluating run (Ended q pass)) => Some (endPass w run q pass s) | _ => None end
  | Finish w => match workers s !! w with Some (Finishing run result) => Some (Ok (finishResult w run result s)) | _ => None end
  | Publish w => match workers s !! w with Some (Publishing result) => Some (Ok (visibleEvaluationComplete w result s)) | _ => None end
  | Retire w =>
      match workers s !! w with
      | Some (Finished result) => Some (Ok (set_activeEvaluations (s32 (activeEvaluations s - 1)) (goto w (Retired result) s)))
      | _ => None
      end
  | Notify w woken =>
      match workers s !! w with
      | Some (Retired result) => (fun s => Ok (goto w (Notified result) s)) <$> notify_one woken s
      | _ => None
      end
  | Deliver w => match workers s !! w with Some (Notified result) => Some (Ok (deliver w result s)) | _ => None end
  end.

(** *** The server's thread: submitting *)
Definition resolveNesTileTokenizerForQueuedRequest (r : EvaluationRequest.t) (override : option SC)
    (shared : option Tok * option ScenarioId) : res (option Tok * (option Tok * option ScenarioId)) :=
  if negb (requiresNesTileTokenizer (EvaluationRequest.individual r)) then Ok (None, shared)
  else
    match shared with
    | (Some tokenizer, scenario) =>
        dirtsim_assert (bool_decide (scenario = Some (requestScenario r)))
          "EvaluationExecutor: NES tile tokenizer cannot be shared across scenarios" ;;!
        Ok (Some tokenizer, shared)
    | (None, _) =>
        match bootstrap (requestScenario r) override with
        | error message => Fault (AssertFailed message)
        | okay tokenizer => Ok (Some tokenizer, (Some tokenizer, Some (requestScenario r)))
        end
    end.

Fixpoint queue_requests (requests : list EvaluationRequest.t) (config : EvolutionConfig.t) (override : option SC)
    (shared : option Tok * option ScenarioId) : res (list QueuedEvaluation) :=
  match requests with
  | [] => Ok []
  | r :: requests =>
      let! '(tokenizer, shared) := resolveNesTileTokenizerForQueuedRequest r override shared in
      let! rest := queue_requests requests config override shared in
      Ok (mkQueued r config tokenizer override :: rest)
  end.

Definition sharedTokenizer (s : t) : option Tok * option ScenarioId :=
  (nesTileTokenizer_ s, match nesTileTokenizer_ s with Some _ => Some (TrainingSpec.scenarioId (trainingSpec s)) | None => None end).

Definition noVisibleEvaluation (s : t) (message : string) : res unit :=
  dirtsim_assert (bool_decide (activeHandle s = None)) message.

Definition generationBatchSubmit (requests : list EvaluationRequest.t) (config : EvolutionConfig.t) (override : option SC)
    (s : t) : res t :=
  noVisibleEvaluation s "EvaluationExecutor: generation batch submission requires no active preview task" ;;!
  let! queuedEvaluations := queue_requests requests config override (sharedTokenizer s) in
  Ok (notify_all (set_taskQueue queuedEvaluations s)).

Definition sampleRequests (r : EvaluationRequest.t) (n : Z) : list EvaluationRequest.t :=
  map (fun ordinal => EvaluationRequest.with_ordinal ordinal r) (seqZ 1 n).

Definition robustnessPassSubmit (r : EvaluationRequest.t) (targetEvalCount : Z) (config : EvolutionConfig.t)
    (override : option SC) (s : t) : res t :=
  noVisibleEvaluation s "EvaluationExecutor: robustness submission requires no active preview task" ;;!
  let! queuedEvaluations := queue_requests (sampleRequests r (Z.max 0 targetEvalCount)) config override (sharedTokenizer s) in
  Ok (notify_all (set_taskQueue (taskQueue s ++ queuedEvaluations) s)).

(** *** The server's thread: collecting, pausing, adjusting *)
Definition completedDrain (s : t) : t * list Completed := (set_resultQueue [] s, resultQueue s).
(** The results of [visibleTick]. *)
Definition visibleTick (s : t) : t * list Completed := (set_completed [] s, completed s).
Definition isPaused (s : t) : bool := paused s.
Definition pauseSet (b : bool) (s : t) : t := set_paused b s.
Definition allowedConcurrencyGet (s : t) : Z := allowedConcurrency s.
Definition backgroundWorkerCountGet (s : t) : Z := backgroundWorkerCount s.
Definition allowedConcurrencySet (allowed : Z) (s : t) : t :=
  notify_all (set_allowedConcurrency (Z.max 0 (Z.min allowed (backgroundWorkerCount s))) s).
Definition hasVisibleEvaluation (s : t) : bool := bool_decide (activeHandle s <> None).

(** The scenario's configuration changes while evaluations are queued and one is
    visible; [outcome] is the answer of the visible evaluation's runner. *)
Definition override_queued (scenario : ScenarioId) (override : option SC) (shared : option Tok) (q : QueuedEvaluation)
    : QueuedEvaluation :=
  if bool_decide (requestScenario (request q) = scenario) then
    mkQueued (request q) (evolutionConfig q)
      (if requiresNesTileTokenizer (EvaluationRequest.individual (request q)) then shared else None) override
  else q.

Definition override_visible (scenario : ScenarioId) (override : option SC) (outcome : Result unit string) (s : t)
    : t * option string :=
  match activeHandle s with
  | None => (s, None)
  | Some h =>
      let q := queued h in
      if negb (bool_decide (requestScenario (request q) = scenario)) then (s, None)
      else if requiresNesTileTokenizer (EvaluationRequest.individual (request q)) then
        (s, Some "EvaluationExecutor: Active NES tile evaluations cannot change scenario config"%string)
      else
        let h := mkHandle (owner h) (mkQueued (request q) (evolutionConfig q) (nesTileTokenizer q) override) (runner h) in
        let s := set_activeHandle (Some h) s in
        match override with
        | None => (s, None)
        | Some _ =>
            if negb (runner h) then (s, None)
            else match outcome with error message => (s, Some message) | okay _ => (s, None) end
        end
  end.

Definition scenarioConfigOverrideSet (override : option SC) (scenario : ScenarioId) (outcome : Result unit string) (s : t)
    : t * option string :=
  let needsNesTileTokenizer :=
    existsb (fun q => bool_decide (requestScenario (request q) = scenario)
                      && requiresNesTileTokenizer (EvaluationRequest.individual (request q))) (taskQueue s) in
  let change (shared : option Tok) (s : t) :=
    override_visible scenario override outcome
      (set_taskQueue (map (override_queued scenario override shared) (taskQueue s)) s) in
  if needsNesTileTokenizer then
    match bootstrap scenario override with
    | error message => (s, Some message)
    | okay tokenizer => change (Some tokenizer) (set_nesTileTokenizer_ (Some tokenizer) s)
    end
  else change None s.

(** *** Starting and stopping

    [stop] asks the workers to stop and wakes the sleeping ones, waits for the
    threads to end ([joined]), and clears what is left. *)
Definition stopRequest (s : t) : t := set_stopRequested true s.
Definition stopNotify (s : t) : t := notify_all (set_paused false s).
Definition joined (s : t) : bool :=
  forallb (fun state => match state with Exited => true | _ => false end) (workers s).
Definition stopFinish (s : t) : t :=
  mk (trainingSpec s) (nesTileTokenizer_ s) 0 1 [] [] [] (paused s) false 0 0 None [].

(** What [start] does after its [stop]. *)
Definition spawn (maxParallelEvaluations : Z) (s : t) : t :=
  let n := Z.max 1 maxParallelEvaluations in
  mk (trainingSpec s) (nesTileTokenizer_ s) n n (replicate (Z.to_nat n) Waiting) (taskQueue s) (resultQueue s) false false n 0 None [].

End Executor.
End EvaluationExecutor.
