(* ===== verification/ExecutorFacts.v ===== *)
(** The invariant of the evaluation executor and its preservation.

    A worker's state holds the tickets of the task it works on; the [bag] of the
    executor is every ticket it has not handed out. [Inv] relates the counter of
    active evaluations and the visible handle to what the workers are doing, and
    holds whatever the interleaving, also while the executor is stopping. *)

From Stdlib Require Import ZArith Lia Bool String.
From stdpp Require Import base gmap option numbers list strings.
From S2P Require Import Prelude Ieee StdModel Genomes Training.
From S2P Require Import EvaluationTypes EvaluationExecutor.
Import EvaluationExecutor.

Set Default Goal Selector "!".

(** ** One position of a list *)
Section Positions.
Context {A : Type}.
Implicit Types (l : list A).

Lemma insert_split l i x : l !! i = Some x -> exists l1 l2, l = l1 ++ x :: l2 /\ forall y, <[i := y]> l = l1 ++ y :: l2.
Proof.
  intros H. exists (take i l), (drop (S i) l). split; [by rewrite take_drop_middle |].
  intros y. apply insert_take_drop. by apply lookup_lt_Some in H.
Qed.

Lemma count_insert (P : A -> bool) l i x y :
  l !! i = Some x ->
  Z.of_nat (length (List.filter P (<[i := y]> l)))
  = Z.of_nat (length (List.filter P l)) + Z.b2z (P y) - Z.b2z (P x).
Proof.
  intros H. destruct (insert_split l i x H) as (l1 & l2 & E & Ei). rewrite Ei, E, !List.filter_app, !length_app. cbn.
  destruct (P x), (P y); cbn [length Z.b2z]; lia.
Qed.

Lemma bind_insert {B} (f : A -> list B) l i x y :
  l !! i = Some x -> f x ++ (<[i := y]> l ≫= f) ≡ₚ f y ++ (l ≫= f).
Proof.
  intros H. destruct (insert_split l i x H) as (l1 & l2 & E & Ei). rewrite Ei, E, !bind_app. cbn. solve_Permutation.
Qed.
End Positions.

(** ** What the workers hold *)
Section Facts.
Context {Tok SC Snapshot : Type}.
Context `{UW : !UnorderedWalk, SS : !StdSort}.
Context (mergePasses : list FitnessEvaluation.t -> FitnessEvaluation.t).
Context (bootstrap : ScenarioId -> option SC -> Result Tok string).

Abbreviation State := (EvaluationExecutor.t (Tok := Tok) (SC := SC) (Snapshot := Snapshot)).
Abbreviation Worker := (EvaluationExecutor.WorkerState (Tok := Tok) (SC := SC) (Snapshot := Snapshot)).
Abbreviation Queued := (EvaluationExecutor.QueuedEvaluation (Tok := Tok) (SC := SC)).
Implicit Types (s : State) (st : Worker) (q : Queued) (w : nat).

Definition queuedTicket q : Ticket := EvaluationRequest.ticket (request q).

Definition resultTickets (result : option (CompletedEvaluation.t Snapshot)) : list Ticket :=
  match result with Some c => [CompletedEvaluation.ticket c] | None => [] end.

Definition stateTickets st : list Ticket :=
  match st with
  | Claiming task => [queuedTicket task]
  | Evaluating run _ => [queuedTicket (task run)]
  | Finishing _ c | Publishing c => [CompletedEvaluation.ticket c]
  | Finished r | Retired r | Notified r => resultTickets r
  | Waiting | Blocking | Blocked | Exited => []
  end.

(** Every ticket the executor has been given and has not handed out. *)
Definition bag s : list Ticket :=
  map queuedTicket (taskQueue s) ++ (workers s ≫= stateTickets)
  ++ map CompletedEvaluation.ticket (resultQueue s) ++ map CompletedEvaluation.ticket (completed s).

(** Counted by [activeEvaluations]. *)
Definition busy st : bool :=
  match st with Claiming _ | Evaluating _ _ | Finishing _ _ | Publishing _ | Finished _ => true | _ => false end.

(** Holds the visible handle. *)
Definition holdsHandle st : bool :=
  match st with Evaluating run _ | Finishing run _ => visible run | Publishing _ => true | _ => false end.

Definition owns w s : bool := match activeHandle s with Some h => (owner h =? w)%nat | None => false end.

(** *** What the environment promises of a pass *)
Definition signatureTotal (entries : list (string * Z)) : Z :=
  foldr (fun e acc => Z.max 0 (snd e) + acc) 0 entries.

Definition signatures_ok (entries : list (string * Z)) : Prop := signatureTotal entries < 2 ^ 30.

Definition pass_ok (p : EvaluationPassResult Snapshot) : Prop :=
  0 <= pass_commandsAccepted p < 2 ^ 30 /\ 0 <= pass_commandsRejected p < 2 ^ 30 /\
  signatures_ok (pass_topCommandSignatures p) /\ signatures_ok (pass_topCommandOutcomeSignatures p).

Definition result_ok (c : CompletedEvaluation.t Snapshot) : Prop :=
  0 <= CompletedEvaluation.commandsAccepted c < 2 ^ 30 /\ 0 <= CompletedEvaluation.commandsRejected c < 2 ^ 30 /\
  signatures_ok (CompletedEvaluation.topCommandSignatures c) /\ signatures_ok (CompletedEvaluation.topCommandOutcomeSignatures c).

Definition event_ok (event : WorkerEvent (Snapshot := Snapshot)) : Prop :=
  match event with StepRunner _ (Some pass) => pass_ok pass | _ => True end.

(** *** Tasks and worker states *)
Definition request_ok (r : EvaluationRequest.t) : Prop :=
  0 <= EvaluationRequest.index r /\ (EvaluationRequest.taskType r = RobustnessEval -> 0 < EvaluationRequest.robustSampleOrdinal r).
Definition task_ok q : Prop := request_ok (request q).

Definition duckTask (o : OrganismType) q : bool := isDuckClockScenario o (requestScenario (request q)).

Definition run_ok (o : OrganismType) (run : Run (Tok := Tok) (SC := SC) (Snapshot := Snapshot)) : Prop :=
  task_ok (task run) /\
  Forall (fun c => CompletedEvaluation.ticket c = queuedTicket (task run) /\ result_ok c) (passResults run) /\
  (if duckTask o (task run) then (length (passResults run) < 4)%nat /\ primarySpawnSide run <> None
   else passResults run = []).

Definition stage_ok q (stage : Stage (Tok := Tok) (SC := SC) (Snapshot := Snapshot)) : Prop :=
  match stage with
  | Between => True
  | Prepared p | AtTop p | Stepping p => queuedTicket p = queuedTicket q
  | Ended p pass => queuedTicket p = queuedTicket q /\ pass_ok pass
  end.

Definition state_ok (o : OrganismType) st : Prop :=
  match st with
  | Claiming q => task_ok q
  | Evaluating run stage => run_ok o run /\ stage_ok (task run) stage
  | Finishing run c => CompletedEvaluation.ticket c = queuedTicket (task run)
  | _ => True
  end.

Record Inv s : Prop := {
  inv_count : backgroundWorkerCount s = Z.of_nat (length (workers s));
  inv_width : backgroundWorkerCount s < 2 ^ 31;
  inv_active : activeEvaluations s = Z.of_nat (length (List.filter busy (workers s)));
  inv_queue : Forall task_ok (taskQueue s);
  inv_workers : Forall (state_ok (organism s)) (workers s);
  inv_handle : forall w st, workers s !! w = Some st -> holdsHandle st = owns w s;
  inv_queued : forall h, activeHandle s = Some h ->
    exists st, workers s !! owner h = Some st /\ Forall (eq (queuedTicket (queued h))) (stateTickets st)
}.

(** *** Merging does not overflow *)
Definition countOf (name : string) (entries : list (string * Z)) : Z :=
  foldr (fun e acc => (if String.eqb (fst e) name then Z.max 0 (snd e) else 0) + acc) 0 entries.

Lemma countOf_bound name entries : 0 <= countOf name entries <= signatureTotal entries.
Proof.
  unfold countOf, signatureTotal. induction entries as [| [n c] entries IH]; cbn [foldr fst snd]; [lia |].
  destruct (String.eqb n name); lia.
Qed.

Definition count_in (counts : gmap string Z) (name : string) : Z := default 0 (counts !! name).

Lemma count_in_empty name : count_in ∅ name = 0.
Proof. unfold count_in. by rewrite lookup_empty. Qed.

Lemma count_in_insert (counts : gmap string Z) signature n name :
  count_in (<[signature := n]> counts) name = if decide (name = signature) then n else count_in counts name.
Proof. unfold count_in. case_decide; [subst; by rewrite lookup_insert_eq | by rewrite lookup_insert_ne]. Qed.

(** [counts[signature] += count], entry by entry. *)
Lemma accumulate_counts entries (counts : gmap string Z) :
  map_Forall (fun _ n => 0 < n) counts ->
  (forall name, count_in counts name + signatureTotal entries < 2 ^ 31) ->
  wp (accumulate entries counts) (fun counts' =>
    map_Forall (fun _ n => 0 < n) counts' /\ forall name, count_in counts' name = count_in counts name + countOf name entries).
Proof.
  revert counts. induction entries as [| [signature count] entries IH]; intros counts Hpos Hsum; cbn [accumulate].
  { apply wp_ok. split; [done |]. intros name. cbn. lia. }
  cbn [signatureTotal foldr fst snd] in Hsum. fold (signatureTotal entries) in Hsum.
  destruct (Z.leb_spec count 0) as [Hc | Hc].
  { eapply wp_mono; [apply IH; [done |] |].
    - intros name. specialize (Hsum name). lia.
    - intros counts' [H1 H2]. split; [done |]. intros name. rewrite H2. unfold countOf; cbn [foldr fst snd]; fold (countOf name entries).
      destruct (String.eqb signature name); lia. }
  fold (count_in counts signature).
  assert (0 <= count_in counts signature) as H0.
  { unfold count_in. destruct (counts !! signature) eqn:E; cbn; [apply Hpos in E |]; lia. }
  pose proof (countOf_bound signature entries) as Hb. pose proof (Hsum signature) as Hs.
  rewrite (int_result_ok (count_in counts signature + count)) by lia. cbn [rbind].
  eapply wp_mono; [apply IH |].
  - apply map_Forall_insert_2; [lia | done].
  - intros name. rewrite count_in_insert. case_decide; [subst; lia | specialize (Hsum name); lia].
  - intros counts' [H1 H2]. split; [done |]. intros name. rewrite H2, count_in_insert.
    unfold countOf at 2; cbn [foldr fst snd]; fold (countOf name entries).
    destruct (String.eqb_spec signature name) as [-> | Hne]; [rewrite decide_True by done; lia |].
    rewrite decide_False by done. lia.
Qed.

Lemma merge_signatures_ok first second :
  signatures_ok first -> signatures_ok second -> wp (mergeCommandSignatures first second) (fun _ => True).
Proof.
  unfold signatures_ok. intros H1 H2. unfold mergeCommandSignatures. apply wp_bind.
  eapply wp_mono; [apply accumulate_counts; [apply map_Forall_empty | intros name; rewrite count_in_empty; lia] |].
  intros counts [Hp Hc]. apply wp_bind. eapply wp_mono; [apply accumulate_counts; [done |] | done].
  intros name. rewrite Hc, count_in_empty.
  pose proof (countOf_bound name first). lia.
Qed.

Lemma merge_passes_ok one two three four :
  result_ok one -> result_ok two -> result_ok three -> result_ok four ->
  wp (mergeDuckClockGenerationPasses mergePasses one two three four) (fun merged =>
    CompletedEvaluation.ticket merged = CompletedEvaluation.ticket one).
Proof.
  intros H1 H2 H3 H4. unfold mergeDuckClockGenerationPasses.
  match goal with |- context [if ?b then one else two] => set (side := b) end.
  assert (result_ok (if side then one else two)) as (A1 & A2 & A3 & A4) by (by destruct side).
  assert (result_ok (if side then three else four)) as (B1 & B2 & B3 & B4) by (by destruct side).
  cbn zeta. rewrite !int_result_ok by lia. cbn [rbind]. apply wp_bind.
  eapply wp_mono; [by apply merge_signatures_ok |]. intros sigs _. apply wp_bind.
  eapply wp_mono; [by apply merge_signatures_ok |]. intros outs _. by apply wp_ok.
Qed.

(** ** One worker moves *)
Definition handleKey s : option (nat * Ticket) := (fun h => (owner h, queuedTicket (queued h))) <$> activeHandle s.

Lemma owns_key w s : owns w s = match handleKey s with Some (v, _) => (v =? w)%nat | None => false end.
Proof. unfold owns, handleKey. by destruct (activeHandle s). Qed.

Lemma handleKey_inv s s' h' :
  handleKey s' = handleKey s -> activeHandle s' = Some h' ->
  exists h, activeHandle s = Some h /\ owner h' = owner h /\ queuedTicket (queued h') = queuedTicket (queued h).
Proof.
  unfold handleKey. intros E H. rewrite H in E. destruct (activeHandle s) as [h |]; [| done].
  apply (inj Some) in E. exists h. split; [done |]. split; [exact (f_equal fst E) | exact (f_equal snd E)].
Qed.

Inductive HandleMove w st st' s s' : Prop :=
| HandleKept : handleKey s' = handleKey s -> holdsHandle st' = holdsHandle st ->
    (holdsHandle st = true -> stateTickets st' = stateTickets st) -> HandleMove w st st' s s'
| HandleTaken h : activeHandle s = None -> activeHandle s' = Some h -> owner h = w -> holdsHandle st' = true ->
    Forall (eq (queuedTicket (queued h))) (stateTickets st') -> HandleMove w st st' s s'
| HandleDropped : owns w s = true -> activeHandle s' = None -> holdsHandle st' = false -> HandleMove w st st' s s'.

Record Moved w st st' s s' : Prop := {
  mv_at : workers s !! w = Some st;
  mv_workers : workers s' = <[w := st']> (workers s);
  mv_spec : trainingSpec s' = trainingSpec s;
  mv_count : backgroundWorkerCount s' = backgroundWorkerCount s;
  mv_active : activeEvaluations s' = activeEvaluations s + Z.b2z (busy st') - Z.b2z (busy st);
  mv_queue : Forall task_ok (taskQueue s');
  mv_ok : state_ok (organism s) st';
  mv_handle : HandleMove w st st' s s'
}.

Lemma moved_owns w st st' s s' :
  Inv s -> Moved w st st' s s' ->
  forall v stv, workers s' !! v = Some stv -> holdsHandle stv = owns v s'.
Proof.
  intros I M v stv Hv. rewrite (mv_workers _ _ _ _ _ M) in Hv. pose proof (mv_at _ _ _ _ _ M) as Hw.
  pose proof (inv_handle s I w st Hw) as Hst. apply list_lookup_insert_Some in Hv as [(<- & <- & _) | [Hne Hv]].
  - destruct (mv_handle _ _ _ _ _ M) as [Hk Hh _ | h Hn Hs <- Ht _ | Ho Hn Hd].
    + by rewrite owns_key, Hk, <- owns_key, Hh.
    + unfold owns. by rewrite Hs, Nat.eqb_refl.
    + unfold owns. by rewrite Hn.
  - rewrite (inv_handle s I v stv Hv). destruct (mv_handle _ _ _ _ _ M) as [Hk _ _ | h Hn Hs <- _ _ | Ho Hn _].
    + by rewrite !owns_key, Hk.
    + unfold owns. rewrite Hn, Hs. symmetry. by apply Nat.eqb_neq.
    + unfold owns in *. rewrite Hn. destruct (activeHandle s) as [h |]; [| done]. apply Nat.eqb_eq in Ho. subst w.
      by apply Nat.eqb_neq.
Qed.

Lemma moved_queued w st st' s s' :
  Inv s -> Moved w st st' s s' -> forall h, activeHandle s' = Some h ->
  exists stv, workers s' !! owner h = Some stv /\ Forall (eq (queuedTicket (queued h))) (stateTickets stv).
Proof.
  intros I M h' Hh'. rewrite (mv_workers _ _ _ _ _ M). pose proof (mv_at _ _ _ _ _ M) as Hw.
  pose proof (lookup_lt_Some _ _ _ Hw) as Hlt.
  destruct (mv_handle _ _ _ _ _ M) as [Hk Hh Ht | h Hn Hs <- Hd Ht | Ho Hn Hd]; [| | congruence].
  - destruct (handleKey_inv s s' h' Hk Hh') as (h & E & Ho & Hq).
    destruct (inv_queued s I h E) as (stv & Hv & HF). rewrite Ho, Hq.
    destruct (decide (owner h = w)) as [Heq | Hne]; [| exists stv; by rewrite list_lookup_insert_ne by done].
    rewrite Heq in *. exists st'. rewrite list_lookup_insert_eq by done. split; [done |].
    rewrite Hw in Hv. injection Hv as <-. rewrite Ht; [done |]. rewrite (inv_handle s I w st Hw). unfold owns. rewrite E.
    by apply Nat.eqb_eq.
  - rewrite Hs in Hh'. injection Hh' as <-. exists st'. by rewrite list_lookup_insert_eq.
Qed.

Lemma moved_inv w st st' s s' : Inv s -> Moved w st st' s s' -> Inv s'.
Proof.
  intros I M. pose proof (mv_workers _ _ _ _ _ M) as EW. pose proof (mv_at _ _ _ _ _ M) as Hw. split.
  - rewrite (mv_count _ _ _ _ _ M), EW, length_insert. apply I.
  - rewrite (mv_count _ _ _ _ _ M). apply I.
  - rewrite (mv_active _ _ _ _ _ M), EW, (count_insert busy _ _ _ st' Hw), (inv_active s I). lia.
  - apply M.
  - rewrite EW. unfold organism. rewrite (mv_spec _ _ _ _ _ M). apply Forall_insert; [apply I | apply M].
  - by apply (moved_owns w st st' s).
  - by apply (moved_queued w st st' s).
Qed.

(** A move that leaves the shared data alone. *)
Lemma goto_moved w st st' s :
  workers s !! w = Some st -> Inv s -> state_ok (organism s) st' -> busy st' = busy st -> holdsHandle st' = holdsHandle st ->
  (holdsHandle st = true -> stateTickets st' = stateTickets st) -> Moved w st st' s (goto w st' s).
Proof.
  intros Hw I Hok Hb Hh Ht. split; try done; cbn.
  - rewrite Hb. lia.
  - apply I.
  - by apply HandleKept.
Qed.

(** The bag changes with the tickets of the worker. *)
Lemma bag_goto w st st' s :
  workers s !! w = Some st -> stateTickets st' = stateTickets st -> bag (goto w st' s) ≡ₚ bag s.
Proof.
  intros Hw Ht. unfold bag. cbn. pose proof (bind_insert stateTickets _ _ _ st' Hw) as H. rewrite Ht in H.
  apply Permutation_app_inv_l in H. by rewrite H.
Qed.

Lemma busy_count_pos w st s : Inv s -> workers s !! w = Some st -> busy st = true -> 1 <= activeEvaluations s.
Proof.
  intros I Hw Hb. rewrite (inv_active s I). destruct (insert_split _ _ _ Hw) as (l1 & l2 & E & _).
  rewrite E, List.filter_app, length_app. cbn. rewrite Hb. cbn [length]. lia.
Qed.

Lemma active_range s : Inv s -> 0 <= activeEvaluations s <= backgroundWorkerCount s.
Proof.
  intros I. rewrite (inv_active s I), (inv_count s I). pose proof (List.filter_length_le busy (workers s)). lia.
Qed.

(** ** The steps *)
Record same_settings s s' : Prop := {
  ss_spec : trainingSpec s' = trainingSpec s;
  ss_tokenizer : nesTileTokenizer_ s' = nesTileTokenizer_ s;
  ss_count : backgroundWorkerCount s' = backgroundWorkerCount s;
  ss_stop : stopRequested s' = stopRequested s;
  ss_paused : paused s' = paused s;
  ss_allowed : allowedConcurrency s' = allowedConcurrency s
}.

Definition good_step s s' : Prop :=
  Inv s' /\ same_settings s s' /\ (stopRequested s = false -> bag s' ≡ₚ bag s).

Lemma good_goto w st st' s :
  Inv s -> workers s !! w = Some st -> state_ok (organism s) st' -> busy st' = busy st -> holdsHandle st' = holdsHandle st ->
  stateTickets st' = stateTickets st -> good_step s (goto w st' s).
Proof.
  intros I Hw Hok Hb Hh Ht. split; [| split; [done |]].
  - apply (moved_inv w st st' s); [done |]. by apply goto_moved.
  - intros _. by apply (bag_goto w st).
Qed.

Lemma idle_count w st s : Inv s -> workers s !! w = Some st -> busy st = false -> activeEvaluations s < backgroundWorkerCount s.
Proof.
  intros I Hw Hb. rewrite (inv_active s I), (inv_count s I). destruct (insert_split _ _ _ Hw) as (l1 & l2 & E & _).
  rewrite E, List.filter_app, !length_app. cbn. rewrite Hb.
  pose proof (List.filter_length_le busy l1). pose proof (List.filter_length_le busy l2). cbn. lia.
Qed.

Lemma wake_good w s : Inv s -> workers s !! w = Some Waiting -> good_step s (wake w s).
Proof.
  intros I Hw. unfold wake. destruct (stopRequested s) eqn:Hs; [by apply (good_goto w Waiting) |].
  destruct (taskQueue s) as [| q queue] eqn:Hq; [by apply (good_goto w Waiting) |].
  destruct (activeEvaluations s <? allowedConcurrency s) eqn:Ha; [| by apply (good_goto w Waiting)].
  pose proof (inv_queue s I) as HF. rewrite Hq in HF. apply Forall_cons in HF as [Hq1 HF].
  split; [| split; [done |]].
  - apply (moved_inv w Waiting (Claiming q) s); [done |]. split; cbn; try done; [| by apply HandleKept].
    pose proof (idle_count w _ s I Hw eq_refl). pose proof (inv_width s I). pose proof (active_range s I).
    rewrite wrap_s_small by lia. lia.
  - intros _. unfold bag. cbn. rewrite Hq. pose proof (bind_insert stateTickets _ _ _ (Claiming q) Hw) as H. cbn in H.
    rewrite H. solve_Permutation.
Qed.

Lemma spawn_side_ok q s :
  task_ok q ->
  wp (resolvePrimaryDuckClockSpawnSide (EvaluationRequest.taskType (request q)) (organism s) (requestScenario (request q))
        (EvaluationRequest.robustSampleOrdinal (request q)))
    (fun side => duckTask (organism s) q = true -> side <> None).
Proof.
  intros [_ Hr]. unfold resolvePrimaryDuckClockSpawnSide, resolveDuckClockSpawnSideOverride, duckTask.
  destruct (isDuckClockScenario (organism s) (requestScenario (request q))); cbn [negb];
    (case_bool_decide as E; cbn [negb]; [| done]); [| done].
  by rewrite (proj2 (Z.ltb_lt _ _) (Hr E)).
Qed.

Lemma claim_good w q s :
  Inv s -> workers s !! w = Some (Claiming q) -> wp (claim w q s) (good_step s).
Proof.
  intros I Hw. pose proof (Forall_lookup_1 _ _ _ _ (inv_workers s I) Hw) as Hq. cbn in Hq.
  pose proof (inv_handle s I w _ Hw) as Hh. cbn in Hh.
  unfold claim. rewrite (proj2 (Z.leb_le 0 _) (proj1 Hq)). cbn [dirtsim_assert rbind].
  destruct (activeHandle s) as [h |] eqn:E; apply wp_bind; (eapply wp_mono; [apply spawn_side_ok; done |]);
    intros side Hside; apply wp_ok.
  - apply (good_goto w (Claiming q)); try done. split; [| done]. split; [done |]. split; [done |].
    cbn. destruct (duckTask _ _) eqn:Ed; [| done]. split; [lia | by apply Hside].
  - split; [| split; [done |]].
    + apply (moved_inv w (Claiming q) (Evaluating (mkRun q true side []) Between) s); [done |].
      split; cbn; try done; [lia | apply I | |].
      * split; [| done]. split; [done |]. split; [done |]. cbn. destruct (duckTask _ _) eqn:Ed; [| done].
        split; [lia | by apply Hside].
      * apply (HandleTaken _ _ _ _ _ (mkHandle w q false)); try done. by constructor.
    + intros _. by apply (bag_goto w (Claiming q) _ s Hw).
Qed.

(** Changing whether the runner is registered changes nothing that matters. *)
Lemma set_runner_key w run b s : handleKey (set_runner w run b s) = handleKey s.
Proof.
  unfold set_runner, handleKey, ownHandle. destruct (visible run); [| done].
  destruct (activeHandle s) as [h |] eqn:E; [| by rewrite E].
  destruct (owner h =? w)%nat eqn:Eo; [| by rewrite E]. cbn. apply Nat.eqb_eq in Eo. by rewrite Eo.
Qed.

Lemma set_runner_same w run b s : exists v, set_runner w run b s = set_activeHandle v s.
Proof.
  assert (set_activeHandle (activeHandle s) s = s) as E by (by destruct s).
  unfold set_runner. destruct (visible run); [| eauto]. destruct (ownHandle w s); eauto.
Qed.

Lemma set_runner_good w run b s : Inv s -> good_step s (set_runner w run b s).
Proof.
  intros I. pose proof (set_runner_key w run b s) as Hk. destruct (set_runner_same w run b s) as [v E]. rewrite E in *.
  split; [| done]. split; cbn; try apply I.
  - intros v' st Hst. rewrite (inv_handle s I v' st Hst), !owns_key. by rewrite Hk.
  - intros h Hh. destruct (handleKey_inv s (set_activeHandle v s) h Hk Hh) as (h' & Eh & Eo & Eq).
    rewrite Eo, Eq. by apply I.
Qed.

Lemma good_trans s1 s2 s3 : good_step s1 s2 -> good_step s2 s3 -> good_step s1 s3.
Proof.
  intros (_ & S1 & B1) (I & S2 & B2). split; [done |]. split.
  - split; etransitivity; (apply S2 || apply S1).
  - intros H. rewrite B2, B1; [done | done |]. rewrite <- H. apply S1.
Qed.

(** Leaving the handle: a move to a state that does not hold it. *)
Lemma release_moved w st st' b s :
  Inv s -> workers s !! w = Some st -> holdsHandle st = b -> busy st' = busy st -> holdsHandle st' = false -> state_ok (organism s) st' ->
  Moved w st st' s (goto w st' (visibleEvaluationRelease w b s)).
Proof.
  intros I Hw <- Hbusy Hh' Hok. pose proof (inv_handle s I w st Hw) as Hh. unfold visibleEvaluationRelease.
  destruct (holdsHandle st) eqn:Eh.
  - unfold ownHandle. symmetry in Hh. pose proof Hh as Ho. unfold owns in Hh. destruct (activeHandle s) as [h |] eqn:E; [| done].
    rewrite Hh. split; cbn; try done; [rewrite Hbusy; lia | apply I | by apply HandleDropped].
  - apply goto_moved; try done; [by rewrite Hh', Eh | congruence].
Qed.

Lemma release_same w b s : exists v, visibleEvaluationRelease w b s = set_activeHandle v s.
Proof.
  assert (set_activeHandle (activeHandle s) s = s) as E by (by destruct s).
  unfold visibleEvaluationRelease. destruct b; [| eauto]. destruct (ownHandle w s); eauto.
Qed.

Lemma release_settings w b s : same_settings s (visibleEvaluationRelease w b s).
Proof. unfold visibleEvaluationRelease. destruct b; [| done]. by destruct (ownHandle w s). Qed.

Lemma abandon_good w st run s :
  Inv s -> stopRequested s = true -> workers s !! w = Some st -> holdsHandle st = visible run -> busy st = true ->
  good_step s (abandon w run s).
Proof.
  intros I Hs Hw Hh Hb. unfold abandon. split; [| split].
  - apply (moved_inv w st (Finished None) s); [done |]. by apply release_moved.
  - pose proof (release_settings w (visible run) s) as S. by split; cbn; apply S.
  - intros H. congruence.
Qed.

Lemma begin_pass_good w run s :
  Inv s -> workers s !! w = Some (Evaluating run Between) -> wp (beginPass w run s) (good_step s).
Proof.
  intros I Hw. pose proof (Forall_lookup_1 _ _ _ _ (inv_workers s I) Hw) as [Hr _].
  pose proof (inv_handle s I w _ Hw) as Hh. cbn in Hh. unfold beginPass. apply wp_bind.
  assert (queuedTicket (visibleQueuedSnapshot w run s) = queuedTicket (task run)) as Hq.
  { unfold visibleQueuedSnapshot. destruct (visible run); [| done]. unfold ownHandle. symmetry in Hh. pose proof Hh as Ho. unfold owns in Hh.
    destruct (activeHandle s) as [h |] eqn:E; [| done]. rewrite Hh. apply Nat.eqb_eq in Hh. subst w.
    destruct (inv_queued s I h E) as (st & Hst & HF). rewrite Hw in Hst. injection Hst as <-. by inversion_clear HF. }
  assert (good_step s (goto w (Evaluating run (Prepared (visibleQueuedSnapshot w run s))) s)) as G
    by (by apply (good_goto w (Evaluating run Between))).
  destruct (length (passResults run) =? 0)%nat eqn:E0; [by do 2 apply wp_ok |].
  destruct Hr as (_ & _ & Hd). destruct (duckTask (organism s) (task run)); [| by rewrite Hd in E0].
  unfold resolveDuckClockSpawnSideForPass. rewrite (proj2 (Z.leb_le 0 _)) by lia. cbn [dirtsim_assert rbind].
  destruct (primarySpawnSide run); [| by destruct Hd]. by do 2 apply wp_ok.
Qed.

Lemma register_good w run q s :
  Inv s -> workers s !! w = Some (Evaluating run (Prepared q)) ->
  good_step s (goto w (Evaluating run (AtTop q)) (set_runner w run true s)).
Proof.
  intros I Hw. pose proof (Forall_lookup_1 _ _ _ _ (inv_workers s I) Hw) as Hok.
  apply (good_trans s (set_runner w run true s)); [by apply set_runner_good |].
  destruct (set_runner_same w run true s) as [v E]. pose proof (set_runner_good w run true s I) as (I' & _). rewrite E in *.
  by apply (good_goto w (Evaluating run (Prepared q))).
Qed.

Lemma check_good w run q s s' :
  Inv s -> workers s !! w = Some (Evaluating run (AtTop q)) -> check w run q s = Some s' -> good_step s s'.
Proof.
  intros I Hw. unfold check. pose proof (Forall_lookup_1 _ _ _ _ (inv_workers s I) Hw) as Hok.
  destruct (stopRequested s) eqn:Hs.
  - intros [= <-]. apply (good_trans s (set_runner w run false s)); [by apply set_runner_good |].
    pose proof (set_runner_good w run false s I) as (I' & _).
    destruct (set_runner_same w run false s) as [v E]. rewrite E in *. by apply (abandon_good w (Evaluating run (AtTop q))).
  - destruct (paused s); [done |]. intros [= <-]. by apply (good_goto w (Evaluating run (AtTop q))).
Qed.

Lemma after_pass_good w run stage passes s :
  Inv s -> workers s !! w = Some (Evaluating run stage) -> passes <> [] -> (length passes <= 4)%nat ->
  Forall (fun c => CompletedEvaluation.ticket c = queuedTicket (task run) /\ result_ok c) passes ->
  wp (afterPass mergePasses w run passes s) (good_step s).
Proof.
  intros I Hw Hne Hlen HF. pose proof (Forall_lookup_1 _ _ _ _ (inv_workers s I) Hw) as [(Hq & _ & Hd) _].
  assert (forall c, CompletedEvaluation.ticket c = queuedTicket (task run) ->
            good_step s (goto w (Finishing (mkRun (task run) (visible run) (primarySpawnSide run) passes) c) s)) as G.
  { intros c Hc. apply (good_goto w (Evaluating run stage)); try done. cbn [stateTickets]. by rewrite Hc. }
  unfold afterPass. fold (duckTask (organism s) (task run)).
  destruct (duckTask (organism s) (task run)) eqn:Ed; cbn [negb].
  - destruct (length passes <? duckClockPassCountForTask)%nat eqn:El.
    + apply wp_ok. apply (good_goto w (Evaluating run stage)); try done.
      split; [| done]. split; [done |]. split; [done |]. cbn. rewrite Ed. split; [by apply Nat.ltb_lt in El | apply Hd].
    + apply Nat.ltb_ge in El. unfold duckClockPassCountForTask in El.
      destruct passes as [| one [| two [| three [| four [| five rest]]]]]; cbn in El, Hlen; try lia.
      rewrite !Forall_cons in HF. destruct HF as ([H1 R1] & [_ R2] & [_ R3] & [_ R4] & _). apply wp_bind.
      eapply wp_mono; [by apply merge_passes_ok |]. intros merged Hm. apply wp_ok, G. by rewrite Hm.
  - destruct passes as [| c passes]; [done |]. cbn [vec_front rbind]. apply wp_ok, G. by apply Forall_inv in HF as [? _].
Qed.

Lemma end_pass_good w run q pass s :
  Inv s -> workers s !! w = Some (Evaluating run (Ended q pass)) -> wp (endPass mergePasses w run q pass s) (good_step s).
Proof.
  intros I Hw. pose proof (Forall_lookup_1 _ _ _ _ (inv_workers s I) Hw) as [(Hq & HF & Hd) [Hp Hpass]].
  unfold endPass. pose proof (set_runner_good w run false s I) as G0. pose proof G0 as (I' & _).
  destruct (set_runner_same w run false s) as [v E]. rewrite E in *. cbn [stopRequested set_activeHandle].
  destruct (stopRequested s) eqn:Hs.
  - apply wp_ok. apply (good_trans s (set_activeHandle v s)); [done |]. by apply (abandon_good w (Evaluating run (Ended q pass))).
  - eapply wp_mono; [apply (after_pass_good w run (Ended q pass)); try done | intros s' G; by apply (good_trans s (set_activeHandle v s))].
    + by destruct (passResults run).
    + rewrite length_app. cbn. destruct (duckTask _ _); [lia | rewrite Hd; cbn; lia].
    + apply Forall_app. split; [done |]. apply Forall_singleton. split; [done |]. destruct Hpass as (P1 & P2 & P3 & P4).
      split; [done |]. split; [done |]. cbn. by destruct (isGenerationTask _).
Qed.

Lemma finish_good w run c s :
  Inv s -> workers s !! w = Some (Finishing run c) -> good_step s (finishResult w run c s).
Proof.
  intros I Hw. unfold finishResult. destruct (visible run) eqn:Ev; cbn [negb].
  - destruct (stopRequested s) eqn:Hs; [by apply (abandon_good w (Finishing run c)); rewrite ?Ev |].
    by apply (good_goto w (Finishing run c)).
  - by apply (good_goto w (Finishing run c)).
Qed.

Lemma publish_good w c s :
  Inv s -> workers s !! w = Some (Publishing c) -> good_step s (visibleEvaluationComplete w c s).
Proof.
  intros I Hw. unfold visibleEvaluationComplete.
  assert (Moved w (Publishing c) (Finished None) s (goto w (Finished None) (visibleEvaluationRelease w true s))) as M
    by (by apply release_moved).
  pose proof (moved_inv _ _ _ _ _ I M) as I'. destruct (release_same w true s) as [v E]. rewrite E in *.
  split; [split; apply I' | split; [done |]]. intros _.
  unfold bag. cbn. pose proof (bind_insert stateTickets _ _ _ (Finished None) Hw) as H. cbn in H.
  rewrite map_app. cbn [map]. rewrite <- H. solve_Permutation.
Qed.

Lemma retire_good w r s :
  Inv s -> workers s !! w = Some (Finished r) ->
  good_step s (set_activeEvaluations (s32 (activeEvaluations s - 1)) (goto w (Retired r) s)).
Proof.
  intros I Hw. split; [| split; [done |]].
  - apply (moved_inv w (Finished r) (Retired r) s); [done |]. split; cbn; try done; [| apply I | by apply HandleKept].
    pose proof (busy_count_pos w _ s I Hw eq_refl). pose proof (active_range s I). pose proof (inv_width s I).
    rewrite wrap_s_small by lia. lia.
  - intros _. by apply (bag_goto w (Finished r)).
Qed.

Lemma notify_one_good woken s s' : Inv s -> notify_one woken s = Some s' -> good_step s s'.
Proof.
  intros I. unfold notify_one. destruct woken as [v |].
  - destruct (workers s !! v) as [[] |] eqn:Hv; try done. intros [= <-]. by apply (good_goto v Blocked).
  - destruct (existsb _ _); [done |]. intros [= <-]. done.
Qed.

Lemma notify_one_other woken w st s s' :
  notify_one woken s = Some s' -> workers s !! w = Some st -> isBlocked st = false -> workers s' !! w = Some st.
Proof.
  unfold notify_one. intros H Hw Hb. destruct woken as [v |].
  - destruct (workers s !! v) as [[] |] eqn:Hv; try done. injection H as <-. cbn.
    rewrite list_lookup_insert_ne; [done |]. intros ->. rewrite Hv in Hw. by injection Hw as <-.
  - destruct (existsb _ _); [done |]. by injection H as <-.
Qed.

Lemma deliver_good w r s :
  Inv s -> workers s !! w = Some (Notified r) -> good_step s (deliver w r s).
Proof.
  intros I Hw. unfold deliver. destruct (stopRequested s) eqn:Hs.
  - split; [| split; [done |]]; [| congruence]. apply (moved_inv w (Notified r) Exited s); [done |]. by apply goto_moved.
  - split; [| split; [by destruct r |]].
    + apply (moved_inv w (Notified r) Waiting s); [done |].
      destruct r as [c |]; split; cbn; try done; try lia; try apply I; by apply HandleKept.
    + intros _. pose proof (bind_insert stateTickets _ _ _ Waiting Hw) as H. cbn in H.
      destruct r as [c |]; unfold bag; cbn in *; [rewrite map_app; cbn [map]; rewrite <- H | by rewrite H]. solve_Permutation.
Qed.

(** No step of a worker faults, breaks the invariant, loses or invents a ticket. *)
Lemma worker_step_good event s r :
  Inv s -> event_ok event -> worker_step mergePasses event s = Some r -> wp r (good_step s).
Proof.
  intros I He. destruct event as [w | w | w | w | w | w | w | w outcome | w | w | w | w | w woken | w]; cbn [worker_step];
    destruct (workers s !! w) as [[] |] eqn:Hw; try done.
  - destruct (lockFree s); [| done]. intros [= <-]. apply wp_ok. by apply wake_good.
  - intros [= <-]. apply wp_ok. by apply (good_goto w Blocking).
  - intros [= <-]. apply wp_ok. by apply (good_goto w Blocked).
  - intros [= <-]. by apply claim_good.
  - destruct stage; try done. intros [= <-]. by apply begin_pass_good.
  - destruct stage; try done. intros [= <-]. apply wp_ok. by apply register_good.
  - destruct stage; try done. intros H. apply fmap_Some in H as (s' & Hc & ->). apply wp_ok. by eapply check_good.
  - destruct stage as [| | | q |]; try done. intros [= <-]. apply wp_ok.
    pose proof (Forall_lookup_1 _ _ _ _ (inv_workers s I) Hw) as [Hr Hq]. cbn in Hq.
    apply (good_goto w (Evaluating run (Stepping q))); try done. by destruct outcome.
  - destruct stage; try done. intros [= <-]. by apply end_pass_good.
  - intros [= <-]. apply wp_ok. by apply finish_good.
  - intros [= <-]. apply wp_ok. by apply publish_good.
  - intros [= <-]. apply wp_ok. by apply retire_good.
  - intros H. apply fmap_Some in H as (s' & Hn & ->). apply wp_ok. pose proof (notify_one_good _ _ _ I Hn) as G.
    apply (good_trans s s'); [done |]. apply (good_goto w (Retired result)); try done; [apply G | by eapply notify_one_other].
  - intros [= <-]. apply wp_ok. by apply deliver_good.
Qed.

End Facts.
