(* ===== verification/ExecutorRuns.v ===== *)
(** Runs of the executor's workers.

    [edge] lists the moves of one worker; a [measure] that every move lowers
    (except a simulation step that leaves its run running, and a spurious
    wake-up) bounds how long the workers can go on. [Running] is the invariant of
    an executor that is not stopping: as long as tasks are queued, some worker is
    awake to take them. *)

From Stdlib Require Import ZArith Lia Bool String.
From stdpp Require Import base gmap option numbers list strings.
From S2P Require Import Prelude Ieee StdModel Genomes Training.
From S2P Require Import EvaluationTypes EvaluationExecutor ExecutorFacts.
Import EvaluationExecutor.

Set Default Goal Selector "!".

Section Runs.
Context {Tok SC Snapshot : Type}.
Context `{UW : !UnorderedWalk, SS : !StdSort}.
Context (mergePasses : list FitnessEvaluation.t -> FitnessEvaluation.t).

Abbreviation State := (EvaluationExecutor.t (Tok := Tok) (SC := SC) (Snapshot := Snapshot)).
Abbreviation Worker := (EvaluationExecutor.WorkerState (Tok := Tok) (SC := SC) (Snapshot := Snapshot)).
Abbreviation step := (worker_step (Tok := Tok) (SC := SC) (Snapshot := Snapshot) mergePasses).
Implicit Types (s : State) (st : Worker) (w : nat).

(** ** The moves of a worker *)
Inductive edge s : WorkerEvent (Snapshot := Snapshot) -> Worker -> Worker -> Prop :=
| edge_exit w : stopRequested s = true -> edge s (Wake w) Waiting Exited
| edge_block w : stopRequested s = false -> (taskQueue s = [] \/ allowedConcurrency s <= activeEvaluations s) ->
    edge s (Wake w) Waiting Blocking
| edge_take w q queue : stopRequested s = false -> taskQueue s = q :: queue -> edge s (Wake w) Waiting (Claiming q)
| edge_sleep w : edge s (Sleep w) Blocking Blocked
| edge_spurious w : edge s (SpuriousWakeup w) Blocked Waiting
| edge_claim w q b side : edge s (Claim w) (Claiming q) (Evaluating (mkRun q b side []) Between)
| edge_begin w run q : edge s (BeginPass w) (Evaluating run Between) (Evaluating run (Prepared q))
| edge_register w run q : edge s (Register w) (Evaluating run (Prepared q)) (Evaluating run (AtTop q))
| edge_stop_loop w run q : stopRequested s = true -> edge s (CheckPause w) (Evaluating run (AtTop q)) (Finished None)
| edge_check w run q : stopRequested s = false -> paused s = false ->
    edge s (CheckPause w) (Evaluating run (AtTop q)) (Evaluating run (Stepping q))
| edge_running w run q : edge s (StepRunner w None) (Evaluating run (Stepping q)) (Evaluating run (AtTop q))
| edge_ended w run q p : edge s (StepRunner w (Some p)) (Evaluating run (Stepping q)) (Evaluating run (Ended q p))
| edge_stop_pass w run q p : stopRequested s = true -> edge s (EndPass w) (Evaluating run (Ended q p)) (Finished None)
| edge_next w run q p run' : (length (passResults run) < length (passResults run') < 4)%nat ->
    edge s (EndPass w) (Evaluating run (Ended q p)) (Evaluating run' Between)
| edge_result w run q p run' c : edge s (EndPass w) (Evaluating run (Ended q p)) (Finishing run' c)
| edge_finish w run c : edge s (Finish w) (Finishing run c) (Finished (Some c))
| edge_show w run c : edge s (Finish w) (Finishing run c) (Publishing c)
| edge_stop_finish w run c : stopRequested s = true -> edge s (Finish w) (Finishing run c) (Finished None)
| edge_publish w c : edge s (Publish w) (Publishing c) (Finished None)
| edge_retire w r : edge s (Retire w) (Finished r) (Retired r)
| edge_notify w woken r : edge s (Notify w woken) (Retired r) (Notified r)
| edge_deliver w r : stopRequested s = false -> edge s (Deliver w) (Notified r) Waiting
| edge_quit w r : stopRequested s = true -> edge s (Deliver w) (Notified r) Exited.

(** The workers as a notification leaves them. *)
Definition woken_workers (event : WorkerEvent (Snapshot := Snapshot)) s : list Worker :=
  match event with Notify _ (Some v) => <[v := Waiting]> (workers s) | _ => workers s end.

(** What a step does: one worker follows an edge. *)
Definition follows event s s' : Prop :=
  exists w st st', woken_workers event s !! w = Some st /\ edge s event st st' /\
    workers s' = <[w := st']> (woken_workers event s) /\
    taskQueue s' = match event, st' with Wake _, Claiming _ => tail (taskQueue s) | _, _ => taskQueue s end.

Lemma follows_same event w st st' s s0 :
  (match event with Notify _ _ => False | _ => True end) -> (match event with Wake _ => False | _ => True end) ->
  workers s !! w = Some st -> edge s event st st' -> workers s0 = workers s -> taskQueue s0 = taskQueue s ->
  follows event s (goto w st' s0).
Proof.
  intros Hn Hk Hw He E Eq. exists w, st, st'. unfold woken_workers. destruct event; try done; cbn; rewrite E; done.
Qed.

Lemma wake_follows w s : workers s !! w = Some Waiting -> follows (Wake w) s (wake w s).
Proof.
  intros Hw. unfold wake. destruct (stopRequested s) eqn:Hs.
  { exists w, Waiting, Exited. split; [done |]. split; [by constructor |]. done. }
  destruct (taskQueue s) as [| q queue] eqn:Hq.
  { exists w, Waiting, Blocking. split; [done |]. split; [constructor; auto |]. done. }
  destruct (activeEvaluations s <? allowedConcurrency s) eqn:Ha.
  - exists w, Waiting, (Claiming q). split; [done |]. split; [by apply (edge_take s w q queue) |]. cbn. by rewrite Hq.
  - exists w, Waiting, Blocking. split; [done |]. split; [apply edge_block; [done | right; lia] |]. done.
Qed.

Lemma abandon_follows event w st run s s0 :
  (match event with Notify _ _ => False | _ => True end) -> (match event with Wake _ => False | _ => True end) ->
  workers s !! w = Some st -> edge s event st (Finished None) -> workers s0 = workers s -> taskQueue s0 = taskQueue s ->
  follows event s (abandon w run s0).
Proof.
  intros Hn Hk Hw He E Eq. unfold abandon. destruct (release_same w (visible run) s0) as [v ->].
  by apply (follows_same event w st (Finished None) s).
Qed.

Lemma claim_follows w q s s' : workers s !! w = Some (Claiming q) -> claim w q s = Ok s' -> follows (Claim w) s s'.
Proof.
  intros Hw H. unfold claim in H. apply rbind_ok_inv in H as (_ & _ & H).
  destruct (activeHandle s); apply rbind_ok_inv in H as (side & _ & H); injection H as <-;
    apply (follows_same _ w (Claiming q) _ s); try done; constructor.
Qed.

Lemma begin_follows w run s s' :
  workers s !! w = Some (Evaluating run Between) -> beginPass w run s = Ok s' -> follows (BeginPass w) s s'.
Proof.
  intros Hw H. unfold beginPass in H. apply rbind_ok_inv in H as (_ & _ & H). injection H as <-.
  apply (follows_same _ w (Evaluating run Between) _ s); try done. constructor.
Qed.

Lemma end_pass_follows w run q p s s' :
  workers s !! w = Some (Evaluating run (Ended q p)) -> endPass mergePasses w run q p s = Ok s' -> follows (EndPass w) s s'.
Proof.
  intros Hw H. unfold endPass in H. destruct (set_runner_same w run false s) as [v E]. rewrite E in H.
  cbn [stopRequested set_activeHandle] in H. destruct (stopRequested s) eqn:Hs.
  { injection H as <-. apply (abandon_follows _ w (Evaluating run (Ended q p))); try done. by constructor. }
  unfold afterPass in H. destruct (isDuckClockScenario _ _); cbn [negb] in H.
  - destruct (length _ <? duckClockPassCountForTask)%nat eqn:El.
    { injection H as <-. apply (follows_same _ w (Evaluating run (Ended q p)) _ s); try done. constructor. cbn.
      apply Nat.ltb_lt in El. rewrite length_app in *. cbn in *. unfold duckClockPassCountForTask in El. lia. }
    destruct (passResults run ++ _) as [| one [| two [| three [| four [|]]]]]; try done.
    apply rbind_ok_inv in H as (c & _ & H). injection H as <-.
    apply (follows_same _ w (Evaluating run (Ended q p)) _ s); try done. constructor.
  - apply rbind_ok_inv in H as (c & _ & H). injection H as <-.
    apply (follows_same _ w (Evaluating run (Ended q p)) _ s); try done. constructor.
Qed.

Lemma notify_follows w woken r s s0 :
  workers s !! w = Some (Retired r) -> notify_one woken s = Some s0 -> follows (Notify w woken) s (goto w (Notified r) s0).
Proof.
  intros Hw Hn. exists w, (Retired r), (Notified r). pose proof (notify_one_other _ _ _ _ _ Hn Hw eq_refl) as Hw'.
  unfold notify_one in Hn. unfold woken_workers.
  destruct woken as [v |].
  - destruct (workers s !! v) as [[] |]; try done. injection Hn as <-. cbn in Hw'. split; [done |]. by split; [constructor |].
  - destruct (existsb _ _); [done |]. injection Hn as <-. by split; [| split; [constructor |]].
Qed.

Lemma step_follows event s s' : step event s = Some (Ok s') -> follows event s s'.
Proof.
  destruct event as [w | w | w | w | w | w | w | w outcome | w | w | w | w | w woken | w]; cbn [worker_step];
    destruct (workers s !! w) as [[] |] eqn:Hw; try done.
  - destruct (lockFree s); [| done]. intros [= <-]. by apply wake_follows.
  - intros [= <-]. apply (follows_same _ w Blocking _ s); try done. constructor.
  - intros [= <-]. apply (follows_same _ w Blocked _ s); try done. constructor.
  - intros [= H]. by eapply claim_follows.
  - destruct stage; try done. intros [= H]. by eapply begin_follows.
  - destruct stage; try done. intros [= <-]. destruct (set_runner_same w run true s) as [v ->].
    apply (follows_same _ w (Evaluating run (Prepared passQueued)) _ s); try done. constructor.
  - destruct stage; try done. intros H. apply fmap_Some in H as (s0 & H & [= ->]). unfold check in H.
    destruct (stopRequested s) eqn:Hs.
    + injection H as <-. destruct (set_runner_same w run false s) as [v ->].
      apply (abandon_follows _ w (Evaluating run (AtTop passQueued))); try done. by constructor.
    + destruct (paused s) eqn:Hp; [done |]. injection H as <-.
      apply (follows_same _ w (Evaluating run (AtTop passQueued)) _ s); try done. by constructor.
  - destruct stage; try done. intros [= <-].
    apply (follows_same _ w (Evaluating run (Stepping passQueued)) _ s); try done. destruct outcome; constructor.
  - destruct stage; try done. intros [= H]. by eapply end_pass_follows.
  - intros [= <-]. unfold finishResult. destruct (visible run); cbn [negb].
    + destruct (stopRequested s) eqn:Hs.
      * apply (abandon_follows _ w (Finishing run result)); try done. by constructor.
      * apply (follows_same _ w (Finishing run result) _ s); try done. constructor.
    + apply (follows_same _ w (Finishing run result) _ s); try done. constructor.
  - intros [= <-]. unfold visibleEvaluationComplete. destruct (release_same w true s) as [v ->].
    apply (follows_same _ w (Publishing result) _ s); try done. constructor.
  - intros [= <-]. exists w, (Finished result), (Retired result). split; [done |]. by split; [constructor |].
  - intros H. apply fmap_Some in H as (s0 & H & [= ->]). by apply notify_follows.
  - intros [= <-]. unfold deliver. destruct (stopRequested s) eqn:Hs.
    + apply (follows_same _ w (Notified result) _ s); try done. by constructor.
    + destruct result as [c |]; [apply (follows_same _ w (Notified (Some c)) _ s) | apply (follows_same _ w (Notified None) _ s)];
        try done; by constructor.
Qed.

(** ** Measures *)
Definition stageWeight (stage : Stage (Tok := Tok) (SC := SC) (Snapshot := Snapshot)) : nat :=
  match stage with Between => 5 | Prepared _ => 4 | AtTop _ => 3 | Stepping _ => 2 | Ended _ _ => 1 end.

Definition weight st : nat :=
  match st with
  | Exited => 0
  | Blocked => 1
  | Blocking => 2
  | Waiting => 3
  | Notified _ => 4
  | Retired _ => 7
  | Finished _ => 8
  | Publishing _ => 9
  | Finishing _ _ => 10
  | Evaluating run stage => 10 + 6 * (4 - length (passResults run)) + stageWeight stage
  | Claiming _ => 40
  end.

Definition total (f : Worker -> nat) (l : list Worker) : nat := foldr (fun st acc => f st + acc)%nat 0%nat l.

Lemma total_insert f l w st st' :
  l !! w = Some st -> (total f (<[w := st']> l) + f st = total f l + f st')%nat.
Proof.
  intros H. destruct (insert_split l w st H) as (l1 & l2 & E & Ei). rewrite Ei, E. unfold total.
  rewrite !foldr_app. cbn. clear. induction l1 as [| x l1 IH]; cbn; lia.
Qed.

Definition measure s : nat := (38 * length (taskQueue s) + total weight (workers s))%nat.

(** The steps that do not lower the measure: what they may add to it. *)
Definition credit (event : WorkerEvent (Snapshot := Snapshot)) : nat :=
  match event with StepRunner _ None => 2 | SpuriousWakeup _ => 3 | _ => 0 end.

Lemma woken_total (f : Worker -> nat) event s :
  (forall w v, event = Notify w (Some v) -> workers s !! v = Some Blocked) ->
  (total f (woken_workers event s) + (match event with Notify _ (Some _) => f Blocked | _ => 0 end)
   = total f (workers s) + (match event with Notify _ (Some _) => f Waiting | _ => 0 end))%nat.
Proof.
  intros H. unfold woken_workers. destruct event as [| | | | | | | | | | | | w [v |] |]; try lia.
  by apply total_insert, (H w).
Qed.

Lemma step_notified event s r :
  step event s = Some r -> forall w v, event = Notify w (Some v) -> workers s !! v = Some Blocked.
Proof.
  intros H w v ->. cbn in H. destruct (workers s !! w) as [[] |]; try done. apply fmap_Some in H as (s0 & H & _).
  cbn in H. by destruct (workers s !! v) as [[] |].
Qed.

Lemma measure_step event s s' : step event s = Some (Ok s') -> (measure s' + 1 <= measure s + credit event)%nat.
Proof.
  intros H. pose proof (woken_total weight event s (step_notified event s _ H)) as Hn.
  destruct (step_follows event s s' H) as (w & st & st' & Hw & He & EW & EQ).
  pose proof (total_insert weight _ w st st' Hw) as Ht. unfold measure. rewrite EW, EQ. clear H EW EQ.
  destruct He; cbn [weight stageWeight passResults length credit] in *; try lia.
  - rewrite H0 in *. cbn [tail length] in *. lia.
  - destruct woken; cbn in *; lia.
Qed.

(** A schedule: worker steps one after the other; [None] when one cannot be taken. *)
Fixpoint exec (events : list (WorkerEvent (Snapshot := Snapshot))) s : option (res State) :=
  match events with
  | [] => Some (Ok s)
  | event :: events =>
      match step event s with
      | Some (Ok s') => exec events s'
      | r => r
      end
  end.

Definition credits (events : list (WorkerEvent (Snapshot := Snapshot))) : nat :=
  foldr (fun event acc => credit event + acc)%nat 0%nat events.

Lemma exec_cons event events s r :
  exec (event :: events) s = Some (Ok r) -> exists s', step event s = Some (Ok s') /\ exec events s' = Some (Ok r).
Proof. cbn. destruct (step event s) as [[s' |] |]; [eauto | done | done]. Qed.

Lemma exec_length events s s' :
  exec events s = Some (Ok s') -> (length events + measure s' <= measure s + credits events)%nat.
Proof.
  revert s. induction events as [| event events IH]; intros s H; [injection H as <-; cbn; lia |].
  apply exec_cons in H as (s1 & H1 & H2). apply IH in H2. apply measure_step in H1. cbn [length credits foldr] in *.
  fold (credits events) in *. lia.
Qed.

(** ** An executor that is not stopping *)
Definition awake st : bool := match st with Blocking | Blocked | Exited => false | _ => true end.
Definition exited st : bool := match st with Exited => true | _ => false end.

Record Running s : Prop := {
  run_inv : Inv s;
  run_stop : stopRequested s = false;
  run_allowed : 1 <= allowedConcurrency s;
  run_alive : Forall (fun st => exited st = false) (workers s);
  run_staffed : workers s <> [];
  run_awake : taskQueue s = [] \/ Exists (fun st => awake st = true) (workers s)
}.

Lemma exists_insert (P : Worker -> Prop) (l : list Worker) w st st' :
  l !! w = Some st -> Exists P l -> (P st -> P st') -> Exists P (<[w := st']> l).
Proof.
  intros Hw HE Hst. apply Exists_exists in HE as (x & Hx & HP). apply list_elem_of_lookup_1 in Hx as [i Hi].
  apply Exists_exists. destruct (decide (w = i)) as [-> | Hne].
  - exists st'. split; [| apply Hst; congruence]. apply (list_elem_of_lookup_2 _ i), list_lookup_insert_eq.
    by apply lookup_lt_Some in Hw.
  - exists x. split; [| done]. apply (list_elem_of_lookup_2 _ i). by rewrite list_lookup_insert_ne.
Qed.

Lemma exists_here (P : Worker -> Prop) (l : list Worker) w st st' :
  l !! w = Some st -> P st' -> Exists P (<[w := st']> l).
Proof.
  intros Hw HP. apply Exists_exists. exists st'. split; [| done].
  apply (list_elem_of_lookup_2 _ w), list_lookup_insert_eq. by apply lookup_lt_Some in Hw.
Qed.

(** A worker goes to sleep only while the queue is empty or another one is busy. *)
Lemma busy_exists s : Inv s -> 1 <= activeEvaluations s -> Exists (fun st => busy st = true) (workers s).
Proof.
  intros I Ha. rewrite (inv_active s I) in Ha. apply Exists_exists.
  destruct (List.filter busy (workers s)) as [| st l] eqn:E; [cbn in Ha; lia |].
  assert (List.In st (List.filter busy (workers s))) as Hin by (rewrite E; by left).
  apply List.filter_In in Hin as [Hin Hb]. exists st. by split; [apply list_elem_of_In |].
Qed.

Lemma awake_step event s s' :
  Running s -> step event s = Some (Ok s') -> taskQueue s' = [] \/ Exists (fun st => awake st = true) (workers s').
Proof.
  intros R H. destruct (step_follows event s s' H) as (w & st & st' & Hw & He & EW & EQ).
  destruct (awake st') eqn:Ea; [right; rewrite EW; by eapply exists_here |].
  destruct He; try done; unfold woken_workers in *.
  - pose proof (run_stop s R). congruence.
  - destruct (taskQueue s) as [| q queue] eqn:Eq; [by left |]. right. rewrite EW.
    destruct H1 as [? | Hle]; [done |]. apply (Exists_impl (fun st => busy st = true)); [| by intros []].
    apply (exists_insert _ _ w Waiting); [done | | done]. pose proof (run_allowed s R). apply busy_exists; [apply R | lia].
  - rewrite EQ. destruct (run_awake s R) as [? | HE]; [by left | right]. rewrite EW. by eapply exists_insert.
  - pose proof (run_stop s R). congruence.
Qed.

Lemma alive_step event s s' :
  Running s -> step event s = Some (Ok s') -> Forall (fun st => exited st = false) (workers s').
Proof.
  intros R H. destruct (step_follows event s s' H) as (w & st & st' & Hw & He & EW & EQ). rewrite EW.
  apply Forall_insert; [| destruct He; try done; pose proof (run_stop s R); congruence].
  unfold woken_workers. destruct event as [| | | | | | | | | | | | ? [v |] |]; try apply R.
  apply Forall_insert; [apply R | done].
Qed.

Lemma running_step event s r :
  Running s -> event_ok event -> step event s = Some r -> wp r (fun s' => Running s' /\ good_step s s').
Proof.
  intros R He H. pose proof (worker_step_good mergePasses event s r (run_inv s R) He H) as G.
  destruct r as [s' |]; [| done]. cbn in *. split; [| done]. destruct G as (I & S & _).
  pose proof (step_follows event s s' H) as (w & st & st' & Hw & _ & EW & _). split.
  - done.
  - rewrite (ss_stop _ _ S). apply R.
  - rewrite (ss_allowed _ _ S). apply R.
  - by eapply alive_step.
  - intros E. rewrite EW in E. apply (f_equal (lookup w)) in E. rewrite list_lookup_insert_eq in E; [done |].
    by apply lookup_lt_Some in Hw.
  - by eapply awake_step.
Qed.

(** ** When nothing moves *)
Definition spurious (event : WorkerEvent (Snapshot := Snapshot)) : bool := match event with SpuriousWakeup _ => true | _ => false end.

Definition quiescent s : Prop := forall event, spurious event = false -> step event s = None.

Lemma quiescent_lock s : quiescent s -> lockFree s = true.
Proof.
  intros Q. unfold lockFree. apply forallb_forall. intros st Hst. apply list_elem_of_In, list_elem_of_lookup_1 in Hst as [w Hw].
  destruct st; try done. specialize (Q (Sleep w) eq_refl). cbn in Q. by rewrite Hw in Q.
Qed.

(** A worker that has a step to take. *)
Lemma quiescent_worker s w st :
  quiescent s -> paused s = false -> workers s !! w = Some st -> st = Blocked \/ st = Exited.
Proof.
  intros Q Hp Hw. pose proof (quiescent_lock s Q) as Hl. destruct st as [| | | q | run stage | run c | c | r | r | r |]; auto; exfalso.
  - specialize (Q (Wake w) eq_refl). cbn in Q. by rewrite Hw, Hl in Q.
  - specialize (Q (Sleep w) eq_refl). cbn in Q. by rewrite Hw in Q.
  - specialize (Q (Claim w) eq_refl). cbn in Q. by rewrite Hw in Q.
  - destruct stage as [| q | q | q | q p].
    + specialize (Q (BeginPass w) eq_refl). cbn in Q. by rewrite Hw in Q.
    + specialize (Q (Register w) eq_refl). cbn in Q. by rewrite Hw in Q.
    + specialize (Q (CheckPause w) eq_refl). cbn in Q. rewrite Hw in Q. unfold check in Q.
      destruct (stopRequested s); [done |]. by rewrite Hp in Q.
    + specialize (Q (StepRunner w None) eq_refl). cbn in Q. by rewrite Hw in Q.
    + specialize (Q (EndPass w) eq_refl). cbn in Q. by rewrite Hw in Q.
  - specialize (Q (Finish w) eq_refl). cbn in Q. by rewrite Hw in Q.
  - specialize (Q (Publish w) eq_refl). cbn in Q. by rewrite Hw in Q.
  - specialize (Q (Retire w) eq_refl). cbn in Q. by rewrite Hw in Q.
  - destruct (existsb isBlocked (workers s)) eqn:E.
    + apply existsb_exists in E as (st & Hst & Hb). apply list_elem_of_In, list_elem_of_lookup_1 in Hst as [v Hv].
      specialize (Q (Notify w (Some v)) eq_refl). cbn in Q. rewrite Hw, Hv in Q. by destruct st.
    + specialize (Q (Notify w None) eq_refl). cbn in Q. by rewrite Hw, E in Q.
  - specialize (Q (Deliver w) eq_refl). cbn in Q. by rewrite Hw in Q.
Qed.

(** An executor at rest has no task left. *)
Lemma quiescent_done s :
  Running s -> quiescent s -> paused s = false ->
  bag s = map CompletedEvaluation.ticket (resultQueue s) ++ map CompletedEvaluation.ticket (completed s).
Proof.
  intros R Q Hp. assert (forall st, st ∈ workers s -> st = Blocked) as HB.
  { intros st Hst. pose proof Hst as Hin. apply list_elem_of_lookup_1 in Hst as [w Hw].
    destruct (quiescent_worker s w st Q Hp Hw) as [-> | ->]; [done |].
    pose proof (proj1 (Forall_forall _ _) (run_alive s R) _ Hin). done. }
  assert (workers s ≫= stateTickets = []) as Hw.
  { clear -HB. induction (workers s) as [| st l IH]; [done |]. cbn. rewrite (HB st) by by left. cbn. apply IH.
    intros st' H. apply HB. by right. }
  unfold bag. rewrite Hw. destruct (run_awake s R) as [-> | HE]; [done |].
  apply Exists_exists in HE as (st & Hin & Ha). by rewrite (HB st Hin) in Ha.
Qed.

End Runs.
