(* ===== verification/ExecutorCorrect.v ===== *)
(** The evaluation executor: the theorems.

    [reachable] is what the server's thread and the workers can do between [start]
    and [stop], in any interleaving, when the server submits as the training does:
    when every request it gave has been answered. Then nothing is lost or answered
    twice, no assertion fails, every request is answered, a pause comes into
    force. [stop] may hang.

    Last, the merge of the command signatures of two passes, which counts in a hash
    map and sorts what it finds: the result does not depend on the order of the map. *)

From Stdlib Require Import ZArith Lia Bool String OrdersEx.
From stdpp Require Import base gmap option numbers list strings sorting.
From S2P Require Import Prelude Ieee StdModel Genomes Training.
From S2P Require Import EvaluationTypes EvaluationExecutor ExecutorFacts ExecutorRuns.
Import EvaluationExecutor.

Set Default Goal Selector "!".

Section Correct.
Context {Tok SC Snapshot : Type}.
Context `{UW : !UnorderedWalk, SS : !StdSort}.
Context (mergePasses : list FitnessEvaluation.t -> FitnessEvaluation.t).
Context (bootstrap : ScenarioId -> option SC -> Result Tok string).

Abbreviation State := (EvaluationExecutor.t (Tok := Tok) (SC := SC) (Snapshot := Snapshot)).
Abbreviation Worker := (EvaluationExecutor.WorkerState (Tok := Tok) (SC := SC) (Snapshot := Snapshot)).
Abbreviation Queued := (EvaluationExecutor.QueuedEvaluation (Tok := Tok) (SC := SC)).
Abbreviation step := (worker_step (Tok := Tok) (SC := SC) (Snapshot := Snapshot) mergePasses).
Implicit Types (s : State) (st : Worker) (w : nat).

(** ** Waking every sleeper *)
Definition roused st : Worker := if isBlocked st then Waiting else st.

Lemma notify_all_good s : Inv s -> good_step s (notify_all s).
Proof.
  intros I. assert (List.filter busy (map roused (workers s)) = map roused (List.filter busy (workers s))) as EF.
  { induction (workers s) as [| st l IH]; [done |]. cbn. destruct st; cbn; by rewrite IH. }
  assert (map roused (workers s) ≫= stateTickets = workers s ≫= stateTickets) as ET.
  { clear. induction (workers s) as [| st l IH]; [done |]. cbn in *. rewrite IH. by destruct st. }
  split; [split; cbn; try apply I | split; [done |]].
  - rewrite length_map. apply I.
  - rewrite (inv_active s I). fold roused. by rewrite EF, length_map.
  - apply Forall_map. eapply Forall_impl; [apply (inv_workers s I) |]. intros st. unfold compose. by destruct st.
  - intros w st H. apply list_lookup_fmap_Some in H as (st0 & -> & H). unfold owns in *. cbn.
    pose proof (inv_handle s I w st0 H) as Hh. by destruct st0.
  - intros h Hh. destruct (inv_queued s I h Hh) as (st & Hst & HF). exists (roused st).
    split; [| by destruct st]. rewrite list_lookup_fmap, Hst. done.
  - intros _. unfold bag. cbn. fold roused. by rewrite ET.
Qed.

Lemma notify_all_lock s : lockFree s = true -> lockFree (notify_all s) = true.
Proof.
  unfold lockFree. cbn. rewrite !forallb_forall. intros Hl st Hin. apply in_map_iff in Hin as (st0 & <- & Hin).
  specialize (Hl st0 Hin). by destruct st0.
Qed.

Lemma notify_all_running s :
  Inv s -> stopRequested s = false -> 1 <= allowedConcurrency s -> Forall (fun st => exited st = false) (workers s) ->
  workers s <> [] -> lockFree s = true -> Running (notify_all s) /\ lockFree (notify_all s) = true.
Proof.
  intros I Hs Ha HF Hne Hl. pose proof (notify_all_good s I) as (I' & _). split; [| by apply notify_all_lock].
  split; try done.
  - cbn. apply Forall_map. eapply Forall_impl; [apply HF |]. intros st. by destruct st.
  - cbn. by destruct (workers s).
  - right. cbn. unfold lockFree in Hl. destruct (workers s) as [| st l]; [done |]. cbn in *. left. apply Forall_inv in HF.
    apply andb_true_iff in Hl as [Hl _]. by destruct st.
Qed.

(** ** Submitting *)
Definition resolvable (spec : ScenarioId) (override : option SC) (tokenizer : option Tok) (r : EvaluationRequest.t) : Prop :=
  0 <= EvaluationRequest.index r /\
  (requiresNesTileTokenizer (EvaluationRequest.individual r) = true ->
   requestScenario r = spec /\ (tokenizer <> None \/ exists tok, bootstrap spec override = okay tok)).

Definition acceptable_request (r : EvaluationRequest.t) (override : option SC) s : Prop :=
  resolvable (TrainingSpec.scenarioId (trainingSpec s)) override (nesTileTokenizer_ s) r.

Lemma queue_requests_ok spec requests config override shared :
  (shared = (None, None) \/ exists tok, shared = (Some tok, Some spec)) ->
  Forall (resolvable spec override (fst shared)) requests ->
  wp (queue_requests bootstrap requests config override shared) (fun qs : list Queued => map request qs = requests).
Proof.
  revert shared. induction requests as [| r requests IH]; intros shared Hs HF; cbn [queue_requests]; [by apply wp_ok |].
  apply Forall_cons in HF as [[Hr Hreq] HF]. unfold resolveNesTileTokenizerForQueuedRequest.
  destruct (requiresNesTileTokenizer _) eqn:Eq; cbn [negb].
  - destruct (Hreq eq_refl) as [Hspec Htok]. destruct Hs as [-> | [tok ->]].
    + destruct Htok as [? | [tok Hb]]; [done |]. rewrite Hspec, Hb. cbn [rbind]. apply wp_bind.
      eapply wp_mono; [apply IH; [by right; exists tok |] | intros qs Hqs; apply wp_ok; cbn; by rewrite Hqs].
      eapply Forall_impl; [exact HF |]. intros r' [H1 H2]. split; [done |]. intros H. destruct (H2 H) as [? _]. by split; [| left].
    + rewrite bool_decide_eq_true_2 by by rewrite Hspec. cbn [dirtsim_assert rbind]. apply wp_bind.
      eapply wp_mono; [apply IH; [by right; exists tok | done] | intros qs Hqs; apply wp_ok; cbn; by rewrite Hqs].
  - cbn [rbind]. apply wp_bind. eapply wp_mono; [by apply IH | intros qs Hqs; apply wp_ok; cbn; by rewrite Hqs].
Qed.

Lemma shared_cases s : sharedTokenizer s = (None, None) \/ exists tok, sharedTokenizer s = (Some tok, Some (TrainingSpec.scenarioId (trainingSpec s))).
Proof. unfold sharedTokenizer. destruct (nesTileTokenizer_ s) as [tok |]; eauto. Qed.

(** Nothing in the bag: no evaluation is visible, the queue is empty. *)
Lemma empty_bag s : Inv s -> bag s = [] -> activeHandle s = None /\ taskQueue s = [].
Proof.
  intros I HB. unfold bag in HB. apply app_eq_nil in HB as [Hq HB]. apply app_eq_nil in HB as [Hw _].
  split; [| by destruct (taskQueue s)]. destruct (activeHandle s) as [h |] eqn:E; [| done]. exfalso.
  destruct (inv_queued s I h E) as (st & Hst & _). pose proof (inv_handle s I _ _ Hst) as Hh.
  unfold owns in Hh. rewrite E, Nat.eqb_refl in Hh. destruct (insert_split _ _ _ Hst) as (l1 & l2 & El & _).
  rewrite El, bind_app in Hw. cbn in Hw. apply app_eq_nil in Hw as [_ Hw]. apply app_eq_nil in Hw as [Hw _].
  by destruct st.
Qed.

Lemma set_queue_inv (qs : list Queued) s : Inv s -> Forall task_ok qs -> Inv (set_taskQueue qs s).
Proof. intros I HF. split; cbn; try apply I; done. Qed.

Lemma tasks_ok_requests (qs : list Queued) : Forall request_ok (map request qs) -> Forall task_ok qs.
Proof. exact (proj1 (Forall_map request request_ok qs)). Qed.

Lemma queued_tickets (qs : list Queued) : map queuedTicket qs = map EvaluationRequest.ticket (map request qs).
Proof. by rewrite map_map. Qed.

Lemma bag_set_queue (qs : list Queued) s : taskQueue s = [] -> bag (set_taskQueue qs s) = map queuedTicket qs ++ bag s.
Proof. intros E. unfold bag. cbn. by rewrite E. Qed.

Definition ready s : Prop := Running s /\ lockFree s = true.

(** What a submission does, when nothing is left to answer. *)
Lemma submit_ok requests config override s (fin : list Queued -> list Queued) :
  (forall qs, fin qs = taskQueue s ++ qs \/ fin qs = qs) ->
  ready s -> bag s = [] -> Forall request_ok requests -> Forall (fun r => acceptable_request r override s) requests ->
  wp (let! qs := queue_requests bootstrap requests config override (sharedTokenizer s) in Ok (notify_all (set_taskQueue (fin qs) s)))
    (fun s' => ready s' /\ bag s' ≡ₚ map EvaluationRequest.ticket requests /\
       forall r o, acceptable_request r o s -> acceptable_request r o s').
Proof.
  intros Hfin [R Hl] HB HR HF. destruct (empty_bag s (run_inv s R) HB) as [_ Eq].
  assert (forall qs, fin qs = qs) as Hid by (intros qs; destruct (Hfin qs) as [-> | ->]; [by rewrite Eq | done]).
  assert (fst (sharedTokenizer s) = nesTileTokenizer_ s) as Ef by done.
  apply wp_bind. eapply wp_mono; [apply (queue_requests_ok (TrainingSpec.scenarioId (trainingSpec s))); [apply shared_cases | by rewrite Ef] |].
  intros qs Hqs. apply wp_ok. rewrite Hid.
  assert (Forall task_ok qs) as Hok.
  { apply tasks_ok_requests. by rewrite Hqs. }
  pose proof (set_queue_inv qs s (run_inv s R) Hok) as I. pose proof (notify_all_good _ I) as (_ & S & HBn).
  split; [| split].
  - apply notify_all_running; try done; apply R.
  - rewrite HBn by apply R. rewrite bag_set_queue, HB, app_nil_r, queued_tickets, Hqs by done. done.
  - intros r o. by unfold acceptable_request.
Qed.

Lemma generation_batch_ok requests config override s :
  ready s -> bag s = [] -> Forall generation_request requests -> Forall (fun r => acceptable_request r override s) requests ->
  wp (generationBatchSubmit bootstrap requests config override s) (fun s' =>
    ready s' /\ bag s' ≡ₚ map EvaluationRequest.ticket requests /\
    forall r o, acceptable_request r o s -> acceptable_request r o s').
Proof.
  intros R HB HG HF. destruct (empty_bag s (run_inv s (proj1 R)) HB) as [Eh _].
  unfold generationBatchSubmit, noVisibleEvaluation. rewrite Eh. cbn [bool_decide dirtsim_assert rbind].
  apply (submit_ok requests config override s (fun qs => qs)); auto.
  rewrite Forall_forall in *. intros r Hr. split; [apply (HF r Hr) |]. intros Ht. rewrite (HG r Hr) in Ht. done.
Qed.

Lemma robustness_pass_ok r n config override s :
  ready s -> bag s = [] -> 0 < n -> acceptable_request r override s ->
  wp (robustnessPassSubmit bootstrap r n config override s) (fun s' =>
    ready s' /\ bag s' ≡ₚ sampleTickets r n /\ forall r o, acceptable_request r o s -> acceptable_request r o s').
Proof.
  intros R HB Hn [Hr Hreq]. destruct (empty_bag s (run_inv s (proj1 R)) HB) as [Eh _].
  unfold robustnessPassSubmit, noVisibleEvaluation. rewrite Eh. cbn [bool_decide dirtsim_assert rbind].
  rewrite Z.max_r by lia. unfold sampleTickets. rewrite <- (map_map (fun o => EvaluationRequest.with_ordinal o r) EvaluationRequest.ticket).
  apply (submit_ok (sampleRequests r n) config override s (fun qs => taskQueue s ++ qs)); auto;
    unfold sampleRequests; apply Forall_map, Forall_forall; intros ordinal Hin; apply elem_of_seqZ in Hin; [| done].
  split; [done |]. intros _. cbn. lia.
Qed.

(** ** The executor keeps the contract of [EvaluationService] *)
#[global] Instance executor_service : EvaluationService State SC := {
  generationBatchSubmit := EvaluationExecutor.generationBatchSubmit bootstrap;
  robustnessPassSubmit := EvaluationExecutor.robustnessPassSubmit bootstrap
}.

#[global] Program Instance executor_laws : EvaluationServiceLaws State SC := {
  outstanding := bag;
  service_ready := ready;
  acceptable := acceptable_request
}.
Next Obligation. intros. by apply generation_batch_ok. Qed.
Next Obligation. intros. by apply robustness_pass_ok. Qed.

(** ** The server's other operations *)
Lemma spawn_running spec tokenizer n :
  n < 2 ^ 31 -> Running (spawn n (make spec tokenizer) : State) /\ bag (spawn n (make spec tokenizer) : State) = [].
Proof.
  intros Hn. assert (forall k, (replicate k Waiting : list Worker) ≫= stateTickets = []) as ET
    by (intros k; by induction k).
  assert (forall k, List.filter busy (replicate k Waiting : list Worker) = []) as EF by (intros k; by induction k).
  split; [| unfold bag; cbn; by rewrite ET].
  split; cbn; try done.
  - split; cbn; try done.
    + rewrite length_replicate. lia.
    + lia.
    + by rewrite EF.
    + apply Forall_replicate. done.
    + intros w st H. apply lookup_replicate in H as [-> _]. done.
  - lia.
  - by apply Forall_replicate.
  - destruct (Z.to_nat (Z.max 1 n)) eqn:E; [lia | done].
  - by left.
Qed.

Lemma drain_running s : Running s -> Running (fst (completedDrain s)).
Proof. intros R. split; try apply R. split; apply R. Qed.
Lemma visible_running s : Running s -> Running (fst (visibleTick s)).
Proof. intros R. split; try apply R. split; apply R. Qed.
Lemma pause_running b s : Running s -> Running (pauseSet b s).
Proof. intros R. split; try apply R. split; apply R. Qed.

Lemma allow_running n s : Running s -> 1 <= n -> Running (allowedConcurrencySet n s).
Proof.
  intros R Hn. unfold allowedConcurrencySet. set (m := Z.max 0 (Z.min n (backgroundWorkerCount s))).
  assert (Inv (set_allowedConcurrency m s)) as I by (split; apply R).
  pose proof (notify_all_good _ I) as (I' & S & _). split; [done | apply R | | | |].
  - cbn. unfold m. pose proof (inv_count s (run_inv s R)). pose proof (run_staffed s R).
    destruct (workers s); [done |]. cbn in *. lia.
  - cbn. apply Forall_map. eapply Forall_impl; [apply (run_alive s R) |]. intros st. by destruct st.
  - cbn. pose proof (run_staffed s R). by destruct (workers s).
  - destruct (run_awake s R) as [? | HE]; [by left | right]. cbn. apply Exists_exists in HE as (st & Hin & Ha).
    apply Exists_exists. exists (roused st). split; [| by destruct st]. apply list_elem_of_In, in_map_iff. exists st.
    split; [done | by apply list_elem_of_In].
Qed.

Lemma override_visible_key scenario override outcome s :
  exists v, fst (override_visible scenario override outcome s) = set_activeHandle v s /\
    handleKey (set_activeHandle v s) = handleKey s.
Proof.
  assert (set_activeHandle (activeHandle s) s = s) as E by (by destruct s).
  unfold override_visible. destruct (activeHandle s) as [h |] eqn:Eh; [| exists None; by rewrite E].
  destruct (negb _); [exists (Some h); by rewrite E |]. destruct (requiresNesTileTokenizer _); [exists (Some h); by rewrite E |].
  exists (Some (mkHandle (owner h) (mkQueued (request (queued h)) (evolutionConfig (queued h)) (nesTileTokenizer (queued h)) override) (runner h))).
  split; [| unfold handleKey; by rewrite Eh].
  destruct override; [| done]. destruct (negb _); [done |]. by destruct outcome.
Qed.

Lemma same_handle_inv v s : Inv s -> handleKey (set_activeHandle v s) = handleKey s -> Inv (set_activeHandle v s).
Proof.
  intros I Hk. split; cbn; try apply I.
  - intros w st Hst. rewrite (inv_handle s I w st Hst), !owns_key. by rewrite Hk.
  - intros h Hh. destruct (handleKey_inv s (set_activeHandle v s) h Hk Hh) as (h' & Eh & Eo & Eq).
    rewrite Eo, Eq. by apply I.
Qed.

Lemma override_queue_requests scenario override shared (qs : list Queued) :
  map request (map (override_queued scenario override shared) qs) = map request qs.
Proof. rewrite map_map. apply map_ext. intros q. unfold override_queued. by case_bool_decide. Qed.

Lemma override_running override scenario outcome s :
  Running s ->
  Running (fst (scenarioConfigOverrideSet bootstrap override scenario outcome s)) /\
  bag (fst (scenarioConfigOverrideSet bootstrap override scenario outcome s)) = bag s.
Proof.
  intros R.
  assert (forall shared tok,
    let s0 := set_taskQueue (map (override_queued scenario override shared) (taskQueue s)) (set_nesTileTokenizer_ tok s) in
    Running (fst (override_visible scenario override outcome s0)) /\ bag (fst (override_visible scenario override outcome s0)) = bag s) as H.
  { intros shared tok s0. pose proof (override_queue_requests scenario override shared (taskQueue s)) as Er.
    assert (Inv s0) as I.
    { apply (set_queue_inv _ (set_nesTileTokenizer_ tok s)); [split; apply R |].
      apply tasks_ok_requests. rewrite Er. apply Forall_map. exact (inv_queue s (run_inv s R)). }
    destruct (override_visible_key scenario override outcome s0) as (v & -> & Hk).
    split; [| unfold bag; cbn; by rewrite !queued_tickets, Er].
    split; try apply R; [by apply same_handle_inv |]. cbn.
    destruct (run_awake s R) as [-> | ?]; [by left | by right]. }
  unfold scenarioConfigOverrideSet. destruct (existsb _ _); [destruct (bootstrap scenario override) as [tok | e]; [apply H | done] |].
  assert (set_nesTileTokenizer_ (nesTileTokenizer_ s) s = s) as E by (by destruct s).
  specialize (H None (nesTileTokenizer_ s)). by rewrite E in H.
Qed.

(** *** Collecting *)
#[global] Instance executor_collector : EvaluationCollector State Snapshot := {
  completedDrain := @EvaluationExecutor.completedDrain Tok SC Snapshot;
  visibleTick := @EvaluationExecutor.visibleTick Tok SC Snapshot
}.

#[global] Program Instance executor_collector_laws : EvaluationCollectorLaws State SC Snapshot.
Next Obligation.
  intros s [R Hl]. split; [split; [by apply drain_running | done] |]. split; [| done].
  unfold bag. cbn. solve_Permutation.
Qed.
Next Obligation.
  intros s [R Hl]. split; [split; [by apply visible_running | done] |]. split; [| done].
  unfold bag. cbn. solve_Permutation.
Qed.

(** ** It keeps the contract of [EvaluationTuning] *)
Lemma allow_bag n s : Running s -> bag (allowedConcurrencySet n s) ≡ₚ bag s.
Proof.
  intros R. assert (Inv (set_allowedConcurrency (Z.max 0 (Z.min n (backgroundWorkerCount s))) s)) as I by (split; apply R).
  destruct (notify_all_good _ I) as (_ & _ & HB). apply HB, R.
Qed.

#[global] Instance executor_tuning : EvaluationTuning State := {
  executorPauseSet := @EvaluationExecutor.pauseSet Tok SC Snapshot;
  backgroundWorkerCountGet := @EvaluationExecutor.backgroundWorkerCountGet Tok SC Snapshot;
  allowedConcurrencyGet := @EvaluationExecutor.allowedConcurrencyGet Tok SC Snapshot;
  allowedConcurrencySet := @EvaluationExecutor.allowedConcurrencySet Tok SC Snapshot
}.

#[global] Program Instance executor_tuning_laws : EvaluationTuningLaws State SC.
Next Obligation. intros b s [R Hl]. split; [split; [by apply pause_running | done] |]. by split. Qed.
Next Obligation. intros s [R _]. apply R. Qed.
Next Obligation.
  intros n s [R Hl] Hn. split; [split; [by apply allow_running | by apply notify_all_lock] |].
  split; [by apply allow_bag | done].
Qed.

(** ** Between [start] and [stop] *)
Inductive reachable : list Ticket -> list (CompletedEvaluation.t Snapshot) -> State -> Prop :=
| reach_start spec tokenizer n : n < 2 ^ 31 -> reachable [] [] (spawn n (make spec tokenizer))
| reach_worker given answers s event s' :
    reachable given answers s -> event_ok event -> step event s = Some (Ok s') -> reachable given answers s'
| reach_batch given answers s requests config override s' :
    reachable given answers s -> lockFree s = true -> map CompletedEvaluation.ticket answers ≡ₚ given ->
    Forall generation_request requests -> Forall (fun r => acceptable_request r override s) requests ->
    EvaluationExecutor.generationBatchSubmit bootstrap requests config override s = Ok s' ->
    reachable (given ++ map EvaluationRequest.ticket requests) answers s'
| reach_robust given answers s request n config override s' :
    reachable given answers s -> lockFree s = true -> map CompletedEvaluation.ticket answers ≡ₚ given ->
    0 < n -> acceptable_request request override s ->
    EvaluationExecutor.robustnessPassSubmit bootstrap request n config override s = Ok s' ->
    reachable (given ++ sampleTickets request n) answers s'
| reach_drain given answers s : reachable given answers s -> reachable given (answers ++ resultQueue s) (fst (completedDrain s))
| reach_visible given answers s : reachable given answers s -> reachable given (answers ++ completed s) (fst (visibleTick s))
| reach_pause given answers s b : reachable given answers s -> reachable given answers (pauseSet b s)
| reach_allow given answers s n : reachable given answers s -> 1 <= n -> reachable given answers (allowedConcurrencySet n s)
| reach_override given answers s override scenario outcome :
    reachable given answers s -> reachable given answers (fst (scenarioConfigOverrideSet bootstrap override scenario outcome s)).

Definition balanced (given : list Ticket) (answers : list (CompletedEvaluation.t Snapshot)) s : Prop :=
  map CompletedEvaluation.ticket answers ++ bag s ≡ₚ given.

Lemma balanced_empty given answers s :
  balanced given answers s -> map CompletedEvaluation.ticket answers ≡ₚ given -> bag s = [].
Proof.
  intros HB HG. unfold balanced in HB. rewrite <- HG in HB. apply Permutation_length in HB. rewrite length_app in HB.
  apply nil_length_inv. lia.
Qed.

Lemma reachable_balanced given answers s : reachable given answers s -> Running s /\ balanced given answers s.
Proof.
  induction 1 as [spec tokenizer n Hn | given answers s event s' _ [R B] He H | given answers s requests config override s' _ [R B] Hl HG Ht HF H
    | given answers s r n config override s' _ [R B] Hl HG Hn HF H | given answers s _ [R B] | given answers s _ [R B] | given answers s b _ [R B]
    | given answers s n _ [R B] Hn | given answers s override scenario outcome _ [R B]].
  - destruct (spawn_running spec tokenizer n Hn) as [R HB]. split; [done |]. unfold balanced. by rewrite HB.
  - destruct (running_step mergePasses event s (Ok s') R He H) as [R' (_ & _ & HB)]. split; [done |].
    unfold balanced in *. by rewrite HB by apply R.
  - pose proof (balanced_empty _ _ _ B HG) as HE. pose proof (generation_batch_ok requests config override s (conj R Hl) HE Ht HF) as W.
    rewrite H in W. destruct W as ([R' _] & HB & _). split; [done |]. unfold balanced. by rewrite HB, HG.
  - pose proof (balanced_empty _ _ _ B HG) as HE. pose proof (robustness_pass_ok r n config override s (conj R Hl) HE Hn HF) as W.
    rewrite H in W. destruct W as ([R' _] & HB & _). split; [done |]. unfold balanced. by rewrite HB, HG.
  - split; [by apply drain_running |]. unfold balanced, bag in *. cbn. rewrite map_app, <- B. solve_Permutation.
  - split; [by apply visible_running |]. unfold balanced, bag in *. cbn. rewrite map_app, <- B. solve_Permutation.
  - split; [by apply pause_running | done].
  - split; [by apply allow_running |]. unfold balanced in *. by rewrite <- B, allow_bag.
  - destruct (override_running override scenario outcome s R) as [R' HB]. split; [done |]. unfold balanced. by rewrite HB.
Qed.

(** ** Every request is answered once, and no assertion fails *)

(** C17. Whatever the interleaving of the workers and of the server, each ticket
    given to the executor has been answered once or is still in the executor
    (queued, under evaluation or among the results), no step of a worker fails,
    and the server's next submission finds no evaluation visible and is accepted. *)
Theorem executor_answers_once given answers s :
  reachable given answers s ->
  map CompletedEvaluation.ticket answers ++ bag s ≡ₚ given /\
  (forall event r, event_ok event -> step event s = Some r -> exists s', r = Ok s') /\
  (forall requests config override,
     map CompletedEvaluation.ticket answers ≡ₚ given -> lockFree s = true -> Forall generation_request requests ->
     Forall (fun r => acceptable_request r override s) requests ->
     exists s', EvaluationExecutor.generationBatchSubmit bootstrap requests config override s = Ok s' /\
       bag s' ≡ₚ map EvaluationRequest.ticket requests).
Proof.
  intros H. destruct (reachable_balanced _ _ _ H) as [R B]. split; [done |]. split.
  - intros event r He Hr. apply (running_step mergePasses event s r R He) in Hr. destruct r as [s' |]; [by exists s' | done].
  - intros requests config override HG Hl Ht HF.
    pose proof (generation_batch_ok requests config override s (conj R Hl) (balanced_empty _ _ _ B HG) Ht HF) as W.
    apply wp_elim in W as (s' & E & _ & HB & _). by exists s'.
Qed.

Lemma exec_running events s s' :
  Running s -> Forall event_ok events -> exec mergePasses events s = Some (Ok s') ->
  Running s' /\ same_settings s s' /\ bag s' ≡ₚ bag s.
Proof.
  revert s. induction events as [| event events IH]; intros s R HF H; [injection H as <-; done |].
  apply Forall_cons in HF as [He HF]. apply exec_cons in H as (s1 & H1 & H2).
  destruct (running_step mergePasses event s (Ok s1) R He H1) as [R1 (_ & S1 & B1)].
  destruct (IH s1 R1 HF H2) as (R2 & S2 & B2). split; [done |]. split.
  - split; etransitivity; (apply S2 || apply S1).
  - rewrite B2. apply B1, R.
Qed.

(** C18. The workers answer everything: a schedule of their steps is no longer than
    the measure of its start, the simulation steps that leave a run running and
    the spurious wake-ups apart; and when no worker can take a step any more, every
    ticket has its answer, collected or waiting to be. No wake-up is lost that
    would leave a queued task without a worker. *)
Theorem executor_finishes given answers s events s' :
  reachable given answers s -> paused s = false -> Forall event_ok events -> exec mergePasses events s = Some (Ok s') ->
  (length events <= measure s + credits events)%nat /\
  (quiescent mergePasses s' -> map CompletedEvaluation.ticket (answers ++ resultQueue s' ++ completed s') ≡ₚ given).
Proof.
  intros H Hp HF HE. destruct (reachable_balanced _ _ _ H) as [R B].
  destruct (exec_running events s s' R HF HE) as (R' & S & HB). split.
  - pose proof (exec_length mergePasses events s s' HE). lia.
  - intros Q. unfold balanced in B. rewrite <- B, <- HB.
    rewrite (quiescent_done mergePasses s' R' Q) by (rewrite (ss_paused _ _ S); done). by rewrite !map_app.
Qed.

(** ** Pausing *)
Definition steppers s : nat := total (fun st => match st with Evaluating _ (Stepping _) => 1 | _ => 0 end)%nat (workers s).

Definition isSimulationStep (event : WorkerEvent (Snapshot := Snapshot)) : bool :=
  match event with StepRunner _ _ => true | _ => false end.

(** No worker enters a simulation step while the executor is paused or stopping. *)
Lemma steppers_step event s s' :
  paused s = true \/ stopRequested s = true -> step event s = Some (Ok s') ->
  (steppers s' + (if isSimulationStep event then 1 else 0) <= steppers s)%nat.
Proof.
  intros Hp H.
  pose proof (woken_total (fun st => match st with Evaluating _ (Stepping _) => 1 | _ => 0 end)%nat event s
                (step_notified mergePasses event s _ H)) as Hn.
  destruct (step_follows mergePasses event s s' H) as (w & st & st' & Hw & He & EW & _).
  pose proof (total_insert (fun st => match st with Evaluating _ (Stepping _) => 1 | _ => 0 end)%nat _ w st st' Hw) as Ht.
  unfold steppers. rewrite EW. clear H EW.
  destruct He; cbn [isSimulationStep] in *; try lia; destruct Hp; congruence.
Qed.

(** A pause comes into force: while it lasts, the workers take at most the
    simulation steps that were under way when it was set, one for each worker
    that was stepping. *)
Lemma executor_pauses given answers s events s' :
  reachable given answers s -> Forall event_ok events -> exec mergePasses events (pauseSet true s) = Some (Ok s') ->
  (length (List.filter isSimulationStep events) <= steppers s)%nat.
Proof.
  intros H HF HE. destruct (reachable_balanced _ _ _ H) as [R _]. apply (pause_running true) in R. change (steppers s) with (steppers (pauseSet true s)).
  assert (paused (pauseSet true s) = true) as Hp by done. revert R Hp HE. generalize (pauseSet true s) as s0. clear H s.
  induction HF as [| event events He HF IH]; intros s R Hp HE; [cbn; lia |].
  apply exec_cons in HE as (s1 & H1 & H2). destruct (running_step mergePasses event s (Ok s1) R He H1) as [R1 (_ & S1 & _)].
  specialize (IH s1 R1 ltac:(by rewrite (ss_paused _ _ S1)) H2).
  pose proof (steppers_step event s s1 (or_introl Hp) H1). cbn [List.filter].
  destruct (isSimulationStep event); cbn [length] in *; lia.
Qed.

(** ** Stopping *)
Definition asleep st : bool := match st with Blocking | Blocked => true | _ => false end.

Record Settling s : Prop := {
  settle_inv : Inv s;
  settle_stop : stopRequested s = true;
  settle_pause : paused s = false;
  settle_awake : Forall (fun st => asleep st = false) (workers s)
}.

Lemma settling_step event s r :
  Settling s -> event_ok event -> step event s = Some r -> wp r (fun s' => Settling s' /\ same_settings s s').
Proof.
  intros R He H. pose proof (worker_step_good mergePasses event s r (settle_inv s R) He H) as G.
  destruct r as [s' |]; [| done]. cbn in *. destruct G as (I & S & _). split; [| done]. split.
  - done.
  - rewrite (ss_stop _ _ S). apply R.
  - rewrite (ss_paused _ _ S). apply R.
  - destruct (step_follows mergePasses event s s' H) as (w & st & st' & Hw & Hed & EW & _). rewrite EW.
    assert (Forall (fun st => asleep st = false) (woken_workers event s)) as HW.
    { unfold woken_workers. destruct event as [| | | | | | | | | | | | ? [v |] |]; try apply R. by apply Forall_insert; [apply R |]. }
    apply Forall_insert; [done |]. pose proof (Forall_lookup_1 _ _ _ _ HW Hw) as Ha. pose proof (settle_stop s R).
    destruct Hed; try done; congruence.
Qed.

(** What is left to do once the executor stops: the measure, and one more check
    after each simulation step under way. *)
Definition stopMeasure s : nat := measure s + 2 * steppers s.

Lemma settling_measure event s s' :
  Settling s -> step event s = Some (Ok s') -> (stopMeasure s' + 1 <= stopMeasure s)%nat.
Proof.
  intros R H. pose proof (measure_step mergePasses event s s' H) as Hm.
  pose proof (steppers_step event s s' (or_intror (settle_stop s R)) H) as Hs. unfold stopMeasure.
  destruct event as [| | w | | | | | w [p |] | | | | | |]; cbn [credit isSimulationStep] in *; try lia.
  exfalso. cbn in H. destruct (workers s !! w) as [[] |] eqn:Hw; try done.
  by pose proof (Forall_lookup_1 _ _ _ _ (settle_awake s R) Hw).
Qed.

Lemma exec_settling events s s' :
  Settling s -> Forall event_ok events -> exec mergePasses events s = Some (Ok s') ->
  Settling s' /\ same_settings s s' /\ (length events + stopMeasure s' <= stopMeasure s)%nat.
Proof.
  revert s. induction events as [| event events IH]; intros s R HF H; [injection H as <-; split; [done |]; split; [done | cbn [length]; lia] |].
  apply Forall_cons in HF as [He HF]. apply exec_cons in H as (s1 & H1 & H2).
  destruct (settling_step event s (Ok s1) R He H1) as [R1 S1]. destruct (IH s1 R1 HF H2) as (R2 & S2 & L).
  pose proof (settling_measure event s s1 R H1). split; [done |]. split; [split; etransitivity; (apply S2 || apply S1) | cbn [length]; lia].
Qed.

Lemma stop_settling s : Inv s -> stopRequested s = true -> lockFree s = true -> Settling (stopNotify s).
Proof.
  intros I Hs Hl. assert (Inv (set_paused false s)) as I0 by (split; apply I).
  pose proof (notify_all_good _ I0) as (I' & _). split; try done.
  unfold stopNotify. cbn. apply Forall_map, Forall_forall. intros st Hin. unfold lockFree in Hl. rewrite forallb_forall in Hl.
  apply list_elem_of_In in Hin. specialize (Hl st Hin). by destruct st.
Qed.

(** C19. [stop] ends when its wake-up finds no worker on its way to sleep: the
    workers then take a bounded number of steps, none of which fails, whatever the
    evaluations do, and when none is left all the threads have ended and the
    executor is as new. *)
Theorem executor_stops given answers s events s' :
  reachable given answers s -> lockFree s = true -> Forall event_ok events ->
  exec mergePasses events (stopNotify (stopRequest s)) = Some (Ok s') ->
  (length events <= stopMeasure (stopNotify (stopRequest s)))%nat /\
  (forall event r, event_ok event -> step event s' = Some r -> exists s'', r = Ok s'') /\
  (quiescent mergePasses s' -> joined s' = true) /\
  stopFinish s' = make (trainingSpec s) (nesTileTokenizer_ s).
Proof.
  intros H Hl HF HE. destruct (reachable_balanced _ _ _ H) as [R _].
  assert (Inv (stopRequest s)) as I by (split; apply R).
  pose proof (stop_settling (stopRequest s) I eq_refl Hl) as Hset.
  destruct (exec_settling events _ s' Hset HF HE) as (S' & SS' & L). split; [lia |]. split; [| split].
  - intros event r He Hr. apply (settling_step event s' r S' He) in Hr. destruct r as [s'' |]; [by exists s'' | done].
  - intros Q. unfold joined. apply forallb_forall. intros st Hin. apply list_elem_of_In, list_elem_of_lookup_1 in Hin as [w Hw].
    destruct (quiescent_worker mergePasses s' w st Q (settle_pause s' S') Hw) as [-> | ->]; [| done].
    by pose proof (Forall_lookup_1 _ _ _ _ (settle_awake s' S') Hw).
  - unfold stopFinish, make. rewrite (settle_pause s' S'), (ss_spec _ _ SS'), (ss_tokenizer _ _ SS'). done.
Qed.

(** C20. [stop] may hang: it sets its flag and notifies without the task mutex, so a
    worker that has just found nothing to do, and holds the mutex on its way to
    sleep, misses the only notification. It then sleeps for ever (no step but a
    spurious wake-up is left) and [stop] waits for it. *)
Theorem executor_stop_can_hang (spec : TrainingSpec.t) :
  exists s s', reachable [] [] s /\ exec mergePasses [Sleep 0%nat] (stopNotify (stopRequest s)) = Some (Ok s') /\
    quiescent mergePasses s' /\ joined s' = false.
Proof.
  pose (s0 := spawn 1 (make spec None) : State). pose (s := wake 0%nat s0).
  exists s, (goto 0%nat Blocked (stopNotify (stopRequest s))). split; [| split; [done |]].
  - by apply (reach_worker [] [] s0 (Wake 0%nat)); [apply reach_start |..].
  - split; [| done]. intros event He. destruct event as [w | w | w | w | w | w | w | w outcome | w | w | w | w | w woken | w];
      try done; by destruct w as [| []].
Qed.

End Correct.

Section Signatures.
Context `{UW : !UnorderedWalk, UWL : !UnorderedWalkLaws, SS : !StdSort, SSL : !StdSortLaws}.
Implicit Types (e : string * Z) (counts : gmap string Z).

Lemma signature_before_iff a b :
  signatureBefore a b = true <-> snd b < snd a \/ (snd a = snd b /\ String.compare (fst a) (fst b) = Lt).
Proof.
  unfold signatureBefore. destruct (Z.eqb_spec (snd a) (snd b)) as [E | E]; cbn [negb].
  - destruct (String.compare (fst a) (fst b)); intuition (try lia; congruence).
  - rewrite Z.ltb_lt. intuition lia.
Qed.

Lemma signature_before_total a b : a <> b -> signatureBefore a b = false -> signatureBefore b a = true.
Proof.
  intros Hne Hf. apply not_true_iff_false in Hf. rewrite signature_before_iff in Hf. apply signature_before_iff.
  destruct (Z.lt_trichotomy (snd a) (snd b)) as [? | [E | ?]]; [by left | right | exfalso; apply Hf; by left].
  split; [done |]. rewrite String.compare_antisym. destruct (String.compare (fst a) (fst b)) eqn:Ec; [| exfalso; apply Hf; by right | done].
  apply String.compare_eq_iff in Ec. exfalso. apply Hne. destruct a, b; cbn in *; congruence.
Qed.

Lemma signature_before_trans a b c : signatureBefore a b = true -> signatureBefore b c = true -> signatureBefore a c = true.
Proof.
  rewrite !signature_before_iff. intros [H1 | [E1 H1]] [H2 | [E2 H2]]; try (left; lia). right. split; [lia |].
  by apply (StrictOrder_Transitive (R := String_as_OT.lt) _ (fst b)).
Qed.

Lemma signature_before_irrefl a : signatureBefore a a = false.
Proof.
  apply not_true_iff_false. rewrite signature_before_iff. intros [H | [_ H]]; [lia |].
  by apply (StrictOrder_Irreflexive (R := String_as_OT.lt) (fst a)).
Qed.

Lemma signature_order l : strict_weak_order signatureBefore l.
Proof.
  split.
  - intros a _. apply signature_before_irrefl.
  - intros a b c _ _ _. apply signature_before_trans.
  - intros a b c _ _ _ H1 H2. apply not_true_iff_false. intros H3.
    destruct (decide (b = a)) as [-> | Hne]; [congruence |].
    assert (signatureBefore b a = true) as H4 by (apply (signature_before_total a b); [by intros -> | done]).
    rewrite (signature_before_trans b a c H4 H3) in H2. done.
Qed.

(** ** The counts of both lists *)
Lemma merged_counts first second :
  signatures_ok first -> signatures_ok second ->
  wp (let! counts := accumulate first ∅ in accumulate second counts) (fun counts =>
    map_Forall (fun _ n => 0 < n) counts /\ forall name, count_in counts name = countOf name first + countOf name second).
Proof.
  unfold signatures_ok. intros H1 H2. apply wp_bind.
  eapply wp_mono; [apply accumulate_counts; [apply map_Forall_empty | intros name; rewrite count_in_empty; lia] |].
  intros counts [Hp Hc]. eapply wp_mono; [apply accumulate_counts; [done |] |].
  - intros name. rewrite Hc, count_in_empty. pose proof (countOf_bound name first). lia.
  - intros counts' [Hp' Hc']. split; [done |]. intros name. rewrite Hc', Hc, count_in_empty. lia.
Qed.

Lemma counts_lookup counts name n :
  map_Forall (fun _ n => 0 < n) counts -> counts !! name = Some n <-> count_in counts name = n /\ 0 < n.
Proof.
  intros Hp. unfold count_in. destruct (counts !! name) as [m |] eqn:E; cbn; [apply Hp in E |]; split; intros H; intuition (try lia; congruence).
Qed.

Definition sorted_counts counts : list (string * Z) := std_sort signatureBefore (walk _ (map_to_list counts)).

Lemma sorted_counts_perm counts : sorted_counts counts ≡ₚ map_to_list counts.
Proof. unfold sorted_counts. by rewrite (std_sort_perm _ signatureBefore _ (signature_order _)), (walk_perm _ _). Qed.

Lemma strictly_sorted (l : list (string * Z)) :
  NoDup l -> StronglySorted (fun a b => signatureBefore b a = false) l -> StronglySorted (fun a b => signatureBefore a b = true) l.
Proof.
  intros HN HS. induction HS as [| a l HS IH Ha]; constructor; apply NoDup_cons in HN as [Hnin HN]; [by apply IH |].
  rewrite Forall_forall in *. intros b Hb. apply signature_before_total; [by intros -> | by apply Ha].
Qed.

Lemma sorted_counts_strict counts : StronglySorted (fun a b => signatureBefore a b = true) (sorted_counts counts).
Proof.
  apply strictly_sorted; [rewrite sorted_counts_perm; apply NoDup_map_to_list |].
  apply std_sort_sorted, signature_order.
Qed.

Lemma sorted_split {A} (R : A -> A -> Prop) l1 l2 :
  StronglySorted R (l1 ++ l2) -> StronglySorted R l1 /\ forall a b, a ∈ l1 -> b ∈ l2 -> R a b.
Proof.
  induction l1 as [| x l1 IH]; intros H; [split; [constructor | intros a b Ha; by apply not_elem_of_nil in Ha] |].
  inversion_clear H as [| ? ? HS HF]. destruct (IH HS) as [H1 H2]. rewrite Forall_app, !Forall_forall in HF. split.
  - constructor; [done |]. rewrite Forall_forall. apply HF.
  - intros a b [-> | Ha]%elem_of_cons Hb; [by apply HF | by apply H2].
Qed.

(** The first twenty of a list sorted by how often. *)
Definition topOf (l : list (string * Z)) : list (string * Z) :=
  if (kTopCommandSignatureLimit <? length l)%nat then take kTopCommandSignatureLimit l else l.

Lemma top_take l : topOf l = take kTopCommandSignatureLimit l.
Proof.
  unfold topOf. destruct (kTopCommandSignatureLimit <? length l)%nat eqn:E; [done |]. apply Nat.ltb_ge in E. by rewrite take_ge.
Qed.

Lemma merge_signatures_eq first second :
  signatures_ok first -> signatures_ok second ->
  exists counts, mergeCommandSignatures first second = Ok (topOf (sorted_counts counts)) /\
    map_Forall (fun _ n => 0 < n) counts /\ forall name, count_in counts name = countOf name first + countOf name second.
Proof.
  intros H1 H2. pose proof (merged_counts first second H1 H2) as W. apply wp_elim in W as (counts & E & Hp & Hc).
  exists counts. split; [| done]. apply rbind_ok_inv in E as (c1 & E1 & E2). unfold mergeCommandSignatures.
  rewrite E1. cbn [rbind]. rewrite E2. done.
Qed.

(** C21. The merged signatures of two passes are the (at most twenty) most frequent
    ones: strictly ordered by how often they occur in both, then by name; each
    with the sum of its positive counts; and one that is left out comes after
    every one that is kept. Neither the order in which the hash map is walked nor
    the order of the two passes matters, and no count overflows. *)
Theorem merged_signatures first second :
  signatures_ok first -> signatures_ok second ->
  exists merged, mergeCommandSignatures first second = Ok merged /\ mergeCommandSignatures second first = Ok merged /\
    (length merged <= 20)%nat /\ StronglySorted (fun a b => signatureBefore a b = true) merged /\
    forall name, let n := countOf name first + countOf name second in
      (forall m, (name, m) ∈ merged -> m = n /\ 0 < n) /\
      (0 < n -> (name, n) ∈ merged \/ (length merged = 20%nat /\ Forall (fun e => signatureBefore e (name, n) = true) merged)).
Proof.
  intros H1 H2. destruct (merge_signatures_eq first second H1 H2) as (counts & E & Hp & Hc).
  destruct (merge_signatures_eq second first H2 H1) as (counts' & E' & Hp' & Hc').
  assert (counts' = counts) as ->.
  { apply map_eq. intros name. apply option_eq. intros n. rewrite !counts_lookup by done. by rewrite Hc, Hc', Z.add_comm. }
  exists (topOf (sorted_counts counts)). split; [done |]. split; [done |]. rewrite top_take.
  pose proof (sorted_counts_strict counts) as HS. rewrite <- (take_drop kTopCommandSignatureLimit (sorted_counts counts)) in HS.
  destruct (sorted_split _ _ _ HS) as [HT HD]. split; [apply firstn_le_length |]. split; [done |]. intros name n.
  assert (forall m, (name, m) ∈ sorted_counts counts <-> m = n /\ 0 < m) as Hin.
  { intros m. rewrite sorted_counts_perm, elem_of_map_to_list, counts_lookup, Hc by done. unfold n. intuition lia. }
  split.
  - intros m Hm. apply (subseteq_take _ _) in Hm. by apply Hin in Hm as [-> ?].
  - intros Hn. pose proof (proj2 (Hin n) (conj eq_refl Hn)) as Hm.
    rewrite <- (take_drop kTopCommandSignatureLimit (sorted_counts counts)) in Hm. apply elem_of_app in Hm as [Hm | Hm]; [by left | right].
    split.
    + rewrite length_take. apply list_elem_of_lookup_1 in Hm as [i Hi]. apply lookup_lt_Some in Hi. rewrite length_drop in Hi.
      unfold kTopCommandSignatureLimit in *. lia.
    + apply Forall_forall. intros e He. by apply HD.
Qed.
End Signatures.

(** Two passes of a duck that walks, jumps and waits. *)
Definition demo_first : list (string * Z) := [("jump", 2); ("walk", 7)]%string.
Definition demo_second : list (string * Z) := [("wait", 9); ("walk", 2); ("none", 0)]%string.

Lemma merged_signatures_witness :
  exists merged, mergeCommandSignatures (UW := Dice.in_order) (SS := Dice.sort) demo_first demo_second = Ok merged /\
    merged = [("wait", 9); ("walk", 9); ("jump", 2)]%string /\ (length merged <= 20)%nat.
Proof.
  destruct (merged_signatures (UW := Dice.in_order) (UWL := Dice.in_order_laws) (SS := Dice.sort) (SSL := Dice.sort_laws)
              demo_first demo_second ltac:(by vm_compute) ltac:(by vm_compute)) as (merged & E & _ & Hl & _).
  exists merged. split; [exact E |]. split; [| exact Hl]. vm_compute in E. by injection E as <-.
Defined.
