(* ===== verification/ExecutorDemo.v ===== *)
(** A concrete executor, to which the theorems on the executor are applied: two
    workers, one request; the first worker evaluates it, visibly, while the other
    goes to sleep. *)

From Stdlib Require Import ZArith Lia Bool String.
From stdpp Require Import base gmap option numbers list strings.
From S2P Require Import Prelude Ieee StdModel Genomes Training.
From S2P Require Import EvaluationTypes EvaluationExecutor ExecutorFacts ExecutorRuns ExecutorCorrect.
Import EvaluationExecutor.

Set Default Goal Selector "!".

Definition demo_merge (passes : list FitnessEvaluation.t) : FitnessEvaluation.t := hd (FitnessEvaluation.mk fzero None) passes.
Definition demo_bootstrap (_ : ScenarioId) (_ : option unit) : Result unit string := okay tt.

Abbreviation DemoState := (EvaluationExecutor.t (Tok := unit) (SC := unit) (Snapshot := unit)).
Abbreviation demo_exec := (exec (Tok := unit) (SC := unit) (Snapshot := unit) (UW := Dice.in_order) (SS := Dice.sort) demo_merge).
Abbreviation demo_reachable := (reachable (Tok := unit) (SC := unit) (Snapshot := unit) (UW := Dice.in_order) (SS := Dice.sort) demo_merge demo_bootstrap).
Abbreviation DemoEvent := (WorkerEvent (Snapshot := unit)).

Definition demo_spec : TrainingSpec.t := TrainingSpec.mk TreeGermination TREE [].
Definition demo_request : EvaluationRequest.t :=
  EvaluationRequest.mk GenerationEval 0 (-1) 0 (EvaluationIndividual.mk "NeuralNet" None TreeGermination None).
Definition demo_pass : EvaluationPassResult unit := mkPass 3 1 (FitnessEvaluation.mk (f64_of_Z 2) None) (f64_of_Z 10) [] [] None.

Definition demo_started : DemoState := spawn 2 (make demo_spec None).
Definition ok_or (d : DemoState) (r : res DemoState) : DemoState := match r with Ok s => s | Fault _ => d end.
Definition demo_submitted : DemoState :=
  ok_or demo_started (EvaluationExecutor.generationBatchSubmit demo_bootstrap [demo_request] EvolutionConfig.default None demo_started).

(** Up to the first simulation step. *)
Definition demo_begin : list DemoEvent :=
  [Wake 0%nat; Wake 1%nat; Sleep 1%nat; Claim 0%nat; BeginPass 0%nat; Register 0%nat; CheckPause 0%nat].
(** The run takes one more step and ends. *)
Definition demo_end : list DemoEvent :=
  [StepRunner 0%nat None; CheckPause 0%nat; StepRunner 0%nat (Some demo_pass); EndPass 0%nat; Finish 0%nat; Publish 0%nat;
   Retire 0%nat; Notify 0%nat (Some 1%nat); Deliver 0%nat; Wake 1%nat; Sleep 1%nat; Wake 0%nat; Sleep 0%nat].

Definition demo_state (events : list DemoEvent) (s : DemoState) : DemoState :=
  match demo_exec events s with Some (Ok s) => s | _ => demo_started end.
Definition demo_stepping : DemoState := demo_state demo_begin demo_submitted.
Definition demo_done : DemoState := demo_state demo_end demo_stepping.

Lemma demo_events_ok : Forall event_ok (demo_begin ++ demo_end).
Proof. repeat constructor; vm_compute; intuition discriminate. Qed.

Lemma exec_reachable given answers s events s' :
  demo_reachable given answers s -> Forall event_ok events -> demo_exec events s = Some (Ok s') -> demo_reachable given answers s'.
Proof.
  intros H HF. revert s H. induction HF as [| event events He HF IH]; intros s H E; [by injection E as <- |].
  apply exec_cons in E as (s1 & E1 & E2). by apply (IH s1); [apply (reach_worker _ _ given answers s event) |].
Qed.

Lemma demo_started_reachable : demo_reachable [] [] demo_started.
Proof. by apply reach_start. Qed.

Lemma demo_submitted_reachable : demo_reachable [EvaluationRequest.ticket demo_request] [] demo_submitted.
Proof.
  apply (reach_batch _ _ [] [] demo_started [demo_request] EvolutionConfig.default None); try done; [apply demo_started_reachable | by repeat constructor |].
  repeat constructor; done.
Qed.

Lemma demo_stepping_reachable : demo_reachable [EvaluationRequest.ticket demo_request] [] demo_stepping.
Proof.
  apply (exec_reachable _ _ demo_submitted demo_begin); [apply demo_submitted_reachable | | by vm_compute].
  pose proof demo_events_ok as H. by apply Forall_app in H as [? _].
Qed.

Lemma demo_done_reachable : demo_reachable [EvaluationRequest.ticket demo_request] [] demo_done.
Proof.
  apply (exec_reachable _ _ demo_stepping demo_end); [apply demo_stepping_reachable | | by vm_compute].
  pose proof demo_events_ok as H. by apply Forall_app in H as [_ ?].
Qed.

(** Everything is answered: the server may submit again. *)
Lemma executor_answers_once_witness :
  exists s', EvaluationExecutor.generationBatchSubmit demo_bootstrap [demo_request] EvolutionConfig.default None (fst (visibleTick demo_done)) = Ok s'.
Proof.
  assert (demo_reachable [EvaluationRequest.ticket demo_request] ([] ++ completed demo_done) (fst (visibleTick demo_done))) as H
    by apply reach_visible, demo_done_reachable.
  destruct (executor_answers_once (UW := Dice.in_order) (SS := Dice.sort) demo_merge demo_bootstrap _ _ _ H) as (_ & _ & HS).
  destruct (HS [demo_request] EvolutionConfig.default None) as (s' & E & _).
  - vm_compute. reflexivity.
  - vm_compute. reflexivity.
  - by repeat constructor.
  - repeat constructor; done.
  - exists s'. exact E.
Defined.

Lemma executor_finishes_witness :
  (length demo_end <= measure demo_stepping + credits demo_end)%nat /\
  map CompletedEvaluation.ticket (completed demo_done) ≡ₚ [EvaluationRequest.ticket demo_request].
Proof.
  pose proof demo_events_ok as HF. apply Forall_app in HF as [_ HF].
  destruct (executor_finishes (UW := Dice.in_order) (SS := Dice.sort) demo_merge demo_bootstrap _ _ _ demo_end demo_done
              demo_stepping_reachable eq_refl HF ltac:(by vm_compute)) as [HL HQ].
  split; [exact HL |]. apply HQ. intros event He. destruct event as [w | w | w | w | w | w | w | w outcome | w | w | w | w | w woken | w];
    try discriminate He; by destruct w as [| [| []]].
Defined.

Definition demo_paused : list DemoEvent := [StepRunner 0%nat None].

Lemma executor_pauses_witness : (length (List.filter isSimulationStep demo_paused) <= 1)%nat.
Proof.
  apply (executor_pauses (UW := Dice.in_order) (SS := Dice.sort) demo_merge demo_bootstrap _ _ demo_stepping demo_paused
           (demo_state demo_paused (pauseSet true demo_stepping)) demo_stepping_reachable); [repeat constructor | by vm_compute].
Defined.

(** The worker in its simulation step stops after it. *)
Definition demo_stop : list DemoEvent :=
  [Wake 1%nat; StepRunner 0%nat None; CheckPause 0%nat; Retire 0%nat; Notify 0%nat None; Deliver 0%nat].
Definition demo_stopped : DemoState := demo_state demo_stop (stopNotify (stopRequest demo_stepping)).

Lemma executor_stops_witness : joined demo_stopped = true /\ stopFinish demo_stopped = make demo_spec None.
Proof.
  destruct (executor_stops (UW := Dice.in_order) (SS := Dice.sort) demo_merge demo_bootstrap _ _ demo_stepping demo_stop
              demo_stopped demo_stepping_reachable eq_refl ltac:(repeat constructor) ltac:(by vm_compute)) as (_ & _ & HQ & HN).
  split; [| exact HN]. apply HQ. intros event He. destruct event as [w | w | w | w | w | w | w | w outcome | w | w | w | w | w woken | w];
    try discriminate He; by destruct w as [| [| []]].
Defined.
