(* ===== verification/EvolutionTypes.v ===== *)
(** The data of the training: what the server's [Evolution] state
    ([server/states/Evolution.h]) keeps, by concern, and the repository as the
    training sees it. *)

From Stdlib Require Import ZArith Lia Bool String.
From Stdlib Require Import SpecFloat.
From stdpp Require Import base gmap option numbers list strings pretty.
From S2P Require Import Prelude Ieee StdModel Uuid Genomes GenomeFacts Training Mutation.
From S2P Require Import EvaluationTypes.

Set Default Goal Selector "!".

(** ** What the training asks of the genome repository *)
Class GenomeArchive (A : Type) := {
  (** [storeOrUpdateByHash]: the identifier under which the genome is filed. *)
  archive_store : Genome.t -> GenomeMetadata.t -> A -> res (A * GenomeId);
  archive_prune : nat -> A -> res A;
  archive_mark_best : GenomeId -> A -> A;
  archive_best : A -> option GenomeId;
  archive_get : GenomeId -> A -> option Genome.t
}.

(** What the training relies on: a repository that is ready for [stores] more
    genomes, of [n] evaluations in all, takes them, if their scores are numbers, and may be
    pruned in between. *)
Class ArchiveLaws (A : Type) `{!GenomeArchive A} := {
  archive_ready : Z -> Z -> A -> Prop;
  store_ready : forall stores n genome meta a, 0 <= stores -> 0 <= n -> numeric meta ->
    archive_ready (stores + 1) (evaluations meta + n) a ->
    wp (archive_store genome meta a) (fun '(a', _) => archive_ready stores n a');
  prune_ready : forall stores n max a, archive_ready stores n a -> wp (archive_prune max a) (archive_ready stores n);
  mark_ready : forall stores n id a, archive_ready stores n a -> archive_ready stores n (archive_mark_best id a);
  ready_fewer : forall stores stores' n n' a, 0 <= stores' <= stores -> 0 <= n' <= n ->
    archive_ready stores n a -> archive_ready stores' n' a
}.

(** ** Data *)
Inductive IndividualOrigin := OriginUnknown | Seed | EliteCarryover | OffspringMutated | OffspringClone.
#[global] Instance IndividualOrigin_eq_dec : EqDecision IndividualOrigin.
Proof. solve_decision. Defined.

Module Individual.
Record t := mk {
  brainKind : string;
  brainVariant : option string;
  scenarioId : ScenarioId;
  genome : option Genome.t;
  allowsMutation : bool;
  parentFitness : option f64
}.
Definition set_parentFitness (v : option f64) (i : t) : t :=
  mk (brainKind i) (brainVariant i) (scenarioId i) (genome i) (allowsMutation i) v.
Definition set_genome (v : option Genome.t) (i : t) : t :=
  mk (brainKind i) (brainVariant i) (scenarioId i) v (allowsMutation i) (parentFitness i).
End Individual.

(** [TrainingBrainRegistry.h]. Of [spawn], which places an organism in a world,
    whether it is set. *)
Inductive ControlMode := OrganismDriven | ScenarioDriven.

Module BrainRegistryEntry.
Record t (R : Type) := mk {
  controlMode : ControlMode;
  requiresGenome : bool;
  allowsMutation : bool;
  spawn : bool;
  createRandomGenome : option (R -> res (Genome.t * R));
  isGenomeCompatible : option (Genome.t -> bool);
  getGenomeLayout : option GenomeLayout.t
}.
Arguments mk {R}.
Arguments controlMode {R}.
Arguments requiresGenome {R}.
Arguments allowsMutation {R}.
Arguments spawn {R}.
Arguments createRandomGenome {R}.
Arguments isGenomeCompatible {R}.
Arguments getGenomeLayout {R}.
End BrainRegistryEntry.

(** A registry, as [find] shows it. *)
Definition TrainingBrainRegistry (R : Type) : Type :=
  OrganismType -> string -> string -> option (BrainRegistryEntry.t R).

(** The message that a new best genome broadcasts. *)
Module TrainingBestSnapshot.
Record t (Snapshot : Type) := mk {
  snapshot : Snapshot;
  fitnessEvaluation : FitnessEvaluation.t;
  generation : Z;
  commandsAccepted : Z;
  commandsRejected : Z;
  topCommandSignatures : list (string * Z);
  topCommandOutcomeSignatures : list (string * Z)
}.
Arguments mk {Snapshot}.
End TrainingBestSnapshot.

Module PendingBestState.
Record t (Snapshot : Type) := mk {
  robustness : bool;
  robustnessGeneration : Z;
  robustnessIndex : Z;
  robustnessFirstSample : f64;
  snapshot : option Snapshot;
  snapshotFitnessEvaluation : option FitnessEvaluation.t;
  snapshotCommandsAccepted : Z;
  snapshotCommandsRejected : Z;
  snapshotTopCommandSignatures : list (string * Z);
  snapshotTopCommandOutcomeSignatures : list (string * Z)
}.
Arguments mk {Snapshot}.
Arguments robustness {Snapshot}.
Arguments robustnessGeneration {Snapshot}.
Arguments robustnessIndex {Snapshot}.
Arguments robustnessFirstSample {Snapshot}.
Arguments snapshot {Snapshot}.
Arguments snapshotFitnessEvaluation {Snapshot}.
Arguments snapshotCommandsAccepted {Snapshot}.
Arguments snapshotCommandsRejected {Snapshot}.
Arguments snapshotTopCommandSignatures {Snapshot}.
Arguments snapshotTopCommandOutcomeSignatures {Snapshot}.

Definition reset {Snapshot} : t Snapshot := mk false (-1) (-1) fzero None None 0 0 [] [].

Definition resetTrigger {Snapshot} (p : t Snapshot) : t Snapshot :=
  mk false (-1) (-1) fzero (snapshot p) (snapshotFitnessEvaluation p) (snapshotCommandsAccepted p)
    (snapshotCommandsRejected p) (snapshotTopCommandSignatures p) (snapshotTopCommandOutcomeSignatures p).

(** [pendingBest_.robustness = false]. *)
Definition clearTrigger {Snapshot} (p : t Snapshot) : t Snapshot :=
  mk false (robustnessGeneration p) (robustnessIndex p) (robustnessFirstSample p) (snapshot p)
    (snapshotFitnessEvaluation p) (snapshotCommandsAccepted p) (snapshotCommandsRejected p)
    (snapshotTopCommandSignatures p) (snapshotTopCommandOutcomeSignatures p).
End PendingBestState.

Module RobustnessPassState.
Record t := mk {
  active : bool;
  generation : Z;
  index : Z;
  targetEvalCount : Z;
  pendingSamples : Z;
  completedSamples : Z;
  samples : list f64
}.
Definition reset : t := mk false (-1) (-1) 0 0 0 [].
End RobustnessPassState.

Module GenerationTelemetry.
Record t := mk {
  eliteCarryoverCount : Z;
  offspringCloneCount : Z;
  offspringMutatedCount : Z;
  seedCount : Z;
  offspringCloneBeatsParentCount : Z;
  offspringCloneComparedCount : Z;
  offspringCloneDeltaFitnessSum : f64;
  offspringMutatedBeatsParentCount : Z;
  offspringMutatedComparedCount : Z;
  offspringMutatedDeltaFitnessSum : f64;
  phenotypeAll : gset Z;
  phenotypeEliteCarryover : gset Z;
  phenotypeOffspringMutated : gset Z;
  phenotypeSeed : gset Z
}.
Definition reset : t := mk 0 0 0 0 0 0 fzero 0 0 fzero ∅ ∅ ∅ ∅.
End GenerationTelemetry.

Module LastGenerationTelemetry.
Record t := mk {
  eliteCarryoverCount : Z;
  seedCount : Z;
  offspringCloneCount : Z;
  offspringMutatedCount : Z;
  offspringCloneBeatsParentCount : Z;
  offspringCloneAvgDeltaFitness : f64;
  offspringMutatedBeatsParentCount : Z;
  offspringMutatedAvgDeltaFitness : f64;
  phenotypeUniqueCount : Z;
  phenotypeUniqueEliteCarryoverCount : Z;
  phenotypeUniqueOffspringMutatedCount : Z;
  phenotypeNovelOffspringMutatedCount : Z;
  breedingUsesBudget : bool;
  breedingMutationMode : AdaptiveMutationMode;
  breedingResolvedPerturbationsPerOffspring : Z;
  breedingResolvedResetsPerOffspring : Z;
  breedingResolvedSigma : f64;
  breedingPerturbationsAvg : f64;
  breedingResetsAvg : f64;
  breedingWeightChangesAvg : f64;
  breedingWeightChangesMin : Z;
  breedingWeightChangesMax : Z
}.
Definition default : t :=
  mk 0 0 0 0 0 fzero 0 fzero 0 0 0 0 false Baseline 0 0 fzero fzero fzero fzero 0 0.
End LastGenerationTelemetry.

(** Of [BestPlaybackState], whom to play back. *)
Module BestPlaybackState.
Record t := mk { individual : option Individual.t; fitness : f64; generation : Z }.
Definition reset : t := mk None fzero 0.
End BestPlaybackState.

Module RankedIndividual.
Record t := mk {
  fitness : f64;
  individual : Individual.t;
  origin : IndividualOrigin;
  order : Z
}.
End RankedIndividual.

(** ** The state, by concern *)
Module Settings.
Record t := mk {
  evolutionConfig : EvolutionConfig.t;
  mutationConfig : MutationConfig.t;
  trainingSpec : TrainingSpec.t;
  genomePoolId_ : GenomePoolId;
  nesTileBrainCompatibility_ : option NesTileBrainCompatibilityMetadata.t;
  trainingSessionId_ : UUID.t;
  mutationControlMode_ : AdaptiveMutationControlMode
}.
End Settings.

Module Population.
Record t := mk {
  population : list Individual.t;
  populationOrigins : list IndividualOrigin;
  fitnessScores : list f64;
  wingUpSecondsPerIndividual : list f64;
  pruneBeforeBreeding_ : bool
}.
End Population.

Module Progress.
Record t := mk {
  generation : Z;
  currentEval : Z;
  completedEvaluations_ : Z;
  sumFitnessThisGen_ : f64;
  cumulativeSimTime_ : f64;
  trainingComplete_ : bool;
  finalAverageFitness_ : f64
}.
End Progress.

Module Best.
Record t := mk {
  bestFitnessThisGen : f64;
  bestFitnessAllTime : f64;
  bestGenomeId : GenomeId;
  robustEvaluationCount_ : Z;
  bestThisGenOrigin_ : IndividualOrigin;
  bestPlayback_ : BestPlaybackState.t
}.
Definition set_thisGen (fitness : f64) (origin : IndividualOrigin) (b : t) : t :=
  mk fitness (bestFitnessAllTime b) (bestGenomeId b) (robustEvaluationCount_ b) origin (bestPlayback_ b).
Definition set_allTime (fitness : f64) (id : GenomeId) (b : t) : t :=
  mk (bestFitnessThisGen b) fitness id (robustEvaluationCount_ b) (bestThisGenOrigin_ b) (bestPlayback_ b).
Definition set_genomeId (id : GenomeId) (b : t) : t := set_allTime (bestFitnessAllTime b) id b.
Definition set_robustEvaluationCount_ (v : Z) (b : t) : t :=
  mk (bestFitnessThisGen b) (bestFitnessAllTime b) (bestGenomeId b) v (bestThisGenOrigin_ b) (bestPlayback_ b).
Definition set_playback (v : BestPlaybackState.t) (b : t) : t :=
  mk (bestFitnessThisGen b) (bestFitnessAllTime b) (bestGenomeId b) (robustEvaluationCount_ b) (bestThisGenOrigin_ b) v.
End Best.

Module Statistics.
Record t := mk {
  lastCompletedGeneration_ : Z;
  lastGenerationAverageFitness_ : f64;
  lastGenerationFitnessMin_ : f64;
  lastGenerationFitnessMax_ : f64;
  lastGenerationFitnessHistogram_ : list Z;
  generationTelemetry_ : GenerationTelemetry.t;
  lastGenTelemetry_ : LastGenerationTelemetry.t
}.
Definition set_telemetry (v : GenerationTelemetry.t) (s : t) : t :=
  mk (lastCompletedGeneration_ s) (lastGenerationAverageFitness_ s) (lastGenerationFitnessMin_ s)
    (lastGenerationFitnessMax_ s) (lastGenerationFitnessHistogram_ s) v (lastGenTelemetry_ s).
Definition set_last (v : LastGenerationTelemetry.t) (s : t) : t :=
  mk (lastCompletedGeneration_ s) (lastGenerationAverageFitness_ s) (lastGenerationFitnessMin_ s)
    (lastGenerationFitnessMax_ s) (lastGenerationFitnessHistogram_ s) (generationTelemetry_ s) v.
Definition set_distribution (generation : Z) (average min max : f64) (histogram : list Z) (s : t) : t :=
  mk generation average min max histogram (generationTelemetry_ s) (lastGenTelemetry_ s).
End Statistics.

(** The pause, and the processor's load of the last ticks. *)
Module Tuning.
Record t := mk { trainingPaused_ : bool; cpuSamples_ : list f64 }.
Definition reset : t := mk false [].
End Tuning.
