(* ===== verification/Evolution.v ===== *)
(** The generations of a training: [server/states/Evolution.{h,cpp}].

    The server's [Evolution] state submits every individual of the population to
    the evaluation executor, notes the results as they come, validates the best
    candidate by evaluating it again (the robust pass), stores it in the genome
    repository, selects the survivors, breeds the next generation and stops after
    the last one.

    The repository is the class [GenomeArchive], the executor the classes
    [EvaluationService], [EvaluationCollector] and [EvaluationTuning]; a snapshot of
    the world is opaque. Left out: best-genome playback, progress messages, timers
    and the wall clock. *)

From Stdlib Require Import ZArith Lia Bool String.
From Stdlib Require Import SpecFloat.
From stdpp Require Import base gmap option numbers list strings pretty.
From S2P Require Import Prelude Ieee StdModel Uuid Genomes Training Mutation.
From S2P Require Import EvaluationTypes.
From S2P Require Import EvolutionTypes.

Set Default Goal Selector "!".

Module Evolution.
Section Evolution.
Context {R D A E SC Snapshot : Type} `{RE : !RandomEngine R, ND : !NormalDistribution R D, SH : !Shuffle R,
         UW : !UnorderedWalk, SS : !StdSort, GA : !GenomeArchive A, ES : !EvaluationService E SC,
         EC : !EvaluationCollector E Snapshot, ET : !EvaluationTuning E}.
Context (brainRegistry_ : TrainingBrainRegistry R).

Record t := mk {
  settings : Settings.t;
  scenarioConfigOverride_ : option SC;
  pop : Population.t;
  progress : Progress.t;
  best : Best.t;
  pendingBest_ : PendingBestState.t Snapshot;
  robustnessPass_ : RobustnessPassState.t;
  trainingPhaseTracker_ : TrainingPhaseTracker.t;
  lastEffectiveAdaptiveMutation_ : EffectiveAdaptiveMutation.t;
  statistics : Statistics.t;
  rng : R;
  executor_ : E;
  archive : A;
  sent : list (TrainingBestSnapshot.t Snapshot);
  tuning : Tuning.t
}.

Definition set_settings v s : t :=
  mk v (scenarioConfigOverride_ s) (pop s) (progress s) (best s) (pendingBest_ s) (robustnessPass_ s)
    (trainingPhaseTracker_ s) (lastEffectiveAdaptiveMutation_ s) (statistics s) (rng s) (executor_ s) (archive s) (sent s) (tuning s).
Definition set_pop v s : t :=
  mk (settings s) (scenarioConfigOverride_ s) v (progress s) (best s) (pendingBest_ s) (robustnessPass_ s)
    (trainingPhaseTracker_ s) (lastEffectiveAdaptiveMutation_ s) (statistics s) (rng s) (executor_ s) (archive s) (sent s) (tuning s).
Definition set_progress v s : t :=
  mk (settings s) (scenarioConfigOverride_ s) (pop s) v (best s) (pendingBest_ s) (robustnessPass_ s)
    (trainingPhaseTracker_ s) (lastEffectiveAdaptiveMutation_ s) (statistics s) (rng s) (executor_ s) (archive s) (sent s) (tuning s).
Definition set_best v s : t :=
  mk (settings s) (scenarioConfigOverride_ s) (pop s) (progress s) v (pendingBest_ s) (robustnessPass_ s)
    (trainingPhaseTracker_ s) (lastEffectiveAdaptiveMutation_ s) (statistics s) (rng s) (executor_ s) (archive s) (sent s) (tuning s).
Definition set_pendingBest_ v s : t :=
  mk (settings s) (scenarioConfigOverride_ s) (pop s) (progress s) (best s) v (robustnessPass_ s)
    (trainingPhaseTracker_ s) (lastEffectiveAdaptiveMutation_ s) (statistics s) (rng s) (executor_ s) (archive s) (sent s) (tuning s).
Definition set_robustnessPass_ v s : t :=
  mk (settings s) (scenarioConfigOverride_ s) (pop s) (progress s) (best s) (pendingBest_ s) v
    (trainingPhaseTracker_ s) (lastEffectiveAdaptiveMutation_ s) (statistics s) (rng s) (executor_ s) (archive s) (sent s) (tuning s).
Definition set_trainingPhaseTracker_ v s : t :=
  mk (settings s) (scenarioConfigOverride_ s) (pop s) (progress s) (best s) (pendingBest_ s) (robustnessPass_ s)
    v (lastEffectiveAdaptiveMutation_ s) (statistics s) (rng s) (executor_ s) (archive s) (sent s) (tuning s).
Definition set_lastEffectiveAdaptiveMutation_ v s : t :=
  mk (settings s) (scenarioConfigOverride_ s) (pop s) (progress s) (best s) (pendingBest_ s) (robustnessPass_ s)
    (trainingPhaseTracker_ s) v (statistics s) (rng s) (executor_ s) (archive s) (sent s) (tuning s).
Definition set_statistics v s : t :=
  mk (settings s) (scenarioConfigOverride_ s) (pop s) (progress s) (best s) (pendingBest_ s) (robustnessPass_ s)
    (trainingPhaseTracker_ s) (lastEffectiveAdaptiveMutation_ s) v (rng s) (executor_ s) (archive s) (sent s) (tuning s).
Definition set_rng v s : t :=
  mk (settings s) (scenarioConfigOverride_ s) (pop s) (progress s) (best s) (pendingBest_ s) (robustnessPass_ s)
    (trainingPhaseTracker_ s) (lastEffectiveAdaptiveMutation_ s) (statistics s) v (executor_ s) (archive s) (sent s) (tuning s).
Definition set_executor_ v s : t :=
  mk (settings s) (scenarioConfigOverride_ s) (pop s) (progress s) (best s) (pendingBest_ s) (robustnessPass_ s)
    (trainingPhaseTracker_ s) (lastEffectiveAdaptiveMutation_ s) (statistics s) (rng s) v (archive s) (sent s) (tuning s).
Definition set_archive v s : t :=
  mk (settings s) (scenarioConfigOverride_ s) (pop s) (progress s) (best s) (pendingBest_ s) (robustnessPass_ s)
    (trainingPhaseTracker_ s) (lastEffectiveAdaptiveMutation_ s) (statistics s) (rng s) (executor_ s) v (sent s) (tuning s).
Definition set_sent v s : t :=
  mk (settings s) (scenarioConfigOverride_ s) (pop s) (progress s) (best s) (pendingBest_ s) (robustnessPass_ s)
    (trainingPhaseTracker_ s) (lastEffectiveAdaptiveMutation_ s) (statistics s) (rng s) (executor_ s) (archive s) v (tuning s).
Definition set_tuning v s : t :=
  mk (settings s) (scenarioConfigOverride_ s) (pop s) (progress s) (best s) (pendingBest_ s) (robustnessPass_ s)
    (trainingPhaseTracker_ s) (lastEffectiveAdaptiveMutation_ s) (statistics s) (rng s) (executor_ s) (archive s) (sent s) v.

Definition config (s : t) : EvolutionConfig.t := Settings.evolutionConfig (settings s).

(** *** Helpers *)
Definition kTelemetrySignatureLimit : nat := 6.
Definition kFitnessDistributionBinCount : Z := 16.
Definition kBestFitnessTieRelativeEpsilon : f64 := f64_lit 1 1000000000000.
Definition kRobustFitnessSampleWindow : nat := 7.
Definition saveInterval : Z := 10.

Definition fnv1aAppendBytes (hash : Z) (data : list Z) : Z :=
  let hash := if hash =? 0 then 14695981039346656037 else hash in
  fold_left (fun hash byte => u64 (Z.lxor hash byte * 1099511628211)) data hash.

Definition fnv1aAppendString (hash : Z) (text : string) : Z :=
  fnv1aAppendBytes hash (map (fun c => Z.of_nat (Ascii.nat_of_ascii c)) (list_ascii_of_string text)).

Definition appendTop (hash : Z) (entries : list (string * Z)) (label : string) : Z :=
  let hash := fnv1aAppendString (fnv1aAppendString hash label) ":" in
  let hash := fold_left (fun hash entry => fnv1aAppendString (fnv1aAppendString hash (fst entry)) "|")
                (take kTelemetrySignatureLimit entries) hash in
  fnv1aAppendString hash ";".

Definition computePhenotypeHash (result : CompletedEvaluation.t Snapshot) : Z :=
  appendTop (appendTop 0 (CompletedEvaluation.topCommandOutcomeSignatures result) "out")
    (CompletedEvaluation.topCommandSignatures result) "cmd".

Definition fitnessTiesBest (fitness bestFitness : f64) : bool :=
  if SFeqb fitness bestFitness then true
  else
    let scale := std_max (f64_of_Z 1) (f64_abs bestFitness) in
    fle (f64_abs (f64_sub fitness bestFitness)) (f64_mul kBestFitnessTieRelativeEpsilon scale).

Definition resolveRobustnessPassSampleCount (configuredCount : Z) : Z :=
  if configuredCount <=? 0 then 0 else configuredCount.

Definition estimateTotalEvaluations (config : EvolutionConfig.t) : Z :=
  if (EvolutionConfig.maxGenerations config <=? 0) || (EvolutionConfig.populationSize config <=? 0) then 0
  else
    let basePopulation := EvolutionConfig.populationSize config in
    let total := if 1 <? EvolutionConfig.maxGenerations config
                 then basePopulation + (EvolutionConfig.maxGenerations config - 1) * (basePopulation * 2)
                 else basePopulation in
    if 2 ^ 31 - 1 <? total then 2 ^ 31 - 1 else total.

Definition isOffspringOrigin (origin : IndividualOrigin) : bool :=
  match origin with OffspringMutated | OffspringClone => true | _ => false end.

(** [origins[i]], or [Unknown] past their end. *)
Definition originAt (origins : list IndividualOrigin) (i : Z) : IndividualOrigin :=
  if (0 <=? i) && (i <? Z.of_nat (length origins)) then nth (Z.to_nat i) origins OriginUnknown else OriginUnknown.

Definition makeEvaluationIndividual (i : Individual.t) : EvaluationIndividual.t :=
  EvaluationIndividual.mk (Individual.brainKind i) (Individual.brainVariant i) (Individual.scenarioId i) (Individual.genome i).
Definition makeEvaluationRequest (individual : Individual.t) (index : Z) : EvaluationRequest.t :=
  EvaluationRequest.mk GenerationEval index (-1) 0 (makeEvaluationIndividual individual).

(** *** Mutation controls *)
Record MutationControls := mkMutationControls {
  mc_mutationConfig : MutationConfig.t;
  mc_stagnationWindowGenerations : Z;
  mc_recoveryWindowGenerations : Z;
  mc_controlMode : AdaptiveMutationControlMode
}.

Definition clampZ (v lo hi : Z) : Z := if v <? lo then lo else if hi <? v then hi else v.

Definition with_windows (stagnation recovery : Z) (c : EvolutionConfig.t) : EvolutionConfig.t :=
  EvolutionConfig.mk (EvolutionConfig.populationSize c) (EvolutionConfig.tournamentSize c)
    (EvolutionConfig.maxGenerations c) (EvolutionConfig.maxParallelEvaluations c) (EvolutionConfig.targetCpuPercent c)
    (EvolutionConfig.genomeArchiveMaxSize c) (EvolutionConfig.diversityEliteCount c)
    (EvolutionConfig.diversityEliteFitnessEpsilon c) (EvolutionConfig.robustFitnessEvaluationCount c)
    (EvolutionConfig.warmStartSeedCount c) (EvolutionConfig.warmStartSeedPercent c)
    (EvolutionConfig.warmStartMinRobustEvalCount c) (EvolutionConfig.warmStartAlwaysIncludeBest c)
    (EvolutionConfig.warmStartNoveltyWeight c) (EvolutionConfig.warmStartFitnessFloorPercentile c)
    (EvolutionConfig.stagnationImprovementEpsilon c) stagnation recovery (EvolutionConfig.maxSimulationTime c)
    (EvolutionConfig.energyReference c) (EvolutionConfig.waterReference c).

Definition with_population (n : Z) (c : EvolutionConfig.t) : EvolutionConfig.t :=
  EvolutionConfig.mk n (EvolutionConfig.tournamentSize c)
    (EvolutionConfig.maxGenerations c) (EvolutionConfig.maxParallelEvaluations c) (EvolutionConfig.targetCpuPercent c)
    (EvolutionConfig.genomeArchiveMaxSize c) (EvolutionConfig.diversityEliteCount c)
    (EvolutionConfig.diversityEliteFitnessEpsilon c) (EvolutionConfig.robustFitnessEvaluationCount c)
    (EvolutionConfig.warmStartSeedCount c) (EvolutionConfig.warmStartSeedPercent c)
    (EvolutionConfig.warmStartMinRobustEvalCount c) (EvolutionConfig.warmStartAlwaysIncludeBest c)
    (EvolutionConfig.warmStartNoveltyWeight c) (EvolutionConfig.warmStartFitnessFloorPercentile c)
    (EvolutionConfig.stagnationImprovementEpsilon c) (EvolutionConfig.stagnationWindowGenerations c)
    (EvolutionConfig.recoveryWindowGenerations c) (EvolutionConfig.maxSimulationTime c)
    (EvolutionConfig.energyReference c) (EvolutionConfig.waterReference c).

Definition with_config (c : EvolutionConfig.t) (st : Settings.t) : Settings.t :=
  Settings.mk c (Settings.mutationConfig st) (Settings.trainingSpec st) (Settings.genomePoolId_ st)
    (Settings.nesTileBrainCompatibility_ st) (Settings.trainingSessionId_ st) (Settings.mutationControlMode_ st).

(** The command's numbers are limited before they are applied; a control mode
    outside the enumeration would become [Auto]. *)
Definition evolutionMutationControlsApply (command : MutationControls) (s : t) : t * MutationControls :=
  let mutation := mc_mutationConfig command in
  let sigma := std_clamp (MutationConfig.sigma mutation) fzero (f64_lit 3 10) in
  let sigma := if is_finite sigma then sigma else MutationConfig.sigma MutationConfig.default in
  let mutationConfig :=
    MutationConfig.mk (clampZ (MutationConfig.perturbationsPerOffspring mutation) 0 5000)
      (clampZ (MutationConfig.resetsPerOffspring mutation) 0 200) sigma in
  let stagnation := clampZ (mc_stagnationWindowGenerations command) 1 100 in
  let recovery := clampZ (mc_recoveryWindowGenerations command) 0 100 in
  let st := settings s in
  let st := Settings.mk (with_windows stagnation recovery (Settings.evolutionConfig st)) mutationConfig
              (Settings.trainingSpec st) (Settings.genomePoolId_ st) (Settings.nesTileBrainCompatibility_ st)
              (Settings.trainingSessionId_ st) (mc_controlMode command) in
  (set_settings st s, mkMutationControls mutationConfig stagnation recovery (mc_controlMode command)).

(** *** The population *)
Definition newIndividual (spec : PopulationSpec.t) (scenario : ScenarioId) (entry : BrainRegistryEntry.t R)
    (genome : option Genome.t) : Individual.t :=
  Individual.mk (PopulationSpec.brainKind spec) (PopulationSpec.brainVariant spec) scenario genome
    (BrainRegistryEntry.allowsMutation entry) None.

Fixpoint seed_individuals (ids : list GenomeId) (make : option Genome.t -> Individual.t) (a : A) : res (list Individual.t) :=
  match ids with
  | [] => Ok []
  | id :: ids =>
      match archive_get id a with
      | None => Fault (AssertFailed "Training population seed genome missing")
      | Some genome => let! rest := seed_individuals ids make a in Ok (make (Some genome) :: rest)
      end
  end.

Fixpoint random_individuals (n : nat) (create : option (R -> res (Genome.t * R))) (make : option Genome.t -> Individual.t) (rng : R)
    : res (list Individual.t * R) :=
  match n with
  | O => Ok ([], rng)
  | S n =>
      match create with
      | None => Fault (AssertFailed "Evolution: createRandomGenome must be set for genome brains")
      | Some f =>
          let! '(genome, rng) := f rng in
          let! '(rest, rng) := random_individuals n create make rng in
          Ok (make (Some genome) :: rest, rng)
      end
  end.

Definition spec_individuals (training : TrainingSpec.t) (spec : PopulationSpec.t) (a : A) (rng : R)
    : res (list Individual.t * R) :=
  let variant := default EmptyString (PopulationSpec.brainVariant spec) in
  match brainRegistry_ (TrainingSpec.organismType training) (PopulationSpec.brainKind spec) variant with
  | None => Fault (AssertFailed "Training population brain kind not registered")
  | Some entry =>
      let make := newIndividual spec (TrainingSpec.scenarioId training) entry in
      if BrainRegistryEntry.requiresGenome entry then
        let! expected := int_result (Z.of_nat (length (PopulationSpec.seedGenomes spec)) + PopulationSpec.randomCount spec) in
        dirtsim_assert (PopulationSpec.count spec =? expected)
          "Training population count must match seedGenomes + randomCount" ;;!
        let! seeds := seed_individuals (PopulationSpec.seedGenomes spec) make a in
        let! '(randoms, rng) :=
          random_individuals (Z.to_nat (PopulationSpec.randomCount spec)) (BrainRegistryEntry.createRandomGenome entry) make rng in
        Ok (seeds ++ randoms, rng)
      else
        dirtsim_assert (bool_decide (length (PopulationSpec.seedGenomes spec) = 0%nat))
          "Training population seedGenomes must be empty for non-genome brains" ;;!
        dirtsim_assert (PopulationSpec.randomCount spec =? 0)
          "Training population randomCount must be 0 for non-genome brains" ;;!
        Ok (replicate (Z.to_nat (PopulationSpec.count spec)) (make None), rng)
  end.

Fixpoint population_loop (training : TrainingSpec.t) (specs : list PopulationSpec.t) (a : A) (rng : R)
    : res (list Individual.t * R) :=
  match specs with
  | [] => Ok ([], rng)
  | spec :: specs =>
      let! '(individuals, rng) := spec_individuals training spec a rng in
      let! '(rest, rng) := population_loop training specs a rng in
      Ok (individuals ++ rest, rng)
  end.

Definition initializePopulation (s : t) : res t :=
  let training := Settings.trainingSpec (settings s) in
  dirtsim_assert (negb (bool_decide (length (TrainingSpec.population training) = 0%nat)))
    "Training population must not be empty" ;;!
  let! '(population, rng) := population_loop training (TrainingSpec.population training) (archive s) (rng s) in
  let n := length population in
  let config := with_population (s32 (Z.of_nat n)) (config s) in
  Ok (mk (with_config config (settings s)) (scenarioConfigOverride_ s)
        (Population.mk population (replicate n Seed) (replicate n fzero)
           (resize n fzero (Population.wingUpSecondsPerIndividual (pop s))) false)
        (Progress.mk 0 0 0 fzero (Progress.cumulativeSimTime_ (progress s)) (Progress.trainingComplete_ (progress s))
           (Progress.finalAverageFitness_ (progress s)))
        (Best.mk fzero f64_lowest INVALID_GENOME_ID 0 OriginUnknown BestPlaybackState.reset)
        PendingBestState.reset RobustnessPassState.reset TrainingPhaseTracker.reset
        (EffectiveAdaptiveMutation.mk Baseline (Settings.mutationConfig (settings s)))
        (Statistics.set_distribution (-1) fzero fzero fzero [] (statistics s))
        rng (executor_ s) (archive s) (sent s) (tuning s)).

Definition generationRequests (population : list Individual.t) : list EvaluationRequest.t :=
  imap (fun i individual => makeEvaluationRequest individual (Z.of_nat i)) population.

Definition queueGenerationTasks (s : t) : res t :=
  let! executor := generationBatchSubmit (generationRequests (Population.population (pop s))) (config s)
                     (scenarioConfigOverride_ s) (executor_ s) in
  Ok (set_executor_ executor s).

(** The part of [onEnter] that concerns the generations: a deterministic scenario
    turns the robust pass off. *)
Definition without_robust_pass (c : EvolutionConfig.t) : EvolutionConfig.t :=
  EvolutionConfig.mk (EvolutionConfig.populationSize c) (EvolutionConfig.tournamentSize c)
    (EvolutionConfig.maxGenerations c) (EvolutionConfig.maxParallelEvaluations c) (EvolutionConfig.targetCpuPercent c)
    (EvolutionConfig.genomeArchiveMaxSize c) (EvolutionConfig.diversityEliteCount c)
    (EvolutionConfig.diversityEliteFitnessEpsilon c) 0
    (EvolutionConfig.warmStartSeedCount c) (EvolutionConfig.warmStartSeedPercent c)
    1 (EvolutionConfig.warmStartAlwaysIncludeBest c)
    (EvolutionConfig.warmStartNoveltyWeight c) (EvolutionConfig.warmStartFitnessFloorPercentile c)
    (EvolutionConfig.stagnationImprovementEpsilon c) (EvolutionConfig.stagnationWindowGenerations c)
    (EvolutionConfig.recoveryWindowGenerations c) (EvolutionConfig.maxSimulationTime c)
    (EvolutionConfig.energyReference c) (EvolutionConfig.waterReference c).

Definition resolveParallelEvaluations (requested populationSize hardware : Z) : Z :=
  let resolved := if requested <=? 0 then (if 0 <? hardware then s32 hardware else 1) else requested in
  let resolved := if resolved <? 1 then 1 else resolved in
  if (0 <? populationSize) && (populationSize <? resolved) then populationSize else resolved.

Definition with_parallel (n : Z) (c : EvolutionConfig.t) : EvolutionConfig.t :=
  EvolutionConfig.mk (EvolutionConfig.populationSize c) (EvolutionConfig.tournamentSize c)
    (EvolutionConfig.maxGenerations c) n (EvolutionConfig.targetCpuPercent c)
    (EvolutionConfig.genomeArchiveMaxSize c) (EvolutionConfig.diversityEliteCount c)
    (EvolutionConfig.diversityEliteFitnessEpsilon c) (EvolutionConfig.robustFitnessEvaluationCount c)
    (EvolutionConfig.warmStartSeedCount c) (EvolutionConfig.warmStartSeedPercent c)
    (EvolutionConfig.warmStartMinRobustEvalCount c) (EvolutionConfig.warmStartAlwaysIncludeBest c)
    (EvolutionConfig.warmStartNoveltyWeight c) (EvolutionConfig.warmStartFitnessFloorPercentile c)
    (EvolutionConfig.stagnationImprovementEpsilon c) (EvolutionConfig.stagnationWindowGenerations c)
    (EvolutionConfig.recoveryWindowGenerations c) (EvolutionConfig.maxSimulationTime c)
    (EvolutionConfig.energyReference c) (EvolutionConfig.waterReference c).

Definition trainingRequiresNesTileTokenizer (training : TrainingSpec.t) : bool :=
  existsb (fun spec => String.eqb (PopulationSpec.brainKind spec) "NesTileRecurrent") (TrainingSpec.population training).

(** The tokenizer of the training, if it needs one; [bootstrap] is
    [NesTileTokenizerBootstrapper::build]. *)
Definition trainingTokenizer {Tok} (bootstrap : ScenarioId -> option SC -> Result Tok string) (training : TrainingSpec.t)
    (override : option SC) : res (option Tok) :=
  if trainingRequiresNesTileTokenizer training then
    match bootstrap (TrainingSpec.scenarioId training) override with
    | okay tokenizer => Ok (Some tokenizer)
    | error _ => Fault (AssertFailed "Evolution: Failed to bootstrap NES tile tokenizer")
    end
  else Ok None.

(** [onEnter], given the scenario's metadata, the random seed, the number of
    cores, and the settings' override of the scenario; [compatibility] is
    [makeNesTileBrainCompatibilityMetadata], [start] makes the executor and starts
    its workers. *)
Definition onEnter {Tok} (bootstrap : ScenarioId -> option SC -> Result Tok string)
    (compatibility : Tok -> NesTileBrainCompatibilityMetadata.t) (start : TrainingSpec.t -> option Tok -> Z -> E)
    (sessionId : UUID.t) (deterministicEvaluation : bool) (pool : GenomePoolId) (seed hardware : Z)
    (override : option SC) (s : t) : res t :=
  let st := settings s in
  let config := if deterministicEvaluation then without_robust_pass (config s) else config s in
  let! tokenizer := trainingTokenizer bootstrap (Settings.trainingSpec st) override in
  let st := Settings.mk config (Settings.mutationConfig st) (Settings.trainingSpec st) pool
              (compatibility <$> tokenizer) sessionId (Settings.mutationControlMode_ st) in
  let p := progress s in
  let p := Progress.mk (Progress.generation p) (Progress.currentEval p) (Progress.completedEvaluations_ p) fzero fzero false fzero in
  let stats := Statistics.set_last LastGenerationTelemetry.default
                 (Statistics.set_telemetry GenerationTelemetry.reset (statistics s)) in
  let s := mk st override (pop s) p (best s) PendingBestState.reset (robustnessPass_ s) (trainingPhaseTracker_ s)
             (lastEffectiveAdaptiveMutation_ s) stats (engine_seed seed) (executor_ s) (archive s) (sent s) Tuning.reset in
  let! s := initializePopulation s in
  let parallel := resolveParallelEvaluations (EvolutionConfig.maxParallelEvaluations (Settings.evolutionConfig (settings s)))
                    (s32 (Z.of_nat (length (Population.population (pop s))))) hardware in
  let s := set_settings (with_config (with_parallel parallel (Settings.evolutionConfig (settings s))) (settings s)) s in
  queueGenerationTasks (set_executor_ (start (Settings.trainingSpec (settings s)) tokenizer parallel) s).

(** *** Storing genomes *)
Definition storeManagedGenome (genome : Genome.t) (metadata : GenomeMetadata.t) (archiveMaxSize : Z) (a : A)
    : res (A * GenomeId) :=
  let! '(a, id) := archive_store genome metadata a in
  if 0 <? archiveMaxSize then let! a := archive_prune (Z.to_nat archiveMaxSize) a in Ok (a, id)
  else Ok (a, id).

Definition brainCompatibilityMetadataForIndividual (individual : Individual.t)
    (compatibility : option NesTileBrainCompatibilityMetadata.t) : option NesTileBrainCompatibilityMetadata.t :=
  if String.eqb (Individual.brainKind individual) "NesTileRecurrent" then compatibility else None.

(** The metadata of a genome of this training. *)
Definition trainingMetadata (s : t) (individual : Individual.t) (scenario : ScenarioId) (name : string)
    (fitness robustFitness : f64) (robustEvalCount : Z) (samples : list f64) (generation now : Z) : GenomeMetadata.t :=
  GenomeMetadata.mk name fitness robustFitness robustEvalCount samples generation (u64 now) scenario EmptyString
    (Some (TrainingSpec.organismType (Settings.trainingSpec (settings s)))) (Some (Individual.brainKind individual))
    (Individual.brainVariant individual) (Some (Settings.trainingSessionId_ (settings s)))
    (Settings.genomePoolId_ (settings s))
    (brainCompatibilityMetadataForIndividual individual (Settings.nesTileBrainCompatibility_ (settings s))).

(** The best of the population as it is scored now. *)
Fixpoint best_scored (population : list Individual.t) (scores : list f64) (i : Z) (found : option (Z * Individual.t * f64))
    : res (option (Z * Individual.t * f64)) :=
  match scores with
  | [] => Ok found
  | fitness :: scores =>
      let! individual := vec_get population i in
      let found :=
        match Individual.genome individual with
        | None => found
        | Some _ =>
            match found with
            | Some (_, _, bestFit) => if fgt fitness bestFit then Some (i, individual, fitness) else found
            | None => Some (i, individual, fitness)
            end
        end in
      best_scored population scores (i + 1) found
  end.

Definition storeBestGenome (now : Z) (s : t) : res t :=
  let population := Population.population (pop s) in
  let scores := Population.fitnessScores (pop s) in
  if bool_decide (length population = 0%nat) || bool_decide (length scores = 0%nat) then Ok s
  else
    let! found := best_scored population scores 0 None in
    match found with
    | None => Ok s
    | Some (_, individual, bestFit) =>
        let generation := Progress.generation (progress s) in
        let meta := trainingMetadata s individual (TrainingSpec.scenarioId (Settings.trainingSpec (settings s)))
                      ("checkpoint_gen_" +:+ pretty generation) bestFit fzero 0 [] generation now in
        match Individual.genome individual with
        | None => Fault BadOptional
        | Some genome =>
            let! '(a, _) := storeManagedGenome genome meta (EvolutionConfig.genomeArchiveMaxSize (config s)) (archive s) in
            let s := set_archive a s in
            Ok (set_best (Best.set_genomeId (default INVALID_GENOME_ID (archive_best a)) (best s)) s)
        end
    end.

Definition setBestPlaybackSource (individual : Individual.t) (fitness : f64) (generation : Z) (s : t) : t :=
  set_best (Best.set_playback (BestPlaybackState.mk (Some (Individual.set_parentFitness None individual)) fitness generation)
              (best s)) s.

(** *** Promoting a candidate *)
Definition broadcastTrainingBestSnapshot (fitness : f64) (generation : Z) (s : t) : t :=
  let p := pendingBest_ s in
  match PendingBestState.snapshot p with
  | None => s
  | Some snapshot =>
      let evaluation := default (FitnessEvaluation.mk fitness None) (PendingBestState.snapshotFitnessEvaluation p) in
      set_sent (sent s ++ [TrainingBestSnapshot.mk snapshot evaluation generation
                             (PendingBestState.snapshotCommandsAccepted p) (PendingBestState.snapshotCommandsRejected p)
                             (PendingBestState.snapshotTopCommandSignatures p)
                             (PendingBestState.snapshotTopCommandOutcomeSignatures p)]) s
  end.

(** The session has a best genome, and [fitness] is not better. *)
Definition keepsSessionBest (fitness : f64) (b : Best.t) : bool :=
  let hasSessionBest := negb (UUID.isNil (Best.bestGenomeId b)) in
  let bestUpdated := negb hasSessionBest
                     || (negb (fitnessTiesBest fitness (Best.bestFitnessAllTime b)) && fgt fitness (Best.bestFitnessAllTime b)) in
  negb bestUpdated.

(** The block [if (bestUpdated)] of both ways to finalize a candidate. *)
Definition promote (individual : Individual.t) (genome : Genome.t) (meta : GenomeMetadata.t) (fitness : f64) (generation : Z)
    (s : t) : res t :=
  if keepsSessionBest fitness (best s) then Ok s
  else
    let! '(a, id) := storeManagedGenome genome meta (EvolutionConfig.genomeArchiveMaxSize (config s)) (archive s) in
    let s := set_archive (archive_mark_best id a) s in
    let s := set_best (Best.set_allTime fitness id (best s)) s in
    let s := setBestPlaybackSource individual fitness generation s in
    Ok (broadcastTrainingBestSnapshot fitness generation s).

Definition inPopulation (index : Z) (s : t) : bool :=
  (0 <=? index) && (index <? Z.of_nat (length (Population.population (pop s)))).

Definition evaluationName (generation index : Z) : string :=
  "gen_" +:+ pretty generation +:+ "_eval_" +:+ pretty index.

Definition finalizePendingBestWithoutRobustnessPass (now : Z) (s : t) : res t :=
  let p := pendingBest_ s in
  let index := PendingBestState.robustnessIndex p in
  let generation := PendingBestState.robustnessGeneration p in
  if negb (PendingBestState.robustness p) then Ok s
  else if negb (generation =? Progress.generation (progress s)) then Ok (set_pendingBest_ PendingBestState.reset s)
  else if negb (inPopulation index s) then Ok (set_pendingBest_ PendingBestState.reset s)
  else
    let! individual := vec_get (Population.population (pop s)) index in
    match Individual.genome individual with
    | None => Ok (set_pendingBest_ PendingBestState.reset s)
    | Some genome =>
        let bestFitness := PendingBestState.robustnessFirstSample p in
        let meta := trainingMetadata s individual (Individual.scenarioId individual) (evaluationName generation index)
                      bestFitness bestFitness 1 [bestFitness] generation now in
        let s := set_best (Best.set_thisGen bestFitness (originAt (Population.populationOrigins (pop s)) index) (best s)) s in
        let! s := promote individual genome meta bestFitness generation s in
        Ok (set_pendingBest_ PendingBestState.reset s)
    end.

(** *** The robust pass *)
Definition robustRequest (candidate : Individual.t) (index generation : Z) : EvaluationRequest.t :=
  EvaluationRequest.mk RobustnessEval index generation 0 (makeEvaluationIndividual candidate).

Definition startRobustnessPass (s : t) : res t :=
  let p := pendingBest_ s in
  let index := PendingBestState.robustnessIndex p in
  if RobustnessPassState.active (robustnessPass_ s) then Ok s
  else if negb (PendingBestState.robustness p) then Ok s
  else if negb (PendingBestState.robustnessGeneration p =? Progress.generation (progress s)) then
    Ok (set_pendingBest_ (PendingBestState.clearTrigger p) s)
  else if negb (inPopulation index s) then Ok (set_pendingBest_ (PendingBestState.clearTrigger p) s)
  else
    let! candidate := vec_get (Population.population (pop s)) index in
    match Individual.genome candidate with
    | None => Ok (set_pendingBest_ (PendingBestState.clearTrigger p) s)
    | Some _ =>
        let targetSampleCount := resolveRobustnessPassSampleCount (EvolutionConfig.robustFitnessEvaluationCount (config s)) in
        if targetSampleCount <=? 0 then Ok s
        else
          let generation := Progress.generation (progress s) in
          let s := set_robustnessPass_ (RobustnessPassState.mk true generation index targetSampleCount targetSampleCount 0 []) s in
          let s := set_pendingBest_ (PendingBestState.clearTrigger p) s in
          let! executor := robustnessPassSubmit (robustRequest candidate index generation) targetSampleCount (config s)
                             (scenarioConfigOverride_ s) (executor_ s) in
          Ok (set_executor_ executor s)
    end.

Definition handleRobustnessSampleResult (result : CompletedEvaluation.t Snapshot) (s : t) : res t :=
  let r := robustnessPass_ s in
  if negb (RobustnessPassState.active r) then Ok s
  else if negb (CompletedEvaluation.robustGeneration result =? RobustnessPassState.generation r) then Ok s
  else if negb (CompletedEvaluation.index result =? RobustnessPassState.index r) then Ok s
  else if RobustnessPassState.pendingSamples r <=? 0 then Ok s
  else
    let! pending := int_result (RobustnessPassState.pendingSamples r - 1) in
    let! completed := int_result (RobustnessPassState.completedSamples r + 1) in
    Ok (set_robustnessPass_
          (RobustnessPassState.mk true (RobustnessPassState.generation r) (RobustnessPassState.index r)
             (RobustnessPassState.targetEvalCount r) pending completed
             (RobustnessPassState.samples r ++ [FitnessEvaluation.totalFitness (CompletedEvaluation.fitnessEvaluation result)])) s).

Definition finalizeRobustnessPass (now : Z) (s : t) : res t :=
  let r := robustnessPass_ s in
  if negb (RobustnessPassState.active r) then Ok s
  else if 0 <? RobustnessPassState.pendingSamples r then Ok s
  else
    let index := RobustnessPassState.index r in
    let generation := RobustnessPassState.generation r in
    let samples := drop (length (RobustnessPassState.samples r) - kRobustFitnessSampleWindow) (RobustnessPassState.samples r) in
    if negb (inPopulation index s) then Ok (set_robustnessPass_ RobustnessPassState.reset s)
    else
      let! individual := vec_get (Population.population (pop s)) index in
      match Individual.genome individual with
      | None => Ok (set_robustnessPass_ RobustnessPassState.reset s)
      | Some genome =>
          let robustFitness := GenomeMetadataUtils.computeMedian samples in
          let first := PendingBestState.robustnessFirstSample (pendingBest_ s) in
          let firstSampleFitness := if is_finite first then first else hd fzero samples in
          let meta := trainingMetadata s individual (Individual.scenarioId individual) (evaluationName generation index)
                        firstSampleFitness robustFitness (RobustnessPassState.targetEvalCount r) samples generation now in
          let b := Best.set_thisGen robustFitness (originAt (Population.populationOrigins (pop s)) index) (best s) in
          let s := set_best (Best.set_robustEvaluationCount_ (u64 (Best.robustEvaluationCount_ b + 1)) b) s in
          let! s := promote individual genome meta robustFitness generation s in
          Ok (set_pendingBest_ PendingBestState.reset (set_robustnessPass_ RobustnessPassState.reset s))
      end.

(** *** The statistics of a completed generation *)
Definition f64_epsilon : f64 := S754_finite false (2 ^ 52) (-104).

(** [static_cast<size_t>] of a [double]: undefined unless its integer part fits. *)
Definition f64_to_size (x : f64) : res Z :=
  match x with
  | S754_zero _ => Ok 0
  | S754_finite false m e =>
      let z := if 0 <=? e then Z.shiftl (Zpos m) e else Z.shiftr (Zpos m) (- e) in
      if z <? 2 ^ 64 then Ok z else Fault (Undefined "double to size_t")
  | S754_finite true m e =>
      let z := if 0 <=? e then Z.shiftl (Zpos m) e else Z.shiftr (Zpos m) (- e) in
      if z =? 0 then Ok 0 else Fault (Undefined "double to size_t")
  | _ => Fault (Undefined "double to size_t")
  end.

Definition fitness_bin (minFitness range fitness : f64) : res Z :=
  let normalized := std_clamp (f64_div (f64_sub fitness minFitness) range) fzero (f64_of_Z 1) in
  let! bin := f64_to_size (f64_mul normalized (f64_of_Z kFitnessDistributionBinCount)) in
  Ok (Z.min (kFitnessDistributionBinCount - 1) bin).

Fixpoint histogram_loop (scores : list f64) (minFitness range : f64) (bins : list Z) : res (list Z) :=
  match scores with
  | [] => Ok bins
  | fitness :: scores =>
      let! bin := fitness_bin minFitness range fitness in
      let! count := vec_get bins bin in
      let! bins := vec_set bins bin (u32 (count + 1)) in
      histogram_loop scores minFitness range bins
  end.

Definition captureLastGenerationFitnessDistribution (s : t) : res t :=
  let p := progress s in
  let scores := Population.fitnessScores (pop s) in
  let evaluatedCount := Z.min (Progress.currentEval p) (s32 (Z.of_nat (length scores))) in
  if evaluatedCount <=? 0 then
    Ok (set_statistics (Statistics.set_distribution (-1) fzero fzero fzero [] (statistics s)) s)
  else
    let! first := vec_get scores 0 in
    let evaluated := take (Z.to_nat evaluatedCount) scores in
    let minFitness := fold_left std_min (tail evaluated) first in
    let maxFitness := fold_left std_max (tail evaluated) first in
    let sumFitness := fold_left f64_add (tail evaluated) first in
    let empty := replicate (Z.to_nat kFitnessDistributionBinCount) 0 in
    let range := f64_sub maxFitness minFitness in
    let! bins :=
      if fle range f64_epsilon then vec_set empty (kFitnessDistributionBinCount / 2) (u32 evaluatedCount)
      else histogram_loop evaluated minFitness range empty in
    Ok (set_statistics
          (Statistics.set_distribution (Progress.generation p) (f64_div sumFitness (f64_of_Z evaluatedCount))
             minFitness maxFitness bins (statistics s)) s).

Definition averageDelta (sum : f64) (count : Z) : f64 :=
  if 0 <? count then f64_div sum (f64_of_Z count) else fzero.

Definition captureLastGenerationTelemetry (s : t) : t :=
  let g := Statistics.generationTelemetry_ (statistics s) in
  let l := Statistics.lastGenTelemetry_ (statistics s) in
  let novel := GenerationTelemetry.phenotypeOffspringMutated g ∖ GenerationTelemetry.phenotypeEliteCarryover g in
  let count (hashes : gset Z) := s32 (Z.of_nat (size hashes)) in
  set_statistics (Statistics.set_last
    (LastGenerationTelemetry.mk (GenerationTelemetry.eliteCarryoverCount g) (GenerationTelemetry.seedCount g)
       (GenerationTelemetry.offspringCloneCount g) (GenerationTelemetry.offspringMutatedCount g)
       (GenerationTelemetry.offspringCloneBeatsParentCount g)
       (averageDelta (GenerationTelemetry.offspringCloneDeltaFitnessSum g) (GenerationTelemetry.offspringCloneComparedCount g))
       (GenerationTelemetry.offspringMutatedBeatsParentCount g)
       (averageDelta (GenerationTelemetry.offspringMutatedDeltaFitnessSum g) (GenerationTelemetry.offspringMutatedComparedCount g))
       (count (GenerationTelemetry.phenotypeAll g)) (count (GenerationTelemetry.phenotypeEliteCarryover g))
       (count (GenerationTelemetry.phenotypeOffspringMutated g)) (count novel)
       (LastGenerationTelemetry.breedingUsesBudget l) (LastGenerationTelemetry.breedingMutationMode l)
       (LastGenerationTelemetry.breedingResolvedPerturbationsPerOffspring l)
       (LastGenerationTelemetry.breedingResolvedResetsPerOffspring l) (LastGenerationTelemetry.breedingResolvedSigma l)
       (LastGenerationTelemetry.breedingPerturbationsAvg l) (LastGenerationTelemetry.breedingResetsAvg l)
       (LastGenerationTelemetry.breedingWeightChangesAvg l) (LastGenerationTelemetry.breedingWeightChangesMin l)
       (LastGenerationTelemetry.breedingWeightChangesMax l)) (statistics s)) s.

Definition updateTrainingPhaseTelemetry (s : t) : res t :=
  let! '(tracker, _) := TrainingPhaseTracker.updateCompletedGeneration (Progress.generation (progress s))
                          (Best.bestFitnessThisGen (best s)) (config s) (trainingPhaseTracker_ s) in
  Ok (set_trainingPhaseTracker_ tracker s).

(** *** Selecting the survivors *)
Definition f64_sqrt (x : f64) : f64 := SFsqrt 53 1024 x.

Definition weightsOf (i : Individual.t) : list Z :=
  match Individual.genome i with Some g => Genome.weights g | None => [] end.

Definition canComputeGenomeWeightDistance (left right : Individual.t) : bool :=
  match Individual.genome left, Individual.genome right with
  | Some l, Some r =>
      negb (bool_decide (length (Genome.weights l) = 0%nat))
      && (Z.of_nat (length (Genome.weights l)) =? Z.of_nat (length (Genome.weights r)))
  | _, _ => false
  end.

Definition computeGenomeWeightDistance (left right : Individual.t) : res f64 :=
  dirtsim_assert (canComputeGenomeWeightDistance left right)
    "Evolution: comparable genomes required for distance calculation" ;;!
  let squaredDistance :=
    fold_left (fun acc lr =>
      let delta := f64_sub (f32_to_f64 (f32_of_bits (fst lr))) (f32_to_f64 (f32_of_bits (snd lr))) in
      f64_add acc (f64_mul delta delta)) (combine (weightsOf left) (weightsOf right)) fzero in
  Ok (f64_sqrt (f64_div squaredDistance (f64_of_Z (Z.of_nat (length (weightsOf left)))))).

Definition isNearBestFitness (fitness bestFitness fitnessEpsilon : f64) : bool :=
  fitnessTiesBest fitness bestFitness || fge (f64_add fitness fitnessEpsilon) bestFitness.

(** The distance of a candidate to the nearest comparable reference. *)
Fixpoint reference_loop (ranked : list RankedIndividual.t) (candidate : Individual.t) (references : list Z)
    (found : bool) (minDistance : f64) : res (bool * f64) :=
  match references with
  | [] => Ok (found, minDistance)
  | position :: references =>
      let! reference := vec_get ranked position in
      if canComputeGenomeWeightDistance candidate (RankedIndividual.individual reference) then
        let! distance := computeGenomeWeightDistance candidate (RankedIndividual.individual reference) in
        reference_loop ranked candidate references true (std_min minDistance distance)
      else reference_loop ranked candidate references found minDistance
  end.

Definition kDistanceTieEpsilon : f64 := f64_lit 1 1000000000000.

(** The unselected candidate that is farthest from the references. *)
Fixpoint candidate_loop (ranked : list RankedIndividual.t) (references : list Z) (selectedMask : list bool)
    (candidates : list Z) (bestCandidate : Z) (bestMinDistance : f64) : res (Z * f64) :=
  match candidates with
  | [] => Ok (bestCandidate, bestMinDistance)
  | position :: candidates =>
      let! chosen := vec_get selectedMask position in
      if (chosen : bool) then candidate_loop ranked references selectedMask candidates bestCandidate bestMinDistance
      else
        let! candidate := vec_get ranked position in
        let! '(comparable, minDistance) :=
          reference_loop ranked (RankedIndividual.individual candidate) references false (S754_infinity false) in
        if negb comparable then candidate_loop ranked references selectedMask candidates bestCandidate bestMinDistance
        else if (bestCandidate <? 0) || fgt minDistance (f64_add bestMinDistance kDistanceTieEpsilon)
                || (fle (f64_abs (f64_sub minDistance bestMinDistance)) kDistanceTieEpsilon && (position <? bestCandidate))
        then candidate_loop ranked references selectedMask candidates position minDistance
        else candidate_loop ranked references selectedMask candidates bestCandidate bestMinDistance
  end.

(** The [while] loop, with [slots] places left; [selected] newest last. *)
Fixpoint diversity_loop (slots : nat) (ranked : list RankedIndividual.t) (candidates selected references : list Z)
    (selectedMask : list bool) : res (list Z) :=
  match slots with
  | O => Ok selected
  | S slots =>
      let! '(bestCandidate, _) := candidate_loop ranked references selectedMask candidates (-1) (f64_of_Z (-1)) in
      if bestCandidate <? 0 then Ok selected
      else
        let! selectedMask := vec_set selectedMask bestCandidate true in
        diversity_loop slots ranked candidates (selected ++ [bestCandidate]) (references ++ [bestCandidate]) selectedMask
  end.

Definition eliteCandidates (ranked : list RankedIndividual.t) (bestFitness epsilon : f64) : list Z :=
  omap (fun '(i, r) =>
          if negb (isNearBestFitness (RankedIndividual.fitness r) bestFitness epsilon) then None
          else match Individual.genome (RankedIndividual.individual r) with None => None | Some _ => Some i end)
    (tail (combine (seqZ 0 (Z.of_nat (length ranked))) ranked)).

Definition selectDiversityElitePositions (ranked : list RankedIndividual.t) (keepCount diversityEliteCount : Z)
    (diversityFitnessEpsilon : f64) : res (list Z) :=
  if bool_decide (length ranked = 0%nat) || (keepCount <=? 1) || (diversityEliteCount <=? 0) then Ok []
  else
    let diverseSlots := Z.min diversityEliteCount (keepCount - 1) in
    if diverseSlots <=? 0 then Ok []
    else
      let! front := vec_front ranked in
      let candidates := eliteCandidates ranked (RankedIndividual.fitness front) diversityFitnessEpsilon in
      if bool_decide (length candidates = 0%nat) then Ok []
      else diversity_loop (Z.to_nat diverseSlots) ranked candidates [] [0] (replicate (length ranked) false).

(** Fitter first, then offspring, then as before. *)
Definition rankedBefore (a b : RankedIndividual.t) : bool :=
  if negb (SFeqb (RankedIndividual.fitness a) (RankedIndividual.fitness b)) then
    fgt (RankedIndividual.fitness a) (RankedIndividual.fitness b)
  else
    let aIsOffspring := isOffspringOrigin (RankedIndividual.origin a) in
    let bIsOffspring := isOffspringOrigin (RankedIndividual.origin b) in
    if negb (Bool.eqb aIsOffspring bIsOffspring) then aIsOffspring
    else RankedIndividual.order a <? RankedIndividual.order b.

Fixpoint rank_loop (population : list Individual.t) (scores : list f64) (origins : list IndividualOrigin) (i : Z)
    : res (list RankedIndividual.t) :=
  match population with
  | [] => Ok []
  | individual :: population =>
      let! fitness := vec_get scores i in
      let! rest := rank_loop population scores origins (i + 1) in
      Ok (RankedIndividual.mk fitness individual (originAt origins i) (s32 i) :: rest)
  end.

(** [selectPosition]: a position is taken once. *)
Definition selectPosition (ranked : list RankedIndividual.t) (position : Z) (selected : list Z * list bool)
    : res (list Z * list bool) :=
  let '(positions, mask) := selected in
  if (position <? 0) || (Z.of_nat (length ranked) <=? position) then Ok selected
  else
    let! chosen := vec_get mask position in
    if (chosen : bool) then Ok selected
    else let! mask := vec_set mask position true in Ok (positions ++ [position], mask).

(** Both loops that fill the survivors' places, in order, while places are left. *)
Fixpoint select_loop (ranked : list RankedIndividual.t) (keepCount : Z) (positions : list Z) (selected : list Z * list bool)
    : res (list Z * list bool) :=
  match positions with
  | [] => Ok selected
  | position :: positions =>
      if keepCount <=? Z.of_nat (length (fst selected)) then Ok selected
      else
        let! selected := selectPosition ranked position selected in
        select_loop ranked keepCount positions selected
  end.

Definition survivorPositions (ranked : list RankedIndividual.t) (keepCount : Z) (config : EvolutionConfig.t) : res (list Z) :=
  let! elites := selectDiversityElitePositions ranked keepCount (EvolutionConfig.diversityEliteCount config)
                   (EvolutionConfig.diversityEliteFitnessEpsilon config) in
  let! selected := selectPosition ranked 0 ([], replicate (length ranked) false) in
  let! selected := select_loop ranked keepCount elites selected in
  let! selected := select_loop ranked keepCount (seqZ 1 (Z.of_nat (length ranked) - 1)) selected in
  dirtsim_assert (Z.of_nat (length (fst selected)) =? keepCount) "Evolution: selected survivor count mismatch after pruning" ;;!
  Ok (fst selected).

(** [if (pruneBeforeBreeding_)]: the evaluated population shrinks to the survivors. *)
Definition pruneToSurvivors (survivorPopulationSize : Z) (s : t) : res t :=
  let p := pop s in
  if negb (Population.pruneBeforeBreeding_ p) then Ok s
  else
    let! ranked := rank_loop (Population.population p) (Population.fitnessScores p) (Population.populationOrigins p) 0 in
    let ranked := std_sort rankedBefore ranked in
    let keepCount := Z.min survivorPopulationSize (s32 (Z.of_nat (length ranked))) in
    dirtsim_assert (0 <? keepCount) "Evolution: pruning would remove entire population" ;;!
    let! positions := survivorPositions ranked keepCount (config s) in
    let! survivors :=
      foldr (fun position rest =>
               let! r := vec_get ranked position in let! rest := rest in Ok (r :: rest)) (Ok []) positions in
    Ok (set_pop (Population.mk
          (map (fun r => Individual.set_parentFitness None (RankedIndividual.individual r)) survivors)
          (map (fun _ => EliteCarryover) survivors) (map RankedIndividual.fitness survivors)
          (Population.wingUpSecondsPerIndividual p) (Population.pruneBeforeBreeding_ p)) s).

(** *** Breeding *)
Fixpoint tournament_loop (n : nat) (fitness : list f64) (bestIdx : Z) (bestFitness : f64) (rng : R) : res (Z * R) :=
  match n with
  | O => Ok (bestIdx, rng)
  | S n =>
      let '(idx, rng) := uniform_int 0 (s32 (Z.of_nat (length fitness)) - 1) rng in
      let! f := vec_get fitness idx in
      if fgt f bestFitness then tournament_loop n fitness idx f rng
      else tournament_loop n fitness bestIdx bestFitness rng
  end.

Definition tournamentSelectIndex (fitness : list f64) (tournamentSize : Z) (rng : R) : res (Z * R) :=
  dirtsim_assert (negb (bool_decide (length fitness = 0%nat))) "Tournament selection requires non-empty fitness list" ;;!
  dirtsim_assert (0 <? tournamentSize) "Tournament size must be positive" ;;!
  let '(bestIdx, rng) := uniform_int 0 (s32 (Z.of_nat (length fitness)) - 1) rng in
  let! bestFitness := vec_get fitness bestIdx in
  tournament_loop (Z.to_nat (tournamentSize - 1)) fitness bestIdx bestFitness rng.

(** What the breeding loop accumulates. *)
Record Brood := mkBrood {
  offspring : list Individual.t;
  offspringOrigins : list IndividualOrigin;
  perturbationsTotal : Z;
  resetsTotal : Z;
  weightChangesMin : Z;
  weightChangesMax : Z;
  brood_rng : R
}.

(** A mutated copy of the parent's genome, and how many weights changed. *)
Definition mutateChild (organism : OrganismType) (effective : MutationConfig.t) (parent : Individual.t) (genome : Genome.t) (rng : R)
    : res (Genome.t * MutationStats.t * R) :=
  let variant := default EmptyString (Individual.brainVariant parent) in
  match brainRegistry_ organism (Individual.brainKind parent) variant with
  | None => Fault (AssertFailed "Evolution: brain kind not registered for mutation")
  | Some entry =>
      match BrainRegistryEntry.getGenomeLayout entry with
      | None => Fault (AssertFailed "Evolution: brain has no genome layout")
      | Some layout =>
          let! '(mutated, rng, stats) := Mutation.mutate genome effective layout rng in
          Ok (mutated, stats, rng)
      end
  end.

(** One turn of the breeding loop. *)
Definition breedOne (training : TrainingSpec.t) (tournamentSize : Z) (effective : MutationConfig.t) (p : Population.t)
    (b : Brood) : res Brood :=
  let! '(parentIdx, rng) := tournamentSelectIndex (Population.fitnessScores p) tournamentSize (brood_rng b) in
  let! parent := vec_get (Population.population p) parentIdx in
  let! parentFitness := vec_get (Population.fitnessScores p) parentIdx in
  let child := Individual.set_parentFitness (Some parentFitness) parent in
  let! '(child, perturbations, resets, weightChanges, rng) :=
    match Individual.genome parent with
    | None => Ok (child, perturbationsTotal b, resetsTotal b, 0, rng)
    | Some genome =>
        if negb (Individual.allowsMutation parent) then Ok (child, perturbationsTotal b, resetsTotal b, 0, rng)
        else
          let! '(mutated, stats, rng) := mutateChild (TrainingSpec.organismType training) effective parent genome rng in
          let! perturbations := int_result (perturbationsTotal b + MutationStats.perturbations stats) in
          let! resets := int_result (resetsTotal b + MutationStats.resets stats) in
          let! weightChanges := MutationStats.totalChanges stats in
          Ok (Individual.set_genome (Some mutated) child, perturbations, resets, weightChanges, rng)
    end in
  Ok (mkBrood (offspring b ++ [child])
        (offspringOrigins b ++ [if 0 <? weightChanges then OffspringMutated else OffspringClone])
        perturbations resets (Z.min (weightChangesMin b) weightChanges) (Z.max (weightChangesMax b) weightChanges) rng).

Fixpoint breed_loop (n : nat) (training : TrainingSpec.t) (tournamentSize : Z) (effective : MutationConfig.t)
    (p : Population.t) (b : Brood) : res Brood :=
  match n with
  | O => Ok b
  | S n => let! b := breedOne training tournamentSize effective p b in breed_loop n training tournamentSize effective p b
  end.

Definition breedingTelemetry (effective : EffectiveAdaptiveMutation.t) (survivorPopulationSize : Z) (b : Brood)
    (changesTotal : Z) (l : LastGenerationTelemetry.t) : LastGenerationTelemetry.t :=
  let m := EffectiveAdaptiveMutation.mutationConfig effective in
  let average (total : Z) :=
    if 0 <? survivorPopulationSize then f64_div (f64_of_Z total) (f64_of_Z survivorPopulationSize) else fzero in
  LastGenerationTelemetry.mk (LastGenerationTelemetry.eliteCarryoverCount l) (LastGenerationTelemetry.seedCount l)
    (LastGenerationTelemetry.offspringCloneCount l) (LastGenerationTelemetry.offspringMutatedCount l)
    (LastGenerationTelemetry.offspringCloneBeatsParentCount l) (LastGenerationTelemetry.offspringCloneAvgDeltaFitness l)
    (LastGenerationTelemetry.offspringMutatedBeatsParentCount l) (LastGenerationTelemetry.offspringMutatedAvgDeltaFitness l)
    (LastGenerationTelemetry.phenotypeUniqueCount l) (LastGenerationTelemetry.phenotypeUniqueEliteCarryoverCount l)
    (LastGenerationTelemetry.phenotypeUniqueOffspringMutatedCount l)
    (LastGenerationTelemetry.phenotypeNovelOffspringMutatedCount l)
    true (EffectiveAdaptiveMutation.mode effective) (MutationConfig.perturbationsPerOffspring m)
    (MutationConfig.resetsPerOffspring m) (MutationConfig.sigma m)
    (average (perturbationsTotal b)) (average (resetsTotal b)) (average changesTotal)
    (if weightChangesMin b =? 2 ^ 31 - 1 then 0 else weightChangesMin b) (weightChangesMax b).

(** From the survivors to the next population. *)
Definition breed (survivorPopulationSize : Z) (s : t) : res t :=
  let p := pop s in
  dirtsim_assert (negb (bool_decide (length (Population.population p) = 0%nat)))
    "Evolution: population must not be empty when breeding" ;;!
  dirtsim_assert (bool_decide (length (Population.population p) = length (Population.fitnessScores p)))
    "Evolution: fitness scores must align with population" ;;!
  let st := settings s in
  let! effective := AdaptiveMutation.adaptiveMutationResolve (Settings.mutationConfig st)
                      (TrainingPhaseTracker.status_ (trainingPhaseTracker_ s)) (lastEffectiveAdaptiveMutation_ s)
                      (config s) (Settings.mutationControlMode_ st) in
  let! b := breed_loop (Z.to_nat survivorPopulationSize) (Settings.trainingSpec st)
              (EvolutionConfig.tournamentSize (config s)) (EffectiveAdaptiveMutation.mutationConfig effective) p
              (mkBrood [] [] 0 0 (2 ^ 31 - 1) 0 (rng s)) in
  let! changesTotal := int_result (perturbationsTotal b + resetsTotal b) in
  let s := set_rng (brood_rng b) (set_lastEffectiveAdaptiveMutation_ effective s) in
  let s := set_statistics (Statistics.set_last
             (breedingTelemetry effective survivorPopulationSize b changesTotal (Statistics.lastGenTelemetry_ (statistics s)))
             (statistics s)) s in
  Ok (set_pop (Population.mk (Population.population p ++ offspring b) (Population.populationOrigins p ++ offspringOrigins b)
                 (Population.fitnessScores p) (Population.wingUpSecondsPerIndividual p)
                 (negb (bool_decide (length (offspring b) = 0%nat)))) s).

(** The step to the next generation. *)
Definition nextGeneration (s : t) : res t :=
  let p := progress s in
  let! generation := int_result (Progress.generation p + 1) in
  let maxGenerations := EvolutionConfig.maxGenerations (config s) in
  if (maxGenerations <=? 0) || (generation <? maxGenerations) then
    let n := length (Population.population (pop s)) in
    let s := set_progress (Progress.mk generation 0 (Progress.completedEvaluations_ p) fzero (Progress.cumulativeSimTime_ p)
                             (Progress.trainingComplete_ p) (Progress.finalAverageFitness_ p)) s in
    let s := set_statistics (Statistics.set_telemetry GenerationTelemetry.reset (statistics s)) s in
    Ok (set_pop (Population.mk (Population.population (pop s)) (Population.populationOrigins (pop s))
                   (replicate n fzero) (replicate n fzero) (Population.pruneBeforeBreeding_ (pop s))) s)
  else
    Ok (set_progress (Progress.mk generation (Progress.currentEval p) (Progress.completedEvaluations_ p)
                        (Progress.sumFitnessThisGen_ p) (Progress.cumulativeSimTime_ p)
                        (Progress.trainingComplete_ p) (Progress.finalAverageFitness_ p)) s).

(** The diagnostics of the duck's wings, for the log. *)
Record WingDiagnostics := mkWings { flapCount : Z; maxWingUp : f64; bestFlapperFitness : f64; bestNonFlapperFitness : f64 }.

Fixpoint wing_loop (wings fitnessScores : list f64) (i : Z) (d : WingDiagnostics) : res WingDiagnostics :=
  match wings with
  | [] => Ok d
  | wingUp :: wings =>
      let! fitness := vec_get fitnessScores i in
      if fgt wingUp (f64_lit 5 10) then
        let! flaps := int_result (flapCount d + 1) in
        wing_loop wings fitnessScores (i + 1)
          (mkWings flaps (std_max (maxWingUp d) wingUp) (std_max (bestFlapperFitness d) fitness) (bestNonFlapperFitness d))
      else
        wing_loop wings fitnessScores (i + 1)
          (mkWings (flapCount d) (maxWingUp d) (bestFlapperFitness d) (std_max (bestNonFlapperFitness d) fitness))
  end.

Definition wingDiagnostics (p : Population.t) : res WingDiagnostics :=
  wing_loop (Population.wingUpSecondsPerIndividual p) (Population.fitnessScores p) 0 (mkWings 0 fzero fzero fzero).

(** The average load of the processor since the last generation decides whether one
    evaluation more or one less may run at once. *)
Definition kTolerance : f64 := f64_of_Z 5.

Definition tunedConcurrency (avgCpu target : f64) (current workers : Z) : Z :=
  if fgt avgCpu (f64_add target kTolerance) && (1 <? current) then current - 1
  else if flt avgCpu (f64_sub target kTolerance) && (current <? workers) then current + 1
  else current.

Definition adjustConcurrency (s : t) : t :=
  let samples := Tuning.cpuSamples_ (tuning s) in
  if (EvolutionConfig.targetCpuPercent (config s) <=? 0) || bool_decide (length samples = 0%nat) then s
  else
    let avgCpu := f64_div (fold_left f64_add samples fzero) (f64_of_Z (Z.of_nat (length samples))) in
    let s := set_tuning (Tuning.mk (Tuning.trainingPaused_ (tuning s)) []) s in
    let current := allowedConcurrencyGet (executor_ s) in
    let adjusted := tunedConcurrency avgCpu (f64_of_Z (EvolutionConfig.targetCpuPercent (config s))) current
                      (backgroundWorkerCountGet (executor_ s)) in
    if adjusted =? current then s else set_executor_ (allowedConcurrencySet adjusted (executor_ s)) s.

Definition advanceGeneration (now : Z) (s : t) : res t :=
  let! _ := wingDiagnostics (pop s) in
  dirtsim_assert (negb (RobustnessPassState.active (robustnessPass_ s)))
    "Evolution: robust pass must complete before advance" ;;!
  let s := set_pendingBest_ (PendingBestState.resetTrigger (pendingBest_ s)) s in
  let! s := if Z.rem (Progress.generation (progress s)) saveInterval =? 0 then storeBestGenome now s else Ok s in
  let survivorPopulationSize := EvolutionConfig.populationSize (config s) in
  dirtsim_assert (0 <? survivorPopulationSize) "Evolution: survivor population must be positive" ;;!
  let! s := pruneToSurvivors survivorPopulationSize s in
  let! s := breed survivorPopulationSize s in
  let! s := nextGeneration s in
  Ok (adjustConcurrency s).

(** *** Completing a generation *)
Definition completeTraining (s : t) : t :=
  let p := progress s in
  let n := Z.of_nat (length (Population.population (pop s))) in
  let average := if 0 <? n then f64_div (Progress.sumFitnessThisGen_ p) (f64_of_Z n) else fzero in
  set_progress (Progress.mk (EvolutionConfig.maxGenerations (config s)) (Progress.currentEval p)
                  (Progress.completedEvaluations_ p) (Progress.sumFitnessThisGen_ p) (Progress.cumulativeSimTime_ p)
                  true average) s.

(** What follows the robust pass, or its absence. *)
Definition closeGeneration (now : Z) (s : t) : res t :=
  let! s := updateTrainingPhaseTelemetry s in
  let! s := captureLastGenerationFitnessDistribution s in
  let s := captureLastGenerationTelemetry s in
  let maxGenerations := EvolutionConfig.maxGenerations (config s) in
  if 0 <? maxGenerations then
    let! next := int_result (Progress.generation (progress s) + 1) in
    if maxGenerations <=? next then Ok (completeTraining s)
    else let! s := advanceGeneration now s in queueGenerationTasks s
  else let! s := advanceGeneration now s in queueGenerationTasks s.

Definition maybeCompleteGeneration (now : Z) (s : t) : res t :=
  let generationPopulationSize := s32 (Z.of_nat (length (Population.population (pop s)))) in
  if Progress.currentEval (progress s) <? generationPopulationSize then Ok s
  else
    let! s :=
      if resolveRobustnessPassSampleCount (EvolutionConfig.robustFitnessEvaluationCount (config s)) <=? 0
      then finalizePendingBestWithoutRobustnessPass now s else Ok s in
    let! s := startRobustnessPass s in
    if RobustnessPassState.active (robustnessPass_ s) then
      if 0 <? RobustnessPassState.pendingSamples (robustnessPass_ s) then Ok s
      else let! s := finalizeRobustnessPass now s in closeGeneration now s
    else closeGeneration now s.

(** *** A result *)
Definition telemetryDelta (individual : Individual.t) (fitness : f64) : option (f64 * bool) :=
  match Individual.parentFitness individual with
  | None => None
  | Some parent => let delta := f64_sub fitness parent in Some (delta, fgt delta fzero)
  end.

(** The [switch] over the origin of the individual. *)
Definition noteOrigin (origin : IndividualOrigin) (individual : Individual.t) (fitness : f64) (hash : Z)
    (g : GenerationTelemetry.t) : res GenerationTelemetry.t :=
  let '(GenerationTelemetry.mk elite clone mutated seed cloneBeats cloneCompared cloneSum mutatedBeats mutatedCompared
          mutatedSum all phElite phMutated phSeed) := g in
  let all := {[ hash ]} ∪ all in
  let bump (better : bool) (count : Z) : res Z := if better then int_result (count + 1) else Ok count in
  match origin with
  | EliteCarryover =>
      let! elite := int_result (elite + 1) in
      Ok (GenerationTelemetry.mk elite clone mutated seed cloneBeats cloneCompared cloneSum mutatedBeats mutatedCompared
            mutatedSum all ({[ hash ]} ∪ phElite) phMutated phSeed)
  | OffspringClone =>
      let! clone := int_result (clone + 1) in
      match telemetryDelta individual fitness with
      | None => Ok (GenerationTelemetry.mk elite clone mutated seed cloneBeats cloneCompared cloneSum mutatedBeats
                      mutatedCompared mutatedSum all phElite phMutated phSeed)
      | Some (delta, better) =>
          let! cloneCompared := int_result (cloneCompared + 1) in
          let! cloneBeats := bump better cloneBeats in
          Ok (GenerationTelemetry.mk elite clone mutated seed cloneBeats cloneCompared (f64_add cloneSum delta) mutatedBeats
                mutatedCompared mutatedSum all phElite phMutated phSeed)
      end
  | OffspringMutated =>
      let! mutated := int_result (mutated + 1) in
      let phMutated := {[ hash ]} ∪ phMutated in
      match telemetryDelta individual fitness with
      | None => Ok (GenerationTelemetry.mk elite clone mutated seed cloneBeats cloneCompared cloneSum mutatedBeats
                      mutatedCompared mutatedSum all phElite phMutated phSeed)
      | Some (delta, better) =>
          let! mutatedCompared := int_result (mutatedCompared + 1) in
          let! mutatedBeats := bump better mutatedBeats in
          Ok (GenerationTelemetry.mk elite clone mutated seed cloneBeats cloneCompared cloneSum mutatedBeats mutatedCompared
                (f64_add mutatedSum delta) all phElite phMutated phSeed)
      end
  | Seed =>
      let! seed := int_result (seed + 1) in
      Ok (GenerationTelemetry.mk elite clone mutated seed cloneBeats cloneCompared cloneSum mutatedBeats mutatedCompared
            mutatedSum all phElite phMutated ({[ hash ]} ∪ phSeed))
  | OriginUnknown =>
      Ok (GenerationTelemetry.mk elite clone mutated seed cloneBeats cloneCompared cloneSum mutatedBeats mutatedCompared
            mutatedSum all phElite phMutated phSeed)
  end.

(** The scores and counters of a generation result. *)
Definition noteResult (result : CompletedEvaluation.t Snapshot) (s : t) : res t :=
  let index := CompletedEvaluation.index result in
  let evaluation := CompletedEvaluation.fitnessEvaluation result in
  let fitness := FitnessEvaluation.totalFitness evaluation in
  let p := pop s in
  let! individual := vec_get (Population.population p) index in
  let! telemetry := noteOrigin (originAt (Population.populationOrigins p) index) individual fitness
                      (computePhenotypeHash result) (Statistics.generationTelemetry_ (statistics s)) in
  let s := set_statistics (Statistics.set_telemetry telemetry (statistics s)) s in
  let! scores := vec_set (Population.fitnessScores p) index fitness in
  let! wings :=
    match FitnessEvaluation.wingUpSeconds evaluation with
    | Some seconds => vec_set (Population.wingUpSecondsPerIndividual p) index seconds
    | None => Ok (Population.wingUpSecondsPerIndividual p)
    end in
  let s := set_pop (Population.mk (Population.population p) (Population.populationOrigins p) scores wings
                      (Population.pruneBeforeBreeding_ p)) s in
  let q := progress s in
  let! completed := int_result (Progress.completedEvaluations_ q + 1) in
  let! current := int_result (Progress.currentEval q + 1) in
  Ok (set_progress (Progress.mk (Progress.generation q) current completed (f64_add (Progress.sumFitnessThisGen_ q) fitness)
                      (f64_add (Progress.cumulativeSimTime_ q) (CompletedEvaluation.simTime result))
                      (Progress.trainingComplete_ q) (Progress.finalAverageFitness_ q)) s).

(** A candidate for the best of the training: the next robust pass validates it. *)
Definition noteCandidate (result : CompletedEvaluation.t Snapshot) (s : t) : t :=
  let p := pendingBest_ s in
  let fitness := FitnessEvaluation.totalFitness (CompletedEvaluation.fitnessEvaluation result) in
  let generation := Progress.generation (progress s) in
  let replacePendingCandidate :=
    negb (PendingBestState.robustness p) || negb (PendingBestState.robustnessGeneration p =? generation)
    || fgt fitness (PendingBestState.robustnessFirstSample p) in
  if replacePendingCandidate then
    set_pendingBest_
      (PendingBestState.mk true generation (CompletedEvaluation.index result) fitness (CompletedEvaluation.snapshot result)
         (Some (CompletedEvaluation.fitnessEvaluation result)) (CompletedEvaluation.commandsAccepted result)
         (CompletedEvaluation.commandsRejected result) (CompletedEvaluation.topCommandSignatures result)
         (CompletedEvaluation.topCommandOutcomeSignatures result)) s
  else s.

(** What a result does to the best fitness of the generation and of the training. *)
Definition noteBest (result : CompletedEvaluation.t Snapshot) (s : t) : res t :=
  let index := CompletedEvaluation.index result in
  let fitness := FitnessEvaluation.totalFitness (CompletedEvaluation.fitnessEvaluation result) in
  let! individual := vec_get (Population.population (pop s)) index in
  let withoutGenome := match Individual.genome individual with None => true | Some _ => false end in
  let s :=
    if withoutGenome && ((Progress.currentEval (progress s) =? 1) || fgt fitness (Best.bestFitnessThisGen (best s)))
    then set_best (Best.set_thisGen fitness (originAt (Population.populationOrigins (pop s)) index) (best s)) s else s in
  if negb (fgt fitness (Best.bestFitnessAllTime (best s))) then Ok s
  else if negb withoutGenome then Ok (noteCandidate result s)
  else
    let s := set_best (Best.set_allTime fitness INVALID_GENOME_ID (best s)) s in
    let s := set_pendingBest_ PendingBestState.reset s in
    Ok (setBestPlaybackSource individual fitness (Progress.generation (progress s)) s).

Definition processResult (now : Z) (result : CompletedEvaluation.t Snapshot) (s : t) : res t :=
  if negb (inPopulation (CompletedEvaluation.index result) s) then Ok s
  else if decide (CompletedEvaluation.taskType result = RobustnessEval) then
    let! s := handleRobustnessSampleResult result s in
    maybeCompleteGeneration now s
  else
    let! s := noteResult result s in
    let! s := noteBest result s in
    maybeCompleteGeneration now s.


(** *** The server's tick *)
Fixpoint processResults (now : Z) (results : list (CompletedEvaluation.t Snapshot)) (s : t) : res t :=
  match results with
  | [] => Ok s
  | result :: results => let! s := processResult now result s in processResults now results s
  end.

Definition drainResults (now : Z) (s : t) : res t :=
  let '(executor, results) := completedDrain (executor_ s) in
  processResults now results (set_executor_ executor s).

(** [pauseSet], without its clocks. *)
Definition pauseSet (paused : bool) (s : t) : t :=
  if Bool.eqb paused (Tuning.trainingPaused_ (tuning s)) then s
  else set_executor_ (executorPauseSet paused (executor_ s))
         (set_tuning (Tuning.mk paused (Tuning.cpuSamples_ (tuning s))) s).

(** [cpu]: the load of the processor, when it is time to look at it. *)
Definition sampleCpu (cpu : option f64) (s : t) : t :=
  match cpu with
  | Some percent =>
      if negb (Tuning.trainingPaused_ (tuning s)) && (0 <? EvolutionConfig.targetCpuPercent (config s))
      then set_tuning (Tuning.mk (Tuning.trainingPaused_ (tuning s)) (Tuning.cpuSamples_ (tuning s) ++ [percent])) s
      else s
  | None => s
  end.

(** What [tick] does with the results; a complete training is left to the state
    machine. *)
Definition tick (now : Z) (cpu : option f64) (s : t) : res t :=
  if Progress.trainingComplete_ (progress s) then Ok s
  else
    let! s := drainResults now (sampleCpu cpu s) in
    if Progress.trainingComplete_ (progress s) then Ok s
    else
      let '(executor, results) := visibleTick (executor_ s) in
      processResults now results (set_executor_ executor s).
End Evolution.
End Evolution.
