(* ===== verification/EvolutionScores.v ===== *)
(** The fitness scores of a generation: order, histogram, averages.

    Facts on the doubles the training compares, and the statistics of a completed
    generation ([captureLastGenerationFitnessDistribution]): the histogram is
    computed without a fault and counts every evaluated individual once. *)

From Stdlib Require Import ZArith Lia Bool String.
From Stdlib Require Import SpecFloat.
From stdpp Require Import base gmap option numbers list strings pretty.
From S2P Require Import Prelude Ieee IeeeRound StdModel Uuid Genomes Training Mutation MutationFacts.
From S2P Require Import EvaluationTypes.
From S2P Require Import EvolutionTypes Evolution.
Import Evolution.

Set Default Goal Selector "!".

(** ** Differences of moderate doubles are finite *)
Lemma binary_round_aux_finite s m e l :
  is_finite (binary_round_aux 53 1024 s m e l) = is_finite (binary_round_aux 53 1024 false m e l).
Proof.
  unfold binary_round_aux. destruct (shr_fexp 53 1024 m e l) as [r1 e1]. destruct (shr_fexp 53 1024 _ e1 loc_Exact) as [r2 e2].
  destruct (shr_m r2); [done | by destruct (e2 <=? 1024 - 53) | done].
Qed.

Lemma binary_normalize_finite m e hi :
  -1074 <= e <= 971 -> dbl hi -> Z.abs m * 2 ^ (e + 1074) <= hi -> is_finite (binary_normalize 53 1024 m e false) = true.
Proof.
  intros He Hhi Hv.
  assert (is_finite (binary_normalize 53 1024 (Z.abs m) e false) = true) as H.
  { assert (dbl 0) as H0 by (exists 0, 0; lia). pose proof (Z.pow_nonneg 2 (e + 1074)).
    destruct (binary_normalize_within (Z.abs m) e false 0 hi) as (Hn & _); try done; try nia.
    revert Hn. by destruct (binary_normalize 53 1024 (Z.abs m) e false) as [| | | []]. }
  destruct m as [| p | p]; [done | done |]. change (Z.abs (Zneg p)) with (Zpos p) in H. revert H. unfold binary_normalize, binary_round.
  destruct (shl_align p e _) as [a b]. intros H. rewrite binary_round_aux_finite. exact H.
Qed.

(** The scores an evaluation gives: finite doubles of at most [2^926], far from the
    ends of the range ([fval] counts in units of [2^-1074]). *)
Definition scoreBound : Z := 2 ^ 2000.
Definition score_ok (f : f64) : Prop := is_finite f = true /\ valid f /\ Z.abs (fval f) <= scoreBound.

Lemma score_not_nan f : score_ok f -> not_nan f.
Proof. intros (H & _) ->. done. Qed.

Lemma fzero_ok : score_ok fzero.
Proof. by vm_compute. Qed.

Lemma sub_finite x y : score_ok x -> score_ok y -> is_finite (f64_sub x y) = true.
Proof.
  intros (Fx & Vx & Bx) (Fy & Vy & By). unfold f64_sub.
  destruct x as [[] | | | sx mx ex], y as [[] | | | sy my ey]; try done; cbn [SFsub].
  cbn [valid] in *. set (ez := Z.min ex ey).
  pose proof (shl_align_spec mx ex ez) as H1. pose proof (shl_align_spec my ey ez) as H2.
  destruct (shl_align mx ex ez) as [px e1], (shl_align my ey ez) as [py e2]. cbn [fst]. destruct H1 as [_ H1], H2 as [_ H2].
  replace (Z.min ex ez) with ez in H1 by lia. replace (Z.min ey ez) with ez in H2 by lia.
  assert (dbl (2 * scoreBound)) as Hd by (exists 1, 2001; unfold scoreBound; rewrite <- Z.pow_succ_r; lia).
  apply (binary_normalize_finite _ ez (2 * scoreBound)); [lia | done |].
  assert (Zpos px * 2 ^ (ez + 1074) <= scoreBound) as A.
  { cbn [fval] in Bx. assert (Z.abs (cond_Zopp sx (Zpos mx * 2 ^ (ex + 1074))) = Zpos mx * 2 ^ (ex + 1074)) as E.
    { pose proof (Z.pow_nonneg 2 (ex + 1074)). destruct sx; cbn [cond_Zopp]; lia. }
    rewrite E in Bx. rewrite H1, <- Z.mul_assoc, <- Z.pow_add_r by lia. by replace (ex - ez + (ez + 1074)) with (ex + 1074) by lia. }
  assert (Zpos py * 2 ^ (ez + 1074) <= scoreBound) as B.
  { cbn [fval] in By. assert (Z.abs (cond_Zopp sy (Zpos my * 2 ^ (ey + 1074))) = Zpos my * 2 ^ (ey + 1074)) as E.
    { pose proof (Z.pow_nonneg 2 (ey + 1074)). destruct sy; cbn [cond_Zopp]; lia. }
    rewrite E in By. rewrite H2, <- Z.mul_assoc, <- Z.pow_add_r by lia. by replace (ey - ez + (ez + 1074)) with (ey + 1074) by lia. }
  pose proof (Z.pow_nonneg 2 (ez + 1074)). destruct sx, sy; cbn [cond_Zopp]; nia.
Qed.

Lemma SFsub_not_nan x y : is_finite x = true -> is_finite y = true -> not_nan (SFsub 53 1024 x y).
Proof.
  intros Hx Hy. destruct x as [[] | | | sx mx ex], y as [[] | | | sy my ey]; try done.
  apply binary_normalize_not_nan.
Qed.

(** ** The bin of a score *)
Lemma to_size_within n x : 0 <= n < 2 ^ 63 -> within 0 (n * 2 ^ 1074) x -> exists z, f64_to_size x = Ok z /\ 0 <= z <= n.
Proof.
  intros Hn (Hx & Hv & Hb). destruct x as [s | | | [] m e]; try done; [exists 0; split; [done | lia] |].
  cbn [f64_to_size]. cbn [fval cond_Zopp] in Hb. cbn [valid] in Hv.
  assert (0 <= (if 0 <=? e then Z.shiftl (Zpos m) e else Z.shiftr (Zpos m) (- e)) <= n) as Hz.
  { destruct (Z.leb_spec 0 e).
    - rewrite Z.shiftl_mul_pow2 by lia. rewrite Z.pow_add_r in Hb by lia. pose proof (Z.pow_pos_nonneg 2 1074).
      pose proof (Z.pow_nonneg 2 e). nia.
    - rewrite Z.shiftr_div_pow2 by lia. pose proof (Z.pow_pos_nonneg 2 (- e)). pose proof (Z.pow_pos_nonneg 2 (e + 1074)).
      split; [apply Z.div_pos; lia |]. apply Z.lt_succ_r. apply Z.div_lt_upper_bound; [lia |].
      assert (2 ^ 1074 = 2 ^ (- e) * 2 ^ (e + 1074)) as E by (rewrite <- Z.pow_add_r by lia; f_equal; lia).
      rewrite E in Hb. nia. }
  rewrite (proj2 (Z.ltb_lt _ (2 ^ 64))) by lia. eauto.
Qed.

Lemma sixteen_within : within (16 * 2 ^ 1074) (16 * 2 ^ 1074) (f64_of_Z 16).
Proof. by apply f64_of_Z_within. Qed.

Lemma fitness_bin_ok minFitness range fitness :
  score_ok minFitness -> score_ok fitness -> is_nonzero_finite range = true ->
  exists bin, fitness_bin minFitness range fitness = Ok bin /\ 0 <= bin < 16.
Proof.
  intros (Hm & _) (Hf & _) Hr. unfold fitness_bin.
  pose proof (std_clamp_unit (f64_div (f64_sub fitness minFitness) range)
                (SFdiv_not_nan _ _ _ _ (SFsub_not_nan fitness minFitness Hf Hm) Hr) (f64_div_valid _ _)) as (Hn & Hv & Hb).
  destruct sixteen_within as (Hn16 & Hv16 & Hb16).
  destruct (to_size_within 16 (f64_mul (std_clamp (f64_div (f64_sub fitness minFitness) range) fzero (f64_of_Z 1)) (f64_of_Z 16)))
    as (z & E & Hz); [lia | |].
  - assert (dbl 0) by (exists 0, 0; lia). assert (dbl (16 * 2 ^ 1074)) by (by apply dbl_int).
    assert (2 ^ 1074 < 2 ^ 1500) by (by apply Z.pow_lt_mono_r). assert (16 * 2 ^ 1074 < 2 ^ 1500) by (by vm_compute).
    apply f64_mul_within; try done; unfold moderate; nia.
  - unfold kFitnessDistributionBinCount. rewrite E. cbn [rbind]. eexists. split; [done | lia].
Qed.

(** ** The order of the scores *)
Lemma not_flt_fle x y : not_nan x -> not_nan y -> flt y x = false -> fle x y = true.
Proof. intros Hx Hy. rewrite flt_negb_fle by done. apply negb_false_iff. Qed.

(** The least, or greatest, element of a list by a comparison, as [std::min] and
    [std::max] find it in a loop. *)
Section Extremum.
Variable better : f64 -> f64 -> bool.
Hypothesis better_trans : forall x y z, not_nan x -> not_nan y -> not_nan z -> better x y = false -> better y z = false -> better x z = false.
Hypothesis better_asym : forall x y, better x y = true -> better y x = false.
Hypothesis better_irrefl : forall x, better x x = false.

Lemma fold_extremum l x :
  not_nan x -> Forall not_nan l ->
  let m := fold_left (fun a b => if better b a then b else a) l x in
  m ∈ x :: l /\ not_nan m /\ forall f, f ∈ x :: l -> better f m = false.
Proof.
  revert x. induction l as [| y l IH]; intros x Hx Hl m.
  - split; [by left |]. split; [done |]. intros f [-> | Hf%elem_of_nil]%elem_of_cons; [apply better_irrefl | done].
  - apply Forall_cons in Hl as [Hy Hl]. subst m. cbn [fold_left]. set (x' := if better y x then y else x).
    assert (not_nan x') as Hx' by (unfold x'; by destruct (better y x)).
    destruct (IH x' Hx' Hl) as (Hin & Hm & Hle). set (m := fold_left _ l x') in *.
    split; [| split; [done |]].
    + apply elem_of_cons in Hin as [-> | Hin]; [| by do 2 right]. unfold x'. destruct (better y x); [right; left | left].
    + pose proof (Hle x' ltac:(left)) as Hlx.
      assert (better y x' = false /\ better x x' = false) as [H1 H2].
      { unfold x'. destruct (better y x) eqn:E; auto using better_irrefl. }
      intros f [-> | [-> | Hf]%elem_of_cons]%elem_of_cons; [| | by apply Hle; right].
      * by apply (better_trans x x' m).
      * by apply (better_trans y x' m).
Qed.
End Extremum.

Lemma flt_not_both x y : flt x y = true -> flt y x = false.
Proof.
  intros H. apply not_true_iff_false. intros H'. pose proof (flt_trans _ _ _ H H') as H''. by rewrite flt_irrefl in H''.
Qed.

Lemma fold_std_min l x : not_nan x -> Forall not_nan l ->
  fold_left std_min l x ∈ x :: l /\ forall f, f ∈ x :: l -> fle (fold_left std_min l x) f = true.
Proof.
  intros Hx Hl. destruct (fold_extremum flt not_flt_trans flt_not_both flt_irrefl l x Hx Hl) as (Hin & Hm & H).
  split; [done |]. intros f Hf. apply not_flt_fle; [done | | by apply H].
  apply elem_of_cons in Hf as [-> |]; [done |]. rewrite Forall_forall in Hl. by apply Hl.
Qed.

Lemma fold_std_max l x : not_nan x -> Forall not_nan l ->
  fold_left std_max l x ∈ x :: l /\ forall f, f ∈ x :: l -> fle f (fold_left std_max l x) = true.
Proof.
  intros Hx Hl.
  destruct (fold_extremum fgt (fun x y z Hx Hy Hz H1 H2 => not_flt_trans z y x Hz Hy Hx H2 H1)
              (fun x y => flt_not_both y x) flt_irrefl l x Hx Hl) as (Hin & Hm & H).
  split; [done |]. intros f Hf. apply not_flt_fle; [| done | by apply H].
  apply elem_of_cons in Hf as [-> |]; [done |]. rewrite Forall_forall in Hl. by apply Hl.
Qed.

(** ** The histogram *)
Definition binned (minFitness range : f64) (i : nat) (scores : list f64) : nat :=
  length (List.filter (fun f => match fitness_bin minFitness range f with Ok b => Z.to_nat b =? i | Fault _ => false end)%nat scores).

Lemma histogram_loop_ok scores minFitness range bins :
  score_ok minFitness -> is_nonzero_finite range = true -> Forall score_ok scores -> length bins = 16%nat ->
  Forall (fun c => 0 <= c /\ c + Z.of_nat (length scores) < 2 ^ 32) bins ->
  exists bins', histogram_loop scores minFitness range bins = Ok bins' /\ length bins' = 16%nat /\
    zsum bins' = zsum bins + Z.of_nat (length scores) /\
    forall i c, bins !! i = Some c -> bins' !! i = Some (c + Z.of_nat (binned minFitness range i scores)).
Proof.
  intros Hm Hr. revert bins. induction scores as [| f scores IH]; intros bins Hs Hl Hb; cbn [histogram_loop length].
  - exists bins. split; [done |]. split; [done |]. split; [lia |]. intros i c Hc. cbn. by rewrite Z.add_0_r.
  - apply Forall_cons in Hs as [Hf Hs]. destruct (fitness_bin_ok minFitness range f Hm Hf Hr) as (b & Eb & Hbr).
    rewrite Eb. cbn [rbind]. destruct (in_range_lookup bins b ltac:(lia)) as [c Hc]. rewrite (vec_get_ok _ _ c) by (done || lia).
    cbn [rbind]. rewrite vec_set_ok by lia. cbn [rbind]. pose proof Hb as Hb'. rewrite Forall_lookup in Hb'.
    destruct (Hb' _ _ Hc) as [Hc0 Hc1]. cbn [length] in Hc1. rewrite (wrap_u_small 32) by lia.
    destruct (IH (<[Z.to_nat b := c + 1]> bins) Hs ltac:(by rewrite length_insert)) as (bins' & E & Hl' & Hsum & Hbin).
    { apply Forall_lookup. intros i x Hx. cbn [length] in Hb'. destruct (decide (i = Z.to_nat b)) as [-> | Hne].
      - rewrite list_lookup_insert_eq in Hx by lia. injection Hx as <-. lia.
      - rewrite list_lookup_insert_ne in Hx by done. destruct (Hb' _ _ Hx). lia. }
    exists bins'. split; [done |]. split; [done |]. split; [rewrite Hsum, (zsum_insert _ _ _ _ Hc); lia |].
    intros i x Hx. unfold binned. cbn [List.filter]. rewrite Eb. destruct (Nat.eqb_spec (Z.to_nat b) i) as [<- | Hne]; cbn [length].
    + assert (x = c) as -> by congruence.
      rewrite (Hbin (Z.to_nat b) (c + 1)) by (apply list_lookup_insert_eq; lia). f_equal. unfold binned. lia.
    + apply Hbin. by rewrite list_lookup_insert_ne by done.
Qed.

Lemma wide_range x y :
  score_ok x -> score_ok y -> fle (f64_sub x y) f64_epsilon = false -> is_nonzero_finite (f64_sub x y) = true.
Proof.
  intros Hx Hy. pose proof (sub_finite x y Hx Hy) as H. by destruct (f64_sub x y) as [[] | | |].
Qed.

Section Histogram.
Context {R A E SC Snapshot : Type}.
Implicit Types s : t (R := R) (A := A) (E := E) (SC := SC) (Snapshot := Snapshot).

Definition evaluatedScores s : list f64 := take (Z.to_nat (Progress.currentEval (progress s))) (Population.fitnessScores (pop s)).

(** What the statistics of a completed generation say of its scores. *)
Record describes (scores : list f64) (st : Statistics.t) : Prop := {
  ds_min : Statistics.lastGenerationFitnessMin_ st ∈ scores;
  ds_max : Statistics.lastGenerationFitnessMax_ st ∈ scores;
  ds_between : forall f, f ∈ scores -> fle (Statistics.lastGenerationFitnessMin_ st) f = true
                                 /\ fle f (Statistics.lastGenerationFitnessMax_ st) = true;
  ds_bins : length (Statistics.lastGenerationFitnessHistogram_ st) = 16%nat;
  ds_total : zsum (Statistics.lastGenerationFitnessHistogram_ st) = Z.of_nat (length scores);
  ds_counts : let lo := Statistics.lastGenerationFitnessMin_ st in
    let range := f64_sub (Statistics.lastGenerationFitnessMax_ st) lo in
    fle range f64_epsilon = false -> forall i, (i < 16)%nat ->
    Statistics.lastGenerationFitnessHistogram_ st !! i = Some (Z.of_nat (binned lo range i scores))
}.

Lemma distribution_ok s :
  0 < Progress.currentEval (progress s) <= Z.of_nat (length (Population.fitnessScores (pop s))) ->
  Z.of_nat (length (Population.fitnessScores (pop s))) < 2 ^ 31 ->
  Forall score_ok (evaluatedScores s) ->
  exists average lo hi bins,
    let st := Statistics.set_distribution (Progress.generation (progress s)) average lo hi bins (statistics s) in
    captureLastGenerationFitnessDistribution s = Ok (set_statistics st s) /\ describes (evaluatedScores s) st.
Proof.
  unfold evaluatedScores, captureLastGenerationFitnessDistribution. set (scores := Population.fitnessScores (pop s)).
  intros Hn Hl Hs. rewrite wrap_s_small by lia. rewrite Z.min_l by lia. set (n := Progress.currentEval (progress s)) in *.
  rewrite (proj2 (Z.leb_gt _ _)) by lia.
  destruct scores as [| first others] eqn:Escores; [cbn in Hn; lia |]. change (vec_get (first :: others) 0) with (Ok first).
  cbn [rbind]. assert (Z.to_nat n = S (Z.to_nat (n - 1))) as En by lia. rewrite En in *. cbn [take tail] in *.
  set (rest := take (Z.to_nat (n - 1)) others) in *. pose proof Hs as [Hf Hr]%Forall_cons.
  assert (Forall not_nan rest) as Hnr by (eapply Forall_impl; [exact Hr | exact score_not_nan]).
  destruct (fold_std_min rest first (score_not_nan _ Hf) Hnr) as [Hmin Hle].
  destruct (fold_std_max rest first (score_not_nan _ Hf) Hnr) as [Hmax Hge].
  set (lo := fold_left std_min rest first) in *. set (hi := fold_left std_max rest first) in *.
  pose proof Hs as Hs'. rewrite Forall_forall in Hs'. assert (Z.of_nat (length (first :: rest)) = n) as Hlen.
  { cbn [length] in *. unfold rest. rewrite length_take. lia. }
  destruct (fle (f64_sub hi lo) f64_epsilon) eqn:Er.
  - rewrite vec_set_ok by done. cbn [rbind]. rewrite (wrap_u_small 32) by lia.
    eexists _, lo, hi, _. split; [done |]. split; cbn; try done; [by auto | | congruence].
    change (zsum (<[Pos.to_nat 8 := n]> (replicate 16 0)) = Z.of_nat (length (first :: rest))).
    rewrite (zsum_insert _ _ _ 0), zsum_replicate by done. lia.
  - destruct (histogram_loop_ok (first :: rest) lo (f64_sub hi lo) (replicate 16 0)) as (bins & Eb & Hlb & Hsum & Hbin);
      [by apply Hs' | by apply wide_range; auto | done | done | |].
    { apply Forall_replicate. lia. }
    change (Z.to_nat kFitnessDistributionBinCount) with 16%nat. rewrite Eb. cbn [rbind]. eexists _, lo, hi, bins.
    split; [done |]. split; cbn -[binned zsum]; try done; [by auto |].
    intros _ i Hi. by rewrite (Hbin i 0) by (by apply lookup_replicate).
Qed.

(** C16. The statistics of a completed generation are computed without a fault, and
    are right: the smallest and the largest score of the evaluated individuals, and
    a histogram of sixteen bins that counts each of them once - when the scores
    differ, in the bin of its position between the two. *)
Theorem fitness_histogram (s : t (R := R) (A := A) (E := E) (SC := SC) (Snapshot := Snapshot)) :
  0 < Progress.currentEval (progress s) <= Z.of_nat (length (Population.fitnessScores (pop s))) ->
  Z.of_nat (length (Population.fitnessScores (pop s))) < 2 ^ 31 -> Forall score_ok (evaluatedScores s) ->
  exists s', captureLastGenerationFitnessDistribution s = Ok s' /\ describes (evaluatedScores s) (statistics s') /\
    Statistics.lastCompletedGeneration_ (statistics s') = Progress.generation (progress s).
Proof.
  intros Hn Hl Hs. destruct (distribution_ok s Hn Hl Hs) as (average & lo & hi & bins & E0 & Hd).
  eexists. split; [exact E0 |]. done.
Qed.
End Histogram.
