(* ===== verification/EvolutionSurvivors.v ===== *)
(** Who survives a generation.

    The evaluated population is ranked by fitness; the best always survives, then
    up to [diversityEliteCount] individuals whose genomes differ most from those
    already chosen, among those near the best fitness; the remaining places go to
    the fittest of the rest. *)

From Stdlib Require Import ZArith Lia Bool String.
From Stdlib Require Import SpecFloat.
From stdpp Require Import base gmap option numbers list sorting strings pretty.
From S2P Require Import Prelude Ieee IeeeRound StdModel Uuid Genomes Training Mutation MutationFacts.
From S2P Require Import EvaluationTypes.
From S2P Require Import EvolutionTypes Evolution EvolutionScores.
Import Evolution.

Set Default Goal Selector "!".

(** ** The ranking *)
Definition ranking (p : Population.t) : list RankedIndividual.t :=
  imap (fun i '(individual, fitness) =>
          RankedIndividual.mk fitness individual (originAt (Population.populationOrigins p) (Z.of_nat i)) (Z.of_nat i))
    (combine (Population.population p) (Population.fitnessScores p)).

Lemma rank_loop_ok population scores origins i :
  0 <= i -> Z.of_nat (length scores) < 2 ^ 31 ->
  (i + Z.of_nat (length population) = Z.of_nat (length scores)) ->
  rank_loop population scores origins i =
  Ok (imap (fun k '(individual, fitness) =>
              RankedIndividual.mk fitness individual (originAt origins (i + Z.of_nat k)) (i + Z.of_nat k))
        (combine population (drop (Z.to_nat i) scores))).
Proof.
  revert i. induction population as [| individual population IH]; intros i Hi Hs Hl; cbn [rank_loop length] in *; [done |].
  destruct (in_range_lookup scores i ltac:(lia)) as [f Hf]. rewrite (vec_get_ok _ _ f) by (done || lia). cbn [rbind].
  rewrite IH by lia. cbn [rbind]. rewrite wrap_s_small by lia. rewrite (drop_S _ _ _ Hf). cbn [combine imap].
  f_equal. f_equal; [f_equal; [f_equal |]; lia |]. replace (Z.to_nat (i + 1)) with (S (Z.to_nat i)) by lia.
  apply imap_ext. intros k [? ?] _. cbn. f_equal; [f_equal |]; lia.
Qed.

Lemma ranking_length p : length (Population.population p) = length (Population.fitnessScores p) ->
  length (ranking p) = length (Population.population p).
Proof. intros H. unfold ranking. rewrite length_imap, length_combine. lia. Qed.

Lemma ranking_ok p :
  length (Population.population p) = length (Population.fitnessScores p) ->
  Z.of_nat (length (Population.population p)) < 2 ^ 31 ->
  rank_loop (Population.population p) (Population.fitnessScores p) (Population.populationOrigins p) 0 = Ok (ranking p).
Proof.
  intros Hl Hb. by rewrite rank_loop_ok by lia.
Qed.

(** Fitness, origin and order: a key for each. *)
Definition rank_key (r : RankedIndividual.t) : Z * Z :=
  (if isOffspringOrigin (RankedIndividual.origin r) then 0 else 1, RankedIndividual.order r).

Lemma rankedBefore_lex a b :
  not_nan (RankedIndividual.fitness a) -> not_nan (RankedIndividual.fitness b) ->
  rankedBefore a b = true <->
  lex_lt (fkey (RankedIndividual.fitness b)) (fkey (RankedIndividual.fitness a)) \/
  (~ lex_lt (fkey (RankedIndividual.fitness a)) (fkey (RankedIndividual.fitness b)) /\
   (fst (rank_key a) < fst (rank_key b) \/ (fst (rank_key a) = fst (rank_key b) /\ snd (rank_key a) < snd (rank_key b)))).
Proof.
  intros Ha Hb. rewrite <- !flt_key by done. unfold rankedBefore, rank_key, fgt. fold flt. rewrite SFeqb_key by done. cbn [fst snd].
  pose proof (flt_not_both (RankedIndividual.fitness a) (RankedIndividual.fitness b)).
  change (SFltb (RankedIndividual.fitness b) (RankedIndividual.fitness a)) with (flt (RankedIndividual.fitness b) (RankedIndividual.fitness a)).
  destruct (flt (RankedIndividual.fitness a) (RankedIndividual.fitness b)), (flt (RankedIndividual.fitness b) (RankedIndividual.fitness a));
    try (specialize (H eq_refl); done); cbn [negb andb]; try (split; [done | intuition congruence]); try intuition congruence.
  destruct (isOffspringOrigin (RankedIndividual.origin a)), (isOffspringOrigin (RankedIndividual.origin b)); cbn [Bool.eqb negb];
    rewrite ?Z.ltb_lt; split; intuition (done || lia).
Qed.

Lemma rankedBefore_swo l :
  Forall (fun r => not_nan (RankedIndividual.fitness r)) l -> strict_weak_order rankedBefore l.
Proof.
  rewrite Forall_forall. intros Hn.
  split; [intros a Ha | intros a b c Ha Hb Hc | intros a b c Ha Hb Hc];
    [apply not_true_iff_false | | rewrite <- !not_true_iff_false]; rewrite !rankedBefore_lex by auto;
    repeat match goal with |- context [fkey ?x] => destruct (fkey x) as [[? ?] ?] end; cbn [lex_lt]; lia.
Qed.

(** How individuals rank: the fitter before the less fit; among equals offspring
    before carried-over ones, and those of a kind in the order of the population. *)
Definition outranks (a b : RankedIndividual.t) : Prop :=
  let offspring (r : RankedIndividual.t) :=
    RankedIndividual.origin r = OffspringMutated \/ RankedIndividual.origin r = OffspringClone in
  flt (RankedIndividual.fitness b) (RankedIndividual.fitness a) = true \/
  (flt (RankedIndividual.fitness a) (RankedIndividual.fitness b) = false /\
   ((offspring a /\ ~ offspring b) \/ ((offspring a <-> offspring b) /\ RankedIndividual.order a < RankedIndividual.order b))).

Lemma rankedBefore_outranks a b :
  not_nan (RankedIndividual.fitness a) -> not_nan (RankedIndividual.fitness b) -> rankedBefore a b = true <-> outranks a b.
Proof.
  intros Ha Hb. rewrite rankedBefore_lex, <- !flt_key, not_true_iff_false by done. unfold outranks, rank_key, isOffspringOrigin. cbn [fst snd].
  apply or_iff_compat_l, and_iff_compat_l.
  destruct (RankedIndividual.origin a), (RankedIndividual.origin b); cbn; intuition (done || lia).
Qed.

(** ** The diversity elites *)

(** Two individuals whose genomes can be compared, and the root of the mean square
    of the differences of their weights. *)
Definition comparable (a b : Individual.t) : Prop := exists g h,
  Individual.genome a = Some g /\ Individual.genome b = Some h /\
  Genome.weights g <> [] /\ length (Genome.weights g) = length (Genome.weights h).

Definition distance (a b : Individual.t) : f64 :=
  let squares := zip_with (fun x y => let delta := f64_sub (f32_to_f64 (f32_of_bits x)) (f32_to_f64 (f32_of_bits y)) in f64_mul delta delta)
                   (weightsOf a) (weightsOf b) in
  f64_sqrt (f64_div (foldl f64_add fzero squares) (f64_of_Z (Z.of_nat (length (weightsOf a))))).

Lemma canCompute_comparable a b : canComputeGenomeWeightDistance a b = true <-> comparable a b.
Proof.
  unfold canComputeGenomeWeightDistance, comparable. destruct (Individual.genome a) as [g |]; [| naive_solver].
  destruct (Individual.genome b) as [h |]; [| naive_solver].
  rewrite andb_true_iff, negb_true_iff, bool_decide_eq_false, Z.eqb_eq, Nat2Z.inj_iff, length_zero_iff_nil.
  split; [intros []; by exists g, h | by intros (g' & h' & [= <-] & [= <-] & ?)].
Qed.

Lemma compute_distance a b : comparable a b -> computeGenomeWeightDistance a b = Ok (distance a b).
Proof.
  intros H%canCompute_comparable. unfold computeGenomeWeightDistance. rewrite H. cbn. unfold distance. do 3 f_equal.
  generalize fzero. generalize (weightsOf b). induction (weightsOf a) as [| x l IH]; intros [| y l'] acc; cbn; try done.
Qed.

Lemma distance_magnitude a b : not_nan (distance a b) -> magnitude (distance a b).
Proof. apply sqrt_magnitude. Qed.

Section Diversity.
Variable ranked : list RankedIndividual.t.
Notation n := (Z.of_nat (length ranked)).

Definition position_ok (i : Z) : Prop := 0 <= i < n.

(** The individual at a position of the ranking. *)
Definition ranks (i : Z) (individual : Individual.t) : Prop :=
  exists r, ranked !! Z.to_nat i = Some r /\ RankedIndividual.individual r = individual.

(** One of the references can be compared with the candidate ... *)
Definition reachable (references : list Z) (candidate : Individual.t) : Prop :=
  exists i reference, i ∈ references /\ ranks i reference /\ comparable candidate reference.

(** ... and [d] is how far the nearest one is, as far as the distances are numbers. *)
Record nearest (references : list Z) (candidate : Individual.t) (d : f64) : Prop := {
  ne_reachable : reachable references candidate;
  ne_number : not_nan d;
  ne_reached : d = S754_infinity false \/
    exists i reference, i ∈ references /\ ranks i reference /\ comparable candidate reference /\ d = distance candidate reference;
  ne_least : forall i reference, i ∈ references -> ranks i reference -> comparable candidate reference ->
    flt (distance candidate reference) d = false
}.

Lemma nearest_magnitude references candidate d : nearest references candidate d -> magnitude d.
Proof. intros [_ Hn [-> | (i & reference & _ & _ & _ & ->)] _]; [by left | by apply distance_magnitude]. Qed.

Lemma not_less_std_min d e x :
  not_nan d -> not_nan x -> flt (std_min d e) x = false -> flt d x = false /\ flt e x = false.
Proof.
  intros Hd Hx. unfold std_min. destruct (flt e d) eqn:E; intros H.
  - split; [| done]. apply not_true_iff_false. intros Hdx. apply not_true_iff_false in H. apply H. by eapply flt_trans.
  - split; [done |]. apply not_true_iff_false. intros Hex. pose proof (flt_not_nan_l _ _ Hex) as He.
    pose proof (not_flt_trans e d x He Hd Hx E H). congruence.
Qed.

Lemma reference_loop_ok candidate references found d :
  Forall position_ok references -> not_nan d ->
  wp (reference_loop ranked candidate references found d) (fun '(found', d') =>
    (found' = true <-> found = true \/ reachable references candidate) /\ not_nan d' /\
    (d' = d \/ exists i reference, i ∈ references /\ ranks i reference /\ comparable candidate reference /\ d' = distance candidate reference) /\
    flt d d' = false /\
    (forall i reference, i ∈ references -> ranks i reference -> comparable candidate reference -> flt (distance candidate reference) d' = false)).
Proof.
  intros H. revert found d. induction H as [| i references Hi H IH]; intros found d Hd; cbn [reference_loop].
  { apply wp_ok. split; [split; [by left | intros [? | (i & r & Hi%elem_of_nil & _)]; done] |]. split; [done |]. split; [by left |].
    split; [apply flt_irrefl | by intros i r Hi%elem_of_nil]. }
  apply wp_bind, wp_vec_get; [done |]. intros r Hr.
  assert (ranks i (RankedIndividual.individual r)) as Hri by by exists r.
  assert (forall reference, ranks i reference -> reference = RankedIndividual.individual r) as Huniq
    by (intros reference (r' & Hr' & <-); congruence).
  destruct (canComputeGenomeWeightDistance _ _) eqn:E.
  - apply canCompute_comparable in E. rewrite compute_distance by done. cbn [rbind]. set (e := distance candidate (RankedIndividual.individual r)).
    assert (not_nan (std_min d e)) as Hm by (unfold std_min; destruct (flt e d) eqn:El; [by eapply flt_not_nan_l | done]).
    eapply wp_mono; [by apply IH |]. intros [found' d'] (H1 & H2 & H3 & H4 & H5).
    destruct (not_less_std_min d e d' Hd H2 H4) as [H6 H7]. split; [| split; [done |]; split; [| split; [done |]]].
    + split; [| intros _; apply H1; by left]. intros _. right. exists i, (RankedIndividual.individual r). split; [left | done].
    + destruct H3 as [-> | (j & reference & Hj & H8)]; [| right; exists j, reference; split; [by right | done]].
      unfold std_min. destruct (flt e d); [| by left]. right. exists i, (RankedIndividual.individual r). split; [left | done].
    + intros j reference [-> | Hj]%elem_of_cons Hrj Hc; [by rewrite (Huniq _ Hrj) | by eapply H5].
  - apply not_true_iff_false in E. eapply wp_mono; [by apply IH |]. intros [found' d'] (H1 & H2 & H3 & H4 & H5).
    split; [rewrite H1 | split; [done |]; split; [| split; [done |]]].
    + apply or_iff_compat_l. split; intros (j & reference & Hj & Hrj & Hc); exists j, reference; [split; [by right | done] |].
      apply elem_of_cons in Hj as [-> | Hj]; [| done]. destruct E. apply canCompute_comparable. by rewrite <- (Huniq _ Hrj).
    + destruct H3 as [-> | (j & reference & Hj & H8)]; [by left | right; exists j, reference; split; [by right | done]].
    + intros j reference [-> | Hj]%elem_of_cons Hrj Hc; [| by eapply H5]. destruct E. apply canCompute_comparable. by rewrite <- (Huniq _ Hrj).
Qed.

Lemma reference_loop_nearest candidate references :
  Forall position_ok references ->
  wp (reference_loop ranked candidate references false (S754_infinity false)) (fun '(found, d) =>
    if found then nearest references candidate d else ~ reachable references candidate).
Proof.
  intros H. eapply wp_mono; [by apply reference_loop_ok |]. intros [found d] (H1 & H2 & H3 & _ & H5). destruct found.
  - split; try done. by destruct (proj1 H1 eq_refl) as [Hf | Hr].
  - intros Hr. discriminate (proj2 H1 (or_intror Hr)).
Qed.

(** The candidates that are not chosen yet. *)
Definition masked (mask : list bool) (chosen : list Z) : Prop :=
  length mask = length ranked /\ forall i, position_ok i -> mask !! Z.to_nat i = Some (bool_decide (i ∈ chosen)).

Lemma masked_start : masked (replicate (length ranked) false) [].
Proof.
  split; [apply length_replicate |]. unfold position_ok. intros i Hi. rewrite bool_decide_false by apply not_elem_of_nil.
  apply lookup_replicate. split; [done | lia].
Qed.

Lemma masked_choose mask chosen i : masked mask chosen -> position_ok i ->
  wp (vec_set mask i true) (fun mask' => masked mask' (chosen ++ [i])).
Proof.
  unfold position_ok. intros [Hl Hm] Hi. apply wp_vec_set; [lia |]. split; [by rewrite length_insert |].
  unfold position_ok in *. intros j Hj. rewrite lookup_insert_Z by lia. case_decide as E.
  - subst. rewrite bool_decide_true; [done |]. apply elem_of_app. right. by apply list_elem_of_singleton.
  - rewrite Hm by done. f_equal. apply bool_decide_ext. rewrite elem_of_app, list_elem_of_singleton. naive_solver.
Qed.

Lemma masked_get mask chosen i (Q : bool -> Prop) : masked mask chosen -> position_ok i ->
  Q (bool_decide (i ∈ chosen)) -> wp (vec_get mask i) Q.
Proof. intros [Hl Hm] Hi HQ. pose proof (Hm i Hi) as Hg. unfold position_ok in Hi. by rewrite (vec_get_ok _ _ _ (proj1 Hi) Hg). Qed.

(** *** The farthest candidate *)

(** [c] is farthest from the references among the candidates that are left: at [d];
    no other is farther by more than the tolerance, and those before it in the
    ranking are nearer. *)
Definition farthest (references candidates chosen : list Z) (c : Z) (d : f64) : Prop :=
  c ∈ candidates /\ c ∉ chosen /\ (exists individual, ranks c individual /\ nearest references individual d) /\
  forall x individual, x ∈ candidates -> x ∉ chosen -> x <> c -> ranks x individual -> reachable references individual ->
    exists e, nearest references individual e /\
      flt (f64_add d (f64_lit 1 1000000000000)) e = false /\ (x < c -> flt e d = true).

(** None is left that can be compared. *)
Definition exhausted (references candidates chosen : list Z) : Prop :=
  forall x individual, x ∈ candidates -> x ∉ chosen -> ranks x individual -> ~ reachable references individual.

Definition leads (references candidates chosen : list Z) (c : Z) (d : f64) : Prop :=
  (c < 0 /\ exhausted references candidates chosen) \/ (0 <= c /\ farthest references candidates chosen c d).

Lemma ranks_unique i a b : ranks i a -> ranks i b -> a = b.
Proof. intros (r & Hr & <-) (r' & Hr' & <-). congruence. Qed.

Lemma leads_skip references candidates chosen c d i :
  (forall individual, i ∉ chosen -> ranks i individual -> ~ reachable references individual) ->
  leads references candidates chosen c d -> leads references (candidates ++ [i]) chosen c d.
Proof.
  intros Hi [[Hc He] | (Hc & H1 & H2 & H3 & H4)].
  - left. split; [done |]. intros x individual [Hx | ->%list_elem_of_singleton]%elem_of_app Hn Hr; [by eapply He | by apply Hi].
  - right. split; [done |]. split; [apply elem_of_app; by left |]. split; [done |]. split; [done |].
    intros x individual [Hx | ->%list_elem_of_singleton]%elem_of_app Hn Hne Hr Hre; [by eapply H4 | by destruct (Hi individual)].
Qed.

Lemma tie_epsilon d : magnitude d -> not_nan (f64_add d kDistanceTieEpsilon) /\ flt (f64_add d kDistanceTieEpsilon) d = false.
Proof. intros H. apply add_not_less; [done | by vm_compute |]. vm_compute. intuition discriminate. Qed.

Lemma leads_keep references candidates chosen c d i individual e :
  0 <= c -> c < i -> farthest references candidates chosen c d -> ranks i individual -> nearest references individual e ->
  flt (f64_add d kDistanceTieEpsilon) e = false -> leads references (candidates ++ [i]) chosen c d.
Proof.
  intros Hc Hlt (H1 & H2 & H3 & H4) Hr He Hle. right. split; [done |]. split; [apply elem_of_app; by left |]. split; [done |]. split; [done |].
  intros x ind [Hx | ->%list_elem_of_singleton]%elem_of_app Hn Hne Hrx Hre; [by eapply H4 |].
  rewrite (ranks_unique _ _ _ Hrx Hr). exists e. split; [done |]. split; [done | lia].
Qed.

Lemma leads_change references candidates chosen c d i individual e :
  0 <= i -> i ∉ chosen -> (forall x, x ∈ candidates -> x < i) ->
  leads references candidates chosen c d -> ranks i individual -> nearest references individual e ->
  (c < 0 \/ flt (f64_add d kDistanceTieEpsilon) e = true) -> leads references (candidates ++ [i]) chosen i e.
Proof.
  intros Hi Hnew Hlt Hl Hr He Hwhy. right. split; [done |]. split; [apply elem_of_app; right; by apply list_elem_of_singleton |].
  split; [done |]. split; [by exists individual |].
  intros x ind [Hx | ->%list_elem_of_singleton]%elem_of_app Hn Hne Hrx Hre; [| done].
  destruct Hl as [[Hc Hex] | (Hc & H1 & H2 & (inc & Hrc & Hnc) & H4)]; [by destruct (Hex x ind)|].
  destruct Hwhy as [? | Hfar]; [lia |]. pose proof (nearest_magnitude _ _ _ Hnc) as Hmd. pose proof (nearest_magnitude _ _ _ He) as Hme.
  destruct (tie_epsilon d Hmd) as [Hdn Hdd]. destruct (tie_epsilon e Hme) as [Hen Hee].
  assert (exists ex, nearest references ind ex /\ flt ex e = true) as (ex & Hex & Hlex).
  { destruct (decide (x = c)) as [-> | Hxc].
    - exists d. rewrite (ranks_unique _ _ _ Hrx Hrc). split; [done |]. apply not_false_iff_true. intros Hde.
      pose proof (not_flt_trans _ d e Hdn (magnitude_not_nan _ Hmd) (magnitude_not_nan _ Hme) Hdd Hde). congruence.
    - destruct (H4 x ind Hx Hn Hxc Hrx Hre) as (ex & Hex & Hnf & _). exists ex. split; [done |]. apply not_false_iff_true. intros Hxe.
      pose proof (not_flt_trans _ ex e Hdn (ne_number _ _ _ Hex) (magnitude_not_nan _ Hme) Hnf Hxe). congruence. }
  exists ex. split; [done |]. split; [| done]. apply not_true_iff_false. intros Hgt.
  pose proof (flt_trans _ _ _ Hgt Hlex). fold kDistanceTieEpsilon in *. congruence.
Qed.

Lemma candidate_loop_ok references mask chosen candidates before found d :
  Forall position_ok references -> masked mask chosen -> Forall position_ok candidates ->
  StronglySorted Z.lt (before ++ candidates) -> leads references before chosen found d ->
  wp (candidate_loop ranked references mask candidates found d) (fun '(c, d') => leads references (before ++ candidates) chosen c d').
Proof.
  intros Hr Hm H. revert before found d. induction H as [| i candidates Hi H IH]; intros before found d Hs Hl; cbn [candidate_loop].
  { apply wp_ok. by rewrite app_nil_r. }
  assert (forall x, x ∈ before -> x < i) as Hbefore by (intros x Hx; apply (StronglySorted_app_1_elem_of _ _ _ _ _ Hs Hx); left).
  rewrite (cons_middle i before candidates), app_assoc in Hs |- *.
  apply wp_bind, (masked_get mask chosen); [done | done |]. case_bool_decide as Ein.
  { apply IH; [done |]. apply leads_skip; [by intros ? [] | done]. }
  apply wp_bind, wp_vec_get; [done |]. intros r Hri.
  assert (ranks i (RankedIndividual.individual r)) as Hrk by by exists r.
  apply wp_bind. eapply wp_mono; [by apply reference_loop_nearest |]. intros [found' e] He. destruct found'; cbn [negb].
  2: { apply IH; [done |]. apply leads_skip; [| done]. intros individual _ Hind. by rewrite (ranks_unique _ _ _ Hind Hrk). }
  destruct (Z.ltb_spec found 0) as [Hneg | Hpos]; cbn [orb].
  { apply IH; [done |]. eapply leads_change; try done; [unfold position_ok in Hi; lia | by left]. }
  destruct Hl as [[? _] | [_ Hf]]; [lia |]. assert (found < i) as Hfi by (apply Hbefore, Hf).
  rewrite (proj2 (Z.ltb_ge i found)), andb_false_r, orb_false_r by lia. unfold fgt. fold (flt (f64_add d kDistanceTieEpsilon) e).
  destruct (flt (f64_add d kDistanceTieEpsilon) e) eqn:E; apply IH; try done.
  - eapply leads_change; try done; [unfold position_ok in Hi; lia | by right | by right].
  - by eapply leads_keep.
Qed.

(** *** The elites, one after the other *)

(** While places are left, the farthest candidate from the best individual and the elites so far. *)
Inductive greedy (candidates : list Z) : nat -> list Z -> list Z -> Prop :=
  | greedy_full elites : greedy candidates 0 elites elites
  | greedy_exhausted slots elites : exhausted (0 :: elites) candidates elites -> greedy candidates slots elites elites
  | greedy_next slots chosen c d elites :
      farthest (0 :: chosen) candidates chosen c d -> greedy candidates slots (chosen ++ [c]) elites ->
      greedy candidates (S slots) chosen elites.

Lemma greedy_facts candidates slots chosen elites :
  greedy candidates slots chosen elites -> NoDup chosen -> chosen ⊆ candidates ->
  NoDup elites /\ elites ⊆ candidates /\ (length elites <= length chosen + slots)%nat.
Proof.
  induction 1 as [elites | slots elites _ | slots chosen c d elites (Hc & Hn & _) _ IH]; intros Hnd Hsub;
    [split; [done | split; [done | lia]].. |].
  destruct IH as (H1 & H2 & H3).
  - apply NoDup_app. split; [done |]. split; [| apply NoDup_singleton]. by intros x Hx ->%list_elem_of_singleton.
  - intros x [Hx | ->%list_elem_of_singleton]%elem_of_app; [by apply Hsub | done].
  - rewrite length_app in H3. cbn in H3. split; [done | split; [done | lia]].
Qed.

Lemma diversity_loop_ok slots candidates selected mask :
  Forall position_ok candidates -> StronglySorted Z.lt candidates -> (0 < length ranked)%nat -> masked mask selected -> selected ⊆ candidates ->
  wp (diversity_loop slots ranked candidates selected (0 :: selected) mask) (greedy candidates slots selected).
Proof.
  intros Hc Hs H0. revert selected mask. induction slots as [| slots IH]; intros selected mask Hm Hsub;
    cbn [diversity_loop]; [apply wp_ok; constructor |].
  assert (Forall position_ok (0 :: selected)) as Hr.
  { constructor; [unfold position_ok; lia |]. rewrite Forall_forall in Hc |- *. by auto. }
  apply wp_bind. eapply wp_mono; [apply (candidate_loop_ok (0 :: selected) mask selected candidates [] (-1)); try done |].
  { left. split; [lia |]. by intros x ind Hx%elem_of_nil. }
  cbn [app]. intros [c d] Hl. destruct (Z.ltb_spec c 0) as [Hneg | Hpos].
  { apply wp_ok, greedy_exhausted. by destruct Hl as [[_ H] | [? _]]; [| lia]. }
  destruct Hl as [[? _] | [_ Hf]]; [lia |]. rewrite Forall_forall in Hc. pose proof (Hc c (proj1 Hf)) as Hok.
  apply wp_bind. eapply wp_mono; [by apply (masked_choose mask selected c) |]. intros mask' Hm'.
  cbn [app].
  eapply wp_mono; [apply (IH (selected ++ [c]) mask'); [done |] |].
  - intros x [Hx | ->%list_elem_of_singleton]%elem_of_app; [by apply Hsub | apply Hf].
  - intros elites H. by eapply greedy_next.
Qed.

Lemma eliteCandidates_spec bestFitness epsilon i :
  i ∈ eliteCandidates ranked bestFitness epsilon <->
  1 <= i < n /\ exists r, ranked !! Z.to_nat i = Some r /\ Individual.genome (RankedIndividual.individual r) <> None /\
    isNearBestFitness (RankedIndividual.fitness r) bestFitness epsilon = true.
Proof.
  assert (forall k j r, tail (combine (seqZ 0 n) ranked) !! k = Some (j, r) <-> j = Z.of_nat (S k) /\ ranked !! S k = Some r) as Ht.
  { intros k j r. rewrite lookup_tail. clear. assert (forall l b k, combine (seqZ b (Z.of_nat (length l))) l !! k = (fun r : RankedIndividual.t => (b + Z.of_nat k, r)) <$> l !! k) as H.
    { induction l as [| x l IH]; intros b m; [done |]. rewrite seqZ_cons by (cbn; lia). cbn [combine].
      destruct m as [| m]; [cbn; f_equal; f_equal; lia |]. cbn [lookup list_lookup].
      replace (Z.pred (Z.of_nat (length (x :: l)))) with (Z.of_nat (length l)) by (cbn; lia).
      rewrite IH. destruct (l !! m); [| done]. cbn. do 2 f_equal. lia. }
    rewrite H. destruct (ranked !! S k); cbn; [| naive_solver]. split; [intros [= <- <-] | intros [-> [= ->]]]; [done | done]. }
  unfold eliteCandidates. rewrite list_elem_of_omap. split.
  - intros ([j r] & [k Hk]%list_elem_of_lookup & Hr). apply Ht in Hk as [-> Hk].
    destruct (isNearBestFitness _ _ _) eqn:E; [| done]. cbn [negb] in Hr.
    destruct (Individual.genome _) eqn:Eg; [| done]. injection Hr as <-. pose proof (lookup_lt_Some _ _ _ Hk).
    split; [lia |]. exists r. rewrite Nat2Z.id, Eg. done.
  - intros (Hi & r & Hr & Hg & Hn). exists (i, r). split.
    + apply list_elem_of_lookup. exists (Z.to_nat i - 1)%nat. apply Ht. replace (S (Z.to_nat i - 1)) with (Z.to_nat i) by lia. by split; [lia |].
    + rewrite Hn. cbn [negb]. by destruct (Individual.genome _).
Qed.

Lemma eliteCandidates_sorted bestFitness epsilon : StronglySorted Z.lt (eliteCandidates ranked bestFitness epsilon).
Proof.
  unfold eliteCandidates. assert (forall l b, StronglySorted (fun x y : Z * RankedIndividual.t => fst x < fst y) (combine (seqZ b (Z.of_nat (length l))) l) /\
    Forall (fun x => b <= fst x) (combine (seqZ b (Z.of_nat (length l))) l)) as H.
  { induction l as [| r l IH]; intros b; [by split; constructor |]. rewrite seqZ_cons by (cbn; lia). cbn [combine].
    replace (Z.pred (Z.of_nat (length (r :: l)))) with (Z.of_nat (length l)) by (cbn; lia). destruct (IH (Z.succ b)) as [H1 H2].
    split; constructor; try done; (eapply Forall_impl; [exact H2 |]); cbn; intros; lia. }
  destruct (H ranked 0) as [Hs _]. assert (StronglySorted (fun x y : Z * RankedIndividual.t => fst x < fst y) (tail (combine (seqZ 0 n) ranked))) as Ht
    by (destruct Hs; [constructor | done]).
  clear Hs H. induction Ht as [| [i r] l Hl IH HF]; [constructor |]. cbn.
  destruct (negb _); [done |]. destruct (Individual.genome _); [| done]. constructor; [done |].
  rewrite (Forall_forall (fun y => i < fst y)) in HF. apply Forall_forall. intros j ([j' r'] & Hj & Ho)%list_elem_of_omap. specialize (HF _ Hj). cbn in HF.
  destruct (negb _); [done |]. destruct (Individual.genome _); [| done]. by injection Ho as <-.
Qed.
End Diversity.

(** ** Filling the places *)
Lemma filter_ext_in {B} (P Q : B -> Prop) `{!forall x, Decision (P x), !forall x, Decision (Q x)} (l : list B) :
  (forall x, x ∈ l -> P x <-> Q x) -> filter P l = filter Q l.
Proof.
  induction l as [| x l IH]; intros HPQ; [done |]. rewrite !filter_cons, IH by (intros; apply HPQ; by right).
  destruct (HPQ x ltac:(left)). repeat case_decide; tauto.
Qed.

Lemma filter_all {B} (P : B -> Prop) `{!forall x, Decision (P x)} (l : list B) : (forall x, x ∈ l -> P x) -> filter P l = l.
Proof.
  induction l as [| x l IH]; intros HP; [done |]. rewrite filter_cons, decide_True by (apply HP; left).
  f_equal. apply IH. intros y Hy. apply HP. by right.
Qed.

Section Select.
Variable ranked : list RankedIndividual.t.
Notation n := (Z.of_nat (length ranked)).

Lemma selectPosition_ok i positions mask : position_ok ranked i -> masked ranked mask positions ->
  wp (selectPosition ranked i (positions, mask)) (fun '(positions', mask') =>
    masked ranked mask' positions' /\ positions' = if decide (i ∈ positions) then positions else positions ++ [i]).
Proof.
  intros Hi Hm. unfold selectPosition. unfold position_ok in Hi. rewrite (proj2 (Z.ltb_ge _ _)), (proj2 (Z.leb_gt _ _)) by lia.
  cbn [orb]. apply wp_bind, (masked_get ranked mask positions); [done | done |]. case_bool_decide as E.
  - apply wp_ok. by rewrite decide_True by done.
  - apply wp_bind. eapply wp_mono; [by apply (masked_choose ranked mask positions i) |]. intros mask' Hm'.
    apply wp_ok. by rewrite decide_False by done.
Qed.

(** The loop takes the first [keep - length positions] new ones of [l]. *)
Lemma select_loop_ok keep l positions mask :
  Forall (position_ok ranked) l -> NoDup l -> masked ranked mask positions -> NoDup positions ->
  wp (select_loop ranked keep l (positions, mask)) (fun '(positions', mask') =>
    masked ranked mask' positions' /\ NoDup positions' /\
    positions' = positions ++ take (Z.to_nat (keep - Z.of_nat (length positions))) (filter (fun i => i ∉ positions) l)).
Proof.
  intros H. revert positions mask. induction H as [| i l Hi H IH]; intros positions mask Hl Hm Hnd; cbn [select_loop fst].
  - apply wp_ok. rewrite filter_nil, take_nil, app_nil_r. done.
  - apply NoDup_cons in Hl as [Hnew Hl]. destruct (Z.leb_spec keep (Z.of_nat (length positions))) as [Hfull | Hroom].
    { apply wp_ok. replace (Z.to_nat (keep - _)) with 0%nat by lia. rewrite take_0, app_nil_r. done. }
    apply wp_bind. eapply wp_mono; [by apply selectPosition_ok |]. intros [positions' mask'] [Hm' ->].
    rewrite filter_cons. destruct (decide (i ∈ positions)) as [Hin | Hout].
    + rewrite decide_False by (intros ?; done). by apply IH.
    + rewrite decide_True by done. assert (NoDup (positions ++ [i])) as Hnd'.
      { apply NoDup_app. split; [done |]. split; [by intros x Hx ->%list_elem_of_singleton | apply NoDup_singleton]. }
      eapply wp_mono; [by apply IH |]. intros [positions'' mask''] (Hm'' & Hnd'' & ->). split; [done |]. split; [done |].
      rewrite length_app. cbn [length]. replace (Z.to_nat (keep - Z.of_nat (length positions)))
        with (S (Z.to_nat (keep - Z.of_nat (length positions + 1)))) by lia.
      cbn [take]. rewrite <- app_assoc. cbn [app]. do 3 f_equal. apply filter_ext_in. intros x Hx.
      rewrite elem_of_app, list_elem_of_singleton. naive_solver.
Qed.
End Select.

(** ** The survivors *)

(** The candidates for the diversity elites: with a genome, and near the best fitness. *)
Definition near_best (config : EvolutionConfig.t) (ranked : list RankedIndividual.t) (i : Z) : Prop :=
  1 <= i < Z.of_nat (length ranked) /\
  exists best r, head ranked = Some best /\ ranked !! Z.to_nat i = Some r /\
    Individual.genome (RankedIndividual.individual r) <> None /\
    isNearBestFitness (RankedIndividual.fitness r) (RankedIndividual.fitness best)
      (EvolutionConfig.diversityEliteFitnessEpsilon config) = true.

(** [elites] are the diversity elites of [ranked]: chosen one after the other among
    the candidates, as many as [diversityEliteCount] and the places after the first allow. *)
Record elites_of (config : EvolutionConfig.t) (keep : Z) (ranked : list RankedIndividual.t) (elites : list Z) : Prop := {
  el_distinct : NoDup elites;
  el_count : Z.of_nat (length elites) <= Z.min (Z.max 0 (EvolutionConfig.diversityEliteCount config)) (keep - 1);
  el_near : forall i, i ∈ elites -> near_best config ranked i;
  el_greedy : exists candidates, (forall i, i ∈ candidates <-> near_best config ranked i) /\
    greedy ranked candidates (Z.to_nat (Z.min (EvolutionConfig.diversityEliteCount config) (keep - 1))) [] elites
}.

(** The best, the elites, and the best of the rest. *)
Definition chosen (keep : Z) (ranked : list RankedIndividual.t) (elites : list Z) : list Z :=
  0 :: elites ++ take (Z.to_nat (keep - 1 - Z.of_nat (length elites)))
                   (filter (fun i => i ∉ elites) (seqZ 1 (Z.of_nat (length ranked) - 1))).

Lemma near_best_candidates config ranked best others i :
  ranked = best :: others ->
  i ∈ eliteCandidates ranked (RankedIndividual.fitness best) (EvolutionConfig.diversityEliteFitnessEpsilon config) <-> near_best config ranked i.
Proof.
  intros E. rewrite eliteCandidates_spec. unfold near_best. split; intros [Hi H]; (split; [done |]).
  - destruct H as (r & Hr). exists best, r. by rewrite E at 1.
  - destruct H as (b & r & Hb & Hr). rewrite E in Hb at 1. injection Hb as <-. by exists r.
Qed.

Lemma selectDiversityElitePositions_ok ranked keep config :
  ranked <> [] -> 0 < keep ->
  wp (selectDiversityElitePositions ranked keep (EvolutionConfig.diversityEliteCount config)
        (EvolutionConfig.diversityEliteFitnessEpsilon config)) (elites_of config keep ranked).
Proof.
  intros Hne Hk. unfold selectDiversityElitePositions.
  destruct ranked as [| best others] eqn:Er; [done |]. rewrite <- Er in *.
  set (candidates := eliteCandidates ranked (RankedIndividual.fitness best) (EvolutionConfig.diversityEliteFitnessEpsilon config)).
  set (slots := Z.to_nat (Z.min (EvolutionConfig.diversityEliteCount config) (keep - 1))).
  assert (forall elites, greedy ranked candidates slots [] elites -> elites_of config keep ranked elites) as Hof.
  { intros elites Hg. destruct (greedy_facts _ _ _ _ _ Hg) as (Hnd & Hsub & Hl); [constructor | apply list_subseteq_nil |].
    cbn in Hl. split; [done | unfold slots in Hl; lia | |].
    - intros i Hi%Hsub. by apply (near_best_candidates _ _ best others).
    - exists candidates. split; [| done]. intros i. by apply (near_best_candidates _ _ best others). }
  assert (slots = 0%nat \/ candidates = [] -> elites_of config keep ranked []) as Hnil.
  { intros [E | E]; apply Hof; [rewrite E; constructor |]. apply greedy_exhausted. rewrite E. by intros x ind Hx%elem_of_nil. }
  destruct (_ || _ || _) eqn:E.
  { apply Hnil. left. rewrite !orb_true_iff, bool_decide_eq_true, length_zero_iff_nil, !Z.leb_le in E. unfold slots. destruct E as [[?|]|]; [done | lia..]. }
  destruct (Z.leb_spec (Z.min (EvolutionConfig.diversityEliteCount config) (keep - 1)) 0); [apply Hnil; left; unfold slots; lia |].
  rewrite Er at 1. cbn [vec_front rbind]. fold candidates. clear E. case_bool_decide as Ec; [apply Hnil; right; by apply nil_length_inv |].
  eapply wp_mono; [| exact Hof]. apply diversity_loop_ok; try done.
  - apply Forall_forall. intros i Hi%eliteCandidates_spec. unfold position_ok. lia.
  - apply eliteCandidates_sorted.
  - rewrite Er. cbn. lia.
  - apply masked_start.
  - apply list_subseteq_nil.
Qed.

Lemma chosen_length keep ranked elites config :
  elites_of config keep ranked elites -> 0 < keep <= Z.of_nat (length ranked) ->
  Z.of_nat (length (chosen keep ranked elites)) = keep.
Proof.
  intros [Hnd Hc _ _] Hk. unfold chosen. cbn [length]. rewrite length_app, length_take.
  assert (Z.of_nat (length ranked) - 1 <= Z.of_nat (length elites + length (filter (fun i => i ∉ elites) (seqZ 1 (Z.of_nat (length ranked) - 1))))); [| lia].
  rewrite <- length_app. replace (Z.of_nat (length ranked) - 1) with (Z.of_nat (length (seqZ 1 (Z.of_nat (length ranked) - 1)))) at 1
    by (rewrite length_seqZ; lia).
  apply Nat2Z.inj_le. apply submseteq_length, NoDup_submseteq; [apply NoDup_seqZ |].
  intros i Hi. rewrite elem_of_app, list_elem_of_filter. destruct (decide (i ∈ elites)); [by left | by right].
Qed.

Lemma survivorPositions_ok ranked keep config :
  0 < keep <= Z.of_nat (length ranked) ->
  wp (survivorPositions ranked keep config) (fun positions => exists elites,
    elites_of config keep ranked elites /\ positions = chosen keep ranked elites /\ NoDup positions).
Proof.
  intros Hk. unfold survivorPositions. apply wp_bind. assert (ranked <> []) as Hne by (intros ->; cbn in Hk; lia).
  eapply wp_mono; [by apply selectDiversityElitePositions_ok; [| lia] |]. intros elites He. pose proof He as [Hnd Hc Hn _].
  apply wp_bind. eapply wp_mono; [by apply selectPosition_ok; [unfold position_ok; lia | apply masked_start] |].
  intros [p0 m0] [Hm0 ->]. rewrite decide_False by apply not_elem_of_nil. cbn [app].
  assert (Forall (position_ok ranked) elites) as Hok by (apply Forall_forall; intros i Hi; destruct (Hn i Hi) as [? _]; unfold position_ok; lia).
  apply wp_bind. eapply wp_mono; [apply (select_loop_ok ranked); try done; apply NoDup_singleton |].
  intros [p1 m1] (Hm1 & Hnd1 & E1). cbn [length] in E1. rewrite (filter_all (fun i => i ∉ [0]) elites) in E1.
  2: { intros i Hi ->%list_elem_of_singleton. destruct (Hn 0 Hi). lia. }
  rewrite take_ge in E1 by lia. cbn [app] in E1. subst p1.
  apply wp_bind. eapply wp_mono; [apply (select_loop_ok ranked); try done |].
  - apply Forall_forall. intros i Hi%elem_of_seqZ. unfold position_ok. lia.
  - apply NoDup_seqZ.
  - intros [p2 m2] (_ & Hnd2 & E2). assert (p2 = chosen keep ranked elites) as ->.
    { rewrite E2. unfold chosen. cbn [app length]. do 2 f_equal. f_equal; [lia |]. apply filter_ext_in.
      intros x Hx%elem_of_seqZ. rewrite not_elem_of_cons. split; [by intros [_ ?] | intros; split; [lia | done]]. }
    cbn [fst]. apply wp_bind, wp_assert; [apply Z.eqb_eq; by eapply chosen_length |]. apply wp_ok. by exists elites.
Qed.

Lemma survivors_collected (ranked : list RankedIndividual.t) positions :
  Forall (position_ok ranked) positions ->
  wp (foldr (fun position rest => let! r := vec_get ranked position in let! rest := rest in Ok (r :: rest)) (Ok []) positions)
     (fun survivors => Forall2 (fun i r => ranked !! Z.to_nat i = Some r) positions survivors).
Proof.
  induction 1 as [| i positions Hi H IH]; cbn [foldr]; [by apply wp_ok |].
  apply wp_bind, wp_vec_get; [done |]. intros r Hr. apply wp_bind. eapply wp_mono; [exact IH |].
  intros survivors Hs. apply wp_ok. by constructor.
Qed.

Lemma ranking_scores p :
  length (Population.population p) = length (Population.fitnessScores p) ->
  map RankedIndividual.fitness (ranking p) = Population.fitnessScores p.
Proof.
  unfold ranking. generalize (Population.populationOrigins p) (Population.fitnessScores p). intros origins scores H.
  assert (forall k, map RankedIndividual.fitness (imap (fun i '(individual, fitness) => RankedIndividual.mk fitness individual
            (originAt origins (Z.of_nat (k + i))) (Z.of_nat (k + i))) (combine (Population.population p) scores)) = scores) as HS; [| by apply (HS 0%nat)].
  revert scores H. induction (Population.population p) as [| i l IH]; intros [| f scores] H k; try done.
  cbn. f_equal. etransitivity; [| apply (IH scores ltac:(by injection H) (S k))]. f_equal. apply imap_ext.
  intros j [? ?] _. cbn. by rewrite Nat.add_succ_r.
Qed.

Lemma chosen_ok config keep ranked elites :
  elites_of config keep ranked elites -> ranked <> [] -> Forall (position_ok ranked) (chosen keep ranked elites).
Proof.
  intros [_ _ Hn _] Hne. unfold position_ok. constructor; [destruct ranked; [done | cbn; lia] |]. apply Forall_app. split.
  - apply Forall_forall. intros i Hi. destruct (Hn i Hi). lia.
  - apply Forall_take, Forall_forall. intros i [_ Hi%elem_of_seqZ]%list_elem_of_filter. lia.
Qed.

Section Survivors.
Context {R A E SC Snapshot : Type} `{SS : !StdSort, SL : !StdSortLaws}.
Implicit Types s : t (R := R) (A := A) (E := E) (SC := SC) (Snapshot := Snapshot).

(** The population of the survivors, in the order in which they were chosen. *)
Definition survived (survivors : list RankedIndividual.t) (p : Population.t) : Population.t :=
  Population.mk (map (fun r => Individual.set_parentFitness None (RankedIndividual.individual r)) survivors)
    (map (fun _ => EliteCarryover) survivors) (map RankedIndividual.fitness survivors)
    (Population.wingUpSecondsPerIndividual p) (Population.pruneBeforeBreeding_ p).

Record selection (config : EvolutionConfig.t) (keep : Z) (p : Population.t) (survivors : list RankedIndividual.t) : Prop := {
  sel_count : Z.of_nat (length survivors) = keep;
  sel_how : exists ranked elites, ranked ≡ₚ ranking p /\ StronglySorted (fun a b => rankedBefore b a = false) ranked /\
    elites_of config keep ranked elites /\ NoDup (chosen keep ranked elites) /\
    Forall2 (fun i r => ranked !! Z.to_nat i = Some r) (chosen keep ranked elites) survivors
}.

Lemma pruneToSurvivors_ok n s :
  let p := pop s in
  Population.pruneBeforeBreeding_ p = true -> 0 < n -> Population.population p <> [] ->
  length (Population.population p) = length (Population.fitnessScores p) ->
  Z.of_nat (length (Population.population p)) < 2 ^ 31 -> Forall not_nan (Population.fitnessScores p) ->
  wp (pruneToSurvivors n s) (fun s' => exists survivors,
    selection (config s) (Z.min n (Z.of_nat (length (Population.population p)))) p survivors /\
    s' = set_pop (survived survivors p) s).
Proof.
  intros p Hprune Hn Hne Hl Hb Hnan. unfold pruneToSurvivors. fold p. rewrite Hprune. cbn [negb].
  rewrite ranking_ok by done. cbn [rbind].
  assert (Forall (fun r => not_nan (RankedIndividual.fitness r)) (ranking p)) as Hrn.
  { rewrite <- (ranking_scores p Hl) in Hnan. by rewrite Forall_map in Hnan. }
  pose proof (rankedBefore_swo _ Hrn) as Hswo. pose proof (std_sort_perm _ _ _ Hswo) as Hperm.
  pose proof (std_sort_sorted _ _ _ Hswo) as Hsorted. set (ranked := std_sort rankedBefore (ranking p)) in *.
  assert (length ranked = length (Population.population p)) as Hlr by (rewrite Hperm; by apply ranking_length).
  assert (0 < length (Population.population p))%nat by (destruct (Population.population p); [done | cbn; lia]).
  rewrite wrap_s_small by lia. rewrite Hlr. set (keep := Z.min n _).
  apply wp_bind, wp_assert; [lia |]. apply wp_bind.
  eapply wp_mono; [apply survivorPositions_ok; lia |]. intros positions (elites & He & -> & Hnd).
  apply wp_bind. eapply wp_mono; [apply survivors_collected; eapply chosen_ok; [exact He | intros E0; rewrite E0 in Hlr; cbn in Hlr; lia] |].
  intros survivors Hs. apply wp_ok. exists survivors. split; [| unfold survived; by rewrite Hprune]. split; [| by exists ranked, elites].
  rewrite <- (Forall2_length _ _ _ Hs). eapply chosen_length; [exact He | lia].
Qed.

Lemma head_fittest ranked best r :
  StronglySorted (fun a b => rankedBefore b a = false) ranked -> head ranked = Some best -> r ∈ ranked ->
  not_nan (RankedIndividual.fitness best) -> not_nan (RankedIndividual.fitness r) ->
  fle (RankedIndividual.fitness r) (RankedIndividual.fitness best) = true.
Proof.
  intros Hs. inversion Hs as [| x l Hl Hx]; subst; [done |]. intros [= ->] Hr Hb Hn.
  apply elem_of_cons in Hr as [-> | Hr]; [by apply fle_refl |]. rewrite Forall_forall in Hx. specialize (Hx r Hr).
  apply not_true_iff_false in Hx. rewrite rankedBefore_lex, <- !flt_key in Hx by done.
  apply not_flt_fle; [done | done |]. apply not_true_iff_false. intuition.
Qed.

(** The best survivor comes first. *)
Lemma selection_best config keep p survivors :
  selection config keep p survivors -> length (Population.population p) = length (Population.fitnessScores p) ->
  Forall not_nan (Population.fitnessScores p) ->
  exists best, head survivors = Some best /\ best ∈ ranking p /\
    forall f, f ∈ Population.fitnessScores p -> fle f (RankedIndividual.fitness best) = true.
Proof.
  intros [_ (ranked & elites & Hperm & Hsort & He & Hnd & Hs)] Hl Hnan. unfold chosen in Hs.
  apply Forall2_cons_inv_l in Hs as (best & rest & Hbest & _ & ->). change (Z.to_nat 0) with 0%nat in Hbest.
  exists best. split; [done |]. assert (best ∈ ranking p) as Hin by (rewrite <- Hperm; by eapply list_elem_of_lookup_2).
  split; [done |]. rewrite <- (ranking_scores p Hl) in Hnan |- *. rewrite Forall_map, Forall_forall in Hnan.
  intros f (r & -> & Hr)%list_elem_of_fmap. apply (head_fittest ranked); try by auto.
  - by destruct ranked; [done | injection Hbest as ->].
  - by rewrite Hperm.
Qed.

(** C11. The pruning before breeding keeps [min(n, size)] of the evaluated
    individuals, each at most once, as elites: the fittest first (no score is
    higher than its), then the diversity elites, then the best ranked of the rest.
    The diversity elites are chosen one after the other among the individuals that
    have a genome and are near the best fitness, as many as [diversityEliteCount]
    and the places allow, as long as one can be compared with the best individual or
    an elite: each time the one whose nearest of these is the farthest, by the
    root of the mean square of the differences of the weights - none left is
    farther by more than [1e-12], and those before it in the ranking are nearer.
    Ranked means: by fitness, offspring first among equals, then in the order of
    the population. *)
Theorem survivors_selected (n : Z) (s : t (R := R) (A := A) (E := E) (SC := SC) (Snapshot := Snapshot)) :
  let p := pop s in
  let keep := Z.min n (Z.of_nat (length (Population.population p))) in
  Population.pruneBeforeBreeding_ p = true -> 0 < n -> Population.population p <> [] ->
  length (Population.population p) = length (Population.fitnessScores p) ->
  Z.of_nat (length (Population.population p)) < 2 ^ 31 -> Forall not_nan (Population.fitnessScores p) ->
  exists survivors ranked elites best,
    pruneToSurvivors n s = Ok (set_pop (survived survivors p) s) /\
    ranked ≡ₚ ranking p /\ StronglySorted (fun a b => ~ outranks b a) ranked /\
    elites_of (config s) keep ranked elites /\ NoDup (chosen keep ranked elites) /\
    Z.of_nat (length survivors) = keep /\
    Forall2 (fun i r => ranked !! Z.to_nat i = Some r) (chosen keep ranked elites) survivors /\
    head survivors = Some best /\
    forall f, f ∈ Population.fitnessScores p -> fle f (RankedIndividual.fitness best) = true.
Proof.
  intros p keep Hp Hn Hne Hl Hb Hnan. pose proof (pruneToSurvivors_ok n s Hp Hn Hne Hl Hb Hnan) as H.
  apply wp_elim in H as (s' & Es & survivors & Hsel & ->).
  destruct (selection_best _ _ _ _ Hsel Hl Hnan) as (best & Hhead & _ & Hbest).
  destruct Hsel as [Hc (ranked & elites & H1 & H2 & H3 & H4 & H5)]. exists survivors, ranked, elites, best.
  split; [done |]. split; [done |]. split; [| done].
  assert (Forall (fun r => not_nan (RankedIndividual.fitness r)) ranked) as Hrn
    by (rewrite H1; rewrite <- (ranking_scores p Hl), Forall_map in Hnan; done).
  clear -H2 Hrn. induction H2 as [| a l _ IH HF]; [constructor |]. apply Forall_cons in Hrn as [Ha Hrn].
  constructor; [by apply IH |]. rewrite Forall_forall in HF, Hrn |- *. intros b Hin. rewrite <- rankedBefore_outranks by auto.
  by rewrite HF.
Qed.
End Survivors.
