(* ===== verification/EvolutionBreeding.v ===== *)
(** How the next generation is bred: the tournament chooses a parent among the
    survivors, the parent's genome is mutated as the training's phase demands.

    The breeding never faults, gives the asked number of offspring, each a child
    of a survivor, and an offspring is called a clone just if its genome is its
    parent's. *)

From Stdlib Require Import ZArith Lia Bool String.
From Stdlib Require Import SpecFloat.
From stdpp Require Import base gmap option numbers list sorting strings pretty.
From S2P Require Import Prelude Ieee IeeeRound StdModel Uuid Genomes Training TrainingFacts Mutation MutationFacts.
From S2P Require Import EvaluationTypes.
From S2P Require Import EvolutionTypes Evolution EvolutionScores.
Import Evolution.

Set Default Goal Selector "!".

(** ** The budgets stay in the range of [int] *)
Definition budgets_ok (m : MutationConfig.t) : Prop :=
  int_range (MutationConfig.perturbationsPerOffspring m) /\ int_range (MutationConfig.resetsPerOffspring m).

Lemma adaptiveMutationResolve_ok b status previous config control :
  budgets_ok b -> budgets_ok (EffectiveAdaptiveMutation.mutationConfig previous) ->
  int_range (TrainingPhaseStatus.recoveryLevel status) -> EvolutionConfig.recoveryWindowGenerations config < 2 ^ 31 ->
  wp (AdaptiveMutation.adaptiveMutationResolve b status previous config control)
     (fun effective => budgets_ok (EffectiveAdaptiveMutation.mutationConfig effective)).
Proof.
  intros [Hp Hr] [Hp' Hr'] Hl Hw. destruct scales as (S3 & S4 & S5 & S8).
  assert (forall k inc v, 0 <= inc -> int_range v -> int_range (raised k inc v)) as Hraised
    by (unfold int_range, raised; intros; lia).
  unfold AdaptiveMutation.adaptiveMutationResolve. destruct (AdaptiveMutation.adaptiveMutationPhaseResolve _ _).
  - by apply wp_ok.
  - rewrite (scaledBudgetResolve_ok 3), (scaledBudgetResolve_ok 4) by done. cbn [rbind].
    apply wp_ok. split; cbn; rewrite clamp_raised by done; by apply Hraised.
  - rewrite (scaledBudgetResolve_ok 5), (scaledBudgetResolve_ok 8) by done. cbn [rbind].
    apply wp_ok. split; cbn; rewrite clamp_raised by done; by apply Hraised.
  - apply wp_bind. eapply wp_mono; [apply recoveryBudgetResolve_ok; done |]. intros p [Hpb _].
    apply wp_bind. eapply wp_mono; [apply recoveryBudgetResolve_ok; done |]. intros r [Hrb _].
    unfold AdaptiveMutation.recoverySigmaResolve. rewrite int_result_ok by (unfold int_range in Hl; lia). cbn [rbind].
    unfold int_range in *. destruct (_ || _); cbn [rbind]; apply wp_ok; split; cbn; unfold int_range; lia.
Qed.

(** ** A mutated genome *)
Section Mutate.
Context {R D : Type} `{RE : !RandomEngine R, RL : !RandomLaws R, ND : !NormalDistribution R D,
    SH : !Shuffle R, HL : !ShuffleLaws R, UW : !UnorderedWalk, UL : !UnorderedWalkLaws, SS : !StdSort, SL : !StdSortLaws}.

Record layout_of (layout : GenomeLayout.t) (g : Genome.t) : Prop := {
  lo_wf : layout_wf layout;
  lo_segments : GenomeLayout.segments layout <> [];
  lo_total : zsum (sizes layout) = Z.of_nat (length (Genome.weights g))
}.

Lemma mutate_ok parent config layout (rng : R) :
  layout_of layout parent ->
  wp (Mutation.mutate parent config layout rng) (fun '(child, _, stats) =>
    length (Genome.weights child) = length (Genome.weights parent) /\
    0 <= MutationStats.perturbations stats /\ 0 <= MutationStats.resets stats /\
    MutationStats.perturbations stats + MutationStats.resets stats <= Z.of_nat (length (Genome.weights parent)) /\
    (MutationStats.perturbations stats + MutationStats.resets stats <= 0 -> child = parent)).
Proof.
  intros [Hwf Hne Hsum]. eapply wp_mono; [by apply mutate_mutates |].
  intros [[child rng'] stats] (reset & perturbed & budgets & Hm).
  destruct (mutation_few _ _ _ _ _ _ _ _ _ _ Hwf Hm) as [Hfew Hsame]. destruct Hm as [(_ & Hr & Hrs) _ _ _ _ Hl _].
  split; [done |]. split; [lia |]. split; [lia |]. split; [lia |].
  intros H0. destruct child as [weights'], parent as [weights]. f_equal. by apply Hsame.
Qed.
End Mutate.

(** ** The tournament *)
Section Tournament.
Context {R : Type} `{RE : !RandomEngine R, RL : !RandomLaws R}.

(** The next [n] of [count] individuals the engine draws, and the engine after. *)
Fixpoint draws (n : nat) (count : Z) (rng : R) : list Z * R :=
  match n with
  | O => ([], rng)
  | S n => let '(i, rng) := uniform_int 0 (count - 1) rng in let '(drawn, rng) := draws n count rng in (i :: drawn, rng)
  end.

(** [i] is the first of the fittest of the individuals drawn: fitter than any
    drawn before it, and none drawn after it is fitter. *)
Definition champion (fitness : list f64) (drawn : list Z) (i : Z) : Prop := exists before after f,
  drawn = before ++ i :: after /\ fitness !! Z.to_nat i = Some f /\
  (forall j, j ∈ before -> exists g, fitness !! Z.to_nat j = Some g /\ flt g f = true) /\
  (forall j, j ∈ after -> exists g, fitness !! Z.to_nat j = Some g /\ flt f g = false).

Lemma champion_step fitness drawn best f idx g :
  Forall not_nan fitness -> champion fitness drawn best ->
  fitness !! Z.to_nat best = Some f -> fitness !! Z.to_nat idx = Some g ->
  champion fitness (drawn ++ [idx]) (if fgt g f then idx else best).
Proof.
  intros Hnan (before & after & f' & -> & Hf & Hb & Ha) Hf' Hg. assert (f' = f) as -> by congruence. rewrite Forall_lookup in Hnan.
  destruct (fgt g f) eqn:E; unfold fgt in E.
  - exists (before ++ best :: after), [], g. split; [done |]. split; [done |]. split; [| by intros j Hj%elem_of_nil].
    intros j [Hj | [-> | Hj]%elem_of_cons]%elem_of_app; [| by exists f |].
    + destruct (Hb j Hj) as (h & Hh & Hlt). exists h. split; [done |]. by eapply flt_trans.
    + destruct (Ha j Hj) as (h & Hh & Hlt). exists h. split; [done |]. apply not_false_iff_true. intros Hhg.
      apply not_true_iff_false in Hlt. apply not_false_iff_true in E. apply E. apply not_true_iff_false in Hlt.
      by eapply (not_flt_trans f h g); eauto.
  - exists before, (after ++ [idx]), f. split; [by rewrite <- app_assoc |]. split; [done |]. split; [done |].
    intros j [Hj | ->%list_elem_of_singleton]%elem_of_app; [by apply Ha | by exists g].
Qed.

Lemma tournament_loop_ok n fitness drawn best bestFitness (rng : R) :
  0 < Z.of_nat (length fitness) < 2 ^ 31 -> Forall not_nan fitness ->
  champion fitness drawn best -> fitness !! Z.to_nat best = Some bestFitness ->
  wp (tournament_loop n fitness best bestFitness rng) (fun '(winner, rng') => exists drawn',
    draws n (Z.of_nat (length fitness)) rng = (drawn', rng') /\ champion fitness (drawn ++ drawn') winner).
Proof.
  intros Hl Hnan. revert drawn best bestFitness rng.
  induction n as [| n IH]; intros drawn best bestFitness rng Hw Hb; cbn [tournament_loop draws].
  { apply wp_ok. exists []. by rewrite app_nil_r. }
  rewrite wrap_s_small by lia. pose proof (uniform_range 0 (Z.of_nat (length fitness) - 1) rng ltac:(lia)) as Hu.
  destruct (uniform_int 0 _ rng) as [idx rng']. cbn [fst] in Hu.
  apply wp_bind, wp_vec_get; [lia |]. intros f Hf.
  pose proof (champion_step _ _ _ _ _ _ Hnan Hw Hb Hf) as Hstep.
  assert (forall winner rng'' drawn', draws n (Z.of_nat (length fitness)) rng' = (drawn', rng'') /\ champion fitness ((drawn ++ [idx]) ++ drawn') winner ->
    exists drawn'', (let '(drawn', rng'') := draws n (Z.of_nat (length fitness)) rng' in (idx :: drawn', rng'')) = (drawn'', rng'') /\
      champion fitness (drawn ++ drawn'') winner) as Hnext.
  { intros winner rng'' drawn' [-> H]. exists (idx :: drawn'). split; [done |]. by rewrite <- app_assoc in H. }
  destruct (fgt f bestFitness); (eapply wp_mono; [by apply (IH (drawn ++ [idx])) |]);
    intros [winner rng''] (drawn' & H); by eapply Hnext.
Qed.

Lemma tournament_loop_range n fitness best bestFitness (rng : R) :
  0 < Z.of_nat (length fitness) < 2 ^ 31 -> 0 <= best < Z.of_nat (length fitness) ->
  wp (tournament_loop n fitness best bestFitness rng) (fun '(winner, _) => 0 <= winner < Z.of_nat (length fitness)).
Proof.
  intros Hl. revert best bestFitness rng. induction n as [| n IH]; intros best bestFitness rng Hb; cbn [tournament_loop]; [by apply wp_ok |].
  rewrite wrap_s_small by lia. pose proof (uniform_range 0 (Z.of_nat (length fitness) - 1) rng ltac:(lia)) as Hu.
  destruct (uniform_int 0 _ rng) as [idx rng']. cbn [fst] in Hu.
  apply wp_bind, wp_vec_get; [lia |]. intros f _. destruct (fgt f bestFitness); apply IH; lia.
Qed.

Lemma tournamentSelectIndex_ok fitness size (rng : R) :
  0 < Z.of_nat (length fitness) < 2 ^ 31 -> Forall not_nan fitness -> 0 < size ->
  wp (tournamentSelectIndex fitness size rng) (fun '(winner, rng') => 0 <= winner < Z.of_nat (length fitness) /\ exists drawn,
    draws (Z.to_nat size) (Z.of_nat (length fitness)) rng = (drawn, rng') /\ champion fitness drawn winner).
Proof.
  intros Hl Hnan Hs. unfold tournamentSelectIndex.
  apply wp_bind, wp_assert; [rewrite bool_decide_false by lia; done |]. apply wp_bind, wp_assert; [lia |].
  replace (Z.to_nat size) with (S (Z.to_nat (size - 1))) by lia. cbn [draws].
  rewrite wrap_s_small by lia. pose proof (uniform_range 0 (Z.of_nat (length fitness) - 1) rng ltac:(lia)) as Hu.
  destruct (uniform_int 0 _ rng) as [idx rng']. cbn [fst] in Hu.
  apply wp_bind, wp_vec_get; [lia |]. intros f Hf.
  eapply wp_mono; [apply wp_conj; [apply (tournament_loop_range _ _ idx); done || lia | apply (tournament_loop_ok _ _ [idx]); try done] |].
  - exists [], [], f. split; [done |]. split; [done |]. split; by intros j Hj%elem_of_nil.
  - intros [winner rng''] [Hr (drawn & -> & Hw)]. split; [done |]. by exists (idx :: drawn).
Qed.
End Tournament.

(** ** The brood *)
Record child_of (parent : Individual.t) (fitness : f64) (origin : IndividualOrigin) (child : Individual.t) : Prop := {
  ch_kind : Individual.brainKind child = Individual.brainKind parent;
  ch_variant : Individual.brainVariant child = Individual.brainVariant parent;
  ch_scenario : Individual.scenarioId child = Individual.scenarioId parent;
  ch_allows : Individual.allowsMutation child = Individual.allowsMutation parent;
  ch_fitness : Individual.parentFitness child = Some fitness;
  ch_shape : length <$> (Genome.weights <$> Individual.genome child) = length <$> (Genome.weights <$> Individual.genome parent);
  ch_origin : (origin = OffspringMutated /\ Individual.genome parent <> None /\ Individual.allowsMutation parent = true) \/
              (origin = OffspringClone /\ Individual.genome child = Individual.genome parent)
}.

Section Breeding.
Context {R D A E SC Snapshot : Type} `{RE : !RandomEngine R, RL : !RandomLaws R, ND : !NormalDistribution R D,
    SH : !Shuffle R, HL : !ShuffleLaws R, UW : !UnorderedWalk, UL : !UnorderedWalkLaws, SS : !StdSort, SL : !StdSortLaws}.
Context (brainRegistry_ : TrainingBrainRegistry R) (organism : OrganismType) (W : Z).

(** An individual that may be mutated has a layout of at most [W] weights. *)
Definition breedable (i : Individual.t) : Prop :=
  forall g, Individual.genome i = Some g -> Individual.allowsMutation i = true ->
  exists entry layout,
    brainRegistry_ organism (Individual.brainKind i) (default EmptyString (Individual.brainVariant i)) = Some entry /\
    BrainRegistryEntry.getGenomeLayout entry = Some layout /\ layout_of layout g /\
    Z.of_nat (length (Genome.weights g)) <= W.

Lemma child_breedable parent f origin child : child_of parent f origin child -> breedable parent -> breedable child.
Proof.
  intros [Hk Hv _ Ha _ Hs _] Hp g Hg Hm. rewrite Hg in Hs. cbn in Hs.
  destruct (Individual.genome parent) as [g0 |] eqn:Eg; [| done]. injection Hs as Hs.
  destruct (Hp g0 Eg ltac:(congruence)) as (entry & layout & He & Hl & [? ? ?] & Hw). exists entry, layout.
  rewrite Hk, Hv, Hs. split; [done |]. split; [done |]. split; [by split; rewrite ?Hs | done].
Qed.

(** A child of an individual of [q]. *)
Definition bred_from (q : Population.t) (child : Individual.t) (origin : IndividualOrigin) : Prop :=
  exists i parent f, Population.population q !! Z.to_nat i = Some parent /\
    Population.fitnessScores q !! Z.to_nat i = Some f /\ child_of parent f origin child.

(** What a parent of fitness [f] begets with the engine [rng]: a copy that
    remembers [f]; if it has a genome and allows mutation, with its genome mutated
    as its layout says. It is called mutated just if weights were changed. *)
Inductive begets (effective : MutationConfig.t) (parent : Individual.t) (f : f64) (rng : R)
    : Individual.t -> IndividualOrigin -> R -> Prop :=
  | begets_copy :
      Individual.genome parent = None \/ Individual.allowsMutation parent = false ->
      begets effective parent f rng (Individual.set_parentFitness (Some f) parent) OffspringClone rng
  | begets_mutant g entry layout mutated stats rng' :
      Individual.genome parent = Some g -> Individual.allowsMutation parent = true ->
      brainRegistry_ organism (Individual.brainKind parent) (default EmptyString (Individual.brainVariant parent)) = Some entry ->
      BrainRegistryEntry.getGenomeLayout entry = Some layout ->
      Mutation.mutate g effective layout rng = Ok (mutated, rng', stats) ->
      begets effective parent f rng (Individual.set_genome (Some mutated) (Individual.set_parentFitness (Some f) parent))
        (if 0 <? MutationStats.perturbations stats + MutationStats.resets stats then OffspringMutated else OffspringClone) rng'.

(** The brood bred from [q], one child after the other, from the engine [rng] to
    the engine [rng']: each time [size] individuals are drawn, and the first of the
    fittest of them begets. *)
Inductive litter (effective : MutationConfig.t) (q : Population.t) (size : Z) (rng : R)
    : list Individual.t -> list IndividualOrigin -> R -> Prop :=
  | litter_none : litter effective q size rng [] [] rng
  | litter_more children origins rng0 drawn rng1 i parent f child origin rng2 :
      litter effective q size rng children origins rng0 ->
      draws (Z.to_nat size) (Z.of_nat (length (Population.population q))) rng0 = (drawn, rng1) ->
      champion (Population.fitnessScores q) drawn i ->
      Population.population q !! Z.to_nat i = Some parent -> Population.fitnessScores q !! Z.to_nat i = Some f ->
      begets effective parent f rng1 child origin rng2 ->
      litter effective q size rng (children ++ [child]) (origins ++ [origin]) rng2.

(** One child for each turn of the loop. *)
Record brood_ok (effective : MutationConfig.t) (p : Population.t) (size : Z) (rng0 : R) (k : nat) (b : Brood (R := R)) : Prop := {
  bo_count : length (offspring b) = k;
  bo_children : Forall2 (bred_from p) (offspring b) (offspringOrigins b);
  bo_litter : litter effective p size rng0 (offspring b) (offspringOrigins b) (brood_rng b);
  bo_totals : 0 <= perturbationsTotal b /\ 0 <= resetsTotal b /\ perturbationsTotal b + resetsTotal b <= Z.of_nat k * W
}.

Record breeding_ok (p : Population.t) : Prop := {
  br_some : 0 < Z.of_nat (length (Population.population p)) < 2 ^ 31;
  br_scored : length (Population.fitnessScores p) = length (Population.population p);
  br_scores : Forall not_nan (Population.fitnessScores p);
  br_breedable : Forall breedable (Population.population p)
}.

Lemma brood_snoc effective p size rng0 k b rng1 i drawn parent f child origin perturbations resets lo hi rng changes :
  brood_ok effective p size rng0 k b ->
  draws (Z.to_nat size) (Z.of_nat (length (Population.population p))) (brood_rng b) = (drawn, rng1) ->
  champion (Population.fitnessScores p) drawn i ->
  Population.population p !! Z.to_nat i = Some parent -> Population.fitnessScores p !! Z.to_nat i = Some f ->
  begets effective parent f rng1 child origin rng -> child_of parent f origin child ->
  perturbationsTotal b <= perturbations -> resetsTotal b <= resets ->
  perturbations + resets = perturbationsTotal b + resetsTotal b + changes -> changes <= W ->
  brood_ok effective p size rng0 (S k) (mkBrood (offspring b ++ [child]) (offspringOrigins b ++ [origin]) perturbations resets lo hi rng).
Proof.
  intros [Hc Hch Hlit Ht] Hd Hw Hp Hf Hb Hof H1 H2 H3 H4. split; cbn.
  - rewrite length_app, Hc. cbn. lia.
  - apply Forall2_app; [done |]. constructor; [by exists i, parent, f | done].
  - by eapply litter_more.
  - nia.
Qed.

Lemma breedOne_ok training size effective p rng0 k b :
  TrainingSpec.organismType training = organism -> 0 < size -> breeding_ok p -> 0 <= W -> Z.of_nat (S k) * W < 2 ^ 31 ->
  brood_ok effective p size rng0 k b -> wp (breedOne brainRegistry_ training size effective p b) (brood_ok effective p size rng0 (S k)).
Proof.
  intros Ho Hsize [Hs Hl Hn Hb] HW0 HW Hok. unfold breedOne. apply wp_bind.
  eapply wp_mono; [apply tournamentSelectIndex_ok; [rewrite Hl; lia | done | done] |].
  intros [idx rng] (Hr & drawn & Hdrawn & Hwins). rewrite Hl in Hr, Hdrawn.
  apply wp_bind, wp_vec_get; [lia |]. intros parent Hp. apply wp_bind, wp_vec_get; [lia |]. intros f Hf.
  rewrite Forall_lookup in Hb. pose proof (Hb _ _ Hp) as Hbp. pose proof Hok as [_ _ _ (Ht1 & Ht2 & Ht3)].
  pose proof (fun child origin perturbations resets lo hi rng' changes =>
    brood_snoc _ _ _ _ _ _ _ _ _ _ _ child origin perturbations resets lo hi rng' changes Hok Hdrawn Hwins Hp Hf) as Hsnoc.
  destruct (Individual.genome parent) as [g |] eqn:Eg; cbn [rbind negb].
  2: { apply wp_ok. apply (Hsnoc _ _ _ _ _ _ _ 0); try lia; [constructor; by left | split; try done; by right]. }
  destruct (Individual.allowsMutation parent) eqn:Ea; cbn [rbind negb].
  2: { apply wp_ok. apply (Hsnoc _ _ _ _ _ _ _ 0); try lia; [constructor; by right | split; try done; by right]. }
  destruct (Hbp g Eg Ea) as (entry & layout & He & Hlay & Hlo & Hw).
  unfold mutateChild. rewrite Ho, He, Hlay.
  pose proof (mutate_ok g effective layout rng Hlo) as Hm. apply wp_elim in Hm as ([[mutated rng'] stats] & Em & Hlen & H1 & H2 & H3 & Hsame).
  rewrite Em. cbn [rbind]. unfold MutationStats.totalChanges.
  assert (Z.of_nat k * W + W < 2 ^ 31) by lia. rewrite !int_result_ok by lia. cbn [rbind].
  apply wp_ok. apply (Hsnoc _ _ _ _ _ _ _ (MutationStats.perturbations stats + MutationStats.resets stats)); try lia.
  - by eapply begets_mutant.
  - split; try done; [by cbn; rewrite Eg; cbn; rewrite Hlen |].
    destruct (Z.ltb_spec 0 (MutationStats.perturbations stats + MutationStats.resets stats)); [left; by rewrite Eg, Ea |].
    right. split; [done |]. cbn. by rewrite Eg, Hsame by lia.
Qed.

Lemma breed_loop_ok n training size effective p rng0 k b :
  TrainingSpec.organismType training = organism -> 0 < size -> breeding_ok p -> 0 <= W -> Z.of_nat (k + n) * W < 2 ^ 31 ->
  brood_ok effective p size rng0 k b ->
  wp (breed_loop brainRegistry_ n training size effective p b) (brood_ok effective p size rng0 (k + n)).
Proof.
  intros Ho Hs Hp HW0. revert k b. induction n as [| n IH]; intros k b HW Hb; cbn [breed_loop].
  - apply wp_ok. by rewrite Nat.add_0_r.
  - apply wp_bind. eapply wp_mono; [apply (breedOne_ok _ _ _ _ rng0 k); try done; nia |]. intros b' Hb'.
    rewrite <- Nat.add_succ_comm. apply IH; [| done]. by rewrite Nat.add_succ_comm.
Qed.

(** ** The whole step *)

(** [n] children of the individuals of [q], each under its origin, bred by
    tournaments of [size]. *)
Record brood_of (q : Population.t) (size n : Z) (children : list Individual.t) (origins : list IndividualOrigin) : Prop := {
  brood_count : Z.of_nat (length children) = n;
  brood_parents : Forall2 (bred_from q) children origins;
  brood_litter : exists effective rng rng', litter effective q size rng children origins rng'
}.

(** The mutation a generation is bred with. *)
Definition bredWith (s : t (R := R) (A := A) (E := E) (SC := SC) (Snapshot := Snapshot)) : res EffectiveAdaptiveMutation.t :=
  AdaptiveMutation.adaptiveMutationResolve (Settings.mutationConfig (settings s))
    (TrainingPhaseTracker.status_ (trainingPhaseTracker_ s)) (lastEffectiveAdaptiveMutation_ s)
    (config s) (Settings.mutationControlMode_ (settings s)).

Lemma breed_ok n (s : t (R := R) (A := A) (E := E) (SC := SC) (Snapshot := Snapshot)) :
  TrainingSpec.organismType (Settings.trainingSpec (settings s)) = organism -> 0 < n ->
  0 < EvolutionConfig.tournamentSize (config s) -> EvolutionConfig.recoveryWindowGenerations (config s) < 2 ^ 31 ->
  breeding_ok (pop s) -> 0 <= W -> n * W < 2 ^ 31 ->
  budgets_ok (Settings.mutationConfig (settings s)) ->
  budgets_ok (EffectiveAdaptiveMutation.mutationConfig (lastEffectiveAdaptiveMutation_ s)) ->
  int_range (TrainingPhaseStatus.recoveryLevel (TrainingPhaseTracker.status_ (trainingPhaseTracker_ s))) ->
  wp (breed brainRegistry_ n s) (fun s' => exists children origins effective st rng',
    bredWith s = Ok effective /\
    litter (EffectiveAdaptiveMutation.mutationConfig effective) (pop s) (EvolutionConfig.tournamentSize (config s)) (rng s) children origins rng' /\
    brood_of (pop s) (EvolutionConfig.tournamentSize (config s)) n children origins /\ budgets_ok (EffectiveAdaptiveMutation.mutationConfig effective) /\
    Statistics.generationTelemetry_ st = Statistics.generationTelemetry_ (statistics s) /\
    s' = set_pop (Population.mk (Population.population (pop s) ++ children) (Population.populationOrigins (pop s) ++ origins)
                    (Population.fitnessScores (pop s)) (Population.wingUpSecondsPerIndividual (pop s)) true)
           (set_statistics st (set_rng rng' (set_lastEffectiveAdaptiveMutation_ effective s)))).
Proof.
  intros Ho Hn Ht Hrw Hq HW0 HW Hbud Heff Hrec. pose proof Hq as [Hb Hsc _ _]. unfold breed.
  apply wp_bind, wp_assert; [by rewrite bool_decide_false by lia |].
  apply wp_bind, wp_assert; [by rewrite bool_decide_true by done |].
  assert (wp (bredWith s) (fun effective => budgets_ok (EffectiveAdaptiveMutation.mutationConfig effective))) as Hres
    by (apply adaptiveMutationResolve_ok; [exact Hbud | exact Heff | exact Hrec | exact Hrw]).
  apply wp_elim in Hres as (effective & Eeff & Heffective). unfold bredWith in Eeff |- *. rewrite Eeff. cbn [rbind]. apply wp_bind.
  eapply wp_mono; [apply (breed_loop_ok _ _ _ _ (pop s) (rng s) 0); [exact Ho | exact Ht | done | exact HW0 | | split; cbn; [done | constructor | constructor | lia]] |].
  { rewrite Nat.add_0_l, Z2Nat.id by lia. done. }
  intros b [Hc Hch Hlit (H1 & H2 & H3)]. rewrite Nat.add_0_l, Z2Nat.id in H3 by lia.
  rewrite int_result_ok by lia. cbn [rbind]. apply wp_ok. exists (offspring b), (offspringOrigins b), effective.
  eexists _, _. split; [done |]. split; [exact Hlit |].
  split; [split; [rewrite Hc; lia | done | by eexists _, _, _] |]. split; [done |].
  split; [| rewrite bool_decide_false by (rewrite Hc; lia); reflexivity]. done.
Qed.
End Breeding.

(** ** Theorem *)
Section BreedingTheorem.
Context {R D A E SC Snapshot : Type} `{RE : !RandomEngine R, RL : !RandomLaws R, ND : !NormalDistribution R D,
    SH : !Shuffle R, HL : !ShuffleLaws R, UW : !UnorderedWalk, UL : !UnorderedWalkLaws, SS : !StdSort, SL : !StdSortLaws}.

(** C15. Breeding adds [n] offspring to the survivors, without a fault. The engine is
    used for one child after the other: it draws [tournamentSize] survivors, the
    first of the fittest of them is the parent, and its genome, if it has one and
    allows mutation, is mutated with the configuration of the training's phase and
    the layout of its brain, from where the engine stands then. The child remembers its parent's
    fitness and keeps its parent's brain, scenario and number of weights; it is called mutated exactly
    when the mutation changed weights, and otherwise a clone, with its parent's genome. *)
Theorem offspring_bred (brainRegistry_ : TrainingBrainRegistry R) (W n : Z)
    (s : t (R := R) (A := A) (E := E) (SC := SC) (Snapshot := Snapshot)) :
  let organism := TrainingSpec.organismType (Settings.trainingSpec (settings s)) in
  0 < n -> 0 <= W -> n * W < 2 ^ 31 ->
  0 < EvolutionConfig.tournamentSize (config s) -> EvolutionConfig.recoveryWindowGenerations (config s) < 2 ^ 31 ->
  breeding_ok brainRegistry_ organism W (pop s) ->
  budgets_ok (Settings.mutationConfig (settings s)) ->
  budgets_ok (EffectiveAdaptiveMutation.mutationConfig (lastEffectiveAdaptiveMutation_ s)) ->
  int_range (TrainingPhaseStatus.recoveryLevel (TrainingPhaseTracker.status_ (trainingPhaseTracker_ s))) ->
  exists s' children origins effective, breed brainRegistry_ n s = Ok s' /\ bredWith s = Ok effective /\
    lastEffectiveAdaptiveMutation_ s' = effective /\
    Population.population (pop s') = Population.population (pop s) ++ children /\
    Population.populationOrigins (pop s') = Population.populationOrigins (pop s) ++ origins /\
    Z.of_nat (length children) = n /\
    litter brainRegistry_ organism (EffectiveAdaptiveMutation.mutationConfig effective) (pop s)
      (EvolutionConfig.tournamentSize (config s)) (rng s) children origins (rng s') /\
    Forall2 (bred_from (pop s)) children origins.
Proof.
  intros organism Hn HW0 HW Ht Hrw Hq Hb He Hr.
  pose proof (breed_ok brainRegistry_ organism W n s eq_refl Hn Ht Hrw Hq HW0 HW Hb He Hr) as H.
  apply wp_elim in H as (s' & Es & children & origins & effective & st & rng' & Eeff & Hlit & [Hl Hc _] & _ & _ & ->).
  eexists _, children, origins, effective. split; [exact Es |]. done.
Qed.
End BreedingTheorem.
