(* ===== verification/BrainGenomes.v ===== *)
(** The genomes of the brains that learn, and the registry of all brains:
    [NeuralNetBrain], [DuckNeuralNetRecurrentBrainV2] ([core/organisms/brains/]),
    [NesTileRecurrentBrain] ([core/scenarios/nes/]) and [TrainingBrainRegistry]
    ([core/organisms/evolution/]).

    Of a brain, the numbers of its weights, its random genomes and the layout of its
    genomes; what it computes from its senses is not modelled. Every brain of the
    registry that learns makes genomes that it accepts, and its layout covers just
    the genomes it accepts. *)

From Stdlib Require Import ZArith Lia Bool String.
From Stdlib Require Import SpecFloat.
From stdpp Require Import base gmap option numbers list strings fin_maps.
From S2P Require Import Prelude Ieee StdModel Genomes Mutation MutationFacts.
From S2P Require Import EvolutionTypes EvolutionBreeding.

Set Default Goal Selector "!".

#[global] Instance OrganismType_countable : Countable OrganismType.
Proof.
  apply (inj_countable OrganismType_to_Z (fun z => if z =? 0 then Some DUCK else if z =? 1 then Some GOOSE
    else if z =? 2 then Some TREE else Some NES_DUCK)). by intros [].
Defined.

Section Draws.
Context {R D : Type} `{ND : !NormalDistribution R D, UR : !UniformReal R}.

(** [n] weights drawn from a normal distribution. *)
Fixpoint normals (n : nat) (dist : D) (rng : R) : list Z * R :=
  match n with
  | O => ([], rng)
  | S n =>
      let '(x, (dist, rng)) := normal_draw dist rng in
      let '(rest, rng) := normals n dist rng in
      (bits_of_f32 x :: rest, rng)
  end.

(** [n] weights drawn uniformly from [-4, 4]. *)
Fixpoint alphaLogits (n : nat) (rng : R) : list Z * R :=
  match n with
  | O => ([], rng)
  | S n =>
      let '(x, rng) := uniform_real (f32_of_Z (-4)) (f32_of_Z 4) rng in
      let '(rest, rng) := alphaLogits n rng in
      (bits_of_f32 x :: rest, rng)
  end.

Lemma normals_length n dist (rng : R) : length (fst (normals n dist rng)) = n.
Proof.
  revert dist rng. induction n as [| n IH]; intros dist rng; [done |]. cbn [normals].
  destruct (normal_draw dist rng) as [x [dist' rng']]. specialize (IH dist' rng'). destruct (normals n dist' rng'). cbn in *. by rewrite IH.
Qed.

Lemma alphaLogits_length n (rng : R) : length (fst (alphaLogits n rng)) = n.
Proof.
  revert rng. induction n as [| n IH]; intros rng; [done |]. cbn [alphaLogits].
  destruct (uniform_real _ _ rng) as [x rng']. specialize (IH rng'). destruct (alphaLogits n rng'). cbn in *. by rewrite IH.
Qed.
End Draws.

(** [std::sqrt(2.0f / fan)]. *)
Definition stddevOf (fan : Z) : f32 := f32_sqrt (f32_div (f32_of_Z 2) (f32_of_Z fan)).

(** A normal distribution of mean zero. *)
Definition centered {R D} `{ND : !NormalDistribution R D} (stddev : f32) : D := normal fzero stddev.

(** The bits of [0.0f]. *)
Definition zeros (n : Z) : list Z := replicate (Z.to_nat n) 0.

Definition LEAKY_RELU_NEGATIVE_SLOPE_LOGIT_INIT : f32 := f64_to_f32 (f64_lit (-91629076) 100000000).

Module NeuralNetBrain.
Definition INPUT_SIZE : Z := 2488.
Definition HIDDEN_SIZE : Z := 48.
Definition NUM_CONTROL_ACTIONS : Z := 2.
Definition NUM_SPATIAL_ACTIONS : Z := 4.
Definition NUM_POSITIONS : Z := 225.
Definition OUTPUT_SIZE : Z := NUM_CONTROL_ACTIONS + NUM_SPATIAL_ACTIONS * NUM_POSITIONS.
Definition W_IH_SIZE : Z := INPUT_SIZE * HIDDEN_SIZE.
Definition B_H_SIZE : Z := HIDDEN_SIZE.
Definition W_HO_SIZE : Z := HIDDEN_SIZE * OUTPUT_SIZE.
Definition B_O_SIZE : Z := OUTPUT_SIZE.
Definition TOTAL_WEIGHTS : Z := W_IH_SIZE + B_H_SIZE + W_HO_SIZE + B_O_SIZE.

Section Brain.
Context {R D : Type} `{ND : !NormalDistribution R D}.

Definition randomGenome (rng : R) : res (Genome.t * R) :=
  let ihDist := centered (stddevOf (INPUT_SIZE + HIDDEN_SIZE)) in
  let hoDist := centered (stddevOf (HIDDEN_SIZE + OUTPUT_SIZE)) in
  let '(ih, rng) := normals (Z.to_nat W_IH_SIZE) ihDist rng in
  let '(ho, rng) := normals (Z.to_nat W_HO_SIZE) hoDist rng in
  let weights := ih ++ zeros B_H_SIZE ++ ho ++ zeros B_O_SIZE in
  dirtsim_assert (Z.of_nat (length weights) =? TOTAL_WEIGHTS) "NeuralNetBrain: Generated genome size mismatch" ;;!
  Ok (Genome.mk weights, rng).
End Brain.

Definition isGenomeCompatible (genome : Genome.t) : bool := Z.of_nat (length (Genome.weights genome)) =? TOTAL_WEIGHTS.

Definition getGenomeLayout : GenomeLayout.t :=
  GenomeLayout.mk [GenomeSegment.mk "w_ih" W_IH_SIZE; GenomeSegment.mk "b_h" B_H_SIZE; GenomeSegment.mk "w_ho" W_HO_SIZE;
                   GenomeSegment.mk "b_o" B_O_SIZE].
End NeuralNetBrain.

Module DuckNeuralNetRecurrentBrainV2.
Definition GRID_SIZE : Z := 21.
Definition NUM_MATERIALS : Z := 10.
Definition SPECIAL_SENSE_COUNT : Z := 32.
Definition INPUT_HISTOGRAM_SIZE : Z := GRID_SIZE * GRID_SIZE * NUM_MATERIALS.
Definition CONTROL_FEEDBACK_INPUT_SIZE : Z := 4.
Definition BODY_STATE_INPUT_SIZE : Z := 6.
Definition SCALAR_INPUT_SIZE : Z := BODY_STATE_INPUT_SIZE + CONTROL_FEEDBACK_INPUT_SIZE + SPECIAL_SENSE_COUNT + 2.
Definition INPUT_SIZE : Z := INPUT_HISTOGRAM_SIZE + SCALAR_INPUT_SIZE.
Definition H1_SIZE : Z := 64.
Definition H2_SIZE : Z := 32.
Definition OUTPUT_SIZE : Z := 4.
Definition W_XH1_SIZE : Z := INPUT_SIZE * H1_SIZE.
Definition W_H1H1_SIZE : Z := H1_SIZE * H1_SIZE.
Definition B_H1_SIZE : Z := H1_SIZE.
Definition ALPHA1_LOGIT_SIZE : Z := H1_SIZE.
Definition W_H1H2_SIZE : Z := H1_SIZE * H2_SIZE.
Definition W_H2H2_SIZE : Z := H2_SIZE * H2_SIZE.
Definition B_H2_SIZE : Z := H2_SIZE.
Definition ALPHA2_LOGIT_SIZE : Z := H2_SIZE.
Definition ACTIVATION_LEAK_LOGIT_SIZE : Z := 2.
Definition W_H2O_SIZE : Z := H2_SIZE * OUTPUT_SIZE.
Definition B_O_SIZE : Z := OUTPUT_SIZE.
Definition TOTAL_WEIGHTS : Z :=
  W_XH1_SIZE + W_H1H1_SIZE + B_H1_SIZE + ALPHA1_LOGIT_SIZE + W_H1H2_SIZE + W_H2H2_SIZE + B_H2_SIZE + ALPHA2_LOGIT_SIZE
  + ACTIVATION_LEAK_LOGIT_SIZE + W_H2O_SIZE + B_O_SIZE.

Section Brain.
Context {R D : Type} `{ND : !NormalDistribution R D, UR : !UniformReal R}.

Definition randomGenome (rng : R) : res (Genome.t * R) :=
  let '(xh1, rng) := normals (Z.to_nat W_XH1_SIZE) (centered (stddevOf (INPUT_SIZE + H1_SIZE))) rng in
  let '(h1h1, rng) := normals (Z.to_nat W_H1H1_SIZE) (centered (stddevOf (H1_SIZE + H1_SIZE))) rng in
  let '(alpha1, rng) := alphaLogits (Z.to_nat ALPHA1_LOGIT_SIZE) rng in
  let '(h1h2, rng) := normals (Z.to_nat W_H1H2_SIZE) (centered (stddevOf (H1_SIZE + H2_SIZE))) rng in
  let '(h2h2, rng) := normals (Z.to_nat W_H2H2_SIZE) (centered (stddevOf (H2_SIZE + H2_SIZE))) rng in
  let '(alpha2, rng) := alphaLogits (Z.to_nat ALPHA2_LOGIT_SIZE) rng in
  let '(h2o, rng) := normals (Z.to_nat W_H2O_SIZE) (centered (stddevOf (H2_SIZE + OUTPUT_SIZE))) rng in
  let leak := bits_of_f32 LEAKY_RELU_NEGATIVE_SLOPE_LOGIT_INIT in
  let weights := xh1 ++ h1h1 ++ zeros B_H1_SIZE ++ alpha1 ++ [leak] ++ h1h2 ++ h2h2 ++ zeros B_H2_SIZE ++ alpha2
                 ++ [leak] ++ h2o ++ zeros B_O_SIZE in
  dirtsim_assert (Z.of_nat (length weights) =? TOTAL_WEIGHTS)
    "DuckNeuralNetRecurrentBrainV2: Generated genome size mismatch" ;;!
  Ok (Genome.mk weights, rng).
End Brain.

Definition isGenomeCompatible (genome : Genome.t) : bool := Z.of_nat (length (Genome.weights genome)) =? TOTAL_WEIGHTS.

Definition getGenomeLayout : GenomeLayout.t :=
  GenomeLayout.mk [GenomeSegment.mk "input_h1" W_XH1_SIZE;
                   GenomeSegment.mk "h1_recurrent" (W_H1H1_SIZE + B_H1_SIZE + ALPHA1_LOGIT_SIZE + 1);
                   GenomeSegment.mk "h1_to_h2" W_H1H2_SIZE;
                   GenomeSegment.mk "h2_recurrent" (W_H2H2_SIZE + B_H2_SIZE + ALPHA2_LOGIT_SIZE + 1);
                   GenomeSegment.mk "output" (W_H2O_SIZE + B_O_SIZE)].
End DuckNeuralNetRecurrentBrainV2.

Module NesTileRecurrentBrain.
Definition TileVocabularySize : Z := 512.
Definition TileEmbeddingDim : Z := 4.
Definition RelativeTileColumns : Z := 63.
Definition RelativeTileRows : Z := 55.
Definition VisualInputSize : Z := RelativeTileColumns * RelativeTileRows * TileEmbeddingDim.
Definition ScalarInputSize : Z := 44.
Definition InputSize : Z := VisualInputSize + ScalarInputSize.
Definition H1Size : Z := 64.
Definition H2Size : Z := 32.
Definition OutputSize : Z := 4.
Definition TILE_EMBEDDING_SIZE : Z := TileVocabularySize * TileEmbeddingDim.
Definition W_XH1_SIZE : Z := InputSize * H1Size.
Definition W_H1H1_SIZE : Z := H1Size * H1Size.
Definition B_H1_SIZE : Z := H1Size.
Definition ALPHA1_LOGIT_SIZE : Z := H1Size.
Definition W_H1H2_SIZE : Z := H1Size * H2Size.
Definition W_H2H2_SIZE : Z := H2Size * H2Size.
Definition B_H2_SIZE : Z := H2Size.
Definition ALPHA2_LOGIT_SIZE : Z := H2Size.
Definition ACTIVATION_LEAK_LOGIT_SIZE : Z := 2.
Definition W_H2O_SIZE : Z := H2Size * OutputSize.
Definition B_O_SIZE : Z := OutputSize.
Definition TOTAL_WEIGHTS : Z :=
  TILE_EMBEDDING_SIZE + W_XH1_SIZE + W_H1H1_SIZE + B_H1_SIZE + ALPHA1_LOGIT_SIZE + W_H1H2_SIZE + W_H2H2_SIZE + B_H2_SIZE
  + ALPHA2_LOGIT_SIZE + ACTIVATION_LEAK_LOGIT_SIZE + W_H2O_SIZE + B_O_SIZE.

Section Brain.
Context {R D : Type} `{ND : !NormalDistribution R D, UR : !UniformReal R}.

Definition randomGenome (rng : R) : res (Genome.t * R) :=
  let '(embedding, rng) := normals (Z.to_nat TILE_EMBEDDING_SIZE) (centered (f32_lit 1 10)) rng in
  let '(xh1, rng) := normals (Z.to_nat W_XH1_SIZE) (centered (stddevOf (InputSize + H1Size))) rng in
  let '(h1h1, rng) := normals (Z.to_nat W_H1H1_SIZE) (centered (stddevOf (H1Size + H1Size))) rng in
  let '(alpha1, rng) := alphaLogits (Z.to_nat ALPHA1_LOGIT_SIZE) rng in
  let '(h1h2, rng) := normals (Z.to_nat W_H1H2_SIZE) (centered (stddevOf (H1Size + H2Size))) rng in
  let '(h2h2, rng) := normals (Z.to_nat W_H2H2_SIZE) (centered (stddevOf (H2Size + H2Size))) rng in
  let '(alpha2, rng) := alphaLogits (Z.to_nat ALPHA2_LOGIT_SIZE) rng in
  let '(h2o, rng) := normals (Z.to_nat W_H2O_SIZE) (centered (stddevOf (H2Size + OutputSize))) rng in
  let leak := bits_of_f32 LEAKY_RELU_NEGATIVE_SLOPE_LOGIT_INIT in
  let weights := embedding ++ xh1 ++ h1h1 ++ zeros B_H1_SIZE ++ alpha1 ++ [leak] ++ h1h2 ++ h2h2 ++ zeros B_H2_SIZE ++ alpha2
                 ++ [leak] ++ h2o ++ zeros B_O_SIZE in
  dirtsim_assert (Z.of_nat (length weights) =? TOTAL_WEIGHTS) "NesTileRecurrentBrain: Generated genome size mismatch" ;;!
  Ok (Genome.mk weights, rng).
End Brain.

Definition isGenomeCompatible (genome : Genome.t) : bool := Z.of_nat (length (Genome.weights genome)) =? TOTAL_WEIGHTS.

Definition getGenomeLayout : GenomeLayout.t :=
  GenomeLayout.mk [GenomeSegment.mk "tile_embedding" TILE_EMBEDDING_SIZE;
                   GenomeSegment.mk "input_h1" W_XH1_SIZE;
                   GenomeSegment.mk "h1_recurrent" (W_H1H1_SIZE + B_H1_SIZE + ALPHA1_LOGIT_SIZE + 1);
                   GenomeSegment.mk "h1_to_h2" W_H1H2_SIZE;
                   GenomeSegment.mk "h2_recurrent" (W_H2H2_SIZE + B_H2_SIZE + ALPHA2_LOGIT_SIZE + 1);
                   GenomeSegment.mk "output" (W_H2O_SIZE + B_O_SIZE)].
End NesTileRecurrentBrain.

(** ** The registry *)
Module BrainRegistry.
Definition BrainRegistryKey : Type := OrganismType * string * string.

Section Registry.
Context {R D : Type} `{ND : !NormalDistribution R D, UR : !UniformReal R}.
Abbreviation Entry := (BrainRegistryEntry.t R).
Abbreviation t := (gmap BrainRegistryKey Entry).

Definition isSet {B} (f : option B) : bool := match f with Some _ => true | None => false end.

Definition registerBrain (organismType : OrganismType) (brainKind brainVariant : string) (entry : Entry) (entries_ : t) : res t :=
  dirtsim_assert (negb (String.eqb brainKind EmptyString)) "TrainingBrainRegistry: brainKind must not be empty" ;;!
  match BrainRegistryEntry.controlMode entry with
  | OrganismDriven => dirtsim_assert (BrainRegistryEntry.spawn entry) "TrainingBrainRegistry: spawn function must be set"
  | ScenarioDriven =>
      dirtsim_assert (negb (BrainRegistryEntry.spawn entry))
        "TrainingBrainRegistry: spawn function must be unset for scenario-driven brains"
  end ;;!
  (if BrainRegistryEntry.requiresGenome entry then
     dirtsim_assert (isSet (BrainRegistryEntry.createRandomGenome entry))
       "TrainingBrainRegistry: requiresGenome requires generator" ;;!
     dirtsim_assert (isSet (BrainRegistryEntry.isGenomeCompatible entry))
       "TrainingBrainRegistry: requiresGenome requires compatibility check" ;;!
     dirtsim_assert (isSet (BrainRegistryEntry.getGenomeLayout entry))
       "TrainingBrainRegistry: requiresGenome requires getGenomeLayout"
   else
     dirtsim_assert (negb (isSet (BrainRegistryEntry.createRandomGenome entry)))
       "TrainingBrainRegistry: createRandomGenome must be unset when requiresGenome=false" ;;!
     dirtsim_assert (negb (isSet (BrainRegistryEntry.isGenomeCompatible entry)))
       "TrainingBrainRegistry: isGenomeCompatible must be unset when requiresGenome=false" ;;!
     dirtsim_assert (negb (isSet (BrainRegistryEntry.getGenomeLayout entry)))
       "TrainingBrainRegistry: getGenomeLayout must be unset when requiresGenome=false") ;;!
  Ok (<[(organismType, brainKind, brainVariant) := entry]> entries_).

Definition find (entries_ : t) : TrainingBrainRegistry R :=
  fun organismType brainKind brainVariant => entries_ !! (organismType, brainKind, brainVariant).

(** The entries of [createDefault]: brains that learn, and brains that do not. *)
Definition learning (mode : ControlMode) (create : R -> res (Genome.t * R)) (compatible : Genome.t -> bool)
    (layout : GenomeLayout.t) : Entry :=
  BrainRegistryEntry.mk mode true true (match mode with OrganismDriven => true | ScenarioDriven => false end)
    (Some create) (Some compatible) (Some layout).
Definition scripted : Entry := BrainRegistryEntry.mk OrganismDriven false false true None None None.

Definition duckV2 (mode : ControlMode) : Entry :=
  learning mode DuckNeuralNetRecurrentBrainV2.randomGenome DuckNeuralNetRecurrentBrainV2.isGenomeCompatible
    DuckNeuralNetRecurrentBrainV2.getGenomeLayout.

Definition createDefault : res t :=
  let! registry := registerBrain TREE "NeuralNet" EmptyString
    (learning OrganismDriven NeuralNetBrain.randomGenome NeuralNetBrain.isGenomeCompatible NeuralNetBrain.getGenomeLayout) ∅ in
  let! registry := registerBrain DUCK "DuckNeuralNetRecurrentV2" EmptyString (duckV2 OrganismDriven) registry in
  let! registry := registerBrain TREE "RuleBased" EmptyString scripted registry in
  let! registry := registerBrain TREE "RuleBased2" EmptyString scripted registry in
  let! registry := registerBrain DUCK "Random" EmptyString scripted registry in
  let! registry := registerBrain DUCK "WallBouncing" EmptyString scripted registry in
  let! registry := registerBrain DUCK "DuckBrain2" EmptyString scripted registry in
  let! registry := registerBrain GOOSE "Random" EmptyString scripted registry in
  let! registry := registerBrain NES_DUCK "DuckNeuralNetRecurrentV2" EmptyString (duckV2 ScenarioDriven) registry in
  registerBrain NES_DUCK "NesTileRecurrent" EmptyString
    (learning ScenarioDriven NesTileRecurrentBrain.randomGenome NesTileRecurrentBrain.isGenomeCompatible
       NesTileRecurrentBrain.getGenomeLayout) registry.
End Registry.

Definition defaultTrainingBrainKind (organismType : OrganismType) (scenarioId : ScenarioId) : string :=
  match organismType with
  | TREE => "NeuralNet"
  | DUCK => "DuckNeuralNetRecurrentV2"
  | NES_DUCK => if bool_decide (scenarioId = NesSuperMarioBros) then "NesTileRecurrent" else "DuckNeuralNetRecurrentV2"
  | GOOSE => "Random"
  end.
End BrainRegistry.

(** ** The brains are consistent *)
Section Facts.
Context {R D : Type} `{ND : !NormalDistribution R D, UR : !UniformReal R}.
Abbreviation Entry := (BrainRegistryEntry.t R).
Implicit Types (entry : Entry) (g : Genome.t) (rng : R).

(** Of at most [W] weights. *)
Record learning_brain (W : Z) entry create compatible layout : Prop := {
  lb_create : BrainRegistryEntry.createRandomGenome entry = Some create;
  lb_compatible : BrainRegistryEntry.isGenomeCompatible entry = Some compatible;
  lb_layout : BrainRegistryEntry.getGenomeLayout entry = Some layout;
  lb_random : forall rng, wp (create rng) (fun '(g, _) => compatible g = true);
  lb_covers : forall g, compatible g = true -> layout_of layout g /\ Z.of_nat (length (Genome.weights g)) <= W
}.

Definition brain_ok (W : Z) entry : Prop :=
  if BrainRegistryEntry.requiresGenome entry then exists create compatible layout, learning_brain W entry create compatible layout
  else BrainRegistryEntry.allowsMutation entry = false /\ BrainRegistryEntry.createRandomGenome entry = None /\
       BrainRegistryEntry.isGenomeCompatible entry = None /\ BrainRegistryEntry.getGenomeLayout entry = None.

(** The tile brain has the largest genomes. *)
Definition maxWeights : Z := NesTileRecurrentBrain.TOTAL_WEIGHTS.

Lemma normals_size n (dist : D) rng l rng' : 0 <= n -> normals (Z.to_nat n) dist rng = (l, rng') -> Z.of_nat (length l) = n.
Proof. intros Hn E. pose proof (normals_length (Z.to_nat n) dist rng) as H. rewrite E in H. cbn in H. lia. Qed.
Lemma alphaLogits_size n rng l rng' : 0 <= n -> alphaLogits (Z.to_nat n) rng = (l, rng') -> Z.of_nat (length l) = n.
Proof. intros Hn E. pose proof (alphaLogits_length (Z.to_nat n) rng) as H. rewrite E in H. cbn in H. lia. Qed.
Lemma zeros_size n : 0 <= n -> Z.of_nat (length (zeros n)) = n.
Proof. intros Hn. unfold zeros. rewrite length_replicate. lia. Qed.

(** The weights are drawn block by block; their lengths add up. *)
Ltac drawn_blocks :=
  repeat match goal with
  | |- context [normals (Z.to_nat ?n) ?dist ?rng] =>
      let E := fresh "E" in destruct (normals (Z.to_nat n) dist rng) as [? ?] eqn:E; apply normals_size in E; [| done]
  | |- context [alphaLogits (Z.to_nat ?n) ?rng] =>
      let E := fresh "E" in destruct (alphaLogits (Z.to_nat n) rng) as [? ?] eqn:E; apply alphaLogits_size in E; [| done]
  end.
Ltac counted :=
  rewrite ?length_app, ?Nat2Z.inj_add, ?zeros_size by done; cbn [length]; lia.

Lemma checked_genome (weights : list Z) total msg rng :
  Z.of_nat (length weights) = total ->
  wp (dirtsim_assert (Z.of_nat (length weights) =? total) msg ;;! Ok (Genome.mk weights, rng))
    (fun '(g, _) => (Z.of_nat (length (Genome.weights g)) =? total) = true).
Proof. intros H. apply wp_bind, wp_assert; [by apply Z.eqb_eq |]. apply wp_ok. by apply Z.eqb_eq. Qed.

Lemma NeuralNet_random rng :
  wp (NeuralNetBrain.randomGenome rng) (fun '(g, _) => NeuralNetBrain.isGenomeCompatible g = true).
Proof.
  unfold NeuralNetBrain.randomGenome. drawn_blocks. apply checked_genome. unfold NeuralNetBrain.TOTAL_WEIGHTS. counted.
Qed.

Lemma DuckV2_random rng :
  wp (DuckNeuralNetRecurrentBrainV2.randomGenome rng)
     (fun '(g, _) => DuckNeuralNetRecurrentBrainV2.isGenomeCompatible g = true).
Proof.
  unfold DuckNeuralNetRecurrentBrainV2.randomGenome. drawn_blocks. apply checked_genome.
  unfold DuckNeuralNetRecurrentBrainV2.TOTAL_WEIGHTS, DuckNeuralNetRecurrentBrainV2.ACTIVATION_LEAK_LOGIT_SIZE. counted.
Qed.

Lemma NesTile_random rng :
  wp (NesTileRecurrentBrain.randomGenome rng) (fun '(g, _) => NesTileRecurrentBrain.isGenomeCompatible g = true).
Proof.
  unfold NesTileRecurrentBrain.randomGenome. drawn_blocks. apply checked_genome.
  unfold NesTileRecurrentBrain.TOTAL_WEIGHTS, NesTileRecurrentBrain.ACTIVATION_LEAK_LOGIT_SIZE. counted.
Qed.

(** ** Layouts *)
Lemma covered (layout : GenomeLayout.t) total g :
  GenomeLayout.segments layout <> [] -> Forall (Z.le 0) (sizes layout) -> zsum (sizes layout) = total -> total < 2 ^ 31 ->
  total <= maxWeights -> (Z.of_nat (length (Genome.weights g)) =? total) = true ->
  layout_of layout g /\ Z.of_nat (length (Genome.weights g)) <= maxWeights.
Proof. intros Hne Hs Ht Hb Hm Hg%Z.eqb_eq. split; [| lia]. split; [split; [done | lia] | done | lia]. Qed.

Lemma learning_ok mode create compatible layout total :
  (forall rng, wp (create rng) (fun '(g, _) => compatible g = true)) ->
  (forall g, compatible g = (Z.of_nat (length (Genome.weights g)) =? total)) ->
  GenomeLayout.segments layout <> [] -> Forall (Z.le 0) (sizes layout) -> zsum (sizes layout) = total -> total < 2 ^ 31 ->
  total <= maxWeights -> brain_ok maxWeights (BrainRegistry.learning (R := R) mode create compatible layout).
Proof.
  intros Hr Hc Hne Hs Ht Hb Hm. exists create, compatible, layout. split; try done.
  intros g. rewrite Hc. by apply covered.
Qed.

Lemma neuralNet_ok mode : brain_ok maxWeights (BrainRegistry.learning mode NeuralNetBrain.randomGenome
  NeuralNetBrain.isGenomeCompatible NeuralNetBrain.getGenomeLayout).
Proof. apply (learning_ok mode _ _ _ NeuralNetBrain.TOTAL_WEIGHTS); try done; [apply NeuralNet_random | by apply (bool_decide_unpack _)]. Qed.

Lemma duckV2_ok mode : brain_ok maxWeights (BrainRegistry.duckV2 mode).
Proof. apply (learning_ok mode _ _ _ DuckNeuralNetRecurrentBrainV2.TOTAL_WEIGHTS); try done; [apply DuckV2_random | by apply (bool_decide_unpack _)]. Qed.

Lemma nesTile_ok mode : brain_ok maxWeights (BrainRegistry.learning mode NesTileRecurrentBrain.randomGenome
  NesTileRecurrentBrain.isGenomeCompatible NesTileRecurrentBrain.getGenomeLayout).
Proof. apply (learning_ok mode _ _ _ NesTileRecurrentBrain.TOTAL_WEIGHTS); try done; [apply NesTile_random | by apply (bool_decide_unpack _)]. Qed.

(** ** Registering *)
Abbreviation Registry := (gmap BrainRegistry.BrainRegistryKey Entry).
Implicit Types registry : Registry.

Lemma registerBrain_ok (o : OrganismType) (kind variant : string) entry registry (Q : Registry -> Prop) :
  kind <> EmptyString -> brain_ok maxWeights entry ->
  BrainRegistryEntry.spawn entry = match BrainRegistryEntry.controlMode entry with OrganismDriven => true | ScenarioDriven => false end ->
  Q (<[(o, kind, variant) := entry]> registry) -> wp (BrainRegistry.registerBrain o kind variant entry registry) Q.
Proof.
  intros Hk Hb Hs HQ. unfold BrainRegistry.registerBrain.
  apply wp_bind, wp_assert; [by apply negb_true_iff, String.eqb_neq |].
  apply wp_bind. apply wp_mono with (P := fun _ => True); [by destruct (BrainRegistryEntry.controlMode entry); apply wp_assert; rewrite ?Hs |].
  intros _ _. apply wp_bind. apply wp_mono with (P := fun _ => True); [| by intros _ _; apply wp_ok].
  unfold brain_ok in Hb. destruct (BrainRegistryEntry.requiresGenome entry).
  - destruct Hb as (create & compatible & layout & [-> -> -> _ _]). by repeat (apply wp_bind, wp_assert; [done |]); apply wp_assert.
  - destruct Hb as (_ & -> & -> & ->). by repeat (apply wp_bind, wp_assert; [done |]); apply wp_assert.
Qed.

Lemma scripted_ok : brain_ok maxWeights BrainRegistry.scripted.
Proof. done. Qed.

(** What is registered when the next brain comes: the brains so far are
    consistent, and so are the keys. *)
Definition registered (keys : list BrainRegistry.BrainRegistryKey) registry : Prop :=
  map_Forall (fun _ entry => brain_ok maxWeights entry) registry /\ forall key, key ∈ keys -> is_Some (registry !! key).

Lemma register_next (o : OrganismType) (kind : string) entry keys registry :
  kind <> EmptyString -> brain_ok maxWeights entry ->
  BrainRegistryEntry.spawn entry = match BrainRegistryEntry.controlMode entry with OrganismDriven => true | ScenarioDriven => false end ->
  registered keys registry ->
  wp (BrainRegistry.registerBrain o kind EmptyString entry registry) (registered ((o, kind, EmptyString) :: keys)).
Proof.
  intros Hk Hb Hs [Hall Hkeys]. apply registerBrain_ok; try done. split; [by apply map_Forall_insert_2 |].
  intros key [-> | Hin]%elem_of_cons; [rewrite lookup_insert_eq; by eexists |]. apply lookup_insert_is_Some'. right. by apply Hkeys.
Qed.

Lemma registered_nothing : registered [] ∅.
Proof. split; [intros ? ? H; by rewrite lookup_empty in H | by intros ? ?%elem_of_nil]. Qed.

Definition default_keys : list BrainRegistry.BrainRegistryKey :=
  [(NES_DUCK, "NesTileRecurrent", EmptyString); (NES_DUCK, "DuckNeuralNetRecurrentV2", EmptyString);
   (GOOSE, "Random", EmptyString); (DUCK, "DuckBrain2", EmptyString); (DUCK, "WallBouncing", EmptyString);
   (DUCK, "Random", EmptyString); (TREE, "RuleBased2", EmptyString); (TREE, "RuleBased", EmptyString);
   (DUCK, "DuckNeuralNetRecurrentV2", EmptyString); (TREE, "NeuralNet", EmptyString)]%string.

Lemma createDefault_ok : wp BrainRegistry.createDefault (registered default_keys).
Proof.
  pose proof neuralNet_ok. pose proof duckV2_ok. pose proof nesTile_ok. pose proof scripted_ok. unfold BrainRegistry.createDefault.
  do 9 (apply wp_bind; eapply wp_mono; [apply register_next; eauto using registered_nothing | intros ? ?]).
  by apply register_next.
Qed.

(** C14. The default registry is built without a failing assertion, and every brain of
    it is consistent: a brain that learns makes random genomes that it accepts
    itself, and its layout covers exactly the weights of the genomes it accepts; the
    others have no genomes and do not mutate. Every organism's default brain is in
    it. *)
Theorem default_brains : exists registry,
  BrainRegistry.createDefault = Ok registry /\
  (forall o kind variant entry, BrainRegistry.find registry o kind variant = Some entry -> brain_ok maxWeights entry) /\
  forall o scenario, exists entry,
    BrainRegistry.find registry o (BrainRegistry.defaultTrainingBrainKind o scenario) EmptyString = Some entry.
Proof.
  pose proof createDefault_ok as (registry & E & Hall & Hkeys)%wp_elim. exists registry. split; [done |]. split.
  - intros o kind variant entry. apply Hall.
  - intros o scenario. apply Hkeys. destruct o; cbn; try case_bool_decide; set_solver.
Qed.
End Facts.
