(* ===== verification/EvolutionInvariant.v ===== *)
(** The invariant of a training: what holds of the [Evolution] state between two
    results.

    The training is generating (it waits for the result of every individual that
    is not evaluated yet), validating (it waits for the samples of the robust pass)
    or complete. What the executor holds, together with the results already handed
    out, is just what the training waits for. *)

From Stdlib Require Import ZArith Lia Bool String.
From Stdlib Require Import SpecFloat.
From stdpp Require Import base gmap option numbers list sorting strings pretty.
From S2P Require Import Prelude Ieee IeeeRound StdModel Uuid Genomes GenomeFacts Training TrainingFacts Mutation MutationFacts.
From S2P Require Import EvaluationTypes.
From S2P Require Import EvolutionTypes Evolution EvolutionScores EvolutionSurvivors EvolutionBreeding.
Import Evolution.

Set Default Goal Selector "!".

(** ** The phase tracker's levels stay in range *)
Record tracker_ok (generations : Z) (t : TrainingPhaseTracker.t) : Prop := {
  tr_since : 0 <= TrainingPhaseStatus.generationsSinceImprovement (TrainingPhaseTracker.status_ t) <= generations;
  tr_recovery : int_range (TrainingPhaseStatus.recoveryLevel (TrainingPhaseTracker.status_ t))
}.

Lemma updateCompletedGeneration_ok generations g f config t :
  tracker_ok generations t -> generations < 2 ^ 31 - 1 ->
  EvolutionConfig.stagnationWindowGenerations config < 2 ^ 30 -> EvolutionConfig.recoveryWindowGenerations config < 2 ^ 31 ->
  wp (TrainingPhaseTracker.updateCompletedGeneration g f config t) (fun '(t', _) => tracker_ok (generations + 1) t').
Proof.
  unfold int_range. intros [Hs Hr] Hg Hw Hrw. unfold int_range in Hr. unfold TrainingPhaseTracker.updateCompletedGeneration, TrainingPhaseTracker.recoveryLevelNext,
    TrainingPhaseTracker.stagnationLevelCompute, TrainingPhaseTracker.normalizeRecoveryWindow, TrainingPhaseTracker.normalizeStagnationWindow.
  destruct (TrainingPhaseTracker.improves _ _ _).
  - destruct (0 <? _); [|case_bool_decide]; rewrite ?int_result_ok by lia; cbn [rbind]; apply wp_ok; split; cbn; unfold int_range; lia.
  - rewrite ?int_result_ok by lia. cbn [rbind]. rewrite ?int_result_ok by lia. cbn [rbind].
    repeat case_match; cbn [rbind]; apply wp_ok; split; cbn; unfold int_range; lia.
Qed.

(** ** What the training waits for *)
Definition populationAt (n generation : Z) : Z := if generation =? 0 then n else 2 * n.
Definition evaluationsBefore (n generation : Z) : Z := if generation =? 0 then 0 else n + (generation - 1) * (2 * n).

Lemma evaluationsBefore_next n generation :
  0 <= generation -> evaluationsBefore n (generation + 1) = evaluationsBefore n generation + populationAt n generation.
Proof.
  intros. unfold evaluationsBefore, populationAt. rewrite (proj2 (Z.eqb_neq (generation + 1) 0)) by lia.
  destruct (Z.eqb_spec generation 0) as [-> |]; lia.
Qed.

Lemma evaluationsBefore_bound n generation : 0 <= n -> 0 <= generation -> 0 <= evaluationsBefore n generation <= generation * (2 * n).
Proof. intros. unfold evaluationsBefore. destruct (Z.eqb_spec generation 0); nia. Qed.

Definition generation_ticket (n : Z) (t : Ticket) : Prop := ticket_task t = GenerationEval /\ 0 <= ticket_index t < n.
Definition sample_ticket (r : RobustnessPassState.t) (t : Ticket) : Prop :=
  ticket_task t = RobustnessEval /\ ticket_index t = RobustnessPassState.index r /\
  ticket_generation t = RobustnessPassState.generation r.

(** The counters of a generation's telemetry count evaluated individuals. *)
Record telemetry_ok (k : Z) (g : GenerationTelemetry.t) : Prop := {
  te_elite : 0 <= GenerationTelemetry.eliteCarryoverCount g <= k;
  te_clone : 0 <= GenerationTelemetry.offspringCloneCount g <= k;
  te_mutated : 0 <= GenerationTelemetry.offspringMutatedCount g <= k;
  te_seed : 0 <= GenerationTelemetry.seedCount g <= k;
  te_cloneBeats : 0 <= GenerationTelemetry.offspringCloneBeatsParentCount g <= k;
  te_cloneCompared : 0 <= GenerationTelemetry.offspringCloneComparedCount g <= k;
  te_mutatedBeats : 0 <= GenerationTelemetry.offspringMutatedBeatsParentCount g <= k;
  te_mutatedCompared : 0 <= GenerationTelemetry.offspringMutatedComparedCount g <= k
}.

Lemma telemetry_reset k : 0 <= k -> telemetry_ok k GenerationTelemetry.reset.
Proof. intros. split; cbn; lia. Qed.

Lemma noteOrigin_ok k origin individual fitness hash g :
  telemetry_ok k g -> k + 1 < 2 ^ 31 -> wp (noteOrigin origin individual fitness hash g) (telemetry_ok (k + 1)).
Proof.
  intros [] Hk. destruct g. cbn in *. unfold noteOrigin.
  destruct origin, (telemetryDelta individual fitness) as [[? []] |];
    repeat (rewrite int_result_ok by lia; cbn [rbind]); apply wp_ok; split; cbn; lia.
Qed.

(** ** The invariant *)
Section Invariant.
Context {R D A E SC Snapshot : Type} `{RE : !RandomEngine R, RL : !RandomLaws R, ND : !NormalDistribution R D,
    SH : !Shuffle R, HL : !ShuffleLaws R, UW : !UnorderedWalk, UL : !UnorderedWalkLaws, SS : !StdSort, SL : !StdSortLaws,
    GA : !GenomeArchive A, AL : !ArchiveLaws A, ES : !EvaluationService E SC, EL : !EvaluationServiceLaws E SC,
    EC : !EvaluationCollector E Snapshot, CL : !EvaluationCollectorLaws E SC Snapshot,
    ET : !EvaluationTuning E, TL : !EvaluationTuningLaws E SC}.
Context (brainRegistry_ : TrainingBrainRegistry R) (organism : OrganismType) (W : Z).
Abbreviation State := (t (R := R) (A := A) (E := E) (SC := SC) (Snapshot := Snapshot)).
Implicit Types s : State.

(** The numbers of the settings fit into [int]s. *)
Record settings_ok (st : Settings.t) : Prop := {
  so_organism : TrainingSpec.organismType (Settings.trainingSpec st) = organism;
  so_population : 0 < EvolutionConfig.populationSize (Settings.evolutionConfig st);
  so_tournament : 0 < EvolutionConfig.tournamentSize (Settings.evolutionConfig st);
  so_generations : 0 < EvolutionConfig.maxGenerations (Settings.evolutionConfig st);
  so_evaluations : EvolutionConfig.maxGenerations (Settings.evolutionConfig st)
                   * (2 * EvolutionConfig.populationSize (Settings.evolutionConfig st)) < 2 ^ 31;
  so_weights : 0 <= W;
  so_changes : EvolutionConfig.populationSize (Settings.evolutionConfig st) * W < 2 ^ 31;
  so_stagnation : EvolutionConfig.stagnationWindowGenerations (Settings.evolutionConfig st) < 2 ^ 30;
  so_recovery : EvolutionConfig.recoveryWindowGenerations (Settings.evolutionConfig st) < 2 ^ 31;
  so_robust : EvolutionConfig.robustFitnessEvaluationCount (Settings.evolutionConfig st) < 2 ^ 31;
  so_budgets : budgets_ok (Settings.mutationConfig st)
}.

(** The executor takes every request for the individual, whatever its genome. *)
Definition runnable (override : option SC) (e : E) (i : Individual.t) : Prop :=
  forall g index generation, 0 <= index ->
  acceptable (makeEvaluationRequest (Individual.set_genome g i) index) override e /\
  acceptable (robustRequest (Individual.set_genome g i) index generation) override e.

Definition individual_ok (override : option SC) (e : E) (i : Individual.t) : Prop :=
  breedable brainRegistry_ organism W i /\ runnable override e i.

Definition size_ s : Z := Z.of_nat (length (Population.population (pop s))).
Definition generation_ s : Z := Progress.generation (progress s).

(** The population is consistent, and its individuals can be evaluated and bred. *)
Record population_ok s : Prop := {
  po_size : size_ s = populationAt (EvolutionConfig.populationSize (config s)) (generation_ s);
  po_scores : length (Population.fitnessScores (pop s)) = length (Population.population (pop s));
  po_wings : length (Population.wingUpSecondsPerIndividual (pop s)) = length (Population.population (pop s));
  po_prune : Population.pruneBeforeBreeding_ (pop s) = negb (generation_ s =? 0);
  po_fitness : Forall score_ok (Population.fitnessScores (pop s));
  po_individuals : Forall (individual_ok (scenarioConfigOverride_ s) (executor_ s)) (Population.population (pop s))
}.

(** The progress of a training that is not complete. *)
Record progress_ok s : Prop := {
  pr_open : Progress.trainingComplete_ (progress s) = false;
  pr_generation : 0 <= generation_ s < EvolutionConfig.maxGenerations (config s);
  pr_current : 0 <= Progress.currentEval (progress s) <= size_ s;
  pr_completed : Progress.completedEvaluations_ (progress s) =
    evaluationsBefore (EvolutionConfig.populationSize (config s)) (generation_ s) + Progress.currentEval (progress s)
}.

(** The most evaluations that a stored genome stands for. *)
Definition evaluationsPerGenome s : Z := Z.max 1 (EvolutionConfig.robustFitnessEvaluationCount (config s)).

(** A generation that may still store [spare] genomes (one that is validated, and
    the checkpoint), besides those of the generations that follow; the tracker has
    seen [generation_ s + seen] generations. *)
Record standing (spare seen : Z) s : Prop := {
  sd_settings : settings_ok (settings s);
  sd_population : population_ok s;
  sd_progress : progress_ok s;
  sd_executor : service_ready (executor_ s);
  sd_telemetry : telemetry_ok (Progress.currentEval (progress s)) (Statistics.generationTelemetry_ (statistics s));
  sd_tracker : tracker_ok (generation_ s + seen) (trainingPhaseTracker_ s);
  sd_effective : budgets_ok (EffectiveAdaptiveMutation.mutationConfig (lastEffectiveAdaptiveMutation_ s));
  sd_archive : let later := EvolutionConfig.maxGenerations (config s) - generation_ s - 1 in
    archive_ready (2 * later + spare) (evaluationsPerGenome s * (later + spare / 2)) (archive s);
  sd_pending : is_finite (PendingBestState.robustnessFirstSample (pendingBest_ s)) = true
}.

(** The tickets of the results handed out and of those to come. *)
Definition awaited (held : list (CompletedEvaluation.t Snapshot)) s : list Ticket :=
  map CompletedEvaluation.ticket held ++ outstanding (executor_ s).

Record generating held s : Prop := {
  ge_inactive : RobustnessPassState.active (robustnessPass_ s) = false;
  ge_more : Progress.currentEval (progress s) < size_ s;
  ge_distinct : NoDup (awaited held s);
  ge_tickets : Forall (generation_ticket (size_ s)) (awaited held s);
  ge_count : Z.of_nat (length (awaited held s)) = size_ s - Progress.currentEval (progress s)
}.

Record validating held s : Prop := {
  va_active : RobustnessPassState.active (robustnessPass_ s) = true;
  va_all : Progress.currentEval (progress s) = size_ s;
  va_target : RobustnessPassState.targetEvalCount (robustnessPass_ s)
              = EvolutionConfig.robustFitnessEvaluationCount (config s);
  va_pending : 0 < RobustnessPassState.pendingSamples (robustnessPass_ s);
  va_completed : 0 <= RobustnessPassState.completedSamples (robustnessPass_ s);
  va_sum : RobustnessPassState.completedSamples (robustnessPass_ s) + RobustnessPassState.pendingSamples (robustnessPass_ s)
           = RobustnessPassState.targetEvalCount (robustnessPass_ s);
  va_samples : Z.of_nat (length (RobustnessPassState.samples (robustnessPass_ s)))
               = RobustnessPassState.completedSamples (robustnessPass_ s);
  va_index : 0 <= RobustnessPassState.index (robustnessPass_ s) < size_ s;
  va_tickets : Forall (sample_ticket (robustnessPass_ s)) (awaited held s);
  va_count : Z.of_nat (length (awaited held s)) = RobustnessPassState.pendingSamples (robustnessPass_ s);
  va_finite : finite_samples (RobustnessPassState.samples (robustnessPass_ s))
}.

(** Every individual is evaluated, and the robust pass is over. *)
Record closing spare seen s : Prop := {
  cl_standing : standing spare seen s;
  cl_inactive : RobustnessPassState.active (robustnessPass_ s) = false;
  cl_all : Progress.currentEval (progress s) = size_ s;
  cl_idle : outstanding (executor_ s) = []
}.

Record complete s : Prop := {
  co_settings : settings_ok (settings s);
  co_complete : Progress.trainingComplete_ (progress s) = true;
  co_completed : Progress.completedEvaluations_ (progress s) = estimateTotalEvaluations (config s);
  co_executor : service_ready (executor_ s);
  co_idle : outstanding (executor_ s) = []
}.

(** [held]: the results handed out that are not processed yet. *)
Inductive Inv (held : list (CompletedEvaluation.t Snapshot)) s : Prop :=
| Generating : standing 2 0 s -> generating held s -> Inv held s
| Validating : standing 2 0 s -> validating held s -> Inv held s
| Complete : held = [] -> complete s -> Inv held s.

(** ** How many results are still to come

    Of this generation and of the later ones, with the samples of their robust
    passes, if each has one. *)
Definition samplesPerPass s : Z := Z.max 0 (EvolutionConfig.robustFitnessEvaluationCount (config s)).
Definition laterWork s : Z :=
  estimateTotalEvaluations (config s) - Progress.completedEvaluations_ (progress s)
  + samplesPerPass s * (EvolutionConfig.maxGenerations (config s) - generation_ s - 1).

Definition remaining s : Z :=
  if Progress.trainingComplete_ (progress s) then 0
  else laterWork s + (if RobustnessPassState.active (robustnessPass_ s)
                      then RobustnessPassState.pendingSamples (robustnessPass_ s) else samplesPerPass s).
End Invariant.
