(* ===== verification/EvolutionSteps.v ===== *)
(** Storing the best, the robust pass, and the statistics preserve the invariant. *)

From Stdlib Require Import ZArith Lia Bool String.
From Stdlib Require Import SpecFloat.
From stdpp Require Import base gmap option numbers list sorting strings pretty.
From S2P Require Import Prelude Ieee IeeeRound StdModel Uuid Genomes GenomeFacts Training TrainingFacts Mutation MutationFacts.
From S2P Require Import EvaluationTypes.
From S2P Require Import EvolutionTypes Evolution EvolutionScores EvolutionSurvivors EvolutionBreeding EvolutionInvariant.
Import Evolution.

Set Default Goal Selector "!".

Section Steps.
Context {R D A E SC Snapshot : Type} `{RE : !RandomEngine R, RL : !RandomLaws R, ND : !NormalDistribution R D,
    SH : !Shuffle R, HL : !ShuffleLaws R, UW : !UnorderedWalk, UL : !UnorderedWalkLaws, SS : !StdSort, SL : !StdSortLaws,
    GA : !GenomeArchive A, AL : !ArchiveLaws A, ES : !EvaluationService E SC, EL : !EvaluationServiceLaws E SC,
    EC : !EvaluationCollector E Snapshot, CL : !EvaluationCollectorLaws E SC Snapshot,
    ET : !EvaluationTuning E, TL : !EvaluationTuningLaws E SC}.
Context (brainRegistry_ : TrainingBrainRegistry R) (organism : OrganismType) (W : Z).
Abbreviation State := (t (R := R) (A := A) (E := E) (SC := SC) (Snapshot := Snapshot)).
Abbreviation standing := (standing (SC := SC) (Snapshot := Snapshot) brainRegistry_ organism W).
Abbreviation closing := (closing (SC := SC) (Snapshot := Snapshot) brainRegistry_ organism W).
Implicit Types s : State.

(** ** What most operations leave as it is *)
Record frame s s' : Prop := {
  fr_settings : settings s' = settings s;
  fr_override : scenarioConfigOverride_ s' = scenarioConfigOverride_ s;
  fr_pop : pop s' = pop s;
  fr_progress : progress s' = progress s;
  fr_executor : executor_ s' = executor_ s;
  fr_statistics : statistics s' = statistics s;
  fr_tracker : trainingPhaseTracker_ s' = trainingPhaseTracker_ s;
  fr_effective : lastEffectiveAdaptiveMutation_ s' = lastEffectiveAdaptiveMutation_ s;
  fr_pending : is_finite (PendingBestState.robustnessFirstSample (pendingBest_ s)) = true ->
    is_finite (PendingBestState.robustnessFirstSample (pendingBest_ s')) = true
}.

Lemma frame_refl s : frame s s.
Proof. by split. Qed.
Lemma frame_trans s1 s2 s3 : frame s1 s2 -> frame s2 s3 -> frame s1 s3.
Proof. intros [] []. split; try congruence. auto. Qed.

(** The stores and evaluations that the archive must still take. *)
Definition stocked (spare : Z) s (a : A) : Prop :=
  let later := EvolutionConfig.maxGenerations (config s) - generation_ s - 1 in
  archive_ready (2 * later + spare) (evaluationsPerGenome s * (later + spare / 2)) a.

Lemma stocked_fewer spare spare' s a :
  progress_ok s -> 0 <= spare' <= spare -> stocked spare s a -> stocked spare' s a.
Proof.
  intros [_ Hg _ _] Hs. unfold stocked. apply ready_fewer; [lia |]. unfold evaluationsPerGenome.
  assert (0 <= spare' / 2 <= spare / 2) by (split; [apply Z.div_pos; lia | apply Z.div_le_mono; lia]). nia.
Qed.

Lemma standing_frame spare spare' seen s s' :
  standing spare seen s -> frame s s' -> stocked spare' s (archive s') -> standing spare' seen s'.
Proof.
  intros [H1 [P1 P2 P3 P4 P5 P6] [Q1 Q2 Q3 Q4] H4 H5 H6 H7 H8 H9] [F1 F2 F3 F4 F5 F6 F7 F8 F9] Ha.
  unfold stocked, size_, generation_, evaluationsPerGenome, config in *.
  split; [| split | split | ..]; unfold size_, generation_, evaluationsPerGenome, config in *;
    rewrite ?F1, ?F2, ?F3, ?F4, ?F5, ?F6, ?F7, ?F8; auto.
Qed.

Lemma standing_stocked spare seen s : standing spare seen s -> stocked spare s (archive s).
Proof. intros H. apply H. Qed.

Lemma standing_fewer spare spare' seen s s' :
  standing spare seen s -> frame s s' -> archive s' = archive s -> 0 <= spare' <= spare -> standing spare' seen s'.
Proof.
  intros H F Ha Hs. eapply standing_frame; [done | done |]. rewrite Ha.
  eapply stocked_fewer; [by destruct H | done | by eapply standing_stocked].
Qed.

(** ** Storing a genome *)
Lemma storeManagedGenome_ok stores n genome meta max a :
  0 <= stores -> 0 <= n -> numeric meta -> archive_ready (stores + 1) (evaluations meta + n) a ->
  wp (storeManagedGenome genome meta max a) (fun '(a', _) => archive_ready stores n a').
Proof.
  intros Hs Hn Hnu Ha. unfold storeManagedGenome. apply wp_bind. eapply wp_mono; [exact (store_ready stores n _ _ _ Hs Hn Hnu Ha) |].
  intros [a' id] Ha'. case_match; [| by apply wp_ok]. apply wp_bind. eapply wp_mono; [exact (prune_ready stores n _ _ Ha') |].
  intros a'' Ha''. by apply wp_ok.
Qed.

Lemma evaluations_bound m : 0 <= evaluations m <= Z.max (Z.max 0 (GenomeMetadata.robustEvalCount m))
    (Z.of_nat (length (GenomeMetadata.robustFitnessSamples m))).
Proof.
  unfold evaluations. lia.
Qed.

(** Storing one of the spare genomes. *)
Lemma store_spare spare s genome meta max :
  progress_ok s -> stocked (spare + 1) s (archive s) -> 0 <= spare -> numeric meta ->
  evaluations meta <= evaluationsPerGenome s * ((spare + 1) / 2 - spare / 2) ->
  wp (storeManagedGenome genome meta max (archive s)) (fun '(a, _) => stocked spare s a).
Proof.
  intros [_ Hg _ _] Ha Hs Hnu He. unfold stocked in *. pose proof (evaluations_nonneg meta).
  assert (0 <= spare / 2) by (apply Z.div_pos; lia). unfold evaluationsPerGenome in *.
  apply storeManagedGenome_ok; [lia | nia | done |]. eapply ready_fewer; [| | exact Ha]; nia.
Qed.

(** ** Promoting a candidate *)
Lemma promote_ok individual genome meta fitness generation s :
  standing 2 0 s -> numeric meta -> evaluations meta <= evaluationsPerGenome s ->
  wp (promote individual genome meta fitness generation s) (fun s' =>
    frame s s' /\ robustnessPass_ s' = robustnessPass_ s /\ pendingBest_ s' = pendingBest_ s /\ stocked 1 s (archive s')).
Proof.
  intros Hs Hnu He. pose proof Hs as [_ _ Hp _ _ _ _ _ _]. pose proof (standing_stocked _ _ _ Hs) as Ha. unfold promote.
  destruct (keepsSessionBest fitness (best s)).
  { apply wp_ok. split; [apply frame_refl |]. repeat (split; [done |]). by eapply stocked_fewer; [| | exact Ha]. }
  apply wp_bind. eapply wp_mono; [apply (store_spare 1); [done | done | done | done | change (evaluations meta <= evaluationsPerGenome s * 1); lia] |].
  intros [a id] Ha'. apply wp_ok. unfold broadcastTrainingBestSnapshot, setBestPlaybackSource.
  assert (stocked 1 s (archive_mark_best id a)) by (by apply mark_ready).
  cbn [pendingBest_ set_best set_archive]. case_match; (split; [done |]); repeat (split; [done |]); done.
Qed.

Lemma in_population index s :
  inPopulation index s = true -> 0 <= index < Z.of_nat (length (Population.population (pop s))).
Proof. unfold inPopulation. lia. Qed.

Lemma finalizePendingBestWithoutRobustnessPass_ok now s :
  standing 2 0 s -> wp (finalizePendingBestWithoutRobustnessPass now s) (fun s' =>
    frame s s' /\ standing 1 0 s' /\ robustnessPass_ s' = robustnessPass_ s /\
    PendingBestState.robustness (pendingBest_ s') = false).
Proof.
  intros Hs. unfold finalizePendingBestWithoutRobustnessPass. set (reset := set_pendingBest_ PendingBestState.reset s).
  assert (frame s reset /\ standing 1 0 reset /\ robustnessPass_ reset = robustnessPass_ s /\
          PendingBestState.robustness (pendingBest_ reset) = false) as Hreset.
  { split; [by split |]. split; [| done]. eapply standing_fewer; [exact Hs | by split | done | lia]. }
  destruct (PendingBestState.robustness (pendingBest_ s)) eqn:Er; cbn [negb].
  2: { apply wp_ok. split; [apply frame_refl |]. split; [| done]. eapply standing_fewer; [exact Hs | by split | done | lia]. }
  destruct (_ =? _); cbn [negb]; [| by apply wp_ok]. destruct (inPopulation _ s) eqn:Ei; cbn [negb]; [| by apply wp_ok].
  apply wp_bind, wp_vec_get; [by apply in_population |]. intros individual _.
  destruct (Individual.genome individual) as [genome |]; [| by apply wp_ok]. clear reset Hreset.
  set (s1 := set_best _ s). assert (frame s s1) as Hf by (by split).
  assert (standing 2 0 s1) as Hs1 by (eapply standing_fewer; [exact Hs | done | done | lia]).
  apply wp_bind. eapply wp_mono; [apply promote_ok; [exact Hs1 | |] |].
  - pose proof (sd_pending _ _ _ _ _ _ Hs) as Hfin. pose proof (finite_not_nan _ Hfin). split; cbn; [done | done | by repeat constructor].
  - pose proof (evaluations_bound (trainingMetadata s individual (Individual.scenarioId individual)
      (evaluationName (PendingBestState.robustnessGeneration (pendingBest_ s)) (PendingBestState.robustnessIndex (pendingBest_ s)))
      (PendingBestState.robustnessFirstSample (pendingBest_ s)) (PendingBestState.robustnessFirstSample (pendingBest_ s)) 1
      [PendingBestState.robustnessFirstSample (pendingBest_ s)] (PendingBestState.robustnessGeneration (pendingBest_ s)) now)) as He.
    cbn [trainingMetadata GenomeMetadata.robustEvalCount GenomeMetadata.robustFitnessSamples length] in He.
    unfold evaluationsPerGenome. lia.
  - intros s2 (Hf2 & Hr2 & _ & Ha2). apply wp_ok. assert (frame s (set_pendingBest_ PendingBestState.reset s2)) as Hf3.
    { eapply frame_trans; [exact Hf |]. destruct Hf2. by split. }
    split; [done |]. split; [| done]. eapply standing_frame; [exact Hs | exact Hf3 | exact Ha2].
Qed.

(** ** The robust pass *)
Lemma set_own_genome i : Individual.set_genome (Individual.genome i) i = i.
Proof. by destruct i. Qed.

Lemma standing_executor spare seen s e :
  standing spare seen s -> service_ready e -> (forall r o, acceptable r o (executor_ s) -> acceptable r o e) ->
  standing spare seen (set_executor_ e s).
Proof.
  intros [H1 [P1 P2 P3 P4 P5 P6] [Q1 Q2 Q3 Q4] H4 H5 H6 H7 H8] He Hacc. split; try done. split; try done.
  eapply Forall_impl; [exact P6 |]. intros i [Hb Hr]. split; [done |]. intros g index generation Hi.
  destruct (Hr g index generation Hi). by split; apply Hacc.
Qed.

Lemma standing_individual spare seen s i individual :
  standing spare seen s -> Population.population (pop s) !! i = Some individual ->
  individual_ok brainRegistry_ organism W (scenarioConfigOverride_ s) (executor_ s) individual.
Proof. intros [_ [_ _ _ _ _ HF] _ _ _ _ _ _] Hi. rewrite Forall_lookup in HF. by eapply HF. Qed.

Lemma sampleTickets_spec candidate index generation n r :
  RobustnessPassState.index r = index -> RobustnessPassState.generation r = generation -> 0 <= n ->
  Forall (sample_ticket r) (sampleTickets (robustRequest candidate index generation) n) /\
  Z.of_nat (length (sampleTickets (robustRequest candidate index generation) n)) = n.
Proof.
  intros Hi Hg Hn. unfold sampleTickets. split; [| rewrite length_map, length_seqZ; lia].
  apply Forall_map, Forall_forall. intros o _. by split.
Qed.

Lemma startRobustnessPass_ok s :
  closing 2 0 s -> wp (startRobustnessPass s) (fun s' => (closing 2 0 s' \/ (standing 2 0 s' /\ validating [] s')) /\
    laterWork s' = laterWork s /\ samplesPerPass s' = samplesPerPass s).
Proof.
  intros [Hs Hi Ha Ho]. unfold startRobustnessPass. rewrite Hi.
  assert (closing 2 0 (set_pendingBest_ (PendingBestState.clearTrigger (pendingBest_ s)) s)) as Hp.
  { split; [| done ..]. eapply standing_fewer; [exact Hs | by split | done | lia]. }
  destruct (PendingBestState.robustness (pendingBest_ s)); cbn [negb]; [| apply wp_ok; split; [left; by split | done]].
  destruct (_ =? _); cbn [negb]; [| apply wp_ok; split; [by left | done]]. destruct (inPopulation _ s) eqn:Ei; cbn [negb]; [| apply wp_ok; split; [by left | done]].
  apply in_population in Ei. apply wp_bind, wp_vec_get; [done |]. intros candidate Hc.
  destruct (Individual.genome candidate) eqn:Eg; [| apply wp_ok; split; [by left | done]].
  unfold resolveRobustnessPassSampleCount. destruct (Z.leb_spec (EvolutionConfig.robustFitnessEvaluationCount (config s)) 0);
    [apply wp_ok; split; [left; by split | done] |]. rewrite (proj2 (Z.leb_gt _ _)) by lia.
  destruct (standing_individual _ _ _ _ _ Hs Hc) as [_ Hrun].
  destruct (Hrun (Individual.genome candidate) (PendingBestState.robustnessIndex (pendingBest_ s)) (generation_ s) ltac:(lia)) as [_ Hacc].
  rewrite set_own_genome in Hacc. pose proof Hs as [_ _ _ Hready _ _ _ _].
  apply wp_bind. set (r := RobustnessPassState.mk _ _ _ _ _ _ _). set (s1 := set_pendingBest_ _ (set_robustnessPass_ r s)).
  assert (standing 2 0 s1) as Hs1 by (eapply standing_fewer; [exact Hs | by split | done | lia]).
  eapply wp_mono; [exact (robust_submitted _ _ (config s1) (scenarioConfigOverride_ s) (executor_ s) Hready Ho ltac:(eassumption) Hacc) |].
  intros e (He & Hout & Hkeep). apply wp_ok. split; [right | done]. split; [by apply standing_executor |].
  destruct (sampleTickets_spec candidate (PendingBestState.robustnessIndex (pendingBest_ s)) (generation_ s)
    (EvolutionConfig.robustFitnessEvaluationCount (config s)) r eq_refl eq_refl ltac:(lia)) as [Hft Hlt].
  split; cbn; try done; try lia; unfold awaited; cbn [map app]; change (executor_ (set_executor_ e s1)) with e.
  - change (Forall (sample_ticket r) (outstanding e)). by rewrite Hout.
  - rewrite Hout. exact Hlt.
  - constructor.
Qed.

(** A result that the training awaited. *)
Lemma awaited_cons (result : CompletedEvaluation.t Snapshot) held s :
  awaited (result :: held) s = CompletedEvaluation.ticket result :: awaited held s.
Proof. done. Qed.

Lemma handleRobustnessSampleResult_ok result held s :
  standing 2 0 s -> validating (result :: held) s -> score_ok (CompletedEvaluation.totalFitness result) ->
  wp (handleRobustnessSampleResult result s) (fun s' => standing 2 0 s' /\
    RobustnessPassState.active (robustnessPass_ s') = true /\ frame s s' /\
    finite_samples (RobustnessPassState.samples (robustnessPass_ s')) /\
    RobustnessPassState.pendingSamples (robustnessPass_ s') = RobustnessPassState.pendingSamples (robustnessPass_ s) - 1 /\
    (if 0 <? RobustnessPassState.pendingSamples (robustnessPass_ s') then validating held s'
     else awaited held s = [] /\ RobustnessPassState.pendingSamples (robustnessPass_ s') = 0 /\
          RobustnessPassState.targetEvalCount (robustnessPass_ s') = EvolutionConfig.robustFitnessEvaluationCount (config s) /\
          0 < EvolutionConfig.robustFitnessEvaluationCount (config s) /\
          Z.of_nat (length (RobustnessPassState.samples (robustnessPass_ s'))) = EvolutionConfig.robustFitnessEvaluationCount (config s))).
Proof.
  intros Hs [Hact Hall Htarget Hpend Hcomp Hsum Hsamples Hindex Htick Hcount Hfin] Hscore. rewrite awaited_cons in Htick, Hcount.
  apply Forall_cons in Htick as [(Ht1 & Ht2 & Ht3) Htick]. cbn [length] in Hcount. pose proof Hs as [Hset _ _ _ _ _ _ _ _]. pose proof (so_robust _ _ _ Hset) as Hrob. fold (config s) in Hrob.
  unfold handleRobustnessSampleResult. rewrite Hact. cbn [negb].
  change (CompletedEvaluation.robustGeneration result) with (ticket_generation (CompletedEvaluation.ticket result)).
  change (CompletedEvaluation.index result) with (ticket_index (CompletedEvaluation.ticket result)).
  rewrite Ht2, Ht3, !Z.eqb_refl. cbn [negb]. rewrite (proj2 (Z.leb_gt _ _)) by lia. rewrite !int_result_ok by lia. cbn [rbind].
  apply wp_ok. set (s1 := set_robustnessPass_ _ s). assert (frame s s1) as Hf by (by split).
  assert (standing 2 0 s1) as Hs1 by (eapply standing_fewer; [exact Hs | done | done | lia]).
  assert (finite_samples (RobustnessPassState.samples (robustnessPass_ s1))) as Hfin1
    by (apply Forall_app; split; [done | repeat constructor; apply Hscore]).
  split; [done |]. split; [done |]. split; [done |]. split; [done |]. split; [done |]. cbn [robustnessPass_ s1 set_robustnessPass_ RobustnessPassState.pendingSamples].
  destruct (Z.ltb_spec 0 (RobustnessPassState.pendingSamples (robustnessPass_ s) - 1)).
  - split; try exact Htick; try done; cbn [robustnessPass_ s1 set_robustnessPass_ RobustnessPassState.pendingSamples
      RobustnessPassState.completedSamples RobustnessPassState.targetEvalCount RobustnessPassState.samples]; try lia.
    + rewrite length_app. cbn. lia.
    + change (awaited held s1) with (awaited held s). lia.
  - split; [destruct (awaited held s); [done | cbn in Hcount; lia] |]. cbn. rewrite length_app. cbn. lia.
Qed.

Lemma finalizeRobustnessPass_ok now s :
  standing 2 0 s -> finite_samples (RobustnessPassState.samples (robustnessPass_ s)) ->
  RobustnessPassState.active (robustnessPass_ s) = true ->
  RobustnessPassState.pendingSamples (robustnessPass_ s) = 0 ->
  RobustnessPassState.targetEvalCount (robustnessPass_ s) = EvolutionConfig.robustFitnessEvaluationCount (config s) ->
  Z.of_nat (length (RobustnessPassState.samples (robustnessPass_ s))) = EvolutionConfig.robustFitnessEvaluationCount (config s) ->
  wp (finalizeRobustnessPass now s) (fun s' =>
    frame s s' /\ standing 1 0 s' /\ RobustnessPassState.active (robustnessPass_ s') = false).
Proof.
  intros Hs Hfin Hact Hpend Htarget Hlen. unfold finalizeRobustnessPass. rewrite Hact, Hpend. cbn [negb]. rewrite Z.ltb_irrefl.
  set (reset := set_robustnessPass_ RobustnessPassState.reset s).
  assert (frame s reset /\ standing 1 0 reset /\ RobustnessPassState.active (robustnessPass_ reset) = false) as Hreset.
  { split; [by split |]. split; [| done]. eapply standing_fewer; [exact Hs | by split | done | lia]. }
  destruct (inPopulation _ s) eqn:Ei; cbn [negb]; [| by apply wp_ok]. apply wp_bind, wp_vec_get; [by apply in_population |].
  intros individual _. destruct (Individual.genome individual) as [genome |]; [| by apply wp_ok]. clear reset Hreset.
  set (samples := drop _ _). set (s1 := set_best _ s). assert (frame s s1) as Hf by (by split).
  assert (standing 2 0 s1) as Hs1 by (eapply standing_fewer; [exact Hs | done | done | lia]).
  assert (Z.of_nat (length samples) <= EvolutionConfig.robustFitnessEvaluationCount (config s)) as Hl
    by (unfold samples; rewrite length_drop; lia).
  apply wp_bind. eapply wp_mono; [apply promote_ok; [exact Hs1 | |] |].
  - assert (finite_samples samples) as Hsf by (by apply finite_drop).
    split; cbn; [| by apply computeMedian_not_nan | done]. apply finite_not_nan.
    destruct (is_finite (PendingBestState.robustnessFirstSample _)) eqn:Ef; [done |]. destruct samples; [done |].
    by apply Forall_cons in Hsf as [? _].
  - match goal with |- evaluations ?m <= _ => pose proof (evaluations_bound m) as He end.
    cbn [trainingMetadata GenomeMetadata.robustEvalCount GenomeMetadata.robustFitnessSamples] in He.
    change (evaluationsPerGenome s1) with (evaluationsPerGenome s). unfold evaluationsPerGenome. lia.
  - intros s2 (Hf2 & Hr2 & _ & Ha2). apply wp_ok.
    assert (frame s (set_pendingBest_ PendingBestState.reset (set_robustnessPass_ RobustnessPassState.reset s2))) as Hf3.
    { eapply frame_trans; [exact Hf |]. destruct Hf2. by split. }
    split; [done |]. split; [| done]. eapply standing_frame; [exact Hs | exact Hf3 | exact Ha2].
Qed.
End Steps.
