(* ===== verification/EvolutionGenerations.v ===== *)
(** From one generation to the next: the statistics, the checkpoint, the survivors
    and their offspring. *)

From Stdlib Require Import ZArith Lia Bool String.
From Stdlib Require Import SpecFloat.
From stdpp Require Import base gmap option numbers list sorting strings pretty.
From S2P Require Import Prelude Ieee IeeeRound StdModel Uuid Genomes GenomeFacts Training TrainingFacts Mutation MutationFacts.
From S2P Require Import EvaluationTypes.
From S2P Require Import EvolutionTypes Evolution EvolutionScores EvolutionSurvivors EvolutionBreeding EvolutionInvariant EvolutionSteps.
Import Evolution.

Set Default Goal Selector "!".

Section Generations.
Context {R D A E SC Snapshot : Type} `{RE : !RandomEngine R, RL : !RandomLaws R, ND : !NormalDistribution R D,
    SH : !Shuffle R, HL : !ShuffleLaws R, UW : !UnorderedWalk, UL : !UnorderedWalkLaws, SS : !StdSort, SL : !StdSortLaws,
    GA : !GenomeArchive A, AL : !ArchiveLaws A, ES : !EvaluationService E SC, EL : !EvaluationServiceLaws E SC,
    EC : !EvaluationCollector E Snapshot, CL : !EvaluationCollectorLaws E SC Snapshot,
    ET : !EvaluationTuning E, TL : !EvaluationTuningLaws E SC}.
Context (brainRegistry_ : TrainingBrainRegistry R) (organism : OrganismType) (W : Z).
Abbreviation State := (t (R := R) (A := A) (E := E) (SC := SC) (Snapshot := Snapshot)).
Abbreviation standing := (standing (SC := SC) (Snapshot := Snapshot) brainRegistry_ organism W).
Abbreviation closing := (closing (SC := SC) (Snapshot := Snapshot) brainRegistry_ organism W).
Abbreviation Inv := (Inv (SC := SC) (Snapshot := Snapshot) brainRegistry_ organism W).
Abbreviation individual_ok := (individual_ok (SC := SC) brainRegistry_ organism W).
Implicit Types s : State.

(** ** Sizes *)
Lemma size_bounds spare seen s : standing spare seen s ->
  0 < size_ s < 2 ^ 31 /\ size_ s <= 2 * EvolutionConfig.populationSize (config s).
Proof.
  intros [[_ Hn _ HG Hb _ _ _ _ _ _] [Hsize _ _ _ _ _] _ _ _ _ _ _]. unfold config in *. unfold populationAt in Hsize.
  destruct (generation_ s =? 0); nia.
Qed.

Lemma completed_bound spare seen s : standing spare seen s ->
  0 <= Progress.completedEvaluations_ (progress s) /\
  Progress.completedEvaluations_ (progress s) <=
    EvolutionConfig.maxGenerations (config s) * (2 * EvolutionConfig.populationSize (config s)) + Progress.currentEval (progress s) - size_ s.
Proof.
  intros H. destruct (size_bounds _ _ _ H) as [H1 H2]. destruct H as [[_ Hn _ HG Hb _ _ _ _ _ _] [Hsize _ _ _ _ _] [_ Hg Hc ->] _ _ _ _ _].
  fold (config s) in *. pose proof (evaluationsBefore_bound (EvolutionConfig.populationSize (config s)) (generation_ s) ltac:(lia) ltac:(lia)).
  pose proof (evaluationsBefore_next (EvolutionConfig.populationSize (config s)) (generation_ s) ltac:(lia)) as Hnext.
  pose proof (evaluationsBefore_bound (EvolutionConfig.populationSize (config s)) (generation_ s + 1) ltac:(lia) ltac:(lia)). nia.
Qed.

(** ** The statistics of the generation *)
Lemma standing_statistics spare seen s st :
  standing spare seen s -> Statistics.generationTelemetry_ st = Statistics.generationTelemetry_ (statistics s) ->
  standing spare seen (set_statistics st s).
Proof.
  intros [H1 [P1 P2 P3 P4 P5 P6] [Q1 Q2 Q3 Q4] H4 H5 H6 H7 H8] He. split; try done. cbn. by rewrite He.
Qed.

Lemma updateTrainingPhaseTelemetry_ok spare s :
  closing spare 0 s -> wp (updateTrainingPhaseTelemetry s) (fun s' => closing spare 1 s' /\ laterWork s' = laterWork s).
Proof.
  intros [Hs Hi Ha Ho]. pose proof Hs as [[_ _ _ HG Hev _ _ Hsw Hrw _ _] _ [_ Hg _ _] _ _ Ht _ _].
  destruct (size_bounds _ _ _ Hs). pose proof Hs as [[_ Hn _ _ _ _ _ _ _ _ _] _ _ _ _ _ _ _]. fold (config s) in *.
  unfold updateTrainingPhaseTelemetry. apply wp_bind.
  eapply wp_mono; [apply (updateCompletedGeneration_ok (generation_ s)); [by rewrite Z.add_0_r in Ht | nia | done | done] |].
  intros [t u] Ht'. apply wp_ok. split; [| done]. split; [| done ..].
  destruct Hs as [H1 [P1 P2 P3 P4 P5 P6] [Q1 Q2 Q3 Q4] H4 H5 H6 H7 H8]. by split.
Qed.

Lemma captureLastGenerationFitnessDistribution_ok spare seen s :
  closing spare seen s -> wp (captureLastGenerationFitnessDistribution s) (fun s' => closing spare seen s' /\ laterWork s' = laterWork s).
Proof.
  intros [Hs Hi Ha Ho]. destruct (size_bounds _ _ _ Hs). pose proof Hs as [_ [_ Hsc _ _ Hf _] _ _ _ _ _ _].
  unfold size_ in *. destruct (distribution_ok s) as (average & lo & hi & bins & E1 & _); [lia | lia | by apply Forall_take |].
  rewrite E1. apply wp_ok. split; [| done]. split; [| done ..]. by apply standing_statistics.
Qed.

Lemma captureLastGenerationTelemetry_ok spare seen s : closing spare seen s -> closing spare seen (captureLastGenerationTelemetry s).
Proof. intros [Hs Hi Ha Ho]. split; [| done ..]. by apply standing_statistics. Qed.

(** ** The training is complete *)
Lemma estimate_all st : settings_ok organism W st ->
  let c := Settings.evolutionConfig st in
  estimateTotalEvaluations c = evaluationsBefore (EvolutionConfig.populationSize c) (EvolutionConfig.maxGenerations c).
Proof.
  intros [_ Hn _ HG Hev _ _ _ _ _ _] c. fold c in Hn, HG, Hev. unfold estimateTotalEvaluations, evaluationsBefore.
  rewrite !(proj2 (Z.leb_gt _ _)), (proj2 (Z.eqb_neq _ _)) by lia. cbn [orb].
  destruct (Z.ltb_spec 1 (EvolutionConfig.maxGenerations c)); rewrite (proj2 (Z.ltb_ge _ _)) by nia; nia.
Qed.

Lemma evaluationsBefore_mono n g g' : 0 <= n -> 0 <= g <= g' -> evaluationsBefore n g <= evaluationsBefore n g'.
Proof. intros Hn Hg. unfold evaluationsBefore. destruct (Z.eqb_spec g 0), (Z.eqb_spec g' 0); nia. Qed.

(** The evaluations of this generation are among those to come. *)
Lemma completed_estimate spare seen s : standing spare seen s ->
  Progress.completedEvaluations_ (progress s) + (size_ s - Progress.currentEval (progress s)) <= estimateTotalEvaluations (config s).
Proof.
  intros [Hset [Hsize _ _ _ _ _] [_ Hg Hc ->] _ _ _ _ _]. unfold config. rewrite (estimate_all _ Hset). fold (config s).
  pose proof (evaluationsBefore_next (EvolutionConfig.populationSize (config s)) (generation_ s) ltac:(lia)) as Hnext.
  pose proof (so_population _ _ _ Hset) as Hn. fold (config s) in Hn.
  pose proof (evaluationsBefore_mono (EvolutionConfig.populationSize (config s)) (generation_ s + 1)
    (EvolutionConfig.maxGenerations (config s)) ltac:(lia) ltac:(lia)). lia.
Qed.

Lemma laterWork_nonneg spare seen s : standing spare seen s -> 0 <= laterWork s.
Proof.
  intros Hs. pose proof (completed_estimate _ _ _ Hs). destruct Hs as [_ _ [_ Hg Hc _] _ _ _ _ _].
  unfold laterWork, samplesPerPass. nia.
Qed.

Lemma completeTraining_ok spare seen s :
  closing spare seen s -> EvolutionConfig.maxGenerations (config s) <= generation_ s + 1 -> Inv [] (completeTraining s).
Proof.
  intros [Hs Hi Ha Ho] Hlast. pose proof Hs as [Hset [Hsize _ _ _ _ _] [_ Hg _ Hc] Hx _ _ _ _]. apply Complete; [done |].
  split; try done. change (config (completeTraining s)) with (config s). cbn. rewrite Hc, Ha, Hsize.
  rewrite <- evaluationsBefore_next by lia.
  replace (generation_ s + 1) with (EvolutionConfig.maxGenerations (config s)) by lia.
  unfold config. symmetry. by apply estimate_all.
Qed.

(** ** The checkpoint *)
Lemma wing_loop_ok wings scores i d :
  0 <= i -> i + Z.of_nat (length wings) <= Z.of_nat (length scores) -> 0 <= flapCount d <= i -> Z.of_nat (length scores) < 2 ^ 31 ->
  wp (wing_loop wings scores i d) (fun _ => True).
Proof.
  revert i d. induction wings as [| w wings IH]; intros i d Hi Hl Hd Hb; cbn [wing_loop length] in *; [done |].
  apply wp_bind, wp_vec_get; [lia |]. intros f _. destruct (fgt w _); [rewrite int_result_ok by lia; cbn [rbind] |];
    apply IH; cbn; lia.
Qed.

Lemma best_scored_ok population scores i found :
  0 <= i -> i + Z.of_nat (length scores) <= Z.of_nat (length population) ->
  Forall score_ok scores ->
  (forall k individual f, found = Some (k, individual, f) -> Individual.genome individual <> None /\ score_ok f) ->
  wp (best_scored population scores i found) (fun found' =>
    forall k individual f, found' = Some (k, individual, f) -> Individual.genome individual <> None /\ score_ok f).
Proof.
  revert i found. induction scores as [| f scores IH]; intros i found Hi Hl Hsc Hf; cbn [best_scored length] in *; [by apply wp_ok |].
  apply Forall_cons in Hsc as [Hf0 Hsc].
  apply wp_bind, wp_vec_get; [lia |]. intros individual _. apply IH; [lia | lia | done |].
  destruct (Individual.genome individual) eqn:Eg; [| done]. destruct found as [[[? ?] bestFit] |].
  - destruct (fgt f bestFit); [| done]. intros k j g [= <- <- <-]. split; [by rewrite Eg | done].
  - intros k j g [= <- <- <-]. split; [by rewrite Eg | done].
Qed.

Lemma storeBestGenome_ok now seen s :
  standing 1 seen s -> wp (storeBestGenome now s) (fun s' =>
    frame s s' /\ standing 0 seen s' /\ robustnessPass_ s' = robustnessPass_ s).
Proof.
  intros Hs. pose proof Hs as [_ [_ Hsc _ _ Hfit _] Hp _ _ _ _ _ _]. unfold storeBestGenome.
  assert (frame s s /\ standing 0 seen s /\ robustnessPass_ s = robustnessPass_ s) as Hsame.
  { split; [apply frame_refl |]. split; [| done]. eapply standing_fewer; [exact Hs | apply frame_refl | done | lia]. }
  destruct (_ || _); [by apply wp_ok |]. apply wp_bind.
  eapply wp_mono; [apply best_scored_ok; [done | rewrite Hsc; lia | done | done] |].
  intros [[[k individual] bestFit] |] Hfound; [| by apply wp_ok]. destruct (Hfound _ _ _ eq_refl) as [Hgenome Hscore].
  destruct (Individual.genome individual) as [genome |]; [| done]. clear Hsame.
  apply wp_bind. eapply wp_mono; [apply (store_spare 0); [done | by eapply standing_stocked | done | |] |].
  - split; [by apply score_not_nan | done | constructor].
  - match goal with |- evaluations ?m <= _ => pose proof (evaluations_bound m) as He end.
    cbn [trainingMetadata GenomeMetadata.robustEvalCount GenomeMetadata.robustFitnessSamples length] in He.
    change (evaluations (trainingMetadata s individual (TrainingSpec.scenarioId (Settings.trainingSpec (settings s)))
      ("checkpoint_gen_" +:+ pretty (Progress.generation (progress s))) bestFit fzero 0 [] (Progress.generation (progress s)) now)
      <= evaluationsPerGenome s * 0). lia.
  - intros [a id] Ha. apply wp_ok. set (s' := set_best _ _). assert (frame s s') as Hf by (by split).
    split; [done |]. split; [| done]. by eapply standing_frame.
Qed.

(** ** The survivors *)
Definition survivorPopulation (c : EvolutionConfig.t) (n : Z) (p q : Population.t) : Prop :=
  if Population.pruneBeforeBreeding_ p then
    exists survivors, selection c (Z.min n (Z.of_nat (length (Population.population p)))) p survivors /\ q = survived survivors p
  else q = p.

Lemma ranking_individual p r : r ∈ ranking p -> RankedIndividual.individual r ∈ Population.population p.
Proof.
  unfold ranking. intros (i & [individual f] & -> & Hi)%elem_of_lookup_imap_1. cbn.
  apply list_elem_of_lookup_2 in Hi. by apply list_elem_of_In, in_combine_l, list_elem_of_In in Hi.
Qed.

Lemma selected_ranked config keep p survivors r : selection config keep p survivors -> r ∈ survivors -> r ∈ ranking p.
Proof.
  intros [_ (ranked & elites & Hperm & _ & _ & _ & H2)] Hr. rewrite <- Hperm.
  apply list_elem_of_lookup in Hr as [i Hi]. destruct (Forall2_lookup_r _ _ _ _ _ H2 Hi) as (x & _ & Hx).
  by eapply list_elem_of_lookup_2.
Qed.

Lemma individual_ok_parentFitness override e f i :
  individual_ok override e i -> individual_ok override e (Individual.set_parentFitness f i).
Proof. by destruct i. Qed.

Lemma pruned_ok spare seen s :
  standing spare seen s ->
  wp (pruneToSurvivors (EvolutionConfig.populationSize (config s)) s) (fun s' => exists q, s' = set_pop q s /\
    survivorPopulation (config s) (EvolutionConfig.populationSize (config s)) (pop s) q /\
    Z.of_nat (length (Population.population q)) = EvolutionConfig.populationSize (config s) /\
    length (Population.fitnessScores q) = length (Population.population q) /\ Forall score_ok (Population.fitnessScores q) /\
    Forall (individual_ok (scenarioConfigOverride_ s) (executor_ s)) (Population.population q)).
Proof.
  intros Hs. destruct (size_bounds _ _ _ Hs) as [Hb _].
  pose proof Hs as [[_ Hn _ _ _ _ _ _ _ _ _] [Hsize Hsc _ Hpr Hf Hi] [_ Hg _ _] _ _ _ _ _]. fold (config s) in *.
  unfold survivorPopulation. destruct (Population.pruneBeforeBreeding_ (pop s)) eqn:Eprune.
  - assert (generation_ s =? 0 = false) as Hg0 by (by destruct (generation_ s =? 0)).
    unfold populationAt in Hsize. rewrite Hg0 in Hsize. unfold size_ in *.
    assert (Forall not_nan (Population.fitnessScores (pop s))) as Hnan by (eapply Forall_impl; [exact Hf | exact score_not_nan]).
    eapply wp_mono; [apply pruneToSurvivors_ok; [done | done | intros E0; rewrite E0 in Hb; cbn in Hb; lia | done | lia | done] |].
    intros s' (survivors & Hsel & ->). exists (survived survivors (pop s)). split; [done |]. split; [by exists survivors |].
    cbn [Population.population Population.fitnessScores survived]. rewrite !length_map, (sel_count _ _ _ _ Hsel).
    split; [lia |]. split; [done |].
    pose proof (proj1 (Forall_forall _ _) Hf) as Hf'. pose proof (proj1 (Forall_forall _ _) Hi) as Hi'. split; apply Forall_forall.
    + intros f (r & -> & Hr%(selected_ranked _ _ _ _ _ Hsel))%list_elem_of_fmap. apply Hf'. rewrite <- (ranking_scores (pop s)) by done.
      apply list_elem_of_fmap. by exists r.
    + intros i (r & -> & Hr%(selected_ranked _ _ _ _ _ Hsel))%list_elem_of_fmap.
      apply individual_ok_parentFitness, Hi'. by apply ranking_individual.
  - unfold pruneToSurvivors. rewrite Eprune. apply wp_ok. exists (pop s). split; [by destruct s |]. split; [done |].
    assert (generation_ s =? 0 = true) as Hg0 by (by destruct (generation_ s =? 0)).
    unfold populationAt in Hsize. rewrite Hg0 in Hsize. done.
Qed.

(** ** The offspring *)

Lemma child_ok override e parent f origin child :
  child_of parent f origin child -> individual_ok override e parent -> individual_ok override e child.
Proof.
  intros Hc [Hb Hr]. split; [by eapply child_breedable |]. destruct Hc as [Hk Hv Hsc _ _ _ _].
  intros g index generation Hi. destruct (Hr g index generation Hi) as [H1 H2].
  unfold robustRequest, makeEvaluationRequest, makeEvaluationIndividual in *. destruct child, parent. cbn in *. subst. done.
Qed.

Lemma brood_individuals override e q size n children origins :
  brood_of brainRegistry_ organism q size n children origins -> Forall (individual_ok override e) (Population.population q) ->
  Forall (individual_ok override e) children.
Proof.
  intros [_ H2 _] Hq. apply Forall_lookup. intros j child Hj. destruct (Forall2_lookup_l _ _ _ _ _ H2 Hj) as (origin & _ & i & parent & f & Hp & _ & Hc).
  eapply child_ok; [exact Hc |]. rewrite Forall_lookup in Hq. by eapply Hq.
Qed.

Lemma breed_standing spare seen s q :
  standing spare seen s ->
  Z.of_nat (length (Population.population q)) = EvolutionConfig.populationSize (config s) ->
  length (Population.fitnessScores q) = length (Population.population q) -> Forall score_ok (Population.fitnessScores q) ->
  Forall (individual_ok (scenarioConfigOverride_ s) (executor_ s)) (Population.population q) ->
  wp (breed brainRegistry_ (EvolutionConfig.populationSize (config s)) (set_pop q s)) (fun s' =>
    exists children origins effective st rng',
      brood_of brainRegistry_ organism q (EvolutionConfig.tournamentSize (config s)) (EvolutionConfig.populationSize (config s)) children origins /\
      budgets_ok (EffectiveAdaptiveMutation.mutationConfig effective) /\
      Statistics.generationTelemetry_ st = Statistics.generationTelemetry_ (statistics s) /\
      s' = set_pop (Population.mk (Population.population q ++ children) (Population.populationOrigins q ++ origins)
                      (Population.fitnessScores q) (Population.wingUpSecondsPerIndividual q) true)
             (set_statistics st (set_rng rng' (set_lastEffectiveAdaptiveMutation_ effective (set_pop q s))))).
Proof.
  intros Hs Hl Hsc Hf Hi. destruct (size_bounds _ _ _ Hs) as [Hb _].
  pose proof Hs as [[Ho Hn Ht _ Hev HW0 Hw _ Hrw _ Hbud] [Hsize _ _ _ _ _] _ _ _ [_ Hrec] Heff _]. fold (config s) in *.
  eapply wp_mono; [apply (breed_ok brainRegistry_ organism W (EvolutionConfig.populationSize (config s)) (set_pop q s)); try done |
    by intros s' (children & origins & effective & st & rng' & _ & _ & H'); exists children, origins, effective, st, rng'].
  assert (size_ s >= EvolutionConfig.populationSize (config s)) as Hge
    by (unfold populationAt in Hsize; destruct (generation_ s =? 0); lia).
  split; [cbn; lia | done | eapply Forall_impl; [exact Hf | exact score_not_nan] |].
  eapply Forall_impl; [exact Hi |]. by intros i [? _].
Qed.

(** ** The next generation *)
Lemma nextGeneration_ok s :
  0 <= generation_ s -> 0 < EvolutionConfig.maxGenerations (config s) < 2 ^ 31 ->
  generation_ s + 1 < EvolutionConfig.maxGenerations (config s) ->
  let n := length (Population.population (pop s)) in
  nextGeneration s = Ok (set_pop (Population.mk (Population.population (pop s)) (Population.populationOrigins (pop s))
      (replicate n fzero) (replicate n fzero) (Population.pruneBeforeBreeding_ (pop s)))
    (set_statistics (Statistics.set_telemetry GenerationTelemetry.reset (statistics s))
      (set_progress (Progress.mk (generation_ s + 1) 0 (Progress.completedEvaluations_ (progress s)) fzero
         (Progress.cumulativeSimTime_ (progress s)) (Progress.trainingComplete_ (progress s))
         (Progress.finalAverageFitness_ (progress s))) s))).
Proof.
  intros Hg HG Hn n. unfold generation_ in *. unfold nextGeneration. rewrite int_result_ok by lia. cbn [rbind].
  by rewrite (proj2 (Z.leb_gt _ _)), (proj2 (Z.ltb_lt _ _)) by lia.
Qed.

(** ** The number of evaluations at once *)
Lemma tunedConcurrency_positive avgCpu target current workers : 1 <= current -> 1 <= tunedConcurrency avgCpu target current workers.
Proof.
  intros H. unfold tunedConcurrency. destruct (fgt _ _ && (1 <? current)) eqn:E1; [apply andb_true_iff in E1 as [_ E1]; lia |].
  destruct (flt _ _ && _); lia.
Qed.

(** Only the executor and the samples change. *)
Lemma adjustConcurrency_ok s : service_ready (executor_ s) -> exists e v,
  adjustConcurrency s = set_executor_ e (set_tuning v s) /\ held_on (executor_ s) e.
Proof.
  intros Hr. assert (held_on (executor_ s) (executor_ s)) as Hsame by by split.
  unfold adjustConcurrency. destruct (_ || _); [exists (executor_ s), (tuning s); split; [by destruct s | done] |].
  cbv zeta. case_match; [by eexists (executor_ s), _ |]. eexists _, _. split; [reflexivity |].
  apply allowed_on; [exact Hr |]. apply tunedConcurrency_positive. by apply allowed_some.
Qed.

(** What becomes of the population. *)
Definition advanced s s' : Prop := exists q children origins,
  survivorPopulation (config s) (EvolutionConfig.populationSize (config s)) (pop s) q /\
  brood_of brainRegistry_ organism q (EvolutionConfig.tournamentSize (config s)) (EvolutionConfig.populationSize (config s)) children origins /\
  Population.population (pop s') = Population.population q ++ children /\
  Population.populationOrigins (pop s') = Population.populationOrigins q ++ origins.

(** [s'] begins the generation after [s]. *)
Definition begun s s' : Prop := standing 2 0 s' /\ advanced s s' /\
  RobustnessPassState.active (robustnessPass_ s') = false /\ Progress.currentEval (progress s') = 0 /\
  outstanding (executor_ s') = [] /\ config s' = config s /\ generation_ s' = generation_ s + 1 /\
  Progress.completedEvaluations_ (progress s') = Progress.completedEvaluations_ (progress s).

Lemma adjusted_begun s s' : begun s s' -> begun s (adjustConcurrency s').
Proof.
  intros (Hs & Ha & Hr & Hc & Ho & H). destruct (adjustConcurrency_ok s') as (e & v & -> & He & Hout & Hacc); [by destruct Hs |].
  split; [| split; [exact Ha |]; split; [exact Hr |]; split; [exact Hc |]; split; [| exact H]].
  - apply standing_executor; [| exact He | exact Hacc]. eapply standing_fewer; [exact Hs | by split | done | lia].
  - cbn. apply Permutation_nil. by rewrite Hout, Ho.
Qed.

Lemma advanceGeneration_ok now s :
  closing 1 1 s -> generation_ s + 1 < EvolutionConfig.maxGenerations (config s) ->
  wp (advanceGeneration brainRegistry_ now s) (begun s).
Proof.
  intros [Hs Hi Ha Ho] Hlast. destruct (size_bounds _ _ _ Hs) as [Hb _].
  pose proof Hs as [[_ Hn _ HG Hev _ _ _ _ _ _] [_ Hsc Hw _ _ _] _ _ _ _ _ _]. fold (config s) in *. unfold size_ in Hb.
  unfold advanceGeneration. apply wp_bind. unfold wingDiagnostics.
  eapply wp_mono; [apply wing_loop_ok; cbn [flapCount]; lia |]. intros _ _.
  apply wp_bind, wp_assert; [by rewrite Hi |]. set (s1 := set_pendingBest_ _ s).
  assert (standing 1 1 s1) as Hs1 by (eapply standing_fewer; [exact Hs | by split | done | lia]).
  apply wp_bind. apply wp_mono with (P := fun s2 => frame s s2 /\ standing 0 1 s2 /\ robustnessPass_ s2 = robustnessPass_ s).
  { destruct (_ =? 0).
    { eapply wp_mono; [by apply storeBestGenome_ok |]. intros s2 (Hf & Hs2 & Hr). split; [| done]. eapply frame_trans; [| exact Hf]. by split. }
    apply wp_ok. split; [by split |]. split; [| done].
    eapply standing_fewer; [exact Hs1 | by split | done | lia]. }
  intros s2 (Hf & Hs2 & Hr2). pose proof Hf as [F1 F2 F3 F4 F5 F6 F7 F8]. unfold config in Hn. rewrite <- F1 in Hn. fold (config s2) in Hn.
  apply wp_bind, wp_assert; [lia |]. apply wp_bind. eapply wp_mono; [exact (pruned_ok _ _ _ Hs2) |].
  intros s3 (q & -> & Hq & Hql & Hqs & Hqf & Hqi). apply wp_bind. eapply wp_mono; [exact (breed_standing _ _ _ q Hs2 Hql Hqs Hqf Hqi) |].
  intros s4 (children & origins & effective & st & rng' & Hbrood & Heff & Hst & ->).
  assert (config s2 = config s) as Ec by (unfold config; by rewrite F1).
  assert (generation_ s2 = generation_ s) as Eg by (unfold generation_; by rewrite F4).
  pose proof Hs2 as [H1 _ [Q1 Q2 Q3 Q4] H4 _ H6 _ H8]. rewrite nextGeneration_ok; [| exact (proj1 Q2) | | ].
  2: { cbn. change (0 < EvolutionConfig.maxGenerations (config s2) < 2 ^ 31). rewrite Ec in Hn |- *. nia. }
  2: { change (generation_ s2 + 1 < EvolutionConfig.maxGenerations (config s2)). by rewrite Eg, Ec. }
  cbn [rbind]. apply wp_ok, adjusted_begun. cbn [pop Population.population Population.populationOrigins set_pop set_statistics set_progress].
  set (s5 := set_pop _ _). assert (config s5 = config s2) as E5 by done.
  assert (generation_ s5 = generation_ s + 1) as G5 by (change (generation_ s2 + 1 = generation_ s + 1); by rewrite Eg).
  assert (populationAt (EvolutionConfig.populationSize (config s2)) (generation_ s + 1) = 2 * EvolutionConfig.populationSize (config s2)) as Hat.
  { unfold populationAt. rewrite (proj2 (Z.eqb_neq _ _)); [done |]. rewrite <- Eg. lia. }
  assert (size_ s5 = 2 * EvolutionConfig.populationSize (config s2)) as Hsize5.
  { unfold size_. cbn. rewrite length_app. destruct Hbrood. lia. }
  split; [| split; [exists q, children, origins; rewrite F3, Ec in Hq; rewrite Ec in Hbrood; by repeat (split; [assumption |]) |]].
  2: { split; [by change (RobustnessPassState.active (robustnessPass_ s2) = false); rewrite Hr2 |]. split; [done |].
       split; [by change (outstanding (executor_ s2) = []); rewrite F5 |]. split; [by rewrite E5 |].
       split; [done |]. change (Progress.completedEvaluations_ (progress s2) = Progress.completedEvaluations_ (progress s)). by rewrite F4. }
  split; [exact H1 | split | split | exact H4 | by apply telemetry_reset | | exact Heff | | by destruct Hs2].
  - rewrite Hsize5, E5, G5. by rewrite Hat.
  - apply length_replicate.
  - apply length_replicate.
  - change (true = negb (generation_ s5 =? 0)). rewrite G5, (proj2 (Z.eqb_neq _ _)); [done | lia].
  - by apply Forall_replicate, fzero_ok.
  - apply Forall_app. split; [exact Hqi |]. by eapply brood_individuals.
  - exact Q1.
  - rewrite G5, E5, Ec. lia.
  - cbn. lia.
  - rewrite E5, G5. change (Progress.currentEval (progress s5)) with 0. change (Progress.completedEvaluations_ (progress s5)) with (Progress.completedEvaluations_ (progress s2)).
    rewrite Q4, Eg, evaluationsBefore_next, F4, Ha by lia. pose proof Hs as [_ [-> _ _ _ _ _] _ _ _ _ _ _]. by rewrite Ec, Z.add_0_r.
  - change (tracker_ok (generation_ s5 + 0) (trainingPhaseTracker_ s2)). rewrite G5. rewrite Eg in H6. by rewrite Z.add_0_r.
  - change (let later := EvolutionConfig.maxGenerations (config s2) - generation_ s5 - 1 in
      archive_ready (2 * later + 2) (evaluationsPerGenome s2 * (later + 2 / 2)) (archive s2)).
    change (2 / 2) with 1. change (0 / 2) with 0 in H8. cbv zeta in *. rewrite G5. rewrite Eg in H8.
    replace (EvolutionConfig.maxGenerations (config s2) - (generation_ s + 1) - 1 + 1) with (EvolutionConfig.maxGenerations (config s2) - generation_ s - 1 + 0) by lia.
    replace (2 * (EvolutionConfig.maxGenerations (config s2) - (generation_ s + 1) - 1) + 2) with (2 * (EvolutionConfig.maxGenerations (config s2) - generation_ s - 1) + 0) by lia.
    exact H8.
Qed.
End Generations.
