(* ===== verification/EvolutionResults.v ===== *)
(** A result preserves the invariant: the training never faults, whatever the order
    of the results. *)

From Stdlib Require Import ZArith Lia Bool String.
From Stdlib Require Import SpecFloat.
From stdpp Require Import base gmap option numbers list sorting strings pretty.
From S2P Require Import Prelude Ieee IeeeRound StdModel Uuid Genomes GenomeFacts Training TrainingFacts Mutation MutationFacts.
From S2P Require Import EvaluationTypes.
From S2P Require Import EvolutionTypes Evolution EvolutionScores EvolutionSurvivors EvolutionBreeding EvolutionInvariant EvolutionSteps.
From S2P Require Import EvolutionGenerations.
Import Evolution.

Set Default Goal Selector "!".

Section Results.
Context {R D A E SC Snapshot : Type} `{RE : !RandomEngine R, RL : !RandomLaws R, ND : !NormalDistribution R D,
    SH : !Shuffle R, HL : !ShuffleLaws R, UW : !UnorderedWalk, UL : !UnorderedWalkLaws, SS : !StdSort, SL : !StdSortLaws,
    GA : !GenomeArchive A, AL : !ArchiveLaws A, ES : !EvaluationService E SC, EL : !EvaluationServiceLaws E SC,
    EC : !EvaluationCollector E Snapshot, CL : !EvaluationCollectorLaws E SC Snapshot,
    ET : !EvaluationTuning E, TL : !EvaluationTuningLaws E SC}.
Context (brainRegistry_ : TrainingBrainRegistry R) (organism : OrganismType) (W : Z).
Abbreviation State := (t (R := R) (A := A) (E := E) (SC := SC) (Snapshot := Snapshot)).
Abbreviation standing := (standing (SC := SC) (Snapshot := Snapshot) brainRegistry_ organism W).
Abbreviation closing := (closing (SC := SC) (Snapshot := Snapshot) brainRegistry_ organism W).
Abbreviation Inv := (Inv (SC := SC) (Snapshot := Snapshot) brainRegistry_ organism W).
Abbreviation individual_ok := (individual_ok (SC := SC) brainRegistry_ organism W).
Implicit Types s : State.

(** ** Queueing a generation *)
Lemma generationRequests_lookup population k :
  generationRequests population !! k = (fun i => makeEvaluationRequest i (Z.of_nat k)) <$> population !! k.
Proof. unfold generationRequests. by rewrite list_lookup_imap. Qed.

Lemma generationRequests_tickets population :
  NoDup (map EvaluationRequest.ticket (generationRequests population)) /\
  Forall (generation_ticket (Z.of_nat (length population))) (map EvaluationRequest.ticket (generationRequests population)) /\
  length (map EvaluationRequest.ticket (generationRequests population)) = length population.
Proof.
  assert (forall k t, map EvaluationRequest.ticket (generationRequests population) !! k = Some t ->
            t = mkTicket GenerationEval (Z.of_nat k) (-1) 0 /\ (k < length population)%nat) as Ht.
  { intros k t. change map with (@fmap list _). rewrite list_lookup_fmap, generationRequests_lookup.
    destruct (population !! k) eqn:Ek; [| done]. intros [= <-]. split; [done |]. by apply lookup_lt_Some in Ek. }
  split; [| split].
  - apply NoDup_alt. intros i j t Hi%Ht Hj%Ht. destruct Hi as [-> _], Hj as [[= ] _]. lia.
  - apply Forall_lookup. intros k t [-> Hk]%Ht. split; [done | cbn; lia].
  - rewrite length_map. apply length_imap.
Qed.

Lemma queueGenerationTasks_ok s :
  standing 2 0 s -> RobustnessPassState.active (robustnessPass_ s) = false -> Progress.currentEval (progress s) = 0 ->
  outstanding (executor_ s) = [] -> wp (queueGenerationTasks s) (fun s' => Inv [] s' /\ remaining s' = laterWork s + samplesPerPass s).
Proof.
  intros Hs Hi Hc Ho. destruct (size_bounds _ _ _ _ _ _ Hs) as [Hb _]. pose proof Hs as [_ [_ _ _ _ _ HF] _ Hready _ _ _ _].
  unfold queueGenerationTasks. apply wp_bind. eapply wp_mono; [apply (batch_submitted _ _ _ _ Hready Ho) |].
  - apply Forall_lookup. intros k r. rewrite generationRequests_lookup. by destruct (_ !! k); [intros [= <-] |].
  - apply Forall_lookup. intros k r. rewrite generationRequests_lookup. destruct (_ !! k) as [i |] eqn:Ek; [| done]. intros [= <-].
    rewrite Forall_lookup in HF. destruct (HF k i Ek) as [_ Hr].
    destruct (Hr (Individual.genome i) (Z.of_nat k) 0 ltac:(lia)) as [H _]. by rewrite set_own_genome in H.
  - intros e (He & Hout & Hkeep). apply wp_ok.
    split; [| by unfold remaining; cbn; rewrite Hi; destruct Hs as [_ _ [-> _ _ _] _ _ _ _ _] ].
    apply Generating; [by apply standing_executor |].
    destruct (generationRequests_tickets (Population.population (pop s))) as (H1 & H2 & H3).
    split; [exact Hi | | | |]; unfold awaited; cbn [map app]; change (executor_ (set_executor_ e s)) with e;
      change (size_ (set_executor_ e s)) with (size_ s); change (progress (set_executor_ e s)) with (progress s).
    + rewrite Hc. lia.
    + by rewrite Hout.
    + by rewrite Hout.
    + rewrite Hout, H3, Hc. unfold size_. lia.
Qed.

(** ** Closing a generation *)
Lemma closeGeneration_ok now s :
  closing 1 0 s -> wp (closeGeneration brainRegistry_ now s) (fun s' => Inv [] s' /\ remaining s' <= laterWork s).
Proof.
  intros Hc. unfold closeGeneration. apply wp_bind. eapply wp_mono; [by apply updateTrainingPhaseTelemetry_ok |]. clear Hc.
  intros s1 [Hc E1]. rewrite <- E1. clear s E1. apply wp_bind. eapply wp_mono; [by apply captureLastGenerationFitnessDistribution_ok |].
  clear Hc. intros s [Hc E1]. rewrite <- E1. clear s1 E1. apply captureLastGenerationTelemetry_ok in Hc.
  change (laterWork s) with (laterWork (captureLastGenerationTelemetry s)).
  revert Hc. generalize (captureLastGenerationTelemetry s). clear s.
  intros s Hc. pose proof Hc as [Hs Hi Ha Ho]. pose proof Hs as [[_ Hn _ HG Hev _ _ _ _ _ _] _ [_ Hg _ _] _ _ _ _ _]. fold (config s) in *.
  rewrite (proj2 (Z.ltb_lt _ _)) by lia. change (Progress.generation (progress s)) with (generation_ s).
  rewrite int_result_ok by nia. cbn [rbind].
  destruct (Z.leb_spec (EvolutionConfig.maxGenerations (config s)) (generation_ s + 1)).
  - apply wp_ok. split; [by eapply completeTraining_ok |]. change (0 <= laterWork s). by eapply laterWork_nonneg.
  - apply wp_bind. eapply wp_mono; [by apply advanceGeneration_ok |].
    intros s' (Hs' & _ & Hi' & Hc' & Ho' & Ec & Eg & Ed). eapply wp_mono; [by apply queueGenerationTasks_ok |].
    intros s'' [Hinv ->]. split; [done |]. unfold laterWork, samplesPerPass. rewrite Ec, Eg, Ed. lia.
Qed.

Lemma closing_fewer spare spare' seen s s' :
  closing spare seen s -> frame s s' -> archive s' = archive s -> 0 <= spare' <= spare ->
  RobustnessPassState.active (robustnessPass_ s') = false -> closing spare' seen s'.
Proof.
  intros [Hs Hi Ha Ho] Hf Har Hsp Hi'. pose proof Hf as [F1 F2 F3 F4 F5 F6 F7 F8].
  split; [by eapply standing_fewer | done | unfold size_; by rewrite F4, F3 | by rewrite F5].
Qed.

(** Every individual is evaluated: the robust pass starts, or the generation ends. *)
Lemma finishGeneration_ok now s :
  closing 2 0 s -> wp (maybeCompleteGeneration brainRegistry_ now s) (fun s' => Inv [] s' /\ remaining s' <= laterWork s + samplesPerPass s).
Proof.
  intros Hc. pose proof Hc as [Hs Hi Ha Ho]. destruct (size_bounds _ _ _ _ _ _ Hs) as [Hb _].
  unfold maybeCompleteGeneration. fold (size_ s). rewrite wrap_s_small by lia. rewrite Ha, Z.ltb_irrefl.
  unfold resolveRobustnessPassSampleCount at 1.
  destruct (Z.leb_spec (EvolutionConfig.robustFitnessEvaluationCount (config s)) 0) as [Hr | Hr].
  - rewrite Z.leb_refl. apply wp_bind. eapply wp_mono; [by apply finalizePendingBestWithoutRobustnessPass_ok |].
    intros s' (Hf & Hs' & Hr' & Hp'). pose proof Hf as [F1 F2 F3 F4 F5 F6 F7 F8 _].
    assert (closing 1 0 s') as Hc' by (split; [done | by rewrite Hr' | unfold size_; by rewrite F4, F3 | by rewrite F5]).
    unfold startRobustnessPass. rewrite (cl_inactive _ _ _ _ _ _ Hc'), Hp'. cbn [negb rbind].
    rewrite (cl_inactive _ _ _ _ _ _ Hc').
    assert (laterWork s' = laterWork s) as El by (unfold laterWork, samplesPerPass, config, generation_; by rewrite F1, F4).
    eapply wp_mono; [by apply closeGeneration_ok |]. intros s'' [Hinv Hrem]. split; [done |]. unfold samplesPerPass. lia.
  - rewrite (proj2 (Z.leb_gt _ _)) by lia. cbn [rbind]. apply wp_bind. eapply wp_mono; [by apply startRobustnessPass_ok |].
    intros s' [[Hc' | [Hs' Hv]] [E1 E2]].
    + rewrite (cl_inactive _ _ _ _ _ _ Hc').
      eapply wp_mono; [apply closeGeneration_ok; eapply closing_fewer; [exact Hc' | apply frame_refl | done | lia | by destruct Hc'] |].
      intros s'' [Hinv Hrem]. split; [done |]. rewrite E1 in Hrem. unfold samplesPerPass. lia.
    + rewrite (va_active _ _ Hv), (proj2 (Z.ltb_lt _ _)) by apply Hv. apply wp_ok. split; [by apply Validating |].
      pose proof Hv as [V1 _ V3 _ V5 V6 _ _ _ _]. unfold remaining. destruct Hs' as [_ _ [-> _ _ _] _ _ _ _ _]. rewrite V1, E1.
      assert (RobustnessPassState.pendingSamples (robustnessPass_ s') <= samplesPerPass s); [| lia].
      rewrite <- E2. unfold samplesPerPass. lia.
Qed.

(** ** A result of the generation *)
Lemma noteResult_ok (result : CompletedEvaluation.t Snapshot) s :
  standing 2 0 s -> Progress.currentEval (progress s) < size_ s -> 0 <= CompletedEvaluation.index result < size_ s ->
  score_ok (CompletedEvaluation.totalFitness result) ->
  wp (noteResult result s) (fun s' => standing 2 0 s' /\ size_ s' = size_ s /\ executor_ s' = executor_ s /\
    robustnessPass_ s' = robustnessPass_ s /\ Progress.currentEval (progress s') = Progress.currentEval (progress s) + 1 /\
    laterWork s' = laterWork s - 1 /\ samplesPerPass s' = samplesPerPass s).
Proof.
  intros Hs Hlt Hi Hf. destruct (size_bounds _ _ _ _ _ _ Hs) as [Hb _]. destruct (completed_bound _ _ _ _ _ _ Hs) as [Hc0 Hc1].
  pose proof Hs as [H1 [P1 P2 P3 P4 P5 P6] [Q1 Q2 Q3 Q4] H4 H5 H6 H7 H8]. pose proof (so_evaluations _ _ _ H1) as Hev. fold (config s) in Hev.
  unfold noteResult. apply wp_bind, wp_vec_get; [done |]. intros individual _. apply wp_bind.
  eapply wp_mono; [apply (noteOrigin_ok (Progress.currentEval (progress s))); [done | lia] |]. intros telemetry Ht.
  unfold size_ in *. apply wp_bind, wp_vec_set; [lia |]. apply wp_bind.
  apply wp_mono with (P := fun wings => length wings = length (Population.population (pop s))).
  { destruct (FitnessEvaluation.wingUpSeconds _); [| by apply wp_ok]. apply wp_vec_set; [lia | by rewrite length_insert]. }
  intros wings Hw. rewrite !int_result_ok by (cbn; lia). cbn [rbind]. apply wp_ok.
  split; [| unfold laterWork; cbn; repeat (split; [done |]); split; [unfold samplesPerPass, config, generation_; cbn; lia | done]].
  split; try done.
  - split; try done; cbn; [by rewrite length_insert |]. by apply Forall_insert.
  - split; try done.
    + cbn. unfold size_. cbn. lia.
    + change (Progress.completedEvaluations_ (progress s) + 1 =
        evaluationsBefore (EvolutionConfig.populationSize (config s)) (generation_ s) + (Progress.currentEval (progress s) + 1)). lia.
Qed.

Lemma noteBest_ok (result : CompletedEvaluation.t Snapshot) s :
  0 <= CompletedEvaluation.index result < size_ s -> score_ok (CompletedEvaluation.totalFitness result) ->
  wp (noteBest result s) (fun s' => frame s s' /\ archive s' = archive s /\ robustnessPass_ s' = robustnessPass_ s).
Proof.
  intros Hi Hsc. unfold noteBest. apply wp_bind, wp_vec_get; [done |]. intros individual _.
  set (withoutGenome := match Individual.genome individual with None => true | Some _ => false end).
  set (s1 := if withoutGenome && _ then _ else s).
  assert (frame s s1 /\ archive s1 = archive s /\ robustnessPass_ s1 = robustnessPass_ s) as (Hf & Ha & Hr)
    by (unfold s1; destruct (withoutGenome && _); by split).
  clearbody s1. destruct (negb (fgt _ _)); [apply wp_ok; by split |]. clearbody withoutGenome. destruct withoutGenome; cbn [negb]; apply wp_ok.
  - split; [| by split]. eapply frame_trans; [exact Hf | by split].
  - unfold noteCandidate. destruct (_ || _); [| by split]. split; [| by split]. eapply frame_trans; [exact Hf |].
    split; try done. intros _. apply Hsc.
Qed.

Lemma generation_result_ok now (result : CompletedEvaluation.t Snapshot) held s :
  standing 2 0 s -> generating (result :: held) s -> score_ok (CompletedEvaluation.totalFitness result) ->
  wp (processResult brainRegistry_ now result s) (fun s' => Inv held s' /\ remaining s' < remaining s).
Proof.
  intros Hs [Hact Hmore Hnd Htick Hcount] Hf. rewrite awaited_cons in Hnd, Htick, Hcount. cbn [length] in Hcount.
  apply NoDup_cons in Hnd as [_ Hnd]. apply Forall_cons in Htick as [[Htask Hidx] Htick].
  cbn [CompletedEvaluation.ticket ticket_task ticket_index] in Htask, Hidx. unfold processResult, inPopulation. fold (size_ s).
  rewrite (proj2 (Z.leb_le _ _)), (proj2 (Z.ltb_lt _ _)) by lia. cbn [andb negb]. rewrite Htask. cbn [decide].
  rewrite decide_False by done. apply wp_bind. eapply wp_mono; [by apply noteResult_ok |].
  intros s1 (Hs1 & Hsize1 & He1 & Hr1 & Hc1 & Hw1 & Hp1). apply wp_bind. eapply wp_mono; [apply noteBest_ok; [by rewrite Hsize1 | done] |].
  intros s2 (Hf2 & Ha2 & Hr2). assert (standing 2 0 s2) as Hs2 by (eapply standing_fewer; [exact Hs1 | done | done | lia]).
  assert (size_ s2 = size_ s) as Hsize2 by (unfold size_; rewrite (fr_pop _ _ Hf2); exact Hsize1).
  assert (Progress.currentEval (progress s2) = Progress.currentEval (progress s) + 1) as Hc2 by (by rewrite (fr_progress _ _ Hf2)).
  assert (executor_ s2 = executor_ s) as He2 by (by rewrite (fr_executor _ _ Hf2)).
  assert (RobustnessPassState.active (robustnessPass_ s2) = false) as Hi2 by (by rewrite Hr2, Hr1).
  assert (awaited held s2 = awaited held s) as Haw by (unfold awaited; by rewrite He2).
  assert (remaining s = laterWork s + samplesPerPass s) as Hrem
    by (unfold remaining; rewrite Hact; destruct Hs as [_ _ [-> _ _ _] _ _ _ _ _]; done).
  assert (laterWork s2 = laterWork s - 1 /\ samplesPerPass s2 = samplesPerPass s) as [Hw2 Hp2].
  { rewrite <- Hw1, <- Hp1. unfold laterWork, samplesPerPass, config, generation_. by rewrite (fr_settings _ _ Hf2), (fr_progress _ _ Hf2). }
  destruct (decide (Progress.currentEval (progress s2) = size_ s2)) as [Hfull | Hnot].
  - assert (awaited held s = []) as Hnil by (destruct (awaited held s); [done | cbn in Hcount; lia]).
    apply app_nil in Hnil as [Hheld Ho]. assert (held = []) as -> by (by destruct held).
    eapply wp_mono; [apply finishGeneration_ok; split; [done | done | done | by rewrite He2] |].
    intros s3 [Hinv Hle]. split; [done | lia].
  - unfold maybeCompleteGeneration. fold (size_ s2). destruct (size_bounds _ _ _ _ _ _ Hs2) as [Hb _]. rewrite wrap_s_small by lia.
    rewrite (proj2 (Z.ltb_lt _ _)) by lia. apply wp_ok.
    split; [| unfold remaining at 1; rewrite Hi2; destruct Hs2 as [_ _ [-> _ _ _] _ _ _ _ _]; lia].
    apply Generating; [done |]. split; rewrite ?Haw; try done; [lia | by rewrite Hsize2 | lia].
Qed.

Lemma sample_result_ok now (result : CompletedEvaluation.t Snapshot) held s :
  standing 2 0 s -> validating (result :: held) s -> score_ok (CompletedEvaluation.totalFitness result) ->
  wp (processResult brainRegistry_ now result s) (fun s' => Inv held s' /\ remaining s' < remaining s).
Proof.
  intros Hs Hv Hsc. pose proof Hv as [_ Hall _ _ _ _ _ Hidx Htick _ _]. rewrite awaited_cons in Htick.
  apply Forall_cons in Htick as [(Htask & Hi & _) _]. cbn [CompletedEvaluation.ticket ticket_task ticket_index] in Htask, Hi.
  unfold processResult, inPopulation. fold (size_ s). rewrite (proj2 (Z.leb_le _ _)), (proj2 (Z.ltb_lt _ _)) by lia. cbn [andb negb].
  rewrite Htask, decide_True by done. apply wp_bind. eapply wp_mono; [by apply handleRobustnessSampleResult_ok |].
  intros s1 (Hs1 & Hact & Hf & Hfin & Hpend & Hcase). pose proof Hf as [F1 F2 F3 F4 F5 F6 F7 F8].
  assert (size_ s1 = size_ s) as Hsize by (unfold size_; by rewrite F3).
  assert (remaining s = laterWork s + RobustnessPassState.pendingSamples (robustnessPass_ s)) as Hrem
    by (unfold remaining; rewrite (va_active _ _ Hv); destruct Hs as [_ _ [-> _ _ _] _ _ _ _ _]; done).
  assert (forall s', frame s s' -> laterWork s' = laterWork s) as Hlater.
  { intros s' []. unfold laterWork, samplesPerPass, config, generation_. congruence. }
  pose proof (Hlater s1 Hf) as Hw1.
  unfold maybeCompleteGeneration. fold (size_ s1). destruct (size_bounds _ _ _ _ _ _ Hs1) as [Hb _]. rewrite wrap_s_small by lia.
  rewrite F4, Hall, Hsize, Z.ltb_irrefl.
  assert (EvolutionConfig.robustFitnessEvaluationCount (config s1) = EvolutionConfig.robustFitnessEvaluationCount (config s)) as Ec
    by (unfold config; by rewrite F1).
  assert (0 < EvolutionConfig.robustFitnessEvaluationCount (config s)) as Hpos.
  { destruct (0 <? RobustnessPassState.pendingSamples (robustnessPass_ s1)); [| by destruct Hcase as (_ & _ & _ & ? & _)].
    destruct Hcase as [_ _ Ht Hp Hcp Hsum _ _ _ _]. rewrite <- Ec. lia. }
  unfold resolveRobustnessPassSampleCount. pose proof (proj2 (Z.leb_gt _ 0) Hpos) as Eleb. rewrite Ec, Eleb, Eleb. cbn [rbind].
  unfold startRobustnessPass. rewrite Hact. cbn [rbind]. rewrite Hact.
  destruct (0 <? RobustnessPassState.pendingSamples (robustnessPass_ s1)) eqn:Epend.
  { apply wp_ok. split; [by apply Validating |]. rewrite Hrem. unfold remaining. rewrite Hact, Hw1, Hpend. destruct Hs1 as [_ _ [-> _ _ _] _ _ _ _ _]. lia. }
  destruct Hcase as (Hnil & Hp & Ht & _ & Hl). apply app_nil in Hnil as [Hheld Ho]. assert (held = []) as -> by (by destruct held).
  apply wp_bind. eapply wp_mono; [apply finalizeRobustnessPass_ok; [done | done | done | done | by rewrite Ec | by rewrite Ec] |].
  intros s2 (Hf2 & Hs2 & Hi2). pose proof Hf2 as [G1 G2 G3 G4 G5 G6 G7 G8].
  eapply wp_mono; [apply closeGeneration_ok; split; [done | done | unfold size_; rewrite G4, G3, F4, F3; exact Hall | by rewrite G5, F5] |].
  intros s3 [Hinv Hle]. split; [done |]. rewrite (Hlater s2) in Hle by (by eapply frame_trans). lia.
Qed.

(** Whatever the training awaits, it takes, and then less is still to come. *)
Lemma processResult_ok now (result : CompletedEvaluation.t Snapshot) held s :
  Inv (result :: held) s -> score_ok (CompletedEvaluation.totalFitness result) ->
  wp (processResult brainRegistry_ now result s) (fun s' => Inv held s' /\ remaining s' < remaining s).
Proof.
  intros [Hs Hg | Hs Hv | Hn _] Hf; [by apply generation_result_ok | by apply sample_result_ok | done].
Qed.

Lemma processResults_ok now results s :
  Inv results s -> Forall (fun r : CompletedEvaluation.t Snapshot => score_ok (CompletedEvaluation.totalFitness r)) results ->
  wp (processResults brainRegistry_ now results s) (fun s' =>
    Inv [] s' /\ remaining s' + Z.of_nat (length results) <= remaining s).
Proof.
  revert s. induction results as [| r results IH]; intros s Hs HF; cbn [processResults]; [apply wp_ok; cbn; split; [done | lia] |].
  apply Forall_cons in HF as [Hr HF]. apply wp_bind. eapply wp_mono; [by apply processResult_ok |].
  intros s' [Hs' Hlt]. eapply wp_mono; [by apply IH |]. intros s'' [Hinv Hle]. split; [done | cbn [length]; lia].
Qed.

(** ** The server's tick *)

(** The results that a tick handles: those of the background evaluations, then
    those of the visible ones. *)
Definition tickResults (now : Z) (cpu : option f64) s : list (CompletedEvaluation.t Snapshot) :=
  let s := sampleCpu cpu s in
  let '(executor, drained) := completedDrain (executor_ s) in
  drained ++
  match processResults brainRegistry_ now drained (set_executor_ executor s) with
  | Ok s' => if Progress.trainingComplete_ (progress s') then [] else snd (visibleTick (executor_ s'))
  | Fault _ => []
  end.

Definition scored (results : list (CompletedEvaluation.t Snapshot)) : Prop :=
  Forall (fun r => score_ok (CompletedEvaluation.totalFitness r)) results.

(** The executor hands out what it holds. *)
Lemma Inv_executor s e (results : list (CompletedEvaluation.t Snapshot)) :
  Inv [] s -> Progress.trainingComplete_ (progress s) = false -> service_ready e ->
  map CompletedEvaluation.ticket results ++ outstanding e ≡ₚ outstanding (executor_ s) ->
  (forall r o, acceptable r o (executor_ s) -> acceptable r o e) -> Inv results (set_executor_ e s).
Proof.
  intros Hinv Hopen He Hperm Hkeep. destruct Hinv as [Hs Hg | Hs Hv | _ Hc]; [| | by rewrite (co_complete _ _ _ Hc) in Hopen].
  - apply Generating; [by apply standing_executor |]. destruct Hg as [Hi Hm Hnd Ht Hc]. unfold awaited in *. cbn [map app] in *.
    split; try done; unfold awaited; change (executor_ (set_executor_ e s)) with e; by rewrite Hperm.
  - apply Validating; [by apply standing_executor |]. destruct Hv as [V1 V2 V3 V4 V5 V6 V7 V8 V9 V10]. unfold awaited in *. cbn [map app] in *.
    split; try done; unfold awaited; change (executor_ (set_executor_ e s)) with e; by rewrite Hperm.
Qed.

Lemma Inv_held_on s e : Inv [] s -> held_on (executor_ s) e -> Inv [] (set_executor_ e s).
Proof.
  intros Hinv (H1 & H2 & H3). destruct (Progress.trainingComplete_ (progress s)) eqn:Eo.
  - apply Complete; [done |]. destruct Hinv as [[_ _ [] _ _ _ _ _] _ | [_ _ [] _ _ _ _ _] _ | _ [C1 C2 C3 C4 C5]]; [congruence | congruence |].
    split; try done. cbn. apply Permutation_nil. by rewrite H2, C5.
  - by apply Inv_executor.
Qed.

Lemma Inv_tuning held s v : Inv held s -> Inv held (set_tuning v s).
Proof.
  intros [Hs [] | Hs [] | Hn []]; [apply Generating; [eapply standing_fewer; [exact Hs | by split | done | lia] | by split]
    | apply Validating; [eapply standing_fewer; [exact Hs | by split | done | lia] | by split] | apply Complete; [done | by split]].
Qed.

Lemma Inv_ready held s : Inv held s -> service_ready (executor_ s).
Proof. by intros [[] | [] | _ []]. Qed.

Lemma pause_ok b s : Inv [] s -> Inv [] (pauseSet b s).
Proof.
  intros H. unfold pauseSet. destruct (Bool.eqb _ _); [done |].
  apply Inv_held_on; [by apply Inv_tuning |]. apply paused_on. by eapply Inv_ready.
Qed.

Lemma sampleCpu_tuning cpu s : exists v, sampleCpu cpu s = set_tuning v s.
Proof.
  assert (s = set_tuning (tuning s) s) as Hs by (by destruct s).
  unfold sampleCpu. destruct cpu as [percent |]; [| by exists (tuning s)].
  destruct (_ && _); [by eexists | by exists (tuning s)].
Qed.

Lemma training_tick_ok now cpu s :
  Inv [] s -> Progress.trainingComplete_ (progress s) = false -> scored (tickResults now cpu s) ->
  wp (tick brainRegistry_ now cpu s) (fun s' =>
    Inv [] s' /\ remaining s' + Z.of_nat (length (tickResults now cpu s)) <= remaining s).
Proof.
  unfold tick, tickResults, drainResults. destruct (sampleCpu_tuning cpu s) as [v ->]. intros Hinv Eo Hsc. rewrite Eo.
  apply (Inv_tuning _ _ v) in Hinv. change (remaining s) with (remaining (set_tuning v s)).
  change (Progress.trainingComplete_ (progress s)) with (Progress.trainingComplete_ (progress (set_tuning v s))) in Eo.
  revert Hinv Eo Hsc. generalize (set_tuning v s). clear s v. intros s Hinv Eo Hsc. pose proof (Inv_ready _ _ Hinv) as Hready.
  pose proof (drained (SC := SC) (Snapshot := Snapshot) (executor_ s) Hready) as (D1 & D2 & D3).
  destruct (completedDrain (executor_ s)) as [e1 r1]. cbn [fst snd] in *.
  pose proof (Inv_executor s e1 r1 Hinv Eo D1 D2 D3) as H1. apply Forall_app in Hsc as [Hs1 Hs2].
  apply wp_bind. pose proof (processResults_ok now r1 _ H1 Hs1) as H2. apply wp_elim in H2 as (s2 & E2 & H2 & Hle2). rewrite E2 in *.
  change (remaining (set_executor_ e1 s)) with (remaining s) in Hle2. rewrite length_app.
  apply wp_ok. destruct (Progress.trainingComplete_ (progress s2)) eqn:Eo2; [apply wp_ok; split; [done | cbn; lia] |].
  pose proof (Inv_ready _ _ H2) as Hready2.
  pose proof (shown (SC := SC) (Snapshot := Snapshot) (executor_ s2) Hready2) as (V1 & V2 & V3).
  destruct (visibleTick (executor_ s2)) as [e2 r2]. cbn [fst snd] in *.
  eapply wp_mono; [apply processResults_ok; [by apply Inv_executor | done] |]. intros s3 [Hinv3 Hle3]. split; [done |].
  change (remaining (set_executor_ e2 s2)) with (remaining s2) in Hle3. lia.
Qed.
End Results.
