(* ===== verification/EvolutionStart.v ===== *)
(** Entering the training establishes the invariant; the mutation controls keep it. *)

From Stdlib Require Import ZArith Lia Bool String.
From Stdlib Require Import SpecFloat.
From stdpp Require Import base gmap option numbers list sorting strings pretty.
From S2P Require Import Prelude Ieee IeeeRound StdModel Uuid Genomes GenomeFacts Training TrainingFacts Mutation MutationFacts.
From S2P Require Import EvaluationTypes.
From S2P Require Import EvolutionTypes Evolution EvolutionScores EvolutionSurvivors EvolutionBreeding EvolutionInvariant EvolutionSteps.
From S2P Require Import EvolutionGenerations EvolutionResults.
Import Evolution.

Set Default Goal Selector "!".

Section Start.
Context {R D A E SC Snapshot : Type} `{RE : !RandomEngine R, RL : !RandomLaws R, ND : !NormalDistribution R D,
    SH : !Shuffle R, HL : !ShuffleLaws R, UW : !UnorderedWalk, UL : !UnorderedWalkLaws, SS : !StdSort, SL : !StdSortLaws,
    GA : !GenomeArchive A, AL : !ArchiveLaws A, ES : !EvaluationService E SC, EL : !EvaluationServiceLaws E SC,
    EC : !EvaluationCollector E Snapshot, CL : !EvaluationCollectorLaws E SC Snapshot,
    ET : !EvaluationTuning E, TL : !EvaluationTuningLaws E SC}.
Context (brainRegistry_ : TrainingBrainRegistry R) (organism : OrganismType) (W : Z).
Abbreviation State := (t (R := R) (A := A) (E := E) (SC := SC) (Snapshot := Snapshot)).
Abbreviation standing := (standing (SC := SC) (Snapshot := Snapshot) brainRegistry_ organism W).
Abbreviation closing := (closing (SC := SC) (Snapshot := Snapshot) brainRegistry_ organism W).
Abbreviation Inv := (Inv (SC := SC) (Snapshot := Snapshot) brainRegistry_ organism W).
Abbreviation individual_ok := (individual_ok (SC := SC) brainRegistry_ organism W).
Implicit Types s : State.

(** ** The mutation controls *)
Lemma clampZ_range v lo hi : lo <= hi -> lo <= clampZ v lo hi <= hi.
Proof. intros. unfold clampZ. destruct (Z.ltb_spec v lo), (Z.ltb_spec hi v); lia. Qed.

Lemma controls_settings command s :
  settings_ok organism W (settings s) -> settings_ok organism W (settings (fst (evolutionMutationControlsApply command s))).
Proof.
  intros [S1 S2 S3 S4 S5 S6 S7 S8 S9 S10 S11].
  pose proof (clampZ_range (MutationConfig.perturbationsPerOffspring (mc_mutationConfig command)) 0 5000 ltac:(lia)).
  pose proof (clampZ_range (MutationConfig.resetsPerOffspring (mc_mutationConfig command)) 0 200 ltac:(lia)).
  pose proof (clampZ_range (mc_stagnationWindowGenerations command) 1 100 ltac:(lia)).
  pose proof (clampZ_range (mc_recoveryWindowGenerations command) 0 100 ltac:(lia)).
  split; try done; try (cbn; lia). split; cbn; unfold int_range; lia.
Qed.

Lemma controls_standing command spare seen s :
  standing spare seen s -> standing spare seen (fst (evolutionMutationControlsApply command s)).
Proof.
  intros [H1 [P1 P2 P3 P4 P5 P6] [Q1 Q2 Q3 Q4] H4 H5 H6 H7 H8]. pose proof (controls_settings command s H1) as Hset.
  by split.
Qed.

Lemma controls_ok command held s : Inv held s -> Inv held (fst (evolutionMutationControlsApply command s)).
Proof.
  intros [Hs Hg | Hs Hv | Hn Hc].
  - apply Generating; [by apply controls_standing |]. destruct Hg. by split.
  - apply Validating; [by apply controls_standing |]. destruct Hv. by split.
  - apply Complete; [done |]. destruct Hc as [C1 C2 C3 C4 C5]. split; try done. by apply controls_settings.
Qed.

(** ** The first population *)
Context (archive_ : A) (override : option SC) (executor : E).

(** A genome that the brain's layout describes, if it may be mutated. *)
Definition fits (entry : BrainRegistryEntry.t R) (g : Genome.t) : Prop :=
  BrainRegistryEntry.allowsMutation entry = true -> exists layout,
    BrainRegistryEntry.getGenomeLayout entry = Some layout /\ layout_of layout g /\
    Z.of_nat (length (Genome.weights g)) <= W.

(** A population spec that the training accepts. *)
Record spec_ok (training : TrainingSpec.t) (spec : PopulationSpec.t) (entry : BrainRegistryEntry.t R) : Prop := {
  sp_entry : brainRegistry_ (TrainingSpec.organismType training) (PopulationSpec.brainKind spec)
               (default EmptyString (PopulationSpec.brainVariant spec)) = Some entry;
  sp_count : 0 <= PopulationSpec.count spec < 2 ^ 31;
  sp_random : 0 <= PopulationSpec.randomCount spec;
  sp_sum : if BrainRegistryEntry.requiresGenome entry
           then PopulationSpec.count spec = Z.of_nat (length (PopulationSpec.seedGenomes spec)) + PopulationSpec.randomCount spec
           else PopulationSpec.seedGenomes spec = [] /\ PopulationSpec.randomCount spec = 0;
  sp_seeds : forall id, id ∈ PopulationSpec.seedGenomes spec -> exists g, archive_get id archive_ = Some g /\ fits entry g;
  sp_create : 0 < PopulationSpec.randomCount spec -> exists create,
    BrainRegistryEntry.createRandomGenome entry = Some create /\
      forall rng, wp (create rng) (fun '(g, _) => fits entry g);
  sp_runnable : runnable override executor (newIndividual spec (TrainingSpec.scenarioId training) entry None)
}.

Notation made training spec entry g := (newIndividual spec (TrainingSpec.scenarioId training) entry g).

Lemma made_ok training spec entry g :
  TrainingSpec.organismType training = organism -> spec_ok training spec entry ->
  (forall g', g = Some g' -> fits entry g') -> individual_ok override executor (made training spec entry g).
Proof.
  intros Ho [He _ _ _ _ _ Hrun] Hg. split.
  - intros g' Hg' Ha. destruct (Hg g' Hg' Ha) as (layout & Hl & Hlo & Hw). exists entry, layout. by rewrite <- Ho.
  - intros g' index generation Hi. by apply (Hrun g').
Qed.

Lemma seed_individuals_ok training spec entry ids :
  TrainingSpec.organismType training = organism -> spec_ok training spec entry ->
  (forall id, id ∈ ids -> exists g, archive_get id archive_ = Some g /\ fits entry g) ->
  wp (seed_individuals ids (fun g => made training spec entry g) archive_) (fun l =>
    length l = length ids /\ Forall (individual_ok override executor) l).
Proof.
  intros Ho Hs. induction ids as [| id ids IH]; intros Hids; cbn [seed_individuals]; [by apply wp_ok |].
  destruct (Hids id ltac:(left)) as (g & -> & Hg). apply wp_bind. eapply wp_mono; [apply IH; intros; apply Hids; by right |].
  intros l [Hl HF]. apply wp_ok. split; [cbn; lia |]. constructor; [| done]. apply made_ok; [done | done |]. by intros g' [= <-].
Qed.

Lemma random_individuals_ok training spec entry n (rng : R) :
  TrainingSpec.organismType training = organism -> spec_ok training spec entry ->
  (0 < n)%nat -> (exists create, BrainRegistryEntry.createRandomGenome entry = Some create /\
    forall rng, wp (create rng) (fun '(g, _) => fits entry g)) ->
  wp (random_individuals n (BrainRegistryEntry.createRandomGenome entry) (fun g => made training spec entry g) rng) (fun '(l, _) =>
    length l = n /\ Forall (individual_ok override executor) l).
Proof.
  intros Ho Hs _ (create & -> & Hfits). revert rng. induction n as [| n IH]; intros rng; cbn [random_individuals]; [by apply wp_ok |].
  apply wp_bind. eapply wp_mono; [apply Hfits |]. intros [g rng'] Hg.
  apply wp_bind. eapply wp_mono; [apply IH |]. intros [l rng''] [Hl HF]. apply wp_ok. split; [cbn; lia |].
  constructor; [| done]. apply made_ok; [done | done |]. by intros g' [= <-].
Qed.

Lemma spec_individuals_ok training spec entry (rng : R) :
  TrainingSpec.organismType training = organism -> spec_ok training spec entry ->
  wp (spec_individuals brainRegistry_ training spec archive_ rng) (fun '(l, _) =>
    Z.of_nat (length l) = PopulationSpec.count spec /\ Forall (individual_ok override executor) l).
Proof.
  intros Ho Hs. pose proof Hs as [He Hc Hr Hsum Hseeds Hcreate _]. unfold spec_individuals. rewrite He.
  destruct (BrainRegistryEntry.requiresGenome entry).
  - rewrite int_result_ok by lia. cbn [rbind]. apply wp_bind, wp_assert; [lia |].
    apply wp_bind. eapply wp_mono; [by apply seed_individuals_ok |]. intros seeds [Hl HF]. apply wp_bind.
    apply wp_mono with (P := fun '(l, _) => Z.of_nat (length l) = PopulationSpec.randomCount spec /\ Forall (individual_ok override executor) l).
    { destruct (Z.to_nat (PopulationSpec.randomCount spec)) as [| n] eqn:En; [apply wp_ok; split; [cbn; lia | constructor] |].
      rewrite <- En. eapply wp_mono; [apply random_individuals_ok; [done | done | lia | apply Hcreate; lia] |].
      intros [l rng'] [H1 H2]. split; [lia | done]. }
    intros [randoms rng'] [Hl' HF']. apply wp_ok. rewrite length_app. split; [lia |]. by apply Forall_app.
  - destruct Hsum as [-> ->]. apply wp_bind, wp_assert; [done |]. apply wp_bind, wp_assert; [done |]. apply wp_ok.
    rewrite length_replicate. split; [lia |]. apply Forall_replicate, made_ok; done.
Qed.

Lemma population_loop_ok training specs (rng : R) :
  TrainingSpec.organismType training = organism -> Forall (fun spec => exists entry, spec_ok training spec entry) specs ->
  wp (population_loop brainRegistry_ training specs archive_ rng) (fun '(l, _) =>
    Z.of_nat (length l) = zsum (map PopulationSpec.count specs) /\ Forall (individual_ok override executor) l).
Proof.
  intros Ho HF. revert rng. induction HF as [| spec specs [entry Hs] HF IH]; intros rng; cbn [population_loop map]; [by apply wp_ok |].
  apply wp_bind. eapply wp_mono; [by apply (spec_individuals_ok _ _ entry) |]. intros [l rng'] [H1 H2]. apply wp_bind.
  eapply wp_mono; [apply IH |]. intros [l' rng''] [H3 H4]. apply wp_ok. rewrite length_app. cbn [zsum foldr].
  fold (zsum (map PopulationSpec.count specs)). split; [lia |]. by apply Forall_app.
Qed.
End Start.

(** ** Entering the state *)
Section Enter.
Context {R D A E SC Snapshot : Type} `{RE : !RandomEngine R, RL : !RandomLaws R, ND : !NormalDistribution R D,
    SH : !Shuffle R, HL : !ShuffleLaws R, UW : !UnorderedWalk, UL : !UnorderedWalkLaws, SS : !StdSort, SL : !StdSortLaws,
    GA : !GenomeArchive A, AL : !ArchiveLaws A, ES : !EvaluationService E SC, EL : !EvaluationServiceLaws E SC,
    EC : !EvaluationCollector E Snapshot, CL : !EvaluationCollectorLaws E SC Snapshot,
    ET : !EvaluationTuning E, TL : !EvaluationTuningLaws E SC}.
Context (brainRegistry_ : TrainingBrainRegistry R) (W : Z).
Abbreviation State := (t (R := R) (A := A) (E := E) (SC := SC) (Snapshot := Snapshot)).
Implicit Types s : State.

Definition requested (training : TrainingSpec.t) : Z := zsum (map PopulationSpec.count (TrainingSpec.population training)).

(** What the training is entered with: population specs that can be made, numbers
    that fit into [int]s, a repository and an executor that can take them. *)
Record launch_ok {Tok} (bootstrap : ScenarioId -> option SC -> Result Tok string)
    (start : TrainingSpec.t -> option Tok -> Z -> E) (override : option SC) (hardware : Z) s : Prop := {
  la_population : 0 < requested (Settings.trainingSpec (settings s));
  la_tokenizer : wp (trainingTokenizer bootstrap (Settings.trainingSpec (settings s)) override) (fun tokenizer =>
    let training := Settings.trainingSpec (settings s) in
    let parallel := resolveParallelEvaluations (EvolutionConfig.maxParallelEvaluations (config s)) (requested training) hardware in
    let e := start training tokenizer parallel in
    service_ready e /\ outstanding e = [] /\
    Forall (fun spec => exists entry, spec_ok brainRegistry_ W (archive s) override e training spec entry)
      (TrainingSpec.population training));
  la_tournament : 0 < EvolutionConfig.tournamentSize (config s);
  la_generations : 0 < EvolutionConfig.maxGenerations (config s);
  la_evaluations : EvolutionConfig.maxGenerations (config s) * (2 * requested (Settings.trainingSpec (settings s))) < 2 ^ 31;
  la_weights : 0 <= W;
  la_changes : requested (Settings.trainingSpec (settings s)) * W < 2 ^ 31;
  la_stagnation : EvolutionConfig.stagnationWindowGenerations (config s) < 2 ^ 30;
  la_recovery : EvolutionConfig.recoveryWindowGenerations (config s) < 2 ^ 31;
  la_robust : EvolutionConfig.robustFitnessEvaluationCount (config s) < 2 ^ 31;
  la_budgets : budgets_ok (Settings.mutationConfig (settings s));
  la_archive : archive_ready (2 * EvolutionConfig.maxGenerations (config s))
    (Z.max 1 (EvolutionConfig.robustFitnessEvaluationCount (config s)) * EvolutionConfig.maxGenerations (config s)) (archive s)
}.

Lemma onEnter_ok {Tok} bootstrap compatibility start sessionId deterministic pool seed hardware override s :
  launch_ok (Tok := Tok) bootstrap start override hardware s ->
  wp (onEnter brainRegistry_ bootstrap compatibility start sessionId deterministic pool seed hardware override s)
     (Inv brainRegistry_ (TrainingSpec.organismType (Settings.trainingSpec (settings s))) W []).
Proof.
  intros [L1 L2 L3 L4 L5 L6 L7 L8 L9 L10 L11 L12]. unfold onEnter. set (training := Settings.trainingSpec (settings s)) in *.
  set (parallel := resolveParallelEvaluations (EvolutionConfig.maxParallelEvaluations (config s)) (requested training) hardware).
  apply wp_bind. eapply wp_mono; [exact L2 |]. intros tokenizer L. cbv zeta in L. fold training parallel in L.
  destruct L as (Hready & Hidle & Hspecs).
  set (c := if deterministic then without_robust_pass (config s) else config s).
  assert (forall {B} (f : EvolutionConfig.t -> B), f (without_robust_pass (config s)) = f (config s) -> f c = f (config s)) as Hc
    by (intros B f Hf; unfold c; by destruct deterministic).
  assert (Z.max 1 (EvolutionConfig.robustFitnessEvaluationCount c) <= Z.max 1 (EvolutionConfig.robustFitnessEvaluationCount (config s)) /\
          EvolutionConfig.robustFitnessEvaluationCount c < 2 ^ 31) as [Hrob1 Hrob2] by (unfold c; destruct deterministic; cbn; lia).
  unfold initializePopulation. cbv zeta. cbn [settings Settings.trainingSpec archive rng].
  change (Settings.trainingSpec (settings s)) with training.
  assert (requested training < 2 ^ 31) as Hn by nia.
  apply wp_bind, wp_bind, wp_assert.
  { apply negb_true_iff, bool_decide_eq_false_2. intros H%nil_length_inv. unfold requested in L1. rewrite H in L1. done. }
  apply wp_bind. eapply wp_mono; [by apply (population_loop_ok brainRegistry_ (TrainingSpec.organismType training) W (archive s) override (start training tokenizer parallel)) |].
  intros [population rng'] [Hl HF]. fold (requested training) in Hl. apply wp_ok. cbn [settings Settings.evolutionConfig].
  cbn [pop Population.population set_settings with_config config Settings.evolutionConfig Settings.trainingSpec settings].
  rewrite Hl, wrap_s_small by lia. cbn [with_population EvolutionConfig.maxParallelEvaluations].
  rewrite (Hc _ EvolutionConfig.maxParallelEvaluations) by done. fold parallel.
  eapply wp_mono; [apply (queueGenerationTasks_ok brainRegistry_ (TrainingSpec.organismType training) W); [| done | done | exact Hidle] |];
    [| by intros s' [Hinv _] ].
  split; [split | split | split | exact Hready | by apply telemetry_reset | by split | exact L11 | |]; cbn; try done; try lia;
    try (rewrite Hc by done; assumption).
  - apply length_replicate.
  - apply length_resize.
  - by apply Forall_replicate, fzero_ok.
  - rewrite (Hc _ EvolutionConfig.maxGenerations) by done. lia.
  - unfold size_. cbn. lia.
  - rewrite (Hc _ EvolutionConfig.maxGenerations) by done. eapply ready_fewer; [| | exact L12]; [lia |].
    change (2 / 2) with 1. unfold evaluationsPerGenome. cbn. nia.
Qed.
End Enter.
