(* ===== verification/EvolutionCorrect.v ===== *)
(** What a training promises, against the interfaces of its executor and of its
    repository: it never faults, it never waits for nothing, and it ends. *)

From Stdlib Require Import ZArith Lia Bool String.
From Stdlib Require Import SpecFloat.
From stdpp Require Import base gmap option numbers list sorting strings pretty.
From S2P Require Import Prelude Ieee IeeeRound StdModel Uuid Genomes GenomeFacts Training TrainingFacts Mutation MutationFacts.
From S2P Require Import EvaluationTypes.
From S2P Require Import EvolutionTypes Evolution EvolutionScores EvolutionSurvivors EvolutionBreeding EvolutionInvariant EvolutionSteps.
From S2P Require Import EvolutionGenerations EvolutionResults EvolutionStart.
Import Evolution.

Set Default Goal Selector "!".

Section Correct.
Context {R D A E SC Snapshot : Type} `{RE : !RandomEngine R, RL : !RandomLaws R, ND : !NormalDistribution R D,
    SH : !Shuffle R, HL : !ShuffleLaws R, UW : !UnorderedWalk, UL : !UnorderedWalkLaws, SS : !StdSort, SL : !StdSortLaws,
    GA : !GenomeArchive A, AL : !ArchiveLaws A, ES : !EvaluationService E SC, EL : !EvaluationServiceLaws E SC,
    EC : !EvaluationCollector E Snapshot, CL : !EvaluationCollectorLaws E SC Snapshot,
    ET : !EvaluationTuning E, TL : !EvaluationTuningLaws E SC}.
Abbreviation State := (t (R := R) (A := A) (E := E) (SC := SC) (Snapshot := Snapshot)).
Implicit Types s : State.
Context (brainRegistry_ : TrainingBrainRegistry R).

(** What the executor does between two ticks: it keeps what it holds. *)
Context (works : E -> E -> Prop).
Context (works_ok : forall e e', service_ready e -> works e e' -> held_on e e').

(** ** Trainings *)
Inductive reachable : State -> Prop :=
| reach_enter W Tok bootstrap compatibility start sessionId deterministic pool seed hardware override s s' :
    launch_ok (Tok := Tok) brainRegistry_ W bootstrap start override hardware s ->
    onEnter brainRegistry_ bootstrap compatibility start sessionId deterministic pool seed hardware override s = Ok s' ->
    reachable s'
| reach_work s e : reachable s -> works (executor_ s) e -> reachable (set_executor_ e s)
| reach_controls s command : reachable s -> reachable (fst (evolutionMutationControlsApply command s))
| reach_pause s b : reachable s -> reachable (pauseSet b s)
| reach_tick now cpu s s' :
    reachable s -> scored (tickResults brainRegistry_ now cpu s) -> tick brainRegistry_ now cpu s = Ok s' -> reachable s'.

Lemma Inv_works organism W s e :
  Inv brainRegistry_ organism W [] s -> works (executor_ s) e -> Inv brainRegistry_ organism W [] (set_executor_ e s).
Proof.
  intros Hinv Hw. apply Inv_held_on; [done |]. apply works_ok; [by eapply Inv_ready | done].
Qed.

Lemma reachable_Inv s : reachable s -> exists organism W, Inv brainRegistry_ organism W [] s.
Proof.
  induction 1 as [W Tok bootstrap compatibility start sessionId deterministic pool seed hardware override s s' Hla He
    | s e _ (organism & W & IH) Hw | s command _ (organism & W & IH)
    | s b _ (organism & W & IH) | now cpu s s' _ (organism & W & IH) Hs Ht].
  - pose proof (onEnter_ok brainRegistry_ W bootstrap compatibility start sessionId deterministic pool seed hardware override s Hla) as H.
    rewrite He in H. by eexists _, W.
  - exists organism, W. by apply Inv_works.
  - exists organism, W. by apply controls_ok.
  - exists organism, W. by apply pause_ok.
  - exists organism, W. destruct (Progress.trainingComplete_ (progress s)) eqn:Eo.
    + unfold tick in Ht. rewrite Eo in Ht. by injection Ht as <-.
    + pose proof (training_tick_ok brainRegistry_ organism W now cpu s IH Eo Hs) as H. rewrite Ht in H. apply H.
Qed.

(** ** No fault *)


(** ** No deadlock *)

(** C10. Between two ticks a training is complete, all its evaluations counted and
    none left in the executor, or the executor holds just what it waits for: while
    a generation is evaluated, one ticket for each individual that has no result
    yet; while a candidate is validated, the samples that are missing. *)
Theorem training_waits (s : State) :
  reachable s ->
  let completed := Progress.completedEvaluations_ (progress s) in
  let total := estimateTotalEvaluations (config s) in
  let waiting := Z.of_nat (length (outstanding (executor_ s))) in
  if Progress.trainingComplete_ (progress s) then completed = total /\ waiting = 0
  else
    0 < waiting /\
    if RobustnessPassState.active (robustnessPass_ s)
    then completed <= total /\ waiting = RobustnessPassState.pendingSamples (robustnessPass_ s) /\
         Forall (sample_ticket (robustnessPass_ s)) (outstanding (executor_ s))
    else completed + waiting <= total /\ waiting = size_ s - Progress.currentEval (progress s) /\
         NoDup (outstanding (executor_ s)) /\ Forall (generation_ticket (size_ s)) (outstanding (executor_ s)).
Proof.
  intros H completed total waiting. destruct (reachable_Inv s H) as (organism & W & [Hs Hg | Hs Hv | _ [_ Hco Hcc _ Hci]]).
  - pose proof (completed_estimate _ _ _ _ _ _ Hs) as Hest. destruct Hs as [_ _ [-> _ _ _] _ _ _ _ _].
    destruct Hg as [Hi Hm Hnd Ht Hc]. rewrite Hi. change (awaited [] s) with (outstanding (executor_ s)) in *.
    subst completed total waiting. repeat split; try done; lia.
  - pose proof (completed_estimate _ _ _ _ _ _ Hs) as Hest. destruct Hs as [_ _ [-> _ Hc _] _ _ _ _ _].
    destruct Hv as [V1 V2 V3 V4 V5 V6 V7 V8 V9 V10]. rewrite V1. change (awaited [] s) with (outstanding (executor_ s)) in *.
    subst completed total waiting. repeat split; try done; lia.
  - rewrite Hco. subst completed total waiting. by rewrite Hci.
Qed.

(** ** The end *)
Lemma remaining_bounds organism W s : Inv brainRegistry_ organism W [] s ->
  0 <= remaining s /\ (Progress.trainingComplete_ (progress s) = false -> 0 < remaining s) /\
  remaining s <= estimateTotalEvaluations (config s) + samplesPerPass s * EvolutionConfig.maxGenerations (config s).
Proof.
  assert (0 <= samplesPerPass s) as Hsp by (unfold samplesPerPass; lia).
  intros [Hs Hg | Hs Hv | _ [Hset Hco Hcc _ Hci]]; unfold remaining.
  - pose proof (completed_estimate _ _ _ _ _ _ Hs) as Hest. pose proof (completed_bound _ _ _ _ _ _ Hs) as [Hc0 _].
    destruct Hs as [_ _ [-> Hgen Hc _] _ _ _ _ _]. rewrite (ge_inactive _ _ Hg). pose proof (ge_more _ _ Hg).
    unfold laterWork. nia.
  - pose proof (completed_estimate _ _ _ _ _ _ Hs) as Hest. pose proof (completed_bound _ _ _ _ _ _ Hs) as [Hc0 _].
    pose proof (laterWork_nonneg _ _ _ _ _ _ Hs). destruct Hs as [_ _ [-> Hgen Hc _] _ _ _ _ _].
    destruct Hv as [V1 V2 V3 V4 V5 V6 V7 V8 V9 V10]. rewrite V1.
    assert (RobustnessPassState.pendingSamples (robustnessPass_ s) <= samplesPerPass s) by (unfold samplesPerPass; lia).
    unfold laterWork in *. nia.
  - rewrite Hco. pose proof (estimate_all _ _ _ Hset) as Hest. destruct Hset as [_ Hn _ HG Hev _ _ _ _ _ _]. fold (config s) in *. split; [done |]. split; [done |].
    assert (0 <= estimateTotalEvaluations (config s)); [| nia]. rewrite Hest.
    apply evaluationsBefore_bound; lia.
Qed.

(** [n] ticks that each handle a result; in between the executor works, the training
    is paused and resumed, and its controls are set. *)
Inductive rounds : nat -> State -> State -> Prop :=
| rounds_none s : rounds 0 s s
| rounds_work n s e s' : works (executor_ s) e -> rounds n (set_executor_ e s) s' -> rounds n s s'
| rounds_controls n s command s' : rounds n (fst (evolutionMutationControlsApply command s)) s' -> rounds n s s'
| rounds_pause n s b s' : rounds n (pauseSet b s) s' -> rounds n s s'
| rounds_tick n now cpu s s1 s' :
    Progress.trainingComplete_ (progress s) = false ->
    tickResults brainRegistry_ now cpu s <> [] -> scored (tickResults brainRegistry_ now cpu s) ->
    tick brainRegistry_ now cpu s = Ok s1 -> rounds n s1 s' -> rounds (S n) s s'.

Lemma pause_remaining b s : remaining (pauseSet b s) = remaining s.
Proof. unfold pauseSet. by destruct (Bool.eqb _ _). Qed.

Lemma rounds_remaining organism W n s s' :
  Inv brainRegistry_ organism W [] s -> rounds n s s' -> Z.of_nat n + remaining s' <= remaining s.
Proof.
  intros Hinv H. revert Hinv. induction H as [s | n s e s' Hw _ IH | n s command s' _ IH | n s b s' _ IH | n now cpu s s1 s' Ho Hne Hs Ht _ IH];
    intros Hinv; [lia | | | |].
  - apply (IH (Inv_works _ _ _ _ Hinv Hw)).
  - apply (IH (controls_ok _ _ _ command _ s Hinv)).
  - specialize (IH (pause_ok _ _ _ b s Hinv)). by rewrite pause_remaining in IH.
  - pose proof (training_tick_ok brainRegistry_ organism W now cpu s Hinv Ho Hs) as H. rewrite Ht in H. destruct H as [Hinv1 Hle].
    specialize (IH Hinv1). destruct (tickResults brainRegistry_ now cpu s); [done | cbn [length] in Hle; lia].
Qed.
End Correct.
