(* ===== verification/EvolutionSystem.v ===== *)
(** The training on its executor and its repository: the [Evolution] state served by the workers of the
    [EvaluationExecutor].

    The theorems on the training are applied to the executor's implementation of
    its interface. Between two ticks the workers take any steps; the server's thread
    goes on when no worker holds the lock of the tasks (otherwise it waits).

    An archive is a repository with the random draws that its next genomes take
    their identifiers from. *)

From Stdlib Require Import ZArith Lia Bool String.
From Stdlib Require Import SpecFloat.
From stdpp Require Import base gmap option numbers list sorting strings pretty.
From S2P Require Import Prelude Ieee StdModel Uuid Genomes GenomeFacts GenomePrune GenomeCorrect Training Mutation.
From S2P Require Import EvaluationTypes EvaluationExecutor ExecutorFacts ExecutorRuns ExecutorCorrect.
From S2P Require Import EvolutionTypes Evolution EvolutionScores EvolutionInvariant EvolutionResults EvolutionStart EvolutionCorrect.

Set Default Goal Selector "!".

(** ** The genome repository as the archive of a training *)
Section Archive.
Context {Db : Type} `{GD : !GenomeDatabase Db, MJ : !MetadataJson, UW : !UnorderedWalk, UL : !UnorderedWalkLaws,
    SS : !StdSort, SL : !StdSortLaws}.

Record Archive := mkArchive {
  repository : GenomeRepository.t Db;
  draws : nat -> list (Z * Z);
  drawn_ : nat
}.

#[global] Instance repository_archive : GenomeArchive Archive := {
  archive_store genome meta a :=
    let! r := GenomeRepository.storeOrUpdateByHash (draws a (drawn_ a)) genome meta None (repository a) in
    Ok (mkArchive (fst r) (draws a) (S (drawn_ a)), GenomeRepository.result_id (snd r));
  archive_prune max a :=
    let! r := GenomeRepository.pruneManagedByFitness max (repository a) in Ok (mkArchive (fst r) (draws a) (drawn_ a));
  archive_mark_best id a := mkArchive (GenomeRepository.markAsBest id (repository a)) (draws a) (drawn_ a);
  archive_best a := GenomeRepository.getBestId (repository a);
  archive_get id a := GenomeRepository.get id (repository a)
}.

(** The repository serves; the counts of evaluations will fit into an [int], and
    the draws will do for [stores] more identifiers. *)
Definition stocked_archive (stores n : Z) (a : Archive) : Prop := 0 <= stores /\ 0 <= n /\ exists m k,
  serving m k (repository a) /\ 0 <= m /\ m + n < 2 ^ 31 /\
  forall j, Z.of_nat j < stores -> enough_draws (draws a (drawn_ a + j)) (k + Z.to_nat stores).

#[global] Program Instance repository_archive_laws : ArchiveLaws Archive := { archive_ready := stocked_archive }.
Next Obligation.
  intros stores n genome meta a Hs Hn Hnu (Hs0 & Hn0 & m & k & Hserve & Hm & Hb & Hdraws). cbn [archive_store repository_archive].
  pose proof (evaluations_nonneg meta) as He. pose proof (Hdraws 0%nat ltac:(lia)) as Hd0. rewrite Nat.add_0_r in Hd0.
  assert (GenomeCorrect.request_ok k (StoreByHash (draws a (drawn_ a)) genome meta None)) as Hr
    by (split; [done | split; [done | eapply enough_draws_mono; [| exact Hd0]; lia]]).
  pose proof (serve_ok m k (StoreByHash (draws a (drawn_ a)) genome meta None) (repository a) Hserve Hm ltac:(cbn [request_evaluations]; lia) Hr) as Hw. cbn [serve request_evaluations] in Hw.
  destruct (GenomeRepository.storeOrUpdateByHash _ _ _ _ _) as [[r result] |]; cbn [rbind wp fst] in Hw |- *; [| done].
  split; [done |]. split; [done |]. exists (m + evaluations meta), (S k). split; [exact Hw |]. split; [lia |]. split; [lia |].
  intros j Hj. cbn [draws drawn_]. rewrite Nat.add_succ_comm. replace (S k + Z.to_nat stores)%nat with (k + Z.to_nat (stores + 1))%nat by lia.
  apply Hdraws. lia.
Qed.
Next Obligation.
  intros stores n max a (Hs0 & Hn0 & m & k & Hserve & Hm & Hb & Hdraws). cbn [archive_prune repository_archive].
  pose proof (serve_prune m k (repository a) max Hserve) as Hw.
  destruct (GenomeRepository.pruneManagedByFitness _ _) as [[r removed] |]; cbn [rbind wp fst] in Hw |- *; [| done].
  split; [done |]. split; [done |]. by exists m, k.
Qed.
Next Obligation.
  intros stores n id a (Hs0 & Hn0 & m & k & Hserve & Hm & Hb & Hdraws). split; [done |]. split; [done |]. exists m, k. split; [| done].
  pose proof (serve_ok m k (MarkAsBest id) (repository a) Hserve Hm ltac:(cbn [request_evaluations]; lia) I) as Hw. cbn [serve request_evaluations wp] in Hw.
  rewrite Z.add_0_r in Hw. destruct Hw as [H1 _]. split; [done |]. destruct Hserve as [_ H2].
  cbn. unfold GenomeRepository.markAsBest. by destruct (GenomeRepository.genomes_ (repository a) !! id).
Qed.
Next Obligation.
  intros stores stores' n n' a Hs Hn (Hs0 & Hn0 & m & k & Hserve & Hm & Hb & Hdraws). split; [lia |]. split; [lia |]. exists m, k.
  split; [done |]. split; [lia |]. split; [lia |]. intros j Hj. eapply enough_draws_mono; [| apply Hdraws; lia]. lia.
Qed.
End Archive.

(** ** The executor as the service of a training *)
Section System.
Context {R D A Tok SC Snapshot : Type} `{RE : !RandomEngine R, RL : !RandomLaws R, ND : !NormalDistribution R D,
    SH : !Shuffle R, HL : !ShuffleLaws R, UW : !UnorderedWalk, UL : !UnorderedWalkLaws, SS : !StdSort, SL : !StdSortLaws,
    GA : !GenomeArchive A, AL : !ArchiveLaws A}.
Context (brainRegistry_ : TrainingBrainRegistry R) (mergePasses : list FitnessEvaluation.t -> FitnessEvaluation.t)
        (bootstrap : ScenarioId -> option SC -> Result Tok string).

Abbreviation Executor := (EvaluationExecutor.t (Tok := Tok) (SC := SC) (Snapshot := Snapshot)).
#[local] Instance service : EvaluationService Executor SC := executor_service bootstrap.
#[local] Instance service_laws : EvaluationServiceLaws Executor SC := executor_laws bootstrap.
#[local] Instance collector : EvaluationCollector Executor Snapshot := executor_collector.
#[local] Instance collector_laws : EvaluationCollectorLaws Executor SC Snapshot := executor_collector_laws bootstrap.
#[local] Instance tuning : EvaluationTuning Executor := executor_tuning.
#[local] Instance tuning_laws : EvaluationTuningLaws Executor SC := executor_tuning_laws bootstrap.

Abbreviation State := (Evolution.t (R := R) (A := A) (E := Executor) (SC := SC) (Snapshot := Snapshot)).

(** The executor between two ticks. *)
Inductive works : Executor -> Executor -> Prop :=
| work_events e events e' :
    Forall event_ok events -> exec mergePasses events e = Some (Ok e') -> EvaluationExecutor.lockFree e' = true -> works e e'.

Lemma works_ok e e' : service_ready e -> works e e' -> held_on e e'.
Proof.
  intros [R0 Hl] Hw. destruct Hw as [e1 events e2 HF He Hlock].
  destruct (exec_running mergePasses events e1 e2 R0 HF He) as (R1 & Hset & HB). split; [by split |]. split; [exact HB |].
  intros r o. cbn [acceptable service_laws executor_laws]. unfold acceptable_request. by rewrite (ss_spec _ _ Hset), (ss_tokenizer _ _ Hset).
Qed.

(** When the workers have come to rest, there is a result to handle. *)
Lemma rest_results organism W now cpu (s : State) events e :
  Inv brainRegistry_ organism W [] s -> Progress.trainingComplete_ (Evolution.progress s) = false ->
  EvaluationExecutor.paused (Evolution.executor_ s) = false ->
  Forall event_ok events -> exec mergePasses events (Evolution.executor_ s) = Some (Ok e) -> quiescent mergePasses e ->
  tickResults brainRegistry_ now cpu (Evolution.set_executor_ e s) <> [].
Proof.
  intros Hinv Ho Hp HF He HQ. assert (service_ready (Evolution.executor_ s) /\ outstanding (Evolution.executor_ s) <> []) as [[R0 Hl] Hne].
  { destruct Hinv as [Hs Hg | Hs Hv | _ Hc]; [| | by rewrite (co_complete _ _ _ Hc) in Ho].
    - split; [by destruct Hs |]. intros E0. pose proof (ge_count _ _ Hg) as Hc. pose proof (ge_more _ _ Hg).
      unfold awaited in Hc. rewrite E0 in Hc. cbn in Hc. lia.
    - split; [by destruct Hs |]. intros E0. pose proof (va_count _ _ Hv) as Hc. pose proof (va_pending _ _ Hv).
      unfold awaited in Hc. rewrite E0 in Hc. cbn in Hc. lia. }
  destruct (exec_running mergePasses events _ e R0 HF He) as (R1 & Hset & HB).
  pose proof (quiescent_done mergePasses e R1 HQ ltac:(by rewrite (ss_paused _ _ Hset))) as Hdone.
  unfold tickResults. destruct (sampleCpu_tuning cpu (Evolution.set_executor_ e s)) as [v ->].
  cbn [Evolution.executor_ Evolution.set_executor_ Evolution.set_tuning completedDrain collector executor_collector EvaluationExecutor.completedDrain].
  destruct (EvaluationExecutor.resultQueue e) as [| r results] eqn:Eq; [| done]. cbn [Evolution.processResults app].
  change (Progress.trainingComplete_ (Evolution.progress (Evolution.set_executor_ _ (Evolution.set_tuning v (Evolution.set_executor_ e s)))))
    with (Progress.trainingComplete_ (Evolution.progress s)). rewrite Ho. cbn.
  intros E0. apply Hne. change (bag (Evolution.executor_ s) = []). apply Permutation_nil. rewrite <- HB, Hdone. cbn. by rewrite E0.
Qed.

Abbreviation reachable := (reachable brainRegistry_ works).
Abbreviation rounds := (rounds brainRegistry_ works).

Lemma rounds_trans n m (s1 s2 s3 : State) : rounds n s1 s2 -> rounds m s2 s3 -> rounds (n + m) s1 s3.
Proof.
  induction 1 as [s | n s e s' Hw _ IH | n s command s' _ IH | n s b s' _ IH | n now cpu s s' s'' Ho Hne Hs Ht _ IH];
    intros H; [done | | | |].
  - eapply rounds_work; [exact Hw | by apply IH].
  - eapply rounds_controls. by apply IH.
  - eapply rounds_pause. by apply IH.
  - eapply rounds_tick; [done | done | done | done | by apply IH].
Qed.

Lemma rounds_Inv organism W n (s s' : State) :
  Inv brainRegistry_ organism W [] s -> rounds n s s' -> Inv brainRegistry_ organism W [] s'.
Proof.
  intros Hinv H. revert Hinv. induction H as [s | n s e s' Hw _ IH | n s command s' _ IH | n s b s' _ IH | n now cpu s s' s'' Ho Hne Hs Ht _ IH];
    intros Hinv; [done | | | |].
  - apply IH. by eapply (Inv_works brainRegistry_ works works_ok).
  - apply IH. by apply controls_ok.
  - apply IH. by apply pause_ok.
  - apply IH. pose proof (training_tick_ok brainRegistry_ organism W now cpu s Hinv Ho Hs) as H. rewrite Ht in H. apply H.
Qed.

(** C9. A training launched with sane numbers, whose scores are finite and of moderate
    size, ends: it takes at most as many rounds as there are evaluations to
    do, with the samples of a robust pass for each generation; and as long as it is
    not complete, whenever the workers have come to rest - which they do, unless
    the executor is paused - the server's tick makes one more round: it finds a
    result and handles it without a fault. *)
Theorem training_finishes (n : nat) (s s' : State) :
  reachable s -> rounds n s s' ->
  Z.of_nat n <= Evolution.estimateTotalEvaluations (Evolution.config s)
                + samplesPerPass s * EvolutionConfig.maxGenerations (Evolution.config s) /\
  (Progress.trainingComplete_ (Evolution.progress s') = false ->
   forall events e now cpu, EvaluationExecutor.paused (Evolution.executor_ s') = false ->
     Forall event_ok events -> exec mergePasses events (Evolution.executor_ s') = Some (Ok e) -> quiescent mergePasses e ->
     scored (tickResults brainRegistry_ now cpu (Evolution.set_executor_ e s')) ->
     exists s'', Evolution.tick brainRegistry_ now cpu (Evolution.set_executor_ e s') = Ok s'' /\ rounds (n + 1) s s'').
Proof.
  intros H HR. destruct (reachable_Inv brainRegistry_ works works_ok s H) as (organism & W & Hinv).
  pose proof (rounds_Inv organism W n s s' Hinv HR) as Hinv'. split.
  - pose proof (rounds_remaining brainRegistry_ works works_ok organism W n s s' Hinv HR) as Hle.
    destruct (remaining_bounds brainRegistry_ organism W s Hinv) as (_ & _ & Hb).
    destruct (remaining_bounds brainRegistry_ organism W s' Hinv') as (Hb' & _ & _). lia.
  - intros Ho events e now cpu Hp HF He HQ Hs.
    assert (works (Evolution.executor_ s') e) as Hw by (apply (work_events _ events); [done | done | by eapply quiescent_lock]).
    pose proof (Inv_works brainRegistry_ works works_ok organism W s' e Hinv' Hw) as Hinv1.
    pose proof (training_tick_ok brainRegistry_ organism W now cpu (Evolution.set_executor_ e s') Hinv1 Ho Hs) as Ht.
    apply wp_elim in Ht as (s'' & Et & _). exists s''. split; [done |]. eapply rounds_trans; [exact HR |].
    eapply rounds_work; [exact Hw |]. eapply rounds_tick; [done | by eapply rest_results | done | exact Et | apply rounds_none].
Qed.
End System.
