(* ===== verification/EvolutionDemo.v ===== *)
(** A training of two individuals over two generations, on the executor and the
    repository of the other components: one worker evaluates, every fourth weight
    bit decides the score, the candidate is validated by one more evaluation. *)

From Stdlib Require Import ZArith Lia Bool String.
From Stdlib Require Import SpecFloat.
From stdpp Require Import base gmap option numbers list sorting strings.
From S2P Require Import Prelude Ieee StdModel Uuid Genomes GenomeFacts GenomeCorrect GenomeDemo Training TrainingFacts Mutation MutationFacts.
From S2P Require Import EvaluationTypes EvaluationExecutor ExecutorFacts ExecutorRuns ExecutorCorrect ExecutorDemo.
From S2P Require Import EvolutionTypes Evolution EvolutionScores EvolutionSurvivors EvolutionBreeding EvolutionInvariant.
From S2P Require Import EvolutionResults EvolutionStart EvolutionCorrect EvolutionSystem.

Set Default Goal Selector "!".

Import Dice EvaluationExecutor.

Abbreviation DemoArchive := (Archive (Db := TableDb)).
#[local] Instance demo_archive_ops : GenomeArchive DemoArchive := repository_archive (UW := in_order) (SS := sort).
#[local] Instance demo_archive_laws : ArchiveLaws DemoArchive := repository_archive_laws (UW := in_order) (SS := sort).
#[local] Instance demo_service : EvaluationService DemoState unit := service demo_bootstrap.
#[local] Instance demo_service_laws : EvaluationServiceLaws DemoState unit := service_laws demo_bootstrap.
#[local] Instance demo_collector : EvaluationCollector DemoState unit := collector.
#[local] Instance demo_tuning : EvaluationTuning DemoState := tuning.
#[local] Instance demo_tuning_laws : EvaluationTuningLaws DemoState unit := tuning_laws demo_bootstrap.
#[local] Instance demo_collector_laws : EvaluationCollectorLaws DemoState unit unit := collector_laws demo_bootstrap.

Abbreviation DemoTraining := (Evolution.t (R := Z) (A := DemoArchive) (E := DemoState) (SC := unit) (Snapshot := unit)).

Definition demo_entry : BrainRegistryEntry.t Z :=
  BrainRegistryEntry.mk OrganismDriven true true true (Some (fun rng => Ok (Genome.mk [rng mod 7; rng mod 11], rng + 1)))
    (Some (fun g => bool_decide (length (Genome.weights g) = 2%nat))) (Some (GenomeLayout.mk [GenomeSegment.mk "weights" 2])).
Definition demo_registry : TrainingBrainRegistry Z := fun _ _ _ => Some demo_entry.

Definition demo_training : TrainingSpec.t :=
  TrainingSpec.mk TreeGermination TREE [PopulationSpec.mk "NeuralNet" None 2 [] 2].

Definition demo_evolution_config : EvolutionConfig.t :=
  EvolutionConfig.mk 50 3 2 0 0 1000 1 fzero 1 3 (f64_of_Z 20) 2 true (f64_lit 3 10) (f64_of_Z 60) (f64_lit 1 1000) 5 3
    (f64_of_Z 1000) (f64_of_Z 100) (f64_of_Z 100).

Definition demo_draws (k : nat) : list (Z * Z) := map (fun i => (Z.of_nat i, Z.of_nat k)) (seq 1 12).
Definition demo_archive : DemoArchive :=
  mkArchive (GenomeRepository.mk ∅ ∅ ∅ ∅ None (Some empty_table)) demo_draws 0.

Definition demo_start (training : TrainingSpec.t) (tokenizer : option unit) (n : Z) : DemoState :=
  EvaluationExecutor.spawn n (EvaluationExecutor.make training tokenizer).
Definition demo_compatibility (_ : unit) : NesTileBrainCompatibilityMetadata.t :=
  NesTileBrainCompatibilityMetadata.mk 1 512 4 63 55 44 64 32 4 0 EmptyString.

(** Before the state is entered. *)
Definition demo_initial : DemoTraining :=
  Evolution.mk
    (Settings.mk demo_evolution_config MutationConfig.default demo_training PoolDirtSim None (UUID.generate 1 1) ControlAuto)
    None (Population.mk [] [] [] [] false) (Progress.mk 0 0 0 fzero fzero false fzero)
    (Best.mk fzero fzero INVALID_GENOME_ID 0 OriginUnknown BestPlaybackState.reset) PendingBestState.reset RobustnessPassState.reset
    TrainingPhaseTracker.reset (EffectiveAdaptiveMutation.mk Baseline MutationConfig.default)
    (Statistics.mk (-1) fzero fzero fzero [] GenerationTelemetry.reset LastGenerationTelemetry.default)
    0 (demo_start demo_training None 1) demo_archive [] Tuning.reset.

Definition demo_enter : res DemoTraining :=
  Evolution.onEnter demo_registry demo_bootstrap demo_compatibility demo_start (UUID.generate 1 1) false PoolDirtSim 12345 1 None demo_initial.
Definition demo_entered : DemoTraining := match demo_enter with Ok s => s | Fault _ => demo_initial end.

(** A schedule: the first worker that can take a step takes it, and every run ends
    with the score [fitness]. *)
Definition demo_turns (fitness : Z) (w : nat) : list DemoEvent :=
  [Wake w; Sleep w; Claim w; BeginPass w; Register w; CheckPause w;
   StepRunner w (Some (mkPass 3 1 (FitnessEvaluation.mk (f64_of_Z fitness) None) (f64_of_Z 10) [] [] None));
   EndPass w; Finish w; Publish w; Retire w; Notify w None; Notify w (Some 0%nat); Notify w (Some 1%nat); Deliver w].

Definition demo_step (event : DemoEvent) (e : DemoState) : option (res DemoState) :=
  EvaluationExecutor.worker_step (UW := in_order) (SS := sort) demo_merge event e.

Fixpoint demo_schedule (fuel : nat) (fitness : Z) (e : DemoState) : list DemoEvent :=
  match fuel with
  | O => []
  | S fuel =>
      match List.find (fun event => match demo_step event e with Some (Ok _) => true | _ => false end)
              (demo_turns fitness 0 ++ demo_turns fitness 1) with
      | Some event =>
          match demo_step event e with Some (Ok e') => event :: demo_schedule fuel fitness e' | _ => [] end
      | None => []
      end
  end.
Definition demo_rest (events : list DemoEvent) (e : DemoState) : DemoState :=
  match demo_exec events e with Some (Ok e') => e' | _ => e end.
Definition demo_round (fitness : Z) (s : DemoTraining) : DemoTraining :=
  let e := demo_rest (demo_schedule 200 fitness (Evolution.executor_ s)) (Evolution.executor_ s) in
  match Evolution.tick demo_registry 0 None (Evolution.set_executor_ e s) with Ok s => s | Fault _ => s end.

(** The training completes: two generations, each with a robust pass. *)
Example demo_training_runs :
  let s := demo_round 7 (demo_round 7 (demo_round 5 (demo_round 5 demo_entered))) in
  Progress.trainingComplete_ (Evolution.progress s) = true /\
  Progress.completedEvaluations_ (Evolution.progress s) = 6 /\
  size (GenomeRepository.genomes_ (repository (Evolution.archive s))) = 1%nat /\
  Best.bestFitnessAllTime (Evolution.best s) = f64_of_Z 7.
Proof. vm_compute. repeat split. Qed.

(** ** The theorems apply to it *)
Lemma demo_schedule_ok fuel fitness e : Forall event_ok (demo_schedule fuel fitness e).
Proof.
  revert e. induction fuel as [| fuel IH]; intros e; cbn [demo_schedule]; [constructor |].
  destruct (List.find _ _) as [event |] eqn:Ef; [| constructor]. destruct (demo_step event e) as [[e' |] |]; [| constructor ..].
  constructor; [| apply IH]. apply find_some in Ef as [Ef _]. apply in_app_or in Ef.
  destruct Ef as [Ef | Ef]; cbn [demo_turns In] in Ef; repeat (destruct Ef as [<- | Ef]; [try exact I; by vm_compute |]); destruct Ef.
Qed.

Lemma demo_archive_stocked : stocked_archive 4 2 demo_archive.
Proof.
  split; [done |]. split; [done |]. exists 0, 0%nat. split; [| split; [done | split; [done |]]].
  - apply fresh_serving.
  - intros j Hj. split; [| change (length (draws demo_archive (drawn_ demo_archive + j))) with 12%nat; cbn; lia].
    assert (j = 0 \/ j = 1 \/ j = 2 \/ j = 3)%nat as [-> | [-> | [-> | ->]]] by lia; apply (bool_decide_unpack _); by vm_compute.
Qed.

Lemma demo_spec_ok e : spec_ok demo_registry 2 demo_archive None e demo_training (PopulationSpec.mk "NeuralNet" None 2 [] 2) demo_entry.
Proof.
  assert (forall g, length (Genome.weights g) = 2%nat -> fits 2 demo_entry g) as Hfits.
  { intros g Hg _. eexists. split; [reflexivity |]. rewrite Hg. split; [| done]. split; [by repeat constructor | done | by rewrite Hg]. }
  split; try done.
  - by intros id Hid%elem_of_nil.
  - intros _. eexists. split; [reflexivity |]. intros rng. by apply Hfits.
Qed.

Lemma demo_launch : launch_ok demo_registry 2 demo_bootstrap demo_start None 1 demo_initial.
Proof.
  split; [by vm_compute | | by vm_compute | by vm_compute | by vm_compute | done | by vm_compute | by vm_compute | by vm_compute
         | by vm_compute | split; split; by vm_compute | exact demo_archive_stocked].
  destruct (spawn_running (Tok := unit) (SC := unit) (Snapshot := unit) demo_training None 1 ltac:(done)) as [R1 HB].
  split; [by split |]. split; [exact HB |]. constructor; [| constructor]. exists demo_entry. apply demo_spec_ok.
Qed.

Lemma demo_entered_ok : demo_enter = Ok demo_entered.
Proof. by vm_compute. Qed.

Abbreviation demo_works := (works (UW := in_order) (SS := sort) demo_merge).
Abbreviation demo_reached := (EvolutionCorrect.reachable (SC := unit) (Snapshot := unit) demo_registry demo_works).
Abbreviation demo_works_ok := (works_ok (UW := in_order) (SS := sort) demo_merge demo_bootstrap).

Lemma demo_entered_reachable : demo_reached demo_entered.
Proof.
  exact (reach_enter demo_registry demo_works 2 unit demo_bootstrap demo_compatibility demo_start (UUID.generate 1 1) false PoolDirtSim
           12345 1 None demo_initial demo_entered demo_launch demo_entered_ok).
Qed.

(** The worker has evaluated both individuals and sleeps. *)
Definition demo_events : list DemoEvent := demo_schedule 200 5 (Evolution.executor_ demo_entered).
Definition demo_evaluated : DemoState := demo_rest demo_events (Evolution.executor_ demo_entered).
Definition demo_rested : DemoTraining := Evolution.set_executor_ demo_evaluated demo_entered.

Lemma demo_exec_ok : demo_exec demo_events (Evolution.executor_ demo_entered) = Some (Ok demo_evaluated).
Proof. by vm_compute. Qed.


Lemma demo_scored : scored (tickResults demo_registry 0 None demo_rested).
Proof.
  assert (map CompletedEvaluation.totalFitness (tickResults demo_registry 0 None demo_rested) = [f64_of_Z 5; f64_of_Z 5]) as E0 by (by vm_compute).
  revert E0. unfold scored. generalize (tickResults demo_registry 0 None demo_rested). intros results E0.
  assert (score_ok (f64_of_Z 5)) by (by vm_compute). rewrite <- (Forall_map (fun r => CompletedEvaluation.totalFitness r) score_ok).
  change (Forall score_ok (map CompletedEvaluation.totalFitness results)). rewrite E0. by repeat constructor.
Qed.


Lemma training_waits_witness : NoDup (outstanding (Evolution.executor_ demo_entered)) /\
  Forall (generation_ticket 2) (outstanding (Evolution.executor_ demo_entered)).
Proof.
  pose proof (training_waits demo_registry demo_works demo_works_ok demo_entered demo_entered_reachable) as H. cbv zeta in H.
  assert (Progress.trainingComplete_ (Evolution.progress demo_entered) = false) as E1 by (by vm_compute).
  assert (RobustnessPassState.active (Evolution.robustnessPass_ demo_entered) = false) as E2 by (by vm_compute).
  assert (size_ demo_entered = 2) as E3 by (by vm_compute). rewrite E1, E2, E3 in H. destruct H as (_ & _ & _ & H). exact H.
Defined.

Lemma demo_quiescent : quiescent (UW := in_order) (SS := sort) demo_merge demo_evaluated.
Proof.
  assert (EvaluationExecutor.workers demo_evaluated = [Blocked]) as E0 by (by vm_compute).
  intros event He. destruct event as [w | w | w | w | w | w | w | w outcome | w | w | w | w | w woken | w]; try discriminate He;
    unfold EvaluationExecutor.worker_step; rewrite E0; by destruct w.
Qed.

Lemma training_finishes_witness : exists s'', Evolution.tick demo_registry 0 None demo_rested = Ok s'' /\
  EvolutionCorrect.rounds (SC := unit) demo_registry demo_works 1 demo_entered s''.
Proof.
  destruct (training_finishes demo_registry demo_merge demo_bootstrap 0 demo_entered demo_entered demo_entered_reachable (rounds_none _ _ _)) as [_ H].
  apply (H ltac:(by vm_compute) demo_events demo_evaluated 0 None); [by vm_compute | apply demo_schedule_ok | exact demo_exec_ok | exact demo_quiescent | exact demo_scored].
Defined.


(** ** The three steps of a generation, on a population of three *)
Definition demo_individual (genome : Genome.t) : Individual.t :=
  Individual.mk "NeuralNet" None TreeGermination (Some genome) true None.
Definition demo_crowd : DemoTraining :=
  Evolution.set_progress (Progress.mk 4 3 9 fzero fzero false fzero)
    (Evolution.set_pop
       (Population.mk [demo_individual (Genome.mk [1; 2]); demo_individual (Genome.mk [3; 4]); demo_individual (Genome.mk [5; 6])]
          [EliteCarryover; OffspringMutated; OffspringClone] [f64_of_Z 5; f64_of_Z 7; f64_of_Z 7] [fzero; fzero; fzero] true)
       demo_initial).

Lemma fitness_histogram_witness : exists s', Evolution.captureLastGenerationFitnessDistribution demo_crowd = Ok s' /\
  describes (evaluatedScores demo_crowd) (Evolution.statistics s') /\
  Statistics.lastCompletedGeneration_ (Evolution.statistics s') = 4.
Proof. apply (fitness_histogram demo_crowd); [cbn; lia | by vm_compute | by repeat constructor; vm_compute]. Defined.

(** Of the two best, the offspring that comes first leads; one of the three goes. *)
Lemma survivors_selected_witness : exists survivors best,
  Evolution.pruneToSurvivors 2 demo_crowd = Ok (Evolution.set_pop (survived survivors (Evolution.pop demo_crowd)) demo_crowd) /\
  length survivors = 2%nat /\ head survivors = Some best /\
  forall f, f ∈ [f64_of_Z 5; f64_of_Z 7; f64_of_Z 7] -> fle f (RankedIndividual.fitness best) = true.
Proof.
  destruct (survivors_selected (SS := sort) 2 demo_crowd eq_refl ltac:(lia) ltac:(done) eq_refl ltac:(by vm_compute) ltac:(by repeat constructor))
    as (survivors & ranked & elites & best & E0 & _ & _ & _ & _ & Hn & _ & Hb & Hf).
  exists survivors, best. split; [exact E0 |]. split; [cbn in Hn; lia |]. split; [exact Hb | exact Hf].
Defined.

Lemma demo_crowd_breeds : breeding_ok demo_registry TREE 2 (Evolution.pop demo_crowd).
Proof.
  assert (forall g, length (Genome.weights g) = 2%nat -> breedable demo_registry TREE 2 (demo_individual g)) as Hb.
  { intros g Hg g' [= <-] _. exists demo_entry, (GenomeLayout.mk [GenomeSegment.mk "weights" 2]).
    split; [done |]. split; [done |]. rewrite Hg. split; [| done]. split; [by repeat constructor | done | by rewrite Hg]. }
  split; [by vm_compute | done | by repeat constructor |].
  repeat (apply Forall_cons; split; [by apply Hb |]). by apply Forall_nil.
Qed.

Lemma offspring_bred_witness : exists s' children origins effective, Evolution.breed demo_registry 2 demo_crowd = Ok s' /\
  Population.population (Evolution.pop s') = Population.population (Evolution.pop demo_crowd) ++ children /\ length children = 2%nat /\
  litter demo_registry TREE effective (Evolution.pop demo_crowd) 3 (Evolution.rng demo_crowd) children origins (Evolution.rng s').
Proof.
  destruct (offspring_bred (UW := in_order) (SS := sort) demo_registry 2 2 demo_crowd ltac:(lia) ltac:(lia) ltac:(lia) ltac:(by vm_compute) ltac:(by vm_compute)
              demo_crowd_breeds ltac:(by vm_compute) ltac:(by vm_compute) ltac:(by vm_compute))
    as (s' & children & origins & effective & E0 & _ & _ & Hp & _ & Hn & Hlit & _).
  exists s', children, origins, (EffectiveAdaptiveMutation.mutationConfig effective).
  split; [exact E0 |]. split; [exact Hp |]. split; [lia |]. exact Hlit.
Defined.
