(* ===== verification/WarmStart.v ===== *)
(** How the server chooses the seeds of a warm start: the first half of
    [server/states/Idle.cpp], with [core/scenarios/nes/NesTileBrainMetadata.cpp].

    The candidates are the stored genomes with enough evaluations, best first. Seeds
    are drawn among them with weights that blend fitness and novelty, the distance
    to the seeds chosen so far. *)

From Stdlib Require Import ZArith Lia Bool String OrdersEx.
From Stdlib Require Import SpecFloat.
From stdpp Require Import base gmap option numbers list sorting strings pretty.
From S2P Require Import Prelude Ieee IeeeRound StdModel Uuid NesTiles Genomes Training Mutation.
From S2P Require Import EvaluationTypes EvolutionTypes Evolution EvolutionScores EvolutionSurvivors BrainGenomes.

Set Default Goal Selector "!".

(** ** What a tile brain's genome is made for *)
Module NesTileBrainMetadata.
Import NesTileBrainCompatibilityMetadata.

Definition CurrentSchemaVersion : Z := 1.

Definition makeNesTileBrainCompatibilityMetadata (tokenizer : NesTileTokenizer.t) : t :=
  mk CurrentSchemaVersion NesTileRecurrentBrain.TileVocabularySize NesTileRecurrentBrain.TileEmbeddingDim
    NesPlayerRelativeTileFrame.RelativeTileColumns NesPlayerRelativeTileFrame.RelativeTileRows
    NesTileRecurrentBrain.ScalarInputSize NesTileRecurrentBrain.H1Size NesTileRecurrentBrain.H2Size
    NesTileRecurrentBrain.OutputSize NesTileTokenizer.VoidToken (NesTileTokenizer.getVocabularyHash tokenizer).

Definition mismatchMessage (field actual expected : string) : string :=
  "NES tile brain compatibility mismatch for " +:+ field +:+ ": checkpoint=" +:+ actual +:+ ", current=" +:+ expected.

Definition validateNesTileBrainCompatibilityMetadata (actual expected : t) : Result unit string :=
  let mismatch field get := error (mismatchMessage field (pretty (get actual)) (pretty (get expected))) in
  if negb (schemaVersion actual =? schemaVersion expected) then mismatch "schemaVersion" schemaVersion
  else if negb (tileVocabularySize actual =? tileVocabularySize expected) then mismatch "tileVocabularySize" tileVocabularySize
  else if negb (tileEmbeddingDim actual =? tileEmbeddingDim expected) then mismatch "tileEmbeddingDim" tileEmbeddingDim
  else if negb (relativeTileColumns actual =? relativeTileColumns expected) then mismatch "relativeTileColumns" relativeTileColumns
  else if negb (relativeTileRows actual =? relativeTileRows expected) then mismatch "relativeTileRows" relativeTileRows
  else if negb (scalarInputSize actual =? scalarInputSize expected) then mismatch "scalarInputSize" scalarInputSize
  else if negb (h1Size actual =? h1Size expected) then mismatch "h1Size" h1Size
  else if negb (h2Size actual =? h2Size expected) then mismatch "h2Size" h2Size
  else if negb (outputSize actual =? outputSize expected) then mismatch "outputSize" outputSize
  else if negb (voidTokenId actual =? voidTokenId expected) then mismatch "voidTokenId" voidTokenId
  else if negb (String.eqb (tokenizerVocabularyHash actual) (tokenizerVocabularyHash expected)) then
    error (mismatchMessage "tokenizerVocabularyHash" (tokenizerVocabularyHash actual) (tokenizerVocabularyHash expected))
  else okay tt.
End NesTileBrainMetadata.

(** ** Candidates *)
Module WarmSeedCandidate.
Record t := mk {
  id : GenomeId;
  metadata : GenomeMetadata.t;
  robustFitness : f64;
  robustEvalCount : Z
}.
End WarmSeedCandidate.

Definition kWarmStartSamplingFitnessBaseWeight : f64 := f64_lit 1 10.
Definition kWarmStartSamplingEpsilon : f64 := f64_lit 1 1000000000.
Definition kWarmStartSamplingCandidateLimit : Z := 64.

Definition isWarmGenomeCompatibleForPopulation (metadata : GenomeMetadata.t) (scenarioId : ScenarioId)
    (organismType : OrganismType) (populationSpec : PopulationSpec.t) (genomePoolId : GenomePoolId) : bool :=
  if negb (bool_decide (GenomeMetadata.scenarioId metadata = scenarioId)) then false
  else if negb (bool_decide (GenomeMetadata.organismType metadata = Some organismType)) then false
  else if negb (bool_decide (GenomeMetadata.genomePoolId metadata = genomePoolId)) then false
  else if negb (bool_decide (GenomeMetadata.brainKind metadata = Some (PopulationSpec.brainKind populationSpec))) then false
  else String.eqb (default EmptyString (GenomeMetadata.brainVariant metadata))
                  (default EmptyString (PopulationSpec.brainVariant populationSpec)).

Definition isNesTilePopulation (populationSpec : PopulationSpec.t) : bool :=
  String.eqb (PopulationSpec.brainKind populationSpec) "NesTileRecurrent".

(** What the tile brains of now are made for, built once; [bootstrap] is
    [NesTileTokenizerBootstrapper::build]. *)
Definition ensureNesTileCompatibilityMetadata {SC} (bootstrap : ScenarioId -> option SC -> Result NesTileTokenizer.t string)
    (scenarioId : ScenarioId) (scenarioConfigOverride : option SC) (expected : option NesTileBrainCompatibilityMetadata.t)
    : Result NesTileBrainCompatibilityMetadata.t string :=
  match expected with
  | Some metadata => okay metadata
  | None =>
      match bootstrap scenarioId scenarioConfigOverride with
      | error e => error ("Failed to build current NES tile compatibility metadata: " +:+ e)
      | okay tokenizer => okay (NesTileBrainMetadata.makeNesTileBrainCompatibilityMetadata tokenizer)
      end
  end.

Definition validateNesTileWarmSeedMetadata (metadata : GenomeMetadata.t) (expected : NesTileBrainCompatibilityMetadata.t)
    : option string :=
  match GenomeMetadata.nesTileBrainCompatibility metadata with
  | None => None
  | Some actual =>
      match NesTileBrainMetadata.validateNesTileBrainCompatibilityMetadata actual expected with
      | error e => Some e
      | okay _ => None
      end
  end.

(** The comparison of [collectWarmSeedCandidates]: best, most evaluated, newest first. *)
Definition candidateBefore (left right : WarmSeedCandidate.t) : bool :=
  if negb (SFeqb (WarmSeedCandidate.robustFitness left) (WarmSeedCandidate.robustFitness right)) then
    fgt (WarmSeedCandidate.robustFitness left) (WarmSeedCandidate.robustFitness right)
  else if negb (WarmSeedCandidate.robustEvalCount left =? WarmSeedCandidate.robustEvalCount right) then
    WarmSeedCandidate.robustEvalCount right <? WarmSeedCandidate.robustEvalCount left
  else if negb (GenomeMetadata.createdTimestamp (WarmSeedCandidate.metadata left)
                =? GenomeMetadata.createdTimestamp (WarmSeedCandidate.metadata right)) then
    GenomeMetadata.createdTimestamp (WarmSeedCandidate.metadata right)
    <? GenomeMetadata.createdTimestamp (WarmSeedCandidate.metadata left)
  else String.ltb (UUID.toString (WarmSeedCandidate.id left)) (UUID.toString (WarmSeedCandidate.id right)).

Fixpoint findNext (n : nat) (i : Z) (selectedMask : list bool) : res Z :=
  match n with
  | O => Ok (-1)
  | S n => let! selected := vec_get selectedMask i in if negb selected then Ok i else findNext n (i + 1) selectedMask
  end.

Definition findNextWarmSeedByFitness (compatibleCandidates : list WarmSeedCandidate.t) (selectedMask : list bool) : res Z :=
  findNext (length compatibleCandidates) 0 selectedMask.

(** ** How many seeds *)
Definition computeWarmStartSeedTargetCount (randomCount : Z) (warmStartSeedPercent : f64) (warmStartSeedCount : Z) : res Z :=
  if randomCount <=? 0 then Ok 0
  else
    let clampedWarmStartSeedPercent := std_clamp warmStartSeedPercent fzero (f64_of_Z 100) in
    if fgt clampedWarmStartSeedPercent fzero then
      let! percentTarget :=
        f64_to_int (std_ceil (f64_div (f64_mul (f64_of_Z randomCount) clampedWarmStartSeedPercent) (f64_of_Z 100))) in
      Ok (Evolution.clampZ percentTarget 1 randomCount)
    else Ok (Z.min randomCount (Z.max 0 warmStartSeedCount)).

Definition resolveWarmStartMinRobustEvalCount (evolution : EvolutionConfig.t) (deterministicEvaluation : bool) : Z :=
  if deterministicEvaluation then 1 else Z.max 1 (EvolutionConfig.warmStartMinRobustEvalCount evolution).

(** ** Distances *)
Definition canComputeGenomeWeightDistance (left right : Genome.t) : bool :=
  negb (bool_decide (Genome.weights left = []))
  && (Z.of_nat (length (Genome.weights left)) =? Z.of_nat (length (Genome.weights right))).

Definition computeGenomeWeightDistance (left right : Genome.t) : res f64 :=
  dirtsim_assert (canComputeGenomeWeightDistance left right)
    "Idle: comparable genomes required for warm-start distance calculation" ;;!
  let squaredDistance :=
    fold_left (fun acc lr =>
      let delta := f64_sub (f32_to_f64 (f32_of_bits (fst lr))) (f32_to_f64 (f32_of_bits (snd lr))) in
      f64_add acc (f64_mul delta delta)) (combine (Genome.weights left) (Genome.weights right)) fzero in
  Ok (Evolution.f64_sqrt (f64_div squaredDistance (f64_of_Z (Z.of_nat (length (Genome.weights left)))))).

Section Candidates.
Context {Db R : Type} `{SS : !StdSort, UW : !UnorderedWalk, DD : !DiscreteDistribution R}.
Implicit Types (repo : GenomeRepository.t Db).

Definition collectWarmSeedCandidates repo (minRobustEvalCount : Z) : list WarmSeedCandidate.t :=
  let candidates :=
    map (fun '(id, metadata) =>
           WarmSeedCandidate.mk id metadata (GenomeMetadataUtils.effectiveRobustFitness metadata)
             (GenomeMetadataUtils.effectiveRobustEvalCount metadata))
      (List.filter (fun '(_, metadata) => negb (GenomeMetadataUtils.effectiveRobustEvalCount metadata <? minRobustEvalCount))
         (GenomeRepository.list_ repo)) in
  std_sort candidateBefore candidates.

Abbreviation Cache := (gmap GenomeId (option Genome.t)).

Definition loadWarmGenome repo (id : GenomeId) (cache : Cache) : option Genome.t * Cache :=
  match cache !! id with
  | Some genome => (genome, cache)
  | None => let genome := GenomeRepository.get id repo in (genome, <[id := genome]> cache)
  end.

(** The fitness at a percentile of the candidates. *)
Definition computeWarmSeedFitnessFloor (compatibleCandidates : list WarmSeedCandidate.t) (floorPercentile : f64) : res f64 :=
  match compatibleCandidates with
  | [] => Ok (S754_infinity true)
  | _ =>
      let remainingFitnessValues := std_sort flt (map WarmSeedCandidate.robustFitness compatibleCandidates) in
      let clampedFloorPercentile := std_clamp floorPercentile fzero (f64_of_Z 100) in
      let! floorIndex := Evolution.f64_to_size (std_floor
        (f64_mul (f64_div clampedFloorPercentile (f64_of_Z 100))
                 (f64_of_Z (Z.of_nat (length remainingFitnessValues) - 1)))) in
      vec_get remainingFitnessValues floorIndex
  end.

(** ** Sampling *)
(** The unselected candidates that reach the floor, at most 64. *)
Fixpoint eligible_loop (n : nat) (i : Z) (compatibleCandidates : list WarmSeedCandidate.t) (selectedMask : list bool)
    (fitnessFloor : f64) (eligible : list Z) : res (list Z) :=
  match n with
  | O => Ok eligible
  | S n =>
      let! selected := vec_get selectedMask i in
      if selected then eligible_loop n (i + 1) compatibleCandidates selectedMask fitnessFloor eligible
      else
        let! candidate := vec_get compatibleCandidates i in
        if flt (WarmSeedCandidate.robustFitness candidate) fitnessFloor then
          eligible_loop n (i + 1) compatibleCandidates selectedMask fitnessFloor eligible
        else
          let eligible := eligible ++ [i] in
          if kWarmStartSamplingCandidateLimit <=? Z.of_nat (length eligible) then Ok eligible
          else eligible_loop n (i + 1) compatibleCandidates selectedMask fitnessFloor eligible
  end.

(** [compatibleCandidates[index]] for each index. *)
Fixpoint candidates_at (compatibleCandidates : list WarmSeedCandidate.t) (indices : list Z) : res (list WarmSeedCandidate.t) :=
  match indices with
  | [] => Ok []
  | index :: indices =>
      let! candidate := vec_get compatibleCandidates index in
      let! rest := candidates_at compatibleCandidates indices in
      Ok (candidate :: rest)
  end.

Fixpoint reference_distance repo (candidateGenome : Genome.t) (referenceSeedIds : list GenomeId) (cache : Cache)
    (hasComparableReference : bool) (minDistance : f64) : res (bool * f64 * Cache) :=
  match referenceSeedIds with
  | [] => Ok (hasComparableReference, minDistance, cache)
  | id :: ids =>
      let '(reference, cache) := loadWarmGenome repo id cache in
      match reference with
      | None => reference_distance repo candidateGenome ids cache hasComparableReference minDistance
      | Some referenceGenome =>
          if negb (canComputeGenomeWeightDistance candidateGenome referenceGenome) then
            reference_distance repo candidateGenome ids cache hasComparableReference minDistance
          else
            let! distance := computeGenomeWeightDistance candidateGenome referenceGenome in
            reference_distance repo candidateGenome ids cache true (std_min minDistance distance)
      end
  end.

(** For each eligible candidate its distance to the nearest reference, and the
    greatest of these distances. *)
Fixpoint distance_loop repo (eligible : list WarmSeedCandidate.t) (referenceSeedIds : list GenomeId) (cache : Cache)
    (maxMinDistance : f64) : res (list f64 * f64 * Cache) :=
  match eligible with
  | [] => Ok ([], maxMinDistance, cache)
  | candidate :: eligible =>
      let '(genome, cache) := loadWarmGenome repo (WarmSeedCandidate.id candidate) cache in
      let! '(distance, maxMinDistance, cache) :=
        match genome with
        | None => Ok (fzero, maxMinDistance, cache)
        | Some candidateGenome =>
            let! '(hasComparableReference, minDistance, cache) :=
              reference_distance repo candidateGenome referenceSeedIds cache false (S754_infinity false) in
            if negb hasComparableReference then Ok (fzero, maxMinDistance, cache)
            else Ok (minDistance, std_max maxMinDistance minDistance, cache)
        end in
      let! '(distances, maxMinDistance, cache) := distance_loop repo eligible referenceSeedIds cache maxMinDistance in
      Ok (distance :: distances, maxMinDistance, cache)
  end.

Definition sampling_weight (clampedNoveltyWeight fitnessWeight minEligibleFitness fitnessRange maxMinDistance : f64)
    (candidate : WarmSeedCandidate.t) (minDistance : f64) : f64 :=
  let fitnessNorm := f64_div (f64_sub (WarmSeedCandidate.robustFitness candidate) minEligibleFitness) fitnessRange in
  let fitnessNorm := if negb (is_finite fitnessNorm) then fzero else fitnessNorm in
  let fitnessNorm := std_clamp fitnessNorm fzero (f64_of_Z 1) in
  let noveltyNorm := if fgt maxMinDistance kWarmStartSamplingEpsilon then f64_div minDistance maxMinDistance else fzero in
  let noveltyNorm := std_clamp noveltyNorm fzero (f64_of_Z 1) in
  let blendedFitness :=
    f64_add kWarmStartSamplingFitnessBaseWeight
      (f64_mul (f64_sub (f64_of_Z 1) kWarmStartSamplingFitnessBaseWeight) fitnessNorm) in
  let weight := f64_add (f64_mul fitnessWeight blendedFitness) (f64_mul clampedNoveltyWeight noveltyNorm) in
  if negb (is_finite weight) || fle weight fzero then kWarmStartSamplingEpsilon else weight.

Definition sampleWarmSeedByFitnessAndNovelty (compatibleCandidates : list WarmSeedCandidate.t) (selectedMask : list bool)
    (referenceSeedIds : list GenomeId) (noveltyWeight fitnessFloorPercentile : f64) repo (genomeCache : Cache) (rng : R)
    : res (Z * Cache * R) :=
  let clampedNoveltyWeight := std_clamp noveltyWeight fzero (f64_of_Z 1) in
  let fitnessWeight := f64_sub (f64_of_Z 1) clampedNoveltyWeight in
  let! fitnessFloor := computeWarmSeedFitnessFloor compatibleCandidates fitnessFloorPercentile in
  let! eligible := eligible_loop (length compatibleCandidates) 0 compatibleCandidates selectedMask fitnessFloor [] in
  match eligible with
  | [] => Ok (-1, genomeCache, rng)
  | [index] => Ok (index, genomeCache, rng)
  | _ =>
      let! candidates := candidates_at compatibleCandidates eligible in
      let fitnesses := map WarmSeedCandidate.robustFitness candidates in
      let minEligibleFitness := fold_left std_min fitnesses (S754_infinity false) in
      let maxEligibleFitness := fold_left std_max fitnesses (S754_infinity true) in
      let fitnessRange := std_max (f64_sub maxEligibleFitness minEligibleFitness) kWarmStartSamplingEpsilon in
      let! '(minDistances, maxMinDistance, genomeCache) :=
        match referenceSeedIds with
        | [] => Ok (replicate (length eligible) fzero, fzero, genomeCache)
        | _ => distance_loop repo candidates referenceSeedIds genomeCache fzero
        end in
      let weights :=
        map (fun '(candidate, minDistance) =>
               sampling_weight clampedNoveltyWeight fitnessWeight minEligibleFitness fitnessRange maxMinDistance
                 candidate minDistance) (combine candidates minDistances) in
      let '(chosenEligible, rng) := discrete_draw weights rng in
      if (chosenEligible <? 0) || (Z.of_nat (length eligible) <=? chosenEligible) then Ok (-1, genomeCache, rng)
      else let! index := vec_get eligible chosenEligible in Ok (index, genomeCache, rng)
  end.
End Candidates.

(** ** The candidates, best first *)
Definition fit_candidate (c : WarmSeedCandidate.t) : Prop := not_nan (WarmSeedCandidate.robustFitness c).

Lemma candidateBefore_lex a b : fit_candidate a -> fit_candidate b ->
  candidateBefore a b =
  lex_before (fun a b => fgt (WarmSeedCandidate.robustFitness a) (WarmSeedCandidate.robustFitness b))
    (lex_before (fun a b => WarmSeedCandidate.robustEvalCount b <? WarmSeedCandidate.robustEvalCount a)
       (lex_before (fun a b => GenomeMetadata.createdTimestamp (WarmSeedCandidate.metadata b)
                               <? GenomeMetadata.createdTimestamp (WarmSeedCandidate.metadata a))
          (fun a b => String.ltb (UUID.toString (WarmSeedCandidate.id a)) (UUID.toString (WarmSeedCandidate.id b))))) a b.
Proof.
  intros Ha Hb. unfold candidateBefore, lex_before. rewrite SFeqb_key by done. unfold fgt.
  change SFltb with flt. destruct (flt (WarmSeedCandidate.robustFitness b) _) eqn:E1.
  { rewrite andb_false_r. done. }
  rewrite andb_true_r. destruct (flt (WarmSeedCandidate.robustFitness a) _) eqn:E2; [done |]. cbn [negb orb andb].
  destruct (Z.eqb_spec (WarmSeedCandidate.robustEvalCount a) (WarmSeedCandidate.robustEvalCount b)) as [-> | Hne]; cbn [negb].
  - rewrite Z.ltb_irrefl. cbn [orb negb andb].
    destruct (Z.eqb_spec (GenomeMetadata.createdTimestamp (WarmSeedCandidate.metadata a))
                         (GenomeMetadata.createdTimestamp (WarmSeedCandidate.metadata b))) as [-> | Hne]; cbn [negb].
    + by rewrite Z.ltb_irrefl.
    + destruct (Z.ltb_spec (GenomeMetadata.createdTimestamp (WarmSeedCandidate.metadata b)) (GenomeMetadata.createdTimestamp (WarmSeedCandidate.metadata a))); [done |].
      by rewrite (proj2 (Z.ltb_lt _ _)) by lia.
  - destruct (Z.ltb_spec (WarmSeedCandidate.robustEvalCount b) (WarmSeedCandidate.robustEvalCount a)); [done |].
    by rewrite (proj2 (Z.ltb_lt _ _)) by lia.
Qed.

Lemma candidateBefore_swo l : Forall fit_candidate l -> strict_weak_order candidateBefore l.
Proof.
  intros Hl. eapply swo_ext; [intros a b Ha Hb; symmetry; apply candidateBefore_lex; rewrite Forall_forall in Hl; auto |].
  apply swo_lex; [by apply swo_fgt |]. apply swo_lex; [apply (key_strict_weak_order WarmSeedCandidate.robustEvalCount) |].
  apply swo_lex; [apply (key_strict_weak_order (fun c => GenomeMetadata.createdTimestamp (WarmSeedCandidate.metadata c))) | apply swo_string].
Qed.

(** ** How many seeds *)
Lemma hundred_within : within (100 * 2 ^ 1074) (100 * 2 ^ 1074) (f64_of_Z 100).
Proof. by apply f64_of_Z_within. Qed.

Lemma small_moderate n x : n < 2 ^ 60 -> within 0 (n * 2 ^ 1074) x -> moderate x.
Proof.
  intros Hn (_ & _ & _ & Hb). unfold moderate. change (2 ^ 1500) with (2 ^ 426 * 2 ^ 1074).
  assert (2 ^ 60 < 2 ^ 426) by (by apply Z.pow_lt_mono_r). pose proof (Z.pow_pos_nonneg 2 1074). nia.
Qed.

(** A product of small whole bounds. *)
Lemma mul_within a b x y :
  0 <= a -> 0 <= b -> a * b < 2 ^ 53 -> a < 2 ^ 53 -> b < 2 ^ 53 ->
  within 0 (a * 2 ^ 1074) x -> within 0 (b * 2 ^ 1074) y -> within 0 (a * b * 2 ^ 1074) (f64_mul x y).
Proof.
  intros Ha Hb Hab Ha' Hb' Hx Hy. pose proof (small_moderate a x ltac:(lia) Hx). pose proof (small_moderate b y ltac:(lia) Hy).
  destruct Hx as (Nx & Vx & Lx & Ux), Hy as (Ny & Vy & Ly & Uy). pose proof (Z.pow_pos_nonneg 2 1074).
  apply f64_mul_within; try done; [by exists 0, 0; lia | apply dbl_int; nia |].
  split; [nia |]. replace (a * b * 2 ^ 1074 * 2 ^ 1074) with ((a * 2 ^ 1074) * (b * 2 ^ 1074)) by ring. nia.
Qed.

Lemma percent_within a x : 0 <= a < 2 ^ 53 -> within 0 (a * 100 * 2 ^ 1074) x -> within 0 (a * 2 ^ 1074) (f64_div x (f64_of_Z 100)).
Proof.
  intros Ha (Nx & Vx & Lx & Ux). destruct hundred_within as (N & V & L). apply f64_div_within; try done; [by apply dbl_int |].
  replace (fval (f64_of_Z 100)) with (100 * 2 ^ 1074) by lia. pose proof (Z.pow_pos_nonneg 2 1074). nia.
Qed.

Lemma clamp_nan lo hi : lo = fzero -> hi = f64_of_Z 100 -> std_clamp S754_nan lo hi = S754_nan.
Proof. by intros -> ->. Qed.

Lemma seedTarget_ok randomCount percent count :
  randomCount < 2 ^ 31 -> valid percent ->
  wp (computeWarmStartSeedTargetCount randomCount percent count) (fun n => 0 <= n <= Z.max 0 randomCount).
Proof.
  intros Hr Hv. unfold computeWarmStartSeedTargetCount. destruct (Z.leb_spec randomCount 0); [apply wp_ok; lia |].
  destruct (fgt (std_clamp percent fzero (f64_of_Z 100)) fzero) eqn:E; [| apply wp_ok; lia].
  assert (not_nan percent) as Hn by (intros ->; done).
  destruct (f64_of_Z_within randomCount) as (N1 & V1 & L1); [lia |].
  assert (within 0 (randomCount * 2 ^ 1074) (f64_of_Z randomCount)) as W1 by (split; [done | split; [done | pose proof (Z.pow_pos_nonneg 2 1074); lia]]).
  destruct (to_int_within randomCount (std_ceil (f64_div (f64_mul (f64_of_Z randomCount) (std_clamp percent fzero (f64_of_Z 100))) (f64_of_Z 100))))
    as (z & Ez & Hz); [done | |].
  { apply std_ceil_within; [lia |]. apply percent_within; [lia |]. apply mul_within; try lia; [done | by apply std_clamp_hundred]. }
  rewrite Ez. cbn [rbind wp]. unfold Evolution.clampZ. destruct (Z.ltb_spec z 1), (Z.ltb_spec randomCount z); lia.
Qed.

(** ** The floor *)
Section Sampling.
Context {Db R : Type} `{SS : !StdSort, SL : !StdSortLaws, UW : !UnorderedWalk, UL : !UnorderedWalkLaws,
    DD : !DiscreteDistribution R, DL : !DiscreteLaws R}.
Implicit Types (repo : GenomeRepository.t Db) (cs : list WarmSeedCandidate.t) (mask : list bool) (rng : R).

Lemma fitnessFloor_ok cs percentile :
  Forall fit_candidate cs -> Z.of_nat (length cs) < 2 ^ 31 -> not_nan percentile -> valid percentile ->
  wp (computeWarmSeedFitnessFloor cs percentile) (fun floor => cs = [] \/ floor ∈ map WarmSeedCandidate.robustFitness cs).
Proof.
  intros Hfit Hlen Hn Hv. destruct cs as [| c cs]; [by left |]. unfold computeWarmSeedFitnessFloor.
  set (values := map WarmSeedCandidate.robustFitness (c :: cs)).
  assert (std_sort flt values ≡ₚ values) as HP.
  { apply std_sort_perm. apply (swo_flt (fun x => x)). unfold values. by apply Forall_map. }
  assert (Z.of_nat (length (std_sort flt values)) = Z.of_nat (length (c :: cs))) as Hl by (rewrite HP; unfold values; by rewrite length_map).
  rewrite Hl. set (n := Z.of_nat (length (c :: cs))) in *. assert (1 <= n) by (unfold n; cbn; lia).
  destruct (f64_of_Z_within (n - 1)) as (N1 & V1 & L1); [lia |]. pose proof (Z.pow_pos_nonneg 2 1074).
  destruct (to_size_within (n - 1) (std_floor (f64_mul (f64_div (std_clamp percentile fzero (f64_of_Z 100)) (f64_of_Z 100)) (f64_of_Z (n - 1)))))
    as (z & Ez & Hz); [lia | |].
  { apply std_floor_within; [lia |]. replace ((n - 1) * 2 ^ 1074) with (1 * (n - 1) * 2 ^ 1074) by ring. apply mul_within; try lia.
    - apply percent_within; [lia |]. by apply std_clamp_hundred.
    - split; [done | split; [done | lia]]. }
  rewrite Ez. cbn [rbind]. apply wp_vec_get; [lia |]. intros x Hx. right. rewrite <- HP. by apply list_elem_of_lookup_2 in Hx.
Qed.

(** ** One sample *)
(** An unselected candidate. *)
Definition open_index mask (i : Z) : Prop := 0 <= i < Z.of_nat (length mask) /\ mask !! Z.to_nat i = Some false.

Lemma vec_get_mask mask i (Q : bool -> Prop) :
  0 <= i < Z.of_nat (length mask) -> (forall b, mask !! Z.to_nat i = Some b -> Q b) -> wp (vec_get mask i) Q.
Proof. intros. by apply wp_vec_get. Qed.

Lemma eligible_loop_ok n i cs mask floor eligible :
  length mask = length cs -> Z.of_nat n + i = Z.of_nat (length cs) -> 0 <= i -> Forall (open_index mask) eligible ->
  wp (eligible_loop n i cs mask floor eligible) (Forall (open_index mask)).
Proof.
  intros Hl. revert i eligible. induction n as [| n IH]; intros i eligible Hi Hi0 HF; cbn [eligible_loop]; [by apply wp_ok |].
  apply wp_bind, wp_vec_get; [lia |]. intros [] Hb; [apply IH; [lia | lia | done] |].
  apply wp_bind, wp_vec_get; [lia |]. intros c _.
  assert (Forall (open_index mask) (eligible ++ [i])) as HF' by (apply Forall_app; split; [done |]; constructor; [split; [lia | done] | constructor]).
  destruct (flt _ floor); [apply IH; [lia | lia | done] |]. destruct (_ <=? _); [by apply wp_ok | apply IH; [lia | lia | done]].
Qed.

Lemma candidates_at_ok cs indices :
  Forall (fun i => 0 <= i < Z.of_nat (length cs)) indices ->
  wp (candidates_at cs indices) (fun l => length l = length indices).
Proof.
  induction 1 as [| i indices Hi _ IH]; cbn [candidates_at]; [by apply wp_ok |]. apply wp_bind, wp_vec_get; [done |]. intros c _.
  apply wp_bind. eapply wp_mono; [exact IH |]. intros l Hl. apply wp_ok. cbn. by rewrite Hl.
Qed.

Lemma reference_distance_ok repo genome ids cache found d :
  wp (reference_distance repo genome ids cache found d) (fun _ => True).
Proof.
  revert cache found d. induction ids as [| id ids IH]; intros cache found d; cbn [reference_distance]; [done |].
  destruct (loadWarmGenome repo id cache) as [[reference |] cache']; [| apply IH].
  destruct (canComputeGenomeWeightDistance genome reference) eqn:E; cbn [negb]; [| apply IH].
  apply wp_bind. unfold computeGenomeWeightDistance. by apply wp_bind, wp_assert, wp_ok, IH.
Qed.

Lemma distance_loop_ok repo cs ids cache d :
  wp (distance_loop repo cs ids cache d) (fun '(distances, _, _) => length distances = length cs).
Proof.
  revert cache d. induction cs as [| c cs IH]; intros cache d; cbn [distance_loop]; [by apply wp_ok |].
  destruct (loadWarmGenome repo _ cache) as [genome cache']. apply wp_bind. apply wp_mono with (P := fun _ => True).
  { destruct genome as [genome |]; [| done]. apply wp_bind. eapply wp_mono; [apply reference_distance_ok |].
    intros [[[] d'] cache''] _; by apply wp_ok. }
  intros [[d' max] cache''] _. apply wp_bind. eapply wp_mono; [apply IH |]. intros [[ds max'] cache3] Hd. apply wp_ok. cbn. by rewrite Hd.
Qed.

Lemma sampling_weight_positive novelty fitness min range max c d : positive_weight (sampling_weight novelty fitness min range max c d).
Proof.
  unfold sampling_weight. cbv zeta. match goal with |- context [negb (is_finite ?w) || fle ?w fzero] => generalize w end. intros w.
  destruct (is_finite w) eqn:Ef; cbn [negb orb]; [| by split; vm_compute].
  destruct (fle w fzero) eqn:El; [by split; vm_compute |]. split; [done |]. unfold fgt. change (flt fzero w = true).
  rewrite flt_negb_fle; [by rewrite El | done |]. intros ->. done.
Qed.

(** What sampling gives: nothing, or a candidate that is not selected yet. *)
Lemma sample_ok cs mask references novelty percentile repo cache rng :
  Forall fit_candidate cs -> Z.of_nat (length cs) < 2 ^ 31 -> not_nan percentile -> valid percentile -> length mask = length cs ->
  wp (sampleWarmSeedByFitnessAndNovelty cs mask references novelty percentile repo cache rng)
     (fun '(i, _, _) => i = -1 \/ open_index mask i).
Proof.
  intros Hfit Hlen Hn Hv Hl. unfold sampleWarmSeedByFitnessAndNovelty. cbv zeta.
  apply wp_bind. eapply wp_mono; [by apply fitnessFloor_ok |]. intros floor _.
  apply wp_bind. eapply wp_mono; [apply (eligible_loop_ok (length cs) 0 cs mask floor []); [done | lia | lia | constructor] |].
  intros eligible HF. destruct eligible as [| i [| j eligible]]; [by left | |].
  { apply wp_ok. right. by inversion HF. }
  set (all := i :: j :: eligible) in *. assert (Forall (fun i => 0 <= i < Z.of_nat (length cs)) all) as HF'.
  { eapply Forall_impl; [exact HF |]. intros k [Hk _]. by rewrite <- Hl. }
  apply wp_bind. eapply wp_mono; [by apply candidates_at_ok |]. intros cs' Hcs'. apply wp_bind.
  apply wp_mono with (P := fun '(distances, _, _) => length distances = length all).
  { destruct references; [apply wp_ok, length_replicate |]. eapply wp_mono; [apply distance_loop_ok |]. intros [[ds m] cache'] Hd. by rewrite Hd. }
  intros [[ds m] cache'] Hds. match goal with |- context [discrete_draw ?w rng] => set (weights := w) end.
  assert (length weights = length all) as Hw by (unfold weights; rewrite length_map, length_combine, Hcs', Hds; lia).
  pose proof (discrete_range weights rng) as Hdraw. destruct (discrete_draw weights rng) as [chosen rng']. cbn [fst] in Hdraw.
  assert (0 <= chosen < Z.of_nat (length weights)) as Hc.
  { apply Hdraw; [intros E; by rewrite E in Hw |]. apply Forall_forall. intros w Hin. unfold weights in Hin.
    apply list_elem_of_fmap in Hin as ([c d] & -> & _). apply sampling_weight_positive. }
  rewrite (proj2 (Z.ltb_ge _ _)), (proj2 (Z.leb_gt _ _)) by lia. cbn [orb]. apply wp_bind, wp_vec_get; [lia |].
  intros k Hk. apply wp_ok. right. rewrite Forall_lookup in HF. by eapply HF.
Qed.

(** The first unselected candidate. *)
Definition first_open mask (i : Z) : Prop :=
  (i = -1 /\ forall j, 0 <= j < Z.of_nat (length mask) -> mask !! Z.to_nat j = Some true) \/
  (open_index mask i /\ forall j, 0 <= j < i -> mask !! Z.to_nat j = Some true).

Lemma findNext_ok n i mask :
  Z.of_nat n + i = Z.of_nat (length mask) -> 0 <= i -> (forall j, 0 <= j < i -> mask !! Z.to_nat j = Some true) ->
  wp (findNext n i mask) (first_open mask).
Proof.
  revert i. induction n as [| n IH]; intros i Hi Hi0 Hall; cbn [findNext].
  { apply wp_ok. left. split; [done |]. intros j Hj. apply Hall. lia. }
  apply wp_bind, wp_vec_get; [lia |]. intros [] Hb; cbn [negb].
  - apply IH; [lia | lia |]. intros j Hj. destruct (Z.eq_dec j i) as [-> |]; [done | apply Hall; lia].
  - apply wp_ok. right. split; [split; [lia | done] | done].
Qed.
End Sampling.

(** ** Collecting the candidates *)
Lemma NoDup_filter_keys {K V} (p : K * V -> bool) (l : list (K * V)) : NoDup (map fst l) -> NoDup (map fst (List.filter p l)).
Proof.
  induction l as [| [k v] l IH]; cbn; [done |]. intros [Hk Hl]%NoDup_cons. destruct (p (k, v)); [| by apply IH]. cbn.
  apply NoDup_cons. split; [| by apply IH]. intros Hin. apply Hk. apply list_elem_of_fmap in Hin as (kv & -> & Hin).
  apply list_elem_of_fmap. exists kv. split; [done |]. apply list_elem_of_In in Hin. apply list_elem_of_In. by apply filter_In in Hin as [? _].
Qed.

Section Collecting.
Context {Db : Type} `{SS : !StdSort, SL : !StdSortLaws, UW : !UnorderedWalk, UL : !UnorderedWalkLaws}.
Implicit Types (repo : GenomeRepository.t Db).

(** The stored fitness values are numbers. *)
Definition fit_repository repo : Prop :=
  forall id metadata, GenomeRepository.getMetadata id repo = Some metadata ->
    not_nan (GenomeMetadataUtils.effectiveRobustFitness metadata).

(** A stored genome with enough evaluations. *)
Definition warm_candidate repo (minRobustEvalCount : Z) (c : WarmSeedCandidate.t) : Prop :=
  exists metadata, GenomeRepository.getMetadata (WarmSeedCandidate.id c) repo = Some metadata /\
    c = WarmSeedCandidate.mk (WarmSeedCandidate.id c) metadata (GenomeMetadataUtils.effectiveRobustFitness metadata)
          (GenomeMetadataUtils.effectiveRobustEvalCount metadata) /\
    minRobustEvalCount <= GenomeMetadataUtils.effectiveRobustEvalCount metadata.

Record collected repo (minRobustEvalCount : Z) (cs : list WarmSeedCandidate.t) : Prop := {
  co_all : forall c, c ∈ cs <-> warm_candidate repo minRobustEvalCount c;
  co_nodup : NoDup (map WarmSeedCandidate.id cs);
  co_fit : Forall fit_candidate cs;
  co_sorted : StronglySorted (fun a b => candidateBefore b a = false) cs;
  co_length : (length cs <= size (GenomeRepository.metadata_ repo))%nat
}.

Lemma collectSeeds_ok repo minRobustEvalCount :
  fit_repository repo -> collected repo minRobustEvalCount (collectWarmSeedCandidates repo minRobustEvalCount).
Proof.
  intros Hfit. unfold collectWarmSeedCandidates.
  set (enough := fun '(_, metadata) => negb (GenomeMetadataUtils.effectiveRobustEvalCount metadata <? minRobustEvalCount)).
  set (make := fun '(id, metadata) => WarmSeedCandidate.mk id metadata (GenomeMetadataUtils.effectiveRobustFitness metadata)
                                        (GenomeMetadataUtils.effectiveRobustEvalCount metadata)).
  change (std_sort candidateBefore _) with (std_sort candidateBefore (map make (List.filter enough (GenomeRepository.list_ repo)))).
  set (entries := List.filter enough (GenomeRepository.list_ repo)).
  assert (GenomeRepository.list_ repo ≡ₚ map_to_list (GenomeRepository.metadata_ repo)) as HP by apply walk_perm.
  assert (forall id metadata, (id, metadata) ∈ entries <->
            GenomeRepository.getMetadata id repo = Some metadata /\ minRobustEvalCount <= GenomeMetadataUtils.effectiveRobustEvalCount metadata) as Hin.
  { intros id metadata. unfold entries. rewrite list_elem_of_In, filter_In, <- list_elem_of_In, HP, elem_of_map_to_list.
    unfold enough. rewrite negb_true_iff, Z.ltb_ge. done. }
  assert (Forall fit_candidate (map make entries)) as HF.
  { apply Forall_map, Forall_forall. intros [id metadata] H. apply Hin in H as [H _]. unfold fit_candidate. cbn. by eapply Hfit. }
  pose proof (candidateBefore_swo _ HF) as Hswo. pose proof (std_sort_perm _ candidateBefore _ Hswo) as HS.
  split.
  - intros c. rewrite HS. rewrite list_elem_of_fmap. split.
    + intros ([id metadata] & -> & H). apply Hin in H as [H1 H2]. exists metadata. done.
    + intros (metadata & H1 & E & H2). exists (WarmSeedCandidate.id c, metadata). split; [done |]. by apply Hin.
  - rewrite HS, map_map. erewrite map_ext; [apply NoDup_filter_keys |]; [| by intros [id metadata]].
    rewrite HP. apply NoDup_fst_map_to_list.
  - by rewrite HS.
  - by apply std_sort_sorted.
  - rewrite HS, length_map, <- length_map_to_list, <- HP. unfold entries. clear.
    induction (GenomeRepository.list_ repo) as [| e l IH]; [done |]. cbn. destruct (enough e); cbn; lia.
Qed.
End Collecting.
