(* ===== verification/EvolutionRequest.v ===== *)
(** The command that starts a training: [Api::EvolutionStart] ([server/api/]) and its
    handler, the second half of [server/states/Idle.cpp].

    The population is checked, the seeds of a warm start are injected, and the
    [Evolution] state is made. An [error] is the answer the client gets. *)

From Stdlib Require Import ZArith Lia Bool String.
From Stdlib Require Import SpecFloat.
From stdpp Require Import base gmap option numbers list strings pretty.
From S2P Require Import Prelude Ieee StdModel Uuid NesTiles Genomes Training Mutation.
From S2P Require Import EvaluationTypes EvolutionTypes BrainGenomes Evolution EvolutionSystem WarmStart.

Set Default Goal Selector "!".

(** ** Data *)
Inductive TrainingResumePolicy := Fresh | WarmFromBest.
#[global] Instance TrainingResumePolicy_eq_dec : EqDecision TrainingResumePolicy.
Proof. solve_decision. Defined.

Module EvolutionStart.
Record Command := mkCommand {
  evolution : EvolutionConfig.t;
  mutation : MutationConfig.t;
  scenarioId : ScenarioId;
  organismType : OrganismType;
  population : list PopulationSpec.t;
  resumePolicy : TrainingResumePolicy
}.
End EvolutionStart.

(** Of [ScenarioMetadata.h], what a training asks of its scenario. *)
Module ScenarioMetadata.
Record t := mk { deterministicEvaluation : bool; genomePoolId : GenomePoolId }.
End ScenarioMetadata.

Definition ScenarioId_toString (s : ScenarioId) : string :=
  match s with
  | Benchmark => "Benchmark" | Clock => "Clock" | DamBreak => "DamBreak" | EmptyScenario => "Empty" | GooseTest => "GooseTest"
  | Lights => "Lights" | Raining => "Raining" | Sandbox => "Sandbox" | TreeGermination => "TreeGermination"
  | NesFlappyParatroopa => "NesFlappyParatroopa" | NesSuperMarioBros => "NesSuperMarioBros"
  | NesSuperTiltBro => "NesSuperTiltBro" | WaterEqualization => "WaterEqualization"
  end.

(** [return ApiError(...)] in the middle of a function that may also fault. *)
Definition try_bind {A B E} (m : res (Result A E)) (k : A -> res (Result B E)) : res (Result B E) :=
  rbind m (fun r => match r with okay a => k a | error e => Ok (error e) end).
Notation "'let?' x ':=' m 'in' k" := (try_bind m (fun x => k))
  (at level 10, x name, m at level 100, k at level 200) : res_scope.
Notation "'let?' ' p ':=' m 'in' k" := (try_bind m (fun x => match x with p => k end))
  (at level 10, p pattern, m at level 100, k at level 200) : res_scope.
Definition reject_if {E} (b : bool) (e : E) : res (Result unit E) := Ok (if b then error e else okay tt).

Module Idle.

(** The population of the command, or the default one. *)
Definition requestedPopulation (command : EvolutionStart.Command) : Result (list PopulationSpec.t) string :=
  match EvolutionStart.population command with
  | [] =>
      let count := EvolutionConfig.populationSize (EvolutionStart.evolution command) in
      if count <=? 0 then error "populationSize must be > 0 when population is empty"
      else
        let organism := EvolutionStart.organismType command in
        let kind := BrainRegistry.defaultTrainingBrainKind organism (EvolutionStart.scenarioId command) in
        okay [PopulationSpec.mk kind None count [] (match organism with GOOSE => 0 | _ => count end)]
  | population => okay population
  end.

Definition resolveParallelEvaluations (requested populationSize hardware : Z) : Z :=
  let resolved := if requested <=? 0 then (if 0 <? hardware then s32 hardware else 1) else requested in
  let resolved := if resolved <? 1 then 1 else resolved in
  if (0 <? populationSize) && (populationSize <? resolved) then populationSize else resolved.

(** What a population spec becomes while seeds are injected. *)
Record Injection (R : Type) := mkInjection {
  spec : PopulationSpec.t;
  selectedMask : list bool;
  selectedSeedIds : list GenomeId;
  injectedForSpec : Z;
  outWarmSeedInjectedCount : Z;
  genomeCache : gmap GenomeId (option Genome.t);
  warmSeedSamplingRng : R
}.
Arguments mkInjection {R}.
Arguments spec {R}.
Arguments selectedMask {R}.
Arguments selectedSeedIds {R}.
Arguments injectedForSpec {R}.
Arguments outWarmSeedInjectedCount {R}.
Arguments genomeCache {R}.
Arguments warmSeedSamplingRng {R}.

(** What lasts from one spec to the next. *)
Record Warm (R : Type) := mkWarm {
  wa_rng : R;
  wa_expected : option NesTileBrainCompatibilityMetadata.t;
  wa_injected : Z
}.
Arguments mkWarm {R}.
Arguments wa_rng {R}.
Arguments wa_expected {R}.
Arguments wa_injected {R}.

Section Validate.
Context {Db R D SC : Type} `{SS : !StdSort, UW : !UnorderedWalk, RE : !RandomEngine R, DD : !DiscreteDistribution R,
    ND : !NormalDistribution R D, UR : !UniformReal R}.
Context (bootstrap : ScenarioId -> option SC -> Result NesTileTokenizer.t string) (repo : GenomeRepository.t Db).
Context (scenarioConfigOverride : option SC).
Abbreviation Cache := (gmap GenomeId (option Genome.t)).
Abbreviation Expected := (option NesTileBrainCompatibilityMetadata.t).

(** ** One population spec *)
Section Spec.
Context (scenarioId : ScenarioId) (organismType : OrganismType) (pool : GenomePoolId) (evolution : EvolutionConfig.t)
        (warmSeedCandidates : list WarmSeedCandidate.t).
Implicit Types (entry : BrainRegistryEntry.t R).

(** Why a genome is for other tiles than those of now. *)
Definition nesTileMismatch (populationSpec : PopulationSpec.t) (metadata : GenomeMetadata.t) (expected : Expected)
    : Result (option string * Expected) string :=
  if isNesTilePopulation populationSpec && bool_decide (GenomeMetadata.nesTileBrainCompatibility metadata <> None) then
    match ensureNesTileCompatibilityMetadata bootstrap scenarioId scenarioConfigOverride expected with
    | error e => error e
    | okay expected => okay (validateNesTileWarmSeedMetadata metadata expected, Some expected)
    end
  else okay (None, expected).

(** The candidates that the population can take. *)
Fixpoint compatible_loop (populationSpec : PopulationSpec.t) entry (candidates : list WarmSeedCandidate.t) (expected : Expected)
    (cache : Cache) : Result (list WarmSeedCandidate.t * Expected * Cache) string :=
  match candidates with
  | [] => okay ([], expected, cache)
  | candidate :: candidates =>
      let metadata := WarmSeedCandidate.metadata candidate in
      if negb (isWarmGenomeCompatibleForPopulation metadata scenarioId organismType populationSpec pool) then
        compatible_loop populationSpec entry candidates expected cache
      else
        match nesTileMismatch populationSpec metadata expected with
        | error e => error e
        | okay (Some _, expected) => compatible_loop populationSpec entry candidates expected cache
        | okay (None, expected) =>
            if bool_decide (WarmSeedCandidate.id candidate ∈ PopulationSpec.seedGenomes populationSpec) then
              compatible_loop populationSpec entry candidates expected cache
            else
              let '(fits, cache) :=
                match BrainRegistryEntry.isGenomeCompatible entry with
                | None => (true, cache)
                | Some isGenomeCompatible =>
                    let '(genome, cache) := loadWarmGenome repo (WarmSeedCandidate.id candidate) cache in
                    (match genome with None => false | Some genome => isGenomeCompatible genome end, cache)
                end in
              match compatible_loop populationSpec entry candidates expected cache with
              | error e => error e
              | okay (rest, expected, cache) => okay (if fits then candidate :: rest else rest, expected, cache)
              end
        end
  end.

Definition injectCandidate (compatibleCandidates : list WarmSeedCandidate.t) (index : Z) (s : Injection R) : res (Injection R) :=
  let! mask := vec_set (selectedMask s) index true in
  let! candidate := vec_get compatibleCandidates index in
  let id := WarmSeedCandidate.id candidate in
  let! randomCount := int_result (PopulationSpec.randomCount (spec s) - 1) in
  let! forSpec := int_result (injectedForSpec s + 1) in
  let! injected := int_result (outWarmSeedInjectedCount s + 1) in
  Ok (mkInjection
        (PopulationSpec.mk (PopulationSpec.brainKind (spec s)) (PopulationSpec.brainVariant (spec s)) (PopulationSpec.count (spec s))
           (PopulationSpec.seedGenomes (spec s) ++ [id]) randomCount)
        mask (selectedSeedIds s ++ [id]) forSpec injected (genomeCache s) (warmSeedSamplingRng s)).

(** [while (injectedForSpec < maxSeedsToInject)]: each turn injects a seed or stops. *)
Fixpoint inject_loop (n : nat) (compatibleCandidates : list WarmSeedCandidate.t) (s : Injection R) : res (Injection R) :=
  match n with
  | O => Ok s
  | S n =>
      let! '(sampled, cache, rng) :=
        sampleWarmSeedByFitnessAndNovelty compatibleCandidates (selectedMask s) (selectedSeedIds s)
          (std_clamp (EvolutionConfig.warmStartNoveltyWeight evolution) fzero (f64_of_Z 1))
          (std_clamp (EvolutionConfig.warmStartFitnessFloorPercentile evolution) fzero (f64_of_Z 100))
          repo (genomeCache s) (warmSeedSamplingRng s) in
      let s := mkInjection (spec s) (selectedMask s) (selectedSeedIds s) (injectedForSpec s) (outWarmSeedInjectedCount s) cache rng in
      let! index := (if sampled <? 0 then findNextWarmSeedByFitness compatibleCandidates (selectedMask s) else Ok sampled) in
      if index <? 0 then Ok s
      else let! s := injectCandidate compatibleCandidates index s in inject_loop n compatibleCandidates s
  end.

Definition injectSeeds (compatibleCandidates : list WarmSeedCandidate.t) (maxSeedsToInject : Z) (s : Injection R) : res (Injection R) :=
  let! s :=
    (if EvolutionConfig.warmStartAlwaysIncludeBest evolution then
       let! nextIndex := findNextWarmSeedByFitness compatibleCandidates (selectedMask s) in
       if (0 <=? nextIndex) && (injectedForSpec s <? maxSeedsToInject) then injectCandidate compatibleCandidates nextIndex s
       else Ok s
     else Ok s) in
  inject_loop (Z.to_nat (maxSeedsToInject - injectedForSpec s)) compatibleCandidates s.

Definition warmSpec (populationSpec : PopulationSpec.t) entry (warm : Warm R) : res (Result (PopulationSpec.t * Warm R) string) :=
  if negb (bool_decide (warmSeedCandidates = [])) && (0 <? PopulationSpec.randomCount populationSpec)
     && (0 <? PopulationSpec.count populationSpec) then
    let! maxSeedsToInject :=
      computeWarmStartSeedTargetCount (PopulationSpec.randomCount populationSpec)
        (std_clamp (EvolutionConfig.warmStartSeedPercent evolution) fzero (f64_of_Z 100))
        (Z.max 0 (EvolutionConfig.warmStartSeedCount evolution)) in
    if 0 <? maxSeedsToInject then
      let? '(compatibleCandidates, expected, cache) :=
        Ok (compatible_loop populationSpec entry warmSeedCandidates (wa_expected warm) ∅) in
      match compatibleCandidates with
      | [] => Ok (okay (populationSpec, mkWarm (wa_rng warm) expected (wa_injected warm)))
      | _ =>
          let! s := injectSeeds compatibleCandidates maxSeedsToInject
            (mkInjection populationSpec (replicate (length compatibleCandidates) false) (PopulationSpec.seedGenomes populationSpec) 0
               (wa_injected warm) cache (wa_rng warm)) in
          Ok (okay (spec s, mkWarm (warmSeedSamplingRng s) expected (outWarmSeedInjectedCount s)))
      end
    else Ok (okay (populationSpec, warm))
  else Ok (okay (populationSpec, warm)).

Fixpoint seeds_loop (populationSpec : PopulationSpec.t) entry (ids : list GenomeId) (expected : Expected) : Result Expected string :=
  match ids with
  | [] => okay expected
  | id :: ids =>
      if bool_decide (id = INVALID_GENOME_ID) then error "Seed genome ID is nil"
      else if negb (GenomeRepository.exists_ id repo) then error ("Seed genome not found: " +:+ UUID.toShortString id)
      else
        match GenomeRepository.getMetadata id repo with
        | None => error ("Seed genome metadata not found: " +:+ UUID.toShortString id)
        | Some metadata =>
            if negb (isWarmGenomeCompatibleForPopulation metadata scenarioId organismType populationSpec pool) then
              error ("Seed genome metadata incompatible with population: " +:+ UUID.toShortString id)
            else
              match nesTileMismatch populationSpec metadata expected with
              | error e => error e
              | okay (Some mismatch, _) =>
                  error ("Seed genome NES tile compatibility mismatch for " +:+ UUID.toShortString id +:+ ": " +:+ mismatch)
              | okay (None, expected) =>
                  match BrainRegistryEntry.isGenomeCompatible entry with
                  | None => seeds_loop populationSpec entry ids expected
                  | Some isGenomeCompatible =>
                      match GenomeRepository.get id repo with
                      | None => error ("Seed genome not found: " +:+ UUID.toShortString id)
                      | Some genome =>
                          if negb (isGenomeCompatible genome) then
                            error ("Seed genome incompatible with brain kind: " +:+ PopulationSpec.brainKind populationSpec)
                          else seeds_loop populationSpec entry ids expected
                      end
                  end
              end
        end
  end.

Definition unregistered (kind variant : string) : string :=
  "Brain kind not registered: " +:+ kind
  +:+ (if String.eqb variant EmptyString then EmptyString else " (" +:+ variant +:+ ")").

Definition validateSpec (brainRegistry : TrainingBrainRegistry R) (populationSpec : PopulationSpec.t) (warm : Warm R)
    : res (Result (PopulationSpec.t * Warm R) string) :=
  let? _ := reject_if (PopulationSpec.count populationSpec <=? 0) "Population entry count must be > 0" in
  let? _ := reject_if (String.eqb (PopulationSpec.brainKind populationSpec) EmptyString)
              "Population entry brainKind must not be empty" in
  let variant := default EmptyString (PopulationSpec.brainVariant populationSpec) in
  match brainRegistry organismType (PopulationSpec.brainKind populationSpec) variant with
  | None => Ok (error (unregistered (PopulationSpec.brainKind populationSpec) variant))
  | Some entry =>
      if BrainRegistryEntry.requiresGenome entry then
        let? '(populationSpec, warm) := warmSpec populationSpec entry warm in
        let? _ := reject_if (PopulationSpec.randomCount populationSpec <? 0) "randomCount must be >= 0" in
        let seedCount := s32 (Z.of_nat (length (PopulationSpec.seedGenomes populationSpec))) in
        let! total := int_result (seedCount + PopulationSpec.randomCount populationSpec) in
        let? _ := reject_if (negb (PopulationSpec.count populationSpec =? total))
                    "Population count must match seedGenomes + randomCount" in
        let? expected := Ok (seeds_loop populationSpec entry (PopulationSpec.seedGenomes populationSpec) (wa_expected warm)) in
        Ok (okay (populationSpec, mkWarm (wa_rng warm) expected (wa_injected warm)))
      else
        let? _ := reject_if (negb (bool_decide (PopulationSpec.seedGenomes populationSpec = [])))
                    "seedGenomes are not allowed for this brain kind" in
        let? _ := reject_if (negb (PopulationSpec.randomCount populationSpec =? 0))
                    "randomCount must be 0 for this brain kind" in
        Ok (okay (populationSpec, warm))
  end.

(** [for (auto& spec : outSpec.population)]. *)
Fixpoint specs_loop (brainRegistry : TrainingBrainRegistry R) (specs : list PopulationSpec.t) (warm : Warm R)
    (outPopulationSize : Z) : res (Result (list PopulationSpec.t * Warm R * Z) string) :=
  match specs with
  | [] => Ok (okay ([], warm, outPopulationSize))
  | populationSpec :: specs =>
      let? '(populationSpec, warm) := validateSpec brainRegistry populationSpec warm in
      let! outPopulationSize := int_result (outPopulationSize + PopulationSpec.count populationSpec) in
      let? '(specs, warm, outPopulationSize) := specs_loop brainRegistry specs warm outPopulationSize in
      Ok (okay (populationSpec :: specs, warm, outPopulationSize))
  end.
End Spec.

(** ** The whole command *)
Context (getMetadata : ScenarioId -> option ScenarioMetadata.t).

(** [outSpec], [outPopulationSize] and [outWarmSeedInjectedCount]; [seed] is drawn
    from the random device. *)
Definition validateTrainingConfig (command : EvolutionStart.Command) (seed : Z) : res (Result (TrainingSpec.t * Z * Z) string) :=
  let scenarioId := EvolutionStart.scenarioId command in
  let organismType := EvolutionStart.organismType command in
  let evolution := EvolutionStart.evolution command in
  let? population := Ok (requestedPopulation command) in
  match getMetadata scenarioId with
  | None => Ok (error ("Scenario not found: " +:+ ScenarioId_toString scenarioId))
  | Some scenarioMetadata =>
      let? _ := reject_if (bool_decide (organismType = DUCK) && negb (bool_decide (scenarioId = Clock)))
                  "Duck evolution is only supported for the Clock scenario" in
      let! brainRegistry := BrainRegistry.createDefault in
      let warmStartMinRobustEvalCount :=
        resolveWarmStartMinRobustEvalCount evolution (ScenarioMetadata.deterministicEvaluation scenarioMetadata) in
      let warmSeedCandidates :=
        if bool_decide (EvolutionStart.resumePolicy command = WarmFromBest)
        then collectWarmSeedCandidates repo warmStartMinRobustEvalCount else [] in
      let? '(population, warm, outPopulationSize) :=
        specs_loop scenarioId organismType (ScenarioMetadata.genomePoolId scenarioMetadata) evolution warmSeedCandidates
          (BrainRegistry.find brainRegistry) population (mkWarm (engine_seed seed) None 0) 0 in
      let? _ := reject_if (outPopulationSize <=? 0) "Population size must be > 0" in
      Ok (okay (TrainingSpec.mk scenarioId organismType population, outPopulationSize, wa_injected warm))
  end.
End Validate.

(** ** The state that is entered *)
Section Start.
Context {Db R D SC E Snapshot : Type} `{GD : !GenomeDatabase Db, MJ : !MetadataJson, SS : !StdSort, UW : !UnorderedWalk,
    RE : !RandomEngine R, DD : !DiscreteDistribution R, ND : !NormalDistribution R D, UR : !UniformReal R}.
Abbreviation State := (Evolution.t (R := R) (A := Archive (Db := Db)) (E := E) (SC := SC) (Snapshot := Snapshot)).

(** [Evolution newState]: the values of [Evolution.h], with the configuration. *)
Definition newState (evolution : EvolutionConfig.t) (mutation : MutationConfig.t) (training : TrainingSpec.t) (executor : E)
    (archive : Archive (Db := Db)) : State :=
  Evolution.mk
    (Settings.mk evolution mutation training PoolDirtSim None UUID.nil ControlAuto)
    None (Population.mk [] [] [] [] false) (Progress.mk 0 0 0 fzero fzero false fzero)
    (Best.mk fzero fzero INVALID_GENOME_ID 0 OriginUnknown BestPlaybackState.reset) PendingBestState.reset RobustnessPassState.reset
    TrainingPhaseTracker.reset (EffectiveAdaptiveMutation.mk Baseline MutationConfig.default)
    (Statistics.mk (-1) fzero fzero fzero [] GenerationTelemetry.reset LastGenerationTelemetry.default)
    (engine_seed 5489) executor archive [] Tuning.reset.

(** [onEvent(const Api::EvolutionStart::Cwc&, ...)]. *)
Definition onEvolutionStart (bootstrap : ScenarioId -> option SC -> Result NesTileTokenizer.t string)
    (getMetadata : ScenarioId -> option ScenarioMetadata.t) (command : EvolutionStart.Command) (seed hardware : Z) (executor : E)
    (archive : Archive (Db := Db)) : res (Result State string) :=
  let? '(training, populationSize, _) := validateTrainingConfig bootstrap (repository archive) None getMetadata command seed in
  let evolution := EvolutionStart.evolution command in
  let parallel := resolveParallelEvaluations (EvolutionConfig.maxParallelEvaluations evolution) populationSize hardware in
  let evolution := Evolution.with_parallel parallel (Evolution.with_population populationSize evolution) in
  Ok (okay (newState evolution (EvolutionStart.mutation command) training executor archive)).
End Start.
End Idle.
