(* ===== verification/RequestCorrect.v ===== *)
(** Starting a training: what the handler of [Api::EvolutionStart] guarantees.

    The handler never faults and rejects no valid command; the seeds of a warm start
    are what the command asks for; a training that is accepted can be entered. Commands on small repositories
    come last. *)

From Stdlib Require Import ZArith Lia Bool String.
From Stdlib Require Import SpecFloat.
From stdpp Require Import base gmap option numbers list sorting strings pretty.
From S2P Require Import Prelude Ieee IeeeRound StdModel Uuid NesTiles Genomes GenomeFacts GenomeCorrect Training TrainingFacts Mutation MutationFacts.
From S2P Require Import GenomeDemo ExecutorDemo EvolutionDemo.
From S2P Require Import EvaluationTypes EvaluationExecutor ExecutorFacts ExecutorRuns ExecutorCorrect.
From S2P Require Import EvolutionTypes Evolution EvolutionBreeding EvolutionInvariant BrainGenomes EvolutionStart EvolutionCorrect.
From S2P Require Import EvolutionSystem WarmStart EvolutionRequest.
Import Idle.

Set Default Goal Selector "!".

(** The result is no fault, and if it is no error either, it is as [Q] says. *)
Definition wp_okay {A E} (m : res (Result A E)) (Q : A -> Prop) : Prop :=
  wp m (fun r => match r with okay a => Q a | error _ => True end).

Section WpOkay.
Context {A B E : Type}.

Lemma okay_bind (m : res (Result A E)) (k : A -> res (Result B E)) (Q : B -> Prop) :
  wp_okay m (fun a => wp_okay (k a) Q) -> wp_okay (try_bind m k) Q.
Proof. by destruct m as [[a | e] |]. Qed.

Lemma okay_mono (m : res (Result A E)) (P Q : A -> Prop) : wp_okay m P -> (forall a, P a -> Q a) -> wp_okay m Q.
Proof. destruct m as [[a | e] |]; cbn; auto. Qed.

Lemma okay_reject (b : bool) (e : E) (Q : unit -> Prop) : (b = false -> Q tt) -> wp_okay (reject_if b e) Q.
Proof. unfold reject_if. destruct b; cbn; auto. Qed.

(** The result is no error. *)
Definition no_error (m : res (Result A E)) : Prop := match m with Ok (error _) => False | _ => True end.

Lemma wp_okay_elim (m : res (Result A E)) (Q : A -> Prop) a : wp_okay m Q -> m = Ok (okay a) -> Q a.
Proof. by intros H ->. Qed.

Lemma no_error_reject (b : bool) (e : E) : b = false -> match reject_if b e with Ok (error _) => False | _ => True end.
Proof. by intros ->. Qed.
End WpOkay.

Lemma no_error_try {A B E} (m : res (Result A E)) (k : A -> res (Result B E)) :
  no_error m -> (forall a, m = Ok (okay a) -> no_error (k a)) -> no_error (try_bind m k).
Proof. destruct m as [[a | e] |]; cbn; auto. Qed.

Lemma no_error_bind {A B E} (m : res A) (k : A -> res (Result B E)) : (forall a, m = Ok a -> no_error (k a)) -> no_error (rbind m k).
Proof. destruct m as [a |]; cbn; auto. Qed.

Definition is_int (z : Z) : Prop := - 2 ^ 31 <= z < 2 ^ 31.

(** ** Choosing indices of a vector *)
Section Choosing.
Context (cs : list WarmSeedCandidate.t).
Notation n := (Z.of_nat (length cs)).

Definition id_at (i : Z) : GenomeId :=
  match cs !! Z.to_nat i with Some c => WarmSeedCandidate.id c | None => INVALID_GENOME_ID end.

(** The mask of the chosen indices. *)
Record chosen (mask : list bool) (picked : list Z) : Prop := {
  ch_length : length mask = length cs;
  ch_mask : forall i, 0 <= i < n -> mask !! Z.to_nat i = Some (bool_decide (i ∈ picked));
  ch_range : Forall (fun i => 0 <= i < n) picked;
  ch_nodup : NoDup picked
}.

Lemma chosen_none : chosen (replicate (length cs) false) [].
Proof.
  split; [apply length_replicate | | constructor | constructor]. intros i Hi. rewrite bool_decide_false by apply not_elem_of_nil.
  apply lookup_replicate. split; [done | lia].
Qed.

Lemma chosen_open mask picked i : chosen mask picked -> open_index mask i -> 0 <= i < n /\ i ∉ picked.
Proof.
  intros [Hl Hm _ _] [Hi Ho]. rewrite Hl in Hi. split; [done |]. rewrite Hm in Ho by done. case_bool_decide; done.
Qed.

Lemma chosen_add mask picked i :
  chosen mask picked -> open_index mask i -> chosen (<[Z.to_nat i := true]> mask) (picked ++ [i]).
Proof.
  intros H Ho. destruct (chosen_open mask picked i H Ho) as [Hi Hnew]. destruct H as [Hl Hm Hr Hn]. split.
  - by rewrite length_insert.
  - intros j Hj. rewrite lookup_insert_Z by lia. case_decide as E.
    + subst. rewrite bool_decide_true; [done |]. apply elem_of_app. right. by apply list_elem_of_singleton.
    + rewrite Hm by done. f_equal. apply bool_decide_ext. rewrite elem_of_app, list_elem_of_singleton. naive_solver.
  - apply Forall_app. split; [done |]. by constructor.
  - apply NoDup_app. split; [done |]. split; [| apply NoDup_singleton]. by intros x Hx ->%list_elem_of_singleton.
Qed.

Lemma chosen_at_most mask picked : chosen mask picked -> (length picked <= length cs)%nat.
Proof.
  intros [_ _ Hr Hn]. rewrite <- (Nat2Z.id (length cs)), <- (length_seqZ 0 n). apply submseteq_length, NoDup_submseteq; [done |].
  intros i Hi. apply elem_of_seqZ. rewrite Forall_forall in Hr. specialize (Hr i Hi). lia.
Qed.

Lemma chosen_all mask picked : chosen mask picked -> (forall i, 0 <= i < n -> mask !! Z.to_nat i = Some true) -> length picked = length cs.
Proof.
  intros H Hall. apply Nat.le_antisymm; [by eapply chosen_at_most |]. destruct H as [_ Hm _ _].
  rewrite <- (Nat2Z.id (length cs)) at 1. rewrite <- (length_seqZ 0 n). apply submseteq_length, NoDup_submseteq; [apply NoDup_seqZ |].
  intros i Hi%elem_of_seqZ. specialize (Hm i ltac:(lia)). rewrite Hall in Hm by lia. by case_bool_decide.
Qed.

(** The identifiers of the chosen candidates. *)
Lemma ids_at picked : Forall (fun i => 0 <= i < n) picked -> forall id, id ∈ map id_at picked -> exists c, c ∈ cs /\ WarmSeedCandidate.id c = id.
Proof.
  intros Hr id Hin. apply list_elem_of_fmap in Hin as (i & -> & Hi). rewrite Forall_forall in Hr. specialize (Hr i Hi).
  destruct (lookup_lt_is_Some_2 cs (Z.to_nat i)) as [c Hc]; [lia |]. exists c. unfold id_at. rewrite Hc.
  split; [by eapply list_elem_of_lookup_2 | done].
Qed.

Lemma ids_nodup picked :
  NoDup (map WarmSeedCandidate.id cs) -> Forall (fun i => 0 <= i < n) picked -> NoDup picked -> NoDup (map id_at picked).
Proof.
  intros Hids Hr Hn. apply NoDup_fmap_2_strong; [| done]. rewrite Forall_forall in Hr. intros i j Hi Hj E.
  pose proof (Hr i Hi) as Ri. pose proof (Hr j Hj) as Rj.
  destruct (lookup_lt_is_Some_2 cs (Z.to_nat i)) as [c Hc]; [lia |]. destruct (lookup_lt_is_Some_2 cs (Z.to_nat j)) as [d Hd]; [lia |].
  unfold id_at in E. rewrite Hc, Hd in E.
  assert (Z.to_nat i = Z.to_nat j); [| lia]. eapply NoDup_lookup; [exact Hids | |]; rewrite list_lookup_fmap.
  - by rewrite Hc.
  - rewrite Hd. cbn. by rewrite E.
Qed.
End Choosing.

(** ** Injecting seeds *)
Section Inject.
Context {Db R D SC : Type} `{SS : !StdSort, SL : !StdSortLaws, UW : !UnorderedWalk, UL : !UnorderedWalkLaws, RE : !RandomEngine R,
    DD : !DiscreteDistribution R, DL : !DiscreteLaws R, ND : !NormalDistribution R D, UR : !UniformReal R}.
Context (repo : GenomeRepository.t Db) (evolution : EvolutionConfig.t).

(** The percentile of the fitness floor is a number. *)
Definition sound_percentile : Prop :=
  not_nan (EvolutionConfig.warmStartFitnessFloorPercentile evolution) /\
  valid (EvolutionConfig.warmStartFitnessFloorPercentile evolution).

Section Loop.
Context (cs : list WarmSeedCandidate.t) (asked : PopulationSpec.t) (injectedBefore : Z).
Context (Hfit : Forall fit_candidate cs) (Hlen : Z.of_nat (length cs) < 2 ^ 31) (Hpercent : sound_percentile).
Context (Hrandom : is_int (PopulationSpec.randomCount asked)) (Hbefore : 0 <= injectedBefore)
        (Hbound : injectedBefore + Z.max 0 (PopulationSpec.randomCount asked) < 2 ^ 31).

(** The population with [seeds] for some of its random individuals. *)
Definition seeded (seeds : list GenomeId) : PopulationSpec.t :=
  PopulationSpec.mk (PopulationSpec.brainKind asked) (PopulationSpec.brainVariant asked) (PopulationSpec.count asked)
    (PopulationSpec.seedGenomes asked ++ seeds) (PopulationSpec.randomCount asked - Z.of_nat (length seeds)).

Record injecting (picked : list Z) (s : Injection R) : Prop := {
  in_chosen : chosen cs (selectedMask s) picked;
  in_spec : spec s = seeded (map (id_at cs) picked);
  in_forSpec : injectedForSpec s = Z.of_nat (length picked);
  in_injected : outWarmSeedInjectedCount s = injectedBefore + Z.of_nat (length picked)
}.

Lemma injectCandidate_ok picked i s :
  injecting picked s -> open_index (selectedMask s) i -> Z.of_nat (length picked) < PopulationSpec.randomCount asked ->
  wp (injectCandidate cs i s) (injecting (picked ++ [i])).
Proof.
  intros [Hc Hs Hf Ho] Hopen Hmore. destruct (chosen_open cs _ _ i Hc Hopen) as [Hi _]. unfold injectCandidate. unfold is_int in Hrandom.
  apply wp_bind, wp_vec_set; [by destruct Hopen |]. apply wp_bind, wp_vec_get; [done |]. intros c Hci.
  rewrite Hs, Hf, Ho. cbn [seeded PopulationSpec.randomCount]. rewrite length_map.
  rewrite !int_result_ok by lia. cbn [rbind]. apply wp_ok. split; cbn.
  - by apply chosen_add.
  - unfold seeded. rewrite map_app, app_assoc, !length_app. cbn.
    assert (id_at cs i = WarmSeedCandidate.id c) as -> by (unfold id_at; by rewrite Hci). rewrite length_map. f_equal. lia.
  - rewrite length_app. cbn. lia.
  - rewrite length_app. cbn. lia.
Qed.

(** The loop injects as many seeds as it is asked for, or all candidates. *)
Lemma inject_loop_ok n picked s :
  injecting picked s -> Z.of_nat (length picked + n) <= PopulationSpec.randomCount asked ->
  wp (inject_loop repo evolution n cs s) (fun s' => exists more, injecting (picked ++ more) s' /\
    length (picked ++ more) = Nat.min (length picked + n) (length cs)).
Proof.
  revert picked s. induction n as [| n IH]; intros picked s Hinj Hn; cbn [inject_loop].
  { apply wp_ok. exists []. rewrite app_nil_r. split; [done |]. pose proof (chosen_at_most cs _ _ (in_chosen _ _ Hinj)). lia. }
  destruct Hpercent as [Hnan Hvalid].
  assert (not_nan (std_clamp (EvolutionConfig.warmStartFitnessFloorPercentile evolution) fzero (f64_of_Z 100)) /\
          valid (std_clamp (EvolutionConfig.warmStartFitnessFloorPercentile evolution) fzero (f64_of_Z 100))) as [Hn1 Hv1].
  { destruct (std_clamp_hundred _ Hnan Hvalid) as (H1 & H2 & _). split; [| done]. intros E. by rewrite E in H1. }
  apply wp_bind. eapply wp_mono; [apply sample_ok; [done | done | exact Hn1 | exact Hv1 | apply (ch_length _ _ _ (in_chosen _ _ Hinj))] |].
  intros [[sampled cache] rng] Hsampled. set (s' := mkInjection _ _ _ _ _ cache rng).
  assert (injecting picked s') as Hinj' by (by destruct Hinj as [? ? ? ?]; split).
  assert (wp (if sampled <? 0 then findNextWarmSeedByFitness cs (selectedMask s') else Ok sampled) (fun i =>
            (i = -1 /\ forall j, 0 <= j < Z.of_nat (length cs) -> selectedMask s' !! Z.to_nat j = Some true) \/
            open_index (selectedMask s') i)) as Hnext.
  { pose proof (ch_length _ _ _ (in_chosen _ _ Hinj')) as Hl. destruct Hsampled as [-> | Hopen].
    - eapply wp_mono; [apply findNext_ok; lia |]. intros i [[-> Hall] | [Ho _]]; [left | by right]. split; [done |]. by rewrite <- Hl.
    - destruct Hopen as [Hr Ho]. rewrite (proj2 (Z.ltb_ge _ _)) by lia. by right. }
  apply wp_bind. eapply wp_mono; [exact Hnext |]. intros i [[-> Hall] | Hopen].
  - apply wp_ok. exists []. rewrite app_nil_r. split; [done |].
    pose proof (chosen_all cs _ _ (in_chosen _ _ Hinj') Hall) as Hl. lia.
  - rewrite (proj2 (Z.ltb_ge _ _)) by (destruct Hopen; lia). apply wp_bind.
    eapply wp_mono; [by apply (injectCandidate_ok picked); [| | lia] |]. intros s'' Hinj''.
    eapply wp_mono; [apply (IH _ _ Hinj''); rewrite length_app; cbn; lia |]. intros s3 (more & H1 & H2).
    exists (i :: more). rewrite <- app_assoc in H1, H2. split; [done |]. cbn [app] in H2. rewrite H2, length_app. cbn. f_equal. lia.
Qed.

(** The first seed of all is the best candidate, if the command wants it. *)
Lemma injectSeeds_ok target s :
  cs <> [] -> injecting [] s -> 0 < target <= PopulationSpec.randomCount asked ->
  wp (injectSeeds repo evolution cs target s) (fun s' => exists picked, injecting picked s' /\
    length picked = Nat.min (Z.to_nat target) (length cs) /\
    (EvolutionConfig.warmStartAlwaysIncludeBest evolution = true -> head picked = Some 0)).
Proof.
  intros Hne Hinj Ht. unfold injectSeeds.
  assert (0 < Z.of_nat (length cs)) as Hpos by (destruct cs; [done | cbn; lia]).
  destruct (EvolutionConfig.warmStartAlwaysIncludeBest evolution).
  - apply wp_bind, wp_bind. pose proof (ch_length _ _ _ (in_chosen _ _ Hinj)) as Hl.
    eapply wp_mono; [apply findNext_ok; lia |]. intros i Hi.
    assert (i = 0) as ->.
    { destruct Hi as [[_ Hall] | [[Hr _] Hall]].
      - exfalso. pose proof (chosen_all cs _ _ (in_chosen _ _ Hinj)) as H. rewrite <- Hl in H. specialize (H Hall). cbn in H. lia.
      - destruct (Z.eq_dec i 0); [done |]. exfalso. specialize (Hall 0 ltac:(lia)).
        rewrite (ch_mask _ _ _ (in_chosen _ _ Hinj) 0) in Hall by lia. rewrite bool_decide_false in Hall; [done | apply not_elem_of_nil]. }
    assert (open_index (selectedMask s) 0) as Hopen by (destruct Hi as [[? _] | [? _]]; done).
    rewrite (in_forSpec _ _ Hinj). cbn [length]. change (0 <=? 0) with true. rewrite (proj2 (Z.ltb_lt _ _)) by lia. cbn [andb].
    eapply wp_mono; [apply (injectCandidate_ok [] 0 s Hinj Hopen); cbn; lia |]. intros s' Hinj'.
    rewrite (in_forSpec _ _ Hinj'). eapply wp_mono; [apply (inject_loop_ok _ _ _ Hinj'); cbn [length app]; lia |].
    intros s'' (more & H1 & H2). exists ([0] ++ more). split; [exact H1 |]. split; [| done]. cbn [length app] in H2 |- *. rewrite H2. f_equal. lia.
  - cbn [rbind]. rewrite (in_forSpec _ _ Hinj). eapply wp_mono; [apply (inject_loop_ok _ _ _ Hinj); cbn [length]; lia |].
    intros s' (more & H1 & H2). exists more. split; [exact H1 |]. split; [| done]. cbn [length app] in H2. rewrite H2. f_equal. lia.
Qed.
End Loop.
End Inject.

(** ** The candidates a population can take *)
Section Spec.
Context {Db R D SC : Type} `{SS : !StdSort, SL : !StdSortLaws, UW : !UnorderedWalk, UL : !UnorderedWalkLaws, RE : !RandomEngine R,
    DD : !DiscreteDistribution R, DL : !DiscreteLaws R, ND : !NormalDistribution R D, UR : !UniformReal R}.
Context (bootstrap : ScenarioId -> option SC -> Result NesTileTokenizer.t string) (repo : GenomeRepository.t Db)
        (override : option SC) (scenarioId : ScenarioId) (organismType : OrganismType) (pool : GenomePoolId)
        (evolution : EvolutionConfig.t).
Implicit Types (entry : BrainRegistryEntry.t R) (asked : PopulationSpec.t) (metadata : GenomeMetadata.t).
Abbreviation Expected := (option NesTileBrainCompatibilityMetadata.t).
Abbreviation mismatch := (nesTileMismatch bootstrap override scenarioId).

(** The genome is not for other tiles than those of now. *)
Definition tiles_match asked (expected : Expected) metadata : bool :=
  match mismatch asked metadata expected with okay (None, _) => true | _ => false end.

Definition brain_accepts entry (genome : option Genome.t) : bool :=
  match BrainRegistryEntry.isGenomeCompatible entry with
  | None => true
  | Some isGenomeCompatible => match genome with Some genome => isGenomeCompatible genome | None => false end
  end.

(** What a candidate has to be to become a seed. *)
Definition suits asked entry (expected : Expected) (c : WarmSeedCandidate.t) : bool :=
  isWarmGenomeCompatibleForPopulation (WarmSeedCandidate.metadata c) scenarioId organismType asked pool
  && tiles_match asked expected (WarmSeedCandidate.metadata c)
  && negb (bool_decide (WarmSeedCandidate.id c ∈ PopulationSpec.seedGenomes asked))
  && brain_accepts entry (GenomeRepository.get (WarmSeedCandidate.id c) repo).

Definition cache_ok (cache : gmap GenomeId (option Genome.t)) : Prop :=
  forall id genome, cache !! id = Some genome -> genome = GenomeRepository.get id repo.

Lemma load_ok id cache : cache_ok cache ->
  fst (loadWarmGenome repo id cache) = GenomeRepository.get id repo /\ cache_ok (snd (loadWarmGenome repo id cache)).
Proof.
  intros Hc. unfold loadWarmGenome. destruct (cache !! id) as [genome |] eqn:E; [by split; [apply Hc |] |]. split; [done |].
  intros id' genome. cbn [snd]. destruct (decide (id' = id)) as [-> | Hne]; [rewrite lookup_insert_eq; congruence |].
  rewrite lookup_insert_ne by done. apply Hc.
Qed.

(** What the tiles of now are does not change while candidates are checked. *)
Definition same_tiles (expected expected' : Expected) : Prop :=
  forall asked metadata, tiles_match asked expected' metadata = tiles_match asked expected metadata.

Lemma same_tiles_trans e1 e2 e3 : same_tiles e1 e2 -> same_tiles e2 e3 -> same_tiles e1 e3.
Proof. intros H1 H2 asked metadata. by rewrite H2, H1. Qed.

Lemma mismatch_stable asked metadata expected r expected' :
  mismatch asked metadata expected = okay (r, expected') -> same_tiles expected expected'.
Proof.
  unfold nesTileMismatch at 1. destruct (isNesTilePopulation asked && _); [| by intros [= <- <-]].
  destruct (ensureNesTileCompatibilityMetadata bootstrap scenarioId override expected) as [m |] eqn:E; [| done].
  intros [= <- <-] asked' metadata'. unfold tiles_match, nesTileMismatch. destruct (isNesTilePopulation asked' && _); [| done]. by rewrite E.
Qed.

Lemma compatible_loop_ok asked entry cs expected cache l expected' cache' :
  cache_ok cache ->
  compatible_loop bootstrap repo override scenarioId organismType pool asked entry cs expected cache = okay (l, expected', cache') ->
  l = List.filter (suits asked entry expected) cs /\ same_tiles expected expected'.
Proof.
  revert expected cache l. induction cs as [| c cs IH]; intros expected cache l Hc; cbn [compatible_loop List.filter]; [by intros [= <- <- _] |].
  assert (forall expected1 cache1 l1, cache_ok cache1 -> same_tiles expected expected1 ->
            compatible_loop bootstrap repo override scenarioId organismType pool asked entry cs expected1 cache1 = okay (l1, expected', cache') ->
            l1 = List.filter (suits asked entry expected) cs /\ same_tiles expected expected') as Hrest.
  { intros expected1 cache1 l1 Hc1 Hst H. destruct (IH _ _ _ Hc1 H) as [-> Hst']. split; [| by eapply same_tiles_trans].
    apply filter_ext. intros d. unfold suits. by rewrite Hst. }
  unfold suits at 1. destruct (isWarmGenomeCompatibleForPopulation _ _ _ _ _); cbn [negb andb]; [| by apply Hrest].
  unfold tiles_match at 1. destruct (mismatch asked (WarmSeedCandidate.metadata c) expected) as [[[m |] expected1] | e] eqn:Em; [| | done].
  { cbn [andb]. apply Hrest; [done |]. by eapply mismatch_stable. }
  pose proof (mismatch_stable _ _ _ _ _ Em) as Hst. cbn [andb].
  case_bool_decide; cbn [negb andb]; [by apply Hrest |]. unfold brain_accepts.
  destruct (BrainRegistryEntry.isGenomeCompatible entry) as [f |].
  - destruct (load_ok (WarmSeedCandidate.id c) cache Hc) as [Hg Hc1].
    destruct (loadWarmGenome repo _ cache) as [genome cache1]. cbn [fst snd] in Hg, Hc1. rewrite <- Hg.
    destruct (compatible_loop _ _ _ _ _ _ _ _ cs expected1 cache1) as [[[rest e2] c2] |] eqn:Er; [| done]. intros [= <- -> ->].
    destruct (Hrest _ _ _ Hc1 Hst Er) as [-> ?]. by destruct genome.
  - destruct (compatible_loop _ _ _ _ _ _ _ _ cs expected1 cache) as [[[rest e2] c2] |] eqn:Er; [| done]. intros [= <- -> ->].
    by destruct (Hrest _ _ _ Hc Hst Er) as [-> ?].
Qed.

(** ** The seeds of a population *)
Context (minRobustEvalCount : Z).
Abbreviation candidates := (collectWarmSeedCandidates repo minRobustEvalCount).

(** How many random individuals may be replaced. *)
Definition seedTarget asked : res Z :=
  computeWarmStartSeedTargetCount (PopulationSpec.randomCount asked)
    (std_clamp (EvolutionConfig.warmStartSeedPercent evolution) fzero (f64_of_Z 100)) (Z.max 0 (EvolutionConfig.warmStartSeedCount evolution)).

(** The seeds that a warm start puts in: distinct suitable candidates, as many as
    there are and as are wanted, the best one first if that is asked for. *)
Record warm_seeds (suitable : list WarmSeedCandidate.t) (target : Z) (seeds : list GenomeId) : Prop := {
  ws_suitable : forall id, id ∈ seeds -> exists c, c ∈ suitable /\ WarmSeedCandidate.id c = id;
  ws_nodup : NoDup seeds;
  ws_count : Z.of_nat (length seeds) = Z.min target (Z.of_nat (length suitable));
  ws_best : EvolutionConfig.warmStartAlwaysIncludeBest evolution = true -> 0 < target ->
    head seeds = option_map WarmSeedCandidate.id (head suitable)
}.

(** The repository's genomes can be counted, and the command's percentages are numbers
    where they have to be. *)
Record warm_ok : Prop := {
  wo_fit : fit_repository repo;
  wo_size : Z.of_nat (size (GenomeRepository.metadata_ repo)) < 2 ^ 31;
  wo_percentile : sound_percentile evolution;
  wo_percent : valid (EvolutionConfig.warmStartSeedPercent evolution)
}.

Lemma clamp_valid x : valid x -> valid (std_clamp x fzero (f64_of_Z 100)).
Proof.
  intros Hv. assert (x = S754_nan \/ not_nan x) as [-> | Hn] by (destruct x; first [by left | by right]); [done |]. by destruct (std_clamp_hundred x Hn Hv) as (_ & H & _).
Qed.

Lemma head_filter_of (suitable : list WarmSeedCandidate.t) picked :
  head picked = Some 0 -> head (map (id_at suitable) picked) = option_map WarmSeedCandidate.id (head suitable) \/ suitable = [].
Proof. destruct picked as [| i picked]; [done |]. intros [= ->]. destruct suitable; [by right | by left]. Qed.

Lemma no_seeds suitable target : Z.min target (Z.of_nat (length suitable)) = 0 -> (0 < target -> suitable = []) -> warm_seeds suitable target [].
Proof.
  intros H0 H1. split.
  - by intros id ?%elem_of_nil.
  - constructor.
  - done.
  - intros _ Ht. by rewrite H1.
Qed.

Lemma seeded_none asked : seeded asked [] = asked.
Proof. destruct asked. unfold seeded. cbn. rewrite app_nil_r. f_equal. lia. Qed.

Lemma suitable_length asked entry expected : warm_ok -> Z.of_nat (length (List.filter (suits asked entry expected) candidates)) < 2 ^ 31.
Proof.
  intros [Hfit Hsize _ _]. pose proof (co_length _ _ _ (collectSeeds_ok repo minRobustEvalCount Hfit)).
  assert (forall (p : WarmSeedCandidate.t -> bool) l, (length (List.filter p l) <= length l)%nat) as Hle; [| pose proof (Hle (suits asked entry expected) candidates); lia].
  intros p l. induction l as [| c l IH]; [done |]. cbn. destruct (p c); cbn; lia.
Qed.

Lemma filter_ids_nodup (p : WarmSeedCandidate.t -> bool) l : NoDup (map WarmSeedCandidate.id l) -> NoDup (map WarmSeedCandidate.id (List.filter p l)).
Proof.
  induction l as [| c l IH]; cbn; [done |]. intros [Hc Hl]%NoDup_cons. destruct (p c); [| by apply IH]. cbn. apply NoDup_cons.
  split; [| by apply IH]. intros Hin. apply Hc. apply list_elem_of_fmap in Hin as (d & E & Hd). rewrite E. apply list_elem_of_fmap.
  exists d. split; [done |]. apply list_elem_of_In in Hd. apply list_elem_of_In. by apply filter_In in Hd as [? _].
Qed.

(** What becomes of a population of the command. *)
Definition warmed (warmSeeds : bool) asked entry (seeds : list GenomeId) : Prop :=
  exists target, seedTarget asked = Ok target /\
    if warmSeeds then warm_seeds (List.filter (suits asked entry None) candidates) target seeds else seeds = [].

Lemma warmed_none (warmSeeds : bool) asked entry target :
  seedTarget asked = Ok target -> 0 <= target ->
  (warmSeeds = true -> 0 < target -> List.filter (suits asked entry None) candidates = []) -> warmed warmSeeds asked entry [].
Proof.
  intros Ht H0 H. exists target. split; [done |]. destruct warmSeeds; [| done]. destruct (Z.eq_dec target 0) as [-> |].
  - apply no_seeds; lia.
  - rewrite H by (done || lia). apply no_seeds; [cbn; lia | done].
Qed.

Lemma seedTarget_range asked : warm_ok -> is_int (PopulationSpec.randomCount asked) ->
  exists target, seedTarget asked = Ok target /\ 0 <= target <= Z.max 0 (PopulationSpec.randomCount asked).
Proof.
  intros [_ _ _ Hp] Hint. apply wp_elim, seedTarget_ok; [unfold is_int in Hint; lia | by apply clamp_valid].
Qed.

Lemma warmSpec_ok (warmSeeds : bool) asked entry warm :
  warm_ok -> is_int (PopulationSpec.randomCount asked) -> 0 < PopulationSpec.count asked -> same_tiles None (wa_expected warm) ->
  0 <= wa_injected warm -> wa_injected warm + Z.max 0 (PopulationSpec.randomCount asked) < 2 ^ 31 ->
  wp_okay (warmSpec bootstrap repo override scenarioId organismType pool evolution (if warmSeeds then candidates else []) asked entry warm)
    (fun '(spec', warm') => same_tiles None (wa_expected warm') /\ exists seeds, spec' = seeded asked seeds /\
       wa_injected warm' = wa_injected warm + Z.of_nat (length seeds) /\ warmed warmSeeds asked entry seeds).
Proof.
  intros HW Hint Hcount Hsame Hinj0 Hinj. pose proof HW as [Hfit Hsize Hpercentile Hpercent].
  pose proof (collectSeeds_ok repo minRobustEvalCount Hfit) as HC. destruct (seedTarget_range asked HW Hint) as (target & Et & Ht).
  assert (List.filter (suits asked entry (wa_expected warm)) candidates = List.filter (suits asked entry None) candidates) as Esuit
    by (apply filter_ext; intros c; unfold suits; by rewrite Hsame).
  assert (forall warm' : Warm R, same_tiles None (wa_expected warm') -> wa_injected warm' = wa_injected warm ->
            (warmSeeds = true -> 0 < target -> List.filter (suits asked entry None) candidates = []) ->
            same_tiles None (wa_expected warm') /\ exists seeds, asked = seeded asked seeds /\
              wa_injected warm' = wa_injected warm + Z.of_nat (length seeds) /\ warmed warmSeeds asked entry seeds) as Hnone.
  { intros warm' Hs Hw H. split; [done |]. exists []. split; [by rewrite seeded_none |]. split; [cbn; lia |]. eapply warmed_none; [done | lia | done]. }
  unfold warmSpec. destruct warmSeeds; cbn [andb] in Hnone |- *; [| by apply Hnone].
  case_bool_decide as Hempty; cbn [negb andb]; [by apply Hnone; [done | done |]; intros _; rewrite Hempty |].
  destruct (Z.ltb_spec 0 (PopulationSpec.randomCount asked)) as [Hr | Hr]; cbn [andb]; [| apply Hnone; [done | done | lia]].
  rewrite (proj2 (Z.ltb_lt _ _)) by done. fold (seedTarget asked). rewrite Et. cbn [rbind].
  destruct (Z.ltb_spec 0 target) as [Hpos | Hpos]; [| apply Hnone; [done | done | lia]]. unfold try_bind. cbn [rbind].
  destruct (compatible_loop _ _ _ _ _ _ _ _ _ _ _) as [[[l expected'] cache'] |] eqn:El; [| done].
  apply compatible_loop_ok in El as [-> Hsame']; [| by intros id g; rewrite lookup_empty].
  pose proof (suitable_length asked entry None HW) as Hlen. rewrite Esuit in *. pose proof (same_tiles_trans _ _ _ Hsame Hsame') as Hs.
  set (suitable := List.filter (suits asked entry None) candidates) in *.
  assert (Forall fit_candidate suitable) as HF.
  { apply Forall_forall. intros c Hc. apply list_elem_of_In, filter_In in Hc as [Hc _]. apply list_elem_of_In in Hc.
    pose proof (co_fit _ _ _ HC) as H. rewrite Forall_forall in H. by apply H. }
  destruct suitable as [| c0 rest] eqn:Es; [by apply Hnone |]. rewrite <- Es in *.
  unfold wp_okay. apply wp_bind. eapply wp_mono.
  { apply (injectSeeds_ok repo evolution suitable asked (wa_injected warm)); try done; [by rewrite Es | | lia].
    split; [apply chosen_none | by rewrite seeded_none | done | cbn; lia]. }
  intros s (picked & [H1 H2 H3 H4] & Hl & Hbest). apply wp_ok. split; [done |]. exists (map (id_at suitable) picked).
  split; [done |]. rewrite length_map. split; [done |]. exists target. split; [done |]. cbv iota. fold suitable.
  destruct H1 as [_ _ Hrange Hnd]. split.
  - by apply ids_at.
  - apply ids_nodup; [| done | done]. apply filter_ids_nodup, (co_nodup _ _ _ HC).
  - rewrite length_map, Hl. lia.
  - intros Hb _. destruct (head_filter_of suitable picked (Hbest Hb)) as [H | H]; [exact H | by rewrite Es in H].
Qed.

(** ** Accepting a population *)
Context (registry : TrainingBrainRegistry R).

(** A seed that is stored, for such a population and such a brain. *)
Record seed_ok asked entry (id : GenomeId) : Prop := {
  so_nil : id <> INVALID_GENOME_ID;
  so_genome : exists genome, GenomeRepository.get id repo = Some genome /\ brain_accepts entry (Some genome) = true;
  so_metadata : exists metadata, GenomeRepository.getMetadata id repo = Some metadata /\
    isWarmGenomeCompatibleForPopulation metadata scenarioId organismType asked pool = true /\ tiles_match asked None metadata = true
}.

Lemma seeds_loop_ok asked entry ids expected expected' :
  same_tiles None expected ->
  seeds_loop bootstrap repo override scenarioId organismType pool asked entry ids expected = okay expected' ->
  same_tiles None expected' /\ Forall (seed_ok asked entry) ids.
Proof.
  revert expected. induction ids as [| id ids IH]; intros expected Hs; cbn [seeds_loop]; [by intros [= <-] |].
  case_bool_decide as Hnil; [done |].
  destruct (GenomeRepository.exists_ id repo) eqn:Hex; cbn [negb]; [| done].
  destruct (GenomeRepository.getMetadata id repo) as [metadata |] eqn:Hm; [| done].
  destruct (isWarmGenomeCompatibleForPopulation _ _ _ _ _) eqn:Hw; cbn [negb]; [| done].
  destruct (mismatch asked metadata expected) as [[[m |] expected1] | e] eqn:Em; [done | | done].
  pose proof (same_tiles_trans _ _ _ Hs (mismatch_stable _ _ _ _ _ Em)) as Hs1.
  assert (tiles_match asked None metadata = true) as Ht by (rewrite <- Hs; unfold tiles_match; by rewrite Em).
  unfold GenomeRepository.exists_ in Hex. apply bool_decide_eq_true_1 in Hex.
  destruct (GenomeRepository.genomes_ repo !! id) as [genome |] eqn:Hg; [| done]. unfold GenomeRepository.get at 1. rewrite Hg.
  assert (forall okg, brain_accepts entry (Some genome) = okg -> okg = true -> seed_ok asked entry id) as Hseed.
  { intros okg E ->. split; [done | | by exists metadata]. by exists genome. }
  unfold brain_accepts in Hseed. destruct (BrainRegistryEntry.isGenomeCompatible entry) as [f |].
  - destruct (f genome) eqn:Hf; cbn [negb]; [| done]. intros H. destruct (IH _ Hs1 H) as [H1 H2]. split; [done |].
    constructor; [by eapply Hseed | done].
  - intros H. destruct (IH _ Hs1 H) as [H1 H2]. split; [done |]. constructor; [by eapply Hseed | done].
Qed.

(** A population spec that is accepted. *)
Record valid_spec (spec : PopulationSpec.t) entry : Prop := {
  vs_entry : registry organismType (PopulationSpec.brainKind spec) (default EmptyString (PopulationSpec.brainVariant spec)) = Some entry;
  vs_count : 0 < PopulationSpec.count spec;
  vs_random : 0 <= PopulationSpec.randomCount spec;
  vs_sum : if BrainRegistryEntry.requiresGenome entry
           then PopulationSpec.count spec = Z.of_nat (length (PopulationSpec.seedGenomes spec)) + PopulationSpec.randomCount spec
           else PopulationSpec.seedGenomes spec = [] /\ PopulationSpec.randomCount spec = 0;
  vs_seeds : Forall (seed_ok spec entry) (PopulationSpec.seedGenomes spec)
}.

(** What a population asks for: it bounds every number that is computed from it. *)
Definition demand asked : Z :=
  Z.max 0 (PopulationSpec.count asked) + Z.of_nat (length (PopulationSpec.seedGenomes asked)) + Z.max 0 (PopulationSpec.randomCount asked).

(** The spec that the training gets for a population of the command. *)
Definition accepted (warmSeeds : bool) asked (spec : PopulationSpec.t) : Prop :=
  exists entry seeds, spec = seeded asked seeds /\ valid_spec spec entry /\
    warmed (warmSeeds && BrainRegistryEntry.requiresGenome entry) asked entry seeds.

Definition added asked (spec : PopulationSpec.t) : Z :=
  Z.of_nat (length (PopulationSpec.seedGenomes spec)) - Z.of_nat (length (PopulationSpec.seedGenomes asked)).

Lemma validateSpec_ok (warmSeeds : bool) asked warm :
  warm_ok -> is_int (PopulationSpec.randomCount asked) -> demand asked < 2 ^ 31 -> same_tiles None (wa_expected warm) ->
  0 <= wa_injected warm -> wa_injected warm + demand asked < 2 ^ 31 ->
  wp_okay (validateSpec bootstrap repo override scenarioId organismType pool evolution (if warmSeeds then candidates else []) registry asked warm)
    (fun '(spec, warm') => same_tiles None (wa_expected warm') /\ accepted warmSeeds asked spec /\
       wa_injected warm' = wa_injected warm + added asked spec).
Proof.
  intros HW Hint Hd Hsame H0 Hinj. unfold validateSpec.
  apply okay_bind, okay_reject. intros Hcount%Z.leb_gt. apply okay_bind, okay_reject. intros Hkind.
  destruct (registry organismType _ _) as [entry |] eqn:He; [| done].
  destruct (BrainRegistryEntry.requiresGenome entry) eqn:Hreq.
  - apply okay_bind. eapply okay_mono; [apply (warmSpec_ok warmSeeds asked entry warm); try done; unfold demand in *; lia |].
    intros [spec' warm'] (Hs & seeds & -> & Hi & Hwarmed). apply okay_bind, okay_reject. intros Hr%Z.ltb_ge.
    cbn [seeded PopulationSpec.randomCount PopulationSpec.seedGenomes PopulationSpec.count] in Hr |- *. rewrite length_app.
    unfold demand in Hd. rewrite wrap_s_small by lia. unfold wp_okay at 1. rewrite int_result_ok by lia. cbn [rbind].
    apply okay_bind, okay_reject. intros Hsum%negb_false_iff%Z.eqb_eq. unfold try_bind. cbn [rbind].
    destruct (seeds_loop _ _ _ _ _ _ _ _ _ _) as [expected |] eqn:El; [| done]. apply seeds_loop_ok in El as [Hs' Hseeds]; [| done].
    cbn. split; [done |]. split; [| unfold added; cbn; rewrite length_app; lia].
    exists entry, seeds. split; [done |]. rewrite Hreq, andb_true_r. split; [| done]. split; try done; cbn.
    rewrite Hreq, length_app. lia.
  - apply okay_bind, okay_reject. intros Hseeds%negb_false_iff%bool_decide_eq_true_1. apply okay_bind, okay_reject.
    intros Hr%negb_false_iff%Z.eqb_eq. cbn. split; [done |]. split; [| unfold added; lia]. exists entry, []. rewrite seeded_none, Hreq, andb_false_r.
    split; [done |]. destruct (seedTarget_range asked HW Hint) as (target & Et & Ht). split; [| by exists target].
    split; try done; [lia | by rewrite Hreq | by rewrite Hseeds].
Qed.

Lemma accepted_count (warmSeeds : bool) asked spec : accepted warmSeeds asked spec -> PopulationSpec.count spec = PopulationSpec.count asked /\ 0 < PopulationSpec.count asked.
Proof. intros (entry & seeds & -> & [_ H _ _ _] & _). done. Qed.

Lemma demand_nonneg asked : 0 <= demand asked.
Proof. unfold demand. lia. Qed.

Lemma demands_nonneg l : 0 <= zsum (map demand l).
Proof. induction l as [| a l IH]; cbn [map zsum foldr]; [done |]. pose proof (demand_nonneg a). fold (zsum (map demand l)). lia. Qed.

Lemma added_bound (warmSeeds : bool) asked spec : accepted warmSeeds asked spec -> 0 <= added asked spec <= demand asked.
Proof.
  intros (entry & seeds & -> & [_ _ H _ _] & _). unfold added, demand. cbn in *. rewrite length_app. lia.
Qed.

Lemma specs_loop_ok (warmSeeds : bool) (all : list PopulationSpec.t) warm out :
  warm_ok -> Forall (fun a => is_int (PopulationSpec.randomCount a)) all -> same_tiles None (wa_expected warm) ->
  0 <= wa_injected warm -> wa_injected warm + zsum (map demand all) < 2 ^ 31 -> 0 <= out -> out + zsum (map demand all) < 2 ^ 31 ->
  wp_okay (specs_loop bootstrap repo override scenarioId organismType pool evolution (if warmSeeds then candidates else []) registry all warm out)
    (fun '(specs, warm', out') => Forall2 (accepted warmSeeds) all specs /\
       out' = out + zsum (map PopulationSpec.count specs) /\
       wa_injected warm' = wa_injected warm + zsum (zip_with added all specs)).
Proof.
  intros HW. revert warm out. induction all as [| a all IH]; intros warm out HF Hs H0 Hinj Hout0 Hout; cbn [specs_loop].
  { cbn. split; [constructor | lia]. }
  apply Forall_cons in HF as [Ha HF]. cbn [map zsum foldr] in Hinj, Hout. fold (zsum (map demand all)) in Hinj, Hout.
  pose proof (demands_nonneg all). pose proof (demand_nonneg a).
  apply okay_bind. eapply okay_mono; [apply (validateSpec_ok warmSeeds a warm); try done; lia |].
  intros [spec warm'] (Hs' & Hacc & Hi). pose proof (accepted_count _ _ _ Hacc) as [Hc Hc0]. pose proof (added_bound _ _ _ Hacc) as Hadd.
  assert (PopulationSpec.count spec <= demand a) as Hle by (rewrite Hc; unfold demand; lia).
  unfold wp_okay at 1. rewrite int_result_ok by lia. cbn [rbind].
  apply okay_bind. eapply okay_mono; [apply IH; try done; lia |]. intros [[specs warm''] out''] (F1 & F2 & F3).
  cbn. split; [by constructor |]. fold (zsum (map PopulationSpec.count specs)). fold (zsum (zip_with added all specs)). lia.
Qed.

(** ** No other population is rejected *)

(** Exactly the stored genomes have metadata, as requests leave a repository. *)
Definition whole_repository : Prop :=
  dom (GenomeRepository.genomes_ repo) = dom (GenomeRepository.metadata_ repo) /\
  GenomeRepository.genomes_ repo !! INVALID_GENOME_ID = None.

(** A population that is valid as it is asked for, of tiles that can be had. *)
Definition acceptable_spec asked : Prop :=
  PopulationSpec.brainKind asked <> EmptyString /\
  (isNesTilePopulation asked = true -> exists tokenizer, bootstrap scenarioId override = okay tokenizer) /\
  exists entry, valid_spec asked entry.

Lemma mismatch_known asked metadata expected :
  acceptable_spec asked -> exists r expected', mismatch asked metadata expected = okay (r, expected').
Proof.
  intros (_ & Htiles & _). unfold nesTileMismatch. destruct (isNesTilePopulation asked) eqn:En; cbn [andb]; [| by eexists _, _].
  case_bool_decide; [| by eexists _, _]. unfold ensureNesTileCompatibilityMetadata. destruct expected; [by eexists _, _ |].
  destruct (Htiles eq_refl) as [tokenizer ->]. by eexists _, _.
Qed.

Lemma compatible_loop_known asked entry cs expected cache : acceptable_spec asked ->
  exists found, compatible_loop bootstrap repo override scenarioId organismType pool asked entry cs expected cache = okay found.
Proof.
  intros Hasked. revert expected cache. induction cs as [| c cs IH]; intros expected cache; cbn [compatible_loop]; [by eexists |].
  destruct (negb _); [apply IH |].
  destruct (mismatch_known asked (WarmSeedCandidate.metadata c) expected Hasked) as ([m |] & expected' & ->); [apply IH |].
  case_bool_decide; [apply IH |]. destruct (BrainRegistryEntry.isGenomeCompatible entry) as [f |].
  - destruct (loadWarmGenome repo _ cache) as [genome cache']. destruct (IH expected' cache') as [[[rest e1] c1] ->]. by eexists.
  - destruct (IH expected' cache) as [[[rest e1] c1] ->]. by eexists.
Qed.

Lemma warmSpec_known found asked entry (warm : Warm R) : acceptable_spec asked ->
  no_error (warmSpec bootstrap repo override scenarioId organismType pool evolution found asked entry warm).
Proof.
  intros Hasked. unfold warmSpec. destruct (_ && _ && _); [| done]. apply no_error_bind. intros target _. destruct (0 <? target); [| done].
  apply no_error_try.
  - destruct (compatible_loop_known asked entry found (wa_expected warm) ∅ Hasked) as [? ->]. done.
  - intros [[cs expected] cache] _. destruct cs as [| c cs]; [done |]. by apply no_error_bind.
Qed.

Lemma seeds_loop_known asked entry ids expected : same_tiles None expected -> Forall (seed_ok asked entry) ids ->
  exists expected', seeds_loop bootstrap repo override scenarioId organismType pool asked entry ids expected = okay expected'.
Proof.
  revert expected. induction ids as [| id ids IH]; intros expected Hs; cbn [seeds_loop]; [by eexists |].
  intros [[Hnil (genome & Hg & Ha) (metadata & Hm & Hw & Ht)] HF]%Forall_cons. rewrite bool_decide_false by done.
  unfold GenomeRepository.exists_, GenomeRepository.get in *. rewrite Hg, Hm, Hw, bool_decide_true by done. cbn [negb].
  assert (exists expected1, mismatch asked metadata expected = okay (None, expected1)) as [expected1 Em].
  { rewrite <- Hs in Ht. unfold tiles_match in Ht. destruct (mismatch asked metadata expected) as [[[m |] expected1] | e]; try done. by eexists. }
  rewrite Em. unfold brain_accepts in Ha. specialize (IH expected1 (same_tiles_trans _ _ _ Hs (mismatch_stable _ _ _ _ _ Em)) HF).
  destruct (BrainRegistryEntry.isGenomeCompatible entry) as [f |]; [by rewrite Ha |]. done.
Qed.

(** The seeds of a warm start pass the check of the seeds. *)
Lemma suitable_seed_ok asked entry c : whole_repository -> warm_ok ->
  c ∈ List.filter (suits asked entry None) candidates -> seed_ok asked entry (WarmSeedCandidate.id c).
Proof.
  intros [Hdom Hnil] [Hfit _ _ _] [Hc Hsuits]%list_elem_of_In%filter_In.
  apply list_elem_of_In, (co_all _ _ _ (collectSeeds_ok repo minRobustEvalCount Hfit)) in Hc as (metadata & Hm & Ec & _).
  unfold suits in Hsuits. rewrite !andb_true_iff in Hsuits. destruct Hsuits as [[[Hw Ht] _] Ha]. rewrite Ec in Hw, Ht. cbn in Hw, Ht.
  assert (is_Some (GenomeRepository.genomes_ repo !! WarmSeedCandidate.id c)) as [genome Hg].
  { apply elem_of_dom. rewrite Hdom. apply elem_of_dom. by exists metadata. }
  split.
  - intros E. by rewrite E, Hnil in Hg.
  - exists genome. split; [done |]. unfold GenomeRepository.get in Ha. by rewrite Hg in Ha.
  - by exists metadata.
Qed.

Lemma warmed_seeds (warmSeeds : bool) asked entry seeds : whole_repository -> warm_ok -> is_int (PopulationSpec.randomCount asked) ->
  warmed warmSeeds asked entry seeds ->
  Forall (seed_ok asked entry) seeds /\ Z.of_nat (length seeds) <= Z.max 0 (PopulationSpec.randomCount asked).
Proof.
  intros Hwhole HW Hint (target & Et & H). destruct (seedTarget_range asked HW Hint) as (target' & Et' & Ht). rewrite Et in Et'.
  injection Et' as <-. destruct warmSeeds; [| subst; split; [constructor | cbn; lia]]. destruct H as [H1 _ H2 _]. split; [| lia].
  apply Forall_forall. intros id (c & Hc & <-)%H1. by apply suitable_seed_ok.
Qed.

Lemma validateSpec_known (warmSeeds : bool) asked warm :
  whole_repository -> acceptable_spec asked ->
  warm_ok -> is_int (PopulationSpec.randomCount asked) -> demand asked < 2 ^ 31 -> same_tiles None (wa_expected warm) ->
  0 <= wa_injected warm -> wa_injected warm + demand asked < 2 ^ 31 ->
  no_error (validateSpec bootstrap repo override scenarioId organismType pool evolution (if warmSeeds then candidates else []) registry asked warm).
Proof.
  intros Hwhole Hasked HW Hint Hd Hsame H0 Hinj. destruct (Hasked) as (Hkind & _ & entry & [V1 V2 V3 V4 V5]). unfold validateSpec.
  apply no_error_try; [by apply no_error_reject, Z.leb_gt |]. intros _ _.
  apply no_error_try; [by apply no_error_reject, String.eqb_neq |]. intros _ _. rewrite V1.
  destruct (BrainRegistryEntry.requiresGenome entry).
  - apply no_error_try; [by apply warmSpec_known |]. intros [spec' warm'] E.
    eapply wp_okay_elim in E; [| apply (warmSpec_ok warmSeeds asked entry warm); try done; unfold demand in *; lia].
    destruct E as (Hs & seeds & -> & _ & Hwarmed). apply warmed_seeds in Hwarmed as [Hseeds Hlen]; try done.
    unfold demand in Hd. cbn [seeded PopulationSpec.randomCount PopulationSpec.seedGenomes PopulationSpec.count] in *. rewrite length_app.
    apply no_error_try; [apply no_error_reject, Z.ltb_ge; lia |]. intros _ _. rewrite wrap_s_small by lia.
    apply no_error_bind. intros total. rewrite int_result_ok by lia. intros [= <-].
    apply no_error_try; [apply no_error_reject, negb_false_iff, Z.eqb_eq; lia |]. intros _ _.
    apply no_error_try; [| done].
    destruct (seeds_loop_known (seeded asked seeds) entry (PopulationSpec.seedGenomes asked ++ seeds) (wa_expected warm') Hs) as [expected ->]; [| done].
    apply Forall_app. split; eapply Forall_impl; try eassumption; intros id [? ? ?]; by split.
  - destruct V4 as [E1 E2]. apply no_error_try; [by apply no_error_reject; rewrite E1 |]. intros _ _.
    apply no_error_try; [by apply no_error_reject; rewrite E2 |]. done.
Qed.

Lemma specs_loop_known (warmSeeds : bool) (all : list PopulationSpec.t) warm out :
  whole_repository -> Forall acceptable_spec all ->
  warm_ok -> Forall (fun a => is_int (PopulationSpec.randomCount a)) all -> same_tiles None (wa_expected warm) ->
  0 <= wa_injected warm -> wa_injected warm + zsum (map demand all) < 2 ^ 31 ->
  no_error (specs_loop bootstrap repo override scenarioId organismType pool evolution (if warmSeeds then candidates else []) registry all warm out).
Proof.
  intros Hwhole Hall HW. revert warm out Hall. induction all as [| a all IH]; intros warm out Hall HF Hs H0 Hinj; cbn [specs_loop]; [done |].
  apply Forall_cons in HF as [Ha HF]. apply Forall_cons in Hall as [Hasked Hall]. cbn [map zsum foldr] in Hinj. fold (zsum (map demand all)) in Hinj.
  pose proof (demands_nonneg all). pose proof (demand_nonneg a).
  apply no_error_try; [apply validateSpec_known; try done; lia |]. intros [spec warm'] E.
  eapply wp_okay_elim in E; [| apply (validateSpec_ok warmSeeds a warm); try done; lia]. destruct E as (Hs' & Hacc & Hi).
  pose proof (added_bound _ _ _ Hacc). apply no_error_bind. intros out' _. apply no_error_try; [apply IH; try done; lia |]. by intros [[? ?] ?] _.
Qed.
End Spec.

(** ** The command *)
Section Command.
Context {Db R D SC : Type} `{SS : !StdSort, SL : !StdSortLaws, UW : !UnorderedWalk, UL : !UnorderedWalkLaws, RE : !RandomEngine R,
    DD : !DiscreteDistribution R, DL : !DiscreteLaws R, ND : !NormalDistribution R D, UR : !UniformReal R}.
Context (bootstrap : ScenarioId -> option SC -> Result NesTileTokenizer.t string) (repo : GenomeRepository.t Db) (override : option SC)
        (getMetadata : ScenarioId -> option ScenarioMetadata.t).

(** A command whose numbers can be added up, on a repository of countable genomes
    with fitness values that are numbers. *)
Record sane_command (command : EvolutionStart.Command) : Prop := {
  sc_warm : warm_ok repo (EvolutionStart.evolution command);
  sc_ints : forall population, requestedPopulation command = okay population -> Forall (fun asked => is_int (PopulationSpec.randomCount asked)) population;
  sc_demand : forall population, requestedPopulation command = okay population -> zsum (map demand population) < 2 ^ 31
}.

(** What the accepted training is to the command. *)
Record answers (command : EvolutionStart.Command) (training : TrainingSpec.t) (size injected : Z) : Prop := mkAnswers {
  an_scenario : TrainingSpec.scenarioId training = EvolutionStart.scenarioId command;
  an_organism : TrainingSpec.organismType training = EvolutionStart.organismType command;
  an_population : exists population registry metadata,
    requestedPopulation command = okay population /\ BrainRegistry.createDefault = Ok registry /\
    getMetadata (EvolutionStart.scenarioId command) = Some metadata /\
    Forall2 (accepted bootstrap repo override (EvolutionStart.scenarioId command) (EvolutionStart.organismType command)
               (ScenarioMetadata.genomePoolId metadata) (EvolutionStart.evolution command)
               (resolveWarmStartMinRobustEvalCount (EvolutionStart.evolution command) (ScenarioMetadata.deterministicEvaluation metadata))
               (BrainRegistry.find registry) (bool_decide (EvolutionStart.resumePolicy command = WarmFromBest)))
      population (TrainingSpec.population training) /\
    injected = zsum (zip_with added population (TrainingSpec.population training));
  an_size : size = requested training;
  an_some : 0 < size
}.

Lemma validate_ok command seed :
  sane_command command ->
  wp_okay (validateTrainingConfig bootstrap repo override getMetadata command seed)
    (fun '(training, size, injected) => answers command training size injected).
Proof.
  intros [HW Hints Hdemand]. unfold validateTrainingConfig. unfold try_bind at 1. cbn [rbind].
  destruct (requestedPopulation command) as [population | e] eqn:Ep; [| done].
  destruct (getMetadata (EvolutionStart.scenarioId command)) as [metadata |] eqn:Em; [| done].
  apply okay_bind, okay_reject. intros _.
  pose proof (createDefault_ok (R := R) (D := D)) as (registry & Er & _)%wp_elim. rewrite Er. cbn [rbind].
  set (warmSeeds := bool_decide (EvolutionStart.resumePolicy command = WarmFromBest)).
  apply okay_bind. eapply okay_mono.
  { apply specs_loop_ok; [done | by apply Hints | done | done | by apply Hdemand | done | by apply Hdemand]. }
  intros [[specs warm] size] (H1 & H2 & H3). apply okay_bind, okay_reject. intros Hsize%Z.leb_gt. cbn.
  split; [done | done | exists population, registry, metadata; by repeat split | unfold requested; cbn [TrainingSpec.population]; lia | lia].
Qed.

(** A command of a known scenario, whose populations are valid as they are asked for. *)
Record acceptable (command : EvolutionStart.Command) : Prop := mkAcceptable {
  ac_repository : whole_repository repo;
  ac_duck : EvolutionStart.organismType command = DUCK -> EvolutionStart.scenarioId command = Clock;
  ac_population : exists population registry metadata,
    requestedPopulation command = okay population /\ BrainRegistry.createDefault = Ok registry /\
    getMetadata (EvolutionStart.scenarioId command) = Some metadata /\
    Forall (acceptable_spec (R := R) bootstrap repo override (EvolutionStart.scenarioId command) (EvolutionStart.organismType command)
              (ScenarioMetadata.genomePoolId metadata) (BrainRegistry.find registry)) population
}.

Lemma requested_some command population : requestedPopulation command = okay population -> population <> [].
Proof. unfold requestedPopulation. destruct (EvolutionStart.population command); [by destruct (_ <=? 0); [| intros [= <-]] | by intros [= <-]]. Qed.

Lemma validate_known command seed :
  sane_command command -> acceptable command ->
  no_error (validateTrainingConfig (D := D) bootstrap repo override getMetadata command seed).
Proof.
  intros [HW Hints Hdemand] [Hwhole Hduck (population & registry & metadata & Ep & Er & Em & Hall)]. unfold validateTrainingConfig.
  unfold try_bind at 1. rewrite Ep, Em. cbn [rbind].
  apply no_error_try; [apply no_error_reject; do 2 case_bool_decide; naive_solver |]. intros _ _. rewrite Er. cbn [rbind].
  set (warmSeeds := bool_decide (EvolutionStart.resumePolicy command = WarmFromBest)).
  apply no_error_try; [apply specs_loop_known; try done; [by apply Hints | by apply Hdemand] |]. intros [[specs warm] size] E.
  eapply wp_okay_elim in E; [| apply specs_loop_ok; [done | by apply Hints | done | done | by apply Hdemand | done | by apply Hdemand]].
  destruct E as (HF & -> & _). apply no_error_try; [| done]. apply no_error_reject, Z.leb_gt.
  apply requested_some in Ep. destruct HF as [| asked spec population specs Hacc HF]; [done |].
  apply accepted_count in Hacc as [Hc Hpos]. cbn [map zsum foldr]. fold (zsum (map PopulationSpec.count specs)).
  assert (0 <= zsum (map PopulationSpec.count specs)); [| lia]. clear -HF. induction HF as [| a s l l' Hacc HF IH]; [done |].
  apply accepted_count in Hacc as [Hc' Hpos']. cbn [map zsum foldr]. fold (zsum (map PopulationSpec.count l')). lia.
Qed.

(** C12. The handler of [EvolutionStart] answers every sane command without a
    fault, a sane one being a command whose population numbers, added up, fit an
    [int] and whose warm-start percentile is a number, on a repository whose
    fitness values are numbers; [populations_overflow] and [nan_percentile] below
    are the undefined behaviour of the code on other commands, and reported
    findings. It rejects the command with an error, or it accepts a training of the command's
    scenario and organism whose populations are the asked ones, each with some of
    its random individuals replaced by seeds. The seeds of a warm start are
    distinct stored genomes for that scenario, organism, pool and brain, that were
    not asked for already; there are as many as wanted or as there are, and the
    best one comes first if the command wants it. Every seed is stored and fits the
    brain, and the population counts add up. It rejects no command of a known
    scenario whose populations are valid as they are asked for: the seeds of a warm
    start never get a valid command rejected. *)
Theorem evolution_start_accepts (command : EvolutionStart.Command) (seed : Z) :
  sane_command command ->
  match validateTrainingConfig bootstrap repo override getMetadata command seed with
  | Ok (okay (training, size, injected)) => answers command training size injected
  | Ok (error _) => ~ acceptable command
  | Fault _ => False
  end.
Proof.
  intros H. pose proof (validate_ok command seed H) as Hv. pose proof (validate_known command seed H) as Hk.
  revert Hv Hk. unfold wp_okay, wp. by destruct (validateTrainingConfig _ _ _ _ command seed) as [[[[training size] injected] | e] | f].
Qed.
End Command.

(** ** Entering the training *)
Section Enter.
Context {Db R D SC Snapshot : Type} `{GD : !GenomeDatabase Db, MJ : !MetadataJson, HD : !HealthyDatabase Db,
    UW : !UnorderedWalk, UL : !UnorderedWalkLaws, SS : !StdSort, SL : !StdSortLaws,
    RE : !RandomEngine R, RL : !RandomLaws R, ND : !NormalDistribution R D, UR : !UniformReal R,
    DD : !DiscreteDistribution R, DL : !DiscreteLaws R, SH : !Shuffle R, HL : !ShuffleLaws R}.
Context (bootstrap : ScenarioId -> option SC -> Result NesTileTokenizer.t string)
        (getMetadata : ScenarioId -> option ScenarioMetadata.t) (mergePasses : list FitnessEvaluation.t -> FitnessEvaluation.t).

Abbreviation Executor := (EvaluationExecutor.t (Tok := NesTileTokenizer.t) (SC := SC) (Snapshot := Snapshot)).
#[local] Instance enter_service : EvaluationService Executor SC := service bootstrap.
#[local] Instance enter_service_laws : EvaluationServiceLaws Executor SC := service_laws bootstrap.
#[local] Instance enter_collector : EvaluationCollector Executor Snapshot := collector.
#[local] Instance enter_collector_laws : EvaluationCollectorLaws Executor SC Snapshot := collector_laws bootstrap.
#[local] Instance enter_tuning : EvaluationTuning Executor := tuning.
#[local] Instance enter_tuning_laws : EvaluationTuningLaws Executor SC := tuning_laws bootstrap.
Abbreviation State := (Evolution.t (R := R) (A := Archive (Db := Db)) (E := Executor) (SC := SC) (Snapshot := Snapshot)).

(** The executor of a training, with its workers. *)
Definition startExecutor (training : TrainingSpec.t) (tokenizer : option NesTileTokenizer.t) (n : Z) : Executor :=
  EvaluationExecutor.spawn n (EvaluationExecutor.make training tokenizer).

(** A training whose numbers fit into an [int] all along, that needs no tiles or has
    them, on a repository that can take its genomes. *)
Record trainable (override : option SC) (s : State) : Prop := {
  tr_tournament : 0 < EvolutionConfig.tournamentSize (Evolution.config s);
  tr_generations : 0 < EvolutionConfig.maxGenerations (Evolution.config s);
  tr_evaluations : EvolutionConfig.maxGenerations (Evolution.config s) * (2 * requested (Settings.trainingSpec (Evolution.settings s))) < 2 ^ 31;
  tr_changes : requested (Settings.trainingSpec (Evolution.settings s)) * maxWeights < 2 ^ 31;
  tr_stagnation : EvolutionConfig.stagnationWindowGenerations (Evolution.config s) < 2 ^ 30;
  tr_recovery : EvolutionConfig.recoveryWindowGenerations (Evolution.config s) < 2 ^ 31;
  tr_robust : EvolutionConfig.robustFitnessEvaluationCount (Evolution.config s) < 2 ^ 31;
  tr_budgets : budgets_ok (Settings.mutationConfig (Evolution.settings s));
  tr_tiles : Evolution.trainingRequiresNesTileTokenizer (Settings.trainingSpec (Evolution.settings s)) = true ->
    exists tokenizer, bootstrap (TrainingSpec.scenarioId (Settings.trainingSpec (Evolution.settings s))) override = okay tokenizer;
  tr_archive : archive_ready (2 * EvolutionConfig.maxGenerations (Evolution.config s))
    (Z.max 1 (EvolutionConfig.robustFitnessEvaluationCount (Evolution.config s)) * EvolutionConfig.maxGenerations (Evolution.config s))
    (Evolution.archive s)
}.

(** *** Accepted populations can be made *)
Section Made.
Context (registry : gmap BrainRegistry.BrainRegistryKey (BrainRegistryEntry.t R)) (archive : Archive (Db := Db)).
Context (Hregistry : registered default_keys registry).
Context (scenarioId : ScenarioId) (organismType : OrganismType) (pool : GenomePoolId).

Lemma entry_brain_ok kind variant (entry : BrainRegistryEntry.t R) : BrainRegistry.find registry organismType kind variant = Some entry -> brain_ok maxWeights entry.
Proof. destruct Hregistry as [Hall _]. apply Hall. Qed.

Lemma learning_fits (entry : BrainRegistryEntry.t R) create compatible layout g :
  learning_brain maxWeights entry create compatible layout -> compatible g = true -> fits maxWeights entry g.
Proof. intros [_ _ Hl _ Hcovers] Hg _. exists layout. split; [done |]. by apply Hcovers. Qed.

(** The executor can resolve the requests for such a population. *)
Lemma spec_runnable override training tokenizer n spec (entry : BrainRegistryEntry.t R) :
  (Evolution.trainingRequiresNesTileTokenizer training = true -> tokenizer <> None) -> spec ∈ TrainingSpec.population training ->
  runnable override (startExecutor training tokenizer n) (Evolution.newIndividual (R := R) spec (TrainingSpec.scenarioId training) entry None).
Proof.
  intros Htiles Hin g index generation Hi.
  assert (String.eqb (PopulationSpec.brainKind spec) "NesTileRecurrent" = true -> tokenizer <> None) as Htok.
  { intros Hk. apply Htiles. unfold Evolution.trainingRequiresNesTileTokenizer. apply existsb_exists. exists spec.
    by split; [apply list_elem_of_In |]. }
  split; (split; [done |]); intros Hreq; (split; [done | left; by apply Htok]).
Qed.

Lemma valid_spec_ok override repoOverride training tokenizer n spec (entry : BrainRegistryEntry.t R) :
  TrainingSpec.organismType training = organismType ->
  (Evolution.trainingRequiresNesTileTokenizer training = true -> tokenizer <> None) -> spec ∈ TrainingSpec.population training ->
  valid_spec bootstrap (repository archive) repoOverride scenarioId organismType pool (BrainRegistry.find registry) spec entry ->
  PopulationSpec.count spec < 2 ^ 31 ->
  spec_ok (BrainRegistry.find registry) maxWeights archive override (startExecutor training tokenizer n) training spec entry.
Proof.
  intros Ho Htiles Hin [V1 V2 V3 V4 V5] Hcount. pose proof (entry_brain_ok _ _ _ V1) as Hb. unfold brain_ok in Hb. split.
  - by rewrite Ho.
  - lia.
  - done.
  - done.
  - intros id Hid. destruct (BrainRegistryEntry.requiresGenome entry) eqn:Hreq; [| destruct V4 as [E _]; rewrite E in Hid; by apply elem_of_nil in Hid].
    destruct Hb as (create & compatible & layout & HB). rewrite Forall_forall in V5. destruct (V5 id Hid) as [_ (g & Hg & Hacc) _].
    exists g. split; [exact Hg |]. unfold brain_accepts in Hacc. rewrite (lb_compatible _ _ _ _ _ HB) in Hacc. by eapply learning_fits.
  - intros Hr. destruct (BrainRegistryEntry.requiresGenome entry) eqn:Hreq; [| lia].
    destruct Hb as (create & compatible & layout & HB). exists create. split; [apply (lb_create _ _ _ _ _ HB) |].
    intros rng. eapply wp_mono; [apply (lb_random _ _ _ _ _ HB) |]. intros [g rng'] Hg. by eapply learning_fits.
  - by apply spec_runnable.
Qed.
End Made.

Lemma resolve_bound requested populationSize hardware :
  0 < populationSize < 2 ^ 31 -> Evolution.resolveParallelEvaluations requested populationSize hardware < 2 ^ 31.
Proof.
  intros Hn. unfold Evolution.resolveParallelEvaluations. rewrite (proj2 (Z.ltb_lt _ _)) by lia. cbn [andb].
  match goal with |- context [populationSize <? ?r] => destruct (Z.ltb_spec populationSize r) end; lia.
Qed.

Lemma spawned_lock_free training tokenizer n : EvaluationExecutor.lockFree (startExecutor training tokenizer n) = true.
Proof. unfold EvaluationExecutor.lockFree. cbn. by induction (Z.to_nat (Z.max 1 n)). Qed.

Lemma zsum_member l (x : Z) : Forall (Z.le 0) l -> x ∈ l -> x <= zsum l.
Proof.
  induction 1 as [| y l Hy Hl IH]; intros Hin; [by apply elem_of_nil in Hin |]. cbn [zsum foldr]. fold (zsum l).
  assert (0 <= zsum l) as H0 by (clear -Hl; induction Hl; cbn; [done |]; unfold zsum in *; lia).
  apply elem_of_cons in Hin as [-> | Hin]; [lia | specialize (IH Hin); lia].
Qed.

Lemma accepted_launch command training size injected override hardware registry (s : State) :
  answers bootstrap (repository (Evolution.archive s)) None getMetadata command training size injected ->
  BrainRegistry.createDefault = Ok registry -> Settings.trainingSpec (Evolution.settings s) = training -> trainable override s ->
  launch_ok (BrainRegistry.find registry) maxWeights bootstrap startExecutor override hardware s.
Proof.
  intros [Hsc Horg (population & registry' & metadata & _ & Er' & _ & Hacc & _) Hsize Hsome] Er Et
    [T1 T2 T3 T4 T5 T6 T7 T8 T9 T10]. rewrite Er in Er'. injection Er' as <-.
  assert (registered default_keys registry) as Hreg.
  { pose proof (createDefault_ok (R := R) (D := D)) as H. by rewrite Er in H. }
  split; try done; [by rewrite Et, <- Hsize |].
  rewrite Et in *. rewrite Hsize in Hsome.
  assert (requested training < 2 ^ 31) as Hreq31 by nia.
  assert (Forall (fun spec => exists entry, valid_spec bootstrap (repository (Evolution.archive s)) None (TrainingSpec.scenarioId training)
            (TrainingSpec.organismType training) (ScenarioMetadata.genomePoolId metadata) (BrainRegistry.find registry) spec entry)
            (TrainingSpec.population training)) as Hvalid.
  { rewrite Hsc, Horg. clear -Hacc. induction Hacc as [| a spec l l' H _ IH]; constructor; [| done].
    destruct H as (entry & seeds & _ & Hv & _). by exists entry. }
  assert (forall spec, spec ∈ TrainingSpec.population training -> PopulationSpec.count spec < 2 ^ 31) as Hcount.
  { intros spec Hin. eapply Z.le_lt_trans; [| exact Hreq31]. unfold requested. apply zsum_member; [| by apply list_elem_of_fmap_2].
    apply Forall_map. eapply Forall_impl; [exact Hvalid |]. intros spec' [entry [_ Hc _ _ _]]. lia. }
  assert (wp (Evolution.trainingTokenizer bootstrap training override) (fun tokenizer =>
            Evolution.trainingRequiresNesTileTokenizer training = true -> tokenizer <> None)) as Htok.
  { unfold Evolution.trainingTokenizer. destruct (Evolution.trainingRequiresNesTileTokenizer training); [| by apply wp_ok].
    destruct (T9 eq_refl) as [tokenizer ->]. apply wp_ok. done. }
  eapply wp_mono; [exact Htok |]. intros tokenizer Htiles. cbv zeta.
  set (n := Evolution.resolveParallelEvaluations _ _ _).
  destruct (spawn_running (Tok := NesTileTokenizer.t) (SC := SC) (Snapshot := Snapshot) training tokenizer n) as [R1 HB];
    [by apply resolve_bound |].
  split; [split; [exact R1 | apply spawned_lock_free] |]. split; [exact HB |]. rewrite Forall_forall in Hvalid |- *. intros spec Hin. destruct (Hvalid spec Hin) as [entry Hv].
  exists entry. exact (valid_spec_ok registry (Evolution.archive s) Hreg _ _ _ override None training tokenizer n spec entry eq_refl Htiles Hin Hv (Hcount spec Hin)).
Qed.

Abbreviation reachable_training registry :=
  (reachable (SC := SC) (Snapshot := Snapshot) (BrainRegistry.find registry) (works (Snapshot := Snapshot) mergePasses)).

(** C13. A training that is accepted can be entered: the new state's population is made
    without a fault - its seeds are there, its random genomes fit their brains, its
    counts are what is made -, and the training is one of those that never fault, never wait
    for nothing and end; if its numbers fit into an [int], and if the tiles it needs
    can be had. *)
Theorem accepted_training_enters (command : EvolutionStart.Command) (seed hardware : Z) (executor : Executor)
    (archive : Archive (Db := Db)) (s : State) registry sessionId deterministic pool seed' override :
  sane_command (repository archive) command ->
  onEvolutionStart bootstrap getMetadata command seed hardware executor archive = Ok (okay s) ->
  BrainRegistry.createDefault = Ok registry -> trainable override s ->
  exists s', Evolution.onEnter (BrainRegistry.find registry) bootstrap NesTileBrainMetadata.makeNesTileBrainCompatibilityMetadata startExecutor
               sessionId deterministic pool seed' hardware override s = Ok s' /\ reachable_training registry s'.
Proof.
  intros Hsane Hstart Er Htrain. pose proof (validate_ok bootstrap (repository archive) None getMetadata command seed Hsane) as Hv.
  unfold onEvolutionStart in Hstart. destruct (validateTrainingConfig _ _ _ _ _ _) as [[[[training size] injected] | e] | f]; try done.
  unfold try_bind in Hstart. cbn in Hstart, Hv. injection Hstart as <-.
  assert (launch_ok (BrainRegistry.find registry) maxWeights bootstrap startExecutor override hardware
            (newState (Evolution.with_parallel (resolveParallelEvaluations (EvolutionConfig.maxParallelEvaluations (EvolutionStart.evolution command)) size hardware)
                         (Evolution.with_population size (EvolutionStart.evolution command))) (EvolutionStart.mutation command) training executor archive)) as Hlaunch
    by (eapply accepted_launch; done).
  pose proof (onEnter_ok (BrainRegistry.find registry) maxWeights bootstrap NesTileBrainMetadata.makeNesTileBrainCompatibilityMetadata
    startExecutor sessionId deterministic pool seed' hardware override _ Hlaunch) as Henter.
  apply wp_elim in Henter as (s' & Es' & _). exists s'. split; [exact Es' |]. eapply reach_enter; [exact Hlaunch | exact Es'].
Qed.
End Enter.


(** ** Commands on small repositories *)
Section Demo.
Import Dice.

(** Two stored genomes of trees; the second is the better one. *)
Definition demo_metadata (fitness : Z) : GenomeMetadata.t :=
  GenomeMetadata.mk EmptyString (f64_of_Z fitness) (f64_of_Z fitness) 3 [] 1 100 TreeGermination EmptyString (Some TREE) (Some "NeuralNet"%string)
    None None PoolDirtSim None.
Definition demo_weak : GenomeId := UUID.generate 1 1.
Definition demo_strong : GenomeId := UUID.generate 2 2.
Definition demo_genome : Genome.t := Genome.mk (zeros NeuralNetBrain.TOTAL_WEIGHTS).
Definition demo_stored : GenomeRepository.t unit :=
  GenomeRepository.mk (<[demo_weak := demo_genome]> (<[demo_strong := demo_genome]> ∅)) ∅ ∅
    (<[demo_weak := demo_metadata 5]> (<[demo_strong := demo_metadata 7]> ∅)) None None.

Definition demo_no_tiles (_ : ScenarioId) (_ : option unit) : Result NesTileTokenizer.t string := error "no ROM"%string.
Definition demo_scenarios (_ : ScenarioId) : option ScenarioMetadata.t := Some (ScenarioMetadata.mk false PoolDirtSim).
Definition demo_command (population : list PopulationSpec.t) (organism : OrganismType) (policy : TrainingResumePolicy) : EvolutionStart.Command :=
  EvolutionStart.mkCommand EvolutionConfig.default MutationConfig.default TreeGermination organism population policy.

(** Three trees: one of them becomes a seed, the better genome. *)
Definition demo_trees : list PopulationSpec.t := [PopulationSpec.mk "NeuralNet" None 3 [] 3].
Definition demo_seeded : list PopulationSpec.t := [PopulationSpec.mk "NeuralNet" None 3 [demo_strong] 2].
Abbreviation demo_validate := (validateTrainingConfig (Db := unit) (R := Z) (D := f32) (SC := unit) demo_no_tiles demo_stored None demo_scenarios).

Example demo_warm_start :
  demo_validate (demo_command demo_trees TREE WarmFromBest) 1 = Ok (okay (TrainingSpec.mk TreeGermination TREE demo_seeded, 3, 1)).
Proof. by vm_compute. Qed.

(** The sizes of two populations overflow before they are checked. *)
Example populations_overflow :
  let crowd := PopulationSpec.mk "Random" None (2 ^ 30) [] 0 in
  demo_validate (demo_command [crowd; crowd] GOOSE Fresh) 1 = Fault IntOverflow.
Proof. by vm_compute. Qed.

(** The size of the tournaments is not checked, but breeding asserts it. *)
Example tournament_size_unchecked (fitness : list f64) (rng : Z) :
  let config := EvolutionConfig.mk 3 0 2 0 0 1000 1 fzero 1 3 (f64_of_Z 20) 2 true (f64_lit 3 10) (f64_of_Z 60) (f64_lit 1 1000) 5 3
    (f64_of_Z 1000) (f64_of_Z 100) (f64_of_Z 100) in
  demo_validate (EvolutionStart.mkCommand config MutationConfig.default TreeGermination TREE [] Fresh) 1
    = Ok (okay (TrainingSpec.mk TreeGermination TREE [PopulationSpec.mk "NeuralNet" None 3 [] 3], 3, 0)) /\
  exists msg, Evolution.tournamentSelectIndex fitness (EvolutionConfig.tournamentSize config) rng = Fault (AssertFailed msg).
Proof. split; [by vm_compute |]. unfold Evolution.tournamentSelectIndex. destruct (bool_decide _); by eexists. Qed.

(** A percentile that is no number is converted to an index. *)
Example nan_percentile (c : WarmSeedCandidate.t) :
  computeWarmSeedFitnessFloor [c] S754_nan = Fault (Undefined "double to size_t").
Proof. done. Qed.

Lemma demo_stored_fit : fit_repository demo_stored.
Proof.
  intros id metadata. unfold GenomeRepository.getMetadata, demo_stored. cbn [GenomeRepository.metadata_].
  rewrite !lookup_insert_Some, lookup_empty. intros [[_ <-] | [_ [[_ <-] | [_ ?]]]]; [by vm_compute | by vm_compute | done].
Qed.

Lemma demo_sane : sane_command demo_stored (demo_command demo_trees TREE WarmFromBest).
Proof.
  split.
  - split; [exact demo_stored_fit | by vm_compute | by split; vm_compute | by vm_compute].
  - intros population [= <-]. by repeat constructor.
  - intros population [= <-]. by vm_compute.
Qed.

(** That command is one of those that may not be rejected. *)
Example demo_acceptable :
  acceptable (R := Z) (D := f32) demo_no_tiles demo_stored None demo_scenarios (demo_command demo_trees TREE WarmFromBest).
Proof.
  split; [by split; [by vm_compute |] | done |]. pose proof (createDefault_ok (R := Z) (D := f32)) as (registry & Er & _)%wp_elim.
  eexists _, registry, _. split; [done |]. split; [done |]. split; [done |].
  assert (match BrainRegistry.createDefault (R := Z) (D := f32) with
          | Ok registry => default false (BrainRegistryEntry.requiresGenome <$> BrainRegistry.find registry TREE "NeuralNet" EmptyString)
          | Fault _ => false end = true) as Hreq by by vm_compute.
  rewrite Er in Hreq. constructor; [| done]. split; [done |]. split; [done |].
  destruct (BrainRegistry.find registry TREE "NeuralNet" EmptyString) as [entry |] eqn:Ee; [| done]. cbn in Hreq.
  exists entry. by split; try done; cbn; rewrite Hreq.
Qed.

Lemma evolution_start_accepts_witness :
  answers (D := f32) demo_no_tiles demo_stored None demo_scenarios (demo_command demo_trees TREE WarmFromBest)
    (TrainingSpec.mk TreeGermination TREE demo_seeded) 3 1.
Proof.
  pose proof (evolution_start_accepts (D := f32) demo_no_tiles demo_stored None demo_scenarios
    (demo_command demo_trees TREE WarmFromBest) 1 demo_sane) as H.
  rewrite demo_warm_start in H. exact H.
Defined.

(** Two random trees, on the archive of the demonstration. *)
Definition demo_start_command : EvolutionStart.Command :=
  EvolutionStart.mkCommand demo_evolution_config MutationConfig.default TreeGermination TREE
    [PopulationSpec.mk "NeuralNet" None 2 [] 2] Fresh.

Abbreviation StartExecutor := (EvaluationExecutor.t (Tok := NesTileTokenizer.t) (SC := unit) (Snapshot := unit)).
Definition demo_idle : StartExecutor := EvaluationExecutor.make (TrainingSpec.mk TreeGermination TREE []) None.
Abbreviation demo_on_start := (onEvolutionStart (Db := TableDb) (R := Z) (D := f32) (SC := unit) (E := StartExecutor) (Snapshot := unit)
  demo_no_tiles demo_scenarios demo_start_command 1 4 demo_idle demo_archive).
Definition demo_new : Evolution.t (R := Z) (A := DemoArchive) (E := StartExecutor) (SC := unit) (Snapshot := unit) :=
  match demo_on_start with
  | Ok (okay s) => s
  | _ => newState demo_evolution_config MutationConfig.default demo_training demo_idle demo_archive
  end.

Lemma demo_on_start_ok : demo_on_start = Ok (okay demo_new).
Proof. by vm_compute. Qed.

Lemma demo_start_sane : sane_command (repository demo_archive) demo_start_command.
Proof.
  split.
  - split; [by intros id metadata; unfold GenomeRepository.getMetadata; cbn; rewrite lookup_empty | by vm_compute | by split; vm_compute | by vm_compute].
  - intros population [= <-]. by repeat constructor.
  - intros population [= <-]. by vm_compute.
Qed.

Lemma demo_trainable : trainable (SC := unit) (Snapshot := unit) demo_no_tiles None demo_new.
Proof.
  split; [by vm_compute | by vm_compute | by vm_compute | by vm_compute | by vm_compute | by vm_compute | by vm_compute
         | split; split; by vm_compute | by vm_compute | exact demo_archive_stocked].
Qed.

#[local] Instance start_service : EvaluationService StartExecutor unit := enter_service demo_no_tiles.
#[local] Instance start_service_laws : EvaluationServiceLaws StartExecutor unit := enter_service_laws demo_no_tiles.
#[local] Instance start_collector : EvaluationCollector StartExecutor unit := enter_collector.
#[local] Instance start_collector_laws : EvaluationCollectorLaws StartExecutor unit unit := enter_collector_laws demo_no_tiles.
#[local] Instance start_tuning : EvaluationTuning StartExecutor := enter_tuning.
#[local] Instance start_tuning_laws : EvaluationTuningLaws StartExecutor unit := enter_tuning_laws demo_no_tiles.

Lemma accepted_training_enters_witness : exists registry s',
  Evolution.onEnter (BrainRegistry.find (R := Z) registry) demo_no_tiles NesTileBrainMetadata.makeNesTileBrainCompatibilityMetadata startExecutor
    (UUID.generate 3 3) false PoolDirtSim 12345 4 None demo_new = Ok s' /\
  EvolutionCorrect.reachable (SC := unit) (Snapshot := unit) (BrainRegistry.find registry) (works (Snapshot := unit) demo_merge) s'.
Proof.
  pose proof (createDefault_ok (R := Z) (D := f32)) as (registry & Er & _)%wp_elim.
  destruct (accepted_training_enters (D := f32) demo_no_tiles demo_scenarios demo_merge demo_start_command 1 4 demo_idle demo_archive demo_new
    registry (UUID.generate 3 3) false PoolDirtSim 12345 None demo_start_sane demo_on_start_ok Er demo_trainable) as (s' & H).
  by exists registry, s'.
Defined.
End Demo.
